(* ===== verification/_CoqProject ===== *)
-Q . S2P
Prelude.v
IntrMask.v
Bytes.v
BlockProg.v
BlockCache.v
Bitmap.v
Layout.v
DiskInode.v
Efs.v
Vfs.v
FileGrow.v
FsInv.v
FsOps.v
FsTree.v
FsSpec.v
Address.v
FrameAlloc.v
PageTable.v
MemorySet.v
KernelSpace.v
Gui.v
Fork.v
ElfLoad.v
Plic.v
Ids.v
UserIo.v
Pipe.v
Sched.v
Device.v
Virtio.v
Drivers.v
Sync.v
UserThreads.v
Adders.v
Mpsc.v
Barrier.v
Timer.v
Eventfd.v
Signals.v
Files.v
Fuse.v
Shell.v
UserMem.v
Abi.v
UserLib.v
Kernel.v
Process.v
ProcessTree.v
ProcessSim.v
ProcessLife.v
UserProcs.v
ProcRuns.v
ForkTests.v
ProcTests.v
ForkReturns.v
Boot.v
Trap.v
ExecArgs.v
