(* ===== verification/Prelude.v ===== *)
(** * tCore: a verification development

    tCore is a small operating system for one 64-bit RISC-V processor: a kernel ([os/]), a file
    system library ([easy-fs/]) with a packing tool ([easy-fs-fuse/]), and a user library with a
    shell and test programs ([user/]).  This library translates the parts of it that carry its own
    logic into Rocq definitions, function by function, and proves what makes them correct.  Names
    are those of the source; [X_f] is the method [f] of [X] where two types have one.

    ** How the program is put together

    A program makes an [ecall]; [trap_handler] saves its registers in its trap context, dispatches
    the call ([syscall]) and looks at its signals before it returns.  The calls work on processes
    and threads (the scheduler, the process tree), on address spaces (areas over a page table over
    frames), on open files (pipes, event counters, standard streams, inodes of easy-fs) and on
    objects that block threads (mutexes, semaphores, condition variables, timers).  easy-fs keeps a
    write-back cache of 16 blocks over a block device, on it bitmaps, disk inodes and directories.
    Interrupts come through the interrupt controller to the drivers, which wake the threads that
    wait for them.  The shell connects programs by pipes.

    ** How it is modelled

    - Numbers are [Z], machine words with their wrap-around written out ([wrap], [signed] below);
      the kernel is built in release mode, so that arithmetic wraps.  Bytes are [Z] in [0, 256).
    - A Rust panic is a value: code returns an [outcome], [Done] or [Panicked] with the reason
      (below).  Undefined behaviour is a panic too, so that a proved [Done] excludes it.
    - State is passed explicitly.  easy-fs is written as [prog], a free monad over its calls of the
      block cache (BlockProg.v); the kernel's calls on processes are [kop], a state and panic
      monad over the record [Kernel] (Kernel.v).  Shared objects ([Arc], [Weak]) are addresses
      into maps, so that aliasing and reference counts are those of the program.
    - Concurrency: there is one processor and the kernel is not preempted, so an operation runs to
      the point where it gives up the processor.  An operation that waits is cut there: a [_round]
      of a loop, [_begin] and [_finish], or a continuation ([cont] of Sync.v).  Step relations
      ([tree_step], [kstep], [work_step], [blk_step], ...) put the parts in any order.
    - Code outside of the repository is a parameter with its documented behaviour as the laws of a
      class: [BlockDevice], [BinaryHeap], [Uart16550], [VirtIOBlk], [VirtioDrivers]; [xmas_elf] is a function.  So
      are the repository's own traits, [FrameAllocator] and [File].  Each class has an instance.

    ** The files

    Foundations: this file (outcomes, machine words, tactics, lists); Bytes (buffers, codecs).

    easy-fs: BlockProg, BlockCache ([block_cache.rs], [BlockFile] of the packing tool), Bitmap,
    Layout and DiskInode ([layout.rs]), Efs ([efs.rs]), Vfs ([vfs.rs]).  [cache_refines]: the cache
    implements a flat disk for every client, so the clients are proved over the flat disk:
    allocation takes the first clear bit; [read_at] and [write_at] read and write exactly the
    file's bytes through direct and indirect blocks; a directory search is the first match of the
    entries; [create] then [open] gives the file system back; a cleared file returns all its blocks.
    FileGrow: [increase_size], which grows by index levels, is the same as growing block by block.
    FsInv, FsOps, FsTree and FsSpec: the invariant of a whole disk, and [easy_fs_refines_tree], by
    which every sequence of operations on an image does and returns what the tree of files and
    directories does, without a panic.  Fuse ([easy-fs-fuse/src/main.rs]): the image that the tool
    packs boots (each program is found, with its bytes), and the tool's own tests pass.

    Memory: Address, FrameAlloc, PageTable, MemorySet ([mm/]), KernelSpace ([new_kernel], [mm::init],
    [remap_test]), Fork and ElfLoad (proofs about [from_existed_user] and [from_elf]), Gui
    ([syscall/gui.rs], drawing in [user/src/io.rs]), UserIo and UserMem (bytes behind user
    pointers).  A page table is a map from pages to entries; a framed area holds frames of its own;
    [space] (Fork.v) is the invariant of a whole address space; the kernel maps itself, code
    read-only and data not executable, with 73 frames at most; a forked space shows the same bytes
    on other frames; a loaded program has its bytes and zeros with its permissions; the framebuffer
    appears in a process byte by byte.

    Threads: Ids ([task/id.rs]), Sched ([manager.rs], [processor.rs]), Sync ([sync/], [syscall/sync.rs]),
    Timer ([timer.rs]), IntrMask ([sync/up.rs]).  Each thread is in one place and its status says
    which; a mutex excludes; expired timers wake their threads and only they; an interrupt finds no
    cell borrowed, and nested borrows restore its interrupts.  UserThreads runs programs of threads on these, with any preemptions: Adders
    ([adder*.rs]: with a mutex the sum is right, with a test and a store or with Peterson's stores
    swapped it need not be), Mpsc ([mpsc_sem.rs]: the bounded buffer loses nothing and ends), Barrier
    ([barrier_condvar.rs]: nobody passes before all have come).

    Devices: Plic ([drivers/plic.rs], [boards/qemu.rs]), Device ([ns16550a.rs], [drivers/input]),
    Virtio ([virtio_blk.rs], [bus/virtio.rs]), Drivers (the set-up of the GPU, the input devices and the disk,
    [drivers/gpu], [drivers/input], over the calls of the driver crate).  The interrupts that are enabled are those that are
    handled, each by the device that the device tree gives it to; input is a queue without loss; every thread that waits for the disk is woken by its
    own request; memory given to a device is contiguous and comes back.

    Files: Files ([os/src/fs], [syscall/fs.rs]), Pipe ([pipe.rs]), Eventfd ([eventfd.rs]).  A
    descriptor table is a map; a pipe is a FIFO over all interleavings; reading a file fills
    exactly the buffer.

    Processes: Signals ([signal.rs], [action.rs], [task/mod.rs]), Kernel, Process ([process.rs],
    [task.rs], [syscall/process.rs], [syscall/thread.rs]), ProcessTree (the specification: an
    abstract tree of processes), ProcessSim and ProcessLife (the refinement, and what [waitpid]
    reaps), ForkReturns (the whole of [sys_fork], run forwards), Boot ([main.rs]: from the memory, the devices and
    the disk to [run_tasks] with the first process ready), Trap ([trap/mod.rs]), ExecArgs (from the
    stack that [exec] writes to the arguments that [main] gets).  UserProcs runs programs of several
    processes on the tree, in any order and among any other processes; ProcRuns runs them by the kernel's own calls, of
    which every run is one on the tree ([kruns_run]).  ForkTests: in the kernel's runs the test programs that fork and wait pass.
    ProcTests: in the kernel's runs [initproc] reaps every orphan; on the tree [forktree] prints each word once and [usertests] reports each exit
    code.

    User: Abi ([syscall/mod.rs]) and UserLib ([user/src/syscall.rs], [lib.rs]): every library call
    reaches its kernel function with its arguments and gets its result; Shell ([user_shell.rs]):
    what is typed is what is run, and pipelines are connected as written.

    ** Bounds and fuel

    A loop of the source that is not structural is a recursion on a number of rounds.  In DiskInode
    and BlockCache the number is computed from the bounds the loop reads on entry.  Elsewhere it is
    an argument, the definition says [None] when it runs out, and the theorem names enough:
    [read_all] ends within size / 512 + 2 rounds, [check_timer] within the number of timers and one,
    an interrupt handler's loop within the number of answers (or bytes) and one, a round of a pipe
    within two, a user string or buffer within its pages, a run of the tool's [tree] within the depth
    of the directory.  [copy_data] runs one round per page.  A program of threads or processes runs
    on a list of events; its theorem bounds the actions in any list, and gives a list to the end.

    Theorems ask for frames enough where the code would panic without: 3 per page of an area
    (itself and at most two tables), 2 per page of the framebuffer, 80 behind the kernel for its own
    space and the memory tests, and 91, those of the devices and 3 per page of the image for the start up to the first
    process.  They ask for pids below 2^63.  What is proved of a run of processes (ProcRuns.v) holds up to a panic,
    which ends the run: of [sys_fork] without frames, of [sys_waitpid] on a child that a suspended thread
    still holds ([waitpid_reaps]).

    ** What is not modelled, and why

    - Assembly and what only it sees: [trap.S], [switch.S], [entry.asm], [TaskContext]; the writes of
      control registers ([satp], [stvec], [sie]).  What runs after a switch is another operation.
    - Output: the consoles, log lines, [list_apps], [getcwd]; of a panic handler only that it ends
      the process or the machine.  Lines that a theorem is about are kept as data.
    - Of the start: clearing the bss and [heap_allocator.rs].  What the driver crate does with a device;
      SBI calls, [block_device_test] and the GPU's flush.
    - The programs under [user/src/bin] that make a few calls and print; of the shell the final loop
      of [waitpid]; of the threaded programs the reading of arguments and the [waittid] loops of
      [main].  How long a child of a test computes or sleeps is an argument.  The 500 squarings of an
      adder are one action.
    - Signals that end a process of a program of ProcRuns.
    - The order of memory accesses of devices and several processors: tCore runs on one, and threads
      interleave by single memory accesses. *)

From Stdlib Require Export ZArith Lia.
From stdpp Require Export strings numbers option base gmap sets list.
Export stdpp.list_relations.list stdpp.list_basics.list stdpp.list_misc.list stdpp.list_monad.list.

#[export] Set Default Goal Selector "!".
Open Scope Z_scope.

(** ** Outcomes of kernel code *)

(** Why the modelled Rust code stops abnormally. *)
Inductive panic : Type :=
| PAssert      (** [assert!] / [assert_eq!] failed *)
| PUnwrap      (** [unwrap] / [expect] on [None] or [Err] *)
| PIndex       (** slice or array index out of range *)
| PExplicit    (** an explicit [panic!], [unimplemented!] or [todo!] *)
| PBorrow      (** a [RefCell] borrowed twice *)
| PDeadlock    (** a spin lock taken twice by the same control flow: it never returns *)
| PInvalid.    (** bytes read at a type they do not encode (undefined behaviour in Rust) *)

#[export] Instance panic_eq_dec : EqDecision panic.
Proof. solve_decision. Defined.

Inductive outcome (A : Type) : Type :=
| Done (a : A)
| Panicked (p : panic).
Arguments Done {A} a.
Arguments Panicked {A} p.

#[export] Instance outcome_eq_dec {A} `{EqDecision A} : EqDecision (outcome A).
Proof. solve_decision. Defined.

#[export] Instance outcome_ret : MRet outcome := @Done.
#[export] Instance outcome_bind : MBind outcome := λ A B f m,
  match m with Done a => f a | Panicked p => Panicked p end.
#[export] Instance outcome_map : FMap outcome := λ A B f m,
  match m with Done a => Done (f a) | Panicked p => Panicked p end.

(** [assert!(b)] and [opt.unwrap()]. *)
Definition assert_that (b : bool) (p : panic) : outcome unit :=
  if b then Done tt else Panicked p.

Definition unwrap {A} (p : panic) (o : option A) : outcome A :=
  match o with Some a => Done a | None => Panicked p end.

Lemma outcome_bind_Done {A B} (f : A → outcome B) a : (Done a ≫= f) = f a.
Proof. done. Qed.

Lemma outcome_bind_Panicked {A B} (f : A → outcome B) p : (Panicked p ≫= f) = Panicked p.
Proof. done. Qed.

Lemma outcome_bind_inv {A B} (f : A → outcome B) (m : outcome A) b :
  (m ≫= f) = Done b → ∃ a, m = Done a ∧ f a = Done b.
Proof. destruct m; simpl; intros; [eauto|discriminate]. Qed.

Lemma unwrap_Done {A} p (o : option A) a : unwrap p o = Done a ↔ o = Some a.
Proof. destruct o; simpl; split; congruence. Qed.

(** ** Machine integers *)

(** The kernel is built with [--release]: arithmetic on a [w]-bit unsigned integer wraps. *)
Definition wrap (w z : Z) : Z := z mod 2 ^ w.
Abbreviation u8 := (wrap 8).
Abbreviation u16 := (wrap 16).
Abbreviation u32 := (wrap 32).
Abbreviation u64 := (wrap 64).

(** The two's complement reading of a [w]-bit word ([x as i32], [x as isize]). *)
Definition signed (w z : Z) : Z :=
  let u := wrap w z in if u <? 2 ^ (w - 1) then u else u - 2 ^ w.
Abbreviation i32 := (signed 32).
Abbreviation i64 := (signed 64).

Lemma wrap_small w z : 0 ≤ z < 2 ^ w → wrap w z = z.
Proof. apply Z.mod_small. Qed.

Lemma wrap_range w z : 0 ≤ w → 0 ≤ wrap w z < 2 ^ w.
Proof. intros. apply Z.mod_pos_bound. lia. Qed.

Lemma signed_small w z : 0 < w → - 2 ^ (w - 1) ≤ z < 2 ^ (w - 1) → signed w z = z.
Proof.
  intros Hw Hz. unfold signed, wrap.
  assert (E : 2 ^ w = 2 * 2 ^ (w - 1)) by (rewrite <- Z.pow_succ_r by lia; f_equal; lia).
  destruct (decide (0 ≤ z)).
  - rewrite Z.mod_small by lia. destruct (Z.ltb_spec z (2 ^ (w - 1))); lia.
  - replace z with ((z + 2 ^ w) + (-1) * 2 ^ w) by lia.
    rewrite Z.mod_add, Z.mod_small by lia.
    destruct (Z.ltb_spec (z + 2 ^ w) (2 ^ (w - 1))); lia.
Qed.

Lemma signed_range w z : 0 < w → - 2 ^ (w - 1) ≤ signed w z < 2 ^ (w - 1).
Proof.
  intros Hw. unfold signed. pose proof (wrap_range w z ltac:(lia)).
  assert (E : 2 ^ w = 2 * 2 ^ (w - 1)) by (rewrite <- Z.pow_succ_r by lia; f_equal; lia).
  destruct (Z.ltb_spec (wrap w z) (2 ^ (w - 1))); lia.
Qed.

Lemma signed_wrap w z : signed w (wrap w z) = signed w z.
Proof. unfold signed, wrap. by rewrite Zmod_mod. Qed.

Lemma wrap_wrap_le v w z : 0 ≤ v ≤ w → wrap v (wrap w z) = wrap v z.
Proof.
  intros. unfold wrap. apply Z.mod_mod_divide.
  exists (2 ^ (w - v)). rewrite <- Z.pow_add_r by lia. f_equal. lia.
Qed.

Lemma wrap_signed w z : 0 < w → wrap w (signed w z) = wrap w z.
Proof.
  intros. unfold signed, wrap.
  case_match; [by rewrite Zmod_mod|].
  by rewrite Zminus_mod, Z_mod_same_full, Z.sub_0_r, !Zmod_mod.
Qed.

(** ** Tactics of the development *)

(** Case analysis on the boolean comparisons of [Z] in the goal. *)
Ltac zbool :=
  repeat match goal with
  | |- context [(?a <? ?b)%Z] => destruct (Z.ltb_spec a b)
  | |- context [(?a <=? ?b)%Z] => destruct (Z.leb_spec a b)
  | |- context [(?a =? ?b)%Z] => destruct (Z.eqb_spec a b)
  end; try lia.

Ltac zbool_in H :=
  repeat match type of H with
  | context [(?a <? ?b)%Z] => destruct (Z.ltb_spec a b)
  | context [(?a <=? ?b)%Z] => destruct (Z.leb_spec a b)
  | context [(?a =? ?b)%Z] => destruct (Z.eqb_spec a b)
  end; try lia.

(** Invert a run of the outcome monad that returned. *)
Ltac inv_done :=
  repeat match goal with
  | H : mbind _ _ = Done _ |- _ => apply outcome_bind_inv in H as (? & ? & H)
  | H : Done _ = Done _ |- _ => injection H as H; subst
  | H : unwrap _ _ = Done _ |- _ => apply unwrap_Done in H
  | H : Panicked _ = Done _ |- _ => discriminate H
  end; simplify_eq.

(** Division and remainder by a literal, then linear arithmetic. *)
Ltac dlia := Z.div_mod_to_equations; lia.

Create HintDb tcore.

(** ** Lists *)

Definition zlen {A} (l : list A) : Z := Z.of_nat (length l).

(** Indexing a Rust slice: out of range panics. *)
Definition nth_or_panic {A} (l : list A) (i : Z) : outcome A :=
  if i <? 0 then Panicked PIndex else unwrap PIndex (l !! Z.to_nat i).

(** [iter().position(p)]: the index of the first element that satisfies [p]. *)
Fixpoint find_index {A} (p : A → bool) (l : list A) : option nat :=
  match l with
  | [] => None
  | x :: l => if p x then Some 0%nat else S <$> find_index p l
  end.

Lemma find_index_Some {A} (p : A → bool) l i :
  find_index p l = Some i ↔
  (∃ x, l !! i = Some x ∧ p x = true) ∧ ∀ j y, (j < i)%nat → l !! j = Some y → p y = false.
Proof.
  revert i. induction l as [|x l IH]; intros i; simpl.
  - split; [done|]. by intros [(y & ? & ?) _].
  - destruct (p x) eqn:Hp.
    + split.
      * intros [= <-]. split; [eauto|lia].
      * intros [_ Hmin]. destruct i; [done|]. specialize (Hmin 0%nat x ltac:(lia) eq_refl). congruence.
    + destruct i as [|i].
      * split; [destruct (find_index p l); done|].
        intros [(y & Hy & ?) _]. simpl in Hy. congruence.
      * transitivity (find_index p l = Some i).
        { destruct (find_index p l); simpl; split; congruence. }
        rewrite IH. split; intros [He Hmin]; (split; [done|]).
        -- intros [|j] y ? Hy; simpl in Hy; [congruence|]. eapply (Hmin j); [lia|done].
        -- intros j y ? Hy. by apply (Hmin (S j)); [lia|].
Qed.

Lemma find_index_None {A} (p : A → bool) l :
  find_index p l = None ↔ ∀ x, x ∈ l → p x = false.
Proof.
  induction l as [|x l IH]; simpl.
  - split; [intros _ x Hx; by apply not_elem_of_nil in Hx|done].
  - destruct (p x) eqn:Hp.
    + split; [done|]. intros H. by rewrite H in Hp by left.
    + rewrite fmap_None, IH. split.
      * intros H y [->|?]%elem_of_cons; auto.
      * intros H y ?. apply H. by right.
Qed.

Lemma find_index_lt {A} (p : A → bool) l i : find_index p l = Some i → (i < length l)%nat.
Proof. intros [(x & ? & _) _]%find_index_Some. by eapply lookup_lt_Some. Qed.


(** ** Bits of machine words *)

Lemma testbit_high n x i : 0 ≤ x < 2 ^ n → n ≤ i → Z.testbit x i = false.
Proof.
  intros Hx Hi. destruct (decide (0 ≤ n)).
  - rewrite <- (Z.mod_small x (2 ^ n)) by lia. by apply Z.mod_pow2_bits_high.
  - rewrite Z.pow_neg_r in Hx by lia. lia.
Qed.

Lemma bits_bound n x :
  0 ≤ n → 0 ≤ x → (∀ i, n ≤ i → Z.testbit x i = false) → x < 2 ^ n.
Proof.
  intros Hn Hx Hb. assert (x mod 2 ^ n = x) as <-; [|apply Z.mod_pos_bound; lia].
  apply Z.bits_inj'. intros i Hi. destruct (decide (i < n)).
  - by apply Z.mod_pow2_bits_low.
  - rewrite Z.mod_pow2_bits_high by lia. symmetry. apply Hb. lia.
Qed.

Lemma testbit_1_shiftl i j : 0 ≤ i → Z.testbit (Z.shiftl 1 i) j = (i =? j).
Proof. intros. rewrite Z.shiftl_1_l. by apply Z.pow2_bits_eqb. Qed.

(** [w | 1 << i] *)
Lemma testbit_set w i j : 0 ≤ i → Z.testbit (Z.lor w (Z.shiftl 1 i)) j = (i =? j) || Z.testbit w j.
Proof. intros. rewrite Z.lor_spec, testbit_1_shiftl by done. apply orb_comm. Qed.

Lemma set_bound n w i : 0 ≤ w < 2 ^ n → 0 ≤ i < n → 0 ≤ Z.lor w (Z.shiftl 1 i) < 2 ^ n.
Proof.
  intros Hw Hi. assert (0 ≤ Z.lor w (Z.shiftl 1 i)).
  { apply Z.lor_nonneg. split; [lia|]. apply Z.shiftl_nonneg. lia. }
  split; [done|]. apply bits_bound; [lia|done|]. intros j Hj.
  rewrite testbit_set by lia. rewrite (testbit_high n w j) by lia. by destruct (Z.eqb_spec i j); [lia|].
Qed.

(** [w & (1 << i) > 0] tests bit [i]. *)
Lemma land_bit_pos w i : 0 ≤ i → 0 ≤ w → (0 <? Z.land w (Z.shiftl 1 i)) = Z.testbit w i.
Proof.
  intros Hi Hw. destruct (Z.testbit w i) eqn:E.
  - apply Z.ltb_lt. assert (0 ≤ Z.land w (Z.shiftl 1 i)) by (apply Z.land_nonneg; lia).
    assert (Z.land w (Z.shiftl 1 i) ≠ 0); [|lia]. intros H0.
    assert (Ht : Z.testbit (Z.land w (Z.shiftl 1 i)) i = true)
      by (rewrite Z.land_spec, testbit_1_shiftl, E, Z.eqb_refl by done; done).
    rewrite H0, Z.bits_0 in Ht. done.
  - apply Z.ltb_ge. assert (Z.land w (Z.shiftl 1 i) = 0) as ->; [|done].
    apply Z.bits_inj'. intros j Hj. rewrite Z.land_spec, testbit_1_shiftl, Z.bits_0 by done.
    destruct (Z.eqb_spec i j) as [<-|]; [by rewrite E|by rewrite andb_false_r].
Qed.

(** Subtracting a set bit clears it. *)
Lemma sub_bit w i : 0 ≤ i → Z.testbit w i = true → w - Z.shiftl 1 i = Z.ldiff w (Z.shiftl 1 i).
Proof.
  intros Hi E. apply Z.sub_nocarry_ldiff. apply Z.bits_inj'. intros j Hj.
  rewrite Z.ldiff_spec, testbit_1_shiftl, Z.bits_0 by done.
  destruct (Z.eqb_spec i j) as [<-|]; [by rewrite E|done].
Qed.

Lemma testbit_clear w i j :
  0 ≤ i → Z.testbit (Z.ldiff w (Z.shiftl 1 i)) j = negb (i =? j) && Z.testbit w j.
Proof. intros. rewrite Z.ldiff_spec, testbit_1_shiftl by done. apply andb_comm. Qed.

Lemma clear_bound n w i : 0 ≤ w < 2 ^ n → 0 ≤ n → 0 ≤ i → 0 ≤ Z.ldiff w (Z.shiftl 1 i) < 2 ^ n.
Proof.
  intros Hw Hn Hi. assert (0 ≤ Z.ldiff w (Z.shiftl 1 i)) by (apply Z.ldiff_nonneg; lia).
  split; [done|]. apply bits_bound; [done..|]. intros j Hj.
  rewrite testbit_clear by done. rewrite (testbit_high n w j) by lia. apply andb_false_r.
Qed.

Lemma set_clear w i : 0 ≤ i → Z.testbit w i = false →
  Z.ldiff (Z.lor w (Z.shiftl 1 i)) (Z.shiftl 1 i) = w.
Proof.
  intros Hi E. apply Z.bits_inj'. intros j Hj. rewrite testbit_clear, testbit_set by done.
  destruct (Z.eqb_spec i j) as [<-|]; [by rewrite E|done].
Qed.
