(* ===== verification/IntrMask.v ===== *)
(** * IntrMask.v: cells of the kernel and interrupt masking ([os/src/sync/up.rs])

    [UPSafeCell] is a [RefCell]; [UPIntrFreeCell] also keeps interrupts off while it is borrowed.
    An interrupt handler runs only while the processor's interrupt bit is set. *)

From S2P Require Import Prelude.

(** ** [RefCell] *)

Record RefCell (X : Type) : Type := mkCell {
  value : X;
  borrowed : bool;
}.
Arguments mkCell {X}.
Arguments value {X}.
Arguments borrowed {X}.

Definition UPSafeCell_new {X} (v : X) : RefCell X := mkCell v false.

(** [borrow_mut] *)
Definition UPSafeCell_exclusive_access {X} (c : RefCell X) : outcome (RefCell X) :=
  assert_that (negb (borrowed c)) PBorrow;;
  mret (mkCell (value c) true).

(** ** The masking state, with [sstatus.SIE] of the processor *)

Record Cpu : Type := mkCpu {
  nested_level : Z;
  sie_before_masking : bool;
  sie : bool;
}.

(** [IntrMaskingInfo::new] on a processor. *)
Definition IntrMaskingInfo_new (sie : bool) : Cpu := mkCpu 0 false sie.

Definition enter (c : Cpu) : Cpu :=
  let sie_ := sie c in
  mkCpu (u64 (nested_level c + 1)) (if nested_level c =? 0 then sie_ else sie_before_masking c) false.

Definition exit (c : Cpu) : Cpu :=
  let l := u64 (nested_level c - 1) in
  mkCpu l (sie_before_masking c) (if (l =? 0) && sie_before_masking c then true else sie c).

(** [UPIntrFreeCell::exclusive_access], and [Drop for UPIntrRefMut]. *)
Definition UPIntrFreeCell_exclusive_access {X} (cpu : Cpu) (c : RefCell X) : outcome (Cpu * RefCell X) :=
  let cpu := enter cpu in
  c ← UPSafeCell_exclusive_access c;
  mret (cpu, c).

Definition UPIntrRefMut_drop {X} (cpu : Cpu) (c : RefCell X) : Cpu * RefCell X :=
  let c := mkCell (value c) false in
  (exit cpu, c).

Definition exclusive_session {X V} (cpu : Cpu) (c : RefCell X) (f : X → V * X) : outcome (V * Cpu * RefCell X) :=
  '(cpu, c) ← UPIntrFreeCell_exclusive_access cpu c;
  let '(v, x) := f (value c) in
  let '(cpu, c) := UPIntrRefMut_drop cpu (mkCell x (borrowed c)) in
  mret (v, cpu, c).

(** [enable_supervisor_interrupt] and [disable_supervisor_interrupt] of the trap code. *)
Definition enable_supervisor_interrupt (c : Cpu) : Cpu := mkCpu (nested_level c) (sie_before_masking c) true.
Definition disable_supervisor_interrupt (c : Cpu) : Cpu := mkCpu (nested_level c) (sie_before_masking c) false.

(** ** Cells of a kernel, used by system calls and by interrupt handlers *)

Section cells.
Context {X : Type}.

Record Cells : Type := mkCells {
  cpu : Cpu;
  cells : gmap nat (RefCell X);
}.

Definition access (w : Cells) (i : nat) : outcome Cells :=
  c ← unwrap PUnwrap (cells w !! i);
  '(p, c) ← UPIntrFreeCell_exclusive_access (cpu w) c;
  mret (mkCells p (<[i := c]> (cells w))).

(** The guard of the cell [i] is dropped; the guard has changed the value to [x]. *)
Definition release (w : Cells) (i : nat) (x : X) : outcome Cells :=
  c ← unwrap PUnwrap (cells w !! i);
  let '(p, c) := UPIntrRefMut_drop (cpu w) (mkCell x (borrowed c)) in
  mret (mkCells p (<[i := c]> (cells w))).

(** An interrupt handler that works on the cells [todo], one session after the other. *)
Fixpoint handler_run (w : Cells) (todo : list (nat * (X → X))) : outcome Cells :=
  match todo with
  | [] => mret w
  | (i, f) :: todo =>
      c ← unwrap PUnwrap (cells w !! i);
      '(_, p, c) ← exclusive_session (cpu w) c (λ x, (tt, f x));
      handler_run (mkCells p (<[i := c]> (cells w))) todo
  end.

(** The kernel borrows and gives back, in any order and nesting; interrupts come while they are on,
    and the hardware keeps them off in the handler. *)
Inductive borrow_step : Cells → Cells → Prop :=
| bs_access w i w' : access w i = Done w' → borrow_step w w'
| bs_release w i c x w' : cells w !! i = Some c → borrowed c = true → release w i x = Done w' → borrow_step w w'
| bs_interrupt w todo w' : sie (cpu w) = true →
    handler_run (mkCells (disable_supervisor_interrupt (cpu w)) (cells w)) todo = Done w' →
    borrow_step w (mkCells (mkCpu (nested_level (cpu w')) (sie_before_masking (cpu w')) true) (cells w')).

(** The trap code besides switches interrupts on or off while nothing is borrowed. *)
Inductive cell_step : Cells → Cells → Prop :=
| cs_borrow w w' : borrow_step w w' → cell_step w w'
| cs_enable w : nested_level (cpu w) = 0 → cell_step w (mkCells (enable_supervisor_interrupt (cpu w)) (cells w))
| cs_disable w : nested_level (cpu w) = 0 → cell_step w (mkCells (disable_supervisor_interrupt (cpu w)) (cells w)).

(** The cells that are borrowed. *)
Definition guards_held (m : gmap nat (RefCell X)) : nat := size (filter (λ p, borrowed p.2 = true) m).

Record cells_inv (w : Cells) : Prop := {
  ci_level : nested_level (cpu w) = Z.of_nat (guards_held (cells w));
  ci_masked : nested_level (cpu w) ≠ 0 → sie (cpu w) = false;
  ci_few : Z.of_nat (size (cells w)) < 2 ^ 64;
}.

Lemma guards_insert m i c d : m !! i = Some c →
  (guards_held (<[i := d]> m) + (if borrowed c then 1 else 0) = guards_held m + (if borrowed d then 1 else 0))%nat.
Proof.
  intros Hi. unfold guards_held. rewrite <- (insert_id _ _ _ Hi) at 2. rewrite <- (insert_delete_eq m i d), <- (insert_delete_eq m i c).
  set (r := delete i m). assert (Hr : r !! i = None) by apply lookup_delete_eq.
  assert (H : ∀ e, size (filter (λ p : nat * RefCell X, borrowed p.2 = true) (<[i := e]> r)) =
    (size (filter (λ p : nat * RefCell X, borrowed p.2 = true) r) + if borrowed e then 1 else 0)%nat).
  { intros e. destruct (borrowed e) eqn:E.
    - rewrite map_filter_insert_True by done. rewrite map_size_insert_None; [lia|]. apply map_lookup_filter_None_2. by left.
    - rewrite map_filter_insert_False by (cbn; congruence). rewrite delete_id by done. lia. }
  rewrite !H. lia.
Qed.

Lemma guards_le m : (guards_held m ≤ size m)%nat.
Proof. unfold guards_held. apply map_size_filter. Qed.

Lemma guards_pos m i c : m !! i = Some c → borrowed c = true → guards_held m ≠ 0%nat.
Proof.
  intros Hi Hb E. pose proof (guards_insert m i c (mkCell (value c) false) Hi) as H. rewrite Hb, E in H. cbn in H. lia.
Qed.

(** A handler that starts with nothing borrowed ends, and borrows nothing for good. *)
Lemma handler_run_spec todo : ∀ w, guards_held (cells w) = 0%nat → nested_level (cpu w) = 0 → sie (cpu w) = false →
  (∀ i f, (i, f) ∈ todo → is_Some (cells w !! i)) →
  ∃ w', handler_run w todo = Done w' ∧ guards_held (cells w') = 0%nat ∧ nested_level (cpu w') = 0 ∧ sie (cpu w') = false ∧ size (cells w') = size (cells w).
Proof.
  induction todo as [|[i f] todo IH]; intros w Hh Hl Hs Hin; cbn [handler_run]; [by exists w|].
  destruct (Hin i f ltac:(by left)) as [c Hc]. rewrite Hc. cbn [unwrap]. rewrite outcome_bind_Done.
  assert (Hb : borrowed c = false) by (apply not_true_is_false; intros Hb; by apply (guards_pos _ _ _ Hc Hb)).
  unfold exclusive_session, UPIntrFreeCell_exclusive_access, UPSafeCell_exclusive_access. rewrite Hb. cbn [negb assert_that].
  repeat rewrite outcome_bind_Done. unfold UPIntrRefMut_drop, enter, exit. cbn [value borrowed nested_level sie_before_masking sie].
  rewrite Hl, Hs. change (u64 (u64 (0 + 1) - 1)) with 0. cbn [Z.eqb andb].
  cbn [mret outcome_ret]. rewrite outcome_bind_Done. match goal with |- context [handler_run ?w1 todo] => destruct (IH w1) as (w' & Hr & H1 & H2 & H3 & H4) end.
  - cbn. pose proof (guards_insert (cells w) i c (mkCell (f (value c)) false) Hc) as H. rewrite Hb in H. cbn in H. lia.
  - done.
  - done.
  - intros j g Hj. cbn. destruct (decide (j = i)) as [->|]; [rewrite lookup_insert_eq; by eexists|]. rewrite lookup_insert_ne by done. eapply Hin. by right.
  - exists w'. split; [exact Hr|]. do 3 (split; [done|]). rewrite H4. cbn. apply map_size_insert_Some. by exists c.
Qed.

Lemma handler_kept todo : ∀ w w', handler_run w todo = Done w' → guards_held (cells w) = 0%nat → nested_level (cpu w) = 0 → sie (cpu w) = false →
  guards_held (cells w') = 0%nat ∧ nested_level (cpu w') = 0 ∧ size (cells w') = size (cells w).
Proof.
  intros w w' E Hh Hl Hs.
  assert (Hin : ∀ i f, (i, f) ∈ todo → is_Some (cells w !! i)).
  { clear Hh Hl Hs. revert w E. induction todo as [|[i f] todo IH]; intros w E j g Hj; [by apply not_elem_of_nil in Hj|]. cbn [handler_run] in E.
    apply outcome_bind_inv in E as (c & Hc%unwrap_Done & ([[u p] c'] & _ & E)%outcome_bind_inv).
    apply elem_of_cons in Hj as [[= -> ->]|Hj]; [by exists c|]. destruct (IH _ E j g Hj) as [d Hd]. cbn in Hd.
    destruct (decide (j = i)) as [->|]; [by exists c|]. rewrite lookup_insert_ne in Hd by done. by exists d. }
  destruct (handler_run_spec todo w Hh Hl Hs Hin) as (w2 & E2 & ? & ? & _ & ?). rewrite E in E2. by injection E2 as <-.
Qed.

Lemma release_Done w i c x w' : cells w !! i = Some c → release w i x = Done w' →
  w' = mkCells (exit (cpu w)) (<[i := mkCell x false]> (cells w)).
Proof. intros Hc E. unfold release in E. rewrite Hc in E. cbn in E. by injection E as <-. Qed.

Lemma access_Done w i w' : access w i = Done w' →
  ∃ c, cells w !! i = Some c ∧ borrowed c = false ∧ w' = mkCells (enter (cpu w)) (<[i := mkCell (value c) true]> (cells w)).
Proof.
  intros E. unfold access in E. apply outcome_bind_inv in E as (c & Hc%unwrap_Done & ([p c'] & E & [= <-])%outcome_bind_inv).
  unfold UPIntrFreeCell_exclusive_access, UPSafeCell_exclusive_access in E.
  apply outcome_bind_inv in E as (c1 & (u & Hb & [= <-])%outcome_bind_inv & [= <- <-]). exists c. by destruct (borrowed c).
Qed.

Lemma borrow_step_inv w w' : borrow_step w w' → cells_inv w → cells_inv w'.
Proof.
  intros S [L M F]. destruct S as [w i w' E|w i c x w' Hi Hb E|w todo w' Hs E].
  - destruct (access_Done _ _ _ E) as (c & Hc & Eb & ->).
    pose proof (guards_insert (cells w) i c (mkCell (value c) true) Hc) as Hh. rewrite Eb in Hh. cbn in Hh.
    pose proof (guards_le (<[i := mkCell (value c) true]> (cells w))) as Hle. rewrite (map_size_insert_Some _ _ _ (mk_is_Some _ _ Hc)) in Hle.
    split; cbn.
    + rewrite L, wrap_small by lia. lia.
    + done.
    + by rewrite (map_size_insert_Some _ _ _ (mk_is_Some _ _ Hc)).
  - rewrite (release_Done _ _ _ _ _ Hi E).
    pose proof (guards_insert (cells w) i c (mkCell x false) Hi) as Hh. rewrite Hb in Hh. cbn in Hh.
    pose proof (guards_le (cells w)) as Hle. pose proof (guards_pos _ _ _ Hi Hb) as Hpos.
    assert (Hm : sie (cpu w) = false) by (apply M; lia). split; cbn.
    + rewrite L, wrap_small by lia. lia.
    + intros Hne. destruct (Z.eqb_spec (u64 (nested_level (cpu w) - 1)) 0); [done|]. by rewrite Hm.
    + by rewrite (map_size_insert_Some _ _ _ (mk_is_Some _ _ Hi)).
  - assert (Hl : nested_level (cpu w) = 0) by (destruct (Z.eq_dec (nested_level (cpu w)) 0); [done|]; rewrite M in Hs by done; done).
    destruct (handler_kept todo _ _ E) as (H1 & H2 & H3); [cbn; lia|done|done|]. cbn in H3. split; cbn; [lia|lia|by rewrite H3].
Qed.

Lemma cell_step_inv w w' : cell_step w w' → cells_inv w → cells_inv w'.
Proof. intros [v v' S|v Hl|v Hl]; [by apply borrow_step_inv|intros [L M F]; by split..]. Qed.

(** The interrupt bit as it was before the outermost borrow is remembered through all nested ones. *)
Definition remembers (b : bool) (w : Cells) : Prop :=
  if nested_level (cpu w) =? 0 then sie (cpu w) = b else sie_before_masking (cpu w) = b.

Lemma borrow_step_remembers b w w' : borrow_step w w' → cells_inv w → remembers b w → remembers b w'.
Proof.
  intros S I R. pose proof (borrow_step_inv _ _ S I) as I'. destruct I as [L M F]. unfold remembers in *.
  destruct S as [w i w' E|w i c x w' Hi Hb E|w todo w' Hs E].
  - destruct (access_Done _ _ _ E) as (c & Hc & Eb & ->).
    pose proof (guards_insert (cells w) i c (mkCell (value c) true) Hc) as Hh. rewrite Eb in Hh. cbn in Hh.
    pose proof (guards_le (<[i := mkCell (value c) true]> (cells w))) as Hle. rewrite (map_size_insert_Some _ _ _ (mk_is_Some _ _ Hc)) in Hle.
    cbn. rewrite wrap_small by lia. destruct (Z.eqb_spec (nested_level (cpu w) + 1) 0); [lia|]. by destruct (nested_level (cpu w) =? 0).
  - rewrite (release_Done _ _ _ _ _ Hi E). pose proof (guards_le (cells w)) as Hle. pose proof (guards_pos _ _ _ Hi Hb) as Hpos.
    cbn. rewrite wrap_small by lia. destruct (Z.eqb_spec (nested_level (cpu w)) 0); [lia|].
    destruct (Z.eqb_spec (nested_level (cpu w) - 1) 0) as [E0|]; [|done]. rewrite M by done. cbn. by rewrite R; destruct b.
  - destruct (Z.eqb_spec (nested_level (cpu w)) 0) as [Hl|Hl]; [|rewrite M in Hs by done; done].
    destruct (handler_kept todo _ _ E) as (_ & H2 & _); [cbn; lia|done|done|]. cbn. rewrite H2. cbn. by rewrite <- R.
Qed.

Lemma borrows_remember b w w' : rtc borrow_step w w' → cells_inv w → remembers b w → cells_inv w' ∧ remembers b w'.
Proof. induction 1; eauto using borrow_step_inv, borrow_step_remembers. Qed.

(** ** Properties *)

(** C31. While any [UPIntrFreeCell] is borrowed the processor takes no interrupt, in whatever order
    guards are taken and dropped: the nesting level is the number of guards held, and with the level
    above zero interrupts are off.  So an interrupt handler always finds every cell free: its
    sessions never panic on a cell that the code it interrupted has borrowed, and they end with nothing
    borrowed and interrupts off as they were.  A cell that is free can be borrowed, one that is not panics.
    And nesting restores: from a point where nothing is borrowed, after any borrows and drops,
    nested as they like and with interrupts in between, interrupts are off as long as a guard is left
    and are exactly as they were at that point once none is. *)
Theorem interrupts_find_cells_free w0 w : cells_inv w0 → rtc cell_step w0 w →
  (nested_level (cpu w) = Z.of_nat (guards_held (cells w)) ∧ (guards_held (cells w) ≠ 0%nat → sie (cpu w) = false)) ∧
  (∀ todo, sie (cpu w) = true → (∀ i f, (i, f) ∈ todo → is_Some (cells w !! i)) →
     ∃ w', handler_run (mkCells (disable_supervisor_interrupt (cpu w)) (cells w)) todo = Done w' ∧
       guards_held (cells w') = 0%nat ∧ nested_level (cpu w') = 0 ∧ sie (cpu w') = false) ∧
  (∀ i c, cells w !! i = Some c → if borrowed c then access w i = Panicked PBorrow else ∃ w', access w i = Done w' ∧ sie (cpu w') = false) ∧
  (guards_held (cells w) = 0%nat → ∀ w', rtc borrow_step w w' →
     sie (cpu w') = if bool_decide (guards_held (cells w') = 0%nat) then sie (cpu w) else false).
Proof.
  intros I0 S. assert (I : cells_inv w) by (clear -I0 S; induction S; eauto using cell_step_inv). pose proof I as [L M F].
  split; [split; [done|intros Hh; apply M; lia]|]. split; [|split].
  - intros todo Hs Hin. assert (Hl : nested_level (cpu w) = 0) by (destruct (Z.eq_dec (nested_level (cpu w)) 0); [done|]; rewrite M in Hs by done; done).
    destruct (handler_run_spec todo (mkCells (disable_supervisor_interrupt (cpu w)) (cells w))) as (w' & Hr & H1 & H2 & H3 & _);
      [cbn; lia|done|done|done|]. by exists w'.
  - intros i c Hc. unfold access, UPIntrFreeCell_exclusive_access, UPSafeCell_exclusive_access. rewrite Hc. cbn [unwrap]. rewrite outcome_bind_Done.
    destruct (borrowed c); [done|]. by eexists.
  - intros Hh w' Sw. assert (R0 : remembers (sie (cpu w)) w) by (unfold remembers; by rewrite L, Hh).
    destruct (borrows_remember _ _ _ Sw I R0) as [[L' M' _] R']. unfold remembers in R'. case_bool_decide as E.
    + by rewrite L', E in R'.
    + apply M'. lia.
Qed.
End cells.
Arguments Cells X : clear implicits.

(** Two cells, interrupts on. An interrupt works on both; and both are borrowed, one inside the
    other, and given back: then interrupts are on again. *)
Lemma interrupts_find_cells_free_witness :
  let w0 := mkCells (IntrMaskingInfo_new true) (<[0%nat := UPSafeCell_new 5]> {[1%nat := UPSafeCell_new 6]}) in
  (∃ w', handler_run (mkCells (disable_supervisor_interrupt (cpu w0)) (cells w0)) [(0%nat, Z.succ); (1%nat, Z.succ)] = Done w') ∧
  ∃ w1 w2 w3 w4, access w0 0 = Done w1 ∧ access w1 1 = Done w2 ∧ release w2 0 7 = Done w3 ∧ release w3 1 8 = Done w4 ∧
    sie (cpu w2) = false ∧ sie (cpu w4) = true.
Proof.
  intros w0. assert (I0 : cells_inv w0) by (split; [reflexivity|done|reflexivity]).
  destruct (interrupts_find_cells_free w0 w0 I0 (rtc_refl _ _)) as (_ & Hirq & _ & Hback). split.
  - destruct (Hirq [(0%nat, Z.succ); (1%nat, Z.succ)] eq_refl) as (w' & Hr & _); [|by exists w'].
    intros i f Hi. repeat (apply elem_of_cons in Hi as [[= -> _]|Hi]; [by eexists|]). by apply not_elem_of_nil in Hi.
  - do 4 eexists. do 4 (split; [reflexivity|]). split; [reflexivity|].
    refine (Hback eq_refl _ _). eapply rtc_l; [by apply (bs_access _ 0%nat)|]. eapply rtc_l; [by apply (bs_access _ 1%nat)|].
    eapply rtc_l; [by eapply (bs_release _ 0%nat _ 7)|]. eapply rtc_l; [by eapply (bs_release _ 1%nat _ 8)|]. apply rtc_refl.
Defined.
