(* ===== verification/Bytes.v ===== *)
(** * Bytes.v: byte buffers, slices and little-endian codecs

    Block contents, page frames and user buffers are lists of bytes ([Z] in [0, 256)).  The Rust
    code reads them at other types ([get_ref::<T>], [as_bytes], [get_pte_array]); both build
    targets are little endian, so those views are the codecs of this file. *)

From S2P Require Import Prelude.

Definition byte_ok (b : Z) : Prop := 0 ≤ b < 256.
Abbreviation bytes_ok := (Forall byte_ok).

#[export] Instance byte_ok_dec b : Decision (byte_ok b).
Proof. unfold byte_ok. apply _. Defined.

(** ** Slices *)

(** [&buf[off..off + len]] *)
Definition slice (off len : nat) (b : list Z) : list Z := take len (drop off b).

(** [buf[off..off + src.len()].copy_from_slice(src)] *)
Definition splice (off : nat) (src b : list Z) : list Z :=
  take off b ++ src ++ drop (off + length src) b.

#[global] Arguments slice : simpl never.
#[global] Arguments splice : simpl never.

Section slices.
Implicit Types (b src : list Z) (off len : nat).

Lemma length_slice off len b : (off + len ≤ length b)%nat → length (slice off len b) = len.
Proof. intros. unfold slice. rewrite length_take, length_drop. lia. Qed.

Lemma length_splice off src b :
  (off + length src ≤ length b)%nat → length (splice off src b) = length b.
Proof. intros. unfold splice. rewrite !length_app, length_take, length_drop. lia. Qed.

Lemma bytes_ok_slice off len b : bytes_ok b → bytes_ok (slice off len b).
Proof. intros. by apply Forall_take, Forall_drop. Qed.

Lemma bytes_ok_splice off src b : bytes_ok src → bytes_ok b → bytes_ok (splice off src b).
Proof. intros. apply Forall_app; split; [by apply Forall_take|]. apply Forall_app; split; [done|by apply Forall_drop]. Qed.

Lemma lookup_slice off len b i :
  slice off len b !! i = if decide (i < len)%nat then b !! (off + i)%nat else None.
Proof.
  unfold slice. case_decide.
  - by rewrite lookup_take_lt, lookup_drop.
  - by rewrite lookup_take_ge by lia.
Qed.

Lemma lookup_splice off src b i :
  (off + length src ≤ length b)%nat →
  splice off src b !! i =
    if decide (off ≤ i < off + length src)%nat then src !! (i - off)%nat else b !! i.
Proof.
  intros Hlen. unfold splice. destruct (decide (i < off)%nat) as [Hi|Hi].
  - rewrite lookup_app_l by (rewrite length_take; lia). rewrite decide_False by lia.
    by rewrite lookup_take_lt.
  - rewrite lookup_app_r by (rewrite length_take; lia). rewrite length_take, Nat.min_l by lia.
    case_decide.
    + by rewrite lookup_app_l by lia.
    + rewrite lookup_app_r by lia. rewrite lookup_drop. f_equal. lia.
Qed.

Lemma slice_splice_eq off src b :
  (off + length src ≤ length b)%nat → slice off (length src) (splice off src b) = src.
Proof.
  intros. apply list_eq. intros i. rewrite lookup_slice, lookup_splice by done. case_decide.
  - rewrite decide_True by lia. f_equal. lia.
  - symmetry. apply lookup_ge_None. lia.
Qed.

Lemma slice_splice_ne off src b off' len' :
  (off + length src ≤ length b)%nat →
  (off' + len' ≤ off ∨ off + length src ≤ off')%nat →
  slice off' len' (splice off src b) = slice off' len' b.
Proof.
  intros. apply list_eq. intros i. rewrite !lookup_slice. case_decide; [|done].
  rewrite lookup_splice by done. by rewrite decide_False by lia.
Qed.

Lemma splice_slice off len b :
  (off + len ≤ length b)%nat → splice off (slice off len b) b = b.
Proof.
  intros. assert (length (slice off len b) = len) by by apply length_slice.
  apply list_eq. intros i. rewrite lookup_splice by lia. case_decide; [|done].
  rewrite lookup_slice, decide_True by lia. f_equal. lia.
Qed.

Lemma splice_all src b : length src = length b → splice 0 src b = src.
Proof. intros E. unfold splice. rewrite take_0, E, drop_ge by lia. by rewrite app_nil_r. Qed.

Lemma slice_all b : slice 0 (length b) b = b.
Proof. unfold slice. by rewrite drop_0, take_ge by lia. Qed.

(** The view at [off] of a buffer whose bytes there were overwritten. *)
Lemma slice_splice_prefix off len src b :
  (length src ≤ len)%nat → (off + len ≤ length b)%nat →
  slice off len (splice off src b) = splice 0 src (slice off len b).
Proof.
  intros Hs Hl. assert (length (slice off len b) = len) by by apply length_slice.
  apply list_eq. intros i. rewrite lookup_slice. case_decide as Hi.
  - rewrite !lookup_splice by lia. repeat case_decide; try lia; [f_equal; lia|].
    by rewrite lookup_slice, decide_True.
  - symmetry. apply lookup_ge_None. rewrite length_splice; lia.
Qed.

Lemma slice_slice o1 l1 o2 l2 b :
  (o2 + l2 ≤ l1)%nat → slice o2 l2 (slice o1 l1 b) = slice (o1 + o2) l2 b.
Proof.
  intros. apply list_eq. intros i. rewrite !lookup_slice.
  case_decide; [|done]. rewrite decide_True by lia. f_equal. lia.
Qed.
End slices.

#[export] Hint Resolve bytes_ok_slice bytes_ok_splice : tcore.

(** ** Little-endian integers *)

Fixpoint le_bytes (n : nat) (z : Z) : list Z :=
  match n with
  | O => []
  | S n => z mod 256 :: le_bytes n (z / 256)
  end.

Fixpoint le_value (bs : list Z) : Z :=
  match bs with
  | [] => 0
  | b :: bs => b + 256 * le_value bs
  end.

Lemma length_le_bytes n z : length (le_bytes n z) = n.
Proof. revert z. induction n; simpl; auto. Qed.

Lemma bytes_ok_le_bytes n z : bytes_ok (le_bytes n z).
Proof. revert z. induction n; simpl; constructor; [apply Z.mod_pos_bound; lia|done]. Qed.

Lemma pow256_S (n : nat) : 2 ^ (8 * Z.of_nat (S n)) = 256 * 2 ^ (8 * Z.of_nat n).
Proof. replace (8 * Z.of_nat (S n)) with (8 + 8 * Z.of_nat n) by lia. by rewrite Z.pow_add_r by lia. Qed.

Lemma le_value_bytes n z : le_value (le_bytes n z) = z mod 2 ^ (8 * Z.of_nat n).
Proof.
  revert z. induction n as [|n IH]; intros z; simpl le_bytes; cbn [le_value].
  - by rewrite Z.mul_0_r, Z.mod_1_r.
  - rewrite IH, pow256_S. by rewrite Z.rem_mul_r by lia.
Qed.

Lemma le_value_range bs : bytes_ok bs → 0 ≤ le_value bs < 2 ^ (8 * zlen bs).
Proof.
  unfold zlen. induction 1 as [|b bs Hb Hbs IH]; cbn [le_value]; [done|].
  cbn [length]. rewrite pow256_S. unfold byte_ok in Hb. lia.
Qed.

Lemma le_bytes_value bs : bytes_ok bs → le_bytes (length bs) (le_value bs) = bs.
Proof.
  induction 1 as [|b bs Hb Hbs IH]; [done|]. cbn [le_value length le_bytes].
  unfold byte_ok in Hb. f_equal.
  - rewrite Z.mul_comm, Z.mod_add, Z.mod_small by lia. done.
  - rewrite Z.mul_comm, Z.div_add, Z.div_small by lia. by rewrite Z.add_0_l.
Qed.

Lemma le_value_bytes_small n z :
  0 ≤ z < 2 ^ (8 * Z.of_nat n) → le_value (le_bytes n z) = z.
Proof. intros. by rewrite le_value_bytes, Z.mod_small. Qed.

(** ** Arrays of little-endian integers: [[u32; n]], [[u64; n]] *)

Fixpoint dec_arr (w n : nat) (b : list Z) : list Z :=
  match n with
  | O => []
  | S n => le_value (take w b) :: dec_arr w n (drop w b)
  end.

Fixpoint enc_arr (w : nat) (l : list Z) : list Z :=
  match l with
  | [] => []
  | z :: l => le_bytes w z ++ enc_arr w l
  end.

Definition words_ok (w : nat) : list Z → Prop := Forall (λ z, 0 ≤ z < 2 ^ (8 * Z.of_nat w)).

Lemma length_dec_arr w n b : length (dec_arr w n b) = n.
Proof. revert b. induction n; simpl; auto. Qed.

Lemma length_enc_arr w l : length (enc_arr w l) = (w * length l)%nat.
Proof.
  induction l as [|z l IH]; simpl; [lia|].
  rewrite length_app, length_le_bytes, IH. lia.
Qed.

Lemma bytes_ok_enc_arr w l : bytes_ok (enc_arr w l).
Proof.
  induction l; simpl; [constructor|].
  apply Forall_app. split; [apply bytes_ok_le_bytes|done].
Qed.

Lemma dec_enc_arr w l rest : words_ok w l → dec_arr w (length l) (enc_arr w l ++ rest) = l.
Proof.
  induction 1 as [|z l Hz Hl IH]; [done|]. cbn [length dec_arr enc_arr].
  rewrite <- app_assoc.
  rewrite take_app_le, take_ge by (rewrite length_le_bytes; lia).
  rewrite drop_app_ge by (rewrite length_le_bytes; lia).
  rewrite length_le_bytes, Nat.sub_diag, drop_0. f_equal; [|done].
  by apply le_value_bytes_small.
Qed.

Lemma enc_dec_arr w n b :
  bytes_ok b → length b = (w * n)%nat → enc_arr w (dec_arr w n b) = b.
Proof.
  revert b. induction n as [|n IH]; intros b Hb Hl.
  - destruct b; [done|simpl in Hl; lia].
  - cbn [dec_arr enc_arr]. rewrite IH.
    + assert (Hw : length (take w b) = w) by (rewrite length_take; lia).
      rewrite <- Hw at 1. rewrite le_bytes_value by by apply Forall_take.
      apply take_drop.
    + by apply Forall_drop.
    + rewrite length_drop. lia.
Qed.

Lemma words_ok_dec_arr w n b :
  bytes_ok b → (w * n ≤ length b)%nat → words_ok w (dec_arr w n b).
Proof.
  revert b. induction n as [|n IH]; intros b Hb Hl; [constructor|].
  cbn [dec_arr]. constructor.
  - assert (Hw : length (take w b) = w) by (rewrite length_take; lia).
    pose proof (le_value_range (take w b) ltac:(by apply Forall_take)) as Hr.
    unfold zlen in Hr. by rewrite Hw in Hr.
  - apply IH; [by apply Forall_drop|rewrite length_drop; lia].
Qed.

Lemma lookup_dec_arr w n b i :
  (i < n)%nat → dec_arr w n b !! i = Some (le_value (slice (w * i) w b)).
Proof.
  revert b i. induction n as [|n IH]; intros b i Hi; [lia|].
  destruct i as [|i]; cbn [dec_arr lookup list_lookup].
  - by rewrite Nat.mul_0_r.
  - rewrite IH by lia. unfold slice. rewrite drop_drop. do 4 f_equal. lia.
Qed.

(** The bytes of one element of an array. *)
Lemma slice_enc_arr w l i z :
  l !! i = Some z → slice (w * i) w (enc_arr w l) = le_bytes w z.
Proof.
  revert i. induction l as [|y l IH]; intros i Hi; [done|].
  destruct i as [|i]; cbn [lookup list_lookup] in Hi; cbn [enc_arr].
  - injection Hi as ->. unfold slice. rewrite Nat.mul_0_r, drop_0.
    rewrite take_app_le, take_ge by (rewrite length_le_bytes; lia). done.
  - rewrite <- (IH i Hi). unfold slice.
    rewrite drop_app_ge by (rewrite length_le_bytes; lia). rewrite length_le_bytes. do 2 f_equal. lia.
Qed.

#[export] Hint Resolve bytes_ok_le_bytes bytes_ok_enc_arr : tcore.
