(* ===== verification/BlockProg.v ===== *)
(** * BlockProg.v: programs over cached blocks (the interface of [easy-fs/src/block_cache.rs])

    Everything easy-fs does to the disk goes through [get_block_cache(id, dev).lock()], the
    [read]/[modify] closures run on the guard, and [block_cache_sync_all()].  [prog] is the free
    monad over those calls: a client (bitmap, inode, directory code) is one [prog], and it gets
    two interpretations: [run] here, on a plain map from block ids to contents, against which the
    clients are proved, and [run_cache] of BlockCache.v, the 16-entry cache over a device, which
    BlockCache.v proves to implement [run]. *)

From S2P Require Import Prelude Bytes.

Abbreviation block := (list Z) (only parsing).

(** [easy-fs/src/lib.rs]: [pub const BLOCK_SZ: usize = 512] *)
Definition BLOCK_SZ : nat := 512.
#[global] Arguments BLOCK_SZ : simpl never.

(** [easy-fs/src/block_cache.rs]: [const BLOCK_CACHE_SIZE: usize = 16] *)
Definition BLOCK_CACHE_SIZE : nat := 16.

Definition wf_block (b : block) : Prop := length b = BLOCK_SZ ∧ bytes_ok b.

Inductive prog (A : Type) : Type :=
| Ret (a : A)
| Fail (p : panic)
| Acquire (id : Z) (k : block → prog A)
| Release (id : Z) (upd : option block) (k : prog A)
| SyncAll (k : prog A).
Arguments Ret {A} a.
Arguments Fail {A} p.
Arguments Acquire {A} id k.
Arguments Release {A} id upd k.
Arguments SyncAll {A} k.

#[export] Instance prog_ret : MRet prog := @Ret.
#[export] Instance prog_bind : MBind prog := λ A B f,
  fix go m :=
    match m with
    | Ret a => f a
    | Fail p => Fail p
    | Acquire id k => Acquire id (λ b, go (k b))
    | Release id upd k => Release id upd (go k)
    | SyncAll k => SyncAll (go k)
    end.

(** [get_block_cache(id, dev).lock()]: the guard's contents. *)
Definition acquire (id : Z) : prog block := Acquire id Ret.
(** The guard and its [Arc] dropped; [Some b] when [get_mut] was taken and left contents [b]. *)
Definition release (id : Z) (upd : option block) : prog unit := Release id upd (Ret tt).
(** [block_cache_sync_all()] *)
Definition sync_all : prog unit := SyncAll (Ret tt).

Definition lift {A} (o : outcome A) : prog A :=
  match o with Done a => Ret a | Panicked p => Fail p end.

(** ** Typed views of a block *)

(** The representation of a [#[repr(C)]] type in memory: its size, its fields read from that many
    bytes, and the bytes a write of the fields touches (trailing padding stays as it was). *)
Record codec (T : Type) := Codec {
  csize : nat;
  cdec : list Z → option T;
  cenc : T → list Z;
}.
Arguments Codec {T}.
Arguments csize {T}.
Arguments cdec {T}.
Arguments cenc {T}.

(** The law of a codec on the values [P] that the code can hold. *)
Definition codec_ok {T} (c : codec T) (P : T → Prop) : Prop :=
  (∀ x, P x → (length (cenc c x) ≤ csize c)%nat ∧ bytes_ok (cenc c x)) ∧
  (∀ x bs, P x → length bs = csize c → cdec c (splice 0 (cenc c x) bs) = Some x) ∧
  (∀ bs x, bytes_ok bs → length bs = csize c → cdec c bs = Some x → P x ∧ splice 0 (cenc c x) bs = bs).

(** [BlockCache::get_ref]/[get_mut]: the offset check of both. *)
Definition view_block {T} (c : codec T) (off : nat) (b : block) : outcome T :=
  assert_that (bool_decide (off + csize c ≤ BLOCK_SZ)%nat) PAssert;;
  unwrap PInvalid (cdec c (slice off (csize c) b)).

(** [get_block_cache(id, dev).lock().read(off, f)] *)
Definition cache_read {T A} (c : codec T) (id : Z) (off : nat) (f : T → prog A) : prog A :=
  b ← acquire id;
  x ← lift (view_block c off b);
  v ← f x;
  release id None;;
  mret v.

(** [get_block_cache(id, dev).lock().modify(off, f)] *)
Definition cache_modify {T A} (c : codec T) (id : Z) (off : nat) (f : T → prog (A * T)) : prog A :=
  b ← acquire id;
  x ← lift (view_block c off b);
  '(v, x') ← f x;
  release id (Some (splice off (cenc c x') b));;
  mret v.

(** ** The flat interpretation *)

(** The disk as one map; [L] is the set of blocks whose guard is held.  [spin::Mutex] is not
    reentrant, so taking a held guard never returns; with [BLOCK_CACHE_SIZE] guards held no entry
    of the cache can be evicted and [get_block_cache] panics.  A block outside the map is a device
    error (the driver's own panic). *)
Inductive fault : Type := FPanic (p : panic) | FDevice.

Inductive fres (A : Type) : Type :=
| FDone (a : A) (L : gset Z) (D : gmap Z block)
| FFail (f : fault).
Arguments FDone {A} a L D.
Arguments FFail {A} f.

(** What Rust's types rule out: a guard dropped that is not held, contents of another size. *)
Definition upd_ok (upd : option block) : Prop := from_option (λ b, length b = BLOCK_SZ) True upd.

#[export] Instance upd_ok_dec upd : Decision (upd_ok upd).
Proof. destruct upd; unfold upd_ok; cbn; apply _. Defined.

Definition store_upd (id : Z) (upd : option block) (D : gmap Z block) : gmap Z block :=
  from_option (λ b, <[id:=b]> D) D upd.

Fixpoint run {A} (p : prog A) (L : gset Z) (D : gmap Z block) : fres A :=
  match p with
  | Ret a => FDone a L D
  | Fail e => FFail (FPanic e)
  | Acquire id k =>
      if decide (id ∈ L) then FFail (FPanic PDeadlock)
      else if decide (BLOCK_CACHE_SIZE ≤ size L)%nat then FFail (FPanic PExplicit)
      else match D !! id with
           | None => FFail FDevice
           | Some b => run (k b) ({[id]} ∪ L) D
           end
  | Release id upd k =>
      if decide (id ∈ L ∧ upd_ok upd) then run k (L ∖ {[id]}) (store_upd id upd D)
      else FFail (FPanic PInvalid)
  | SyncAll k =>
      if decide (L = ∅) then run k L D else FFail (FPanic PDeadlock)
  end.

Lemma run_bind {A B} (p : prog A) (f : A → prog B) L D :
  run (p ≫= f) L D =
    match run p L D with FDone a L' D' => run (f a) L' D' | FFail e => FFail e end.
Proof.
  revert L D. induction p as [a|e|id k IH|id upd k IH|k IH]; intros L D; cbn; [done..| | |].
  - repeat case_decide; [done..|]. destruct (D !! id); [|done]. apply IH.
  - case_decide; [apply IH|done].
  - case_decide; [apply IH|done].
Qed.

Lemma run_ret {A} (a : A) L D : run (mret a) L D = FDone a L D.
Proof. done. Qed.

Lemma run_lift_Done {A} (a : A) (o : outcome A) L D : o = Done a → run (lift o) L D = FDone a L D.
Proof. by intros ->. Qed.

(** Guards that can be taken: not held already, and room in the cache. *)
Definition can_hold (L : gset Z) (id : Z) : Prop := id ∉ L ∧ (size L < BLOCK_CACHE_SIZE)%nat.

Lemma run_acquire id L D b :
  can_hold L id → D !! id = Some b → run (acquire id) L D = FDone b ({[id]} ∪ L) D.
Proof. intros [? ?] Hb. cbn. rewrite !decide_False by (auto; lia). by rewrite Hb. Qed.

Lemma union_difference_id (id : Z) (L : gset Z) : id ∉ L → ({[id]} ∪ L) ∖ {[id]} = L.
Proof. set_solver. Qed.

(** The effect of a [read] closure whose body succeeds. *)
Lemma run_cache_read {T A} (c : codec T) id off (f : T → prog A) L D D' b x v :
  can_hold L id → D !! id = Some b → view_block c off b = Done x →
  run (f x) ({[id]} ∪ L) D = FDone v ({[id]} ∪ L) D' →
  run (cache_read c id off f) L D = FDone v L D'.
Proof.
  intros HL Hb Hx Hf. unfold cache_read.
  rewrite run_bind, (run_acquire id L D b) by done.
  rewrite run_bind, (run_lift_Done x) by done.
  rewrite run_bind, Hf. cbn. rewrite decide_True by (split; [set_solver|done]).
  cbn. by rewrite union_difference_id by apply HL.
Qed.

(** The effect of a [modify] closure whose body succeeds. *)
Lemma run_cache_modify {T A} (c : codec T) id off (f : T → prog (A * T)) L D D' b x v x' :
  can_hold L id → D !! id = Some b → length b = BLOCK_SZ →
  view_block c off b = Done x → (off + length (cenc c x') ≤ BLOCK_SZ)%nat →
  run (f x) ({[id]} ∪ L) D = FDone (v, x') ({[id]} ∪ L) D' →
  run (cache_modify c id off f) L D = FDone v L (<[id:=splice off (cenc c x') b]> D').
Proof.
  intros HL Hb Hlen Hx Henc Hf. unfold cache_modify.
  rewrite run_bind, (run_acquire id L D b) by done.
  rewrite run_bind, (run_lift_Done x) by done.
  rewrite run_bind, Hf. cbn.
  rewrite decide_True by (split; [set_solver|cbn; rewrite length_splice; lia]).
  cbn. by rewrite union_difference_id by apply HL.
Qed.

(** ** Codecs of plain arrays *)

Definition arr_codec (w n : nat) : codec (list Z) := Codec (w * n) (λ bs, Some (dec_arr w n bs)) (enc_arr w).

(** [BitmapBlock = [u64; 64]], [IndirectBlock = [u32; 128]], [DataBlock = [u8; 512]] *)
Definition BitmapBlock : codec (list Z) := arr_codec 8 64.
Definition IndirectBlock : codec (list Z) := arr_codec 4 128.
Definition DataBlock : codec (list Z) := Codec BLOCK_SZ Some id.

Lemma arr_codec_ok w n : codec_ok (arr_codec w n) (λ l, length l = n ∧ words_ok w l).
Proof.
  split; [|split]; cbn.
  - intros l [Hl _]. rewrite length_enc_arr, Hl. split; [done|apply bytes_ok_enc_arr].
  - intros l bs [Hl Hw] Hbs. f_equal. rewrite splice_all by (rewrite length_enc_arr; lia).
    rewrite <- (app_nil_r (enc_arr w l)), <- Hl. by apply dec_enc_arr.
  - intros bs l Hbs Hlen [= <-]. split.
    + split; [apply length_dec_arr|apply words_ok_dec_arr; [done|lia]].
    + rewrite splice_all by (rewrite length_enc_arr, length_dec_arr; lia). by apply enc_dec_arr.
Qed.

Lemma view_arr w n b :
  (w * n = BLOCK_SZ)%nat → wf_block b → view_block (arr_codec w n) 0 b = Done (dec_arr w n b).
Proof.
  intros E [Hlen _]. unfold view_block. cbn [csize arr_codec cdec].
  rewrite bool_decide_eq_true_2 by lia. cbn. rewrite E, <- Hlen. by rewrite slice_all.
Qed.

Lemma view_data b : wf_block b → view_block DataBlock 0 b = Done b.
Proof. intros [Hlen _]. unfold view_block. rewrite bool_decide_eq_true_2 by (cbn; lia). cbn. by rewrite <- Hlen, slice_all. Qed.

Definition wf_disk (D : gmap Z block) : Prop := map_Forall (λ _ b, wf_block b) D.

Lemma wf_disk_insert D id b : wf_disk D → wf_block b → wf_disk (<[id:=b]> D).
Proof. intros. by apply map_Forall_insert_2. Qed.

#[export] Hint Resolve wf_disk_insert : tcore.

(** *** Views written and read back *)

Section typed_views.
Context {T : Type} (c : codec T) (P : T → Prop) (Hc : codec_ok c P).

Lemma view_block_Some off b x : (off + csize c ≤ BLOCK_SZ)%nat →
  cdec c (slice off (csize c) b) = Some x → view_block c off b = Done x.
Proof. intros Hoff E. unfold view_block. rewrite bool_decide_eq_true_2 by done. cbn. by rewrite E. Qed.

Lemma view_block_write off b x : P x → (off + csize c ≤ BLOCK_SZ)%nat → length b = BLOCK_SZ →
  view_block c off (splice off (cenc c x) b) = Done x.
Proof.
  intros Hx Hoff Hb. apply view_block_Some; [done|]. destruct Hc as (Hl & Hd & _).
  rewrite slice_splice_prefix by (apply Hl in Hx as [? ?]; lia).
  apply Hd; [done|]. apply length_slice. lia.
Qed.

Lemma view_block_ok off b x : wf_block b → view_block c off b = Done x → P x.
Proof.
  intros [Hl Hb] Hv. unfold view_block in Hv. apply outcome_bind_inv in Hv as ([] & Ha & Hv).
  unfold assert_that in Ha. case_bool_decide; [|done]. apply unwrap_Done in Hv.
  eapply Hc; [| |exact Hv]; [by apply bytes_ok_slice|apply length_slice; lia].
Qed.

Lemma wf_block_write off b x : P x → (off + csize c ≤ BLOCK_SZ)%nat → wf_block b →
  wf_block (splice off (cenc c x) b).
Proof.
  intros Hx Hoff [Hl Hb]. destruct Hc as (He & _ & _). apply He in Hx as [Hle Hok].
  split; [rewrite length_splice; lia|by apply bytes_ok_splice].
Qed.

(** A [modify] of a structure inside a block. *)
Lemma run_modify_view {A} id off (f : T → prog (A * T)) L D b x v x' :
  can_hold L id → D !! id = Some b → wf_block b → view_block c off b = Done x → P x' →
  (off + csize c ≤ BLOCK_SZ)%nat → f x = Ret (v, x') →
  run (cache_modify c id off f) L D = FDone v L (<[id:=splice off (cenc c x') b]> D).
Proof.
  intros HL Hb Hwf Hv Hx' Hoff Hf. destruct Hc as (He & _ & _). apply He in Hx' as [Hle _].
  apply (run_cache_modify c id off f L D D b x v x'); [done|done|apply Hwf|done|lia|by rewrite Hf].
Qed.
End typed_views.

(** A [modify] of a whole block viewed as an array. *)
Lemma run_modify_arr {A} w n id (f : list Z → prog (A * list Z)) L D b v l' :
  (w * n = BLOCK_SZ)%nat → can_hold L id → D !! id = Some b → wf_block b →
  f (dec_arr w n b) = Ret (v, l') → length l' = n →
  run (cache_modify (arr_codec w n) id 0 f) L D = FDone v L (<[id:=enc_arr w l']> D).
Proof.
  intros E HL Hb Hwf Hf Hl.
  rewrite (run_cache_modify (arr_codec w n) id 0 f L D D b (dec_arr w n b) v l');
    [|done|done|apply Hwf|by apply view_arr|cbn; rewrite length_enc_arr, Hl; lia|by rewrite Hf].
  do 2 f_equal. apply splice_all. cbn. rewrite length_enc_arr, Hl, E. symmetry. apply Hwf.
Qed.

(** A [modify] of a whole block as bytes. *)
Lemma run_modify_data {A} id (f : list Z → prog (A * list Z)) L D b v b' :
  can_hold L id → D !! id = Some b → wf_block b → f b = Ret (v, b') → length b' = BLOCK_SZ →
  run (cache_modify DataBlock id 0 f) L D = FDone v L (<[id:=b']> D).
Proof.
  intros HL Hb Hwf Hf Hl.
  rewrite (run_cache_modify DataBlock id 0 f L D D b b v b');
    [|done|done|apply Hwf|by apply view_data|cbn; unfold Datatypes.id; lia|by rewrite Hf].
  do 2 f_equal. apply splice_all. cbn. unfold Datatypes.id. rewrite Hl. symmetry. apply Hwf.
Qed.

Lemma wf_block_enc_arr w l : (w * length l = BLOCK_SZ)%nat → wf_block (enc_arr w l).
Proof. intros E. split; [by rewrite length_enc_arr|apply bytes_ok_enc_arr]. Qed.

Lemma wf_disk_lookup D id b : wf_disk D → D !! id = Some b → wf_block b.
Proof. intros H Hb. exact (H id b Hb). Qed.

#[export] Hint Resolve wf_disk_lookup : tcore.
