(* ===== verification/BlockCache.v ===== *)
(** * BlockCache.v: the block cache of [easy-fs/src/block_cache.rs] over a block device

    [BlockDevice] is the trait of [easy-fs/src/lib.rs]; its laws are what a driver promises to the
    cache.  [BlockFile], the host file of [easy-fs-fuse/src/main.rs], is proved to keep them.  The
    rest is the cache: [BlockCache] entries, the manager's queue with its eviction rule, and
    [run_cache], which runs a [prog] on it; [cache_refines] proves that it implements [run]. *)

From S2P Require Import Prelude Bytes BlockProg.

(** ** The device *)

Class BlockDevice (Dev : Type) : Type := {
  read_block : Dev → Z → outcome block;
  write_block : Dev → Z → block → outcome Dev;
  dev_get : Dev → Z → option block;  (** abstract contents of the device *)
}.

Class BlockDeviceLaws (Dev : Type) `{BlockDevice Dev} : Prop := {
  dev_get_length dev id b : dev_get dev id = Some b → length b = BLOCK_SZ;
  read_block_spec dev id b : dev_get dev id = Some b → read_block dev id = Done b;
  write_block_spec dev id b : is_Some (dev_get dev id) → length b = BLOCK_SZ →
    ∃ dev', write_block dev id b = Done dev' ∧
      ∀ j, dev_get dev' j = if decide (j = id) then Some b else dev_get dev j;
}.

(** *** [BlockFile] of [easy-fs-fuse/src/main.rs]: a host file read and written by blocks *)

Definition seek_start (block_id : Z) : nat := Z.to_nat (u64 (block_id * Z.of_nat BLOCK_SZ)).

Definition BlockFile_read_block (file : list Z) (block_id : Z) : outcome block :=
  let buf := slice (seek_start block_id) BLOCK_SZ file in
  assert_that (bool_decide (length buf = BLOCK_SZ)) PAssert;;
  mret buf.

(** [write] past the end of a file extends it, filling a gap with zeros. *)
Definition BlockFile_write_block (file : list Z) (block_id : Z) (buf : block) : outcome (list Z) :=
  let off := seek_start block_id in
  assert_that (bool_decide (length buf = BLOCK_SZ)) PAssert;;
  mret (take off (file ++ replicate (off - length file) 0) ++ buf ++ drop (off + length buf) file).

Definition BlockFile_get (file : list Z) (id : Z) : option block :=
  if decide (0 ≤ id < 2 ^ 55 ∧ (id + 1) * Z.of_nat BLOCK_SZ ≤ zlen file)
  then Some (slice (Z.to_nat (id * Z.of_nat BLOCK_SZ)) BLOCK_SZ file) else None.

#[export] Instance BlockFile : BlockDevice (list Z) := {
  read_block := BlockFile_read_block;
  write_block := BlockFile_write_block;
  dev_get := BlockFile_get;
}.

(** ** The cache *)

Record BlockCache : Type := mkBlockCache {
  cache : block;
  block_id : Z;
  modified : bool;
}.

Abbreviation queue := (list (Z * BlockCache)).

Section cache.
Context {Dev : Type} `{BlockDevice Dev}.

Definition BlockCache_new (block_id : Z) (dev : Dev) : outcome BlockCache :=
  cache ← read_block dev block_id;
  mret (mkBlockCache cache block_id false).

Definition BlockCache_sync (c : BlockCache) (dev : Dev) : outcome (BlockCache * Dev) :=
  if modified c then
    dev ← write_block dev (block_id c) (cache c);
    mret (mkBlockCache (cache c) (block_id c) false, dev)
  else mret (c, dev).

(** [queue.iter().find(|pair| pair.0 == block_id)] *)
Definition find_cache (id : Z) (q : queue) : option BlockCache :=
  i ← find_index (λ e, e.1 =? id) q; snd <$> q !! i.

(** [BlockCacheManager::get_block_cache].  [L] are the blocks whose [Arc] somebody else holds:
    for the others [Arc::strong_count] is 1.  Dropping a drained entry syncs it ([Drop]). *)
Definition get_block_cache (L : gset Z) (q : queue) (dev : Dev) (id : Z) : outcome (queue * Dev) :=
  match find_index (λ e, e.1 =? id) q with
  | Some _ => mret (q, dev)
  | None =>
      '(q, dev) ←
        (if decide (length q = BLOCK_CACHE_SIZE) then
           match find_index (λ e, bool_decide (e.1 ∉ L)) q with
           | Some idx =>
               e ← unwrap PIndex (q !! idx);
               '(_, dev) ← BlockCache_sync e.2 dev;
               mret (delete idx q, dev)
           | None => Panicked PExplicit
           end
         else mret (q, dev));
      c ← BlockCache_new id dev;
      mret (q ++ [(id, c)], dev)
  end.

(** [block_cache_sync_all]: each entry locked in turn and synced. *)
Fixpoint block_cache_sync_all (L : gset Z) (q : queue) (dev : Dev) : outcome (queue * Dev) :=
  match q with
  | [] => mret ([], dev)
  | (id, c) :: q =>
      if decide (id ∈ L) then Panicked PDeadlock
      else
        '(c, dev) ← BlockCache_sync c dev;
        '(q, dev) ← block_cache_sync_all L q dev;
        mret ((id, c) :: q, dev)
  end.

(** [get_mut] sets [modified]; the closure leaves contents [b]. *)
Definition put_cache (id : Z) (b : block) (q : queue) : queue :=
  (λ e, if e.1 =? id then (e.1, mkBlockCache b (block_id e.2) true) else e) <$> q.

(** A client run on the cache: [L] the guards it holds, [q] the manager, [dev] the device. *)
Fixpoint run_cache {A} (p : prog A) (L : gset Z) (q : queue) (dev : Dev)
    : outcome (A * gset Z * queue * Dev) :=
  match p with
  | Ret a => mret (a, L, q, dev)
  | Fail e => Panicked e
  | Acquire id k =>
      '(q, dev) ← get_block_cache L q dev id;
      if decide (id ∈ L) then Panicked PDeadlock
      else
        c ← unwrap PUnwrap (find_cache id q);
        run_cache (k (cache c)) ({[id]} ∪ L) q dev
  | Release id upd k =>
      if decide (id ∈ L ∧ upd_ok upd) then
        run_cache k (L ∖ {[id]}) (from_option (λ b, put_cache id b q) q upd) dev
      else Panicked PInvalid
  | SyncAll k =>
      '(q, dev) ← block_cache_sync_all L q dev;
      run_cache k L q dev
  end.

(** ** The refinement *)

(** The cache state that stands for the flat disk [D]: at most 16 entries, one per block; held
    blocks are cached; a cached block's contents are the entry's, the others are the device's;
    an entry not modified agrees with the device. *)
Record cache_inv (L : gset Z) (D : gmap Z block) (q : queue) (dev : Dev) : Prop := {
  inv_nodup : NoDup q.*1;
  inv_size : (length q ≤ BLOCK_CACHE_SIZE)%nat;
  inv_held : ∀ id, id ∈ L → id ∈ q.*1;
  inv_id : ∀ id c, (id, c) ∈ q → block_id c = id;
  inv_cached : ∀ id c, (id, c) ∈ q → D !! id = Some (cache c);
  inv_clean : ∀ id c, (id, c) ∈ q → modified c = false → dev_get dev id = Some (cache c);
  inv_dev : ∀ id c, (id, c) ∈ q → is_Some (dev_get dev id);
  inv_miss : ∀ id, id ∉ q.*1 → D !! id = dev_get dev id;
  inv_length : map_Forall (λ _ b, length b = BLOCK_SZ) D;
}.

Context `{!BlockDeviceLaws Dev}.
Implicit Types (L : gset Z) (D : gmap Z block) (q : queue) (dev : Dev).

Lemma find_cache_elem id q c : NoDup q.*1 → (id, c) ∈ q → find_cache id q = Some c.
Proof.
  intros Hnd (i & Hi)%list_elem_of_lookup. unfold find_cache.
  assert (find_index (λ e : Z * BlockCache, e.1 =? id) q = Some i) as ->; [|cbn; by rewrite Hi].
  apply find_index_Some. split; [exists (id, c); split; [done|apply Z.eqb_refl]|].
  intros j [id' c'] Hj Hl. cbn. apply Z.eqb_neq. intros ->.
  assert (j = i); [|lia]. eapply NoDup_lookup; [exact Hnd|by rewrite list_lookup_fmap, Hl|by rewrite list_lookup_fmap, Hi].
Qed.

Lemma find_index_id_None id q : find_index (λ e : Z * BlockCache, e.1 =? id) q = None → id ∉ q.*1.
Proof.
  rewrite find_index_None. intros Hn (e & -> & He)%list_elem_of_fmap.
  apply Hn in He. by rewrite Z.eqb_refl in He.
Qed.

Lemma find_index_id_Some id q i : find_index (λ e : Z * BlockCache, e.1 =? id) q = Some i → id ∈ q.*1.
Proof.
  intros [([id' c] & Hi & He) _]%find_index_Some. cbn in He. apply Z.eqb_eq in He as ->.
  apply list_elem_of_fmap. exists (id, c). split; [done|]. by eapply list_elem_of_lookup_2.
Qed.

(** Writing an entry back makes the device hold its contents, and changes nothing else. *)
Lemma sync_spec L D q dev id c :
  cache_inv L D q dev → (id, c) ∈ q →
  ∃ dev', BlockCache_sync c dev = Done (mkBlockCache (cache c) id false, dev') ∧
    ∀ j, dev_get dev' j = if decide (j = id) then Some (cache c) else dev_get dev j.
Proof.
  intros I Hin. pose proof (inv_id _ _ _ _ I _ _ Hin) as Hid. unfold BlockCache_sync.
  destruct (modified c) eqn:Hm.
  - destruct (write_block_spec dev (block_id c) (cache c)) as (dev' & -> & Hdev).
    + rewrite Hid. by eapply inv_dev.
    + eapply (inv_length _ _ _ _ I id). by eapply inv_cached.
    + exists dev'. cbn. rewrite Hid in *. split; [done|exact Hdev].
  - exists dev. split; [destruct c; cbn in *; by subst|].
    intros j. case_decide as Hj; [subst j|done]. by eapply inv_clean.
Qed.

(** The state after [dev] took over an entry, as the eviction of one entry sees it. *)
Lemma evict_inv L D q q' dev dev' id c :
  cache_inv L D q dev → q ≡ₚ (id, c) :: q' → id ∉ L →
  (∀ j, dev_get dev' j = if decide (j = id) then Some (cache c) else dev_get dev j) →
  cache_inv L D q' dev'.
Proof.
  intros I Hp HL Hdev.
  assert (Hnd : NoDup ((id, c) :: q').*1) by (rewrite <- Hp; apply I).
  apply NoDup_cons in Hnd as [Hnotin Hnd].
  assert (Hsub : ∀ e, e ∈ q' → e ∈ q) by (intros e He; rewrite Hp; by right).
  assert (Hne : ∀ j d, (j, d) ∈ q' → j ≠ id).
  { intros j d Hj ->. apply Hnotin. apply list_elem_of_fmap. by exists (id, d). }
  split.
  - done.
  - pose proof (inv_size _ _ _ _ I) as Hs. rewrite Hp in Hs. cbn in Hs. lia.
  - intros j Hj. pose proof (inv_held _ _ _ _ I j Hj) as Hq. rewrite Hp in Hq. cbn in Hq.
    apply elem_of_cons in Hq as [->|?]; done.
  - intros j d Hj. eapply inv_id; eauto.
  - intros j d Hj. eapply inv_cached; eauto.
  - intros j d Hj Hm. rewrite Hdev, decide_False by eauto. eapply inv_clean; eauto.
  - intros j d Hj. rewrite Hdev, decide_False by eauto. eapply inv_dev; eauto.
  - intros j Hj. rewrite Hdev. case_decide as Hji.
    + subst. eapply inv_cached; [done|]. rewrite Hp. by left.
    + eapply inv_miss; [done|]. rewrite Hp. cbn. rewrite not_elem_of_cons. done.
  - apply I.
Qed.

(** With fewer than 16 guards held, a full queue has an entry to evict. *)
Lemma evictable_exists L D q dev :
  cache_inv L D q dev → (size L < length q)%nat → ∃ e, e ∈ q ∧ e.1 ∉ L.
Proof.
  intros I Hlt. destruct (decide (Exists (λ e, e.1 ∉ L) q)) as [He|He].
  - apply Exists_exists in He. done.
  - exfalso. assert (Hsub : ∀ id, id ∈ q.*1 → id ∈ L).
    { intros id (e & -> & Hin)%list_elem_of_fmap. destruct (decide (e.1 ∈ L)); [done|].
      destruct He. apply Exists_exists. eauto. }
    assert (list_to_set (C := gset Z) q.*1 ⊆ L) as Hs by set_solver.
    apply subseteq_size in Hs. rewrite size_list_to_set in Hs by apply I.
    rewrite length_fmap in Hs. lia.
Qed.

(** A new entry read from the device. *)
Lemma push_inv L D q dev id b :
  cache_inv L D q dev → id ∉ q.*1 → (length q < BLOCK_CACHE_SIZE)%nat → D !! id = Some b →
  cache_inv ({[id]} ∪ L) D (q ++ [(id, mkBlockCache b id false)]) dev.
Proof.
  intros I Hid Hs Hb. pose proof (inv_miss _ _ _ _ I id Hid) as Hm. rewrite Hb in Hm.
  split.
  - rewrite fmap_app. apply NoDup_app. split; [apply I|]. split; [|apply NoDup_singleton].
    intros x Hx ->%list_elem_of_singleton. done.
  - rewrite length_app. cbn. lia.
  - intros j Hj. rewrite fmap_app. apply elem_of_app. apply elem_of_union in Hj as [Hj|Hj].
    + right. cbn. set_solver.
    + left. by eapply inv_held.
  - intros j c [Hj|Hj%list_elem_of_singleton]%elem_of_app; [by eapply inv_id|]. by simplify_eq.
  - intros j c [Hj|Hj%list_elem_of_singleton]%elem_of_app; [by eapply inv_cached|]. by simplify_eq.
  - intros j c [Hj|Hj%list_elem_of_singleton]%elem_of_app; [by eapply inv_clean|]. by simplify_eq.
  - intros j c [Hj|Hj%list_elem_of_singleton]%elem_of_app; [eapply inv_dev; eauto|]. simplify_eq. rewrite <- Hm. eauto.
  - intros j Hj. rewrite fmap_app, not_elem_of_app in Hj. eapply inv_miss; [done|apply Hj].
  - apply I.
Qed.

Lemma get_block_cache_spec L D q dev id b :
  cache_inv L D q dev → can_hold L id → D !! id = Some b →
  ∃ q' dev' c, get_block_cache L q dev id = Done (q', dev') ∧
    find_cache id q' = Some c ∧ cache c = b ∧ cache_inv ({[id]} ∪ L) D q' dev'.
Proof.
  intros I [HL Hsz] Hb. unfold get_block_cache.
  destruct (find_index (λ e, e.1 =? id) q) as [i|] eqn:Hf.
  { apply find_index_id_Some in Hf. pose proof Hf as ([id' c] & Heq & Hin)%list_elem_of_fmap.
    cbn in Heq. subst id'. exists q, dev, c. split; [done|]. split; [by apply find_cache_elem; [apply I|]|].
    split; [pose proof (inv_cached _ _ _ _ I _ _ Hin); congruence|].
    destruct I. split; auto. intros j [->%elem_of_singleton|?]%elem_of_union; auto. }
  apply find_index_id_None in Hf.
  assert (∃ q1 dev1, (if decide (length q = BLOCK_CACHE_SIZE) then
           match find_index (λ e : Z * BlockCache, bool_decide (e.1 ∉ L)) q with
           | Some idx =>
               e ← unwrap PIndex (q !! idx); '(_, dev) ← BlockCache_sync e.2 dev; mret (delete idx q, dev)
           | None => Panicked PExplicit
           end
         else mret (q, dev)) = Done (q1, dev1) ∧
         cache_inv L D q1 dev1 ∧ id ∉ q1.*1 ∧ (length q1 < BLOCK_CACHE_SIZE)%nat)
    as (q1 & dev1 & -> & I1 & Hf1 & Hs1).
  { case_decide as Hfull; [|exists q, dev; split; [done|]; pose proof (inv_size _ _ _ _ I); eauto with lia].
    destruct (find_index _ q) as [idx|] eqn:Hidx.
    - pose proof Hidx as [([vid vc] & Hv & Hfree) _]%find_index_Some. apply bool_decide_eq_true in Hfree.
      rewrite Hv. cbn.
      destruct (sync_spec L D q dev vid vc I) as (dev' & -> & Hdev); [by eapply list_elem_of_lookup_2|].
      cbn. exists (delete idx q), dev'. split; [done|].
      assert (Hp : q ≡ₚ (vid, vc) :: delete idx q) by by apply delete_Permutation.
      split; [by eapply evict_inv|]. split.
      + intros Hin. apply Hf. rewrite Hp. by right.
      + rewrite length_delete by eauto. apply lookup_lt_Some in Hv. lia.
    - exfalso. destruct (evictable_exists L D q dev I) as (e & He & Hfree); [lia|].
      rewrite find_index_None in Hidx. apply Hidx in He. by rewrite bool_decide_eq_true_2 in He. }
  cbn. unfold BlockCache_new. rewrite (read_block_spec dev1 id b) by (rewrite <- Hb; symmetry; by eapply inv_miss).
  cbn. pose proof (push_inv L D q1 dev1 id b I1 Hf1 Hs1 Hb) as I2.
  eexists _, _, (mkBlockCache b id false). split; [done|]. split; [|done].
  apply find_cache_elem; [apply I2|]. apply elem_of_app. right. by apply list_elem_of_singleton.
Qed.

(** Guards held in all 16 entries: the next block panics. *)
Lemma get_block_cache_full L D q dev id :
  cache_inv L D q dev → id ∉ L → (BLOCK_CACHE_SIZE ≤ size L)%nat →
  get_block_cache L q dev id = Panicked PExplicit.
Proof.
  intros I HL Hs.
  assert (Hsub : L ⊆ list_to_set (C := gset Z) q.*1).
  { intros j Hj. apply elem_of_list_to_set. by eapply inv_held. }
  assert (Hq : size (list_to_set (C := gset Z) q.*1) = length q).
  { rewrite size_list_to_set by apply I. apply length_fmap. }
  pose proof (inv_size _ _ _ _ I) as Hlen. pose proof (subseteq_size _ _ Hsub) as Hle.
  assert (Heq : L = list_to_set (C := gset Z) q.*1).
  { apply set_subseteq_size_eq; [done|lia]. }
  assert (Hin : ∀ e, e ∈ q → e.1 ∈ L).
  { intros e He. rewrite Heq. apply elem_of_list_to_set. apply list_elem_of_fmap. eauto. }
  unfold get_block_cache. destruct (find_index (λ e, e.1 =? id) q) as [i|] eqn:Hf.
  - exfalso. apply find_index_id_Some in Hf as (e & -> & He)%list_elem_of_fmap. auto.
  - rewrite decide_True by lia.
    destruct (find_index (λ e : Z * BlockCache, bool_decide (e.1 ∉ L)) q) as [i|] eqn:Hv; [|done].
    apply find_index_Some in Hv as [(e & He & Hb) _]. apply bool_decide_eq_true in Hb.
    by apply list_elem_of_lookup_2, Hin in He.
Qed.

(** *** [block_cache_sync_all] *)

Abbreviation synced c := (mkBlockCache (cache c) (block_id c) false).

Lemma sync_step L D q rest dev id c :
  cache_inv L D (rest ++ (id, c) :: q) dev →
  ∃ dev', BlockCache_sync c dev = Done (synced c, dev') ∧
    cache_inv L D ((rest ++ [(id, synced c)]) ++ q) dev' ∧ id ∉ q.*1 ∧
    ∀ j, dev_get dev' j = if decide (j = id) then Some (cache c) else dev_get dev j.
Proof.
  intros I.
  assert (Hc : (id, c) ∈ rest ++ (id, c) :: q) by (apply elem_of_app; right; by left).
  assert (Hbid : block_id c = id) by by eapply inv_id.
  destruct (sync_spec L D _ dev id c I Hc) as (dev1 & Hsync & Hdev).
  exists dev1. rewrite Hbid. split; [done|].
  assert (Hnd : NoDup (rest ++ (id, c) :: q).*1) by apply I.
  rewrite fmap_app in Hnd. apply NoDup_app in Hnd as (_ & Hrest & [Hid _]%NoDup_cons).
  assert (Hne : ∀ j d, (j, d) ∈ rest ++ q → j ≠ id).
  { intros j d [Hj|Hj]%elem_of_app ->; [apply (Hrest id); [|by left]|apply Hid];
      apply list_elem_of_fmap; by exists (id, d). }
  split; [|done]. set (c1 := mkBlockCache (cache c) id false).
  assert (Hids : (rest ++ (id, c) :: q).*1 = ((rest ++ [(id, c1)]) ++ q).*1).
  { rewrite !fmap_app. cbn. by rewrite <- app_assoc. }
  assert (Hel : ∀ j d, (j, d) ∈ (rest ++ [(id, c1)]) ++ q →
            (j = id ∧ d = c1) ∨ ((j, d) ∈ rest ++ q ∧ (j, d) ∈ rest ++ (id, c) :: q)).
  { intros j d He. rewrite !elem_of_app, list_elem_of_singleton in He.
    rewrite !elem_of_app, elem_of_cons. destruct He as [[?|[= -> ->]]|?]; tauto. }
  split.
  - rewrite <- Hids. apply I.
  - pose proof (inv_size _ _ _ _ I) as Hs. rewrite !length_app in *. cbn in *. lia.
  - intros j Hj. rewrite <- Hids. by eapply inv_held.
  - intros j d [[-> ->]|[_ Hj]]%Hel; [done|]. by eapply inv_id.
  - intros j d [[-> ->]|[_ Hj]]%Hel; [by apply (inv_cached _ _ _ _ I id c)|]. by eapply inv_cached.
  - intros j d [[-> ->]|[Hq Hj]]%Hel Hm; rewrite Hdev; [by rewrite decide_True|].
    rewrite decide_False by eauto. by eapply inv_clean.
  - intros j d [[-> ->]|[Hq Hj]]%Hel; rewrite Hdev; [rewrite decide_True by done; eauto|].
    rewrite decide_False by eauto. eapply inv_dev; eauto.
  - intros j Hj. rewrite <- Hids in Hj. rewrite Hdev, decide_False; [by eapply inv_miss|].
    intros ->. apply Hj. apply list_elem_of_fmap. by exists (id, c).
  - apply I.
Qed.

Lemma sync_all_spec q dev L D rest :
  cache_inv L D (rest ++ q) dev → (∀ e, e ∈ q → e.1 ∉ L) →
  ∃ q' dev', block_cache_sync_all L q dev = Done (q', dev') ∧
    cache_inv L D (rest ++ q') dev' ∧
    (∀ id c, (id, c) ∈ q → dev_get dev' id = Some (cache c)) ∧
    (∀ id, id ∉ q.*1 → dev_get dev' id = dev_get dev id).
Proof.
  revert dev rest. induction q as [|[id c] q IH]; intros dev rest I Hfree.
  - exists [], dev. do 2 (split; [done|]). split; [|done]. by intros ? ? ?%not_elem_of_nil.
  - cbn [block_cache_sync_all]. rewrite decide_False by (apply (Hfree (id, c)); by left).
    destruct (sync_step L D q rest dev id c I) as (dev1 & -> & I1 & Hid & Hdev).
    destruct (IH dev1 _ I1) as (q' & dev' & Hrun & I' & Hsaved & Hkeep).
    { intros e He. apply Hfree. by right. }
    cbn. rewrite Hrun. cbn. exists ((id, synced c) :: q'), dev'. split; [done|].
    rewrite <- app_assoc in I'. split; [done|]. split.
    + intros j d [Hj|Hj]%elem_of_cons; [simplify_eq|by apply Hsaved].
      rewrite Hkeep by done. rewrite Hdev. by rewrite decide_True.
    + intros j Hj. cbn in Hj. apply not_elem_of_cons in Hj as [Hji Hj].
      rewrite Hkeep by done. rewrite Hdev. by rewrite decide_False.
Qed.

Lemma sync_all_held q dev L D rest e :
  cache_inv L D (rest ++ q) dev → e ∈ q → e.1 ∈ L →
  block_cache_sync_all L q dev = Panicked PDeadlock.
Proof.
  revert dev rest. induction q as [|[id c] q IH]; intros dev rest I He HL; [by apply not_elem_of_nil in He|].
  cbn [block_cache_sync_all]. destruct (decide (id ∈ L)) as [|Hfree]; [done|].
  destruct (sync_step L D q rest dev id c I) as (dev1 & -> & I1 & _).
  cbn. by rewrite (IH dev1 _ I1) by (apply elem_of_cons in He as [->|?]; done).
Qed.

(** Everything is on the device after [block_cache_sync_all]. *)
Lemma sync_all_durable L D q dev :
  cache_inv L D q dev → L = ∅ →
  ∃ q' dev', block_cache_sync_all L q dev = Done (q', dev') ∧ cache_inv L D q' dev' ∧
    ∀ id, dev_get dev' id = D !! id.
Proof.
  intros I ->. destruct (sync_all_spec q dev ∅ D [] I) as (q' & dev' & Hrun & I' & Hsaved & Hkeep).
  { set_solver. }
  exists q', dev'. split; [done|]. split; [done|]. intros id.
  destruct (decide (id ∈ q.*1)) as [Hin|Hout].
  - apply list_elem_of_fmap in Hin as ([id' c] & Heq & Hin). cbn in Heq. subst id'.
    rewrite (Hsaved _ _ Hin). symmetry. by apply (inv_cached _ _ _ _ I).
  - rewrite Hkeep by done. symmetry. by apply (inv_miss _ _ _ _ I).
Qed.

(** *** Dropping a guard *)

Lemma put_cache_ids id b q : (put_cache id b q).*1 = q.*1.
Proof. unfold put_cache. rewrite <- list_fmap_compose. apply list_fmap_ext. intros _ [j c] _. cbn. by destruct (j =? id). Qed.

Lemma elem_put_cache id b q j d :
  (j, d) ∈ put_cache id b q →
  (j = id ∧ ∃ c, (id, c) ∈ q ∧ d = mkBlockCache b (block_id c) true) ∨ (j ≠ id ∧ (j, d) ∈ q).
Proof.
  intros ([j' c] & Heq & Hin)%list_elem_of_fmap. cbn in Heq.
  destruct (Z.eqb_spec j' id) as [->|Hne]; simplify_eq; [left|right]; eauto.
Qed.

Lemma release_inv L D q dev id upd :
  cache_inv L D q dev → id ∈ L → upd_ok upd →
  cache_inv (L ∖ {[id]}) (store_upd id upd D) (from_option (λ b, put_cache id b q) q upd) dev.
Proof.
  intros I HL Hupd. destruct upd as [b|]; cbn in *.
  - pose proof (inv_held _ _ _ _ I _ HL) as Hidq. split.
    + rewrite put_cache_ids. apply I.
    + unfold put_cache. rewrite length_fmap. apply I.
    + intros j Hj. rewrite put_cache_ids. eapply inv_held; [done|set_solver].
    + intros j d [[-> (c & Hc & ->)]|[Hne Hj]]%elem_put_cache; cbn; by eapply inv_id.
    + intros j d [[-> (c & Hc & ->)]|[Hne Hj]]%elem_put_cache; cbn; [by rewrite lookup_insert_eq|].
      rewrite lookup_insert_ne by done. by eapply inv_cached.
    + intros j d [[-> (c & Hc & ->)]|[Hne Hj]]%elem_put_cache Hm; cbn in *; [done|]. by eapply inv_clean.
    + intros j d [[-> (c & Hc & ->)]|[Hne Hj]]%elem_put_cache; by eapply inv_dev.
    + intros j Hj. rewrite put_cache_ids in Hj. rewrite lookup_insert_ne by congruence. by eapply inv_miss.
    + apply map_Forall_insert_2; [done|apply I].
  - destruct I. split; auto. intros j Hj. apply inv_held0. set_solver.
Qed.

Lemma run_cache_bind {A B} (p : prog A) (f : A → prog B) L q dev :
  run_cache (p ≫= f) L q dev =
    ('(a, L', q', dev') ← run_cache p L q dev; run_cache (f a) L' q' dev').
Proof.
  revert L q dev. induction p as [a|e|id k IH|id upd k IH|k IH]; intros L q dev; cbn; [done..| | |].
  - destruct (get_block_cache L q dev id) as [[q' dev']|]; cbn; [|done]. case_decide; [done|].
    destruct (find_cache id q'); cbn; [apply IH|done].
  - case_decide; [apply IH|done].
  - destruct (block_cache_sync_all L q dev) as [[q' dev']|]; cbn; [apply IH|done].
Qed.

(** The cache as it starts, empty, over a device that holds [D]. *)
Lemma cache_inv_init D dev : (∀ id, D !! id = dev_get dev id) → cache_inv ∅ D [] dev.
Proof.
  intros Hdev. split; try (intros ? ? ?%not_elem_of_nil; done); try done.
  - constructor.
  - cbn. unfold BLOCK_CACHE_SIZE. lia.
  - intros id b Hb. rewrite Hdev in Hb. by eapply dev_get_length.
Qed.

(** *** The refinement theorem *)

Lemma cache_refines_aux {A} (p : prog A) L D q dev :
  cache_inv L D q dev →
  match run p L D with
  | FDone a L' D' => ∃ q' dev', run_cache p L q dev = Done (a, L', q', dev') ∧ cache_inv L' D' q' dev'
  | FFail (FPanic e) => run_cache p L q dev = Panicked e
  | FFail FDevice => True
  end.
Proof.
  revert L D q dev. induction p as [a|e|id k IH|id upd k IH|k IH]; intros L D q dev I; cbn.
  - eauto.
  - done.
  - destruct (decide (id ∈ L)) as [HL|HL].
    + pose proof (inv_held _ _ _ _ I _ HL) as Hq. unfold get_block_cache.
      destruct (find_index (λ e, e.1 =? id) q) eqn:Hf; [done|]. by apply find_index_id_None in Hf.
    + case_decide as Hs; [by rewrite (get_block_cache_full L D)|].
      destruct (D !! id) as [b|] eqn:Hb; [|done].
      destruct (get_block_cache_spec L D q dev id b I) as (q' & dev' & c & -> & Hc & <- & I'); [split; [done|lia]|done|].
      cbn. rewrite Hc. cbn. by apply IH.
  - destruct (decide (id ∈ L ∧ upd_ok upd)) as [[HL Hu]|]; [|done].
    apply IH. by apply release_inv.
  - destruct (decide (L = ∅)) as [->|Hne].
    + destruct (sync_all_durable ∅ D q dev I eq_refl) as (q' & dev' & -> & I' & _). cbn. by apply IH.
    + apply set_choose_L in Hne as (id & HL). pose proof (inv_held _ _ _ _ I _ HL) as Hq.
      apply list_elem_of_fmap in Hq as (e & -> & He). by rewrite (sync_all_held q dev L D [] e).
Qed.

(** C2. [BlockCacheManager] with its 16 entries, evictions and write-backs implements the flat
    disk: a client that returns on the flat disk returns the same value on the cache, leaving a
    cache state that stands for the flat one; and where the client's flat run panics, self-deadlocks
    on a held guard, or asks for a block with all 16 entries held, the cache run stops with the
    same panic.  Only device errors (a block outside the device) are left open. *)
Theorem cache_refines {A} (p : prog A) L D q dev :
  cache_inv L D q dev →
  match run p L D with
  | FDone a L' D' => ∃ q' dev', run_cache p L q dev = Done (a, L', q', dev') ∧ cache_inv L' D' q' dev'
  | FFail (FPanic e) => run_cache p L q dev = Panicked e
  | FFail FDevice => True
  end.
Proof. apply cache_refines_aux. Qed.

(** Every return of the client comes right after a [block_cache_sync_all]; [s] says that the last
    step was one. *)
Fixpoint ends_synced {A} (p : prog A) (s : bool) : Prop :=
  match p with
  | Ret _ => s = true
  | Fail _ => True
  | Acquire _ k => ∀ b, ends_synced (k b) false
  | Release _ _ k => ends_synced k false
  | SyncAll k => ends_synced k true
  end.

Lemma ends_synced_bind {A B} (p : prog A) (k : A → prog B) : (∀ a s, ends_synced (k a) s) → ∀ s, ends_synced (p ≫= k) s.
Proof. intros Hk. induction p as [a|e|id f IH|id upd f IH|f IH]; intros s; cbn; [apply Hk|done|intros b; apply IH|apply IH|apply IH]. Qed.

Lemma ends_synced_then {A B} (p : prog A) (k : A → prog B) : (∀ a, ends_synced (k a) true) → ∀ s, ends_synced p s → ends_synced (p ≫= k) s.
Proof. intros Hk. induction p as [a|e|id f IH|id upd f IH|f IH]; intros s; cbn; [intros ->; apply Hk|done|intros Hp b; apply IH, Hp|apply IH|apply IH]. Qed.

(** Then the device holds the flat disk when the client returns. *)
Lemma ends_synced_durable {A} (p : prog A) s : ∀ L D q dev a L' D', cache_inv L D q dev → ends_synced p s →
  (s = true → ∀ id, dev_get dev id = D !! id) → run p L D = FDone a L' D' →
  ∃ q' dev', run_cache p L q dev = Done (a, L', q', dev') ∧ cache_inv L' D' q' dev' ∧ ∀ id, dev_get dev' id = D' !! id.
Proof.
  revert s. induction p as [x|e|id k IH|id upd k IH|k IH]; intros s L D q dev a L' D' I He Hs Hrun; cbn [ends_synced run] in *.
  - injection Hrun as <- <- <-. exists q, dev. split; [done|]. split; [done|]. by apply Hs.
  - done.
  - pose proof (cache_refines_aux (Acquire id Ret) L D q dev I) as Href. cbn [run] in Href. case_decide; [done|]. case_decide; [done|].
    destruct (D !! id) as [b|] eqn:Hb; [|done]. destruct Href as (q1 & dev1 & Hc & I1). destruct (IH b false _ _ q1 dev1 a L' D' I1 (He b)) as (q' & dev' & Hc' & H'); [done|done|].
    exists q', dev'. split; [|done]. cbn [run_cache] in *. destruct (get_block_cache L q dev id) as [[q2 dev2]|]; [|done]. cbn [mbind outcome_bind] in *.
    case_decide; [done|]. destruct (find_cache id q2) as [c|]; [|done]. cbn [unwrap mbind outcome_bind] in *.
    assert (cache c = b ∧ q2 = q1 ∧ dev2 = dev1) as (-> & -> & ->) by (by inversion Hc). exact Hc'.
  - case_decide as Hd; [|done]. pose proof (cache_refines_aux (Release id upd (Ret tt)) L D q dev I) as Href. cbn [run] in Href. rewrite decide_True in Href by done.
    destruct Href as (q1 & dev1 & Hc & I1). destruct (IH false _ _ q1 dev1 a L' D' I1 He ltac:(done) Hrun) as (q' & dev' & Hc' & H').
    exists q', dev'. split; [|done]. cbn [run_cache] in *. rewrite decide_True in Hc by done. rewrite decide_True by done.
    assert (from_option (λ b, put_cache id b q) q upd = q1 ∧ dev = dev1) as [-> ->] by (by inversion Hc). exact Hc'.
  - case_decide as HL; [|done]. destruct (sync_all_durable L D q dev I HL) as (q1 & dev1 & Hc & I1 & Hdev).
    destruct (IH true L D q1 dev1 a L' D' I1 He (λ _, Hdev) Hrun) as (q' & dev' & Hc' & H'). exists q', dev'. split; [|done]. cbn [run_cache]. rewrite Hc. done.
Qed.

(** After any client that ends with [block_cache_sync_all], as the file system's updating
    operations do, the device itself holds exactly the flat disk: no modified block is left only
    in memory. *)
Theorem synced_client_is_durable {A} (p : prog A) L D q dev a D' :
  cache_inv L D q dev → run (v ← p; sync_all;; mret v) L D = FDone a ∅ D' →
  ∃ q' dev', run_cache (v ← p; sync_all;; mret v) L q dev = Done (a, ∅, q', dev') ∧
    ∀ id, dev_get dev' id = D' !! id.
Proof.
  intros I Hrun. rewrite run_bind in Hrun.
  pose proof (cache_refines_aux p L D q dev I) as Href.
  destruct (run p L D) as [a1 L1 D1|]; [|done]. destruct Href as (q1 & dev1 & Hp & I1).
  cbn in Hrun. destruct (decide (L1 = ∅)) as [->|]; [|done]. injection Hrun as -> ->.
  rewrite run_cache_bind, Hp. cbn.
  destruct (sync_all_durable ∅ D' q1 dev1 I1 eq_refl) as (q' & dev' & -> & _ & Hdev).
  cbn. eauto.
Qed.
End cache.

(** ** [BlockFile] keeps the laws of the trait *)

Lemma seek_start_small id : 0 ≤ id < 2 ^ 55 → seek_start id = Z.to_nat (id * Z.of_nat BLOCK_SZ).
Proof. intros. unfold seek_start, wrap. rewrite Z.mod_small; [done|]. unfold BLOCK_SZ. lia. Qed.

Lemma BlockFile_get_Some file id b :
  BlockFile_get file id = Some b ↔
  0 ≤ id < 2 ^ 55 ∧ (id + 1) * Z.of_nat BLOCK_SZ ≤ zlen file ∧ b = slice (seek_start id) BLOCK_SZ file.
Proof.
  unfold BlockFile_get. case_decide as Hd.
  - rewrite seek_start_small by lia. split; [intros [= <-]; naive_solver|]. by intros (_ & _ & ->).
  - split; [done|]. intros (? & ? & _). tauto.
Qed.

#[export] Instance BlockFile_laws : BlockDeviceLaws (list Z).
Proof.
  split.
  - intros file id b (Hid & Hlen & ->)%BlockFile_get_Some. rewrite seek_start_small by done.
    apply length_slice. unfold zlen, BLOCK_SZ in *. lia.
  - intros file id b (Hid & Hlen & ->)%BlockFile_get_Some. cbn. unfold BlockFile_read_block.
    rewrite bool_decide_eq_true_2; [done|]. rewrite seek_start_small by done.
    apply length_slice. unfold zlen, BLOCK_SZ in *. lia.
  - intros file id b [b0 (Hid & Hlen & _)%BlockFile_get_Some] Hb. cbn. unfold BlockFile_write_block.
    rewrite bool_decide_eq_true_2 by done. cbn. eexists. split; [done|]. intros j.
    rewrite (seek_start_small id) by done. set (off := Z.to_nat (id * Z.of_nat BLOCK_SZ)).
    assert (Hoff : (off + length b ≤ length file)%nat) by (unfold off, zlen, BLOCK_SZ in *; lia).
    replace (off - length file)%nat with 0%nat by lia. cbn [replicate]. rewrite app_nil_r.
    change (take off file ++ b ++ drop (off + length b) file) with (splice off b file).
    unfold BlockFile_get. unfold zlen. rewrite length_splice by done. fold (zlen file).
    case_decide as Hj; case_decide as Hji; subst.
    + f_equal. pose proof (slice_splice_eq off b file Hoff) as E. by rewrite Hb in E.
    + f_equal. apply slice_splice_ne; [done|]. rewrite Hb. unfold off, BLOCK_SZ in *. lia.
    + tauto.
    + done.
Qed.

(** A two-block host file and a client that changes one word of block 1. *)
Module CacheWitness.
Definition file : list Z := replicate 1024 7.
Definition disk : gmap Z block := <[0:=replicate 512 7]> (<[1:=replicate 512 7]> ∅).
Definition client : prog Z := cache_modify IndirectBlock 1 0 (λ l, Ret (zlen l, <[3%nat:=9]> l)).

Lemma cache_start : cache_inv ∅ disk [] file.
Proof.
  apply cache_inv_init. intros id. unfold disk.
  destruct (decide (id = 0)) as [->|H0]; [by vm_compute|].
  destruct (decide (id = 1)) as [->|H1]; [by vm_compute|].
  rewrite !lookup_insert_ne, lookup_empty by done. change (None = BlockFile_get file id). unfold BlockFile_get.
  rewrite decide_False; [done|]. change (zlen file) with 1024. unfold BLOCK_SZ. lia.
Qed.
End CacheWitness.

Lemma cache_refines_witness :
  cache_inv ∅ CacheWitness.disk [] CacheWitness.file ∧
  ∃ q' dev', run_cache CacheWitness.client ∅ [] CacheWitness.file = Done (128, ∅, q', dev').
Proof.
  split; [exact CacheWitness.cache_start|].
  pose proof (cache_refines CacheWitness.client _ _ _ _ CacheWitness.cache_start) as H.
  destruct (run CacheWitness.client ∅ CacheWitness.disk) as [a L' D'|] eqn:E; [|by vm_compute in E].
  destruct H as (q' & dev' & H & _). exists q', dev'. rewrite H. by vm_compute in E; simplify_eq.
Defined.

Lemma synced_client_is_durable_witness :
  ∃ D' q' dev',
    run (v ← CacheWitness.client; sync_all;; mret v) ∅ CacheWitness.disk = FDone 128 ∅ D' ∧
    run_cache (v ← CacheWitness.client; sync_all;; mret v) ∅ [] CacheWitness.file = Done (128, ∅, q', dev') ∧
    dev_get dev' 1 = D' !! 1.
Proof.
  destruct (run (v ← CacheWitness.client; sync_all;; mret v) ∅ CacheWitness.disk) as [a L' D'|] eqn:E;
    [|by vm_compute in E].
  assert (a = 128 ∧ L' = ∅) as [-> ->] by (by vm_compute in E; simplify_eq).
  destruct (synced_client_is_durable _ _ _ _ _ _ _ CacheWitness.cache_start E) as (q' & dev' & H & Hd).
  exists D', q', dev'. split; [done|]. split; [exact H|]. apply Hd.
Defined.
