(* ===== verification/Bitmap.v ===== *)
(** * Bitmap.v: the on-disk bitmaps of [easy-fs/src/bitmap.rs] *)

From S2P Require Import Prelude Bytes BlockProg.

(** [const BLOCK_BITS: usize = BLOCK_SZ * 8] *)
Definition BLOCK_BITS : Z := Z.of_nat BLOCK_SZ * 8.

Record Bitmap : Type := mkBitmap {
  start_block_id : Z;
  blocks : Z;
}.

(** Decompose bits into (block_pos, bits64_pos, inner_pos). *)
Definition decomposition (bit : Z) : Z * Z * Z :=
  let block_pos := bit / BLOCK_BITS in
  let bit := bit mod BLOCK_BITS in
  (block_pos, bit / 64, bit mod 64).

Definition Bitmap_new (start_block_id blocks : Z) : Bitmap := mkBitmap start_block_id blocks.

(** [u64::trailing_ones]; [n] is the width left. *)
Fixpoint trailing_ones (n : nat) (w : Z) : Z :=
  match n with
  | O => 0
  | S n => if Z.odd w then 1 + trailing_ones n (w / 2) else 0
  end.

Definition u64_MAX : Z := 2 ^ 64 - 1.

(** The closure of [alloc] on one bitmap block: the first word that is not [u64::MAX], its
    trailing ones, and the word with that bit set. *)
Definition alloc_in (block_id : Z) (bitmap_block : list Z) : option Z * list Z :=
  match find_index (λ bits64, negb (bits64 =? u64_MAX)) bitmap_block with
  | Some bits64_pos =>
      let bits64 := default 0 (bitmap_block !! bits64_pos) in
      let inner_pos := trailing_ones 64 bits64 in
      (Some (u64 (block_id * BLOCK_BITS + Z.of_nat bits64_pos * 64 + inner_pos)),
       <[bits64_pos := Z.lor bits64 (Z.shiftl 1 inner_pos)]> bitmap_block)
  | None => (None, bitmap_block)
  end.

(** [for block_id in 0..self.blocks], from [block_id] on with [n] blocks left. *)
Fixpoint alloc_from (bm : Bitmap) (n : nat) (block_id : Z) : prog (option Z) :=
  match n with
  | O => Ret None
  | S n =>
      pos ← cache_modify BitmapBlock (u64 (block_id + start_block_id bm)) 0
              (λ bitmap_block, Ret (alloc_in block_id bitmap_block));
      match pos with
      | Some _ => Ret pos
      | None => alloc_from bm n (block_id + 1)
      end
  end.

Definition Bitmap_alloc (bm : Bitmap) : prog (option Z) := alloc_from bm (Z.to_nat (blocks bm)) 0.

Definition Bitmap_dealloc (bm : Bitmap) (bit : Z) : prog unit :=
  let '(block_pos, bits64_pos, inner_pos) := decomposition bit in
  cache_modify BitmapBlock (u64 (block_pos + start_block_id bm)) 0 (λ bitmap_block,
    bits64 ← lift (nth_or_panic bitmap_block bits64_pos);
    lift (assert_that (0 <? Z.land bits64 (Z.shiftl 1 inner_pos)) PAssert);;
    Ret (tt, <[Z.to_nat bits64_pos := bits64 - Z.shiftl 1 inner_pos]> bitmap_block)).

Definition Bitmap_maximum (bm : Bitmap) : Z := u64 (blocks bm * BLOCK_BITS).

Definition Bitmap_read_first_bitmap_block (bm : Bitmap) : prog (list Z) :=
  cache_read BitmapBlock (start_block_id bm) 0 (λ bitmap_block, Ret bitmap_block).

(** ** The set of allocated bits *)

(** Bit [i] of a bitmap block as the code addresses it. *)
Definition word_bit (ws : list Z) (i : Z) : bool :=
  Z.testbit (default 0 (ws !! Z.to_nat (i / 64))) (i mod 64).

Definition bit_at (bm : Bitmap) (D : gmap Z block) (i : Z) : bool :=
  match D !! (start_block_id bm + i / BLOCK_BITS) with
  | Some b => word_bit (dec_arr 8 64 b) (i mod BLOCK_BITS)
  | None => false
  end.

(** The bitmap's blocks are on the disk, not held, and their numbers do not overflow. *)
Record bitmap_ok (bm : Bitmap) (L : gset Z) (D : gmap Z block) : Prop := {
  bm_start : 0 ≤ start_block_id bm;
  bm_blocks : 0 ≤ blocks bm;
  bm_fits : start_block_id bm + blocks bm < 2 ^ 48;
  bm_there : ∀ k, 0 ≤ k < blocks bm →
    ∃ b, D !! (start_block_id bm + k) = Some b ∧ wf_block b ∧ can_hold L (start_block_id bm + k);
}.

Definition outside (bm : Bitmap) (id : Z) : Prop :=
  id < start_block_id bm ∨ start_block_id bm + blocks bm ≤ id.

Lemma trailing_ones_spec n w :
  0 ≤ w < 2 ^ Z.of_nat n → w ≠ 2 ^ Z.of_nat n - 1 →
  0 ≤ trailing_ones n w < Z.of_nat n ∧ Z.testbit w (trailing_ones n w) = false ∧
  ∀ j, 0 ≤ j < trailing_ones n w → Z.testbit w j = true.
Proof.
  revert w. induction n as [|n IH]; intros w Hw Hmax; [change (2 ^ Z.of_nat 0) with 1 in *; lia|].
  assert (E : 2 ^ Z.of_nat (S n) = 2 * 2 ^ Z.of_nat n) by (rewrite Nat2Z.inj_succ, Z.pow_succ_r; lia).
  cbn [trailing_ones]. destruct (Z.odd w) eqn:Hodd.
  - pose proof (Z.div2_odd w) as Hd. rewrite Z.div2_div, Hodd in Hd. cbn in Hd.
    destruct (IH (w / 2)) as (Ht & Hf & Hones); [lia..|].
    set (t := trailing_ones n (w / 2)) in *. split; [lia|]. split.
    + rewrite Z.add_comm, Z.add_1_r. by rewrite <- Z.div2_bits by lia.
    + intros j Hj. destruct (decide (j = 0)) as [->|]; [by rewrite Z.bit0_odd|].
      replace j with (Z.succ (j - 1)) by lia. rewrite <- Z.div2_bits by lia. apply Hones. lia.
  - split; [lia|]. split; [by rewrite Z.bit0_odd|]. lia.
Qed.

Section words.
Context (ws : list Z) (Hlen : length ws = 64%nat) (Hok : words_ok 8 ws).

Lemma word_lookup i : 0 ≤ i < BLOCK_BITS →
  ∃ w, ws !! Z.to_nat (i / 64) = Some w ∧ 0 ≤ w < 2 ^ 64 ∧ word_bit ws i = Z.testbit w (i mod 64).
Proof.
  intros Hi. assert (Hlt : (Z.to_nat (i / 64) < length ws)%nat).
  { rewrite Hlen. unfold BLOCK_BITS, BLOCK_SZ in Hi. dlia. }
  apply lookup_lt_is_Some in Hlt as [w Hw]. exists w. split; [done|]. split.
  - by apply (Forall_lookup_1 _ _ _ _ Hok Hw).
  - unfold word_bit. by rewrite Hw.
Qed.

(** Changing one word changes the bits of that word only. *)
Lemma word_bit_insert k w' i : (k < 64)%nat → 0 ≤ i < BLOCK_BITS →
  word_bit (<[k:=w']> ws) i = if i / 64 =? Z.of_nat k then Z.testbit w' (i mod 64) else word_bit ws i.
Proof.
  intros Hk Hi. unfold word_bit. destruct (Z.eqb_spec (i / 64) (Z.of_nat k)) as [E|E].
  - rewrite E, Nat2Z.id, list_lookup_insert_eq by lia. done.
  - rewrite list_lookup_insert_ne; [done|]. assert (0 ≤ i / 64) by (apply Z.div_pos; lia). lia.
Qed.

Lemma max_word_bit i : 0 ≤ i < BLOCK_BITS → ws !! Z.to_nat (i / 64) = Some u64_MAX → word_bit ws i = true.
Proof.
  intros Hi Hw. unfold word_bit. rewrite Hw. cbn [default]. change u64_MAX with (Z.ones 64).
  apply Z.ones_spec_low. apply Z.mod_pos_bound. lia.
Qed.

(** [alloc_in] takes the first clear bit of the block, and only that bit changes. *)
Lemma alloc_in_spec block_id :
  match alloc_in block_id ws with
  | (Some p, ws') => ∃ i, 0 ≤ i < BLOCK_BITS ∧ p = u64 (block_id * BLOCK_BITS + i) ∧
      word_bit ws i = false ∧ (∀ j, 0 ≤ j < i → word_bit ws j = true) ∧
      (∀ j, 0 ≤ j < BLOCK_BITS → word_bit ws' j = (i =? j) || word_bit ws j) ∧
      length ws' = 64%nat ∧ words_ok 8 ws'
  | (None, ws') => ws' = ws ∧ ∀ j, 0 ≤ j < BLOCK_BITS → word_bit ws j = true
  end.
Proof.
  unfold alloc_in. destruct (find_index _ ws) as [k|] eqn:Hk.
  - apply find_index_Some in Hk as [(w & Hw & Hne) Hfirst]. rewrite Hw. change (default 0 (Some w)) with w.
    apply negb_true_iff, Z.eqb_neq in Hne.
    pose proof (lookup_lt_Some _ _ _ Hw) as Hklt. rewrite Hlen in Hklt.
    assert (Hwr : 0 ≤ w < 2 ^ 64) by by apply (Forall_lookup_1 _ _ _ _ Hok Hw).
    destruct (trailing_ones_spec 64 w) as (Ht & Hf & Hones); [done|done|].
    set (t := trailing_ones 64 w) in *. clearbody t. change (Z.of_nat 64) with 64 in Ht.
    assert (Hdiv : (Z.of_nat k * 64 + t) / 64 = Z.of_nat k) by dlia.
    assert (Hmod : (Z.of_nat k * 64 + t) mod 64 = t) by dlia.
    assert (Hr : 0 ≤ Z.of_nat k * 64 + t < BLOCK_BITS) by (unfold BLOCK_BITS, BLOCK_SZ; lia).
    exists (Z.of_nat k * 64 + t). split; [done|]. split; [by rewrite Z.add_assoc|]. split; [|split; [|split]].
    + unfold word_bit. by rewrite Hdiv, Hmod, Nat2Z.id, Hw.
    + intros j Hj. destruct (decide (j / 64 = Z.of_nat k)) as [E|E].
      * unfold word_bit. rewrite E, Nat2Z.id, Hw. cbn. apply Hones. dlia.
      * destruct (word_lookup j) as (wj & Hwj & _); [lia|]. apply max_word_bit; [lia|].
        rewrite Hwj. f_equal. assert (0 ≤ j / 64 < Z.of_nat k) by (clear - Hj E Ht; dlia).
        assert (Hlt : (Z.to_nat (j / 64) < k)%nat) by lia.
        apply (Hfirst _ _ Hlt) in Hwj. by apply negb_false_iff, Z.eqb_eq in Hwj.
    + intros j Hj. rewrite word_bit_insert by done. destruct (Z.eqb_spec (j / 64) (Z.of_nat k)) as [E|E].
      * rewrite testbit_set by apply Ht. unfold word_bit. rewrite E, Nat2Z.id, Hw. cbn.
        f_equal. destruct (Z.eqb_spec t (j mod 64)), (Z.eqb_spec (Z.of_nat k * 64 + t) j); done || (exfalso; dlia).
      * destruct (Z.eqb_spec (Z.of_nat k * 64 + t) j) as [<-|]; [congruence|done].
    + split; [by rewrite length_insert|]. apply Forall_insert; [done|]. by apply (set_bound 64).
  - rewrite find_index_None in Hk. split; [done|]. intros j Hj.
    destruct (word_lookup j Hj) as (w & Hw & _). apply max_word_bit; [done|]. rewrite Hw. f_equal.
    apply list_elem_of_lookup_2, Hk in Hw. by apply negb_false_iff, Z.eqb_eq in Hw.
Qed.
End words.

(** ** Allocation and deallocation on the disk *)

Section bitmap_disk.
Context (bm : Bitmap).
Implicit Types (L : gset Z) (D : gmap Z block).

Lemma bit_pos_range i : 0 ≤ i < blocks bm * BLOCK_BITS → 0 ≤ i / BLOCK_BITS < blocks bm.
Proof. intros. unfold BLOCK_BITS, BLOCK_SZ in *. dlia. Qed.

Lemma inner_range i : 0 ≤ i mod BLOCK_BITS < BLOCK_BITS.
Proof. apply Z.mod_pos_bound. done. Qed.

Lemma bitmap_block L D k : bitmap_ok bm L D → 0 ≤ k < blocks bm →
  ∃ b ws, D !! (start_block_id bm + k) = Some b ∧ wf_block b ∧ can_hold L (start_block_id bm + k) ∧
    ws = dec_arr 8 64 b ∧ b = enc_arr 8 ws ∧ length ws = 64%nat ∧ words_ok 8 ws ∧
    u64 (k + start_block_id bm) = start_block_id bm + k.
Proof.
  intros [Hs Hn Hfit Hb] Hk. destruct (Hb k Hk) as (b & HD & Hwf & HL).
  exists b, (dec_arr 8 64 b). do 3 (split; [done|]). split; [done|]. split.
  { symmetry. apply enc_dec_arr; apply Hwf. }
  split; [apply length_dec_arr|]. split.
  - apply words_ok_dec_arr; [apply Hwf|]. destruct Hwf as [-> _]. unfold BLOCK_SZ. lia.
  - rewrite wrap_small by lia. lia.
Qed.

(** Rewriting one block of the bitmap. *)
Lemma bit_at_insert D k ws i :
  length ws = 64%nat → words_ok 8 ws → 0 ≤ k →
  bit_at bm (<[start_block_id bm + k := enc_arr 8 ws]> D) i =
    if i / BLOCK_BITS =? k then word_bit ws (i mod BLOCK_BITS) else bit_at bm D i.
Proof.
  intros Hl Hok Hk. unfold bit_at. destruct (Z.eqb_spec (i / BLOCK_BITS) k) as [E|E].
  - rewrite E, lookup_insert_eq. do 2 f_equal.
    rewrite <- (app_nil_r (enc_arr 8 ws)), <- Hl. by apply dec_enc_arr.
  - by rewrite lookup_insert_ne by lia.
Qed.

Lemma bitmap_ok_insert L D k ws :
  bitmap_ok bm L D → length ws = 64%nat → 0 ≤ k < blocks bm →
  bitmap_ok bm L (<[start_block_id bm + k := enc_arr 8 ws]> D).
Proof.
  intros [Hs Hn Hfit Hb] Hl Hk. split; [done..|]. intros j Hj.
  destruct (Hb j Hj) as (b & HD & Hwf & HL). destruct (decide (j = k)) as [->|].
  - rewrite lookup_insert_eq. eexists. split; [done|]. split; [|done].
    apply wf_block_enc_arr. by rewrite Hl.
  - rewrite lookup_insert_ne by lia. eauto.
Qed.

(** A bitmap is its bits. *)
Lemma bitmap_disk_ext L D1 D2 :
  bitmap_ok bm L D1 → bitmap_ok bm L D2 → (∀ id, outside bm id → D1 !! id = D2 !! id) →
  (∀ i, 0 ≤ i < blocks bm * BLOCK_BITS → bit_at bm D1 i = bit_at bm D2 i) → D1 = D2.
Proof.
  intros H1 H2 Hout Hbits. apply map_eq. intros id.
  destruct (decide (start_block_id bm ≤ id < start_block_id bm + blocks bm)) as [Hid|]; [|apply Hout; unfold outside; lia].
  replace id with (start_block_id bm + (id - start_block_id bm)) by lia.
  set (k := id - start_block_id bm). assert (Hk : 0 ≤ k < blocks bm) by (unfold k; lia). clearbody k.
  destruct (bitmap_block L D1 k H1 Hk) as (b1 & ws1 & Hb1 & _ & _ & E1 & -> & Hl1 & Hok1 & _).
  destruct (bitmap_block L D2 k H2 Hk) as (b2 & ws2 & Hb2 & _ & _ & E2 & -> & Hl2 & Hok2 & _).
  rewrite Hb1, Hb2. do 2 f_equal. apply (list_eq_same_length _ _ 64); [done..|].
  intros n x y Hn Hx Hy. apply Z.bits_inj'. intros t Ht. destruct (decide (t < 64)) as [Hlt|].
  - set (i := k * BLOCK_BITS + (Z.of_nat n * 64 + t)).
    assert (Hdiv : i / BLOCK_BITS = k) by (unfold i, BLOCK_BITS, BLOCK_SZ; dlia).
    assert (Hmod : i mod BLOCK_BITS = Z.of_nat n * 64 + t) by (unfold i, BLOCK_BITS, BLOCK_SZ; dlia).
    assert (Hi : 0 ≤ i < blocks bm * BLOCK_BITS) by (unfold i, BLOCK_BITS, BLOCK_SZ; lia).
    specialize (Hbits i Hi). unfold bit_at in Hbits. rewrite Hdiv, Hb1, Hb2, <- E1, <- E2, Hmod in Hbits.
    unfold word_bit in Hbits.
    replace ((Z.of_nat n * 64 + t) / 64) with (Z.of_nat n) in Hbits by dlia.
    replace ((Z.of_nat n * 64 + t) mod 64) with t in Hbits by dlia.
    by rewrite Nat2Z.id, Hx, Hy in Hbits.
  - rewrite !(testbit_high 64) by first [lia | exact (Forall_lookup_1 _ _ _ _ Hok1 Hx) | exact (Forall_lookup_1 _ _ _ _ Hok2 Hy)].
    done.
Qed.

(** What a successful allocation of bit [p] does. *)
Record allocated L D D' (p : Z) : Prop := {
  al_range : 0 ≤ p < blocks bm * BLOCK_BITS;
  al_free : bit_at bm D p = false;
  al_first : ∀ j, 0 ≤ j < p → bit_at bm D j = true;
  al_bits : ∀ j, 0 ≤ j < blocks bm * BLOCK_BITS → bit_at bm D' j = (p =? j) || bit_at bm D j;
  al_outside : ∀ id, outside bm id → D' !! id = D !! id;
  al_ok : bitmap_ok bm L D';
}.

Lemma alloc_block_spec L D k : bitmap_ok bm L D → 0 ≤ k < blocks bm →
  (∀ j, 0 ≤ j < k * BLOCK_BITS → bit_at bm D j = true) →
  ∃ o D', run (cache_modify BitmapBlock (u64 (k + start_block_id bm)) 0 (λ ws, Ret (alloc_in k ws))) L D
      = FDone o L D' ∧
    match o with
    | Some p => allocated L D D' p
    | None => D' = D ∧ ∀ j, 0 ≤ j < (k + 1) * BLOCK_BITS → bit_at bm D j = true
    end.
Proof.
  intros Hbm Hk Hfull.
  destruct (bitmap_block L D k Hbm Hk) as (b & ws & HD & Hwf & HL & E1 & E2 & Hl & Hok & Hu).
  assert (Hbit : ∀ j, j / BLOCK_BITS = k → bit_at bm D j = word_bit ws (j mod BLOCK_BITS)).
  { intros j <-. unfold bit_at. by rewrite HD, E1. }
  pose proof (alloc_in_spec ws Hl Hok k) as Hspec. destruct (alloc_in k ws) as [o ws'] eqn:Ha.
  assert (Hl' : length ws' = 64%nat) by (destruct o; [naive_solver|destruct Hspec as [-> _]; done]).
  exists o, (<[start_block_id bm + k := enc_arr 8 ws']> D). rewrite Hu. split.
  { rewrite E1 in Ha. by apply (run_modify_arr 8 64 _ _ L D b); [done..|rewrite Ha|]. }
  destruct o as [p|].
  - destruct Hspec as (i & Hi & -> & Hfree & Hfirst & Hbits & _ & Hok').
    assert (Hp : u64 (k * BLOCK_BITS + i) = k * BLOCK_BITS + i).
    { apply wrap_small. destruct Hbm. unfold BLOCK_BITS, BLOCK_SZ in *. lia. }
    rewrite Hp. clear Hp.
    assert (Hpd : (k * BLOCK_BITS + i) / BLOCK_BITS = k) by (clear - Hi; unfold BLOCK_BITS, BLOCK_SZ in *; dlia).
    assert (Hpm : (k * BLOCK_BITS + i) mod BLOCK_BITS = i) by (clear - Hi; unfold BLOCK_BITS, BLOCK_SZ in *; dlia).
    split.
    + clear - Hk Hi. unfold BLOCK_BITS, BLOCK_SZ in *. lia.
    + by rewrite Hbit, Hpm.
    + intros j Hj. destruct (decide (j < k * BLOCK_BITS)); [apply Hfull; lia|].
      assert (j / BLOCK_BITS = k ∧ 0 ≤ j mod BLOCK_BITS < i) as [Hd Hm]
        by (clear - Hi Hj n; unfold BLOCK_BITS, BLOCK_SZ in *; dlia).
      rewrite Hbit by done. by apply Hfirst.
    + intros j Hj. rewrite bit_at_insert by (done || lia). destruct (Z.eqb_spec (j / BLOCK_BITS) k) as [Hd|Hd].
      * rewrite Hbits by apply inner_range. rewrite (Hbit j Hd). f_equal.
        clear - Hd Hi. destruct (Z.eqb_spec i (j mod BLOCK_BITS)), (Z.eqb_spec (k * BLOCK_BITS + i) j);
          try done; exfalso; unfold BLOCK_BITS, BLOCK_SZ in *; dlia.
      * destruct (Z.eqb_spec (k * BLOCK_BITS + i) j); [congruence|done].
    + intros id Hid. rewrite lookup_insert_ne; [done|]. unfold outside in Hid. lia.
    + by apply bitmap_ok_insert.
  - destruct Hspec as [-> Hall]. split; [rewrite <- E2; by apply insert_id|].
    intros j Hj. destruct (decide (j < k * BLOCK_BITS)); [apply Hfull; lia|].
    assert (j / BLOCK_BITS = k) as Hd by (clear - Hj n; unfold BLOCK_BITS, BLOCK_SZ in *; dlia).
    rewrite Hbit by done. apply Hall, inner_range.
Qed.

Lemma alloc_from_spec n L D k : bitmap_ok bm L D → 0 ≤ k → k + Z.of_nat n = blocks bm →
  (∀ j, 0 ≤ j < k * BLOCK_BITS → bit_at bm D j = true) →
  ∃ o D', run (alloc_from bm n k) L D = FDone o L D' ∧
    match o with
    | Some p => allocated L D D' p
    | None => D' = D ∧ ∀ j, 0 ≤ j < blocks bm * BLOCK_BITS → bit_at bm D j = true
    end.
Proof.
  revert k. induction n as [|n IH]; intros k Hbm Hk Hn Hfull.
  - exists None, D. split; [done|]. split; [done|]. intros j Hj. apply Hfull.
    replace k with (blocks bm) by lia. done.
  - destruct (alloc_block_spec L D k Hbm) as (o & D' & Hrun & Ho); [lia|done|].
    cbn [alloc_from]. rewrite run_bind, Hrun. destruct o as [p|].
    + exists (Some p), D'. done.
    + destruct Ho as [-> Hall]. apply IH; [done|lia|lia|done].
Qed.

Lemma Bitmap_maximum_eq L D : bitmap_ok bm L D → Bitmap_maximum bm = blocks bm * BLOCK_BITS.
Proof. intros Hbm. apply wrap_small. destruct Hbm. unfold BLOCK_BITS, BLOCK_SZ in *. lia. Qed.

Lemma Bitmap_alloc_spec L D : bitmap_ok bm L D →
  ∃ o D', run (Bitmap_alloc bm) L D = FDone o L D' ∧
    match o with
    | Some p => allocated L D D' p
    | None => D' = D ∧ ∀ j, 0 ≤ j < blocks bm * BLOCK_BITS → bit_at bm D j = true
    end.
Proof. intros Hbm. apply alloc_from_spec; [done|lia|destruct Hbm; lia|lia]. Qed.

(** What a successful deallocation of bit [p] does. *)
Record deallocated L D D' (p : Z) : Prop := {
  de_bits : ∀ j, 0 ≤ j < blocks bm * BLOCK_BITS → bit_at bm D' j = negb (p =? j) && bit_at bm D j;
  de_outside : ∀ id, outside bm id → D' !! id = D !! id;
  de_ok : bitmap_ok bm L D';
}.

Lemma word_inner_eq i j : 0 ≤ i → 0 ≤ j → i / 64 = j / 64 → (i mod 64 =? j mod 64) = (i =? j).
Proof. intros. destruct (Z.eqb_spec (i mod 64) (j mod 64)), (Z.eqb_spec i j); try done; exfalso; dlia. Qed.

Lemma block_inner_eq i j : 0 ≤ i → 0 ≤ j → i / BLOCK_BITS = j / BLOCK_BITS →
  (i mod BLOCK_BITS =? j mod BLOCK_BITS) = (i =? j).
Proof.
  intros. unfold BLOCK_BITS, BLOCK_SZ in *.
  destruct (Z.eqb_spec (i mod (Z.of_nat 512 * 8)) (j mod (Z.of_nat 512 * 8))), (Z.eqb_spec i j); try done; exfalso; dlia.
Qed.

Lemma Bitmap_dealloc_spec L D p : bitmap_ok bm L D → 0 ≤ p < blocks bm * BLOCK_BITS →
  if bit_at bm D p
  then ∃ D', run (Bitmap_dealloc bm p) L D = FDone tt L D' ∧ deallocated L D D' p
  else run (Bitmap_dealloc bm p) L D = FFail (FPanic PAssert).
Proof.
  intros Hbm Hp. pose proof (bit_pos_range p Hp) as Hk.
  destruct (bitmap_block L D (p / BLOCK_BITS) Hbm Hk) as (b & ws & HD & Hwf & HL & E1 & E2 & Hl & Hok & Hu).
  pose proof (inner_range p) as Hm. set (i := p mod BLOCK_BITS) in *.
  destruct (word_lookup ws Hl Hok i Hm) as (w & Hw & Hwr & Hwb).
  assert (Hi : 0 ≤ i / 64 < 64) by (clear - Hm; unfold BLOCK_BITS, BLOCK_SZ in *; dlia).
  assert (Hmi : 0 ≤ i mod 64 < 64) by (apply Z.mod_pos_bound; lia).
  assert (Hbit : bit_at bm D p = Z.testbit w (i mod 64)) by (unfold bit_at; by rewrite HD, <- E1, <- Hwb).
  assert (Hnth : nth_or_panic ws (i / 64) = Done w).
  { unfold nth_or_panic. destruct (Z.ltb_spec (i / 64) 0); [lia|]. by rewrite Hw. }
  rewrite Hbit. unfold Bitmap_dealloc, decomposition. fold i. rewrite Hu.
  destruct (Z.testbit w (i mod 64)) eqn:Hset.
  - set (w' := w - Z.shiftl 1 (i mod 64)).
    assert (Ew' : w' = Z.ldiff w (Z.shiftl 1 (i mod 64))) by (apply sub_bit; [lia|done]).
    set (ws' := <[Z.to_nat (i / 64) := w']> ws).
    assert (Hl' : length ws' = 64%nat) by (unfold ws'; by rewrite length_insert).
    assert (Hok' : words_ok 8 ws').
    { apply Forall_insert; [done|]. rewrite Ew'. apply (clear_bound 64); [done|lia|lia]. }
    eexists. split.
    { apply (run_modify_arr 8 64 _ _ L D b tt ws'); [done..| |done].
      rewrite <- E1, Hnth. cbn. by rewrite land_bit_pos, Hset by lia. }
    split.
    + intros j Hj. rewrite bit_at_insert by (done || lia).
      destruct (Z.eqb_spec (j / BLOCK_BITS) (p / BLOCK_BITS)) as [Hd|Hd].
      * pose proof (inner_range j) as Hmj. unfold ws'. rewrite word_bit_insert by (done || lia).
        assert (Hbj : bit_at bm D j = word_bit ws (j mod BLOCK_BITS)) by (unfold bit_at; by rewrite Hd, HD, <- E1).
        rewrite Hbj, <- (block_inner_eq p j) by lia. fold i. rewrite Z2Nat.id by lia.
        destruct (Z.eqb_spec (j mod BLOCK_BITS / 64) (i / 64)) as [Hd2|Hd2].
        -- rewrite Ew', testbit_clear by lia. rewrite (word_inner_eq i) by lia. f_equal.
           unfold word_bit. by rewrite Hd2, Hw.
        -- destruct (Z.eqb_spec i (j mod BLOCK_BITS)); [congruence|done].
      * destruct (Z.eqb_spec p j); [congruence|done].
    + intros id Hid. rewrite lookup_insert_ne; [done|]. unfold outside in Hid. lia.
    + by apply bitmap_ok_insert.
  - unfold cache_modify. rewrite run_bind, (run_acquire _ L D b) by done.
    rewrite run_bind, (run_lift_Done ws) by (rewrite E1; by apply (view_arr 8 64)).
    rewrite Hnth. cbn. by rewrite land_bit_pos, Hset by lia.
Qed.

(** [Bitmap::alloc] returns the first clear bit of the whole bitmap and sets it, leaving every
    other bit and every other block as it was; it returns [None], changing nothing, exactly when
    all [maximum()] bits are set.  It never panics on a well-formed bitmap. *)
Theorem Bitmap_alloc_first_free L D : bitmap_ok bm L D →
  ∃ o D', run (Bitmap_alloc bm) L D = FDone o L D' ∧
    match o with
    | Some p => allocated L D D' p
    | None => D' = D ∧ ∀ j, 0 ≤ j < Bitmap_maximum bm → bit_at bm D j = true
    end.
Proof. intros Hbm. rewrite (Bitmap_maximum_eq L D Hbm). by apply Bitmap_alloc_spec. Qed.

(** [Bitmap::dealloc] clears exactly the bit it is given and panics on a bit that is not
    allocated (a double free); and deallocating the bit [alloc] has just returned gives back
    exactly the disk before the allocation, byte for byte. *)
Theorem Bitmap_dealloc_inverse L D : bitmap_ok bm L D →
  (∀ p, 0 ≤ p < Bitmap_maximum bm →
    if bit_at bm D p
    then ∃ D', run (Bitmap_dealloc bm p) L D = FDone tt L D' ∧ deallocated L D D' p
    else run (Bitmap_dealloc bm p) L D = FFail (FPanic PAssert)) ∧
  ∀ p D', run (Bitmap_alloc bm) L D = FDone (Some p) L D' →
    run (Bitmap_dealloc bm p) L D' = FDone tt L D.
Proof.
  intros Hbm. split.
  - intros p Hp. rewrite (Bitmap_maximum_eq L D Hbm) in Hp. by apply Bitmap_dealloc_spec.
  - intros p D' Hrun. destruct (Bitmap_alloc_spec L D Hbm) as (o & D1 & Hrun' & Ho).
    rewrite Hrun in Hrun'. injection Hrun' as <- <-. destruct Ho as [Hr Hf _ Hb Hout Hok'].
    pose proof (Bitmap_dealloc_spec L D' p Hok' Hr) as Hd. rewrite Hb, Z.eqb_refl in Hd by done.
    destruct Hd as (D2 & -> & [Hb2 Hout2 Hok2]). f_equal. apply (bitmap_disk_ext L); [done..| |].
    + intros id Hid. rewrite Hout2, Hout; done.
    + intros i Hi. rewrite Hb2, Hb by done. destruct (Z.eqb_spec p i) as [<-|]; [by rewrite Hf|done].
Qed.
End bitmap_disk.

(** A bitmap of one block with bits 0..66 set. *)
Module BitmapWitness.
Definition bm : Bitmap := Bitmap_new 1 1.
Definition words : list Z := u64_MAX :: 7 :: replicate 62 0.
Definition disk : gmap Z block := {[ 1 := enc_arr 8 words ]}.

Lemma bitmap_start : bitmap_ok bm ∅ disk.
Proof.
  split; [done..|]. intros k Hk. assert (k = 0) as -> by (unfold bm in Hk; cbn in Hk; lia).
  eexists. split; [by vm_compute|]. split; [by apply (wf_block_enc_arr 8 words)|]. split; [set_solver|].
  rewrite size_empty. unfold BLOCK_CACHE_SIZE. lia.
Qed.
End BitmapWitness.

Lemma Bitmap_alloc_first_free_witness :
  ∃ D', run (Bitmap_alloc BitmapWitness.bm) ∅ BitmapWitness.disk = FDone (Some 67) ∅ D' ∧
    allocated BitmapWitness.bm ∅ BitmapWitness.disk D' 67.
Proof.
  destruct (Bitmap_alloc_first_free _ _ _ BitmapWitness.bitmap_start) as (o & D' & Hrun & Ho).
  assert (o = Some 67) as -> by (vm_compute in Hrun; by simplify_eq).
  exists D'. done.
Defined.

Lemma Bitmap_dealloc_inverse_witness :
  run (Bitmap_dealloc BitmapWitness.bm 68) ∅ BitmapWitness.disk = FFail (FPanic PAssert) ∧
  ∃ D', run (Bitmap_dealloc BitmapWitness.bm 2) ∅ BitmapWitness.disk = FDone tt ∅ D'.
Proof.
  destruct (Bitmap_dealloc_inverse _ _ _ BitmapWitness.bitmap_start) as [H _]. split.
  - specialize (H 68 ltac:(by vm_compute)). assert (bit_at BitmapWitness.bm BitmapWitness.disk 68 = false) as E by by vm_compute.
    by rewrite E in H.
  - specialize (H 2 ltac:(by vm_compute)). assert (bit_at BitmapWitness.bm BitmapWitness.disk 2 = true) as E by by vm_compute.
    rewrite E in H. destruct H as (D' & H & _). eauto.
Defined.
