(* ===== verification/Layout.v ===== *)
(** * Layout.v: the on-disk structures of [easy-fs/src/layout.rs]

    [SuperBlock], [DiskInode] and [DirEntry] as records with the codecs of their [repr(C)]
    layout, and the operations of them that do not touch the disk.  The operations that do
    ([get_block_id], [read_at], ...) are in DiskInode.v. *)

From S2P Require Import Prelude Bytes BlockProg.

Definition EFS_MAGIC : Z := 0x3b800001.
Definition INODE_DIRECT_COUNT : Z := 28.
Definition NAME_LENGTH_LIMIT : Z := 27.
Definition INODE_INDIRECT1_COUNT : Z := Z.of_nat BLOCK_SZ / 4.
Definition INODE_INDIRECT2_COUNT : Z := INODE_INDIRECT1_COUNT * INODE_INDIRECT1_COUNT.
Definition DIRECT_BOUND : Z := INODE_DIRECT_COUNT.
Definition INDIRECT1_BOUND : Z := DIRECT_BOUND + INODE_INDIRECT1_COUNT.
Definition INDIRECT2_BOUND : Z := INDIRECT1_BOUND + INODE_INDIRECT2_COUNT.

Lemma INODE_INDIRECT1_COUNT_eq : INODE_INDIRECT1_COUNT = 128.
Proof. done. Qed.
Lemma INDIRECT1_BOUND_eq : INDIRECT1_BOUND = 156.
Proof. done. Qed.
Lemma INDIRECT2_BOUND_eq : INDIRECT2_BOUND = 16540.
Proof. done. Qed.

(** ** The super block *)

Record SuperBlock : Type := mkSuperBlock {
  magic : Z;
  total_blocks : Z;
  inode_bitmap_blocks : Z;
  inode_area_blocks : Z;
  data_bitmap_blocks : Z;
  data_area_blocks : Z;
}.

Definition SuperBlock_new (magic total_blocks inode_bitmap_blocks inode_area_blocks
    data_bitmap_blocks data_area_blocks : Z) : SuperBlock :=
  mkSuperBlock magic total_blocks inode_bitmap_blocks inode_area_blocks data_bitmap_blocks data_area_blocks.

Definition SuperBlock_initialize (total_blocks inode_bitmap_blocks inode_area_blocks
    data_bitmap_blocks data_area_blocks : Z) (_ : SuperBlock) : SuperBlock :=
  mkSuperBlock EFS_MAGIC total_blocks inode_bitmap_blocks inode_area_blocks data_bitmap_blocks data_area_blocks.

Definition SuperBlock_is_valid (sb : SuperBlock) : bool := magic sb =? EFS_MAGIC.

Definition SuperBlock_words (sb : SuperBlock) : list Z :=
  [magic sb; total_blocks sb; inode_bitmap_blocks sb; inode_area_blocks sb; data_bitmap_blocks sb; data_area_blocks sb].

Definition SuperBlockC : codec SuperBlock := Codec 24
  (λ bs, match dec_arr 4 6 bs with
         | [a; b; c; d; e; f] => Some (mkSuperBlock a b c d e f)
         | _ => None
         end)
  (λ sb, enc_arr 4 (SuperBlock_words sb)).

Lemma SuperBlockC_ok : codec_ok SuperBlockC (λ sb, words_ok 4 (SuperBlock_words sb)).
Proof.
  split; [|split]; cbn [csize cdec cenc SuperBlockC].
  - intros sb _. split; [by rewrite length_enc_arr|apply bytes_ok_enc_arr].
  - intros sb bs Hw Hl. rewrite splice_all by by rewrite length_enc_arr.
    rewrite <- (app_nil_r (enc_arr 4 _)). pose proof (dec_enc_arr 4 _ [] Hw) as E.
    change (length (SuperBlock_words sb)) with 6%nat in E. rewrite E. by destruct sb.
  - intros bs sb Hb Hl E.
    assert (SuperBlock_words sb = dec_arr 4 6 bs) as ->.
    { destruct (dec_arr 4 6 bs) as [|a [|b [|c [|d [|e [|f [|]]]]]]]; by simplify_eq. }
    split; [apply words_ok_dec_arr; [done|lia]|].
    rewrite splice_all by (by rewrite length_enc_arr, length_dec_arr). by apply enc_dec_arr.
Qed.

(** ** Disk inodes *)

Inductive DiskInodeType : Type := File | Directory.

#[export] Instance DiskInodeType_eq_dec : EqDecision DiskInodeType.
Proof. solve_decision. Defined.

Record DiskInode : Type := mkDiskInode {
  di_size : Z;
  direct : list Z;
  indirect1 : Z;
  indirect2 : Z;
  type_ : DiskInodeType;
}.

Definition DiskInode_initialize (t : DiskInodeType) (di : DiskInode) : DiskInode :=
  mkDiskInode 0 ((λ _, 0) <$> direct di) 0 0 t.

Definition is_dir (di : DiskInode) : bool := bool_decide (type_ di = Directory).
Definition is_file (di : DiskInode) : bool := bool_decide (type_ di = File).

Definition _data_blocks (size : Z) : Z := u32 (u32 (size + Z.of_nat BLOCK_SZ) - 1) / Z.of_nat BLOCK_SZ.

Definition data_blocks (di : DiskInode) : Z := _data_blocks (di_size di).

(** [DiskInode::total_blocks] *)
Definition total_blocks_of (size : Z) : Z :=
  let data_blocks := _data_blocks size in
  let total := data_blocks in
  let total := if INODE_DIRECT_COUNT <? data_blocks then total + 1 else total in
  let total :=
    if INDIRECT1_BOUND <? data_blocks then
      total + 1 + (data_blocks - INDIRECT1_BOUND + INODE_INDIRECT1_COUNT - 1) / INODE_INDIRECT1_COUNT
    else total in
  u32 total.

Definition blocks_num_needed (di : DiskInode) (new_size : Z) : outcome Z :=
  assert_that (di_size di <=? new_size) PAssert;;
  mret (u32 (total_blocks_of new_size - total_blocks_of (di_size di))).

Definition type_byte (t : DiskInodeType) : Z := match t with File => 0 | Directory => 1 end.

Definition byte_type (b : Z) : option DiskInodeType :=
  if b =? 0 then Some File else if b =? 1 then Some Directory else None.

Definition DiskInode_words (di : DiskInode) : list Z :=
  di_size di :: direct di ++ [indirect1 di; indirect2 di].

(** 31 words, the type byte, three bytes of padding. *)
Definition DiskInodeC : codec DiskInode := Codec 128
  (λ bs, let ws := dec_arr 4 31 bs in
         t ← byte_type (default 255 (bs !! 124%nat));
         Some (mkDiskInode (default 0 (ws !! 0%nat)) (slice 1 28 ws)
                 (default 0 (ws !! 29%nat)) (default 0 (ws !! 30%nat)) t))
  (λ di, enc_arr 4 (DiskInode_words di) ++ [type_byte (type_ di)]).

Definition DiskInode_ok (di : DiskInode) : Prop :=
  length (direct di) = 28%nat ∧ words_ok 4 (DiskInode_words di).

Lemma split_words (ws : list Z) : length ws = 31%nat →
  default 0 (ws !! 0%nat) :: slice 1 28 ws ++ [default 0 (ws !! 29%nat); default 0 (ws !! 30%nat)] = ws.
Proof. intros E. do 31 (destruct ws as [|? ws]; [done|]). by destruct ws. Qed.

Lemma length_DiskInode_enc di : length (direct di) = 28%nat → length (cenc DiskInodeC di) = 125%nat.
Proof.
  intros E. cbn [cenc DiskInodeC]. rewrite length_app, length_enc_arr. cbn.
  rewrite length_app, E. done.
Qed.

Lemma DiskInodeC_ok : codec_ok DiskInodeC DiskInode_ok.
Proof.
  split; [|split].
  - intros di [Hl _]. rewrite length_DiskInode_enc by done. split; [cbn; lia|]. cbn [cenc DiskInodeC].
    apply Forall_app. split; [apply bytes_ok_enc_arr|].
    constructor; [by destruct (type_ di)|constructor].
  - intros di bs [Hl Hw] Hbs. cbn [cdec DiskInodeC csize] in *.
    assert (Hn : length (DiskInode_words di) = 31%nat) by (cbn; rewrite length_app, Hl; done).
    unfold splice. rewrite length_DiskInode_enc by done. rewrite take_0. cbn [app cenc DiskInodeC].
    rewrite <- app_assoc. pose proof (dec_enc_arr 4 (DiskInode_words di) ([type_byte (type_ di)] ++ drop (0 + 125) bs) Hw) as E.
    rewrite Hn in E. rewrite E.
    rewrite lookup_app_r by (rewrite length_enc_arr; lia). rewrite length_enc_arr, Hn. cbn [Nat.sub Nat.mul].
    change (124 - 4 * 31)%nat with 0%nat. cbn [app lookup list_lookup default].
    destruct di as [s d i1 i2 t]; cbn [direct type_] in *. cbn in Hl.
    do 28 (destruct d as [|? d]; [done|]). destruct d; [|done]. by destruct t.
  - intros bs di Hb Hl E. cbn [cdec DiskInodeC csize] in *.
    remember (dec_arr 4 31 bs) as ws eqn:Dws.
    assert (Hws : length ws = 31%nat) by (subst ws; apply length_dec_arr).
    destruct (byte_type _) as [t|] eqn:Ht; [|done]. cbn in E. injection E as <-.
    assert (Hwords : DiskInode_words (mkDiskInode (default 0 (ws !! 0%nat)) (slice 1 28 ws)
      (default 0 (ws !! 29%nat)) (default 0 (ws !! 30%nat)) t) = ws) by by apply split_words.
    split.
    + split; [cbn; rewrite length_slice; lia|]. rewrite Hwords, Dws. apply words_ok_dec_arr; [done|lia].
    + unfold splice. rewrite length_DiskInode_enc by (cbn; rewrite length_slice; lia).
      rewrite take_0. cbn [cenc DiskInodeC app]. rewrite Hwords. cbn [type_].
      assert (Ew : enc_arr 4 ws = take 124 bs).
      { transitivity (enc_arr 4 (dec_arr 4 31 (take 124 bs))).
        - f_equal. rewrite Dws. rewrite <- (take_drop 124 bs) at 1.
          rewrite <- (enc_dec_arr 4 31 (take 124 bs)) at 1;
            [|by apply Forall_take|by rewrite length_take; lia].
          rewrite <- (length_dec_arr 4 31 (take 124 bs)) at 1. apply dec_enc_arr, words_ok_dec_arr.
          { by apply Forall_take. }
          rewrite length_take. lia.
        - apply enc_dec_arr; [by apply Forall_take|]. rewrite length_take. lia. }
      rewrite Ew. destruct (lookup_lt_is_Some_2 bs 124) as [x Hx]; [lia|]. rewrite Hx in Ht. cbn in Ht.
      assert (type_byte t = x) as ->.
      { unfold byte_type in Ht. repeat case_match; simplify_eq; cbn; lia. }
      rewrite <- app_assoc. cbn. rewrite <- (drop_S bs x 124) by done. apply take_drop.
Qed.

(** ** Directory entries *)

(** A [&str] is its UTF-8 bytes; [core::str::from_utf8] accepts these. *)
Definition utf8_cont (b : Z) : bool := (0x80 <=? b) && (b <=? 0xbf).

Definition utf8_3 (b c1 c2 : Z) : bool :=
  utf8_cont c2 &&
  (((b =? 0xe0) && (0xa0 <=? c1) && (c1 <=? 0xbf)) ||
   ((0xe1 <=? b) && (b <=? 0xec) && utf8_cont c1) ||
   ((b =? 0xed) && (0x80 <=? c1) && (c1 <=? 0x9f)) ||
   ((0xee <=? b) && (b <=? 0xef) && utf8_cont c1)).

Definition utf8_4 (b c1 c2 c3 : Z) : bool :=
  utf8_cont c2 && utf8_cont c3 &&
  (((b =? 0xf0) && (0x90 <=? c1) && (c1 <=? 0xbf)) ||
   ((0xf1 <=? b) && (b <=? 0xf3) && utf8_cont c1) ||
   ((b =? 0xf4) && (0x80 <=? c1) && (c1 <=? 0x8f))).

Fixpoint utf8_valid (bs : list Z) : bool :=
  match bs with
  | [] => true
  | b :: bs =>
      if b <? 0x80 then utf8_valid bs
      else match bs with
      | [] => false
      | c1 :: bs =>
          if (0xc2 <=? b) && (b <=? 0xdf) && utf8_cont c1 then utf8_valid bs
          else match bs with
          | [] => false
          | c2 :: bs =>
              if utf8_3 b c1 c2 then utf8_valid bs
              else match bs with
              | [] => false
              | c3 :: bs => if utf8_4 b c1 c2 c3 then utf8_valid bs else false
              end
          end
      end
  end.

Record DirEntry : Type := mkDirEntry {
  dename : list Z;
  de_inode_number : Z;
}.

Definition DIRENT_SZ : Z := 32.

Definition DirEntry_empty : DirEntry := mkDirEntry (replicate 28 0) 0.

Definition DirEntry_new (name : list Z) (inode_number : Z) : outcome DirEntry :=
  assert_that (zlen name <=? NAME_LENGTH_LIMIT + 1) PIndex;;
  mret (mkDirEntry (splice 0 name (replicate 28 0)) inode_number).

Definition DirEntry_as_bytes (de : DirEntry) : list Z := dename de ++ le_bytes 4 (de_inode_number de).

(** The entry after [as_bytes_mut] was overwritten with [bs]. *)
Definition DirEntry_of_bytes (bs : list Z) : DirEntry := mkDirEntry (take 28 bs) (le_value (slice 28 4 bs)).

Definition DirEntry_name (de : DirEntry) : outcome (list Z) :=
  len ← unwrap PIndex (find_index (λ b, b =? 0) (dename de));
  let s := take len (dename de) in
  assert_that (utf8_valid s) PUnwrap;;
  mret s.

Definition DirEntry_inode_number (de : DirEntry) : Z := de_inode_number de.

(** A string a directory entry can hold: at most 27 bytes, none of them zero. *)
Definition short_name (name : list Z) : Prop :=
  bytes_ok name ∧ (length name ≤ 27)%nat ∧ Forall (λ b, b ≠ 0) name ∧ utf8_valid name = true.

Lemma find_zero name (m : nat) : Forall (λ b, b ≠ 0) name → (0 < m)%nat →
  find_index (λ b, b =? 0) (name ++ replicate m 0) = Some (length name).
Proof.
  intros Hn Hm. apply find_index_Some. split.
  - exists 0. split; [|done]. rewrite lookup_app_r, Nat.sub_diag by lia. destruct m; [lia|done].
  - intros j y Hj Hy. rewrite lookup_app_l in Hy by lia. apply Z.eqb_neq. by apply (Forall_lookup_1 _ _ _ _ Hn Hy).
Qed.

Lemma DirEntry_new_spec name n : (length name ≤ 28)%nat →
  DirEntry_new name n = Done (mkDirEntry (name ++ replicate (28 - length name) 0) n).
Proof.
  intros Hl. unfold DirEntry_new, assert_that, zlen, NAME_LENGTH_LIMIT.
  destruct (Z.leb_spec (Z.of_nat (length name)) (27 + 1)); [|lia].
  cbn [mbind outcome_bind mret outcome_ret]. do 2 f_equal. unfold splice. rewrite take_0. cbn [app Nat.add]. by rewrite drop_replicate.
Qed.

Lemma DirEntry_bytes_roundtrip de : length (dename de) = 28%nat → 0 ≤ de_inode_number de < 2 ^ 32 →
  DirEntry_of_bytes (DirEntry_as_bytes de) = de.
Proof.
  intros Hl Hn. unfold DirEntry_of_bytes, DirEntry_as_bytes, slice.
  rewrite take_app_le, take_ge by lia. rewrite drop_app_ge by lia. rewrite Hl, Nat.sub_diag, drop_0.
  rewrite take_ge by (rewrite length_le_bytes; lia). rewrite le_value_bytes_small by done. by destruct de.
Qed.

Lemma DirEntry_name_new name n de : short_name name → DirEntry_new name n = Done de →
  DirEntry_name de = Done name.
Proof.
  intros (Hb & Hl & Hz & Hu). rewrite DirEntry_new_spec by lia. intros [= <-].
  unfold DirEntry_name. cbn [dename]. rewrite find_zero by (done || lia). cbn [unwrap].
  rewrite outcome_bind_Done, take_app_le, take_ge by lia. by rewrite Hu.
Qed.
