(* ===== verification/DiskInode.v ===== *)
(** * DiskInode.v: the operations of a disk inode on its blocks ([easy-fs/src/layout.rs])

    [get_block_id], [increase_size], [clear_size], [read_at], [write_at] as [prog]s.  A [while]
    loop of the source is a recursion on the number of rounds left, computed from the bounds as
    the loop reads them on entry; the theorems show that the rounds are exactly those. *)

From S2P Require Import Prelude Bytes BlockProg Layout.

(** [arr[i] = x] for [i] in range, a panic otherwise. *)
Definition set_or_panic (arr : list Z) (i x : Z) : outcome (list Z) :=
  assert_that ((0 <=? i) && (i <? zlen arr)) PIndex;;
  mret (<[Z.to_nat i := x]> arr).

Definition get_block_id (di : DiskInode) (inner_id : Z) : prog Z :=
  if inner_id <? INODE_DIRECT_COUNT then lift (nth_or_panic (direct di) inner_id)
  else if inner_id <? INDIRECT1_BOUND then
    cache_read IndirectBlock (indirect1 di) 0
      (λ indirect_block, lift (nth_or_panic indirect_block (inner_id - INODE_DIRECT_COUNT)))
  else
    let last := inner_id - INDIRECT1_BOUND in
    row ← cache_read IndirectBlock (indirect2 di) 0
      (λ indirect2, lift (nth_or_panic indirect2 (last / INODE_INDIRECT1_COUNT)));
    cache_read IndirectBlock row 0
      (λ indirect1, lift (nth_or_panic indirect1 (last mod INODE_INDIRECT1_COUNT))).

(** *** [increase_size] *)

(** [new_blocks.next().unwrap()] *)
Definition next_block (new_blocks : list Z) : outcome (Z * list Z) :=
  match new_blocks with
  | [] => Panicked PUnwrap
  | b :: new_blocks => Done (b, new_blocks)
  end.

(** [while current < bound { arr[current] = new_blocks.next().unwrap(); current += 1 }],
    with [n = bound - current] rounds left. *)
Fixpoint fill (n : nat) (current : Z) (arr new_blocks : list Z) : outcome (list Z * list Z) :=
  match n with
  | O => mret (arr, new_blocks)
  | S n =>
      '(b, new_blocks) ← next_block new_blocks;
      arr ← set_or_panic arr current b;
      fill n (current + 1) arr new_blocks
  end.

(** The loop of the second level index, at cell (a0, b0) with [n] cells left before (a1, b1). *)
Fixpoint fill_indirect2 (n : nat) (a0 b0 : Z) (indirect2 new_blocks : list Z) : prog (list Z * list Z) :=
  match n with
  | O => mret (indirect2, new_blocks)
  | S n =>
      '(indirect2, new_blocks) ← lift
        (if b0 =? 0 then
           '(b, new_blocks) ← next_block new_blocks;
           indirect2 ← set_or_panic indirect2 a0 b;
           mret (indirect2, new_blocks)
         else mret (indirect2, new_blocks));
      row ← lift (nth_or_panic indirect2 a0);
      new_blocks ← cache_modify IndirectBlock row 0 (λ indirect1,
        '(b, new_blocks) ← lift (next_block new_blocks);
        indirect1 ← lift (set_or_panic indirect1 b0 b);
        mret (new_blocks, indirect1));
      let b0 := b0 + 1 in
      if b0 =? INODE_INDIRECT1_COUNT then fill_indirect2 n (a0 + 1) 0 indirect2 new_blocks
      else fill_indirect2 n a0 b0 indirect2 new_blocks
  end.

Definition increase_size (di : DiskInode) (new_size : Z) (new_blocks : list Z) : prog DiskInode :=
  let current_blocks := data_blocks di in
  let di := mkDiskInode new_size (direct di) (indirect1 di) (indirect2 di) (type_ di) in
  let total_blocks := data_blocks di in
  let bound := Z.min total_blocks INODE_DIRECT_COUNT in
  '(d, new_blocks) ← lift (fill (Z.to_nat (bound - current_blocks)) current_blocks (direct di) new_blocks);
  let di := mkDiskInode new_size d (indirect1 di) (indirect2 di) (type_ di) in
  let current_blocks := Z.max current_blocks bound in
  if total_blocks <=? INODE_DIRECT_COUNT then mret di
  else
    '(i1, new_blocks) ← lift
      (if current_blocks =? INODE_DIRECT_COUNT then next_block new_blocks
       else mret (indirect1 di, new_blocks));
    let di := mkDiskInode new_size d i1 (indirect2 di) (type_ di) in
    let current_blocks := u32 (current_blocks - INODE_DIRECT_COUNT) in
    let total_blocks := u32 (total_blocks - INODE_DIRECT_COUNT) in
    let bound := Z.min total_blocks INODE_INDIRECT1_COUNT in
    new_blocks ← cache_modify IndirectBlock i1 0 (λ indirect1,
      '(indirect1, new_blocks) ← lift (fill (Z.to_nat (bound - current_blocks)) current_blocks indirect1 new_blocks);
      mret (new_blocks, indirect1));
    let current_blocks := Z.max current_blocks bound in
    if total_blocks <=? INODE_INDIRECT1_COUNT then mret di
    else
      '(i2, new_blocks) ← lift
        (if current_blocks =? INODE_INDIRECT1_COUNT then next_block new_blocks
         else mret (indirect2 di, new_blocks));
      let di := mkDiskInode new_size d i1 i2 (type_ di) in
      let current_blocks := u32 (current_blocks - INODE_INDIRECT1_COUNT) in
      let total_blocks := u32 (total_blocks - INODE_INDIRECT1_COUNT) in
      cache_modify IndirectBlock i2 0 (λ indirect2,
        '(indirect2, _) ← fill_indirect2 (Z.to_nat (total_blocks - current_blocks))
          (current_blocks / INODE_INDIRECT1_COUNT) (current_blocks mod INODE_INDIRECT1_COUNT)
          indirect2 new_blocks;
        mret (tt, indirect2));;
      mret di.

(** *** [clear_size] *)

(** [for entry in indirect2.iter_mut().take(a1)] *)
Fixpoint clear_rows (rows v : list Z) : prog (list Z) :=
  match rows with
  | [] => mret v
  | entry :: rows =>
      v ← cache_modify IndirectBlock entry 0 (λ indirect1, mret (v ++ [entry] ++ indirect1, indirect1));
      clear_rows rows v
  end.

Definition clear_size (di : DiskInode) : prog (list Z * DiskInode) :=
  let data_blocks := data_blocks di in
  let n := Z.to_nat (Z.min data_blocks INODE_DIRECT_COUNT) in
  let v := take n (direct di) in
  let d := replicate n 0 ++ drop n (direct di) in
  if data_blocks <=? INODE_DIRECT_COUNT then mret (v, mkDiskInode 0 d (indirect1 di) (indirect2 di) (type_ di))
  else
    let v := v ++ [indirect1 di] in
    let data_blocks := data_blocks - INODE_DIRECT_COUNT in
    v ← cache_modify IndirectBlock (indirect1 di) 0 (λ indirect1,
      mret (v ++ take (Z.to_nat (Z.min data_blocks INODE_INDIRECT1_COUNT)) indirect1, indirect1));
    if data_blocks <=? INODE_INDIRECT1_COUNT then mret (v, mkDiskInode 0 d 0 (indirect2 di) (type_ di))
    else
      let v := v ++ [indirect2 di] in
      let data_blocks := data_blocks - INODE_INDIRECT1_COUNT in
      lift (assert_that (data_blocks <=? INODE_INDIRECT2_COUNT) PAssert);;
      let a1 := data_blocks / INODE_INDIRECT1_COUNT in
      let b1 := data_blocks mod INODE_INDIRECT1_COUNT in
      v ← cache_modify IndirectBlock (indirect2 di) 0 (λ indirect2,
        v ← clear_rows (take (Z.to_nat a1) indirect2) v;
        v ← (if 0 <? b1 then
               row ← lift (nth_or_panic indirect2 a1);
               cache_modify IndirectBlock row 0 (λ indirect1,
                 mret (v ++ [row] ++ take (Z.to_nat b1) indirect1, indirect1))
             else mret v);
        mret (v, indirect2));
      mret (v, mkDiskInode 0 d 0 0 (type_ di)).

(** *** [read_at] and [write_at] *)

(** One round per block from [start] to [end]; [buf] is the caller's buffer. *)
Fixpoint read_loop (di : DiskInode) (n : nat) (start end_ start_block read_size : Z) (buf : list Z)
    : prog (Z * list Z) :=
  match n with
  | O => Fail PInvalid
  | S n =>
      let end_current_block := Z.min ((start / Z.of_nat BLOCK_SZ + 1) * Z.of_nat BLOCK_SZ) end_ in
      let block_read_size := end_current_block - start in
      id ← get_block_id di (u32 start_block);
      buf ← cache_read DataBlock id 0 (λ data_block,
        mret (splice (Z.to_nat read_size)
          (slice (Z.to_nat (start mod Z.of_nat BLOCK_SZ)) (Z.to_nat block_read_size) data_block) buf));
      let read_size := read_size + block_read_size in
      if end_current_block =? end_ then mret (read_size, buf)
      else read_loop di n end_current_block end_ (start_block + 1) read_size buf
  end.

(** The number of rounds of both loops. *)
Definition rounds (start end_ : Z) : nat := Z.to_nat (end_ / Z.of_nat BLOCK_SZ - start / Z.of_nat BLOCK_SZ + 1).

Definition read_at (di : DiskInode) (offset : Z) (buf : list Z) : prog (Z * list Z) :=
  let start := offset in
  let end_ := Z.min (u64 (offset + zlen buf)) (di_size di) in
  if end_ <=? start then mret (0, buf)
  else read_loop di (rounds start end_) start end_ (start / Z.of_nat BLOCK_SZ) 0 buf.

Fixpoint write_loop (di : DiskInode) (n : nat) (start end_ start_block write_size : Z) (buf : list Z) : prog Z :=
  match n with
  | O => Fail PInvalid
  | S n =>
      let end_current_block := Z.min ((start / Z.of_nat BLOCK_SZ + 1) * Z.of_nat BLOCK_SZ) end_ in
      let block_write_size := end_current_block - start in
      id ← get_block_id di (u32 start_block);
      cache_modify DataBlock id 0 (λ data_block,
        mret (tt, splice (Z.to_nat (start mod Z.of_nat BLOCK_SZ))
          (slice (Z.to_nat write_size) (Z.to_nat block_write_size) buf) data_block));;
      let write_size := write_size + block_write_size in
      if end_current_block =? end_ then mret write_size
      else write_loop di n end_current_block end_ (start_block + 1) write_size buf
  end.

Definition write_at (di : DiskInode) (offset : Z) (buf : list Z) : prog Z :=
  let start := offset in
  let end_ := Z.min (u64 (offset + zlen buf)) (di_size di) in
  lift (assert_that (start <=? end_) PAssert);;
  write_loop di (rounds start end_) start end_ (start / Z.of_nat BLOCK_SZ) 0 buf.

(** ** The blocks and the bytes of a file *)

(** Word [k] of the index block [id]. *)
Definition idx_word (D : gmap Z block) (id k : Z) : option Z :=
  b ← D !! id; dec_arr 4 128 b !! Z.to_nat k.

(** The data block that holds block [k] of the file, and the index blocks on the way to it. *)
Definition inode_block (di : DiskInode) (D : gmap Z block) (k : Z) : option Z :=
  if k <? 28 then direct di !! Z.to_nat k
  else if k <? 156 then idx_word D (indirect1 di) (k - 28)
  else row ← idx_word D (indirect2 di) ((k - 156) / 128); idx_word D row ((k - 156) mod 128).

Definition index_of (di : DiskInode) (D : gmap Z block) (k : Z) : list Z :=
  if k <? 28 then []
  else if k <? 156 then [indirect1 di]
  else indirect2 di :: option_list (idx_word D (indirect2 di) ((k - 156) / 128)).

Definition file_byte (di : DiskInode) (D : gmap Z block) (i : Z) : option Z :=
  id ← inode_block di D (i / 512); b ← D !! id; b !! Z.to_nat (i mod 512).

Definition usable (L : gset Z) (D : gmap Z block) (id : Z) : Prop :=
  ∃ b, D !! id = Some b ∧ wf_block b ∧ can_hold L id.

(** All blocks of the file are there and none is held. *)
Record file_ok (L : gset Z) (D : gmap Z block) (di : DiskInode) : Prop := {
  fo_direct : length (direct di) = 28%nat;
  fo_size : 0 ≤ di_size di ≤ INDIRECT2_BOUND * 512;
  fo_index : ∀ k x, 0 ≤ k < data_blocks di → x ∈ index_of di D k → usable L D x;
  fo_block : ∀ k, 0 ≤ k < data_blocks di → ∃ id, inode_block di D k = Some id ∧ usable L D id;
}.

(** No block is used twice. *)
Record file_sep (D : gmap Z block) (di : DiskInode) : Prop := {
  fs_inj : ∀ j k id, 0 ≤ j < data_blocks di → 0 ≤ k < data_blocks di →
    inode_block di D j = Some id → inode_block di D k = Some id → j = k;
  fs_index : ∀ j k id, 0 ≤ j < data_blocks di → 0 ≤ k < data_blocks di →
    inode_block di D j = Some id → id ∉ index_of di D k;
  fs_rows : ∀ k, 0 ≤ k < data_blocks di → NoDup (index_of di D k);
}.

Lemma data_blocks_small size : 0 ≤ size ≤ INDIRECT2_BOUND * 512 → _data_blocks size = (size + 511) / 512.
Proof.
  intros H. rewrite INDIRECT2_BOUND_eq in H. unfold _data_blocks, BLOCK_SZ. rewrite (wrap_small 32 (size + _)) by lia.
  rewrite wrap_small by lia. change (Z.of_nat 512) with 512. f_equal. lia.
Qed.

Lemma nth_or_panic_Some (l : list Z) i x : 0 ≤ i → l !! Z.to_nat i = Some x → nth_or_panic l i = Done x.
Proof. intros Hi Hx. unfold nth_or_panic. destruct (Z.ltb_spec i 0); [lia|]. by rewrite Hx. Qed.

Lemma run_read_idx L D id k x : 0 ≤ k → usable L D id → idx_word D id k = Some x →
  run (cache_read IndirectBlock id 0 (λ ib, lift (nth_or_panic ib k))) L D = FDone x L D.
Proof.
  intros Hk (b & Hb & Hwf & HL) Hx. unfold idx_word in Hx. rewrite Hb in Hx. cbn in Hx.
  apply (run_cache_read IndirectBlock _ _ _ L D D b (dec_arr 4 128 b)); [done|done|by apply (view_arr 4 128)|].
  by rewrite (nth_or_panic_Some _ _ x).
Qed.

Lemma get_block_id_spec L D di k id : 0 ≤ k → length (direct di) = 28%nat →
  inode_block di D k = Some id → (∀ x, x ∈ index_of di D k → usable L D x) →
  run (get_block_id di k) L D = FDone id L D.
Proof.
  intros Hk Hl Hid Hidx. unfold inode_block in Hid. unfold index_of in Hidx. unfold get_block_id.
  change INODE_DIRECT_COUNT with 28. rewrite INDIRECT1_BOUND_eq, INODE_INDIRECT1_COUNT_eq.
  destruct (k <? 28) eqn:E1; [by rewrite (nth_or_panic_Some _ _ id)|]. apply Z.ltb_ge in E1.
  destruct (k <? 156) eqn:E2.
  - apply run_read_idx; [lia| |done]. apply Hidx. by left.
  - apply Z.ltb_ge in E2. destruct (idx_word D (indirect2 di) _) as [row|] eqn:Hrow; [|done].
    cbn [mbind option_bind] in Hid. rewrite run_bind, (run_read_idx L D _ _ row); [|dlia|apply Hidx; by left|done].
    apply run_read_idx; [dlia| |done]. apply Hidx. right. cbn. by left.
Qed.

(** A position inside the file: its block is usable and [file_byte] reads it. *)
Lemma file_pos L D di i : file_ok L D di → 0 ≤ i < di_size di →
  0 ≤ i / 512 < data_blocks di ∧ u32 (i / 512) = i / 512 ∧
  ∃ id b, inode_block di D (i / 512) = Some id ∧ D !! id = Some b ∧ wf_block b ∧ can_hold L id ∧
    run (get_block_id di (i / 512)) L D = FDone id L D.
Proof.
  intros F Hi. pose proof (fo_size _ _ _ F) as Hs. pose proof Hs as Hs'. rewrite INDIRECT2_BOUND_eq in Hs'.
  assert (Hk : 0 ≤ i / 512 < data_blocks di) by (unfold data_blocks; rewrite data_blocks_small by done; dlia).
  split; [done|]. split; [apply wrap_small; dlia|].
  destruct (fo_block _ _ _ F _ Hk) as (id & Hid & b & Hb & Hwf & HL).
  exists id, b. do 4 (split; [done|]). apply get_block_id_spec; [lia|apply F|done|].
  intros x. by apply (fo_index _ _ _ F).
Qed.

(** The bytes of one block of the file. *)
Lemma file_byte_block di D i j id b : inode_block di D (i / 512) = Some id → D !! id = Some b →
  0 ≤ i → i ≤ j < (i / 512 + 1) * 512 → file_byte di D j = b !! Z.to_nat (j mod 512).
Proof.
  intros Hid Hb Hi Hj. unfold file_byte. assert (j / 512 = i / 512) as -> by dlia.
  rewrite Hid. cbn. by rewrite Hb.
Qed.

(** *** Reading *)

Lemma read_loop_spec L D di n : ∀ start end_ rs buf,
  file_ok L D di → 0 ≤ start < end_ → end_ ≤ di_size di → 0 ≤ rs →
  rs + (end_ - start) ≤ zlen buf → end_ / 512 - start / 512 + 1 ≤ Z.of_nat n →
  ∃ buf', run (read_loop di n start end_ (start / 512) rs buf) L D = FDone (rs + (end_ - start), buf') L D ∧
    length buf' = length buf ∧
    ∀ i : nat, buf' !! i = if decide (rs ≤ Z.of_nat i < rs + (end_ - start))
                     then file_byte di D (start + (Z.of_nat i - rs)) else buf !! i.
Proof.
  induction n as [|n IH]; intros start end_ rs buf F Hse Hsz Hrs Hbuf Hn; [exfalso; dlia|].
  destruct (file_pos L D di start F) as (Hk & Hu & id & b & Hid & Hb & Hwf & HL & Hrun); [lia|].
  cbn [read_loop]. change (Z.of_nat BLOCK_SZ) with 512. rewrite Hu, run_bind, Hrun.
  set (e := Z.min ((start / 512 + 1) * 512) end_). assert (He : start < e ≤ end_) by (unfold e; dlia).
  assert (Hblk : e ≤ (start / 512 + 1) * 512) by lia.
  set (src := slice (Z.to_nat (start mod 512)) (Z.to_nat (e - start)) b).
  assert (Hsrc : length src = Z.to_nat (e - start)).
  { unfold src. apply length_slice. destruct Hwf as [-> _]. unfold BLOCK_SZ. dlia. }
  set (buf1 := splice (Z.to_nat rs) src buf).
  assert (Hb1 : length buf1 = length buf) by (apply length_splice; unfold zlen in *; lia).
  assert (Hl1 : ∀ i : nat, buf1 !! i = if decide (rs ≤ Z.of_nat i < rs + (e - start))
                     then file_byte di D (start + (Z.of_nat i - rs)) else buf !! i).
  { intros i. unfold buf1. rewrite lookup_splice by (unfold zlen in *; lia). rewrite Hsrc.
    case_decide as H1; case_decide as H2; try lia; [|done].
    rewrite (file_byte_block di D start _ id b) by (done || lia).
    unfold src. rewrite lookup_slice, decide_True by lia. f_equal.
    assert (Z.of_nat i - rs + start mod 512 = (start + (Z.of_nat i - rs)) mod 512); [|pose proof (Z.mod_pos_bound start 512 eq_refl); lia].
    clear - H2 Hblk Hse. dlia. }
  rewrite run_bind. rewrite (run_cache_read DataBlock id 0 _ L D D b b buf1) by (done || by apply view_data).
  destruct (Z.eqb_spec e end_) as [E|E].
  - exists buf1. rewrite <- E. done.
  - assert (Ee : e / 512 = start / 512 + 1) by (unfold e in *; rewrite Z.min_l by lia; apply Z.div_mul; lia).
    rewrite <- Ee. destruct (IH e end_ (rs + (e - start)) buf1) as (buf' & Hr & Hl & Hi);
      [done|lia|lia|lia|unfold zlen in *; rewrite Hb1; lia|lia|].
    exists buf'. split; [rewrite Hr; do 2 f_equal; lia|]. split; [congruence|].
    intros i. rewrite Hi, Hl1. repeat case_decide; try lia; [|done..]. f_equal. lia.
Qed.

(** Bytes read at [offset] into [buf]. *)
Definition read_count (di : DiskInode) (offset : Z) (buf : list Z) : Z :=
  Z.max 0 (Z.min (offset + zlen buf) (di_size di) - offset).

Lemma read_at_spec L D di offset buf :
  file_ok L D di → 0 ≤ offset → offset + zlen buf < 2 ^ 64 →
  ∃ buf', run (read_at di offset buf) L D = FDone (read_count di offset buf, buf') L D ∧
    length buf' = length buf ∧
    ∀ i : nat, buf' !! i = if decide (Z.of_nat i < read_count di offset buf)
                     then file_byte di D (offset + Z.of_nat i) else buf !! i.
Proof.
  intros F Ho Hb. unfold read_at, read_count, zlen in *. rewrite (wrap_small 64) by lia.
  set (e := Z.min (offset + Z.of_nat (length buf)) (di_size di)).
  destruct (Z.leb_spec e offset) as [He|He].
  - exists buf. rewrite Z.max_l by lia. do 2 (split; [done|]). intros i. by rewrite decide_False by lia.
  - rewrite Z.max_r by lia.
    destruct (read_loop_spec L D di (rounds offset e) offset e 0 buf) as (buf' & Hr & Hl & Hi);
      [done|lia|lia|lia|unfold zlen; lia| |].
    { unfold rounds. change (Z.of_nat BLOCK_SZ) with 512. lia. }
    exists buf'. split; [exact Hr|]. split; [done|]. intros i. rewrite Hi.
    repeat case_decide; try lia; [|done]. f_equal. lia.
Qed.

(** *** Writing *)

Lemma can_hold_dom L D id b j : usable L D j → wf_block b → usable L (<[id:=b]> D) j.
Proof.
  intros (c & Hc & Hwf & HL) Hb. destruct (decide (j = id)) as [->|].
  - exists b. by rewrite lookup_insert_eq.
  - exists c. by rewrite lookup_insert_ne.
Qed.

Lemma idx_word_insert D id b x k : x ≠ id → idx_word (<[id:=b]> D) x k = idx_word D x k.
Proof. intros. unfold idx_word. by rewrite lookup_insert_ne. Qed.

(** Overwriting a block that is not an index block of the file leaves its block map as it is. *)
Lemma index_of_insert di D id b k :
  id ∉ index_of di D k → index_of di (<[id:=b]> D) k = index_of di D k.
Proof.
  unfold index_of. intros H. destruct (k <? 28); [done|]. destruct (k <? 156); [done|].
  apply not_elem_of_cons in H as [H1 H2]. by rewrite idx_word_insert.
Qed.

Lemma inode_block_insert di D id b k :
  id ∉ index_of di D k → inode_block di (<[id:=b]> D) k = inode_block di D k.
Proof.
  unfold index_of, inode_block. intros H. destruct (k <? 28); [done|]. destruct (k <? 156).
  - apply idx_word_insert. intros E. apply H. rewrite E. by left.
  - apply not_elem_of_cons in H as [H1 H2]. rewrite idx_word_insert by done.
    destruct (idx_word D (indirect2 di) _) as [row|]; [|done]. cbn in *. apply idx_word_insert.
    intros ->. apply H2. by left.
Qed.

Section data_write.
Context (L : gset Z) (D : gmap Z block) (di : DiskInode) (F : file_ok L D di) (S : file_sep D di).

Lemma write_same_map j id b k : 0 ≤ j < data_blocks di → inode_block di D j = Some id → 0 ≤ k < data_blocks di →
  inode_block di (<[id:=b]> D) k = inode_block di D k ∧ index_of di (<[id:=b]> D) k = index_of di D k.
Proof.
  intros Hj Hid Hk. pose proof (fs_index _ _ S _ _ _ Hj Hk Hid).
  split; [by apply inode_block_insert|by apply index_of_insert].
Qed.

Lemma write_file_ok j id b : 0 ≤ j < data_blocks di → inode_block di D j = Some id → wf_block b →
  file_ok L (<[id:=b]> D) di ∧ file_sep (<[id:=b]> D) di.
Proof.
  intros Hj Hid Hb. assert (Hsame := λ k, write_same_map j id b k Hj Hid). split; split.
  - apply F.
  - apply F.
  - intros k x Hk Hx. rewrite (proj2 (Hsame k Hk)) in Hx. eapply can_hold_dom; [|done].
    by apply (fo_index _ _ _ F k).
  - intros k Hk. rewrite (proj1 (Hsame k Hk)). destruct (fo_block _ _ _ F k Hk) as (x & Hx & Hu).
    exists x. split; [done|]. by eapply can_hold_dom.
  - intros i k x Hi Hk. rewrite (proj1 (Hsame i Hi)), (proj1 (Hsame k Hk)). by apply (fs_inj _ _ S).
  - intros i k x Hi Hk. rewrite (proj1 (Hsame i Hi)), (proj2 (Hsame k Hk)). by apply (fs_index _ _ S).
  - intros k Hk. rewrite (proj2 (Hsame k Hk)). by apply (fs_rows _ _ S).
Qed.
End data_write.

(** What writing the bytes [w] over positions [start, end_) does. *)
Record written (L : gset Z) (di : DiskInode) (D D' : gmap Z block) (start end_ : Z) (w : Z → option Z) : Prop := {
  wr_ok : file_ok L D' di;
  wr_sep : file_sep D' di;
  wr_map : ∀ k, 0 ≤ k < data_blocks di → inode_block di D' k = inode_block di D k;
  wr_bytes : ∀ i, 0 ≤ i < di_size di →
    file_byte di D' i = if decide (start ≤ i < end_) then w i else file_byte di D i;
  wr_frame : ∀ id, (∀ k, 0 ≤ k < data_blocks di → inode_block di D k ≠ Some id) → D' !! id = D !! id;
}.

(** One round: the bytes of one block. *)
Lemma write_block_spec L D di start e id b src :
  file_ok L D di → file_sep D di → 0 ≤ start < e → e ≤ di_size di → e ≤ (start / 512 + 1) * 512 →
  inode_block di D (start / 512) = Some id → D !! id = Some b → wf_block b →
  length src = Z.to_nat (e - start) → bytes_ok src →
  written L di D (<[id := splice (Z.to_nat (start mod 512)) src b]> D) start e
    (λ i, src !! Z.to_nat (i - start)).
Proof.
  intros F S Hse He Hblk Hid Hb Hwf Hsrc Hok.
  assert (Hk : 0 ≤ start / 512 < data_blocks di) by (apply (file_pos L D di start F); lia).
  pose proof (Z.mod_pos_bound start 512 eq_refl) as Hm.
  assert (Hfit : (Z.to_nat (start mod 512) + length src ≤ length b)%nat).
  { rewrite Hsrc. destruct Hwf as [-> _]. unfold BLOCK_SZ. clear - Hblk Hse Hm. dlia. }
  set (b' := splice _ src b).
  assert (Hwf' : wf_block b').
  { split; [unfold b'; rewrite length_splice by done; apply Hwf|].
    apply bytes_ok_splice; [done|apply Hwf]. }
  destruct (write_file_ok L D di F S _ id b' Hk Hid Hwf') as [F' S'].
  assert (Hsame := λ k, write_same_map D di S _ id b' k Hk Hid).
  split; [done|done|intros k Hkk; apply (Hsame k Hkk)| |].
  - intros i Hi. destruct (file_pos L D di i F Hi) as (Hki & _ & idi & bi & Hidi & Hbi & _).
    unfold file_byte. rewrite (proj1 (Hsame _ Hki)), Hidi. cbn.
    destruct (decide (i / 512 = start / 512)) as [E|E].
    + assert (idi = id) as -> by congruence. rewrite lookup_insert_eq, Hbi. cbn.
      assert (bi = b) as -> by congruence. unfold b'. rewrite lookup_splice by done. rewrite Hsrc.
      pose proof (Z.mod_pos_bound i 512 eq_refl).
      assert (Hdiff : i - start = i mod 512 - start mod 512) by (clear - E; dlia).
      repeat case_decide; try lia; [|done]. f_equal. lia.
    + rewrite lookup_insert_ne.
      * rewrite decide_False; [done|]. clear - E Hse Hblk. dlia.
      * intros <-. apply E. by eapply (fs_inj _ _ S).
  - intros x Hx. apply lookup_insert_ne. intros ->. by eapply Hx.
Qed.

Lemma written_trans L di D D1 D2 s m e w1 w2 :
  s ≤ m ≤ e → written L di D D1 s m w1 → written L di D1 D2 m e w2 →
  written L di D D2 s e (λ i, if decide (i < m) then w1 i else w2 i).
Proof.
  intros Hm [_ _ M1 B1 Fr1] [F2 S2 M2 B2 Fr2]. split; [done|done| | |].
  - intros k Hk. by rewrite M2, M1.
  - intros i Hi. rewrite B2, B1 by done. repeat case_decide; try lia; done.
  - intros id Hid. rewrite Fr2; [by apply Fr1|]. intros k Hk. rewrite M1 by done. by apply Hid.
Qed.

Lemma written_ext L di D D' s e w1 w2 :
  (∀ i, s ≤ i < e → w1 i = w2 i) → written L di D D' s e w1 → written L di D D' s e w2.
Proof.
  intros E [? ? ? B ?]. split; [done..| |done]. intros i Hi. rewrite B by done. case_decide; [by apply E|done].
Qed.

Lemma write_loop_spec L di n : ∀ D start end_ ws buf,
  file_ok L D di → file_sep D di → 0 ≤ start < end_ → end_ ≤ di_size di → 0 ≤ ws →
  ws + (end_ - start) ≤ zlen buf → bytes_ok buf → end_ / 512 - start / 512 + 1 ≤ Z.of_nat n →
  ∃ D', run (write_loop di n start end_ (start / 512) ws buf) L D = FDone (ws + (end_ - start)) L D' ∧
    written L di D D' start end_ (λ i, buf !! Z.to_nat (ws + (i - start))).
Proof.
  induction n as [|n IH]; intros D start end_ ws buf F S Hse Hsz Hws Hbuf Hok Hn; [exfalso; dlia|].
  destruct (file_pos L D di start F) as (Hk & Hu & id & b & Hid & Hb & Hwf & HL & Hrun); [lia|].
  cbn [write_loop]. change (Z.of_nat BLOCK_SZ) with 512. rewrite Hu, run_bind, Hrun.
  set (e := Z.min ((start / 512 + 1) * 512) end_). assert (He : start < e ≤ end_) by (unfold e; dlia).
  assert (Hblk : e ≤ (start / 512 + 1) * 512) by lia.
  set (src := slice (Z.to_nat ws) (Z.to_nat (e - start)) buf).
  assert (Hsrc : length src = Z.to_nat (e - start)) by (apply length_slice; unfold zlen in *; lia).
  assert (W : written L di D (<[id := splice (Z.to_nat (start mod 512)) src b]> D) start e
    (λ i, buf !! Z.to_nat (ws + (i - start)))).
  { eapply written_ext; [|eapply write_block_spec; eauto with tcore; lia].
    intros i Hi. cbn. unfold src. rewrite lookup_slice, decide_True by lia. f_equal. lia. }
  rewrite run_bind.
  rewrite (run_modify_data id _ L D b tt (splice (Z.to_nat (start mod 512)) src b)); [|done..|]; last first.
  { rewrite length_splice; [apply Hwf|]. rewrite Hsrc. destruct Hwf as [-> _].
    unfold BLOCK_SZ. clear - Hblk Hse. dlia. }
  destruct (Z.eqb_spec e end_) as [E|E].
  - exists (<[id := splice (Z.to_nat (start mod 512)) src b]> D). rewrite <- E. split; [done|exact W].
  - assert (Ee : e / 512 = start / 512 + 1) by (unfold e in *; rewrite Z.min_l by lia; apply Z.div_mul; lia).
    rewrite <- Ee. destruct (IH (<[id := splice (Z.to_nat (start mod 512)) src b]> D) e end_ (ws + (e - start)) buf)
      as (D' & Hr & W'); [apply W|apply W|lia..|done|lia|].
    exists D'. split; [etransitivity; [exact Hr|f_equal; lia]|].
    eapply written_ext; [|eapply (written_trans _ _ _ _ _ start e end_); [lia|exact W|exact W']].
    intros i Hi. cbn. case_decide; [done|]. f_equal. lia.
Qed.

Lemma write_at_spec L D di offset buf :
  file_ok L D di → file_sep D di → 0 ≤ offset < di_size di → 0 < zlen buf → offset + zlen buf < 2 ^ 64 →
  bytes_ok buf →
  let end_ := Z.min (offset + zlen buf) (di_size di) in
  ∃ D', run (write_at di offset buf) L D = FDone (end_ - offset) L D' ∧
    written L di D D' offset end_ (λ i, buf !! Z.to_nat (i - offset)).
Proof.
  intros F S Ho Hl Hb Hok end_. unfold write_at. rewrite (wrap_small 64) by lia. fold end_.
  assert (Hend : offset < end_ ≤ di_size di) by lia.
  unfold assert_that. destruct (Z.leb_spec offset end_); [|lia]. cbn [mbind prog_bind lift].
  destruct (write_loop_spec L di (rounds offset end_) D offset end_ 0 buf) as (D' & Hr & W);
    [done|done|lia|lia|lia|lia|done| |].
  { unfold rounds. change (Z.of_nat BLOCK_SZ) with 512. lia. }
  exists D'. split; [exact Hr|]. eapply written_ext; [|exact W]. intros i Hi. cbn. f_equal.
Qed.

(** *** Clearing *)

(** The words of an index block. *)
Definition words (D : gmap Z block) (id : Z) : list Z := from_option (dec_arr 4 128) [] (D !! id).

Lemma idx_word_words D id k : idx_word D id k = words D id !! Z.to_nat k.
Proof. unfold idx_word, words. by destruct (D !! id). Qed.

Lemma length_words L D id : usable L D id → length (words D id) = 128%nat.
Proof. intros (b & Hb & _). unfold words. rewrite Hb. apply length_dec_arr. Qed.

(** A [modify] closure that only reads an index block. *)
Lemma run_modify_words {A} L D id (f : list Z → prog (A * list Z)) v : usable L D id →
  run (f (words D id)) ({[id]} ∪ L) D = FDone (v, words D id) ({[id]} ∪ L) D →
  run (cache_modify IndirectBlock id 0 f) L D = FDone v L D.
Proof.
  intros (b & Hb & Hwf & HL) Hf. assert (Ew : words D id = dec_arr 4 128 b) by (unfold words; by rewrite Hb).
  rewrite Ew in Hf.
  rewrite (run_cache_modify IndirectBlock id 0 f L D D b (dec_arr 4 128 b) v (dec_arr 4 128 b));
    [|done|done|apply Hwf|by apply (view_arr 4 128)|cbn [cenc IndirectBlock arr_codec]; by rewrite length_enc_arr, length_dec_arr|by rewrite Hf].
  f_equal. cbn [cenc IndirectBlock arr_codec]. rewrite enc_dec_arr by apply Hwf.
  rewrite splice_all by done. by apply insert_id.
Qed.

(** The blocks of the file in the order [clear_size] returns them. *)
Definition all_blocks (di : DiskInode) (D : gmap Z block) : list Z :=
  let n := data_blocks di in
  let a1 := (n - 156) / 128 in
  let b1 := (n - 156) mod 128 in
  let row := default 0 (words D (indirect2 di) !! Z.to_nat a1) in
  take (Z.to_nat (Z.min n 28)) (direct di) ++
  (if n <=? 28 then [] else
     indirect1 di :: take (Z.to_nat (Z.min (n - 28) 128)) (words D (indirect1 di)) ++
     (if n <=? 156 then [] else
        indirect2 di ::
        ((take (Z.to_nat a1) (words D (indirect2 di)) ≫= λ r, r :: words D r) ++
         if 0 <? b1 then row :: take (Z.to_nat b1) (words D row) else []))).

Lemma clear_rows_spec L D rows v : (∀ r, r ∈ rows → usable L D r) →
  run (clear_rows rows v) L D = FDone (v ++ (rows ≫= λ r, r :: words D r)) L D.
Proof.
  revert v. induction rows as [|r rows IH]; intros v Hu; cbn [clear_rows].
  - by rewrite app_nil_r.
  - rewrite run_bind.
    rewrite (run_modify_words L D r _ (v ++ [r] ++ words D r)) by (done || apply Hu; by left).
    rewrite IH by (intros; apply Hu; by right). f_equal. cbn. by rewrite <- app_assoc.
Qed.

Lemma usable_more L D id x : usable L D x → (size L + 1 < BLOCK_CACHE_SIZE)%nat → x ≠ id → usable ({[id]} ∪ L) D x.
Proof.
  intros (b & Hb & Hwf & [HL _]) Hs Hne. exists b. do 2 (split; [done|]). split; [set_solver|].
  pose proof (size_union_alt {[id]} L) as E. rewrite size_singleton in E.
  assert (size (L ∖ {[id]}) ≤ size L)%nat by (apply subseteq_size; set_solver). lia.
Qed.

Section clear.
Context (L : gset Z) (D : gmap Z block) (di : DiskInode) (F : file_ok L D di) (S : file_sep D di).

Lemma index1_usable : 28 < data_blocks di → usable L D (indirect1 di).
Proof. intros H. apply (fo_index _ _ _ F 28); [lia|]. by left. Qed.

Lemma index2_usable : 156 < data_blocks di → usable L D (indirect2 di).
Proof. intros H. apply (fo_index _ _ _ F 156); [lia|]. by left. Qed.

Lemma row_usable j : 156 < data_blocks di → 0 ≤ j → 156 + 128 * j < data_blocks di →
  ∃ r, words D (indirect2 di) !! Z.to_nat j = Some r ∧ usable L D r ∧ r ≠ indirect2 di.
Proof.
  intros H2 Hj Hlt. assert (Hn : data_blocks di ≤ 16540).
  { pose proof (fo_size _ _ _ F) as Hs. unfold data_blocks. rewrite data_blocks_small by done.
    rewrite INDIRECT2_BOUND_eq in Hs. dlia. }
  destruct (lookup_lt_is_Some_2 (words D (indirect2 di)) (Z.to_nat j)) as [r Hr].
  { rewrite (length_words L) by by apply index2_usable. lia. }
  exists r. split; [done|].
  assert (Hidx : index_of di D (156 + 128 * j) = [indirect2 di; r]).
  { unfold index_of. destruct (Z.ltb_spec (156 + 128 * j) 28); [lia|].
    destruct (Z.ltb_spec (156 + 128 * j) 156); [lia|].
    replace ((156 + 128 * j - 156) / 128) with j by dlia. by rewrite idx_word_words, Hr. }
  split.
  - apply (fo_index _ _ _ F (156 + 128 * j)); [lia|]. rewrite Hidx. right. by left.
  - intros ->. pose proof (fs_rows _ _ S (156 + 128 * j) ltac:(lia)) as Hnd. rewrite Hidx in Hnd.
    apply NoDup_cons in Hnd as [Hnd _]. apply Hnd. by left.
Qed.
End clear.

Section clear_run.
Context (L : gset Z) (D : gmap Z block) (di : DiskInode) (F : file_ok L D di) (S : file_sep D di).
Context (HL : (size L + 1 < BLOCK_CACHE_SIZE)%nat).

Lemma data_blocks_max : 0 ≤ data_blocks di ≤ 16540.
Proof.
  pose proof (fo_size _ _ _ F) as Hs. unfold data_blocks. rewrite data_blocks_small by done.
  rewrite INDIRECT2_BOUND_eq in Hs. dlia.
Qed.

(** The last part of [clear_size], under the guard of the second level index block. *)
Lemma clear_second_run a1 b1 v :
  0 ≤ a1 → 0 ≤ b1 < 128 → 156 + a1 * 128 + b1 = data_blocks di → 156 < data_blocks di →
  let row := default 0 (words D (indirect2 di) !! Z.to_nat a1) in
  run (cache_modify IndirectBlock (indirect2 di) 0 (λ indirect2,
        v ← clear_rows (take (Z.to_nat a1) indirect2) v;
        v ← (if 0 <? b1 then
               row ← lift (nth_or_panic indirect2 a1);
               cache_modify IndirectBlock row 0 (λ indirect1,
                 mret (v ++ [row] ++ take (Z.to_nat b1) indirect1, indirect1))
             else mret v);
        mret (v, indirect2))) L D =
  FDone (v ++ (take (Z.to_nat a1) (words D (indirect2 di)) ≫= λ r, r :: words D r) ++
    if 0 <? b1 then row :: take (Z.to_nat b1) (words D row) else []) L D.
Proof.
  intros Ha Hb Hn H2 row. apply run_modify_words; [by apply (index2_usable L D di F)|].
  assert (Hrow : ∀ j, 0 ≤ j → 156 + 128 * j < data_blocks di →
    ∃ r, words D (indirect2 di) !! Z.to_nat j = Some r ∧ usable ({[indirect2 di]} ∪ L) D r).
  { intros j Hj Hlt. destruct (row_usable L D di F S j) as (r & Hr & Hu & Hne); [done..|].
    exists r. split; [done|]. apply (usable_more L D); [done|lia|done]. }
  rewrite run_bind, clear_rows_spec; last first.
  { intros r (j & Hj)%list_elem_of_lookup.
    pose proof (lookup_lt_Some _ _ _ Hj) as Hlt. rewrite length_take in Hlt.
    rewrite lookup_take_lt in Hj by lia.
    destruct (Hrow (Z.of_nat j)) as (r' & Hr' & Hu); [lia..|].
    rewrite Nat2Z.id in Hr'. by assert (r' = r) as -> by congruence. }
  rewrite run_bind. destruct (Z.ltb_spec 0 b1) as [Hb1|Hb1].
  - destruct (Hrow a1) as (r & Hr & Hu); [lia..|].
    rewrite run_bind, (run_lift_Done r) by (apply nth_or_panic_Some; [lia|done]).
    erewrite run_modify_words; [|done|done]. unfold row. rewrite Hr. cbn [default from_option].
    by rewrite <- app_assoc.
  - by rewrite app_nil_r.
Qed.

Lemma clear_size_run : ∃ di', run (clear_size di) L D = FDone (all_blocks di D, di') L D ∧
  di_size di' = 0 ∧ type_ di' = type_ di ∧ length (direct di') = 28%nat ∧
  (∀ k, 0 ≤ k < data_blocks di → k < 28 → direct di' !! Z.to_nat k = Some 0) ∧
  (words_ok 4 (DiskInode_words di) → words_ok 4 (DiskInode_words di')).
Proof.
  pose proof data_blocks_max as Hn. pose proof (fo_direct _ _ _ F) as Hd.
  set (m := Z.to_nat (Z.min (data_blocks di) 28)).
  assert (Hdir : length (replicate m 0 ++ drop m (direct di)) = 28%nat ∧
    ∀ k, 0 ≤ k < data_blocks di → k < 28 → (replicate m 0 ++ drop m (direct di)) !! Z.to_nat k = Some 0).
  { split; [rewrite length_app, length_replicate, length_drop; lia|]. intros k Hk H28.
    rewrite lookup_app_l by (rewrite length_replicate; lia). apply lookup_replicate_2. lia. }
  assert (Hwo : ∀ i1 i2 t, i1 = indirect1 di ∨ i1 = 0 → i2 = indirect2 di ∨ i2 = 0 → words_ok 4 (DiskInode_words di) →
    words_ok 4 (DiskInode_words (mkDiskInode 0 (replicate m 0 ++ drop m (direct di)) i1 i2 t))).
  { intros i1 i2 t H1 H2. unfold words_ok, DiskInode_words. cbn [di_size direct indirect1 indirect2].
    rewrite !Forall_cons, !Forall_app, !Forall_cons. intros (_ & Hwd & Hw1 & Hw2 & _). split; [done|]. split.
    - split; [by apply Forall_replicate|by apply Forall_drop].
    - destruct H1 as [->| ->], H2 as [->| ->]; done. }
  unfold clear_size, all_blocks. change INODE_DIRECT_COUNT with 28. fold m.
  rewrite INODE_INDIRECT1_COUNT_eq. destruct (Z.leb_spec (data_blocks di) 28) as [H1|H1].
  { eexists. rewrite app_nil_r. split; [done|]. cbn. naive_solver. }
  rewrite run_bind. rewrite (run_modify_words L D (indirect1 di) _
    ((take m (direct di) ++ [indirect1 di]) ++ take (Z.to_nat (Z.min (data_blocks di - 28) 128)) (words D (indirect1 di))))
    by (done || by apply (index1_usable L D di F)).
  destruct (Z.leb_spec (data_blocks di - 28) 128) as [H2|H2].
  { eexists. destruct (Z.leb_spec (data_blocks di) 156); [|lia]. rewrite app_nil_r, <- app_assoc.
    split; [done|]. cbn. naive_solver. }
  destruct (Z.leb_spec (data_blocks di) 156); [lia|].
  change INODE_INDIRECT2_COUNT with 16384. unfold assert_that.
  destruct (Z.leb_spec (data_blocks di - 28 - 128) 16384); [|lia].
  rewrite run_bind, (run_lift_Done tt), run_bind by done.
  replace (data_blocks di - 28 - 128) with (data_blocks di - 156) by lia.
  rewrite clear_second_run; [|dlia|dlia|dlia|lia].
  eexists. split; [rewrite run_ret; f_equal; rewrite <- !app_assoc; reflexivity|]. cbn. naive_solver.
Qed.

Lemma length_all_blocks : Z.of_nat (length (all_blocks di D)) = total_blocks_of (di_size di).
Proof.
  pose proof data_blocks_max as Hn. pose proof (fo_direct _ _ _ F) as Hd.
  unfold total_blocks_of. fold (data_blocks di). change INODE_DIRECT_COUNT with 28.
  rewrite INDIRECT1_BOUND_eq, INODE_INDIRECT1_COUNT_eq. unfold all_blocks.
  rewrite length_app, length_take, Hd. destruct (Z.leb_spec (data_blocks di) 28) as [H1|H1].
  { destruct (Z.ltb_spec 28 (data_blocks di)); [lia|]. destruct (Z.ltb_spec 156 (data_blocks di)); [lia|].
    rewrite wrap_small by lia. cbn. lia. }
  destruct (Z.ltb_spec 28 (data_blocks di)); [|lia]. cbn [length].
  rewrite length_app, length_take, (length_words L) by by apply (index1_usable L D di F).
  destruct (Z.leb_spec (data_blocks di) 156) as [H2|H2].
  { destruct (Z.ltb_spec 156 (data_blocks di)); [lia|]. rewrite wrap_small by lia. cbn. lia. }
  destruct (Z.ltb_spec 156 (data_blocks di)); [|lia]. cbn [length]. rewrite length_app.
  set (a1 := (data_blocks di - 156) / 128). set (b1 := (data_blocks di - 156) mod 128).
  assert (Ha : 0 ≤ a1 ∧ 0 ≤ b1 < 128 ∧ data_blocks di = 156 + a1 * 128 + b1) by (unfold a1, b1; dlia).
  assert (Hrows : length (take (Z.to_nat a1) (words D (indirect2 di)) ≫= λ r, r :: words D r) = (Z.to_nat a1 * 129)%nat).
  { assert (E : ∀ l : list Z, (∀ r, r ∈ l → length (words D r) = 128%nat) → length (l ≫= λ r, r :: words D r) = (length l * 129)%nat).
    { induction l as [|r l IH]; intros Hr; [done|]. cbn. rewrite length_app, IH by (intros; apply Hr; by right).
      rewrite Hr by by left. lia. }
    rewrite E.
    - rewrite length_take, (length_words L) by by apply (index2_usable L D di F). lia.
    - intros r (j & Hj)%list_elem_of_lookup. pose proof (lookup_lt_Some _ _ _ Hj) as Hlt. rewrite length_take in Hlt.
      rewrite lookup_take_lt in Hj by lia.
      destruct (row_usable L D di F S (Z.of_nat j)) as (r' & Hr' & Hu & _); [lia..|].
      rewrite Nat2Z.id in Hr'. assert (r' = r) as -> by congruence. by apply (length_words L). }
  rewrite Hrows. replace ((data_blocks di - 156 + 128 - 1) / 128) with (a1 + if 0 <? b1 then 1 else 0); last first.
  { clearbody a1 b1. clear Hrows. destruct (Z.ltb_spec 0 b1); dlia. }
  destruct (Z.ltb_spec 0 b1) as [Hb|Hb].
  - destruct (row_usable L D di F S a1) as (r & Hr & Hu & _); [lia..|]. rewrite Hr. cbn [default from_option length].
    rewrite length_take, (length_words L) by done. rewrite wrap_small by lia. lia.
  - cbn [length]. rewrite wrap_small by lia. lia.
Qed.

Lemma elem_take_lookup (l : list Z) n k x : l !! k = Some x → (k < n)%nat → x ∈ take n l.
Proof. intros H Hk. apply list_elem_of_lookup. exists k. by rewrite lookup_take_lt. Qed.

(** No block of the file is missing from the list. *)
Lemma all_blocks_complete k x : 0 ≤ k < data_blocks di →
  inode_block di D k = Some x ∨ x ∈ index_of di D k → x ∈ all_blocks di D.
Proof.
  intros Hk Hx. unfold inode_block, index_of in Hx. unfold all_blocks.
  destruct (Z.ltb_spec k 28) as [H1|H1].
  { destruct Hx as [Hx|Hx]; [|by apply not_elem_of_nil in Hx].
    apply elem_of_app. left. apply (elem_take_lookup _ _ _ _ Hx). lia. }
  apply elem_of_app. right. destruct (Z.leb_spec (data_blocks di) 28); [lia|].
  destruct (Z.ltb_spec k 156) as [H2|H2].
  { destruct Hx as [Hx|Hx]; [|apply list_elem_of_singleton in Hx as ->; by left].
    right. apply elem_of_app. left. rewrite idx_word_words in Hx. apply (elem_take_lookup _ _ _ _ Hx). lia. }
  right. apply elem_of_app. right. destruct (Z.leb_spec (data_blocks di) 156); [lia|].
  rewrite idx_word_words in Hx. set (j := (k - 156) / 128) in *.
  destruct (words D (indirect2 di) !! Z.to_nat j) as [r|] eqn:Hr; cbn in Hx; last first.
  { destruct Hx as [Hx|Hx%list_elem_of_singleton]; [done|subst; by left]. }
  assert (Hcase : x = indirect2 di ∨ x = r ∨ words D r !! Z.to_nat ((k - 156) mod 128) = Some x).
  { rewrite idx_word_words in Hx. destruct Hx as [Hx|Hx]; [tauto|]. set_solver. }
  destruct Hcase as [->|Hcase]; [by left|]. right. apply elem_of_app.
  destruct (decide (j < (data_blocks di - 156) / 128)) as [Hj|Hj].
  - left. apply list_elem_of_bind. exists r. split.
    + destruct Hcase as [->|Hw]; [by left|]. right. by eapply list_elem_of_lookup_2.
    + apply (elem_take_lookup _ _ _ _ Hr). unfold j in *. clear - Hj H2. assert (0 ≤ (k - 156) / 128) by dlia. lia.
  - right. assert (j = (data_blocks di - 156) / 128 ∧ (k - 156) mod 128 < (data_blocks di - 156) mod 128) as [Ej Hb]
      by (unfold j in *; clear - Hj Hk H2; dlia).
    rewrite <- Ej, Hr. destruct (Z.ltb_spec 0 ((data_blocks di - 156) mod 128)) as [|Hz]; [|clear - Hb Hz; dlia].
    cbn [default from_option]. destruct Hcase as [->|Hw]; [by left|]. right.
    apply (elem_take_lookup _ _ _ _ Hw). pose proof (Z.mod_pos_bound (k - 156) 128 eq_refl). lia.
Qed.
End clear_run.

(** [DiskInode::read_at] terminates and reads exactly the bytes of the file at [offset]: as
    many as the buffer holds and the file has, in order, across direct, indirect and doubly
    indirect blocks; the rest of the buffer and the disk are left as they were. *)
Theorem read_at_reads_file L D di offset buf :
  file_ok L D di → 0 ≤ offset → offset + zlen buf < 2 ^ 64 →
  ∃ buf', run (read_at di offset buf) L D = FDone (read_count di offset buf, buf') L D ∧
    length buf' = length buf ∧
    ∀ i : nat, buf' !! i = if decide (Z.of_nat i < read_count di offset buf)
                     then file_byte di D (offset + Z.of_nat i) else buf !! i.
Proof. apply read_at_spec. Qed.

(** C24. [DiskInode::write_at] on a range inside the file writes exactly that range: it returns the
    length, a later [read_at] of the range gives back the bytes written, every other byte of the
    file and every block that is not a data block of the file is unchanged, and the file's blocks
    are where they were. *)
Theorem write_at_then_read_at L D di offset data buf :
  file_ok L D di → file_sep D di → 0 ≤ offset → offset + zlen data ≤ di_size di → 0 < zlen data →
  bytes_ok data → length buf = length data →
  ∃ D', run (write_at di offset data) L D = FDone (zlen data) L D' ∧
    run (read_at di offset buf) L D' = FDone (zlen data, data) L D' ∧
    written L di D D' offset (offset + zlen data) (λ i, data !! Z.to_nat (i - offset)).
Proof.
  intros F S Ho Hfit Hlen Hok Hbuf.
  assert (Hsz : offset + zlen data < 2 ^ 64).
  { pose proof (fo_size _ _ _ F) as Hs. rewrite INDIRECT2_BOUND_eq in Hs. lia. }
  destruct (write_at_spec L D di offset data F S) as (D' & Hr & W); [lia|lia|done|done|].
  rewrite Z.min_l in Hr, W by done. exists D'. split; [rewrite Hr; f_equal; lia|]. split; [|done].
  destruct (read_at_spec L D' di offset buf) as (buf' & Hrr & Hl & Hb); [apply W|done|unfold zlen in *; lia|].
  assert (Hc : read_count di offset buf = zlen data) by (unfold read_count, zlen in *; lia).
  rewrite Hrr, Hc. do 2 f_equal. apply list_eq. intros i. rewrite Hb, Hc. case_decide as Hi.
  - rewrite (wr_bytes _ _ _ _ _ _ _ W) by lia. rewrite decide_True by lia. f_equal. lia.
  - rewrite !(proj2 (lookup_ge_None _ _)); [done|unfold zlen in *; lia..].
Qed.

(** [DiskInode::clear_size] returns every block of the file, data and index blocks alike, as
    many as [total_blocks] of its size counts, so that nothing leaks when they are freed; the
    inode is left empty and the disk as it was.  None of its guards deadlocks. *)
Theorem clear_size_returns_all L D di :
  file_ok L D di → file_sep D di → (size L + 1 < BLOCK_CACHE_SIZE)%nat →
  ∃ v di', run (clear_size di) L D = FDone (v, di') L D ∧
    Z.of_nat (length v) = total_blocks_of (di_size di) ∧ di_size di' = 0 ∧ type_ di' = type_ di ∧
    ∀ k x, 0 ≤ k < data_blocks di → inode_block di D k = Some x ∨ x ∈ index_of di D k → x ∈ v.
Proof.
  intros F S HL. destruct (clear_size_run L D di F S HL) as (di' & Hr & Hs & Ht & _).
  exists (all_blocks di D), di'. split; [done|]. split; [by apply (length_all_blocks L)|].
  do 2 (split; [done|]). intros k x. by apply (all_blocks_complete L).
Qed.

(** A two-block file in blocks 5 and 7. *)
Module FileWitness.
Definition di : DiskInode := mkDiskInode 600 ([5; 7] ++ replicate 26 0) 0 0 File.
Definition disk : gmap Z block := <[5 := replicate 512 1]> {[ 7 := replicate 512 2 ]}.

Lemma usable_5_7 id : id = 5 ∨ id = 7 → usable ∅ disk id.
Proof.
  intros H. exists (if id =? 5 then replicate 512 1 else replicate 512 2).
  split; [by destruct H as [-> | ->]; vm_compute|]. split.
  - destruct H as [-> | ->]; (split; [done|]); by apply Forall_replicate.
  - split; [set_solver|]. rewrite size_empty. unfold BLOCK_CACHE_SIZE. lia.
Qed.

Lemma two k : 0 ≤ k < data_blocks di → k = 0 ∨ k = 1.
Proof. change (data_blocks di) with 2. lia. Qed.

Lemma file_start : file_ok ∅ disk di.
Proof.
  split; [done|by rewrite INDIRECT2_BOUND_eq| |].
  - by intros k x [-> | ->]%two Hx%not_elem_of_nil.
  - intros k [-> | ->]%two; [exists 5|exists 7]; (split; [done|apply usable_5_7; tauto]).
Qed.

Lemma sep : file_sep disk di.
Proof.
  split.
  - intros j k id [-> | ->]%two [-> | ->]%two Hj Hk; [done|exfalso..|done]; vm_compute in Hj, Hk; congruence.
  - intros j k id _ [-> | ->]%two _; apply not_elem_of_nil.
  - intros k [-> | ->]%two; constructor.
Qed.
End FileWitness.

Lemma read_at_reads_file_witness :
  ∃ buf', run (read_at FileWitness.di 510 [9; 9; 9; 9]) ∅ FileWitness.disk = FDone (4, buf') ∅ FileWitness.disk ∧
    buf' !! 1%nat = Some 1 ∧ buf' !! 2%nat = Some 2.
Proof.
  destruct (read_at_reads_file ∅ FileWitness.disk FileWitness.di 510 [9; 9; 9; 9] FileWitness.file_start) as (buf' & Hr & _ & Hb);
    [lia|by vm_compute|].
  exists buf'. split; [exact Hr|]. rewrite !Hb. by vm_compute.
Defined.

Lemma write_at_then_read_at_witness :
  ∃ D', run (write_at FileWitness.di 511 [3; 4]) ∅ FileWitness.disk = FDone 2 ∅ D' ∧
    run (read_at FileWitness.di 511 [0; 0]) ∅ D' = FDone (2, [3; 4]) ∅ D'.
Proof.
  destruct (write_at_then_read_at ∅ FileWitness.disk FileWitness.di 511 [3; 4] [0; 0] FileWitness.file_start FileWitness.sep)
    as (D' & Hw & Hr & _); [lia|unfold zlen; cbn; lia|done|by apply (bool_decide_unpack _); vm_compute|done|].
  by exists D'.
Defined.

Lemma clear_size_returns_all_witness :
  ∃ v di', run (clear_size FileWitness.di) ∅ FileWitness.disk = FDone (v, di') ∅ FileWitness.disk ∧ length v = 2%nat.
Proof.
  destruct (clear_size_returns_all ∅ FileWitness.disk FileWitness.di FileWitness.file_start FileWitness.sep)
    as (v & di' & Hr & Hl & _).
  - rewrite size_empty. unfold BLOCK_CACHE_SIZE. lia.
  - exists v, di'. split; [exact Hr|]. change (total_blocks_of (di_size FileWitness.di)) with 2 in Hl. lia.
Defined.
