(* ===== verification/Efs.v ===== *)
(** * Efs.v: the file system over its blocks ([easy-fs/src/efs.rs])

    [EasyFileSystem] is the four numbers the Rust struct keeps beside its device handle; its
    operations are [prog]s over the blocks. *)

From S2P Require Import Prelude Bytes BlockProg Bitmap Layout.

Record EasyFileSystem : Type := mkEfs {
  inode_bitmap : Bitmap;
  data_bitmap : Bitmap;
  inode_area_start_block : Z;
  data_area_start_block : Z;
}.

(** [core::mem::size_of::<DiskInode>()] *)
Definition inode_size : Z := Z.of_nat (csize DiskInodeC).

Definition get_disk_inode_pos (efs : EasyFileSystem) (inode_id : Z) : Z * Z :=
  let inodes_per_block := u32 (Z.of_nat BLOCK_SZ / inode_size) in
  let block_id := u32 (inode_area_start_block efs + inode_id / inodes_per_block) in
  (block_id, inode_id mod inodes_per_block * inode_size).

Definition get_data_block_id (efs : EasyFileSystem) (data_block_id : Z) : Z :=
  u32 (data_area_start_block efs + data_block_id).

Definition alloc_inode (efs : EasyFileSystem) : prog Z :=
  o ← Bitmap_alloc (inode_bitmap efs);
  bit ← lift (unwrap PUnwrap o);
  mret (u32 bit).

Definition alloc_data (efs : EasyFileSystem) : prog Z :=
  o ← Bitmap_alloc (data_bitmap efs);
  bit ← lift (unwrap PUnwrap o);
  mret (u32 (u32 bit + data_area_start_block efs)).

(** [for byte in data_block.iter_mut() { *byte = 0 }] *)
Definition zero_block (data_block : list Z) : list Z := (λ _, 0) <$> data_block.

Definition dealloc_data (efs : EasyFileSystem) (block_id : Z) : prog unit :=
  cache_modify DataBlock block_id 0 (λ data_block, mret (tt, zero_block data_block));;
  Bitmap_dealloc (data_bitmap efs) (u32 (block_id - data_area_start_block efs)).

(** [for i in 0..total_blocks], from block [i] on with [n] left. *)
Fixpoint clear_blocks (n : nat) (i : Z) : prog unit :=
  match n with
  | O => mret tt
  | S n =>
      cache_modify DataBlock i 0 (λ data_block, mret (tt, zero_block data_block));;
      clear_blocks n (i + 1)
  end.

(** The sizes [create] computes from the number of blocks and of inode bitmap blocks. *)
Record Sizes : Type := mkSizes {
  sz_inode_area : Z;
  sz_inode_total : Z;
  sz_data_bitmap : Z;
  sz_data_area : Z;
}.

Definition area_sizes (total_blocks inode_bitmap_blocks : Z) : Sizes :=
  let inode_bitmap := Bitmap_new 1 inode_bitmap_blocks in
  let inode_num := Bitmap_maximum inode_bitmap in
  let inode_area_blocks :=
    u32 (u64 (u64 (u64 (inode_num * inode_size) + Z.of_nat BLOCK_SZ) - 1) / Z.of_nat BLOCK_SZ) in
  let inode_total_blocks := u32 (inode_bitmap_blocks + inode_area_blocks) in
  let data_total_blocks := u32 (u32 (total_blocks - 1) - inode_total_blocks) in
  let data_bitmap_blocks := u32 (data_total_blocks + 4096) / 4097 in
  let data_area_blocks := u32 (data_total_blocks - data_bitmap_blocks) in
  mkSizes inode_area_blocks inode_total_blocks data_bitmap_blocks data_area_blocks.

Definition create (total_blocks inode_bitmap_blocks : Z) : prog EasyFileSystem :=
  let sz := area_sizes total_blocks inode_bitmap_blocks in
  let inode_bitmap := Bitmap_new 1 inode_bitmap_blocks in
  let data_bitmap := Bitmap_new (u32 (u32 (1 + inode_bitmap_blocks) + sz_inode_area sz)) (sz_data_bitmap sz) in
  let efs := mkEfs inode_bitmap data_bitmap (u32 (1 + inode_bitmap_blocks))
               (u32 (u32 (1 + sz_inode_total sz) + sz_data_bitmap sz)) in
  clear_blocks (Z.to_nat total_blocks) 0;;
  cache_modify SuperBlockC 0 0 (λ super_block,
    mret (tt, SuperBlock_initialize total_blocks inode_bitmap_blocks (sz_inode_area sz)
                (sz_data_bitmap sz) (sz_data_area sz) super_block));;
  ino ← alloc_inode efs;
  lift (assert_that (ino =? 0) PAssert);;
  let '(root_inode_block_id, root_inode_offset) := get_disk_inode_pos efs 0 in
  cache_modify DiskInodeC root_inode_block_id (Z.to_nat root_inode_offset)
    (λ disk_inode, mret (tt, DiskInode_initialize Directory disk_inode));;
  sync_all;;
  mret efs.

Definition efs_of_super_block (sb : SuperBlock) : EasyFileSystem :=
  let inode_total_blocks := u32 (inode_bitmap_blocks sb + inode_area_blocks sb) in
  mkEfs (Bitmap_new 1 (inode_bitmap_blocks sb))
    (Bitmap_new (u32 (1 + inode_total_blocks)) (data_bitmap_blocks sb))
    (u32 (1 + inode_bitmap_blocks sb))
    (u32 (u32 (1 + inode_total_blocks) + data_bitmap_blocks sb)).

(** [EasyFileSystem::open], called [open_fs] here. *)
Definition open_fs : prog EasyFileSystem :=
  cache_read SuperBlockC 0 0 (λ super_block,
    lift (assert_that (SuperBlock_is_valid super_block) PAssert);;
    mret (efs_of_super_block super_block)).

(** *** The readers used for exploring an image *)

Definition read_super_block : prog SuperBlock :=
  cache_read SuperBlockC 0 0 (λ super_block,
    lift (assert_that (SuperBlock_is_valid super_block) PAssert);;
    mret (SuperBlock_new (magic super_block) (total_blocks super_block) (inode_bitmap_blocks super_block)
      (inode_area_blocks super_block) (data_bitmap_blocks super_block) (data_area_blocks super_block))).

Definition read_inode_bitmap (efs : EasyFileSystem) : prog (list Z) :=
  Bitmap_read_first_bitmap_block (inode_bitmap efs).

Definition read_data_bitmap (efs : EasyFileSystem) : prog (list Z) :=
  Bitmap_read_first_bitmap_block (data_bitmap efs).

Fixpoint read_inodes (efs : EasyFileSystem) (ids : list Z) : prog (list DiskInode) :=
  match ids with
  | [] => mret []
  | i :: ids =>
      let '(block_id, inode_offset) := get_disk_inode_pos efs i in
      di ← cache_read DiskInodeC block_id (Z.to_nat inode_offset) (λ disk_inode, mret disk_inode);
      v ← read_inodes efs ids;
      mret (if negb (di_size di =? 0) then di :: v else v)
  end.

Definition read_available_inode_areas (efs : EasyFileSystem) : prog (list DiskInode) :=
  read_inodes efs (seqZ 0 10).

Definition read_data_area (data_block_id : Z) : prog (list Z) :=
  cache_read DataBlock data_block_id 0 (λ data_block, mret data_block).

Definition read_indirect_block (indirect_block_id : Z) : prog (list Z) :=
  cache_read IndirectBlock indirect_block_id 0 (λ indirect_block, mret indirect_block).

(** ** Where inodes are *)

(** The inode area and the bitmap in front of it do not overflow the 32-bit block numbers. *)
Definition inode_area_ok (efs : EasyFileSystem) : Prop :=
  0 ≤ inode_area_start_block efs ∧
  inode_area_start_block efs + blocks (inode_bitmap efs) * 1024 < 2 ^ 32 ∧ 0 ≤ blocks (inode_bitmap efs).

Lemma get_disk_inode_pos_eq efs i : inode_area_ok efs → 0 ≤ i < Bitmap_maximum (inode_bitmap efs) →
  get_disk_inode_pos efs i = (inode_area_start_block efs + i / 4, i mod 4 * 128).
Proof.
  intros (H1 & H2 & H3) Hi. unfold Bitmap_maximum in Hi.
  assert (E : u64 (blocks (inode_bitmap efs) * BLOCK_BITS) = blocks (inode_bitmap efs) * 4096).
  { change BLOCK_BITS with 4096. apply wrap_small. lia. }
  rewrite E in Hi. unfold get_disk_inode_pos. change (u32 (Z.of_nat BLOCK_SZ / inode_size)) with 4.
  change inode_size with 128. f_equal. apply wrap_small. dlia.
Qed.

(** Every inode number of the bitmap has a slot of its own: it lies inside one block of the
    inode area, which has exactly [inode_area_blocks] blocks, and the slots of two inodes never
    overlap. *)
Theorem inode_slots_disjoint efs i j :
  inode_area_ok efs →
  0 ≤ i < Bitmap_maximum (inode_bitmap efs) → 0 ≤ j < Bitmap_maximum (inode_bitmap efs) →
  let '(b, o) := get_disk_inode_pos efs i in
  let '(b', o') := get_disk_inode_pos efs j in
  inode_area_start_block efs ≤ b < inode_area_start_block efs + blocks (inode_bitmap efs) * 1024 ∧
  0 ≤ o ∧ o + inode_size ≤ Z.of_nat BLOCK_SZ ∧
  (i ≠ j → b ≠ b' ∨ o + inode_size ≤ o' ∨ o' + inode_size ≤ o).
Proof.
  intros H Hi Hj. rewrite !get_disk_inode_pos_eq by done.
  destruct H as (H1 & H2 & H3). unfold Bitmap_maximum in Hi, Hj.
  assert (E : u64 (blocks (inode_bitmap efs) * BLOCK_BITS) = blocks (inode_bitmap efs) * 4096).
  { change BLOCK_BITS with 4096. apply wrap_small. lia. }
  rewrite E in Hi, Hj. change inode_size with 128. unfold BLOCK_SZ. change (Z.of_nat 512) with 512.
  repeat split; dlia.
Qed.

Lemma inode_slots_disjoint_witness :
  let efs := mkEfs (Bitmap_new 1 1) (Bitmap_new 1026 1) 2 1027 in
  get_disk_inode_pos efs 5 = (3, 128) ∧ get_disk_inode_pos efs 6 = (3, 256) ∧
  (3 ≠ 3 ∨ 128 + inode_size ≤ 256 ∨ 256 + inode_size ≤ 128).
Proof.
  do 2 (split; [by vm_compute|]).
  apply (inode_slots_disjoint (mkEfs (Bitmap_new 1 1) (Bitmap_new 1026 1) 2 1027) 5 6); by vm_compute.
Defined.

(** ** Formatting a disk *)

Definition zeros : block := replicate BLOCK_SZ 0.

Lemma zeros_wf : wf_block zeros.
Proof. split; [apply length_replicate|by apply Forall_replicate]. Qed.

Lemma zero_block_eq b : wf_block b → zero_block b = zeros.
Proof.
  intros [Hl _]. unfold zero_block, zeros. rewrite <- Hl. clear. induction b as [|x b IH]; [done|].
  change ((λ _ : Z, 0) <$> x :: b) with (0 :: ((λ _ : Z, 0) <$> b)). by rewrite IH.
Qed.

Lemma can_hold_empty id : can_hold ∅ id.
Proof. split; [set_solver|]. rewrite size_empty. unfold BLOCK_CACHE_SIZE. lia. Qed.

Lemma clear_blocks_spec n i L D :
  (∀ j, i ≤ j < i + Z.of_nat n → ∃ b, D !! j = Some b ∧ wf_block b ∧ can_hold L j) →
  ∃ D', run (clear_blocks n i) L D = FDone tt L D' ∧
    ∀ j, D' !! j = if decide (i ≤ j < i + Z.of_nat n) then Some zeros else D !! j.
Proof.
  revert i D. induction n as [|n IH]; intros i D HD; cbn [clear_blocks].
  - exists D. split; [done|]. intros j. by rewrite decide_False by lia.
  - destruct (HD i) as (b & Hb & Hwf & HL); [lia|]. rewrite run_bind.
    rewrite (run_modify_data i _ L D b tt zeros); [|done..|by rewrite zero_block_eq|apply zeros_wf].
    destruct (IH (i + 1) (<[i:=zeros]> D)) as (D' & Hr & HD').
    { intros j Hj. rewrite lookup_insert_ne by lia. apply HD. lia. }
    exists D'. split; [done|]. intros j. rewrite HD'. destruct (decide (j = i)) as [->|].
    + rewrite lookup_insert_eq. by case_decide; [lia|]; case_decide; [|lia].
    + rewrite lookup_insert_ne by done. repeat case_decide; lia || done.
Qed.

(** The parameters [create] is meant for: the inode area fits on the disk. *)
Record create_ok (total ibb : Z) : Prop := {
  co_ibb : 1 ≤ ibb;
  co_fits : 1 + ibb * 1025 ≤ total;
  co_total : total < 2 ^ 32 - 4097;
}.

Lemma area_sizes_eq total ibb : create_ok total ibb →
  let dt := total - 1 - ibb * 1025 in
  area_sizes total ibb = mkSizes (ibb * 1024) (ibb * 1025) ((dt + 4096) / 4097) (dt - (dt + 4096) / 4097).
Proof.
  intros [H1 H2 H3] dt. unfold area_sizes, Bitmap_maximum, Bitmap_new. cbn [blocks].
  change BLOCK_BITS with 4096. change inode_size with 128. unfold BLOCK_SZ. change (Z.of_nat 512) with 512.
  rewrite (wrap_small 64 (ibb * 4096)) by lia.
  rewrite (wrap_small 64 (ibb * 4096 * 128)) by lia.
  rewrite (wrap_small 64 (_ + 512)) by lia. rewrite (wrap_small 64 (_ - 1)) by lia.
  replace ((ibb * 4096 * 128 + 512 - 1) / 512) with (ibb * 1024) by dlia.
  rewrite (wrap_small 32 (ibb * 1024)) by lia.
  rewrite (wrap_small 32 (ibb + _)) by lia. rewrite (wrap_small 32 (total - 1)) by lia.
  replace (ibb + ibb * 1024) with (ibb * 1025) by lia.
  rewrite (wrap_small 32 (total - 1 - _)) by lia. fold dt.
  assert (Hdt : 0 ≤ dt < 2 ^ 32 - 4097) by lia. clearbody dt.
  rewrite (wrap_small 32 (dt + 4096)) by lia. rewrite wrap_small by dlia. done.
Qed.

Lemma view_super_zeros : view_block SuperBlockC 0 zeros = Done (mkSuperBlock 0 0 0 0 0 0).
Proof. by vm_compute. Qed.

Definition zero_inode : DiskInode := mkDiskInode 0 (replicate 28 0) 0 0 File.

Lemma view_inode_zeros : view_block DiskInodeC 0 zeros = Done zero_inode.
Proof. by vm_compute. Qed.

(** The file system [create] makes. *)
Definition created (total ibb : Z) : EasyFileSystem :=
  let dt := total - 1 - ibb * 1025 in
  mkEfs (Bitmap_new 1 ibb) (Bitmap_new (1 + ibb * 1025) ((dt + 4096) / 4097)) (1 + ibb)
    (1 + ibb * 1025 + (dt + 4096) / 4097).

Definition created_super_block (total ibb : Z) : SuperBlock :=
  let dt := total - 1 - ibb * 1025 in
  mkSuperBlock EFS_MAGIC total ibb (ibb * 1024) ((dt + 4096) / 4097) (dt - (dt + 4096) / 4097).

Lemma created_super_block_ok total ibb : create_ok total ibb →
  words_ok 4 (SuperBlock_words (created_super_block total ibb)) ∧
  efs_of_super_block (created_super_block total ibb) = created total ibb.
Proof.
  intros [H1 H2 H3]. unfold created_super_block, created, efs_of_super_block, SuperBlock_words. cbn.
  set (dt := total - 1 - ibb * 1025). assert (Hdt : 0 ≤ dt < 2 ^ 32 - 4097 - ibb * 1025) by lia. clearbody dt.
  split.
  - repeat (constructor; [change (8 * Z.of_nat 4) with 32; unfold EFS_MAGIC; dlia|]). constructor.
  - rewrite (wrap_small 32 (ibb + _)) by lia. replace (ibb + ibb * 1024) with (ibb * 1025) by lia.
    rewrite (wrap_small 32 (1 + ibb * 1025)) by lia. rewrite (wrap_small 32 (1 + ibb)) by lia.
    rewrite wrap_small by dlia. done.
Qed.

(** The contents of the formatted disk. *)
Definition formatted (total ibb : Z) (D D' : gmap Z block) : Prop :=
  D' !! 0 = Some (splice 0 (cenc SuperBlockC (created_super_block total ibb)) zeros) ∧
  D' !! (1 + ibb) = Some (splice 0 (cenc DiskInodeC (DiskInode_initialize Directory zero_inode)) zeros) ∧
  (∀ i, 0 ≤ i < ibb * BLOCK_BITS → bit_at (Bitmap_new 1 ibb) D' i = (0 =? i)) ∧
  (∀ id, 1 ≤ id ≤ ibb → ∃ b, D' !! id = Some b ∧ wf_block b) ∧
  ∀ id, id ≠ 0 → id ≠ 1 + ibb → ¬ (1 ≤ id ≤ ibb) → D' !! id = if decide (0 ≤ id < total) then Some zeros else D !! id.

Lemma bit_at_zeros bm D i : (∀ k, 0 ≤ k < blocks bm → D !! (start_block_id bm + k) = Some zeros) →
  0 ≤ i < blocks bm * BLOCK_BITS → bit_at bm D i = false.
Proof.
  intros HD Hi. unfold bit_at. rewrite HD by by apply bit_pos_range.
  assert (E : dec_arr 8 64 zeros = replicate 64 0) by by vm_compute. rewrite E. unfold word_bit.
  destruct (replicate 64 0 !! Z.to_nat (i mod BLOCK_BITS / 64)) as [x|] eqn:Hx; cbn [default from_option].
  - apply lookup_replicate in Hx as [-> _]. apply Z.bits_0.
  - apply Z.bits_0.
Qed.

Lemma zero_bitmap_ok total ibb D : create_ok total ibb →
  (∀ k, 0 ≤ k < ibb → D !! (1 + k) = Some zeros) → bitmap_ok (Bitmap_new 1 ibb) ∅ D.
Proof.
  intros [H1 H2 H3] HD. split; cbn; [lia|lia|lia|]. intros k Hk. exists zeros. split; [by apply HD|].
  split; [apply zeros_wf|apply can_hold_empty].
Qed.

(** The first inode of an empty bitmap is number 0. *)
Lemma alloc_first_inode total ibb efs D : create_ok total ibb → inode_bitmap efs = Bitmap_new 1 ibb →
  (∀ k, 0 ≤ k < ibb → D !! (1 + k) = Some zeros) →
  ∃ D', run (alloc_inode efs) ∅ D = FDone 0 ∅ D' ∧ allocated (Bitmap_new 1 ibb) ∅ D D' 0.
Proof.
  intros Hc Hbm HD. pose proof Hc as [H1 H2 H3].
  pose proof (zero_bitmap_ok total ibb D Hc HD) as Hok.
  assert (Hz : bit_at (Bitmap_new 1 ibb) D 0 = false).
  { apply bit_at_zeros; [done|]. change BLOCK_BITS with 4096. cbn. lia. }
  destruct (Bitmap_alloc_spec _ _ _ Hok) as (o & D' & Hr & Ho). unfold alloc_inode. rewrite Hbm.
  rewrite run_bind, Hr. destruct o as [p|].
  - destruct (decide (p = 0)) as [->|Hp]; [by exists D'|].
    pose proof (al_range _ _ _ _ _ Ho). rewrite (al_first _ _ _ _ _ Ho 0) in Hz by lia. done.
  - destruct Ho as [_ Hall]. rewrite Hall in Hz; [done|]. change BLOCK_BITS with 4096. cbn. lia.
Qed.

Lemma create_spec total ibb D : create_ok total ibb →
  (∀ id, 0 ≤ id < total → ∃ b, D !! id = Some b ∧ wf_block b) →
  ∃ D', run (create total ibb) ∅ D = FDone (created total ibb) ∅ D' ∧ formatted total ibb D D'.
Proof.
  intros Hc HD. pose proof Hc as [H1 H2 H3]. unfold create. rewrite (area_sizes_eq _ _ Hc).
  cbn [sz_inode_area sz_inode_total sz_data_bitmap sz_data_area].
  pose proof (created_super_block_ok total ibb Hc) as [Hsb Hefs].
  set (dt := total - 1 - ibb * 1025) in *.
  assert (E : mkEfs (Bitmap_new 1 ibb) (Bitmap_new (u32 (u32 (1 + ibb) + ibb * 1024)) ((dt + 4096) / 4097))
    (u32 (1 + ibb)) (u32 (u32 (1 + ibb * 1025) + (dt + 4096) / 4097)) = created total ibb).
  { unfold created. fold dt. assert (0 ≤ dt < 2 ^ 32 - 4097 - ibb * 1025) by (unfold dt; lia). clearbody dt.
    rewrite (wrap_small 32 (1 + ibb)) by lia. rewrite (wrap_small 32 (1 + ibb * 1025)) by lia.
    rewrite !wrap_small by dlia. do 2 f_equal. lia. }
  rewrite E. clear E.
  destruct (clear_blocks_spec (Z.to_nat total) 0 ∅ D) as (D1 & Hr1 & HD1).
  { intros j Hj. destruct (HD j) as (b & Hb & Hwf); [lia|]. exists b. split; [done|]. split; [done|]. apply can_hold_empty. }
  assert (HD1z : ∀ id, 0 ≤ id < total → D1 !! id = Some zeros) by (intros id Hid; rewrite HD1; apply decide_True; lia).
  rewrite run_bind, Hr1, run_bind.
  rewrite (run_modify_view SuperBlockC _ SuperBlockC_ok 0 0 _ ∅ D1 zeros (mkSuperBlock 0 0 0 0 0 0) tt
    (created_super_block total ibb)); [|apply can_hold_empty|apply HD1z; lia|apply zeros_wf|apply view_super_zeros
    |done|unfold BLOCK_SZ; cbn; lia|done].
  set (D2 := <[0:=_]> D1).
  assert (HD2 : ∀ id, id ≠ 0 → D2 !! id = D1 !! id) by (intros; unfold D2; by rewrite lookup_insert_ne).
  destruct (alloc_first_inode total ibb (created total ibb) D2 Hc eq_refl) as (D3 & Hr3 & A).
  { intros k Hk. rewrite HD2 by lia. apply HD1z. lia. }
  rewrite run_bind, Hr3. cbn [Z.eqb assert_that lift]. rewrite run_bind, run_ret.
  assert (Hpos : get_disk_inode_pos (created total ibb) 0 = (1 + ibb, 0)).
  { rewrite get_disk_inode_pos_eq; [unfold created; cbn [inode_area_start_block]; change (0 / 4) with 0; change (0 mod 4 * 128) with 0; f_equal; lia| |].
    - unfold inode_area_ok, created. cbn. lia.
    - unfold Bitmap_maximum, created, Bitmap_new. cbn [inode_bitmap blocks]. change BLOCK_BITS with 4096.
      rewrite wrap_small by lia. lia. }
  rewrite Hpos, run_bind.
  assert (HD3 : ∀ id, ¬ (1 ≤ id ≤ ibb) → D3 !! id = D2 !! id).
  { intros id Hid. apply (al_outside _ _ _ _ _ A). unfold outside, Bitmap_new. cbn. lia. }
  rewrite (run_modify_view DiskInodeC _ DiskInodeC_ok (1 + ibb) 0 _ ∅ D3 zeros zero_inode tt
    (DiskInode_initialize Directory zero_inode)); [|apply can_hold_empty
    |rewrite HD3, HD2 by lia; apply HD1z; lia|apply zeros_wf|apply view_inode_zeros| |unfold BLOCK_SZ; cbn; lia|done].
  2:{ split; [done|]. by apply (bool_decide_unpack _); vm_compute. }
  cbn [run mbind prog_bind sync_all]. rewrite decide_True by done. eexists. split; [done|].
  unfold formatted. repeat split.
  - rewrite lookup_insert_ne, HD3 by lia. unfold D2. by rewrite lookup_insert_eq.
  - by rewrite lookup_insert_eq.
  - intros i Hi. transitivity (bit_at (Bitmap_new 1 ibb) D3 i).
    + unfold bit_at. rewrite lookup_insert_ne; [done|]. cbn [start_block_id Bitmap_new].
      pose proof (bit_pos_range (Bitmap_new 1 ibb) i Hi) as Hp. cbn [blocks Bitmap_new] in Hp. lia.
    + rewrite (al_bits _ _ _ _ _ A) by done. rewrite bit_at_zeros; [by rewrite orb_false_r| |done].
      intros k Hk. cbn [start_block_id blocks Bitmap_new] in *. rewrite HD2 by lia. apply HD1z. lia.
  - intros id Hid. destruct (bm_there _ _ _ (al_ok _ _ _ _ _ A) (id - 1)) as (b & Hb & Hwf & _); [cbn; lia|].
    cbn [start_block_id Bitmap_new] in Hb. replace (1 + (id - 1)) with id in Hb by lia. exists b. by rewrite lookup_insert_ne by lia.
  - intros id Hn0 Hn1 Hb. rewrite lookup_insert_ne, HD3, HD2, HD1 by lia. by rewrite Z.add_0_l, Z2Nat.id by lia.
Qed.

(** C28. [EasyFileSystem::create] formats any disk its areas fit on: opening it again gives the same
    file system, with the super block, the inode bitmap, the inode area, the data bitmap and the
    data area one behind the other filling exactly [total_blocks] blocks, enough bitmap bits for
    the data area, inode 0 allocated as an empty root directory, and every other block zero. *)
Theorem create_then_open total ibb D : create_ok total ibb →
  (∀ id, 0 ≤ id < total → ∃ b, D !! id = Some b ∧ wf_block b) →
  ∃ efs D', run (create total ibb) ∅ D = FDone efs ∅ D' ∧
    run open_fs ∅ D' = FDone efs ∅ D' ∧ formatted total ibb D D' ∧
    start_block_id (inode_bitmap efs) = 1 ∧
    inode_area_start_block efs = 1 + blocks (inode_bitmap efs) ∧
    start_block_id (data_bitmap efs) = inode_area_start_block efs + 1024 * blocks (inode_bitmap efs) ∧
    data_area_start_block efs = start_block_id (data_bitmap efs) + blocks (data_bitmap efs) ∧
    data_area_start_block efs ≤ total ∧
    total - data_area_start_block efs ≤ Bitmap_maximum (data_bitmap efs).
Proof.
  intros Hc HD. destruct (create_spec total ibb D Hc HD) as (D' & Hr & Hf). exists (created total ibb), D'.
  split; [done|]. pose proof (created_super_block_ok total ibb Hc) as [Hsb Hefs]. destruct Hc as [H1 H2 H3].
  split.
  { apply (run_cache_read SuperBlockC 0 0 _ ∅ D' D' (splice 0 (cenc SuperBlockC (created_super_block total ibb)) zeros)
      (created_super_block total ibb)); [apply can_hold_empty|apply Hf| |].
    - apply (view_block_write SuperBlockC _ SuperBlockC_ok); [done|unfold BLOCK_SZ; cbn; lia|done].
    - cbn. by rewrite Hefs. }
  split; [done|]. unfold created, Bitmap_maximum, Bitmap_new. cbn [inode_bitmap data_bitmap start_block_id blocks
    inode_area_start_block data_area_start_block]. change BLOCK_BITS with 4096.
  set (dt := total - 1 - ibb * 1025). assert (Hdt : 0 ≤ dt < 2 ^ 32 - 4097 - ibb * 1025) by (unfold dt; lia).
  assert (Et : total = dt + 1 + ibb * 1025) by (unfold dt; lia). clearbody dt. subst total.
  rewrite wrap_small by dlia. repeat split; try lia; dlia.
Qed.

(** A disk of 2000 blocks of zeros. *)
Definition blank_disk : gmap Z block := gset_to_gmap zeros (list_to_set (seqZ 0 2000)).

Lemma blank_disk_blocks id : 0 ≤ id < 2000 → ∃ b, blank_disk !! id = Some b ∧ wf_block b.
Proof.
  intros Hid. exists zeros. split; [|apply zeros_wf]. apply lookup_gset_to_gmap_Some. split; [|reflexivity].
  apply elem_of_list_to_set. by apply elem_of_seqZ.
Qed.

Lemma create_then_open_witness :
  create_ok 2000 1 ∧
  ∃ efs D', run (create 2000 1) ∅ blank_disk = FDone efs ∅ D' ∧ run open_fs ∅ D' = FDone efs ∅ D'.
Proof.
  assert (Hr : create_ok 2000 1) by (split; lia). split; [exact Hr|].
  destruct (create_then_open 2000 1 blank_disk Hr blank_disk_blocks) as (efs & D' & Hc & Ho & _).
  exists efs, D'. split; [exact Hc|exact Ho].
Defined.
