(* ===== verification/Vfs.v ===== *)
(** * Vfs.v: inodes as the kernel sees them ([easy-fs/src/vfs.rs])

    An [Inode] is the position of a disk inode; its operations hold the guard of the block of that
    disk inode while they walk the file's blocks.  [fs.lock()] is taken first by every operation
    and released last, so the operations of one file system run one after another: [prog] models
    one operation. *)

From S2P Require Import Prelude Bytes BlockProg Bitmap Layout DiskInode Efs.

Record Inode : Type := mkInode {
  in_block_id : Z;
  in_block_offset : Z;
}.

Definition Inode_new (block_id block_offset : Z) : Inode := mkInode block_id block_offset.

Definition root_inode (efs : EasyFileSystem) : Inode :=
  let '(block_id, block_offset) := get_disk_inode_pos efs 0 in
  Inode_new block_id block_offset.

Definition read_disk_inode {A} (ino : Inode) (f : DiskInode → prog A) : prog A :=
  cache_read DiskInodeC (in_block_id ino) (Z.to_nat (in_block_offset ino)) f.

Definition modify_disk_inode {A} (ino : Inode) (f : DiskInode → prog (A * DiskInode)) : prog A :=
  cache_modify DiskInodeC (in_block_id ino) (Z.to_nat (in_block_offset ino)) f.

(** [disk_inode.read_at(DIRENT_SZ * i, dirent.as_bytes_mut())] with its [assert_eq!]. *)
Definition read_dirent (disk_inode : DiskInode) (i : Z) (dirent : DirEntry) : prog DirEntry :=
  '(n, bs) ← read_at disk_inode (DIRENT_SZ * i) (DirEntry_as_bytes dirent);
  lift (assert_that (n =? DIRENT_SZ) PAssert);;
  mret (DirEntry_of_bytes bs).

Definition file_count (disk_inode : DiskInode) : Z := di_size disk_inode / DIRENT_SZ.

(** The entries [i], ..., [i + n - 1]. *)
Fixpoint find_from (name : list Z) (disk_inode : DiskInode) (n : nat) (i : Z) (dirent : DirEntry) : prog (option Z) :=
  match n with
  | O => mret None
  | S n =>
      dirent ← read_dirent disk_inode i dirent;
      s ← lift (DirEntry_name dirent);
      if bool_decide (s = name) then mret (Some (DirEntry_inode_number dirent))
      else find_from name disk_inode n (i + 1) dirent
  end.

Definition find_inode_id (name : list Z) (disk_inode : DiskInode) : prog (option Z) :=
  lift (assert_that (is_dir disk_inode) PAssert);;
  find_from name disk_inode (Z.to_nat (file_count disk_inode)) 0 DirEntry_empty.

(** [path.split('/').filter(|s| !s.is_empty())]; 47 is the slash. *)
Fixpoint split_path (path cur : list Z) : list (list Z) :=
  match path with
  | [] => [cur]
  | c :: path => if c =? 47 then cur :: split_path path [] else split_path path (cur ++ [c])
  end.

Definition path_names (path : list Z) : list (list Z) :=
  filter (λ s, s ≠ []) (split_path path []).

Fixpoint find_names (efs : EasyFileSystem) (names : list (list Z)) (ino : Inode) : prog (option Inode) :=
  match names with
  | [] => mret (Some ino)
  | name :: names =>
      inode_id ← read_disk_inode ino (λ disk_inode,
        if is_file disk_inode then mret None else find_inode_id name disk_inode);
      match inode_id with
      | None => mret None
      | Some inode_id =>
          let '(block_id, block_offset) := get_disk_inode_pos efs inode_id in
          find_names efs names (Inode_new block_id block_offset)
      end
  end.

Definition find (efs : EasyFileSystem) (ino : Inode) (path : list Z) : prog (option Inode) :=
  find_names efs (path_names path) ino.

(** [for _ in 0..blocks_needed { v.push(fs.alloc_data()) }] *)
Fixpoint alloc_many (efs : EasyFileSystem) (n : nat) : prog (list Z) :=
  match n with
  | O => mret []
  | S n => b ← alloc_data efs; v ← alloc_many efs n; mret (b :: v)
  end.

Definition Inode_increase_size (efs : EasyFileSystem) (new_size : Z) (disk_inode : DiskInode) : prog DiskInode :=
  if new_size <? di_size disk_inode then mret disk_inode
  else
    blocks_needed ← lift (blocks_num_needed disk_inode new_size);
    v ← alloc_many efs (Z.to_nat blocks_needed);
    increase_size disk_inode new_size v.

Definition create_inode (efs : EasyFileSystem) (ino : Inode) (name : list Z) (inode_type : DiskInodeType)
    : prog (option Inode) :=
  existing ← read_disk_inode ino (λ root_inode,
    lift (assert_that (is_dir root_inode) PAssert);;
    find_inode_id name root_inode);
  match existing with
  | Some _ => mret None
  | None =>
      new_inode_id ← alloc_inode efs;
      let '(new_block_id, new_block_offset) := get_disk_inode_pos efs new_inode_id in
      cache_modify DiskInodeC new_block_id (Z.to_nat new_block_offset)
        (λ new_inode, mret (tt, DiskInode_initialize inode_type new_inode));;
      modify_disk_inode ino (λ root_inode,
        let file_count := file_count root_inode in
        let new_size := (file_count + 1) * DIRENT_SZ in
        root_inode ← Inode_increase_size efs (u32 new_size) root_inode;
        dirent ← lift (DirEntry_new name new_inode_id);
        write_at root_inode (file_count * DIRENT_SZ) (DirEntry_as_bytes dirent);;
        mret (tt, root_inode));;
      sync_all;;
      mret (Some (Inode_new new_block_id new_block_offset))
  end.

Definition Inode_create (efs : EasyFileSystem) (ino : Inode) (name : list Z) : prog (option Inode) :=
  create_inode efs ino name File.

Definition Inode_create_dir (efs : EasyFileSystem) (ino : Inode) (name : list Z) : prog (option Inode) :=
  create_inode efs ino name Directory.

Fixpoint ls_from (disk_inode : DiskInode) (n : nat) (i : Z) : prog (list (list Z)) :=
  match n with
  | O => mret []
  | S n =>
      dirent ← read_dirent disk_inode i DirEntry_empty;
      s ← lift (DirEntry_name dirent);
      v ← ls_from disk_inode n (i + 1);
      mret (s :: v)
  end.

Definition ls (ino : Inode) : prog (list (list Z)) :=
  read_disk_inode ino (λ disk_inode,
    if is_file disk_inode then mret []
    else ls_from disk_inode (Z.to_nat (file_count disk_inode)) 0).

Definition Inode_read_at (ino : Inode) (offset : Z) (buf : list Z) : prog (Z * list Z) :=
  read_disk_inode ino (λ disk_inode, read_at disk_inode offset buf).

Definition Inode_write_at (efs : EasyFileSystem) (ino : Inode) (offset : Z) (buf : list Z) : prog Z :=
  size ← modify_disk_inode ino (λ disk_inode,
    lift (assert_that (is_file disk_inode) PAssert);;
    disk_inode ← Inode_increase_size efs (u32 (offset + zlen buf)) disk_inode;
    n ← write_at disk_inode offset buf;
    mret (n, disk_inode));
  sync_all;;
  mret size.

(** [for data_block in data_blocks_dealloc { fs.dealloc_data(data_block) }] *)
Fixpoint dealloc_all (efs : EasyFileSystem) (v : list Z) : prog unit :=
  match v with
  | [] => mret tt
  | b :: v => dealloc_data efs b;; dealloc_all efs v
  end.

Definition clear (efs : EasyFileSystem) (ino : Inode) : prog unit :=
  modify_disk_inode ino (λ disk_inode,
    lift (assert_that (is_file disk_inode) PAssert);;
    let size := di_size disk_inode in
    '(data_blocks_dealloc, disk_inode) ← clear_size disk_inode;
    lift (assert_that (zlen data_blocks_dealloc =? total_blocks_of size) PAssert);;
    dealloc_all efs data_blocks_dealloc;;
    mret (tt, disk_inode));;
  sync_all.

Definition get_inode_size (ino : Inode) : prog Z :=
  modify_disk_inode ino (λ disk_inode, mret (di_size disk_inode, disk_inode)).

(** ** Directories as lists of entries *)

(** The 32 bytes of entry [i]. *)
Definition entry (di : DiskInode) (D : gmap Z block) (i : Z) : DirEntry :=
  DirEntry_of_bytes ((λ j, default 0 (file_byte di D j)) <$> seqZ (DIRENT_SZ * i) DIRENT_SZ).

Definition named_entry (di : DiskInode) (D : gmap Z block) (i : Z) : outcome (list Z * Z) :=
  s ← DirEntry_name (entry di D i);
  mret (s, de_inode_number (entry di D i)).

(** The directory from entry [i] on, [n] entries: the first one that cannot be decoded panics. *)
Fixpoint entries_from (di : DiskInode) (D : gmap Z block) (n : nat) (i : Z) : outcome (list (list Z * Z)) :=
  match n with
  | O => mret []
  | S n => e ← named_entry di D i; es ← entries_from di D n (i + 1); mret (e :: es)
  end.

Definition dir_entries (di : DiskInode) (D : gmap Z block) : outcome (list (list Z * Z)) :=
  entries_from di D (Z.to_nat (file_count di)) 0.

(** The inode number of the first entry called [name]. *)
Fixpoint assoc (name : list Z) (es : list (list Z * Z)) : option Z :=
  match es with
  | [] => None
  | (s, n) :: es => if bool_decide (s = name) then Some n else assoc name es
  end.

Section directory.
Context (L : gset Z) (D : gmap Z block) (di : DiskInode) (F : file_ok L D di).

Lemma file_byte_Some i : 0 ≤ i < di_size di → ∃ x, file_byte di D i = Some x ∧ byte_ok x.
Proof.
  intros Hi. destruct (file_pos L D di i F Hi) as (_ & _ & id & b & Hid & Hb & [Hl Hok] & _).
  unfold file_byte. rewrite Hid. cbn. rewrite Hb. cbn.
  destruct (lookup_lt_is_Some_2 b (Z.to_nat (i mod 512))) as [x Hx].
  { rewrite Hl. unfold BLOCK_SZ. pose proof (Z.mod_pos_bound i 512 eq_refl). lia. }
  exists x. split; [done|]. by apply (Forall_lookup_1 _ _ _ _ Hok Hx).
Qed.

Lemma length_DirEntry_bytes de : length (dename de) = 28%nat → zlen (DirEntry_as_bytes de) = 32.
Proof. intros E. unfold zlen, DirEntry_as_bytes. by rewrite length_app, length_le_bytes, E. Qed.

Lemma entry_length i : length (dename (entry di D i)) = 28%nat.
Proof. done. Qed.

Lemma read_dirent_spec i de : 0 ≤ i < file_count di → length (dename de) = 28%nat →
  run (read_dirent di i de) L D = FDone (entry di D i) L D.
Proof.
  intros Hi Hde. pose proof (fo_size _ _ _ F) as Hs. rewrite INDIRECT2_BOUND_eq in Hs.
  unfold file_count in Hi. change DIRENT_SZ with 32 in *.
  assert (Hin : 32 * i + 32 ≤ di_size di) by dlia.
  pose proof (length_DirEntry_bytes de Hde) as Hlen.
  destruct (read_at_spec L D di (32 * i) (DirEntry_as_bytes de) F) as (bs & Hr & Hl & Hb); [lia|lia|].
  assert (Hc : read_count di (32 * i) (DirEntry_as_bytes de) = 32) by (unfold read_count; lia).
  unfold read_dirent. change DIRENT_SZ with 32. rewrite run_bind, Hr, Hc.
  cbn [Z.eqb Pos.eqb assert_that lift mbind prog_bind]. rewrite run_ret. f_equal. unfold entry. f_equal.
  change DIRENT_SZ with 32. apply (list_eq_same_length _ _ 32).
  - by rewrite length_fmap, length_seqZ.
  - rewrite Hl. unfold zlen in Hlen. lia.
  - intros k x y Hk Hx Hy. rewrite Hb, Hc, decide_True in Hx by lia.
    rewrite list_lookup_fmap, lookup_seqZ_lt in Hy by lia. cbn in Hy. rewrite Hx in Hy. cbn in Hy. congruence.
Qed.

Lemma ls_from_spec n i : 0 ≤ i → i + Z.of_nat n ≤ file_count di →
  run (ls_from di n i) L D =
    match entries_from di D n i with Done es => FDone es.*1 L D | Panicked p => FFail (FPanic p) end.
Proof.
  revert i. induction n as [|n IH]; intros i Hi Hn; [done|]. cbn [ls_from entries_from].
  rewrite run_bind, read_dirent_spec by (done || lia). unfold named_entry.
  destruct (DirEntry_name (entry di D i)) as [s|p]; [|done].
  rewrite run_bind, (run_lift_Done s), run_bind, IH by (done || lia).
  cbn [mbind outcome_bind mret outcome_ret]. by destruct (entries_from di D n (i + 1)).
Qed.

Lemma find_from_spec name n i de es : 0 ≤ i → i + Z.of_nat n ≤ file_count di → length (dename de) = 28%nat →
  entries_from di D n i = Done es →
  run (find_from name di n i de) L D = FDone (assoc name es) L D.
Proof.
  revert i de es. induction n as [|n IH]; intros i de es Hi Hn Hde He; cbn [entries_from find_from] in *.
  - by injection He as <-.
  - rewrite run_bind, read_dirent_spec by (done || lia).
    apply outcome_bind_inv in He as ([s k] & Hs & He). apply outcome_bind_inv in He as (es' & He' & He).
    injection He as <-. unfold named_entry in Hs. apply outcome_bind_inv in Hs as (s' & Hs & E). injection E as -> <-.
    rewrite run_bind, (run_lift_Done s) by done. cbn [assoc]. case_bool_decide; [done|].
    apply IH; [lia|lia|done|done].
Qed.
Lemma directory_run name : is_dir di = true →
  run (ls_from di (Z.to_nat (file_count di)) 0) L D =
    match dir_entries di D with Done es => FDone es.*1 L D | Panicked p => FFail (FPanic p) end ∧
  ∀ es, dir_entries di D = Done es →
    run (find_inode_id name di) L D = FDone (assoc name es) L D.
Proof.
  intros Hdir. pose proof (fo_size _ _ _ F) as Hs. rewrite INDIRECT2_BOUND_eq in Hs.
  assert (Hc : 0 ≤ file_count di) by (unfold file_count; change DIRENT_SZ with 32; dlia).
  split; [apply ls_from_spec; [lia|lia]|].
  intros es He. unfold find_inode_id. rewrite Hdir. cbn [assert_that lift mbind prog_bind].
  apply find_from_spec; [lia|lia|done|exact He].
Qed.
End directory.

(** A directory is the list of its entries: [find_inode_id] returns the inode of the first
    entry with the name, [None] if there is none, and [ls] reads the entries in the same order,
    panicking exactly when one of them does not decode; neither changes the disk. *)
Theorem directory_lookup L D di name :
  file_ok L D di → is_dir di = true →
  run (ls_from di (Z.to_nat (file_count di)) 0) L D =
    match dir_entries di D with Done es => FDone es.*1 L D | Panicked p => FFail (FPanic p) end ∧
  ∀ es, dir_entries di D = Done es →
    run (find_inode_id name di) L D = FDone (assoc name es) L D.
Proof.
  intros F Hdir. by apply directory_run.
Qed.

(** A directory entry made of a name of at most 27 bytes is written, read back and decoded to
    the same name and inode number; a name of more than 28 bytes panics in [DirEntry::new].  The
    length between is accepted: 28 bytes leave no terminating zero and every later [name()] of the
    entry panics, so that the directory can be neither searched nor listed past it. *)
Theorem dirent_roundtrip name n :
  bytes_ok name → Forall (λ b, b ≠ 0) name → utf8_valid name = true → 0 ≤ n < 2 ^ 32 →
  (zlen name ≤ NAME_LENGTH_LIMIT → ∃ de, DirEntry_new name n = Done de ∧
     DirEntry_of_bytes (DirEntry_as_bytes de) = de ∧
     DirEntry_name de = Done name ∧ DirEntry_inode_number de = n) ∧
  (zlen name = 28 → ∃ de, DirEntry_new name n = Done de ∧ DirEntry_name de = Panicked PIndex) ∧
  (28 < zlen name → DirEntry_new name n = Panicked PIndex).
Proof.
  intros Hb Hz Hu Hn. unfold NAME_LENGTH_LIMIT, zlen. split; [|split].
  - intros Hl. assert (Hs : short_name name) by (split; [done|split; [lia|done]]).
    rewrite DirEntry_new_spec by lia. eexists. split; [done|].
    split; [apply DirEntry_bytes_roundtrip; [|done]; cbn; rewrite length_app, length_replicate; lia|].
    split; [|done]. by apply (DirEntry_name_new name n); [done|rewrite DirEntry_new_spec by lia].
  - intros Hl. rewrite DirEntry_new_spec by lia. eexists. split; [done|]. unfold DirEntry_name. cbn [dename].
    replace (28 - length name)%nat with 0%nat by lia. cbn [replicate]. rewrite app_nil_r.
    destruct (find_index _ name) as [i|] eqn:E; [|done].
    apply find_index_Some in E as [(x & Hx & E) _]. apply Z.eqb_eq in E.
    by apply (Forall_lookup_1 _ _ _ _ Hz) in Hx.
  - intros Hl. unfold DirEntry_new, assert_that, zlen, NAME_LENGTH_LIMIT.
    by destruct (Z.leb_spec (Z.of_nat (length name)) (27 + 1)); [lia|].
Qed.

Lemma dirent_roundtrip_witness :
  ∃ de, DirEntry_new [97; 46; 116] 3 = Done de ∧ DirEntry_name de = Done [97; 46; 116].
Proof.
  destruct (dirent_roundtrip [97; 46; 116] 3) as (H & _ & _);
    [by apply (bool_decide_unpack _); vm_compute|by apply (bool_decide_unpack _); vm_compute|done|lia|].
  destruct H as (de & H1 & _ & H2 & _); [unfold zlen, NAME_LENGTH_LIMIT; cbn; lia|]. by exists de.
Defined.

(** A root directory with the entries "a" and "b" in block 5. *)
Module DirWitness.
Definition dirblock : block :=
  splice 0 (DirEntry_as_bytes (mkDirEntry (97 :: replicate 27 0) 1) ++
            DirEntry_as_bytes (mkDirEntry (98 :: replicate 27 0) 2)) (replicate 512 0).
Definition di : DiskInode := mkDiskInode 64 (5 :: replicate 27 0) 0 0 Directory.
Definition disk : gmap Z block := {[ 5 := dirblock ]}.

Lemma one k : 0 ≤ k < data_blocks di → k = 0.
Proof. change (data_blocks di) with 1. lia. Qed.

Lemma dir_start : file_ok ∅ disk di.
Proof.
  split; [done|by rewrite INDIRECT2_BOUND_eq| |].
  - by intros k x ->%one Hx%not_elem_of_nil.
  - intros k ->%one. exists 5. split; [done|]. exists dirblock. split; [done|]. split; [|apply can_hold_empty].
    split; [by vm_compute|by apply (bool_decide_unpack _); vm_compute].
Qed.
End DirWitness.

Lemma directory_lookup_witness :
  run (find_inode_id [98] DirWitness.di) ∅ DirWitness.disk = FDone (Some 2) ∅ DirWitness.disk.
Proof.
  destruct (directory_lookup ∅ DirWitness.disk DirWitness.di [98] DirWitness.dir_start eq_refl) as [_ H].
  rewrite (H [([97], 1); ([98], 2)]); by vm_compute.
Defined.
