(* ===== verification/FileGrow.v ===== *)
(** * FileGrow.v: the blocks of a file, and [increase_size] ([easy-fs/src/layout.rs])

    A file of [n] data blocks owns a list of blocks, index blocks included, in the order in which a
    growing file takes them: [owned].  [grow] is the reference for growth, one data block at a
    time; [increase_size], which fills the direct blocks and the two indices in three loops, each
    under the guard of the block it fills, does the same. *)

From S2P Require Import Prelude Bytes BlockProg Layout DiskInode.

(** ** The tree of blocks *)

(** A block that can be a file's: its number is a word, it is on the disk. *)
Definition good (D : gmap Z block) (x : Z) : Prop := 0 ≤ x < 2 ^ 32 ∧ ∃ b, D !! x = Some b ∧ wf_block b.

Definition word (D : gmap Z block) (id k : Z) : Z := default 0 (words D id !! Z.to_nat k).

Definition set_word (id k x : Z) (D : gmap Z block) : gmap Z block :=
  <[id := enc_arr 4 (<[Z.to_nat k := x]> (words D id))]> D.

(** Data block [k], the index block of the second level above it, and the index blocks that come
    with it when the file grows to hold it. *)
Definition row_of (di : DiskInode) (D : gmap Z block) (k : Z) : Z := word D (indirect2 di) ((k - 156) / 128).

Definition data_of (di : DiskInode) (D : gmap Z block) (k : Z) : Z :=
  if k <? 28 then default 0 (direct di !! Z.to_nat k)
  else if k <? 156 then word D (indirect1 di) (k - 28)
  else word D (row_of di D k) ((k - 156) mod 128).

Definition idx_of (di : DiskInode) (D : gmap Z block) (k : Z) : list Z :=
  (if k =? 28 then [indirect1 di] else []) ++
  (if k =? 156 then [indirect2 di] else []) ++
  (if (156 <=? k) && ((k - 156) mod 128 =? 0) then [row_of di D k] else []).

Definition new_of (di : DiskInode) (D : gmap Z block) (k : Z) : list Z := idx_of di D k ++ [data_of di D k].

Definition owned (n : Z) (di : DiskInode) (D : gmap Z block) : list Z := seqZ 0 n ≫= new_of di D.
Definition indexes (n : Z) (di : DiskInode) (D : gmap Z block) : list Z := seqZ 0 n ≫= idx_of di D.

Record tree_ok (n : Z) (di : DiskInode) (D : gmap Z block) : Prop := {
  to_direct : length (direct di) = 28%nat;
  to_max : 0 ≤ n ≤ 16540;
  to_nodup : NoDup (owned n di D);
  to_good : Forall (good D) (owned n di D);
}.

(** *** Words *)

Lemma good_words D x : good D x → length (words D x) = 128%nat ∧ words_ok 4 (words D x).
Proof.
  intros (_ & b & Hb & Hl & Hw). unfold words. rewrite Hb. cbn [from_option]. split; [apply length_dec_arr|].
  apply words_ok_dec_arr; [done|]. rewrite Hl. unfold BLOCK_SZ. lia.
Qed.

Lemma words_enc D id l : length l = 128%nat → words_ok 4 l → words (<[id := enc_arr 4 l]> D) id = l.
Proof.
  intros Hl Hw. unfold words. rewrite lookup_insert_eq. cbn [from_option]. rewrite <- (app_nil_r (enc_arr 4 l)), <- Hl. by apply dec_enc_arr.
Qed.

Lemma words_ne D id b x : x ≠ id → words (<[id := b]> D) x = words D x.
Proof. intros. unfold words. by rewrite lookup_insert_ne. Qed.

Section set_word.
Context (D : gmap Z block) (id k x : Z) (G : good D id) (Hk : 0 ≤ k < 128) (Hx : 0 ≤ x < 2 ^ 32).

Lemma words_set : words (set_word id k x D) id = <[Z.to_nat k := x]> (words D id).
Proof.
  destruct (good_words D id G) as [Hl Hw]. apply words_enc; [by rewrite length_insert|]. apply Forall_insert; [done|].
  change (8 * Z.of_nat 4) with 32. lia.
Qed.

Lemma word_set j : 0 ≤ j → word (set_word id k x D) id j = if decide (j = k) then x else word D id j.
Proof.
  intros Hj. destruct (good_words D id G) as [Hl _]. unfold word. rewrite words_set. case_decide as E.
  - subst j. rewrite list_lookup_insert_eq by lia. done.
  - rewrite list_lookup_insert_ne by lia. done.
Qed.

Lemma word_set_ne y j : y ≠ id → word (set_word id k x D) y j = word D y j.
Proof. intros. unfold word, set_word. by rewrite words_ne. Qed.

Lemma set_word_ne y : y ≠ id → set_word id k x D !! y = D !! y.
Proof. intros. unfold set_word. by rewrite lookup_insert_ne. Qed.

Lemma good_set y : good D y → good (set_word id k x D) y.
Proof.
  intros (Hr & b & Hb & Hw). split; [done|]. unfold set_word. destruct (decide (y = id)) as [->|Hne].
  - eexists. rewrite lookup_insert_eq. split; [done|]. apply wf_block_enc_arr. rewrite length_insert.
    by rewrite (proj1 (good_words D id G)).
  - exists b. by rewrite lookup_insert_ne.
Qed.
End set_word.

(** *** Ownership *)

Lemma bind_apart {A B} (f : A → list B) (l : list A) i j a b x :
  NoDup (l ≫= f) → l !! i = Some a → l !! j = Some b → i ≠ j → x ∈ f a → x ∉ f b.
Proof.
  revert i j. induction l as [|c l IH]; intros i j; [done|]. cbn [mbind list_bind]. intros (H1 & H2 & H3)%NoDup_app Hi Hj Hne Ha Hb.
  destruct i as [|i], j as [|j]; cbn in Hi, Hj; simplify_eq.
  - by apply (H2 x Ha), list_elem_of_bind; exists b; split; [|eapply list_elem_of_lookup_2].
  - by apply (H2 x Hb), list_elem_of_bind; exists a; split; [|eapply list_elem_of_lookup_2].
  - by apply (IH i j) in H3; auto.
Qed.

Lemma owned_in n di D k x : 0 ≤ k < n → x ∈ new_of di D k → x ∈ owned n di D.
Proof. intros Hk Hx. apply list_elem_of_bind. exists k. split; [done|]. apply elem_of_seqZ. lia. Qed.

Lemma owned_apart n di D i j x : NoDup (owned n di D) → 0 ≤ i < n → 0 ≤ j < n → i ≠ j → x ∈ new_of di D i → x ∉ new_of di D j.
Proof.
  intros H Hi Hj Hne. apply (bind_apart (new_of di D) (seqZ 0 n) (Z.to_nat i) (Z.to_nat j)); [done|..|lia]; apply lookup_seqZ; lia.
Qed.

Lemma NoDup_bind_elem {A B} (f : A → list B) l a : NoDup (l ≫= f) → a ∈ l → NoDup (f a).
Proof.
  induction l as [|c l IH]; intros H Ha; [by apply not_elem_of_nil in Ha|]. cbn in H. apply NoDup_app in H as (H1 & _ & H3).
  apply elem_of_cons in Ha as [->|Ha]; auto.
Qed.

Lemma owned_new n di D i : NoDup (owned n di D) → 0 ≤ i < n → NoDup (new_of di D i).
Proof. intros H Hi. apply (NoDup_bind_elem _ (seqZ 0 n)); [done|]. apply elem_of_seqZ. lia. Qed.

Lemma owned_ext n di D di' D' : (∀ j, 0 ≤ j < n → new_of di' D' j = new_of di D j) → owned n di' D' = owned n di D.
Proof.
  intros H. unfold owned. assert (E : ∀ l, (∀ j, j ∈ l → 0 ≤ j < n) → l ≫= new_of di' D' = l ≫= new_of di D).
  { induction l as [|a l IH]; intros Hl; [done|]. cbn. rewrite H by (apply Hl; by left). rewrite IH; [done|]. intros; apply Hl; by right. }
  apply E. intros j Hj%elem_of_seqZ. lia.
Qed.

Lemma indexes_ext n di D di' D' : (∀ j, 0 ≤ j < n → idx_of di' D' j = idx_of di D j) → indexes n di' D' = indexes n di D.
Proof.
  intros H. unfold indexes. assert (E : ∀ l, (∀ j, j ∈ l → 0 ≤ j < n) → l ≫= idx_of di' D' = l ≫= idx_of di D).
  { induction l as [|a l IH]; intros Hl; [done|]. cbn. rewrite H by (apply Hl; by left). rewrite IH; [done|]. intros; apply Hl; by right. }
  apply E. intros j Hj%elem_of_seqZ. lia.
Qed.

Lemma bind_snoc {B} (f : Z → list B) n : 0 ≤ n → seqZ 0 (n + 1) ≫= f = (seqZ 0 n ≫= f) ++ f n.
Proof.
  intros Hn. rewrite seqZ_app by lia. rewrite bind_app. f_equal. rewrite Z.add_0_l. change (f n ++ [] = f n). apply app_nil_r.
Qed.

Lemma owned_succ n di D : 0 ≤ n → owned (n + 1) di D = owned n di D ++ new_of di D n.
Proof. apply bind_snoc. Qed.

Lemma indexes_succ n di D : 0 ≤ n → indexes (n + 1) di D = indexes n di D ++ idx_of di D n.
Proof. apply bind_snoc. Qed.

Lemma idx_new di D k x : x ∈ idx_of di D k → x ∈ new_of di D k.
Proof. intros. unfold new_of. rewrite elem_of_app. by left. Qed.

Lemma index1_in di D : indirect1 di ∈ idx_of di D 28.
Proof. by left. Qed.

Lemma index2_in di D : indirect2 di ∈ idx_of di D 156.
Proof. unfold idx_of. cbn. by left. Qed.

(** The data block with which the row of data block [k] came. *)
Definition row_start (k : Z) : Z := 156 + 128 * ((k - 156) / 128).

Lemma row_start_le k : 156 ≤ k → 156 ≤ row_start k ≤ k ∧ (row_start k = k ↔ (k - 156) mod 128 = 0).
Proof. intros. unfold row_start. dlia. Qed.

Lemma row_in di D k : 156 ≤ k → row_of di D k ∈ idx_of di D (row_start k).
Proof.
  intros Hk. unfold idx_of. rewrite !elem_of_app. right. right.
  assert (E : (row_start k - 156) / 128 = (k - 156) / 128 ∧ (row_start k - 156) mod 128 = 0) by (unfold row_start; dlia).
  destruct E as [E1 E2]. rewrite E2. rewrite (proj2 (Z.leb_le _ _)) by (apply row_start_le; lia). cbn.
  unfold row_of. rewrite E1. by left.
Qed.

Lemma row_ne_index2 n di D k : NoDup (owned n di D) → 156 ≤ k → row_start k < n → row_of di D k ≠ indirect2 di.
Proof.
  intros Hnd Hk Hn. destruct (row_start_le k Hk) as [Hrs _]. pose proof (row_in di D k Hk) as Hin.
  destruct (decide (row_start k = 156)) as [E|E].
  - pose proof (owned_new n di D 156 Hnd ltac:(lia)) as H. unfold new_of, idx_of in H. cbn in H. apply NoDup_cons in H as [H _].
    assert (Er : row_of di D 156 = row_of di D k) by (unfold row_of; f_equal; unfold row_start in E; dlia).
    intros Heq. apply H. rewrite Er, Heq. by left.
  - intros Heq. apply (owned_apart n di D (row_start k) 156 (row_of di D k) Hnd); [lia|lia|done|by apply idx_new|].
    rewrite Heq. apply idx_new, index2_in.
Qed.

(** ** Growth, one data block at a time *)

Notation fstate := (DiskInode * gmap Z block * list Z)%type.

(** The index of the first level at data block 28, that of the second at 156. *)
Definition pop_index (k : Z) (st : fstate) : fstate :=
  let '(di, D, v) := st in
  if k =? 28 then (mkDiskInode (di_size di) (direct di) (hd 0 v) (indirect2 di) (type_ di), D, tail v)
  else if k =? 156 then (mkDiskInode (di_size di) (direct di) (indirect1 di) (hd 0 v) (type_ di), D, tail v)
  else st.

(** A row of the second level at its first data block, and data block [k]. *)
Definition put (k : Z) (st : fstate) : fstate :=
  let '(di, D, v) := st in
  if k <? 28 then
    (mkDiskInode (di_size di) (<[Z.to_nat k := hd 0 v]> (direct di)) (indirect1 di) (indirect2 di) (type_ di), D, tail v)
  else if k <? 156 then (di, set_word (indirect1 di) (k - 28) (hd 0 v) D, tail v)
  else
    let '(D, v) :=
      if (k - 156) mod 128 =? 0 then (set_word (indirect2 di) ((k - 156) / 128) (hd 0 v) D, tail v) else (D, v) in
    (di, set_word (row_of di D k) ((k - 156) mod 128) (hd 0 v) D, tail v).

Definition grow1 (k : Z) (st : fstate) : fstate := put k (pop_index k st).

Fixpoint grow (n : nat) (k : Z) (st : fstate) : fstate :=
  match n with O => st | S n => grow n (k + 1) (grow1 k st) end.

(** The number of blocks that data block [k] takes. *)
Definition count (k : Z) : nat :=
  (if k =? 28 then 1 else 0) + (if k =? 156 then 1 else 0) +
  (if (156 <=? k) && ((k - 156) mod 128 =? 0) then 1 else 0) + 1.

Lemma length_new_of di D k : length (new_of di D k) = count k.
Proof. unfold new_of, idx_of, count. rewrite !length_app. by destruct (k =? 28), (k =? 156), ((156 <=? k) && _). Qed.

Definition same_shape (di di' : DiskInode) : Prop := di_size di' = di_size di ∧ type_ di' = type_ di.

(** Data block [k] comes with the blocks [w]; those before are where they were, and only index
    blocks change. *)
Record grown1 (k : Z) (di : DiskInode) (D : gmap Z block) (di' : DiskInode) (D' : gmap Z block) (w : list Z) : Prop := {
  g1_shape : same_shape di di';
  g1_length : length (direct di') = 28%nat;
  g1_idx : ∀ j, 0 ≤ j < k → idx_of di' D' j = idx_of di D j;
  g1_data : ∀ j, 0 ≤ j < k → data_of di' D' j = data_of di D j;
  g1_new : new_of di' D' k = w;
  g1_good : ∀ x, good D x → good D' x;
  g1_frame : ∀ x, x ∉ indexes (k + 1) di' D' → D' !! x = D !! x;
}.

Section grow1.
Context (k : Z) (di : DiskInode) (D : gmap Z block) (w v : list Z).
Context (T : tree_ok k di D) (Hk : k < 16540) (Hw : length w = count k).
Context (Hnd : NoDup (owned k di D ++ w)) (Hgood : Forall (good D) w).

Lemma w_apart j x y : 0 ≤ j < k → x ∈ new_of di D j → y ∈ w → x ≠ y.
Proof.
  intros Hj Hx Hy ->. apply NoDup_app in Hnd as (_ & H & _). by apply (H y); [eapply owned_in|].
Qed.

Lemma w_range x : x ∈ w → 0 ≤ x < 2 ^ 32.
Proof. intros Hx. by apply (proj1 (Forall_forall _ _) Hgood x Hx). Qed.

Lemma w_good x : x ∈ w → good D x.
Proof. intros Hx. by apply (proj1 (Forall_forall _ _) Hgood x Hx). Qed.

Lemma old_good j x : 0 ≤ j < k → x ∈ new_of di D j → good D x.
Proof. intros Hj Hx. apply (proj1 (Forall_forall _ _) (to_good _ _ _ T)). by eapply owned_in. Qed.

Lemma grow1_direct : k < 28 → ∃ di' D', grow1 k (di, D, w ++ v) = (di', D', v) ∧ grown1 k di D di' D' w.
Proof.
  intros H28. pose proof (to_max _ _ _ T) as Hmax. pose proof (to_direct _ _ _ T) as Hd.
  assert (Hc : count k = 1%nat).
  { unfold count. rewrite (proj2 (Z.eqb_neq _ _)), (proj2 (Z.eqb_neq k 156)), (proj2 (Z.leb_gt _ _)) by lia. done. }
  rewrite Hc in Hw. destruct w as [|b [|]] eqn:Ew; [done| |done].
  unfold grow1, pop_index, put. rewrite (proj2 (Z.eqb_neq _ _)), (proj2 (Z.eqb_neq k 156)), (proj2 (Z.ltb_lt _ _)) by lia.
  cbn [app hd tail]. eexists _, _. split; [done|]. split; cbn [direct].
  - done.
  - by rewrite length_insert.
  - done.
  - intros j Hj. unfold data_of. cbn [direct indirect1 indirect2]. rewrite (proj2 (Z.ltb_lt _ _)) by lia. by rewrite list_lookup_insert_ne by lia.
  - unfold new_of, idx_of, data_of. cbn [direct]. rewrite (proj2 (Z.eqb_neq _ _)), (proj2 (Z.eqb_neq k 156)), (proj2 (Z.leb_gt _ _)), (proj2 (Z.ltb_lt _ _)) by lia.
    cbn. by rewrite list_lookup_insert_eq by lia.
  - done.
  - done.
Qed.

(** In the first level index, at a position that is free. *)
Lemma grow1_first : 28 ≤ k < 156 → ∃ di' D', grow1 k (di, D, w ++ v) = (di', D', v) ∧ grown1 k di D di' D' w.
Proof.
  intros H28. pose proof (to_direct _ _ _ T) as Hd.
  set (i1 := if k =? 28 then hd 0 w else indirect1 di). set (b := List.last w 0).
  assert (E : w = (if k =? 28 then [i1] else []) ++ [b]).
  { unfold count in Hw. rewrite (proj2 (Z.eqb_neq k 156)), (proj2 (Z.leb_gt 156 k)) in Hw by lia. subst i1 b. cbn in Hw.
    destruct (k =? 28); [by destruct w as [|? [|? [|]]]|by destruct w as [|? [|]]]. }
  assert (Gi : good D i1).
  { unfold i1. destruct (Z.eqb_spec k 28); [apply w_good; rewrite E; by left|]. apply (old_good 28); [lia|]. apply idx_new, index1_in. }
  assert (Hb : 0 ≤ b < 2 ^ 32) by (apply w_range; rewrite E, elem_of_app; right; by left).
  set (di' := mkDiskInode (di_size di) (direct di) i1 (indirect2 di) (type_ di)). set (D' := set_word i1 (k - 28) b D).
  exists di', D'. split.
  { unfold grow1, pop_index. rewrite E. destruct (Z.eqb_spec k 28) as [E28|E28]; [|rewrite (proj2 (Z.eqb_neq k 156)) by lia].
    - cbn [app hd tail]. unfold put. rewrite (proj2 (Z.ltb_ge k 28)), (proj2 (Z.ltb_lt k 156)) by lia. done.
    - unfold put. rewrite (proj2 (Z.ltb_ge k 28)), (proj2 (Z.ltb_lt k 156)) by lia. unfold di', D', i1. by destruct di. }
  assert (Hi1 : k ≠ 28 → i1 = indirect1 di) by (intros; unfold i1; by rewrite (proj2 (Z.eqb_neq k 28))).
  assert (Hnew : new_of di' D' k = w).
  { unfold new_of, idx_of, data_of. rewrite (proj2 (Z.ltb_ge k 28)), (proj2 (Z.ltb_lt k 156)), (proj2 (Z.eqb_neq k 156)), (proj2 (Z.leb_gt 156 k)) by lia.
    cbn [indirect1 di' andb app]. unfold D'. rewrite word_set, decide_True, app_nil_r, E by (done || lia). done. }
  assert (Hidx : ∀ j, 0 ≤ j < k → idx_of di' D' j = idx_of di D j).
  { intros j Hj. unfold idx_of. rewrite (proj2 (Z.eqb_neq j 156)), (proj2 (Z.leb_gt 156 j)) by lia. cbn [andb]. destruct (Z.eqb_spec j 28); [|done].
    cbn [indirect1 di']. by rewrite Hi1 by lia. }
  split; try done.
  - intros j Hj. unfold data_of. destruct (Z.ltb_spec j 28); [done|]. rewrite (proj2 (Z.ltb_lt j 156)) by lia.
    cbn [indirect1 di']. unfold D'. rewrite word_set, decide_False by (done || lia). by rewrite Hi1 by lia.
  - intros x Gx. by apply good_set.
  - intros x Hx. apply set_word_ne. intros ->. apply Hx. apply list_elem_of_bind. exists 28. split; [apply (index1_in di')|]. apply elem_of_seqZ. lia.
Qed.

(** In the second level index.  The blocks at each step, the new ones included: *)
Definition blocks_at (j : Z) : list Z := if j =? k then w else new_of di D j.

Lemma blocks_at_old j : j < k → blocks_at j = new_of di D j.
Proof. intros. unfold blocks_at. by rewrite (proj2 (Z.eqb_neq j k)) by lia. Qed.

Lemma blocks_at_new : blocks_at k = w.
Proof. unfold blocks_at. by rewrite Z.eqb_refl. Qed.

Lemma blocks_apart i j x y : 0 ≤ i ≤ k → 0 ≤ j ≤ k → i ≠ j → x ∈ blocks_at i → y ∈ blocks_at j → x ≠ y.
Proof.
  intros Hi Hj Hne Hx Hy ->. pose proof (proj1 (proj1 (NoDup_app _ _) Hnd)) as Hnd1.
  destruct (decide (i = k)) as [->|Ni]; [|destruct (decide (j = k)) as [->|Nj]].
  - rewrite blocks_at_new in Hx. rewrite blocks_at_old in Hy by lia. by apply (w_apart j y y); [lia|..].
  - rewrite blocks_at_new in Hy. rewrite blocks_at_old in Hx by lia. by apply (w_apart i y y); [lia|..].
  - rewrite blocks_at_old in Hx, Hy by lia. by apply (owned_apart k di D i j y Hnd1); [lia|lia|..].
Qed.

Lemma blocks_nodup j : 0 ≤ j ≤ k → NoDup (blocks_at j).
Proof.
  intros Hj. destruct (decide (j = k)) as [->|Hne].
  - rewrite blocks_at_new. apply (proj1 (NoDup_app _ _) Hnd).
  - rewrite blocks_at_old by lia. apply (owned_new k); [apply (proj1 (NoDup_app _ _) Hnd)|lia].
Qed.

Lemma blocks_good j x : 0 ≤ j ≤ k → x ∈ blocks_at j → good D x.
Proof.
  intros Hj Hx. destruct (decide (j = k)) as [->|Hne].
  - rewrite blocks_at_new in Hx. by apply w_good.
  - rewrite blocks_at_old in Hx by lia. apply (old_good j); [lia|done].
Qed.

Section second.
Context (H156 : 156 ≤ k).
Notation rk := ((k - 156) / 128).
Notation ck := ((k - 156) mod 128).
Definition second_index : Z := if k =? 156 then hd 0 w else indirect2 di.
Definition second_row : Z := if ck =? 0 then hd 0 (if k =? 156 then tail w else w) else row_of di D k.
Notation i2 := second_index.
Notation r := second_row.
Definition second_data : Z := List.last w 0.
Notation b := second_data.

Lemma second_shape : w = (if k =? 156 then [i2] else []) ++ (if ck =? 0 then [r] else []) ++ [b].
Proof.
  unfold second_index, second_row, second_data. unfold count in Hw. rewrite (proj2 (Z.eqb_neq k 28)), (proj2 (Z.leb_le 156 k)) in Hw by lia. cbn [andb] in Hw.
  destruct (Z.eqb_spec k 156) as [E156|N156], (Z.eqb_spec ck 0) as [E0|N0]; cbn in Hw.
  - by destruct w as [|? [|? [|? [|]]]].
  - exfalso. apply N0. by rewrite E156.
  - by destruct w as [|? [|? [|]]].
  - by destruct w as [|? [|]].
Qed.

Lemma second_old : (k ≠ 156 → i2 = indirect2 di) ∧ (ck ≠ 0 → r = row_of di D k) ∧ (k = 156 → ck = 0).
Proof.
  unfold second_index, second_row. split; [|split].
  - intros. by rewrite (proj2 (Z.eqb_neq k 156)).
  - intros. by rewrite (proj2 (Z.eqb_neq ck 0)).
  - by intros ->.
Qed.

Lemma second_where : i2 ∈ blocks_at 156 ∧ r ∈ blocks_at (row_start k) ∧ b ∈ w ∧
  ∃ l, row_start k = 156 → blocks_at 156 = i2 :: r :: l.
Proof.
  destruct second_old as (Hi2 & Hr & Hk156). destruct (row_start_le k H156) as [Hrs Hrs0]. pose proof second_shape as E.
  assert (Hb : b ∈ w) by (rewrite E, !elem_of_app; right; right; by left).
  destruct (decide (k = 156)) as [E1|E1].
  - assert (E0 : ck = 0) by auto. assert (Er : row_start k = 156) by (unfold row_start; by rewrite E1). rewrite Er, <- E1, blocks_at_new.
    rewrite (proj2 (Z.eqb_eq k 156)), (proj2 (Z.eqb_eq ck 0)) in E by done. cbn [app] in E.
    split; [rewrite E; by left|]. split; [rewrite E; right; by left|]. split; [done|]. eexists. intros _. exact E.
  - split; [rewrite blocks_at_old, Hi2 by lia; apply idx_new, index2_in|].
    assert (Hrin : r ∈ blocks_at (row_start k)).
    { destruct (decide (ck = 0)) as [E0|E0].
      - rewrite (proj2 Hrs0), blocks_at_new by done. rewrite (proj2 (Z.eqb_neq k 156)), (proj2 (Z.eqb_eq ck 0)) in E by done.
        rewrite E. by left.
      - rewrite blocks_at_old, Hr by (done || (assert (row_start k ≠ k) by tauto; lia)). by apply idx_new, row_in. }
    split; [done|]. split; [done|]. eexists. intros Er. assert (E0 : ck ≠ 0) by (rewrite Er in Hrs0; lia).
    rewrite blocks_at_old, Hi2, Hr by (done || lia). unfold new_of, idx_of.
    assert (Erk : rk = 0) by (unfold row_start in Er; lia). unfold row_of. rewrite Erk. reflexivity.
Qed.

(** No two of the index blocks are the same. *)
Lemma second_apart : i2 ≠ r ∧ indirect1 di ≠ i2 ∧ indirect1 di ≠ r ∧
  ∀ j, 156 ≤ j < k → row_of di D j ≠ i2 ∧ ((j - 156) / 128 ≠ rk → row_of di D j ≠ r).
Proof.
  destruct second_where as (H2 & Hr & _ & l & Hl). destruct (row_start_le k H156) as [Hrs Hrs0].
  assert (H1 : indirect1 di ∈ blocks_at 28) by (rewrite blocks_at_old by lia; apply idx_new, index1_in).
  assert (H2r : i2 ≠ r).
  { destruct (decide (row_start k = 156)) as [E|E].
    - pose proof (blocks_nodup 156 ltac:(lia)) as Hn. rewrite (Hl E) in Hn. apply NoDup_cons in Hn as [Hn _]. intros Heq. apply Hn. rewrite Heq. by left.
    - by apply (blocks_apart 156 (row_start k)); [lia|lia|..]. }
  split; [done|]. split; [by apply (blocks_apart 28 156); [lia|lia|..]|]. split; [by apply (blocks_apart 28 (row_start k)); [lia..|done|done]|].
  intros j Hj. destruct (row_start_le j ltac:(lia)) as [Hrj _].
  assert (Hrow : row_of di D j ∈ blocks_at (row_start j)) by (rewrite blocks_at_old by lia; apply idx_new, row_in; lia).
  split; [|intros; by apply (blocks_apart (row_start j) (row_start k)); [lia|lia|unfold row_start; lia|..]].
  destruct second_old as (Hi2 & _ & _). rewrite Hi2 by lia. apply (row_ne_index2 k); [apply (proj1 (NoDup_app _ _) Hnd)|lia|lia].
Qed.

Definition second_inode : DiskInode := mkDiskInode (di_size di) (direct di) (indirect1 di) i2 (type_ di).
Definition second_mid : gmap Z block := if ck =? 0 then set_word i2 rk r D else D.
Definition second_disk : gmap Z block := set_word r ck b second_mid.

Lemma second_good : good D i2 ∧ good D r ∧ 0 ≤ b < 2 ^ 32 ∧ good second_mid r ∧ ∀ x, good D x → good second_disk x.
Proof.
  destruct second_where as (H2 & Hr & Hb & _). destruct (row_start_le k H156) as [Hrs _].
  assert (G2 : good D i2) by (by apply (blocks_good 156); [lia|]). assert (Gr : good D r) by (by apply (blocks_good (row_start k)); [lia|]).
  assert (Hrk : 0 ≤ rk < 128 ∧ 0 ≤ ck < 128) by dlia. pose proof (proj1 Gr) as Hrr. pose proof (w_range _ Hb) as Hbr.
  assert (Gm : ∀ x, good D x → good second_mid x) by (intros x Hx; unfold second_mid; destruct (ck =? 0); [by apply good_set|done]).
  split; [done|]. split; [done|]. split; [done|]. split; [by apply Gm|]. intros x Hx. apply good_set; by apply Gm.
Qed.

(** Words of index blocks: those of the rows and of the new ones. *)
Lemma second_words :
  (∀ x, x ≠ i2 → x ≠ r → second_disk !! x = D !! x) ∧
  (∀ x j, x ≠ i2 → x ≠ r → word second_disk x j = word D x j) ∧
  (∀ j, 0 ≤ j → word second_disk r j = if decide (j = ck) then b else word second_mid r j) ∧
  word second_mid i2 rk = r ∧ word second_disk i2 rk = r ∧
  (∀ j, 0 ≤ j → j ≠ rk ∨ ck ≠ 0 → word second_disk i2 j = word D i2 j).
Proof.
  destruct second_good as (G2 & Gr & Hb & Gm & _). destruct second_apart as (N2r & _). destruct second_old as (Hi2 & Hr & Hk156).
  assert (Hrk : 0 ≤ rk < 128 ∧ 0 ≤ ck < 128) by dlia. pose proof (proj1 Gr) as Hrr.
  assert (Hmid : word second_mid i2 rk = r).
  { unfold second_mid. destruct (Z.eqb_spec ck 0) as [E0|E0]; [rewrite word_set, decide_True; tauto || lia|].
    rewrite Hr by done. unfold row_of. rewrite Hi2; [done|]. intros E. by apply E0, Hk156. }
  split; [|split; [|split; [|split; [done|split]]]].
  - intros x H1 H2. unfold second_disk, second_mid. rewrite set_word_ne by done. destruct (ck =? 0); [by apply set_word_ne|done].
  - intros x j H1 H2. unfold second_disk, second_mid. rewrite word_set_ne by done. destruct (ck =? 0); [by apply word_set_ne|done].
  - intros j Hj. unfold second_disk. rewrite word_set; [done|done|tauto|done|done].
  - unfold second_disk. by rewrite word_set_ne.
  - intros j Hj Hne. unfold second_disk. rewrite word_set_ne by done. unfold second_mid. destruct (Z.eqb_spec ck 0); [|done].
    rewrite word_set, decide_False; tauto || lia.
Qed.

Lemma grow1_second_eq : grow1 k (di, D, w ++ v) = (second_inode, second_disk, v).
Proof.
  destruct second_old as (Hi2 & Hr & _). pose proof second_words as (_ & _ & _ & Hmid & _). unfold grow1, pop_index. rewrite (proj2 (Z.eqb_neq k 28)) by lia.
  assert (Ep : (if k =? 156 then (mkDiskInode (di_size di) (direct di) (indirect1 di) (hd 0 (w ++ v)) (type_ di), D, tail (w ++ v)) else (di, D, w ++ v))
    = (second_inode, D, ((if ck =? 0 then [r] else []) ++ [b]) ++ v)).
  { rewrite second_shape. unfold second_inode. destruct (Z.eqb_spec k 156); [done|]. rewrite Hi2 by done. by destruct di. }
  rewrite Ep. unfold put. rewrite (proj2 (Z.ltb_ge k 28)), (proj2 (Z.ltb_ge k 156)) by lia.
  assert (Eq : (if ck =? 0 then (set_word (indirect2 second_inode) rk (hd 0 (((if ck =? 0 then [r] else []) ++ [b]) ++ v)) D, tail (((if ck =? 0 then [r] else []) ++ [b]) ++ v))
     else (D, ((if ck =? 0 then [r] else []) ++ [b]) ++ v)) = (second_mid, b :: v)).
  { unfold second_mid. by destruct (ck =? 0). }
  rewrite Eq. unfold row_of. cbn [indirect2 second_inode hd tail]. by rewrite Hmid.
Qed.

Lemma second_rows j : 156 ≤ j < k → row_of second_inode second_disk j = row_of di D j.
Proof.
  intros Hj. destruct second_old as (Hi2 & _ & _). pose proof second_words as (_ & _ & _ & _ & _ & H). unfold row_of. cbn [indirect2 second_inode].
  rewrite H; [by rewrite Hi2 by lia|dlia|dlia].
Qed.

Lemma grow1_second : ∃ di' D', grow1 k (di, D, w ++ v) = (di', D', v) ∧ grown1 k di D di' D' w.
Proof.
  exists second_inode, second_disk. split; [apply grow1_second_eq|]. destruct second_old as (Hi2 & Hr & _). destruct second_apart as (N2r & N12 & N1r & Nj).
  pose proof second_words as (Hf & Hwd & Hwr & _ & Hw2 & _). pose proof second_good as (_ & _ & _ & _ & Hg). destruct (row_start_le k H156) as [Hrs _].
  assert (Hro : row_of second_inode second_disk k = r) by exact Hw2.
  split; try done.
  - apply (to_direct _ _ _ T).
  - intros j Hj. unfold idx_of. cbn [indirect1 indirect2 second_inode]. f_equal. f_equal.
    + destruct (Z.eqb_spec j 156); [|done]. by rewrite Hi2 by lia.
    + destruct (Z.leb_spec 156 j); [|done]. by rewrite second_rows by lia.
  - intros j Hj. unfold data_of. destruct (Z.ltb_spec j 28); [done|]. destruct (Z.ltb_spec j 156); [by apply Hwd|]. rewrite second_rows by lia.
    destruct (Nj j ltac:(lia)) as [Nj2 Njr]. destruct (decide ((j - 156) / 128 = rk)) as [Er|Er]; [|by apply Hwd; [|apply Njr]].
    assert (Hck : ck ≠ 0) by dlia. assert (Ejk : row_of di D j = r) by (rewrite Hr by done; unfold row_of; by rewrite Er).
    rewrite Ejk, Hwr, decide_False by dlia. unfold second_mid. by rewrite (proj2 (Z.eqb_neq ck 0)).
  - unfold new_of, idx_of, data_of. rewrite Hro. rewrite (proj2 (Z.ltb_ge k 28)), (proj2 (Z.ltb_ge k 156)), (proj2 (Z.eqb_neq k 28)), (proj2 (Z.leb_le 156 k)) by lia.
    cbn [indirect2 second_inode andb app]. rewrite Hwr, decide_True by (done || dlia). rewrite second_shape. by rewrite <- app_assoc.
  - intros x Hx. apply Hf; intros ->; apply Hx, list_elem_of_bind.
    + exists 156. split; [apply (index2_in second_inode)|]. apply elem_of_seqZ. lia.
    + exists (row_start k). split; [|apply elem_of_seqZ; lia]. rewrite <- Hro. by apply row_in.
Qed.
End second.

End grow1.

(** ** Growth by any number of data blocks *)

(** The blocks of a file of [n] data blocks. *)
Definition tree_count (n : Z) : Z :=
  n + (if 28 <? n then 1 else 0) + (if 156 <? n then 1 + (n - 156 + 127) / 128 else 0).

Lemma tree_count_succ n : 0 ≤ n → tree_count (n + 1) = tree_count n + Z.of_nat (count n).
Proof.
  intros Hn. unfold tree_count, count. destruct (Z.eqb_spec n 28) as [->|]; [done|]. destruct (Z.eqb_spec n 156) as [->|]; [done|].
  assert (E : (28 <? n + 1) = (28 <? n)) by (destruct (Z.ltb_spec 28 (n + 1)), (Z.ltb_spec 28 n); lia). rewrite E.
  destruct (Z.ltb_spec 156 n) as [H|H], (Z.ltb_spec 156 (n + 1)); try lia; [|destruct (Z.leb_spec 156 n); cbn; lia].
  rewrite (proj2 (Z.leb_le 156 n)) by lia. cbn [andb]. destruct (Z.eqb_spec ((n - 156) mod 128) 0); dlia.
Qed.

Lemma length_owned n di D : 0 ≤ n → zlen (owned n di D) = tree_count n.
Proof.
  intros Hn. replace n with (Z.of_nat (Z.to_nat n)) by lia. induction (Z.to_nat n) as [|m IH]; [done|].
  replace (Z.of_nat (S m)) with (Z.of_nat m + 1) by lia. rewrite owned_succ, tree_count_succ, <- IH by lia.
  unfold zlen. rewrite length_app, length_new_of. lia.
Qed.

Lemma tree_count_total size : 0 ≤ size ≤ INDIRECT2_BOUND * 512 → total_blocks_of size = tree_count (_data_blocks size).
Proof.
  intros H. assert (Hn : 0 ≤ _data_blocks size ≤ 16540) by (rewrite data_blocks_small by done; rewrite INDIRECT2_BOUND_eq in H; dlia).
  unfold total_blocks_of, tree_count. change INODE_DIRECT_COUNT with 28. rewrite INDIRECT1_BOUND_eq, INODE_INDIRECT1_COUNT_eq.
  set (n := _data_blocks size) in *. clearbody n. replace (n - 156 + 128 - 1) with (n - 156 + 127) by lia.
  destruct (Z.ltb_spec 28 n), (Z.ltb_spec 156 n); rewrite wrap_small; dlia.
Qed.

(** The file of [m] data blocks has become one of [n], with the blocks [w]. *)
Record grown (m n : Z) (di : DiskInode) (D : gmap Z block) (di' : DiskInode) (D' : gmap Z block) (w : list Z) : Prop := {
  gr_shape : same_shape di di';
  gr_tree : tree_ok n di' D';
  gr_owned : owned n di' D' = owned m di D ++ w;
  gr_idx : ∀ j, 0 ≤ j < m → idx_of di' D' j = idx_of di D j;
  gr_data : ∀ j, 0 ≤ j < m → data_of di' D' j = data_of di D j;
  gr_good : ∀ x, good D x → good D' x;
  gr_frame : ∀ x, x ∉ indexes n di' D' → D' !! x = D !! x;
}.

Lemma grown_refl n di D : tree_ok n di D → grown n n di D di D [].
Proof. intros T. split; try done. by rewrite app_nil_r. Qed.

Lemma grown_trans m n p di D di1 D1 di2 D2 w1 w2 : m ≤ n ≤ p → grown m n di D di1 D1 w1 → grown n p di1 D1 di2 D2 w2 →
  grown m p di D di2 D2 (w1 ++ w2).
Proof.
  intros Hmn [[S1 S1'] T1 O1 I1 A1 G1 F1] [[S2 S2'] T2 O2 I2 A2 G2 F2]. split; try done.
  - split; congruence.
  - by rewrite O2, O1, app_assoc.
  - intros j Hj. by rewrite I2, I1 by lia.
  - intros j Hj. by rewrite A2, A1 by lia.
  - auto.
  - intros x Hx. rewrite F2 by done. apply F1. intros H. apply Hx. apply list_elem_of_bind in H as (j & Hj & Hin).
    apply list_elem_of_bind. exists j. apply elem_of_seqZ in Hin. rewrite I2 by lia. split; [done|]. apply elem_of_seqZ. lia.
Qed.

Lemma grow1_ok k di D w v : tree_ok k di D → k < 16540 → length w = count k → NoDup (owned k di D ++ w) → Forall (good D) w →
  ∃ di' D', grow1 k (di, D, w ++ v) = (di', D', v) ∧ grown k (k + 1) di D di' D' w.
Proof.
  intros T Hk Hw Hnd Hg. pose proof (to_max _ _ _ T) as Hmax.
  assert (∃ di' D', grow1 k (di, D, w ++ v) = (di', D', v) ∧ grown1 k di D di' D' w) as (di' & D' & E & G).
  { destruct (decide (k < 28)); [by apply grow1_direct|]. destruct (decide (k < 156)); [by apply grow1_first; [..|lia]|]. apply grow1_second; done || lia. }
  destruct G as [GS GL GI GA GN GG GF]. exists di', D'. split; [done|].
  assert (Eo : owned (k + 1) di' D' = owned k di D ++ w).
  { rewrite owned_succ, GN by lia. f_equal. apply owned_ext. intros j Hj. unfold new_of. by rewrite GI, GA. }
  split; try done. split; [done|lia|by rewrite Eo|]. rewrite Eo. apply Forall_app. split; (eapply Forall_impl; [|exact GG]); [apply T|done].
Qed.

Lemma grow_ok n : ∀ k di D w v, tree_ok k di D → k + Z.of_nat n ≤ 16540 → zlen w = tree_count (k + Z.of_nat n) - tree_count k →
  NoDup (owned k di D ++ w) → Forall (good D) w →
  ∃ di' D', grow n k (di, D, w ++ v) = (di', D', v) ∧ grown k (k + Z.of_nat n) di D di' D' w.
Proof.
  induction n as [|n IH]; intros k di D w v T Hk Hw Hnd Hg; pose proof (to_max _ _ _ T) as Hmax.
  - assert (w = []) as -> by (rewrite Z.add_0_r in Hw; destruct w; [done|unfold zlen in Hw; cbn in Hw; lia]).
    exists di, D. split; [done|]. rewrite Z.add_0_r. by apply grown_refl.
  - set (c := count k). assert (Hc : (c ≤ length w)%nat).
    { assert (Hmono : ∀ m, 0 ≤ tree_count (k + 1 + Z.of_nat m) - tree_count (k + 1)).
      { intros m. induction m as [|m IHm]; [rewrite Z.add_0_r; lia|]. replace (k + 1 + Z.of_nat (S m)) with (k + 1 + Z.of_nat m + 1) by lia.
        rewrite (tree_count_succ (k + 1 + Z.of_nat m)) by lia. lia. }
      specialize (Hmono n). replace (k + Z.of_nat (S n)) with (k + 1 + Z.of_nat n) in Hw by lia. rewrite tree_count_succ in Hmono by lia.
      unfold zlen in Hw. unfold c. lia. }
    rewrite <- (take_drop c w) in Hnd, Hg. rewrite app_assoc in Hnd. apply Forall_app in Hg as [Hg1 Hg2].
    destruct (grow1_ok k di D (take c w) (drop c w ++ v) T) as (d1 & D1 & E1 & G1); [lia|rewrite length_take; lia|by apply NoDup_app in Hnd as (? & _)|done|].
    destruct (IH (k + 1) d1 D1 (drop c w) v (gr_tree _ _ _ _ _ _ _ G1)) as (d2 & D2 & E2 & G2); [lia| | | |].
    + replace (k + 1 + Z.of_nat n) with (k + Z.of_nat (S n)) by lia. rewrite tree_count_succ by lia. unfold zlen in *. rewrite length_drop. unfold c. lia.
    + by rewrite (gr_owned _ _ _ _ _ _ _ G1).
    + eapply Forall_impl; [exact Hg2|]. apply (gr_good _ _ _ _ _ _ _ G1).
    + exists d2, D2. split.
      * cbn [grow]. rewrite <- (take_drop c w) at 1. rewrite <- app_assoc, E1. exact E2.
      * rewrite <- (take_drop c w). replace (k + Z.of_nat (S n)) with (k + 1 + Z.of_nat n) by lia. eapply grown_trans; [|exact G1|exact G2]. lia.
Qed.

(** ** [increase_size] *)

Lemma grow_app a b k st : grow (a + b) k st = grow b (k + Z.of_nat a) (grow a k st).
Proof.
  revert k st. induction a as [|a IH]; intros k st; [by rewrite Z.add_0_r|]. cbn [Nat.add grow]. rewrite IH. f_equal. lia.
Qed.

Fixpoint puts (n : nat) (k : Z) (st : fstate) : fstate :=
  match n with O => st | S n => puts n (k + 1) (put k st) end.

Lemma grow_puts n : ∀ k st, (∀ j, k ≤ j < k + Z.of_nat n → j ≠ 28 ∧ j ≠ 156) → grow n k st = puts n k st.
Proof.
  induction n as [|n IH]; intros k st H; [done|]. cbn [grow puts]. unfold grow1 at 1.
  destruct (H k) as [H1 H2]; [lia|]. assert (E : pop_index k st = st).
  { destruct st as [[di D] v]. unfold pop_index. by rewrite (proj2 (Z.eqb_neq k 28)), (proj2 (Z.eqb_neq k 156)). }
  rewrite E. apply IH. intros j Hj. apply H. lia.
Qed.

Lemma grow_pop n k st : (∀ j, k < j < k + Z.of_nat n → j ≠ 28 ∧ j ≠ 156) → n ≠ O → grow n k st = puts n k (pop_index k st).
Proof. destruct n as [|n]; [done|]. intros H _. cbn [grow puts]. unfold grow1. apply grow_puts. intros j Hj. apply H. lia. Qed.

Lemma set_in (arr : list Z) i x : 0 ≤ i < zlen arr → set_or_panic arr i x = Done (<[Z.to_nat i := x]> arr).
Proof. intros H. unfold set_or_panic. by rewrite (proj2 (Z.leb_le 0 i)), (proj2 (Z.ltb_lt i _)) by lia. Qed.

(** The direct blocks. *)
Lemma fill_direct n : ∀ k di (D : gmap Z block) v, 0 ≤ k → k + Z.of_nat n ≤ 28 → length (direct di) = 28%nat → (n ≤ length v)%nat →
  ∃ d, fill n k (direct di) v = Done (d, drop n v) ∧
    grow n k (di, D, v) = (mkDiskInode (di_size di) d (indirect1 di) (indirect2 di) (type_ di), D, drop n v).
Proof.
  induction n as [|n IH]; intros k di D v Hk Hn Hd Hv; [exists (direct di); by destruct di|].
  destruct v as [|b v]; [cbn in Hv; lia|]. cbn [fill next_block mbind outcome_bind]. rewrite set_in by (unfold zlen; lia). cbn [mbind outcome_bind grow drop].
  unfold grow1, pop_index, put. rewrite (proj2 (Z.eqb_neq k 28)), (proj2 (Z.eqb_neq k 156)), (proj2 (Z.ltb_lt k 28)) by lia. cbn [hd tail].
  destruct (IH (k + 1) (mkDiskInode (di_size di) (<[Z.to_nat k := b]> (direct di)) (indirect1 di) (indirect2 di) (type_ di)) D v) as (d & E1 & E2);
    [lia|lia|cbn; by rewrite length_insert|cbn in Hv; lia|].
  exists d. split; [exact E1|]. rewrite E2. done.
Qed.

Lemma insert_words D x : good D x → <[x := enc_arr 4 (words D x)]> D = D.
Proof.
  intros (_ & b & Hb & Hl & Hw). apply insert_id. unfold words. rewrite Hb. cbn [from_option]. f_equal. symmetry. apply enc_dec_arr; [done|]. rewrite Hl. done.
Qed.

(** A [modify] of an index block. *)
Lemma run_modify_index {A} L D x (f : list Z → prog (A * list Z)) D' v l : good D x → can_hold L x → length l = 128%nat →
  run (f (words D x)) ({[x]} ∪ L) D = FDone (v, l) ({[x]} ∪ L) D' →
  run (cache_modify IndirectBlock x 0 f) L D = FDone v L (<[x := enc_arr 4 l]> D').
Proof.
  intros (_ & b & Hb & Hwf) HL Hl Hf. assert (Ew : words D x = dec_arr 4 128 b) by (unfold words; by rewrite Hb).
  rewrite Ew in Hf. rewrite (run_cache_modify IndirectBlock x 0 f L D D' b (dec_arr 4 128 b) v l);
    [|done|done|apply Hwf|by apply (view_arr 4 128)|cbn [cenc IndirectBlock arr_codec]; by rewrite length_enc_arr, Hl|done].
  do 2 f_equal. cbn [cenc IndirectBlock arr_codec]. apply splice_all. rewrite length_enc_arr, Hl. symmetry. apply Hwf.
Qed.

(** The first level index. *)
Lemma fill_first n : ∀ k di D v, 28 ≤ k → k + Z.of_nat n ≤ 156 → good D (indirect1 di) → Forall (λ x, 0 ≤ x < 2 ^ 32) v → (n ≤ length v)%nat →
  ∃ l, fill n (k - 28) (words D (indirect1 di)) v = Done (l, drop n v) ∧ length l = 128%nat ∧
    puts n k (di, D, v) = (di, <[indirect1 di := enc_arr 4 l]> D, drop n v).
Proof.
  induction n as [|n IH]; intros k di D v Hk Hn G Hv Hlen.
  - exists (words D (indirect1 di)). split; [done|]. split; [by apply good_words|]. cbn [puts]. by rewrite insert_words.
  - destruct v as [|b v]; [cbn in Hlen; lia|]. apply Forall_cons in Hv as [Hb Hv]. pose proof (good_words D _ G) as [Hl _].
    cbn [fill next_block mbind outcome_bind]. rewrite set_in by (unfold zlen; lia). cbn [mbind outcome_bind puts drop].
    unfold put. rewrite (proj2 (Z.ltb_ge k 28)), (proj2 (Z.ltb_lt k 156)) by lia. cbn [hd tail].
    destruct (IH (k + 1) di (set_word (indirect1 di) (k - 28) b D) v) as (l & E1 & E2 & E3); [lia|lia|by apply good_set|done|cbn in Hlen; lia|].
    rewrite words_set in E1 by (done || lia). exists l. split; [by replace (k - 28 + 1) with (k + 1 - 28) by lia|]. split; [done|].
    rewrite E3. unfold set_word. by rewrite insert_insert_eq.
Qed.

(** The second level index: the blocks of the rows, and of the data blocks. *)
Fixpoint needs (n : nat) (k : Z) : nat :=
  match n with O => O | S n => (if (k - 156) mod 128 =? 0 then 1 else 0) + 1 + needs n (k + 1) end.

Lemma needs_count n k : 156 ≤ k → Z.of_nat (needs n k) + (if k =? 156 then (if decide (n = O) then 0 else 1) else 0) = tree_count (k + Z.of_nat n) - tree_count k.
Proof.
  revert k. induction n as [|n IH]; intros k Hk; [rewrite decide_True, Z.add_0_r by done; cbn; destruct (k =? 156); lia|].
  rewrite decide_False by done. cbn [needs]. specialize (IH (k + 1) ltac:(lia)). rewrite (proj2 (Z.eqb_neq (k + 1) 156)) in IH by lia.
  replace (k + Z.of_nat (S n)) with (k + 1 + Z.of_nat n) by lia. rewrite tree_count_succ in IH by lia. unfold count in IH.
  rewrite (proj2 (Z.eqb_neq k 28)), (proj2 (Z.leb_le 156 k)) in IH by lia. cbn [andb] in IH. destruct (k =? 156), ((k - 156) mod 128 =? 0); lia.
Qed.

Section second_level.
Context (L : gset Z) (di : DiskInode) (b2 : block).
Notation i2 := (indirect2 di).
Context (HL : i2 ∉ L) (Hsize : (size L + 1 < BLOCK_CACHE_SIZE)%nat).

(** A block that can be a row while the guard of the index is held. *)
Definition row_ok (D : gmap Z block) (x : Z) : Prop := good D x ∧ x ≠ i2 ∧ x ∉ L.

Lemma row_hold x : x ≠ i2 → x ∉ L → can_hold ({[i2]} ∪ L) x.
Proof.
  intros Hne Hx. split; [set_solver|]. rewrite size_union by set_solver. rewrite size_singleton. lia.
Qed.

(** A round of the loop, once the row is there. *)
Lemma put_row (D : gmap Z block) c r b v : row_ok D r → 0 ≤ c < 128 →
  run (cache_modify IndirectBlock r 0 (λ l, '(b, v) ← lift (next_block (b :: v)); l ← lift (set_or_panic l c b); mret (v, l)))
    ({[i2]} ∪ L) (<[i2 := b2]> D) = FDone v ({[i2]} ∪ L) (<[i2 := b2]> (set_word r c b D)).
Proof.
  intros (G & Hne & Hx) Hc. destruct (good_words D r G) as [Hl _].
  assert (G' : good (<[i2 := b2]> D) r) by (destruct G as (? & bb & ? & ?); split; [done|exists bb; by rewrite lookup_insert_ne]).
  rewrite (run_modify_index _ _ r _ (<[i2 := b2]> D) v (<[Z.to_nat c := b]> (words D r))); [|done|by apply row_hold|by rewrite length_insert|].
  - f_equal. unfold set_word. by rewrite insert_insert_ne.
  - rewrite words_ne by done. cbn [next_block lift]. rewrite run_bind, run_ret, run_bind, set_in by (unfold zlen; lia). done.
Qed.

Lemma fill_second n : ∀ k (D : gmap Z block) v, 156 ≤ k → k + Z.of_nat n ≤ 16540 → good D i2 → Forall (row_ok D) v →
  ((k - 156) mod 128 ≠ 0 → row_ok D (row_of di D k)) → (needs n k ≤ length v)%nat →
  ∃ D', puts n k (di, D, v) = (di, D', drop (needs n k) v) ∧ good D' i2 ∧
    run (fill_indirect2 n ((k - 156) / 128) ((k - 156) mod 128) (words D i2) v) ({[i2]} ∪ L) (<[i2 := b2]> D) =
    FDone (words D' i2, drop (needs n k) v) ({[i2]} ∪ L) (<[i2 := b2]> D').
Proof.
  induction n as [|n IH]; intros k D v Hk Hn G2 Hv Hr Hlen; [by exists D|].
  set (rk := (k - 156) / 128) in *. set (ck := (k - 156) mod 128) in *. assert (Hrk : 0 ≤ rk < 128 ∧ 0 ≤ ck < 128) by (unfold rk, ck; dlia).
  set (D1 := if ck =? 0 then set_word i2 rk (hd 0 v) D else D). set (v1 := if ck =? 0 then tail v else v). set (r := row_of di D1 k).
  cbn [needs] in Hlen. fold ck in Hlen.
  assert (Hhd : ck = 0 → row_ok D (hd 0 v)) by (intros E; destruct v; [cbn in Hlen; lia|by apply Forall_cons in Hv as [? _]]).
  assert (Hrow : row_ok D r ∧ good D1 i2 ∧ ∀ x, row_ok D x → row_ok D1 x).
  { unfold r, row_of. fold rk. unfold D1. destruct (Z.eqb_spec ck 0) as [E0|E0]; [|split; [by apply Hr|done]].
    specialize (Hhd E0). rewrite word_set, decide_True by (done || lia || apply Hhd). split; [done|]. split; [by apply good_set|].
    intros x (H1 & H2 & H3). split; [by apply good_set|done]. }
  destruct Hrow as (Hrow & G21 & Hmono).
  assert (Hgo : ∃ b u, v1 = b :: u ∧ 0 ≤ b < 2 ^ 32 ∧ Forall (row_ok D) u ∧ drop (needs n (k + 1)) u = drop (needs (S n) k) v ∧ (needs n (k + 1) ≤ length u)%nat).
  { unfold v1. cbn [needs]. fold ck. destruct (ck =? 0).
    - destruct v as [|x [|b u]]; cbn in Hlen |- *; try lia. apply Forall_cons in Hv as [_ [Hb Hu]%Forall_cons]. exists b, u. split_and!; [done|apply Hb..|done|done|lia].
    - destruct v as [|b u]; cbn in Hlen |- *; try lia. apply Forall_cons in Hv as [Hb Hu]. exists b, u. split_and!; [done|apply Hb..|done|done|lia]. }
  destruct Hgo as (b & u & Ev & Hb & Hu & Edrop & Hlen'). set (D2 := set_word r ck b D1).
  assert (Gr1 : good D1 r) by by apply Hmono. destruct Hrow as (_ & Nr & HrL).
  assert (Hw2 : words D2 i2 = words D1 i2) by (unfold D2, set_word; by rewrite words_ne).
  destruct (IH (k + 1) D2 u) as (D' & Ep & G' & Er); [lia|lia|by apply good_set|..|done|].
  - eapply Forall_impl; [exact Hu|]. intros x Hx%Hmono. destruct Hx as (H1 & H2 & H3). split; [by apply good_set|done].
  - intros Hne. assert (E : (k + 1 - 156) / 128 = rk) by (unfold rk; dlia). unfold row_of. rewrite E. fold rk.
    assert (Ew : word D2 i2 rk = r) by (unfold word; rewrite Hw2; done). rewrite Ew. split; [by apply good_set|done].
  - exists D'. split; [|split; [done|]].
    + cbn [puts]. rewrite <- Edrop, <- Ep. f_equal. unfold put. rewrite (proj2 (Z.ltb_ge k 28)), (proj2 (Z.ltb_ge k 156)) by lia. fold rk ck.
      change (if ck =? 0 then _ else _) with (if ck =? 0 then (set_word i2 rk (hd 0 v) D, tail v) else (D, v)).
      assert (Eq : (if ck =? 0 then (set_word i2 rk (hd 0 v) D, tail v) else (D, v)) = (D1, b :: u)) by (rewrite <- Ev; unfold D1, v1; by destruct (ck =? 0)).
      rewrite Eq. done.
    + cbn [fill_indirect2]. rewrite run_bind, (run_lift_Done (words D1 i2, b :: u)).
      2: { rewrite <- Ev. unfold D1, v1. destruct (Z.eqb_spec ck 0) as [E0|E0]; [|done]. specialize (Hhd E0). destruct v as [|x u']; [cbn in Hlen; lia|].
           cbn [next_block mbind outcome_bind hd tail]. rewrite set_in by (unfold zlen; rewrite (proj1 (good_words D i2 G2)); lia). cbn.
           by rewrite words_set by (done || lia || apply Hhd). }
      destruct (lookup_lt_is_Some_2 (words D1 i2) (Z.to_nat rk)) as [r' Er']; [rewrite (proj1 (good_words D1 i2 G21)); lia|].
      assert (r' = r) as -> by (unfold r, row_of, word; fold rk; by rewrite Er').
      rewrite run_bind, (run_lift_Done r) by (apply nth_or_panic_Some; [lia|done]).
      assert (E1 : <[i2 := b2]> D = <[i2 := b2]> D1) by (unfold D1; destruct (ck =? 0); [unfold set_word; by rewrite insert_insert_eq|done]).
      rewrite E1, run_bind, (put_row D1 ck r b u) by (apply Hrk || (split; [done|split; done])). fold D2.
      rewrite INODE_INDIRECT1_COUNT_eq, <- Edrop, <- Er, Hw2. destruct (Z.eqb_spec (ck + 1) 128).
      * replace ((k + 1 - 156) / 128) with (rk + 1) by (unfold rk, ck in *; dlia). replace ((k + 1 - 156) mod 128) with 0 by (unfold rk, ck in *; dlia). done.
      * replace ((k + 1 - 156) / 128) with rk by (unfold rk, ck in *; dlia). replace ((k + 1 - 156) mod 128) with (ck + 1) by (unfold rk, ck in *; dlia). done.
Qed.
End second_level.

(** The inode stays one that can be written. *)
Lemma grow_inode_ok n : ∀ k (di : DiskInode) (D : gmap Z block) v di' D' v', DiskInode_ok di → Forall (λ x, 0 ≤ x < 2 ^ 32) v → grow n k (di, D, v) = (di', D', v') → DiskInode_ok di'.
Proof.
  assert (Hhd : ∀ v : list Z, Forall (λ x, 0 ≤ x < 2 ^ 32) v → 0 ≤ hd 0 v < 2 ^ 32 ∧ Forall (λ x, 0 ≤ x < 2 ^ 32) (tail v)).
  { intros [|x v]; [by split; [|constructor]|]. by intros [? ?]%Forall_cons. }
  assert (Hok : ∀ s d i1 i2 t, DiskInode_ok (mkDiskInode s d i1 i2 t) ↔ length d = 28%nat ∧ 0 ≤ s < 2 ^ 32 ∧ Forall (λ x, 0 ≤ x < 2 ^ 32) d ∧ 0 ≤ i1 < 2 ^ 32 ∧ 0 ≤ i2 < 2 ^ 32).
  { intros s d i1 i2 t. unfold DiskInode_ok, DiskInode_words, words_ok. cbn [direct di_size indirect1 indirect2]. rewrite Forall_cons, Forall_app, !Forall_cons, Forall_nil. tauto. }
  induction n as [|n IH]; intros k di D v di' D' v' Hdi Hv E; [by injection E as <-|]. cbn [grow] in E. destruct (grow1 k (di, D, v)) as [[d1 D1] v1] eqn:E1.
  assert (DiskInode_ok d1 ∧ Forall (λ x, 0 ≤ x < 2 ^ 32) v1) as [Hd1 Hv1]; [|exact (IH (k + 1) d1 D1 v1 di' D' v' Hd1 Hv1 E)]. unfold grow1 in E1.
  destruct (pop_index k (di, D, v)) as [[d0 D0] v0] eqn:E0. destruct di as [s d i1 i2 t]. apply Hok in Hdi as (Hl & Hs & Hd & H1 & H2). destruct (Hhd v Hv) as [Hh Ht].
  assert (DiskInode_ok d0 ∧ Forall (λ x, 0 ≤ x < 2 ^ 32) v0) as [Hd0 Hv0].
  { unfold pop_index in E0. destruct (k =? 28); [|destruct (k =? 156)]; injection E0 as <- <- <-; cbn [di_size direct indirect1 indirect2 type_]; rewrite Hok; tauto. }
  destruct d0 as [s0 d0 j1 j2 t0]. apply Hok in Hd0 as (Hl0 & Hs0 & Hdd & H10 & H20). destruct (Hhd v0 Hv0) as [Hh0 Ht0]. destruct (Hhd _ Ht0) as [_ Htt0].
  unfold put in E1. destruct (k <? 28); [|destruct (k <? 156); [|destruct (_ =? 0)]]; injection E1 as <- <- <-; cbn [di_size direct indirect1 indirect2 type_]; rewrite Hok, ?length_insert;
    (split; [|done]); split_and?; try done; try tauto; by apply Forall_insert.
Qed.

(** *** The three loops *)

Lemma tree_count_mono m n : 0 ≤ m ≤ n → tree_count m ≤ tree_count n.
Proof.
  intros H. replace n with (m + Z.of_nat (Z.to_nat (n - m))) by lia. generalize (Z.to_nat (n - m)). intros c.
  induction c as [|c IH]; [rewrite Z.add_0_r; lia|]. replace (m + Z.of_nat (S c)) with (m + Z.of_nat c + 1) by lia. rewrite tree_count_succ by lia. lia.
Qed.

(** Fresh blocks for a file that grows from [k] to [n] data blocks. *)
Record supply (k n : Z) (di : DiskInode) (D : gmap Z block) (v : list Z) : Prop := {
  su_tree : tree_ok k di D;
  su_n : k ≤ n ≤ 16540;
  su_length : zlen v = tree_count n - tree_count k;
  su_nodup : NoDup (owned k di D ++ v);
  su_good : Forall (good D) v;
}.

Lemma grow_split k p n di D v : supply k n di D v → k ≤ p ≤ n →
  ∃ w u di1 D1, v = w ++ u ∧ grow (Z.to_nat (p - k)) k (di, D, v) = (di1, D1, u) ∧ grown k p di D di1 D1 w ∧ supply p n di1 D1 u.
Proof.
  intros [T Hn Hl Hnd Hg] Hp. pose proof (to_max _ _ _ T) as Hmax. set (c := Z.to_nat (tree_count p - tree_count k)).
  pose proof (tree_count_mono k p ltac:(lia)) as M1. pose proof (tree_count_mono p n ltac:(lia)) as M2.
  assert (Hc : (c ≤ length v)%nat) by (unfold zlen in Hl; unfold c; lia).
  rewrite <- (take_drop c v) in Hnd, Hg. rewrite app_assoc in Hnd. apply Forall_app in Hg as [Hg1 Hg2].
  destruct (grow_ok (Z.to_nat (p - k)) k di D (take c v) (drop c v) T) as (d1 & D1 & E & G).
  - lia.
  - unfold zlen. rewrite length_take. replace (k + Z.of_nat (Z.to_nat (p - k))) with p by lia. unfold c. lia.
  - by apply NoDup_app in Hnd as (? & _).
  - done.
  - replace (k + Z.of_nat (Z.to_nat (p - k))) with p in G by lia. rewrite take_drop in E.
    exists (take c v), (drop c v), d1, D1. split; [by rewrite take_drop|]. do 2 (split; [done|]).
    split; [apply G|lia| |by rewrite (gr_owned _ _ _ _ _ _ _ G)|]; [unfold zlen in *; rewrite length_drop; unfold c; lia|].
    eapply Forall_impl; [exact Hg2|apply (gr_good _ _ _ _ _ _ _ G)].
Qed.

Lemma supply_range k n di D v : supply k n di D v → Forall (λ x, 0 ≤ x < 2 ^ 32) v.
Proof. intros S. eapply Forall_impl; [apply S|]. by intros x [? _]. Qed.

Lemma index1_good k di D : tree_ok k di D → 28 < k → good D (indirect1 di).
Proof. intros T Hk. apply (proj1 (Forall_forall _ _) (to_good _ _ _ T)). apply (owned_in k di D 28); [lia|]. apply idx_new, index1_in. Qed.

Lemma index2_good k di D : tree_ok k di D → 156 < k → good D (indirect2 di).
Proof. intros T Hk. apply (proj1 (Forall_forall _ _) (to_good _ _ _ T)). apply (owned_in k di D 156); [lia|]. apply idx_new, index2_in. Qed.

Definition set_index1 (di : DiskInode) (x : Z) : DiskInode := mkDiskInode (di_size di) (direct di) x (indirect2 di) (type_ di).
Definition set_index2 (di : DiskInode) (x : Z) : DiskInode := mkDiskInode (di_size di) (direct di) (indirect1 di) x (type_ di).

Section loops.
Context (L : gset Z) (HLs : (size L + 1 < BLOCK_CACHE_SIZE)%nat).

Lemma hold x : x ∉ L → can_hold L x.
Proof. intros. split; [done|lia]. Qed.

Lemma first_loop k p n di D v : supply k n di D v → 28 ≤ k ≤ p → (28 < p) → p ≤ n → (p ≤ 156 ∨ p = k) →
  (∀ x, x ∈ owned k di D ++ v → x ∉ L) →
  ∃ i1 u0 u D1, (if k =? 28 then next_block v else mret (indirect1 di, v)) = Done (i1, u0) ∧
    grow (Z.to_nat (p - k)) k (di, D, v) = (set_index1 di i1, D1, u) ∧
    run (cache_modify IndirectBlock i1 0 (λ l,
      '(l, u) ← lift (fill (Z.to_nat (p - k)) (k - 28) l u0); mret (u, l))) L D = FDone u L D1.
Proof.
  intros S Hk Hp28 Hn Hp HL. pose proof (su_tree _ _ _ _ _ S) as T.
  assert (Hfin : ∀ i1 u0, good D i1 → i1 ∉ L → ∀ l, length l = 128%nat → fill (Z.to_nat (p - k)) (k - 28) (words D i1) u0 = Done (l, drop (Z.to_nat (p - k)) u0) →
    run (cache_modify IndirectBlock i1 0 (λ l, '(l, u) ← lift (fill (Z.to_nat (p - k)) (k - 28) l u0); mret (u, l))) L D
      = FDone (drop (Z.to_nat (p - k)) u0) L (<[i1 := enc_arr 4 l]> D)).
  { intros i1 u0 G Hi l Hl Hf. apply run_modify_index; [done|by apply hold|done|]. by rewrite Hf. }
  pose proof (su_length _ _ _ _ _ S) as Hlen. pose proof (supply_range _ _ _ _ _ S) as Hr. pose proof (su_good _ _ _ _ _ S) as Hg.
  destruct (Z.eqb_spec k 28) as [->|E].
  - pose proof (tree_count_mono p n ltac:(lia)). assert (tree_count p = p + 1) by (unfold tree_count; rewrite (proj2 (Z.ltb_lt 28 p)), (proj2 (Z.ltb_ge 156 p)) by lia; lia).
    change (tree_count 28) with 28 in Hlen. unfold zlen in Hlen. destruct v as [|i1 u0]; [cbn in Hlen; lia|]. cbn [length] in Hlen.
    apply Forall_cons in Hr as [_ Hr]. apply Forall_cons in Hg as [Hg _].
    destruct (fill_first (Z.to_nat (p - 28)) 28 (set_index1 di i1) D u0) as (l & E1 & E2 & E3); [lia|lia|done|done|lia|].
    exists i1, u0, (drop (Z.to_nat (p - 28)) u0), (<[i1 := enc_arr 4 l]> D). split; [done|]. split.
    + rewrite grow_pop by lia. exact E3.
    + apply Hfin; [done| |done|exact E1]. apply HL. rewrite elem_of_app. right. by left.
  - assert (G1 : good D (indirect1 di)) by (apply (index1_good k); [done|lia]).
    assert (HL1 : indirect1 di ∉ L) by (apply HL; rewrite elem_of_app; left; apply (owned_in k di D 28); [lia|apply idx_new, index1_in]).
    assert (∃ l, fill (Z.to_nat (p - k)) (k - 28) (words D (indirect1 di)) v = Done (l, drop (Z.to_nat (p - k)) v) ∧ length l = 128%nat ∧
      grow (Z.to_nat (p - k)) k (di, D, v) = (di, <[indirect1 di := enc_arr 4 l]> D, drop (Z.to_nat (p - k)) v)) as (l & E1 & E2 & E3).
    { destruct Hp as [Hp| ->].
      - destruct (fill_first (Z.to_nat (p - k)) k di D v) as (l & E1 & E2 & E3); [lia|lia|done|done| |exists l; rewrite grow_puts by lia; done].
        pose proof (tree_count_mono p n ltac:(lia)). unfold tree_count at 1 in H. unfold tree_count at 2 in Hlen.
        rewrite (proj2 (Z.ltb_lt 28 p)), (proj2 (Z.ltb_ge 156 p)) in H by lia. rewrite (proj2 (Z.ltb_lt 28 k)), (proj2 (Z.ltb_ge 156 k)) in Hlen by lia. unfold zlen in Hlen. lia.
      - rewrite Z.sub_diag. cbn [Z.to_nat fill grow drop]. exists (words D (indirect1 di)). split; [done|]. split; [by apply good_words|]. by rewrite insert_words. }
    exists (indirect1 di), v, (drop (Z.to_nat (p - k)) v), (<[indirect1 di := enc_arr 4 l]> D). split; [done|]. split; [rewrite E3; by destruct di|]. by apply Hfin.
Qed.

Lemma second_run k n d (D : gmap Z block) u0 : 156 ≤ k → k ≤ n ≤ 16540 → good D (indirect2 d) → indirect2 d ∉ L → Forall (row_ok L d D) u0 →
  ((k - 156) mod 128 ≠ 0 → row_ok L d D (row_of d D k)) → length u0 = needs (Z.to_nat (n - k)) k →
  ∃ D1, puts (Z.to_nat (n - k)) k (d, D, u0) = (d, D1, []) ∧
    run (cache_modify IndirectBlock (indirect2 d) 0 (λ l,
      '(l, _) ← fill_indirect2 (Z.to_nat (n - k)) ((k - 156) / 128) ((k - 156) mod 128) l u0; mret (tt, l))) L D = FDone tt L D1.
Proof.
  intros Hk Hn G H2 Hu Hrow Hlu. destruct (G) as (_ & b2 & Hb2 & _).
  destruct (fill_second L d b2 H2 HLs (Z.to_nat (n - k)) k D u0) as (D1 & E1 & G1 & E2); [done|lia|done|done|done|lia|].
  rewrite <- Hlu, drop_all in E1, E2. exists D1. split; [done|].
  rewrite (run_modify_index L D (indirect2 d) _ (<[indirect2 d := b2]> D1) tt (words D1 (indirect2 d))); [|done|by apply hold|by apply good_words|].
  - by rewrite insert_insert_eq, insert_words.
  - rewrite run_bind. rewrite (insert_id D (indirect2 d) b2 Hb2) in E2. by rewrite E2.
Qed.

Lemma second_loop k n di D v : supply k n di D v → 156 ≤ k → 156 < n → (∀ x, x ∈ owned k di D ++ v → x ∉ L) →
  ∃ i2 u0 D1, (if k =? 156 then next_block v else mret (indirect2 di, v)) = Done (i2, u0) ∧
    grow (Z.to_nat (n - k)) k (di, D, v) = (set_index2 di i2, D1, []) ∧
    run (cache_modify IndirectBlock i2 0 (λ l,
      '(l, _) ← fill_indirect2 (Z.to_nat (n - k)) ((k - 156) / 128) ((k - 156) mod 128) l u0; mret (tt, l))) L D = FDone tt L D1.
Proof.
  intros S Hk Hn HL. pose proof (su_tree _ _ _ _ _ S) as T. pose proof (su_n _ _ _ _ _ S) as Hmax. pose proof (su_nodup _ _ _ _ _ S) as Hnd.
  pose proof (su_length _ _ _ _ _ S) as Hlen. pose proof (su_good _ _ _ _ _ S) as Hg. rewrite Forall_forall in Hg.
  pose proof (needs_count (Z.to_nat (n - k)) k Hk) as Hneed. replace (k + Z.of_nat (Z.to_nat (n - k))) with n in Hneed by lia. unfold zlen in Hlen.
  destruct (Z.eqb_spec k 156) as [->|E].
  - rewrite decide_False in Hneed by lia. destruct v as [|i2 u0]; [cbn in Hlen; lia|]. cbn [length] in Hlen. apply NoDup_app in Hnd as (_ & _ & [Hni _]%NoDup_cons).
    destruct (second_run _ n (set_index2 di i2) D u0 Hk ltac:(lia)) as (D1 & E1 & E2); [apply Hg; by left|apply HL; rewrite elem_of_app; right; by left| |done|lia|].
    + apply Forall_forall. intros x Hx. split; [apply Hg; by right|]. split; [by intros ->|]. apply HL. rewrite elem_of_app. right. by right.
    + exists i2, u0, D1. split; [done|]. split; [|exact E2]. rewrite grow_pop by lia. exact E1.
  - assert (Hin2 : indirect2 di ∈ new_of di D 156) by apply idx_new, index2_in.
    assert (H2 : indirect2 di ∈ owned k di D) by (apply (owned_in k di D 156); [lia|done]). destruct (row_start_le k Hk) as [Hrs Hrs0].
    pose proof (proj1 (proj1 (NoDup_app _ _) Hnd)) as Hnd1.
    destruct (second_run k n di D v Hk ltac:(lia)) as (D1 & E1 & E2); [by apply (index2_good k); [|lia]|apply HL; rewrite elem_of_app; by left| | |lia|].
    + apply Forall_forall. intros x Hx. split; [by apply Hg|]. split; [|apply HL; rewrite elem_of_app; by right].
      intros ->. apply NoDup_app in Hnd as (_ & Hd & _). by apply (Hd _ H2).
    + intros Hne. assert (row_start k < k) by (assert (row_start k ≠ k) by tauto; lia).
      assert (Hrin : row_of di D k ∈ new_of di D (row_start k)) by (apply idx_new, row_in; lia).
      assert (Hro : row_of di D k ∈ owned k di D) by (apply (owned_in k di D (row_start k)); [lia|done]).
      split; [by apply (proj1 (Forall_forall _ _) (to_good _ _ _ T))|]. split; [|apply HL; rewrite elem_of_app; by left]. apply (row_ne_index2 k); [done|done|lia].
    + exists (indirect2 di), v, D1. split; [done|]. split; [|exact E2]. rewrite grow_puts by lia. rewrite E1. by destruct di.
Qed.
End loops.

Definition resize (di : DiskInode) (size : Z) : DiskInode := mkDiskInode size (direct di) (indirect1 di) (indirect2 di) (type_ di).

Section increase.
Context (L : gset Z) (HLs : (size L + 1 < BLOCK_CACHE_SIZE)%nat).
Context (D : gmap Z block) (di : DiskInode) (new_size : Z) (v : list Z).
Notation m := (data_blocks di).
Notation n := (_data_blocks new_size).
Context (S : supply m n di D v) (HL : ∀ x, x ∈ owned m di D ++ v → x ∉ L).

(** [increase_size] with the blocks it needs is growth block by block. *)
Lemma increase_size_grow : ∃ di' D', grow (Z.to_nat (n - m)) m (resize di new_size, D, v) = (di', D', []) ∧
  run (increase_size di new_size v) L D = FDone di' L D' ∧ grown m n (resize di new_size) D di' D' v.
Proof.
  assert (S0 : supply m n (resize di new_size) D v) by (destruct S as [[? ? ? ?] ? ? ? ?]; split; [split|..]; assumption).
  pose proof (su_n _ _ _ _ _ S) as Hn. pose proof (to_max _ _ _ (su_tree _ _ _ _ _ S)) as Hm. set (k1 := Z.max m (Z.min n 28)).
  destruct (grow_split m k1 n (resize di new_size) D v S0) as (w1 & u1 & d1 & D1 & Ev & E1 & G1 & S1); [lia|].
  assert (Hf : fill (Z.to_nat (Z.min n 28 - m)) m (direct di) v = Done (direct d1, u1) ∧ d1 = mkDiskInode new_size (direct d1) (indirect1 di) (indirect2 di) (type_ di) ∧ D1 = D).
  { destruct (decide (m < Z.min n 28)) as [Hlt|Hge].
    - pose proof (su_length _ _ _ _ _ S) as Hlen. pose proof (tree_count_mono k1 n ltac:(lia)) as Hmo. replace k1 with (Z.min n 28) in * by lia.
      unfold tree_count in Hlen at 2. unfold tree_count in Hmo at 1.
      rewrite (proj2 (Z.ltb_ge 28 m)), (proj2 (Z.ltb_ge 156 m)) in Hlen by lia. rewrite (proj2 (Z.ltb_ge 28 (Z.min n 28))), (proj2 (Z.ltb_ge 156 (Z.min n 28))) in Hmo by lia.
      destruct (fill_direct (Z.to_nat (Z.min n 28 - m)) m (resize di new_size) D v) as (d & F1 & F2); [lia|lia|apply S0|unfold zlen in Hlen; lia|].
      rewrite F2 in E1. injection E1 as <- <- <-. done.
    - replace (Z.to_nat (Z.min n 28 - m)) with O by lia. replace (Z.to_nat (k1 - m)) with O in E1 by lia. cbn in E1. injection E1 as <- <- <-. done. }
  destruct Hf as (Hf & Ed1 & ->). assert (Ei : indirect1 d1 = indirect1 di ∧ indirect2 d1 = indirect2 di ∧ type_ d1 = type_ di ∧ di_size d1 = new_size) by (rewrite Ed1; done).
  destruct Ei as (Ei1 & Ei2 & Et & Esz). assert (HL1 : ∀ x, x ∈ owned k1 d1 D ++ u1 → x ∉ L).
  { intros x Hx. apply HL. rewrite (gr_owned _ _ _ _ _ _ _ G1), <- app_assoc in Hx. rewrite Ev. exact Hx. }
  unfold increase_size. cbv zeta. change (data_blocks (mkDiskInode new_size (direct di) (indirect1 di) (indirect2 di) (type_ di))) with n.
  change INODE_DIRECT_COUNT with 28. rewrite INODE_INDIRECT1_COUNT_eq. cbn [direct indirect1 indirect2 type_ di_size]. rewrite run_bind, Hf. cbn [lift run]. fold k1.
  destruct (Z.leb_spec n 28) as [H28|H28].
  { assert (k1 = n) as Ek by lia. rewrite Ek in *. exists d1, D. pose proof (su_length _ _ _ _ _ S1) as Hz. rewrite Z.sub_diag in Hz.
    assert (u1 = []) as -> by (destruct u1; [done|unfold zlen in Hz; cbn in Hz; lia]). rewrite app_nil_r in Ev. subst w1. split; [done|]. rewrite <- Ed1. done. }
  assert (Hk1 : 28 ≤ k1) by lia. set (k2 := Z.max k1 (Z.min n 156)).
  destruct (first_loop L HLs k1 k2 n d1 D u1 S1) as (i1 & u0 & u2 & D2 & F1 & F2 & F3); [lia|lia|lia|lia|done|].
  destruct (grow_split k1 k2 n d1 D u1 S1) as (w2 & u2' & d2 & D2' & Ev2 & E2 & G2 & S2); [lia|]. rewrite F2 in E2. injection E2 as <- <- <-.
  pose proof (grown_trans m k1 k2 _ _ _ _ _ _ _ _ ltac:(lia) G1 G2) as G12.
  assert (Hgrow : grow (Z.to_nat (n - m)) m (resize di new_size, D, v) = grow (Z.to_nat (n - k2)) k2 (set_index1 d1 i1, D2, u2)).
  { replace (Z.to_nat (n - m)) with (Z.to_nat (k1 - m) + (Z.to_nat (k2 - k1) + Z.to_nat (n - k2)))%nat by lia.
    rewrite grow_app, E1, grow_app. replace (m + Z.of_nat (Z.to_nat (k1 - m))) with k1 by lia. rewrite F2. f_equal; lia. }
  assert (Epop : (if k1 =? 28 then next_block u1 else mret (indirect1 di, u1)) = Done (i1, u0)).
  { by rewrite <- Ei1. }
  rewrite run_bind, Epop. cbn [lift run]. rewrite (wrap_small 32 (k1 - 28)), (wrap_small 32 (n - 28)) by lia.
  assert (Efill : Z.to_nat (Z.min (n - 28) 128 - (k1 - 28)) = Z.to_nat (k2 - k1)) by lia. rewrite Efill, run_bind, F3.
  destruct (Z.leb_spec (n - 28) 128) as [H156|H156].
  { assert (k2 = n) as Ek by lia. rewrite Ek in *. exists (set_index1 d1 i1), D2. pose proof (su_length _ _ _ _ _ S2) as Hz. rewrite Z.sub_diag in Hz.
    assert (u2 = []) as -> by (destruct u2; [done|unfold zlen in Hz; cbn in Hz; lia]). rewrite app_nil_r in Ev2.
    split; [rewrite Hgrow, Z.sub_diag; done|]. split; [|by rewrite Ev, Ev2]. unfold set_index1. by rewrite Ei2, Et, Esz. }
  destruct (second_loop L HLs k2 n (set_index1 d1 i1) D2 u2 S2) as (i2 & u3 & D3 & P1 & P2 & P3); [lia|lia| |].
  { intros x Hx. apply HL. rewrite (gr_owned _ _ _ _ _ _ _ G12), <- app_assoc in Hx. rewrite Ev, Ev2, (app_assoc w1). exact Hx. }
  destruct (grow_split k2 n n (set_index1 d1 i1) D2 u2 S2) as (w3 & u3' & d3 & D3' & Ev3 & E3 & G3 & _); [lia|]. rewrite P2 in E3. injection E3 as <- <- <-.
  exists (set_index2 (set_index1 d1 i1) i2), D3. rewrite Hgrow. split; [done|]. rewrite app_nil_r in Ev3.
  split; [|rewrite Ev, Ev2, Ev3, app_assoc; exact (grown_trans m k2 n _ _ _ _ _ _ _ _ ltac:(lia) G12 G3)].
  assert (Ek2 : Z.max (k1 - 28) (Z.min (n - 28) 128) = k2 - 28) by lia. rewrite Ek2.
  assert (Epop2 : (if k2 - 28 =? 128 then next_block u2 else mret (indirect2 di, u2)) = Done (i2, u3)).
  { destruct (Z.eqb_spec (k2 - 28) 128), (Z.eqb_spec k2 156); try lia; rewrite <- P1; [done|]. cbn [indirect2 set_index1]. by rewrite Ei2. }
  rewrite run_bind, Epop2. cbn [lift run]. rewrite (wrap_small 32 (k2 - 28 - 128)), (wrap_small 32 (n - 28 - 128)) by lia.
  replace (n - 28 - 128 - (k2 - 28 - 128)) with (n - k2) by lia. replace (k2 - 28 - 128) with (k2 - 156) by lia.
  rewrite run_bind, P3. unfold set_index2, set_index1. cbn [di_size direct indirect1 type_]. by rewrite Et, Esz.
Qed.
End increase.

(** ** The blocks as the other operations see them *)

Section tree.
Context (n : Z) (di : DiskInode) (D : gmap Z block) (T : tree_ok n di D).

Lemma tree_good k x : 0 ≤ k < n → x ∈ new_of di D k → good D x.
Proof. intros Hk Hx. apply (proj1 (Forall_forall _ _) (to_good _ _ _ T)). by apply (owned_in n di D k). Qed.

Lemma idx_word_good x j : good D x → 0 ≤ j < 128 → idx_word D x j = Some (word D x j).
Proof.
  intros G Hj. rewrite idx_word_words. unfold word.
  destruct (lookup_lt_is_Some_2 (words D x) (Z.to_nat j)) as [y Hy]; [rewrite (proj1 (good_words D x G)); lia|]. by rewrite Hy.
Qed.

Lemma tree_index1 k : 28 ≤ k < n → good D (indirect1 di) ∧ indirect1 di ∈ new_of di D 28.
Proof. intros Hk. assert (indirect1 di ∈ new_of di D 28) by apply idx_new, index1_in. split; [|done]. by apply (tree_good 28); [lia|]. Qed.

Lemma tree_index2 k : 156 ≤ k < n → good D (indirect2 di) ∧ indirect2 di ∈ new_of di D 156.
Proof. intros Hk. assert (indirect2 di ∈ new_of di D 156) by apply idx_new, index2_in. split; [|done]. by apply (tree_good 156); [lia|]. Qed.

Lemma tree_row k : 156 ≤ k < n → good D (row_of di D k) ∧ row_of di D k ∈ new_of di D (row_start k) ∧ 156 ≤ row_start k ≤ k.
Proof.
  intros Hk. destruct (row_start_le k) as [Hr _]; [lia|]. assert (row_of di D k ∈ new_of di D (row_start k)) by (apply idx_new, row_in; lia).
  split; [|done]. by apply (tree_good (row_start k)); [lia|].
Qed.

Lemma tree_block k : 0 ≤ k < n → inode_block di D k = Some (data_of di D k).
Proof.
  intros Hk. pose proof (to_max _ _ _ T). unfold inode_block, data_of. destruct (Z.ltb_spec k 28).
  - destruct (lookup_lt_is_Some_2 (direct di) (Z.to_nat k)) as [x Hx]; [rewrite (to_direct _ _ _ T); lia|]. by rewrite Hx.
  - destruct (Z.ltb_spec k 156).
    + apply idx_word_good; [apply (tree_index1 k); lia|lia].
    + rewrite idx_word_good by first [apply (tree_index2 k); lia | dlia]. cbn [mbind option_bind]. apply idx_word_good; [apply (tree_row k); lia|dlia].
Qed.

Lemma tree_data k : data_of di D k ∈ new_of di D k.
Proof. unfold new_of. rewrite elem_of_app. right. by left. Qed.

(** The index blocks above data block [k], with the data block they came with. *)
Lemma tree_path k x : 0 ≤ k < n → x ∈ index_of di D k → ∃ j, 0 ≤ j ≤ k ∧ x ∈ idx_of di D j.
Proof.
  intros Hk Hx. pose proof (to_max _ _ _ T). unfold index_of in Hx. destruct (Z.ltb_spec k 28); [by apply not_elem_of_nil in Hx|]. destruct (Z.ltb_spec k 156).
  - apply list_elem_of_singleton in Hx as ->. exists 28. split; [lia|apply index1_in].
  - rewrite idx_word_good in Hx by first [apply (tree_index2 k); lia | dlia]. cbn in Hx. apply elem_of_cons in Hx as [->|Hx%list_elem_of_singleton].
    + exists 156. split; [lia|apply index2_in].
    + subst x. exists (row_start k). split; [destruct (row_start_le k); lia|]. apply row_in. lia.
Qed.

(** No data block is an index block. *)
Lemma data_not_index k j : 0 ≤ k < n → 0 ≤ j < n → data_of di D k ∉ idx_of di D j.
Proof.
  intros Hk Hj Hin. pose proof (to_nodup _ _ _ T) as Hnd. destruct (decide (k = j)) as [->|Hne].
  - pose proof (owned_new n di D j Hnd Hj) as Hn. apply NoDup_app in Hn as (_ & Hd & _). apply (Hd _ Hin). by left.
  - apply (owned_apart n di D k j (data_of di D k) Hnd Hk Hj Hne (tree_data k)). by apply idx_new.
Qed.

Lemma data_not_indexes k : 0 ≤ k < n → data_of di D k ∉ indexes n di D.
Proof. intros Hk (j & Hin & Hj%elem_of_seqZ)%list_elem_of_bind. by apply (data_not_index k j); [|lia|]. Qed.

Lemma data_inj j k : 0 ≤ j < n → 0 ≤ k < n → data_of di D j = data_of di D k → j = k.
Proof.
  intros Hj Hk E. destruct (decide (j = k)) as [|Hne]; [done|]. exfalso.
  apply (owned_apart n di D j k (data_of di D j) (to_nodup _ _ _ T) Hj Hk Hne (tree_data j)). rewrite E. apply tree_data.
Qed.

Lemma tree_file L : n = data_blocks di → 0 ≤ di_size di ≤ INDIRECT2_BOUND * 512 → (size L < BLOCK_CACHE_SIZE)%nat →
  (∀ x, x ∈ owned n di D → x ∉ L) → file_ok L D di ∧ file_sep D di.
Proof.
  intros En Hs HLs HL. assert (Hu : ∀ k x, 0 ≤ k < n → x ∈ new_of di D k → usable L D x).
  { intros k x Hk Hx. destruct (tree_good k x Hk Hx) as (_ & b & Hb & Hwf). exists b. do 2 (split; [done|]). split; [|done].
    apply HL. by apply (owned_in n di D k). }
  split; split; rewrite <- ?En; try done.
  - apply T.
  - intros k x Hk Hx. destruct (tree_path k x Hk Hx) as (j & Hj & Hin). apply (Hu j); [lia|by apply idx_new].
  - intros k Hk. exists (data_of di D k). split; [by apply tree_block|]. apply (Hu k); [done|apply tree_data].
  - intros j k id Hj Hk Ej Ek. rewrite tree_block in Ej, Ek by done. apply data_inj; [done|done|congruence].
  - intros j k id Hj Hk Ej Hin. rewrite tree_block in Ej by done. injection Ej as <-. destruct (tree_path k _ Hk Hin) as (i & Hi & Hx).
    by apply (data_not_index j i); [|lia|].
  - intros k Hk. unfold index_of. destruct (Z.ltb_spec k 28); [apply NoDup_nil_2|]. destruct (Z.ltb_spec k 156); [apply NoDup_singleton|].
    pose proof (to_max _ _ _ T). rewrite idx_word_good by first [apply (tree_index2 k); lia | dlia]. cbn [option_list]. apply NoDup_cons. split; [|apply NoDup_singleton].
    intros Heq%list_elem_of_singleton. apply (row_ne_index2 n di D k (to_nodup _ _ _ T)); [lia|destruct (row_start_le k); lia|by rewrite Heq].
Qed.

Lemma owned_where x : x ∈ owned n di D → ∃ k, 0 ≤ k < n ∧ x ∈ new_of di D k.
Proof. intros (k & Hx & Hk%elem_of_seqZ)%list_elem_of_bind. exists k. split; [lia|done]. Qed.

(** What [clear_size] returns is the file's blocks. *)
Lemma all_blocks_owned (L : gset Z) : n = data_blocks di → 0 ≤ di_size di ≤ INDIRECT2_BOUND * 512 → (size L + 1 < BLOCK_CACHE_SIZE)%nat →
  (∀ x, x ∈ owned n di D → x ∉ L) → owned n di D ≡ₚ all_blocks di D.
Proof.
  intros En Hs HLs HL. destruct (tree_file L En Hs ltac:(lia) HL) as [F S]. apply submseteq_length_Permutation.
  - apply NoDup_submseteq; [apply T|]. intros x Hx. destruct (owned_where x Hx) as (k & Hk & Hin). rewrite En in Hk.
    unfold new_of in Hin. apply elem_of_app in Hin as [Hin|Hin%list_elem_of_singleton].
    + assert (∃ j, 0 ≤ j < data_blocks di ∧ x ∈ index_of di D j) as (j & Hj & Hx'); [|apply (all_blocks_complete L D di F S HLs j x Hj); by right].
      pose proof (to_max _ _ _ T). unfold idx_of in Hin. exists k. split; [done|]. unfold index_of.
      rewrite !elem_of_app in Hin. destruct Hin as [Hin|[Hin|Hin]].
      * destruct (Z.eqb_spec k 28) as [->|]; [|by apply not_elem_of_nil in Hin]. apply list_elem_of_singleton in Hin as ->. by left.
      * destruct (Z.eqb_spec k 156) as [->|]; [|by apply not_elem_of_nil in Hin]. apply list_elem_of_singleton in Hin as ->. by left.
      * destruct (Z.leb_spec 156 k); [|by apply not_elem_of_nil in Hin]. destruct (_ =? 0); [|by apply not_elem_of_nil in Hin].
        apply list_elem_of_singleton in Hin as ->. rewrite (proj2 (Z.ltb_ge k 28)), (proj2 (Z.ltb_ge k 156)) by lia. right.
        rewrite idx_word_good by first [apply (tree_index2 k); lia | dlia]. cbn. by left.
    + subst x. apply (all_blocks_complete L D di F S HLs k _ Hk). left. apply tree_block. by rewrite En.
  - apply Nat2Z.inj_le. rewrite (length_all_blocks L D di F S), tree_count_total by done. fold (data_blocks di). rewrite <- En.
    rewrite <- (length_owned n di D) by (by destruct (to_max _ _ _ T)). unfold zlen. lia.
Qed.
End tree.

(** Where the blocks of a file are, its index blocks say. *)
Lemma tree_frame_idx n di D D' : tree_ok n di D → (∀ x, x ∈ indexes n di D → D' !! x = D !! x) → Forall (good D') (owned n di D) →
  tree_ok n di D' ∧ owned n di D' = owned n di D ∧ ∀ k, 0 ≤ k < n → data_of di D' k = data_of di D k.
Proof.
  intros T H HG. assert (Hw : ∀ k x, 0 ≤ k < n → x ∈ idx_of di D k → ∀ j, word D' x j = word D x j).
  { intros k x Hk Hx j. unfold word, words. rewrite H; [done|]. apply list_elem_of_bind. exists k. split; [done|]. apply elem_of_seqZ. lia. }
  assert (Hr : ∀ k, 156 ≤ k < n → row_of di D' k = row_of di D k) by (intros k Hk; apply (Hw 156); [lia|apply index2_in]).
  assert (Hi : ∀ k, 0 ≤ k < n → idx_of di D' k = idx_of di D k).
  { intros k Hk. unfold idx_of. do 2 f_equal. destruct (Z.leb_spec 156 k); [by rewrite Hr by lia|done]. }
  assert (Hd : ∀ k, 0 ≤ k < n → data_of di D' k = data_of di D k).
  { intros k Hk. unfold data_of. destruct (Z.ltb_spec k 28); [done|]. destruct (Z.ltb_spec k 156); [apply (Hw 28); [lia|apply index1_in]|].
    rewrite Hr by lia. apply (Hw (row_start k)); [destruct (row_start_le k); lia|]. apply row_in. lia. }
  assert (Ho : owned n di D' = owned n di D) by (apply owned_ext; intros j Hj; unfold new_of; by rewrite Hi, Hd).
  split; [|done]. destruct T as [T1 T2 T3 T4]. split; by rewrite ?Ho.
Qed.

Lemma indexes_owned n di D x : x ∈ indexes n di D → x ∈ owned n di D.
Proof. intros (j & Hin & Hj)%list_elem_of_bind. apply list_elem_of_bind. exists j. split; [by apply idx_new|done]. Qed.

Lemma tree_frame n di D D' : tree_ok n di D → (∀ x, x ∈ owned n di D → D' !! x = D !! x) →
  tree_ok n di D' ∧ owned n di D' = owned n di D ∧ ∀ k, 0 ≤ k < n → data_of di D' k = data_of di D k.
Proof.
  intros T H. apply tree_frame_idx; [done|by intros x Hx%indexes_owned; apply H|].
  pose proof (to_good _ _ _ T) as T4. rewrite Forall_forall in T4 |- *. intros x Hx. destruct (T4 x Hx) as (Hx' & b & Hb & Hwf).
  split; [done|]. exists b. by rewrite H.
Qed.

(** C25. [increase_size] with its three phases - direct blocks, the first index block, the second
    level by rows - is the same as taking the blocks of the file one by one ([grow], where [grow1]
    takes for data block [k] the index blocks that start with it, then the block itself): it uses
    every block of [v] once and in order, none is left over or missing, the file's old blocks
    stay where they are, and only index blocks are written. *)
Theorem increase_size_block_by_block L D di new_size v :
  (size L + 1 < BLOCK_CACHE_SIZE)%nat → supply (data_blocks di) (_data_blocks new_size) di D v →
  (∀ x, x ∈ owned (data_blocks di) di D ++ v → x ∉ L) →
  ∃ di' D', grow (Z.to_nat (_data_blocks new_size - data_blocks di)) (data_blocks di) (resize di new_size, D, v) = (di', D', []) ∧
    run (increase_size di new_size v) L D = FDone di' L D' ∧
    owned (_data_blocks new_size) di' D' = owned (data_blocks di) di D ++ v ∧
    (∀ j, 0 ≤ j < data_blocks di → inode_block di' D' j = inode_block di D j) ∧
    (∀ x, x ∉ indexes (_data_blocks new_size) di' D' → D' !! x = D !! x).
Proof.
  intros HLs S HL. destruct (increase_size_grow L HLs D di new_size v S HL) as (di' & D' & Eg & Hr & G). exists di', D'. split; [done|]. split; [done|].
  split; [apply G|]. split; [|apply G]. intros j Hj. pose proof (su_n _ _ _ _ _ S). rewrite (tree_block _ di' D' (gr_tree _ _ _ _ _ _ _ G)) by lia.
  rewrite (tree_block _ di D (su_tree _ _ _ _ _ S)) by done. f_equal. by apply (gr_data _ _ _ _ _ _ _ G).
Qed.

(** An empty file that grows to 300 blocks on a disk of zeros: two index blocks and two rows. *)
Definition empty_inode : DiskInode := mkDiskInode 0 (replicate 28 0) 0 0 File.
Definition zero_disk : gmap Z block := gset_to_gmap (replicate BLOCK_SZ 0) (list_to_set (seqZ 1 400)).

Lemma increase_size_block_by_block_witness :
  ∃ di' D', run (increase_size empty_inode (300 * 512) (seqZ 1 304)) ∅ zero_disk = FDone di' ∅ D' ∧ owned 300 di' D' = seqZ 1 304.
Proof.
  destruct (increase_size_block_by_block ∅ zero_disk empty_inode (300 * 512) (seqZ 1 304)) as (di' & D' & _ & Hr & Ho & _).
  - rewrite size_empty. unfold BLOCK_CACHE_SIZE. lia.
  - split; [split; [reflexivity|split; by vm_compute|apply NoDup_nil_2|constructor]|split; by vm_compute|by vm_compute|apply NoDup_seqZ|].
    apply Forall_forall. intros x Hx%elem_of_seqZ. split; [lia|]. exists (replicate BLOCK_SZ 0). split.
    + apply lookup_gset_to_gmap_Some. split; [|reflexivity]. apply elem_of_list_to_set, elem_of_seqZ. lia.
    + split; [reflexivity|]. apply Forall_replicate. unfold byte_ok. lia.
  - intros x _. apply not_elem_of_empty.
  - exists di', D'. split; [exact Hr|exact Ho].
Defined.
