(* ===== verification/FsInv.v ===== *)
(** * FsInv.v: the file system as a whole

    The invariant of a disk of easy-fs: every inode in use has a file whose blocks, index blocks
    included, are in the data area, belong to it alone and are the set bits of the data bitmap; free
    blocks are zero, and so is the part of a last block past the end of its file.  [contents] is
    what a user of the file system sees: for each inode in use its type and its bytes. *)

From S2P Require Import Prelude Bytes BlockProg Bitmap Layout DiskInode Efs Vfs FileGrow.

(** The areas of the disk, one behind the other. *)
Record geometry (efs : EasyFileSystem) (total : Z) : Prop := {
  ge_ib : start_block_id (inode_bitmap efs) = 1;
  ge_ibn : 1 ≤ blocks (inode_bitmap efs);
  ge_ia : inode_area_start_block efs = 1 + blocks (inode_bitmap efs);
  ge_db : start_block_id (data_bitmap efs) = inode_area_start_block efs + 1024 * blocks (inode_bitmap efs);
  ge_dbn : 0 ≤ blocks (data_bitmap efs);
  ge_da : data_area_start_block efs = start_block_id (data_bitmap efs) + blocks (data_bitmap efs);
  ge_total : data_area_start_block efs ≤ total < 2 ^ 32;
  ge_cover : total - data_area_start_block efs ≤ blocks (data_bitmap efs) * 4096;
}.

(** ** Files *)

Definition own (D : gmap Z block) (di : DiskInode) : list Z := owned (data_blocks di) di D.

Record file_inv (D : gmap Z block) (di : DiskInode) : Prop := {
  fi_tree : tree_ok (data_blocks di) di D;
  fi_size : 0 ≤ di_size di ≤ INDIRECT2_BOUND * 512;
  fi_tail : ∀ i, di_size di ≤ i < data_blocks di * 512 → file_byte di D i = Some 0;
}.

Definition content (D : gmap Z block) (di : DiskInode) : list Z :=
  (λ j, default 0 (file_byte di D j)) <$> seqZ 0 (di_size di).

Lemma length_content D di : length (content D di) = Z.to_nat (di_size di).
Proof. unfold content. by rewrite length_fmap, length_seqZ. Qed.

Lemma content_lookup D di i : 0 ≤ i < di_size di → content D di !! Z.to_nat i = Some (default 0 (file_byte di D i)).
Proof.
  intros Hi. unfold content. rewrite list_lookup_fmap, (lookup_seqZ_lt 0) by lia. cbn [fmap option_fmap option_map]. do 3 f_equal. lia.
Qed.

Lemma size_blocks di : 0 ≤ di_size di ≤ INDIRECT2_BOUND * 512 →
  0 ≤ data_blocks di ≤ 16540 ∧ data_blocks di * 512 - 512 < di_size di ≤ data_blocks di * 512.
Proof. intros H. unfold data_blocks. rewrite data_blocks_small by done. rewrite INDIRECT2_BOUND_eq in H. dlia. Qed.

(** Byte [i] of a file of which block [i / 512] is there. *)
Lemma byte_of n di D i : tree_ok n di D → 0 ≤ i < n * 512 →
  ∃ b, D !! data_of di D (i / 512) = Some b ∧ wf_block b ∧ file_byte di D i = b !! Z.to_nat (i mod 512) ∧ is_Some (b !! Z.to_nat (i mod 512)).
Proof.
  intros T Hi. assert (Hk : 0 ≤ i / 512 < n) by dlia. destruct (tree_good n di D T _ _ Hk (tree_data di D _)) as (_ & b & Hb & Hwf).
  exists b. do 2 (split; [done|]). unfold file_byte. rewrite (tree_block n di D T) by done. cbn [mbind option_bind]. rewrite Hb. split; [done|].
  apply lookup_lt_is_Some_2. destruct Hwf as [-> _]. unfold BLOCK_SZ. dlia.
Qed.

Lemma file_byte_eq n di D di' D' i : tree_ok n di D → tree_ok n di' D' → 0 ≤ i < n * 512 → data_of di' D' (i / 512) = data_of di D (i / 512) →
  D' !! data_of di D (i / 512) = D !! data_of di D (i / 512) → file_byte di' D' i = file_byte di D i.
Proof.
  intros T T' Hi E1 E2. destruct (byte_of n di D i T Hi) as (b & Hb & _ & -> & _). destruct (byte_of n di' D' i T' Hi) as (b' & Hb' & _ & -> & _).
  rewrite E1, E2, Hb in Hb'. by injection Hb' as <-.
Qed.

Lemma file_frame D D' di : file_inv D di → (∀ x, x ∈ own D di → D' !! x = D !! x) →
  file_inv D' di ∧ own D' di = own D di ∧ content D' di = content D di.
Proof.
  intros [T Hs Ht] H. destruct (tree_frame _ _ _ _ T H) as (T' & Ho & Hd). destruct (size_blocks di Hs) as [_ Hb].
  assert (Hby : ∀ i, 0 ≤ i < data_blocks di * 512 → file_byte di D' i = file_byte di D i).
  { intros i Hi. apply (file_byte_eq (data_blocks di)); [done|done|done|apply Hd; dlia|]. apply H, (owned_in _ _ _ (i / 512)); [dlia|apply tree_data]. }
  split; [split; [done|done|]|split; [done|]].
  - intros i Hi. rewrite Hby by lia. by apply Ht.
  - unfold content. apply list_fmap_ext. intros i j Hj. apply lookup_seqZ in Hj as [-> Hj]. rewrite Hby by lia. done.
Qed.

(** ** The invariant *)

Section fs.
Context (efs : EasyFileSystem) (total : Z) (Ge : geometry efs total).
Notation ib := (inode_bitmap efs).
Notation db := (data_bitmap efs).
Notation ia := (inode_area_start_block efs).
Notation da := (data_area_start_block efs).
Notation inodes := (blocks (inode_bitmap efs) * 4096).

Definition used (D : gmap Z block) (x : Z) : Prop := bit_at db D (x - da) = true.

(** The blocks: [N] are the inodes in use, [R] blocks that are allocated and no file's yet, or no more. *)
Record store_ok (D : gmap Z block) (N : gmap Z DiskInode) (R : list Z) : Prop := {
  so_disk : ∀ id, 0 ≤ id < total → ∃ b, D !! id = Some b ∧ wf_block b;
  so_inodes : ∀ i, is_Some (N !! i) ↔ 0 ≤ i < inodes ∧ bit_at ib D i = true;
  so_file : ∀ i di, N !! i = Some di → file_inv D di;
  so_apart : ∀ i j di dj x, N !! i = Some di → N !! j = Some dj → x ∈ own D di → x ∈ own D dj → i = j;
  so_nodup : NoDup R;
  so_reserved : ∀ i di x, N !! i = Some di → x ∈ own D di → x ∉ R;
  so_area : ∀ i di x, N !! i = Some di → x ∈ own D di → da ≤ x < total ∧ used D x;
  so_rarea : ∀ x, x ∈ R → da ≤ x < total ∧ used D x;
  so_used : ∀ x, da ≤ x < total → used D x → x ∈ R ∨ ∃ i di, N !! i = Some di ∧ x ∈ own D di;
  so_zero : ∀ x, da ≤ x < total → ¬ used D x → D !! x = Some zeros;
}.

(** The table of disk inodes, four in each block of the inode area. *)
Definition slot (D : gmap Z block) (i : Z) : outcome DiskInode :=
  match D !! (ia + i / 4) with Some b => view_block DiskInodeC (Z.to_nat (i mod 4 * 128)) b | None => Panicked PInvalid end.

Record table_ok (D : gmap Z block) (N : gmap Z DiskInode) : Prop := {
  ta_slot : ∀ i, 0 ≤ i < inodes → ∃ di, slot D i = Done di;
  ta_inode : ∀ i di, N !! i = Some di → slot D i = Done di;
}.

Definition fs_ok (D : gmap Z block) (N : gmap Z DiskInode) : Prop := store_ok D N [] ∧ table_ok D N.

(** What a user sees. *)
Definition contents (D : gmap Z block) (N : gmap Z DiskInode) : gmap Z (DiskInodeType * list Z) :=
  (λ di, (type_ di, content D di)) <$> N.

(** ** Frames *)

Lemma areas : 1 + blocks ib = ia ∧ start_block_id db = ia + 1024 * blocks ib ∧ da = start_block_id db + blocks db ∧
  1 ≤ blocks ib ∧ 0 ≤ blocks db ∧ da ≤ total < 2 ^ 32.
Proof. destruct Ge. lia. Qed.

Lemma bit_frame bm D D' i : (∀ k, 0 ≤ k < blocks bm → D' !! (start_block_id bm + k) = D !! (start_block_id bm + k)) →
  0 ≤ i < blocks bm * BLOCK_BITS → bit_at bm D' i = bit_at bm D i.
Proof. intros H Hi. unfold bit_at. by rewrite H by by apply bit_pos_range. Qed.

Lemma used_range x : da ≤ x < total → 0 ≤ x - da < blocks db * BLOCK_BITS.
Proof. intros. destruct Ge. change BLOCK_BITS with 4096. lia. Qed.

(** The blocks of the inode area may change. *)
Lemma store_frame D D' N R : store_ok D N R → (∀ id, ¬ (ia ≤ id < start_block_id db) → D' !! id = D !! id) →
  (∀ id, ia ≤ id < start_block_id db → ∃ b, D' !! id = Some b ∧ wf_block b) →
  store_ok D' N R ∧ contents D' N = contents D N.
Proof.
  intros S H Hwf. pose proof areas as A.
  assert (Hib : ∀ i, 0 ≤ i < inodes → bit_at ib D' i = bit_at ib D i).
  { intros i Hi. apply bit_frame; [|done]. intros k Hk. apply H. destruct Ge. lia. }
  assert (Hu : ∀ x, da ≤ x < total → (used D' x ↔ used D x)).
  { intros x Hx. unfold used. rewrite (bit_frame db D D'); [done| |by apply used_range]. intros k Hk. apply H. lia. }
  assert (Hd : ∀ x, da ≤ x < total → D' !! x = D !! x) by (intros x Hx; apply H; lia).
  assert (Hf : ∀ i di, N !! i = Some di → file_inv D' di ∧ own D' di = own D di ∧ content D' di = content D di).
  { intros i di Hi. apply file_frame; [by eapply so_file|]. intros x Hx. apply Hd. by eapply (so_area _ _ _ S). }
  assert (Ho : ∀ i di, N !! i = Some di → own D' di = own D di) by (intros; by eapply Hf).
  split.
  - split.
    + intros id Hid. destruct (decide (ia ≤ id < start_block_id db)); [by apply Hwf|]. rewrite H by done. by apply (so_disk _ _ _ S).
    + intros i. rewrite (so_inodes _ _ _ S). split; intros [? ?]; (split; [done|]); [by rewrite Hib|by rewrite <- Hib].
    + intros i di Hi. by eapply Hf.
    + intros i j di dj x Hi Hj. rewrite (Ho i di Hi), (Ho j dj Hj). by apply (so_apart _ _ _ S).
    + apply S.
    + intros i di x Hi. rewrite (Ho i di Hi). by apply (so_reserved _ _ _ S i).
    + intros i di x Hi. rewrite (Ho i di Hi). intros Hx. destruct (so_area _ _ _ S i di x Hi Hx). split; [done|]. by apply Hu.
    + intros x Hx. destruct (so_rarea _ _ _ S x Hx). split; [done|]. by apply Hu.
    + intros x Hx Hux. apply Hu in Hux; [|done]. destruct (so_used _ _ _ S x Hx Hux) as [?|(i & di & Hi & Hin)]; [by left|right].
      exists i, di. split; [done|]. by rewrite (Ho i di Hi).
    + intros x Hx Hux. rewrite Hd by done. apply (so_zero _ _ _ S); [done|]. by rewrite <- Hu.
  - unfold contents. apply map_fmap_ext. intros i di Hi. f_equal. by eapply Hf.
Qed.

(** A disk inode that is written to its place. *)
Lemma slot_pos i : 0 ≤ i < inodes → ia ≤ ia + i / 4 < start_block_id db ∧ (Z.to_nat (i mod 4 * 128) + 128 ≤ BLOCK_SZ)%nat.
Proof. intros Hi. pose proof areas. unfold BLOCK_SZ. split; dlia. Qed.

Lemma slot_frame D D' i : D' !! (ia + i / 4) = D !! (ia + i / 4) → slot D' i = slot D i.
Proof. intros H. unfold slot. by rewrite H. Qed.

Lemma slot_write D i j b di : 0 ≤ i < inodes → 0 ≤ j < inodes → D !! (ia + i / 4) = Some b → length b = BLOCK_SZ → DiskInode_ok di →
  slot (<[ia + i / 4 := splice (Z.to_nat (i mod 4 * 128)) (cenc DiskInodeC di) b]> D) j = if decide (i = j) then Done di else slot D j.
Proof.
  intros Hi Hj Hb Hl Hok. destruct (slot_pos i Hi) as [_ Hfi]. destruct (slot_pos j Hj) as [_ Hfj]. pose proof (length_DiskInode_enc di (proj1 Hok)) as He. unfold slot.
  destruct (decide (i / 4 = j / 4)) as [E|E].
  - rewrite <- E, lookup_insert_eq, Hb. case_decide as Hij.
    + subst j. by apply (view_block_write DiskInodeC _ DiskInodeC_ok).
    + unfold view_block. f_equal. rewrite !slice_splice_ne; [done|lia|]. cbn [csize DiskInodeC] in *. rewrite He.
      assert (i mod 4 < j mod 4 ∨ j mod 4 < i mod 4) by dlia. assert (0 ≤ i mod 4 < 4) by dlia. assert (0 ≤ j mod 4 < 4) by dlia. lia.
  - rewrite lookup_insert_ne by lia. case_decide; [congruence|done].
Qed.

(** ** Allocation *)

Definition free_blocks (D : gmap Z block) : gset Z :=
  filter (λ x, bit_at db D (x - da) = false) (list_to_set (seqZ da (total - da))).

Lemma elem_of_free D x : x ∈ free_blocks D ↔ da ≤ x < total ∧ ¬ used D x.
Proof.
  unfold free_blocks, used. rewrite elem_of_filter, elem_of_list_to_set, elem_of_seqZ, not_true_iff_false. split; intros [? ?]; (split; [lia || done|]); lia || done.
Qed.

(** No guard that is held is of a bitmap or the data area. *)
Definition guards (L : gset Z) : Prop := (size L + 2 < BLOCK_CACHE_SIZE)%nat ∧ ∀ x, x ∈ L → ia ≤ x < start_block_id db.

Lemma guards_hold L x : guards L → ¬ (ia ≤ x < start_block_id db) → can_hold L x.
Proof. intros [H1 H2] Hx. split; [by intros ?%H2|lia]. Qed.

Lemma data_bitmap_ok L D N R : guards L → store_ok D N R → bitmap_ok db L D.
Proof.
  intros HL S. pose proof areas as A. split; [lia|lia|lia|]. intros k Hk. destruct (so_disk _ _ _ S (start_block_id db + k)) as (b & Hb & Hwf); [lia|].
  exists b. do 2 (split; [done|]). apply guards_hold; [done|lia].
Qed.

Lemma inode_bitmap_ok L D N R : guards L → store_ok D N R → bitmap_ok ib L D.
Proof.
  intros HL S. pose proof areas as A. pose proof (ge_ib _ _ Ge) as E. split; [lia|lia|lia|]. intros k Hk.
  destruct (so_disk _ _ _ S (start_block_id ib + k)) as (b & Hb & Hwf); [lia|]. exists b. do 2 (split; [done|]). apply guards_hold; [done|lia].
Qed.

(** A change of the data bitmap, and of free blocks that stay free or become reserved. *)
Lemma store_bits D D' N R R' : store_ok D N R →
  (∀ id, ¬ (start_block_id db ≤ id < da) → id ∉ R → D' !! id = D !! id) → (∀ id, 0 ≤ id < total → ∃ b, D' !! id = Some b ∧ wf_block b) →
  NoDup R' → (∀ x, x ∈ R' → da ≤ x < total ∧ used D' x) → (∀ i di x, N !! i = Some di → x ∈ own D di → x ∉ R' ∧ used D' x) →
  (∀ x, da ≤ x < total → used D' x → x ∈ R' ∨ ∃ i di, N !! i = Some di ∧ x ∈ own D di) →
  (∀ x, da ≤ x < total → ¬ used D' x → D' !! x = Some zeros) →
  store_ok D' N R' ∧ contents D' N = contents D N ∧ ∀ i di, N !! i = Some di → own D' di = own D di.
Proof.
  intros S H Hwf Hnd HR HN Hu Hz. pose proof areas as A.
  assert (Hf : ∀ i di, N !! i = Some di → file_inv D' di ∧ own D' di = own D di ∧ content D' di = content D di).
  { intros i di Hi. apply file_frame; [by eapply so_file|]. intros x Hx. destruct (so_area _ _ _ S i di x Hi Hx). apply H; [lia|by apply (so_reserved _ _ _ S i di)]. }
  assert (Ho : ∀ i di, N !! i = Some di → own D' di = own D di) by (intros; by eapply Hf).
  split; [|split; [|done]].
  - split; try done.
    + intros i. rewrite (so_inodes _ _ _ S). assert (E : 0 ≤ i < inodes → bit_at ib D' i = bit_at ib D i).
      { intros Hi. apply bit_frame; [|done]. intros k Hk. destruct Ge. apply H; [lia|]. intros Hr. destruct (so_rarea _ _ _ S _ Hr). lia. }
      split; intros [? ?]; (split; [done|]); [by rewrite E|by rewrite <- E].
    + intros i di Hi. by eapply Hf.
    + intros i j di dj x Hi Hj. rewrite (Ho i di Hi), (Ho j dj Hj). by apply (so_apart _ _ _ S).
    + intros i di x Hi. rewrite (Ho i di Hi). intros Hx. by eapply HN.
    + intros i di x Hi. rewrite (Ho i di Hi). intros Hx. split; [by apply (so_area _ _ _ S i di x)|by eapply HN].
    + intros x Hx Hux. destruct (Hu x Hx Hux) as [?|(i & di & Hi & Hin)]; [by left|right]. exists i, di. split; [done|]. by rewrite (Ho i di Hi).
  - unfold contents. apply map_fmap_ext. intros i di Hi. f_equal. by eapply Hf.
Qed.

Lemma alloc_data_spec L D N R : guards L → store_ok D N R → free_blocks D ≠ ∅ →
  ∃ x D', run (alloc_data efs) L D = FDone x L D' ∧ x ∈ free_blocks D ∧ free_blocks D' = free_blocks D ∖ {[x]} ∧
    store_ok D' N (R ++ [x]) ∧ contents D' N = contents D N ∧ (∀ i di, N !! i = Some di → own D' di = own D di) ∧
    (∀ id, ¬ (start_block_id db ≤ id < da) → D' !! id = D !! id) ∧ D' !! x = Some zeros.
Proof.
  intros HL S Hfree. pose proof areas as A. pose proof (data_bitmap_ok L D N R HL S) as Hbm. unfold alloc_data.
  destruct (Bitmap_alloc_spec db L D Hbm) as (o & D' & Hr & Ho). destruct (set_choose_L _ Hfree) as [y Hy]. apply elem_of_free in Hy as [Hy Hyu].
  assert (∃ p, o = Some p ∧ p ≤ y - da ∧ allocated db L D D' p) as (p & -> & Hp & Al).
  { destruct o as [p|]; [|destruct Ho as [_ Hall]; exfalso; apply Hyu, Hall; by apply used_range]. exists p. split; [done|]. split; [|done].
    destruct (decide (p ≤ y - da)) as [|Hgt]; [done|]. exfalso. apply Hyu. apply (al_first _ _ _ _ _ Ho). lia. }
  pose proof (al_range _ _ _ _ _ Al) as Hpr. exists (da + p), D'. rewrite run_bind, Hr. cbn [unwrap lift mbind prog_bind].
  assert (Hx : da ≤ da + p < total) by lia. assert (Hnu : ¬ used D (da + p)) by (unfold used; replace (da + p - da) with p by lia; by rewrite (al_free _ _ _ _ _ Al)).
  assert (Hbits : ∀ z, da ≤ z < total → (used D' z ↔ z = da + p ∨ used D z)).
  { intros z Hz. unfold used. rewrite (al_bits _ _ _ _ _ Al) by by apply used_range. rewrite orb_true_iff, Z.eqb_eq. split; intros [?|?]; auto; left; lia. }
  assert (Hout : ∀ id, ¬ (start_block_id db ≤ id < da) → D' !! id = D !! id) by (intros id Hid; apply (al_outside _ _ _ _ _ Al); unfold outside; lia).
  assert (Hz : D' !! (da + p) = Some zeros) by (rewrite Hout by lia; by apply (so_zero _ _ _ S)).
  split; [rewrite (wrap_small 32 p), wrap_small by lia; unfold mret, prog_ret; cbn; f_equal; lia|]. split; [by apply elem_of_free|]. split.
  { apply set_eq. intros z. rewrite elem_of_difference, !elem_of_free, elem_of_singleton. split; [intros [Hz1 Hz2]|intros [[Hz1 Hz2] Hz3]];
      rewrite Hbits in * by done; tauto. }
  assert (HRu : ∀ z, z ∈ R → z ≠ da + p) by (intros z Hzr ->; by apply Hnu, (so_rarea _ _ _ S)).
  destruct (store_bits D D' N R (R ++ [da + p]) S) as (S' & Ec & Eo); [by intros; apply Hout|..].
  - intros id Hid. destruct (decide (start_block_id db ≤ id < da)); [|rewrite Hout by done; by apply (so_disk _ _ _ S)].
    destruct (bm_there _ _ _ (al_ok _ _ _ _ _ Al) (id - start_block_id db)) as (b & Hb & Hwf & _); [lia|].
    replace (start_block_id db + (id - start_block_id db)) with id in Hb by lia. by exists b.
  - apply NoDup_app. split; [apply S|]. split; [|apply NoDup_singleton]. intros z Hzr Hzp%list_elem_of_singleton. by apply (HRu z).
  - intros z. rewrite elem_of_app, list_elem_of_singleton. intros [Hzr| ->]; [|split; [done|]; apply Hbits; auto].
    destruct (so_rarea _ _ _ S z Hzr). split; [done|]. apply Hbits; auto.
  - intros i di z Hi Hzo. destruct (so_area _ _ _ S i di z Hi Hzo). rewrite elem_of_app, list_elem_of_singleton. split; [|apply Hbits; auto].
    intros [?| ->]; [by eapply (so_reserved _ _ _ S)|done].
  - intros z Hzr Hzu%Hbits; [|done]. rewrite elem_of_app, list_elem_of_singleton. destruct Hzu as [->|Hzu]; [tauto|]. destruct (so_used _ _ _ S z Hzr Hzu); tauto.
  - intros z Hzr Hzu. rewrite Hout by lia. apply (so_zero _ _ _ S); [done|]. intros ?. apply Hzu, Hbits; auto.
  - done.
Qed.

Lemma alloc_many_spec n : ∀ L D N R, guards L → store_ok D N R → (n ≤ size (free_blocks D))%nat →
  ∃ v D', run (alloc_many efs n) L D = FDone v L D' ∧ length v = n ∧ list_to_set v ⊆ free_blocks D ∧
    free_blocks D' = free_blocks D ∖ list_to_set v ∧ store_ok D' N (R ++ v) ∧ contents D' N = contents D N ∧
    (∀ i di, N !! i = Some di → own D' di = own D di) ∧ (∀ id, ¬ (start_block_id db ≤ id < da) → D' !! id = D !! id) ∧
    Forall (λ x, D' !! x = Some zeros) v.
Proof.
  induction n as [|n IH]; intros L D N R HL S Hn; cbn [alloc_many].
  - exists [], D. split; [done|]. split; [done|]. rewrite app_nil_r. cbn [list_to_set]. split; [set_solver|]. split; [set_solver|]. split; [done|]. split; [done|]. split; [done|]. split; [done|]. constructor.
  - destruct (alloc_data_spec L D N R HL S) as (x & D1 & Hr1 & Hx & Hf1 & S1 & Ec1 & Eo1 & Hout1 & Hz1).
    { intros E. rewrite E, size_empty in Hn. lia. }
    assert (Hsz : (n ≤ size (free_blocks D1))%nat).
    { rewrite Hf1, size_difference, size_singleton by set_solver. lia. }
    destruct (IH L D1 N (R ++ [x]) HL S1 Hsz) as (v & D2 & Hr2 & Hl & Hv & Hf2 & S2 & Ec2 & Eo2 & Hout2 & Hz2).
    exists (x :: v), D2. rewrite run_bind, Hr1, run_bind, Hr2. split; [done|]. split; [cbn; lia|]. cbn [list_to_set].
    split; [clear -Hx Hv Hf1; rewrite Hf1 in Hv; set_solver|]. split; [rewrite Hf2, Hf1; clear; set_solver|]. split; [by rewrite <- app_assoc in S2|]. split; [congruence|].
    split; [intros i di Hi; by rewrite (Eo2 i di Hi), (Eo1 i di Hi)|]. split; [intros id Hid; by rewrite Hout2, Hout1|].
    constructor; [|done]. apply elem_of_free in Hx as [Hx _]. pose proof areas. by rewrite Hout2 by lia.
Qed.
End fs.
