(* ===== verification/FsOps.v ===== *)
(** * FsOps.v: the operations of easy-fs refine operations on whole files

    Over the invariant of FsInv.v, [Inode::write_at], [read_at], [clear] and [create] are proved
    equal to operations on [contents]: the bytes of the file change as a list would, every other
    file keeps its bytes, and blocks are taken from the free ones and given back to them. *)

From S2P Require Import Prelude Bytes BlockProg Bitmap Layout DiskInode Efs Vfs FileGrow FsInv.

(** ** Growing a file *)

Definition blocks_for (old new : Z) : Z := tree_count (_data_blocks new) - tree_count (_data_blocks old).

Lemma data_blocks_mono s t : 0 ≤ s ≤ t → t ≤ INDIRECT2_BOUND * 512 → _data_blocks s ≤ _data_blocks t ≤ 16540.
Proof. intros Hs Ht. rewrite !data_blocks_small by lia. rewrite INDIRECT2_BOUND_eq in Ht. dlia. Qed.

Section grown.
Context (D D1 D' : gmap Z block) (di di' : DiskInode) (new : Z) (v : list Z).
Notation m := (data_blocks di).
Notation n := (_data_blocks new).
Context (F : file_inv D1 di) (Hn : di_size di ≤ new ≤ INDIRECT2_BOUND * 512).
Context (G : grown m n (resize di new) D1 di' D' v) (Hz : Forall (λ x, D1 !! x = Some zeros) v).

Lemma grown_blocks : data_blocks di' = n.
Proof. unfold data_blocks. by rewrite (proj1 (gr_shape _ _ _ _ _ _ _ G)). Qed.

(** The new data blocks are zero. *)
Lemma grown_new j : m ≤ j < n → D' !! data_of di' D' j = Some zeros.
Proof.
  intros Hj. pose proof (gr_tree _ _ _ _ _ _ _ G) as T'. pose proof (to_max _ _ _ (fi_tree _ _ F)) as Hm.
  assert (Hin : data_of di' D' j ∈ owned n di' D') by (apply (owned_in n di' D' j); [lia|apply tree_data]).
  rewrite (gr_frame _ _ _ _ _ _ _ G) by (apply (data_not_indexes n di' D' T'); lia).
  rewrite (gr_owned _ _ _ _ _ _ _ G) in Hin. apply elem_of_app in Hin as [Hin|Hin]; [exfalso|by apply (proj1 (Forall_forall _ _) Hz)].
  destruct (owned_where _ _ _ _ Hin) as (k & Hk & Hx). apply (owned_apart n di' D' j k (data_of di' D' j) (to_nodup _ _ _ T')); [lia|lia|lia|apply tree_data|].
  unfold new_of in *. by rewrite (gr_idx _ _ _ _ _ _ _ G k), (gr_data _ _ _ _ _ _ _ G k) by lia.
Qed.

Lemma grown_old i : 0 ≤ i < m * 512 → file_byte di' D' i = file_byte di D1 i.
Proof.
  intros Hi. pose proof (gr_tree _ _ _ _ _ _ _ G) as T'. pose proof (to_max _ _ _ T') as Hmax. pose proof (fi_tree _ _ F) as T.
  destruct (size_blocks di (fi_size _ _ F)) as [Hm _]. assert (Hmn : m ≤ n) by (apply data_blocks_mono; [destruct F; lia|lia]).
  assert (Ed : data_of di' D' (i / 512) = data_of di D1 (i / 512)) by (apply (gr_data _ _ _ _ _ _ _ G (i / 512)); dlia).
  destruct (byte_of n di' D' i T' ltac:(lia)) as (b' & Hb' & _ & -> & _). destruct (byte_of m di D1 i T Hi) as (b & Hb & _ & -> & _).
  rewrite (gr_frame _ _ _ _ _ _ _ G) in Hb' by (apply (data_not_indexes n di' D' T'); dlia). rewrite Ed, Hb in Hb'. by injection Hb' as <-.
Qed.

Lemma grown_zero i : di_size di ≤ i < n * 512 → file_byte di' D' i = Some 0.
Proof.
  intros Hi. destruct (size_blocks di (fi_size _ _ F)) as [Hm Hs]. pose proof (fi_size _ _ F). destruct (decide (i < m * 512)) as [Hlt|Hge].
  - rewrite grown_old by lia. apply (fi_tail _ _ F). lia.
  - destruct (byte_of n di' D' i (gr_tree _ _ _ _ _ _ _ G) ltac:(lia)) as (b & Hb & _ & -> & _). rewrite grown_new in Hb by dlia. injection Hb as <-.
    apply lookup_replicate_2. unfold BLOCK_SZ. dlia.
Qed.

Lemma grown_file : file_inv D' di' ∧ content D' di' = content D1 di ++ replicate (Z.to_nat (new - di_size di)) 0.
Proof.
  pose proof (fi_size _ _ F) as Hs. assert (Esz : di_size di' = new) by apply G. destruct (size_blocks di Hs) as [_ Hb].
  assert (Hb' : new ≤ n * 512) by (rewrite data_blocks_small by lia; dlia).
  split.
  - split; [rewrite grown_blocks; apply G|lia|]. rewrite grown_blocks, Esz. intros i Hi. apply grown_zero. lia.
  - apply list_eq. intros i. destruct (decide (i < Z.to_nat new)%nat) as [Hi|Hi].
    + replace i with (Z.to_nat (Z.of_nat i)) by lia. rewrite content_lookup by lia. rewrite Nat2Z.id. destruct (decide (Z.of_nat i < di_size di)) as [Hlt|Hge].
      * rewrite lookup_app_l by (rewrite length_content; lia). rewrite <- (Nat2Z.id i) at 2. rewrite content_lookup by lia. by rewrite grown_old by lia.
      * rewrite lookup_app_r by (rewrite length_content; lia). rewrite grown_zero by lia. cbn. symmetry. apply lookup_replicate_2. rewrite length_content. lia.
    + rewrite !(proj2 (lookup_ge_None _ _)); [done|rewrite length_app, length_content, length_replicate; lia|rewrite length_content; lia].
Qed.
End grown.

Section fs.
Context (efs : EasyFileSystem) (total : Z) (Ge : geometry efs total).
Notation ib := (inode_bitmap efs).
Notation db := (data_bitmap efs).
Notation ia := (inode_area_start_block efs).
Notation da := (data_area_start_block efs).
Notation inodes := (blocks (inode_bitmap efs) * 4096).
Notation store_ok := (store_ok efs total).
Notation fs_ok := (fs_ok efs total).
Notation free_blocks := (free_blocks efs total).
Notation guards := (guards efs).
Notation used := (used efs).

Lemma own_guard L D N R i di x : guards L → store_ok D N R → N !! i = Some di → x ∈ own D di → x ∉ L.
Proof. intros [_ HL] S Hi Hx HxL%HL. pose proof (areas efs total Ge). destruct (so_area _ _ _ _ _ S i di x Hi Hx). lia. Qed.

(** One file changes, within its blocks or taking [v] from the reserved ones. *)
Lemma store_update D D' N R i di di' v : store_ok D N (R ++ v) → N !! i = Some di → file_inv D' di' →
  own D' di' ≡ₚ own D di ++ v → (∀ x, x ∉ own D' di' → D' !! x = D !! x) → (∀ x, good D x → good D' x) →
  store_ok D' (<[i := di']> N) R ∧ (∀ j dj, j ≠ i → N !! j = Some dj → own D' dj = own D dj ∧ content D' dj = content D dj) ∧ free_blocks D' = free_blocks D.
Proof.
  intros S Hi F' Ho Hfr Hg. pose proof (areas efs total Ge) as A.
  assert (Hin : ∀ x, x ∈ own D' di' → x ∈ own D di ∨ x ∈ v) by (intros x; rewrite Ho, elem_of_app; done).
  assert (Hdata : ∀ x, x ∈ own D' di' → da ≤ x < total ∧ used D x).
  { intros x [Hx|Hx]%Hin; [by apply (so_area _ _ _ _ _ S i di)|]. apply (so_rarea _ _ _ _ _ S). rewrite elem_of_app. by right. }
  assert (Hlow : ∀ x, x < da → D' !! x = D !! x) by (intros x Hx; apply Hfr; intros Hx'; apply Hdata in Hx'; lia).
  assert (Hu : ∀ x, da ≤ x < total → (used D' x ↔ used D x)).
  { intros x Hx. unfold FsInv.used. rewrite (bit_frame db D D'); [done| |by apply (used_range efs total Ge)]. intros k Hk. apply Hlow. lia. }
  assert (Hother : ∀ j dj, j ≠ i → N !! j = Some dj → file_inv D' dj ∧ own D' dj = own D dj ∧ content D' dj = content D dj).
  { intros j dj Hj Hdj. apply file_frame; [by eapply (so_file _ _ _ _ _ S)|]. intros x Hx. apply Hfr. intros [Hx'|Hx']%Hin.
    - by apply Hj, (so_apart _ _ _ _ _ S j i dj di x).
    - apply (so_reserved _ _ _ _ _ S j dj x Hdj Hx). rewrite elem_of_app. by right. }
  assert (Hown : ∀ j dj x, <[i := di']> N !! j = Some dj → x ∈ own D' dj → (j = i ∧ (x ∈ own D di ∨ x ∈ v)) ∨ (j ≠ i ∧ N !! j = Some dj ∧ x ∈ own D dj)).
  { intros j dj x. rewrite lookup_insert_Some. intros [[<- <-]|[Hne Hj]] Hx; [left; auto|right]. destruct (Hother j dj (not_eq_sym Hne) Hj) as (_ & E & _). by rewrite <- E. }
  assert (Hnv : ∀ x, x ∈ v → x ∈ R ++ v) by (intros; rewrite elem_of_app; auto). assert (HnR : ∀ x, x ∈ R → x ∈ R ++ v) by (intros; rewrite elem_of_app; auto).
  pose proof (proj1 (NoDup_app _ _) (so_nodup _ _ _ _ _ S)) as (HndR & HndRv & _).
  split; [|split; [intros j dj Hj Hdj; by destruct (Hother j dj Hj Hdj) as (_ & ? & ?)|]].
  - split.
    + intros id Hid. destruct (so_disk _ _ _ _ _ S id Hid) as (b & Hb & Hwf). destruct (Hg id) as (_ & H); [|exact H]. split; [lia|by exists b].
    + intros j. assert (E : 0 ≤ j < inodes → bit_at ib D' j = bit_at ib D j).
      { intros Hj. apply bit_frame; [|done]. intros k Hk. destruct Ge. apply Hlow. lia. }
      rewrite lookup_insert_is_Some, (so_inodes _ _ _ _ _ S j). pose proof (proj1 (so_inodes _ _ _ _ _ S i) (mk_is_Some _ _ Hi)) as [Hir Hib]. split.
      * intros [<-|[_ [Hj Hb]]]; (split; [done|]); by rewrite E.
      * intros [Hj Hb]. rewrite E in Hb by done. destruct (decide (i = j)); auto.
    + intros j dj. rewrite lookup_insert_Some. intros [[_ <-]|[Hne Hj]]; [done|]. by apply (Hother j).
    + intros j k dj dk x Hj Hk Hxj Hxk. destruct (Hown j dj x Hj Hxj) as [[-> H1]|(N1 & H1 & H1')], (Hown k dk x Hk Hxk) as [[-> H2]|(N2 & H2 & H2')]; [done|exfalso..|].
      * destruct H1 as [H1|H1]; [by apply N2, (so_apart _ _ _ _ _ S k i dk di x)|]. by apply (so_reserved _ _ _ _ _ S k dk x H2 H2'), Hnv.
      * destruct H2 as [H2|H2]; [by apply N1, (so_apart _ _ _ _ _ S j i dj di x)|]. by apply (so_reserved _ _ _ _ _ S j dj x H1 H1'), Hnv.
      * by apply (so_apart _ _ _ _ _ S j k dj dk x).
    + done.
    + intros j dj x Hj Hx HxR. destruct (Hown j dj x Hj Hx) as [[-> [H1|H1]]|(N1 & H1 & H1')].
      * by apply (so_reserved _ _ _ _ _ S i di x Hi H1), HnR.
      * by apply (HndRv x).
      * by apply (so_reserved _ _ _ _ _ S j dj x H1 H1'), HnR.
    + intros j dj x Hj Hx. assert (da ≤ x < total ∧ used D x) as [H1 H2]; [|split; [done|by apply Hu]].
      destruct (Hown j dj x Hj Hx) as [[-> [H1|H1]]|(N1 & H1 & H1')]; [by apply (so_area _ _ _ _ _ S i di)|by apply (so_rarea _ _ _ _ _ S), Hnv|by apply (so_area _ _ _ _ _ S j dj)].
    + intros x Hx. destruct (so_rarea _ _ _ _ _ S x (HnR x Hx)). split; [done|by apply Hu].
    + intros x Hx Hux%Hu; [|done]. destruct (so_used _ _ _ _ _ S x Hx Hux) as [[HxR|Hxv]%elem_of_app|(j & dj & Hj & Hin')]; [by left|right..].
      * exists i, di'. split; [by rewrite lookup_insert_eq|]. rewrite Ho, elem_of_app. by right.
      * destruct (decide (j = i)) as [->|Hne].
        -- exists i, di'. split; [by rewrite lookup_insert_eq|]. assert (dj = di) as -> by congruence. rewrite Ho, elem_of_app. by left.
        -- exists j, dj. split; [by rewrite lookup_insert_ne|]. destruct (Hother j dj Hne Hj) as (_ & -> & _). done.
    + intros x Hx Hux. rewrite Hfr; [|intros Hx'; apply Hux, Hu; [done|by apply Hdata]]. apply (so_zero _ _ _ _ _ S); [done|]. by rewrite <- Hu.
  - apply set_eq. intros x. rewrite !elem_of_free. split; intros [? H]; (split; [done|]); by rewrite Hu in * by done.
Qed.

(** What an operation on file [i] does besides: the other files are as they were. *)
Definition others_same (i : Z) (N : gmap Z DiskInode) (D D' : gmap Z block) : Prop :=
  ∀ j dj, j ≠ i → N !! j = Some dj → content D' dj = content D dj.

Lemma increase_run L D N i di new : guards L → store_ok D N [] → N !! i = Some di → DiskInode_ok di →
  di_size di ≤ new ≤ INDIRECT2_BOUND * 512 → blocks_for (di_size di) new ≤ Z.of_nat (size (free_blocks D)) →
  ∃ di' D', run (Inode_increase_size efs new di) L D = FDone di' L D' ∧ store_ok D' (<[i := di']> N) [] ∧
    di_size di' = new ∧ type_ di' = type_ di ∧ DiskInode_ok di' ∧
    content D' di' = content D di ++ replicate (Z.to_nat (new - di_size di)) 0 ∧ others_same i N D D' ∧
    Z.of_nat (size (free_blocks D')) = Z.of_nat (size (free_blocks D)) - blocks_for (di_size di) new ∧
    (∀ x, x < start_block_id db → D' !! x = D !! x).
Proof.
  intros HL S Hi Hok Hnew Hfree. pose proof (areas efs total Ge) as A. pose proof (so_file _ _ _ _ _ S i di Hi) as F. pose proof (fi_size _ _ F) as Hsz.
  destruct (data_blocks_mono (di_size di) new ltac:(lia) ltac:(lia)) as [Hm Hn]. destruct (size_blocks di Hsz) as [Hm0 _].
  pose proof (tree_count_mono (data_blocks di) (_data_blocks new) ltac:(unfold data_blocks in *; lia)) as Hc. unfold blocks_for in *. fold (data_blocks di) in *.
  unfold Inode_increase_size. rewrite (proj2 (Z.ltb_ge new _)) by lia.
  assert (Hb : blocks_num_needed di new = Done (tree_count (_data_blocks new) - tree_count (data_blocks di))).
  { unfold blocks_num_needed. rewrite (proj2 (Z.leb_le (di_size di) new)) by lia. cbn [assert_that mbind outcome_bind]. unfold mret, outcome_ret. f_equal.
    rewrite !tree_count_total by lia. fold (data_blocks di). apply wrap_small. split; [lia|]. pose proof (tree_count_mono (_data_blocks new) 16540 ltac:(lia)) as H.
    change (tree_count 16540) with 16670 in H. pose proof (tree_count_mono 0 (data_blocks di) ltac:(lia)) as H0. change (tree_count 0) with 0 in H0. lia. }
  rewrite run_bind, Hb. cbn [lift run]. set (c := Z.to_nat (tree_count (_data_blocks new) - tree_count (data_blocks di))).
  destruct (alloc_many_spec efs total Ge c L D N [] HL S ltac:(lia)) as (v & D1 & Hr & Hl & Hv & Hf & S1 & Ec & Eo & Hout & Hz). cbn [app] in S1.
  pose proof (so_file _ _ _ _ _ S1 i di Hi) as F1. pose proof (so_nodup _ _ _ _ _ S1) as Hndv.
  assert (Hg : Forall (good D1) v).
  { apply Forall_forall. intros x Hx. destruct (so_rarea _ _ _ _ _ S1 x Hx) as [Hxr _]. split; [lia|]. apply (so_disk _ _ _ _ _ S1). lia. }
  assert (Su : supply (data_blocks di) (_data_blocks new) di D1 v).
  { split; [apply F1|unfold data_blocks in *; lia|unfold zlen; lia| |done]. apply NoDup_app. split; [apply F1|]. split; [|done]. intros x Hx. by apply (so_reserved _ _ _ _ _ S1 i di). }
  destruct (increase_size_grow L ltac:(destruct HL; lia) D1 di new v Su) as (di' & D' & Eg & Hr' & G).
  { intros x [Hx|Hx]%elem_of_app; [by apply (own_guard L D1 N v i di)|]. intros HxL. destruct (so_rarea _ _ _ _ _ S1 x Hx). destruct HL as [_ HL]. specialize (HL x HxL). lia. }
  destruct (grown_file D1 D' di di' new v F1 ltac:(lia) G Hz) as [F' Ec'].
  assert (Eb : data_blocks di' = _data_blocks new) by apply (grown_blocks D1 D' di di' new v G).
  destruct (store_update D1 D' N [] i di di' v S1 Hi F') as (S' & Hoth & Hf').
  { unfold own. rewrite Eb, (gr_owned _ _ _ _ _ _ _ G). done. }
  { intros x Hx. apply (gr_frame _ _ _ _ _ _ _ G). intros (j & Hin & Hj)%list_elem_of_bind. apply Hx, list_elem_of_bind. exists j. rewrite Eb.
    split; [by apply idx_new|done]. }
  { apply (gr_good _ _ _ _ _ _ _ G). }
  assert (Hi1 : ∀ j dj, N !! j = Some dj → content D1 dj = content D dj).
  { intros j dj Hj. assert (E : contents D1 N !! j = contents D N !! j) by by rewrite Ec. unfold contents in E. rewrite !lookup_fmap, Hj in E. by injection E. }
  exists di', D'. rewrite run_bind, Hr. split; [done|]. split; [done|]. split; [apply G|]. split; [apply (proj2 (gr_shape _ _ _ _ _ _ _ G))|]. split.
  { eapply grow_inode_ok; [|exact (supply_range _ _ _ _ _ Su)|exact Eg]. destruct Hok as [H1 H2]. split; [done|]. unfold DiskInode_words in *. cbn.
    apply Forall_cons in H2 as [_ H2]. apply Forall_cons. split; [|done]. change (8 * Z.of_nat 4) with 32. rewrite INDIRECT2_BOUND_eq in Hnew. lia. }
  split; [by rewrite Ec', (Hi1 i di Hi)|]. split; [|split].
  - intros j dj Hj Hdj. rewrite (proj2 (Hoth j dj Hj Hdj)). by apply (Hi1 j).
  - rewrite Hf', Hf, size_difference by done. rewrite size_list_to_set by done. lia.
  - intros x Hx. rewrite (gr_frame _ _ _ _ _ _ _ G); [apply Hout; lia|]. intros (j & Hin & Hj%elem_of_seqZ)%list_elem_of_bind.
    assert (Hxo : x ∈ own D' di') by (apply (owned_in _ _ _ j); [rewrite Eb; lia|by apply idx_new]).
    destruct (so_area _ _ _ _ _ S' i di' x (lookup_insert_eq _ _ _) Hxo). lia.
Qed.

(** *** Writing inside a file *)

Lemma write_loop_resize di s n : ∀ start end_ sb ws buf L D,
  run (write_loop (resize di s) n start end_ sb ws buf) L D = run (write_loop di n start end_ sb ws buf) L D.
Proof.
  induction n as [|n IH]; intros; [done|]. cbn [write_loop]. rewrite !run_bind. change (get_block_id (resize di s) (u32 sb)) with (get_block_id di (u32 sb)).
  destruct (run (get_block_id di (u32 sb)) L D) as [id L1 D1|]; [|done]. rewrite !run_bind. destruct (run (cache_modify DataBlock id 0 _) L1 D1) as [? L2 D2|]; [|done].
  case_match; [done|apply IH].
Qed.

Lemma write_run L D N i di off buf : guards L → store_ok D N [] → N !! i = Some di → bytes_ok buf → 0 ≤ off → 0 < zlen buf → off + zlen buf ≤ di_size di →
  ∃ D', run (write_at di off buf) L D = FDone (zlen buf) L D' ∧ store_ok D' N [] ∧ content D' di = splice (Z.to_nat off) buf (content D di) ∧
    others_same i N D D' ∧ free_blocks D' = free_blocks D ∧ (∀ x, x < start_block_id db → D' !! x = D !! x).
Proof.
  intros HL S Hi Hbuf Ho Hlen Hfit. pose proof (areas efs total Ge) as A. pose proof (so_file _ _ _ _ _ S i di Hi) as F. pose proof (fi_size _ _ F) as Hsz.
  destruct (size_blocks di Hsz) as [Hm Hs]. set (s := data_blocks di * 512). set (dp := resize di s).
  assert (Hb : data_blocks dp = data_blocks di). { unfold data_blocks, dp. cbn [di_size resize]. rewrite data_blocks_small by (rewrite INDIRECT2_BOUND_eq; unfold s; lia). fold (data_blocks di). unfold s. dlia. }
  assert (Hsp : 0 ≤ di_size dp ≤ INDIRECT2_BOUND * 512) by (rewrite INDIRECT2_BOUND_eq; cbn; unfold s; lia).
  assert (Tp : tree_ok (data_blocks di) dp D) by (destruct (fi_tree _ _ F); by split).
  destruct (tree_file (data_blocks di) dp D Tp L (eq_sym Hb) Hsp ltac:(destruct HL; lia)) as [Fp Sp].
  { intros x Hx. by apply (own_guard L D N [] i di x HL S Hi). }
  assert (Hsize : di_size dp = s) by done.
  destruct (write_at_spec L D dp off buf Fp Sp) as (D' & Hr & W); [lia|lia|rewrite INDIRECT2_BOUND_eq in Hsz; lia|done|].
  assert (Hend : off + zlen buf ≤ s) by lia. rewrite Hsize, Z.min_l in Hr, W by done.
  assert (Hdata : ∀ k, 0 ≤ k < data_blocks di → inode_block dp D k = Some (data_of di D k)) by (intros k Hk; by rewrite (tree_block _ dp D Tp)).
  assert (Hfr : ∀ x, (∀ k, 0 ≤ k < data_blocks di → x ≠ data_of di D k) → D' !! x = D !! x).
  { intros x Hx. apply (wr_frame _ _ _ _ _ _ _ W). rewrite Hb. intros k Hk. rewrite Hdata by done. intros [= E]. by apply (Hx k). }
  assert (Hg : ∀ x, good D x → good D' x).
  { intros x (Hx & b & Hbx & Hwf). split; [done|]. destruct (decide (x ∈ data_of di D <$> seqZ 0 (data_blocks di))) as [(k & -> & Hk%elem_of_seqZ)%list_elem_of_fmap|Hn].
    - destruct (fo_block _ _ _ (wr_ok _ _ _ _ _ _ _ W) k) as (id & Hid & b' & Hb' & Hwf' & _); [rewrite Hb; lia|]. rewrite (wr_map _ _ _ _ _ _ _ W) in Hid by (rewrite Hb; lia).
      rewrite Hdata in Hid by lia. injection Hid as <-. by exists b'.
    - exists b. rewrite Hfr; [done|]. intros k Hk ->. apply Hn, list_elem_of_fmap. exists k. split; [done|]. apply elem_of_seqZ. lia. }
  destruct (tree_frame_idx (data_blocks di) di D D' (fi_tree _ _ F)) as (T' & Eo & Ed).
  { intros x Hx. apply Hfr. intros k Hk ->. by apply (data_not_indexes _ di D (fi_tree _ _ F) k Hk). }
  { eapply Forall_impl; [apply (fi_tree _ _ F)|done]. }
  assert (Hbytes : ∀ j, 0 ≤ j < data_blocks di * 512 → file_byte di D' j = if decide (off ≤ j < off + zlen buf) then buf !! Z.to_nat (j - off) else file_byte di D j).
  { intros j Hj. exact (wr_bytes _ _ _ _ _ _ _ W j Hj). }
  assert (F' : file_inv D' di).
  { split; [done|done|]. intros j Hj. rewrite Hbytes by lia. rewrite decide_False by lia. by apply (fi_tail _ _ F). }
  destruct (store_update D D' N [] i di di [] S Hi F') as (S' & Hoth & Hf'); [rewrite app_nil_r; unfold own; by rewrite Eo| |done|].
  { intros x Hx. apply Hfr. intros k Hk ->. apply Hx. unfold own. rewrite Eo. by apply (owned_in _ di D k), tree_data. }
  rewrite insert_id in S' by done. exists D'. split; [|split; [done|split; [|split; [|split; [done|]]]]].
  - etransitivity; [|etransitivity; [exact Hr|f_equal; lia]]. unfold write_at. rewrite Hsize, (wrap_small 64) by (rewrite INDIRECT2_BOUND_eq in Hsz; lia).
    rewrite !Z.min_l by done. rewrite !run_bind. destruct (run (lift (assert_that (off <=? off + zlen buf) PAssert)) L D); [|done]. unfold dp. by rewrite write_loop_resize.
  - assert (Hlc : (Z.to_nat off + length buf ≤ length (content D di))%nat) by (rewrite length_content; unfold zlen in *; lia).
    apply list_eq. intros j. rewrite lookup_splice by done. destruct (decide (j < Z.to_nat (di_size di))%nat) as [Hj|Hj].
    + replace j with (Z.to_nat (Z.of_nat j)) at 1 by lia. rewrite content_lookup, Hbytes by lia. unfold zlen in *.
      destruct (decide (off ≤ Z.of_nat j < off + Z.of_nat (length buf))), (decide (Z.to_nat off ≤ j < Z.to_nat off + length buf)%nat); try lia.
      * replace (Z.to_nat (Z.of_nat j - off)) with (j - Z.to_nat off)%nat by lia. destruct (lookup_lt_is_Some_2 buf (j - Z.to_nat off)) as [x Hx]; [lia|]. by rewrite Hx.
      * rewrite <- (Nat2Z.id j) at 2. by rewrite content_lookup by lia.
    + rewrite (proj2 (lookup_ge_None _ _)) by (rewrite length_content; lia). case_decide; [rewrite length_content in Hlc; lia|]. symmetry. apply lookup_ge_None. rewrite length_content. lia.
  - intros j dj Hj Hdj. by apply (Hoth j dj Hj Hdj).
  - intros x Hx. apply Hfr. intros k Hk ->. destruct (so_area _ _ _ _ _ S i di (data_of di D k) Hi) as [H _]; [by apply (owned_in _ di D k), tree_data|]. lia.
Qed.

(** ** Inodes *)

(** The inode of number [i]. *)
Definition inode (i : Z) : Inode := let '(b, o) := get_disk_inode_pos efs i in Inode_new b o.

Lemma inode_pos i : 0 ≤ i < inodes → inode i = Inode_new (ia + i / 4) (i mod 4 * 128).
Proof.
  intros Hi. pose proof (areas efs total Ge) as A. unfold inode. rewrite get_disk_inode_pos_eq; [done|unfold inode_area_ok; lia|].
  unfold Bitmap_maximum. change BLOCK_BITS with 4096. rewrite wrap_small by lia. done.
Qed.

Lemma inode_range D N R i di : store_ok D N R → N !! i = Some di → 0 ≤ i < inodes.
Proof. intros S Hi. apply (so_inodes _ _ _ _ _ S). by eexists. Qed.

(** The guard of an inode's block. *)
Lemma inode_guard i : 0 ≤ i < inodes → guards {[ia + i / 4]} ∧ can_hold ∅ (ia + i / 4).
Proof.
  intros Hi. destruct (slot_pos efs total Ge i Hi) as [Hp _]. split; [split|apply can_hold_empty].
  - rewrite size_singleton. unfold BLOCK_CACHE_SIZE. lia.
  - by intros x ->%elem_of_singleton.
Qed.

Lemma inode_there D N i di : fs_ok D N → N !! i = Some di →
  0 ≤ i < inodes ∧ DiskInode_ok di ∧ ∃ b, D !! (ia + i / 4) = Some b ∧ wf_block b ∧ view_block DiskInodeC (Z.to_nat (i mod 4 * 128)) b = Done di.
Proof.
  intros [S T] Hi. pose proof (inode_range D N [] i di S Hi) as Hr. split; [done|]. pose proof (ta_inode _ _ _ T i di Hi) as Hs. unfold slot in Hs.
  destruct (slot_pos efs total Ge i Hr) as [Hp _]. pose proof (areas efs total Ge). destruct (so_disk _ _ _ _ _ S (ia + i / 4)) as (b & Hb & Hwf); [lia|].
  rewrite Hb in Hs. split; [exact (view_block_ok DiskInodeC _ DiskInodeC_ok _ b di Hwf Hs)|]. by exists b.
Qed.

Lemma read_inode {A} D N i di (f : DiskInode → prog A) a : fs_ok D N → N !! i = Some di →
  run (f di) {[ia + i / 4]} D = FDone a {[ia + i / 4]} D → run (read_disk_inode (inode i) f) ∅ D = FDone a ∅ D.
Proof.
  intros H Hi Hf. destruct (inode_there D N i di H Hi) as (Hr & Hok & b & Hb & Hwf & Hv). destruct (inode_guard i Hr) as [_ Hh].
  unfold read_disk_inode. rewrite inode_pos by done. cbn [in_block_id in_block_offset Inode_new].
  apply (run_cache_read DiskInodeC _ _ f ∅ D D b di); [done|done|done|]. by rewrite union_empty_r_L.
Qed.

(** A [modify] of the inode in use number [i]. *)
Lemma modify_inode {A} D D1 N i di di' (f : DiskInode → prog (A * DiskInode)) a : fs_ok D N → N !! i = Some di →
  run (f di) {[ia + i / 4]} D = FDone (a, di') {[ia + i / 4]} D1 → DiskInode_ok di' → store_ok D1 (<[i := di']> N) [] →
  (∀ x, x < start_block_id db → D1 !! x = D !! x) →
  ∃ D', run (modify_disk_inode (inode i) f) ∅ D = FDone a ∅ D' ∧ fs_ok D' (<[i := di']> N) ∧
    contents D' (<[i := di']> N) = contents D1 (<[i := di']> N) ∧ free_blocks D' = free_blocks D1 ∧ D' !! 0 = D !! 0.
Proof.
  intros H Hi Hf Hok' S1 Hfr. destruct (inode_there D N i di H Hi) as (Hr & Hok & b & Hb & Hwf & Hv). destruct (inode_guard i Hr) as [_ Hh].
  destruct (slot_pos efs total Ge i Hr) as [Hp Hfit]. pose proof (areas efs total Ge) as A0.
  set (D' := <[ia + i / 4 := splice (Z.to_nat (i mod 4 * 128)) (cenc DiskInodeC di') b]> D1). exists D'.
  assert (Hwf' : wf_block (splice (Z.to_nat (i mod 4 * 128)) (cenc DiskInodeC di') b)) by (by apply (wf_block_write DiskInodeC _ DiskInodeC_ok)).
  assert (Hne : ∀ x, x ≠ ia + i / 4 → D' !! x = D1 !! x) by (intros; unfold D'; by rewrite lookup_insert_ne).
  assert (H0 : D' !! 0 = D !! 0) by (rewrite Hne, Hfr by lia; done).
  split; [|destruct (store_frame efs total Ge D1 D' (<[i := di']> N) [] S1) as [S' Ec]].
  - unfold modify_disk_inode. rewrite inode_pos by done. cbn [in_block_id in_block_offset Inode_new].
    apply (run_cache_modify DiskInodeC _ _ f ∅ D D1 b di a di'); [done|done|apply Hwf|done| |by rewrite union_empty_r_L].
    rewrite length_DiskInode_enc by apply Hok'. lia.
  - intros x Hx. apply Hne. lia.
  - intros x Hx. destruct (decide (x = ia + i / 4)) as [->|Hn]; [eexists; unfold D'; by rewrite lookup_insert_eq|].
    rewrite Hne by done. apply (so_disk _ _ _ _ _ S1). lia.
  - assert (Hsl : ∀ j, 0 ≤ j < inodes → slot efs D' j = if decide (i = j) then Done di' else slot efs D j).
    { intros j Hj. destruct (slot_pos efs total Ge j Hj) as [Hpj _]. unfold D'. rewrite (slot_write efs total Ge) by (done || rewrite ?Hfr by lia; done || apply Hwf).
      case_decide; [done|]. apply slot_frame, Hfr. lia. }
    split; [split; [done|]|split; [done|split; [|done]]].
    + destruct H as [S T]. split.
      * intros j Hj. rewrite Hsl by done. case_decide; [by eexists|by apply (ta_slot _ _ _ T)].
      * intros j dj. rewrite lookup_insert_Some. intros [[<- <-]|[Hne' Hj]].
        -- by rewrite Hsl, decide_True.
        -- rewrite Hsl by (by apply (inode_range D N [] j dj S)). rewrite decide_False by done. by apply (ta_inode _ _ _ T).
    + apply set_eq. intros x. rewrite !elem_of_free. assert (E : da ≤ x < total → (used D' x ↔ used D1 x)); [|split; intros [Hx Hu]; (split; [done|]); by rewrite E in * by done].
      intros Hx. unfold FsInv.used. rewrite (bit_frame db D1 D'); [done| |by apply (used_range efs total Ge)]. intros k Hk. apply Hne. lia.
Qed.

(** ** The file system as a map from inode numbers to types and bytes *)

Definition holds (D : gmap Z block) (F : gmap Z (DiskInodeType * list Z)) : Prop :=
  ∃ N, fs_ok D N ∧ contents D N = F.

Definition max_size : Z := INDIRECT2_BOUND * 512.

(** [buf] at [off]; a file that ends before is filled up with zeros. *)
Definition overwrite (bs : list Z) (off : Z) (buf : list Z) : list Z :=
  splice (Z.to_nat off) buf (bs ++ replicate (Z.to_nat (off + zlen buf - zlen bs)) 0).

Lemma contents_inode D N i t bs : contents D N !! i = Some (t, bs) → ∃ di, N !! i = Some di ∧ type_ di = t ∧ content D di = bs.
Proof. unfold contents. rewrite lookup_fmap. destruct (N !! i) as [di|]; [|done]. cbn. intros [= <- <-]. by exists di. Qed.

Lemma contents_update D D' N i di' : others_same i N D D' →
  contents D' (<[i := di']> N) = <[i := (type_ di', content D' di')]> (contents D N).
Proof.
  intros H. apply map_eq. intros j. unfold contents. rewrite lookup_fmap. destruct (decide (j = i)) as [->|Hne].
  - by rewrite !lookup_insert_eq.
  - rewrite !lookup_insert_ne, lookup_fmap by done. destruct (N !! j) as [dj|] eqn:Hj; [|done]. cbn. by rewrite (H j dj Hne Hj).
Qed.

Lemma zlen_content D N i di : fs_ok D N → N !! i = Some di → zlen (content D di) = di_size di.
Proof. intros [S _] Hi. pose proof (fi_size _ _ (so_file _ _ _ _ _ S i di Hi)). unfold zlen. rewrite length_content. lia. Qed.

(** Growing to hold a range, and writing there: the bodies of [write_at] and of [create]. *)
Lemma grow_write_run L D N i di off buf : guards L → store_ok D N [] → N !! i = Some di → DiskInode_ok di → bytes_ok buf → 0 ≤ off → 0 < zlen buf →
  off + zlen buf ≤ max_size → blocks_for (di_size di) (Z.max (di_size di) (off + zlen buf)) ≤ Z.of_nat (size (free_blocks D)) →
  ∃ di' D1 D', run (Inode_increase_size efs (off + zlen buf) di) L D = FDone di' L D1 ∧ run (write_at di' off buf) L D1 = FDone (zlen buf) L D' ∧
    DiskInode_ok di' ∧ type_ di' = type_ di ∧ store_ok D' (<[i := di']> N) [] ∧ content D' di' = overwrite (content D di) off buf ∧
    others_same i N D D' ∧ (∀ x, x < start_block_id db → D' !! x = D !! x) ∧
    Z.of_nat (size (free_blocks D')) = Z.of_nat (size (free_blocks D)) - blocks_for (di_size di) (Z.max (di_size di) (off + zlen buf)).
Proof.
  intros HL S Hi Hok Hbuf Ho Hlen Hmax Hfree. unfold max_size in Hmax. pose proof (fi_size _ _ (so_file _ _ _ _ _ S i di Hi)) as Hsz.
  assert (∃ di' D1, run (Inode_increase_size efs (off + zlen buf) di) L D = FDone di' L D1 ∧ store_ok D1 (<[i := di']> N) [] ∧
    di_size di' = Z.max (di_size di) (off + zlen buf) ∧ type_ di' = type_ di ∧ DiskInode_ok di' ∧
    content D1 di' = content D di ++ replicate (Z.to_nat (off + zlen buf - di_size di)) 0 ∧ others_same i N D D1 ∧
    Z.of_nat (size (free_blocks D1)) = Z.of_nat (size (free_blocks D)) - blocks_for (di_size di) (Z.max (di_size di) (off + zlen buf)) ∧
    (∀ x, x < start_block_id db → D1 !! x = D !! x)) as (di' & D1 & Hr1 & S1 & Es & Et & Hok' & Ec1 & Ho1 & Hf1 & Hlow1).
  { destruct (Z.lt_ge_cases (off + zlen buf) (di_size di)) as [Hlt|Hge].
    - exists di, D. unfold Inode_increase_size. rewrite (proj2 (Z.ltb_lt _ _)) by done. rewrite Z.max_l by lia. rewrite insert_id by done.
      replace (Z.to_nat (off + zlen buf - di_size di)) with O by lia. unfold blocks_for. rewrite app_nil_r. split_and!; try done; lia.
    - rewrite Z.max_r in * by lia. destruct (increase_run L D N i di (off + zlen buf) HL S Hi Hok ltac:(lia) Hfree) as (di' & D1 & H). exists di', D1. tauto. }
  destruct (write_run L D1 (<[i := di']> N) i di' off buf HL S1 (lookup_insert_eq _ _ _) Hbuf Ho Hlen ltac:(lia)) as (D' & Hr2 & S2 & Ec2 & Ho2 & Hf2 & Hlow2).
  exists di', D1, D'. split_and!; try done.
  - rewrite Ec2, Ec1. unfold overwrite, zlen. rewrite length_content. do 4 f_equal. lia.
  - intros j dj Hj Hdj. rewrite (Ho2 j dj Hj) by by rewrite lookup_insert_ne. by apply (Ho1 j).
  - intros x Hx. by rewrite Hlow2, Hlow1.
  - by rewrite Hf2.
Qed.

Lemma inode_write_at D F i bs off buf : holds D F → F !! i = Some (File, bs) → bytes_ok buf → 0 ≤ off → 0 < zlen buf → off + zlen buf ≤ max_size →
  blocks_for (zlen bs) (Z.max (zlen bs) (off + zlen buf)) ≤ Z.of_nat (size (free_blocks D)) →
  ∃ D', run (Inode_write_at efs (inode i) off buf) ∅ D = FDone (zlen buf) ∅ D' ∧ holds D' (<[i := (File, overwrite bs off buf)]> F) ∧
    Z.of_nat (size (free_blocks D')) = Z.of_nat (size (free_blocks D)) - blocks_for (zlen bs) (Z.max (zlen bs) (off + zlen buf)) ∧
    D' !! 0 = D !! 0.
Proof.
  intros (N & H & <-) Hi Hbuf Ho Hlen Hmax Hfree. apply contents_inode in Hi as (di & Hi & Ht & <-). rewrite (zlen_content D N i di H Hi) in *.
  destruct (inode_there D N i di H Hi) as (Hr & Hok & _). destruct (inode_guard i Hr) as [HL _]. destruct (H) as [S T].
  destruct (grow_write_run _ D N i di off buf HL S Hi Hok Hbuf Ho Hlen Hmax Hfree) as (di' & D1 & D2 & R1 & R2 & Hok' & Et & S2 & Ec & Hoth & Hlow & Hf).
  pose proof (areas efs total Ge) as A.
  destruct (modify_inode D D2 N i di di' (λ disk_inode, lift (assert_that (is_file disk_inode) PAssert);;
    disk_inode ← Inode_increase_size efs (u32 (off + zlen buf)) disk_inode; n ← write_at disk_inode off buf; mret (n, disk_inode)) (zlen buf) H Hi) as (D' & Hm & H' & Ec' & Hf' & H0); [|done|done|intros; apply Hlow; lia|].
  - unfold is_file. rewrite bool_decide_eq_true_2 by done. cbn [assert_that lift]. unfold max_size in Hmax. rewrite INDIRECT2_BOUND_eq in Hmax. rewrite (wrap_small 32) by lia.
    rewrite run_bind, run_ret, run_bind, R1, run_bind, R2. done.
  - exists D'. split; [|split; [|split; [|done]]].
    + unfold Inode_write_at. rewrite run_bind, Hm, run_bind. cbn [sync_all run]. by rewrite decide_True.
    + exists (<[i := di']> N). split; [done|]. rewrite Ec', (contents_update D D2) by done. by rewrite Et, Ht, Ec.
    + by rewrite Hf'.
Qed.

Lemma inode_read_at D F i t bs off buf : holds D F → F !! i = Some (t, bs) → 0 ≤ off → off + zlen buf < 2 ^ 64 →
  let n := Z.max 0 (Z.min (zlen buf) (zlen bs - off)) in
  run (Inode_read_at (inode i) off buf) ∅ D = FDone (n, slice (Z.to_nat off) (Z.to_nat n) bs ++ drop (Z.to_nat n) buf) ∅ D.
Proof.
  intros (N & H & <-) Hi Ho Hlen n. apply contents_inode in Hi as (di & Hi & Ht & <-). unfold n. rewrite (zlen_content D N i di H Hi) in *. clear n.
  destruct (H) as [S T]. pose proof (so_file _ _ _ _ _ S i di Hi) as F. pose proof (fi_size _ _ F) as Hsz.
  destruct (inode_there D N i di H Hi) as (Hr & _). destruct (inode_guard i Hr) as [HL _].
  destruct (tree_file _ di D (fi_tree _ _ F) {[ia + i / 4]} eq_refl Hsz ltac:(destruct HL; lia)) as [Fo _].
  { intros x Hx. by apply (own_guard {[ia + i / 4]} D N [] i di x HL S Hi). }
  apply (read_inode D N i di); [done|done|]. destruct (read_at_spec {[ia + i / 4]} D di off buf Fo Ho Hlen) as (buf' & Hrd & Hl & Hb). rewrite Hrd.
  set (n := Z.max 0 (Z.min (zlen buf) (di_size di - off))). assert (En : read_count di off buf = n) by (unfold read_count, n, zlen in *; lia). rewrite En in *.
  do 2 f_equal. apply list_eq. intros j. rewrite Hb. unfold zlen in *. destruct (decide (Z.of_nat j < n)) as [Hj|Hj].
  - assert (Hls : length (slice (Z.to_nat off) (Z.to_nat n) (content D di)) = Z.to_nat n) by (apply length_slice; rewrite length_content; unfold n; lia).
    rewrite lookup_app_l by lia. rewrite lookup_slice, decide_True by lia. replace (Z.to_nat off + j)%nat with (Z.to_nat (off + Z.of_nat j)) by lia.
    rewrite content_lookup by (unfold n in Hj; lia). destruct (size_blocks di Hsz) as [_ Hsb].
    destruct (byte_of _ di D (off + Z.of_nat j) (fi_tree _ _ F)) as (b & _ & _ & -> & [x ->]); [unfold n in Hj; lia|done].
  - assert (Hls : length (slice (Z.to_nat off) (Z.to_nat n) (content D di)) = Z.to_nat n).
    { destruct (decide (n = 0)) as [->|Hn0]; [unfold slice; by rewrite take_0|]. apply length_slice. rewrite length_content. unfold n in *. lia. }
    rewrite lookup_app_r by lia. rewrite Hls, lookup_drop. f_equal. lia.
Qed.

(** ** Clearing a file *)

Lemma empty_file D di : di_size di = 0 → length (direct di) = 28%nat → file_inv D di ∧ own D di = [] ∧ content D di = [].
Proof.
  intros Hs Hd. assert (Hb : data_blocks di = 0) by (unfold data_blocks; by rewrite Hs). split; [|split].
  - split; [rewrite Hb; split; [done|lia|apply NoDup_nil_2|constructor]|rewrite Hs; unfold INDIRECT2_BOUND; done|]. rewrite Hb, Hs. lia.
  - unfold own. by rewrite Hb.
  - unfold content. by rewrite Hs.
Qed.

(** A file without blocks gives those it had to [v]. *)
Lemma store_release D N i di di' v : store_ok D N [] → N !! i = Some di → di_size di' = 0 → length (direct di') = 28%nat → v ≡ₚ own D di →
  store_ok D (<[i := di']> N) v ∧ file_inv D di' ∧ content D di' = [].
Proof.
  intros S Hi Hs Hd Hv. destruct (empty_file D di' Hs Hd) as (F' & Ho & Ec).
  assert (Hold : ∀ j dj x, <[i := di']> N !! j = Some dj → x ∈ own D dj → j ≠ i ∧ N !! j = Some dj).
  { intros j dj x. rewrite lookup_insert_Some. intros [[<- <-]|[Hne Hj]] Hx; [rewrite Ho in Hx; by apply not_elem_of_nil in Hx|done]. }
  assert (Hin : ∀ x, x ∈ v ↔ x ∈ own D di) by (intros x; by rewrite Hv).
  split; [|done]. split.
  - apply S.
  - intros j. rewrite lookup_insert_is_Some, (so_inodes _ _ _ _ _ S j). pose proof (proj1 (so_inodes _ _ _ _ _ S i) (mk_is_Some _ _ Hi)).
    split; [intros [<-|[_ ?]]; done|]. intros ?. destruct (decide (i = j)); auto.
  - intros j dj. rewrite lookup_insert_Some. intros [[_ <-]|[_ Hj]]; [done|by apply (so_file _ _ _ _ _ S j)].
  - intros j k dj dk x Hj Hk Hxj Hxk. destruct (Hold j dj x Hj Hxj) as [_ Hj'], (Hold k dk x Hk Hxk) as [_ Hk']. by apply (so_apart _ _ _ _ _ S j k dj dk x).
  - rewrite Hv. apply (to_nodup _ _ _ (fi_tree _ _ (so_file _ _ _ _ _ S i di Hi))).
  - intros j dj x Hj Hx Hxv%Hin. destruct (Hold j dj x Hj Hx) as [Hne Hj']. by apply Hne, (so_apart _ _ _ _ _ S j i dj di x).
  - intros j dj x Hj Hx. destruct (Hold j dj x Hj Hx) as [_ Hj']. by apply (so_area _ _ _ _ _ S j dj).
  - intros x Hx%Hin. by apply (so_area _ _ _ _ _ S i di).
  - intros x Hx Hu. destruct (so_used _ _ _ _ _ S x Hx Hu) as [Hn|(j & dj & Hj & Hxj)]; [by apply not_elem_of_nil in Hn|].
    destruct (decide (j = i)) as [->|Hne]; [left; apply Hin; by assert (dj = di) as <- by congruence|right]. exists j, dj. by rewrite lookup_insert_ne.
  - apply S.
Qed.

Lemma dealloc_data_spec L D N x R : guards L → store_ok D N (x :: R) →
  ∃ D', run (dealloc_data efs x) L D = FDone tt L D' ∧ store_ok D' N R ∧ contents D' N = contents D N ∧
    free_blocks D' = {[x]} ∪ free_blocks D ∧ (∀ y, y < start_block_id db → D' !! y = D !! y).
Proof.
  intros HL S. pose proof (areas efs total Ge) as A. destruct (so_rarea _ _ _ _ _ S x) as [Hx Hux]; [by left|].
  destruct (so_disk _ _ _ _ _ S x) as (b & Hb & Hwf); [lia|]. set (D1 := <[x := zeros]> D).
  assert (Hlow : ∀ y, y ≠ x → D1 !! y = D !! y) by (intros; unfold D1; by rewrite lookup_insert_ne).
  assert (Hbm1 : bitmap_ok db L D1).
  { destruct (data_bitmap_ok efs total Ge L D N _ HL S) as [B1 B2 B3 B4]. split; try done. intros k Hk. rewrite Hlow by lia. by apply B4. }
  assert (Hbit : ∀ y, da ≤ y < total → bit_at db D1 (y - da) = bit_at db D (y - da)).
  { intros y Hy. apply bit_frame; [|by apply (used_range efs total Ge)]. intros k Hk. apply Hlow. lia. }
  pose proof (Bitmap_dealloc_spec db L D1 (x - da) Hbm1 (used_range efs total Ge x Hx)) as Hd. rewrite Hbit, Hux in Hd by done. destruct Hd as (D' & Hr & De).
  assert (Hout : ∀ y, ¬ (start_block_id db ≤ y < da) → D' !! y = D1 !! y) by (intros y Hy; apply (de_outside _ _ _ _ _ De); unfold outside; lia).
  assert (Hbits : ∀ y, da ≤ y < total → (used D' y ↔ y ≠ x ∧ used D y)).
  { intros y Hy. unfold FsInv.used. rewrite (de_bits _ _ _ _ _ De) by by apply (used_range efs total Ge). rewrite Hbit, andb_true_iff, negb_true_iff, Z.eqb_neq by done. split; intros [? ?]; (split; [lia|done]). }
  pose proof (so_nodup _ _ _ _ _ S) as [HxR HndR]%NoDup_cons.
  exists D'. split; [|destruct (store_bits efs total Ge D D' N (x :: R) R S) as (S' & Ec & _)].
  - unfold dealloc_data. rewrite run_bind, (run_modify_data x _ L D b tt zeros); [|apply (guards_hold efs); [done|lia]|done|done|by rewrite zero_block_eq|apply zeros_wf].
    fold D1. rewrite (wrap_small 32) by lia. exact Hr.
  - intros y Hy Hyr. rewrite Hout by done. apply Hlow. intros ->. apply Hyr. by left.
  - intros y Hy. destruct (decide (start_block_id db ≤ y < da)).
    + destruct (bm_there _ _ _ (de_ok _ _ _ _ _ De) (y - start_block_id db)) as (b' & Hb' & Hwf' & _); [lia|]. replace (start_block_id db + (y - start_block_id db)) with y in Hb' by lia. by exists b'.
    + rewrite Hout by done. unfold D1. destruct (decide (y = x)) as [->|Hne]; [exists zeros; rewrite lookup_insert_eq; split; [done|apply zeros_wf]|]. rewrite lookup_insert_ne by done. by apply (so_disk _ _ _ _ _ S).
  - done.
  - intros y Hy. destruct (so_rarea _ _ _ _ _ S y) as [Hy1 Hy2]; [by right|]. split; [done|]. apply Hbits; [done|]. split; [by intros ->|done].
  - intros j dj y Hj Hy. destruct (so_area _ _ _ _ _ S j dj y Hj Hy) as [H1 H2]. pose proof (so_reserved _ _ _ _ _ S j dj y Hj Hy) as Hn.
    rewrite not_elem_of_cons in Hn. split; [tauto|]. apply Hbits; tauto.
  - intros y Hy Hu%Hbits; [|done]. destruct Hu as [Hne Hu]. destruct (so_used _ _ _ _ _ S y Hy Hu) as [[->|HyR]%elem_of_cons|H]; auto. done.
  - intros y Hy Hu. rewrite Hout by lia. unfold D1. destruct (decide (y = x)) as [->|Hne]; [by rewrite lookup_insert_eq|]. rewrite lookup_insert_ne by done.
    apply (so_zero _ _ _ _ _ S); [done|]. intros H. apply Hu, Hbits; auto.
  - split; [done|]. split; [done|]. split.
    + apply set_eq. intros y. rewrite elem_of_union, elem_of_singleton, !elem_of_free. split.
      * intros [Hy Hu]. destruct (decide (y = x)); [by left|right]. split; [done|]. intros H. apply Hu, Hbits; auto.
      * intros [->|[Hy Hu]]; (split; [done|]); intros H%Hbits; tauto.
    + intros y Hy. rewrite Hout by lia. apply Hlow. lia.
Qed.

Lemma dealloc_all_spec v : ∀ L D N, guards L → store_ok D N v →
  ∃ D', run (dealloc_all efs v) L D = FDone tt L D' ∧ store_ok D' N [] ∧ contents D' N = contents D N ∧
    free_blocks D' = list_to_set v ∪ free_blocks D ∧ (∀ y, y < start_block_id db → D' !! y = D !! y).
Proof.
  induction v as [|x v IH]; intros L D N HL S; cbn [dealloc_all].
  - exists D. split_and!; try done. set_solver.
  - destruct (dealloc_data_spec L D N x v HL S) as (D1 & Hr1 & S1 & Ec1 & Hf1 & Hl1). destruct (IH L D1 N HL S1) as (D2 & Hr2 & S2 & Ec2 & Hf2 & Hl2).
    exists D2. rewrite run_bind, Hr1. split_and!; [done|done|congruence|cbn [list_to_set]; rewrite Hf2, Hf1, (assoc_L (∪)); f_equal; apply (comm_L (∪))|]. intros y Hy. by rewrite Hl2, Hl1.
Qed.

Lemma inode_clear D F i bs : holds D F → F !! i = Some (File, bs) →
  ∃ D', run (clear efs (inode i)) ∅ D = FDone tt ∅ D' ∧ holds D' (<[i := (File, [])]> F) ∧
    Z.of_nat (size (free_blocks D')) = Z.of_nat (size (free_blocks D)) + blocks_for 0 (zlen bs) ∧ D' !! 0 = D !! 0.
Proof.
  intros (N & H & <-) Hi. apply contents_inode in Hi as (di & Hi & Ht & <-). rewrite (zlen_content D N i di H Hi) in *.
  destruct (inode_there D N i di H Hi) as (Hr & Hok & _). destruct (inode_guard i Hr) as [HL _]. destruct (H) as [S T]. pose proof (areas efs total Ge) as A.
  pose proof (so_file _ _ _ _ _ S i di Hi) as F. pose proof (fi_size _ _ F) as Hsz. set (L := {[ia + i / 4]} : gset Z) in *.
  assert (HoL : ∀ x, x ∈ owned (data_blocks di) di D → x ∉ L) by (intros x Hx; by apply (own_guard L D N [] i di x HL S Hi)).
  destruct (tree_file _ di D (fi_tree _ _ F) L eq_refl Hsz ltac:(destruct HL; lia) HoL) as [Fo Fs].
  pose proof (all_blocks_owned _ di D (fi_tree _ _ F) L eq_refl Hsz ltac:(destruct HL; lia) HoL) as Hperm.
  destruct (clear_size_run L D di Fo Fs ltac:(destruct HL; lia)) as (di' & Hc & Hs' & Ht' & Hd' & _ & Hw').
  assert (Hok' : DiskInode_ok di') by (split; [done|]; apply Hw', Hok).
  destruct (store_release D N i di di' (all_blocks di D) S Hi Hs' Hd' (symmetry Hperm)) as (S1 & F1 & Ec1).
  destruct (dealloc_all_spec (all_blocks di D) L D (<[i := di']> N) HL S1) as (D2 & Hr2 & S2 & Ec2 & Hf2 & Hlow2).
  destruct (modify_inode D D2 N i di di' (λ disk_inode, lift (assert_that (is_file disk_inode) PAssert);;
    let size := di_size disk_inode in '(v, disk_inode) ← clear_size disk_inode;
    lift (assert_that (zlen v =? total_blocks_of size) PAssert);; dealloc_all efs v;; mret (tt, disk_inode)) tt H Hi) as (D' & Hm & H' & Ec' & Hf' & H0); [|done|done|intros; apply Hlow2; lia|].
  - unfold is_file. rewrite bool_decide_eq_true_2 by done. cbn [assert_that lift]. rewrite run_bind, run_ret. cbv zeta. rewrite run_bind. fold L. rewrite Hc, run_bind.
    rewrite (proj2 (Z.eqb_eq _ _)) by (apply (length_all_blocks L D di Fo Fs); destruct HL; lia). cbn [assert_that lift]. rewrite run_ret, run_bind, Hr2. done.
  - exists D'. split; [|split; [|split; [|done]]].
    + unfold clear. rewrite run_bind. match goal with |- context [run ?p ∅ D] => replace (run p ∅ D) with (FDone tt ∅ D') by (symmetry; exact Hm) end. cbn [sync_all run]. by rewrite decide_True.
    + exists (<[i := di']> N). split; [done|]. rewrite Ec', Ec2, (contents_update D D) by done. by rewrite Ht', Ht, Ec1.
    + rewrite Hf', Hf2, size_union, size_list_to_set.
      * rewrite <- (Permutation_length Hperm). unfold blocks_for. fold (data_blocks di). pose proof (length_owned (data_blocks di) di D ltac:(by apply size_blocks)) as Hl. unfold zlen in Hl. unfold own in *.
        change (_data_blocks 0) with 0. change (tree_count 0) with 0. lia.
      * rewrite <- Hperm. apply (fi_tree _ _ F).
      * intros x Hx%elem_of_list_to_set [_ Hnu]%elem_of_free. rewrite <- Hperm in Hx. by apply Hnu, (so_area _ _ _ _ _ S i di).
Qed.

(** ** A new inode *)

(** An empty file of inode [i], which becomes used. *)
Lemma store_new D D' N i di' : store_ok D N [] → N !! i = None → 0 ≤ i < inodes → di_size di' = 0 → length (direct di') = 28%nat →
  (∀ x, start_block_id db ≤ x → D' !! x = D !! x) → (∀ id, 0 ≤ id < total → ∃ b, D' !! id = Some b ∧ wf_block b) →
  (∀ j, 0 ≤ j < inodes → bit_at ib D' j = (i =? j) || bit_at ib D j) →
  store_ok D' (<[i := di']> N) [] ∧ contents D' (<[i := di']> N) = <[i := (type_ di', [])]> (contents D N) ∧ free_blocks D' = free_blocks D.
Proof.
  intros S Hi Hr Hs Hd Hfr Hwf Hbits. pose proof (areas efs total Ge) as A. destruct (empty_file D' di' Hs Hd) as (F' & Ho & Ec).
  assert (Hu : ∀ x, da ≤ x < total → (used D' x ↔ used D x)).
  { intros x Hx. unfold FsInv.used. rewrite (bit_frame db D D'); [done| |by apply (used_range efs total Ge)]. intros k Hk. apply Hfr. lia. }
  assert (Hold : ∀ j dj, N !! j = Some dj → file_inv D' dj ∧ own D' dj = own D dj ∧ content D' dj = content D dj).
  { intros j dj Hj. apply file_frame; [by eapply (so_file _ _ _ _ _ S)|]. intros x Hx. destruct (so_area _ _ _ _ _ S j dj x Hj Hx). apply Hfr. lia. }
  assert (Hin : ∀ j dj x, <[i := di']> N !! j = Some dj → x ∈ own D' dj → N !! j = Some dj ∧ x ∈ own D dj).
  { intros j dj x. rewrite lookup_insert_Some. intros [[_ <-]|[_ Hj]] Hx; [rewrite Ho in Hx; by apply not_elem_of_nil in Hx|].
    destruct (Hold j dj Hj) as (_ & E & _). by rewrite <- E. }
  split; [|split].
  - split; [done| | |..].
    + intros j. rewrite lookup_insert_is_Some', (so_inodes _ _ _ _ _ S j). split.
      * intros [<-|[Hj Hb]]; [split; [done|]; rewrite Hbits by done; by rewrite Z.eqb_refl|]. split; [done|]. by rewrite Hbits, Hb, orb_true_r.
      * intros [Hj Hb]. rewrite Hbits in Hb by done. apply orb_true_iff in Hb as [->%Z.eqb_eq|Hb]; [by left|by right].
    + intros j dj. rewrite lookup_insert_Some. intros [[_ <-]|[_ Hj]]; [done|by apply (Hold j)].
    + intros j k dj dk x Hj Hk Hxj Hxk. destruct (Hin j dj x Hj Hxj), (Hin k dk x Hk Hxk). by apply (so_apart _ _ _ _ _ S j k dj dk x).
    + apply NoDup_nil_2.
    + intros j dj x Hj Hx. apply not_elem_of_nil.
    + intros j dj x Hj Hx. destruct (Hin j dj x Hj Hx) as [Hj' Hx']. destruct (so_area _ _ _ _ _ S j dj x Hj' Hx'). split; [done|by apply Hu].
    + by intros x Hx%not_elem_of_nil.
    + intros x Hx Hux%Hu; [|done]. destruct (so_used _ _ _ _ _ S x Hx Hux) as [Hn|(j & dj & Hj & Hxj)]; [by apply not_elem_of_nil in Hn|right].
      exists j, dj. split; [rewrite lookup_insert_ne; [done|intros ->; congruence]|]. destruct (Hold j dj Hj) as (_ & -> & _). done.
    + intros x Hx Hux. rewrite Hfr by lia. apply (so_zero _ _ _ _ _ S); [done|]. by rewrite <- Hu.
  - unfold contents. rewrite fmap_insert, Ec. f_equal. apply map_fmap_ext. intros j dj Hj. f_equal. by apply (Hold j).
  - apply set_eq. intros x. rewrite !elem_of_free. split; intros [? H]; (split; [done|]); by rewrite Hu in * by done.
Qed.

Lemma alloc_inode_spec D N : store_ok D N [] → Z.of_nat (size N) < inodes → Z.of_nat (size N) < 2 ^ 32 →
  ∃ p D', run (alloc_inode efs) ∅ D = FDone p ∅ D' ∧ allocated ib ∅ D D' p ∧ N !! p = None ∧ p < 2 ^ 32 ∧ ∀ j, 0 ≤ j < p → is_Some (N !! j).
Proof.
  intros S Hsz Hsz'. pose proof (areas efs total Ge) as A. assert (HL : guards ∅) by (split; [rewrite size_empty; unfold BLOCK_CACHE_SIZE; lia|set_solver]).
  assert (Hall : ∀ p, 0 ≤ p ≤ inodes → (∀ j, 0 ≤ j < p → bit_at ib D j = true) → p ≤ Z.of_nat (size N) ∧ ∀ j, 0 ≤ j < p → is_Some (N !! j)).
  { intros p Hp Hb. assert (Hs : ∀ j, 0 ≤ j < p → is_Some (N !! j)) by (intros j Hj; apply (so_inodes _ _ _ _ _ S); split; [lia|by apply Hb]). split; [|done].
    assert (H : (Z.to_nat p ≤ size N)%nat); [|lia]. rewrite <- (length_seqZ 0 p), <- (size_list_to_set (C := gset Z)), <- (size_dom N) by apply NoDup_seqZ.
    apply subseteq_size. intros j Hj%elem_of_list_to_set%elem_of_seqZ. apply elem_of_dom, Hs. lia. }
  destruct (Bitmap_alloc_spec ib ∅ D (inode_bitmap_ok efs total Ge ∅ D N [] HL S)) as (o & D' & Hr & Ho). change BLOCK_BITS with 4096 in Ho.
  destruct o as [p|]; [|destruct Ho as [_ Hb]; destruct (Hall inodes); [lia|done|lia]].
  pose proof (al_range _ _ _ _ _ Ho) as Hp. change BLOCK_BITS with 4096 in Hp. destruct (Hall p ltac:(lia) (al_first _ _ _ _ _ Ho)) as [Hle Hs].
  exists p, D'. split; [|split; [done|split; [|split; [lia|done]]]].
  - unfold alloc_inode. rewrite run_bind, Hr. cbn [unwrap lift mbind prog_bind]. rewrite wrap_small by lia. done.
  - destruct (N !! p) as [dp|] eqn:E; [|done]. destruct (proj1 (so_inodes _ _ _ _ _ S p) (mk_is_Some _ _ E)) as [_ H]. by rewrite (al_free _ _ _ _ _ Ho) in H.
Qed.

Lemma initialize_ok t di : DiskInode_ok di → DiskInode_ok (DiskInode_initialize t di).
Proof.
  intros [Hl Hw]. split; [cbn; by rewrite length_fmap|]. unfold DiskInode_words in *. cbn. apply Forall_cons. split; [done|]. apply Forall_app. split; [|by repeat constructor].
  apply Forall_fmap, Forall_forall. by intros.
Qed.
End fs.
