(* ===== verification/FsTree.v ===== *)
(** * FsTree.v: the file system as a tree of files and directories

    The specification of easy-fs: a map from inode numbers to files (their bytes) and directories
    (their entries), and what each operation of [Inode] does to it.  [represents] says that a disk
    holds such a tree; FsSpec.v proves that the operations implement the specification. *)

From S2P Require Import Prelude Bytes BlockProg Bitmap Layout DiskInode Efs Vfs FileGrow FsInv FsOps.

(** ** Directories as bytes *)

Definition dirent (e : list Z * Z) : DirEntry := mkDirEntry (e.1 ++ replicate (28 - length e.1) 0) e.2.

Definition dir_bytes (es : list (list Z * Z)) : list Z := es ≫= λ e, DirEntry_as_bytes (dirent e).

Definition good_entry (e : list Z * Z) : Prop := short_name e.1 ∧ 0 ≤ e.2 < 2 ^ 32.

Lemma dirent_length e : good_entry e → length (dename (dirent e)) = 28%nat ∧ length (DirEntry_as_bytes (dirent e)) = 32%nat.
Proof.
  destruct e as [name n]. intros [(_ & Hl & _) _]. cbn [fst] in Hl. assert (H : length (dename (dirent (name, n))) = 28%nat).
  { unfold dirent. cbn [dename fst]. rewrite length_app, length_replicate. lia. }
  split; [done|]. unfold DirEntry_as_bytes. by rewrite length_app, H, length_le_bytes.
Qed.

Lemma dir_bytes_app es fs : dir_bytes (es ++ fs) = dir_bytes es ++ dir_bytes fs.
Proof. apply bind_app. Qed.

Lemma dir_bytes_length es : Forall good_entry es → zlen (dir_bytes es) = 32 * zlen es.
Proof.
  induction 1 as [|e es He _ IH]; [done|]. change (dir_bytes (e :: es)) with (DirEntry_as_bytes (dirent e) ++ dir_bytes es).
  unfold zlen in *. rewrite length_app, (proj2 (dirent_length e He)). cbn [length]. lia.
Qed.

Lemma dir_bytes_ok es : Forall good_entry es → bytes_ok (dir_bytes es).
Proof.
  induction 1 as [|e es [(Hb & _) _] _ IH]; [constructor|]. apply Forall_app. split; [|exact IH]. apply Forall_app.
  split; [|apply bytes_ok_le_bytes]. apply Forall_app. split; [done|]. by apply Forall_replicate.
Qed.

(** The entry [i] of the directory with the bytes [bs], and all of them. *)
Definition parse_entry (bs : list Z) (i : Z) : outcome (list Z * Z) :=
  let de := DirEntry_of_bytes (slice (Z.to_nat (32 * i)) 32 bs) in
  s ← DirEntry_name de; mret (s, de_inode_number de).

Fixpoint parse_from (bs : list Z) (n : nat) (i : Z) : outcome (list (list Z * Z)) :=
  match n with
  | O => mret []
  | S n => e ← parse_entry bs i; es ← parse_from bs n (i + 1); mret (e :: es)
  end.

Lemma parse_dir_bytes es : ∀ pre i, 0 ≤ i → zlen pre = 32 * i → Forall good_entry es → parse_from (pre ++ dir_bytes es) (length es) i = Done es.
Proof.
  induction es as [|e es IH]; intros pre i Hi Hp H; [done|]. apply Forall_cons in H as [He H]. destruct (dirent_length e He) as [Hd Hl].
  cbn [length parse_from]. assert (Es : slice (Z.to_nat (32 * i)) 32 (pre ++ dir_bytes (e :: es)) = DirEntry_as_bytes (dirent e)).
  { unfold slice. unfold zlen in Hp. rewrite drop_app_ge by lia. replace (Z.to_nat (32 * i) - length pre)%nat with O by lia. rewrite drop_0.
    cbn [dir_bytes mbind list_bind]. rewrite take_app_le, take_ge by lia. done. }
  assert (Ee : parse_entry (pre ++ dir_bytes (e :: es)) i = Done e).
  { unfold parse_entry. rewrite Es, DirEntry_bytes_roundtrip by (done || apply He). rewrite (DirEntry_name_new e.1 e.2) by (apply He || (apply DirEntry_new_spec; destruct He as [(_ & ? & _) _]; lia)).
    by destruct e. }
  rewrite Ee. cbn [mbind outcome_bind]. replace (pre ++ dir_bytes (e :: es)) with ((pre ++ DirEntry_as_bytes (dirent e)) ++ dir_bytes es) by (rewrite <- app_assoc; done).
  rewrite IH; [done|lia| |done]. unfold zlen in *. rewrite length_app. lia.
Qed.

Section parse.
Context (D : gmap Z block) (di : DiskInode) (F : file_inv D di).

Lemma content_byte i : 0 ≤ i < di_size di → is_Some (file_byte di D i).
Proof. intros Hi. destruct (size_blocks di (fi_size _ _ F)). destruct (byte_of _ di D i (fi_tree _ _ F)) as (b & _ & _ & -> & Hb); [lia|done]. Qed.

Lemma entry_parse i : 0 ≤ i → 32 * i + 32 ≤ di_size di → named_entry di D i = parse_entry (content D di) i.
Proof.
  intros Hi Hs. unfold named_entry, parse_entry, entry. change DIRENT_SZ with 32.
  assert (E : (λ j, default 0 (file_byte di D j)) <$> seqZ (32 * i) 32 = slice (Z.to_nat (32 * i)) 32 (content D di)); [|by rewrite E].
  apply list_eq. intros k. rewrite lookup_slice, list_lookup_fmap. case_decide as Hk.
  - replace (Z.to_nat (32 * i) + k)%nat with (Z.to_nat (32 * i + Z.of_nat k)) by lia. rewrite content_lookup, lookup_seqZ_lt by lia. done.
  - rewrite lookup_seqZ_ge by lia. done.
Qed.

Lemma dir_entries_parse : dir_entries di D = parse_from (content D di) (Z.to_nat (zlen (content D di) / 32)) 0.
Proof.
  pose proof (fi_size _ _ F) as Hsz. unfold dir_entries, file_count. change DIRENT_SZ with 32. assert (El : zlen (content D di) = di_size di) by (unfold zlen; rewrite length_content; lia).
  rewrite El. assert (H : ∀ n i, 0 ≤ i → 32 * (i + Z.of_nat n) ≤ di_size di → entries_from di D n i = parse_from (content D di) n i); [|apply H; [done|dlia]].
  induction n as [|n IH]; intros i Hi Hn; [done|]. cbn [entries_from parse_from]. rewrite entry_parse by lia. destruct (parse_entry (content D di) i); [|done].
  cbn [mbind outcome_bind]. by rewrite IH by lia.
Qed.

Lemma dir_entries_bytes es : content D di = dir_bytes es → Forall good_entry es → dir_entries di D = Done es ∧ file_count di = zlen es.
Proof.
  intros E H. pose proof (dir_bytes_length es H) as Hl. pose proof (fi_size _ _ F) as Hsz.
  assert (El : zlen (content D di) = di_size di) by (unfold zlen; rewrite length_content; lia). rewrite E in El. split.
  - rewrite dir_entries_parse, E, Hl. replace (32 * zlen es / 32) with (zlen es) by dlia. unfold zlen. rewrite Nat2Z.id. by apply (parse_dir_bytes es [] 0).
  - unfold file_count. change DIRENT_SZ with 32. rewrite <- El, Hl. dlia.
Qed.
End parse.

(** ** The tree *)

Inductive node : Type := FileNode (bs : list Z) | DirNode (es : list (list Z * Z)).

Definition encode (n : node) : DiskInodeType * list Z :=
  match n with FileNode bs => (File, bs) | DirNode es => (Directory, dir_bytes es) end.

Definition node_size (n : node) : Z := zlen (encode n).2.

Notation fs_tree := (gmap Z node).

(** The blocks that the files and directories take. *)
Definition node_blocks (n : node) : Z := tree_count (_data_blocks (node_size n)).
Definition used_blocks (T : fs_tree) : Z := map_fold (λ _ n acc, node_blocks n + acc) 0 T.

Lemma used_blocks_new T i n : T !! i = None → used_blocks (<[i := n]> T) = node_blocks n + used_blocks T.
Proof. intros H. unfold used_blocks. rewrite map_fold_insert_L; [done|intros; lia|done]. Qed.

Lemma used_blocks_insert T i n n' : T !! i = Some n → used_blocks (<[i := n']> T) = used_blocks T - node_blocks n + node_blocks n'.
Proof.
  intros H. pose proof (lookup_delete_eq T i) as Hd. rewrite <- (insert_delete_eq T i n'), (used_blocks_new _ i n' Hd).
  rewrite <- (insert_delete_id T i n H) at 2. rewrite (used_blocks_new _ i n Hd). lia.
Qed.

(** Every entry of a directory has a name and leads to a file or a directory. *)
Record tree_wf (T : fs_tree) : Prop := {
  tw_entries : ∀ i es, T !! i = Some (DirNode es) → Forall good_entry es;
  tw_target : ∀ i es e, T !! i = Some (DirNode es) → e ∈ es → is_Some (T !! e.2);
}.

(** *** What the operations do *)

Definition empty_node (t : DiskInodeType) : node := match t with File => FileNode [] | Directory => DirNode [] end.

(** The inode at the end of a path; a step from a file leads nowhere. *)
Fixpoint walk (T : fs_tree) (i : Z) (names : list (list Z)) : option Z :=
  match names with
  | [] => Some i
  | name :: names =>
      match T !! i with
      | Some (DirNode es) => j ← assoc name es; walk T j names
      | _ => None
      end
  end.

Inductive request : Type :=
| QFind (i : Z) (path : list Z)
| QLs (i : Z)
| QSize (i : Z)
| QRead (i off : Z) (buf : list Z)
| QWrite (i off : Z) (buf : list Z)
| QClear (i : Z)
| QCreate (d : Z) (name : list Z) (t : DiskInodeType).

(** A reply names an inode; what that is differs between the specification and the code. *)
Inductive reply (I : Type) : Type :=
| AInode (o : option I)
| ANames (l : list (list Z))
| ANumber (n : Z)
| ARead (n : Z) (buf : list Z)
| AUnit.
Arguments AInode {I} o.
Arguments ANames {I} l.
Arguments ANumber {I} n.
Arguments ARead {I} n buf.
Arguments AUnit {I}.

Definition reply_map {I J} (f : I → J) (r : reply I) : reply J :=
  match r with
  | AInode o => AInode (f <$> o)
  | ANames l => ANames l
  | ANumber n => ANumber n
  | ARead n buf => ARead n buf
  | AUnit => AUnit
  end.

(** How many bytes a read from [off] returns, and the buffer after it. *)
Definition read_length (bs : list Z) (off : Z) (buf : list Z) : Z := Z.max 0 (Z.min (zlen buf) (zlen bs - off)).
Definition read_into (bs : list Z) (off : Z) (buf : list Z) : list Z :=
  slice (Z.to_nat off) (Z.to_nat (read_length bs off buf)) bs ++ drop (Z.to_nat (read_length bs off buf)) buf.

(** The smallest inode number that is free. *)
Fixpoint free_from (T : fs_tree) (n : nat) (i : Z) : Z :=
  match n with
  | O => i
  | S n => if T !! i is Some _ then free_from T n (i + 1) else i
  end.
Definition first_free (T : fs_tree) : Z := free_from T (size T) 0.

(** The operations on the tree; [None] where the operation asks for another kind of node. *)
Definition fs_apply (T : fs_tree) (q : request) : option (reply Z * fs_tree) :=
  match q with
  | QFind i path => mret (AInode (walk T i (path_names path)), T)
  | QLs i => n ← T !! i; mret (ANames (match n with DirNode es => es.*1 | FileNode _ => [] end), T)
  | QSize i => n ← T !! i; mret (ANumber (node_size n), T)
  | QRead i off buf =>
      n ← T !! i;
      let bs := (encode n).2 in
      mret (ARead (read_length bs off buf) (read_into bs off buf), T)
  | QWrite i off buf =>
      n ← T !! i;
      match n with
      | FileNode bs => Some (ANumber (zlen buf), <[i := FileNode (overwrite bs off buf)]> T)
      | DirNode _ => None
      end
  | QClear i =>
      n ← T !! i;
      match n with
      | FileNode _ => Some (AUnit, <[i := FileNode []]> T)
      | DirNode _ => None
      end
  | QCreate d name t =>
      n ← T !! d;
      match n with
      | FileNode _ => None
      | DirNode es =>
          match assoc name es with
          | Some _ => Some (AInode None, T)
          | None =>
              let i := first_free T in
              Some (AInode (Some i), <[d := DirNode (es ++ [(name, i)])]> (<[i := empty_node t]> T))
          end
      end
  end.

(** One request after the other. *)
Fixpoint fs_applys (T : fs_tree) (qs : list request) : option (list (reply Z) * fs_tree) :=
  match qs with
  | [] => Some ([], T)
  | q :: qs => '(r, T1) ← fs_apply T q; '(rs, T2) ← fs_applys T1 qs; mret (r :: rs, T2)
  end.

(** ** When the file system has room for a request

    [nodes] and [room] are the inodes and the data blocks of the file system. *)
Definition ready (nodes room : Z) (T : fs_tree) (q : request) : Prop :=
  match q with
  | QFind i _ | QLs i | QSize i => is_Some (T !! i)
  | QRead i off buf => is_Some (T !! i) ∧ 0 ≤ off ∧ off + zlen buf < 2 ^ 64
  | QWrite i off buf =>
      match T !! i with
      | Some (FileNode bs) => bytes_ok buf ∧ 0 ≤ off ∧ 0 < zlen buf ∧ off + zlen buf ≤ max_size ∧
          used_blocks T + blocks_for (zlen bs) (Z.max (zlen bs) (off + zlen buf)) ≤ room
      | _ => False
      end
  | QClear i => if T !! i is Some (FileNode _) then True else False
  | QCreate d name _ =>
      match T !! d with
      | Some (DirNode es) =>
          match assoc name es with
          | Some _ => True
          | None => short_name name ∧ Z.of_nat (size T) < nodes ∧ Z.of_nat (size T) < 2 ^ 32 ∧
              32 * zlen es + 32 ≤ max_size ∧ used_blocks T + blocks_for (32 * zlen es) (32 * zlen es + 32) ≤ room
          end
      | _ => False
      end
  end.

#[export] Instance ready_dec nodes room T q : Decision (ready nodes room T q).
Proof. destruct q; cbn [ready]; unfold short_name, byte_ok; repeat case_match; apply _. Defined.

Fixpoint all_ready (nodes room : Z) (T : fs_tree) (qs : list request) : Prop :=
  match qs with
  | [] => True
  | q :: qs => ready nodes room T q ∧ (if fs_apply T q is Some (_, T') then all_ready nodes room T' qs else True)
  end.

#[export] Instance all_ready_dec nodes room T qs : Decision (all_ready nodes room T qs).
Proof. revert T. induction qs as [|q qs IH]; intros T; cbn [all_ready]; [apply _|]. apply and_dec; [apply _|]. destruct (fs_apply T q) as [[? ?]|]; apply _. Defined.

(** ** Facts about the specification *)

Lemma first_free_is T p : 0 ≤ p → T !! p = None → (∀ j, 0 ≤ j < p → is_Some (T !! j)) → first_free T = p ∧ p ≤ Z.of_nat (size T).
Proof.
  intros Hp Hn Hs. assert (Hsz : (Z.to_nat p ≤ size T)%nat).
  { rewrite <- (length_seqZ 0 p), <- (size_list_to_set (C := gset Z)), <- (size_dom T) by apply NoDup_seqZ. apply subseteq_size.
    intros j Hj%elem_of_list_to_set%elem_of_seqZ. apply elem_of_dom, Hs. lia. }
  split; [|lia]. assert (H : ∀ n i, 0 ≤ i ≤ p → (Z.to_nat (p - i) ≤ n)%nat → free_from T n i = p); [|apply H; lia].
  induction n as [|n IH]; intros i Hi Hd; cbn [free_from]; [lia|]. destruct (decide (i = p)) as [->|Hne]; [by rewrite Hn|].
  destruct (Hs i) as [x ->]; [lia|]. apply IH; lia.
Qed.

Lemma assoc_elem name es j : assoc name es = Some j → (name, j) ∈ es.
Proof.
  induction es as [|[s k] es IH]; [done|]. cbn. case_bool_decide as E; [subst s; intros [= ->]; by left|]. intros H. right. by apply IH.
Qed.

Lemma zlen_overwrite bs off buf : 0 ≤ off → zlen (overwrite bs off buf) = Z.max (zlen bs) (off + zlen buf).
Proof.
  intros Ho. unfold overwrite, zlen. rewrite length_splice; rewrite length_app, length_replicate; lia.
Qed.

Lemma overwrite_end bs buf : overwrite bs (zlen bs) buf = bs ++ buf.
Proof.
  unfold overwrite, zlen. replace (Z.to_nat (_ + _ - _)) with (length buf) by lia. rewrite Nat2Z.id. unfold splice.
  rewrite take_app_le, take_ge by lia. f_equal. rewrite drop_ge by (rewrite length_app, length_replicate; lia). apply app_nil_r.
Qed.

Lemma node_blocks_eq n t bs : encode n = (t, bs) → node_blocks n = tree_count (_data_blocks (zlen bs)).
Proof. unfold node_blocks, node_size. by intros ->. Qed.

Lemma tree_wf_insert_file T i bs : tree_wf T → (∀ es, T !! i ≠ Some (DirNode es)) → tree_wf (<[i := FileNode bs]> T).
Proof.
  intros [H1 H2] Hi. split.
  - intros j es [[_ ?]|[_ Hj]]%lookup_insert_Some; [done|by apply (H1 j)].
  - intros j es e [[_ ?]|[_ Hj]]%lookup_insert_Some He; [done|]. rewrite lookup_insert_is_Some'. right. by apply (H2 j es).
Qed.

Lemma tree_wf_create T d es name i t : tree_wf T → T !! d = Some (DirNode es) → T !! i = None → short_name name → 0 ≤ i < 2 ^ 32 →
  tree_wf (<[d := DirNode (es ++ [(name, i)])]> (<[i := empty_node t]> T)).
Proof.
  intros [H1 H2] Hd Hi Hn Hr. split.
  - intros j fs [[_ [= <-]]|[_ [[_ E]|[_ Hj]]%lookup_insert_Some]]%lookup_insert_Some.
    + apply Forall_app. split; [by apply (H1 d)|]. by apply Forall_singleton.
    + destruct t; [done|by injection E as <-].
    + by apply (H1 j).
  - intros j fs e Hj He. rewrite !lookup_insert_is_Some'. revert Hj. intros [[_ [= <-]]|[_ [[_ E]|[_ Hj]]%lookup_insert_Some]]%lookup_insert_Some.
    + apply elem_of_app in He as [He| ->%list_elem_of_singleton]; [right; right; by apply (H2 d es)|by right; left].
    + destruct t; [done|injection E as <-; by apply not_elem_of_nil in He].
    + right; right. by apply (H2 j fs).
Qed.
