(* ===== verification/FsSpec.v ===== *)
(** * FsSpec.v: easy-fs implements the tree of files and directories

    [represents D T] says that the disk [D] holds the tree [T] and that every data block that no
    node of the tree needs is free.  Each operation of [Inode] ([perform]) on such a disk returns
    what [fs_apply] returns and leaves a disk that represents what [fs_apply] leaves: it never
    panics and never asks the device for a block that is not there. *)

From S2P Require Import Prelude Bytes BlockProg Bitmap Layout DiskInode Efs Vfs FileGrow FsInv FsOps FsTree.

Section fs.
Context (efs : EasyFileSystem) (total : Z) (Ge : geometry efs total).
Notation ib := (inode_bitmap efs).
Notation db := (data_bitmap efs).
Notation ia := (inode_area_start_block efs).
Notation da := (data_area_start_block efs).
Notation inodes := (blocks (inode_bitmap efs) * 4096).
Notation store_ok := (store_ok efs total).
Notation fs_ok := (fs_ok efs total).
Notation free_blocks := (free_blocks efs total).
Notation holds := (holds efs total).
Notation inode := (inode efs).

(** The request as the code serves it. *)
Definition perform (q : request) : prog (reply Inode) :=
  match q with
  | QFind i path => o ← find efs (inode i) path; mret (AInode o)
  | QLs i => l ← ls (inode i); mret (ANames l)
  | QSize i => n ← get_inode_size (inode i); mret (ANumber n)
  | QRead i off buf => '(n, buf) ← Inode_read_at (inode i) off buf; mret (ARead n buf)
  | QWrite i off buf => n ← Inode_write_at efs (inode i) off buf; mret (ANumber n)
  | QClear i => clear efs (inode i);; mret AUnit
  | QCreate d name t => o ← create_inode efs (inode d) name t; mret (AInode o)
  end.

Fixpoint serve (qs : list request) : prog (list (reply Inode)) :=
  match qs with
  | [] => mret []
  | q :: qs => r ← perform q; rs ← serve qs; mret (r :: rs)
  end.

(** The super block describes the file system. *)
Definition super_there (D : gmap Z block) : Prop :=
  ∃ b sb, D !! 0 = Some b ∧ view_block SuperBlockC 0 b = Done sb ∧ SuperBlock_is_valid sb = true ∧ efs_of_super_block sb = efs.

Lemma super_frame D D' : super_there D → D' !! 0 = D !! 0 → super_there D'.
Proof. unfold super_there. by intros ? ->. Qed.

Lemma open_run D : super_there D → run open_fs ∅ D = FDone efs ∅ D.
Proof.
  intros (b & sb & Hb & Hv & Hs & E). apply (run_cache_read SuperBlockC 0 0 _ ∅ D D b sb); [apply can_hold_empty|done|done|].
  rewrite Hs. cbn. by rewrite E.
Qed.

Record represents (D : gmap Z block) (T : fs_tree) : Prop := {
  re_wf : tree_wf T;
  re_holds : holds D (encode <$> T);
  re_free : Z.of_nat (size (free_blocks D)) = total - da - used_blocks T;
  re_super : super_there D;
}.

(** ** Looking at directories *)

Lemma node_inode D T i n : holds D (encode <$> T) → T !! i = Some n →
  ∃ N di, fs_ok D N ∧ contents D N = encode <$> T ∧ N !! i = Some di ∧ type_ di = (encode n).1 ∧ content D di = (encode n).2.
Proof.
  intros (N & H & E) Hi. assert (Hc : contents D N !! i = Some (encode n)) by by rewrite E, lookup_fmap, Hi.
  destruct (encode n) as [t bs]. destruct (contents_inode D N i t bs Hc) as (di & Hdi & <- & <-). by exists N, di.
Qed.

Lemma directory_inode D N i di es L : fs_ok D N → N !! i = Some di → guards efs L → type_ di = Directory → content D di = dir_bytes es →
  Forall good_entry es → is_file di = false ∧ is_dir di = true ∧ file_count di = zlen es ∧
  run (ls_from di (Z.to_nat (file_count di)) 0) L D = FDone es.*1 L D ∧ ∀ name, run (find_inode_id name di) L D = FDone (assoc name es) L D.
Proof.
  intros [S T] Hi HL Ht Ec Hes. pose proof (so_file _ _ _ _ _ S i di Hi) as F. unfold is_file, is_dir. rewrite Ht.
  destruct (tree_file _ di D (fi_tree _ _ F) L eq_refl (fi_size _ _ F) ltac:(destruct HL; lia)) as [Fo _].
  { intros x Hx. by apply (own_guard efs total Ge L D N [] i di x HL S Hi). }
  destruct (dir_entries_bytes D di F es Ec Hes) as [Hd Hc]. assert (Hdir : is_dir di = true) by (unfold is_dir; by rewrite Ht).
  do 3 (split; [done|]). split.
  - destruct (directory_run L D di Fo [] Hdir) as [-> _]. by rewrite Hd.
  - intros name. by apply (directory_run L D di Fo name Hdir).
Qed.

Lemma find_names_run D T names : ∀ i, represents D T → is_Some (T !! i) →
  run (find_names efs names (inode i)) ∅ D = FDone (inode <$> walk T i names) ∅ D.
Proof.
  induction names as [|name names IH]; intros i R [n Hn]; [done|]. cbn [find_names walk]. rewrite Hn.
  destruct (node_inode D T i n (re_holds _ _ R) Hn) as (N & di & H & EN & Hi & Ht & Ec). destruct (inode_there efs total Ge D N i di H Hi) as (Hr & _).
  destruct (inode_guard efs total Ge i Hr) as [HL _]. rewrite run_bind.
  destruct n as [bs|es]; cbn [encode fst snd] in *.
  - rewrite (read_inode efs total Ge D N i di _ None H Hi); [done|]. unfold is_file. by rewrite Ht.
  - destruct (directory_inode D N i di es _ H Hi HL Ht Ec (tw_entries _ (re_wf _ _ R) i es Hn)) as (Hf & _ & _ & _ & Hfi).
    rewrite (read_inode efs total Ge D N i di _ (assoc name es) H Hi) by by rewrite Hf.
    destruct (assoc name es) as [j|] eqn:Ej; [|done]. cbn [mbind option_bind]. fold (inode j).
    assert (Hj : is_Some (T !! j)) by by apply (tw_target _ (re_wf _ _ R) i es (name, j) Hn), assoc_elem.
    rewrite <- (IH j R Hj). unfold FsOps.inode. by destruct (get_disk_inode_pos efs j).
Qed.

Lemma ls_run D T i n : represents D T → T !! i = Some n →
  run (ls (inode i)) ∅ D = FDone (match n with DirNode es => es.*1 | FileNode _ => [] end) ∅ D.
Proof.
  intros R Hn. destruct (node_inode D T i n (re_holds _ _ R) Hn) as (N & di & H & EN & Hi & Ht & Ec). destruct (inode_there efs total Ge D N i di H Hi) as (Hr & _).
  destruct (inode_guard efs total Ge i Hr) as [HL _]. unfold ls. destruct n as [bs|es]; cbn [encode fst snd] in *.
  - apply (read_inode efs total Ge D N i di _ [] H Hi). unfold is_file. by rewrite Ht.
  - destruct (directory_inode D N i di es _ H Hi HL Ht Ec (tw_entries _ (re_wf _ _ R) i es Hn)) as (Hf & _ & _ & Hl & _).
    apply (read_inode efs total Ge D N i di _ es.*1 H Hi). by rewrite Hf.
Qed.

Lemma get_inode_size_run D T i n : represents D T → T !! i = Some n →
  ∃ D', run (get_inode_size (inode i)) ∅ D = FDone (node_size n) ∅ D' ∧ represents D' T.
Proof.
  intros [Hwf Hh Hfree Hsu] Hn. destruct (node_inode D T i n Hh Hn) as (N & di & H & EN & Hi & Ht & Ec). destruct (inode_there efs total Ge D N i di H Hi) as (_ & Hok & _).
  pose proof H as [S _]. pose proof (fi_size _ _ (so_file _ _ _ _ _ S i di Hi)) as Hs.
  destruct (modify_inode efs total Ge D D N i di di (λ disk_inode, mret (di_size disk_inode, disk_inode)) (di_size di) H Hi) as (D' & Hm & H' & Ec' & Hf & H0);
    [done|done|by rewrite insert_id|done|]. rewrite insert_id in * by done.
  exists D'. split; [|split; [done|exists N; by rewrite Ec'|by rewrite Hf|by apply (super_frame D)]].
  unfold get_inode_size. rewrite Hm. f_equal. unfold node_size. rewrite <- Ec, (zlen_content efs total D N i di H Hi). done.
Qed.

Lemma write_at_run D T i bs off buf : represents D T → T !! i = Some (FileNode bs) → bytes_ok buf → 0 ≤ off → 0 < zlen buf → off + zlen buf ≤ max_size →
  used_blocks T + blocks_for (zlen bs) (Z.max (zlen bs) (off + zlen buf)) ≤ total - da →
  ∃ D', run (Inode_write_at efs (inode i) off buf) ∅ D = FDone (zlen buf) ∅ D' ∧ represents D' (<[i := FileNode (overwrite bs off buf)]> T).
Proof.
  intros [Hwf Hh Hfree Hsu] Hn Hb Ho Hl Hmax Hroom.
  destruct (inode_write_at efs total Ge D _ i bs off buf Hh ltac:(by rewrite lookup_fmap, Hn) Hb Ho Hl Hmax ltac:(lia)) as (D' & Hr & Hh' & Hf' & H0).
  exists D'. split; [done|split].
  - apply tree_wf_insert_file; [done|]. intros es. by rewrite Hn.
  - by rewrite fmap_insert.
  - rewrite Hf', Hfree, (used_blocks_insert T i _ _ Hn). unfold node_blocks, node_size, blocks_for. cbn [encode snd]. rewrite zlen_overwrite by done. lia.
  - by apply (super_frame D).
Qed.

Lemma clear_run D T i bs : represents D T → T !! i = Some (FileNode bs) →
  ∃ D', run (clear efs (inode i)) ∅ D = FDone tt ∅ D' ∧ represents D' (<[i := FileNode []]> T).
Proof.
  intros [Hwf Hh Hfree Hsu] Hn. destruct (inode_clear efs total Ge D _ i bs Hh ltac:(by rewrite lookup_fmap, Hn)) as (D' & Hr & Hh' & Hf' & H0).
  exists D'. split; [done|split].
  - apply tree_wf_insert_file; [done|]. intros es. by rewrite Hn.
  - by rewrite fmap_insert.
  - rewrite Hf', Hfree, (used_blocks_insert T i _ _ Hn). unfold node_blocks, node_size, blocks_for. cbn [encode snd]. change (zlen (@nil Z)) with 0. lia.
  - by apply (super_frame D).
Qed.

(** ** Creating *)

(** The new inode: allocated, then initialized in its place. *)
Lemma initialize_run D N t : fs_ok D N → Z.of_nat (size N) < inodes → Z.of_nat (size N) < 2 ^ 32 →
  ∃ p D1 D2, run (alloc_inode efs) ∅ D = FDone p ∅ D1 ∧
    run (cache_modify DiskInodeC (in_block_id (inode p)) (Z.to_nat (in_block_offset (inode p))) (λ new_inode, mret (tt, DiskInode_initialize t new_inode))) ∅ D1 = FDone tt ∅ D2 ∧
    0 ≤ p < 2 ^ 32 ∧ N !! p = None ∧ (∀ j, 0 ≤ j < p → is_Some (N !! j)) ∧
    ∃ di', fs_ok D2 (<[p := di']> N) ∧ contents D2 (<[p := di']> N) = <[p := (t, [])]> (contents D N) ∧ free_blocks D2 = free_blocks D ∧ D2 !! 0 = D !! 0.
Proof.
  intros [S T] Hsz Hsz'. pose proof (areas efs total Ge) as A. pose proof (ge_ib _ _ Ge) as Eib.
  destruct (alloc_inode_spec efs total Ge D N S Hsz Hsz') as (p & D1 & Hr & Al & Hp & Hlt & Hall).
  pose proof (al_range _ _ _ _ _ Al) as Hpr. change BLOCK_BITS with 4096 in Hpr. destruct (slot_pos efs total Ge p Hpr) as [Hpos Hfit].
  assert (Hout : ∀ x, ¬ (1 ≤ x < ia) → D1 !! x = D !! x) by (intros x Hx; apply (al_outside _ _ _ _ _ Al); unfold outside; lia).
  assert (Hwf1 : ∀ id, 0 ≤ id < total → ∃ b, D1 !! id = Some b ∧ wf_block b).
  { intros id Hid. destruct (decide (1 ≤ id < ia)); [|rewrite Hout by done; by apply (so_disk _ _ _ _ _ S)].
    destruct (bm_there _ _ _ (al_ok _ _ _ _ _ Al) (id - 1)) as (b & Hb & Hwf & _); [lia|]. replace (start_block_id ib + (id - 1)) with id in Hb by lia. by exists b. }
  destruct (Hwf1 (ia + p / 4)) as (b & Hb & Hwf); [lia|]. destruct (ta_slot _ _ _ T p Hpr) as (di & Hdi). unfold slot in Hdi. rewrite <- Hout, Hb in Hdi by lia.
  pose proof (initialize_ok t di (view_block_ok DiskInodeC _ DiskInodeC_ok _ b di Hwf Hdi)) as Hok. set (di' := DiskInode_initialize t di) in *.
  set (D2 := <[ia + p / 4 := splice (Z.to_nat (p mod 4 * 128)) (cenc DiskInodeC di') b]> D1).
  assert (Hne : ∀ x, x ≠ ia + p / 4 → D2 !! x = D1 !! x) by (intros; unfold D2; by rewrite lookup_insert_ne).
  destruct (store_new efs total Ge D D2 N p di' S Hp Hpr eq_refl (proj1 Hok)) as (S2 & Ec & Ef).
  { intros x Hx. rewrite Hne, Hout by lia. done. }
  { intros id Hid. destruct (decide (id = ia + p / 4)) as [->|Hn]; [|rewrite Hne by done; by apply Hwf1]. eexists. unfold D2. rewrite lookup_insert_eq.
    split; [done|]. by apply (wf_block_write DiskInodeC _ DiskInodeC_ok). }
  { intros j Hj. rewrite <- (al_bits _ _ _ _ _ Al) by done. apply bit_frame; [|done]. intros k Hk. apply Hne. lia. }
  exists p, D1, D2. split; [done|]. split; [|split; [lia|]; split; [done|]; split; [done|]; exists di'; split; [split; [done|]|split; [done|split; [done|]]]].
  - rewrite (inode_pos efs total Ge) by done. cbn [in_block_id in_block_offset Inode_new].
    apply (run_modify_view DiskInodeC _ DiskInodeC_ok _ _ _ ∅ D1 b di tt di'); [apply can_hold_empty|done|done|done|done|done|done].
  - assert (Hsl : ∀ j, 0 ≤ j < inodes → slot efs D2 j = if decide (p = j) then Done di' else slot efs D j).
    { intros j Hj. destruct (slot_pos efs total Ge j Hj) as [Hpj _]. unfold D2. rewrite (slot_write efs total Ge) by (done || apply Hwf).
      case_decide; [done|]. apply slot_frame, Hout. lia. }
    split.
    + intros j Hj. rewrite Hsl by done. case_decide; [by eexists|by apply (ta_slot _ _ _ T)].
    + intros j dj. rewrite lookup_insert_Some. intros [[<- <-]|[Hn Hj]]; [by rewrite Hsl, decide_True|].
      rewrite Hsl by (by apply (inode_range efs total D N [] j dj S)). rewrite decide_False by done. by apply (ta_inode _ _ _ T).
  - rewrite Hne, Hout by lia. done.
Qed.

Lemma overwrite_entry es e : Forall good_entry es → good_entry e →
  overwrite (dir_bytes es) (32 * zlen es) (DirEntry_as_bytes (dirent e)) = dir_bytes (es ++ [e]).
Proof.
  intros Hes He. rewrite <- (dir_bytes_length es Hes), overwrite_end, dir_bytes_app. f_equal. unfold dir_bytes. cbn. by rewrite app_nil_r.
Qed.

(** The entry of the new inode, behind the others. *)
Lemma add_entry_run D N d di es name p : fs_ok D N → N !! d = Some di → type_ di = Directory → content D di = dir_bytes es →
  Forall good_entry es → good_entry (name, p) → 32 * zlen es + 32 ≤ max_size →
  blocks_for (32 * zlen es) (32 * zlen es + 32) ≤ Z.of_nat (size (free_blocks D)) →
  ∃ D', run (modify_disk_inode (inode d) (λ root_inode,
        let file_count := file_count root_inode in
        let new_size := (file_count + 1) * DIRENT_SZ in
        root_inode ← Inode_increase_size efs (u32 new_size) root_inode;
        dirent ← lift (DirEntry_new name p);
        write_at root_inode (file_count * DIRENT_SZ) (DirEntry_as_bytes dirent);;
        mret (tt, root_inode))) ∅ D = FDone tt ∅ D' ∧
    holds D' (<[d := (Directory, dir_bytes (es ++ [(name, p)]))]> (contents D N)) ∧
    Z.of_nat (size (free_blocks D')) = Z.of_nat (size (free_blocks D)) - blocks_for (32 * zlen es) (32 * zlen es + 32) ∧ D' !! 0 = D !! 0.
Proof.
  intros H Hi Ht Ec Hes He Hmax Hroom. destruct (inode_there efs total Ge D N d di H Hi) as (Hr & Hok & _). destruct (inode_guard efs total Ge d Hr) as [HL _].
  destruct (directory_inode D N d di es _ H Hi HL Ht Ec Hes) as (_ & _ & Hc & _). destruct (dirent_length _ He) as [_ Hlen].
  assert (Hz : zlen (DirEntry_as_bytes (dirent (name, p))) = 32) by (unfold zlen; lia). assert (Hn : 0 ≤ zlen es) by (unfold zlen; lia).
  assert (Hb : bytes_ok (DirEntry_as_bytes (dirent (name, p)))).
  { pose proof (dir_bytes_ok [(name, p)] (proj2 (Forall_singleton _ _) He)) as Hb. unfold dir_bytes in Hb. cbn [mbind list_bind] in Hb. by rewrite app_nil_r in Hb. }
  assert (Es : di_size di = 32 * zlen es) by (rewrite <- (zlen_content efs total D N d di H Hi), Ec; by apply dir_bytes_length).
  destruct (grow_write_run efs total Ge _ D N d di (32 * zlen es) _ HL (proj1 H) Hi Hok Hb ltac:(lia) ltac:(lia) ltac:(lia)) as (di' & D1 & D2 & R1 & R2 & Hok' & Et & S2 & Ec2 & Hoth & Hlow & Hf).
  { by rewrite Es, Hz, Z.max_r by lia. }
  rewrite Es, Hz, Z.max_r in Hf by lia. rewrite Hz in R1, R2. rewrite Ec, overwrite_entry in Ec2 by done. pose proof (areas efs total Ge) as A.
  destruct (modify_inode efs total Ge D D2 N d di di' (λ root_inode,
        let file_count := file_count root_inode in
        let new_size := (file_count + 1) * DIRENT_SZ in
        root_inode ← Inode_increase_size efs (u32 new_size) root_inode;
        dirent ← lift (DirEntry_new name p);
        write_at root_inode (file_count * DIRENT_SZ) (DirEntry_as_bytes dirent);;
        mret (tt, root_inode)) tt H Hi) as (D' & Hm & H' & Ec' & Hf' & H0); [|done|done|intros; apply Hlow; lia|].
  - cbv zeta. rewrite Hc. change DIRENT_SZ with 32. unfold max_size in Hmax. rewrite INDIRECT2_BOUND_eq in Hmax. rewrite (wrap_small 32) by lia.
    replace ((zlen es + 1) * 32) with (32 * zlen es + 32) by lia. rewrite run_bind, R1, run_bind. destruct He as [(_ & Hl & _) _]. cbn [fst] in Hl.
    rewrite DirEntry_new_spec by lia. cbn [lift]. rewrite run_ret, run_bind. replace (zlen es * 32) with (32 * zlen es) by lia.
    change (mkDirEntry (name ++ replicate (28 - length name) 0) p) with (dirent (name, p)). by rewrite R2.
  - exists D'. split; [exact Hm|]. split; [|by rewrite Hf'].
    exists (<[d := di']> N). split; [done|]. rewrite Ec', (contents_update D D2) by done. by rewrite Et, Ht, Ec2.
Qed.

Lemma existing_run D T d es name : represents D T → T !! d = Some (DirNode es) →
  run (read_disk_inode (inode d) (λ root_inode, lift (assert_that (is_dir root_inode) PAssert);; find_inode_id name root_inode)) ∅ D = FDone (assoc name es) ∅ D.
Proof.
  intros R Hn. destruct (node_inode D T d _ (re_holds _ _ R) Hn) as (N & di & H & EN & Hi & Ht & Ec). destruct (inode_there efs total Ge D N d di H Hi) as (Hr & _).
  destruct (inode_guard efs total Ge d Hr) as [HL _].
  destruct (directory_inode D N d di es _ H Hi HL Ht Ec (tw_entries _ (re_wf _ _ R) d es Hn)) as (_ & Hd & _ & _ & Hfi).
  apply (read_inode efs total Ge D N d di _ (assoc name es) H Hi). rewrite Hd. cbn [assert_that lift]. by rewrite run_bind, run_ret.
Qed.

Lemma create_run D T d es name t : represents D T → T !! d = Some (DirNode es) → assoc name es = None → short_name name →
  Z.of_nat (size T) < inodes → Z.of_nat (size T) < 2 ^ 32 → 32 * zlen es + 32 ≤ max_size →
  used_blocks T + blocks_for (32 * zlen es) (32 * zlen es + 32) ≤ total - da →
  ∃ D', run (create_inode efs (inode d) name t) ∅ D = FDone (Some (inode (first_free T))) ∅ D' ∧
    represents D' (<[d := DirNode (es ++ [(name, first_free T)])]> (<[first_free T := empty_node t]> T)).
Proof.
  intros R Hn Hno Hname Hsz Hsz' Hmax Hroom. pose proof (existing_run D T d es name R Hn) as Hex. rewrite Hno in Hex. destruct R as [Hwf Hh Hfree Hsu].
  destruct (node_inode D T d _ Hh Hn) as (N & di & H & EN & Hi & Ht & Ec). pose proof (tw_entries _ Hwf d es Hn) as Hes.
  assert (Hdom : ∀ j, is_Some (N !! j) ↔ is_Some (T !! j)).
  { intros j. transitivity (is_Some (contents D N !! j)); [unfold contents; by rewrite lookup_fmap, fmap_is_Some|]. by rewrite EN, lookup_fmap, fmap_is_Some. }
  assert (Es : size N = size T).
  { rewrite <- (size_dom N), <- (size_dom T). f_equal. apply set_eq. intros j. rewrite !elem_of_dom. apply Hdom. }
  destruct (initialize_run D N t H ltac:(lia) ltac:(lia)) as (p & D1 & D2 & R1 & R2 & Hp & Hpn & Hall & dp & H2 & E2 & Ef2 & H02).
  assert (HpT : T !! p = None) by (apply eq_None_not_Some; rewrite <- Hdom, Hpn; by intros [? ?]).
  destruct (first_free_is T p) as [-> _]; [lia|done|intros j Hj; by apply Hdom, Hall|]. assert (Hpd : p ≠ d) by congruence.
  assert (E2' : contents D2 (<[p := dp]> N) = encode <$> <[p := empty_node t]> T) by (rewrite E2, EN, fmap_insert; by destruct t).
  assert (Hd2 : ∃ d2, <[p := dp]> N !! d = Some d2 ∧ type_ d2 = Directory ∧ content D2 d2 = dir_bytes es).
  { apply (contents_inode D2 (<[p := dp]> N) d Directory (dir_bytes es)). by rewrite E2', lookup_fmap, lookup_insert_ne, Hn. }
  destruct Hd2 as (d2 & Hi2 & Ht2 & Ec2).
  destruct (add_entry_run D2 _ d d2 es name p H2 Hi2 Ht2 Ec2 Hes ltac:(by split) Hmax ltac:(rewrite Ef2; lia)) as (D' & R3 & Hh' & Hf' & H03).
  exists D'. split; [|split].
  - unfold create_inode. rewrite run_bind, Hex, run_bind, R1. unfold FsOps.inode in *. destruct (get_disk_inode_pos efs p) as [nb no]. cbn [in_block_id in_block_offset Inode_new] in R2.
    rewrite run_bind, R2, run_bind. match goal with |- context [run ?q ∅ D2] => replace (run q ∅ D2) with (FDone tt ∅ D') by (symmetry; exact R3) end.
    rewrite run_bind. cbn [sync_all run]. by rewrite decide_True.
  - apply tree_wf_create; done.
  - by rewrite fmap_insert, <- E2'.
  - rewrite Hf', Ef2, Hfree, (used_blocks_insert _ d (DirNode es)), used_blocks_new by (done || by rewrite lookup_insert_ne).
    unfold node_blocks, node_size. cbn [encode snd]. rewrite !dir_bytes_length by first [done | apply Forall_app; split; [done|by apply Forall_singleton]].
    assert (Ez : zlen (es ++ [(name, p)]) = zlen es + 1) by (unfold zlen; rewrite length_app; cbn; lia). rewrite Ez.
    replace (32 * (zlen es + 1)) with (32 * zlen es + 32) by lia. assert (Hempty : zlen (encode (empty_node t)).2 = 0) by by destruct t.
    rewrite Hempty. change (tree_count (_data_blocks 0)) with 0. unfold blocks_for. lia.
  - apply (super_frame D); [done|]. by rewrite H03.
Qed.

(** ** The refinement *)

Lemma perform_refines D T q : represents D T → ready inodes (total - da) T q →
  ∃ r T' D', fs_apply T q = Some (r, T') ∧ run (perform q) ∅ D = FDone (reply_map inode r) ∅ D' ∧ represents D' T'.
Proof.
  intros R Hq. destruct q as [i path|i|i|i off buf|i off buf|i|d name t]; cbn [fs_apply perform ready] in *.
  - eexists _, _, D. split; [done|]. split; [|done]. unfold find. by rewrite run_bind, (find_names_run D T).
  - destruct Hq as [n Hn]. rewrite Hn. eexists _, _, D. split; [done|]. split; [|done]. by rewrite run_bind, (ls_run D T i n R Hn).
  - destruct Hq as [n Hn]. rewrite Hn. destruct (get_inode_size_run D T i n R Hn) as (D' & Hr & R'). eexists _, _, D'. split; [done|]. split; [|done].
    by rewrite run_bind, Hr.
  - destruct Hq as ([n Hn] & Ho & Hl). rewrite Hn. eexists _, _, D. split; [done|]. split; [|done]. rewrite run_bind. destruct (encode n) as [t bs] eqn:En.
    rewrite (inode_read_at efs total Ge D _ i t bs off buf (re_holds _ _ R)); [done|by rewrite lookup_fmap, Hn; cbn; rewrite En|done|done].
  - destruct (T !! i) as [[bs|es]|] eqn:Hn; [|done..]. destruct Hq as (Hb & Ho & Hl & Hmax & Hroom).
    destruct (write_at_run D T i bs off buf R Hn Hb Ho Hl Hmax Hroom) as (D' & Hr & R'). eexists _, _, D'. split; [done|]. split; [|done]. by rewrite run_bind, Hr.
  - destruct (T !! i) as [[bs|es]|] eqn:Hn; [|done..]. destruct (clear_run D T i bs R Hn) as (D' & Hr & R'). eexists _, _, D'. split; [done|]. split; [|done]. by rewrite run_bind, Hr.
  - destruct (T !! d) as [[bs|es]|] eqn:Hn; [done| |done]. cbn [mbind option_bind]. destruct (assoc name es) as [j|] eqn:Ej.
    + eexists _, _, D. split; [done|]. split; [|done]. pose proof (existing_run D T d es name R Hn) as Hex. rewrite Ej in Hex. unfold create_inode. by rewrite !run_bind, Hex.
    + destruct Hq as (Hname & Hsz & Hsz' & Hmax & Hroom). destruct (create_run D T d es name t R Hn Ej Hname Hsz Hsz' Hmax Hroom) as (D' & Hr & R').
      eexists _, _, D'. split; [done|]. split; [|done]. by rewrite run_bind, Hr.
Qed.

Lemma serve_refines qs : ∀ D T, represents D T → all_ready inodes (total - da) T qs →
  ∃ rs T' D', fs_applys T qs = Some (rs, T') ∧ run (serve qs) ∅ D = FDone (reply_map inode <$> rs) ∅ D' ∧ represents D' T'.
Proof.
  induction qs as [|q qs IH]; intros D T R Hq; cbn [all_ready fs_applys serve] in *; [by exists [], T, D|]. destruct Hq as [Hq Hqs].
  destruct (perform_refines D T q R Hq) as (r & T1 & D1 & E1 & H1 & R1). rewrite E1 in *. destruct (IH D1 T1 R1 Hqs) as (rs & T2 & D2 & E2 & H2 & R2).
  exists (r :: rs), T2, D2. cbn [mbind option_bind]. rewrite E2. split; [done|]. split; [|done]. by rewrite run_bind, H1, run_bind, H2.
Qed.
End fs.

(** ** The formatted disk *)

Section format.
Context (total ibb : Z) (Hc : create_ok total ibb).
Notation efs := (created total ibb).

Lemma created_geometry : geometry efs total.
Proof.
  destruct Hc as [H1 H2 H3]. unfold created. set (dt := total - 1 - ibb * 1025). assert (Hdt : 0 ≤ dt < 2 ^ 32 - 4097 - ibb * 1025) by (unfold dt; lia).
  assert (Et : total = dt + 1 + ibb * 1025) by (unfold dt; lia). clearbody dt. subst total.
  split; cbn [inode_bitmap data_bitmap start_block_id blocks Bitmap_new inode_area_start_block data_area_start_block]; dlia.
Qed.

Definition empty_tree : fs_tree := {[0 := DirNode []]}.
Definition root_disk_inode : DiskInode := DiskInode_initialize Directory zero_inode.

Lemma root_disk_inode_ok : DiskInode_ok root_disk_inode.
Proof. split; [done|]. by apply (bool_decide_unpack _); vm_compute. Qed.

Lemma slot_zeros D i : 0 ≤ i < ibb * 4096 → D !! (1 + ibb + i / 4) = Some zeros → slot efs D i = Done zero_inode.
Proof.
  intros Hi Hz. unfold slot. change (inode_area_start_block efs) with (1 + ibb). rewrite Hz.
  assert (i mod 4 = 0 ∨ i mod 4 = 1 ∨ i mod 4 = 2 ∨ i mod 4 = 3) as [->|[->|[->| ->]]] by dlia; by vm_compute.
Qed.

Lemma formatted_represents D D' : formatted total ibb D D' → represents efs total D' empty_tree.
Proof.
  intros (H0 & Hroot & Hbits & Hib & Hz). pose proof created_geometry as Ge. pose proof (areas efs total Ge) as A.
  cbn [created inode_bitmap blocks Bitmap_new inode_area_start_block start_block_id] in A. destruct Hc as [C1 C2 C3].
  assert (Hzero : ∀ x, 1 + ibb < x < total → D' !! x = Some zeros) by (intros x Hx; rewrite Hz by lia; by rewrite decide_True by lia).
  assert (Hnu : ∀ x, data_area_start_block efs ≤ x < total → ¬ used efs D' x).
  { intros x Hx. unfold used. rewrite bit_at_zeros; [done| |by apply (used_range efs total Ge)]. intros k Hk. apply Hzero. lia. }
  set (N := {[0 := root_disk_inode]} : gmap Z DiskInode). destruct (empty_file D' root_disk_inode eq_refl eq_refl) as (Fr & Or & Cr).
  assert (HN : ∀ i di, N !! i = Some di ↔ i = 0 ∧ di = root_disk_inode) by (intros i di; unfold N; rewrite lookup_singleton_Some; naive_solver).
  split.
  - split; [intros i es|intros i es e]; unfold empty_tree; rewrite lookup_singleton_Some; intros [_ [= <-]]; [constructor|intros Hx; by apply not_elem_of_nil in Hx].
  - exists N. split; [split|].
    + split.
      * intros id Hid. destruct (decide (id = 0)) as [->|]; [eexists; split; [exact H0|]|].
        { apply (wf_block_write SuperBlockC _ SuperBlockC_ok); [by apply (created_super_block_ok total ibb)|by vm_compute; lia|apply zeros_wf]. }
        destruct (decide (id = 1 + ibb)) as [->|]; [eexists; split; [exact Hroot|]|].
        { apply (wf_block_write DiskInodeC _ DiskInodeC_ok); [apply root_disk_inode_ok|by vm_compute; lia|apply zeros_wf]. }
        destruct (decide (1 ≤ id ≤ ibb)); [by apply Hib|]. exists zeros. split; [apply Hzero; lia|apply zeros_wf].
      * intros i. change (inode_bitmap efs) with (Bitmap_new 1 ibb). cbn [blocks Bitmap_new]. split.
        { intros [di [-> _]%HN]. split; [lia|]. rewrite Hbits by (change BLOCK_BITS with 4096; lia). done. }
        { intros [Hi Hb]. rewrite Hbits in Hb by (change BLOCK_BITS with 4096; lia). apply Z.eqb_eq in Hb as <-. eexists. by apply HN. }
      * intros i di [-> ->]%HN. done.
      * intros i j di dj x [-> _]%HN [-> _]%HN. done.
      * apply NoDup_nil_2.
      * intros i di x _ _. apply not_elem_of_nil.
      * intros i di x [-> ->]%HN. rewrite Or. by intros Hx%not_elem_of_nil.
      * by intros x Hx%not_elem_of_nil.
      * intros x Hx Hu. by apply Hnu in Hu.
      * intros x Hx _. apply Hzero. lia.
    + assert (Hsl : ∀ i, 0 ≤ i < ibb * 4096 → slot efs D' i = if decide (0 = i) then Done root_disk_inode else Done zero_inode).
      { intros i Hi. destruct (decide (0 < i / 4)) as [Hd|Hd].
        - rewrite slot_zeros by (done || (apply Hzero; dlia)). by rewrite decide_False by dlia.
        - pose proof (slot_write efs total Ge (<[1 + ibb := zeros]> D') 0 i zeros root_disk_inode) as Hw. cbn [created inode_area_start_block inode_bitmap blocks Bitmap_new] in Hw.
          change (0 / 4) with 0 in Hw. rewrite Z.add_0_r, insert_insert_eq, lookup_insert_eq in Hw. rewrite insert_id in Hw by exact Hroot.
          rewrite Hw by (lia || done || apply root_disk_inode_ok). case_decide; [done|]. apply slot_zeros; [done|]. replace (i / 4) with 0 by dlia. by rewrite Z.add_0_r, lookup_insert_eq. }
      split; [intros i Hi; rewrite Hsl by done; case_decide; by eexists|]. intros i di [-> ->]%HN. rewrite Hsl by lia. done.
    + unfold contents, N, empty_tree. rewrite !map_fmap_singleton. by rewrite Cr.
  - assert (E : free_blocks efs total D' = list_to_set (seqZ (data_area_start_block efs) (total - data_area_start_block efs))).
    { apply set_eq. intros x. rewrite elem_of_free, elem_of_list_to_set, elem_of_seqZ. split; [intros [? _]; lia|]. intros Hx. split; [lia|apply Hnu; lia]. }
    rewrite E, size_list_to_set, length_seqZ by apply NoDup_seqZ. change (used_blocks empty_tree) with 0. lia.
  - destruct (created_super_block_ok total ibb Hc) as [Hw E]. exists (splice 0 (cenc SuperBlockC (created_super_block total ibb)) zeros), (created_super_block total ibb).
    split; [done|]. split; [|done]. apply (view_block_write SuperBlockC _ SuperBlockC_ok); [done|by vm_compute; lia|done].
Qed.

Lemma create_represents D : (∀ id, 0 ≤ id < total → ∃ b, D !! id = Some b ∧ wf_block b) →
  ∃ D', run (create total ibb) ∅ D = FDone efs ∅ D' ∧ represents efs total D' empty_tree.
Proof.
  intros HD. destruct (create_spec total ibb D Hc HD) as (D' & Hr & Hf). exists D'. split; [done|]. by apply (formatted_represents D).
Qed.
End format.

(** C1. easy-fs implements the tree of files and directories.  [create] formats a disk that
    represents the tree of an empty root directory; and from any disk that represents a tree, every
    sequence of [find], [ls], [read_at], [write_at], [clear], [get_inode_size], [create] and
    [create_dir] for which there is room returns, without a panic or a failed access to the device,
    exactly the replies of the specification - writes past the end fill up with zeros, a name that
    exists is refused, a new inode takes the smallest free number - and leaves a disk that
    represents the tree the specification leaves: other files keep their bytes, and the data blocks
    that no file needs are free again.  Opening such a disk gives the same file system. *)
Theorem easy_fs_refines_tree total ibb D : create_ok total ibb → (∀ id, 0 ≤ id < total → ∃ b, D !! id = Some b ∧ wf_block b) →
  let efs := created total ibb in
  (∃ D1, run (create total ibb) ∅ D = FDone efs ∅ D1 ∧ represents efs total D1 empty_tree) ∧
  (∀ qs D1 T1, represents efs total D1 T1 → all_ready (ibb * 4096) (total - data_area_start_block efs) T1 qs →
    ∃ rs T2 D2, fs_applys T1 qs = Some (rs, T2) ∧ run (serve efs qs) ∅ D1 = FDone (reply_map (inode efs) <$> rs) ∅ D2 ∧
      represents efs total D2 T2) ∧
  (∀ D1 T1, represents efs total D1 T1 → run open_fs ∅ D1 = FDone efs ∅ D1).
Proof.
  intros Hc HD efs. split; [by apply create_represents|]. split; [|intros D1 T1 R; by apply (open_run efs D1 (re_super _ _ _ _ R))].
  intros qs D1 T1 R Hq. by apply (serve_refines efs total (created_geometry total ibb Hc) qs D1 T1).
Qed.

(** A file [a] of "hi" and, far behind, "!"; a directory [b] with a file [a] of its own; a refused name. *)
Definition example_requests : list request :=
  [QCreate 0 [97] File; QWrite 1 0 [104; 105]; QWrite 1 600 [33]; QCreate 0 [98] Directory; QCreate 2 [97] File; QCreate 0 [97] File;
   QLs 0; QFind 0 [98; 47; 97]; QSize 1; QRead 1 0 [0; 0; 0]; QClear 1; QSize 1].

Lemma easy_fs_refines_tree_witness :
  create_ok 2000 1 ∧ ∃ D1 D2 T, run (create 2000 1) ∅ blank_disk = FDone (created 2000 1) ∅ D1 ∧
    run (serve (created 2000 1) example_requests) ∅ D1 = FDone (reply_map (inode (created 2000 1)) <$>
      [AInode (Some 1); ANumber 2; ANumber 1; AInode (Some 2); AInode (Some 3); AInode None;
       ANames [[97]; [98]]; AInode (Some 3); ANumber 601; ARead 3 [104; 105; 0]; AUnit; ANumber 0]) ∅ D2 ∧
    represents (created 2000 1) 2000 D2 T.
Proof.
  assert (Hr : create_ok 2000 1) by (split; lia). split; [exact Hr|].
  destruct (easy_fs_refines_tree 2000 1 blank_disk Hr blank_disk_blocks) as ((D1 & Hf & R) & H & _).
  destruct (H example_requests D1 empty_tree R) as (rs & T & D2 & Ha & Hs & R2); [apply (bool_decide_unpack _); vm_compute; exact I|].
  exists D1, D2, T. split; [exact Hf|]. split; [|exact R2]. rewrite Hs. f_equal. f_equal.
  assert (E : fst <$> fs_applys empty_tree example_requests = Some rs) by (rewrite Ha; reflexivity). vm_compute in E. by injection E as <-.
Defined.
