(* ===== verification/Address.v ===== *)
(** * Address.v: addresses, page numbers and page ranges ([os/src/mm/address.rs], [os/src/config.rs]) *)

From S2P Require Import Prelude.

Definition USER_STACK_SIZE : Z := 4096 * 2.
Definition KERNEL_STACK_SIZE : Z := 4096 * 2.
Definition KERNEL_HEAP_SIZE : Z := 0x1000000.
Definition MEMORY_END : Z := 0x88000000.
Definition PAGE_SIZE : Z := 0x1000.
Definition PAGE_SIZE_BITS : Z := 0xc.
Definition usize_MAX : Z := 2 ^ 64 - 1.
Definition TRAMPOLINE : Z := usize_MAX - PAGE_SIZE + 1.
Definition TRAP_CONTEXT_BASE : Z := TRAMPOLINE - PAGE_SIZE.

Definition PA_WIDTH_SV39 : Z := 56.
Definition VA_WIDTH_SV39 : Z := 39.
Definition PPN_WIDTH_SV39 : Z := PA_WIDTH_SV39 - PAGE_SIZE_BITS.
Definition VPN_WIDTH_SV39 : Z := VA_WIDTH_SV39 - PAGE_SIZE_BITS.

Record PhysAddr : Type := PA { pa : Z }.
Record VirtAddr : Type := VA { va : Z }.
Record PhysPageNum : Type := PPN { ppn : Z }.
Record VirtPageNum : Type := VPN { vpn : Z }.

#[export] Instance PhysPageNum_eq_dec : EqDecision PhysPageNum.
Proof. solve_decision. Defined.
#[export] Instance VirtPageNum_eq_dec : EqDecision VirtPageNum.
Proof. solve_decision. Defined.
#[export] Instance PhysPageNum_countable : Countable PhysPageNum.
Proof. apply (inj_countable' ppn PPN). by intros []. Defined.
#[export] Instance VirtPageNum_countable : Countable VirtPageNum.
Proof. apply (inj_countable' vpn VPN). by intros []. Defined.

(** [(1 << w) - 1] *)
Definition mask (w : Z) : Z := Z.shiftl 1 w - 1.

(** [T::from(usize)]: the bits above the width are dropped. *)
Definition PhysAddr_from (v : Z) : PhysAddr := PA (Z.land v (mask PA_WIDTH_SV39)).
Definition PhysPageNum_from (v : Z) : PhysPageNum := PPN (Z.land v (mask PPN_WIDTH_SV39)).
Definition VirtAddr_from (v : Z) : VirtAddr := VA (Z.land v (mask VA_WIDTH_SV39)).
Definition VirtPageNum_from (v : Z) : VirtPageNum := VPN (Z.land v (mask VPN_WIDTH_SV39)).

(** [usize::from(T)]: a virtual address is sign extended. *)
Definition PhysAddr_usize (a : PhysAddr) : Z := pa a.
Definition PhysPageNum_usize (p : PhysPageNum) : Z := ppn p.
Definition VirtAddr_usize (a : VirtAddr) : Z :=
  if Z.shiftl 1 (VA_WIDTH_SV39 - 1) <=? va a then Z.lor (va a) (usize_MAX - mask VA_WIDTH_SV39) else va a.
Definition VirtPageNum_usize (p : VirtPageNum) : Z := vpn p.

Definition VirtAddr_floor (a : VirtAddr) : VirtPageNum := VPN (va a / PAGE_SIZE).
Definition VirtAddr_ceil (a : VirtAddr) : VirtPageNum := VPN (u64 (u64 (va a - 1) + PAGE_SIZE) / PAGE_SIZE).
Definition VirtAddr_page_offset (a : VirtAddr) : Z := Z.land (va a) (PAGE_SIZE - 1).
Definition VirtAddr_aligned (a : VirtAddr) : bool := VirtAddr_page_offset a =? 0.

(** [VirtPageNum::from(VirtAddr)] and back. *)
Definition VirtPageNum_of_addr (a : VirtAddr) : outcome VirtPageNum :=
  assert_that (VirtAddr_page_offset a =? 0) PAssert;; mret (VirtAddr_floor a).
Definition VirtAddr_of_page (p : VirtPageNum) : VirtAddr := VA (u64 (Z.shiftl (vpn p) PAGE_SIZE_BITS)).

Definition PhysAddr_floor (a : PhysAddr) : PhysPageNum := PPN (pa a / PAGE_SIZE).
Definition PhysAddr_ceil (a : PhysAddr) : PhysPageNum := PPN (u64 (u64 (pa a - 1) + PAGE_SIZE) / PAGE_SIZE).
Definition PhysAddr_page_offset (a : PhysAddr) : Z := Z.land (pa a) (PAGE_SIZE - 1).
Definition PhysAddr_aligned (a : PhysAddr) : bool := PhysAddr_page_offset a =? 0.
Definition PhysPageNum_of_addr (a : PhysAddr) : outcome PhysPageNum :=
  assert_that (PhysAddr_page_offset a =? 0) PAssert;; mret (PhysAddr_floor a).
Definition PhysAddr_of_page (p : PhysPageNum) : PhysAddr := PA (u64 (Z.shiftl (ppn p) PAGE_SIZE_BITS)).

(** [idx[i] = vpn & 511; vpn >>= 9] for [i] from 2 down to 0. *)
Definition indexes (p : VirtPageNum) : list Z :=
  let v2 := vpn p in
  let v1 := Z.shiftr v2 9 in
  let v0 := Z.shiftr v1 9 in
  [Z.land v0 511; Z.land v1 511; Z.land v2 511].

Definition VirtPageNum_step (p : VirtPageNum) : VirtPageNum := VPN (u64 (vpn p + 1)).
Definition PhysPageNum_step (p : PhysPageNum) : PhysPageNum := PPN (u64 (ppn p + 1)).

(** [SimpleRange<VirtPageNum>] and its iterator. *)
Record VPNRange : Type := mkRange {
  rl : VirtPageNum;
  rr : VirtPageNum;
}.

Definition SimpleRange_new (start end_ : VirtPageNum) : outcome VPNRange :=
  assert_that (vpn start <=? vpn end_) PAssert;; mret (mkRange start end_).

Record SimpleRangeIterator : Type := mkRangeIter {
  it_current : VirtPageNum;
  it_end : VirtPageNum;
}.

Definition into_iter (r : VPNRange) : SimpleRangeIterator := mkRangeIter (rl r) (rr r).

Definition SimpleRangeIterator_next (it : SimpleRangeIterator) : option (VirtPageNum * SimpleRangeIterator) :=
  if bool_decide (it_current it = it_end it) then None
  else Some (it_current it, mkRangeIter (VirtPageNum_step (it_current it)) (it_end it)).

(** The items a [for] loop over the iterator takes, at most [n] of them. *)
Fixpoint iterate (n : nat) (it : SimpleRangeIterator) : list VirtPageNum :=
  match n with
  | O => []
  | S n =>
      match SimpleRangeIterator_next it with
      | None => []
      | Some (p, it) => p :: iterate n it
      end
  end.

(** The page numbers of a range. *)
Definition range_pages (r : VPNRange) : list VirtPageNum :=
  VPN <$> seqZ (vpn (rl r)) (vpn (rr r) - vpn (rl r)).

(** ** Lemmas *)

Lemma mask_land w v : 0 ≤ w → Z.land v (mask w) = v mod 2 ^ w.
Proof. intros. unfold mask. rewrite Z.shiftl_1_l. rewrite Z.sub_1_r, <- Z.ones_equiv. by apply Z.land_ones. Qed.

Lemma page_offset_eq v : Z.land v (PAGE_SIZE - 1) = v mod 4096.
Proof. change (PAGE_SIZE - 1) with (Z.ones 12). by rewrite Z.land_ones. Qed.

(** Setting the bits above a [w]-bit number adds them. *)
Lemma lor_high v : 0 ≤ v < 2 ^ 39 → Z.lor v (usize_MAX - mask VA_WIDTH_SV39) = v + (2 ^ 64 - 2 ^ 39).
Proof.
  intros Hv. change (usize_MAX - mask VA_WIDTH_SV39) with (2 ^ 64 - 2 ^ 39).
  symmetry. apply Z.add_nocarry_lor. apply Z.bits_inj'. intros i Hi. rewrite Z.land_spec, Z.bits_0.
  destruct (decide (i < 39)); [|by rewrite (testbit_high 39 v) by lia].
  change (2 ^ 64 - 2 ^ 39) with (Z.shiftl (2 ^ 25 - 1) 39). rewrite Z.shiftl_spec_low by done. apply andb_false_r.
Qed.

Lemma VirtAddr_usize_eq a : 0 ≤ va a < 2 ^ 39 →
  VirtAddr_usize a = if 2 ^ 38 <=? va a then va a + (2 ^ 64 - 2 ^ 39) else va a.
Proof.
  intros Ha. unfold VirtAddr_usize. change (Z.shiftl 1 (VA_WIDTH_SV39 - 1)) with (2 ^ 38).
  by rewrite lor_high.
Qed.

(** Virtual addresses and 64-bit pointers: converting a canonical pointer (bits 63 to 38 all
    equal) to a [VirtAddr] and back is the identity, and so is the other direction on every 39-bit
    address; a pointer that is not canonical is not given back. *)
Theorem VirtAddr_roundtrip :
  (∀ v, 0 ≤ v < 2 ^ 64 →
     VirtAddr_usize (VirtAddr_from v) = v ↔ v < 2 ^ 38 ∨ 2 ^ 64 - 2 ^ 38 ≤ v) ∧
  (∀ a, 0 ≤ va a < 2 ^ 39 → VirtAddr_from (VirtAddr_usize a) = a).
Proof.
  split.
  - intros v Hv. unfold VirtAddr_from. rewrite mask_land by done. change VA_WIDTH_SV39 with 39.
    rewrite VirtAddr_usize_eq by (cbn [va]; apply Z.mod_pos_bound; lia). cbn [va].
    destruct (Z.leb_spec (2 ^ 38) (v mod 2 ^ 39)); split; intros; dlia.
  - intros [v] Hv. cbn [va] in Hv. rewrite VirtAddr_usize_eq by done. unfold VirtAddr_from.
    rewrite mask_land by done. change VA_WIDTH_SV39 with 39. f_equal. cbn [va].
    destruct (Z.leb_spec (2 ^ 38) v); dlia.
Qed.

(** *** Page numbers *)

Lemma indexes_eq p : indexes p = [vpn p / 2 ^ 18 mod 512; vpn p / 2 ^ 9 mod 512; vpn p mod 512].
Proof.
  unfold indexes. change 511 with (Z.ones 9). rewrite !Z.land_ones by done.
  rewrite !Z.shiftr_div_pow2 by done. rewrite Z.div_div by done. done.
Qed.

Lemma indexes_inj p q : 0 ≤ vpn p < 2 ^ 27 → 0 ≤ vpn q < 2 ^ 27 → indexes p = indexes q → p = q.
Proof.
  intros Hp Hq. rewrite !indexes_eq. intros [= E0 E1 E2]. destruct p as [p], q as [q]; cbn [vpn] in *.
  f_equal. dlia.
Qed.

Lemma indexes_range p i x : indexes p !! i = Some x → 0 ≤ x < 512.
Proof.
  rewrite indexes_eq. intros H. do 3 (destruct i as [|i]; [injection H as <-; by apply Z.mod_pos_bound|]). done.
Qed.

Lemma iterate_pages n p q : 0 ≤ vpn p ≤ vpn q → vpn q < 2 ^ 64 → vpn q - vpn p ≤ Z.of_nat n →
  iterate n (mkRangeIter p q) = VPN <$> seqZ (vpn p) (vpn q - vpn p).
Proof.
  revert p. induction n as [|n IH]; intros p Hp Hq Hn.
  - by replace (vpn q - vpn p) with 0 by lia.
  - cbn [iterate SimpleRangeIterator_next]. unfold SimpleRangeIterator_next. cbn [it_current it_end].
    destruct p as [p], q as [q]; cbn [vpn] in *. case_bool_decide as E.
    + injection E as ->. by rewrite Z.sub_diag.
    + assert (p ≠ q) by congruence. rewrite seqZ_cons by lia. cbn [fmap list_fmap]. f_equal.
      unfold VirtPageNum_step. cbn [vpn]. rewrite wrap_small by lia.
      rewrite IH by (cbn [vpn]; lia). cbn [vpn]. f_equal. f_equal; lia.
Qed.

(** Page numbers: [floor] and [ceil] round to the pages around an address, [ceil] of address 0
    wraps to page 0, an address is its page and its offset, and a 27-bit page number is its three
    9-bit table indexes; a [VPNRange] iterates over its pages in order, end excluded. *)
Theorem page_arithmetic :
  (∀ a, 0 ≤ va a < 2 ^ 39 →
     vpn (VirtAddr_floor a) * PAGE_SIZE ≤ va a < (vpn (VirtAddr_floor a) + 1) * PAGE_SIZE ∧
     (vpn (VirtAddr_ceil a) - 1) * PAGE_SIZE < va a ≤ vpn (VirtAddr_ceil a) * PAGE_SIZE ∧
     va a = va (VirtAddr_of_page (VirtAddr_floor a)) + VirtAddr_page_offset a) ∧
  (∀ p, 0 ≤ vpn p < 2 ^ 27 → ∃ i0 i1 i2, indexes p = [i0; i1; i2] ∧
     0 ≤ i0 < 512 ∧ 0 ≤ i1 < 512 ∧ 0 ≤ i2 < 512 ∧ vpn p = i0 * 2 ^ 18 + i1 * 2 ^ 9 + i2) ∧
  (∀ l r rg, 0 ≤ vpn l → vpn r < 2 ^ 64 → SimpleRange_new l r = Done rg →
     iterate (Z.to_nat (vpn r - vpn l)) (into_iter rg) = range_pages rg).
Proof.
  split; [|split].
  - intros [v] Hv. unfold VirtAddr_floor, VirtAddr_ceil, VirtAddr_page_offset, VirtAddr_of_page.
    rewrite page_offset_eq. cbn [va vpn] in *. change PAGE_SIZE with 4096. change PAGE_SIZE_BITS with 12.
    rewrite Z.shiftl_mul_pow2 by done. change (2 ^ 12) with 4096. rewrite (wrap_small 64 (v / 4096 * 4096)) by dlia.
    assert (Ec : u64 (u64 (v - 1) + 4096) = v + 4095).
    { destruct (decide (v = 0)) as [->|]; [by vm_compute|]. rewrite (wrap_small 64 (v - 1)) by lia.
      rewrite wrap_small; lia. }
    rewrite Ec. repeat split; dlia.
  - intros p Hp. rewrite indexes_eq. do 3 eexists. split; [done|]. repeat split; dlia.
  - intros l r rg Hl Hr Hn. unfold SimpleRange_new, assert_that in Hn.
    destruct (Z.leb_spec (vpn l) (vpn r)); [|done]. injection Hn as <-.
    unfold into_iter, range_pages. cbn [rl rr]. apply iterate_pages; lia.
Qed.
