(* ===== verification/FrameAlloc.v ===== *)
(** * FrameAlloc.v: physical frames ([os/src/mm/frame_allocator.rs])

    [FrameAllocator] is the trait, with the laws its users rely on; [StackFrameAllocator] is the
    kernel's implementation and keeps them.  Physical memory is a map from page numbers to 4096
    bytes; an access outside it is a fault. *)

From S2P Require Import Prelude Bytes Address.

Class FrameAllocator (A : Type) : Type := {
  fa_new : A;
  fa_alloc : A → option PhysPageNum * A;
  fa_dealloc : A → PhysPageNum → outcome A;
}.

(** [fa_inv a free used]: the frames that can be handed out and those that are. *)
Class FrameAllocatorLaws (A : Type) `{FrameAllocator A} : Type := {
  fa_inv : A → gset PhysPageNum → gset PhysPageNum → Prop;
  fa_disjoint a free used : fa_inv a free used → free ## used;
  fa_alloc_spec a free used : fa_inv a free used →
    match fa_alloc a with
    | (Some p, a') => p ∈ free ∧ fa_inv a' (free ∖ {[p]}) ({[p]} ∪ used)
    | (None, a') => free = ∅ ∧ a' = a
    end;
  fa_dealloc_spec a free used p : fa_inv a free used → p ∈ used →
    ∃ a', fa_dealloc a p = Done a' ∧ fa_inv a' ({[p]} ∪ free) (used ∖ {[p]});
  fa_dealloc_free a free used p : fa_inv a free used → p ∈ free → fa_dealloc a p = Panicked PExplicit;
}.

(** ** The stack allocator *)

Record StackFrameAllocator : Type := mkStack {
  current : Z;
  fend : Z;
  recycled : list Z;   (** the top of the [Vec] is the end of the list *)
}.

Definition Stack_new : StackFrameAllocator := mkStack 0 0 [].

Definition Stack_init (l r : PhysPageNum) (a : StackFrameAllocator) : StackFrameAllocator :=
  mkStack (ppn l) (ppn r) (recycled a).

(** [Vec::pop] *)
Definition pop {X} (l : list X) : option (X * list X) :=
  match reverse l with [] => None | x :: r => Some (x, reverse r) end.

Definition Stack_alloc (a : StackFrameAllocator) : option PhysPageNum * StackFrameAllocator :=
  match pop (recycled a) with
  | Some (p, r) => (Some (PhysPageNum_from p), mkStack (current a) (fend a) r)
  | None =>
      if current a =? fend a then (None, a)
      else
        let c := u64 (current a + 1) in
        (Some (PhysPageNum_from (u64 (c - 1))), mkStack c (fend a) (recycled a))
  end.

Definition Stack_dealloc (a : StackFrameAllocator) (p : PhysPageNum) : outcome StackFrameAllocator :=
  if (current a <=? ppn p) || existsb (λ v, v =? ppn p) (recycled a) then Panicked PExplicit
  else mret (mkStack (current a) (fend a) (recycled a ++ [ppn p])).

#[export] Instance StackFrameAllocator_ops : FrameAllocator StackFrameAllocator := {
  fa_new := Stack_new;
  fa_alloc := Stack_alloc;
  fa_dealloc := Stack_dealloc;
}.

(** The allocator manages the frames from [l] (its [current] at [init]) to [fend]. *)
Record Stack_inv (l : Z) (a : StackFrameAllocator) (free used : gset PhysPageNum) : Prop := {
  si_range : 0 ≤ l ≤ current a ∧ current a ≤ fend a < 2 ^ 44;
  si_nodup : NoDup (recycled a);
  si_recycled : ∀ p, p ∈ recycled a → l ≤ p < current a;
  si_free : ∀ p, p ∈ free ↔ ppn p ∈ recycled a ∨ current a ≤ ppn p < fend a;
  si_used : ∀ p, p ∈ used ↔ l ≤ ppn p < current a ∧ ppn p ∉ recycled a;
}.

Lemma pop_Some {X} (l r : list X) x : pop l = Some (x, r) ↔ l = r ++ [x].
Proof.
  unfold pop. split.
  - destruct (reverse l) as [|y t] eqn:E; [done|]. intros [= -> <-].
    rewrite <- (reverse_involutive l), E. by rewrite reverse_cons.
  - intros ->. rewrite reverse_snoc. by rewrite reverse_involutive.
Qed.

Lemma pop_None {X} (l : list X) : pop l = None ↔ l = [].
Proof.
  unfold pop. split; [|by intros ->]. destruct (reverse l) eqn:E; [|done]. intros _.
  by rewrite <- (reverse_involutive l), E.
Qed.

Lemma PPN_ppn p : PPN (ppn p) = p.
Proof. by destruct p. Qed.

Lemma ppn_inj p q : ppn p = ppn q → p = q.
Proof. destruct p, q. cbn. congruence. Qed.

Lemma PPN_eq p x : p = PPN x ↔ ppn p = x.
Proof. split; [by intros ->|intros <-; by rewrite PPN_ppn]. Qed.

Lemma PhysPageNum_from_small p : 0 ≤ p < 2 ^ 44 → PhysPageNum_from p = PPN p.
Proof. intros. unfold PhysPageNum_from. rewrite mask_land by done. f_equal. by apply Z.mod_small. Qed.

Lemma Stack_alloc_spec l a free used : Stack_inv l a free used →
  match Stack_alloc a with
  | (Some p, a') => p ∈ free ∧ Stack_inv l a' (free ∖ {[p]}) ({[p]} ∪ used)
  | (None, a') => free = ∅ ∧ a' = a
  end.
Proof.
  intros [Hr Hnd Hrec Hf Hu]. unfold Stack_alloc. destruct (pop (recycled a)) as [[x r]|] eqn:E.
  - apply pop_Some in E. assert (Hx : x ∈ recycled a) by (rewrite E; set_solver).
    pose proof (Hrec _ Hx). rewrite PhysPageNum_from_small by lia.
    rewrite E in Hnd. apply NoDup_app in Hnd as (Hnd & Hxr & _).
    assert (Hnx : x ∉ r) by (intros Hin; apply (Hxr x Hin); by left).
    split; [apply Hf; by left|]. split; cbn [current fend recycled].
    + done.
    + done.
    + intros p Hp. apply Hrec. rewrite E. set_solver.
    + intros p. rewrite elem_of_difference, Hf, elem_of_singleton, E, elem_of_app, list_elem_of_singleton, PPN_eq.
      split; [intros [[[?|?]|?] ?]; auto; lia|]. intros [Hp|Hp]; (split; [auto|]); [intros <-; done|lia].
    + intros p. rewrite elem_of_union, elem_of_singleton, Hu, E, not_elem_of_app, list_elem_of_singleton, PPN_eq.
      split; [intros [->|?]; [split; [lia|done]|tauto]|]. intros [? ?]. destruct (decide (ppn p = x)); [auto|tauto].
  - apply pop_None in E. rewrite E in *. destruct (Z.eqb_spec (current a) (fend a)) as [Hc|Hc].
    + split; [|done]. apply leibniz_equiv, elem_of_equiv_empty. intros p Hp.
      apply Hf in Hp as [Hp|Hp]; [by apply not_elem_of_nil in Hp|lia].
    + rewrite (wrap_small 64 (current a + 1)) by lia. rewrite (wrap_small 64) by lia.
      replace (current a + 1 - 1) with (current a) by lia. rewrite PhysPageNum_from_small by lia.
      split; [apply Hf; right; cbn; lia|]. split; cbn [current fend recycled].
      * lia.
      * constructor.
      * intros p Hp. by apply not_elem_of_nil in Hp.
      * intros p. rewrite elem_of_difference, Hf, elem_of_singleton, PPN_eq.
        split; [intros [[?|?] ?]; [by left|right; lia]|]. intros [Hp|?]; [by apply not_elem_of_nil in Hp|split; [right|]; lia].
      * intros p. rewrite elem_of_union, elem_of_singleton, Hu, PPN_eq.
        split; [intros [->|[? ?]]; (split; [lia|apply not_elem_of_nil])|]. intros [? ?].
        destruct (decide (ppn p = current a)); [by left|right; split; [lia|apply not_elem_of_nil]].
Qed.

Lemma Stack_dealloc_used l a free used p : Stack_inv l a free used → p ∈ used →
  ∃ a', Stack_dealloc a p = Done a' ∧ Stack_inv l a' ({[p]} ∪ free) (used ∖ {[p]}).
Proof.
  intros [Hr Hnd Hrec Hf Hu] Hp. apply Hu in Hp as [Hlt Hnr]. unfold Stack_dealloc.
  destruct (Z.leb_spec (current a) (ppn p)); [lia|].
  assert (existsb (λ v, v =? ppn p) (recycled a) = false) as ->.
  { apply not_true_is_false. intros (v & Hv & E)%existsb_exists. apply Z.eqb_eq in E as ->.
    by apply list_elem_of_In in Hv. }
  eexists. split; [done|]. split; cbn [current fend recycled].
  - done.
  - apply NoDup_app. split; [done|]. split; [|apply NoDup_singleton].
    by intros x Hx ->%list_elem_of_singleton.
  - intros q [Hq|Hq%list_elem_of_singleton]%elem_of_app; [by apply Hrec|subst; lia].
  - intros q. rewrite elem_of_union, elem_of_singleton, Hf, elem_of_app, list_elem_of_singleton.
    assert (q = p ↔ ppn q = ppn p) as -> by (split; [by intros ->|apply ppn_inj]). tauto.
  - intros q. rewrite elem_of_difference, elem_of_singleton, Hu, not_elem_of_app, list_elem_of_singleton.
    assert (q = p ↔ ppn q = ppn p) as -> by (split; [by intros ->|apply ppn_inj]). tauto.
Qed.

Lemma Stack_dealloc_free l a free used p : Stack_inv l a free used → p ∈ free → Stack_dealloc a p = Panicked PExplicit.
Proof.
  intros [Hr Hnd Hrec Hf Hu] Hp. apply Hf in Hp. unfold Stack_dealloc.
  destruct (Z.leb_spec (current a) (ppn p)); [done|]. destruct Hp as [Hp|Hp]; [|lia].
  assert (existsb (λ v, v =? ppn p) (recycled a) = true) as ->; [|done].
  apply existsb_exists. exists (ppn p). split; [by apply list_elem_of_In|apply Z.eqb_refl].
Qed.

#[export] Instance StackFrameAllocator_laws : FrameAllocatorLaws StackFrameAllocator.
Proof.
  refine {| fa_inv := λ a free used, ∃ l, Stack_inv l a free used |}.
  - intros a free used (l & [Hr Hnd Hrec Hf Hu]) p Hfp Hup. apply Hf in Hfp. apply Hu in Hup as [? ?].
    destruct Hfp; [done|lia].
  - intros a free used (l & I). pose proof (Stack_alloc_spec l a free used I) as H. cbn.
    destruct (Stack_alloc a) as [[p|] a']; [|done]. destruct H as [? ?]. eauto.
  - intros a free used p (l & I) Hp. destruct (Stack_dealloc_used l a free used p I Hp) as (a' & ? & ?). eauto.
  - intros a free used p (l & I) Hp. by eapply Stack_dealloc_free.
Defined.

(** After [init] every frame of the range is free. *)
Lemma Stack_init_inv l r : 0 ≤ l ≤ r → r < 2 ^ 44 →
  fa_inv (Stack_init (PPN l) (PPN r) Stack_new) (list_to_set (PPN <$> seqZ l (r - l))) ∅.
Proof.
  intros Hl Hr. exists l. split; cbn.
  - lia.
  - constructor.
  - intros p Hp. by apply not_elem_of_nil in Hp.
  - intros p. rewrite elem_of_list_to_set, list_elem_of_fmap. split.
    + intros (q & -> & Hq%elem_of_seqZ). right. cbn. lia.
    + intros [Hp|Hp]; [by apply not_elem_of_nil in Hp|]. exists (ppn p). split; [by rewrite PPN_ppn|].
      apply elem_of_seqZ. lia.
  - intros p. split; [set_solver|]. intros [? _]. lia.
Qed.

(** ** Physical memory and frame trackers *)

Abbreviation page := (list Z) (only parsing).
Abbreviation memory := (gmap PhysPageNum (list Z)) (only parsing).

Definition PAGE_BYTES : nat := 4096.
#[global] Arguments PAGE_BYTES : simpl never.

Definition wf_page (b : page) : Prop := length b = PAGE_BYTES ∧ bytes_ok b.

Record FrameTracker : Type := mkTracker {
  ft_ppn : PhysPageNum;
  nodrop : bool;
}.

Section frames.
Context {A : Type} `{FrameAllocator A}.

Definition zero_page : page := replicate PAGE_BYTES 0.

(** [FrameTracker::new]: the frame is cleared. *)
Definition FrameTracker_new (m : memory) (p : PhysPageNum) : outcome (FrameTracker * memory) :=
  unwrap PInvalid (m !! p);;
  mret (mkTracker p false, <[p := zero_page]> m).

Definition FrameTracker_new_noalloc (p : PhysPageNum) : FrameTracker := mkTracker p true.

Definition frame_alloc (a : A) (m : memory) : outcome (option FrameTracker * A * memory) :=
  match fa_alloc a with
  | (None, a) => mret (None, a, m)
  | (Some p, a) => '(f, m) ← FrameTracker_new m p; mret (Some f, a, m)
  end.

Definition frame_dealloc (a : A) (p : PhysPageNum) : outcome A := fa_dealloc a p.

(** [Drop for FrameTracker] *)
Definition FrameTracker_drop (a : A) (f : FrameTracker) : outcome A :=
  if nodrop f then mret a else frame_dealloc a (ft_ppn f).

(** A [Vec<FrameTracker>] dropped. *)
Fixpoint drop_frames (a : A) (fs : list FrameTracker) : outcome A :=
  match fs with
  | [] => mret a
  | f :: fs => a ← FrameTracker_drop a f; drop_frames a fs
  end.

Context `{!FrameAllocatorLaws A}.

Lemma frame_alloc_spec a m free used : fa_inv a free used → (∀ p, p ∈ free → is_Some (m !! p)) →
  match frame_alloc a m with
  | Done (Some f, a', m') => ft_ppn f ∈ free ∧ nodrop f = false ∧ m' = <[ft_ppn f := zero_page]> m ∧
      fa_inv a' (free ∖ {[ft_ppn f]}) ({[ft_ppn f]} ∪ used)
  | Done (None, a', m') => free = ∅ ∧ a' = a ∧ m' = m
  | Panicked _ => False
  end.
Proof.
  intros I Hm. unfold frame_alloc. pose proof (fa_alloc_spec a free used I) as Hs.
  destruct (fa_alloc a) as [[p|] a']; cbn.
  - destruct Hs as [Hp I']. destruct (Hm p Hp) as [b Hb]. unfold FrameTracker_new. rewrite Hb. cbn. done.
  - destruct Hs as [-> ->]. done.
Qed.

(** Dropping trackers of distinct used frames gives them back. *)
Lemma drop_frames_spec fs a free used : fa_inv a free used →
  NoDup (ft_ppn <$> fs) → (∀ f, f ∈ fs → ft_ppn f ∈ used ∧ nodrop f = false) →
  ∃ a', drop_frames a fs = Done a' ∧
    fa_inv a' (list_to_set (ft_ppn <$> fs) ∪ free) (used ∖ list_to_set (ft_ppn <$> fs)).
Proof.
  revert a free used. induction fs as [|f fs IH]; intros a free used I Hnd Hu.
  - exists a. split; [done|]. cbn. by rewrite (left_id_L ∅ (∪)), difference_empty_L.
  - cbn [fmap list_fmap] in Hnd. apply NoDup_cons in Hnd as [Hf Hnd].
    destruct (Hu f ltac:(by left)) as [Hfu Hn].
    destruct (fa_dealloc_spec a free used (ft_ppn f) I Hfu) as (a1 & H1 & I1).
    destruct (IH a1 _ _ I1 Hnd) as (a' & H2 & I2).
    { intros g Hg. destruct (Hu g ltac:(by right)) as [Hgu Hgn]. split; [|done].
      apply elem_of_difference. split; [done|]. intros E%elem_of_singleton. apply Hf. rewrite <- E.
      apply list_elem_of_fmap. by exists g. }
    exists a'. split.
    + cbn [drop_frames]. unfold FrameTracker_drop, frame_dealloc. by rewrite Hn, H1.
    + cbn [fmap list_fmap list_to_set].
      replace ({[ft_ppn f]} ∪ list_to_set (ft_ppn <$> fs) ∪ free)
        with (list_to_set (ft_ppn <$> fs) ∪ ({[ft_ppn f]} ∪ free)) by set_solver.
      replace (used ∖ ({[ft_ppn f]} ∪ list_to_set (ft_ppn <$> fs)))
        with (used ∖ {[ft_ppn f]} ∖ list_to_set (ft_ppn <$> fs)) by set_solver.
      exact I2.
Qed.
End frames.

(** What [dealloc] checks: below [current], and not recycled already. *)
Lemma Stack_dealloc_eq l a free used p : Stack_inv l a free used →
  Stack_dealloc a p = if bool_decide (p ∈ used ∨ ppn p < l) then mret (mkStack (current a) (fend a) (recycled a ++ [ppn p])) else Panicked PExplicit.
Proof.
  intros [Hr Hnd Hrec Hf Hu]. unfold Stack_dealloc.
  replace ((current a <=? ppn p) || existsb (λ v, v =? ppn p) (recycled a)) with (negb (bool_decide (p ∈ used ∨ ppn p < l))); [by case_bool_decide|].
  apply eq_true_iff_eq. rewrite orb_true_iff, negb_true_iff, bool_decide_eq_false, Z.leb_le, existsb_exists, Hu. split.
  - intros Hn. destruct (Z.leb_spec (current a) (ppn p)); [by left|]. destruct (decide (ppn p ∈ recycled a)) as [Hin|]; [|exfalso; apply Hn].
    + right. exists (ppn p). by rewrite <- list_elem_of_In, Z.eqb_refl.
    + destruct (Z.lt_ge_cases (ppn p) l); [by right|left; by split].
  - intros [Hge|(v & Hv%list_elem_of_In & ->%Z.eqb_eq)] [[Hl Hn]|Hl]; [lia..|done|]. apply Hrec in Hv. lia.
Qed.

(** C33. The frame allocator hands out frames that are free and not out already, clears them, and
    fails only when none is left. Of the frames it manages, those from its [current] at the start up to
    its end, [dealloc] takes back exactly the ones that are out, which are free again then, and panics
    on the others, a double free; it panics too beyond the end, and the partition of the managed
    frames into free and used is kept. (A frame below the first one is not refused:
    [frame_below_is_taken].) *)
Theorem frame_allocator_safe (a : StackFrameAllocator) (m : memory) free used :
  fa_inv a free used → (∀ p, p ∈ free → is_Some (m !! p)) →
  (free ## used ∧ ∃ l, ∀ p, p ∈ free ∪ used ↔ l ≤ ppn p < fend a) ∧
  match frame_alloc a m with
  | Done (Some f, a', m') => ft_ppn f ∈ free ∧ ft_ppn f ∉ used ∧ m' = <[ft_ppn f := zero_page]> m ∧
      fa_inv a' (free ∖ {[ft_ppn f]}) ({[ft_ppn f]} ∪ used)
  | Done (None, a', m') => free = ∅ ∧ a' = a ∧ m' = m
  | Panicked _ => False
  end ∧
  (∀ p, p ∈ free ∪ used →
     if bool_decide (p ∈ used) then ∃ a', frame_dealloc a p = Done a' ∧ fa_inv a' ({[p]} ∪ free) (used ∖ {[p]})
     else frame_dealloc a p = Panicked PExplicit) ∧
  (∀ p, fend a ≤ ppn p → frame_dealloc a p = Panicked PExplicit).
Proof.
  intros I0 Hm. pose proof (fa_disjoint _ _ _ I0) as Hd. pose proof I0 as [l I]. pose proof I as [Hr _ Hrec Hf Hu].
  split; [split; [done|]|split; [|split]].
  - exists l. intros p. rewrite elem_of_union, Hf, Hu. split.
    + intros [[Hp%Hrec|Hp]|[Hp _]]; lia.
    + intros Hp. destruct (decide (ppn p ∈ recycled a)); [left; by left|]. destruct (Z.lt_ge_cases (ppn p) (current a)); [right|left; right]; (split; [lia|done || lia]).
  - pose proof (frame_alloc_spec a m free used I0 Hm) as H. destruct (frame_alloc a m) as [[[[f|] a'] m']|]; [|done|done].
    destruct H as (Hff & _ & Hm' & I'). split; [done|]. split; [set_solver|done].
  - intros p Hp. case_bool_decide as E; [by apply (fa_dealloc_spec a free used p I0)|].
    apply (fa_dealloc_free a free used p I0). set_solver.
  - intros p Hp. unfold frame_dealloc. cbn. rewrite (Stack_dealloc_eq l a free used p I), bool_decide_false; [done|]. rewrite Hu. lia.
Qed.

(** A frame below those it manages was never handed out, and [dealloc] takes it all the same: its
    validity check looks at the upper end only. The next [alloc] hands it out. *)
Theorem frame_below_is_taken l (a : StackFrameAllocator) free used p : Stack_inv l a free used → 0 ≤ ppn p < l →
  p ∉ free ∪ used ∧ ∃ a', frame_dealloc a p = Done a' ∧ fa_alloc a' = (Some p, a).
Proof.
  intros I Hp. pose proof I as [Hr _ Hrec Hf Hu]. split.
  { rewrite elem_of_union, Hf, Hu. intros [[H%Hrec|H]|[H _]]; lia. }
  unfold frame_dealloc. cbn. rewrite (Stack_dealloc_eq l a free used p I), bool_decide_true by (right; lia). eexists. split; [reflexivity|].
  unfold Stack_alloc. cbn [recycled current fend]. rewrite (proj2 (pop_Some _ _ _) eq_refl), PhysPageNum_from_small, PPN_ppn by lia. by destruct a.
Qed.

(** Two frames, both in memory. *)
Module FrameWitness.
Definition a : StackFrameAllocator := Stack_init (PPN 5) (PPN 7) Stack_new.
Definition m : memory := <[PPN 5 := [1]]> {[ PPN 6 := [2] ]}.

Lemma frames_start : fa_inv a (list_to_set (PPN <$> seqZ 5 (7 - 5))) ∅.
Proof. by apply Stack_init_inv. Qed.

Lemma there p : p ∈ (list_to_set (PPN <$> seqZ 5 (7 - 5)) : gset PhysPageNum) → is_Some (m !! p).
Proof.
  rewrite elem_of_list_to_set, list_elem_of_fmap. intros (q & -> & Hq%elem_of_seqZ).
  assert (q = 5 ∨ q = 6) as [-> | ->] by lia; by vm_compute; eexists.
Qed.
End FrameWitness.

Lemma frame_allocator_safe_witness :
  ∃ f a' m', frame_alloc FrameWitness.a FrameWitness.m = Done (Some f, a', m') ∧ ft_ppn f = PPN 5 ∧
    frame_dealloc FrameWitness.a (PPN 6) = Panicked PExplicit.
Proof.
  destruct (frame_allocator_safe FrameWitness.a FrameWitness.m _ _ FrameWitness.frames_start FrameWitness.there)
    as (_ & _ & H & _).
  do 3 eexists. split; [reflexivity|]. split; [reflexivity|]. apply (H (PPN 6)). by apply (bool_decide_unpack _); vm_compute.
Defined.

Lemma frame_below_is_taken_witness : ∃ a', frame_dealloc FrameWitness.a (PPN 1) = Done a' ∧ fa_alloc a' = (Some (PPN 1), FrameWitness.a).
Proof.
  destruct FrameWitness.frames_start as [l I]. pose proof (si_range _ _ _ _ I) as Hr.
  assert (Hl : l = 5).
  { destruct (decide (l = 5)); [done|]. exfalso. cbn in *. assert (PPN 4 ∈ (∅ : gset PhysPageNum)); [|set_solver].
    apply (si_used _ _ _ _ I). cbn. split; [lia|apply not_elem_of_nil]. }
  subst l. apply (frame_below_is_taken 5 FrameWitness.a _ _ (PPN 1) I). cbn. lia.
Defined.
