(* ===== verification/PageTable.v ===== *)
(** * PageTable.v: Sv39 page tables in physical memory ([os/src/mm/page_table.rs])

    The tables live in the page frames of [memory]; a [&mut PageTableEntry] is the place of the
    entry, a frame and an index.  The frames come from any [FrameAllocator] that keeps its laws.
    The last part of the file is what the kernel does with a user pointer: the translation of
    buffers, strings and references. *)

From S2P Require Import Prelude Bytes Address FrameAlloc.

(** ** Entries *)

Definition PTE_V : Z := 1.
Definition PTE_R : Z := 2.
Definition PTE_W : Z := 4.
Definition PTE_X : Z := 8.
Definition PTE_U : Z := 16.
Definition PTE_G : Z := 32.
Definition PTE_A : Z := 64.
Definition PTE_D : Z := 128.

Record PageTableEntry : Type := mkPTE { bits : Z }.

Definition PTE_new (p : PhysPageNum) (flags : Z) : PageTableEntry :=
  mkPTE (Z.lor (u64 (Z.shiftl (ppn p) 10)) flags).

Definition PTE_empty : PageTableEntry := mkPTE 0.

Definition PTE_ppn (e : PageTableEntry) : PhysPageNum :=
  PhysPageNum_from (Z.land (Z.shiftr (bits e) 10) (mask 44)).

(** [PTEFlags::from_bits(bits as u8).unwrap()]: every 8-bit pattern is a set of flags. *)
Definition PTE_flags (e : PageTableEntry) : Z := u8 (bits e).

Definition PTE_has (f : Z) (e : PageTableEntry) : bool := negb (Z.land (PTE_flags e) f =? 0).
Definition PTE_is_valid : PageTableEntry → bool := PTE_has PTE_V.
Definition PTE_readable : PageTableEntry → bool := PTE_has PTE_R.
Definition PTE_writable : PageTableEntry → bool := PTE_has PTE_W.
Definition PTE_executable : PageTableEntry → bool := PTE_has PTE_X.

(** [ppn.get_pte_array()[idx]] read and written. *)
Definition get_pte (m : memory) (p : PhysPageNum) (idx : Z) : outcome PageTableEntry :=
  b ← unwrap PInvalid (m !! p);
  assert_that ((0 <=? idx) && (idx <? 512)) PIndex;;
  mret (mkPTE (le_value (slice (8 * Z.to_nat idx) 8 b))).

Definition set_pte (m : memory) (p : PhysPageNum) (idx : Z) (e : PageTableEntry) : outcome memory :=
  b ← unwrap PInvalid (m !! p);
  assert_that ((0 <=? idx) && (idx <? 512)) PIndex;;
  mret (<[p := splice (8 * Z.to_nat idx) (le_bytes 8 (bits e)) b]> m).

(** ** Page tables *)

Record PageTable : Type := mkPageTable {
  root_ppn : PhysPageNum;
  pt_frames : list FrameTracker;
}.

(** The place of an entry. *)
Abbreviation place := (PhysPageNum * Z)%type.

(** The loop of [find_pte] from the table [p] on, [idxs] the indexes left. *)
Fixpoint find_walk (m : memory) (p : PhysPageNum) (idxs : list Z) : outcome (option place) :=
  match idxs with
  | [] => mret None
  | [idx] => mret (Some (p, idx))
  | idx :: idxs =>
      pte ← get_pte m p idx;
      if negb (PTE_is_valid pte) then mret None
      else find_walk m (PTE_ppn pte) idxs
  end.

Definition find_pte (m : memory) (pt : PageTable) (v : VirtPageNum) : outcome (option place) :=
  find_walk m (root_ppn pt) (indexes v).

Definition PageTable_from_token (satp : Z) : PageTable :=
  mkPageTable (PhysPageNum_from (Z.land satp (mask 44))) [].

Definition PageTable_token (pt : PageTable) : Z := Z.lor (u64 (Z.shiftl 8 60)) (ppn (root_ppn pt)).

Definition translate (m : memory) (pt : PageTable) (v : VirtPageNum) : outcome (option PageTableEntry) :=
  o ← find_pte m pt v;
  match o with
  | None => mret None
  | Some (p, idx) => pte ← get_pte m p idx; mret (Some pte)
  end.

Definition translate_va (m : memory) (pt : PageTable) (a : VirtAddr) : outcome (option PhysAddr) :=
  o ← find_pte m pt (VirtAddr_floor a);
  match o with
  | None => mret None
  | Some (p, idx) =>
      pte ← get_pte m p idx;
      let aligned_pa := PhysAddr_of_page (PTE_ppn pte) in
      mret (Some (PhysAddr_from (u64 (pa aligned_pa + VirtAddr_page_offset a))))
  end.

Section tables.
Context {A : Type} `{FrameAllocator A}.

Definition PageTable_new (a : A) (m : memory) : outcome (PageTable * A * memory) :=
  '(o, a, m) ← frame_alloc a m;
  frame ← unwrap PUnwrap o;
  mret (mkPageTable (ft_ppn frame) [frame], a, m).

(** The loop of [find_pte_create]; [fs] are the table's frames. *)
Fixpoint create_walk (a : A) (m : memory) (fs : list FrameTracker) (p : PhysPageNum) (idxs : list Z)
    : outcome (option place * list FrameTracker * A * memory) :=
  match idxs with
  | [] => mret (None, fs, a, m)
  | [idx] => mret (Some (p, idx), fs, a, m)
  | idx :: idxs =>
      pte ← get_pte m p idx;
      if negb (PTE_is_valid pte) then
        '(o, a, m) ← frame_alloc a m;
        frame ← unwrap PUnwrap o;
        let pte := PTE_new (ft_ppn frame) PTE_V in
        m ← set_pte m p idx pte;
        create_walk a m (fs ++ [frame]) (PTE_ppn pte) idxs
      else create_walk a m fs (PTE_ppn pte) idxs
  end.

Definition find_pte_create (a : A) (m : memory) (pt : PageTable) (v : VirtPageNum)
    : outcome (option place * PageTable * A * memory) :=
  '(o, fs, a, m) ← create_walk a m (pt_frames pt) (root_ppn pt) (indexes v);
  mret (o, mkPageTable (root_ppn pt) fs, a, m).

Definition PageTable_map (a : A) (m : memory) (pt : PageTable) (v : VirtPageNum) (p : PhysPageNum) (flags : Z)
    : outcome (PageTable * A * memory) :=
  '(o, pt, a, m) ← find_pte_create a m pt v;
  '(q, idx) ← unwrap PUnwrap o;
  pte ← get_pte m q idx;
  assert_that (negb (PTE_is_valid pte)) PAssert;;
  m ← set_pte m q idx (PTE_new p (Z.lor flags PTE_V));
  mret (pt, a, m).
End tables.

Definition PageTable_unmap (m : memory) (pt : PageTable) (v : VirtPageNum) : outcome memory :=
  o ← find_pte m pt v;
  '(q, idx) ← unwrap PUnwrap o;
  pte ← get_pte m q idx;
  assert_that (PTE_is_valid pte) PAssert;;
  set_pte m q idx PTE_empty.

(** ** User pointers *)

(** A piece of a page: the frame, the first byte and the byte after the last. *)
Abbreviation chunk := (PhysPageNum * Z * Z)%type.

(** The loop [while start < end]: [None] when it has not ended after [n] rounds. *)
Fixpoint buffer_loop (m : memory) (pt : PageTable) (n : nat) (start end_ : Z) : outcome (option (list chunk)) :=
  match n with
  | O => mret None
  | S n =>
      if start <? end_ then
        let start_va := VirtAddr_from start in
        let v := VirtAddr_floor start_va in
        o ← translate m pt v;
        pte ← unwrap PUnwrap o;
        let p := PTE_ppn pte in
        let next_va := VirtAddr_of_page (VirtPageNum_step v) in
        let end_va := VA (Z.min (va next_va) (va (VirtAddr_from end_))) in
        let off := VirtAddr_page_offset start_va in
        let c := if VirtAddr_page_offset end_va =? 0 then (p, off, PAGE_SIZE)
                 else (p, off, VirtAddr_page_offset end_va) in
        let '(_, from, to) := c in
        assert_that (from <=? to) PIndex;;
        cs ← buffer_loop m pt n (VirtAddr_usize end_va) end_;
        Done (option_map (cons c) cs)
      else mret (Some [])
  end.

Definition translated_byte_buffer (m : memory) (fuel : nat) (token ptr len : Z) : outcome (option (list chunk)) :=
  let end_ := u64 (ptr + len) in
  buffer_loop m (PageTable_from_token token) fuel ptr end_.

(** A byte of physical memory, [*a.get_mut()]; [as_mut] fails on the null address. *)
Definition read_byte (m : memory) (a : PhysAddr) : outcome Z :=
  assert_that (negb (pa a =? 0)) PUnwrap;;
  b ← unwrap PInvalid (m !! PhysAddr_floor a);
  unwrap PInvalid (b !! Z.to_nat (pa a mod PAGE_SIZE)).

(** [string.push(ch as char)]: the character U+00ch in UTF-8. *)
Definition push_char (s : list Z) (ch : Z) : list Z :=
  s ++ (if ch <? 0x80 then [ch] else [Z.lor 0xc0 (Z.shiftr ch 6); Z.lor 0x80 (Z.land ch 0x3f)]).

(** The loop of [translated_str]: [None] when no zero byte came within [n] bytes. *)
Fixpoint str_loop (m : memory) (pt : PageTable) (n : nat) (va : Z) (string : list Z) : outcome (option (list Z)) :=
  match n with
  | O => mret None
  | S n =>
      o ← translate_va m pt (VirtAddr_from va);
      a ← unwrap PUnwrap o;
      ch ← read_byte m a;
      if ch =? 0 then mret (Some string)
      else str_loop m pt n (u64 (va + 1)) (push_char string ch)
  end.

Definition translated_str (m : memory) (fuel : nat) (token ptr : Z) : outcome (option (list Z)) :=
  str_loop m (PageTable_from_token token) fuel ptr [].

(** [translated_ref] and [translated_refmut]: the physical address of the object; [as_ref] fails
    on the null address. *)
Definition translated_refmut (m : memory) (token ptr : Z) : outcome PhysAddr :=
  o ← translate_va m (PageTable_from_token token) (VirtAddr_from ptr);
  a ← unwrap PUnwrap o;
  assert_that (negb (pa a =? 0)) PUnwrap;;
  mret a.

Definition translated_ref (m : memory) (token ptr : Z) : outcome PhysAddr := translated_refmut m token ptr.

(** [UserBuffer]: a list of pieces, and its byte iterator. *)
Definition chunk_len (c : chunk) : Z := let '(_, from, to) := c in to - from.

Definition UserBuffer_len (buffers : list chunk) : Z := foldr (λ c n, chunk_len c + n) 0 buffers.

Record UserBufferIterator : Type := mkUBI {
  ub_buffers : list chunk;
  current_buffer : nat;
  current_idx : Z;
}.

Definition UserBuffer_into_iter (buffers : list chunk) : UserBufferIterator := mkUBI buffers 0 0.

(** The item is the place of one byte; indexing an empty piece panics. *)
Definition UserBufferIterator_next (it : UserBufferIterator) : outcome (option (place * UserBufferIterator)) :=
  match ub_buffers it !! current_buffer it with
  | None => mret None
  | Some c =>
      let '(p, from, _) := c in
      assert_that (current_idx it <? chunk_len c) PIndex;;
      let r := (p, from + current_idx it) in
      mret (Some (r,
        if current_idx it + 1 =? chunk_len c then mkUBI (ub_buffers it) (S (current_buffer it)) 0
        else mkUBI (ub_buffers it) (current_buffer it) (current_idx it + 1)))
  end.

(** ** Entries and places *)

Lemma u64_shift10 p : 0 ≤ p < 2 ^ 44 → u64 (Z.shiftl p 10) = Z.shiftl p 10.
Proof. intros. rewrite Z.shiftl_mul_pow2 by done. apply wrap_small. lia. Qed.

Lemma PTE_new_eq p f : 0 ≤ ppn p < 2 ^ 44 → 0 ≤ f < 2 ^ 8 → bits (PTE_new p f) = ppn p * 1024 + f.
Proof.
  intros Hp Hf. unfold PTE_new. cbn [bits]. rewrite u64_shift10 by done.
  rewrite <- Z.add_nocarry_lor; [by rewrite Z.shiftl_mul_pow2|].
  apply Z.bits_inj'. intros i Hi. rewrite Z.land_spec, Z.bits_0. destruct (decide (i < 10)).
  - by rewrite Z.shiftl_spec_low.
  - rewrite (testbit_high 8 f) by lia. apply andb_false_r.
Qed.

Lemma PTE_ppn_eq e : PTE_ppn e = PPN (bits e / 1024 mod 2 ^ 44).
Proof.
  unfold PTE_ppn, PhysPageNum_from. rewrite !mask_land by done. rewrite Z.shiftr_div_pow2 by done.
  f_equal. change PPN_WIDTH_SV39 with 44. apply Zmod_mod.
Qed.

Lemma PTE_ppn_new p f : 0 ≤ ppn p < 2 ^ 44 → 0 ≤ f < 2 ^ 8 → PTE_ppn (PTE_new p f) = p.
Proof.
  intros Hp Hf. rewrite PTE_ppn_eq, PTE_new_eq by done. destruct p as [p]; cbn [ppn] in *. f_equal.
  rewrite Z.div_add_l, Z.div_small, Z.add_0_r by lia. by apply Z.mod_small.
Qed.

Lemma PTE_flags_new p f : 0 ≤ ppn p < 2 ^ 44 → 0 ≤ f < 2 ^ 8 → PTE_flags (PTE_new p f) = f.
Proof.
  intros Hp Hf. unfold PTE_flags. rewrite PTE_new_eq by done. unfold wrap. change (2 ^ 8) with 256 in *.
  replace (ppn p * 1024 + f) with (f + ppn p * 4 * 256) by lia. rewrite Z.mod_add by lia. by apply Z.mod_small.
Qed.

Lemma PTE_valid_odd e : PTE_is_valid e = Z.odd (bits e).
Proof.
  unfold PTE_is_valid, PTE_has, PTE_flags, PTE_V, wrap. rewrite <- (Z.land_ones _ 8) by done.
  rewrite <- Z.land_assoc. change (Z.land (Z.ones 8) 1) with (Z.ones 1). rewrite Z.land_ones by done.
  change (2 ^ 1) with 2. rewrite Zmod_odd. by destruct (Z.odd (bits e)).
Qed.

Lemma PTE_valid_new p f : 0 ≤ ppn p < 2 ^ 44 → 0 ≤ f < 2 ^ 8 → PTE_is_valid (PTE_new p f) = Z.odd f.
Proof.
  intros. rewrite PTE_valid_odd, PTE_new_eq by done.
  replace (ppn p * 1024) with (2 * (ppn p * 512)) by lia. by rewrite Z.add_comm, Z.odd_add_mul_2.
Qed.

Lemma flags_or_V f : 0 ≤ f < 2 ^ 8 → 0 ≤ Z.lor f PTE_V < 2 ^ 8 ∧ Z.odd (Z.lor f PTE_V) = true.
Proof.
  intros Hf. change PTE_V with (Z.shiftl 1 0). split; [apply set_bound; lia|].
  rewrite <- Z.bit0_odd. by rewrite testbit_set.
Qed.

(** The entry at a place of a well-formed memory. *)
Definition wf_memory (m : memory) : Prop := map_Forall (λ _ b, wf_page b) m.

Definition pte_at (m : memory) (p : PhysPageNum) (i : Z) : PageTableEntry :=
  mkPTE (le_value (slice (8 * Z.to_nat i) 8 (default [] (m !! p)))).

Lemma get_pte_eq m p i : is_Some (m !! p) → 0 ≤ i < 512 → get_pte m p i = Done (pte_at m p i).
Proof.
  intros [b Hb] Hi. unfold get_pte, pte_at. rewrite Hb. cbn [unwrap]. rewrite outcome_bind_Done.
  destruct (Z.leb_spec 0 i), (Z.ltb_spec i 512); try lia. done.
Qed.

Lemma set_pte_spec m p i e : wf_memory m → is_Some (m !! p) → 0 ≤ i < 512 → 0 ≤ bits e < 2 ^ 64 →
  ∃ m', set_pte m p i e = Done m' ∧ wf_memory m' ∧ dom m' = dom m ∧
    (∀ q, q ≠ p → m' !! q = m !! q) ∧ pte_at m' p i = e ∧
    (∀ j, 0 ≤ j < 512 → j ≠ i → pte_at m' p j = pte_at m p j).
Proof.
  intros Hm [b Hb] Hi He. destruct (Hm p b Hb) as [Hl Hok]. unfold PAGE_BYTES in Hl.
  unfold set_pte. rewrite Hb. cbn [unwrap]. rewrite outcome_bind_Done.
  destruct (Z.leb_spec 0 i), (Z.ltb_spec i 512); try lia. cbn [andb assert_that]. rewrite outcome_bind_Done.
  assert (Hfit : (8 * Z.to_nat i + length (le_bytes 8 (bits e)) ≤ length b)%nat) by (rewrite length_le_bytes; lia).
  eexists. split; [done|]. split; [|split; [|split; [|split]]].
  - apply map_Forall_insert_2; [|done]. split; [rewrite length_splice by done; exact Hl|].
    apply bytes_ok_splice; [apply bytes_ok_le_bytes|done].
  - apply dom_insert_lookup_L. eauto.
  - intros q Hq. by rewrite lookup_insert_ne.
  - unfold pte_at. rewrite lookup_insert_eq. cbn [default from_option]. destruct e as [v]; cbn [bits] in *. f_equal.
    pose proof (slice_splice_eq (8 * Z.to_nat i) (le_bytes 8 v) b Hfit) as E. rewrite length_le_bytes in E.
    unfold id. rewrite E. by apply le_value_bytes_small.
  - intros j Hj Hji. unfold pte_at. rewrite lookup_insert_eq, Hb. cbn [default from_option]. unfold id. do 2 f_equal.
    apply slice_splice_ne; [done|]. rewrite length_le_bytes. lia.
Qed.

Lemma pte_at_other m m' p q i : m' !! q = m !! q → p = q → pte_at m' p i = pte_at m p i.
Proof. intros E ->. unfold pte_at. by rewrite E. Qed.

Lemma pte_at_range m p i : wf_memory m → is_Some (m !! p) → 0 ≤ i < 512 → 0 ≤ bits (pte_at m p i) < 2 ^ 64.
Proof.
  intros Hm [b Hb] Hi. unfold pte_at. rewrite Hb. cbn [default from_option bits]. destruct (Hm p b Hb) as [Hl Hok].
  unfold PAGE_BYTES in Hl. pose proof (le_value_range (slice (8 * Z.to_nat i) 8 b) ltac:(by apply bytes_ok_slice)) as Hr.
  unfold zlen in Hr. rewrite length_slice in Hr by lia. exact Hr.
Qed.

Lemma pte_at_zero m p i : 0 ≤ i < 512 → pte_at (<[p := zero_page]> m) p i = PTE_empty.
Proof.
  intros Hi. unfold pte_at. rewrite lookup_insert_eq. cbn [default from_option]. unfold PTE_empty. f_equal.
  assert (E : ∀ n k, le_value (take n (drop k (replicate PAGE_BYTES 0))) = 0); [|apply E].
  intros n k. rewrite drop_replicate, take_replicate. generalize (n `min` (PAGE_BYTES - k))%nat as c.
  intros c. induction c as [|c IH]; [done|]. cbn [replicate le_value]. by rewrite IH.
Qed.

(** ** The mapping a table stands for *)

(** The leaf entry the walk reaches, when it is valid. *)
Definition leaf_from (m : memory) (p : PhysPageNum) (idxs : list Z) : option PageTableEntry :=
  match find_walk m p idxs with
  | Done (Some (q, i)) => if PTE_is_valid (pte_at m q i) then Some (pte_at m q i) else None
  | _ => None
  end.

Definition mapping (m : memory) (pt : PageTable) (v : VirtPageNum) : option PageTableEntry :=
  leaf_from m (root_ppn pt) (indexes v).

Definition idx_ok (i : Z) : Prop := 0 ≤ i < 512.

(** The tree: [path] gives the indexes on the way from the root to each table frame. *)
Record tree (m : memory) (root : PhysPageNum) (path : gmap PhysPageNum (list Z)) : Prop := {
  tr_wf : wf_memory m;
  tr_root : path !! root = Some [];
  tr_inj : ∀ p q x, path !! p = Some x → path !! q = Some x → p = q;
  tr_mem : ∀ p x, path !! p = Some x → is_Some (m !! p) ∧ 0 ≤ ppn p < 2 ^ 44;
  tr_depth : ∀ p x, path !! p = Some x → (length x ≤ 2)%nat;
  tr_child : ∀ p x i, path !! p = Some x → (length x < 2)%nat → idx_ok i → PTE_is_valid (pte_at m p i) = true →
    path !! PTE_ppn (pte_at m p i) = Some (x ++ [i]);
  tr_parent : ∀ q x i, path !! q = Some (x ++ [i]) → ∃ p, path !! p = Some x ∧ idx_ok i ∧
    PTE_is_valid (pte_at m p i) = true ∧ PTE_ppn (pte_at m p i) = q;
}.

Section walk.
Context (m : memory) (root : PhysPageNum) (path : gmap PhysPageNum (list Z)) (T : tree m root path).

(** A walk from a node stops without a fault, at the leaf table of its path or at a missing table. *)
Lemma find_walk_spec idxs p x : path !! p = Some x → Forall idx_ok idxs → (length x + length idxs = 3)%nat →
  (1 ≤ length idxs)%nat →
  ∃ o, find_walk m p idxs = Done o ∧
    match o with
    | Some (q, i) => ∃ y, path !! q = Some y ∧ length y = 2%nat ∧ y ++ [i] = x ++ idxs ∧ idx_ok i
    | None => True
    end.
Proof.
  revert p x. induction idxs as [|i idxs IH]; intros p x Hp Hok Hlen H1; [cbn in H1; lia|].
  apply Forall_cons in Hok as [Hi Hok]. cbn in Hlen. destruct idxs as [|j idxs].
  - exists (Some (p, i)). split; [done|]. exists x. split; [done|]. split; [cbn in Hlen; lia|done].
  - cbn [find_walk]. destruct (tr_mem _ _ _ T p x Hp) as [Hmem _]. rewrite get_pte_eq by done.
    rewrite outcome_bind_Done. destruct (PTE_is_valid (pte_at m p i)) eqn:Hv; [|by exists None]. cbn [negb].
    pose proof (tr_child _ _ _ T p x i Hp ltac:(cbn in Hlen; lia) Hi Hv) as Hc.
    destruct (IH _ _ Hc Hok) as (o & Ho & Hs); [rewrite length_app; cbn in *; lia|cbn; lia|].
    exists o. split; [exact Ho|]. destruct o as [[q k]|]; [|done]. destruct Hs as (y & ? & ? & E & ?).
    exists y. rewrite <- app_assoc in E. done.
Qed.

Lemma indexes_ok v : Forall idx_ok (indexes v) ∧ length (indexes v) = 3%nat.
Proof. split; [|done]. apply Forall_lookup. intros i x. apply indexes_range. Qed.

Lemma find_pte_spec pt v : root_ppn pt = root →
  ∃ o, find_pte m pt v = Done o ∧
    match o with
    | Some (q, i) => ∃ y, path !! q = Some y ∧ length y = 2%nat ∧ y ++ [i] = indexes v ∧ idx_ok i
    | None => True
    end.
Proof.
  intros E. destruct (indexes_ok v) as [Hok Hl]. unfold find_pte. rewrite E.
  apply (find_walk_spec (indexes v) root []); [apply T|done|cbn; lia|lia].
Qed.
End walk.

(** A mapped page is translated to its entry, an address in it to its place in the frame. *)
Lemma translate_tree m pt path v e : tree m (root_ppn pt) path → mapping m pt v = Some e →
  translate m pt v = Done (Some e) ∧
  ∀ va0, VirtAddr_floor va0 = v → translate_va m pt va0 =
    Done (Some (PhysAddr_from (u64 (pa (PhysAddr_of_page (PTE_ppn e)) + VirtAddr_page_offset va0)))).
Proof.
  intros T. unfold mapping, leaf_from. fold (find_pte m pt v).
  destruct (find_pte_spec m (root_ppn pt) path T pt v eq_refl) as (o & Hf & Ho). rewrite Hf.
  destruct o as [[q i]|]; [|done]. destruct Ho as (y & Hq & Hy & E & Hi).
  destruct (PTE_is_valid (pte_at m q i)); [|done]. intros [= <-].
  assert (Hg : get_pte m q i = Done (pte_at m q i)) by (apply get_pte_eq; [by apply (tr_mem _ _ _ T q y)|done]).
  split.
  - unfold translate. by rewrite Hf, outcome_bind_Done, Hg.
  - intros a0 <-. unfold translate_va. by rewrite Hf, outcome_bind_Done, Hg.
Qed.

(** Writing an entry of a leaf table changes the mapping of one page only. *)
Section leaf_write.
Context (m m' : memory) (root : PhysPageNum) (path : gmap PhysPageNum (list Z)) (T : tree m root path).
Context (q : PhysPageNum) (y : list Z) (i : Z) (e : PageTableEntry).
Context (Hq : path !! q = Some y) (Hy : length y = 2%nat) (Hi : idx_ok i).
Context (Hwf : wf_memory m') (Hdom : dom m' = dom m) (Hother : ∀ p, p ≠ q → m' !! p = m !! p).
Context (Hset : pte_at m' q i = e) (Hsame : ∀ j, 0 ≤ j < 512 → j ≠ i → pte_at m' q j = pte_at m q j).

Lemma leaf_write_inner p x j : path !! p = Some x → (length x < 2)%nat → pte_at m' p j = pte_at m p j.
Proof.
  intros Hp Hx. assert (p ≠ q) by (intros ->; rewrite Hq in Hp; injection Hp as <-; lia).
  unfold pte_at. by rewrite Hother.
Qed.

Lemma leaf_write_tree : tree m' root path.
Proof.
  split.
  - done.
  - apply T.
  - apply T.
  - intros p x Hp. destruct (tr_mem _ _ _ T p x Hp) as [Hs Hr]. split; [|done].
    apply elem_of_dom. rewrite Hdom. by apply elem_of_dom.
  - apply T.
  - intros p x j Hp Hx Hj. rewrite (leaf_write_inner p x) by done. by apply (tr_child _ _ _ T).
  - intros p x j Hp. destruct (tr_parent _ _ _ T p x j Hp) as (p' & Hp' & Hj & Hv & E). exists p'.
    assert (Hx : (length x < 2)%nat).
    { pose proof (tr_depth _ _ _ T _ _ Hp) as Hd. rewrite length_app in Hd. cbn in Hd. lia. }
    by rewrite (leaf_write_inner p' x).
Qed.

Lemma leaf_write_walk idxs p x : path !! p = Some x → Forall idx_ok idxs → (length x + length idxs = 3)%nat →
  find_walk m' p idxs = find_walk m p idxs.
Proof.
  revert p x. induction idxs as [|j idxs IH]; intros p x Hp Hok Hlen; [done|].
  apply Forall_cons in Hok as [Hj Hok]. destruct idxs as [|k idxs]; [done|].
  cbn in Hlen. destruct (tr_mem _ _ _ T p x Hp) as [Hs _].
  cbn [find_walk]. rewrite !get_pte_eq; [|done|done|apply (tr_mem _ _ _ leaf_write_tree p x Hp)|done].
  rewrite !outcome_bind_Done. rewrite (leaf_write_inner p x) by (done || lia).
  destruct (PTE_is_valid (pte_at m p j)) eqn:Hv; [|done]. cbn [negb].
  apply (IH _ (x ++ [j])); [apply (tr_child _ _ _ T); (done || lia)|done|]. rewrite length_app. cbn in *. lia.
Qed.

Lemma leaf_write_mapping pt v v' : root_ppn pt = root → 0 ≤ vpn v < 2 ^ 27 → 0 ≤ vpn v' < 2 ^ 27 →
  y ++ [i] = indexes v → find_pte m pt v = Done (Some (q, i)) →
  mapping m' pt v' = if decide (v' = v) then (if PTE_is_valid e then Some e else None) else mapping m pt v'.
Proof.
  intros Hroot Hv Hv' E Hf. unfold mapping, leaf_from. unfold find_pte in Hf. rewrite Hroot in *.
  destruct (indexes_ok v') as [Hok Hl].
  rewrite (leaf_write_walk (indexes v') root []) by (done || apply T || cbn; lia).
  destruct (decide (v' = v)) as [->|Hne].
  - rewrite Hf, Hset. done.
  - destruct (find_walk_spec m _ path T (indexes v') root []) as (o & -> & Ho);
      [apply T|done|cbn; lia|lia|].
    destruct o as [[q' i']|]; [|done]. destruct Ho as (y' & Hq' & Hy' & E' & Hi').
    assert (pte_at m' q' i' = pte_at m q' i') as ->; [|done].
    destruct (decide (q' = q)) as [->|Hqq]; [|by unfold pte_at; rewrite Hother].
    apply Hsame; [done|]. intros ->. rewrite Hq in Hq'. injection Hq' as <-.
    apply Hne. apply indexes_inj; [done..|]. rewrite <- E. symmetry. exact E'.
Qed.
End leaf_write.

Lemma zero_page_wf : wf_page zero_page.
Proof. split; [apply length_replicate|by apply Forall_replicate]. Qed.

Lemma PTE_new_V f : 0 ≤ ppn f < 2 ^ 44 →
  0 ≤ bits (PTE_new f PTE_V) < 2 ^ 64 ∧ PTE_is_valid (PTE_new f PTE_V) = true ∧ PTE_ppn (PTE_new f PTE_V) = f.
Proof.
  intros Hfr. split; [rewrite PTE_new_eq by done; unfold PTE_V; lia|].
  split; [by rewrite PTE_valid_new|by apply PTE_ppn_new].
Qed.

(** Hanging an empty table below a missing entry changes no mapping. *)
Section table_write.
Context (m m2 : memory) (root : PhysPageNum) (path : gmap PhysPageNum (list Z)) (T : tree m root path).
Context (p : PhysPageNum) (x : list Z) (i : Z) (f : PhysPageNum).
Context (Hp : path !! p = Some x) (Hx : (length x < 2)%nat) (Hi : idx_ok i).
Context (Hinv : PTE_is_valid (pte_at m p i) = false).
Context (Hf : path !! f = None) (Hfr : 0 ≤ ppn f < 2 ^ 44) (Hfm : is_Some (m !! f)).
Context (Hstep : set_pte (<[f := zero_page]> m) p i (PTE_new f PTE_V) = Done m2).

Lemma table_write_effect : wf_memory m2 ∧ dom m2 = dom m ∧
  (∀ q, q ≠ p → q ≠ f → m2 !! q = m !! q) ∧ m2 !! f = Some zero_page ∧
  pte_at m2 p i = PTE_new f PTE_V ∧ (∀ j, 0 ≤ j < 512 → j ≠ i → pte_at m2 p j = pte_at m p j).
Proof.
  assert (Hpf : p ≠ f) by congruence.
  destruct (set_pte_spec (<[f := zero_page]> m) p i (PTE_new f PTE_V)) as (m2' & E & Hwf & Hdom & Ho & Hs & Hj);
    [apply map_Forall_insert_2; [apply zero_page_wf|apply T]
    |rewrite lookup_insert_ne by done; apply (tr_mem _ _ _ T p x Hp)|done|exact (proj1 (PTE_new_V f Hfr))|].
  rewrite Hstep in E. injection E as <-. split; [done|]. split; [by rewrite Hdom, dom_insert_lookup_L|].
  split; [intros q Hq Hqf; rewrite Ho by done; by rewrite lookup_insert_ne|].
  split; [rewrite Ho by done; by rewrite lookup_insert_eq|]. split; [done|].
  intros j Hjr Hji. rewrite Hj by done. unfold pte_at. by rewrite lookup_insert_ne.
Qed.

Lemma table_write_pte q y j : path !! q = Some y → idx_ok j →
  pte_at m2 q j = if decide (q = p ∧ j = i) then PTE_new f PTE_V else pte_at m q j.
Proof.
  intros Hq Hj. destruct table_write_effect as (_ & _ & Ho & _ & Hs & Hk). case_decide as Hd.
  - by destruct Hd as [-> ->].
  - destruct (decide (q = p)) as [->|Hqp]; [apply Hk; [done|tauto]|].
    unfold pte_at. rewrite Ho; [done|done|]. intros ->. by rewrite Hf in Hq.
Qed.

Lemma table_write_empty j : idx_ok j → pte_at m2 f j = PTE_empty.
Proof.
  intros Hj. destruct table_write_effect as (_ & _ & _ & Hz & _).
  rewrite <- (pte_at_zero m f j Hj). unfold pte_at. by rewrite Hz, lookup_insert_eq.
Qed.

Lemma no_sibling q : path !! q ≠ Some (x ++ [i]).
Proof.
  intros Hq. destruct (tr_parent _ _ _ T q x i Hq) as (p' & Hp' & _ & Hv & _).
  assert (p' = p) as -> by by eapply (tr_inj _ _ _ T). by rewrite Hinv in Hv.
Qed.

Lemma table_write_tree : tree m2 root (<[f := x ++ [i]]> path).
Proof.
  destruct table_write_effect as (Hwf & Hdom & _). destruct (PTE_new_V f Hfr) as (_ & Hnv & Hnp). split.
  - done.
  - rewrite lookup_insert_ne; [apply T|]. intros ->. pose proof (tr_root _ _ _ T). congruence.
  - intros q1 q2 y [[<- <-]|[Hn1 H1]]%lookup_insert_Some [[<- E]|[Hn2 H2]]%lookup_insert_Some; [done| | |].
    + by apply no_sibling in H2.
    + subst y. by apply no_sibling in H1.
    + by eapply (tr_inj _ _ _ T).
  - intros q y Hq. assert (Hq' : is_Some (m !! q) ∧ 0 ≤ ppn q < 2 ^ 44).
    { apply lookup_insert_Some in Hq as [[<- <-]|[_ Hq]]; [done|by apply (tr_mem _ _ _ T q y)]. }
    destruct Hq' as [Hs Hr]. split; [|done]. apply elem_of_dom. rewrite Hdom. by apply elem_of_dom.
  - intros q y [[<- <-]|[_ Hq]]%lookup_insert_Some; [rewrite length_app; cbn; lia|by apply (tr_depth _ _ _ T q)].
  - intros q y j [[<- <-]|[Hn Hq]]%lookup_insert_Some Hl Hj Hv; [by rewrite table_write_empty in Hv|].
    rewrite (table_write_pte q y) in * by done. case_decide as Hd.
    + destruct Hd as [-> ->]. rewrite Hnp, lookup_insert_eq. congruence.
    + pose proof (tr_child _ _ _ T q y j Hq Hl Hj Hv) as Hc. rewrite lookup_insert_ne; [done|]. congruence.
  - intros q y j [[<- E]|[Hn Hq]]%lookup_insert_Some.
    + apply app_inj_tail in E as [<- <-]. exists p. rewrite lookup_insert_ne by congruence.
      rewrite (table_write_pte p x) by done. rewrite decide_True by done. done.
    + destruct (tr_parent _ _ _ T q y j Hq) as (p' & Hp' & Hj & Hv & E). exists p'.
      rewrite lookup_insert_ne by congruence. split; [done|]. split; [done|].
      rewrite (table_write_pte p' y) by done. rewrite decide_False; [done|].
      intros [-> ->]. by rewrite Hinv in Hv.
Qed.

Lemma leaf_from_empty idxs : Forall idx_ok idxs → (1 ≤ length idxs)%nat → leaf_from m2 f idxs = None.
Proof.
  intros Hok H1. destruct idxs as [|j idxs]; [cbn in H1; lia|]. apply Forall_cons in Hok as [Hj _].
  unfold leaf_from. destruct idxs as [|k idxs].
  - cbn [find_walk mret outcome_ret]. by rewrite table_write_empty.
  - cbn [find_walk]. destruct table_write_effect as (_ & _ & _ & Hz & _).
    rewrite get_pte_eq by (done || by eexists). by rewrite outcome_bind_Done, table_write_empty.
Qed.

Lemma table_write_leaf idxs q y : path !! q = Some y → Forall idx_ok idxs → (length y + length idxs = 3)%nat →
  leaf_from m2 q idxs = leaf_from m q idxs.
Proof.
  revert q y. induction idxs as [|j idxs IH]; intros q y Hq Hok Hlen; [done|].
  apply Forall_cons in Hok as [Hj Hok].
  assert (Hq2 : (<[f := x ++ [i]]> path) !! q = Some y) by (rewrite lookup_insert_ne by congruence; done).
  destruct idxs as [|k idxs].
  - unfold leaf_from. cbn [find_walk mret outcome_ret]. rewrite (table_write_pte q y) by done.
    rewrite decide_False; [done|]. intros [-> _]. rewrite Hp in Hq. injection Hq as <-. cbn in Hlen. lia.
  - cbn in Hlen. assert (Hm2 : is_Some (m2 !! q)) by apply (tr_mem _ _ _ table_write_tree q y Hq2).
    assert (Hm : is_Some (m !! q)) by apply (tr_mem _ _ _ T q y Hq).
    assert (Hrec : leaf_from m2 q (j :: k :: idxs) = if PTE_is_valid (pte_at m2 q j)
      then leaf_from m2 (PTE_ppn (pte_at m2 q j)) (k :: idxs) else None).
    { unfold leaf_from at 1. cbn [find_walk]. rewrite get_pte_eq, outcome_bind_Done by done.
      by destruct (PTE_is_valid (pte_at m2 q j)). }
    assert (Hrec' : leaf_from m q (j :: k :: idxs) = if PTE_is_valid (pte_at m q j)
      then leaf_from m (PTE_ppn (pte_at m q j)) (k :: idxs) else None).
    { unfold leaf_from at 1. cbn [find_walk]. rewrite get_pte_eq, outcome_bind_Done by done.
      by destruct (PTE_is_valid (pte_at m q j)). }
    rewrite Hrec, Hrec', (table_write_pte q y) by done. case_decide as Hd.
    + destruct Hd as [-> ->]. destruct (PTE_new_V f Hfr) as (_ & -> & ->). rewrite Hinv.
      apply leaf_from_empty; [done|cbn; lia].
    + destruct (PTE_is_valid (pte_at m q j)) eqn:Hv; [|done].
      apply (IH _ (y ++ [j])); [apply (tr_child _ _ _ T); (done || lia)|done|].
      rewrite length_app. cbn in *. lia.
Qed.
End table_write.

(** ** The state of an address space's table *)

Section with_allocator.
Context {A : Type} `{FrameAllocatorLaws A}.

Record pt_state (a : A) (m : memory) (root : PhysPageNum) (fs : list FrameTracker)
    (path : gmap PhysPageNum (list Z)) (free used : gset PhysPageNum) : Prop := {
  ps_tree : tree m root path;
  ps_alloc : fa_inv a free used;
  ps_used : dom path ⊆ used;
  ps_free : ∀ f, f ∈ free → is_Some (m !! f) ∧ 0 ≤ ppn f < 2 ^ 44;
  ps_frames : ∀ p, p ∈ ft_ppn <$> fs ↔ p ∈ dom path;
  ps_nodup : NoDup (ft_ppn <$> fs);
  ps_drop : ∀ f, f ∈ fs → nodrop f = false;
}.

(** What [find_pte_create] does from a node: at most one frame per missing level. *)
Lemma create_walk_spec idxs : ∀ a m root fs path free used p x,
  pt_state a m root fs path free used → path !! p = Some x → Forall idx_ok idxs →
  (length x + length idxs = 3)%nat → (1 ≤ length idxs)%nat → (length idxs ≤ S (size free))%nat →
  ∃ q i y fs' a' m' path' free' used',
    create_walk a m fs p idxs = Done (Some (q, i), fs', a', m') ∧
    pt_state a' m' root fs' path' free' used' ∧
    path' !! q = Some y ∧ length y = 2%nat ∧ y ++ [i] = x ++ idxs ∧ idx_ok i ∧
    find_walk m' p idxs = Done (Some (q, i)) ∧
    (∀ v, leaf_from m' root (indexes v) = leaf_from m root (indexes v)) ∧
    (∀ r, r ∉ free → path !! r = None → m' !! r = m !! r) ∧
    (∀ r z j, path !! r = Some z → (length z < 2)%nat → idx_ok j → PTE_is_valid (pte_at m r j) = true →
       pte_at m' r j = pte_at m r j) ∧
    free' ⊆ free ∧ used' ∪ free' = used ∪ free ∧ (used ⊆ used' ∧ used' ⊆ used ∪ dom path') ∧ path ⊆ path' ∧
    dom path' ⊆ dom path ∪ free ∧
    (size free < size free' + length idxs)%nat ∧
    (∀ r z, path' !! r = Some z → path !! r = Some z ∨ ∃ l, l ≠ [] ∧ z ++ l = x ++ idxs).
Proof.
  induction idxs as [|i idxs IH]; intros a m root fs path free used p x S Hp Hok Hlen H1 Hfree; [cbn in H1; lia|].
  pose proof (ps_tree _ _ _ _ _ _ _ S) as T.
  apply Forall_cons in Hok as [Hi Hok]. destruct idxs as [|j idxs].
  { exists p, i, x, fs, a, m, path, free, used. cbn in Hlen. do 12 (split; [done || lia|]). split; [split; [done|apply union_subseteq_l]|].
    split; [done|]. split; [apply union_subseteq_l|]. split; [cbn; lia|by left]. }
  cbn in Hlen. cbn [create_walk]. rewrite get_pte_eq by (done || by apply (tr_mem _ _ _ T p x)).
  rewrite outcome_bind_Done. destruct (PTE_is_valid (pte_at m p i)) eqn:Hv; cbn [negb].
  - pose proof (tr_child _ _ _ T p x i Hp ltac:(lia) Hi Hv) as Hc.
    destruct (IH a m root fs path free used _ _ S Hc Hok)
      as (q & k & y & fs' & a' & m' & path' & free' & used' & Hr & S' & Hq & Hy & E & Hk & Hw & Hl & Hm & Hkeep & Hsub & Hun & Hus & Hpp & Hdp & Hcount & Hnewp);
      [rewrite length_app; cbn in *; lia|cbn; lia|cbn in *; lia|].
    exists q, k, y, fs', a', m', path', free', used'. split; [exact Hr|]. split; [done|]. do 2 (split; [done|]).
    split; [by rewrite E, <- app_assoc|]. split; [done|]. rewrite <- app_assoc in Hnewp. split; [|cbn in *; intuition lia].
    cbn [find_walk]. rewrite get_pte_eq; [|apply (tr_mem _ _ _ (ps_tree _ _ _ _ _ _ _ S') p x); by eapply lookup_weaken|done].
    rewrite outcome_bind_Done, (Hkeep p x) by (done || lia). by rewrite Hv.
  - pose proof (frame_alloc_spec a m free used (ps_alloc _ _ _ _ _ _ _ S)) as Ha.
    specialize (Ha (λ f Hf, proj1 (ps_free _ _ _ _ _ _ _ S f Hf))).
    destruct (frame_alloc a m) as [[[[f|] a1] m1]|]; [|exfalso|done].
    2:{ destruct Ha as (-> & _ & _). rewrite size_empty in Hfree. cbn in Hfree. lia. }
    destruct Ha as (Hff & Hnd & -> & I1).
    pose proof (fa_disjoint _ _ _ (ps_alloc _ _ _ _ _ _ _ S)) as Hdis.
    assert (Hf : path !! ft_ppn f = None).
    { apply not_elem_of_dom. intros Hin. apply (Hdis (ft_ppn f)); [done|]. by apply (ps_used _ _ _ _ _ _ _ S). }
    destruct (ps_free _ _ _ _ _ _ _ S _ Hff) as [Hfm Hfr].
    rewrite outcome_bind_Done. cbn [unwrap]. rewrite outcome_bind_Done.
    assert (Hpf : p ≠ ft_ppn f) by congruence.
    destruct (set_pte_spec (<[ft_ppn f := zero_page]> m) p i (PTE_new (ft_ppn f) PTE_V)) as (m2 & Hstep & _);
      [apply map_Forall_insert_2; [apply zero_page_wf|apply T]
      |rewrite lookup_insert_ne by done; apply (tr_mem _ _ _ T p x Hp)|done|exact (proj1 (PTE_new_V _ Hfr))|].
    rewrite Hstep, outcome_bind_Done.
    destruct (PTE_new_V (ft_ppn f) Hfr) as (_ & Hnv & Hnp). rewrite Hnp.
    assert (Hx2 : (length x < 2)%nat) by lia.
    pose proof (table_write_tree m m2 root path T p x i _ Hp Hx2 Hi Hv Hf Hfr Hfm Hstep) as T2.
    pose proof (table_write_effect m m2 root path T p x i _ Hp Hi Hf Hfr Hfm Hstep) as (_ & Hdom2 & Ho2 & _).
    assert (S2 : pt_state a1 m2 root (fs ++ [f]) (<[ft_ppn f := x ++ [i]]> path)
      (free ∖ {[ft_ppn f]}) ({[ft_ppn f]} ∪ used)).
    { split; [done|done| | | | |].
      - rewrite dom_insert_L. pose proof (ps_used _ _ _ _ _ _ _ S). set_solver.
      - intros g [Hg _]%elem_of_difference. destruct (ps_free _ _ _ _ _ _ _ S g Hg) as [Hs Hr]. split; [|done].
        apply elem_of_dom. rewrite Hdom2. by apply elem_of_dom.
      - intros r. rewrite fmap_app, elem_of_app, dom_insert_L, elem_of_union, (ps_frames _ _ _ _ _ _ _ S).
        cbn. rewrite list_elem_of_singleton, elem_of_singleton. tauto.
      - rewrite fmap_app. apply NoDup_app. split; [apply S|]. split; [|apply NoDup_singleton].
        intros r Hr ->%list_elem_of_singleton. apply (ps_frames _ _ _ _ _ _ _ S) in Hr. by apply not_elem_of_dom in Hf.
      - intros g [Hg|Hg%list_elem_of_singleton]%elem_of_app; [by apply (ps_drop _ _ _ _ _ _ _ S)|by subst]. }
    assert (Hsize : (size (free ∖ {[ft_ppn f]}) = size free - 1)%nat).
    { rewrite size_difference, size_singleton by set_solver. done. }
    assert (Hfs : (1 ≤ size free)%nat).
    { rewrite <- (size_singleton (C := gset PhysPageNum) (ft_ppn f)). apply subseteq_size. set_solver. }
    destruct (IH a1 m2 root (fs ++ [f]) _ _ _ (ft_ppn f) (x ++ [i]) S2)
      as (q & k & y & fs' & a' & m' & path' & free' & used' & Hr & S' & Hq & Hy & E & Hk & Hw & Hl & Hm & Hkeep & Hsub & Hun & Hus & Hpp & Hdp & Hcount & Hnewp);
      [by rewrite lookup_insert_eq|done|rewrite length_app; cbn in *; lia|cbn; lia|cbn in *; lia|].
    assert (Hpath : path ⊆ <[ft_ppn f := x ++ [i]]> path) by by apply insert_subseteq.
    exists q, k, y, fs', a', m', path', free', used'. split; [exact Hr|]. split; [done|]. do 2 (split; [done|]).
    split; [by rewrite E, <- app_assoc|]. split; [done|].
    assert (Hp2 : (<[ft_ppn f := x ++ [i]]> path) !! p = Some x) by by eapply lookup_weaken.
    assert (Hnew : pte_at m2 p i = PTE_new (ft_ppn f) PTE_V).
    { rewrite (table_write_pte m m2 root path T p x i _ Hp Hi Hf Hfr Hfm Hstep p x i) by done. by rewrite decide_True. }
    split.
    { cbn [find_walk]. rewrite get_pte_eq; [|apply (tr_mem _ _ _ (ps_tree _ _ _ _ _ _ _ S') p x); by eapply lookup_weaken|done].
      rewrite outcome_bind_Done, (Hkeep p x) by (done || by rewrite Hnew). by rewrite Hnew, Hnv, Hnp. }
    split.
    { intros v. rewrite Hl. destruct (indexes_ok v) as [Hvo Hvl].
      apply (table_write_leaf m m2 root path T p x i _ Hp Hx2 Hi Hv Hf Hfr Hfm Hstep (indexes v) root []);
        [apply T|done|cbn; lia]. }
    split.
    { intros r Hrf Hrp. rewrite Hm; [apply Ho2; congruence| |].
      - set_solver.
      - rewrite lookup_insert_ne; [done|]. intros E2. apply Hrf. by rewrite <- E2. }
    split.
    { intros r z k' Hrz Hz Hk' Hvr.
      assert (Hne : ¬ (r = p ∧ k' = i)) by (intros [-> ->]; congruence).
      assert (Hr2 : pte_at m2 r k' = pte_at m r k').
      { rewrite (table_write_pte m m2 root path T p x i _ Hp Hi Hf Hfr Hfm Hstep r z k') by done. by rewrite decide_False. }
      rewrite <- Hr2. apply (Hkeep r z); [by eapply lookup_weaken|done|done|by rewrite Hr2]. }
    split; [set_solver|]. split.
    { rewrite Hun. apply set_eq. intros r. destruct (decide (r = ft_ppn f)) as [->|]; set_solver. }
    assert (Hfp : ft_ppn f ∈ dom path') by (apply (subseteq_dom _ _ Hpp); rewrite dom_insert_L; set_solver).
    split; [clear - Hus Hfp; set_solver|]. split; [by etransitivity|]. rewrite dom_insert_L in Hdp. split; [set_solver|].
    split; [cbn in *; lia|]. intros r z Hz. destruct (Hnewp r z Hz) as [Ho|(l & Hl0 & El)].
    + apply lookup_insert_Some in Ho as [[<- <-]|[_ Ho]]; [right|by left]. exists (j :: idxs). by rewrite <- app_assoc.
    + right. exists l. split; [done|]. by rewrite El, <- app_assoc.
Qed.

Lemma pt_state_write a m m' root fs path free used : pt_state a m root fs path free used →
  tree m' root path → dom m' = dom m → pt_state a m' root fs path free used.
Proof.
  intros [T I U F Fr N Dr] T' Hdom. split; try done. intros f Hf. destruct (F f Hf) as [Hs Hr].
  split; [|done]. apply elem_of_dom. rewrite Hdom. by apply elem_of_dom.
Qed.

Lemma mapping_find a m pt path free used v :
  pt_state a m (root_ppn pt) (pt_frames pt) path free used →
  mapping m pt v = match find_pte m pt v with
    | Done (Some (q, i)) => if PTE_is_valid (pte_at m q i) then Some (pte_at m q i) else None
    | _ => None end.
Proof. done. Qed.

(** [map] on a page that is not mapped, with frames for the missing tables: a new table
    is on the path of the page. *)
Lemma PageTable_map_paths a m pt path free used v p flags :
  pt_state a m (root_ppn pt) (pt_frames pt) path free used →
  0 ≤ vpn v < 2 ^ 27 → 0 ≤ ppn p < 2 ^ 44 → 0 ≤ flags < 2 ^ 8 → (2 ≤ size free)%nat →
  match mapping m pt v with
  | Some _ => PageTable_map a m pt v p flags = Panicked PAssert
  | None => ∃ pt' a' m' path' free' used',
      PageTable_map a m pt v p flags = Done (pt', a', m') ∧ root_ppn pt' = root_ppn pt ∧
      pt_state a' m' (root_ppn pt') (pt_frames pt') path' free' used' ∧
      (∀ v', 0 ≤ vpn v' < 2 ^ 27 → mapping m' pt' v' =
         if decide (v' = v) then Some (PTE_new p (Z.lor flags PTE_V)) else mapping m pt v') ∧
      (∀ r, r ∉ free → path !! r = None → m' !! r = m !! r) ∧
      free' ⊆ free ∧ used' ∪ free' = used ∪ free ∧ (used ⊆ used' ∧ used' ⊆ used ∪ dom path') ∧ path ⊆ path' ∧
      dom path' ⊆ dom path ∪ free ∧ (size free ≤ size free' + 2)%nat ∧
      (∀ r z, path' !! r = Some z → path !! r = Some z ∨ ∃ l, l ≠ [] ∧ z ++ l = indexes v)
  end.
Proof.
  intros S Hv Hp Hflags Hfree. destruct (indexes_ok v) as [Hok Hl].
  destruct (create_walk_spec (indexes v) a m _ _ path free used (root_ppn pt) [] S)
    as (q & i & y & fs' & a' & m1 & path' & free' & used' & Hr & S' & Hq & Hy & E & Hi & Hw & Hleaf & Hframe & _ & Hsub & Hun & Hus & Hpp & Hdp & Hcount & Hnewp);
    [apply S|done|cbn; lia|lia|rewrite Hl; lia|].
  pose proof (ps_tree _ _ _ _ _ _ _ S') as T'.
  assert (Hm1 : is_Some (m1 !! q)) by by apply (tr_mem _ _ _ T' q y).
  unfold PageTable_map, find_pte_create. rewrite Hr. repeat (rewrite outcome_bind_Done || cbn [unwrap mret outcome_ret]).
  rewrite get_pte_eq, outcome_bind_Done by done.
  assert (Hmv : mapping m pt v = if PTE_is_valid (pte_at m1 q i) then Some (pte_at m1 q i) else None).
  { unfold mapping. rewrite <- Hleaf. unfold leaf_from. by rewrite Hw. }
  rewrite Hmv. destruct (PTE_is_valid (pte_at m1 q i)) eqn:Hvalid; cbn [negb assert_that]; [done|].
  rewrite outcome_bind_Done. destruct (flags_or_V flags Hflags) as [Hfl Hodd].
  destruct (set_pte_spec m1 q i (PTE_new p (Z.lor flags PTE_V))) as (m2 & Hset & Hwf & Hdom & Ho & Hs & Hj);
    [apply T'|done|done|rewrite PTE_new_eq by done; lia|].
  rewrite Hset, outcome_bind_Done.
  assert (T2 : tree m2 (root_ppn pt) path') by by apply (leaf_write_tree m1 m2 _ path' T' q y).
  exists (mkPageTable (root_ppn pt) fs'), a', m2, path', free', used'. split; [done|]. split; [done|].
  split; [by apply (pt_state_write a' m1)|]. split.
  - intros v' Hv'.
    rewrite (leaf_write_mapping m1 m2 _ path' T' q y i (PTE_new p (Z.lor flags PTE_V)) Hq Hy Hwf Hdom Ho Hs Hj
      (mkPageTable (root_ppn pt) fs') v v') by done.
    rewrite PTE_valid_new, Hodd by done. case_decide; [done|]. unfold mapping. apply Hleaf.
  - split; [|rewrite Hl in Hcount; do 5 (split; [done|]); split; [lia|done]].
    intros r Hrf Hrp. rewrite Ho; [by apply Hframe|]. intros ->.
    assert (Hqd : q ∈ dom path') by by apply elem_of_dom_2 in Hq.
    apply Hdp in Hqd. apply not_elem_of_dom in Hrp. set_solver.
Qed.

Lemma PageTable_map_spec a m pt path free used v p flags :
  pt_state a m (root_ppn pt) (pt_frames pt) path free used →
  0 ≤ vpn v < 2 ^ 27 → 0 ≤ ppn p < 2 ^ 44 → 0 ≤ flags < 2 ^ 8 → (2 ≤ size free)%nat →
  match mapping m pt v with
  | Some _ => PageTable_map a m pt v p flags = Panicked PAssert
  | None => ∃ pt' a' m' path' free' used',
      PageTable_map a m pt v p flags = Done (pt', a', m') ∧ root_ppn pt' = root_ppn pt ∧
      pt_state a' m' (root_ppn pt') (pt_frames pt') path' free' used' ∧
      (∀ v', 0 ≤ vpn v' < 2 ^ 27 → mapping m' pt' v' =
         if decide (v' = v) then Some (PTE_new p (Z.lor flags PTE_V)) else mapping m pt v') ∧
      (∀ r, r ∉ free → path !! r = None → m' !! r = m !! r) ∧
      free' ⊆ free ∧ used' ∪ free' = used ∪ free ∧ (used ⊆ used' ∧ used' ⊆ used ∪ dom path') ∧ path ⊆ path' ∧
      dom path' ⊆ dom path ∪ free ∧ (size free ≤ size free' + 2)%nat
  end.
Proof.
  intros S Hv Hp Hf Hfree. pose proof (PageTable_map_paths a m pt path free used v p flags S Hv Hp Hf Hfree) as Hm.
  destruct (mapping m pt v); [done|].
  destruct Hm as (pt' & a' & m' & path' & free' & used' & Hr & Hroot & S' & Hmap & Hfr & Hsub & Hun & Hus & Hpp & Hdp & Hc & _).
  by exists pt', a', m', path', free', used'.
Qed.

Lemma PageTable_unmap_spec a m pt path free used v :
  pt_state a m (root_ppn pt) (pt_frames pt) path free used → 0 ≤ vpn v < 2 ^ 27 →
  match mapping m pt v with
  | Some _ => ∃ m', PageTable_unmap m pt v = Done m' ∧
      pt_state a m' (root_ppn pt) (pt_frames pt) path free used ∧
      (∀ v', 0 ≤ vpn v' < 2 ^ 27 → mapping m' pt v' = if decide (v' = v) then None else mapping m pt v') ∧
      (∀ r, path !! r = None → m' !! r = m !! r)
  | None => PageTable_unmap m pt v = Panicked PUnwrap ∨ PageTable_unmap m pt v = Panicked PAssert
  end.
Proof.
  intros S Hv. pose proof (ps_tree _ _ _ _ _ _ _ S) as T. rewrite (mapping_find a m pt path free used v S).
  destruct (find_pte_spec m (root_ppn pt) path T pt v eq_refl) as (o & Hf & Ho). unfold PageTable_unmap.
  rewrite Hf, outcome_bind_Done. destruct o as [[q i]|]; [|by left]. destruct Ho as (y & Hq & Hy & E & Hi).
  cbn [unwrap]. rewrite outcome_bind_Done, get_pte_eq, outcome_bind_Done by (done || by apply (tr_mem _ _ _ T q y)).
  destruct (PTE_is_valid (pte_at m q i)) eqn:Hvalid; cbn [assert_that]; [|by right].
  rewrite outcome_bind_Done.
  destruct (set_pte_spec m q i PTE_empty) as (m2 & Hset & Hwf & Hdom & Hoth & Hs & Hj);
    [apply T|by apply (tr_mem _ _ _ T q y)|done|done|].
  exists m2. split; [done|]. split.
  - apply (pt_state_write a m); [done| |done]. by apply (leaf_write_tree m m2 _ path T q y).
  - split.
    + intros v' Hv'.
      by rewrite (leaf_write_mapping m m2 _ path T q y i PTE_empty Hq Hy Hwf Hdom Hoth Hs Hj pt v v') by done.
    + intros r Hr. apply Hoth. congruence.
Qed.

(** [translate] and [translate_va] on a mapped page. *)
Lemma translate_mapped a m pt path free used v e :
  pt_state a m (root_ppn pt) (pt_frames pt) path free used → mapping m pt v = Some e →
  translate m pt v = Done (Some e) ∧
  ∀ va0, VirtAddr_floor va0 = v → translate_va m pt va0 =
    Done (Some (PhysAddr_from (u64 (pa (PhysAddr_of_page (PTE_ppn e)) + VirtAddr_page_offset va0)))).
Proof. intros S. apply (translate_tree m pt path). apply S. Qed.

(** A new table maps nothing. *)
Lemma PageTable_new_spec a m free used : fa_inv a free used → wf_memory m → (1 ≤ size free)%nat →
  (∀ f, f ∈ free → is_Some (m !! f) ∧ 0 ≤ ppn f < 2 ^ 44) →
  ∃ pt a' m', PageTable_new a m = Done (pt, a', m') ∧
    pt_state a' m' (root_ppn pt) (pt_frames pt) {[root_ppn pt := []]} (free ∖ {[root_ppn pt]}) ({[root_ppn pt]} ∪ used) ∧
    root_ppn pt ∈ free ∧ (∀ r, r ≠ root_ppn pt → m' !! r = m !! r) ∧
    ∀ v, 0 ≤ vpn v < 2 ^ 27 → mapping m' pt v = None.
Proof.
  intros I Hwf Hfree Hf. pose proof (frame_alloc_spec a m free used I (λ f Hff, proj1 (Hf f Hff))) as Ha.
  unfold PageTable_new. destruct (frame_alloc a m) as [[[[f|] a1] m1]|]; [|exfalso|done].
  2:{ destruct Ha as (-> & _). rewrite size_empty in Hfree. lia. }
  destruct Ha as (Hff & Hnd & -> & I1). repeat (rewrite outcome_bind_Done || cbn [unwrap]).
  destruct (Hf _ Hff) as [Hfm Hfr].
  eexists _, _, _. split; [done|]. cbn [root_ppn pt_frames].
  assert (Hz : ∀ j, idx_ok j → pte_at (<[ft_ppn f := zero_page]> m) (ft_ppn f) j = PTE_empty) by (intros; by apply pte_at_zero).
  assert (Hp : ∀ p x, ({[ft_ppn f := []]} : gmap PhysPageNum (list Z)) !! p = Some x → p = ft_ppn f ∧ x = [])
    by (intros p x Hx; apply lookup_singleton_Some in Hx as [<- <-]; done).
  split; [|split; [done|split]].
  - split.
    + split.
      * apply map_Forall_insert_2; [apply zero_page_wf|done].
      * by rewrite lookup_singleton_eq.
      * by intros p q x [-> _]%Hp [-> _]%Hp.
      * intros p x [-> _]%Hp. split; [rewrite lookup_insert_eq; by eexists|done].
      * intros p x [_ ->]%Hp. cbn. lia.
      * intros p x i [-> ->]%Hp _ Hi. by rewrite Hz.
      * intros q x i [_ E]%Hp. by destruct x.
    + done.
    + rewrite dom_singleton_L. set_solver.
    + intros g [Hg _]%elem_of_difference. destruct (Hf g Hg) as [[b Hb] Hr]. split; [|done].
      apply elem_of_dom. rewrite dom_insert_lookup_L by done. apply elem_of_dom. by exists b.
    + intros p. cbn. rewrite dom_singleton_L, list_elem_of_singleton. set_solver.
    + apply NoDup_singleton.
    + intros g ->%list_elem_of_singleton. done.
  - intros r Hr. by rewrite lookup_insert_ne.
  - intros v Hv. unfold mapping, leaf_from. cbn [root_ppn].
    rewrite indexes_eq. cbn [find_walk]. rewrite get_pte_eq, outcome_bind_Done;
      [by rewrite Hz by (apply Z.mod_pos_bound; lia)|rewrite lookup_insert_eq; by eexists|apply Z.mod_pos_bound; lia].
Qed.
End with_allocator.

(** C6. A page table is a finite map from pages to entries.  A new table maps nothing; [map] adds
    one page to it and nothing else, whatever tables it has to create, and panics on a page mapped
    already; [unmap] removes one page and panics on a page not mapped; a mapped page translates to
    exactly the frame and flags it was mapped with.  The state of the table, its frames being those
    of the tree and taken from the allocator, is kept; no frame outside the table changes. *)
Theorem page_table_is_map a m pt path free used v p flags :
  pt_state (A := StackFrameAllocator) a m (root_ppn pt) (pt_frames pt) path free used →
  0 ≤ vpn v < 2 ^ 27 → 0 ≤ ppn p < 2 ^ 44 → 0 ≤ flags < 2 ^ 8 → (2 ≤ size free)%nat →
  (mapping m pt v = None → ∃ pt' a' m' path' free' used',
     PageTable_map a m pt v p flags = Done (pt', a', m') ∧
     pt_state a' m' (root_ppn pt') (pt_frames pt') path' free' used' ∧
     (∀ v', 0 ≤ vpn v' < 2 ^ 27 → mapping m' pt' v' =
        if decide (v' = v) then Some (PTE_new p (Z.lor flags PTE_V)) else mapping m pt v') ∧
     (∃ e, translate m' pt' v = Done (Some e) ∧ PTE_ppn e = p ∧ PTE_flags e = Z.lor flags PTE_V) ∧
     (∀ r, r ∉ free → path !! r = None → m' !! r = m !! r)) ∧
  (is_Some (mapping m pt v) → PageTable_map a m pt v p flags = Panicked PAssert ∧
     ∃ m', PageTable_unmap m pt v = Done m' ∧
       pt_state a m' (root_ppn pt) (pt_frames pt) path free used ∧
       (∀ v', 0 ≤ vpn v' < 2 ^ 27 → mapping m' pt v' = if decide (v' = v) then None else mapping m pt v') ∧
       (∀ r, path !! r = None → m' !! r = m !! r)) ∧
  (mapping m pt v = None → ∃ e, PageTable_unmap m pt v = Panicked e).
Proof.
  intros S Hv Hp Hf Hfree. pose proof (PageTable_map_spec a m pt path free used v p flags S Hv Hp Hf Hfree) as Hm.
  pose proof (PageTable_unmap_spec a m pt path free used v S Hv) as Hu. split; [|split].
  - intros E. rewrite E in Hm. destruct Hm as (pt' & a' & m' & path' & free' & used' & Hr & _ & S' & Hmap & Hfr & _).
    exists pt', a', m', path', free', used'. split; [done|]. split; [done|]. split; [done|]. split; [|done].
    exists (PTE_new p (Z.lor flags PTE_V)). destruct (flags_or_V flags Hf) as [Hfl _].
    split; [|split; [by apply PTE_ppn_new|by apply PTE_flags_new]].
    eapply (translate_mapped a' m' pt'); [done|]. rewrite Hmap by done. by rewrite decide_True.
  - intros [e E]. rewrite E in Hm, Hu. done.
  - intros E. rewrite E in Hu. destruct Hu as [-> | ->]; eauto.
Qed.

(** ** User buffers are the user's bytes *)

(** [from_token] finds the root again. *)
Lemma token_roundtrip pt : 0 ≤ ppn (root_ppn pt) < 2 ^ 44 → PageTable_from_token (PageTable_token pt) = mkPageTable (root_ppn pt) [].
Proof.
  intros Hroot. unfold PageTable_from_token, PageTable_token. f_equal. unfold PhysPageNum_from. rewrite !mask_land by done.
  change PPN_WIDTH_SV39 with 44. rewrite Zmod_mod. destruct (root_ppn pt) as [r]. cbn [ppn] in *. f_equal.
  rewrite <- (Z.land_ones _ 44), Z.land_lor_distr_l, !Z.land_ones by done.
  change (u64 (Z.shiftl 8 60) mod 2 ^ 44) with 0. rewrite Z.lor_0_l. by apply Z.mod_small.
Qed.

(** The places of the bytes of a piece. *)
Definition chunk_places (c : chunk) : list place := let '(p, from, to) := c in pair p <$> seqZ from (to - from).

(** Where the byte at the virtual address [k] is. *)
Definition byte_place (m : memory) (pt : PageTable) (k : Z) : place :=
  (PTE_ppn (default PTE_empty (mapping m pt (VPN (k / 4096)))), k mod 4096).

(** The items a [for] loop over a [UserBuffer] takes, at most [n] of them. *)
Fixpoint collect (n : nat) (it : UserBufferIterator) : outcome (list place) :=
  match n with
  | O => mret []
  | S n =>
      o ← UserBufferIterator_next it;
      match o with
      | None => mret []
      | Some (r, it) => l ← collect n it; mret (r :: l)
      end
  end.

Lemma fmap_seqZ_app {X} (f : Z → X) s n k : 0 ≤ n → 0 ≤ k →
  f <$> seqZ s (n + k) = (f <$> seqZ s n) ++ (f <$> seqZ (s + n) k).
Proof. intros. rewrite seqZ_app by done. apply fmap_app. Qed.

Lemma chunk_places_page m pt start e q : 0 ≤ start ≤ e → e ≤ (start / 4096 + 1) * 4096 →
  mapping m pt (VPN (start / 4096)) = Some q →
  pair (PTE_ppn q) <$> seqZ (start mod 4096) (e - start) = byte_place m pt <$> seqZ start (e - start).
Proof.
  intros Hse He Hq. apply list_eq. intros i. rewrite !list_lookup_fmap.
  destruct (decide (Z.of_nat i < e - start)).
  - rewrite !lookup_seqZ_lt by done. cbn. f_equal. unfold byte_place.
    replace ((start + Z.of_nat i) / 4096) with (start / 4096) by dlia. rewrite Hq. cbn. f_equal. dlia.
  - by rewrite !lookup_seqZ_ge by lia.
Qed.

(** Only the root of the table matters to a translation. *)
Lemma buffer_loop_root m pt pt' n start end_ : root_ppn pt = root_ppn pt' →
  buffer_loop m pt n start end_ = buffer_loop m pt' n start end_.
Proof.
  intros E. revert start. induction n as [|n IH]; intros start; [done|]. cbn [buffer_loop].
  destruct (start <? end_); [|done].
  assert (translate m pt = translate m pt') as -> by (unfold translate, find_pte; by rewrite E).
  destruct (translate m pt' _) as [o|]; [|done]. rewrite !outcome_bind_Done. destruct o as [e|]; [|done].
  cbn [unwrap]. rewrite !outcome_bind_Done. by rewrite IH.
Qed.

Section user_buffer.
Context {A : Type} `{FrameAllocatorLaws A} (a : A) (m : memory) (pt : PageTable).
Context (path : gmap PhysPageNum (list Z)) (free used : gset PhysPageNum).
Context (S : pt_state a m (root_ppn pt) (pt_frames pt) path free used).

Lemma buffer_loop_spec n : ∀ start end_, 0 ≤ start ≤ end_ → end_ < 2 ^ 38 →
  (∀ k, start ≤ k < end_ → is_Some (mapping m pt (VPN (k / 4096)))) →
  1 ≤ Z.of_nat n → (start < end_ → end_ / 4096 - start / 4096 + 2 ≤ Z.of_nat n) →
  ∃ cs, buffer_loop m pt n start end_ = Done (Some cs) ∧
    cs ≫= chunk_places = byte_place m pt <$> seqZ start (end_ - start) ∧
    Forall (λ c, 0 < chunk_len c) cs.
Proof.
  induction n as [|n IH]; intros start end_ Hse Hend Hmap H1 Hn; [lia|].
  cbn [buffer_loop]. destruct (Z.ltb_spec start end_) as [Hlt|Hge]; last first.
  { exists []. split; [done|]. replace (end_ - start) with 0 by lia. done. }
  destruct (Hmap start) as [q Hq]; [lia|].
  assert (Es : VirtAddr_from start = VA start).
  { unfold VirtAddr_from. rewrite mask_land by done. change VA_WIDTH_SV39 with 39. f_equal. apply Z.mod_small. lia. }
  assert (Ee : VirtAddr_from end_ = VA end_).
  { unfold VirtAddr_from. rewrite mask_land by done. change VA_WIDTH_SV39 with 39. f_equal. apply Z.mod_small. lia. }
  rewrite Es, Ee. change (VirtAddr_floor (VA start)) with (VPN (start / 4096)).
  destruct (translate_mapped a m pt path free used _ q S Hq) as [Ht _]. rewrite Ht, outcome_bind_Done.
  cbn [unwrap]. rewrite outcome_bind_Done. unfold VirtAddr_page_offset. cbn [va]. rewrite !page_offset_eq.
  assert (En : va (VirtAddr_of_page (VirtPageNum_step (VPN (start / 4096)))) = (start / 4096 + 1) * 4096).
  { unfold VirtAddr_of_page, VirtPageNum_step. cbn [va vpn]. rewrite (wrap_small 64 (start / 4096 + 1)) by dlia.
    rewrite Z.shiftl_mul_pow2 by done. change (2 ^ PAGE_SIZE_BITS) with 4096. apply wrap_small. dlia. }
  rewrite En. set (e := Z.min ((start / 4096 + 1) * 4096) end_).
  assert (He : start < e ≤ end_ ∧ e ≤ (start / 4096 + 1) * 4096) by (unfold e; dlia).
  assert (Eu : VirtAddr_usize (VA e) = e).
  { rewrite VirtAddr_usize_eq by (cbn [va]; lia). cbn [va]. destruct (Z.leb_spec (2 ^ 38) e); lia. }
  rewrite Eu.
  set (c := if e mod 4096 =? 0 then (PTE_ppn q, start mod 4096, PAGE_SIZE) else (PTE_ppn q, start mod 4096, e mod 4096)).
  assert (Ec : c = (PTE_ppn q, start mod 4096, start mod 4096 + (e - start))).
  { unfold c. change PAGE_SIZE with 4096. clearbody e. clear - He Hse.
    destruct (Z.eqb_spec (e mod 4096) 0) as [E|E]; f_equal; [|]. all: dlia. }
  rewrite Ec. destruct (Z.leb_spec (start mod 4096) (start mod 4096 + (e - start))); [|lia].
  cbn [assert_that]. rewrite outcome_bind_Done.
  destruct (IH e end_) as (cs & Hcs & Hpl & Hpos); [lia|done|intros k Hk; apply Hmap; lia|clear - Hn Hlt Hse; dlia| |].
  { intros Hee. specialize (Hn Hlt). assert (e / 4096 = start / 4096 + 1) by (unfold e in *; clear - Hee; dlia). lia. }
  rewrite Hcs. eexists. split; [reflexivity|]. split.
  - cbn [mbind list_bind]. change (list_bind _ _ chunk_places cs) with (cs ≫= chunk_places). rewrite Hpl.
    cbn [chunk_places]. replace (start mod 4096 + (e - start) - start mod 4096) with (e - start) by lia.
    rewrite (chunk_places_page m pt start e q) by (done || lia).
    replace (end_ - start) with ((e - start) + (end_ - e)) by lia. rewrite fmap_seqZ_app by lia.
    do 3 f_equal. lia.
  - constructor; [cbn; lia|done].
Qed.
End user_buffer.

(** The iterator of a buffer without empty pieces gives the bytes of the pieces in order. *)
Lemma chunk_places_drop c k : 0 ≤ k < chunk_len c →
  drop (Z.to_nat k) (chunk_places c) = (let '(p, from, _) := c in (p, from + k)) :: drop (Z.to_nat (k + 1)) (chunk_places c).
Proof.
  destruct c as [[p from] to]. cbn [chunk_len chunk_places]. intros Hk.
  rewrite Z2Nat.inj_add by lia. change (Z.to_nat 1) with 1%nat. rewrite Nat.add_1_r. apply drop_S.
  rewrite list_lookup_fmap, lookup_seqZ_lt by lia. cbn. do 2 f_equal. lia.
Qed.

Lemma collect_spec bs n : ∀ i k c, Forall (λ c, 0 < chunk_len c) bs → bs !! i = Some c → 0 ≤ k < chunk_len c →
  let rest := drop (Z.to_nat k) (chunk_places c) ++ (drop (S i) bs ≫= chunk_places) in
  (length rest ≤ n)%nat → collect n (mkUBI bs i k) = Done rest.
Proof.
  induction n as [|n IH]; intros i k c Hpos Hc Hk rest Hn.
  - exfalso. unfold rest in Hn. rewrite chunk_places_drop in Hn by done. cbn in Hn. lia.
  - cbn [collect]. unfold UserBufferIterator_next. cbn [ub_buffers current_buffer current_idx]. rewrite Hc.
    unfold rest in *. rewrite chunk_places_drop in * by done. cbn [app length] in *.
    destruct c as [[p from] to] eqn:Ec. rewrite <- Ec in *. cbn [mbind].
    unfold assert_that. destruct (Z.ltb_spec k (chunk_len c)); [|lia]. rewrite outcome_bind_Done.
    destruct (Z.eqb_spec (k + 1) (chunk_len c)) as [E|E].
    + assert (Ed : drop (Z.to_nat (k + 1)) (chunk_places c) = []).
      { apply drop_ge. rewrite Ec. cbn [chunk_places]. rewrite length_fmap, length_seqZ. subst c. cbn in E. lia. }
      rewrite Ed in *. cbn [app] in *. rewrite outcome_bind_Done.
      destruct (bs !! S i) as [c'|] eqn:Hc'.
      * assert (Hp' : 0 < chunk_len c') by by apply (Forall_lookup_1 _ _ _ _ Hpos Hc').
        rewrite (drop_S bs c' (S i) Hc') in *. cbn [mbind list_bind] in Hn |- *.
        change (list_bind _ _ chunk_places ?l) with (l ≫= chunk_places) in *.
        rewrite (IH (S i) 0 c') by (done || lia || (cbn; rewrite drop_0; lia)).
        rewrite outcome_bind_Done. cbn. by rewrite drop_0.
      * rewrite (drop_ge bs (S i)) by by apply lookup_ge_None.
        assert (collect n (mkUBI bs (S i) 0) = Done []) as ->.
        { destruct n; [done|]. cbn [collect]. unfold UserBufferIterator_next. cbn [ub_buffers current_buffer]. by rewrite Hc'. }
        done.
    + rewrite outcome_bind_Done, (IH i (k + 1) c) by (done || lia). done.
Qed.

Lemma into_iter_spec bs n : Forall (λ c, 0 < chunk_len c) bs → (length (bs ≫= chunk_places) ≤ n)%nat →
  collect n (UserBuffer_into_iter bs) = Done (bs ≫= chunk_places).
Proof.
  intros Hpos Hn. destruct bs as [|c bs]; [by destruct n|].
  apply (collect_spec (c :: bs) n 0 0 c); [done|done| |exact Hn].
  apply Forall_cons in Hpos as [? _]. lia.
Qed.

Lemma UserBuffer_len_places bs : Forall (λ c, 0 ≤ chunk_len c) bs →
  UserBuffer_len bs = zlen (bs ≫= chunk_places).
Proof.
  unfold zlen. induction 1 as [|c bs Hc Hbs IH]; [done|]. cbn [UserBuffer_len foldr mbind list_bind].
  fold (UserBuffer_len bs). rewrite IH, length_app. destruct c as [[p from] to]. cbn [chunk_places chunk_len] in *.
  rewrite length_fmap, length_seqZ. change (list_bind _ _ chunk_places bs) with (bs ≫= chunk_places). lia.
Qed.

(** C34. [translated_byte_buffer] of a mapped user range terminates and gives the range: iterating
    over the [UserBuffer] visits, in order and once each, the physical places of the bytes [ptr],
    [ptr + 1], ..., across page boundaries, and its [len] is the length asked for. *)
Theorem user_buffer_is_range a m pt path free used ptr len n k :
  pt_state (A := StackFrameAllocator) a m (root_ppn pt) (pt_frames pt) path free used →
  0 ≤ ptr → 0 ≤ len → ptr + len < 2 ^ 38 →
  (∀ j, ptr ≤ j < ptr + len → is_Some (mapping m pt (VPN (j / 4096)))) →
  len / 4096 + 3 ≤ Z.of_nat n → len ≤ Z.of_nat k → 0 ≤ ppn (root_ppn pt) < 2 ^ 44 →
  ∃ bs, translated_byte_buffer m n (PageTable_token pt) ptr len = Done (Some bs) ∧
    UserBuffer_len bs = len ∧
    collect k (UserBuffer_into_iter bs) = Done (byte_place m pt <$> seqZ ptr len).
Proof.
  intros S Hptr Hlen Hfit Hmap Hn Hk Hroot.
  pose proof (token_roundtrip pt Hroot) as Et.
  destruct (buffer_loop_spec a m pt path free used S n ptr (ptr + len)) as (bs & Hb & Hpl & Hpos);
    [lia|done|done|dlia|intros _; dlia|].
  exists bs. unfold translated_byte_buffer. rewrite Et, wrap_small by lia.
  rewrite (buffer_loop_root m _ pt) by done. split; [exact Hb|].
  replace (ptr + len - ptr) with len in Hpl by lia. split.
  - rewrite UserBuffer_len_places by (eapply Forall_impl; [exact Hpos|cbn; lia]).
    rewrite Hpl. unfold zlen. rewrite length_fmap, length_seqZ. lia.
  - rewrite into_iter_spec; [by rewrite Hpl|done|]. rewrite Hpl, length_fmap, length_seqZ. lia.
Qed.

(** An allocator of fifteen zero frames, a table made of the first and one page mapped. *)
Module PageTableWitness.
Definition frames : gset PhysPageNum := list_to_set (PPN <$> seqZ 5 (20 - 5)).
Definition a0 : StackFrameAllocator := Stack_init (PPN 5) (PPN 20) Stack_new.
Definition m0 : memory := gset_to_gmap zero_page frames.

Lemma in_frames f : f ∈ frames → is_Some (m0 !! f) ∧ 0 ≤ ppn f < 2 ^ 44.
Proof.
  intros Hf. split.
  - exists zero_page. by apply lookup_gset_to_gmap_Some.
  - apply elem_of_list_to_set, list_elem_of_fmap in Hf as (x & -> & Hx%elem_of_seqZ). cbn. lia.
Qed.

Lemma table : ∃ pt a m, pt_state a m (root_ppn pt) (pt_frames pt) {[root_ppn pt := []]}
    (frames ∖ {[root_ppn pt]}) ({[root_ppn pt]} ∪ ∅) ∧ root_ppn pt ∈ frames ∧
  (10 ≤ size (frames ∖ {[root_ppn pt]}))%nat ∧
  ∀ v, 0 ≤ vpn v < 2 ^ 27 → mapping m pt v = None.
Proof.
  destruct (PageTable_new_spec a0 m0 frames ∅) as (pt & a & m & _ & S & Hr & _ & Hm).
  - by apply Stack_init_inv.
  - intros p b [_ <-]%lookup_gset_to_gmap_Some. apply zero_page_wf.
  - assert (size frames = 15%nat) as ->; [by vm_compute|lia].
  - apply in_frames.
  - exists pt, a, m. split; [done|]. split; [done|]. split; [|done].
    rewrite size_difference, size_singleton by set_solver. assert (size frames = 15%nat) as -> by by vm_compute. lia.
Qed.

Lemma mapped : ∃ pt a m path free used,
  pt_state a m (root_ppn pt) (pt_frames pt) path free used ∧ 0 ≤ ppn (root_ppn pt) < 2 ^ 44 ∧
  mapping m pt (VPN 1) = Some (PTE_new (PPN 77) 7).
Proof.
  destruct table as (pt & a & m & S & Hr & Hs & Hm).
  pose proof (PageTable_map_spec a m pt _ _ _ (VPN 1) (PPN 77) 6 S) as Hmap.
  rewrite Hm in Hmap by (cbn; lia). destruct Hmap as (pt' & a' & m' & path & free & used & _ & E & S' & Hmap & _); [cbn; lia..|lia|].
  exists pt', a', m', path, free, used. split; [done|]. split.
  - rewrite E. by apply in_frames.
  - rewrite Hmap by (cbn; lia). by rewrite decide_True.
Qed.
End PageTableWitness.

Lemma page_table_is_map_witness :
  ∃ pt a m pt' a' m', mapping m pt (VPN 3) = None ∧
    PageTable_map (A := StackFrameAllocator) a m pt (VPN 3) (PPN 9) 6 = Done (pt', a', m') ∧
    mapping m' pt' (VPN 3) = Some (PTE_new (PPN 9) 7).
Proof.
  destruct PageTableWitness.table as (pt & a & m & S & _ & Hs & Hm).
  destruct (page_table_is_map a m pt _ _ _ (VPN 3) (PPN 9) 6 S) as (H & _); [cbn; lia..|lia|].
  destruct H as (pt' & a' & m' & path & free & used & Hr & _ & Hmap & _); [apply Hm; cbn; lia|].
  exists pt, a, m, pt', a', m'. split; [apply Hm; cbn; lia|]. split; [exact Hr|].
  rewrite Hmap by (cbn; lia). by rewrite decide_True.
Defined.

Lemma user_buffer_is_range_witness :
  ∃ pt m bs, translated_byte_buffer m 3 (PageTable_token pt) 4100 2 = Done (Some bs) ∧
    UserBuffer_len bs = 2 ∧
    collect 2 (UserBuffer_into_iter bs) = Done [(PPN 77, 4); (PPN 77, 5)].
Proof.
  destruct PageTableWitness.mapped as (pt & a & m & path & free & used & S & Hr & Hm).
  destruct (user_buffer_is_range a m pt path free used 4100 2 3 2 S) as (bs & Hb & Hl & Hc); [lia..| |done|lia|done|].
  - intros j Hj. replace (j / 4096) with 1 by dlia. rewrite Hm. eauto.
  - exists pt, m, bs. split; [exact Hb|]. split; [exact Hl|]. rewrite Hc. f_equal.
    change (seqZ 4100 2) with [4100; 4101]. cbn [fmap list_fmap]. unfold byte_place.
    change (VPN (4100 / 4096)) with (VPN 1). change (VPN (4101 / 4096)) with (VPN 1). rewrite Hm. by vm_compute.
Defined.
