(* ===== verification/MemorySet.v ===== *)
(** * MemorySet.v: address spaces as areas over a page table ([os/src/mm/memory_set.rs])

    The allocator and the memory are threaded through every operation ([mm]); a [BTreeMap] of
    frames is its entries in key order.  The linker symbols are the record [Symbols], and what the
    kernel uses of [xmas_elf] is a parameter. *)

From S2P Require Import Prelude Bytes Address FrameAlloc PageTable.

Inductive MapType : Type := Identical | Framed | Noalloc.

#[export] Instance MapType_eq_dec : EqDecision MapType.
Proof. solve_decision. Defined.

Inductive SectionType : Type :=
| Unknow | Rodata | Data | Text | BSS | Stack | Heap | TrapContext | Kernel_Stack | Device.

Definition MapPermission_R : Z := 2.
Definition MapPermission_W : Z := 4.
Definition MapPermission_X : Z := 8.
Definition MapPermission_U : Z := 16.

Abbreviation frame_map := (list (VirtPageNum * FrameTracker)) (only parsing).

Record MapArea : Type := mkArea {
  vpn_range : VPNRange;
  data_frames : frame_map;
  map_type : MapType;
  map_perm : Z;
  section_type : SectionType;
}.

Record MemorySet : Type := mkMemorySet {
  page_table : PageTable;
  areas : list MapArea;
}.

(** [BTreeMap::insert]: the old value, if any, and the new map. *)
Fixpoint bt_insert (k : VirtPageNum) (f : FrameTracker) (l : frame_map) : option FrameTracker * frame_map :=
  match l with
  | [] => (None, [(k, f)])
  | (k', f') :: l =>
      if vpn k <? vpn k' then (None, (k, f) :: (k', f') :: l)
      else if vpn k =? vpn k' then (Some f', (k, f) :: l)
      else let '(o, l) := bt_insert k f l in (o, (k', f') :: l)
  end.

(** [BTreeMap::remove] *)
Fixpoint bt_remove (k : VirtPageNum) (l : frame_map) : option FrameTracker * frame_map :=
  match l with
  | [] => (None, [])
  | (k', f') :: l =>
      if vpn k =? vpn k' then (Some f', l)
      else let '(o, l) := bt_remove k l in (o, (k', f') :: l)
  end.

(** The linker's symbols and the kernel's MMIO ranges ([os/src/boards/qemu.rs]). *)
Record Symbols : Type := mkSymbols {
  stext : Z; etext : Z;
  srodata : Z; erodata : Z;
  sdata : Z; edata : Z;
  sbss_with_stack : Z; ebss : Z;
  ekernel : Z;
  strampoline : Z;
}.

Definition MMIO : list (Z * Z) :=
  [(0x00100000, 0x002000); (0x2000000, 0x10000); (0xc000000, 0x210000); (0x10000000, 0x9000)].

Definition MapArea_new (start_va end_va : VirtAddr) (mt : MapType) (perm : Z) (st : SectionType) : outcome MapArea :=
  let start_vpn := VirtAddr_floor start_va in
  let end_vpn := VirtAddr_ceil end_va in
  r ← SimpleRange_new start_vpn end_vpn;
  mret (mkArea r [] mt perm st).

Definition MapArea_from_another (another : MapArea) : outcome MapArea :=
  r ← SimpleRange_new (rl (vpn_range another)) (rr (vpn_range another));
  mret (mkArea r [] (map_type another) (map_perm another) (section_type another)).

Section memory_set.
Context {A : Type} `{FrameAllocator A}.

(** What the memory operations change: the allocator, the memory, the table. *)
Record Mm : Type := mkMm {
  mm_alloc : A;
  mm_mem : memory;
}.

Definition drop_old (o : option FrameTracker) (mm : Mm) : outcome Mm :=
  match o with
  | None => mret mm
  | Some f => a ← FrameTracker_drop (mm_alloc mm) f; mret (mkMm a (mm_mem mm))
  end.

Definition pt_map (mm : Mm) (pt : PageTable) (v : VirtPageNum) (p : PhysPageNum) (flags : Z) : outcome (PageTable * Mm) :=
  '(pt, a, m) ← PageTable_map (mm_alloc mm) (mm_mem mm) pt v p flags;
  mret (pt, mkMm a m).

Definition map_one (mm : Mm) (pt : PageTable) (ar : MapArea) (v : VirtPageNum) : outcome (PageTable * MapArea * Mm) :=
  '(p, ar, mm) ←
    match map_type ar with
    | Identical => mret (PPN (vpn v), ar, mm)
    | Framed =>
        '(o, a, m) ← frame_alloc (mm_alloc mm) (mm_mem mm);
        frame ← unwrap PUnwrap o;
        let '(old, fs) := bt_insert v frame (data_frames ar) in
        mm ← drop_old old (mkMm a m);
        mret (ft_ppn frame, mkArea (vpn_range ar) fs (map_type ar) (map_perm ar) (section_type ar), mm)
    | Noalloc => Panicked PExplicit
    end;
  '(pt, mm) ← pt_map mm pt v p (map_perm ar);
  mret (pt, ar, mm).

Definition unmap_one (mm : Mm) (pt : PageTable) (ar : MapArea) (v : VirtPageNum) : outcome (MapArea * Mm) :=
  '(ar, mm) ←
    (if bool_decide (map_type ar = Framed) then
       let '(old, fs) := bt_remove v (data_frames ar) in
       mm ← drop_old old mm;
       mret (mkArea (vpn_range ar) fs (map_type ar) (map_perm ar) (section_type ar), mm)
     else mret (ar, mm));
  m ← PageTable_unmap (mm_mem mm) pt v;
  mret (ar, mkMm (mm_alloc mm) m).

(** [for vpn in self.vpn_range] *)
Fixpoint map_pages (mm : Mm) (pt : PageTable) (ar : MapArea) (vs : list VirtPageNum) : outcome (PageTable * MapArea * Mm) :=
  match vs with
  | [] => mret (pt, ar, mm)
  | v :: vs => '(pt, ar, mm) ← map_one mm pt ar v; map_pages mm pt ar vs
  end.

Fixpoint unmap_pages (mm : Mm) (pt : PageTable) (ar : MapArea) (vs : list VirtPageNum) : outcome (MapArea * Mm) :=
  match vs with
  | [] => mret (ar, mm)
  | v :: vs => '(ar, mm) ← unmap_one mm pt ar v; unmap_pages mm pt ar vs
  end.

Definition MapArea_map (mm : Mm) (pt : PageTable) (ar : MapArea) := map_pages mm pt ar (range_pages (vpn_range ar)).
Definition MapArea_unmap (mm : Mm) (pt : PageTable) (ar : MapArea) := unmap_pages mm pt ar (range_pages (vpn_range ar)).

(** [for (vpn, ppn) in zip(self.vpn_range, ppn_range)] *)
Fixpoint map_noalloc_pages (mm : Mm) (pt : PageTable) (ar : MapArea) (ps : list (VirtPageNum * PhysPageNum))
    : outcome (PageTable * MapArea * Mm) :=
  match ps with
  | [] => mret (pt, ar, mm)
  | (v, p) :: ps =>
      let '(old, fs) := bt_insert v (FrameTracker_new_noalloc p) (data_frames ar) in
      mm ← drop_old old mm;
      let ar := mkArea (vpn_range ar) fs (map_type ar) (map_perm ar) (section_type ar) in
      '(pt, mm) ← pt_map mm pt v p (map_perm ar);
      map_noalloc_pages mm pt ar ps
  end.

Definition map_noalloc (mm : Mm) (pt : PageTable) (ar : MapArea) (ppns : list PhysPageNum) :=
  map_noalloc_pages mm pt ar (zip (range_pages (vpn_range ar)) ppns).

(** [ppn.get_bytes_array()[..src.len()].copy_from_slice(src)] *)
Definition write_bytes (m : memory) (p : PhysPageNum) (src : list Z) : outcome memory :=
  b ← unwrap PInvalid (m !! p);
  mret (<[p := splice 0 src b]> m).

(** The loop of [copy_data] at offset [start]; [n] bounds the rounds, one page each. *)
Fixpoint copy_loop (m : memory) (pt : PageTable) (n : nat) (v : VirtPageNum) (start : Z) (data : list Z) : outcome memory :=
  match n with
  | O => mret m
  | S n =>
      let src := slice (Z.to_nat start) (Z.to_nat (Z.min (zlen data) (start + PAGE_SIZE) - start)) data in
      o ← translate m pt v;
      e ← unwrap PUnwrap o;
      m ← write_bytes m (PTE_ppn e) src;
      let start := start + PAGE_SIZE in
      if zlen data <=? start then mret m
      else copy_loop m pt n (VirtPageNum_step v) start data
  end.

Definition copy_data (mm : Mm) (pt : PageTable) (ar : MapArea) (data : list Z) : outcome Mm :=
  assert_that (bool_decide (map_type ar = Framed)) PAssert;;
  m ← copy_loop (mm_mem mm) pt (Z.to_nat (zlen data / PAGE_SIZE + 1)) (rl (vpn_range ar)) 0 data;
  mret (mkMm (mm_alloc mm) m).

(** ** Memory sets *)

Definition new_bare (mm : Mm) : outcome (MemorySet * Mm) :=
  '(pt, a, m) ← PageTable_new (mm_alloc mm) (mm_mem mm);
  mret (mkMemorySet pt [], mkMm a m).

Definition MemorySet_token (ms : MemorySet) : Z := PageTable_token (page_table ms).

Definition push (mm : Mm) (ms : MemorySet) (ar : MapArea) (data : option (list Z)) : outcome (MemorySet * Mm) :=
  '(pt, ar, mm) ← MapArea_map mm (page_table ms) ar;
  mm ← match data with None => mret mm | Some data => copy_data mm pt ar data end;
  mret (mkMemorySet pt (areas ms ++ [ar]), mm).

Definition push_noalloc (mm : Mm) (ms : MemorySet) (ar : MapArea) (ppns : list PhysPageNum) : outcome (MemorySet * Mm) :=
  '(pt, ar, mm) ← map_noalloc mm (page_table ms) ar ppns;
  mret (mkMemorySet pt (areas ms ++ [ar]), mm).

Definition insert_framed_area (mm : Mm) (ms : MemorySet) (start_va end_va : VirtAddr) (perm : Z) : outcome (MemorySet * Mm) :=
  ar ← MapArea_new start_va end_va Framed perm Kernel_Stack;
  push mm ms ar None.

(** A [MapArea] dropped: the trackers of its frames in key order. *)
Definition drop_area (mm : Mm) (ar : MapArea) : outcome Mm :=
  a ← drop_frames (mm_alloc mm) (data_frames ar).*2;
  mret (mkMm a (mm_mem mm)).

Definition remove_area_with_start_vpn (mm : Mm) (ms : MemorySet) (start_vpn : VirtPageNum) : outcome (MemorySet * Mm) :=
  match find_index (λ ar, bool_decide (rl (vpn_range ar) = start_vpn)) (areas ms) with
  | None => mret (ms, mm)
  | Some idx =>
      ar ← unwrap PIndex (areas ms !! idx);
      '(ar, mm) ← MapArea_unmap mm (page_table ms) ar;
      mm ← drop_area mm ar;
      mret (mkMemorySet (page_table ms) (delete idx (areas ms)), mm)
  end.

Definition map_trampoline (sym : Symbols) (mm : Mm) (ms : MemorySet) : outcome (MemorySet * Mm) :=
  v ← VirtPageNum_of_addr (VirtAddr_from TRAMPOLINE);
  p ← PhysPageNum_of_addr (PhysAddr_from (strampoline sym));
  '(pt, mm) ← pt_map mm (page_table ms) v p (Z.lor PTE_R PTE_X);
  mret (mkMemorySet pt (areas ms), mm).

Definition push_identical (mm : Mm) (ms : MemorySet) (start_ end_ perm : Z) (st : SectionType) : outcome (MemorySet * Mm) :=
  ar ← MapArea_new (VirtAddr_from start_) (VirtAddr_from end_) Identical perm st;
  push mm ms ar None.

Fixpoint push_mmio (mm : Mm) (ms : MemorySet) (rs : list (Z * Z)) : outcome (MemorySet * Mm) :=
  match rs with
  | [] => mret (ms, mm)
  | (base, len) :: rs =>
      '(ms, mm) ← push_identical mm ms base (base + len) (Z.lor MapPermission_R MapPermission_W) Device;
      push_mmio mm ms rs
  end.

Definition new_kernel (sym : Symbols) (mm : Mm) : outcome (MemorySet * Mm) :=
  '(ms, mm) ← new_bare mm;
  '(ms, mm) ← map_trampoline sym mm ms;
  '(ms, mm) ← push_identical mm ms (stext sym) (etext sym) (Z.lor MapPermission_R MapPermission_X) Text;
  '(ms, mm) ← push_identical mm ms (srodata sym) (erodata sym) MapPermission_R Rodata;
  '(ms, mm) ← push_identical mm ms (sdata sym) (edata sym) (Z.lor MapPermission_R MapPermission_W) Data;
  '(ms, mm) ← push_identical mm ms (sbss_with_stack sym) (ebss sym) (Z.lor MapPermission_R MapPermission_W) BSS;
  '(ms, mm) ← push_identical mm ms (ekernel sym) MEMORY_END (Z.lor MapPermission_R MapPermission_W) Heap;
  push_mmio mm ms MMIO.

(** *** Loading an ELF image *)

(** What the kernel asks [xmas_elf] for about an image. *)
Record ProgramHeader : Type := mkPh {
  ph_is_load : bool;
  ph_virtual_addr : Z;
  ph_mem_size : Z;
  ph_offset : Z;
  ph_file_size : Z;
  ph_read : bool;
  ph_write : bool;
  ph_execute : bool;
}.

Record ElfFile : Type := mkElf {
  elf_magic : list Z;
  elf_headers : list ProgramHeader;
  elf_entry : Z;
}.

(** [ElfFile::new] of the parser crate. *)
Context (parse_elf : list Z → option ElfFile).

Definition ph_perm (ph : ProgramHeader) : Z :=
  let p := MapPermission_U in
  let p := if ph_read ph then Z.lor p MapPermission_R else p in
  let p := if ph_write ph then Z.lor p MapPermission_W else p in
  if ph_execute ph then Z.lor p MapPermission_X else p.

(** [&elf.input[from..to]] *)
Definition byte_range (b : list Z) (from to : Z) : outcome (list Z) :=
  assert_that ((from <=? to) && (to <=? zlen b)) PIndex;;
  mret (slice (Z.to_nat from) (Z.to_nat (to - from)) b).

(** [for i in 0..ph_count] *)
Fixpoint load_segments (mm : Mm) (ms : MemorySet) (input : list Z) (max_end_vpn : VirtPageNum) (phs : list ProgramHeader)
    : outcome (MemorySet * VirtPageNum * Mm) :=
  match phs with
  | [] => mret (ms, max_end_vpn, mm)
  | ph :: phs =>
      if ph_is_load ph then
        let start_va := VirtAddr_from (ph_virtual_addr ph) in
        let end_va := VirtAddr_from (u64 (ph_virtual_addr ph + ph_mem_size ph)) in
        ar ← MapArea_new start_va end_va Framed (ph_perm ph) Unknow;
        let max_end_vpn := rr (vpn_range ar) in
        data ← byte_range input (ph_offset ph) (u64 (ph_offset ph + ph_file_size ph));
        '(ms, mm) ← push mm ms ar (Some data);
        load_segments mm ms input max_end_vpn phs
      else load_segments mm ms input max_end_vpn phs
  end.

Definition from_elf (sym : Symbols) (mm : Mm) (elf_data : list Z) : outcome (MemorySet * Z * Z * Mm) :=
  '(ms, mm) ← new_bare mm;
  '(ms, mm) ← map_trampoline sym mm ms;
  elf ← unwrap PUnwrap (parse_elf elf_data);
  assert_that (bool_decide (elf_magic elf = [0x7f; 0x45; 0x4c; 0x46])) PAssert;;
  '(ms, max_end_vpn, mm) ← load_segments mm ms elf_data (VPN 0) (elf_headers elf);
  let max_end_va := VirtAddr_of_page max_end_vpn in
  let user_stack_base := u64 (VirtAddr_usize max_end_va + PAGE_SIZE) in
  mret (ms, user_stack_base, elf_entry elf, mm).

(** *** Copying a space *)

(** [dst.get_bytes_array().copy_from_slice(src.get_bytes_array())] for the pages of an area. *)
Fixpoint copy_pages (mm : Mm) (src dst : PageTable) (vs : list VirtPageNum) : outcome Mm :=
  match vs with
  | [] => mret mm
  | v :: vs =>
      o ← translate (mm_mem mm) src v;
      src_pte ← unwrap PUnwrap o;
      o ← translate (mm_mem mm) dst v;
      dst_pte ← unwrap PUnwrap o;
      b ← unwrap PInvalid (mm_mem mm !! PTE_ppn src_pte);
      m ← write_bytes (mm_mem mm) (PTE_ppn dst_pte) b;
      copy_pages (mkMm (mm_alloc mm) m) src dst vs
  end.

Fixpoint copy_areas (mm : Mm) (src : PageTable) (ms : MemorySet) (ars : list MapArea) : outcome (MemorySet * Mm) :=
  match ars with
  | [] => mret (ms, mm)
  | ar :: ars =>
      new_area ← MapArea_from_another ar;
      '(ms, mm) ← push mm ms new_area None;
      mm ← copy_pages mm src (page_table ms) (range_pages (vpn_range ar));
      copy_areas mm src ms ars
  end.

Definition from_existed_user (sym : Symbols) (mm : Mm) (user_space : MemorySet) : outcome (MemorySet * Mm) :=
  '(ms, mm) ← new_bare mm;
  '(ms, mm) ← map_trampoline sym mm ms;
  copy_areas mm (page_table user_space) ms (areas user_space).

Definition MemorySet_translate (mm : Mm) (ms : MemorySet) (v : VirtPageNum) : outcome (option PageTableEntry) :=
  translate (mm_mem mm) (page_table ms) v.

Fixpoint drop_areas (mm : Mm) (ars : list MapArea) : outcome Mm :=
  match ars with
  | [] => mret mm
  | ar :: ars => mm ← drop_area mm ar; drop_areas mm ars
  end.

Definition recycle_data_pages (mm : Mm) (ms : MemorySet) : outcome (MemorySet * Mm) :=
  mm ← drop_areas mm (areas ms);
  mret (mkMemorySet (page_table ms) [], mm).
End memory_set.
Arguments Mm : clear implicits.

(** ** Pages outside the tables do not matter to the mapping *)

Section outside.
Context (m m' : memory) (root : PhysPageNum) (path : gmap PhysPageNum (list Z)) (T : tree m root path).
Context (Hwf : wf_memory m') (Hsame : ∀ p x, path !! p = Some x → m' !! p = m !! p).

Lemma outside_pte p x i : path !! p = Some x → pte_at m' p i = pte_at m p i.
Proof. intros Hp. unfold pte_at. by rewrite (Hsame p x). Qed.

Lemma outside_tree : tree m' root path.
Proof.
  split; [done|apply T|apply T| |apply T| |].
  - intros p x Hp. rewrite (Hsame p x) by done. by apply (tr_mem _ _ _ T p x).
  - intros p x i Hp. rewrite (outside_pte p x) by done. by apply (tr_child _ _ _ T).
  - intros q x i Hq. destruct (tr_parent _ _ _ T q x i Hq) as (p & Hp & Hr). exists p.
    by rewrite (outside_pte p x).
Qed.

Lemma outside_walk idxs p x : path !! p = Some x → Forall idx_ok idxs → (length x + length idxs = 3)%nat →
  find_walk m' p idxs = find_walk m p idxs.
Proof.
  revert p x. induction idxs as [|j idxs IH]; intros p x Hp Hok Hlen; [done|].
  apply Forall_cons in Hok as [Hj Hok]. destruct idxs as [|k idxs]; [done|]. cbn in Hlen. cbn [find_walk].
  rewrite !get_pte_eq; [|apply (tr_mem _ _ _ T p x Hp)|done|apply (tr_mem _ _ _ outside_tree p x Hp)|done].
  rewrite !outcome_bind_Done, (outside_pte p x) by done. destruct (PTE_is_valid (pte_at m p j)) eqn:Hv; [|done].
  cbn [negb]. apply (IH _ (x ++ [j])); [apply (tr_child _ _ _ T); (done || lia)|done|]. rewrite length_app. cbn in *. lia.
Qed.

Lemma outside_mapping pt v : root_ppn pt = root → mapping m' pt v = mapping m pt v.
Proof.
  intros E. unfold mapping, leaf_from. rewrite E. destruct (indexes_ok v) as [Hok Hl].
  rewrite (outside_walk (indexes v) root []) by (done || apply T).
  destruct (find_walk_spec m root path T (indexes v) root []) as (o & -> & Ho); [apply T|done|cbn; lia|lia|].
  destruct o as [[q i]|]; [|done]. destruct Ho as (y & Hq & _). by rewrite (outside_pte q y).
Qed.
End outside.

Section framed.
Context {A : Type} `{FrameAllocatorLaws A}.

Lemma bt_insert_new k f l : k ∉ l.*1 → ∃ l', bt_insert k f l = (None, l') ∧ l' ≡ₚ (k, f) :: l.
Proof.
  induction l as [|[k' f'] l IH]; intros Hk; cbn [bt_insert].
  - by exists [(k, f)].
  - cbn in Hk. apply not_elem_of_cons in Hk as [Hne Hk]. destruct (vpn k <? vpn k'); [by eexists|].
    destruct (Z.eqb_spec (vpn k) (vpn k')) as [E|]; [exfalso; apply Hne; destruct k, k'; cbn in E; congruence|].
    destruct (IH Hk) as (l' & -> & Hp). eexists. split; [done|]. rewrite Hp. apply Permutation_swap.
Qed.

(** The flags of a permission are a set of page table flags. *)
Definition perm_ok (perm : Z) : Prop := 0 ≤ perm < 2 ^ 8.

(** Taking a frame for a page. *)
Lemma alloc_outside a m root fs path free used f a1 :
  pt_state a m root fs path free used → ft_ppn f ∈ free →
  fa_inv a1 (free ∖ {[ft_ppn f]}) ({[ft_ppn f]} ∪ used) →
  pt_state a1 (<[ft_ppn f := zero_page]> m) root fs path (free ∖ {[ft_ppn f]}) ({[ft_ppn f]} ∪ used) ∧
  path !! ft_ppn f = None.
Proof.
  intros S Hf I. pose proof (fa_disjoint _ _ _ (ps_alloc _ _ _ _ _ _ _ S)) as Hdis.
  assert (Hn : path !! ft_ppn f = None).
  { apply not_elem_of_dom. intros Hin. apply (Hdis (ft_ppn f)); [done|]. by apply (ps_used _ _ _ _ _ _ _ S). }
  destruct (ps_free _ _ _ _ _ _ _ S _ Hf) as [Hm _]. split; [|done]. split; try apply S.
  - apply (outside_tree m); [apply S|apply map_Forall_insert_2; [apply zero_page_wf|apply (ps_tree _ _ _ _ _ _ _ S)]|].
    intros p x Hp. rewrite lookup_insert_ne; [done|]. congruence.
  - done.
  - pose proof (ps_used _ _ _ _ _ _ _ S). set_solver.
  - intros g [Hg _]%elem_of_difference. destruct (ps_free _ _ _ _ _ _ _ S g Hg) as [Hs Hr]. split; [|done].
    apply elem_of_dom. rewrite dom_insert_lookup_L by done. by apply elem_of_dom.
Qed.

Lemma take_one (free used : gset PhysPageNum) p : p ∈ free → ({[p]} ∪ used) ∪ (free ∖ {[p]}) = used ∪ free.
Proof.
  intros Hp. rewrite (comm_L (∪) {[p]} used), <- (assoc_L (∪)).
  by rewrite <- (union_difference_singleton_L p free).
Qed.

(** Mapping the pages [vs] of a framed area: [g] gives their frames. *)
Record mapped_pages (m m' : memory) (pt pt' : PageTable) (path' : gmap PhysPageNum (list Z)) (free : gset PhysPageNum)
    (perm : Z) (vs : list VirtPageNum) (g : VirtPageNum → PhysPageNum) : Prop := {
  mp_mapping : ∀ v, 0 ≤ vpn v < 2 ^ 27 →
    mapping m' pt' v = if decide (v ∈ vs) then Some (PTE_new (g v) (Z.lor perm PTE_V)) else mapping m pt v;
  mp_fresh : ∀ v, v ∈ vs → g v ∈ free ∧ path' !! g v = None;
  mp_inj : ∀ v w, v ∈ vs → w ∈ vs → g v = g w → v = w;
  mp_zero : ∀ v, v ∈ vs → m' !! g v = Some zero_page;
}.

Lemma map_framed_spec vs : ∀ a m pt path free used ar,
  pt_state a m (root_ppn pt) (pt_frames pt) path free used →
  map_type ar = Framed → perm_ok (map_perm ar) → NoDup vs → (∀ v, v ∈ vs → 0 ≤ vpn v < 2 ^ 27) →
  (∀ v, v ∈ vs → mapping m pt v = None) → (∀ v, v ∈ vs → v ∉ (data_frames ar).*1) →
  (3 * length vs ≤ size free)%nat →
  ∃ pt' ar' a' m' path' free' used' g,
    map_pages (mkMm a m) pt ar vs = Done (pt', ar', mkMm a' m') ∧
    pt_state a' m' (root_ppn pt') (pt_frames pt') path' free' used' ∧
    root_ppn pt' = root_ppn pt ∧ map_type ar' = Framed ∧ map_perm ar' = map_perm ar ∧ vpn_range ar' = vpn_range ar ∧
    (data_frames ar' ≡ₚ ((λ v, (v, mkTracker (g v) false)) <$> vs) ++ data_frames ar) ∧
    mapped_pages m m' pt pt' path' free (map_perm ar) vs g ∧
    (free' ⊆ free ∧ used' ∪ free' = used ∪ free ∧ (used ⊆ used' ∧ used' ⊆ used ∪ dom path' ∪ list_to_set (g <$> vs)) ∧ path ⊆ path' ∧ (size free ≤ size free' + 3 * length vs)%nat) ∧
    (∀ v, v ∈ vs → g v ∉ free') ∧
    (∀ r, r ∉ free → path !! r = None → m' !! r = m !! r ∧ path' !! r = None).
Proof.
  induction vs as [|v vs IH]; intros a m pt path free used ar S Ht Hperm Hnd Hr Hnone Hkeys Hfree.
  { exists pt, ar, a, m, path, free, used, (λ _, PPN 0). split; [done|]. split; [done|]. do 4 (split; [done|]).
    split; [done|]. split; [|split; [do 2 (split; [done|]); split; [split; [done|clear; set_solver]|split; [done|cbn; lia]]|split; [|done]]]; [split|]; intros w; intros; set_solver. }
  apply NoDup_cons in Hnd as [Hv Hnd]. cbn [length] in Hfree.
  cbn [map_pages]. unfold map_one. rewrite Ht. cbn [mm_alloc mm_mem].
  pose proof (frame_alloc_spec a m free used (ps_alloc _ _ _ _ _ _ _ S) (λ f Hf, proj1 (ps_free _ _ _ _ _ _ _ S f Hf))) as Ha.
  destruct (frame_alloc a m) as [[[[f|] a1] m1]|]; [|exfalso|done].
  2:{ destruct Ha as (-> & _). rewrite size_empty in Hfree. lia. }
  destruct Ha as (Hff & Hnodrop & -> & I1).
  destruct (alloc_outside a m _ _ path free used f a1 S Hff I1) as [S1 Hfp].
  repeat (rewrite outcome_bind_Done || cbn [unwrap]).
  destruct (bt_insert_new v f (data_frames ar)) as (fs & Hbt & Hperm_fs); [apply Hkeys; by left|].
  rewrite Hbt. cbn [drop_old]. repeat (rewrite outcome_bind_Done || cbn [mret outcome_ret]).
  set (ar1 := mkArea (vpn_range ar) fs Framed (map_perm ar) (section_type ar)).
  assert (Hsz : (size (free ∖ {[ft_ppn f]}) = size free - 1)%nat) by (rewrite size_difference, size_singleton by set_solver; done).
  destruct (ps_free _ _ _ _ _ _ _ S _ Hff) as [_ Hfr].
  assert (Hvr : 0 ≤ vpn v < 2 ^ 27) by (apply Hr; by left).
  pose proof (ps_tree _ _ _ _ _ _ _ S) as T.
  assert (Hmap1 : ∀ w, mapping (<[ft_ppn f := zero_page]> m) pt w = mapping m pt w).
  { intros w. apply (outside_mapping m _ (root_ppn pt) path T); [apply S1| |done].
    intros p x Hp. rewrite lookup_insert_ne; [done|]. congruence. }
  pose proof (PageTable_map_spec a1 _ pt path _ _ v (ft_ppn f) (map_perm ar) S1 Hvr Hfr Hperm ltac:(lia)) as Hm.
  rewrite Hmap1, Hnone in Hm by by left.
  destruct Hm as (pt2 & a2 & m2 & path2 & free2 & used2 & Hmap & Hroot & S2 & Hmap2 & Hfr2 & Hsub2 & Hun2 & Hus2 & Hpp2 & Hdp2 & Hcount).
  unfold pt_map. cbn [mm_alloc mm_mem]. change (map_perm ar1) with (map_perm ar). rewrite Hmap. repeat (rewrite outcome_bind_Done || cbn [mret outcome_ret]).
  destruct (IH a2 m2 pt2 path2 free2 used2 ar1 S2)
    as (pt' & ar' & a' & m' & path' & free' & used' & g & Hrun & S' & Hroot' & Ht' & Hpe & Hrg & Hdf & Hmp & (Hsub & Hun' & Hus' & Hpp' & Hcnt') & Hgf & Hout).
  { reflexivity. }
  { exact Hperm. }
  { exact Hnd. }
  { intros w Hw. apply Hr. by right. }
  { intros w Hw. rewrite Hmap2 by (apply Hr; by right). rewrite decide_False by congruence.
    rewrite Hmap1. apply Hnone. by right. }
  { intros w Hw Hin. cbn [data_frames ar1] in Hin. rewrite Hperm_fs in Hin. cbn in Hin.
    apply elem_of_cons in Hin as [->|Hin]; [done|]. apply (Hkeys w); [by right|done]. }
  { lia. }
  assert (Hf2 : ft_ppn f ∉ free2 ∧ path2 !! ft_ppn f = None).
  { split; [set_solver|]. apply not_elem_of_dom. intros Hin%Hdp2. apply not_elem_of_dom in Hfp. set_solver. }
  destruct (Hout (ft_ppn f)) as [Hm'f Hp'f]; [apply Hf2..|].
  assert (Hm2f : m2 !! ft_ppn f = Some zero_page).
  { rewrite Hfr2; [by rewrite lookup_insert_eq|set_solver|done]. }
  set (g' := λ w, if decide (w = v) then ft_ppn f else g w).
  assert (Hg'v : g' v = ft_ppn f) by (unfold g'; by rewrite decide_True).
  assert (Hg' : ∀ w, w ∈ vs → g' w = g w) by (intros w Hw; unfold g'; rewrite decide_False; [done|congruence]).
  exists pt', ar', a', m', path', free', used', g'. split; [exact Hrun|]. split; [done|].
  split; [congruence|]. do 3 (split; [done|]). split; [|split; [|split; [|split]]].
  - rewrite Hdf. cbn [data_frames ar1 fmap list_fmap]. rewrite Hg'v, Hperm_fs.
    assert (((λ w, (w, mkTracker (g' w) false)) <$> vs) = ((λ w, (w, mkTracker (g w) false)) <$> vs)) as ->.
    { apply list_fmap_ext. intros i w Hw. cbn. rewrite Hg'; [done|]. by eapply list_elem_of_lookup_2. }
    assert (f = mkTracker (ft_ppn f) false) as <- by (clear - Hnodrop; destruct f; cbn in *; congruence).
    by rewrite <- Permutation_middle.
  - split.
    + intros w Hw. rewrite (mp_mapping _ _ _ _ _ _ _ _ _ Hmp w Hw), Hmap2, Hmap1 by done.
      change (map_perm ar1) with (map_perm ar).
      destruct (decide (w ∈ vs)) as [Hin|Hin].
      * rewrite (decide_True (P := w ∈ v :: vs)) by by right. by rewrite Hg'.
      * destruct (decide (w = v)) as [->|Hne].
        -- rewrite decide_True by by left. by rewrite Hg'v.
        -- by rewrite decide_False by (rewrite not_elem_of_cons; done).
    + intros w [->|Hw]%elem_of_cons.
      * rewrite Hg'v. done.
      * rewrite Hg' by done. destruct (mp_fresh _ _ _ _ _ _ _ _ _ Hmp w Hw) as [Hg1 Hg2]. split; [set_solver|done].
    + intros w1 w2 [->|H1]%elem_of_cons [->|H2]%elem_of_cons; rewrite ?Hg'v, ?Hg' by done; intros E; [done| | |].
      * destruct (mp_fresh _ _ _ _ _ _ _ _ _ Hmp w2 H2) as [Hg1 _]. rewrite <- E in Hg1. by destruct Hf2.
      * destruct (mp_fresh _ _ _ _ _ _ _ _ _ Hmp w1 H1) as [Hg1 _]. rewrite E in Hg1. by destruct Hf2.
      * by apply (mp_inj _ _ _ _ _ _ _ _ _ Hmp).
    + intros w [->|Hw]%elem_of_cons; [rewrite Hg'v; congruence|]. rewrite Hg' by done.
      by apply (mp_zero _ _ _ _ _ _ _ _ _ Hmp).
  - split; [clear - Hsub Hsub2; set_solver|]. split; [by rewrite Hun', Hun2, take_one|].
    split; [split; [clear - Hus' Hus2; set_solver|]|split; [by transitivity path2|cbn [length]; lia]].
    cbn [fmap list_fmap list_to_set]. rewrite Hg'v. rewrite (list_fmap_ext g' g vs) by (intros j w Hw; apply Hg'; by eapply list_elem_of_lookup_2).
    apply subseteq_dom in Hpp'. clear - Hus' Hus2 Hpp'. set_solver.
  - intros w [->|Hw]%elem_of_cons; [rewrite Hg'v; clear - Hsub Hf2; set_solver|]. rewrite Hg' by done. by apply Hgf.
  - intros r Hrf Hrp. assert (Hr2 : r ∉ free2 ∧ path2 !! r = None).
    { split; [set_solver|]. apply not_elem_of_dom. intros Hin%Hdp2. apply not_elem_of_dom in Hrp. set_solver. }
    destruct (Hout r) as [Hm Hp']; [apply Hr2..|]. split; [|done]. rewrite Hm, Hfr2; [|set_solver|done].
    rewrite lookup_insert_ne; [done|]. intros <-. done.
Qed.
(** Removing a key that the map has once. *)
Lemma bt_remove_in k f l l0 : NoDup l.*1 → l ≡ₚ (k, f) :: l0 →
  ∃ l', bt_remove k l = (Some f, l') ∧ l' ≡ₚ l0.
Proof.
  intros Hnd Hp. assert (Hin : (k, f) ∈ l) by (rewrite Hp; by left).
  cut (∃ l', bt_remove k l = (Some f, l') ∧ l ≡ₚ (k, f) :: l').
  { intros (l' & Hl & Hp'). exists l'. split; [done|]. apply (Permutation_cons_inv (a := (k, f))). by rewrite <- Hp', <- Hp. }
  clear Hp l0. induction l as [|[k' f'] l IH]; [by apply not_elem_of_nil in Hin|].
  cbn [fmap list_fmap fst] in Hnd. apply NoDup_cons in Hnd as [Hk Hnd]. cbn [bt_remove].
  apply elem_of_cons in Hin as [[= <- <-]|Hin]; [rewrite Z.eqb_refl; by eexists|].
  destruct (Z.eqb_spec (vpn k) (vpn k')) as [E|_].
  { exfalso. apply Hk. apply list_elem_of_fmap. exists (k, f). split; [|done]. cbn. destruct k, k'; cbn in E; congruence. }
  destruct (IH Hnd Hin) as (l' & -> & Hp). eexists. split; [done|]. rewrite Hp. apply Permutation_swap.
Qed.

(** A frame given back. *)
Lemma dealloc_outside a m root fs path free used p a1 :
  pt_state a m root fs path free used → p ∈ used → path !! p = None →
  is_Some (m !! p) → 0 ≤ ppn p < 2 ^ 44 → fa_inv a1 ({[p]} ∪ free) (used ∖ {[p]}) →
  pt_state a1 m root fs path ({[p]} ∪ free) (used ∖ {[p]}).
Proof.
  intros S Hp Hn Hm Hr I. split; try apply S.
  - done.
  - pose proof (ps_used _ _ _ _ _ _ _ S) as Hu. intros q Hq. apply elem_of_difference. split; [by apply Hu|].
    intros E%elem_of_singleton. apply not_elem_of_dom in Hn. congruence.
  - intros f [->%elem_of_singleton|Hf]%elem_of_union; [done|]. by apply (ps_free _ _ _ _ _ _ _ S).
Qed.

(** Unmapping the pages [vs], all of a framed area: their frames [g] go back. *)
Lemma unmap_framed_spec g pt path vs : ∀ a m free used ar,
  pt_state a m (root_ppn pt) (pt_frames pt) path free used →
  map_type ar = Framed → NoDup vs → (∀ v, v ∈ vs → 0 ≤ vpn v < 2 ^ 27) →
  (∀ v, v ∈ vs → is_Some (mapping m pt v)) →
  data_frames ar ≡ₚ (λ v, (v, mkTracker (g v) false)) <$> vs →
  (∀ v w, v ∈ vs → w ∈ vs → g v = g w → v = w) →
  (∀ v, v ∈ vs → g v ∈ used ∧ path !! g v = None ∧ is_Some (m !! g v) ∧ 0 ≤ ppn (g v) < 2 ^ 44) →
  ∃ ar' a' m',
    unmap_pages (mkMm a m) pt ar vs = Done (ar', mkMm a' m') ∧ data_frames ar' = [] ∧
    pt_state a' m' (root_ppn pt) (pt_frames pt) path
      (list_to_set (g <$> vs) ∪ free) (used ∖ list_to_set (g <$> vs)) ∧
    (∀ v, 0 ≤ vpn v < 2 ^ 27 → mapping m' pt v = if decide (v ∈ vs) then None else mapping m pt v) ∧
    (∀ r, path !! r = None → m' !! r = m !! r).
Proof.
  induction vs as [|v vs IH]; intros a m free used ar S Ht Hnd Hr Hmap Hdf Hinj Hg.
  { apply Permutation_nil_r in Hdf. exists ar, a, m. split; [done|]. split; [done|]. cbn.
    rewrite (left_id_L ∅ (∪)), difference_empty_L. done. }
  apply NoDup_cons in Hnd as [Hv Hnd]. cbn [fmap list_fmap] in Hdf. destruct (Hg v ltac:(by left)) as (Hu & Hn & Hm & Hpr).
  assert (Hkeys : NoDup (data_frames ar).*1).
  { rewrite Hdf. cbn [fmap list_fmap fst]. rewrite <- list_fmap_compose. cbn. rewrite list_fmap_id. by constructor. }
  destruct (bt_remove_in v _ _ _ Hkeys Hdf) as (fs & Hbt & Hfs).
  cbn [unmap_pages]. unfold unmap_one. rewrite bool_decide_true by done. rewrite Hbt. cbn [drop_old mm_alloc mm_mem].
  unfold FrameTracker_drop, frame_dealloc. cbn [nodrop ft_ppn].
  destruct (fa_dealloc_spec a free used (g v) (ps_alloc _ _ _ _ _ _ _ S) Hu) as (a1 & Hd & I1).
  rewrite Hd. repeat (rewrite outcome_bind_Done || cbn [mret outcome_ret mm_alloc mm_mem]).
  pose proof (dealloc_outside a m _ _ _ _ _ _ a1 S Hu Hn Hm Hpr I1) as S1.
  pose proof (PageTable_unmap_spec a1 m pt path _ _ v S1 (Hr v ltac:(by left))) as Hun.
  destruct (Hmap v ltac:(by left)) as [e He]. rewrite He in Hun. destruct Hun as (m1 & Hrun & S2 & Hm1 & Hout).
  rewrite Hrun. repeat (rewrite outcome_bind_Done || cbn [mret outcome_ret]).
  destruct (IH a1 m1 _ _ (mkArea (vpn_range ar) fs (map_type ar) (map_perm ar) (section_type ar)) S2)
    as (ar' & a' & m' & Hrun' & Hdf' & S' & Hm' & Hout').
  { done. }
  { done. }
  { intros w Hw. apply Hr. by right. }
  { intros w Hw. rewrite Hm1 by (apply Hr; by right). rewrite decide_False by congruence. apply Hmap. by right. }
  { done. }
  { intros w1 w2 H1 H2. apply Hinj; by right. }
  { intros w Hw. destruct (Hg w ltac:(by right)) as (Hu' & Hn' & Hmw & Hpw). rewrite Hout by done. split; [|done].
    apply elem_of_difference. split; [done|]. intros E%elem_of_singleton. apply Hv.
    by rewrite (Hinj v w) by (congruence || by left || by right). }
  exists ar', a', m'. split; [done|]. split; [done|]. split; [|split].
  - cbn [fmap list_fmap list_to_set].
    replace ({[g v]} ∪ list_to_set (g <$> vs) ∪ free) with (list_to_set (g <$> vs) ∪ ({[g v]} ∪ free)) by (clear; set_solver).
    by replace (used ∖ ({[g v]} ∪ list_to_set (g <$> vs))) with (used ∖ {[g v]} ∖ list_to_set (g <$> vs)) by (clear; set_solver).
  - intros w Hw. rewrite Hm', Hm1 by done. destruct (decide (w ∈ vs)) as [Hin|Hin].
    + by rewrite decide_True by by right.
    + destruct (decide (w = v)) as [->|Hne]; [by rewrite decide_True by by left|].
      by rewrite decide_False by (rewrite not_elem_of_cons; done).
  - intros r Hrp. by rewrite Hout', Hout.
Qed.
End framed.

(** ** Properties *)

Lemma range_pages_spec r v : v ∈ range_pages r ↔ vpn (rl r) ≤ vpn v < vpn (rr r).
Proof.
  unfold range_pages. rewrite list_elem_of_fmap. split.
  - intros (x & -> & Hx%elem_of_seqZ). cbn. lia.
  - intros Hv. exists (vpn v). split; [by destruct v|]. apply elem_of_seqZ. lia.
Qed.

Lemma NoDup_range_pages r : NoDup (range_pages r).
Proof. unfold range_pages. apply NoDup_fmap_2; [intros ? ?; congruence|apply NoDup_seqZ]. Qed.

Lemma length_range_pages r : length (range_pages r) = Z.to_nat (vpn (rr r) - vpn (rl r)).
Proof. unfold range_pages. by rewrite length_fmap, length_seqZ. Qed.

(** ** Framed areas over their life *)

(** The area [ar] of the address space holds its pages: each is mapped to a frame [g] of its own,
    taken from the allocator and no table frame. *)
Record held (m : memory) (pt : PageTable) (path : gmap PhysPageNum (list Z)) (used : gset PhysPageNum)
    (perm : Z) (ar : MapArea) (g : VirtPageNum → PhysPageNum) : Prop := {
  h_type : map_type ar = Framed;
  h_perm : map_perm ar = perm;
  h_range : ∀ v, v ∈ range_pages (vpn_range ar) → 0 ≤ vpn v < 2 ^ 27;
  h_frames : data_frames ar ≡ₚ (λ v, (v, mkTracker (g v) false)) <$> range_pages (vpn_range ar);
  h_map : ∀ v, v ∈ range_pages (vpn_range ar) → mapping m pt v = Some (PTE_new (g v) (Z.lor perm PTE_V));
  h_inj : ∀ v w, v ∈ range_pages (vpn_range ar) → w ∈ range_pages (vpn_range ar) → g v = g w → v = w;
  h_frame : ∀ v, v ∈ range_pages (vpn_range ar) →
    g v ∈ used ∧ path !! g v = None ∧ is_Some (m !! g v) ∧ 0 ≤ ppn (g v) < 2 ^ 44;
}.

Section life.
Context {A : Type} `{FrameAllocatorLaws A}.

(** What an insertion of the pages [rg] does to the state. *)
Record inserted (m m' : memory) (ms ms' : MemorySet) (path path' : gmap PhysPageNum (list Z))
    (free free' used used' : gset PhysPageNum) (perm : Z) (rg : VPNRange) (ar : MapArea)
    (g : VirtPageNum → PhysPageNum) : Prop := {
  in_root : root_ppn (page_table ms') = root_ppn (page_table ms);
  in_areas : areas ms' = areas ms ++ [ar];
  in_rg : vpn_range ar = rg;
  in_held : held m' (page_table ms') path' used' perm ar g;
  in_map : ∀ v, 0 ≤ vpn v < 2 ^ 27 → mapping m' (page_table ms') v =
    if decide (v ∈ range_pages rg) then Some (PTE_new (g v) (Z.lor perm PTE_V)) else mapping m (page_table ms) v;
  in_new : ∀ v, v ∈ range_pages rg → g v ∈ free ∧ m' !! g v = Some zero_page;
  in_sets : free' ⊆ free ∧ used' ∪ free' = used ∪ free ∧
    (used ⊆ used' ∧ used' ⊆ used ∪ dom path' ∪ list_to_set (g <$> range_pages rg)) ∧ path ⊆ path';
  in_size : (size free ≤ size free' + 3 * length (range_pages rg))%nat;
  in_frame : ∀ p, p ∉ free → path !! p = None → m' !! p = m !! p ∧ path' !! p = None;
}.

Lemma push_framed_spec a m ms path free used rg perm st :
  pt_state a m (root_ppn (page_table ms)) (pt_frames (page_table ms)) path free used →
  0 ≤ vpn (rl rg) → vpn (rr rg) ≤ 2 ^ 27 → perm_ok perm →
  (∀ v, v ∈ range_pages rg → mapping m (page_table ms) v = None) →
  (3 * length (range_pages rg) ≤ size free)%nat →
  ∃ ms' a' m' path' free' used' ar g,
    push (mkMm a m) ms (mkArea rg [] Framed perm st) None = Done (ms', mkMm a' m') ∧
    pt_state a' m' (root_ppn (page_table ms')) (pt_frames (page_table ms')) path' free' used' ∧
    inserted m m' ms ms' path path' free free' used used' perm rg ar g.
Proof.
  intros S Hl Hr Hperm Hnone Hfree.
  assert (Hin : ∀ v, v ∈ range_pages rg → 0 ≤ vpn v < 2 ^ 27) by (intros v Hv%range_pages_spec; lia).
  destruct (map_framed_spec (range_pages rg) a m (page_table ms) path free used (mkArea rg [] Framed perm st) S)
    as (pt' & ar' & a' & m' & path' & free' & used' & g & Hrun & S' & Hroot & Ht & Hpe & Hrg & Hdf & Hmp & Hsets & Hgf & Hout);
    [done|done|apply NoDup_range_pages|done|done|intros v _; apply not_elem_of_nil|done|].
  unfold push, MapArea_map. cbn [vpn_range] in *. cbn [data_frames] in Hdf. rewrite Hrun, app_nil_r in *.
  repeat (rewrite outcome_bind_Done || cbn [mret outcome_ret]).
  eexists _, a', m', path', free', used', ar', g. split; [done|]. split; [exact S'|].
  destruct Hsets as (Hsub & Hun & Hus & Hpp & Hcnt).
  split; cbn [page_table areas]; try done; rewrite ?Hrg.
  - split; rewrite ?Hrg; try done.
    + intros v Hv. rewrite (mp_mapping _ _ _ _ _ _ _ _ _ Hmp) by by apply Hin. by rewrite decide_True.
    + apply (mp_inj _ _ _ _ _ _ _ _ _ Hmp).
    + intros v Hv. destruct (mp_fresh _ _ _ _ _ _ _ _ _ Hmp v Hv) as [Hg Hp]. split; [|split; [done|]].
      * assert (Hi : g v ∈ used' ∪ free') by (rewrite Hun; by apply elem_of_union_r).
        apply elem_of_union in Hi as [|Hi]; [done|]. by apply Hgf in Hi.
      * split; [rewrite (mp_zero _ _ _ _ _ _ _ _ _ Hmp v Hv); by eexists|]. by apply (ps_free _ _ _ _ _ _ _ S).
  - apply (mp_mapping _ _ _ _ _ _ _ _ _ Hmp).
  - intros v Hv. split; [by apply (mp_fresh _ _ _ _ _ _ _ _ _ Hmp)|by apply (mp_zero _ _ _ _ _ _ _ _ _ Hmp)].
Qed.

Lemma insert_framed_spec a m ms path free used start_va end_va perm :
  pt_state a m (root_ppn (page_table ms)) (pt_frames (page_table ms)) path free used →
  0 ≤ vpn (VirtAddr_floor start_va) ≤ vpn (VirtAddr_ceil end_va) → vpn (VirtAddr_ceil end_va) ≤ 2 ^ 27 → perm_ok perm →
  let rg := mkRange (VirtAddr_floor start_va) (VirtAddr_ceil end_va) in
  (∀ v, v ∈ range_pages rg → mapping m (page_table ms) v = None) →
  (3 * length (range_pages rg) ≤ size free)%nat →
  ∃ ms' a' m' path' free' used' ar g,
    insert_framed_area (mkMm a m) ms start_va end_va perm = Done (ms', mkMm a' m') ∧
    pt_state a' m' (root_ppn (page_table ms')) (pt_frames (page_table ms')) path' free' used' ∧
    inserted m m' ms ms' path path' free free' used used' perm rg ar g.
Proof.
  intros S Hlr Hr Hperm rg. unfold insert_framed_area, MapArea_new, SimpleRange_new, assert_that.
  destruct (Z.leb_spec (vpn (VirtAddr_floor start_va)) (vpn (VirtAddr_ceil end_va))); [|lia].
  repeat (rewrite outcome_bind_Done || cbn [mret outcome_ret]). apply (push_framed_spec a m ms path free used rg perm); [done|apply Hlr|done|done].
Qed.

(** What is held stays held while other pages are mapped or unmapped. *)
Lemma held_weaken m m' pt pt' path path' used used' perm ar g : held m pt path used perm ar g →
  (∀ v, v ∈ range_pages (vpn_range ar) → mapping m' pt' v = mapping m pt v) →
  (∀ v, v ∈ range_pages (vpn_range ar) → g v ∈ used' ∧ path' !! g v = None ∧ is_Some (m' !! g v)) →
  held m' pt' path' used' perm ar g.
Proof.
  intros [Ht Hp Hr Hf Hm Hi Hfr] Hmap Hg. split; try done.
  - intros v Hv. rewrite Hmap by done. by apply Hm.
  - intros v Hv. destruct (Hg v Hv) as (? & ? & ?). by destruct (Hfr v Hv) as (_ & _ & _ & ?).
Qed.

Lemma held_stable m m' pt pt' path path' used used' perm ar g : held m pt path used perm ar g →
  (∀ v, v ∈ range_pages (vpn_range ar) → mapping m' pt' v = mapping m pt v) →
  (∀ v, v ∈ range_pages (vpn_range ar) → g v ∈ used' ∧ path' !! g v = None ∧ m' !! g v = m !! g v) →
  held m' pt' path' used' perm ar g.
Proof.
  intros Hh Hmap Hg. apply (held_weaken _ _ _ _ _ _ _ _ _ _ _ Hh Hmap). intros v Hv. destruct (Hg v Hv) as (? & ? & ->).
  do 2 (split; [done|]). by apply (h_frame _ _ _ _ _ _ _ Hh).
Qed.

Lemma held_insert a m m' ms ms' path path' free free' used used' perm rg ar g perm0 ar0 g0 :
  pt_state a m (root_ppn (page_table ms)) (pt_frames (page_table ms)) path free used →
  inserted m m' ms ms' path path' free free' used used' perm rg ar g →
  held m (page_table ms) path used perm0 ar0 g0 →
  (∀ v, v ∈ range_pages (vpn_range ar0) → v ∉ range_pages rg) →
  held m' (page_table ms') path' used' perm0 ar0 g0.
Proof.
  intros S I Hh Hdis. pose proof (in_sets _ _ _ _ _ _ _ _ _ _ _ _ _ _ I) as (_ & _ & [Hus _] & _).
  apply (held_stable m _ _ _ path _ used _ _ _ _ Hh).
  - intros v Hv. rewrite (in_map _ _ _ _ _ _ _ _ _ _ _ _ _ _ I) by by apply (h_range _ _ _ _ _ _ _ Hh).
    rewrite decide_False; [done|]. by apply Hdis.
  - intros v Hv. destruct (h_frame _ _ _ _ _ _ _ Hh v Hv) as (Hu & Hp & _ & _). split; [by apply Hus|].
    destruct (in_frame _ _ _ _ _ _ _ _ _ _ _ _ _ _ I (g0 v)) as [Hm Hp']; [|done..].
    intros Hf. by apply (fa_disjoint _ _ _ (ps_alloc _ _ _ _ _ _ _ S) (g0 v)).
Qed.

(** Removing a held area by its first page, when no area before it starts there. *)
Lemma remove_framed_spec a m ms path free used perm i ar g :
  pt_state a m (root_ppn (page_table ms)) (pt_frames (page_table ms)) path free used →
  held m (page_table ms) path used perm ar g → areas ms !! i = Some ar →
  (∀ j b, (j < i)%nat → areas ms !! j = Some b → rl (vpn_range b) ≠ rl (vpn_range ar)) →
  let fs := list_to_set (g <$> range_pages (vpn_range ar)) in
  ∃ a' m',
    remove_area_with_start_vpn (mkMm a m) ms (rl (vpn_range ar)) =
      Done (mkMemorySet (page_table ms) (delete i (areas ms)), mkMm a' m') ∧
    pt_state a' m' (root_ppn (page_table ms)) (pt_frames (page_table ms)) path (fs ∪ free) (used ∖ fs) ∧
    (∀ v, 0 ≤ vpn v < 2 ^ 27 → mapping m' (page_table ms) v =
       if decide (v ∈ range_pages (vpn_range ar)) then None else mapping m (page_table ms) v) ∧
    (∀ r, path !! r = None → m' !! r = m !! r).
Proof.
  intros S Hh Hi Hfirst fs. unfold remove_area_with_start_vpn.
  replace (find_index _ _) with (Some i).
  2:{ symmetry. apply find_index_Some. split; [exists ar; split; [done|by apply bool_decide_true]|].
      intros j b Hj Hb. apply bool_decide_false. by apply (Hfirst j). }
  rewrite Hi. cbn [unwrap]. rewrite outcome_bind_Done.
  destruct (unmap_framed_spec g (page_table ms) path (range_pages (vpn_range ar)) a m free used ar S)
    as (ar' & a' & m' & Hrun & Hdf & S' & Hm & Hout).
  { apply Hh. }
  { apply NoDup_range_pages. }
  { apply Hh. }
  { intros v Hv. rewrite (h_map _ _ _ _ _ _ _ Hh v Hv). by eexists. }
  { apply Hh. }
  { apply Hh. }
  { apply Hh. }
  unfold MapArea_unmap. rewrite Hrun, outcome_bind_Done. unfold drop_area. rewrite Hdf. cbn [fmap list_fmap drop_frames mm_alloc mm_mem].
  by exists a', m'.
Qed.
End life.

(** [insert_framed_area] on a range of unmapped pages, with frames enough: afterwards every
    page of the range, and no other, is mapped anew, each to a frame of its own that was free, is
    cleared, is not a table frame and is held by the new area, with exactly the area's permissions;
    all other pages translate as before and no frame in use changes. *)
Theorem framed_area_maps_range a m ms path free used (start_va end_va : VirtAddr) perm l r :
  pt_state (A := StackFrameAllocator) a m (root_ppn (page_table ms)) (pt_frames (page_table ms)) path free used →
  l = vpn (VirtAddr_floor start_va) → r = vpn (VirtAddr_ceil end_va) → 0 ≤ l ≤ r → r ≤ 2 ^ 27 → perm_ok perm →
  (∀ v, l ≤ vpn v < r → mapping m (page_table ms) v = None) → 3 * (r - l) ≤ Z.of_nat (size free) →
  ∃ ms' a' m' path' free' used' ar g,
    insert_framed_area (mkMm a m) ms start_va end_va perm = Done (ms', mkMm a' m') ∧
    pt_state a' m' (root_ppn (page_table ms')) (pt_frames (page_table ms')) path' free' used' ∧
    areas ms' = areas ms ++ [ar] ∧
    (data_frames ar ≡ₚ (λ v, (v, mkTracker (g v) false)) <$> range_pages (vpn_range ar)) ∧
    (∀ v, v ∈ range_pages (vpn_range ar) ↔ l ≤ vpn v < r) ∧
    (∀ v, 0 ≤ vpn v < 2 ^ 27 → mapping m' (page_table ms') v =
       if decide (l ≤ vpn v < r) then Some (PTE_new (g v) (Z.lor perm PTE_V)) else mapping m (page_table ms) v) ∧
    (∀ v w, l ≤ vpn v < r → l ≤ vpn w < r → g v = g w → v = w) ∧
    (∀ v, l ≤ vpn v < r → g v ∈ free ∧ g v ∉ free' ∧ path' !! g v = None ∧ m' !! g v = Some zero_page) ∧
    (∀ p, p ∉ free → path !! p = None → m' !! p = m !! p).
Proof.
  intros S -> -> Hlr Hr Hperm Hnone Hfree.
  assert (Hin : ∀ v, v ∈ range_pages (mkRange (VirtAddr_floor start_va) (VirtAddr_ceil end_va)) ↔
    vpn (VirtAddr_floor start_va) ≤ vpn v < vpn (VirtAddr_ceil end_va)) by (intros v; apply range_pages_spec).
  destruct (insert_framed_spec a m ms path free used start_va end_va perm S Hlr Hr Hperm)
    as (ms' & a' & m' & path' & free' & used' & ar & g & Hrun & S' & I);
    [intros v Hv%Hin; by apply Hnone|rewrite length_range_pages; cbn [rl rr]; lia|].
  pose proof (in_held _ _ _ _ _ _ _ _ _ _ _ _ _ _ I) as Hh. pose proof (in_rg _ _ _ _ _ _ _ _ _ _ _ _ _ _ I) as Erg.
  exists ms', a', m', path', free', used', ar, g. split; [done|]. split; [done|]. split; [apply I|].
  split; [apply Hh|]. rewrite Erg. split; [done|]. split; [|split; [|split]].
  - intros v Hv. rewrite (in_map _ _ _ _ _ _ _ _ _ _ _ _ _ _ I v Hv).
    destruct (decide (v ∈ _)) as [Hi|Hi]; rewrite Hin in Hi; [by rewrite decide_True|by rewrite decide_False].
  - intros v w Hv Hw. apply (h_inj _ _ _ _ _ _ _ Hh); rewrite Erg; by apply Hin.
  - intros v Hv. apply Hin in Hv. destruct (in_new _ _ _ _ _ _ _ _ _ _ _ _ _ _ I v Hv) as [Hg Hz].
    rewrite <- Erg in Hv. destruct (h_frame _ _ _ _ _ _ _ Hh v Hv) as (Hu & Hp & _). split; [done|].
    split; [|done]. intros Hf. by apply (fa_disjoint _ _ _ (ps_alloc _ _ _ _ _ _ _ S') (g v)).
  - intros p Hp Hpath. by apply (in_frame _ _ _ _ _ _ _ _ _ _ _ _ _ _ I).
Qed.

Lemma framed_area_maps_range_witness :
  ∃ ms a m ms' a' m' f, insert_framed_area (A := StackFrameAllocator) (mkMm a m) ms (VA 0x3000) (VA 0x3100) 6 = Done (ms', mkMm a' m') ∧
    mapping m' (page_table ms') (VPN 3) = Some (PTE_new f 7) ∧ m' !! f = Some zero_page.
Proof.
  destruct PageTableWitness.table as (pt & a & m & S & Hr & _ & Hm).
  destruct (framed_area_maps_range a m (mkMemorySet pt []) _ _ _ (VA 0x3000) (VA 0x3100) 6 3 4 S)
    as (ms' & a' & m' & path' & free' & used' & ar & g & Hrun & _ & _ & _ & _ & Hmap & _ & Hz & _);
    [by vm_compute|by vm_compute|lia|lia|by split|intros v Hv; apply Hm; lia| |].
  - rewrite size_difference, size_singleton by set_solver.
    assert (size PageTableWitness.frames = 15%nat) as -> by by vm_compute. lia.
  - exists (mkMemorySet pt []), a, m, ms', a', m', (g (VPN 3)). split; [exact Hrun|]. split.
    + rewrite Hmap by (cbn; lia). by rewrite decide_True by (cbn; lia).
    + apply Hz. cbn. lia.
Defined.

(** [from_existed_user] (fork) never returns on an address space with a non-empty [Noalloc]
    area, the kind [sys_framebuffer] adds: copying the area panics in [map_one], since the area
    keeps its map type and [push] maps it page by page. *)
Theorem fork_with_noalloc_area_panics sym (mm : Mm StackFrameAllocator) us ar :
  ar ∈ areas us → map_type ar = Noalloc → vpn (rl (vpn_range ar)) < vpn (rr (vpn_range ar)) →
  ∃ e, from_existed_user sym mm us = Panicked e.
Proof.
  intros Hin Ht Hr.
  assert (Hone : ∀ (mm : Mm StackFrameAllocator) ms ars, ar ∈ ars → ∃ e, copy_areas mm (page_table us) ms ars = Panicked e).
  { intros mm1 ms ars. revert mm1 ms. induction ars as [|b ars IH]; intros mm1 ms Hb; [by apply not_elem_of_nil in Hb|].
    cbn [copy_areas]. destruct (MapArea_from_another b) as [nb|e] eqn:Enb; [|by exists e].
    rewrite outcome_bind_Done. apply elem_of_cons in Hb as [<-|Hb].
    - unfold MapArea_from_another, SimpleRange_new, assert_that in Enb.
      destruct (Z.leb_spec (vpn (rl (vpn_range ar))) (vpn (rr (vpn_range ar)))); [|done].
      injection Enb as <-. exists PExplicit. unfold push, MapArea_map. cbn [vpn_range].
      destruct (range_pages (mkRange (rl (vpn_range ar)) (rr (vpn_range ar)))) as [|v vs] eqn:E.
      { apply (f_equal length) in E. rewrite length_range_pages in E. cbn in E. lia. }
      cbn [map_pages]. unfold map_one. cbn [map_type]. by rewrite Ht.
    - destruct (push mm1 ms nb None) as [[ms1 mm2]|e]; [|by exists e]. rewrite outcome_bind_Done.
      destruct (copy_pages mm2 _ _ _) as [mm3|e]; [|by exists e]. rewrite outcome_bind_Done. by apply IH. }
  unfold from_existed_user. destruct (new_bare mm) as [[ms mm1]|e]; [|by exists e]. rewrite outcome_bind_Done.
  destruct (map_trampoline sym mm1 ms) as [[ms1 mm2]|e]; [|by exists e]. rewrite outcome_bind_Done. by apply Hone.
Qed.

Lemma fork_with_noalloc_area_panics_witness :
  ∃ e, from_existed_user (mkSymbols 0 0 0 0 0 0 0 0 0 0) (mkMm Stack_new ∅)
    (mkMemorySet (mkPageTable (PPN 1) []) [mkArea (mkRange (VPN 1) (VPN 3)) [] Noalloc 6 Unknow]) = Panicked e.
Proof. eapply fork_with_noalloc_area_panics; [by left|reflexivity|]. by vm_compute. Defined.
