(* ===== verification/KernelSpace.v ===== *)
(** * KernelSpace.v: the kernel's own address space, and the memory tests of the start

    [linked] is the layout of the linker script ([os/src/linker-qemu.ld]).  [mm_init] is [mm::init]
    after the heap: the frame allocator over the memory behind the kernel, and [KERNEL_SPACE].  The
    kernel maps itself: what it maps is computed by [kernel_page], and the tables that takes are
    counted exactly, by the paths they stand at. *)

From S2P Require Import Prelude Bytes Address FrameAlloc PageTable MemorySet.

(** ** Definitions *)

(** The linker script: every section starts on a page, one after the other, [ekernel] last. *)
Record linked (sym : Symbols) : Prop := {
  lk_text : stext sym = 0x80200000;
  lk_trampoline : stext sym ≤ strampoline sym < etext sym;
  lk_rodata : etext sym = srodata sym;
  lk_rodata_end : srodata sym ≤ erodata sym;
  lk_data : erodata sym = sdata sym;
  lk_data_end : sdata sym ≤ edata sym;
  lk_bss : edata sym = sbss_with_stack sym;
  lk_bss_end : sbss_with_stack sym ≤ ebss sym;
  lk_kernel : ebss sym = ekernel sym;
  lk_pages : Forall (λ x, x mod PAGE_SIZE = 0) [strampoline sym; etext sym; erodata sym; edata sym; ebss sym];
}.

(** [init_frame_allocator] on the allocator [FRAME_ALLOCATOR]. *)
Definition init_frame_allocator (sym : Symbols) (a : StackFrameAllocator) : StackFrameAllocator :=
  Stack_init (PhysAddr_ceil (PhysAddr_from (ekernel sym))) (PhysAddr_floor (PhysAddr_from MEMORY_END)) a.

(** What [activate] writes to [satp]. *)
Definition MemorySet_activate (ms : MemorySet) : Z := MemorySet_token ms.

(** [mm::init] after [init_heap]: [KERNEL_SPACE] is built at its first use. *)
Definition mm_init (sym : Symbols) (m : memory) : outcome (MemorySet * Z * Mm StackFrameAllocator) :=
  let a := init_frame_allocator sym Stack_new in
  '(kernel_space, mm) ← new_kernel sym (mkMm a m);
  mret (kernel_space, MemorySet_activate kernel_space, mm).

Section tests.
Context {A : Type} `{FrameAllocator A}.

Fixpoint alloc_frames (n : nat) (mm : Mm A) (v : list FrameTracker) : outcome (list FrameTracker * Mm A) :=
  match n with
  | O => mret (v, mm)
  | S n =>
      '(o, a, m) ← frame_alloc (mm_alloc mm) (mm_mem mm);
      frame ← unwrap PUnwrap o;
      alloc_frames n (mkMm a m) (v ++ [frame])
  end.

Definition frame_allocator_test (mm : Mm A) : outcome (Mm A) :=
  '(v, mm) ← alloc_frames 5 mm [];
  a ← drop_frames (mm_alloc mm) v;
  '(v, mm) ← alloc_frames 5 (mkMm a (mm_mem mm)) [];
  a ← drop_frames (mm_alloc mm) v;
  mret (mkMm a (mm_mem mm)).

(** [kernel_space.page_table.translate(mid.floor()).unwrap()] *)
Definition mid_entry (mm : Mm A) (ks : MemorySet) (s e : Z) : outcome PageTableEntry :=
  let mid := VirtAddr_from (u64 (s + e) / 2) in
  o ← translate (mm_mem mm) (page_table ks) (VirtAddr_floor mid);
  unwrap PUnwrap o.

Definition remap_test (sym : Symbols) (mm : Mm A) (kernel_space : MemorySet) : outcome unit :=
  e ← mid_entry mm kernel_space (stext sym) (etext sym);
  assert_that (negb (PTE_writable e)) PAssert;;
  e ← mid_entry mm kernel_space (srodata sym) (erodata sym);
  assert_that (negb (PTE_writable e)) PAssert;;
  e ← mid_entry mm kernel_space (sdata sym) (edata sym);
  assert_that (negb (PTE_executable e)) PAssert;;
  mret tt.
End tests.

(** The specification: the areas of the kernel, and the entry of each page. *)
Definition RX : Z := Z.lor MapPermission_R MapPermission_X.
Definition RW : Z := Z.lor MapPermission_R MapPermission_W.

Definition kernel_regions (sym : Symbols) : list (Z * Z * Z * SectionType) :=
  [(stext sym, etext sym, RX, Text); (srodata sym, erodata sym, MapPermission_R, Rodata);
   (sdata sym, edata sym, RW, Data); (sbss_with_stack sym, ebss sym, RW, BSS); (ekernel sym, MEMORY_END, RW, Heap)] ++
  ((λ '(base, len), (base, base + len, RW, Device)) <$> MMIO).

(** The permissions of the region a page is in. *)
Definition region_perm (rs : list (Z * Z * Z * SectionType)) (v : Z) : option Z :=
  '(_, _, perm, _) ← head (filter (λ r, r.1.1.1 / 4096 ≤ v < r.1.1.2 / 4096) rs); Some perm.

Definition kernel_page (sym : Symbols) (v : VirtPageNum) : option PageTableEntry :=
  if decide (v = VPN (2 ^ 27 - 1)) then Some (PTE_new (PPN (strampoline sym / 4096)) (Z.lor RX PTE_V))
  else perm ← region_perm (kernel_regions sym) (vpn v); Some (PTE_new (PPN (vpn v)) (Z.lor perm PTE_V)).

(** The paths at which the kernel's tables stand. *)
Definition kernel_tables : gset (list Z) :=
  list_to_set ([[]; [511]; [511; 511]; [2]; [0]; [0; 0]; [0; 16]; [0; 96]; [0; 97]; [0; 128]] ++ ((λ i, [2; i]) <$> seqZ 1 63)).

(** ** Counting the tables *)

Section counted.
Context {A : Type} `{FrameAllocatorLaws A}.

(** A page whose tables stand at paths of [P]. *)
Definition paths_within (P : gset (list Z)) (v : VirtPageNum) : Prop := ∀ z l, l ≠ [] → z ++ l = indexes v → z ∈ P.

(** All tables stand at paths of [P], and there are frames for those that are missing. *)
Record room (P : gset (list Z)) (path : gmap PhysPageNum (list Z)) (free : gset PhysPageNum) : Prop := {
  rm_paths : ∀ p x, path !! p = Some x → x ∈ P;
  rm_size : (size P + 2 ≤ size free + size path)%nat;
}.

Lemma tables_at_most (P : gset (list Z)) m root path : tree m root path → (∀ p x, path !! p = Some x → x ∈ P) → (size path ≤ size P)%nat.
Proof.
  intros T HP. assert (Hnd : NoDup (map_to_list path).*2).
  { apply NoDup_fmap_2_strong; [|apply NoDup_map_to_list].
    intros [p x] [q y] Hp%elem_of_map_to_list Hq%elem_of_map_to_list E. cbn in E. subst y. f_equal. by eapply (tr_inj _ _ _ T). }
  rewrite <- (length_map_to_list path), <- (length_fmap snd), <- (size_list_to_set (C := gset (list Z)) _ Hnd).
  apply subseteq_size. intros x Hx%elem_of_list_to_set. apply list_elem_of_fmap in Hx as ([p y] & -> & Hy%elem_of_map_to_list). by eapply HP.
Qed.

(** A new table costs one frame, and nothing else does. *)
Lemma frames_are_tables a a' m m' root root' fs fs' path path' free free' used used' :
  pt_state a m root fs path free used → pt_state a' m' root' fs' path' free' used' →
  used' ∪ free' = used ∪ free → used ⊆ used' → used' ⊆ used ∪ dom path' → path ⊆ path' → dom path' ⊆ dom path ∪ free →
  (size free' + size path' = size free + size path)%nat.
Proof.
  intros S S' Hun Hus Hus' Hpp Hdp. pose proof (fa_disjoint _ _ _ (ps_alloc _ _ _ _ _ _ _ S)) as D.
  pose proof (fa_disjoint _ _ _ (ps_alloc _ _ _ _ _ _ _ S')) as D'. pose proof (ps_used _ _ _ _ _ _ _ S) as U. pose proof (ps_used _ _ _ _ _ _ _ S') as U'.
  apply subseteq_dom in Hpp. rewrite <- !(size_dom (D := gset PhysPageNum)).
  assert (E : free' ∪ dom path' = free ∪ dom path).
  { apply set_eq. intros p. assert (Hp : p ∈ used' ∪ free' ↔ p ∈ used ∪ free) by by rewrite Hun.
    specialize (D p). specialize (D' p). specialize (U p). specialize (U' p). specialize (Hus p). specialize (Hus' p). specialize (Hpp p). specialize (Hdp p).
    rewrite !elem_of_union in *. tauto. }
  rewrite <- !size_union by set_solver. by rewrite E.
Qed.

(** One page is mapped to [p]. *)
Lemma map_counted P a m pt path free used v p flags :
  pt_state a m (root_ppn pt) (pt_frames pt) path free used → room P path free → paths_within P v →
  0 ≤ vpn v < 2 ^ 27 → 0 ≤ ppn p < 2 ^ 44 → 0 ≤ flags < 2 ^ 8 → mapping m pt v = None →
  ∃ pt' a' m' path' free' used',
    PageTable_map a m pt v p flags = Done (pt', a', m') ∧ root_ppn pt' = root_ppn pt ∧
    pt_state a' m' (root_ppn pt') (pt_frames pt') path' free' used' ∧ room P path' free' ∧
    (∀ v', 0 ≤ vpn v' < 2 ^ 27 → mapping m' pt' v' =
       if decide (v' = v) then Some (PTE_new p (Z.lor flags PTE_V)) else mapping m pt v') ∧
    (free' ⊆ free ∧ used' ∪ free' = used ∪ free ∧ used ⊆ used' ∧ path ⊆ path' ∧ (size free' + size path' = size free + size path)%nat) ∧
    (∀ r, r ∉ free → path !! r = None → m' !! r = m !! r ∧ path' !! r = None).
Proof.
  intros S [HP Hsz] Hpv Hv Hp Hf Hnone. pose proof (tables_at_most P m _ path (ps_tree _ _ _ _ _ _ _ S) HP) as Hle.
  pose proof (PageTable_map_paths a m pt path free used v p flags S Hv Hp Hf ltac:(lia)) as Hm. rewrite Hnone in Hm.
  destruct Hm as (pt' & a' & m' & path' & free' & used' & Hr & Hroot & S' & Hmap & Hfr & Hsub & Hun & [Hus Hus'] & Hpp & Hdp & _ & Hnew).
  pose proof (frames_are_tables _ _ _ _ _ _ _ _ _ _ _ _ _ _ S S' Hun Hus Hus' Hpp Hdp) as Hc.
  exists pt', a', m', path', free', used'. do 3 (split; [done|]). split; [|split; [done|split; [done|]]].
  - split; [|lia]. intros q x Hq. destruct (Hnew q x Hq) as [Ho|(l & Hl & E)]; [by eapply HP|by eapply Hpv].
  - intros r Hrf Hrp. split; [by apply Hfr|]. apply not_elem_of_dom. intros Hin%Hdp. apply not_elem_of_dom in Hrp. set_solver.
Qed.

(** What a step of the construction leaves: [E] are the entries that are new. *)
Record grown (m m' : memory) (pt pt' : PageTable) (path path' : gmap PhysPageNum (list Z)) (free free' used used' : gset PhysPageNum)
    (E : VirtPageNum → option PageTableEntry) : Prop := {
  gw_mapping : ∀ v, 0 ≤ vpn v < 2 ^ 27 → mapping m' pt' v = match E v with Some e => Some e | None => mapping m pt v end;
  gw_sets : free' ⊆ free ∧ used' ∪ free' = used ∪ free ∧ used ⊆ used' ∧ path ⊆ path' ∧ (size free' + size path' = size free + size path)%nat;
  gw_outside : ∀ r, r ∉ free → path !! r = None → m' !! r = m !! r ∧ path' !! r = None;
}.

Lemma map_grown_trans m m1 m2 pt pt1 pt2 path path1 path2 free free1 free2 used used1 used2 E1 E2 :
  grown m m1 pt pt1 path path1 free free1 used used1 E1 → grown m1 m2 pt1 pt2 path1 path2 free1 free2 used1 used2 E2 →
  grown m m2 pt pt2 path path2 free free2 used used2 (λ v, match E2 v with Some e => Some e | None => E1 v end).
Proof.
  intros [M1 S1 O1] [M2 S2 O2]. split.
  - intros v Hv. rewrite M2 by done. destruct (E2 v); [done|]. by apply M1.
  - destruct S1 as (? & ? & ? & ? & ?), S2 as (? & ? & ? & ? & ?). split; [set_solver|]. split; [congruence|]. split; [set_solver|]. split; [by transitivity path1|lia].
  - intros r Hf Hp. destruct (O1 r Hf Hp) as [<- Hp1]. apply O2; [|done]. destruct S1 as [Hs _]. set_solver.
Qed.

(** The pages [vs] mapped to themselves. *)
Lemma map_identical_spec P vs : ∀ a m pt path free used ar,
  pt_state a m (root_ppn pt) (pt_frames pt) path free used → room P path free →
  map_type ar = Identical → perm_ok (map_perm ar) → NoDup vs →
  (∀ v, v ∈ vs → 0 ≤ vpn v < 2 ^ 27 ∧ paths_within P v ∧ mapping m pt v = None) →
  ∃ pt' a' m' path' free' used',
    map_pages (mkMm a m) pt ar vs = Done (pt', ar, mkMm a' m') ∧ root_ppn pt' = root_ppn pt ∧
    pt_state a' m' (root_ppn pt') (pt_frames pt') path' free' used' ∧ room P path' free' ∧
    grown m m' pt pt' path path' free free' used used'
      (λ v, if decide (v ∈ vs) then Some (PTE_new (PPN (vpn v)) (Z.lor (map_perm ar) PTE_V)) else None).
Proof.
  induction vs as [|v vs IH]; intros a m pt path free used ar S R Ht Hperm Hnd Hvs.
  { exists pt, a, m, path, free, used. do 4 (split; [done|]). split; [|split; [done|split; [done|split; [done|split; [done|lia]]]]|done].
    intros w _. by rewrite decide_False by apply not_elem_of_nil. }
  apply NoDup_cons in Hnd as [Hv Hnd]. destruct (Hvs v) as (Hr & Hpw & Hnone); [by left|].
  destruct (map_counted P a m pt path free used v (PPN (vpn v)) (map_perm ar) S R Hpw Hr) as (pt1 & a1 & m1 & path1 & free1 & used1 & Hrun & Hroot & S1 & R1 & Hmap & Hsets & Hout);
    [cbn; lia|exact Hperm|done|].
  destruct (IH a1 m1 pt1 path1 free1 used1 ar S1 R1 Ht Hperm Hnd) as (pt' & a' & m' & path' & free' & used' & Hrun' & Hroot' & S' & R' & G').
  { intros w Hw. destruct (Hvs w) as (Hwr & Hwp & Hwn); [by right|]. split; [done|]. split; [done|]. rewrite Hmap by done. rewrite decide_False by congruence. done. }
  exists pt', a', m', path', free', used'. split.
  { cbn [map_pages]. unfold map_one. rewrite Ht. cbn [mret outcome_ret]. rewrite outcome_bind_Done. unfold pt_map. cbn [mm_alloc mm_mem].
    rewrite Hrun. repeat (rewrite outcome_bind_Done || cbn [mret outcome_ret]). exact Hrun'. }
  split; [congruence|]. split; [done|]. split; [done|].
  assert (G1 : grown m m1 pt pt1 path path1 free free1 used used1 (λ w, if decide (w = v) then Some (PTE_new (PPN (vpn v)) (Z.lor (map_perm ar) PTE_V)) else None)).
  { split; [|done|done]. intros w Hw. rewrite Hmap by done. by case_decide. }
  destruct (map_grown_trans _ _ _ _ _ _ _ _ _ _ _ _ _ _ _ _ _ G1 G') as [M Hs O]. split; [|done|done].
  intros w Hw. rewrite M by done. destruct (decide (w ∈ vs)) as [Hin|Hin]; [by rewrite decide_True by by right|].
  destruct (decide (w = v)) as [->|Hne]; [by rewrite decide_True by by left|]. by rewrite decide_False by (rewrite not_elem_of_cons; done).
Qed.
End counted.

(** ** The kernel space is a list of regions *)

Definition region : Type := Z * Z * Z * SectionType.
Definition in_region (v : Z) (r : region) : Prop := r.1.1.1 / 4096 ≤ v < r.1.1.2 / 4096.

Fixpoint push_regions {A} `{FrameAllocator A} (mm : Mm A) (ms : MemorySet) (rs : list region) : outcome (MemorySet * Mm A) :=
  match rs with
  | [] => mret (ms, mm)
  | (s, e, perm, st) :: rs => '(ms, mm) ← push_identical mm ms s e perm st; push_regions mm ms rs
  end.

Lemma push_mmio_regions {A} `{FrameAllocator A} (mm : Mm A) ms l :
  push_mmio mm ms l = push_regions mm ms ((λ '(base, len), (base, base + len, RW, Device)) <$> l).
Proof.
  revert mm ms. induction l as [|[b n] l IH]; intros mm ms; [done|]. cbn [push_mmio push_regions fmap list_fmap].
  change (Z.lor MapPermission_R MapPermission_W) with RW. destruct (push_identical mm ms b (b + n) RW Device) as [[ms1 mm1]|]; [|done].
  rewrite !outcome_bind_Done. apply IH.
Qed.

Lemma push_regions_app {A} `{FrameAllocator A} l1 l2 : ∀ (mm : Mm A) ms,
  push_regions mm ms (l1 ++ l2) = '(ms, mm) ← push_regions mm ms l1; push_regions mm ms l2.
Proof.
  induction l1 as [|[[[s e] p] st] l1 IH]; intros mm ms; [done|]. cbn [push_regions app].
  destruct (push_identical mm ms s e p st) as [[ms1 mm1]|]; [|done]. rewrite !outcome_bind_Done. apply IH.
Qed.

Lemma new_kernel_regions {A} `{FrameAllocator A} sym (mm : Mm A) :
  new_kernel sym mm =
    ('(ms, mm) ← new_bare mm;
     '(ms, mm) ← map_trampoline sym mm ms;
     push_regions mm ms (kernel_regions sym)).
Proof.
  unfold new_kernel. destruct (new_bare mm) as [[ms0 mm0]|]; [|done]. rewrite !outcome_bind_Done.
  destruct (map_trampoline sym mm0 ms0) as [[ms1 mm1]|]; [|done]. rewrite !outcome_bind_Done.
  unfold kernel_regions. rewrite push_regions_app. cbn [push_regions]. fold RX RW.
  repeat match goal with |- context [push_identical ?a ?b ?c ?d ?e ?f] =>
    destruct (push_identical a b c d e f) as [[? ?]|]; [rewrite !outcome_bind_Done|done] end.
  by rewrite push_mmio_regions.
Qed.

Section regions.
Context {A : Type} `{FrameAllocatorLaws A}.

Record region_ok (P : gset (list Z)) (r : region) : Prop := {
  rg_order : 0 ≤ r.1.1.1 ≤ r.1.1.2 ∧ 0 < r.1.1.2 < 2 ^ 38;
  rg_pages : r.1.1.1 mod 4096 = 0 ∧ r.1.1.2 mod 4096 = 0;
  rg_perm : perm_ok r.1.2;
  rg_paths : ∀ v, in_region (vpn v) r → paths_within P v;
}.

Lemma region_range r P : region_ok P r →
  MapArea_new (VirtAddr_from r.1.1.1) (VirtAddr_from r.1.1.2) Identical r.1.2 r.2 =
    Done (mkArea (mkRange (VPN (r.1.1.1 / 4096)) (VPN (r.1.1.2 / 4096))) [] Identical r.1.2 r.2).
Proof.
  intros [Ho [Hs He] _ _]. unfold MapArea_new, VirtAddr_from. rewrite !mask_land by done. change VA_WIDTH_SV39 with 39.
  rewrite !Z.mod_small by lia. unfold VirtAddr_floor, VirtAddr_ceil. cbn [va]. change PAGE_SIZE with 4096.
  rewrite (wrap_small 64 (r.1.1.2 - 1)) by lia. rewrite (wrap_small 64) by lia. replace ((r.1.1.2 - 1 + 4096) / 4096) with (r.1.1.2 / 4096) by dlia.
  unfold SimpleRange_new, assert_that. cbn [vpn]. destruct (Z.leb_spec (r.1.1.1 / 4096) (r.1.1.2 / 4096)); [done|]. dlia.
Qed.

Lemma push_identical_spec P a m ms path free used r :
  pt_state a m (root_ppn (page_table ms)) (pt_frames (page_table ms)) path free used → room P path free → region_ok P r →
  (∀ v, in_region (vpn v) r → mapping m (page_table ms) v = None) →
  ∃ ms' a' m' path' free' used',
    push_identical (mkMm a m) ms r.1.1.1 r.1.1.2 r.1.2 r.2 = Done (ms', mkMm a' m') ∧
    root_ppn (page_table ms') = root_ppn (page_table ms) ∧
    pt_state a' m' (root_ppn (page_table ms')) (pt_frames (page_table ms')) path' free' used' ∧ room P path' free' ∧
    grown m m' (page_table ms) (page_table ms') path path' free free' used used'
      (λ v, if decide (in_region (vpn v) r) then Some (PTE_new (PPN (vpn v)) (Z.lor r.1.2 PTE_V)) else None).
Proof.
  intros S R Hok Hnone. unfold push_identical. rewrite (region_range r P Hok), outcome_bind_Done.
  set (rg := mkRange _ _). set (ar := mkArea rg [] Identical r.1.2 r.2).
  assert (Hin : ∀ v, v ∈ range_pages rg ↔ in_region (vpn v) r) by (intros v; rewrite range_pages_spec; done).
  destruct (map_identical_spec P (range_pages rg) a m (page_table ms) path free used ar S R) as (pt' & a' & m' & path' & free' & used' & Hrun & Hroot & S' & R' & G).
  { done. }
  { apply Hok. }
  { apply NoDup_range_pages. }
  { intros v Hv%Hin. split; [|split; [by apply Hok|by apply Hnone]]. destruct Hok as [Ho _ _ _]. unfold in_region in Hv. dlia. }
  exists (mkMemorySet pt' (areas ms ++ [ar])), a', m', path', free', used'. unfold push, MapArea_map. cbn [vpn_range ar]. rewrite Hrun.
  repeat (rewrite outcome_bind_Done || cbn [mret outcome_ret]). do 4 (split; [done|]). destruct G as [M Hs O]. split; [|done|done].
  intros v Hv. cbn [page_table]. rewrite M by done. destruct (decide (in_region (vpn v) r)) as [Hi|Hi];
    [rewrite decide_True by by apply Hin|rewrite decide_False by (intros Hc%Hin; done)]; done.
Qed.

Definition region_entry (rs : list region) (v : VirtPageNum) : option PageTableEntry :=
  perm ← region_perm rs (vpn v); Some (PTE_new (PPN (vpn v)) (Z.lor perm PTE_V)).

Lemma region_perm_cons r rs v :
  region_perm (r :: rs) v = if decide (in_region v r) then Some r.1.2 else region_perm rs v.
Proof. unfold region_perm, in_region. rewrite filter_cons. destruct r as [[[s e] p] st]. cbn [fst snd]. by case_decide. Qed.

Lemma region_perm_None rs v : region_perm rs v = None ↔ Forall (λ r, ¬ in_region v r) rs.
Proof.
  induction rs as [|r rs IH]; [split; [constructor|done]|]. rewrite region_perm_cons, Forall_cons, <- IH. case_decide; intuition done.
Qed.

Lemma push_regions_spec P rs : ∀ a m ms path free used,
  pt_state a m (root_ppn (page_table ms)) (pt_frames (page_table ms)) path free used → room P path free →
  Forall (region_ok P) rs → (∀ i j r1 r2 v, rs !! i = Some r1 → rs !! j = Some r2 → in_region v r1 → in_region v r2 → i = j) →
  (∀ v r, r ∈ rs → in_region (vpn v) r → mapping m (page_table ms) v = None) →
  ∃ ms' a' m' path' free' used',
    push_regions (mkMm a m) ms rs = Done (ms', mkMm a' m') ∧
    root_ppn (page_table ms') = root_ppn (page_table ms) ∧
    pt_state a' m' (root_ppn (page_table ms')) (pt_frames (page_table ms')) path' free' used' ∧ room P path' free' ∧
    grown m m' (page_table ms) (page_table ms') path path' free free' used used' (region_entry rs).
Proof.
  induction rs as [|r rs IH]; intros a m ms path free used S R Hok Hdis Hnone.
  { exists ms, a, m, path, free, used. do 4 (split; [done|]). by split. }
  apply Forall_cons in Hok as [Hr Hok].
  destruct (push_identical_spec P a m ms path free used r S R Hr) as (ms1 & a1 & m1 & path1 & free1 & used1 & Hrun & Hroot & S1 & R1 & G1);
    [intros v; apply Hnone; by left|].
  assert (Hne : ∀ v r', r' ∈ rs → in_region v r' → ¬ in_region v r).
  { intros v r' (i & Hi)%list_elem_of_lookup H1 H2. by specialize (Hdis 0%nat (Datatypes.S i) r r' v eq_refl Hi H2 H1). }
  assert (Hbound : ∀ v r', r' ∈ rs → in_region (vpn v) r' → 0 ≤ vpn v < 2 ^ 27).
  { intros v r' Hr' Hv. rewrite Forall_forall in Hok. destruct (Hok r' Hr') as [Ho _ _ _]. unfold in_region in Hv. dlia. }
  destruct (IH a1 m1 ms1 path1 free1 used1 S1 R1 Hok) as (ms' & a' & m' & path' & free' & used' & Hrun' & Hroot' & S' & R' & G').
  { intros i j r1 r2 v H1 H2 H3 H4. specialize (Hdis (Datatypes.S i) (Datatypes.S j) r1 r2 v H1 H2 H3 H4). by injection Hdis. }
  { intros v r' Hr' Hv. rewrite (gw_mapping _ _ _ _ _ _ _ _ _ _ _ G1) by by eapply Hbound. rewrite decide_False by by eapply Hne. eapply Hnone; [by right|done]. }
  exists ms', a', m', path', free', used'. split.
  { cbn [push_regions]. destruct r as [[[s e] p] st]. cbn [fst snd] in Hrun. rewrite Hrun, outcome_bind_Done. exact Hrun'. }
  split; [congruence|]. do 2 (split; [done|]). destruct (map_grown_trans _ _ _ _ _ _ _ _ _ _ _ _ _ _ _ _ _ G1 G') as [M Hs O]. split; [|done|done].
  intros v Hv. rewrite M by done. unfold region_entry at 2. rewrite region_perm_cons.
  case_decide as Hin; [|unfold region_entry; by destruct (region_perm rs (vpn v))].
  assert (region_perm rs (vpn v) = None) as E.
  { apply region_perm_None, Forall_forall. intros r' Hr' Hc. by apply (Hne (vpn v) r'). }
  unfold region_entry. by rewrite E.
Qed.
End regions.

(** ** The frame allocator's test *)

Section allocator_test.
Context {A : Type} `{FrameAllocatorLaws A}.

Lemma alloc_frames_spec n : ∀ a m v free used, fa_inv a free used → (∀ p, p ∈ free → is_Some (m !! p)) → (n ≤ size free)%nat →
  ∃ l a' m', alloc_frames n (mkMm a m) v = Done (v ++ l, mkMm a' m') ∧ NoDup (ft_ppn <$> l) ∧
    (∀ f, f ∈ l → ft_ppn f ∈ free ∧ nodrop f = false) ∧
    fa_inv a' (free ∖ list_to_set (ft_ppn <$> l)) (list_to_set (ft_ppn <$> l) ∪ used) ∧
    dom m' = dom m ∧ ∀ p, p ∉ free → m' !! p = m !! p.
Proof.
  induction n as [|n IH]; intros a m v free used I Hm Hn.
  { exists [], a, m. rewrite app_nil_r. split; [done|]. split; [constructor|]. split; [intros f Hf; by apply not_elem_of_nil in Hf|].
    cbn. by rewrite difference_empty_L, (left_id_L ∅ (∪)). }
  cbn [alloc_frames mm_alloc mm_mem]. pose proof (frame_alloc_spec a m free used I Hm) as Ha.
  destruct (frame_alloc a m) as [[[[f|] a1] m1]|]; [|exfalso|done].
  2:{ destruct Ha as (-> & _). rewrite size_empty in Hn. lia. }
  destruct Ha as (Hf & Hnd & -> & I1). rewrite outcome_bind_Done. cbn [unwrap]. rewrite outcome_bind_Done.
  destruct (IH a1 (<[ft_ppn f := zero_page]> m) (v ++ [f]) _ _ I1) as (l & a' & m' & Hr & Hl & Hlf & I' & Hdom & Hfr).
  { intros p [Hp _]%elem_of_difference. destruct (Hm p Hp) as [b Hb]. apply lookup_insert_is_Some'. right. by exists b. }
  { rewrite size_difference, size_singleton by set_solver. lia. }
  exists (f :: l), a', m'. rewrite Hr, <- app_assoc. split; [done|]. cbn [fmap list_fmap list_to_set].
  split; [|split; [|split; [|split]]].
  - apply NoDup_cons. split; [|done]. intros (g & E & Hg)%list_elem_of_fmap. destruct (Hlf g Hg) as [Hg1 _]. rewrite <- E in Hg1. set_solver.
  - intros g [->|Hg]%elem_of_cons; [done|]. destruct (Hlf g Hg). set_solver.
  - replace (free ∖ ({[ft_ppn f]} ∪ list_to_set (ft_ppn <$> l))) with (free ∖ {[ft_ppn f]} ∖ list_to_set (ft_ppn <$> l)) by set_solver.
    replace ({[ft_ppn f]} ∪ list_to_set (ft_ppn <$> l) ∪ used) with (list_to_set (ft_ppn <$> l) ∪ ({[ft_ppn f]} ∪ used)) by set_solver. exact I'.
  - rewrite Hdom. apply dom_insert_lookup_L, Hm, Hf.
  - intros p Hp. rewrite Hfr by set_solver. rewrite lookup_insert_ne; [done|congruence].
Qed.

(** Frames taken and dropped leave the allocator as it was. *)
Lemma alloc_drop n a m free used : fa_inv a free used → (∀ p, p ∈ free → is_Some (m !! p)) → (n ≤ size free)%nat →
  ∃ l a1 m' a2, alloc_frames n (mkMm a m) [] = Done (l, mkMm a1 m') ∧ drop_frames a1 l = Done a2 ∧
    fa_inv a2 free used ∧ dom m' = dom m ∧ ∀ p, p ∉ free → m' !! p = m !! p.
Proof.
  intros I Hm Hn. destruct (alloc_frames_spec n a m [] free used I Hm Hn) as (l & a1 & m' & Hr & Hnd & Hl & I1 & Hdom & Hfr).
  pose proof (fa_disjoint _ _ _ I) as D.
  assert (Hs : list_to_set (ft_ppn <$> l) ⊆ free).
  { intros p Hp%elem_of_list_to_set. apply list_elem_of_fmap in Hp as (f & -> & Hf). by apply Hl. }
  destruct (drop_frames_spec l a1 _ _ I1 Hnd) as (a2 & Hd & I2).
  { intros f Hf. split; [|by apply Hl]. apply elem_of_union_l, elem_of_list_to_set, list_elem_of_fmap. by exists f. }
  exists l, a1, m', a2. split; [exact Hr|]. split; [done|]. split; [|done].
  set (s := list_to_set (ft_ppn <$> l)) in *. clearbody s. clear - I2 Hs D.
  replace (s ∪ free ∖ s) with free in I2; [replace ((s ∪ used) ∖ s) with used in I2; [done|]|].
  - set_solver.
  - apply union_difference_L, Hs.
Qed.

Lemma frame_allocator_test_passes a m free used :
  fa_inv a free used → (∀ p, p ∈ free → is_Some (m !! p)) → (5 ≤ size free)%nat →
  ∃ a' m', frame_allocator_test (mkMm a m) = Done (mkMm a' m') ∧ fa_inv a' free used ∧ dom m' = dom m ∧ ∀ p, p ∉ free → m' !! p = m !! p.
Proof.
  intros I Hm Hn. destruct (alloc_drop 5 a m free used I Hm Hn) as (l & a1 & m1 & a2 & Hr & Hd & I2 & Hdom & Hfr).
  destruct (alloc_drop 5 a2 m1 free used I2) as (l' & a3 & m3 & a4 & Hr' & Hd' & I4 & Hdom' & Hfr'); [|done|].
  { intros p Hp. apply elem_of_dom. rewrite Hdom. by apply elem_of_dom, Hm. }
  exists a4, m3. unfold frame_allocator_test. rewrite Hr, outcome_bind_Done. cbn [mm_alloc mm_mem]. rewrite Hd, outcome_bind_Done.
  rewrite Hr', outcome_bind_Done. cbn [mm_alloc mm_mem]. rewrite Hd', outcome_bind_Done. split; [done|]. split; [done|].
  split; [congruence|]. intros p Hp. by rewrite Hfr', Hfr.
Qed.
End allocator_test.

(** ** The kernel's regions *)

Lemma within_tables v : 0 ≤ vpn v →
  [vpn v / 2 ^ 18 mod 512] ∈ kernel_tables → [vpn v / 2 ^ 18 mod 512; vpn v / 2 ^ 9 mod 512] ∈ kernel_tables →
  paths_within kernel_tables v.
Proof.
  intros _ H1 H2 z l Hl E. rewrite indexes_eq in E.
  destruct z as [|z0 [|z1 [|z2 z]]]; cbn [app] in E; [|injection E as -> E; done|injection E as -> -> E; done|].
  - by apply (bool_decide_unpack _); vm_compute.
  - injection E as _ _ _ E. apply app_eq_nil in E as [_ E]. by destruct (Hl E).
Qed.

(** The pages of memory, and those of a device that lie in one table. *)
Lemma memory_tables v : 0x80200 ≤ vpn v < 0x88000 → paths_within kernel_tables v.
Proof.
  intros Hv. apply within_tables; [lia| |].
  - replace (vpn v / 2 ^ 18 mod 512) with 2 by dlia. by apply (bool_decide_unpack _); vm_compute.
  - replace (vpn v / 2 ^ 18 mod 512) with 2 by dlia. apply elem_of_list_to_set, elem_of_app. right.
    apply list_elem_of_fmap. exists (vpn v / 2 ^ 9 mod 512). split; [done|]. apply elem_of_seqZ. dlia.
Qed.

Lemma device_tables v k : vpn v / 2 ^ 9 = k → k ∈ [0; 16; 96; 97; 128] → paths_within kernel_tables v.
Proof.
  intros E Hk. assert (Hr : 0 ≤ k < 512) by (repeat (apply elem_of_cons in Hk as [->|Hk]; [lia|]); by apply not_elem_of_nil in Hk).
  apply within_tables; [dlia| |].
  - replace (vpn v / 2 ^ 18 mod 512) with 0 by dlia. by apply (bool_decide_unpack _); vm_compute.
  - replace (vpn v / 2 ^ 18 mod 512) with 0 by dlia. rewrite E, Z.mod_small by done.
    repeat (apply elem_of_cons in Hk as [->|Hk]; [by apply (bool_decide_unpack _); vm_compute|]). by apply not_elem_of_nil in Hk.
Qed.

Lemma trampoline_tables : paths_within kernel_tables (VPN (2 ^ 27 - 1)).
Proof. apply within_tables; [done|..]; by apply (bool_decide_unpack _); vm_compute. Qed.

(** The section boundaries are pages. *)
Lemma linked_pages sym : linked sym → ekernel sym ≤ MEMORY_END → ∃ t st rd d e,
  strampoline sym = 4096 * st ∧ etext sym = 4096 * t ∧ erodata sym = 4096 * rd ∧ edata sym = 4096 * d ∧ ekernel sym = 4096 * e ∧
  0x80200 ≤ st < t ∧ t ≤ rd ∧ rd ≤ d ∧ d ≤ e ∧ e ≤ 0x88000.
Proof.
  intros L He. destruct L as [Ht [Hs1 Hs2] Hr Hr2 Hd Hd2 Hb Hb2 Hk Hp]. change MEMORY_END with (4096 * 0x88000) in He.
  change PAGE_SIZE with 4096 in Hp. repeat (apply Forall_cons in Hp as [? Hp]).
  exists (etext sym / 4096), (strampoline sym / 4096), (erodata sym / 4096), (edata sym / 4096), (ekernel sym / 4096).
  rewrite <- Hk. repeat split; dlia.
Qed.

Lemma div_page x : 4096 * x / 4096 = x.
Proof. dlia. Qed.

Lemma perm_okb p : bool_decide (0 ≤ p < 2 ^ 8) = true → perm_ok p.
Proof. intros H. by apply bool_decide_eq_true in H. Qed.

Ltac mem_nil H := by apply not_elem_of_nil in H.

Lemma kernel_regions_ok sym : linked sym → ekernel sym ≤ MEMORY_END → Forall (region_ok kernel_tables) (kernel_regions sym).
Proof.
  intros L He. destruct (linked_pages sym L He) as (t & st & rd & d & e & _ & Et & Er & Ed & Ee & Ho).
  destruct L as [Ht _ Hr _ Hd _ Hb _ Hk _]. unfold kernel_regions. rewrite Ht, <- Hr, <- Hd, <- Hb, Hk, Et, Er, Ed, Ee.
  change MEMORY_END with (4096 * 0x88000). change 0x80200000 with (4096 * 0x80200).
  cbn [MMIO fmap list_fmap app].
  repeat apply Forall_cons_2; [..|apply Forall_nil_2]; (split; cbn [fst snd]; [lia|rewrite ?(Z.mul_comm 4096), ?Z.mod_mul by done; done|by apply perm_okb; vm_compute|]);
    unfold in_region; cbn [fst snd]; intros v Hv; rewrite ?div_page in Hv.
  1-5: apply memory_tables; lia.
  - apply (device_tables v 0); [dlia|]. by left.
  - apply (device_tables v 16); [dlia|]. set_solver.
  - destruct (decide (vpn v / 2 ^ 9 = 96)) as [E|E]; [apply (device_tables v 96); [done|set_solver]|].
    apply (device_tables v 97); [dlia|set_solver].
  - apply (device_tables v 128); [dlia|set_solver].
Qed.

(** The regions in the order of their addresses. *)
Lemma kernel_regions_disjoint sym : linked sym → ekernel sym ≤ MEMORY_END → ∀ i j r1 r2 v,
  kernel_regions sym !! i = Some r1 → kernel_regions sym !! j = Some r2 → in_region v r1 → in_region v r2 → i = j.
Proof.
  intros L He. destruct (linked_pages sym L He) as (t & st & rd & d & e & _ & Et & Er & Ed & Ee & Ho).
  destruct L as [Ht _ Hr _ Hd _ Hb _ Hk _]. unfold kernel_regions. rewrite Ht, <- Hr, <- Hd, <- Hb, Hk, Et, Er, Ed, Ee.
  change MEMORY_END with (4096 * 0x88000). change 0x80200000 with (4096 * 0x80200). cbn [MMIO fmap list_fmap app].
  set (idx := λ v, if v <? 0x102 then 5%nat else if v <? 0x2010 then 6%nat else if v <? 0xc210 then 7%nat else if v <? 0x10009 then 8%nat
    else if v <? t then 0%nat else if v <? rd then 1%nat else if v <? d then 2%nat else if v <? e then 3%nat else 4%nat).
  assert (Hidx : ∀ i r v, [(4096 * 0x80200, 4096 * t, RX, Text); (4096 * t, 4096 * rd, MapPermission_R, Rodata); (4096 * rd, 4096 * d, RW, Data);
      (4096 * d, 4096 * e, RW, BSS); (4096 * e, 4096 * 0x88000, RW, Heap); (0x00100000, 0x00100000 + 0x002000, RW, Device);
      (0x2000000, 0x2000000 + 0x10000, RW, Device); (0xc000000, 0xc000000 + 0x210000, RW, Device);
      (0x10000000, 0x10000000 + 0x9000, RW, Device)] !! i = Some r → in_region v r → i = idx v).
  { intros i r v Hi Hv. do 9 (destruct i as [|i]; [injection Hi as <-; unfold in_region in Hv; cbn [fst snd] in Hv; rewrite ?div_page in Hv;
      unfold idx; cbv beta; repeat (match goal with |- context [v <? ?x] => destruct (Z.ltb_spec v x) end; [done || dlia|]); done || dlia|]). done. }
  intros i j r1 r2 v H1 H2 H3 H4. rewrite (Hidx i r1 v H1 H3). symmetry. by eapply Hidx.
Qed.

(** ** The start *)

(** The frames [init_frame_allocator] hands out. *)
Definition kernel_frames (sym : Symbols) : gset PhysPageNum :=
  list_to_set (PPN <$> seqZ (ekernel sym / 4096) (MEMORY_END / 4096 - ekernel sym / 4096)).

Lemma elem_of_kernel_frames sym p : p ∈ kernel_frames sym ↔ ekernel sym / 4096 ≤ ppn p < MEMORY_END / 4096.
Proof.
  unfold kernel_frames. rewrite elem_of_list_to_set, list_elem_of_fmap. split.
  - intros (x & -> & Hx%elem_of_seqZ). cbn. lia.
  - intros Hp. exists (ppn p). split; [by rewrite PPN_ppn|]. apply elem_of_seqZ. lia.
Qed.

Lemma size_kernel_frames sym : size (kernel_frames sym) = Z.to_nat (MEMORY_END / 4096 - ekernel sym / 4096).
Proof.
  unfold kernel_frames. rewrite size_list_to_set by (apply NoDup_fmap_2; [intros ? ?; congruence|apply NoDup_seqZ]).
  by rewrite length_fmap, length_seqZ.
Qed.

Lemma init_frame_allocator_spec sym : linked sym → ekernel sym ≤ MEMORY_END →
  fa_inv (init_frame_allocator sym Stack_new) (kernel_frames sym) ∅.
Proof.
  intros L He. destruct (linked_pages sym L He) as (t & st & rd & d & e & _ & _ & _ & _ & Ee & Ho).
  unfold init_frame_allocator, kernel_frames, PhysAddr_from. rewrite !mask_land by done. change PA_WIDTH_SV39 with 56. rewrite Ee.
  rewrite !Z.mod_small by (unfold MEMORY_END; lia). unfold PhysAddr_ceil, PhysAddr_floor. cbn [pa]. change PAGE_SIZE with 4096.
  rewrite (wrap_small 64 (4096 * e - 1)) by lia. rewrite (wrap_small 64) by lia.
  replace ((4096 * e - 1 + 4096) / 4096) with e by dlia. rewrite div_page. change (MEMORY_END / 4096) with 0x88000. apply Stack_init_inv; lia.
Qed.

(** The translation of the middle of a section of pages [s] to [e]: the entry of page [(s + e) / 2]. *)
Lemma mid_entry_spec {A} `{FrameAllocatorLaws A} (mm : Mm A) ks path free used s e x :
  pt_state (mm_alloc mm) (mm_mem mm) (root_ppn (page_table ks)) (pt_frames (page_table ks)) path free used →
  0 ≤ s ≤ e → e < 2 ^ 26 → mapping (mm_mem mm) (page_table ks) (VPN ((s + e) / 2)) = Some x → mid_entry mm ks (4096 * s) (4096 * e) = Done x.
Proof.
  intros S Hse He Hm. unfold mid_entry, VirtAddr_from. rewrite mask_land by done. change VA_WIDTH_SV39 with 39.
  rewrite wrap_small by lia. rewrite Z.mod_small by dlia. unfold VirtAddr_floor. cbn [va]. change PAGE_SIZE with 4096.
  replace ((4096 * s + 4096 * e) / 2 / 4096) with ((s + e) / 2) by dlia.
  destruct (translate_mapped _ _ _ _ _ _ _ _ S Hm) as [-> _]. done.
Qed.

(** The page tables of the kernel from its regions; [rm] is what [room] counts: 73 tables. *)
Lemma new_kernel_spec {A} `{FrameAllocatorLaws A} sym a m free used : linked sym → ekernel sym ≤ MEMORY_END →
  fa_inv a free used → wf_memory m → (∀ f, f ∈ free → is_Some (m !! f) ∧ 0 ≤ ppn f < 2 ^ 44) → (75 ≤ size free)%nat →
  ∃ ks a' m' path free' used',
    new_kernel sym (mkMm a m) = Done (ks, mkMm a' m') ∧
    pt_state a' m' (root_ppn (page_table ks)) (pt_frames (page_table ks)) path free' used' ∧
    (∀ v, 0 ≤ vpn v < 2 ^ 27 → mapping m' (page_table ks) v = kernel_page sym v) ∧
    free' ⊆ free ∧ used' ∪ free' = used ∪ free ∧ (size free ≤ size free' + 73)%nat ∧ (∀ p, p ∉ free → m' !! p = m !! p).
Proof.
  intros L He I Hwf Hfree Hsz. destruct (linked_pages sym L He) as (t & st & rd & d & e & Es & _ & _ & _ & _ & Ho).
  rewrite new_kernel_regions. unfold new_bare. cbn [mm_alloc mm_mem].
  destruct (PageTable_new_spec a m free used I Hwf ltac:(lia) Hfree) as (pt & a1 & m1 & Hnew & S1 & Hroot & Hm1 & Hnone).
  rewrite Hnew, outcome_bind_Done. cbn [mret outcome_ret]. rewrite outcome_bind_Done.
  assert (Hs1 : size (free ∖ {[root_ppn pt]}) = (size free - 1)%nat) by (rewrite size_difference, size_singleton by set_solver; done).
  assert (R1 : room kernel_tables {[root_ppn pt := []]} (free ∖ {[root_ppn pt]})).
  { split; [|rewrite Hs1, map_size_singleton; change (size kernel_tables) with 73%nat; lia].
    intros p x Hx. apply lookup_singleton_Some in Hx as [_ <-]. by apply (bool_decide_unpack _); vm_compute. }
  destruct (map_counted kernel_tables a1 m1 pt _ _ _ (VPN (2 ^ 27 - 1)) (PPN st) RX S1 R1 trampoline_tables)
    as (pt2 & a2 & m2 & path2 & free2 & used2 & Hmap & _ & S2 & R2 & Hmap2 & Hsets & Hout); [done|cbn; lia|done|by apply Hnone|].
  assert (Htramp : map_trampoline sym (mkMm a1 m1) (mkMemorySet pt []) = Done (mkMemorySet pt2 [], mkMm a2 m2)).
  { unfold map_trampoline. change (VirtPageNum_of_addr (VirtAddr_from TRAMPOLINE)) with (Done (VPN (2 ^ 27 - 1))). rewrite outcome_bind_Done.
    assert (PhysPageNum_of_addr (PhysAddr_from (strampoline sym)) = Done (PPN st)) as ->.
    { unfold PhysPageNum_of_addr, PhysAddr_from, PhysAddr_page_offset, PhysAddr_floor. rewrite mask_land, page_offset_eq by done. cbn [pa].
      change PA_WIDTH_SV39 with 56. rewrite Z.mod_small by lia. rewrite Es. rewrite (Z.mul_comm 4096), Z.mod_mul by done. cbn. f_equal. f_equal. by apply Z.div_mul. }
    rewrite outcome_bind_Done. unfold pt_map. cbn [mm_alloc mm_mem page_table]. change (Z.lor PTE_R PTE_X) with RX. by rewrite Hmap. }
  rewrite Htramp, outcome_bind_Done.
  destruct (push_regions_spec kernel_tables (kernel_regions sym) a2 m2 (mkMemorySet pt2 []) path2 free2 used2 S2 R2)
    as (ks & a' & m' & path' & free' & used' & Hrun & _ & S' & R' & G).
  { by apply kernel_regions_ok. }
  { by apply kernel_regions_disjoint. }
  { intros v r Hr Hv. assert (Hb : 0 ≤ vpn v < 2 ^ 26).
    { pose proof (kernel_regions_ok sym L He) as Hok. rewrite Forall_forall in Hok. destruct (Hok r Hr) as [Hb _ _ _]. unfold in_region in Hv. dlia. }
    cbn [page_table]. rewrite Hmap2 by lia. rewrite decide_False by (intros ->; cbn in Hb; lia). apply Hnone. lia. }
  exists ks, a', m', path', free', used'. split; [exact Hrun|]. split; [exact S'|]. destruct G as [GM GS GO], Hsets as (H1 & H2 & _ & _ & H5), GS as (G1 & G2 & _ & _ & G5).
  split; [|split; [clear - H1 G1; set_solver|split; [rewrite G2, H2; by apply take_one|split]]].
  - intros v Hv. rewrite GM by done. cbn [page_table]. rewrite Hmap2 by done. unfold kernel_page. fold (region_entry (kernel_regions sym) v).
    case_decide as Ev; [|destruct (region_entry _ v); [done|by apply Hnone]].
    subst v. assert (region_entry (kernel_regions sym) (VPN (2 ^ 27 - 1)) = None) as ->; [|by rewrite Es, div_page].
    unfold region_entry. replace (region_perm _ _) with (@None Z); [done|]. symmetry. apply region_perm_None, Forall_forall. intros r Hr Hv2.
    pose proof (kernel_regions_ok sym L He) as Hok. rewrite Forall_forall in Hok. destruct (Hok r Hr) as [Hb _ _ _]. unfold in_region in Hv2. cbn [vpn] in Hv2. dlia.
  - pose proof (tables_at_most kernel_tables m' _ path' (ps_tree _ _ _ _ _ _ _ S') (rm_paths _ _ _ R')) as Hle.
    change (size kernel_tables) with 73%nat in Hle. rewrite map_size_singleton in H5. lia.
  - intros p Hp. assert (Hp1 : p ≠ root_ppn pt) by congruence. destruct (Hout p) as [Hq Hq2]; [clear - Hp; set_solver|by rewrite lookup_singleton_ne|].
    destruct (GO p) as [-> _]; [clear - H1 Hp; set_solver|done|]. rewrite Hq. by apply Hm1.
Qed.

(** The entry of a page of a region is the region's. *)
Lemma kernel_page_region sym r v : linked sym → ekernel sym ≤ MEMORY_END → r ∈ kernel_regions sym → in_region (vpn v) r →
  kernel_page sym v = Some (PTE_new (PPN (vpn v)) (Z.lor r.1.2 PTE_V)) ∧ 0 ≤ vpn v < 2 ^ 26.
Proof.
  intros L He Hr Hv. pose proof (kernel_regions_ok sym L He) as Hok. rewrite Forall_forall in Hok. destruct (Hok r Hr) as [Hb _ _ _].
  assert (Hb2 : 0 ≤ vpn v < 2 ^ 26) by (unfold in_region in Hv; dlia). split; [|done].
  unfold kernel_page. rewrite decide_False by (intros ->; cbn in Hb2; lia).
  assert (region_perm (kernel_regions sym) (vpn v) = Some r.1.2) as ->; [|done].
  pose proof (kernel_regions_disjoint sym L He) as Hd. revert Hr Hd. generalize (kernel_regions sym) as rs. induction rs as [|r' rs IH]; intros Hr Hd; [mem_nil Hr|].
  rewrite region_perm_cons. apply elem_of_cons in Hr as [<-|Hr]; [by rewrite decide_True|].
  apply list_elem_of_lookup in Hr as Hi. destruct Hi as [i Hi]. case_decide as Hv'; [by specialize (Hd 0%nat (S i) r' r _ eq_refl Hi Hv' Hv)|].
  apply IH; [done|]. intros j k r1 r2 x H1 H2 H3 H4. specialize (Hd (S j) (S k) r1 r2 x H1 H2 H3 H4). by injection Hd.
Qed.

(** Each entry has the permissions of the trampoline or of a region. *)
Lemma kernel_page_perm sym v e : linked sym → ekernel sym ≤ MEMORY_END → 0 ≤ vpn v < 2 ^ 27 → kernel_page sym v = Some e →
  PTE_flags e ∈ [Z.lor RX PTE_V; Z.lor MapPermission_R PTE_V; Z.lor RW PTE_V].
Proof.
  intros L He Hv. destruct (linked_pages sym L He) as (t & st & rd & d & ek & Es & _ & _ & _ & _ & Ho). unfold kernel_page. case_decide as Ev.
  - intros [= <-]. rewrite Es, div_page. rewrite PTE_flags_new by (cbn; done || lia). by left.
  - destruct (region_perm _ _) as [perm|] eqn:E; [|done]. intros [= <-].
    assert (Hp : perm ∈ [RX; MapPermission_R; RW]).
    { assert (H : ∀ rs, Forall (λ r : region, r.1.2 ∈ [RX; MapPermission_R; RW]) rs → region_perm rs (vpn v) = Some perm → perm ∈ [RX; MapPermission_R; RW]).
      { induction rs as [|r rs IH]; [done|]. intros [Hr Hrs]%Forall_cons. rewrite region_perm_cons. case_decide; [by intros [= <-]|by apply IH]. }
      revert E. apply H. unfold kernel_regions. cbn [MMIO fmap list_fmap app]. repeat apply Forall_cons_2; [..|apply Forall_nil_2]; set_solver. }
    rewrite PTE_flags_new; [|cbn; lia|].
    + repeat (apply elem_of_cons in Hp as [->|Hp]; [set_solver|]). mem_nil Hp.
    + repeat (apply elem_of_cons in Hp as [->|Hp]; [by vm_compute|]). mem_nil Hp.
Qed.

Lemma kernel_page_protected sym v e : linked sym → ekernel sym ≤ MEMORY_END → 0 ≤ vpn v < 2 ^ 27 → kernel_page sym v = Some e →
  PTE_writable e && PTE_executable e = false ∧ PTE_has PTE_U e = false.
Proof.
  intros L He Hv E. pose proof (kernel_page_perm sym v e L He Hv E) as Hf. unfold PTE_writable, PTE_executable, PTE_has.
  repeat (apply elem_of_cons in Hf as [->|Hf]; [done|]). mem_nil Hf.
Qed.

(** [remap_test] passes on the kernel's space. *)
Lemma remap_test_passes {A} `{FrameAllocatorLaws A} sym ks (a' : A) m' path free used :
  linked sym → srodata sym < erodata sym → ekernel sym < MEMORY_END →
  pt_state a' m' (root_ppn (page_table ks)) (pt_frames (page_table ks)) path free used →
  (∀ v, 0 ≤ vpn v < 2 ^ 27 → mapping m' (page_table ks) v = kernel_page sym v) →
  remap_test sym (mkMm a' m') ks = Done tt.
Proof.
  intros L Hro He S Hmap. assert (He' : ekernel sym ≤ MEMORY_END) by lia.
  destruct (linked_pages sym L He') as (t & st & rd & d & e & Es & Et & Er & Ed & Ee & Ho).
  assert (Hmid : ∀ x y perm r, 0 ≤ x ≤ y → y < 2 ^ 26 → r ∈ kernel_regions sym → r.1.2 = perm → in_region ((x + y) / 2) r →
    mid_entry (mkMm a' m') ks (4096 * x) (4096 * y) = Done (PTE_new (PPN ((x + y) / 2)) (Z.lor perm PTE_V))).
  { intros x y perm r Hx Hy Hr <- Hv. destruct (kernel_page_region sym r (VPN ((x + y) / 2)) L He' Hr Hv) as [E Hb].
    apply (mid_entry_spec (mkMm a' m') ks path free used x y _ S Hx Hy). cbn [mm_mem]. by rewrite Hmap by lia. }
  pose proof L as [Lt _ Lr _ Ld _ Lb _ Lk _]. unfold remap_test. unfold kernel_regions in Hmid.
  rewrite <- Lr, <- Ld, <- Lb, Lk, Lt, Et, Er, Ed, Ee in Hmid. rewrite <- Lr, <- Ld, Lt, Et, Er, Ed. change 0x80200000 with (4096 * 0x80200) in *.
  change MEMORY_END with (4096 * 0x88000) in *. rewrite <- Lr, Er in Hro.
  assert (Hhas : ∀ p f fl, 0 ≤ p < 2 ^ 44 → 0 ≤ fl < 2 ^ 8 → PTE_has f (PTE_new (PPN p) fl) = negb (Z.land fl f =? 0))
    by (intros p f fl Hp Hfl; unfold PTE_has; by rewrite PTE_flags_new).
  assert (Hdata : mid_entry (mkMm a' m') ks (4096 * rd) (4096 * d) = Done (PTE_new (PPN ((rd + d) / 2)) (Z.lor RW PTE_V))).
  { destruct (decide (rd < d)); [|destruct (decide (d < e))].
    - apply (Hmid rd d RW _ ltac:(lia) ltac:(lia) ltac:(by do 2 right; left)); [done|]. split; cbn [fst snd]; rewrite ?div_page; dlia.
    - apply (Hmid rd d RW _ ltac:(lia) ltac:(lia) ltac:(by do 3 right; left)); [done|]. split; cbn [fst snd]; rewrite ?div_page; dlia.
    - apply (Hmid rd d RW _ ltac:(lia) ltac:(lia) ltac:(by do 4 right; left)); [done|]. split; cbn [fst snd]; rewrite ?div_page; dlia. }
  rewrite (Hmid 0x80200 t RX _ ltac:(lia) ltac:(lia) ltac:(by left)) by (done || (split; cbn [fst snd]; rewrite ?div_page; dlia)).
  rewrite outcome_bind_Done. unfold PTE_writable. rewrite Hhas by (done || dlia). change (assert_that (negb (negb (Z.land (Z.lor RX PTE_V) PTE_W =? 0))) PAssert) with (Done tt). rewrite outcome_bind_Done.
  rewrite (Hmid t rd MapPermission_R _ ltac:(lia) ltac:(lia) ltac:(by right; left)) by (done || (split; cbn [fst snd]; rewrite ?div_page; dlia)).
  rewrite outcome_bind_Done, Hhas by (done || dlia). change (assert_that (negb (negb (Z.land (Z.lor MapPermission_R PTE_V) PTE_W =? 0))) PAssert) with (Done tt). rewrite outcome_bind_Done.
  rewrite Hdata, outcome_bind_Done. unfold PTE_executable. by rewrite Hhas by (done || dlia).
Qed.

(** C14. [mm::init] builds the kernel's address space: with the sections where the linker script puts
    them and 80 frames behind the kernel, it takes at most 73 frames, each for a table; what is
    written to [satp] is the table's root; the page table maps the trampoline, the sections, the rest
    of memory and the devices to themselves, with the permissions of [kernel_page], and nothing else;
    no page is both writable and executable, none is the user's; memory outside of the free frames
    is untouched.  Then [remap_test] passes (there being read-only data), and [frame_allocator_test]
    passes and gives every frame back. *)
Theorem kernel_maps_itself sym (m : gmap PhysPageNum (list Z)) :
  linked sym → srodata sym < erodata sym → ekernel sym + 80 * PAGE_SIZE ≤ MEMORY_END → wf_memory m →
  (∀ p, ekernel sym / 4096 ≤ ppn p < MEMORY_END / 4096 → is_Some (m !! p)) →
  ∃ ks satp mm path free used,
    mm_init sym m = Done (ks, satp, mm) ∧ PageTable_from_token satp = mkPageTable (root_ppn (page_table ks)) [] ∧
    pt_state (mm_alloc mm) (mm_mem mm) (root_ppn (page_table ks)) (pt_frames (page_table ks)) path free used ∧
    used ∪ free = kernel_frames sym ∧ (size used ≤ 73)%nat ∧
    (∀ v, 0 ≤ vpn v < 2 ^ 27 → mapping (mm_mem mm) (page_table ks) v = kernel_page sym v) ∧
    (∀ v e, 0 ≤ vpn v < 2 ^ 27 → kernel_page sym v = Some e → PTE_writable e && PTE_executable e = false ∧ PTE_has PTE_U e = false) ∧
    (∀ p, p ∉ kernel_frames sym → mm_mem mm !! p = m !! p) ∧
    remap_test sym mm ks = Done tt ∧
    ∃ mm', frame_allocator_test mm = Done mm' ∧ fa_inv (mm_alloc mm') free used.
Proof.
  intros L Hro He Hwf Hm. change PAGE_SIZE with 4096 in He. assert (He' : ekernel sym ≤ MEMORY_END) by lia.
  assert (Hsz : (80 ≤ size (kernel_frames sym))%nat) by (rewrite size_kernel_frames; dlia).
  destruct (linked_pages sym L He') as (t & st & rd & d & e & Es & Et & Er & Ed & Ee & Ho).
  assert (Hfr : ∀ f, f ∈ kernel_frames sym → is_Some (m !! f) ∧ 0 ≤ ppn f < 2 ^ 44).
  { intros f Hf%elem_of_kernel_frames. split; [by apply Hm|]. rewrite Ee, div_page in Hf. change (MEMORY_END / 4096) with 0x88000 in Hf. lia. }
  destruct (new_kernel_spec sym (init_frame_allocator sym Stack_new) m (kernel_frames sym) ∅ L He' (init_frame_allocator_spec sym L He') Hwf Hfr ltac:(lia))
    as (ks & a' & m' & path & free & used & Hrun & S & Hmap & Hsub & Hun & Hc & Hout).
  rewrite (left_id_L ∅ (∪)) in Hun. pose proof (fa_disjoint _ _ _ (ps_alloc _ _ _ _ _ _ _ S)) as D.
  assert (Hsu : (size used + size free = size (kernel_frames sym))%nat) by (rewrite <- size_union by set_solver; by rewrite Hun).
  exists ks, (MemorySet_token ks), (mkMm a' m'), path, free, used. cbn [mm_alloc mm_mem].
  split; [unfold mm_init; by rewrite Hrun, outcome_bind_Done|].
  split; [apply token_roundtrip, (tr_mem _ _ _ (ps_tree _ _ _ _ _ _ _ S) _ _ (tr_root _ _ _ (ps_tree _ _ _ _ _ _ _ S)))|].
  split; [exact S|]. split; [done|]. split; [lia|]. split; [done|]. split; [intros v x Hv; by apply (kernel_page_protected sym v x L He')|].
  split; [done|]. split.
  - apply (remap_test_passes sym ks a' m' path free used); [done..|lia|done|done].
  - destruct (frame_allocator_test_passes a' m' free used (ps_alloc _ _ _ _ _ _ _ S)) as (a2 & m2 & Hr & I & _);
      [intros p Hp; by apply (ps_free _ _ _ _ _ _ _ S)|lia|]. by exists (mkMm a2 m2).
Qed.

(** A kernel of 32 MB. *)
Module KernelWitness.
Definition sym : Symbols :=
  mkSymbols 0x80200000 0x80280000 0x80280000 0x802a0000 0x802a0000 0x80300000 0x80300000 0x82300000 0x82300000 0x80201000.

Lemma sym_linked : linked sym.
Proof. split; cbn; try done. repeat apply Forall_cons_2; done. Qed.

(** The memory behind the kernel, cleared. *)
Lemma memory_there : ∃ m : gmap PhysPageNum (list Z), wf_memory m ∧ ∀ p, ekernel sym / 4096 ≤ ppn p < MEMORY_END / 4096 → is_Some (m !! p).
Proof.
  exists (gset_to_gmap zero_page (kernel_frames sym)). split.
  - intros p b [_ <-]%lookup_gset_to_gmap_Some. apply zero_page_wf.
  - intros p Hp. exists zero_page. apply lookup_gset_to_gmap_Some. split; [by apply elem_of_kernel_frames|done].
Qed.
End KernelWitness.

Lemma kernel_maps_itself_witness :
  ∃ m ks satp mm, mm_init KernelWitness.sym m = Done (ks, satp, mm) ∧
    mapping (mm_mem mm) (page_table ks) (VPN 0x80201) = Some (PTE_new (PPN 0x80201) 11) ∧
    mapping (mm_mem mm) (page_table ks) (VPN (2 ^ 27 - 1)) = Some (PTE_new (PPN 0x80201) 11) ∧
    mapping (mm_mem mm) (page_table ks) (VPN 0x87fff) = Some (PTE_new (PPN 0x87fff) 7) ∧
    mapping (mm_mem mm) (page_table ks) (VPN 0x300) = None ∧ remap_test KernelWitness.sym mm ks = Done tt.
Proof.
  destruct KernelWitness.memory_there as (m & Hwf & Hm).
  destruct (kernel_maps_itself KernelWitness.sym m KernelWitness.sym_linked) as
    (ks & satp & mm & path & free & used & Hrun & _ & _ & _ & _ & Hmap & _ & _ & Ht & _); [done|done|exact Hwf|exact Hm|].
  exists m, ks, satp, mm. split; [exact Hrun|]. rewrite !Hmap by (cbn; lia). split; [by vm_compute|]. split; [by vm_compute|]. split; [by vm_compute|].
  split; [by vm_compute|exact Ht].
Defined.
