(* ===== verification/Gui.v ===== *)
(** * Gui.v: the framebuffer in a process's space ([os/src/syscall/gui.rs]) and drawing on it
    ([Display] of [user/src/io.rs])

    The device's framebuffer is [fb_len] bytes at the physical address [fb_ptr], both arguments;
    flushing it is the device's. *)

From S2P Require Import Prelude Address FrameAlloc PageTable MemorySet.

Definition FB_VADDR : Z := 0x10000000.

(** [PPNRange::new] and the pages its iterator gives. *)
Definition PPNRange_new (start end_ : PhysPageNum) : outcome (list PhysPageNum) :=
  assert_that (ppn start <=? ppn end_) PAssert;;
  mret (PPN <$> seqZ (ppn start) (ppn end_ - ppn start)).

Section gui.
Context {A : Type} `{FrameAllocator A}.

Definition sys_framebuffer (fb_ptr fb_len : Z) (mm : Mm A) (ms : MemorySet) : outcome (Z * MemorySet * Mm A) :=
  let fb_ppn := PhysAddr_floor (PhysAddr_from fb_ptr) in
  let fb_end_ppn := PhysAddr_ceil (PhysAddr_from (u64 (fb_ptr + fb_len))) in
  ar ← MapArea_new (VirtAddr_from FB_VADDR) (VirtAddr_from (u64 (FB_VADDR + fb_len))) Noalloc
         (Z.lor (Z.lor MapPermission_R MapPermission_W) MapPermission_U) Device;
  ppns ← PPNRange_new fb_ppn fb_end_ppn;
  '(ms, mm) ← push_noalloc mm ms ar ppns;
  mret (FB_VADDR, ms, mm).
End gui.

(** ** [Display]: the process's slice of the framebuffer *)

Definition VIRTGPU_XRES : Z := 1280.
Definition VIRTGPU_YRES : Z := 800.
Definition VIRTGPU_LEN : Z := VIRTGPU_XRES * VIRTGPU_YRES * 4.

Record Pixel : Type := mkPixel {
  px : Z; py : Z;
  px_r : Z; px_g : Z; px_b : Z;
}.

(** The index of a pixel: computed as [i32], then as [usize]. *)
Definition pixel_idx (p : Pixel) : Z := u64 (u64 (i32 (i32 (py p * i32 VIRTGPU_XRES) + px p)) * 4).

(** The closure of [draw_iter], and the whole. *)
Definition draw_pixel (fb : list Z) (p : Pixel) : list Z :=
  let idx := pixel_idx p in
  if zlen fb <=? u64 (idx + 2) then fb
  else
    let fb := <[Z.to_nat idx := px_b p]> fb in
    let fb := <[Z.to_nat (u64 (idx + 1)) := px_g p]> fb in
    <[Z.to_nat (u64 (idx + 2)) := px_r p]> fb.

Definition draw_iter (fb : list Z) (pixels : list Pixel) : list Z := foldl draw_pixel fb pixels.

Lemma pixel_idx_eq p : 0 ≤ px p < 2 ^ 20 → 0 ≤ py p < 2 ^ 20 → pixel_idx p = (py p * 1280 + px p) * 4.
Proof.
  intros Hx Hy. unfold pixel_idx. change (i32 VIRTGPU_XRES) with 1280. rewrite (signed_small 32 (py p * 1280)) by lia.
  rewrite signed_small by lia. rewrite (wrap_small 64 (py p * 1280 + px p)) by lia. rewrite wrap_small by lia. done.
Qed.

(** A pixel on the screen changes its own three bytes. *)
Lemma draw_pixel_spec fb p i : zlen fb = VIRTGPU_LEN → 0 ≤ px p < VIRTGPU_XRES → 0 ≤ py p < VIRTGPU_YRES →
  draw_pixel fb p !! i =
    let k := Z.of_nat i - (py p * VIRTGPU_XRES + px p) * 4 in
    if decide (k = 0) then Some (px_b p) else if decide (k = 1) then Some (px_g p) else if decide (k = 2) then Some (px_r p) else fb !! i.
Proof.
  intros Hl Hx Hy. change VIRTGPU_XRES with 1280 in *. change VIRTGPU_YRES with 800 in *. change VIRTGPU_LEN with 4096000 in Hl. unfold draw_pixel.
  rewrite pixel_idx_eq by lia. set (n := (py p * 1280 + px p) * 4). assert (Hn : 0 ≤ n ≤ 4095996) by lia.
  rewrite !wrap_small by lia. rewrite (proj2 (Z.leb_gt _ _)) by lia. unfold zlen in Hl. cbv zeta.
  destruct (decide (i = Z.to_nat (n + 2))) as [->|H2]; [rewrite list_lookup_insert_eq by (rewrite !length_insert; lia); repeat case_decide; (done || lia)|].
  rewrite list_lookup_insert_ne by lia.
  destruct (decide (i = Z.to_nat (n + 1))) as [->|H1]; [rewrite list_lookup_insert_eq by (rewrite !length_insert; lia); repeat case_decide; (done || lia)|].
  rewrite list_lookup_insert_ne by lia.
  destruct (decide (i = Z.to_nat n)) as [->|H0]; [rewrite list_lookup_insert_eq by lia; by rewrite decide_True by lia|].
  rewrite list_lookup_insert_ne by lia. by rewrite !decide_False by lia.
Qed.

(** A pixel to the right of the screen is drawn at the start of the next line. *)
Lemma draw_wraps fb y r g b : 0 ≤ y < VIRTGPU_YRES - 1 →
  draw_pixel fb (mkPixel VIRTGPU_XRES y r g b) = draw_pixel fb (mkPixel 0 (y + 1) r g b).
Proof.
  intros Hy. change VIRTGPU_YRES with 800 in Hy. change VIRTGPU_XRES with 1280. unfold draw_pixel. rewrite !pixel_idx_eq by (cbn; lia).
  cbn [px py px_r px_g px_b]. by replace ((y * 1280 + 1280) * 4) with (((y + 1) * 1280 + 0) * 4) by lia.
Qed.

Section mapping.
Context {A : Type} `{FrameAllocatorLaws A}.

(** Mapping pages to frames that are not the allocator's. *)
Lemma map_noalloc_spec ps : ∀ (a : A) m pt path free used ar,
  pt_state a m (root_ppn pt) (pt_frames pt) path free used → perm_ok (map_perm ar) → NoDup ps.*1 →
  (∀ v p, (v, p) ∈ ps → 0 ≤ vpn v < 2 ^ 27 ∧ 0 ≤ ppn p < 2 ^ 44 ∧ mapping m pt v = None ∧ v ∉ (data_frames ar).*1) →
  (2 * length ps ≤ size free)%nat →
  ∃ pt' ar' a' m' path' free' used',
    map_noalloc_pages (mkMm a m) pt ar ps = Done (pt', ar', mkMm a' m') ∧
    pt_state a' m' (root_ppn pt') (pt_frames pt') path' free' used' ∧ root_ppn pt' = root_ppn pt ∧
    vpn_range ar' = vpn_range ar ∧ map_type ar' = map_type ar ∧
    data_frames ar' ≡ₚ ((λ x, (x.1, mkTracker x.2 true)) <$> ps) ++ data_frames ar ∧
    (∀ v p, (v, p) ∈ ps → mapping m' pt' v = Some (PTE_new p (Z.lor (map_perm ar) PTE_V))) ∧
    (∀ v, 0 ≤ vpn v < 2 ^ 27 → v ∉ ps.*1 → mapping m' pt' v = mapping m pt v) ∧
    (∀ r, r ∉ free → path !! r = None → m' !! r = m !! r) ∧ (size free ≤ size free' + 2 * length ps)%nat.
Proof.
  induction ps as [|[v p] ps IH]; intros a m pt path free used ar S Hperm Hnd Hps Hfree.
  { exists pt, ar, a, m, path, free, used. split; [done|]. split; [done|]. do 4 (split; [done|]).
    split; [intros v p Hin; by apply not_elem_of_nil in Hin|]. split; [done|]. split; [done|]. cbn. lia. }
  cbn [fmap list_fmap fst] in Hnd. apply NoDup_cons in Hnd as [Hv Hnd]. cbn [length] in Hfree.
  destruct (Hps v p ltac:(by left)) as (Hvr & Hpr & Hnone & Hkey). cbn [map_noalloc_pages].
  destruct (bt_insert_new v (FrameTracker_new_noalloc p) (data_frames ar) Hkey) as (fs & Hbt & Hfs). rewrite Hbt. cbn [drop_old].
  rewrite outcome_bind_Done. set (ar1 := mkArea (vpn_range ar) fs (map_type ar) (map_perm ar) (section_type ar)).
  pose proof (PageTable_map_spec a m pt path free used v p (map_perm ar) S Hvr Hpr Hperm ltac:(lia)) as Hm. rewrite Hnone in Hm.
  destruct Hm as (pt1 & a1 & m1 & path1 & free1 & used1 & Hrun & Hroot & S1 & Hmap & Hfr & Hsub & _ & _ & _ & Hdp & Hcnt).
  unfold pt_map. cbn [mm_alloc mm_mem]. change (map_perm ar1) with (map_perm ar). rewrite Hrun. repeat (rewrite outcome_bind_Done || cbn [mret outcome_ret]).
  assert (Hne : ∀ w q, (w, q) ∈ ps → w ≠ v) by (intros w q Hw ->; apply Hv, list_elem_of_fmap; by exists (v, q)).
  destruct (IH a1 m1 pt1 path1 free1 used1 ar1 S1 Hperm Hnd) as (pt' & ar' & a' & m' & path' & free' & used' & Hrun' & S' & Hroot' & Hrg & Hty & Hdf & Hin & Hout & Hkeep & Hcnt').
  { intros w q Hw. destruct (Hps w q ltac:(by right)) as (Hwr & Hqr & Hwn & Hwk). split; [done|]. split; [done|]. split.
    - rewrite Hmap, decide_False by (done || by eapply Hne). done.
    - cbn [data_frames ar1]. rewrite Hfs. cbn. rewrite not_elem_of_cons. split; [by eapply Hne|done]. }
  { lia. }
  exists pt', ar', a', m', path', free', used'. split; [exact Hrun'|]. split; [done|]. split; [congruence|]. split; [done|]. split; [done|]. split; [|split; [|split; [|split]]].
  - rewrite Hdf. cbn [data_frames ar1 fmap list_fmap]. rewrite Hfs. by rewrite <- Permutation_middle.
  - intros w q [[= -> ->]|Hw]%elem_of_cons; [|by apply Hin]. rewrite Hout by done. by rewrite Hmap, decide_True.
  - intros w Hw Hnw. cbn [fmap list_fmap fst] in Hnw. apply not_elem_of_cons in Hnw as [Hwv Hnw]. rewrite Hout by done. by rewrite Hmap, decide_False.
  - intros r Hrf Hrp. rewrite Hkeep; [by apply Hfr|set_solver|]. apply not_elem_of_dom. intros Hin'%Hdp. apply not_elem_of_dom in Hrp. set_solver.
  - cbn [length]. lia.
Qed.

(** A page that is mapped already. *)
Lemma map_noalloc_mapped (a : A) m pt path free used ar v p ps : pt_state a m (root_ppn pt) (pt_frames pt) path free used → perm_ok (map_perm ar) →
  0 ≤ vpn v < 2 ^ 27 → 0 ≤ ppn p < 2 ^ 44 → (2 ≤ size free)%nat → is_Some (mapping m pt v) → data_frames ar = [] →
  map_noalloc_pages (mkMm a m) pt ar ((v, p) :: ps) = Panicked PAssert.
Proof.
  intros S Hperm Hv Hp Hf [e He] Hdf. cbn [map_noalloc_pages]. rewrite Hdf. cbn [bt_insert drop_old]. rewrite outcome_bind_Done.
  pose proof (PageTable_map_spec a m pt path free used v p (map_perm ar) S Hv Hp Hperm Hf) as Hm. rewrite He in Hm.
  unfold pt_map. cbn [mm_alloc mm_mem map_perm]. by rewrite Hm.
Qed.
End mapping.

(** ** Properties *)

Definition FB_VPN : Z := FB_VADDR / PAGE_SIZE.

(** The number of pages of the framebuffer. *)
Definition fb_pages (fb_len : Z) : Z := (fb_len + 4095) / 4096.

Lemma fb_pages_bounds fb_len : 0 < fb_len → 0 < fb_pages fb_len ∧ fb_pages fb_len * 4096 < fb_len + 4096 ∧ fb_len ≤ fb_pages fb_len * 4096.
Proof. intros Hl. unfold fb_pages. dlia. Qed.

Lemma ceil_eq x : 0 < x < 2 ^ 60 → u64 (u64 (x - 1) + PAGE_SIZE) / PAGE_SIZE = (x + 4095) / 4096.
Proof. intros Hx. unfold PAGE_SIZE. rewrite (wrap_small 64 (x - 1)), wrap_small by lia. f_equal. lia. Qed.

(** What [sys_framebuffer] computes before it maps. *)
Lemma sys_framebuffer_eq {A} `{FrameAllocator A} base fb_len (mm : Mm A) ms : 0 ≤ base → 0 < fb_len < 2 ^ 37 → base + fb_pages fb_len ≤ 2 ^ 44 - 1 →
  sys_framebuffer (base * 4096) fb_len mm ms =
    ('(ms, mm) ← push_noalloc mm ms (mkArea (mkRange (VPN FB_VPN) (VPN (FB_VPN + fb_pages fb_len))) [] Noalloc 22 Device)
                   (PPN <$> seqZ base (fb_pages fb_len));
     mret (FB_VADDR, ms, mm)).
Proof.
  intros Hb Hl Hp. pose proof (fb_pages_bounds fb_len ltac:(lia)) as (H1 & H2 & H3). unfold sys_framebuffer, MapArea_new, PPNRange_new, SimpleRange_new.
  unfold PhysAddr_floor, PhysAddr_ceil, PhysAddr_from, VirtAddr_floor, VirtAddr_ceil, VirtAddr_from. rewrite !mask_land by done. cbn [pa va].
  change PA_WIDTH_SV39 with 56. change VA_WIDTH_SV39 with 39. change FB_VADDR with (65536 * 4096). change FB_VPN with 65536.
  rewrite (wrap_small 64 (base * 4096 + fb_len)), (wrap_small 64 (65536 * 4096 + fb_len)) by lia.
  rewrite (Z.mod_small (base * 4096)), (Z.mod_small (base * 4096 + fb_len)), (Z.mod_small (65536 * 4096)), (Z.mod_small (65536 * 4096 + fb_len)) by lia.
  rewrite !ceil_eq by lia. unfold PAGE_SIZE. rewrite !Z.div_mul by done.
  replace ((base * 4096 + fb_len + 4095) / 4096) with (base + fb_pages fb_len) by (unfold fb_pages; clear; dlia).
  replace ((65536 * 4096 + fb_len + 4095) / 4096) with (65536 + fb_pages fb_len) by (unfold fb_pages; clear; dlia).
  cbn [vpn ppn]. rewrite (proj2 (Z.leb_le 65536 _)) by lia. cbn [assert_that]. repeat (rewrite outcome_bind_Done || cbn [mret outcome_ret]).
  rewrite (proj2 (Z.leb_le base _)) by lia. cbn [assert_that]. repeat (rewrite outcome_bind_Done || cbn [mret outcome_ret]).
  by replace (base + fb_pages fb_len - base) with (fb_pages fb_len) by lia.
Qed.

(** The pairs of page and frame that the loop sees. *)
Lemma fb_zip base n : 0 ≤ n → zip (VPN <$> seqZ FB_VPN n) (PPN <$> seqZ base n) = (λ i, (VPN (FB_VPN + i), PPN (base + i))) <$> seqZ 0 n.
Proof.
  intros Hn. apply list_eq. intros i. destruct (decide (i < Z.to_nat n)%nat) as [Hi|Hi].
  - rewrite list_lookup_fmap, lookup_seqZ_lt by lia. cbn. apply lookup_zip_with_Some. eexists _, _. split; [done|].
    rewrite !list_lookup_fmap, !lookup_seqZ_lt by lia. cbn. split; do 2 f_equal; lia.
  - rewrite !lookup_ge_None_2; [done|rewrite length_fmap, length_seqZ; lia|rewrite length_zip_with, !length_fmap, !length_seqZ; lia].
Qed.

Section framebuffer.
Context (a : StackFrameAllocator) (m : memory) (ms : MemorySet) (path : gmap PhysPageNum (list Z)) (free used : gset PhysPageNum)
  (base fb_len : Z) (S : pt_state a m (root_ppn (page_table ms)) (pt_frames (page_table ms)) path free used)
  (Hb : 0 ≤ base) (Hl : 0 < fb_len < 2 ^ 37) (Hp : base + fb_pages fb_len ≤ 2 ^ 44 - 1).

(** C40. [sys_framebuffer] shows a process the framebuffer of the device: when the pages from
    0x10000000 on are not mapped yet and there is memory for tables, it returns this address, each
    page is mapped to the frame of the framebuffer with the same index, for the user to read and
    write, so that byte [k] of the process's buffer is byte [k] of the device's; the frames will not
    be given to the allocator, all other pages stay as they are; and a second call panics. *)
Theorem framebuffer_is_shown : (∀ v, FB_VPN ≤ vpn v < FB_VPN + fb_pages fb_len → mapping m (page_table ms) v = None) →
  (2 * Z.to_nat (fb_pages fb_len) + 2 ≤ size free)%nat →
  ∃ ms' ar a' m' path' free' used', sys_framebuffer (base * 4096) fb_len (mkMm a m) ms = Done (FB_VADDR, ms', mkMm a' m') ∧
    pt_state a' m' (root_ppn (page_table ms')) (pt_frames (page_table ms')) path' free' used' ∧
    areas ms' = areas ms ++ [ar] ∧ (∀ v f, (v, f) ∈ data_frames ar → nodrop f = true) ∧
    (∀ v, 0 ≤ vpn v < 2 ^ 27 → mapping m' (page_table ms') v =
       if decide (FB_VPN ≤ vpn v < FB_VPN + fb_pages fb_len) then Some (PTE_new (PPN (base + (vpn v - FB_VPN))) 23)
       else mapping m (page_table ms) v) ∧
    (∀ k, 0 ≤ k < fb_len → translate_va m' (page_table ms') (VA (FB_VADDR + k)) = Done (Some (PA (base * 4096 + k)))) ∧
    sys_framebuffer (base * 4096) fb_len (mkMm a' m') ms' = Panicked PAssert.
Proof.
  intros Hnone Hfree. pose proof (fb_pages_bounds fb_len ltac:(lia)) as (H1 & H2 & H3). set (n := fb_pages fb_len) in *.
  set (ps := (λ i, (VPN (FB_VPN + i), PPN (base + i))) <$> seqZ 0 n). set (ar0 := mkArea (mkRange (VPN FB_VPN) (VPN (FB_VPN + n))) [] Noalloc 22 Device).
  assert (Hv27 : FB_VPN + n < 2 ^ 27) by (change FB_VPN with 65536; lia). assert (Hv0 : 0 < FB_VPN) by done.
  assert (Hps : ∀ v p, (v, p) ∈ ps ↔ FB_VPN ≤ vpn v < FB_VPN + n ∧ p = PPN (base + (vpn v - FB_VPN))).
  { intros v p. unfold ps. rewrite list_elem_of_fmap. split.
    - intros (i & [= -> ->] & Hi%elem_of_seqZ). cbn. split; [lia|]. f_equal. lia.
    - intros [Hv ->]. exists (vpn v - FB_VPN). split; [|apply elem_of_seqZ; lia]. destruct v as [v]. cbn. do 2 f_equal. lia. }
  assert (Hpsl : length ps = Z.to_nat n) by (unfold ps; rewrite length_fmap, length_seqZ; done).
  assert (Hnd : NoDup ps.*1).
  { unfold ps. rewrite <- list_fmap_compose. apply NoDup_fmap_2; [|apply NoDup_seqZ]. intros i j [= E]. lia. }
  destruct (map_noalloc_spec ps a m (page_table ms) path free used ar0 S) as (pt' & ar & a' & m' & path' & free' & used' & Hrun & S' & _ & _ & _ & Hdf & Hin & Hout & _ & Hcnt);
    [by split|done| |lia|].
  { intros v p Hvp. apply Hps in Hvp as [Hv ->]. cbn [ppn]. split; [lia|]. split; [lia|]. split; [by apply Hnone|apply not_elem_of_nil]. }
  assert (Hpairs : zip (range_pages (vpn_range ar0)) (PPN <$> seqZ base n) = ps).
  { unfold range_pages. cbn [vpn_range ar0 rl rr vpn]. replace (FB_VPN + n - FB_VPN) with n by lia. apply fb_zip. lia. }
  assert (Hmap : ∀ v, 0 ≤ vpn v < 2 ^ 27 → mapping m' pt' v = if decide (FB_VPN ≤ vpn v < FB_VPN + n) then Some (PTE_new (PPN (base + (vpn v - FB_VPN))) 23) else mapping m (page_table ms) v).
  { intros v Hv. case_decide as Hd; [apply (Hin v); by apply Hps|]. apply Hout; [done|]. intros (x & -> & Hx)%list_elem_of_fmap. destruct x as [w p].
    apply Hps in Hx as [Hx _]. done. }
  exists (mkMemorySet pt' (areas ms ++ [ar])), ar, a', m', path', free', used'.
  split; [|split; [done|split; [done|split; [|split; [done|split]]]]].
  - rewrite sys_framebuffer_eq by done. unfold push_noalloc, map_noalloc. fold n. fold ar0. rewrite Hpairs, Hrun. done.
  - intros v f Hf. rewrite Hdf in Hf. cbn [data_frames ar0] in Hf. rewrite app_nil_r in Hf. by apply list_elem_of_fmap in Hf as (x & [= _ ->] & _).
  - intros k Hk. set (v := VPN ((FB_VADDR + k) / PAGE_SIZE)). assert (Hv : vpn v = FB_VPN + k / 4096).
    { cbn [vpn v]. change FB_VADDR with (FB_VPN * 4096). unfold PAGE_SIZE. rewrite Z.div_add_l by done. done. }
    assert (Hvr : FB_VPN ≤ vpn v < FB_VPN + n) by (rewrite Hv; clear - Hk H3; dlia).
    assert (Hm' : mapping m' pt' v = Some (PTE_new (PPN (base + (vpn v - FB_VPN))) 23)) by (rewrite Hmap by lia; by rewrite decide_True).
    destruct (translate_mapped a' m' pt' path' free' used' v _ S' Hm') as [_ Ht]. cbn [page_table]. rewrite (Ht (VA (FB_VADDR + k)) eq_refl).
    rewrite PTE_ppn_new by (cbn [ppn]; lia). unfold PhysAddr_of_page, VirtAddr_page_offset, PhysAddr_from. cbn [va pa ppn].
    rewrite page_offset_eq, mask_land by done. rewrite Z.shiftl_mul_pow2 by by cbn. change (2 ^ PAGE_SIZE_BITS) with 4096. change PA_WIDTH_SV39 with 56.
    assert (Eoff : (FB_VADDR + k) mod 4096 = k mod 4096) by (change FB_VADDR with (65536 * 4096); clear; dlia).
    rewrite Eoff, Hv. replace (FB_VPN + k / 4096 - FB_VPN) with (k / 4096) by lia.
    assert (Hk2 : k / 4096 * 4096 + k mod 4096 = k) by (clear; dlia).
    rewrite (wrap_small 64 ((base + k / 4096) * 4096)) by lia. rewrite wrap_small by (clear - Hk2 Hk Hb Hp H3; dlia). rewrite Z.mod_small by (clear - Hk2 Hk Hb Hp H3; dlia).
    do 3 f_equal. lia.
  - rewrite sys_framebuffer_eq by done. unfold push_noalloc, map_noalloc. fold n. fold ar0. rewrite Hpairs. cbn [page_table].
    assert (Ep0 : ps = (VPN FB_VPN, PPN base) :: ((λ i, (VPN (FB_VPN + i), PPN (base + i))) <$> seqZ 1 (n - 1))).
    { unfold ps. rewrite (seqZ_cons 0 n) by lia. cbn [fmap list_fmap]. rewrite !Z.add_0_r. by replace (Z.succ 0) with 1 by lia. }
    assert (Hm0 : is_Some (mapping m' pt' (VPN FB_VPN))) by (rewrite Hmap by (cbn; lia); rewrite decide_True by (cbn; lia); by eexists).
    rewrite Ep0. erewrite map_noalloc_mapped; [done|exact S'|by split|cbn; lia|cbn; lia| |exact Hm0|done]. lia.
Qed.
End framebuffer.

Lemma framebuffer_is_shown_witness :
  ∃ (a : StackFrameAllocator) m ms ms' a' m', sys_framebuffer (0x9000 * 4096) 5000 (mkMm a m) ms = Done (0x10000000, ms', mkMm a' m') ∧
    translate_va m' (page_table ms') (VA (0x10000000 + 4100)) = Done (Some (PA (0x9000 * 4096 + 4100))).
Proof.
  destruct PageTableWitness.table as (pt & a & m & S & _ & Hsz & Hm).
  destruct (framebuffer_is_shown a m (mkMemorySet pt []) _ _ _ 0x9000 5000 S) as (ms' & ar & a' & m' & path' & free' & used' & Hrun & _ & _ & _ & _ & Ht & _).
  - lia.
  - lia.
  - by vm_compute.
  - intros v Hv. apply Hm. change FB_VPN with 65536 in Hv. change (fb_pages 5000) with 2 in Hv. lia.
  - change (fb_pages 5000) with 2. lia.
  - exists a, m, (mkMemorySet pt []), ms', a', m'. split; [exact Hrun|]. apply Ht. lia.
Defined.
