(* ===== verification/Fork.v ===== *)
(** * Fork.v: address spaces, and their copies ([MemorySet::from_existed_user] of
    [os/src/mm/memory_set.rs])

    [space m ms] says that a memory set is the address space its areas describe; [copy_areas] makes
    another one with the same contents on frames of its own. *)

From S2P Require Import Prelude Bytes Address FrameAlloc PageTable MemorySet.

(** The pages of some areas. *)
Definition area_pages (ars : list MapArea) : list VirtPageNum := ars ≫= λ ar, range_pages (vpn_range ar).

Lemma area_pages_cons ar ars : area_pages (ar :: ars) = range_pages (vpn_range ar) ++ area_pages ars.
Proof. done. Qed.

Lemma elem_of_area_pages v ars : v ∈ area_pages ars ↔ ∃ ar, ar ∈ ars ∧ v ∈ range_pages (vpn_range ar).
Proof. unfold area_pages. rewrite list_elem_of_bind. split; intros (ar & ? & ?); by exists ar. Qed.

(** ** Copying the bytes of pages *)

Section copy_pages.
Context {A : Type} `{FrameAllocator A} (a : A).
Context (src dst : PageTable) (ps pd : gmap PhysPageNum (list Z)) (gs gd : VirtPageNum → PhysPageNum).

(** The pages [vs] are mapped to frames of memory outside both tables, and no frame written is read
    or written twice. *)
Record copyable (m : memory) (vs : list VirtPageNum) : Prop := {
  cp_src : tree m (root_ppn src) ps;
  cp_dst : tree m (root_ppn dst) pd;
  cp_map : ∀ v, v ∈ vs → (∃ e, mapping m src v = Some e ∧ PTE_ppn e = gs v) ∧ (∃ e, mapping m dst v = Some e ∧ PTE_ppn e = gd v);
  cp_mem : ∀ v, v ∈ vs → is_Some (m !! gs v) ∧ is_Some (m !! gd v) ∧ ps !! gd v = None ∧ pd !! gd v = None;
  cp_apart : ∀ v w, v ∈ vs → w ∈ vs → gd v ≠ gs w ∧ (gd v = gd w → v = w);
}.

Lemma copy_pages_spec vs : NoDup vs → ∀ m, copyable m vs →
  ∃ m', copy_pages (mkMm a m) src dst vs = Done (mkMm a m') ∧ wf_memory m' ∧ dom m' = dom m ∧
    (∀ v, v ∈ vs → m' !! gd v = m !! gs v) ∧ (∀ r, r ∉ gd <$> vs → m' !! r = m !! r).
Proof.
  induction 1 as [|v vs Hv Hnd IH]; intros m C.
  { exists m. split; [done|]. split; [apply C|]. split; [done|]. split; [|done]. intros v Hv. by apply not_elem_of_nil in Hv. }
  destruct C as [Ts Td Cm Cf Ca]. destruct (Cm v ltac:(by left)) as [(es & Hes & Ees) (ed & Hed & Eed)].
  destruct (Cf v ltac:(by left)) as ([b Hb] & [b0 Hb0] & Hps & Hpd).
  pose proof (tr_wf _ _ _ Ts) as Hwf. destruct (map_Forall_lookup_1 _ _ _ _ Hwf Hb) as [Lb Bb]. destruct (map_Forall_lookup_1 _ _ _ _ Hwf Hb0) as [Lb0 _].
  cbn [copy_pages mm_mem mm_alloc]. rewrite (proj1 (translate_tree m src ps v es Ts Hes)), outcome_bind_Done. cbn [unwrap]. rewrite outcome_bind_Done.
  rewrite (proj1 (translate_tree m dst pd v ed Td Hed)), outcome_bind_Done. cbn [unwrap]. rewrite outcome_bind_Done, Ees, Eed, Hb. cbn [unwrap].
  rewrite outcome_bind_Done. unfold write_bytes. rewrite Hb0. cbn [unwrap]. rewrite outcome_bind_Done, splice_all by congruence.
  cbn [mret outcome_ret]. rewrite outcome_bind_Done. set (m1 := <[gd v := b]> m).
  assert (Hwf1 : wf_memory m1) by (apply map_Forall_insert_2; done).
  assert (Hs1 : ∀ p x, ps !! p = Some x → m1 !! p = m !! p) by (intros p x Hp; apply lookup_insert_ne; congruence).
  assert (Hd1 : ∀ p x, pd !! p = Some x → m1 !! p = m !! p) by (intros p x Hp; apply lookup_insert_ne; congruence).
  assert (Hdom : dom m1 = dom m) by by apply dom_insert_lookup_L.
  assert (Hin : ∀ p, is_Some (m1 !! p) ↔ is_Some (m !! p)) by (intros p; by rewrite <- !elem_of_dom, Hdom).
  destruct (IH m1) as (m' & Hrun & Hwf' & Hdom' & Hc & Ho).
  { split.
    - by apply (outside_tree m).
    - by apply (outside_tree m).
    - intros w Hw. rewrite (outside_mapping m m1 _ ps Ts Hwf1 Hs1 src w eq_refl), (outside_mapping m m1 _ pd Td Hwf1 Hd1 dst w eq_refl). apply Cm. by right.
    - intros w Hw. rewrite !Hin. apply Cf. by right.
    - intros w1 w2 H1 H2. apply Ca; by right. }
  exists m'. split; [exact Hrun|]. split; [done|]. split; [congruence|]. split.
  - intros w [->|Hw]%elem_of_cons.
    + rewrite Ho; [unfold m1; by rewrite lookup_insert_eq|]. intros (w & E & Hw)%list_elem_of_fmap.
      destruct (Ca v w) as [_ Hi]; [by left|by right|]. apply Hv. by rewrite (Hi E).
    + rewrite Hc by done. apply lookup_insert_ne. destruct (Ca v w) as [Hne _]; [by left|by right|done].
  - intros r Hr. cbn [fmap list_fmap] in Hr. apply not_elem_of_cons in Hr as [Hr1 Hr]. rewrite Ho by done. by apply lookup_insert_ne.
Qed.
End copy_pages.

(** ** Copying areas *)

(** The areas [ars], on the frames [gs], in a table [src] that has nothing in [free] or in the tables
    [path]. *)
Record source (m : memory) (src : PageTable) (ps : gmap PhysPageNum (list Z)) (gs : VirtPageNum → PhysPageNum)
    (free : gset PhysPageNum) (path : gmap PhysPageNum (list Z)) (ars : list MapArea) : Prop := {
  so_tree : tree m (root_ppn src) ps;
  so_tables : ∀ p, p ∈ dom ps → p ∉ free ∧ path !! p = None;
  so_area : ∀ ar, ar ∈ ars → map_type ar = Framed ∧ perm_ok (map_perm ar) ∧
    0 ≤ vpn (rl (vpn_range ar)) ≤ vpn (rr (vpn_range ar)) ∧ vpn (rr (vpn_range ar)) ≤ 2 ^ 27;
  so_page : ∀ ar v, ar ∈ ars → v ∈ range_pages (vpn_range ar) →
    mapping m src v = Some (PTE_new (gs v) (Z.lor (map_perm ar) PTE_V)) ∧ gs v ∉ free ∧ path !! gs v = None ∧
    is_Some (m !! gs v) ∧ 0 ≤ ppn (gs v) < 2 ^ 44;
  so_nodup : NoDup (area_pages ars);
}.

(** Nothing but free frames changed. *)
Definition kept (m m' : memory) (free : gset PhysPageNum) (path path' : gmap PhysPageNum (list Z)) : Prop :=
  ∀ p, p ∉ free → path !! p = None → m' !! p = m !! p ∧ path' !! p = None.

Lemma source_kept m m' src ps gs free free' path path' ars ars' : source m src ps gs free path ars →
  (∀ ar, ar ∈ ars' → ar ∈ ars) → NoDup (area_pages ars') →
  kept m m' free path path' → free' ⊆ free → wf_memory m' → source m' src ps gs free' path' ars'.
Proof.
  intros [T Ht Ha Hp _] Hin Hn K Hf Hwf.
  assert (Hs : ∀ p x, ps !! p = Some x → m' !! p = m !! p).
  { intros p x Hx. destruct (Ht p) as [H1 H2]; [by eapply elem_of_dom_2|]. by destruct (K p H1 H2). }
  split; try done.
  - by apply (outside_tree m).
  - intros p Hx. destruct (Ht p Hx) as [H1 H2]. split; [set_solver|]. by apply K.
  - intros b Hb. by apply Ha, Hin.
  - intros b v Hb Hv. destruct (Hp b v (Hin b Hb) Hv) as (Hm & H1 & H2 & H3 & H4).
    rewrite (outside_mapping m m' _ ps T Hwf Hs src v eq_refl). destruct (K _ H1 H2) as [-> ->]. split; [done|]. split; [set_solver|done].
Qed.

Lemma held_ext m pt path used perm ar g h : held m pt path used perm ar g → (∀ v, v ∈ range_pages (vpn_range ar) → h v = g v) →
  held m pt path used perm ar h.
Proof.
  intros [Ht Hp Hr Hf Hm Hi Hfr] E. split; try done.
  - rewrite Hf. apply Permutation_refl', list_fmap_ext. intros i v Hv. by rewrite E by by eapply list_elem_of_lookup_2.
  - intros v Hv. rewrite E by done. by apply Hm.
  - intros v w Hv Hw. rewrite !E by done. by apply Hi.
  - intros v Hv. rewrite E by done. by apply Hfr.
Qed.

Section copy.
Context {A : Type} `{FrameAllocatorLaws A}.

(** What copying the areas [ars] does to the space [ms] that is made; [g] are the new frames. *)
Record copied (m m' : memory) (ms ms' : MemorySet) (path path' : gmap PhysPageNum (list Z)) (free free' used used' : gset PhysPageNum)
    (gs g : VirtPageNum → PhysPageNum) (ars : list MapArea) : Prop := {
  co_root : root_ppn (page_table ms') = root_ppn (page_table ms);
  co_areas : ∃ new, areas ms' = areas ms ++ new ∧
    Forall2 (λ ar ar', vpn_range ar' = vpn_range ar ∧ held m' (page_table ms') path' used' (map_perm ar) ar' g) ars new;
  co_other : ∀ v, 0 ≤ vpn v < 2 ^ 27 → v ∉ area_pages ars → mapping m' (page_table ms') v = mapping m (page_table ms) v;
  co_page : ∀ v, v ∈ area_pages ars → g v ∈ free ∧ g v ∉ free' ∧ m' !! g v = m !! gs v;
  co_inj : ∀ v w, v ∈ area_pages ars → w ∈ area_pages ars → g v = g w → v = w;
  co_sets : free' ⊆ free ∧ used ⊆ used' ∧ used' ∪ free' = used ∪ free;
  co_kept : kept m m' free path path';
  co_size : (size free ≤ size free' + 3 * length (area_pages ars))%nat;
}.

(** One area: its pages are mapped to new frames, then filled. *)
Lemma copy_area_spec a m src ps gs ms path free used ar ars :
  pt_state a m (root_ppn (page_table ms)) (pt_frames (page_table ms)) path free used →
  source m src ps gs free path (ar :: ars) →
  (∀ v, v ∈ range_pages (vpn_range ar) → mapping m (page_table ms) v = None) →
  (3 * length (range_pages (vpn_range ar)) ≤ size free)%nat →
  ∃ ms' a' m1 m' path' free' used' new g,
    push (mkMm a m) ms (mkArea (vpn_range ar) [] (map_type ar) (map_perm ar) (section_type ar)) None = Done (ms', mkMm a' m1) ∧
    copy_pages (mkMm a' m1) src (page_table ms') (range_pages (vpn_range ar)) = Done (mkMm a' m') ∧
    pt_state a' m' (root_ppn (page_table ms')) (pt_frames (page_table ms')) path' free' used' ∧
    areas ms' = areas ms ++ [new] ∧ vpn_range new = vpn_range ar ∧ held m' (page_table ms') path' used' (map_perm ar) new g ∧
    copied m m' ms ms' path path' free free' used used' gs g [ar].
Proof.
  intros S So Hnone Hsz. destruct (so_area _ _ _ _ _ _ _ So ar ltac:(by left)) as (Hty & Hpe & Hl & Hr). rewrite Hty.
  destruct (push_framed_spec a m ms path free used (vpn_range ar) (map_perm ar) (section_type ar) S)
    as (ms' & a' & m1 & path' & free' & used' & new & g & Hrun & S' & I); [lia|done|done|done|done|].
  pose proof (in_held _ _ _ _ _ _ _ _ _ _ _ _ _ _ I) as Hh. pose proof (in_rg _ _ _ _ _ _ _ _ _ _ _ _ _ _ I) as Erg.
  destruct (in_sets _ _ _ _ _ _ _ _ _ _ _ _ _ _ I) as (Hsub & Hun & [Hus _] & _).
  assert (K1 : kept m m1 free path path') by (intros p H1 H2; by apply (in_frame _ _ _ _ _ _ _ _ _ _ _ _ _ _ I)).
  pose proof (ps_tree _ _ _ _ _ _ _ S') as T'.
  assert (So1 : source m1 src ps gs free' path' [ar]).
  { eapply (source_kept m); [exact So| | |exact K1|done|apply T'].
    - intros b ->%list_elem_of_singleton. by left.
    - unfold area_pages. cbn. rewrite app_nil_r. apply NoDup_range_pages. }
  pose proof (ps_used _ _ _ _ _ _ _ S) as Hpu.
  assert (Hdis : ∀ v w, v ∈ range_pages (vpn_range ar) → w ∈ range_pages (vpn_range ar) → g v ≠ gs w).
  { intros v w Hv Hw E. destruct (in_new _ _ _ _ _ _ _ _ _ _ _ _ _ _ I v Hv) as [Hg _]. rewrite E in Hg.
    by destruct (so_page _ _ _ _ _ _ _ So ar w ltac:(by left) Hw) as (_ & ? & _). }
  assert (Hflag : 0 ≤ Z.lor (map_perm ar) PTE_V < 2 ^ 8) by by apply flags_or_V.
  destruct (copy_pages_spec a' src (page_table ms') ps path' gs g (range_pages (vpn_range ar)) (NoDup_range_pages _) m1)
    as (m' & Hcp & Hwf' & Hdom & Hc & Ho).
  { split; [apply So1|done| | |].
    - intros v Hv. destruct (so_page _ _ _ _ _ _ _ So1 ar v ltac:(by left) Hv) as (Hm & _ & _ & _ & Hb). rewrite <- Erg in Hv.
      destruct (h_frame _ _ _ _ _ _ _ Hh v Hv) as (_ & _ & _ & Hgb). split; eexists; (split; [|by apply PTE_ppn_new]); [done|]. by apply Hh.
    - intros v Hv. destruct (so_page _ _ _ _ _ _ _ So1 ar v ltac:(by left) Hv) as (_ & _ & _ & Hs & _). split; [done|].
      destruct (in_new _ _ _ _ _ _ _ _ _ _ _ _ _ _ I v Hv) as [Hgf Hz]. split; [by rewrite Hz|]. split.
      + apply not_elem_of_dom. intros Hin. by destruct (so_tables _ _ _ _ _ _ _ So _ Hin).
      + rewrite <- Erg in Hv. by apply (h_frame _ _ _ _ _ _ _ Hh).
    - intros v w Hv Hw. split; [by apply Hdis|]. rewrite <- Erg in Hv, Hw. by apply (h_inj _ _ _ _ _ _ _ Hh). }
  assert (Hpath : ∀ p x, path' !! p = Some x → m' !! p = m1 !! p).
  { intros p x Hx. apply Ho. intros (v & -> & Hv)%list_elem_of_fmap. rewrite <- Erg in Hv.
    destruct (h_frame _ _ _ _ _ _ _ Hh v Hv) as (_ & E & _). congruence. }
  assert (Hmap : ∀ v, mapping m' (page_table ms') v = mapping m1 (page_table ms') v).
  { intros v. by apply (outside_mapping m1 m' _ path' T' Hwf' Hpath). }
  assert (Hgf' : ∀ v, v ∈ range_pages (vpn_range ar) → g v ∉ free').
  { intros v Hv Hf. rewrite <- Erg in Hv. destruct (h_frame _ _ _ _ _ _ _ Hh v Hv) as (Hu & _).
    by apply (fa_disjoint _ _ _ (ps_alloc _ _ _ _ _ _ _ S') (g v)). }
  exists ms', a', m1, m', path', free', used', new, g. split; [done|]. split; [done|]. split; [|split; [apply I|split; [done|]]].
  - split; try apply S'.
    + by apply (outside_tree m1).
    + intros f Hf. destruct (ps_free _ _ _ _ _ _ _ S' f Hf) as [Hs Hb]. split; [|done]. by rewrite <- elem_of_dom, Hdom, elem_of_dom.
  - assert (Hh' : held m' (page_table ms') path' used' (map_perm ar) new g).
    { apply (held_weaken _ _ _ _ _ _ _ _ _ _ _ Hh); [done|]. intros v Hv. destruct (h_frame _ _ _ _ _ _ _ Hh v Hv) as (? & ? & Hs & _).
      do 2 (split; [done|]). by rewrite <- elem_of_dom, Hdom, elem_of_dom. }
    split; [done|]. assert (Hap : area_pages [ar] = range_pages (vpn_range ar)) by (unfold area_pages; cbn; apply app_nil_r).
    split; rewrite ?Hap; try done.
    + apply I.
    + exists [new]. split; [apply I|]. apply Forall2_cons. split; [by split|by constructor].
    + intros v Hv Hnv. rewrite Hmap, (in_map _ _ _ _ _ _ _ _ _ _ _ _ _ _ I v Hv). by rewrite decide_False.
    + intros v Hv. destruct (in_new _ _ _ _ _ _ _ _ _ _ _ _ _ _ I v Hv) as [Hgf _]. split; [done|]. split; [by apply Hgf'|].
      rewrite Hc by done. destruct (so_page _ _ _ _ _ _ _ So ar v ltac:(by left) Hv) as (_ & H1 & H2 & _). by destruct (K1 _ H1 H2).
    + intros v w Hv Hw. rewrite <- Erg in Hv, Hw. by apply (h_inj _ _ _ _ _ _ _ Hh).
    + intros p H1 H2. destruct (K1 p H1 H2) as [E1 E2]. split; [|done]. rewrite Ho; [done|].
      intros (v & -> & Hv)%list_elem_of_fmap. by destruct (in_new _ _ _ _ _ _ _ _ _ _ _ _ _ _ I v Hv).
    + apply I.
Qed.

(** The areas one after the other. *)
Lemma copied_cons m m1 m2 ms ms1 ms2 src ps path path1 path2 free free1 free2 used used1 used2 gs g1 g2 ar new ars :
  source m src ps gs free path (ar :: ars) →
  areas ms1 = areas ms ++ [new] → vpn_range new = vpn_range ar → held m1 (page_table ms1) path1 used1 (map_perm ar) new g1 →
  copied m m1 ms ms1 path path1 free free1 used used1 gs g1 [ar] →
  copied m1 m2 ms1 ms2 path1 path2 free1 free2 used1 used2 gs g2 ars →
  copied m m2 ms ms2 path path2 free free2 used used2 gs (λ v, if decide (v ∈ range_pages (vpn_range ar)) then g1 v else g2 v) (ar :: ars).
Proof.
  intros So Ea Erg Hh C1 C2. destruct C1 as [R1 _ O1 P1 I1 (F1 & U1 & W1) K1 Z1]. destruct C2 as [R2 (news & A2 & H2) O2 P2 I2 (F2 & U2 & W2) K2 Z2].
  assert (Hap : area_pages [ar] = range_pages (vpn_range ar)) by (unfold area_pages; cbn; apply app_nil_r). rewrite Hap in *.
  pose proof (so_nodup _ _ _ _ _ _ _ So) as Hn. rewrite area_pages_cons in Hn. apply NoDup_app in Hn as (_ & Hapart & _).
  assert (Hg2 : ∀ v, v ∈ area_pages ars → (if decide (v ∈ range_pages (vpn_range ar)) then g1 v else g2 v) = g2 v).
  { intros v Hv. rewrite decide_False; [done|]. intros Hv'. by apply (Hapart v). }
  split.
  - congruence.
  - exists (new :: news). split; [by rewrite A2, Ea, <- app_assoc|]. apply Forall2_cons. split; [split; [done|]|].
    + assert (Hold : held m2 (page_table ms2) path2 used2 (map_perm ar) new g1).
      { apply (held_stable _ _ _ _ _ _ _ _ _ _ _ Hh); intros v Hv.
        - apply O2; [by apply (h_range _ _ _ _ _ _ _ Hh)|]. rewrite Erg in Hv. by apply Hapart.
        - destruct (h_frame _ _ _ _ _ _ _ Hh v Hv) as (Hu & Hp & _). split; [by apply U2|].
          rewrite Erg in Hv. destruct (K2 (g1 v)) as [-> ->]; [by apply P1|done|done]. }
      apply (held_ext _ _ _ _ _ _ _ _ Hold). intros v Hv. rewrite Erg in Hv. by rewrite decide_True.
    + apply Forall2_same_length_lookup_2; [by eapply Forall2_length|]. intros i b b' Hi Hi'.
      destruct (Forall2_lookup_lr _ _ _ _ _ _ H2 Hi Hi') as [Eb Hb']. apply list_elem_of_lookup_2 in Hi as Hb. split; [done|]. apply (held_ext _ _ _ _ _ _ _ _ Hb').
      intros v Hv. apply Hg2. rewrite Eb in Hv. apply elem_of_area_pages. by exists b.
  - intros v Hv Hnv. rewrite area_pages_cons, not_elem_of_app in Hnv. destruct Hnv. by rewrite O2, O1.
  - intros v [Hv|Hv]%elem_of_app.
    + rewrite decide_True by done. destruct (P1 v Hv) as (Hf & Hnf & Hm). split; [done|]. split; [set_solver|].
      rewrite <- Erg in Hv. destruct (h_frame _ _ _ _ _ _ _ Hh v Hv) as (_ & Hp & _). destruct (K2 (g1 v) Hnf Hp) as [-> _]. done.
    + rewrite Hg2 by done. destruct (P2 v Hv) as (Hf & Hnf & Hm). split; [set_solver|]. split; [done|]. rewrite Hm.
      apply elem_of_area_pages in Hv as (b & Hb & Hv). destruct (so_page _ _ _ _ _ _ _ So b v ltac:(by right) Hv) as (_ & Ho1 & Ho2 & _).
      by destruct (K1 _ Ho1 Ho2).
  - intros v w [Hv|Hv]%elem_of_app [Hw|Hw]%elem_of_app E; try rewrite (Hg2 v Hv) in E; try rewrite (Hg2 w Hw) in E; try rewrite (decide_True _ _ Hv) in E; try rewrite (decide_True _ _ Hw) in E.
    + by apply I1.
    + exfalso. destruct (P1 v Hv) as (_ & Hnf & _). destruct (P2 w Hw) as (Hf & _). by rewrite E in Hnf.
    + exfalso. destruct (P1 w Hw) as (_ & Hnf & _). destruct (P2 v Hv) as (Hf & _). by rewrite <- E in Hnf.
    + by apply I2.
  - split; [set_solver|]. split; [set_solver|congruence].
  - intros p Hp1 Hp2. destruct (K1 p Hp1 Hp2) as [E1 E2]. destruct (K2 p) as [E3 E4]; [set_solver|done|]. split; [congruence|done].
  - rewrite area_pages_cons, length_app. lia.
Qed.

Lemma copy_areas_spec src ps gs ars : ∀ a m ms path free used,
  pt_state a m (root_ppn (page_table ms)) (pt_frames (page_table ms)) path free used →
  source m src ps gs free path ars →
  (∀ v, v ∈ area_pages ars → mapping m (page_table ms) v = None) →
  (3 * length (area_pages ars) ≤ size free)%nat →
  ∃ ms' a' m' path' free' used' g,
    copy_areas (mkMm a m) src ms ars = Done (ms', mkMm a' m') ∧
    pt_state a' m' (root_ppn (page_table ms')) (pt_frames (page_table ms')) path' free' used' ∧
    copied m m' ms ms' path path' free free' used used' gs g ars.
Proof.
  induction ars as [|ar ars IH]; intros a m ms path free used S So Hnone Hsz.
  { exists ms, a, m, path, free, used, (λ _, PPN 0). split; [done|]. split; [done|]. split; try done.
    - exists []. by rewrite app_nil_r. 
    - intros v Hv. by apply not_elem_of_nil in Hv.
    - intros v w Hv. by apply not_elem_of_nil in Hv.
    - cbn. lia. }
  rewrite area_pages_cons, length_app in Hsz. rewrite area_pages_cons in Hnone.
  pose proof (so_nodup _ _ _ _ _ _ _ So) as Hn. rewrite area_pages_cons in Hn. apply NoDup_app in Hn as (_ & Hapart & Hn).
  destruct (copy_area_spec a m src ps gs ms path free used ar ars S So)
    as (ms1 & a1 & mp & m1 & path1 & free1 & used1 & new & g1 & Hpush & Hcp & S1 & Ea & Erg & Hh & C1);
    [intros v Hv; apply Hnone, elem_of_app; by left|lia|].
  pose proof (co_size _ _ _ _ _ _ _ _ _ _ _ _ _ C1) as Hs1. rewrite (area_pages_cons ar []), app_nil_r in Hs1.
  destruct (so_area _ _ _ _ _ _ _ So ar ltac:(by left)) as (_ & _ & Hl & _).
  destruct (IH a1 m1 ms1 path1 free1 used1 S1) as (ms2 & a2 & m2 & path2 & free2 & used2 & g2 & Hrun & S2 & C2).
  - eapply (source_kept m); [exact So|by right|done|apply C1|apply C1|apply (ps_tree _ _ _ _ _ _ _ S1)].
  - intros v Hv. assert (Hv' : v ∈ range_pages (vpn_range ar) ++ area_pages ars) by (apply elem_of_app; by right).
    rewrite (co_other _ _ _ _ _ _ _ _ _ _ _ _ _ C1); [by apply Hnone| |].
    + apply elem_of_area_pages in Hv as (b & Hb & Hv). destruct (so_area _ _ _ _ _ _ _ So b ltac:(by right)) as (_ & _ & ? & ?). apply range_pages_spec in Hv. lia.
    + unfold area_pages. cbn. rewrite app_nil_r. intros Hv2. by apply (Hapart v).
  - lia.
  - exists ms2, a2, m2, path2, free2, used2. eexists. split; [|split; [exact S2|by eapply copied_cons]].
    cbn [copy_areas]. unfold MapArea_from_another, SimpleRange_new. destruct (Z.leb_spec (vpn (rl (vpn_range ar))) (vpn (rr (vpn_range ar)))); [|lia].
    cbn [assert_that]. repeat (rewrite outcome_bind_Done || cbn [mret outcome_ret]).
    assert (Er : mkRange (rl (vpn_range ar)) (rr (vpn_range ar)) = vpn_range ar) by by destruct (vpn_range ar).
    rewrite Er, Hpush, outcome_bind_Done. cbn [page_table]. rewrite Hcp, outcome_bind_Done. exact Hrun.
Qed.
End copy.

(** ** Address spaces *)

Definition TRAMPOLINE_VPN : VirtPageNum := VPN (2 ^ 27 - 1).

(** What a user sees at a page: the flags and the bytes. *)
Definition page_view (m : memory) (ms : MemorySet) (v : VirtPageNum) : option (Z * list Z) :=
  e ← mapping m (page_table ms) v;
  b ← m !! PTE_ppn e;
  Some (PTE_flags e, b).

(** The memory set is the space its areas describe: each page of an area on a frame of its own, the
    trampoline on the frame [tp] of the kernel's code, and nothing else. *)
Record space (tp : PhysPageNum) (m : memory) (ms : MemorySet) (pm : gmap PhysPageNum (list Z)) (used : gset PhysPageNum)
    (g : VirtPageNum → PhysPageNum) : Prop := {
  sp_tree : tree m (root_ppn (page_table ms)) pm;
  sp_tables : dom pm ⊆ used;
  sp_area : ∀ ar, ar ∈ areas ms → perm_ok (map_perm ar) ∧ 0 ≤ vpn (rl (vpn_range ar)) ≤ vpn (rr (vpn_range ar)) ∧
    vpn (rr (vpn_range ar)) < 2 ^ 27 ∧ held m (page_table ms) pm used (map_perm ar) ar g;
  sp_nodup : NoDup (area_pages (areas ms));
  sp_inj : ∀ v w, v ∈ area_pages (areas ms) → w ∈ area_pages (areas ms) → g v = g w → v = w;
  sp_other : ∀ v, 0 ≤ vpn v < 2 ^ 27 → v ∉ area_pages (areas ms) →
    mapping m (page_table ms) v = if decide (v = TRAMPOLINE_VPN) then Some (PTE_new tp (Z.lor (Z.lor PTE_R PTE_X) PTE_V)) else None;
}.

Section space.
Context (tp : PhysPageNum) (Htp : 0 ≤ ppn tp < 2 ^ 44).

Lemma space_page m ms pm used g v : space tp m ms pm used g → v ∈ area_pages (areas ms) →
  ∃ ar, ar ∈ areas ms ∧ v ∈ range_pages (vpn_range ar) ∧ perm_ok (map_perm ar) ∧ 0 ≤ vpn v < 2 ^ 27 ∧
    mapping m (page_table ms) v = Some (PTE_new (g v) (Z.lor (map_perm ar) PTE_V)) ∧
    g v ∈ used ∧ pm !! g v = None ∧ is_Some (m !! g v) ∧ 0 ≤ ppn (g v) < 2 ^ 44.
Proof.
  intros S (ar & Ha & Hv)%elem_of_area_pages. destruct (sp_area _ _ _ _ _ _ S ar Ha) as (Hp & Hl & Hr & Hh). exists ar.
  do 3 (split; [done|]). split; [by apply (h_range _ _ _ _ _ _ _ Hh)|]. split; [by apply Hh|]. by apply (h_frame _ _ _ _ _ _ _ Hh).
Qed.

Lemma view_area m ms pm used g ar v : space tp m ms pm used g → ar ∈ areas ms → v ∈ range_pages (vpn_range ar) →
  page_view m ms v = (b ← m !! g v; Some (Z.lor (map_perm ar) PTE_V, b)).
Proof.
  intros S Ha Hv. destruct (sp_area _ _ _ _ _ _ S ar Ha) as (Hp & _ & _ & Hh). destruct (h_frame _ _ _ _ _ _ _ Hh v Hv) as (_ & _ & _ & Hg).
  assert (0 ≤ Z.lor (map_perm ar) PTE_V < 2 ^ 8) by by apply flags_or_V.
  unfold page_view. rewrite (h_map _ _ _ _ _ _ _ Hh v Hv). cbn [mbind option_bind]. by rewrite PTE_ppn_new, PTE_flags_new.
Qed.

Lemma view_other m ms pm used g v : space tp m ms pm used g → 0 ≤ vpn v < 2 ^ 27 → v ∉ area_pages (areas ms) →
  page_view m ms v = if decide (v = TRAMPOLINE_VPN) then b ← m !! tp; Some (Z.lor (Z.lor PTE_R PTE_X) PTE_V, b) else None.
Proof.
  intros S Hv Hn. unfold page_view. rewrite (sp_other _ _ _ _ _ _ S v Hv Hn). case_decide; [|done]. cbn [mbind option_bind].
  by rewrite PTE_ppn_new, PTE_flags_new.
Qed.

(** The space does not depend on pages of memory that are neither its tables nor its frames. *)
Lemma space_frame m m' ms pm used used' g : space tp m ms pm used g → wf_memory m' → used ⊆ used' →
  (∀ p, p ∈ dom pm → m' !! p = m !! p) → (∀ p, p ∈ used → is_Some (m !! p) → is_Some (m' !! p)) → space tp m' ms pm used' g.
Proof.
  intros [T Ht Ha Hn Hi Ho] Hwf Hu Hsame Hmem.
  assert (Hs : ∀ p x, pm !! p = Some x → m' !! p = m !! p) by (intros p x Hx; apply Hsame; by eapply elem_of_dom_2).
  assert (Hm : ∀ v, mapping m' (page_table ms) v = mapping m (page_table ms) v) by (intros v; by apply (outside_mapping m m' _ pm T)).
  split; try done.
  - by apply (outside_tree m).
  - set_solver.
  - intros ar Har. destruct (Ha ar Har) as (Hp & Hl & Hr & Hh). do 3 (split; [done|]).
    apply (held_weaken _ _ _ _ _ _ _ _ _ _ _ Hh); [by intros v _|]. intros v Hv.
    destruct (h_frame _ _ _ _ _ _ _ Hh v Hv) as (? & ? & ? & _). split; [by apply Hu|]. split; [done|]. by apply Hmem.
  - intros v Hv Hnv. rewrite Hm. by apply Ho.
Qed.

(** Neither does what it shows depend on anything but its tables and frames. *)
Lemma view_frame m m' ms pm used g : space tp m ms pm used g → wf_memory m' → (∀ p, p ∈ dom pm → m' !! p = m !! p) →
  m' !! tp = m !! tp → ∀ v, (v ∈ area_pages (areas ms) → m' !! g v = m !! g v) → 0 ≤ vpn v < 2 ^ 27 → page_view m' ms v = page_view m ms v.
Proof.
  intros S Hwf Hsame Ht v Hg Hv. pose proof (sp_tree _ _ _ _ _ _ S) as T.
  assert (Hs : ∀ p x, pm !! p = Some x → m' !! p = m !! p) by (intros p x Hx; apply Hsame; by eapply elem_of_dom_2).
  unfold page_view. rewrite (outside_mapping m m' _ pm T Hwf Hs _ v eq_refl). destruct (decide (v ∈ area_pages (areas ms))) as [Hin|Hin].
  - destruct (space_page _ _ _ _ _ _ S Hin) as (ar & _ & _ & Hp & _ & Hm & _ & _ & _ & Hb). rewrite Hm. cbn [mbind option_bind].
    rewrite PTE_ppn_new by (done || by apply flags_or_V). by rewrite Hg.
  - rewrite (sp_other _ _ _ _ _ _ S v Hv Hin). case_decide; [|done]. cbn [mbind option_bind]. rewrite PTE_ppn_new by done. by rewrite Ht.
Qed.

(** Writing a frame changes the page it is of, and no other. *)
Lemma view_write m ms pm used g f b v : space tp m ms pm used g → f ∉ dom pm → f ≠ tp → wf_page b → 0 ≤ vpn v < 2 ^ 27 → is_Some (m !! f) →
  page_view (<[f := b]> m) ms v = if decide (v ∈ area_pages (areas ms) ∧ g v = f) then option_map (λ x, (x.1, b)) (page_view m ms v) else page_view m ms v.
Proof.
  intros S Hf Ht Hb Hv Hm. assert (S' : space tp (<[f := b]> m) ms pm used g).
  { apply (space_frame m _ _ _ used); [done|apply map_Forall_insert_2; [done|apply (sp_tree _ _ _ _ _ _ S)]|done| |].
    - intros p Hp. apply lookup_insert_ne. by intros ->.
    - intros p _ Hp. destruct (decide (p = f)) as [->|]; [rewrite lookup_insert_eq; by eexists|by rewrite lookup_insert_ne]. }
  destruct (decide (v ∈ area_pages (areas ms))) as [Hin|Hin].
  - destruct (space_page _ _ _ _ _ _ S Hin) as (ar & Ha & Hr & Hp & _ & Hmv & _ & Hnt & _ & Hg).
    destruct (space_page _ _ _ _ _ _ S' Hin) as (ar' & _ & _ & _ & _ & Hmv' & _).
    assert (Emap : mapping (<[f := b]> m) (page_table ms) v = mapping m (page_table ms) v).
    { apply (outside_mapping m _ _ pm (sp_tree _ _ _ _ _ _ S)); [apply (sp_tree _ _ _ _ _ _ S')| |done].
      intros p x Hx. apply lookup_insert_ne. intros ->. apply Hf. by eapply elem_of_dom_2. }
    assert (0 ≤ Z.lor (map_perm ar) PTE_V < 2 ^ 8) by by apply flags_or_V.
    unfold page_view. rewrite Emap, Hmv. cbn [mbind option_bind]. rewrite !PTE_ppn_new, !PTE_flags_new by done.
    destruct (decide (g v = f)) as [<-|Hne].
    + rewrite lookup_insert_eq. destruct Hm as [b0 Hm]. rewrite Hm. by rewrite decide_True.
    + rewrite lookup_insert_ne by done. rewrite decide_False; [done|]. by intros [_ ?].
  - rewrite decide_False by tauto. rewrite (view_other _ _ _ _ _ _ S' Hv Hin), (view_other _ _ _ _ _ _ S Hv Hin). by rewrite lookup_insert_ne.
Qed.
End space.

(** ** [from_existed_user] *)

Section fork.
Context {A : Type} `{FrameAllocatorLaws A}.
Context (sym : Symbols) (tp : PhysPageNum) (Htp : 0 ≤ ppn tp < 2 ^ 44).
Context (Hsym : PhysPageNum_of_addr (PhysAddr_from (strampoline sym)) = Done tp).

(** A new space with the trampoline: at most three frames. *)
Lemma new_space a m free used : fa_inv a free used → wf_memory m →
  (∀ f, f ∈ free → is_Some (m !! f) ∧ 0 ≤ ppn f < 2 ^ 44) → (3 ≤ size free)%nat →
  ∃ ms0 mm0 ms a' m' path free' used',
    new_bare (mkMm a m) = Done (ms0, mm0) ∧ map_trampoline sym mm0 ms0 = Done (ms, mkMm a' m') ∧ areas ms = [] ∧
    pt_state a' m' (root_ppn (page_table ms)) (pt_frames (page_table ms)) path free' used' ∧
    kept m m' free ∅ path ∧ free' ⊆ free ∧ used ⊆ used' ∧ used' ∪ free' = used ∪ free ∧ (size free ≤ size free' + 3)%nat ∧
    ∀ v, 0 ≤ vpn v < 2 ^ 27 → mapping m' (page_table ms) v =
      if decide (v = TRAMPOLINE_VPN) then Some (PTE_new tp (Z.lor (Z.lor PTE_R PTE_X) PTE_V)) else None.
Proof.
  intros I Hwf Hfree Hsz. unfold new_bare. cbn [mm_alloc mm_mem].
  destruct (PageTable_new_spec a m free used I Hwf) as (pt & a1 & m1 & Hnew & S1 & Hroot & Hm1 & Hnone); [lia|done|].
  rewrite Hnew, outcome_bind_Done. cbn [mret outcome_ret]. eexists _, _. set (ms0 := mkMemorySet pt []).
  pose proof (PageTable_map_spec a1 m1 pt _ _ _ TRAMPOLINE_VPN tp (Z.lor PTE_R PTE_X) S1) as Hm. rewrite Hnone in Hm by (cbn; lia).
  assert (Hs1 : size (free ∖ {[root_ppn pt]}) = (size free - 1)%nat) by (rewrite size_difference, size_singleton by set_solver; done).
  destruct Hm as (pt2 & a2 & m2 & path2 & free2 & used2 & Hmap & _ & S2 & Hm2 & Hf2 & Hsub & Hun & [Hus _] & _ & Hd2 & Hc); [done|done|done|lia|].
  exists (mkMemorySet pt2 []), a2, m2, path2, free2, used2. split; [done|]. split.
  { unfold map_trampoline. change (VirtPageNum_of_addr (VirtAddr_from TRAMPOLINE)) with (Done TRAMPOLINE_VPN). rewrite outcome_bind_Done.
    rewrite Hsym, outcome_bind_Done. unfold pt_map. cbn [mm_alloc mm_mem page_table ms0]. rewrite Hmap. done. }
  split; [done|]. split; [exact S2|]. split; [|split; [set_solver|split; [set_solver|split; [|split; [lia|]]]]].
  - intros p Hp _. assert (Hne : p ≠ root_ppn pt) by congruence. split.
    + rewrite Hf2; [by apply Hm1|set_solver|by rewrite lookup_singleton_ne].
    + apply not_elem_of_dom. intros Hin%Hd2. set_solver.
  - rewrite Hun. by apply take_one.
  - intros v Hv. cbn [page_table]. rewrite Hm2 by done. by rewrite Hnone.
Qed.

(** The areas of a space can be copied. *)
Lemma space_source m us ps used g free : space tp m us ps used g → free ## used →
  source m (page_table us) ps g free ∅ (areas us).
Proof.
  intros S Hd. split; [apply S| |intros ar Ha|intros ar v Ha Hv|apply S].
  - intros p Hp. split; [|apply lookup_empty]. intros Hf. apply (Hd p); [done|]. by apply (sp_tables _ _ _ _ _ _ S).
  - destruct (sp_area _ _ _ _ _ _ S ar Ha) as (Hp & Hl & Hr & Hh). split; [apply Hh|]. do 2 (split; [done|]). lia.
  - destruct (sp_area _ _ _ _ _ _ S ar Ha) as (_ & _ & _ & Hh). split; [by apply Hh|]. destruct (h_frame _ _ _ _ _ _ _ Hh v Hv) as (Hu & _ & Hm & Hb).
    split; [intros Hf; by apply (Hd (g v))|]. split; [apply lookup_empty|done].
Qed.

(** The space that is made of the copies. *)
Lemma copied_space a m m' ms ms' path path' free free' used used' gs g us : 
  pt_state a m' (root_ppn (page_table ms')) (pt_frames (page_table ms')) path' free' used' →
  areas ms = [] → (∀ v, 0 ≤ vpn v < 2 ^ 27 → mapping m (page_table ms) v =
      if decide (v = TRAMPOLINE_VPN) then Some (PTE_new tp (Z.lor (Z.lor PTE_R PTE_X) PTE_V)) else None) →
  copied m m' ms ms' path path' free free' used used' gs g (areas us) →
  (∀ ar, ar ∈ areas us → perm_ok (map_perm ar) ∧ 0 ≤ vpn (rl (vpn_range ar)) ≤ vpn (rr (vpn_range ar)) ∧ vpn (rr (vpn_range ar)) < 2 ^ 27) →
  NoDup (area_pages (areas us)) →
  area_pages (areas ms') = area_pages (areas us) ∧ space tp m' ms' path' used' g.
Proof.
  intros S Ha Hm C Hus Hn. destruct (co_areas _ _ _ _ _ _ _ _ _ _ _ _ _ C) as (new & En & Hnew). rewrite Ha in En. cbn in En.
  assert (Ep : area_pages (areas ms') = area_pages (areas us)).
  { rewrite En. clear -Hnew. unfold area_pages. induction Hnew as [|x y l k [E _] _ IH]; cbn; [done|]. by rewrite E, IH. }
  split; [done|]. split; rewrite ?Ep; try apply S; try apply C; [| |].
  - intros ar Har. rewrite En in Har. apply list_elem_of_lookup in Har as (i & Hi). destruct (Forall2_lookup_r _ _ _ _ _ Hnew Hi) as (b & Hb & Er & Hh).
    rewrite Er. destruct (Hus b) as (Hp & Hl & Hr); [by eapply list_elem_of_lookup_2|]. rewrite (h_perm _ _ _ _ _ _ _ Hh). done.
  - done.
  - intros v Hv Hnv. rewrite (co_other _ _ _ _ _ _ _ _ _ _ _ _ _ C) by done. by apply Hm.
Qed.

Lemma from_existed_user_spec a m us ps free used gs :
  fa_inv a free used → (∀ f, f ∈ free → is_Some (m !! f) ∧ 0 ≤ ppn f < 2 ^ 44) → tp ∉ free →
  space tp m us ps used gs → (3 * length (area_pages (areas us)) + 3 ≤ size free)%nat →
  ∃ us' a' m' pd free' used' gd,
    from_existed_user sym (mkMm a m) us = Done (us', mkMm a' m') ∧
    pt_state a' m' (root_ppn (page_table us')) (pt_frames (page_table us')) pd free' used' ∧
    free' ⊆ free ∧ used ⊆ used' ∧ used' ∪ free' = used ∪ free ∧
    space tp m' us ps used' gs ∧ space tp m' us' pd used' gd ∧ area_pages (areas us') = area_pages (areas us) ∧
    (∀ v, v ∈ area_pages (areas us) → gd v ∈ free ∧ m' !! gd v = m !! gs v) ∧
    (∀ p, p ∈ dom pd → p ∈ free) ∧
    (∀ p, p ∉ free → m' !! p = m !! p) ∧
    (∀ v, 0 ≤ vpn v < 2 ^ 27 → page_view m' us' v = page_view m us v ∧ page_view m' us v = page_view m us v) ∧
    (size free ≤ size free' + 3 * length (area_pages (areas us)) + 3)%nat.
Proof.
  intros I Hfree Hft S Hsz. pose proof (fa_disjoint _ _ _ I) as Hd.
  destruct (new_space a m free used I (tr_wf _ _ _ (sp_tree _ _ _ _ _ _ S)) Hfree) as (ms0 & mm0 & ms1 & a1 & m1 & path1 & free1 & used1 & R0 & R1 & E1 & S1 & K1 & F1 & U1 & W1 & Hc & Hm1); [lia|].
  pose proof (sp_nodup _ _ _ _ _ _ S) as Hn.
  assert (So : source m1 (page_table us) ps gs free1 path1 (areas us)).
  { eapply (source_kept m); [by apply (space_source m us ps used)|done|done|done|done|apply (ps_tree _ _ _ _ _ _ _ S1)]. }
  destruct (copy_areas_spec (page_table us) ps gs (areas us) a1 m1 ms1 path1 free1 used1 S1 So) as (us' & a' & m' & pd & free' & used' & gd & Hrun & S' & C); [|lia|].
  { intros v (ar & Ha & Hv)%elem_of_area_pages. destruct (sp_area _ _ _ _ _ _ S ar Ha) as (_ & Hl & Hr & _). apply range_pages_spec in Hv.
    rewrite Hm1 by lia. rewrite decide_False; [done|]. intros ->. cbn in Hv. lia. }
  destruct (co_sets _ _ _ _ _ _ _ _ _ _ _ _ _ C) as (F2 & U2 & W2). pose proof (co_kept _ _ _ _ _ _ _ _ _ _ _ _ _ C) as K2.
  assert (K : ∀ p, p ∉ free → m' !! p = m !! p ∧ pd !! p = None).
  { intros p Hp. destruct (K1 p Hp (lookup_empty _)) as [<- Hp1]. apply K2; [set_solver|done]. }
  destruct (copied_space a' m1 m' ms1 us' path1 pd free1 free' used1 used' gs gd us S' E1 Hm1 C) as [Ep Sp]; [|done|].
  { intros ar Ha. by destruct (sp_area _ _ _ _ _ _ S ar Ha) as (? & ? & ? & _). }
  assert (Spar : space tp m' us ps used' gs).
  { eapply (space_frame tp Htp m); [done|apply S'|set_solver| |].
    - intros p Hp. apply K. intros Hf. apply (Hd p Hf). by apply (sp_tables _ _ _ _ _ _ S).
    - intros p Hp Hm. by rewrite (proj1 (K p (λ Hf, Hd p Hf Hp))). }
  assert (Hnf : ∀ v, v ∈ area_pages (areas us) → gs v ∉ free).
  { intros v Hv Hf. destruct (space_page tp _ _ _ _ _ _ S Hv) as (_ & _ & _ & _ & _ & _ & Hu & _). by apply (Hd (gs v)). }
  assert (Hg : ∀ v, v ∈ area_pages (areas us) → gd v ∈ free ∧ m' !! gd v = m !! gs v).
  { intros v Hv. destruct (co_page _ _ _ _ _ _ _ _ _ _ _ _ _ C v Hv) as (Hf & _ & ->). split; [by apply F1|]. apply K1; [by apply Hnf|apply lookup_empty]. }
  exists us', a', m', pd, free', used', gd. split; [unfold from_existed_user; by rewrite R0, outcome_bind_Done, R1, outcome_bind_Done|].
  split; [done|]. split; [set_solver|]. split; [set_solver|]. split; [congruence|]. do 4 (split; [done|]). split; [|split; [|split]].
  - intros p Hp. destruct (decide (p ∈ free)) as [|Hf]; [done|]. destruct (K p Hf) as [_ E]. by apply not_elem_of_dom in E.
  - intros p Hp. by apply K.
  - intros v Hv. split; [|apply (view_frame tp Htp m m' us ps used gs); [done|apply S'| |by apply K|intros Hin; by apply K, Hnf|done]].
    + destruct (decide (v ∈ area_pages (areas us))) as [Hin|Hin].
      * pose proof Hin as (ar & Ha & Hr)%elem_of_area_pages. apply list_elem_of_lookup in Ha as (i & Hi).
        destruct (co_areas _ _ _ _ _ _ _ _ _ _ _ _ _ C) as (new & En & Hnew). rewrite E1 in En. cbn in En.
        destruct (Forall2_lookup_l _ _ _ _ _ Hnew Hi) as (ar' & Hi' & Er & Hh). apply list_elem_of_lookup_2 in Hi, Hi'. rewrite <- En in Hi'.
        rewrite (view_area tp m us ps used gs ar), (view_area tp m' us' pd used' gd ar') by (done || (rewrite Er; done)).
        by rewrite (proj2 (Hg v Hin)), (h_perm _ _ _ _ _ _ _ Hh).
      * rewrite (view_other tp Htp m us ps used gs), (view_other tp Htp m' us' pd used' gd) by (done || by rewrite Ep). by rewrite (proj1 (K tp Hft)).
    + intros p Hp. apply K. intros Hf. apply (Hd p Hf). by apply (sp_tables _ _ _ _ _ _ S).
  - pose proof (co_size _ _ _ _ _ _ _ _ _ _ _ _ _ C). lia.
Qed.
End fork.

(** ** Building a space *)

Section build.
Context {A : Type} `{FrameAllocatorLaws A}.
Context (tp : PhysPageNum) (Htp : 0 ≤ ppn tp < 2 ^ 44).

(** The space with the trampoline only. *)
Lemma bare_space (a : A) m ms path free used g :
  pt_state a m (root_ppn (page_table ms)) (pt_frames (page_table ms)) path free used → areas ms = [] →
  (∀ v, 0 ≤ vpn v < 2 ^ 27 → mapping m (page_table ms) v =
     if decide (v = TRAMPOLINE_VPN) then Some (PTE_new tp (Z.lor (Z.lor PTE_R PTE_X) PTE_V)) else None) →
  space tp m ms path used g.
Proof.
  intros S Ha Hm. split; rewrite ?Ha; try apply S.
  - intros ar Har. by apply not_elem_of_nil in Har.
  - constructor.
  - intros v w Hv. by apply not_elem_of_nil in Hv.
  - intros v Hv _. by apply Hm.
Qed.

(** A framed area beside the others. *)
Lemma space_push (a : A) m ms path free used g rg perm st :
  pt_state a m (root_ppn (page_table ms)) (pt_frames (page_table ms)) path free used → space tp m ms path used g →
  perm_ok perm → 0 ≤ vpn (rl rg) ≤ vpn (rr rg) → vpn (rr rg) < 2 ^ 27 →
  (∀ v, v ∈ range_pages rg → v ∉ area_pages (areas ms)) → (3 * length (range_pages rg) ≤ size free)%nat →
  ∃ ms' a' m' path' free' used' ar h,
    push (mkMm a m) ms (mkArea rg [] Framed perm st) None = Done (ms', mkMm a' m') ∧
    pt_state a' m' (root_ppn (page_table ms')) (pt_frames (page_table ms')) path' free' used' ∧
    inserted m m' ms ms' path path' free free' used used' perm rg ar h ∧
    space tp m' ms' path' used' (λ v, if decide (v ∈ range_pages rg) then h v else g v) ∧
    area_pages (areas ms') = area_pages (areas ms) ++ range_pages rg.
Proof.
  intros S Sp Hperm Hl Hr Hdis Hsz.
  destruct (push_framed_spec a m ms path free used rg perm st S) as (ms' & a' & m' & path' & free' & used' & ar & h & Hrun & S' & I); [lia|lia|done| |done|].
  { intros v Hv. rewrite (sp_other _ _ _ _ _ _ Sp); [|apply range_pages_spec in Hv; lia|by apply Hdis]. rewrite decide_False; [done|].
    intros ->. apply range_pages_spec in Hv. cbn in Hv. lia. }
  exists ms', a', m', path', free', used', ar, h. do 3 (split; [done|]).
  pose proof (in_areas _ _ _ _ _ _ _ _ _ _ _ _ _ _ I) as Ea. pose proof (in_rg _ _ _ _ _ _ _ _ _ _ _ _ _ _ I) as Erg.
  assert (Ep : area_pages (areas ms') = area_pages (areas ms) ++ range_pages rg).
  { rewrite Ea. unfold area_pages. rewrite bind_app. cbn. by rewrite app_nil_r, Erg. }
  assert (Hin : ∀ v, v ∈ area_pages (areas ms) → (if decide (v ∈ range_pages rg) then h v else g v) = g v).
  { intros v Hv. rewrite decide_False; [done|]. intros Hv'. by apply (Hdis v). }
  assert (Hh : ∀ v, v ∈ range_pages rg → h v ∈ free) by (intros v Hv; by apply (in_new _ _ _ _ _ _ _ _ _ _ _ _ _ _ I)).
  assert (Hg : ∀ v, v ∈ area_pages (areas ms) → g v ∉ free).
  { intros v Hv Hf. destruct (space_page tp _ _ _ _ _ _ Sp Hv) as (_ & _ & _ & _ & _ & _ & Hu & _). by apply (fa_disjoint _ _ _ (ps_alloc _ _ _ _ _ _ _ S) (g v)). }
  split; [|done]. split; rewrite ?Ep; try apply S'.
  - intros b [Hb|Hb%list_elem_of_singleton]%(eq_rect _ (λ l, b ∈ l → b ∈ areas ms ∨ b ∈ [ar]) (λ Hb, proj1 (elem_of_app _ _ _) Hb) _ (eq_sym Ea)).
    + destruct (sp_area _ _ _ _ _ _ Sp b Hb) as (Hp & Hlb & Hrb & Hb'). do 3 (split; [done|]).
      apply (held_ext _ _ _ _ _ _ g).
      * eapply (held_insert a m); [exact S|exact I|done|]. intros v Hv Hv'. apply (Hdis v Hv'). apply elem_of_area_pages. by exists b.
      * intros v Hv. apply Hin, elem_of_area_pages. by exists b.
    + subst b. pose proof (in_held _ _ _ _ _ _ _ _ _ _ _ _ _ _ I) as Hb. rewrite (h_perm _ _ _ _ _ _ _ Hb), Erg. do 3 (split; [done|]).
      apply (held_ext _ _ _ _ _ _ h); [done|]. intros v Hv. rewrite Erg in Hv. by rewrite decide_True.
  - apply NoDup_app. split; [apply Sp|]. split; [|apply NoDup_range_pages]. intros v Hv Hv'. by apply (Hdis v).
  - intros v w [Hv|Hv]%elem_of_app [Hw|Hw]%elem_of_app E; try rewrite (Hin v Hv) in E; try rewrite (Hin w Hw) in E; try rewrite (decide_True _ _ Hv) in E; try rewrite (decide_True _ _ Hw) in E.
    + by apply (sp_inj _ _ _ _ _ _ Sp).
    + exfalso. apply (Hg v Hv). rewrite E. by apply Hh.
    + exfalso. apply (Hg w Hw). rewrite <- E. by apply Hh.
    + rewrite <- Erg in Hv, Hw. by apply (h_inj _ _ _ _ _ _ _ (in_held _ _ _ _ _ _ _ _ _ _ _ _ _ _ I)).
  - intros v Hv Hnv. apply not_elem_of_app in Hnv as [Hn1 Hn2]. rewrite (in_map _ _ _ _ _ _ _ _ _ _ _ _ _ _ I v Hv), decide_False by done.
    by apply (sp_other _ _ _ _ _ _ Sp).
Qed.
End build.

(** ** Properties *)

(** C7. The address space [fork] makes. For a process whose areas are framed, with frames enough,
    [from_existed_user] succeeds. The child's space then shows at every page what the parent's
    showed, the same bytes with the same permissions, and the parent's shows what it did; the child's
    pages are on frames of its own that were free, so that from then on neither sees what the other
    writes; no frame in use changes, and both are again spaces that can be forked. *)
Theorem fork_copies_space sym tp (a : StackFrameAllocator) m us ps free used gs :
  PhysPageNum_of_addr (PhysAddr_from (strampoline sym)) = Done tp → 0 ≤ ppn tp < 2 ^ 44 → tp ∉ free ∪ used →
  fa_inv a free used → (∀ f, f ∈ free → is_Some (m !! f) ∧ 0 ≤ ppn f < 2 ^ 44) →
  space tp m us ps used gs → (3 * length (area_pages (areas us)) + 3 ≤ size free)%nat →
  ∃ us' a' m' pd free' used' gd,
    from_existed_user sym (mkMm a m) us = Done (us', mkMm a' m') ∧
    fa_inv a' free' used' ∧ free' ⊆ free ∧ used ⊆ used' ∧
    space tp m' us ps used' gs ∧ space tp m' us' pd used' gd ∧
    (∀ v, 0 ≤ vpn v < 2 ^ 27 → page_view m' us' v = page_view m us v ∧ page_view m' us v = page_view m us v) ∧
    (∀ v, v ∈ area_pages (areas us) → gd v ∈ free ∧ gd v ∉ used) ∧
    (∀ v w b, v ∈ area_pages (areas us) → 0 ≤ vpn w < 2 ^ 27 → wf_page b →
       page_view (<[gd v := b]> m') us w = page_view m' us w ∧ page_view (<[gs v := b]> m') us' w = page_view m' us' w) ∧
    (∀ p, p ∉ free → m' !! p = m !! p).
Proof.
  intros Hsym Htp Ht I Hfree S Hsz. apply not_elem_of_union in Ht as [Ht Ht'].
  destruct (from_existed_user_spec sym tp Htp Hsym a m us ps free used gs I Hfree Ht S Hsz)
    as (us' & a' & m' & pd & free' & used' & gd & Hrun & S' & F & U & _ & Sp & Sc & Ep & Hg & Hpd & K & Hview & _).
  pose proof (fa_disjoint _ _ _ I) as Hd. exists us', a', m', pd, free', used', gd. split; [done|]. split; [apply S'|]. do 4 (split; [done|]).
  assert (Hgs : ∀ v, v ∈ area_pages (areas us) → gs v ∈ used ∧ ps !! gs v = None ∧ is_Some (m' !! gs v)).
  { intros v Hv. destruct (space_page tp _ _ _ _ _ _ S Hv) as (_ & _ & _ & _ & _ & _ & Hu & Hp & Hm & _). do 2 (split; [done|]).
    rewrite K; [done|]. intros Hf. by apply (Hd (gs v)). }
  assert (Hnf : ∀ v, v ∈ area_pages (areas us) → gd v ∈ free ∧ gd v ∉ used).
  { intros v Hv. destruct (Hg v Hv) as [Hf _]. split; [done|]. intros Hu. by apply (Hd (gd v)). }
  split; [done|]. split; [done|]. split; [|done].
  intros v w b Hv Hw Hb. destruct (Hnf v Hv) as [Hf Hu]. destruct (Hgs v Hv) as (Hus & Hps & Hms). destruct (Hg v Hv) as [_ Em].
    assert (Hd1 : gd v ∉ dom ps) by (intros Hx; by apply Hu, (sp_tables _ _ _ _ _ _ S)).
    assert (Hd2 : gs v ∉ dom pd) by (intros Hx%Hpd; by apply (Hd (gs v))).
    assert (Ht1 : gd v ≠ tp) by (intros E; by rewrite E in Hf). assert (Ht2 : gs v ≠ tp) by (intros E; by rewrite E in Hus).
    assert (Hm1 : is_Some (m' !! gd v)) by (rewrite Em, <- K; [done|]; intros Hx; by apply (Hd (gs v))).
    split.
    + rewrite (view_write tp Htp m' us ps used' gs) by done.
      rewrite decide_False; [done|]. intros [Hin E]. apply Hu. rewrite <- E. by apply Hgs.
    + rewrite (view_write tp Htp m' us' pd used' gd) by done.
      rewrite decide_False; [done|]. rewrite Ep. intros [Hin E]. destruct (Hnf w Hin) as [_ Hx]. apply Hx. by rewrite E.
Qed.

(** A space of one page of data on the fifteen frames of [PageTableWitness]. *)
Module ForkWitness.
Definition tp : PhysPageNum := PPN 0x80200.
Definition sym : Symbols := mkSymbols 0 0 0 0 0 0 0 0 0 0x80200000.

Lemma parent : ∃ us (a : StackFrameAllocator) m ps free used g,
  fa_inv a free used ∧ (∀ f, f ∈ free → is_Some (m !! f) ∧ 0 ≤ ppn f < 2 ^ 44) ∧ tp ∉ free ∪ used ∧
  space tp m us ps used g ∧ area_pages (areas us) = [VPN 3] ∧ (6 ≤ size free)%nat.
Proof.
  destruct (new_space sym tp ltac:(by split) eq_refl PageTableWitness.a0 PageTableWitness.m0 PageTableWitness.frames ∅)
    as (ms0 & mm0 & ms & a & m & path & free & used & _ & _ & Ea & S & _ & _ & _ & W & Hsz & Hm).
  - by apply Stack_init_inv.
  - intros p b [_ <-]%lookup_gset_to_gmap_Some. apply zero_page_wf.
  - apply PageTableWitness.in_frames.
  - assert (size PageTableWitness.frames = 15%nat) as -> by by vm_compute. lia.
  - assert (size PageTableWitness.frames = 15%nat) as E15 by by vm_compute. rewrite E15 in Hsz.
    pose proof (bare_space tp a m ms path free used (λ _, PPN 0) S Ea Hm) as Sp.
    destruct (space_push tp a m ms path free used _ (mkRange (VPN 3) (VPN 4)) 22 Data S Sp) as (us & a' & m' & ps & free' & used' & ar & h & _ & S' & I & Sp' & Ep).
    + by split.
    + by split.
    + done.
    + intros v _. rewrite Ea. apply not_elem_of_nil.
    + change (length (range_pages (mkRange (VPN 3) (VPN 4)))) with 1%nat. lia.
    + eexists us, a', m', ps, free', used', _. split; [apply S'|]. split; [apply S'|]. split; [|split; [exact Sp'|split]].
      * destruct (in_sets _ _ _ _ _ _ _ _ _ _ _ _ _ _ I) as (_ & W' & _). rewrite (comm_L (∪) free'), W', W. by vm_compute.
      * rewrite Ep, Ea. done.
      * pose proof (in_size _ _ _ _ _ _ _ _ _ _ _ _ _ _ I) as Hs.
        change (length (range_pages (mkRange (VPN 3) (VPN 4)))) with 1%nat in Hs. lia.
Qed.
End ForkWitness.

Lemma fork_copies_space_witness :
  ∃ us (mm : Mm StackFrameAllocator) us' mm' x, from_existed_user ForkWitness.sym mm us = Done (us', mm') ∧
    page_view (mm_mem mm') us' (VPN 3) = Some x ∧ page_view (mm_mem mm) us (VPN 3) = Some x.
Proof.
  destruct ForkWitness.parent as (us & a & m & ps & free & used & g & I & Hf & Ht & S & Ep & Hsz).
  destruct (fork_copies_space ForkWitness.sym ForkWitness.tp a m us ps free used g) as (us' & a' & m' & pd & free' & used' & gd & Hrun & _ & _ & _ & _ & Sc & Hv & _);
    [reflexivity|by split|done|done|done|done|rewrite Ep; cbn; lia|].
  destruct (Hv (VPN 3)) as [E1 _]; [done|]. assert (H3 : VPN 3 ∈ area_pages (areas us)) by (rewrite Ep; by left).
  pose proof H3 as (ar & Ha & Hr)%elem_of_area_pages. destruct (space_page ForkWitness.tp _ _ _ _ _ _ S H3) as (_ & _ & _ & _ & _ & _ & _ & _ & [b Hb] & _).
  pose proof (view_area ForkWitness.tp m us ps used g ar (VPN 3) S Ha Hr) as E. rewrite Hb in E.
  exists us, (mkMm a m), us', (mkMm a' m'), (Z.lor (map_perm ar) PTE_V, b). split; [exact Hrun|]. cbn [mm_mem]. rewrite E1. by rewrite E.
Defined.
