(* ===== verification/ElfLoad.v ===== *)
(** * ElfLoad.v: loading a program ([MemorySet::from_elf] of [os/src/mm/memory_set.rs])

    The parser crate is a parameter; a segment is well formed when it is page aligned, fits its
    file and the lower half of the addresses. *)

From S2P Require Import Prelude Bytes Address FrameAlloc PageTable MemorySet Fork.

(** ** The loop of [copy_data] *)

(** What the loop writes to the page at the offset [s] of [data]. *)
Definition page_part (data : list Z) (s : Z) : list Z :=
  slice (Z.to_nat s) (Z.to_nat (Z.min (zlen data) (s + PAGE_SIZE) - s)) data.

Lemma length_page_part data s : 0 ≤ s → zlen (page_part data s) = Z.max 0 (Z.min (zlen data - s) PAGE_SIZE).
Proof.
  intros Hs. unfold page_part, slice, zlen. change PAGE_SIZE with 4096. rewrite length_take, length_drop. lia.
Qed.

Lemma page_part_bytes data s : bytes_ok data → bytes_ok (page_part data s).
Proof. apply bytes_ok_slice. Qed.

Section copy_loop.
Context (pt : PageTable) (path : gmap PhysPageNum (list Z)) (g : VirtPageNum → PhysPageNum) (data : list Z).

(** The [cnt] pages from [v] on are mapped to frames of memory outside the tables, each to its own. *)
Record copy_target (m : memory) (v : VirtPageNum) (cnt : Z) : Prop := {
  ct_tree : tree m (root_ppn pt) path;
  ct_range : 0 ≤ vpn v ∧ vpn v + cnt ≤ 2 ^ 27;
  ct_page : ∀ i, 0 ≤ i < cnt → (∃ e, mapping m pt (VPN (vpn v + i)) = Some e ∧ PTE_ppn e = g (VPN (vpn v + i))) ∧
    is_Some (m !! g (VPN (vpn v + i))) ∧ path !! g (VPN (vpn v + i)) = None;
  ct_inj : ∀ i j, 0 ≤ i < cnt → 0 ≤ j < cnt → g (VPN (vpn v + i)) = g (VPN (vpn v + j)) → i = j;
}.

(** How many pages the loop writes from the offset [s] on. *)
Definition parts (s : Z) : Z := Z.max 1 ((zlen data - s + (PAGE_SIZE - 1)) / PAGE_SIZE).

Lemma copy_loop_spec n : bytes_ok data → ∀ m v s, 0 ≤ s → 1 ≤ Z.of_nat n → zlen data - s ≤ PAGE_SIZE * Z.of_nat n →
  copy_target m v (parts s) →
  ∃ m', copy_loop m pt n v s data = Done m' ∧ wf_memory m' ∧ dom m' = dom m ∧
    (∀ i b, 0 ≤ i < parts s → m !! g (VPN (vpn v + i)) = Some b →
       m' !! g (VPN (vpn v + i)) = Some (splice 0 (page_part data (s + PAGE_SIZE * i)) b)) ∧
    (∀ r, (∀ i, 0 ≤ i < parts s → r ≠ g (VPN (vpn v + i))) → m' !! r = m !! r).
Proof.
  intros Hdata. induction n as [|n IH]; intros m v s Hs Hn Hlen C; [lia|].
  assert (Hp1 : 1 ≤ parts s) by (unfold parts; lia). destruct C as [T Hr Hpg Hinj].
  destruct (Hpg 0) as ((e & He & Ee) & [b Hb] & Hpb); [lia|]. rewrite Z.add_0_r in He, Ee, Hb, Hpb.
  assert (Ev : VPN (vpn v) = v) by by destruct v. rewrite Ev in *.
  pose proof (tr_wf _ _ _ T) as Hwf. destruct (map_Forall_lookup_1 _ _ _ _ Hwf Hb) as [Lb Bb].
  assert (Hlp : (0 + length (page_part data s) ≤ length b)%nat).
  { pose proof (length_page_part data s Hs) as L. unfold zlen in L. rewrite Lb. change PAGE_BYTES with (Z.to_nat 4096). change PAGE_SIZE with 4096 in L. lia. }
  cbn [copy_loop]. fold (page_part data s). rewrite (proj1 (translate_tree m pt path v e T He)), outcome_bind_Done. cbn [unwrap]. rewrite outcome_bind_Done.
  unfold write_bytes. rewrite Ee, Hb. cbn [unwrap]. rewrite outcome_bind_Done. cbn [mret outcome_ret]. rewrite outcome_bind_Done.
  set (m1 := <[g v := splice 0 (page_part data s) b]> m).
  assert (Hwf1 : wf_memory m1).
  { apply map_Forall_insert_2; [|done]. split; [by rewrite length_splice|]. apply bytes_ok_splice; [by apply page_part_bytes|done]. }
  assert (Hdom : dom m1 = dom m) by (apply dom_insert_lookup_L; by eexists).
  destruct (Z.leb_spec (zlen data) (s + PAGE_SIZE)) as [Hend|Hmore].
  - assert (E1 : parts s = 1) by (unfold parts; change PAGE_SIZE with 4096 in *; dlia).
    exists m1. split; [done|]. do 2 (split; [done|]). rewrite E1. split.
    + intros i b' Hi Hb'. replace i with 0 in * by lia. rewrite Z.add_0_r, Ev in *. rewrite Z.mul_0_r, Z.add_0_r. unfold m1. rewrite lookup_insert_eq. congruence.
    + intros r Hr'. apply lookup_insert_ne. specialize (Hr' 0 ltac:(lia)). rewrite Z.add_0_r, Ev in Hr'. done.
  - assert (E1 : parts s = parts (s + PAGE_SIZE) + 1) by (unfold parts; change PAGE_SIZE with 4096 in *; dlia).
    assert (Est : VirtPageNum_step v = VPN (vpn v + 1)) by (unfold VirtPageNum_step; by rewrite wrap_small by lia). rewrite Est.
    assert (Hsame : ∀ p x, path !! p = Some x → m1 !! p = m !! p) by (intros p x Hx; apply lookup_insert_ne; congruence).
    assert (Hs1 : ∀ i, VPN (vpn (VPN (vpn v + 1)) + i) = VPN (vpn v + (i + 1))) by (intros i; cbn [vpn]; f_equal; lia).
    destruct (IH m1 (VPN (vpn v + 1)) (s + PAGE_SIZE)) as (m' & Hrun & Hwf' & Hdom' & Hc & Ho).
    + change PAGE_SIZE with 4096; lia.
    + change PAGE_SIZE with 4096 in *; lia.
    + change PAGE_SIZE with 4096 in *; lia.
    + split; [by apply (outside_tree m)|cbn [vpn]; lia| |].
      * intros i Hi. rewrite Hs1, (outside_mapping m m1 _ path T Hwf1 Hsame pt _ eq_refl). rewrite <- elem_of_dom, Hdom, elem_of_dom. apply Hpg. lia.
      * intros i j Hi Hj. rewrite !Hs1. intros E. apply Hinj in E; lia.
    + exists m'. split; [exact Hrun|]. split; [done|]. split; [congruence|]. split.
      * intros i b' Hi Hb'. destruct (decide (i = 0)) as [->|Hne].
        -- rewrite Z.add_0_r, Ev in *. rewrite Z.mul_0_r, Z.add_0_r. rewrite Ho; [unfold m1; rewrite lookup_insert_eq; congruence|].
           intros i Hi' E. rewrite Hs1 in E. rewrite <- Ev in E at 1. rewrite <- (Z.add_0_r (vpn v)) in E at 1. apply Hinj in E; lia.
        -- specialize (Hc (i - 1) b' ltac:(lia)). rewrite Hs1, Z.sub_add in Hc. rewrite Hc.
           ++ do 3 f_equal. lia.
           ++ unfold m1. rewrite lookup_insert_ne; [done|]. intros E. rewrite <- Ev in E at 1. rewrite <- (Z.add_0_r (vpn v)) in E at 1. apply Hinj in E; lia.
      * intros r Hr'. rewrite Ho.
        -- apply lookup_insert_ne. specialize (Hr' 0 ltac:(lia)). rewrite Z.add_0_r, Ev in Hr'. done.
        -- intros i Hi. rewrite Hs1. apply Hr'. lia.
Qed.
End copy_loop.

(** ** [push] with data *)

(** The page [v] of an area that starts at [start] and was filled with [data]. *)
Definition filled_page (data : list Z) (start v : VirtPageNum) : list Z :=
  splice 0 (page_part data ((vpn v - vpn start) * PAGE_SIZE)) zero_page.

Section load.
Context {A : Type} `{FrameAllocatorLaws A}.
Context (tp : PhysPageNum) (Htp : 0 ≤ ppn tp < 2 ^ 44).

Lemma push_data_eq (mm mm' : Mm A) ms ms' ar ar' data : push mm ms ar None = Done (ms', mm') → areas ms' = areas ms ++ [ar'] →
  push mm ms ar (Some data) = (mm' ← copy_data mm' (page_table ms') ar' data; mret (ms', mm')).
Proof.
  unfold push. intros E Ea. apply outcome_bind_inv in E as ([[pt ar1] mm1] & Em & E). injection E as <- <-. cbn [areas page_table] in *.
  apply app_inv_head in Ea. injection Ea as ->. by rewrite Em.
Qed.

(** A framed area with contents beside the others. *)
(** Frames were taken, and nothing else in memory changed. *)
Record grew (m m' : memory) (path path' : gmap PhysPageNum (list Z)) (free free' used used' : gset PhysPageNum) (n : nat) : Prop := {
  ge_kept : kept m m' free path path';
  ge_free : free' ⊆ free;
  ge_used : used ⊆ used';
  ge_all : used' ∪ free' = used ∪ free;
  ge_size : (size free ≤ size free' + n)%nat;
}.

Lemma grew_trans m m1 m2 path path1 path2 free free1 free2 used used1 used2 n1 n2 :
  grew m m1 path path1 free free1 used used1 n1 → grew m1 m2 path1 path2 free1 free2 used1 used2 n2 →
  grew m m2 path path2 free free2 used used2 (n1 + n2).
Proof. clear Htp.
  intros [K1 F1 U1 A1 S1] [K2 F2 U2 A2 S2]. split; [|set_solver|set_solver|congruence|lia].
  intros p Hp Hq. destruct (K1 p Hp Hq) as [<- Hq1]. apply K2; [set_solver|done].
Qed.

Lemma space_push_data (a : A) m ms path free used g rg perm st data :
  pt_state a m (root_ppn (page_table ms)) (pt_frames (page_table ms)) path free used → space tp m ms path used g →
  perm_ok perm → 0 ≤ vpn (rl rg) < vpn (rr rg) → vpn (rr rg) < 2 ^ 27 →
  (∀ v, v ∈ range_pages rg → v ∉ area_pages (areas ms)) → (3 * length (range_pages rg) ≤ size free)%nat →
  bytes_ok data → zlen data ≤ PAGE_SIZE * (vpn (rr rg) - vpn (rl rg)) →
  ∃ ms' a' m' path' free' used' g',
    push (mkMm a m) ms (mkArea rg [] Framed perm st) (Some data) = Done (ms', mkMm a' m') ∧
    pt_state a' m' (root_ppn (page_table ms')) (pt_frames (page_table ms')) path' free' used' ∧
    space tp m' ms' path' used' g' ∧ area_pages (areas ms') = area_pages (areas ms) ++ range_pages rg ∧
    grew m m' path path' free free' used used' (3 * length (range_pages rg)) ∧
    (∀ v, (v ∈ area_pages (areas ms) → g' v = g v) ∧ (v ∈ range_pages rg → g' v ∈ free)) ∧
    (∀ v, v ∈ area_pages (areas ms) → page_view m' ms' v = page_view m ms v) ∧
    (∀ v, v ∈ range_pages rg → page_view m' ms' v = Some (Z.lor perm PTE_V, filled_page data (rl rg) v)).
Proof.
  intros S Sp Hperm Hl Hr Hdis Hsz Hdata Hlen.
  destruct (space_push tp a m ms path free used g rg perm st S Sp Hperm) as (ms' & a' & m1 & path' & free' & used' & ar & h & Hpush & S1 & I & Sp1 & Ep); [lia|done|done|done|].
  pose proof (in_held _ _ _ _ _ _ _ _ _ _ _ _ _ _ I) as Hh. pose proof (in_rg _ _ _ _ _ _ _ _ _ _ _ _ _ _ I) as Erg.
  pose proof (in_areas _ _ _ _ _ _ _ _ _ _ _ _ _ _ I) as Ea. rewrite (push_data_eq _ _ _ _ _ _ data Hpush Ea).
  unfold copy_data. rewrite bool_decide_true by apply Hh. cbn [assert_that]. rewrite outcome_bind_Done. cbn [mm_mem mm_alloc]. rewrite Erg.
  assert (Hin : ∀ i, 0 ≤ i < vpn (rr rg) - vpn (rl rg) → VPN (vpn (rl rg) + i) ∈ range_pages rg) by (intros i Hi; apply range_pages_spec; cbn; lia).
  assert (Hparts : parts data 0 ≤ vpn (rr rg) - vpn (rl rg)) by (unfold parts; change PAGE_SIZE with 4096 in *; dlia).
  assert (Hn : 1 ≤ Z.of_nat (Z.to_nat (zlen data / PAGE_SIZE + 1)) ∧ zlen data - 0 ≤ PAGE_SIZE * Z.of_nat (Z.to_nat (zlen data / PAGE_SIZE + 1))).
  { assert (0 ≤ zlen data) by apply Nat2Z.is_nonneg. change PAGE_SIZE with 4096. rewrite Z2Nat.id by dlia. dlia. }
  destruct (copy_loop_spec (page_table ms') path' h data (Z.to_nat (zlen data / PAGE_SIZE + 1)) Hdata m1 (rl rg) 0) as (m' & Hrun & Hwf & Hdom & Hc & Ho); [done|apply Hn|apply Hn| |].
  { split; [apply (ps_tree _ _ _ _ _ _ _ S1)|lia| |].
    - intros i Hi. assert (Hv : VPN (vpn (rl rg) + i) ∈ range_pages (vpn_range ar)) by (rewrite Erg; apply Hin; lia).
      destruct (h_frame _ _ _ _ _ _ _ Hh _ Hv) as (_ & Hp & Hm & Hb). split; [|done]. eexists. split; [by apply Hh|]. apply PTE_ppn_new; [done|by apply flags_or_V].
    - intros i j Hi Hj E. apply (h_inj _ _ _ _ _ _ _ Hh) in E; [injection E; lia|rewrite Erg; apply Hin; lia..]. }
  rewrite Hrun, outcome_bind_Done. cbn [mret outcome_ret]. rewrite outcome_bind_Done.
  destruct (in_sets _ _ _ _ _ _ _ _ _ _ _ _ _ _ I) as (Hsub & Hun & [Hus _] & _).
  assert (Hh' : ∀ i, 0 ≤ i < parts data 0 → path' !! h (VPN (vpn (rl rg) + i)) = None).
  { intros i Hi. apply (h_frame _ _ _ _ _ _ _ Hh). rewrite Erg. apply Hin. lia. }
  assert (Hsame : ∀ p, p ∈ dom path' → m' !! p = m1 !! p).
  { intros p Hp. apply Ho. intros i Hi ->. apply elem_of_dom in Hp as [x Hx]. by rewrite Hh' in Hx. }
  assert (Hmem : ∀ p, is_Some (m1 !! p) → is_Some (m' !! p)) by (intros p; by rewrite <- !elem_of_dom, Hdom).
  pose proof (space_frame tp Htp m1 m' ms' path' used' used' _ Sp1 Hwf (reflexivity _) Hsame (λ p _, Hmem p)) as Sp'.
  eexists ms', a', m', path', free', used', _. split; [done|]. split; [|split; [exact Sp'|split; [done|split; [|split; [|split]]]]].
  - split; try apply S1; [apply Sp'|]. intros f Hf. destruct (ps_free _ _ _ _ _ _ _ S1 f Hf) as [? ?]. split; [by apply Hmem|done].
  - split; [|done..|apply I]. intros p Hp Hq. destruct (in_frame _ _ _ _ _ _ _ _ _ _ _ _ _ _ I p Hp Hq) as [<- ?]. split; [|done].
    apply Ho. intros i Hi ->. apply Hp. apply (in_new _ _ _ _ _ _ _ _ _ _ _ _ _ _ I). apply Hin. lia.
  - intros v. split; intros Hv; [rewrite decide_False; [done|intros Hv'; by apply (Hdis v)]|].
    rewrite decide_True by done. by apply (in_new _ _ _ _ _ _ _ _ _ _ _ _ _ _ I).
  - intros v Hv. pose proof Hv as (b & Hb & Hbv)%elem_of_area_pages. assert (Hb' : b ∈ areas ms') by (rewrite Ea; apply elem_of_app; by left).
    rewrite (view_area tp m' ms' _ _ _ b v Sp' Hb' Hbv), (view_area tp m ms _ _ _ b v Sp Hb Hbv).
    destruct (space_page tp _ _ _ _ _ _ Sp Hv) as (_ & _ & _ & _ & _ & _ & Hu & Hp & _).
    rewrite decide_False by (intros Hv'; by apply (Hdis v)).
    assert (Hnf : g v ∉ free) by (intros Hf; by apply (fa_disjoint _ _ _ (ps_alloc _ _ _ _ _ _ _ S) (g v))).
    destruct (in_frame _ _ _ _ _ _ _ _ _ _ _ _ _ _ I (g v) Hnf Hp) as [<- _]. rewrite Ho; [done|].
    intros i Hi E. apply Hnf. rewrite E. apply (in_new _ _ _ _ _ _ _ _ _ _ _ _ _ _ I). apply Hin. lia.
  - intros v Hv. assert (Har : ar ∈ areas ms') by (rewrite Ea; apply elem_of_app; right; by left).
    assert (Hv' : v ∈ range_pages (vpn_range ar)) by by rewrite Erg.
    rewrite (view_area tp m' ms' _ _ _ ar v Sp' Har Hv'), decide_True, (h_perm _ _ _ _ _ _ _ Hh) by done.
    destruct (in_new _ _ _ _ _ _ _ _ _ _ _ _ _ _ I v Hv) as [_ Hz]. apply range_pages_spec in Hv.
    assert (Ev : VPN (vpn (rl rg) + (vpn v - vpn (rl rg))) = v) by (rewrite Zplus_minus; by destruct v).
    unfold filled_page. destruct (decide (vpn v - vpn (rl rg) < parts data 0)) as [Hlt|Hge].
    + specialize (Hc (vpn v - vpn (rl rg)) zero_page ltac:(lia)). rewrite Ev in Hc. rewrite (Hc Hz). cbn [mbind option_bind]. do 4 f_equal. lia.
    + rewrite Ho, Hz; last first.
      { intros i Hi E. apply (h_inj _ _ _ _ _ _ _ Hh) in E; [|done|rewrite Erg; apply Hin; lia]. apply (f_equal vpn) in E. cbn in E. lia. }
      cbn [mbind option_bind]. do 2 f_equal. assert (Ep0 : page_part data ((vpn v - vpn (rl rg)) * PAGE_SIZE) = []); [|by rewrite Ep0].
      apply length_zero_iff_nil. pose proof (length_page_part data ((vpn v - vpn (rl rg)) * PAGE_SIZE)) as L.
      unfold parts in Hge. change PAGE_SIZE with 4096 in *. rewrite Z.max_l in L by (clear -Hge Hv; dlia). unfold zlen in L. specialize (L ltac:(lia)). lia.
Qed.

(** ** Segments *)

(** The pages of a segment, and what of the file goes there. *)
Definition seg_range (ph : ProgramHeader) : VPNRange :=
  mkRange (VirtAddr_floor (VirtAddr_from (ph_virtual_addr ph))) (VirtAddr_ceil (VirtAddr_from (u64 (ph_virtual_addr ph + ph_mem_size ph)))).
Definition seg_data (input : list Z) (ph : ProgramHeader) : list Z := slice (Z.to_nat (ph_offset ph)) (Z.to_nat (ph_file_size ph)) input.

Definition loads (phs : list ProgramHeader) : list ProgramHeader := filter (λ ph, ph_is_load ph = true) phs.
Definition seg_pages (phs : list ProgramHeader) : list VirtPageNum := loads phs ≫= λ ph, range_pages (seg_range ph).

(** The end of the last segment that is loaded. *)
Definition last_end (e : VirtPageNum) (phs : list ProgramHeader) : VirtPageNum := foldl (λ _ ph, rr (seg_range ph)) e (loads phs).

Record seg_ok (len : Z) (ph : ProgramHeader) : Prop := {
  sg_aligned : ph_virtual_addr ph mod PAGE_SIZE = 0;
  sg_mem : 0 ≤ ph_virtual_addr ph ∧ 0 < ph_mem_size ph ∧ ph_virtual_addr ph + ph_mem_size ph ≤ 2 ^ 38 - PAGE_SIZE;
  sg_file : 0 ≤ ph_offset ph ∧ 0 ≤ ph_file_size ph ≤ ph_mem_size ph ∧ ph_offset ph + ph_file_size ph ≤ len;
}.

Lemma VirtAddr_from_small x : 0 ≤ x < 2 ^ 39 → VirtAddr_from x = VA x.
Proof. intros Hx. unfold VirtAddr_from. rewrite mask_land by done. change VA_WIDTH_SV39 with 39. f_equal. by apply Z.mod_small. Qed.

Lemma seg_range_eq len ph : seg_ok len ph →
  rl (seg_range ph) = VPN (ph_virtual_addr ph / PAGE_SIZE) ∧
  rr (seg_range ph) = VPN ((ph_virtual_addr ph + ph_mem_size ph + (PAGE_SIZE - 1)) / PAGE_SIZE).
Proof.
  intros [_ Hm _]. change PAGE_SIZE with 4096 in *. unfold seg_range. cbn [rl rr]. rewrite wrap_small by lia. rewrite !VirtAddr_from_small by lia.
  split; [done|]. unfold VirtAddr_ceil. cbn [va]. rewrite (wrap_small 64 (_ - 1)) by lia. change PAGE_SIZE with 4096. rewrite wrap_small by lia. do 2 f_equal. lia.
Qed.

Lemma ph_perm_ok ph : perm_ok (ph_perm ph).
Proof. unfold ph_perm. destruct (ph_read ph), (ph_write ph), (ph_execute ph); by split. Qed.

Lemma loads_cons ph phs : loads (ph :: phs) = if ph_is_load ph then ph :: loads phs else loads phs.
Proof. unfold loads. destruct (ph_is_load ph) eqn:E; [by rewrite filter_cons_True|by rewrite filter_cons_False by congruence]. Qed.

Lemma load_segments_spec input phs : bytes_ok input → zlen input < 2 ^ 63 → ∀ (a : A) m ms path free used g e,
  pt_state a m (root_ppn (page_table ms)) (pt_frames (page_table ms)) path free used → space tp m ms path used g →
  Forall (seg_ok (zlen input)) (loads phs) → NoDup (seg_pages phs) → (∀ v, v ∈ seg_pages phs → v ∉ area_pages (areas ms)) →
  (3 * length (seg_pages phs) ≤ size free)%nat →
  ∃ ms' a' m' path' free' used' g',
    load_segments (mkMm a m) ms input e phs = Done (ms', last_end e phs, mkMm a' m') ∧
    pt_state a' m' (root_ppn (page_table ms')) (pt_frames (page_table ms')) path' free' used' ∧
    space tp m' ms' path' used' g' ∧ area_pages (areas ms') = area_pages (areas ms) ++ seg_pages phs ∧
    grew m m' path path' free free' used used' (3 * length (seg_pages phs)) ∧
    (∀ v, (v ∈ area_pages (areas ms) → g' v = g v) ∧ (v ∈ seg_pages phs → g' v ∈ free)) ∧
    (∀ v, v ∈ area_pages (areas ms) → page_view m' ms' v = page_view m ms v) ∧
    (∀ ph v, ph ∈ loads phs → v ∈ range_pages (seg_range ph) →
       page_view m' ms' v = Some (Z.lor (ph_perm ph) PTE_V, filled_page (seg_data input ph) (rl (seg_range ph)) v)).
Proof.
  intros Hb Hlen. induction phs as [|ph phs IH]; intros a m ms path free used g e S Sp Hok Hnd Hdis Hsz.
  { exists ms, a, m, path, free, used, g. split; [done|]. do 2 (split; [done|]). split; [by rewrite app_nil_r|]. split; [split; [done..|cbn; lia]|]. split; [intros v; split; [done|intros Hv; by apply not_elem_of_nil in Hv]|]. split; [done|].
    intros ph v Hph. by apply not_elem_of_nil in Hph. }
  cbn [load_segments]. unfold seg_pages, last_end in *. rewrite loads_cons in *. destruct (ph_is_load ph); [|by apply (IH a m ms path free used g)].
  apply Forall_cons in Hok as [Hph Hok]. cbn [mbind list_bind foldl] in *. fold (seg_pages phs) in *.
  change (list_bind _ _ (λ ph, range_pages (seg_range ph)) (loads phs)) with (seg_pages phs) in *.
  apply NoDup_app in Hnd as (_ & Hap & Hnd). rewrite length_app in Hsz.
  destruct (seg_range_eq _ _ Hph) as [El Er]. pose proof Hph as [Hal Hm Hf].
  unfold MapArea_new, SimpleRange_new. fold (seg_range ph).
  change (VirtAddr_floor (VirtAddr_from (ph_virtual_addr ph))) with (rl (seg_range ph)).
  change (VirtAddr_ceil (VirtAddr_from (u64 (ph_virtual_addr ph + ph_mem_size ph)))) with (rr (seg_range ph)).
  assert (Hlr : 0 ≤ vpn (rl (seg_range ph)) < vpn (rr (seg_range ph)) ∧ vpn (rr (seg_range ph)) < 2 ^ 27).
  { rewrite El, Er. cbn [vpn]. change PAGE_SIZE with 4096 in *. clear -Hal Hm. dlia. }
  destruct (Z.leb_spec (vpn (rl (seg_range ph))) (vpn (rr (seg_range ph)))); [|lia]. cbn [assert_that].
  repeat (rewrite outcome_bind_Done || cbn [mret outcome_ret]). cbn [vpn_range].
  unfold byte_range. rewrite wrap_small by lia. destruct (Z.leb_spec (ph_offset ph) (ph_offset ph + ph_file_size ph)); [|lia].
  destruct (Z.leb_spec (ph_offset ph + ph_file_size ph) (zlen input)); [|lia]. cbn [andb assert_that]. repeat (rewrite outcome_bind_Done || cbn [mret outcome_ret]).
  replace (ph_offset ph + ph_file_size ph - ph_offset ph) with (ph_file_size ph) by lia. fold (seg_data input ph).
  change (mkRange (rl (seg_range ph)) (rr (seg_range ph))) with (seg_range ph).
  assert (Hsl : zlen (seg_data input ph) = ph_file_size ph) by (unfold zlen, seg_data in *; rewrite length_slice by lia; lia).
  destruct (space_push_data a m ms path free used g (seg_range ph) (ph_perm ph) Unknow (seg_data input ph) S Sp)
    as (ms1 & a1 & m1 & path1 & free1 & used1 & g1 & Hpush & S1 & Sp1 & Ep1 & Gr1 & Own1 & Hold1 & Hnew1); [apply ph_perm_ok|apply Hlr|apply Hlr| |lia|by apply bytes_ok_slice| |].
  { intros v Hv. apply Hdis, elem_of_app. by left. }
  { rewrite Hsl, El, Er. cbn [vpn]. change PAGE_SIZE with 4096 in *. clear -Hal Hm Hf. dlia. }
  rewrite Hpush, outcome_bind_Done.
  destruct (IH a1 m1 ms1 path1 free1 used1 g1 (rr (seg_range ph)) S1 Sp1 Hok Hnd) as (ms' & a' & m' & path' & free' & used' & g' & Hrun & S' & Sp' & Ep' & Gr' & Own' & Hold & Hnew); [|pose proof (ge_size _ _ _ _ _ _ _ _ _ Gr1); lia|].
  { intros v Hv. rewrite Ep1, not_elem_of_app. split; [apply Hdis, elem_of_app; by right|]. intros Hv'. by apply (Hap v). }
  exists ms', a', m', path', free', used', g'. split; [exact Hrun|]. do 2 (split; [done|]). split; [by rewrite Ep', Ep1, <- app_assoc|].
  split; [rewrite length_app, Nat.mul_add_distr_l; by eapply grew_trans|].
  assert (Hin1 : ∀ v, v ∈ area_pages (areas ms) ∨ v ∈ range_pages (seg_range ph) → v ∈ area_pages (areas ms1)) by (intros v Hv; by rewrite Ep1, elem_of_app).
  split.
  { intros v. split; [intros Hv; rewrite (proj1 (Own' v)) by (apply Hin1; by left); by apply Own1|].
    intros [Hv|Hv]%elem_of_app; [rewrite (proj1 (Own' v)) by (apply Hin1; by right); by apply Own1|]. by apply (ge_free _ _ _ _ _ _ _ _ _ Gr1), Own'. }
  split; [intros v Hv; rewrite Hold; [by apply Hold1|apply Hin1; by left]|].
  intros q v [->|Hq]%elem_of_cons Hv; [|by apply Hnew]. rewrite Hold; [by apply Hnew1|apply Hin1; by right].
Qed.

(** The byte of a filled page. *)
Lemma filled_byte data start v j : 0 ≤ vpn v - vpn start → 0 ≤ j < PAGE_SIZE →
  filled_page data start v !! Z.to_nat j =
    Some (default 0 (data !! Z.to_nat ((vpn v - vpn start) * PAGE_SIZE + j))).
Proof.
  intros Hv Hj. unfold filled_page. set (s := (vpn v - vpn start) * PAGE_SIZE). assert (Hs : 0 ≤ s) by (unfold s; change PAGE_SIZE with 4096; lia).
  pose proof (length_page_part data s Hs) as L. unfold zlen in L. change PAGE_SIZE with 4096 in *.
  rewrite lookup_splice by (unfold zero_page; rewrite length_replicate; change PAGE_BYTES with (Z.to_nat 4096); lia).
  case_decide as Hd.
  - rewrite Nat.sub_0_r. unfold page_part. change PAGE_SIZE with 4096. rewrite lookup_slice, decide_True by (unfold zlen; lia).
    rewrite Z2Nat.inj_add by lia. destruct (lookup_lt_is_Some_2 data (Z.to_nat s + Z.to_nat j)) as [x ->]; [lia|]. done.
  - unfold zero_page. rewrite lookup_replicate_2 by (change PAGE_BYTES with (Z.to_nat 4096); lia).
    rewrite (lookup_ge_None_2 data) by lia. done.
Qed.
End load.

(** An image that can be loaded: the loadable segments are page aligned, inside the file, in the lower
    half and on pages of their own. *)
Record image_ok (parse_elf : list Z → option ElfFile) (elf_data : list Z) (elf : ElfFile) : Prop := {
  io_parse : parse_elf elf_data = Some elf;
  io_magic : elf_magic elf = [0x7f; 0x45; 0x4c; 0x46];
  io_bytes : bytes_ok elf_data;
  io_len : zlen elf_data < 2 ^ 63;
  io_segments : Forall (seg_ok (zlen elf_data)) (loads (elf_headers elf));
  io_apart : NoDup (seg_pages (elf_headers elf));
}.

(** Each byte of the segments, with its permissions. *)
Definition image_shown (m : memory) (ms : MemorySet) (elf_data : list Z) (phs : list ProgramHeader) : Prop :=
  ∀ ph k, ph ∈ loads phs → 0 ≤ k < ph_mem_size ph → ∃ b,
    page_view m ms (VPN ((ph_virtual_addr ph + k) / PAGE_SIZE)) = Some (Z.lor (ph_perm ph) PTE_V, b) ∧
    b !! Z.to_nat ((ph_virtual_addr ph + k) mod PAGE_SIZE) =
      Some (if k <? ph_file_size ph then elf_data !!! Z.to_nat (ph_offset ph + k) else 0).

Lemma from_elf_spec {A} `{FrameAllocatorLaws A} sym tp parse_elf (a : A) m free used elf_data elf :
  PhysPageNum_of_addr (PhysAddr_from (strampoline sym)) = Done tp → 0 ≤ ppn tp < 2 ^ 44 →
  fa_inv a free used → wf_memory m → (∀ f, f ∈ free → is_Some (m !! f) ∧ 0 ≤ ppn f < 2 ^ 44) →
  image_ok parse_elf elf_data elf → (3 * length (seg_pages (elf_headers elf)) + 3 ≤ size free)%nat →
  ∃ ms a' m' path free' used' g base,
    from_elf parse_elf sym (mkMm a m) elf_data = Done (ms, base, elf_entry elf, mkMm a' m') ∧
    pt_state a' m' (root_ppn (page_table ms)) (pt_frames (page_table ms)) path free' used' ∧ space tp m' ms path used' g ∧
    area_pages (areas ms) = seg_pages (elf_headers elf) ∧
    grew m m' ∅ path free free' used used' (3 + 3 * length (seg_pages (elf_headers elf))) ∧
    (∀ v, v ∈ area_pages (areas ms) → g v ∈ free) ∧
    image_shown m' ms elf_data (elf_headers elf) ∧
    (∀ ph, last (loads (elf_headers elf)) = Some ph →
       base = ((ph_virtual_addr ph + ph_mem_size ph + (PAGE_SIZE - 1)) / PAGE_SIZE + 1) * PAGE_SIZE).
Proof.
  intros Hsym Htp I Hwf Hfree [Hparse Hmagic Hb Hlen Hok Hnd] Hsz. unfold from_elf.
  destruct (new_space sym tp Htp Hsym a m free used I Hwf Hfree) as (ms0 & mm0 & ms1 & a1 & m1 & path1 & free1 & used1 & R0 & R1 & E1 & S1 & K1 & F1 & U1 & W1 & Hc & Hm1); [lia|].
  rewrite R0, outcome_bind_Done, R1, outcome_bind_Done, Hparse. cbn [unwrap]. rewrite outcome_bind_Done, bool_decide_true by done. cbn [assert_that]. rewrite outcome_bind_Done.
  pose proof (bare_space tp a1 m1 ms1 path1 free1 used1 (λ _, PPN 0) S1 E1 Hm1) as Sp1.
  destruct (load_segments_spec tp Htp elf_data (elf_headers elf) Hb Hlen a1 m1 ms1 path1 free1 used1 (λ _, PPN 0) (VPN 0) S1 Sp1 Hok Hnd)
    as (ms & a' & m' & path & free' & used' & g & Hrun & S' & Sp & Ep & Gr & Own & _ & Hview); [intros v _; rewrite E1; apply not_elem_of_nil|lia|].
  rewrite Hrun, outcome_bind_Done. cbn [mret outcome_ret]. exists ms, a', m', path, free', used', g. eexists.
  split; [done|]. do 2 (split; [done|]). split; [by rewrite Ep, E1|]. split; [by eapply grew_trans|].
  split; [intros v Hv; rewrite Ep, E1 in Hv; by apply F1, Own|]. split.
  - intros ph k Hph Hk. rewrite Forall_forall in Hok. pose proof (Hok ph Hph) as Hs. destruct (seg_range_eq _ _ Hs) as [El Er]. destruct Hs as [Hal Hm Hf].
    set (x := ph_virtual_addr ph + k). assert (Hv : VPN (x / PAGE_SIZE) ∈ range_pages (seg_range ph)).
    { apply range_pages_spec. rewrite El, Er. cbn [vpn]. unfold x. change PAGE_SIZE with 4096 in *. clear -Hal Hm Hk. dlia. }
    eexists. split; [by apply Hview|]. rewrite El.
    assert (Hx : 0 ≤ x / PAGE_SIZE - ph_virtual_addr ph / PAGE_SIZE ∧ 0 ≤ x mod PAGE_SIZE < PAGE_SIZE ∧
      (x / PAGE_SIZE - ph_virtual_addr ph / PAGE_SIZE) * PAGE_SIZE + x mod PAGE_SIZE = k).
    { unfold x. change PAGE_SIZE with 4096 in *. clear -Hal Hm Hk. dlia. }
    rewrite filled_byte by apply Hx. cbn [vpn]. rewrite (proj2 (proj2 Hx)). f_equal. unfold seg_data. rewrite lookup_slice.
    assert (Hzl : zlen elf_data = Z.of_nat (length elf_data)) by done.
    destruct (Z.ltb_spec k (ph_file_size ph)); [rewrite decide_True by lia|by rewrite decide_False by lia].
    rewrite <- Z2Nat.inj_add by lia. rewrite list_lookup_total_alt. destruct (lookup_lt_is_Some_2 elf_data (Z.to_nat (ph_offset ph + k))) as [y ->]; [lia|done].
  - intros ph Hlast. unfold last_end. apply last_Some in Hlast as [l El]. rewrite El in Hok |- *. rewrite foldl_app. cbn [foldl].
    apply Forall_app in Hok as [_ Hok]. apply Forall_cons in Hok as [Hok _]. destruct (seg_range_eq _ _ Hok) as [_ ->]. destruct Hok as [Hal Hm Hf].
    change PAGE_SIZE with 4096 in *. set (e := (_ + _ + (4096 - 1)) / 4096). assert (He : 0 ≤ e * 4096 < 2 ^ 38) by (unfold e; clear -Hal Hm; dlia).
    unfold VirtAddr_of_page. cbn [vpn]. rewrite Z.shiftl_mul_pow2 by done. change (2 ^ PAGE_SIZE_BITS) with 4096. rewrite (wrap_small 64 (e * 4096)) by lia.
    rewrite VirtAddr_usize_eq by (cbn [va]; lia). cbn [va]. destruct (Z.leb_spec (2 ^ 38) (e * 4096)); [lia|]. rewrite wrap_small by lia. lia.
Qed.

(** ** Properties *)

(** C15. [from_elf] on an image whose loadable segments are page aligned, inside the file, in the lower
    half and on pages of their own, with frames enough. It succeeds; every address of a segment then
    holds the byte of the file that belongs there, or 0 past the part that is in the file, with the
    permissions of the segment and user access; besides the trampoline nothing else is mapped; and the
    caller gets the entry point and a stack base one page above the end of the last segment of the
    table.  When that segment is also the highest, as linkers order them, the page between is a guard page: it and
    everything above, where the stack goes, is unmapped.  (The code takes the last segment for
    the highest without looking: an image with its segments in another order has a stack base inside.) *)
Theorem elf_image_loaded sym tp (parse_elf : list Z → option ElfFile) (a : StackFrameAllocator) m free used elf_data elf :
  PhysPageNum_of_addr (PhysAddr_from (strampoline sym)) = Done tp → 0 ≤ ppn tp < 2 ^ 44 →
  fa_inv a free used → wf_memory m → (∀ f, f ∈ free → is_Some (m !! f) ∧ 0 ≤ ppn f < 2 ^ 44) →
  parse_elf elf_data = Some elf → elf_magic elf = [0x7f; 0x45; 0x4c; 0x46] → bytes_ok elf_data → zlen elf_data < 2 ^ 63 →
  Forall (seg_ok (zlen elf_data)) (loads (elf_headers elf)) → NoDup (seg_pages (elf_headers elf)) →
  (3 * length (seg_pages (elf_headers elf)) + 3 ≤ size free)%nat →
  ∃ ms a' m' path used' g base,
    from_elf parse_elf sym (mkMm a m) elf_data = Done (ms, base, elf_entry elf, mkMm a' m') ∧
    space tp m' ms path used' g ∧
    (∀ ph k, ph ∈ loads (elf_headers elf) → 0 ≤ k < ph_mem_size ph → ∃ b,
       page_view m' ms (VPN ((ph_virtual_addr ph + k) / PAGE_SIZE)) = Some (Z.lor (ph_perm ph) PTE_V, b) ∧
       b !! Z.to_nat ((ph_virtual_addr ph + k) mod PAGE_SIZE) =
         Some (if k <? ph_file_size ph then elf_data !!! Z.to_nat (ph_offset ph + k) else 0)) ∧
    (∀ v, 0 ≤ vpn v < 2 ^ 27 → v ∉ seg_pages (elf_headers elf) → v ≠ TRAMPOLINE_VPN → page_view m' ms v = None) ∧
    (∀ ph, last (loads (elf_headers elf)) = Some ph → let n := (ph_virtual_addr ph + ph_mem_size ph + (PAGE_SIZE - 1)) / PAGE_SIZE in
       base = (n + 1) * PAGE_SIZE ∧
       ((∀ v, v ∈ seg_pages (elf_headers elf) → vpn v < n) → ∀ v, n ≤ vpn v < vpn TRAMPOLINE_VPN → page_view m' ms v = None)).
Proof.
  intros Hsym Htp I Hwf Hfree Hparse Hmagic Hb Hlen Hok Hnd Hsz.
  destruct (from_elf_spec sym tp parse_elf a m free used elf_data elf) as (ms & a' & m' & path & free' & used' & g & base & Hrun & _ & Sp & Ep & _ & _ & Hsh & Hbase); [done..|lia|].
  exists ms, a', m', path, used', g, base. do 2 (split; [done|]). split; [exact Hsh|].
  assert (Hnone : ∀ v, 0 ≤ vpn v < 2 ^ 27 → v ∉ seg_pages (elf_headers elf) → v ≠ TRAMPOLINE_VPN → page_view m' ms v = None).
  { intros v Hv Hnv Hnt. rewrite (view_other tp Htp m' ms path used' g v Sp Hv); [by rewrite decide_False|]. by rewrite Ep. }
  split; [exact Hnone|]. intros ph Hlast n. split; [by apply Hbase|]. intros Hhigh v Hv.
  change (vpn TRAMPOLINE_VPN) with (2 ^ 27 - 1) in Hv. assert (Hn : 0 ≤ n).
  { apply last_Some in Hlast as [l El]. rewrite El in Hok. apply Forall_app in Hok as [_ Hok]. apply Forall_cons in Hok as [Hok _].
    destruct Hok as [_ Hm _]. unfold n. change PAGE_SIZE with 4096. dlia. }
  apply Hnone; [lia|intros Hin%Hhigh; lia|]. intros ->. cbn in Hv. lia.
Qed.

(** One segment of five bytes at [0x10000], three of them in the file from its third byte on. *)
Lemma elf_image_loaded_witness :
  let ph := mkPh true 0x10000 5 2 3 true false true in
  let elf := mkElf [0x7f; 0x45; 0x4c; 0x46] [ph] 0x10000 in
  let sym := mkSymbols 0 0 0 0 0 0 0 0 0 0x80200000 in
  ∃ ms mm b, from_elf (A := StackFrameAllocator) (λ _, Some elf) sym (mkMm PageTableWitness.a0 PageTableWitness.m0) [1; 2; 3; 4; 5; 6] = Done (ms, 0x12000, 0x10000, mm) ∧
    page_view (mm_mem mm) ms (VPN 0x10) = Some (27, b) ∧ b !! 2%nat = Some 5 ∧ page_view (mm_mem mm) ms (VPN 0x11) = None.
Proof.
  intros ph elf sym.
  destruct (elf_image_loaded sym (PPN 0x80200) (λ _, Some elf) PageTableWitness.a0 PageTableWitness.m0 PageTableWitness.frames ∅ [1; 2; 3; 4; 5; 6] elf)
    as (ms & a' & m' & path & used' & g & base & Hrun & _ & Hbyte & Hnone & Hbase).
  - reflexivity.
  - by split.
  - by apply Stack_init_inv.
  - intros p b [_ <-]%lookup_gset_to_gmap_Some. apply zero_page_wf.
  - apply PageTableWitness.in_frames.
  - reflexivity.
  - reflexivity.
  - repeat (apply Forall_cons; split; [by split|]). by apply Forall_nil.
  - reflexivity.
  - apply Forall_singleton. split; [reflexivity|by vm_compute|by vm_compute].
  - apply NoDup_singleton.
  - assert (size PageTableWitness.frames = 15%nat) as -> by by vm_compute. change (length (seg_pages (elf_headers elf))) with 1%nat. lia.
  - destruct (Hbyte ph 2) as (b & Hv & Hb); [by left|by split|]. destruct (Hbase ph eq_refl) as [Eb Hguard]. rewrite Eb in Hrun.
    exists ms, (mkMm a' m'), b. split; [exact Hrun|]. split; [exact Hv|]. split; [exact Hb|]. apply Hguard; [|done].
    by intros v ->%list_elem_of_singleton.
Defined.
