(* ===== verification/Plic.v ===== *)
(** * Plic.v: the interrupt controller ([os/src/drivers/plic.rs], [os/src/boards/qemu.rs])

    The registers are 32-bit words in memory; what was written to a register is read back, except
    for the claim register, whose value comes from the hardware and is an argument. *)

From S2P Require Import Prelude Address FrameAlloc PageTable MemorySet.

(** ** [plic.rs] *)

Inductive IntrTargetPriority : Type := Machine | Supervisor.

#[export] Instance IntrTargetPriority_eq_dec : EqDecision IntrTargetPriority.
Proof. solve_decision. Defined.

Definition target_num (t : IntrTargetPriority) : Z := match t with Machine => 0 | Supervisor => 1 end.
Definition supported_number : Z := 2.

(** The words of the controller, 0 when never written. *)
Abbreviation registers := (gmap Z Z).
Definition reg_read (r : registers) (a : Z) : Z := default 0 (r !! a).
Definition reg_write (r : registers) (a v : Z) : registers := <[a := u32 v]> r.

Section plic.
Context (base_addr : Z).

Definition priority_ptr (intr_source_id : Z) : outcome Z :=
  assert_that ((0 <? intr_source_id) && (intr_source_id <=? 132)) PAssert;;
  mret (u64 (base_addr + intr_source_id * 4)).

Definition hart_id_with_priority (hart_id : Z) (t : IntrTargetPriority) : Z := u64 (hart_id * supported_number + target_num t).

Definition enable_ptr (hart_id : Z) (t : IntrTargetPriority) (intr_source_id : Z) : Z * Z :=
  let id := hart_id_with_priority hart_id t in
  let reg_id := intr_source_id / 32 in
  let reg_shift := intr_source_id mod 32 in
  (u64 (base_addr + 0x2000 + 0x80 * id + 0x4 * reg_id), reg_shift).

Definition threshold_ptr_of_hart_with_priority (hart_id : Z) (t : IntrTargetPriority) : Z :=
  let id := hart_id_with_priority hart_id t in
  u64 (base_addr + 0x200000 + 0x1000 * id).

Definition claim_comp_ptr_of_hart_with_priority (hart_id : Z) (t : IntrTargetPriority) : Z :=
  let id := hart_id_with_priority hart_id t in
  u64 (base_addr + 0x200004 + 0x1000 * id).

Definition set_priority (r : registers) (intr_source_id priority : Z) : outcome registers :=
  assert_that (priority <? 8) PAssert;;
  p ← priority_ptr intr_source_id;
  mret (reg_write r p priority).

Definition get_priority (r : registers) (intr_source_id : Z) : outcome Z :=
  p ← priority_ptr intr_source_id;
  mret (Z.land (reg_read r p) 7).

Definition enable (r : registers) (hart_id : Z) (t : IntrTargetPriority) (intr_source_id : Z) : registers :=
  let '(reg_ptr, shift) := enable_ptr hart_id t intr_source_id in
  reg_write r reg_ptr (Z.lor (reg_read r reg_ptr) (Z.shiftl 1 shift)).

(** [!(1u32 << shift)] *)
Definition disable (r : registers) (hart_id : Z) (t : IntrTargetPriority) (intr_source_id : Z) : registers :=
  let '(reg_ptr, shift) := enable_ptr hart_id t intr_source_id in
  reg_write r reg_ptr (Z.land (reg_read r reg_ptr) (2 ^ 32 - 1 - Z.shiftl 1 shift)).

Definition set_threshold (r : registers) (hart_id : Z) (t : IntrTargetPriority) (threshold : Z) : outcome registers :=
  assert_that (threshold <? 8) PAssert;;
  mret (reg_write r (threshold_ptr_of_hart_with_priority hart_id t) threshold).

Definition get_threshold (r : registers) (hart_id : Z) (t : IntrTargetPriority) : Z :=
  Z.land (reg_read r (threshold_ptr_of_hart_with_priority hart_id t)) 7.

(** [claim] reads [claimed] from the register, [complete] writes it. *)
Definition claim (claimed : Z → Z) (hart_id : Z) (t : IntrTargetPriority) : Z :=
  claimed (claim_comp_ptr_of_hart_with_priority hart_id t).

Definition complete (r : registers) (hart_id : Z) (t : IntrTargetPriority) (completion : Z) : registers :=
  reg_write r (claim_comp_ptr_of_hart_with_priority hart_id t) completion.
End plic.

(** ** [boards/qemu.rs] *)

Definition VIRT_PLIC : Z := 0xC000000.
Definition VIRT_UART : Z := 0x10000000.

Fixpoint enable_sources (r : registers) (srcs : list Z) : outcome registers :=
  match srcs with
  | [] => mret r
  | intr_src_id :: srcs =>
      let r := enable VIRT_PLIC r 0 Supervisor intr_src_id in
      r ← set_priority VIRT_PLIC r intr_src_id 1;
      enable_sources r srcs
  end.

(** [device_init]; [sext] is the bit of [sie]. *)
Definition device_init (r : registers) : outcome (registers * bool) :=
  r ← set_threshold VIRT_PLIC r 0 Supervisor 0;
  r ← set_threshold VIRT_PLIC r 0 Machine 1;
  r ← enable_sources r [5; 6; 8; 10];
  let sext := true in
  mret (r, sext).

(** Whose [handle_irq] runs. *)
Inductive Device : Type := MOUSE_DEVICE | KEYBOARD_DEVICE | BLOCK_DEVICE | UART.

#[export] Instance Device_eq_dec : EqDecision Device.
Proof. solve_decision. Defined.

Definition irq_device (intr_src_id : Z) : outcome Device :=
  if intr_src_id =? 5 then mret MOUSE_DEVICE
  else if intr_src_id =? 6 then mret KEYBOARD_DEVICE
  else if intr_src_id =? 8 then mret BLOCK_DEVICE
  else if intr_src_id =? 10 then mret UART
  else Panicked PExplicit.

(** Where the driver of a device finds it: [VIRTIO5] and [VIRTIO6] of [drivers/input/mod.rs], [VIRTIO0] of
    [drivers/block/virtio_blk.rs], [VIRT_UART]. *)
Definition device_base (d : Device) : Z :=
  match d with
  | MOUSE_DEVICE => 0x10005000
  | KEYBOARD_DEVICE => 0x10006000
  | BLOCK_DEVICE => 0x10008000
  | UART => VIRT_UART
  end.

(** The [interrupts] of the device at an address, from the device tree [doc/riscv64-virt.dts]. *)
Definition virt_irq (base : Z) : option Z :=
  if base =? 0x10000000 then Some 0x0a
  else if base =? 0x10008000 then Some 0x08
  else if base =? 0x10007000 then Some 0x07
  else if base =? 0x10006000 then Some 0x06
  else if base =? 0x10005000 then Some 0x05
  else if base =? 0x10004000 then Some 0x04
  else if base =? 0x10003000 then Some 0x03
  else if base =? 0x10002000 then Some 0x02
  else if base =? 0x10001000 then Some 0x01
  else None.

(** [irq_handler], over a state [S] with the handlers of the devices. *)
Definition irq_handler {S} (handle_irq : Device → S → outcome S) (claimed : Z → Z) (r : registers) (s : S) : outcome (registers * S) :=
  let intr_src_id := claim VIRT_PLIC claimed 0 Supervisor in
  d ← irq_device intr_src_id;
  s ← handle_irq d s;
  mret (complete VIRT_PLIC r 0 Supervisor intr_src_id, s).

(** ** Where the registers are *)

(** The registers, as the specification of the controller numbers them. *)
Inductive PlicReg : Type :=
| RPriority (src : Z)
| REnable (ctx word : Z)
| RThreshold (ctx : Z)
| RClaim (ctx : Z).

Definition reg_addr (g : PlicReg) : Z :=
  VIRT_PLIC + match g with
  | RPriority s => 4 * s
  | REnable c w => 0x2000 + 0x80 * c + 4 * w
  | RThreshold c => 0x200000 + 0x1000 * c
  | RClaim c => 0x200004 + 0x1000 * c
  end.

(** The board has 132 sources, and two contexts for each of at most 8 processors. *)
Definition reg_there (g : PlicReg) : Prop :=
  match g with
  | RPriority s => 0 < s ≤ 132
  | REnable c w => 0 ≤ c < 16 ∧ 0 ≤ w < 32
  | RThreshold c | RClaim c => 0 ≤ c < 16
  end.

Lemma reg_addr_inj g h : reg_there g → reg_there h → reg_addr g = reg_addr h → g = h.
Proof.
  destruct g as [s|c w|c|c], h as [s'|c' w'|c'|c']; cbv beta iota delta [reg_there reg_addr]; intros Hg Hh E; try (exfalso; lia).
  - by replace s' with s by lia.
  - assert (c = c') as -> by lia. by replace w' with w by lia.
  - by replace c' with c by lia.
  - by replace c' with c by lia.
Qed.

Lemma hart_ctx hart t : 0 ≤ hart < 8 → hart_id_with_priority hart t = 2 * hart + target_num t ∧ 0 ≤ 2 * hart + target_num t < 16.
Proof. intros Hh. unfold hart_id_with_priority, supported_number. rewrite wrap_small; destruct t; cbn; lia. Qed.

Lemma ptrs_eq hart t src : 0 ≤ hart < 8 → 0 < src ≤ 132 →
  priority_ptr VIRT_PLIC src = Done (reg_addr (RPriority src)) ∧
  enable_ptr VIRT_PLIC hart t src = (reg_addr (REnable (2 * hart + target_num t) (src / 32)), src mod 32) ∧
  threshold_ptr_of_hart_with_priority VIRT_PLIC hart t = reg_addr (RThreshold (2 * hart + target_num t)) ∧
  claim_comp_ptr_of_hart_with_priority VIRT_PLIC hart t = reg_addr (RClaim (2 * hart + target_num t)).
Proof.
  intros Hh Hs. destruct (hart_ctx hart t Hh) as [E Hc]. unfold priority_ptr, enable_ptr, threshold_ptr_of_hart_with_priority, claim_comp_ptr_of_hart_with_priority.
  rewrite E. cbv beta iota delta [reg_addr]. unfold VIRT_PLIC in *. destruct (Z.ltb_spec 0 src); [|lia]. destruct (Z.leb_spec src 132); [|lia]. cbn [andb assert_that].
  rewrite outcome_bind_Done. rewrite !wrap_small by (dlia || lia). split; [f_equal; lia|]. split; [f_equal; lia|]. split; lia.
Qed.

(** ** Setting and clearing the bit of a source *)

Definition enabled (r : registers) (hart : Z) (t : IntrTargetPriority) (src : Z) : bool :=
  Z.testbit (reg_read r (reg_addr (REnable (2 * hart + target_num t) (src / 32)))) (src mod 32).

Lemma reg_read_write r a v b : reg_read (reg_write r a v) b = if decide (b = a) then u32 v else reg_read r b.
Proof. unfold reg_read, reg_write. case_decide as E; [subst; by rewrite lookup_insert_eq|by rewrite lookup_insert_ne]. Qed.

Lemma testbit_u32 v i : 0 ≤ i < 32 → Z.testbit (u32 v) i = Z.testbit v i.
Proof. intros Hi. apply Z.mod_pow2_bits_low; lia. Qed.

(** Two sources of one context have their bit in different places. *)
Lemma source_bit s s' : s / 32 = s' / 32 → s mod 32 = s' mod 32 → s = s'.
Proof. intros. dlia. Qed.

Lemma enable_spec r hart t src hart' t' src' : 0 ≤ hart < 8 → 0 < src ≤ 132 → 0 ≤ hart' < 8 → 0 < src' ≤ 132 →
  enabled (enable VIRT_PLIC r hart t src) hart' t' src' = bool_decide (hart' = hart ∧ t' = t ∧ src' = src) || enabled r hart' t' src'.
Proof.
  intros Hh Hs Hh' Hs'. destruct (ptrs_eq hart t src Hh Hs) as (_ & E & _). unfold enabled, enable. rewrite E, reg_read_write.
  destruct (hart_ctx hart t Hh) as [_ Hc]. destruct (hart_ctx hart' t' Hh') as [_ Hc']. case_decide as Ea.
  - apply reg_addr_inj in Ea; [|split; [done|dlia]|split; [done|dlia]]. injection Ea as Ec Ew.
    rewrite testbit_u32 by (apply Z.mod_pos_bound; lia). rewrite Z.lor_spec, testbit_1_shiftl by (apply Z.mod_pos_bound; lia). rewrite Ec, Ew, orb_comm. f_equal.
    apply eq_true_iff_eq. rewrite Z.eqb_eq, bool_decide_eq_true. split.
    + intros Em. split; [destruct t, t'; cbn in Ec; lia|]. split; [destruct t, t'; cbn in Ec; (done || lia)|]. by apply source_bit.
    + by intros (_ & _ & ->).
  - rewrite bool_decide_false; [done|]. by intros (-> & -> & ->).
Qed.

Lemma enable_other r hart t src g : 0 ≤ hart < 8 → 0 < src ≤ 132 → reg_there g → (∀ c w, g ≠ REnable c w) →
  reg_read (enable VIRT_PLIC r hart t src) (reg_addr g) = reg_read r (reg_addr g).
Proof.
  intros Hh Hs Hg Hne. destruct (ptrs_eq hart t src Hh Hs) as (_ & E & _). destruct (hart_ctx hart t Hh) as [_ Hc]. unfold enable.
  rewrite E, reg_read_write, decide_False; [done|]. intros Ea. apply reg_addr_inj in Ea; [by apply (Hne _ _ Ea)|done|split; [done|dlia]].
Qed.

(** ** Setting up the sources *)

#[export] Instance PlicReg_eq_dec : EqDecision PlicReg.
Proof. solve_decision. Defined.

(** What a register holds. *)
Abbreviation reg_of r g := (reg_read r (reg_addr g)).

Lemma reg_of_write r g h v : reg_there g → reg_there h → reg_of (reg_write r (reg_addr g) v) h = if decide (h = g) then u32 v else reg_of r h.
Proof.
  intros Hg Hh. rewrite reg_read_write. case_decide as E; case_decide as E'; try done; [|by subst].
  exfalso. apply E'. by apply reg_addr_inj.
Qed.

Lemma set_priority_Done r s p : 0 < s ≤ 132 → 0 ≤ p < 8 → set_priority VIRT_PLIC r s p = Done (reg_write r (reg_addr (RPriority s)) p).
Proof.
  intros Hs Hp. unfold set_priority. destruct (Z.ltb_spec p 8); [|lia]. cbn [assert_that]. rewrite outcome_bind_Done.
  destruct (ptrs_eq 0 Machine s) as (E & _); [lia..|]. by rewrite E, outcome_bind_Done.
Qed.

Lemma set_threshold_Done r t v : 0 ≤ v < 8 → set_threshold VIRT_PLIC r 0 t v = Done (reg_write r (reg_addr (RThreshold (target_num t))) v).
Proof.
  intros Hv. unfold set_threshold. destruct (Z.ltb_spec v 8); [|lia]. cbn [assert_that]. rewrite outcome_bind_Done.
  destruct (ptrs_eq 0 t 1) as (_ & _ & E & _); [lia..|]. by rewrite E.
Qed.

(** A write to a register that holds no enable bits. *)
Lemma enabled_write r g v hart t src : reg_there g → (∀ c w, g ≠ REnable c w) → 0 ≤ hart < 8 → 0 < src ≤ 132 →
  enabled (reg_write r (reg_addr g) v) hart t src = enabled r hart t src.
Proof.
  intros Hg Hne Hh Hs. destruct (hart_ctx hart t Hh) as [_ Hc]. unfold enabled. rewrite reg_of_write; [|done|split; [done|dlia]].
  rewrite decide_False; [done|]. intros E. by apply (Hne _ _ (eq_sym E)).
Qed.

Lemma enable_sources_spec srcs r : Forall (λ s, 0 < s ≤ 132) srcs → ∃ r', enable_sources r srcs = Done r' ∧
  (∀ hart t src, 0 ≤ hart < 8 → 0 < src ≤ 132 →
     enabled r' hart t src = bool_decide (hart = 0 ∧ t = Supervisor ∧ src ∈ srcs) || enabled r hart t src) ∧
  (∀ s, 0 < s ≤ 132 → reg_of r' (RPriority s) = if decide (s ∈ srcs) then 1 else reg_of r (RPriority s)) ∧
  (∀ g, reg_there g → (∀ c w, g ≠ REnable c w) → (∀ s, g ≠ RPriority s) → reg_of r' g = reg_of r g).
Proof.
  intros Hf. revert r. induction Hf as [|x srcs Hx Hf IH]; intros r; cbn [enable_sources].
  - exists r. split; [done|]. split; [|done]. intros. rewrite bool_decide_false; [done|]. set_solver.
  - rewrite set_priority_Done, outcome_bind_Done by (lia || done). set (r1 := reg_write _ _ _).
    destruct (IH r1) as (r' & E & He & Hp & Ho). exists r'. split; [done|]. split; [|split].
    + intros hart t src Hh Hs. rewrite He by done. unfold r1. rewrite enabled_write, enable_spec by (done || lia).
      rewrite orb_assoc. f_equal. rewrite <- bool_decide_or. apply bool_decide_ext. set_solver.
    + intros s Hs. rewrite Hp by done. unfold r1. rewrite reg_of_write, enable_other by (done || lia).
      destruct (decide (s = x)) as [->|Hne]; [|rewrite (decide_False (P := RPriority s = _)) by congruence].
      * rewrite (decide_True (P := x ∈ x :: srcs)) by set_solver. by case_decide; [|rewrite decide_True].
      * case_decide; [by rewrite decide_True by set_solver|by rewrite decide_False by set_solver].
    + intros g Hg Hne Hnp. rewrite Ho by done. unfold r1. rewrite reg_of_write, enable_other by (done || lia). by rewrite decide_False.
Qed.

(** An interrupt source reaches a context when it is enabled there and its priority is above the threshold. *)
Definition delivers (r : registers) (hart : Z) (t : IntrTargetPriority) (src : Z) : bool :=
  enabled r hart t src && (get_threshold VIRT_PLIC r hart t <? Z.land (reg_of r (RPriority src)) 7).

(** C32. The interrupts of the board. Let [device_init] run on a controller whose sources are not yet
    enabled for the kernel. It succeeds, opens the external interrupts of the processor, and from then
    on the kernel's context of processor 0 is interrupted by exactly the sources 5, 6, 8 and 10, and the
    machine's by none of them; the enable bits of every other context and the priorities of the other
    sources stay. The sources that come through are exactly those [irq_handler] accepts: for each it
    runs the handler of its own device once and then writes this source, and nothing else, to the
    completion register, while on any other source it panics before anything is completed. The device is
    the right one: the mouse for 5, the keyboard for 6, the disk for 8 and the serial port for 10, which
    is the source the board's device tree gives for the address at which the driver of the device
    looks for it (the comment in [device_init], 5 keyboard and 6 mouse, has the two the wrong way round). And
    every register, of 8 processors and 132 sources, lies in an [MMIO] window the kernel has mapped. *)
Theorem board_interrupts (r : registers) (Hr : ∀ src, 0 < src ≤ 132 → enabled r 0 Supervisor src = false) :
  (∃ r', device_init r = Done (r', true) ∧
     (∀ src, 0 < src ≤ 132 → delivers r' 0 Supervisor src = bool_decide (src ∈ [5; 6; 8; 10])) ∧
     (∀ src, src ∈ [5; 6; 8; 10] → delivers r' 0 Machine src = false) ∧
     (∀ hart t src, 0 ≤ hart < 8 → 0 < src ≤ 132 → (hart, t) ≠ (0, Supervisor) → enabled r' hart t src = enabled r hart t src) ∧
     (∀ src, 0 < src ≤ 132 → src ∉ [5; 6; 8; 10] → reg_of r' (RPriority src) = reg_of r (RPriority src))) ∧
  (∀ S (handle_irq : Device → S → outcome S) r' s src,
     if bool_decide (src ∈ [5; 6; 8; 10])
     then ∃ d, irq_device src = Done d ∧
       irq_handler handle_irq (λ _, src) r' s = (s' ← handle_irq d s; mret (reg_write r' (reg_addr (RClaim 1)) src, s'))
     else irq_handler handle_irq (λ _, src) r' s = Panicked PExplicit) ∧
  (irq_device 5 = Done MOUSE_DEVICE ∧ irq_device 6 = Done KEYBOARD_DEVICE ∧ irq_device 8 = Done BLOCK_DEVICE ∧ irq_device 10 = Done UART) ∧
  (∀ d src, irq_device src = Done d ↔ virt_irq (device_base d) = Some src) ∧
  (∀ g, reg_there g → ∃ w, w ∈ MMIO ∧ w.1 ≤ reg_addr g ∧ reg_addr g + 4 ≤ w.1 + w.2).
Proof.
  split; [|split; [|split; [done|split]]].
  - unfold device_init. rewrite !set_threshold_Done, !outcome_bind_Done by lia. rewrite set_threshold_Done, !outcome_bind_Done by lia.
    cbn [target_num]. set (r1 := reg_write _ _ 1). destruct (enable_sources_spec [5; 6; 8; 10] r1) as (r' & E & He & Hp & Ho); [repeat constructor; lia|].
    assert (∀ hart t src, 0 ≤ hart < 8 → 0 < src ≤ 132 → enabled r1 hart t src = enabled r hart t src) as H1.
    { intros. unfold r1. by rewrite !enabled_write by (done || (cbn; lia)). }
    assert (∀ s, 0 < s ≤ 132 → reg_of r1 (RPriority s) = reg_of r (RPriority s)) as Hp1.
    { intros. unfold r1. by rewrite !reg_of_write by (done || (cbn; lia)). }
    exists r'. rewrite E, outcome_bind_Done. split; [done|].
    assert (∀ t, get_threshold VIRT_PLIC r' 0 t = 1 - target_num t) as Ht.
    { intros t. unfold get_threshold. destruct (ptrs_eq 0 t 1) as (_ & _ & -> & _); [lia..|]. rewrite Ho by (done || (destruct t; cbn; lia)).
      unfold r1. rewrite !reg_of_write by (done || (destruct t; cbn; lia)). by destruct t. }
    split; [|split; [|split]].
    + intros src Hs. unfold delivers. rewrite He, H1, Hr, Ht, Hp, orb_false_r by (done || lia). cbn [target_num].
      case_decide as Ei; [by rewrite !bool_decide_true by done|by rewrite !bool_decide_false by tauto].
    + intros src Hs. unfold delivers. assert (0 < src ≤ 132) by (rewrite !elem_of_cons, elem_of_nil in Hs; lia).
      rewrite Ht, Hp, decide_True by done. apply andb_false_r.
    + intros hart t src Hh Hs Hne. rewrite He, H1 by done. rewrite bool_decide_false; [done|]. by intros (-> & -> & _).
    + intros src Hs Hn. by rewrite Hp, decide_False, Hp1.
  - intros S h r' s src. destruct (ptrs_eq 0 Supervisor 1) as (_ & _ & _ & Ec); [lia..|]. unfold irq_handler, complete, claim. rewrite Ec. clear Ec.
    case_bool_decide as Ei.
    + rewrite !elem_of_cons, elem_of_nil in Ei. destruct Ei as [->|[->|[->|[->|[]]]]]; eexists; (split; [done|]); done.
    + rewrite !elem_of_cons, elem_of_nil in Ei. unfold irq_device. rewrite !(proj2 (Z.eqb_neq _ _)) by tauto. done.
  - intros d src. transitivity (src = match d with MOUSE_DEVICE => 5 | KEYBOARD_DEVICE => 6 | BLOCK_DEVICE => 8 | UART => 10 end).
    + unfold irq_device. split; [|intros ->; by destruct d].
      repeat match goal with |- context [Z.eqb src ?n] => destruct (Z.eqb_spec src n) as [->|_]; [by intros [= <-]|] end. done.
    + destruct d; cbn; (split; [by intros ->|by intros [= <-]]).
  - intros g Hg. exists (0xc000000, 0x210000). split; [set_solver|]. destruct g; cbv beta iota delta [reg_there reg_addr fst snd] in *; unfold VIRT_PLIC; lia.
Qed.

(** From the reset state of the controller; source 10 then runs the serial port's handler. *)
Lemma board_interrupts_witness :
  (∃ r', device_init ∅ = Done (r', true) ∧ delivers r' 0 Supervisor 10 = true ∧ delivers r' 0 Supervisor 7 = false) ∧
  irq_handler (λ d n, Done (n + (if decide (d = UART) then 1 else 0))) (λ _, 10) ∅ 41 = Done ({[ 0xC201004 := 10 ]}, 42) ∧
  irq_device 6 = Done KEYBOARD_DEVICE.
Proof.
  destruct (board_interrupts ∅) as ((r' & E & Hd & _) & Hh & _ & Hirq & _).
  - intros src Hs. unfold enabled, reg_read. rewrite lookup_empty. apply Z.bits_0.
  - split; [exists r'; split; [done|]; split; rewrite Hd by lia; done|].
    split; [|by apply Hirq].
    destruct (Hh Z (λ d n, Done (n + (if decide (d = UART) then 1 else 0))) ∅ 41 10) as (d & [= <-] & ->). vm_compute. reflexivity.
Defined.
