(* ===== verification/Ids.v ===== *)
(** * Ids.v: identifiers, kernel stacks and the resources of a thread ([os/src/task/id.rs])

    [RecycleAllocator] gives out pids, kernel stack ids and, per process, thread ids.  The kernel's
    address space and the process's ([memory_set], [task_res_allocator]) are passed explicitly; the
    [Weak] back pointer of [TaskUserRes] is the process the operation is given. *)

From S2P Require Import Prelude Bytes Address FrameAlloc PageTable MemorySet.

(** ** Recycling identifiers *)

Record RecycleAllocator : Type := mkRecycle {
  ra_current : Z;
  ra_recycled : list Z;
}.

Definition RecycleAllocator_new : RecycleAllocator := mkRecycle 0 [].

Definition RecycleAllocator_alloc (r : RecycleAllocator) : Z * RecycleAllocator :=
  match pop (ra_recycled r) with
  | Some (id, l) => (id, mkRecycle (ra_current r) l)
  | None =>
      let c := u64 (ra_current r + 1) in
      (u64 (c - 1), mkRecycle c (ra_recycled r))
  end.

Definition RecycleAllocator_dealloc (r : RecycleAllocator) (id : Z) : outcome RecycleAllocator :=
  assert_that (id <? ra_current r) PAssert;;
  assert_that (negb (existsb (λ i, i =? id) (ra_recycled r))) PAssert;;
  mret (mkRecycle (ra_current r) (ra_recycled r ++ [id])).

(** ** Stack positions *)

Definition kernel_stack_position (kstack_id : Z) : Z * Z :=
  let top := u64 (TRAMPOLINE - u64 (kstack_id * (KERNEL_STACK_SIZE + PAGE_SIZE))) in
  let bottom := u64 (top - KERNEL_STACK_SIZE) in
  (bottom, top).

Definition trap_cx_bottom_from_tid (tid : Z) : Z := u64 (TRAP_CONTEXT_BASE - u64 (tid * PAGE_SIZE)).

Definition ustack_bottom_from_tid (ustack_base tid : Z) : Z :=
  u64 (ustack_base + u64 (tid * (PAGE_SIZE + USER_STACK_SIZE))).

(** The handles [PidHandle] and [KernelStack] are the id they hold. *)
Record TaskUserRes : Type := mkTaskUserRes {
  tur_tid : Z;
  tur_ustack_base : Z;
}.

Section ids.
Context {A : Type} `{FrameAllocator A}.

(** [kstack_alloc] and the [Drop] of [KernelStack], over [KSTACK_ALLOCATOR] and [KERNEL_SPACE]. *)
Definition kstack_alloc (r : RecycleAllocator) (kernel_space : MemorySet) (mm : Mm A)
    : outcome (Z * RecycleAllocator * MemorySet * Mm A) :=
  let '(kstack_id, r) := RecycleAllocator_alloc r in
  let '(kstack_bottom, kstack_top) := kernel_stack_position kstack_id in
  '(kernel_space, mm) ← insert_framed_area mm kernel_space (VirtAddr_from kstack_bottom) (VirtAddr_from kstack_top)
    (Z.lor MapPermission_R MapPermission_W);
  mret (kstack_id, r, kernel_space, mm).

Definition KernelStack_drop (id : Z) (r : RecycleAllocator) (kernel_space : MemorySet) (mm : Mm A)
    : outcome (RecycleAllocator * MemorySet * Mm A) :=
  let '(kernel_stack_bottom, _) := kernel_stack_position id in
  v ← VirtPageNum_of_addr (VirtAddr_from kernel_stack_bottom);
  '(kernel_space, mm) ← remove_area_with_start_vpn mm kernel_space v;
  r ← RecycleAllocator_dealloc r id;
  mret (r, kernel_space, mm).

Definition KernelStack_get_top (id : Z) : Z := snd (kernel_stack_position id).

(** [TaskUserRes], over the process's memory set and thread ids. *)
Definition alloc_user_res (res : TaskUserRes) (ms : MemorySet) (mm : Mm A) : outcome (MemorySet * Mm A) :=
  let ustack_bottom := ustack_bottom_from_tid (tur_ustack_base res) (tur_tid res) in
  let ustack_top := u64 (ustack_bottom + USER_STACK_SIZE) in
  '(ms, mm) ← insert_framed_area mm ms (VirtAddr_from ustack_bottom) (VirtAddr_from ustack_top)
    (Z.lor (Z.lor MapPermission_R MapPermission_W) MapPermission_U);
  let trap_cx_bottom := trap_cx_bottom_from_tid (tur_tid res) in
  let trap_cx_top := u64 (trap_cx_bottom + PAGE_SIZE) in
  insert_framed_area mm ms (VirtAddr_from trap_cx_bottom) (VirtAddr_from trap_cx_top)
    (Z.lor MapPermission_R MapPermission_W).

Definition TaskUserRes_new (tids : RecycleAllocator) (ms : MemorySet) (mm : Mm A) (ustack_base : Z) (alloc : bool)
    : outcome (TaskUserRes * RecycleAllocator * MemorySet * Mm A) :=
  let '(tid, tids) := RecycleAllocator_alloc tids in
  let res := mkTaskUserRes tid ustack_base in
  '(ms, mm) ← (if alloc then alloc_user_res res ms mm else mret (ms, mm));
  mret (res, tids, ms, mm).

Definition dealloc_user_res (res : TaskUserRes) (ms : MemorySet) (mm : Mm A) : outcome (MemorySet * Mm A) :=
  v ← VirtPageNum_of_addr (VirtAddr_from (ustack_bottom_from_tid (tur_ustack_base res) (tur_tid res)));
  '(ms, mm) ← remove_area_with_start_vpn mm ms v;
  v ← VirtPageNum_of_addr (VirtAddr_from (trap_cx_bottom_from_tid (tur_tid res)));
  remove_area_with_start_vpn mm ms v.

Definition TaskUserRes_alloc_tid (res : TaskUserRes) (tids : RecycleAllocator) : TaskUserRes * RecycleAllocator :=
  let '(tid, tids) := RecycleAllocator_alloc tids in
  (mkTaskUserRes tid (tur_ustack_base res), tids).

Definition dealloc_tid (res : TaskUserRes) (tids : RecycleAllocator) : outcome RecycleAllocator :=
  RecycleAllocator_dealloc tids (tur_tid res).

Definition trap_cx_user_va (res : TaskUserRes) : Z := trap_cx_bottom_from_tid (tur_tid res).

Definition trap_cx_ppn (res : TaskUserRes) (ms : MemorySet) (mm : Mm A) : outcome PhysPageNum :=
  v ← VirtPageNum_of_addr (VirtAddr_from (trap_cx_bottom_from_tid (tur_tid res)));
  o ← MemorySet_translate mm ms v;
  e ← unwrap PUnwrap o;
  mret (PTE_ppn e).

Definition ustack_top (res : TaskUserRes) : Z :=
  u64 (ustack_bottom_from_tid (tur_ustack_base res) (tur_tid res) + USER_STACK_SIZE).

(** [Drop for TaskUserRes] *)
Definition TaskUserRes_drop (res : TaskUserRes) (tids : RecycleAllocator) (ms : MemorySet) (mm : Mm A)
    : outcome (RecycleAllocator * MemorySet * Mm A) :=
  tids ← dealloc_tid res tids;
  '(ms, mm) ← dealloc_user_res res ms mm;
  mret (tids, ms, mm).
End ids.

(** ** The allocator's invariant: the ids below [ra_current] are in use or recycled *)

Record ra_inv (r : RecycleAllocator) (live : gset Z) : Prop := {
  ra_range : 0 ≤ ra_current r < 2 ^ 63;
  ra_nodup : NoDup (ra_recycled r);
  ra_rec : ∀ i, i ∈ ra_recycled r → 0 ≤ i < ra_current r;
  ra_live : ∀ i, i ∈ live ↔ 0 ≤ i < ra_current r ∧ i ∉ ra_recycled r;
}.

Lemma ra_inv_new : ra_inv RecycleAllocator_new ∅.
Proof. split; cbn; [lia|constructor|set_solver|]. intros i. split; [set_solver|lia]. Qed.

Lemma existsb_eqb_elem (l : list Z) x : existsb (λ i, i =? x) l = bool_decide (x ∈ l).
Proof.
  induction l as [|y l IH]; [done|]. cbn [existsb]. rewrite IH.
  destruct (Z.eqb_spec y x) as [->|Hne]; cbn [orb]; [symmetry; apply bool_decide_true; by left|].
  apply bool_decide_ext. rewrite elem_of_cons. naive_solver.
Qed.

Lemma ra_alloc_spec r live : ra_inv r live → ra_current r + 1 < 2 ^ 63 →
  let '(id, r') := RecycleAllocator_alloc r in
  id ∉ live ∧ 0 ≤ id < 2 ^ 63 ∧ ra_inv r' ({[id]} ∪ live) ∧ ra_current r' ≤ ra_current r + 1 ∧
  (ra_recycled r = [] → id = ra_current r) ∧ (ra_recycled r ≠ [] → last (ra_recycled r) = Some id).
Proof.
  intros [Hr Hnd Hrec Hl] Hb. unfold RecycleAllocator_alloc.
  destruct (pop (ra_recycled r)) as [[x l]|] eqn:E.
  - apply pop_Some in E. rewrite E in *. assert (Hx : x ∈ l ++ [x]) by (apply elem_of_app; right; by left).
    pose proof (Hrec x Hx). apply NoDup_app in Hnd as (Hnd & Hxl & _).
    assert (x ∉ l) by (intros Hi; apply (Hxl x Hi); by left).
    split; [rewrite Hl; naive_solver|]. split; [lia|]. split.
    + split; cbn [ra_current ra_recycled]; [lia|done| |].
      * intros i Hi. apply Hrec. apply elem_of_app. by left.
      * intros i. rewrite elem_of_union, elem_of_singleton, Hl, elem_of_app, list_elem_of_singleton.
        destruct (decide (i = x)) as [->|]; naive_solver.
    + cbn. split; [lia|]. split; [by destruct l|]. intros _. by rewrite last_snoc.
  - apply pop_None in E. rewrite E in *. rewrite (wrap_small 64 (ra_current r + 1)) by lia.
    rewrite wrap_small by lia. replace (ra_current r + 1 - 1) with (ra_current r) by lia.
    split; [rewrite Hl; lia|]. split; [lia|]. split.
    + split; cbn [ra_current ra_recycled]; [lia|constructor|set_solver|].
      intros i. rewrite elem_of_union, elem_of_singleton, Hl. set_solver by lia.
    + cbn. split; [lia|]. by split.
Qed.

Lemma ra_dealloc_spec r live id : ra_inv r live → 0 ≤ id →
  if decide (id ∈ live) then ∃ r', RecycleAllocator_dealloc r id = Done r' ∧ ra_inv r' (live ∖ {[id]})
  else RecycleAllocator_dealloc r id = Panicked PAssert.
Proof.
  intros [Hr Hnd Hrec Hl] Hid. unfold RecycleAllocator_dealloc. rewrite existsb_eqb_elem.
  case_decide as Hin; rewrite Hl in Hin.
  - destruct Hin as [Hb Hni]. destruct (Z.ltb_spec id (ra_current r)); [|lia]. cbn [assert_that].
    rewrite bool_decide_false by done. cbn [negb assert_that]. rewrite !outcome_bind_Done.
    eexists. split; [done|]. split; cbn [ra_current ra_recycled]; [lia| | |].
    + apply NoDup_app. split; [done|]. split; [|apply NoDup_singleton]. intros x Hx ->%list_elem_of_singleton. done.
    + intros i [Hi| ->%list_elem_of_singleton]%elem_of_app; [by apply Hrec|lia].
    + intros i. rewrite elem_of_difference, elem_of_singleton, Hl, elem_of_app, list_elem_of_singleton. naive_solver.
  - destruct (Z.ltb_spec id (ra_current r)); cbn [assert_that]; [|done]. rewrite outcome_bind_Done.
    case_bool_decide as Hr'; [done|]. exfalso. apply Hin. done.
Qed.

(** Identifiers: [alloc] gives an id that is not in use, the last one recycled or else the
    smallest never given out; [dealloc] takes back exactly the ids in use and panics on any other,
    a double free included; the ids in use and the recycled ones stay a partition of the ids below
    the allocator's [current]. *)
Theorem recycle_allocator_ids r live :
  ra_inv r live → ra_current r + 1 < 2 ^ 63 →
  (let '(id, r') := RecycleAllocator_alloc r in
   id ∉ live ∧ ra_inv r' ({[id]} ∪ live) ∧
   match last (ra_recycled r) with Some i => id = i | None => id = ra_current r end ∧
   RecycleAllocator_dealloc r id = Panicked PAssert) ∧
  (∀ id, 0 ≤ id → (∃ r', RecycleAllocator_dealloc r id = Done r') ↔ id ∈ live) ∧
  (∀ id r', id ∈ live → RecycleAllocator_dealloc r id = Done r' → ra_inv r' (live ∖ {[id]})).
Proof.
  intros I Hb. pose proof (ra_alloc_spec r live I Hb) as Ha. destruct (RecycleAllocator_alloc r) as [id r'].
  destruct Ha as (Hid & Hr & I' & _ & Hn & Hs). split; [|split].
  - split; [done|]. split; [done|]. split.
    + destruct (decide (ra_recycled r = [])) as [E|E]; [by rewrite E, Hn|by rewrite Hs].
    + pose proof (ra_dealloc_spec r live id I ltac:(lia)) as Hd. by rewrite decide_False in Hd.
  - intros j Hj. pose proof (ra_dealloc_spec r live j I Hj) as Hd. case_decide; [naive_solver|].
    rewrite Hd. naive_solver.
  - intros j r2 Hj E. pose proof (ra_dealloc_spec r live j I) as Hd.
    rewrite decide_True in Hd by done. destruct Hd as (r3 & E3 & I3); [by apply (ra_live _ _ I)|congruence].
Qed.

Lemma recycle_allocator_ids_witness :
  RecycleAllocator_dealloc (mkRecycle 3 [1]) 1 = Panicked PAssert ∧
  RecycleAllocator_alloc (mkRecycle 3 [1]) = (1, mkRecycle 3 []).
Proof.
  destruct (recycle_allocator_ids (mkRecycle 3 [1]) (list_to_set [0; 2])) as (Ha & _).
  - split; cbn; [lia|apply NoDup_singleton|set_solver by lia|]. intros i. set_solver by lia.
  - cbn. lia.
  - split; [apply Ha|reflexivity].
Defined.

(** ** Where the stacks and trap contexts are, in pages *)

Lemma page_addr n : 0 ≤ n < 2 ^ 52 →
  VirtAddr_floor (VirtAddr_from (n * 4096)) = VPN (n mod 2 ^ 27) ∧
  VirtPageNum_of_addr (VirtAddr_from (n * 4096)) = Done (VPN (n mod 2 ^ 27)) ∧
  (n mod 2 ^ 27 ≠ 0 → VirtAddr_ceil (VirtAddr_from (n * 4096)) = VPN (n mod 2 ^ 27)).
Proof.
  intros Hn. unfold VirtPageNum_of_addr, VirtAddr_page_offset, VirtAddr_floor, VirtAddr_ceil, VirtAddr_from.
  cbn [va]. rewrite mask_land by done. change VA_WIDTH_SV39 with 39. change PAGE_SIZE with 4096.
  assert (E : (n * 4096) mod 2 ^ 39 = n mod 2 ^ 27 * 4096) by dlia. rewrite E.
  assert (Hb : 0 ≤ n mod 2 ^ 27 < 2 ^ 27) by (apply Z.mod_pos_bound; lia). revert Hb. clear E.
  generalize (n mod 2 ^ 27). intros k Hk. rewrite Z.div_mul by done.
  change (4096 - 1) with (Z.ones 12). rewrite Z.land_ones, Z_mod_mult by done. split; [done|]. split; [done|].
  intros Hk0. f_equal. rewrite (wrap_small 64 (k * 4096 - 1)) by lia. rewrite wrap_small by lia. dlia.
Qed.

(** The range of pages [insert_framed_area] takes for a stack or a trap context. *)
Definition region (bottom top : Z) : VPNRange :=
  mkRange (VirtAddr_floor (VirtAddr_from bottom)) (VirtAddr_ceil (VirtAddr_from top)).

Definition kstack_region (id : Z) : VPNRange :=
  let '(bottom, top) := kernel_stack_position id in region bottom top.

Definition ustack_region (base tid : Z) : VPNRange :=
  region (ustack_bottom_from_tid base tid) (u64 (ustack_bottom_from_tid base tid + USER_STACK_SIZE)).

Definition trap_cx_region (tid : Z) : VPNRange :=
  region (trap_cx_bottom_from_tid tid) (u64 (trap_cx_bottom_from_tid tid + PAGE_SIZE)).

Lemma region_pages a b : 0 ≤ a < 2 ^ 52 → 0 ≤ b < 2 ^ 52 → b mod 2 ^ 27 ≠ 0 →
  region (a * 4096) (b * 4096) = mkRange (VPN (a mod 2 ^ 27)) (VPN (b mod 2 ^ 27)).
Proof.
  intros Ha Hb Hb0. unfold region. destruct (page_addr a Ha) as [-> _].
  destruct (page_addr b Hb) as (_ & _ & ->); [done..|]. done.
Qed.

Lemma TRAMPOLINE_page : TRAMPOLINE = (2 ^ 52 - 1) * 4096.
Proof. done. Qed.

Lemma kstack_region_eq i : 0 ≤ i → 3 * (i + 1) < 2 ^ 26 →
  kernel_stack_position i = ((2 ^ 52 - 3 - 3 * i) * 4096, (2 ^ 52 - 1 - 3 * i) * 4096) ∧
  kstack_region i = mkRange (VPN (2 ^ 27 - 3 - 3 * i)) (VPN (2 ^ 27 - 1 - 3 * i)).
Proof.
  intros Hi Hb.
  assert (E : kernel_stack_position i = ((2 ^ 52 - 3 - 3 * i) * 4096, (2 ^ 52 - 1 - 3 * i) * 4096)).
  { unfold kernel_stack_position, KERNEL_STACK_SIZE, PAGE_SIZE. rewrite TRAMPOLINE_page.
    rewrite (wrap_small 64 (i * _)) by lia. rewrite (wrap_small 64 (_ - i * _)) by lia. rewrite wrap_small by lia.
    f_equal; lia. }
  split; [done|]. unfold kstack_region. rewrite E, region_pages by dlia. f_equal; f_equal; dlia.
Qed.

Lemma ustack_region_eq n i : 0 ≤ n → 0 ≤ i → n + 3 * (i + 1) < 2 ^ 26 →
  ustack_bottom_from_tid (n * 4096) i = (n + 3 * i) * 4096 ∧
  ustack_region (n * 4096) i = mkRange (VPN (n + 3 * i)) (VPN (n + 3 * i + 2)).
Proof.
  intros Hn Hi Hb.
  assert (E : ustack_bottom_from_tid (n * 4096) i = (n + 3 * i) * 4096).
  { unfold ustack_bottom_from_tid, USER_STACK_SIZE, PAGE_SIZE.
    rewrite (wrap_small 64 (i * _)) by lia. rewrite wrap_small by lia. lia. }
  split; [done|]. unfold ustack_region. rewrite E. change USER_STACK_SIZE with (2 * 4096).
  rewrite wrap_small by lia. replace ((n + 3 * i) * 4096 + 2 * 4096) with ((n + 3 * i + 2) * 4096) by lia.
  rewrite region_pages by dlia. f_equal; f_equal; dlia.
Qed.

Lemma trap_cx_region_eq i : 0 ≤ i → i + 1 < 2 ^ 26 →
  trap_cx_bottom_from_tid i = (2 ^ 52 - 2 - i) * 4096 ∧
  trap_cx_region i = mkRange (VPN (2 ^ 27 - 2 - i)) (VPN (2 ^ 27 - 1 - i)).
Proof.
  intros Hi Hb.
  assert (E : trap_cx_bottom_from_tid i = (2 ^ 52 - 2 - i) * 4096).
  { unfold trap_cx_bottom_from_tid, TRAP_CONTEXT_BASE, PAGE_SIZE. rewrite TRAMPOLINE_page. unfold PAGE_SIZE.
    rewrite (wrap_small 64 (i * _)) by lia. rewrite wrap_small by lia. lia. }
  split; [done|]. unfold trap_cx_region. rewrite E. change PAGE_SIZE with 4096. rewrite wrap_small by lia.
  replace ((2 ^ 52 - 2 - i) * 4096 + 4096) with ((2 ^ 52 - 1 - i) * 4096) by lia.
  rewrite region_pages by dlia. f_equal; f_equal; dlia.
Qed.

Definition apart (r1 r2 : VPNRange) : Prop := ∀ v, v ∈ range_pages r1 → v ∈ range_pages r2 → False.

(** The guard page: the one just below a region. *)
Definition guard (r : VPNRange) : VirtPageNum := VPN (vpn (rl r) - 1).

Lemma apart_spec r1 r2 : vpn (rr r1) ≤ vpn (rl r2) ∨ vpn (rr r2) ≤ vpn (rl r1) → apart r1 r2.
Proof. intros H v H1%range_pages_spec H2%range_pages_spec. lia. Qed.

(** Stacks and trap contexts: two kernel stacks, two user stacks, two trap contexts or a user
    stack and a trap context never share a page, for different ids; the page below every kernel
    stack and below every user stack but the first belongs to no stack (it is a guard page); none
    holds the trampoline page; and [get_top] is the end of the kernel stack. *)
Theorem stacks_disjoint n i j :
  0 ≤ n → 0 ≤ i → 0 ≤ j → 3 * (i + 1) < 2 ^ 26 → 3 * (j + 1) < 2 ^ 26 →
  n + 3 * (i + 1) < 2 ^ 26 → n + 3 * (j + 1) < 2 ^ 26 →
  let base := n * PAGE_SIZE in let trampoline := VirtAddr_floor (VirtAddr_from TRAMPOLINE) in
  (i ≠ j → apart (kstack_region i) (kstack_region j) ∧ apart (ustack_region base i) (ustack_region base j) ∧
     apart (trap_cx_region i) (trap_cx_region j)) ∧
  apart (ustack_region base i) (trap_cx_region j) ∧
  guard (kstack_region i) ∉ range_pages (kstack_region j) ∧
  guard (ustack_region base i) ∉ range_pages (ustack_region base j) ∧
  trampoline ∉ range_pages (kstack_region i) ∧ trampoline ∉ range_pages (ustack_region base i) ∧
  trampoline ∉ range_pages (trap_cx_region i) ∧
  KernelStack_get_top i = fst (kernel_stack_position i) + KERNEL_STACK_SIZE.
Proof.
  intros Hn Hi Hj Hki Hkj Hui Huj base trampoline. subst base. change PAGE_SIZE with 4096.
  destruct (kstack_region_eq i) as [Ei ->]; [lia..|]. destruct (kstack_region_eq j) as [_ ->]; [lia..|].
  destruct (ustack_region_eq n i) as [_ ->]; [lia..|]. destruct (ustack_region_eq n j) as [_ ->]; [lia..|].
  destruct (trap_cx_region_eq i) as [_ ->]; [lia..|]. destruct (trap_cx_region_eq j) as [_ ->]; [lia..|].
  assert (Et : trampoline = VPN (2 ^ 27 - 1)) by by vm_compute. rewrite Et. clear Et trampoline.
  split.
  { intros Hne. split; [|split]; apply apart_spec; cbn [rl rr vpn]; lia. }
  split; [apply apart_spec; cbn [rl rr vpn]; lia|].
  unfold guard. rewrite !range_pages_spec. cbn [rl rr vpn].
  split; [lia|]. split; [lia|]. split; [lia|]. split; [lia|]. split; [lia|].
  unfold KernelStack_get_top. rewrite Ei. cbn [fst snd]. unfold KERNEL_STACK_SIZE. lia.
Qed.

Lemma stacks_disjoint_witness :
  apart (kstack_region 0) (kstack_region 1) ∧ apart (ustack_region (5 * PAGE_SIZE) 0) (ustack_region (5 * PAGE_SIZE) 1).
Proof.
  destruct (stacks_disjoint 5 0 1) as (H & _); [lia..|]. destruct H as (H1 & H2 & _); [lia|]. by split.
Defined.

(** ** A thread's resources *)

Section resources.
Context {A : Type} `{FrameAllocatorLaws A}.

Definition USTACK_PERM : Z := Z.lor (Z.lor MapPermission_R MapPermission_W) MapPermission_U.
Definition TRAP_PERM : Z := Z.lor MapPermission_R MapPermission_W.

Abbreviation frames_of r g := (list_to_set (g <$> range_pages r) : gset PhysPageNum).

(** The resources of thread [i] are in the address space, as its last two areas. *)
Record has_res (m : memory) (ms : MemorySet) (before : list MapArea) (path : gmap PhysPageNum (list Z))
    (used : gset PhysPageNum) (base i : Z) (ar1 ar2 : MapArea) (g1 g2 : VirtPageNum → PhysPageNum) : Prop := {
  hr_areas : areas ms = before ++ [ar1; ar2];
  hr_stack : vpn_range ar1 = ustack_region base i;
  hr_trap : vpn_range ar2 = trap_cx_region i;
  hr_held1 : held m (page_table ms) path used USTACK_PERM ar1 g1;
  hr_held2 : held m (page_table ms) path used TRAP_PERM ar2 g2;
  hr_apart : ∀ v w, v ∈ range_pages (vpn_range ar1) → w ∈ range_pages (vpn_range ar2) → g1 v ≠ g2 w;
}.

Lemma alloc_user_res_spec a m ms path free used n i :
  pt_state a m (root_ppn (page_table ms)) (pt_frames (page_table ms)) path free used →
  0 ≤ n → 0 ≤ i → n + 3 * (i + 1) < 2 ^ 26 → (9 ≤ size free)%nat →
  let base := n * 4096 in
  (∀ v, v ∈ range_pages (ustack_region base i) ∨ v ∈ range_pages (trap_cx_region i) → mapping m (page_table ms) v = None) →
  ∃ ms' a' m' path' free' used' ar1 ar2 g1 g2,
    alloc_user_res (mkTaskUserRes i base) ms (mkMm a m) = Done (ms', mkMm a' m') ∧
    pt_state a' m' (root_ppn (page_table ms')) (pt_frames (page_table ms')) path' free' used' ∧
    has_res m' ms' (areas ms) path' used' base i ar1 ar2 g1 g2 ∧
    (∀ v, 0 ≤ vpn v < 2 ^ 27 → v ∉ range_pages (ustack_region base i) → v ∉ range_pages (trap_cx_region i) →
       mapping m' (page_table ms') v = mapping m (page_table ms) v) ∧
    used' ∪ free' = used ∪ free ∧ used ⊆ used' ∧
    used' ⊆ used ∪ dom path' ∪ frames_of (ustack_region base i) g1 ∪ frames_of (trap_cx_region i) g2.
Proof.
  intros S Hn Hi Hb Hfree base Hnone.
  destruct (ustack_region_eq n i Hn Hi Hb) as [_ Er1]. destruct (trap_cx_region_eq i Hi ltac:(lia)) as [_ Er2].
  fold base in Er1. unfold alloc_user_res. cbn [tur_ustack_base tur_tid].
  set (sb := ustack_bottom_from_tid base i) in *. set (tb := trap_cx_bottom_from_tid i) in *.
  unfold ustack_region, trap_cx_region, region in *. fold sb tb in Er1, Er2, Hnone |- *.
  destruct (insert_framed_spec a m ms path free used (VirtAddr_from sb) (VirtAddr_from (u64 (sb + USER_STACK_SIZE))) USTACK_PERM S)
    as (ms1 & a1 & m1 & path1 & free1 & used1 & ar1 & g1 & Hrun1 & S1 & I1).
  { rewrite (f_equal rl Er1 : VirtAddr_floor _ = _), (f_equal rr Er1 : VirtAddr_ceil _ = _). cbn [rl rr vpn]. lia. }
  { rewrite (f_equal rr Er1 : VirtAddr_ceil _ = _). cbn [rr vpn]. lia. }
  { done. }
  { intros v Hv. apply Hnone. by left. }
  { rewrite Er1, length_range_pages. cbn [rl rr vpn]. lia. }
  unfold USTACK_PERM in Hrun1. rewrite Hrun1, outcome_bind_Done.
  pose proof (in_size _ _ _ _ _ _ _ _ _ _ _ _ _ _ I1) as Hsz. rewrite Er1, length_range_pages in Hsz. cbn [rl rr vpn] in Hsz.
  assert (Hap : ∀ v, v ∈ range_pages (mkRange (VirtAddr_floor (VirtAddr_from tb)) (VirtAddr_ceil (VirtAddr_from (u64 (tb + PAGE_SIZE))))) →
    v ∉ range_pages (mkRange (VirtAddr_floor (VirtAddr_from sb)) (VirtAddr_ceil (VirtAddr_from (u64 (sb + USER_STACK_SIZE)))))).
  { rewrite Er1, Er2. intros v. rewrite !range_pages_spec. cbn [rl rr vpn]. lia. }
  destruct (insert_framed_spec a1 m1 ms1 path1 free1 used1 (VirtAddr_from tb) (VirtAddr_from (u64 (tb + PAGE_SIZE))) TRAP_PERM S1)
    as (ms2 & a2 & m2 & path2 & free2 & used2 & ar2 & g2 & Hrun2 & S2 & I2).
  { rewrite (f_equal rl Er2 : VirtAddr_floor _ = _), (f_equal rr Er2 : VirtAddr_ceil _ = _). cbn [rl rr vpn]. lia. }
  { rewrite (f_equal rr Er2 : VirtAddr_ceil _ = _). cbn [rr vpn]. lia. }
  { done. }
  { intros v Hv. rewrite (in_map _ _ _ _ _ _ _ _ _ _ _ _ _ _ I1).
    - rewrite decide_False by by apply Hap. apply Hnone. by right.
    - rewrite Er2 in Hv. apply range_pages_spec in Hv. cbn [rl rr vpn] in Hv. lia. }
  { rewrite Er2, length_range_pages. cbn [rl rr vpn]. lia. }
  unfold TRAP_PERM in Hrun2. exists ms2, a2, m2, path2, free2, used2, ar1, ar2, g1, g2. split; [done|]. split; [done|].
  destruct (in_sets _ _ _ _ _ _ _ _ _ _ _ _ _ _ I1) as (Hf1 & Hun1 & [Hu1 Hn1] & Hp1).
  destruct (in_sets _ _ _ _ _ _ _ _ _ _ _ _ _ _ I2) as (Hf2 & Hun2 & [Hu2 Hn2] & Hp2).
  pose proof (in_rg _ _ _ _ _ _ _ _ _ _ _ _ _ _ I1) as Hrg1.
  split.
  { split; try (apply I1 || apply I2).
    - by rewrite (in_areas _ _ _ _ _ _ _ _ _ _ _ _ _ _ I2), (in_areas _ _ _ _ _ _ _ _ _ _ _ _ _ _ I1), <- app_assoc.
    - eapply (held_insert a1 m1); [exact S1|exact I2|apply I1|]. rewrite Hrg1. intros v Hv Hv'. by apply (Hap v).
    - intros v w Hv Hw. rewrite (in_rg _ _ _ _ _ _ _ _ _ _ _ _ _ _ I2) in Hw.
      destruct (in_new _ _ _ _ _ _ _ _ _ _ _ _ _ _ I2 w Hw) as [Hf _]. intros E. rewrite <- E in Hf.
      apply (fa_disjoint _ _ _ (ps_alloc _ _ _ _ _ _ _ S1) (g1 v) Hf).
      by apply (h_frame _ _ _ _ _ _ _ (in_held _ _ _ _ _ _ _ _ _ _ _ _ _ _ I1)). }
  split.
  { intros v Hv H1 H2. rewrite (in_map _ _ _ _ _ _ _ _ _ _ _ _ _ _ I2), (in_map _ _ _ _ _ _ _ _ _ _ _ _ _ _ I1) by done.
    by rewrite !decide_False. }
  split; [by rewrite Hun2, Hun1|]. apply subseteq_dom in Hp2.
  revert Hn1 Hn2. match goal with |- _ ⊆ _ ∪ ?x → _ ⊆ _ ∪ ?y → _ => generalize x y end.
  clear - Hu1 Hu2 Hp2. set_solver.
Qed.

Lemma dealloc_user_res_spec a m ms path free used n i before ar1 ar2 g1 g2 :
  pt_state a m (root_ppn (page_table ms)) (pt_frames (page_table ms)) path free used →
  0 ≤ n → 0 ≤ i → n + 3 * (i + 1) < 2 ^ 26 → let base := n * 4096 in
  has_res m ms before path used base i ar1 ar2 g1 g2 →
  (∀ ar, ar ∈ before → rl (vpn_range ar) ≠ rl (ustack_region base i) ∧ rl (vpn_range ar) ≠ rl (trap_cx_region i)) →
  let fs := frames_of (ustack_region base i) g1 ∪ frames_of (trap_cx_region i) g2 in
  ∃ a' m',
    dealloc_user_res (mkTaskUserRes i base) ms (mkMm a m) = Done (mkMemorySet (page_table ms) before, mkMm a' m') ∧
    pt_state a' m' (root_ppn (page_table ms)) (pt_frames (page_table ms)) path (fs ∪ free) (used ∖ fs) ∧
    (∀ v, 0 ≤ vpn v < 2 ^ 27 → mapping m' (page_table ms) v =
       if decide (v ∈ range_pages (ustack_region base i) ∨ v ∈ range_pages (trap_cx_region i)) then None
       else mapping m (page_table ms) v).
Proof.
  intros S Hn Hi Hb base [Har Hs Ht H1 H2 Hdis] Hbefore fs.
  destruct (ustack_region_eq n i Hn Hi Hb) as [Eb1 Er1]. destruct (trap_cx_region_eq i Hi ltac:(lia)) as [Eb2 Er2].
  fold base in Eb1, Er1. unfold dealloc_user_res. cbn [tur_ustack_base tur_tid]. rewrite Eb1, Eb2.
  destruct (page_addr (n + 3 * i)) as (_ & -> & _); [lia|]. destruct (page_addr (2 ^ 52 - 2 - i)) as (_ & -> & _); [lia|].
  replace ((n + 3 * i) mod 2 ^ 27) with (n + 3 * i) by dlia. replace ((2 ^ 52 - 2 - i) mod 2 ^ 27) with (2 ^ 27 - 2 - i) by dlia.
  rewrite outcome_bind_Done.
  destruct (remove_framed_spec a m ms path free used _ (length before) ar1 g1 S H1) as (a1 & m1 & Hrun1 & S1 & Hm1 & Ho1).
  { rewrite Har. by rewrite list_lookup_middle. }
  { intros j b Hj Hlb. rewrite Har, lookup_app_l in Hlb by done. rewrite Hs. apply Hbefore. by eapply list_elem_of_lookup_2. }
  rewrite Hs in Hrun1. rewrite Er1 in Hrun1 at 1. cbn [rl] in Hrun1. rewrite Hrun1, !outcome_bind_Done.
  assert (Hap : ∀ v, v ∈ range_pages (vpn_range ar2) → v ∉ range_pages (vpn_range ar1)).
  { rewrite Hs, Ht, Er1, Er2. intros v. rewrite !range_pages_spec. cbn [rl rr vpn]. lia. }
  set (ms1 := mkMemorySet (page_table ms) (delete (length before) (areas ms))) in *.
  assert (Har1 : areas ms1 = before ++ [ar2]) by (cbn [areas ms1]; by rewrite Har, delete_middle).
  destruct (remove_framed_spec a1 m1 ms1 path _ _ TRAP_PERM (length before) ar2 g2 S1) as (a2 & m2 & Hrun2 & S2 & Hm2 & _).
  { apply (held_stable m m1 (page_table ms) _ path path used _ TRAP_PERM ar2 g2 H2).
    - intros v Hv. change (page_table ms1) with (page_table ms). rewrite Hm1 by by apply (h_range _ _ _ _ _ _ _ H2).
      rewrite decide_False; [done|]. by apply Hap.
    - intros v Hv. destruct (h_frame _ _ _ _ _ _ _ H2 v Hv) as (Hu & Hp & _). split; [|split; [done|by apply Ho1]].
      apply elem_of_difference. split; [done|]. intros (w & Hw & Hwin)%elem_of_list_to_set%list_elem_of_fmap.
      by apply (Hdis w v Hwin Hv). }
  { rewrite Har1. by rewrite list_lookup_middle. }
  { intros j b Hj Hlb. rewrite Har1, lookup_app_l in Hlb by done. rewrite Ht. apply Hbefore. by eapply list_elem_of_lookup_2. }
  rewrite Ht in Hrun2. rewrite Er2 in Hrun2 at 1. cbn [rl] in Hrun2. rewrite Hrun2. rewrite Har1, delete_middle, app_nil_r.
  exists a2, m2. split; [done|]. rewrite Hs, Ht in *. split; [|].
  - unfold fs. revert S2. match goal with |- pt_state _ _ _ _ _ (?x ∪ (?y ∪ _)) _ → _ => generalize x y end.
    intros x y S2. replace (y ∪ x ∪ free) with (x ∪ (y ∪ free)) by (clear; set_solver).
    by replace (used ∖ (y ∪ x)) with (used ∖ y ∖ x) by (clear; set_solver).
  - intros v Hv. change (page_table ms) with (page_table ms1). rewrite Hm2 by done.
    change (page_table ms1) with (page_table ms). rewrite Hm1 by done.
    repeat case_decide; tauto.
Qed.
End resources.

(** C36. A thread's resources: [TaskUserRes::new] gives a thread id not in use, maps two user pages
    read/write/user for its stack and one page, not for the user, for its trap context, whose frame
    [trap_cx_ppn] then finds, and leaves all other pages alone; dropping it gives the id back,
    unmaps exactly these pages, restores the areas, and every frame but those that became tables is
    free again. *)
Theorem thread_resources a m ms path free used tids live n :
  pt_state (A := StackFrameAllocator) a m (root_ppn (page_table ms)) (pt_frames (page_table ms)) path free used →
  ra_inv tids live → 0 ≤ n → n + 3 * (ra_current tids + 1) < 2 ^ 26 → (9 ≤ size free)%nat →
  let base := n * PAGE_SIZE in let tid := fst (RecycleAllocator_alloc tids) in
  let stack := range_pages (ustack_region base tid) in let trap := range_pages (trap_cx_region tid) in
  (∀ v, v ∈ stack ∨ v ∈ trap → mapping m (page_table ms) v = None) →
  (∀ ar, ar ∈ areas ms → rl (vpn_range ar) ≠ rl (ustack_region base tid) ∧ rl (vpn_range ar) ≠ rl (trap_cx_region tid)) →
  ∃ res tids' ms' a' m' g gt,
    TaskUserRes_new tids ms (mkMm a m) base true = Done (res, tids', ms', mkMm a' m') ∧
    tid ∉ live ∧ ra_inv tids' ({[tid]} ∪ live) ∧
    (∀ v, v ∈ stack → mapping m' (page_table ms') v = Some (PTE_new (g v) (PTE_V + PTE_R + PTE_W + PTE_U))) ∧
    trap = [VPN (vpn (VirtAddr_floor (VirtAddr_from (trap_cx_user_va res))))] ∧
    (∀ v, v ∈ trap → mapping m' (page_table ms') v = Some (PTE_new gt (PTE_V + PTE_R + PTE_W))) ∧
    trap_cx_ppn res ms' (mkMm a' m') = Done gt ∧
    (∀ v, 0 ≤ vpn v < 2 ^ 27 → v ∉ stack → v ∉ trap → mapping m' (page_table ms') v = mapping m (page_table ms) v) ∧
    ∃ tids2 ms2 a2 m2 path2 free2 used2,
      TaskUserRes_drop res tids' ms' (mkMm a' m') = Done (tids2, ms2, mkMm a2 m2) ∧
      ra_inv tids2 live ∧ areas ms2 = areas ms ∧
      (∀ v, 0 ≤ vpn v < 2 ^ 27 → mapping m2 (page_table ms2) v = mapping m (page_table ms) v) ∧
      pt_state a2 m2 (root_ppn (page_table ms2)) (pt_frames (page_table ms2)) path2 free2 used2 ∧
      (∀ p, p ∈ free → path2 !! p = None → p ∈ free2).
Proof.
  intros S I Hn Hb Hfree base tid stack trap Hnone Hareas.
  pose proof (ra_alloc_spec tids live I ltac:(lia)) as Ha. unfold TaskUserRes_new. subst tid.
  destruct (RecycleAllocator_alloc tids) as [tid tids']. cbn [fst] in *. destruct Ha as (Hid & Hidr & I' & Hcur & Hlast).
  assert (Hib : tid ≤ ra_current tids).
  { pose proof (ra_live _ _ I') as Hl. assert (Hin : tid ∈ ({[tid]} ∪ live : gset Z)) by (clear; set_solver).
    apply Hl in Hin as [? _]. lia. }
  destruct (alloc_user_res_spec a m ms path free used n tid S Hn ltac:(lia) ltac:(lia) Hfree Hnone)
    as (ms' & a' & m' & path' & free' & used' & ar1 & ar2 & g1 & g2 & Hrun & S' & R & Hother & Hun & Hus & Hnew).
  change (n * 4096) with base in *. rewrite Hrun, outcome_bind_Done.
  destruct (trap_cx_region_eq tid ltac:(lia) ltac:(lia)) as [Eb Er].
  set (t := VPN (2 ^ 27 - 2 - tid)). assert (Et : trap = [t]).
  { unfold trap. rewrite Er. unfold range_pages. cbn [rl rr vpn].
    replace (2 ^ 27 - 1 - tid - (2 ^ 27 - 2 - tid)) with 1 by lia. rewrite seqZ_cons by done. rewrite seqZ_nil by lia. reflexivity. }
  destruct (page_addr (2 ^ 52 - 2 - tid)) as (Efl & Eof & _); [lia|].
  replace ((2 ^ 52 - 2 - tid) mod 2 ^ 27) with (2 ^ 27 - 2 - tid) in * by dlia. fold t in Efl, Eof.
  assert (Ht : mapping m' (page_table ms') t = Some (PTE_new (g2 t) 7) ∧ 0 ≤ ppn (g2 t) < 2 ^ 44).
  { assert (Hin : t ∈ range_pages (vpn_range ar2)).
    { rewrite (hr_trap _ _ _ _ _ _ _ _ _ _ _ R). fold trap. rewrite Et. by left. }
    split; [exact (h_map _ _ _ _ _ _ _ (hr_held2 _ _ _ _ _ _ _ _ _ _ _ R) t Hin)|].
    by apply (h_frame _ _ _ _ _ _ _ (hr_held2 _ _ _ _ _ _ _ _ _ _ _ R)). }
  exists (mkTaskUserRes tid base), tids', ms', a', m', g1, (g2 t). split; [done|]. split; [done|]. split; [done|].
  split.
  { intros v Hv. pose proof (h_map _ _ _ _ _ _ _ (hr_held1 _ _ _ _ _ _ _ _ _ _ _ R)) as Hm.
    rewrite (hr_stack _ _ _ _ _ _ _ _ _ _ _ R) in Hm. exact (Hm v Hv). }
  split; [unfold trap_cx_user_va; cbn [tur_tid]; by rewrite Eb, Efl, Et|].
  split; [rewrite Et; intros v ->%list_elem_of_singleton; apply Ht|].
  split.
  { unfold trap_cx_ppn. cbn [tur_tid]. rewrite Eb, Eof, outcome_bind_Done. unfold MemorySet_translate. cbn [mm_mem].
    destruct (translate_mapped a' m' _ _ _ _ _ _ S' (proj1 Ht)) as [-> _]. rewrite outcome_bind_Done. cbn [unwrap].
    rewrite outcome_bind_Done, PTE_ppn_new by (done || apply Ht). done. }
  split; [done|]. pose proof (ra_dealloc_spec tids' ({[tid]} ∪ live) tid I' ltac:(lia)) as Hd.
  rewrite decide_True in Hd by (clear; set_solver). destruct Hd as (tids2 & Hd & I2).
  replace (({[tid]} ∪ live) ∖ {[tid]}) with live in I2 by (clear - Hid; set_solver).
  destruct (dealloc_user_res_spec a' m' ms' path' free' used' n tid _ _ _ _ _ S' Hn ltac:(lia) ltac:(lia) R Hareas)
    as (a2 & m2 & Hrun2 & S2 & Hm2). change (n * 4096) with base in *.
  unfold TaskUserRes_drop, dealloc_tid. cbn [tur_tid]. rewrite Hd, outcome_bind_Done, Hrun2, outcome_bind_Done.
  eexists _, _, a2, m2, path', _, _. split; [done|].
  split; [done|]. split; [done|]. cbn [page_table].
  split; [|split; [exact S2|]].
  - intros v Hv. rewrite Hm2 by done. case_decide as Hc; [by rewrite Hnone|]. apply Hother; [done|tauto..].
  - intros p Hp Hpath. apply not_elem_of_dom in Hpath. clear S2. revert Hnew.
    pose proof (fa_disjoint _ _ _ (ps_alloc _ _ _ _ _ _ _ S) p Hp) as Hpu.
    generalize (list_to_set (g1 <$> range_pages (ustack_region base tid)) : gset PhysPageNum)
      (list_to_set (g2 <$> range_pages (trap_cx_region tid)) : gset PhysPageNum).
    intros x y Hnew. assert (Hpp : p ∈ used' ∪ free') by (rewrite Hun; by apply elem_of_union_r).
    clear - Hp Hpath Hnew Hpu Hpp. set_solver.
Qed.

Lemma thread_resources_witness : ∃ res tids2 ms2 mm2 a m ms tids' ms' mm',
  TaskUserRes_new RecycleAllocator_new ms (mkMm (A := StackFrameAllocator) a m) (5 * PAGE_SIZE) true = Done (res, tids', ms', mm') ∧
  TaskUserRes_drop res tids' ms' mm' = Done (tids2, ms2, mm2) ∧ areas ms2 = areas ms.
Proof.
  destruct PageTableWitness.table as (pt & a & m & S & Hr & Hsz & Hm).
  destruct (thread_resources a m (mkMemorySet pt []) _ _ _ RecycleAllocator_new ∅ 5 S ra_inv_new)
    as (res & tids' & ms' & a' & m' & g & gt & Hrun & _ & _ & _ & _ & _ & _ & _ & tids2 & ms2 & a2 & m2 & path2 & free2 & used2 & Hd & _ & Har & _);
    [lia|by vm_compute|lia| |intros ar Har; by apply not_elem_of_nil in Har|].
  - intros v [Hv|Hv]; apply Hm.
    + revert Hv. destruct (ustack_region_eq 5 0) as [_ E]; [lia..|]. change (fst _) with 0. change PAGE_SIZE with 4096.
      rewrite E, range_pages_spec. cbn [rl rr vpn]. lia.
    + revert Hv. destruct (trap_cx_region_eq 0) as [_ E]; [lia..|]. change (fst _) with 0.
      rewrite E, range_pages_spec. cbn [rl rr vpn]. lia.
  - exists res, tids2, ms2, (mkMm a2 m2), a, m, (mkMemorySet pt []), tids', ms', (mkMm a' m').
    split; [exact Hrun|]. split; [exact Hd|exact Har].
Defined.
