(* ===== verification/UserIo.v ===== *)
(** * UserIo.v: bytes of user buffers

    The items of a [UserBufferIterator] are raw byte pointers, here places (a frame and an offset);
    [store_place] and [load_place] are [*byte_ref = b] and [*byte_ref].  The iterator is described
    by the places it has left. *)

From S2P Require Import Prelude Bytes Address FrameAlloc PageTable.

(** [*byte_ref = b] and [*byte_ref] *)
Definition store_place (m : memory) (pl : place) (b : Z) : outcome memory :=
  pg ← unwrap PInvalid (m !! pl.1);
  assert_that ((0 <=? pl.2) && (pl.2 <? zlen pg)) PInvalid;;
  mret (<[pl.1 := <[Z.to_nat pl.2 := b]> pg]> m).

Definition load_place (m : memory) (pl : place) : outcome Z :=
  pg ← unwrap PInvalid (m !! pl.1);
  nth_or_panic pg pl.2.

Definition place_ok (m : memory) (pl : place) : Prop :=
  ∃ pg, m !! pl.1 = Some pg ∧ 0 ≤ pl.2 < zlen pg.

(** The byte at a place. *)
Definition byte_at (m : memory) (pl : place) : option Z :=
  pg ← m !! pl.1; if 0 <=? pl.2 then pg !! Z.to_nat pl.2 else None.

Lemma load_place_spec m pl : place_ok m pl → ∃ b, load_place m pl = Done b ∧ byte_at m pl = Some b.
Proof.
  intros (pg & Hp & Ho). unfold load_place, byte_at, nth_or_panic, zlen in *. rewrite Hp. cbn.
  destruct (Z.ltb_spec pl.2 0); [lia|]. destruct (Z.leb_spec 0 pl.2); [|lia].
  destruct (lookup_lt_is_Some_2 pg (Z.to_nat pl.2)) as [b Hb]; [lia|]. exists b. by rewrite Hb.
Qed.

Lemma store_place_spec m pl b : place_ok m pl → ∃ m', store_place m pl b = Done m' ∧
  byte_at m' pl = Some b ∧ (∀ q, q ≠ pl → byte_at m' q = byte_at m q) ∧ (∀ q, place_ok m q → place_ok m' q).
Proof.
  intros (pg & Hp & Ho). unfold store_place. rewrite Hp. cbn [unwrap]. rewrite outcome_bind_Done.
  destruct (Z.leb_spec 0 pl.2); [|lia]. destruct (Z.ltb_spec pl.2 (zlen pg)); [|lia]. cbn [andb assert_that].
  rewrite outcome_bind_Done. eexists. split; [done|]. unfold byte_at, place_ok, zlen in *.
  split; [|split].
  - rewrite lookup_insert_eq. cbn. destruct (Z.leb_spec 0 pl.2); [|lia]. apply list_lookup_insert_eq. lia.
  - intros q Hq. destruct (decide (q.1 = pl.1)) as [E|E]; [|by rewrite lookup_insert_ne by congruence].
    rewrite E, lookup_insert_eq, Hp. cbn. destruct (Z.leb_spec 0 q.2); [|done].
    apply list_lookup_insert_ne. intros E2. apply Hq. destruct q as [q1 q2], pl as [p1 p2]; cbn in *. f_equal; [done|lia].
  - intros q (pg' & Hq & Hr). destruct (decide (q.1 = pl.1)) as [E|E].
    + rewrite E, lookup_insert_eq. eexists. split; [done|]. rewrite length_insert. congruence.
    + rewrite lookup_insert_ne by congruence. by exists pg'.
Qed.

(** ** The places an iterator has left *)

Definition places_left (it : UserBufferIterator) : list place :=
  match ub_buffers it !! current_buffer it with
  | None => []
  | Some c => drop (Z.to_nat (current_idx it)) (chunk_places c) ++ (drop (S (current_buffer it)) (ub_buffers it) ≫= chunk_places)
  end.

Record ub_ok (it : UserBufferIterator) : Prop := {
  ub_pos : Forall (λ c, 0 < chunk_len c) (ub_buffers it);
  ub_idx : ∀ c, ub_buffers it !! current_buffer it = Some c → 0 ≤ current_idx it < chunk_len c;
}.

Lemma into_iter_left bs : Forall (λ c, 0 < chunk_len c) bs →
  ub_ok (UserBuffer_into_iter bs) ∧ places_left (UserBuffer_into_iter bs) = bs ≫= chunk_places.
Proof.
  intros Hpos. split.
  - split; [done|]. cbn. intros c Hc. split; [done|]. apply (Forall_lookup_1 _ _ _ _ Hpos Hc).
  - unfold places_left. destruct bs as [|c bs]; [done|]. cbn. by rewrite drop_0.
Qed.

Lemma next_spec it : ub_ok it →
  match places_left it with
  | [] => UserBufferIterator_next it = Done None
  | pl :: ps => ∃ it', UserBufferIterator_next it = Done (Some (pl, it')) ∧ ub_ok it' ∧ places_left it' = ps
  end.
Proof.
  intros [Hpos Hidx]. unfold places_left, UserBufferIterator_next.
  destruct (ub_buffers it !! current_buffer it) as [c|] eqn:Hc; [|done].
  specialize (Hidx c eq_refl). rewrite chunk_places_drop by done. cbn [app]. destruct c as [[p from] to] eqn:Ec.
  rewrite <- Ec in *. assert (Hl : length (chunk_places c) = Z.to_nat (chunk_len c)).
  { rewrite Ec. cbn [chunk_places chunk_len]. by rewrite length_fmap, length_seqZ. }
  eexists. unfold assert_that. destruct (Z.ltb_spec (current_idx it) (chunk_len c)); [|lia].
  rewrite outcome_bind_Done. split; [done|].
  destruct (Z.eqb_spec (current_idx it + 1) (chunk_len c)) as [E|E].
  - split.
    + split; [done|]. cbn [ub_buffers current_buffer current_idx]. intros c' Hc'. split; [done|].
      apply (Forall_lookup_1 _ _ _ _ Hpos Hc').
    + unfold places_left. cbn [ub_buffers current_buffer current_idx]. rewrite (drop_ge (chunk_places c)) by lia. cbn [app].
      destruct (ub_buffers it !! S (current_buffer it)) as [c'|] eqn:Hc'.
      * by rewrite (drop_S _ c' _ Hc'), drop_0.
      * by rewrite (drop_ge (ub_buffers it) (S _)) by by apply lookup_ge_None.
  - split.
    + split; [done|]. cbn [ub_buffers current_buffer current_idx]. intros c' Hc'.
      rewrite Hc in Hc'. injection Hc' as <-. lia.
    + unfold places_left. cbn [ub_buffers current_buffer current_idx]. by rewrite Hc.
Qed.
