(* ===== verification/Pipe.v ===== *)
(** * Pipe.v: pipes ([os/src/fs/pipe.rs])

    The ring buffer, and [Pipe::read] and [Pipe::write] cut at [suspend_current_and_run_next]: a
    round runs the [loop] up to the next suspension or the return.  The [Weak] pointer to the write
    end is its address, and [alive] says which ends still have a strong reference. *)

From S2P Require Import Prelude Bytes Address FrameAlloc PageTable UserIo.

Definition RING_BUFFER_SIZE : Z := 32.

Inductive RingBufferStatus : Type := Full | Empty | Normal.

#[export] Instance RingBufferStatus_eq_dec : EqDecision RingBufferStatus.
Proof. solve_decision. Defined.

Record PipeRingBuffer : Type := mkRing {
  arr : list Z;
  head : Z;
  tail : Z;
  status : RingBufferStatus;
  write_end : option nat;
}.

Definition PipeRingBuffer_new : PipeRingBuffer := mkRing (replicate (Z.to_nat RING_BUFFER_SIZE) 0) 0 0 Empty None.

Definition set_write_end (rb : PipeRingBuffer) (w : nat) : PipeRingBuffer :=
  mkRing (arr rb) (head rb) (tail rb) (status rb) (Some w).

Definition ring_write_byte (rb : PipeRingBuffer) (byte : Z) : outcome PipeRingBuffer :=
  assert_that ((0 <=? tail rb) && (tail rb <? zlen (arr rb))) PIndex;;
  let tl := u64 (tail rb + 1) mod RING_BUFFER_SIZE in
  mret (mkRing (<[Z.to_nat (tail rb) := byte]> (arr rb)) (head rb) tl
    (if tl =? head rb then Full else Normal) (write_end rb)).

Definition ring_read_byte (rb : PipeRingBuffer) : outcome (Z * PipeRingBuffer) :=
  c ← nth_or_panic (arr rb) (head rb);
  let hd := u64 (head rb + 1) mod RING_BUFFER_SIZE in
  mret (c, mkRing (arr rb) hd (tail rb) (if hd =? tail rb then Empty else Normal) (write_end rb)).

Definition available_read (rb : PipeRingBuffer) : Z :=
  if bool_decide (status rb = Empty) then 0
  else if head rb <? tail rb then u64 (tail rb - head rb)
  else u64 (u64 (tail rb + RING_BUFFER_SIZE) - head rb).

Definition available_write (rb : PipeRingBuffer) : Z :=
  if bool_decide (status rb = Full) then 0
  else u64 (RING_BUFFER_SIZE - available_read rb).

Definition all_write_ends_closed (alive : nat → bool) (rb : PipeRingBuffer) : outcome bool :=
  w ← unwrap PUnwrap (write_end rb);
  mret (negb (alive w)).

(** A pipe end; its buffer is the address of the shared ring. *)
Record Pipe : Type := mkPipe {
  pipe_readable : bool;
  pipe_writable : bool;
  pipe_buffer : nat;
}.

Definition read_end_with_buffer (buffer : nat) : Pipe := mkPipe true false buffer.
Definition write_end_with_buffer (buffer : nat) : Pipe := mkPipe false true buffer.

(** [make_pipe] with the addresses of the new ring and of the new write end: the two ends and what
    the ring holds. *)
Definition make_pipe (buffer write_addr : nat) : Pipe * Pipe * PipeRingBuffer :=
  (read_end_with_buffer buffer, write_end_with_buffer buffer, set_write_end PipeRingBuffer_new write_addr).

(** How a round of [read] or [write] ends: it returns, or it waits with its iterator and count. *)
Inductive round : Type :=
| Returned (n : Z)
| Waiting (it : UserBufferIterator) (already : Z).

(** [for _ in 0..loop_read]: the result of the call if it returned in the loop. *)
Fixpoint read_bytes (n : nat) (rb : PipeRingBuffer) (m : memory) (it : UserBufferIterator) (already want : Z)
    : outcome (PipeRingBuffer * memory * UserBufferIterator * Z * option Z) :=
  match n with
  | O => mret (rb, m, it, already, None)
  | S n =>
      o ← UserBufferIterator_next it;
      match o with
      | Some (byte_ref, it) =>
          '(c, rb) ← ring_read_byte rb;
          m ← store_place m byte_ref c;
          let already := u64 (already + 1) in
          if already =? want then mret (rb, m, it, already, Some want)
          else read_bytes n rb m it already want
      | None => mret (rb, m, it, already, Some already)
      end
  end.

(** The [loop] of [read]: [None] when [n] iterations neither returned nor suspended. *)
Fixpoint read_loop (n : nat) (alive : nat → bool) (rb : PipeRingBuffer) (m : memory) (it : UserBufferIterator)
    (already want : Z) : outcome (option (PipeRingBuffer * memory * round)) :=
  match n with
  | O => mret None
  | S n =>
      let loop_read := available_read rb in
      if loop_read =? 0 then
        closed ← all_write_ends_closed alive rb;
        if closed : bool then mret (Some (rb, m, Returned already))
        else mret (Some (rb, m, Waiting it already))
      else
        '(rb, m, it, already, o) ← read_bytes (Z.to_nat loop_read) rb m it already want;
        match o with
        | Some r => mret (Some (rb, m, Returned r))
        | None => read_loop n alive rb m it already want
        end
  end.

Fixpoint write_bytes_loop (n : nat) (rb : PipeRingBuffer) (m : memory) (it : UserBufferIterator) (already want : Z)
    : outcome (PipeRingBuffer * UserBufferIterator * Z * option Z) :=
  match n with
  | O => mret (rb, it, already, None)
  | S n =>
      o ← UserBufferIterator_next it;
      match o with
      | Some (byte_ref, it) =>
          b ← load_place m byte_ref;
          rb ← ring_write_byte rb b;
          let already := u64 (already + 1) in
          if already =? want then mret (rb, it, already, Some want)
          else write_bytes_loop n rb m it already want
      | None => mret (rb, it, already, Some already)
      end
  end.

Fixpoint write_loop (n : nat) (rb : PipeRingBuffer) (m : memory) (it : UserBufferIterator) (already want : Z)
    : outcome (option (PipeRingBuffer * round)) :=
  match n with
  | O => mret None
  | S n =>
      let loop_write := available_write rb in
      if loop_write =? 0 then mret (Some (rb, Waiting it already))
      else
        '(rb, it, already, o) ← write_bytes_loop (Z.to_nat loop_write) rb m it already want;
        match o with
        | Some r => mret (Some (rb, Returned r))
        | None => write_loop n rb m it already want
        end
  end.

(** [Pipe::read] and [Pipe::write] up to the first suspension; the loop runs at most twice between
    two suspensions ([pipe_read_round]). *)
Definition Pipe_read (alive : nat → bool) (p : Pipe) (rb : PipeRingBuffer) (m : memory) (buf : list chunk)
    : outcome (option (PipeRingBuffer * memory * round)) :=
  assert_that (pipe_readable p) PAssert;;
  read_loop 2 alive rb m (UserBuffer_into_iter buf) 0 (UserBuffer_len buf).

Definition Pipe_write (p : Pipe) (rb : PipeRingBuffer) (m : memory) (buf : list chunk)
    : outcome (option (PipeRingBuffer * round)) :=
  assert_that (pipe_writable p) PAssert;;
  write_loop 2 rb m (UserBuffer_into_iter buf) 0 (UserBuffer_len buf).

(** ** The ring is a queue of at most 32 bytes *)

(** The number of bytes in the ring. *)
Definition fill_level (rb : PipeRingBuffer) : Z :=
  match status rb with Empty => 0 | Full => 32 | Normal => (tail rb - head rb) mod 32 end.

(** The bytes, oldest first. *)
Definition contents (rb : PipeRingBuffer) : list Z :=
  (λ k, default 0 (arr rb !! Z.to_nat ((head rb + k) mod 32))) <$> seqZ 0 (fill_level rb).

Record ring_ok (rb : PipeRingBuffer) : Prop := {
  rk_arr : length (arr rb) = 32%nat;
  rk_head : 0 ≤ head rb < 32;
  rk_tail : 0 ≤ tail rb < 32;
  rk_status : status rb = Normal ↔ head rb ≠ tail rb;
}.

Lemma fill_range rb : ring_ok rb → 0 ≤ fill_level rb ≤ 32 ∧ zlen (contents rb) = fill_level rb ∧
  (head rb + fill_level rb) mod 32 = tail rb.
Proof.
  intros [Ha Hh Ht Hs]. assert (0 ≤ fill_level rb ≤ 32 ∧ (head rb + fill_level rb) mod 32 = tail rb) as [Hr He].
  { unfold fill_level. destruct (status rb) eqn:E.
    - assert (head rb = tail rb) as -> by (destruct (decide (head rb = tail rb)); [done|exfalso; naive_solver]).
      split; [lia|dlia].
    - assert (head rb = tail rb) as -> by (destruct (decide (head rb = tail rb)); [done|exfalso; naive_solver]).
      split; [lia|dlia].
    - split; dlia. }
  split; [done|]. split; [|done]. unfold zlen, contents. rewrite length_fmap, length_seqZ. lia.
Qed.

Lemma available_read_spec rb : ring_ok rb → available_read rb = zlen (contents rb).
Proof.
  intros I. destruct (fill_range rb I) as (Hr & -> & He). destruct I as [Ha Hh Ht Hs].
  unfold available_read, fill_level in *. change RING_BUFFER_SIZE with 32.
  destruct (status rb) eqn:E; cbn [bool_decide decide]; try rewrite bool_decide_false by done; try rewrite bool_decide_true by done; [|done|].
  - assert (head rb = tail rb) as -> by (destruct (decide (head rb = tail rb)); [done|exfalso; naive_solver]).
    rewrite Z.ltb_irrefl. rewrite (wrap_small 64 (_ + 32)) by lia. rewrite wrap_small by lia. lia.
  - assert (head rb ≠ tail rb) by by apply Hs.
    destruct (Z.ltb_spec (head rb) (tail rb)); [rewrite wrap_small by lia; dlia|].
    rewrite (wrap_small 64 (_ + 32)) by lia. rewrite wrap_small by lia. dlia.
Qed.

Lemma available_write_spec rb : ring_ok rb → available_write rb = 32 - zlen (contents rb).
Proof.
  intros I. unfold available_write. rewrite (available_read_spec rb I). change RING_BUFFER_SIZE with 32.
  destruct (fill_range rb I) as (Hr & -> & _). unfold fill_level in *. destruct (status rb) eqn:E.
  - by rewrite bool_decide_true.
  - by rewrite bool_decide_false.
  - rewrite bool_decide_false by done. apply wrap_small. lia.
Qed.

Lemma write_byte_spec rb b : ring_ok rb → zlen (contents rb) < 32 →
  ∃ rb', ring_write_byte rb b = Done rb' ∧ ring_ok rb' ∧ contents rb' = contents rb ++ [b] ∧ write_end rb' = write_end rb.
Proof.
  intros I. destruct (fill_range rb I) as (Hr & -> & He). destruct I as [Ha Hh Ht Hs]. intros Hf.
  unfold ring_write_byte, zlen. rewrite Ha. destruct (Z.leb_spec 0 (tail rb)); [|lia].
  destruct (Z.ltb_spec (tail rb) (Z.of_nat 32)); [|lia]. cbn [andb assert_that]. rewrite outcome_bind_Done.
  change RING_BUFFER_SIZE with 32. rewrite wrap_small by lia. eexists. split; [done|].
  set (rb' := mkRing _ _ _ _ _). assert (Hfl : fill_level rb' = fill_level rb + 1).
  { unfold rb', fill_level. cbn [status tail head]. destruct (Z.eqb_spec ((tail rb + 1) mod 32) (head rb)) as [E|E];
      unfold fill_level in Hf; destruct (status rb) eqn:Es; try lia;
      try (assert (head rb = tail rb) by (destruct (decide (head rb = tail rb)); [done|exfalso; naive_solver]));
      try (assert (head rb ≠ tail rb) by by apply Hs); dlia. }
  split; [|split; [|done]].
  - unfold rb'. split; cbn [arr head tail status]; [by rewrite length_insert|done|dlia|].
    destruct (Z.eqb_spec ((tail rb + 1) mod 32) (head rb)); [split; congruence|split; [|done]]; congruence.
  - unfold contents. rewrite Hfl. rewrite seqZ_app by lia. rewrite fmap_app. f_equal.
    + apply list_fmap_ext. intros j k Hk. apply lookup_seqZ in Hk as [-> Hj]. unfold rb'. cbn [arr head].
      rewrite list_lookup_insert_ne; [done|]. intros E. apply Z2Nat.inj in E; [|lia|dlia].
      clear - E He Hj Hh Hf. dlia.
    + unfold rb'. cbn [arr head]. rewrite Z.add_0_l, seqZ_cons by lia. rewrite seqZ_nil by lia. cbn [fmap list_fmap].
      rewrite He, list_lookup_insert_eq by lia. done.
Qed.

Lemma read_byte_spec rb c cs : ring_ok rb → contents rb = c :: cs →
  ∃ rb', ring_read_byte rb = Done (c, rb') ∧ ring_ok rb' ∧ contents rb' = cs ∧ write_end rb' = write_end rb.
Proof.
  intros I Hc. destruct (fill_range rb I) as (Hr & Hl & He). destruct I as [Ha Hh Ht Hs].
  assert (Hf : 0 < fill_level rb) by (rewrite <- Hl, Hc; unfold zlen; cbn; lia).
  unfold contents in Hc. rewrite seqZ_cons in Hc by lia. cbn [fmap list_fmap] in Hc. injection Hc as Hc Hcs.
  rewrite Z.add_0_r, Z.mod_small in Hc by lia.
  destruct (lookup_lt_is_Some_2 (arr rb) (Z.to_nat (head rb))) as [x Hx]; [lia|].
  rewrite Hx in Hc. cbn [default] in Hc. unfold ring_read_byte, nth_or_panic. destruct (Z.ltb_spec (head rb) 0); [lia|].
  rewrite Hx. cbn [unwrap]. rewrite outcome_bind_Done. change RING_BUFFER_SIZE with 32. rewrite wrap_small by lia.
  change (id x = c) in Hc. cbn in Hc. subst x. eexists. split; [done|].
  set (rb' := mkRing _ _ _ _ _). assert (Hfl : fill_level rb' = fill_level rb - 1).
  { unfold rb', fill_level. cbn [status tail head]. destruct (Z.eqb_spec ((head rb + 1) mod 32) (tail rb)) as [E|E];
      unfold fill_level in Hf; destruct (status rb) eqn:Es; try lia;
      try (assert (head rb = tail rb) by (destruct (decide (head rb = tail rb)); [done|exfalso; naive_solver]));
      try (assert (head rb ≠ tail rb) by by apply Hs); dlia. }
  split; [|split; [|done]].
  - unfold rb'. split; cbn [arr head tail status]; [done|dlia|done|].
    destruct (Z.eqb_spec ((head rb + 1) mod 32) (tail rb)); [split; congruence|split; [|done]]; congruence.
  - rewrite <- Hcs. unfold contents. rewrite Hfl. apply list_eq_same_length with (length (seqZ 0 (fill_level rb - 1))).
    { rewrite !length_fmap, !length_seqZ. lia. }
    { rewrite !length_fmap, !length_seqZ. lia. }
    intros j x y _. rewrite !list_lookup_fmap. intros (k & Hk & ->)%fmap_Some (k' & Hk' & ->)%fmap_Some.
    apply lookup_seqZ in Hk as [-> Hj]. apply lookup_seqZ in Hk' as [-> Hj']. unfold rb'. cbn [arr head].
    f_equal. f_equal. f_equal. dlia.
Qed.

(** ** What a round does *)

(** The bytes of [m] at the places [ps]. *)
Definition stored (m : memory) (ps : list place) (bs : list Z) : Prop := (byte_at m <$> ps) = (Some <$> bs).

(** What a reader or writer needs: [ps] are the places it has left, [already] is its count. *)
Record io_ok (m : memory) (it : UserBufferIterator) (already want : Z) : Prop := {
  io_ub : ub_ok it;
  io_places : Forall (place_ok m) (places_left it);
  io_nodup : NoDup (places_left it);
  io_count : already + zlen (places_left it) = want;
  io_range : 0 ≤ already ∧ want < 2 ^ 63;
}.

Lemma stored_nil m : stored m [] [].
Proof. done. Qed.

Lemma read_bytes_spec k : ∀ rb m it already want,
  ring_ok rb → io_ok m it already want → (k ≤ length (contents rb))%nat →
  let ps := places_left it in let n := Nat.min k (length ps) in
  ∃ rb' m' it',
    read_bytes k rb m it already want =
      Done (rb', m', it', already + Z.of_nat n, if decide (length ps ≤ k ∧ 0 < k)%nat then Some want else None) ∧
    ring_ok rb' ∧ contents rb' = drop n (contents rb) ∧ write_end rb' = write_end rb ∧
    io_ok m' it' (already + Z.of_nat n) want ∧ places_left it' = drop n ps ∧
    stored m' (take n ps) (take n (contents rb)) ∧ (∀ q, q ∉ take n ps → byte_at m' q = byte_at m q).
Proof.
  induction k as [|k IH]; intros rb m it already want I O Hk ps n.
  { exists rb, m, it. subst n. cbn [Nat.min]. rewrite Z.add_0_r, decide_False by lia. cbn [read_bytes].
    do 6 (split; [done|]). split; [apply stored_nil|done]. }
  pose proof (next_spec it (io_ub _ _ _ _ O)) as Hnext. cbn [read_bytes].
  subst n ps. destruct (places_left it) as [|pl ps'] eqn:Eps.
  { rewrite Hnext, outcome_bind_Done. exists rb, m, it. cbn [length Nat.min]. rewrite Z.add_0_r, decide_True by lia.
    pose proof (io_count _ _ _ _ O) as Hw. rewrite Eps in Hw. unfold zlen in Hw. cbn in Hw.
    split; [repeat f_equal; lia|]. do 5 (split; [done|]). split; [apply stored_nil|done]. }
  destruct Hnext as (it1 & Hn & U1 & E1). rewrite Hn, outcome_bind_Done.
  destruct O as [_ Hpl Hnd Hcnt Hran]. rewrite Eps in Hpl, Hnd, Hcnt. unfold zlen in Hcnt. cbn [length] in Hcnt.
  destruct (contents rb) as [|c cs] eqn:Ec; [cbn in Hk; lia|]. cbn [length] in Hk.
  destruct (read_byte_spec rb c cs I Ec) as (rb1 & Hr & I1 & Ec1 & Hw1). rewrite Hr, outcome_bind_Done.
  apply Forall_cons in Hpl as [Hp Hpl]. apply NoDup_cons in Hnd as [Hni Hnd].
  destruct (store_place_spec m pl c Hp) as (m1 & Hs & Hb1 & Ho1 & Hok1). rewrite Hs, outcome_bind_Done.
  rewrite wrap_small by lia. cbn [length Nat.min].
  assert (O1 : io_ok m1 it1 (already + 1) want).
  { split; rewrite ?E1; unfold zlen; [done| |done|lia|lia]. eapply Forall_impl; [done|]. apply Hok1. }
  destruct (Z.eqb_spec (already + 1) want) as [Ew|Ew].
  - assert (ps' = []) as -> by (apply length_zero_iff_nil; lia). cbn [length Nat.min]. rewrite Nat.min_0_r.
    exists rb1, m1, it1. rewrite decide_True by lia. split; [reflexivity|]. split; [done|]. cbn [drop take].
    rewrite drop_0. split; [done|]. split; [done|]. split; [exact O1|]. split; [done|].
    split; [unfold stored; cbn; by rewrite Hb1|]. intros q Hq. apply Ho1. intros ->. apply Hq. by left.
  - destruct (IH rb1 m1 it1 (already + 1) want I1 O1) as (rb2 & m2 & it2 & Hrun & I2 & Ec2 & Hw2 & O2 & Ep2 & Hs2 & Ho2);
      [rewrite Ec1; lia|]. rewrite E1, Ec1 in *.
    exists rb2, m2, it2. rewrite Hrun. cbn [drop take]. split.
    { f_equal. f_equal; [f_equal; lia|]. destruct (decide (length ps' ≤ k ∧ 0 < k)%nat), (decide (S (length ps') ≤ S k ∧ 0 < S k)%nat); try done; lia. }
    split; [done|]. split; [done|]. split; [congruence|]. split.
    { replace (already + Z.of_nat (S (k `min` length ps'))) with (already + 1 + Z.of_nat (k `min` length ps')) by lia. done. }
    split; [done|]. assert (Hni' : pl ∉ take (k `min` length ps') ps').
    { intros (i & Hi & _)%elem_of_take. apply Hni. by eapply list_elem_of_lookup_2. }
    split.
    + unfold stored in *. cbn [fmap list_fmap]. f_equal; [by rewrite Ho2|done].
    + intros q Hq. apply not_elem_of_cons in Hq as [Hq1 Hq2]. rewrite Ho2 by done. by apply Ho1.
Qed.

Lemma write_bytes_spec k : ∀ rb m it already want,
  ring_ok rb → io_ok m it already want → (k ≤ 32 - length (contents rb))%nat →
  let ps := places_left it in let n := Nat.min k (length ps) in
  ∃ rb' it' bs,
    write_bytes_loop k rb m it already want =
      Done (rb', it', already + Z.of_nat n, if decide (length ps ≤ k ∧ 0 < k)%nat then Some want else None) ∧
    ring_ok rb' ∧ contents rb' = contents rb ++ bs ∧ write_end rb' = write_end rb ∧
    io_ok m it' (already + Z.of_nat n) want ∧ places_left it' = drop n ps ∧ stored m (take n ps) bs.
Proof.
  induction k as [|k IH]; intros rb m it already want I O Hk ps n.
  { exists rb, it, []. subst n. cbn [Nat.min]. rewrite Z.add_0_r, decide_False by lia. cbn [write_bytes_loop].
    rewrite app_nil_r. do 6 (split; [done|]). apply stored_nil. }
  pose proof (next_spec it (io_ub _ _ _ _ O)) as Hnext. cbn [write_bytes_loop].
  subst n ps. destruct (places_left it) as [|pl ps'] eqn:Eps.
  { rewrite Hnext, outcome_bind_Done. exists rb, it, []. cbn [length Nat.min]. rewrite Z.add_0_r, decide_True by lia.
    pose proof (io_count _ _ _ _ O) as Hw. rewrite Eps in Hw. unfold zlen in Hw. cbn in Hw. rewrite app_nil_r.
    split; [repeat f_equal; lia|]. do 5 (split; [done|]). apply stored_nil. }
  destruct Hnext as (it1 & Hn & U1 & E1). rewrite Hn, outcome_bind_Done.
  destruct O as [_ Hpl Hnd Hcnt Hran]. rewrite Eps in Hpl, Hnd, Hcnt. unfold zlen in Hcnt. cbn [length] in Hcnt.
  apply Forall_cons in Hpl as [Hp Hpl]. apply NoDup_cons in Hnd as [Hni Hnd].
  destruct (load_place_spec m pl Hp) as (b & Hl & Hb). rewrite Hl, outcome_bind_Done.
  destruct (write_byte_spec rb b I) as (rb1 & Hw & I1 & Ec1 & Hw1); [unfold zlen; lia|]. rewrite Hw, outcome_bind_Done.
  rewrite wrap_small by lia. cbn [length Nat.min].
  assert (O1 : io_ok m it1 (already + 1) want) by (split; rewrite ?E1; unfold zlen; done || lia).
  destruct (Z.eqb_spec (already + 1) want) as [Ew|Ew].
  - assert (ps' = []) as -> by (apply length_zero_iff_nil; lia). cbn [length Nat.min]. rewrite Nat.min_0_r.
    exists rb1, it1, [b]. rewrite decide_True by lia. split; [reflexivity|]. split; [done|]. cbn [drop take].
    split; [done|]. split; [done|]. split; [exact O1|]. split; [done|].
    unfold stored; cbn; by rewrite Hb.
  - destruct (IH rb1 m it1 (already + 1) want I1 O1) as (rb2 & it2 & bs & Hrun & I2 & Ec2 & Hw2 & O2 & Ep2 & Hs2);
      [rewrite Ec1, length_app; cbn; lia|]. rewrite E1, Ec1 in *.
    exists rb2, it2, (b :: bs). rewrite Hrun. cbn [drop take]. split.
    { f_equal. f_equal; [f_equal; lia|]. destruct (decide (length ps' ≤ k ∧ 0 < k)%nat), (decide (S (length ps') ≤ S k ∧ 0 < S k)%nat); try done; lia. }
    split; [done|]. split; [by rewrite Ec2, <- app_assoc|]. split; [congruence|]. split.
    { replace (already + Z.of_nat (S (k `min` length ps'))) with (already + 1 + Z.of_nat (k `min` length ps')) by lia. done. }
    split; [done|]. unfold stored in *. cbn [fmap list_fmap]. by f_equal.
Qed.

Lemma available_read_zero rb : ring_ok rb → (available_read rb =? 0) = bool_decide (contents rb = []).
Proof.
  intros I. rewrite available_read_spec by done. unfold zlen. destruct (contents rb); [done|].
  rewrite bool_decide_false by done. apply Z.eqb_neq. cbn [length]. lia.
Qed.

Lemma read_round_spec alive rb m it already want w :
  ring_ok rb → write_end rb = Some w → io_ok m it already want →
  let ps := places_left it in let cs := contents rb in let n := Nat.min (length cs) (length ps) in
  ∃ rb' m' it',
    read_loop 2 alive rb m it already want = Done (Some (rb', m',
      if decide (length ps ≤ length cs ∧ 0 < length cs)%nat then Returned want
      else if alive w then Waiting it' (already + Z.of_nat n) else Returned (already + Z.of_nat n))) ∧
    ring_ok rb' ∧ contents rb' = drop n cs ∧ write_end rb' = Some w ∧
    io_ok m' it' (already + Z.of_nat n) want ∧ places_left it' = drop n ps ∧
    stored m' (take n ps) (take n cs) ∧ (∀ q, q ∉ take n ps → byte_at m' q = byte_at m q).
Proof.
  intros I Hw O ps cs n. remember 1%nat as one eqn:E1. cbn [read_loop]. rewrite available_read_zero by done.
  fold cs. case_bool_decide as Ecs.
  - unfold all_write_ends_closed. rewrite Hw. cbn [unwrap]. rewrite !outcome_bind_Done.
    exists rb, m, it. subst n. rewrite Ecs. cbn [length Nat.min]. rewrite decide_False by lia. rewrite Z.add_0_r.
    split; [by destruct (alive w)|]. do 5 (split; [done|]). split; [apply stored_nil|done].
  - rewrite available_read_spec by done. unfold zlen. rewrite Nat2Z.id. fold cs.
    destruct (read_bytes_spec (length cs) rb m it already want I O ltac:(done))
      as (rb' & m' & it' & Hrun & I' & Ec' & Hw' & O' & Ep' & Hs' & Ho').
    fold ps cs n in Hrun, Ec', O', Ep', Hs', Ho'. rewrite Hrun, outcome_bind_Done. exists rb', m', it'.
    split; [|split; [done|split; [done|split; [congruence|done]]]].
    destruct (decide (length ps ≤ length cs ∧ 0 < length cs)%nat) as [Hd|Hd]; [done|].
    assert (Hlen : (0 < length cs)%nat) by (destruct cs; [done|cbn; lia]).
    subst one. cbn [read_loop]. rewrite available_read_zero by done.
    rewrite bool_decide_true by (rewrite Ec'; apply drop_ge; unfold n; lia).
    unfold all_write_ends_closed. rewrite Hw', Hw. cbn [unwrap]. rewrite !outcome_bind_Done. by destruct (alive w).
Qed.

Lemma write_round_spec rb m it already want :
  ring_ok rb → io_ok m it already want →
  let ps := places_left it in let room := (32 - length (contents rb))%nat in let n := Nat.min room (length ps) in
  ∃ rb' it' bs,
    write_loop 2 rb m it already want = Done (Some (rb',
      if decide (length ps ≤ room ∧ 0 < room)%nat then Returned want else Waiting it' (already + Z.of_nat n))) ∧
    ring_ok rb' ∧ contents rb' = contents rb ++ bs ∧ write_end rb' = write_end rb ∧
    io_ok m it' (already + Z.of_nat n) want ∧ places_left it' = drop n ps ∧ stored m (take n ps) bs.
Proof.
  intros I O ps room n. remember 1%nat as one eqn:E1. cbn [write_loop]. rewrite available_write_spec by done.
  destruct (fill_range rb I) as (Hfr & Hfl & _). unfold zlen in *.
  destruct (Z.eqb_spec (32 - Z.of_nat (length (contents rb))) 0) as [E|E].
  - exists rb, it, []. assert (room = 0%nat) as Er by lia. subst n. rewrite Er. cbn [Nat.min]. rewrite decide_False by lia.
    rewrite Z.add_0_r, app_nil_r. do 6 (split; [done|]). apply stored_nil.
  - replace (Z.to_nat (32 - Z.of_nat (length (contents rb)))) with room by lia.
    destruct (write_bytes_spec room rb m it already want I O ltac:(lia))
      as (rb' & it' & bs & Hrun & I' & Ec' & Hw' & O' & Ep' & Hs').
    fold ps n in Hrun, O', Ep', Hs'. rewrite Hrun, outcome_bind_Done. exists rb', it', bs.
    split; [|done]. destruct (decide (length ps ≤ room ∧ 0 < room)%nat) as [Hd|Hd]; [done|].
    subst one. cbn [write_loop]. rewrite available_write_spec by done. unfold zlen. rewrite Ec', length_app.
    assert (length bs = n) as Hbs.
    { unfold stored in Hs'. apply (f_equal length) in Hs'. rewrite !length_fmap, length_take in Hs'. lia. }
    destruct (Z.eqb_spec (32 - Z.of_nat (length (contents rb) + length bs)) 0); [done|lia].
Qed.

(** ** Properties *)

(** The ring buffer is a FIFO queue of capacity 32: it is empty at first; [available_read] and
    [available_write] are its length and its room; with room, [write_byte] appends; when it is not
    empty, [read_byte] removes the oldest byte; and both keep the ring well formed. *)
Theorem ring_is_queue rb : ring_ok rb →
  contents PipeRingBuffer_new = [] ∧ ring_ok PipeRingBuffer_new ∧
  available_read rb = zlen (contents rb) ∧ available_write rb = 32 - zlen (contents rb) ∧ zlen (contents rb) ≤ 32 ∧
  (∀ b, 0 < available_write rb → ∃ rb', ring_write_byte rb b = Done rb' ∧ ring_ok rb' ∧ contents rb' = contents rb ++ [b]) ∧
  (0 < available_read rb → ∃ c rb', ring_read_byte rb = Done (c, rb') ∧ ring_ok rb' ∧ contents rb = c :: contents rb').
Proof.
  intros I. rewrite available_read_spec, available_write_spec by done. destruct (fill_range rb I) as (Hr & Hl & _).
  split; [done|]. split; [by split|]. do 2 (split; [done|]). split; [lia|]. split.
  - intros b Hb. destruct (write_byte_spec rb b I) as (rb' & ? & ? & ? & _); [lia|]. by exists rb'.
  - intros Hc. destruct (contents rb) as [|c cs] eqn:E; [done|].
    destruct (read_byte_spec rb c cs I E) as (rb' & ? & ? & ? & _). exists c, rb'. split; [done|]. split; [done|congruence].
Qed.

Lemma ring_is_queue_witness :
  ∃ rb', ring_write_byte PipeRingBuffer_new 7 = Done rb' ∧ contents rb' = [7].
Proof.
  destruct (ring_is_queue PipeRingBuffer_new) as (_ & _ & _ & _ & _ & Hw & _); [by split|].
  destruct (Hw 7) as (rb' & Hr & _ & Hc); [by vm_compute|]. by exists rb'.
Defined.

(** A round of [read] or [write], up to the return or the suspension, ends within two
    iterations of the loop.  [read] moves the oldest bytes of the ring into the buffer, as many as
    fit; it returns the length asked for when the buffer is full, waits when the ring ran empty
    and a write end is open, and returns the count so far when none is.  [write] appends bytes of
    the buffer while there is room, returns when all are written and waits otherwise.  No other
    byte of memory changes. *)
Theorem pipe_rounds alive rb m it already want w :
  ring_ok rb → write_end rb = Some w → io_ok m it already want →
  let ps := places_left it in let cs := contents rb in
  (let n := Nat.min (length cs) (length ps) in
   ∃ rb' m' it',
    read_loop 2 alive rb m it already want = Done (Some (rb', m',
      if decide (length ps ≤ length cs ∧ 0 < length cs)%nat then Returned want
      else if alive w then Waiting it' (already + Z.of_nat n) else Returned (already + Z.of_nat n))) ∧
    ring_ok rb' ∧ contents rb' = drop n cs ∧ places_left it' = drop n ps ∧ io_ok m' it' (already + Z.of_nat n) want ∧
    stored m' (take n ps) (take n cs) ∧ (∀ q, q ∉ take n ps → byte_at m' q = byte_at m q)) ∧
  (let room := (32 - length cs)%nat in let n := Nat.min room (length ps) in
   ∃ rb' it' bs,
    write_loop 2 rb m it already want = Done (Some (rb',
      if decide (length ps ≤ room ∧ 0 < room)%nat then Returned want else Waiting it' (already + Z.of_nat n))) ∧
    ring_ok rb' ∧ contents rb' = cs ++ bs ∧ stored m (take n ps) bs ∧
    places_left it' = drop n ps ∧ io_ok m it' (already + Z.of_nat n) want).
Proof.
  intros I Hw O ps cs. split.
  - destruct (read_round_spec alive rb m it already want w I Hw O) as (rb' & m' & it' & H); exists rb', m', it'. tauto.
  - destruct (write_round_spec rb m it already want I O) as (rb' & it' & bs & H); exists rb', it', bs. tauto.
Qed.

Lemma pipe_rounds_witness :
  let m : memory := {[PPN 9 := [1; 2; 3; 4]]} in let rb := set_write_end PipeRingBuffer_new 0 in
  ∃ rb' it', write_loop 2 rb m (UserBuffer_into_iter [(PPN 9, 1, 3)]) 0 2 = Done (Some (rb', Returned 2)) ∧
    read_loop 2 (λ _, true) rb m (UserBuffer_into_iter [(PPN 9, 1, 3)]) 0 2 = Done (Some (rb, m, Waiting it' 0)).
Proof.
  intros m rb. assert (O : io_ok m (UserBuffer_into_iter [(PPN 9, 1, 3)]) 0 2).
  { destruct (into_iter_left [(PPN 9, 1, 3)]) as [U E]; [by repeat constructor|]. split; rewrite ?E; [done| | |done|done].
    - repeat constructor; by eexists.
    - by apply (bool_decide_unpack _); vm_compute. }
  destruct (pipe_rounds (λ _, true) rb m _ 0 2 0%nat ltac:(by split) eq_refl O) as [(rb1 & m1 & it1 & Hr & _) (rb2 & it2 & bs & Hw & _)].
  exists rb2, (UserBuffer_into_iter [(PPN 9, 1, 3)]). split; [exact Hw|reflexivity].
Defined.

(** Rounds of any readers and writers of one pipe, in any order, the memory changing between them
    as it may; a label shows the bytes a round stored in the reader's memory, or took from the
    writer's. *)
Inductive label : Type := LRead (bs : list Z) | LWrite (bs : list Z).

Definition count_of (r : round) : Z := match r with Returned n => n | Waiting _ n => n end.

Inductive pipe_step : PipeRingBuffer → label → PipeRingBuffer → Prop :=
| step_read alive rb m it already want rb' m' r bs :
    io_ok m it already want →
    read_loop 2 alive rb m it already want = Done (Some (rb', m', r)) →
    stored m' (take (Z.to_nat (count_of r - already)) (places_left it)) bs →
    pipe_step rb (LRead bs) rb'
| step_write rb m it already want rb' r bs :
    io_ok m it already want →
    write_loop 2 rb m it already want = Done (Some (rb', r)) →
    stored m (take (Z.to_nat (count_of r - already)) (places_left it)) bs →
    pipe_step rb (LWrite bs) rb'.

Inductive pipe_steps : PipeRingBuffer → list label → PipeRingBuffer → Prop :=
| steps_nil rb : pipe_steps rb [] rb
| steps_snoc rb1 tr rb2 l rb3 : pipe_steps rb1 tr rb2 → pipe_step rb2 l rb3 → pipe_steps rb1 (tr ++ [l]) rb3.

Definition bytes_read (tr : list label) : list Z := tr ≫= λ l, match l with LRead bs => bs | LWrite _ => [] end.
Definition bytes_written (tr : list label) : list Z := tr ≫= λ l, match l with LWrite bs => bs | LRead _ => [] end.

Lemma stored_inj m ps bs bs' : stored m ps bs → stored m ps bs' → bs = bs'.
Proof. unfold stored. intros -> E. by apply (inj (fmap Some)) in E. Qed.

Lemma pipe_step_spec rb l rb' w : ring_ok rb → write_end rb = Some w → pipe_step rb l rb' →
  ring_ok rb' ∧ write_end rb' = Some w ∧
  match l with LRead bs => contents rb = bs ++ contents rb' | LWrite bs => contents rb' = contents rb ++ bs end.
Proof.
  intros I Hw Hst.
  destruct Hst as [alive rb m it already want rb' m' r bs O Hrun Hs|rb m it already want rb' r bs O Hrun Hs].
  - destruct (read_round_spec alive rb m it already want w I Hw O) as (rb2 & m2 & it2 & Hrun2 & I2 & Ec & Hw2 & _ & _ & Hs2 & _).
    rewrite Hrun2 in Hrun. injection Hrun as <- <- <-. split; [done|]. split; [done|].
    assert (take (Z.to_nat (count_of (if decide (length (places_left it) ≤ length (contents rb) ∧ 0 < length (contents rb))%nat
      then Returned want else if alive w then Waiting it2 (already + Z.of_nat (length (contents rb) `min` length (places_left it)))
      else Returned (already + Z.of_nat (length (contents rb) `min` length (places_left it)))) - already)) (places_left it)
      = take (length (contents rb) `min` length (places_left it)) (places_left it)) as E.
    { f_equal. pose proof (io_count _ _ _ _ O) as Hc. unfold zlen in Hc. case_decide; cbn [count_of]; [lia|].
      destruct (alive w); cbn [count_of]; lia. }
    rewrite E in Hs. rewrite (stored_inj _ _ _ _ Hs Hs2), Ec. by rewrite take_drop.
  - destruct (write_round_spec rb m it already want I O) as (rb2 & it2 & bs2 & Hrun2 & I2 & Ec & Hw2 & _ & _ & Hs2).
    rewrite Hrun2 in Hrun. injection Hrun as <- <-. split; [done|]. split; [congruence|]. rewrite Ec. f_equal.
    apply (stored_inj _ _ _ _ Hs2). revert Hs. case_decide; cbn [count_of].
    + pose proof (io_count _ _ _ _ O) as Hc. unfold zlen in Hc. rewrite Nat.min_r by lia.
      by replace (Z.to_nat (want - already)) with (length (places_left it)) by lia.
    + by rewrite Z.add_simpl_l, Nat2Z.id.
Qed.

(** C23. A pipe is a FIFO byte stream: after any rounds of readers and writers from a new pipe, in
    any order, the bytes written so far are the bytes read so far followed by those in the ring,
    at most 32: no byte is lost, made up, duplicated or reordered. *)
Theorem pipe_is_fifo buffer w tr rb :
  let '(_, _, ring) := make_pipe buffer w in pipe_steps ring tr rb →
  bytes_written tr = bytes_read tr ++ contents rb ∧ zlen (contents rb) ≤ 32 ∧ ring_ok rb.
Proof.
  cbn [make_pipe]. set (ring := set_write_end PipeRingBuffer_new w). intros H.
  assert (bytes_written tr = bytes_read tr ++ contents rb ∧ ring_ok rb ∧ write_end rb = Some w) as (He & I & _).
  { remember ring as r0 eqn:E0. induction H as [|rb1 tr rb2 l rb3 Hst IH Hl]; subst; [by repeat split|].
    destruct (IH eq_refl) as (He & I & Hw). destruct (pipe_step_spec rb2 l rb3 w I Hw Hl) as (I3 & Hw3 & Hc).
    split; [|done]. unfold bytes_written, bytes_read in *. rewrite !bind_app, He. cbn [mbind list_bind].
    destruct l as [bs|bs]; rewrite Hc, ?app_nil_r, <- ?app_assoc; done. }
  split; [done|]. split; [|done]. destruct (fill_range rb I) as (? & -> & _). lia.
Qed.

Lemma pipe_is_fifo_witness :
  ∃ rb, bytes_written [LWrite [2; 3]] = bytes_read [LWrite [2; 3]] ++ contents rb.
Proof.
  pose (m := {[PPN 9 := [1; 2; 3; 4]]} : memory). pose (it := UserBuffer_into_iter [(PPN 9, 1, 3)]).
  assert (O : io_ok m it 0 2).
  { destruct (into_iter_left [(PPN 9, 1, 3)]) as [U E]; [by repeat constructor|]. split; unfold it; rewrite ?E; [done| | |done|done].
    - repeat constructor; by eexists.
    - by apply (bool_decide_unpack _); vm_compute. }
  destruct (write_round_spec (set_write_end PipeRingBuffer_new 0) m it 0 2 ltac:(by split) O)
    as (rb & it' & bs & Hrun & _ & Hc & _ & _ & _ & Hs).
  exists rb. apply (pipe_is_fifo 0 0 [LWrite [2; 3]] rb).
  apply (steps_snoc _ [] _ _ _ (steps_nil _)). eapply step_write; [exact O|exact Hrun|by vm_compute].
Defined.
