(* ===== verification/Sched.v ===== *)
(** * Sched.v: tasks, the ready queue and the processor
    ([os/src/task/manager.rs], [processor.rs], [task.rs], [task/mod.rs])

    A task is its address ([Arc::as_ptr]).  [Sched] is what the scheduler's operations change: the
    status of the tasks, the queue of [TASK_MANAGER] and the current task of [PROCESSOR].  A switch
    to the idle control flow ([schedule]) leaves [current] empty; a round of [run_tasks] fills it. *)

From S2P Require Import Prelude.

Inductive TaskStatus : Type := Ready | Running | Blocked.

#[export] Instance TaskStatus_eq_dec : EqDecision TaskStatus.
Proof. solve_decision. Defined.

Record Sched : Type := mkSched {
  task_status : gmap nat TaskStatus;
  ready_queue : list nat;
  current : option nat;
}.

(** ** [TaskManager] *)

Definition add_task (s : Sched) (task : nat) : Sched :=
  mkSched (task_status s) (ready_queue s ++ [task]) (current s).

Definition fetch_task (s : Sched) : option nat * Sched :=
  match ready_queue s with
  | [] => (None, s)
  | t :: q => (Some t, mkSched (task_status s) q (current s))
  end.

Definition remove_task (s : Sched) (task : nat) : Sched :=
  match find_index (λ t, bool_decide (t = task)) (ready_queue s) with
  | None => s
  | Some id => mkSched (task_status s) (delete id (ready_queue s)) (current s)
  end.

Definition set_status (s : Sched) (task : nat) (st : TaskStatus) : Sched :=
  mkSched (<[task := st]> (task_status s)) (ready_queue s) (current s).

Definition wakeup_task (s : Sched) (task : nat) : Sched := add_task (set_status s task Ready) task.

(** [PID2PCB] *)
Definition pid2process (map : gmap Z nat) (pid : Z) : option nat := map !! pid.
Definition insert_into_pid2process (map : gmap Z nat) (pid : Z) (process : nat) : gmap Z nat := <[pid := process]> map.
Definition remove_from_pid2process (map : gmap Z nat) (pid : Z) : outcome (gmap Z nat) :=
  unwrap PExplicit (map !! pid);; mret (delete pid map).

(** ** [Processor] *)

Definition take_current_task (s : Sched) : option nat * Sched :=
  (current s, mkSched (task_status s) (ready_queue s) None).

Definition current_task (s : Sched) : option nat := current s.

(** One iteration of the loop of [run_tasks]. *)
Definition run_tasks_round (s : Sched) : Sched :=
  match fetch_task s with
  | (Some task, s) =>
      let s := set_status s task Running in
      mkSched (task_status s) (ready_queue s) (Some task)
  | (None, s) => s
  end.

(** [suspend_current_and_run_next] and [block_current_task] up to [schedule]. *)
Definition suspend_current (s : Sched) : outcome Sched :=
  let '(o, s) := take_current_task s in
  task ← unwrap PUnwrap o;
  mret (add_task (set_status s task Ready) task).

Definition block_current_task (s : Sched) : outcome Sched :=
  let '(o, s) := take_current_task s in
  task ← unwrap PUnwrap o;
  mret (set_status s task Blocked).

(** [exit_current_and_run_next] of a thread that is not the main thread, for the scheduler: the task
    goes to no queue, and nothing reads its status again. *)
Definition exit_current_task (s : Sched) : outcome Sched :=
  let '(o, s) := take_current_task s in
  task ← unwrap PUnwrap o;
  mret (mkSched (delete task (task_status s)) (ready_queue s) (current s)).

(** ** Where the tasks are *)

Definition cur_list (s : Sched) : list nat := option_list (current s).

(** Every task is in exactly one place, the processor, the ready queue or the wait queues
    ([waiting], all of them together), and its status says which. *)
Record sched_inv (s : Sched) (waiting : list nat) : Prop := {
  sc_nodup : NoDup (cur_list s ++ ready_queue s ++ waiting);
  sc_dom : ∀ t, t ∈ cur_list s ++ ready_queue s ++ waiting ↔ t ∈ dom (task_status s);
  sc_cur : ∀ t, current s = Some t → task_status s !! t = Some Running;
  sc_ready : ∀ t, t ∈ ready_queue s → task_status s !! t = Some Ready;
  sc_wait : ∀ t, t ∈ waiting → task_status s !! t = Some Blocked;
}.

#[export] Instance sched_inv_proper s : Proper ((≡ₚ) ==> iff) (sched_inv s).
Proof.
  intros w w' E. split; intros [H1 H2 H3 H4 H5]; (split; [by rewrite ?E in *|by intros t; rewrite ?E in *; rewrite H2 || (rewrite <- H2; by rewrite E)|done|done|by intros t; rewrite ?E in *; intros ?; apply H5; rewrite ?E]).
Qed.

(** A task that is current is not queued, and so on. *)
Lemma sched_apart s w t : sched_inv s w →
  (current s = Some t → t ∉ ready_queue s ∧ t ∉ w) ∧ (t ∈ ready_queue s → t ∉ w).
Proof.
  intros I. pose proof (sc_cur _ _ I t) as H1. pose proof (sc_ready _ _ I t) as H2. pose proof (sc_wait _ _ I t) as H3.
  split.
  - intros Hc. specialize (H1 Hc). split; intros Hi; [specialize (H2 Hi)|specialize (H3 Hi)]; congruence.
  - intros Hr Hi. specialize (H2 Hr). specialize (H3 Hi). congruence.
Qed.

(** Moving one task, [t], to the place its new status [st] says. *)
Lemma sched_move s s' w w' t st : sched_inv s w →
  task_status s' = <[t := st]> (task_status s) →
  cur_list s' ++ ready_queue s' ++ w' ≡ₚ cur_list s ++ ready_queue s ++ w →
  match st with Running => current s' = Some t | Ready => t ∈ ready_queue s' | Blocked => t ∈ w' end →
  (∀ x, x ≠ t → (current s' = Some x → current s = Some x) ∧ (x ∈ ready_queue s' → x ∈ ready_queue s) ∧ (x ∈ w' → x ∈ w)) →
  sched_inv s' w'.
Proof.
  intros I Hst Hp Ht Ho.
  assert (Hnd : NoDup (cur_list s' ++ ready_queue s' ++ w')) by (rewrite Hp; apply I).
  assert (Hin : t ∈ cur_list s' ++ ready_queue s' ++ w').
  { rewrite !elem_of_app. unfold cur_list. destruct st; rewrite ?Ht; set_solver. }
  apply NoDup_app in Hnd as Hnd2. destruct Hnd2 as (_ & Hc & Hnd2). apply NoDup_app in Hnd2 as (_ & Hr & _).
  assert (Hcl : current s' = Some t → t ∈ cur_list s') by (intros E; unfold cur_list; rewrite E; by left).
  split; [done| | | |].
  - intros x. rewrite Hst, dom_insert, Hp, (sc_dom _ _ I). rewrite Hp, (sc_dom _ _ I) in Hin. set_solver.
  - intros x Hx. rewrite Hst. destruct (decide (x = t)) as [->|Hne].
    + rewrite lookup_insert_eq. destruct st; [|done|]; exfalso; apply (Hc t (Hcl Hx)); set_solver.
    + rewrite lookup_insert_ne by done. apply (sc_cur _ _ I). by apply Ho.
  - intros x Hx. rewrite Hst. destruct (decide (x = t)) as [->|Hne].
    + rewrite lookup_insert_eq. destruct st; [done| |]; exfalso; [apply (Hc t (Hcl Ht)); set_solver|by apply (Hr t)].
    + rewrite lookup_insert_ne by done. apply (sc_ready _ _ I). by apply Ho.
  - intros x Hx. rewrite Hst. destruct (decide (x = t)) as [->|Hne].
    + rewrite lookup_insert_eq. destruct st; [| |done]; exfalso; [by apply (Hr t)|apply (Hc t (Hcl Ht)); set_solver].
    + rewrite lookup_insert_ne by done. apply (sc_wait _ _ I). by apply Ho.
Qed.

Lemma suspend_current_spec s w t : sched_inv s w → current s = Some t →
  ∃ s', suspend_current s = Done s' ∧ sched_inv s' w ∧ current s' = None ∧ ready_queue s' = ready_queue s ++ [t].
Proof.
  intros I Hc. unfold suspend_current. cbn. rewrite Hc. cbn. eexists. split; [done|]. split; [|done].
  apply (sched_move s _ w w t Ready I); cbn; [done| |set_solver|].
  - unfold cur_list. rewrite Hc. cbn. rewrite <- app_assoc. cbn. by rewrite Permutation_middle.
  - intros x Hx. set_solver.
Qed.

Lemma block_current_spec s w t : sched_inv s w → current s = Some t →
  ∃ s', block_current_task s = Done s' ∧ sched_inv s' (t :: w) ∧ current s' = None ∧ ready_queue s' = ready_queue s.
Proof.
  intros I Hc. unfold block_current_task. cbn. rewrite Hc. cbn. eexists. split; [done|]. split; [|done].
  apply (sched_move s _ w (t :: w) t Blocked I); cbn; [done| |set_solver|].
  - unfold cur_list. rewrite Hc. cbn. by rewrite Permutation_middle.
  - intros x Hx. set_solver.
Qed.

Lemma wakeup_task_spec s w t : sched_inv s (t :: w) →
  sched_inv (wakeup_task s t) w ∧ current (wakeup_task s t) = current s ∧ ready_queue (wakeup_task s t) = ready_queue s ++ [t].
Proof.
  intros I. split; [|done]. apply (sched_move s _ (t :: w) w t Ready I); cbn; [done| |set_solver|].
  - unfold cur_list. cbn. rewrite <- app_assoc. done.
  - intros x Hx. set_solver.
Qed.

Lemma exit_current_task_spec s w t : sched_inv s w → current s = Some t →
  ∃ s', exit_current_task s = Done s' ∧ sched_inv s' w ∧ current s' = None ∧ ready_queue s' = ready_queue s ∧
    t ∉ dom (task_status s').
Proof.
  intros I Hc. unfold exit_current_task. cbn. rewrite Hc. cbn. eexists. split; [done|].
  destruct (proj1 (sched_apart s w t I) Hc) as [Hr Hw]. pose proof (sc_nodup _ _ I) as Hnd. pose proof (sc_dom _ _ I) as Hd.
  unfold cur_list in *. rewrite Hc in Hnd, Hd. cbn in Hnd, Hd. apply NoDup_cons in Hnd as [_ Hnd].
  split; [|split; [done|split; [done|cbn; rewrite dom_delete; set_solver]]]. split; cbn.
  - done.
  - intros x. rewrite dom_delete, elem_of_difference, elem_of_singleton, <- Hd. set_solver.
  - done.
  - intros x Hx. rewrite lookup_delete_ne by congruence. by apply (sc_ready _ _ I).
  - intros x Hx. rewrite lookup_delete_ne by congruence. by apply (sc_wait _ _ I).
Qed.

Lemma run_tasks_round_spec s w : sched_inv s w → current s = None →
  match ready_queue s with
  | [] => run_tasks_round s = s
  | t :: q => sched_inv (run_tasks_round s) w ∧ current (run_tasks_round s) = Some t ∧ ready_queue (run_tasks_round s) = q
  end.
Proof.
  intros I Hc. unfold run_tasks_round, fetch_task. destruct (ready_queue s) as [|t q] eqn:Hr; [done|].
  split; [|done]. apply (sched_move s _ w w t Running I); cbn; [done| |done|].
  - unfold cur_list. rewrite Hc, Hr. done.
  - intros x Hx. rewrite Hr. set_solver.
Qed.

(** Removing a task from the ready queue. *)
Lemma filter_ne_id (l : list nat) t : t ∉ l → filter (.≠ t) l = l.
Proof.
  induction l as [|x l IH]; [done|]. intros [Hx Hl]%not_elem_of_cons.
  rewrite filter_cons_True by done. by rewrite IH.
Qed.

Lemma remove_task_spec s t : NoDup (ready_queue s) →
  ready_queue (remove_task s t) = filter (.≠ t) (ready_queue s) ∧ current (remove_task s t) = current s ∧
  task_status (remove_task s t) = task_status s.
Proof.
  intros Hnd. unfold remove_task. destruct (find_index _ _) as [id|] eqn:E; cbn; (split; [|done]).
  - apply find_index_Some in E as [(x & Hx & Ex) _]. apply bool_decide_eq_true in Ex as ->.
    destruct (list_elem_of_split_length _ _ _ Hx) as (l1 & l2 & El & ->). rewrite El in *.
    rewrite delete_middle, filter_app, filter_cons_False by naive_solver.
    apply NoDup_app in Hnd as (_ & Hd & Hnd). apply NoDup_cons in Hnd as [Ht _].
    rewrite !filter_ne_id; [done|done|]. intros Hi. apply (Hd t Hi). by left.
  - pose proof (proj1 (find_index_None _ _) E) as Hn. symmetry. apply filter_ne_id. intros Hy.
    specialize (Hn t Hy). by apply bool_decide_eq_false in Hn.
Qed.
