(* ===== verification/Device.v ===== *)
(** * Device.v: input of devices ([os/src/drivers/chardev/ns16550a.rs], [os/src/drivers/input/mod.rs],
    [wait_no_sched] of [os/src/sync/condvar.rs])

    The UART and the two virtio input devices have the same driver: the interrupt handler moves
    what the device has into a queue and signals a condition variable once; a reader takes the
    first item or waits.  The device is a parameter.  Each operation runs with interrupts off
    (IntrMask.v), so that it is one step. *)

From S2P Require Import Prelude Sched.

(** ** The registers of the UART *)

Definition RX_AVAILABLE : Z := 1.
Definition DATA_AVAILABLE : Z := 1.
Definition THR_EMPTY : Z := Z.shiftl 1 5.
Definition DATA_TERMINAL_READY : Z := 1.
Definition REQUEST_TO_SEND : Z := Z.shiftl 1 1.
Definition AUX_OUTPUT2 : Z := Z.shiftl 1 3.

(** [flags.contains(f)] *)
Definition has (flags f : Z) : bool := Z.land flags f =? f.

(** A 16550 at its base address, without the divisor latch: reading a register may change it. *)
Class Uart16550 (HW : Type) : Type := {
  hw_rbr : HW → Z * HW;
  hw_lsr : HW → Z * HW;
  hw_thr : HW → Z → HW;
  hw_ier : HW → Z → HW;
  hw_mcr : HW → Z → HW;
}.

(** What its data sheet says: the bytes received wait in order; the first bit of LSR says whether
    there is one; reading RBR takes the first.  Bit 5 says that THR takes a byte. *)
Class Uart16550Laws (HW : Type) `{Uart16550 HW} : Type := {
  rx : HW → list Z;
  tx : HW → list Z;
  lsr_rx h : has (hw_lsr h).1 DATA_AVAILABLE = bool_decide (rx h ≠ []);
  lsr_keeps h : rx (hw_lsr h).2 = rx h ∧ tx (hw_lsr h).2 = tx h;
  rbr_takes h b l : rx h = b :: l → (hw_rbr h).1 = b ∧ rx (hw_rbr h).2 = l ∧ tx (hw_rbr h).2 = tx h;
  thr_sends h b : has (hw_lsr h).1 THR_EMPTY = true → tx (hw_thr (hw_lsr h).2 b) = tx h ++ [b] ∧ rx (hw_thr (hw_lsr h).2 b) = rx h;
}.

Section uart.
Context {HW : Type} `{Uart16550 HW}.

Definition NS16550aRaw_init (h : HW) : HW :=
  let mcr := Z.lor (Z.lor (Z.lor 0 DATA_TERMINAL_READY) REQUEST_TO_SEND) AUX_OUTPUT2 in
  let h := hw_mcr h mcr in
  let ier := RX_AVAILABLE in
  hw_ier h ier.

Definition NS16550aRaw_read (h : HW) : option Z * HW :=
  let '(lsr, h) := hw_lsr h in
  if has lsr DATA_AVAILABLE then let '(b, h) := hw_rbr h in (Some b, h) else (None, h).

(** [None] when the transmitter was busy [n] times. *)
Fixpoint NS16550aRaw_write (n : nat) (h : HW) (ch : Z) : option HW :=
  match n with
  | O => None
  | S n => let '(lsr, h) := hw_lsr h in if has lsr THR_EMPTY then Some (hw_thr h ch) else NS16550aRaw_write n h ch
  end.
End uart.

(** ** The queue of a driver and its condition variable *)

Section queue.
Context {X : Type}.

Record DevQueue : Type := mkDev {
  items : list X;
  wait_queue : list nat;
}.

Definition DevQueue_new : DevQueue := mkDev [] [].

(** [Condvar::wait_no_sched] and [signal]. *)
Definition wait_no_sched (q : list nat) (s : Sched) : outcome (list nat * Sched) :=
  t ← unwrap PUnwrap (current_task s);
  s ← block_current_task s;
  mret (q ++ [t], s).

Definition signal (q : list nat) (s : Sched) : list nat * Sched :=
  match q with
  | task :: q => (q, wakeup_task s task)
  | [] => ([], s)
  end.

(** A round of [read] or [read_event]: the item, or [None] when the thread waits and will start
    over. *)
Definition dev_read_round (d : DevQueue) (s : Sched) : outcome (option X * DevQueue * Sched) :=
  match items d with
  | ch :: r => mret (Some ch, mkDev r (wait_queue d), s)
  | [] => '(q, s) ← wait_no_sched (wait_queue d) s; mret (None, mkDev [] q, s)
  end.

(** [handle_irq], after the loop: [got] are the items the loop found. *)
Definition dev_received (d : DevQueue) (s : Sched) (got : list X) : DevQueue * Sched :=
  let l := items d ++ got in
  if (0 <? length got)%nat then let '(q, s) := signal (wait_queue d) s in (mkDev l q, s) else (mkDev l (wait_queue d), s).
End queue.
Arguments DevQueue X : clear implicits.

(** ** The UART's driver *)

Section driver.
Context {HW : Type} `{Uart16550 HW}.

Record NS16550a : Type := mkUart {
  ns16550a : HW;
  uart_queue : DevQueue Z;
}.

Definition NS16550a_new (h : HW) : NS16550a := mkUart h DevQueue_new.

Definition read_buffer_is_empty (u : NS16550a) : bool := match items (uart_queue u) with [] => true | _ => false end.

Definition uart_init (u : NS16550a) : NS16550a := mkUart (NS16550aRaw_init (ns16550a u)) (uart_queue u).

Definition uart_read_round (u : NS16550a) (s : Sched) : outcome (option Z * NS16550a * Sched) :=
  '(o, d, s) ← dev_read_round (uart_queue u) s;
  mret (o, mkUart (ns16550a u) d, s).

Definition uart_write (n : nat) (u : NS16550a) (ch : Z) : option NS16550a :=
  h ← NS16550aRaw_write n (ns16550a u) ch;
  Some (mkUart h (uart_queue u)).

(** [while let Some(ch) = inner.ns16550a.read()]: [None] when the device still had bytes after [n]. *)
Fixpoint drain (n : nat) (h : HW) : option (list Z * HW) :=
  match n with
  | O => None
  | S n =>
      match NS16550aRaw_read h with
      | (Some ch, h) => '(l, h) ← drain n h; Some (ch :: l, h)
      | (None, h) => Some ([], h)
      end
  end.

Definition uart_handle_irq (n : nat) (u : NS16550a) (s : Sched) : option (NS16550a * Sched) :=
  '(got, h) ← drain n (ns16550a u);
  let '(d, s) := dev_received (uart_queue u) s got in
  Some (mkUart h d, s).
End driver.
Arguments NS16550a HW : clear implicits.

(** ** The virtio input devices: the events the device has, packed *)

Record InputEvent : Type := mkEvent {
  event_type : Z;
  code : Z;
  ev_value : Z;
}.

#[export] Instance InputEvent_eq_dec : EqDecision InputEvent.
Proof. solve_decision. Defined.

Definition pack_event (e : InputEvent) : Z :=
  Z.lor (Z.lor (Z.shiftl (event_type e) 48) (Z.shiftl (code e) 32)) (ev_value e).

Definition input_handle_irq (d : DevQueue Z) (s : Sched) (pending : list InputEvent) : DevQueue Z * Sched :=
  dev_received d s (pack_event <$> pending).

(** [sys_event_get] and [sys_key_pressed]; the keyboard's queue comes first. *)
Definition sys_event_get (kb mouse : DevQueue Z) (s : Sched) : outcome (option Z * DevQueue Z * DevQueue Z * Sched) :=
  match items kb, items mouse with
  | _ :: _, _ => '(o, kb, s) ← dev_read_round kb s; mret (o, kb, mouse, s)
  | [], _ :: _ => '(o, mouse, s) ← dev_read_round mouse s; mret (o, kb, mouse, s)
  | [], [] => mret (Some 0, kb, mouse, s)
  end.

Definition sys_key_pressed {HW} (u : NS16550a HW) : Z := if negb (read_buffer_is_empty u) then 1 else 0.

(** The user library's side ([user/src/io.rs]): [From<u64> for InputEvent], [event_get] from the
    result of the call, [key_pressed]. *)
Definition InputEvent_from (v : Z) : InputEvent :=
  let value := u32 v in
  let v := Z.shiftr v 32 in
  let code := u16 v in
  let v := Z.shiftr v 16 in
  let event_type := u16 v in
  mkEvent event_type code value.

Definition event_get (raw_value : Z) : option InputEvent :=
  if raw_value =? 0 then None else Some (InputEvent_from (u64 raw_value)).

Definition key_pressed (result : Z) : bool := result =? 1.

(** ** The driver at work *)

Section work.
Context {HW : Type} `{Uart16550Laws HW}.

(** The driver, the scheduler, the bytes that came in so far and those that were read. *)
Record Work : Type := mkWork {
  w_uart : NS16550a HW;
  w_sched : Sched;
  came : list Z;
  taken : list Z;
}.

(** A byte comes in; the interrupt is handled; a thread reads; a byte is sent; the scheduler goes on.
    With [alone] nobody starts to read while somebody waits. *)
Inductive work_step (alone : bool) : Work → Work → Prop :=
| ws_comes u s c t b h : rx h = rx (ns16550a u) ++ [b] → work_step alone (mkWork u s c t) (mkWork (mkUart h (uart_queue u)) s (c ++ [b]) t)
| ws_irq u s c t n u' s' : uart_handle_irq n u s = Some (u', s') → work_step alone (mkWork u s c t) (mkWork u' s' c t)
| ws_read u s c t o u' s' : (alone = true → wait_queue (uart_queue u) = []) → uart_read_round u s = Done (o, u', s') →
    work_step alone (mkWork u s c t) (mkWork u' s' c (t ++ option_list o))
| ws_write u s c t n ch u' : uart_write n u ch = Some u' → work_step alone (mkWork u s c t) (mkWork u' s c t)
| ws_sched u s c t s' : work_step alone (mkWork u s c t) (mkWork u s' c t).

Record work_inv (alone : bool) (w : Work) : Prop := {
  wi_fifo : came w = taken w ++ items (uart_queue (w_uart w)) ++ rx (ns16550a (w_uart w));
  wi_woken : alone = true → wait_queue (uart_queue (w_uart w)) ≠ [] →
    items (uart_queue (w_uart w)) = [] ∧ length (wait_queue (uart_queue (w_uart w))) = 1%nat;
}.

Lemma raw_read_spec h : match rx h with
  | [] => (NS16550aRaw_read h).1 = None ∧ rx (NS16550aRaw_read h).2 = []
  | b :: l => (NS16550aRaw_read h).1 = Some b ∧ rx (NS16550aRaw_read h).2 = l
  end.
Proof.
  unfold NS16550aRaw_read. pose proof (lsr_rx h) as E. destruct (lsr_keeps h) as [K _]. destruct (hw_lsr h) as [lsr h1] eqn:El. cbn in *.
  rewrite E. destruct (rx h) as [|b l] eqn:Er; [done|]. rewrite bool_decide_true by done.
  destruct (rbr_takes h1 b l K) as (E1 & E2 & _). destruct (hw_rbr h1) as [b' h2]. cbn in *. by subst.
Qed.

(** The loop of the interrupt handler takes all that is there, in order, and ends. *)
Lemma drain_spec n : ∀ h, (length (rx h) < n)%nat → ∃ h', drain n h = Some (rx h, h') ∧ rx h' = [].
Proof.
  induction n as [|n IH]; intros h Hn; [lia|]. cbn [drain]. pose proof (raw_read_spec h) as R.
  destruct (NS16550aRaw_read h) as [[ch|] h1]; cbn in R; destruct (rx h) as [|b l]; destruct R as [E1 E2]; try done.
  - injection E1 as ->. cbn in Hn. destruct (IH h1) as (h' & Hd & Hr); [rewrite E2; lia|]. rewrite Hd, E2. cbn. by exists h'.
  - by exists h1.
Qed.

Lemma drain_inv n : ∀ h l h', drain n h = Some (l, h') → rx h = l ∧ rx h' = [].
Proof.
  induction n as [|n IH]; intros h l h' E; [done|]. cbn [drain] in E. pose proof (raw_read_spec h) as R.
  destruct (NS16550aRaw_read h) as [[ch|] h1]; cbn in R; destruct (rx h) as [|b r]; destruct R as [E1 E2]; try done.
  - injection E1 as ->. destruct (drain n h1) as [[l1 h2]|] eqn:Ed; [|done]. cbn in E. injection E as <- <-.
    destruct (IH _ _ _ Ed) as [<- ?]. by rewrite E2.
  - by injection E as <- <-.
Qed.

Lemma irq_inv n u s u' s' : uart_handle_irq n u s = Some (u', s') →
  items (uart_queue u') = items (uart_queue u) ++ rx (ns16550a u) ∧ rx (ns16550a u') = [] ∧
  wait_queue (uart_queue u') = (if decide (rx (ns16550a u) = []) then wait_queue (uart_queue u) else tail (wait_queue (uart_queue u))).
Proof.
  unfold uart_handle_irq. destruct (drain n (ns16550a u)) as [[l h]|] eqn:Ed; [|done]. destruct (drain_inv _ _ _ _ Ed) as [<- Hr]. cbn.
  unfold dev_received, signal. destruct (rx (ns16550a u)) as [|b r]; cbn; [by intros [= <- <-]|].
  destruct (wait_queue (uart_queue u)) as [|t q]; cbn; by intros [= <- <-].
Qed.

Lemma uart_write_rx n : ∀ u ch u', uart_write n u ch = Some u' → rx (ns16550a u') = rx (ns16550a u) ∧ uart_queue u' = uart_queue u.
Proof.
  unfold uart_write. induction n as [|n IH]; intros u ch u' E; [done|]. cbn [NS16550aRaw_write] in E.
  pose proof (lsr_keeps (ns16550a u)) as [K _]. pose proof (thr_sends (ns16550a u) ch) as T. destruct (hw_lsr (ns16550a u)) as [lsr h]. cbn in *.
  destruct (has lsr THR_EMPTY); [cbn in E; injection E as <-; cbn; split; [by apply T|done]|].
  destruct (IH (mkUart h (uart_queue u)) ch u' E) as [E1 E2]. cbn in *. by rewrite E1, K.
Qed.

Lemma work_step_inv alone w w' : work_step alone w w' → work_inv alone w → work_inv alone w'.
Proof.
  intros S [F K]. destruct S as [u s c t b h Hh|u s c t n u' s' E|u s c t o u' s' Ha E|u s c t n ch u' E|u s c t s']; cbn in *.
  - split; cbn; [|done]. by rewrite F, Hh, !app_assoc.
  - destruct (irq_inv _ _ _ _ _ E) as (Ei & Er & Ew). split; cbn.
    + by rewrite Ei, Er, app_nil_r.
    + intros Hal Hw. rewrite Ew in Hw |- *. rewrite Ei. case_decide as Hd.
      * destruct (K Hal Hw) as [-> ?]. by rewrite Hd.
      * exfalso. destruct (wait_queue (uart_queue u)) as [|x [|y q]]; [done|done|]. by destruct (K Hal ltac:(done)).
  - unfold uart_read_round, dev_read_round in E. destruct (items (uart_queue u)) as [|ch r] eqn:Ei.
    + apply outcome_bind_inv in E as ([[o' d] s1] & ([q s2] & E1 & [= <- <- <-])%outcome_bind_inv & [= <- <- <-]).
      unfold wait_no_sched in E1. apply outcome_bind_inv in E1 as (t' & _ & (s3 & _ & [= <- <-])%outcome_bind_inv).
      split; cbn; [by rewrite app_nil_r|]. intros Hal _. by rewrite (Ha Hal).
    + cbn in E. injection E as <- <- <-. split; cbn; [by rewrite F, <- app_assoc|]. intros Hal Hw. by rewrite (Ha Hal) in Hw.
  - destruct (uart_write_rx _ _ _ _ E) as [E1 E2]. split; cbn; by rewrite E2, ?E1.
  - by split.
Qed.

(** ** Properties *)

(** C39. The input of the UART loses, invents and reorders nothing: with interrupts, readers, writers
    and the scheduler in any order, the bytes that came in are the bytes read, then those in the
    buffer, then those still in the device.  The loop of the interrupt handler ends once the device
    is empty; when it found a byte the longest waiting reader becomes ready and is queued.  With one
    reader nobody sleeps while there is a byte in the buffer. *)
Theorem uart_is_fifo alone h s w : rx h = [] → rtc (work_step alone) (mkWork (NS16550a_new h) s [] []) w →
  came w = taken w ++ items (uart_queue (w_uart w)) ++ rx (ns16550a (w_uart w)) ∧
  (alone = true → wait_queue (uart_queue (w_uart w)) ≠ [] → items (uart_queue (w_uart w)) = []) ∧
  ∀ n, (length (rx (ns16550a (w_uart w))) < n)%nat →
    ∃ u' s', uart_handle_irq n (w_uart w) (w_sched w) = Some (u', s') ∧ rx (ns16550a u') = [] ∧
      items (uart_queue u') = items (uart_queue (w_uart w)) ++ rx (ns16550a (w_uart w)) ∧
      ∀ t q, wait_queue (uart_queue (w_uart w)) = t :: q → rx (ns16550a (w_uart w)) ≠ [] →
        wait_queue (uart_queue u') = q ∧ task_status s' !! t = Some Ready ∧ ready_queue s' = ready_queue (w_sched w) ++ [t].
Proof.
  intros Hh S. assert (I : work_inv alone w).
  { assert (I0 : work_inv alone (mkWork (NS16550a_new h) s [] [])) by (split; cbn; [by rewrite Hh|done]).
    clear Hh. induction S; eauto using work_step_inv. }
  destruct I as [F K]. split; [done|]. split; [intros Hal Hw; by apply K|]. intros n Hn. destruct (w_uart w) as [h' d]. cbn [ns16550a uart_queue] in *.
  destruct (drain_spec n h' Hn) as (h2 & Hd & Hr). unfold uart_handle_irq. cbn [ns16550a uart_queue]. rewrite Hd. cbn [mbind option_bind].
  unfold dev_received, signal. destruct (rx h') as [|b l]; cbn.
  - eexists _, _. split; [done|]. done.
  - destruct (wait_queue d) as [|t q]; (eexists _, _; split; [done|]; split; [done|]; split; [done|]); [done|].
    intros t' q' [= <- <-] _. split; [done|]. split; [apply lookup_insert_eq|done].
Qed.

(** When two threads wait and two bytes come with one interrupt, the handler wakes one of them; it
    takes one byte, and the other sleeps on with a byte in the buffer. *)
Theorem uart_wakes_one_reader u s t1 t2 a b n :
  items (uart_queue u) = [] → wait_queue (uart_queue u) = [t1; t2] → rx (ns16550a u) = [a; b] → (2 < n)%nat →
  ∃ u1 s1 u2 s2, uart_handle_irq n u s = Some (u1, s1) ∧ uart_read_round u1 s1 = Done (Some a, u2, s2) ∧
    items (uart_queue u2) = [b] ∧ wait_queue (uart_queue u2) = [t2] ∧ ready_queue s2 = ready_queue s ++ [t1].
Proof.
  intros Hi Hw Hr Hn. destruct u as [h [l q]]. cbn in *. subst l q. destruct (drain_spec n h) as (h2 & Hd & _); [rewrite Hr; cbn; lia|].
  unfold uart_handle_irq. cbn [ns16550a uart_queue]. rewrite Hd, Hr. cbn. eexists _, _, _, _. split; [reflexivity|]. done.
Qed.
End work.

(** A UART in memory: what came in, what was sent; always ready to send. *)
Module UartWitness.
Record Soft : Type := mkSoft { soft_rx : list Z; soft_tx : list Z }.

#[export] Instance soft_uart : Uart16550 Soft := {
  hw_rbr h := match soft_rx h with b :: l => (b, mkSoft l (soft_tx h)) | [] => (0, h) end;
  hw_lsr h := ((match soft_rx h with [] => 0 | _ => DATA_AVAILABLE end) + THR_EMPTY, h);
  hw_thr h b := mkSoft (soft_rx h) (soft_tx h ++ [b]);
  hw_ier h _ := h;
  hw_mcr h _ := h;
}.

#[export] Instance soft_uart_laws : Uart16550Laws Soft.
Proof.
  refine {| rx := soft_rx; tx := soft_tx |}; cbn.
  - intros [[|b l] x]; done.
  - done.
  - by intros [l x] b r [= ->].
  - done.
Defined.
End UartWitness.
Import UartWitness.

Lemma uart_is_fifo_witness :
  let s := mkSched {[0%nat := Running]} [] (Some 0%nat) in
  ∃ w u' s', rtc (work_step false) (mkWork (NS16550a_new (mkSoft [] [])) s [] []) w ∧ taken w = [] ∧ came w = [7] ∧
    uart_handle_irq 2 (w_uart w) (w_sched w) = Some (u', s') ∧ items (uart_queue u') = [7].
Proof.
  intros s.
  assert (S : rtc (work_step false) (mkWork (NS16550a_new (mkSoft [] [])) s [] [])
    (mkWork (mkUart (mkSoft [7] []) (mkDev [] [0%nat])) (mkSched {[0%nat := Blocked]} [] None) [7] [])).
  { eapply rtc_l; [eapply (ws_read _ _ _ _ _ None); [done|reflexivity]|]. eapply rtc_l; [|apply rtc_refl].
    apply (ws_comes false (mkUart (mkSoft [] []) (mkDev [] [0%nat])) _ [] [] 7 (mkSoft [7] [])). reflexivity. }
  assert (E0 : rx (mkSoft [] []) = []) by reflexivity.
  destruct (uart_is_fifo false (mkSoft [] []) s _ E0 S) as (_ & _ & Hirq).
  destruct (Hirq 2%nat) as (u' & s' & Hr & _ & Hi & _); [cbn; lia|].
  eexists _, u', s'. split; [exact S|]. split; [done|]. split; [done|]. split; [exact Hr|]. exact Hi.
Defined.

(** ** Events from the device to the program *)

Definition event_ok (e : InputEvent) : Prop := 0 ≤ event_type e < 2 ^ 16 ∧ 0 ≤ code e < 2 ^ 16 ∧ 0 ≤ ev_value e < 2 ^ 32.

Lemma lor_shiftl_add n a b : 0 ≤ n → 0 ≤ b < 2 ^ n → Z.lor (Z.shiftl a n) b = a * 2 ^ n + b.
Proof.
  intros Hn Hb. rewrite <- Z.add_nocarry_lor; [by rewrite Z.shiftl_mul_pow2|]. apply Z.bits_inj'. intros i Hi.
  rewrite Z.land_spec, Z.bits_0. destruct (decide (i < n)).
  - by rewrite Z.shiftl_spec_low.
  - rewrite <- (Z.mod_small b (2 ^ n)) by done. rewrite Z.mod_pow2_bits_high by lia. apply andb_false_r.
Qed.

Lemma pack_event_eq e : event_ok e → pack_event e = event_type e * 2 ^ 48 + code e * 2 ^ 32 + ev_value e ∧ 0 ≤ pack_event e < 2 ^ 64.
Proof.
  intros (Ht & Hc & Hv). assert (E : pack_event e = event_type e * 2 ^ 48 + code e * 2 ^ 32 + ev_value e); [|split; [exact E|rewrite E; lia]].
  unfold pack_event. rewrite (Z.shiftl_mul_pow2 (code e) 32) by lia.
  rewrite (lor_shiftl_add 48 (event_type e)) by lia.
  replace (event_type e * 2 ^ 48 + code e * 2 ^ 32) with (Z.shiftl (event_type e * 2 ^ 16 + code e) 32) by (rewrite Z.shiftl_mul_pow2; lia).
  rewrite lor_shiftl_add, Z.shiftl_mul_pow2 by lia. lia.
Qed.

(** The events that the keyboard and the mouse have wait in their drivers' queues; each call of
    [event_get] gives the program the oldest of the keyboard's, or else of the mouse's, with the
    type, code and value it had; only an event of all zeros (the marker that ends a report) is
    taken for none. *)
Theorem input_event_roundtrip (kb mouse : DevQueue Z) s e l : event_ok e →
  items kb = (pack_event <$> e :: l) ∨ (items kb = [] ∧ items mouse = (pack_event <$> e :: l)) →
  ∃ v kb' mouse', sys_event_get kb mouse s = Done (Some v, kb', mouse', s) ∧
    items kb' ++ items mouse' = drop 1 (items kb ++ items mouse) ∧
    event_get (i64 v) = if decide (e = mkEvent 0 0 0) then None else Some e.
Proof.
  intros Ok Hq. destruct (pack_event_eq e Ok) as [E Hr].
  assert (Hget : event_get (i64 (pack_event e)) = if decide (e = mkEvent 0 0 0) then None else Some e).
  { unfold event_get. case_decide as Hz.
    - by rewrite Hz.
    - assert (Hne : pack_event e ≠ 0).
      { rewrite E. destruct Ok as (Ht & Hc & Hv). intros H0. apply Hz. destruct e as [t c v]; cbn in *. f_equal; lia. }
      destruct (Z.eqb_spec (i64 (pack_event e)) 0) as [H0|_].
      { exfalso. apply Hne. rewrite <- (wrap_small 64 (pack_event e)) by done. rewrite <- wrap_signed, H0 by lia. done. }
      rewrite wrap_signed, wrap_small by (done || lia). f_equal. unfold InputEvent_from. rewrite !Z.shiftr_div_pow2 by lia. rewrite E.
      destruct Ok as (Ht & Hc & Hv). destruct e as [t c v]. cbn in Ht, Hc, Hv |- *. unfold wrap. f_equal; dlia. }
  unfold sys_event_get, dev_read_round. destruct Hq as [Hk|[Hk Hm]]; rewrite Hk; cbn [fmap list_fmap].
  - eexists _, _, _. split; [reflexivity|]. split; [done|exact Hget].
  - rewrite Hm. cbn [fmap list_fmap]. eexists _, _, _. split; [reflexivity|]. split; [cbn; by rewrite Hk|exact Hget].
Qed.

Lemma input_event_roundtrip_witness :
  ∃ v kb' mouse', sys_event_get (mkDev [] []) (mkDev [pack_event (mkEvent 2 1 0xfffffffe)] []) (mkSched ∅ [] None) = Done (Some v, kb', mouse', mkSched ∅ [] None) ∧
    event_get (i64 v) = Some (mkEvent 2 1 0xfffffffe).
Proof.
  destruct (input_event_roundtrip (mkDev [] []) (mkDev [pack_event (mkEvent 2 1 0xfffffffe)] []) (mkSched ∅ [] None) (mkEvent 2 1 0xfffffffe) [])
    as (v & kb' & mouse' & Hr & _ & He).
  - repeat split; cbn; lia.
  - right. done.
  - exists v, kb', mouse'. split; [exact Hr|]. rewrite He. by rewrite decide_False by done.
Defined.
