(* ===== verification/Virtio.v ===== *)
(** * Virtio.v: the virtio drivers ([os/src/drivers/block/virtio_blk.rs], [drivers/bus/virtio.rs])

    The queue of the block device is the virtio-drivers crate's: an interface with its documented
    behaviour.  A request of the driver is in two parts, [blk_begin] up to [schedule] and
    [blk_finish] when the thread runs again; the handler of the device's interrupt wakes it. *)

From S2P Require Import Prelude Address FrameAlloc PageTable Sched Device.

(** ** The block device *)

Inductive BlkRequest : Type := ReadBlock (block_id : Z) | WriteBlock (block_id : Z) (buf : list Z).

(** [VirtIOBlk] of the crate: [vq_request] is [read_block_nb] or [write_block_nb] and gives the
    request's token, [vq_poll] is [read_block] or [write_block], which wait for the device. *)
Class VirtIOBlk (Q : Type) : Type := {
  vq_request : Q → BlkRequest → option (Z * Q);
  vq_poll : Q → BlkRequest → option Q;
  vq_pop_used : Q → option (Z * Q);
  vq_size : Z;
}.

(** [in_flight] are the tokens of the requests made and not popped, [completed] those of them that
    the device has answered. *)
Class VirtIOBlkLaws (Q : Type) `{VirtIOBlk Q} : Type := {
  in_flight : Q → gset Z;
  completed : Q → list Z;
  vq_request_spec q r t q' : vq_request q r = Some (t, q') →
    t ∉ in_flight q ∧ 0 ≤ t < vq_size ∧ in_flight q' = {[t]} ∪ in_flight q ∧ completed q' = completed q;
  vq_pop_spec q : match completed q with
    | [] => vq_pop_used q = None
    | t :: l => ∃ q', vq_pop_used q = Some (t, q') ∧ in_flight q' = in_flight q ∖ {[t]} ∧ completed q' = l
    end;
  completed_spec q : NoDup (completed q) ∧ ∀ t, t ∈ completed q → t ∈ in_flight q;
}.

Section blk.
Context {Q : Type} `{VirtIOBlk Q}.

(** The driver: the device and a condition variable (its queue) for each token. *)
Record VirtIOBlock : Type := mkBlk {
  virtio_blk : Q;
  condvars : gmap Z (list nat);
}.

Definition VirtIOBlock_new (q : Q) : VirtIOBlock := mkBlk q (list_to_map ((λ i, (i, [])) <$> seqZ 0 vq_size)).

(** [read_block] and [write_block]: whether the thread waits now; [nb] is
    [DEV_NON_BLOCKING_ACCESS]. *)
Definition blk_begin (nb : bool) (d : VirtIOBlock) (s : Sched) (r : BlkRequest) : outcome (bool * VirtIOBlock * Sched) :=
  if nb then
    '(token, q) ← unwrap PUnwrap (vq_request (virtio_blk d) r);
    cv ← unwrap PUnwrap (condvars d !! token);
    '(cv, s) ← wait_no_sched cv s;
    mret (true, mkBlk q (<[token := cv]> (condvars d)), s)
  else
    q ← unwrap PUnwrap (vq_poll (virtio_blk d) r);
    mret (false, mkBlk q (condvars d), s).

(** [resp.status()] is [RespStatus::Ok]. *)
Definition blk_finish (ok : bool) : outcome unit := assert_that ok PAssert.

(** [while let Ok(token) = blk.pop_used()]; [None] when the device still had answers after [n]. *)
Fixpoint blk_handle_irq (n : nat) (d : VirtIOBlock) (s : Sched) : outcome (option (VirtIOBlock * Sched)) :=
  match n with
  | O => mret None
  | S n =>
      match vq_pop_used (virtio_blk d) with
      | Some (token, q) =>
          cv ← unwrap PUnwrap (condvars d !! token);
          let '(cv, s) := signal cv s in
          blk_handle_irq n (mkBlk q (<[token := cv]> (condvars d))) s
      | None => mret (Some (d, s))
      end
  end.
End blk.
Arguments VirtIOBlock Q : clear implicits.

(** ** The driver at work *)

Section blk_work.
Context {Q : Type} `{VirtIOBlkLaws Q}.

(** The driver, the scheduler, who made the requests in flight, and who waits elsewhere. *)
Record BlkWork : Type := mkBlkWork {
  b_dev : VirtIOBlock Q;
  b_sched : Sched;
  b_owner : gmap Z nat;
  b_elsewhere : list nat;
}.

Definition owners (o : gmap Z nat) : list nat := (map_to_list o).*2.

(** A thread makes a request; the device answers one; its interrupt is handled; anything else happens
    that leaves the threads that wait for the device where they are. *)
Inductive blk_step : BlkWork → BlkWork → Prop :=
| bs_request d s o w t r tok d' s' : Sched.current s = Some t → vq_request (virtio_blk d) r = Some (tok, virtio_blk d') →
    blk_begin true d s r = Done (true, d', s') → blk_step (mkBlkWork d s o w) (mkBlkWork d' s' (<[tok := t]> o) w)
| bs_answer d s o w tok q : tok ∈ in_flight (virtio_blk d) → tok ∉ completed (virtio_blk d) → in_flight q = in_flight (virtio_blk d) →
    completed q = completed (virtio_blk d) ++ [tok] → blk_step (mkBlkWork d s o w) (mkBlkWork (mkBlk q (condvars d)) s o w)
| bs_irq d s o w n d' s' : blk_handle_irq n d s = Done (Some (d', s')) →
    blk_step (mkBlkWork d s o w) (mkBlkWork d' s' (filter (λ e, e.1 ∈ in_flight (virtio_blk d')) o) w)
| bs_other d s o w s' w' : sched_inv s' (owners o ++ w') → blk_step (mkBlkWork d s o w) (mkBlkWork d s' o w').

Record blk_inv (b : BlkWork) : Prop := {
  bi_owner : dom (b_owner b) = in_flight (virtio_blk (b_dev b));
  bi_range : ∀ tok, tok ∈ in_flight (virtio_blk (b_dev b)) → 0 ≤ tok < vq_size;
  bi_queues : ∀ tok, 0 ≤ tok < vq_size → condvars (b_dev b) !! tok = Some (option_list (b_owner b !! tok));
  bi_sched : sched_inv (b_sched b) (owners (b_owner b) ++ b_elsewhere b);
}.

Lemma owners_insert o tok t : o !! tok = None → owners (<[tok := t]> o) ≡ₚ t :: owners o.
Proof. intros Hn. unfold owners. by rewrite map_to_list_insert. Qed.

Lemma owners_delete o tok t : o !! tok = Some t → owners o ≡ₚ t :: owners (delete tok o).
Proof. intros Hs. unfold owners. by rewrite <- (map_to_list_delete o tok t). Qed.

(** A request that the queue takes puts the thread to sleep on its token. *)
Lemma begin_spec b t r tok q : blk_inv b → Sched.current (b_sched b) = Some t → vq_request (virtio_blk (b_dev b)) r = Some (tok, q) →
  ∃ d' s', blk_begin true (b_dev b) (b_sched b) r = Done (true, d', s') ∧ virtio_blk d' = q ∧
    task_status s' !! t = Some Blocked ∧ Sched.current s' = None ∧
    blk_inv (mkBlkWork d' s' (<[tok := t]> (b_owner b)) (b_elsewhere b)).
Proof.
  intros [Ho Hr Hq Hs] Hc E. destruct (vq_request_spec _ _ _ _ E) as (Hnew & Hrg & Hin & Hcp).
  assert (Hno : b_owner b !! tok = None) by (apply not_elem_of_dom; by rewrite Ho).
  destruct (block_current_spec _ _ _ Hs Hc) as (s' & Hb & I' & Hc' & _). unfold blk_begin. rewrite E. cbn [unwrap]. rewrite outcome_bind_Done.
  cbv beta iota. rewrite Hq by done. rewrite Hno. cbn [unwrap option_list]. rewrite outcome_bind_Done. unfold wait_no_sched, current_task. rewrite Hc, Hb.
  eexists _, _. split; [reflexivity|]. split; [done|]. split; [apply (sc_wait _ _ I'); by left|]. split; [done|].
  split; cbn [b_dev b_sched b_owner b_elsewhere virtio_blk condvars].
  - by rewrite dom_insert_L, Ho, Hin.
  - intros x. rewrite Hin, elem_of_union, elem_of_singleton. intros [->|Hx]; [done|by apply Hr].
  - intros x Hx. destruct (decide (x = tok)) as [->|Hne]; [by rewrite !lookup_insert_eq|]. by rewrite !lookup_insert_ne, Hq.
  - by rewrite owners_insert.
Qed.

(** The handler of the interrupt: the threads of the requests answered, in the order of the answers,
    and no other. *)
Lemma irq_spec n : ∀ b, blk_inv b → (length (completed (virtio_blk (b_dev b))) < n)%nat →
  ∃ d' s' o' woken, blk_handle_irq n (b_dev b) (b_sched b) = Done (Some (d', s')) ∧
    blk_inv (mkBlkWork d' s' o' (b_elsewhere b)) ∧ completed (virtio_blk d') = [] ∧
    o' = filter (λ e, e.1 ∈ in_flight (virtio_blk d')) (b_owner b) ∧
    (∀ tok, tok ∈ in_flight (virtio_blk d') ↔ tok ∈ in_flight (virtio_blk (b_dev b)) ∧ tok ∉ completed (virtio_blk (b_dev b))) ∧
    ready_queue s' = ready_queue (b_sched b) ++ woken ∧
    Forall2 (λ tok t, b_owner b !! tok = Some t) (completed (virtio_blk (b_dev b))) woken.
Proof.
  induction n as [|n IH]; intros b I Hn; [lia|]. pose proof I as [Ho Hr Hq Hs]. cbn [blk_handle_irq].
  pose proof (vq_pop_spec (virtio_blk (b_dev b))) as Hp. destruct (completed_spec (virtio_blk (b_dev b))) as [Hnd Hsub].
  destruct (completed (virtio_blk (b_dev b))) as [|tok l] eqn:Ec.
  - rewrite Hp. eexists _, _, (b_owner b), []. split; [done|]. split; [by destruct b|]. split; [done|]. split.
    { rewrite map_filter_id; [done|]. intros x t Hx. cbn. rewrite <- Ho. by eapply elem_of_dom_2. }
    split; [intros x; split; [by split; [|apply not_elem_of_nil]|by intros [? _]]|]. split; [by rewrite app_nil_r|constructor].
  - destruct Hp as (q & -> & Hin & Hl). pose proof (Hsub tok ltac:(by left)) as Htok.
    destruct (b_owner b !! tok) as [t|] eqn:Et; [|apply not_elem_of_dom in Et; by rewrite Ho in Et].
    rewrite Hq, Et by by apply Hr. cbn [unwrap option_list signal]. rewrite outcome_bind_Done.
    apply NoDup_cons in Hnd as [Htl _].
    assert (Hsd : sched_inv (b_sched b) (t :: (owners (delete tok (b_owner b)) ++ b_elsewhere b))).
    { rewrite app_comm_cons, <- owners_delete by done. done. }
    destruct (wakeup_task_spec _ _ _ Hsd) as (Iw & _ & Hrq).
    set (b1 := mkBlkWork (mkBlk q (<[tok := []]> (condvars (b_dev b)))) (wakeup_task (b_sched b) t) (delete tok (b_owner b)) (b_elsewhere b)).
    assert (I1 : blk_inv b1).
    { split; cbn [b_dev b_sched b_owner b_elsewhere virtio_blk condvars b1].
      - by rewrite dom_delete_L, Ho, Hin.
      - intros x. rewrite Hin. intros [Hx _]%elem_of_difference. by apply Hr.
      - intros x Hx. destruct (decide (x = tok)) as [->|Hne]; [by rewrite lookup_insert_eq, lookup_delete_eq|].
        by rewrite lookup_insert_ne, lookup_delete_ne, Hq.
      - done. }
    destruct (IH b1 I1) as (d' & s' & o' & woken & Hrun & I' & Hc' & Eo & Hfl & Hrd & Hw).
    { cbn [b_dev b1 virtio_blk]. rewrite Hl. cbn in Hn. lia. }
    exists d', s', o', (t :: woken). split; [exact Hrun|]. split; [exact I'|]. split; [done|]. cbn [b_dev b1 virtio_blk b_owner b_sched] in *.
    rewrite Hl in Hfl, Hw. split; [|split; [|split]].
    + rewrite Eo. apply map_eq. intros x. apply option_eq. intros u. rewrite !map_lookup_filter_Some, lookup_delete_Some. cbn.
      split; [tauto|]. intros [Hx Hi]. split; [|done]. split; [|done]. intros <-. apply Hfl in Hi as [Hi _]. rewrite Hin in Hi. set_solver.
    + intros x. rewrite Hfl, Hin, elem_of_difference, elem_of_singleton, not_elem_of_cons. tauto.
    + rewrite Hrd, Hrq, <- app_assoc. done.
    + constructor; [done|]. eapply Forall2_impl; [exact Hw|]. cbn. intros x u Hx. apply lookup_delete_Some in Hx as [_ ?]. done.
Qed.

(** An interrupt handler that returned had fuel enough. *)
Lemma irq_fuel n : ∀ d s d' s', blk_handle_irq n d s = Done (Some (d', s')) → (length (completed (virtio_blk d)) < n)%nat.
Proof.
  induction n as [|n IH]; intros d s d' s' E; [done|]. cbn [blk_handle_irq] in E. pose proof (vq_pop_spec (virtio_blk d)) as Hp.
  destruct (completed (virtio_blk d)) as [|tok l]; [cbn; lia|]. destruct Hp as (q & Hq & _ & Hl). rewrite Hq in E.
  apply outcome_bind_inv in E as (cv & _ & E). destruct (signal cv s) as [cv' s1]. apply IH in E. cbn [virtio_blk] in E. rewrite Hl in E. cbn. lia.
Qed.

Lemma blk_step_inv b b' : blk_step b b' → blk_inv b → blk_inv b'.
Proof.
  intros S I. destruct S as [d s o w t r tok d' s' Hc E Hrun|d s o w tok q Hin _ Ef Ecp|d s o w n d' s' E|d s o w s' w' Is].
  - destruct (begin_spec _ t r tok _ I Hc E) as (d1 & s1 & Hrun' & _ & _ & _ & I'). cbn [b_dev b_sched b_owner b_elsewhere] in *.
    rewrite Hrun in Hrun'. injection Hrun' as -> ->. done.
  - destruct I as [Ho Hr Hq Hs]. split; cbn [b_dev b_sched b_owner b_elsewhere virtio_blk condvars] in *; [by rewrite Ef|by rewrite Ef|done|done].
  - destruct (irq_spec n _ I (irq_fuel _ _ _ _ _ E)) as (d1 & s1 & o1 & woken & Hrun & I' & _ & Eo & _). cbn [b_dev b_sched b_owner b_elsewhere] in *.
    rewrite E in Hrun. injection Hrun as -> ->. by subst o1.
  - destruct I as [Ho Hr Hq _]. by split.
Qed.

Lemma new_inv q s w : in_flight q = ∅ → sched_inv s w → blk_inv (mkBlkWork (VirtIOBlock_new q) s ∅ w).
Proof.
  intros Hf I. split; cbn [b_dev b_sched b_owner b_elsewhere virtio_blk condvars VirtIOBlock_new].
  - by rewrite dom_empty_L, Hf.
  - intros x. rewrite Hf. set_solver.
  - intros x Hx. rewrite lookup_empty. cbn. apply elem_of_list_to_map_1.
    + rewrite <- list_fmap_compose, list_fmap_id. apply NoDup_seqZ.
    + apply list_elem_of_fmap. exists x. split; [done|]. apply elem_of_seqZ. lia.
  - unfold owners. by rewrite map_to_list_empty.
Qed.

(** C12. Every thread that waits for the disk is woken by its own request.  From the creation of the
    driver on, whatever the order of requests, answers, interrupts and other events: the requests
    in flight and the waiting threads correspond one to one, each on the condition variable of its
    request's token, and are blocked.  A request that the queue takes always finds its condition
    variable, and blocks its thread.  The handler of the interrupt ends, never panics, wakes
    exactly the threads whose requests were answered, in the order of the answers, and leaves the
    others waiting. *)
Theorem disk_wakes_requester q s w b : in_flight q = ∅ → sched_inv s w → rtc blk_step (mkBlkWork (VirtIOBlock_new q) s ∅ w) b →
  dom (b_owner b) = in_flight (virtio_blk (b_dev b)) ∧
  (∀ tok, 0 ≤ tok < vq_size → condvars (b_dev b) !! tok = Some (option_list (b_owner b !! tok))) ∧
  (∀ tok t, b_owner b !! tok = Some t → task_status (b_sched b) !! t = Some Blocked ∧ ∀ tok', b_owner b !! tok' = Some t → tok' = tok) ∧
  (∀ t r tok q', Sched.current (b_sched b) = Some t → vq_request (virtio_blk (b_dev b)) r = Some (tok, q') →
     ∃ d' s', blk_begin true (b_dev b) (b_sched b) r = Done (true, d', s') ∧ task_status s' !! t = Some Blocked ∧
       condvars d' !! tok = Some [t]) ∧
  ∃ d' s' woken, blk_handle_irq (S (length (completed (virtio_blk (b_dev b))))) (b_dev b) (b_sched b) = Done (Some (d', s')) ∧
    Forall2 (λ tok t, b_owner b !! tok = Some t) (completed (virtio_blk (b_dev b))) woken ∧
    ready_queue s' = ready_queue (b_sched b) ++ woken ∧
    ∀ tok t, b_owner b !! tok = Some t → tok ∉ completed (virtio_blk (b_dev b)) →
      condvars d' !! tok = Some [t] ∧ task_status s' !! t = Some Blocked.
Proof.
  intros Hq Hs Hsteps. assert (I : blk_inv b).
  { pose proof (new_inv q s w Hq Hs) as I0. clear Hq Hs. induction Hsteps; eauto using blk_step_inv. }
  pose proof I as [Ho Hr Hcv Hsi].
  assert (Hblocked : ∀ b tok t, blk_inv b → b_owner b !! tok = Some t → task_status (b_sched b) !! t = Some Blocked).
  { intros c tok t [_ _ _ Hsc] Ht. apply (sc_wait _ _ Hsc). rewrite (owners_delete _ _ _ Ht). by left. }
  split; [done|]. split; [done|]. split; [|split].
  - intros tok t Ht. split; [by eapply Hblocked|]. intros tok' Ht'. destruct (decide (tok' = tok)) as [|Hne]; [done|]. exfalso.
    pose proof (sc_nodup _ _ Hsi) as Hnd. apply NoDup_app in Hnd as (_ & _ & Hnd). apply NoDup_app in Hnd as (_ & _ & Hnd).
    rewrite (owners_delete _ _ _ Ht) in Hnd. rewrite (owners_delete (delete tok _) tok' t) in Hnd by by rewrite lookup_delete_ne.
    cbn in Hnd. apply NoDup_cons in Hnd as [Hx _]. apply Hx. by left.
  - intros t r tok q' Hc E. destruct (begin_spec b t r tok q' I Hc E) as (d' & s' & Hrun & Hd & Hb & _ & [_ _ Hcv' _]).
    exists d', s'. split; [done|]. split; [done|]. destruct (vq_request_spec _ _ _ _ E) as (_ & Hrg & _).
    specialize (Hcv' tok Hrg). cbn [b_dev b_owner] in Hcv'. by rewrite lookup_insert_eq in Hcv'.
  - destruct (irq_spec (S (length (completed (virtio_blk (b_dev b))))) b I) as (d' & s' & o' & woken & Hrun & I' & _ & Eo & Hfl & Hrd & Hw); [lia|].
    exists d', s', woken. split; [done|]. split; [done|]. split; [done|]. intros tok t Ht Hnc.
    assert (Hin : tok ∈ in_flight (virtio_blk (b_dev b))) by (rewrite <- Ho; by eapply elem_of_dom_2).
    assert (Ht' : o' !! tok = Some t) by (rewrite Eo, map_lookup_filter_Some; split; [done|]; cbn; by apply Hfl).
    split; [|by apply (Hblocked _ tok t I')]. pose proof (bi_queues _ I' tok (Hr tok Hin)) as Hc'. cbn [b_dev b_owner] in Hc'. by rewrite Ht' in Hc'.
Qed.
End blk_work.

(** A disk that takes one request at a time. *)
Module BlkWitness.
Inductive Disk : Type := Idle | Busy | Answered.

#[export] Instance disk : VirtIOBlk Disk := {
  vq_request q _ := match q with Idle => Some (0, Busy) | _ => None end;
  vq_poll q _ := match q with Idle => Some Idle | _ => None end;
  vq_pop_used q := match q with Answered => Some (0, Idle) | _ => None end;
  vq_size := 1;
}.

#[export] Instance disk_laws : VirtIOBlkLaws Disk.
Proof.
  refine {| in_flight := λ q, match q with Idle => ∅ | _ => {[0]} end; completed := λ q, match q with Answered => [0] | _ => [] end |}.
  - intros [| |] r t q' E; cbn in E; [|done|done]. injection E as <- <-. split; [set_solver|]. split; [by cbn|]. by rewrite (right_id_L ∅ (∪)).
  - intros [| |]; cbn; [done|done|]. eexists. split; [done|]. split; [set_solver|done].
  - intros [| |]; (split; [first [apply NoDup_singleton|constructor]|]); intros t Ht; [by apply not_elem_of_nil in Ht..|].
    by apply list_elem_of_singleton in Ht as ->; apply elem_of_singleton.
Defined.
End BlkWitness.
Import BlkWitness.

Lemma disk_wakes_requester_witness :
  let s := mkSched {[0%nat := Running]} [] (Some 0%nat) in
  ∃ b d' s', rtc blk_step (mkBlkWork (VirtIOBlock_new Idle) s ∅ []) b ∧ task_status (b_sched b) !! 0%nat = Some Blocked ∧
    blk_handle_irq 2 (b_dev b) (b_sched b) = Done (Some (d', s')) ∧ ready_queue s' = [0%nat].
Proof.
  intros s.
  assert (I : sched_inv s []).
  { split; cbn; [apply NoDup_singleton|intros t; rewrite dom_singleton; set_solver|by intros t [= <-]|intros t Ht; by apply not_elem_of_nil in Ht..]. }
  set (s1 := mkSched {[0%nat := Blocked]} [] None).
  set (d1 := mkBlk Busy {[0 := [0%nat]]}).
  assert (S : rtc blk_step (mkBlkWork (VirtIOBlock_new Idle) s ∅ []) (mkBlkWork (mkBlk Answered (condvars d1)) s1 (<[0 := 0%nat]> ∅) [])).
  { eapply rtc_l; [apply (bs_request _ _ _ _ 0%nat (ReadBlock 5) 0 d1 s1); reflexivity|].
    apply rtc_once, (bs_answer d1 s1 _ _ 0 Answered); [cbn; by apply elem_of_singleton|apply not_elem_of_nil|done|done]. }
  assert (E0 : in_flight Idle = ∅) by (cbn; reflexivity).
  destruct (disk_wakes_requester Idle s [] _ E0 I S) as (_ & _ & Hb & _ & d' & s' & woken & Hr & Hw & Hq & _).
  eexists _, d', s'. split; [exact S|]. split; [by apply (Hb 0)|]. split; [exact Hr|].
  rewrite Hq. cbn [b_dev virtio_blk completed] in Hw. inversion Hw as [|? t ? ? Ht Hn]; subst. inversion Hn; subst. by injection Ht as <-.
Defined.

(** ** [VirtioHal]: memory for the devices *)

Section hal.
Context {A : Type} `{FrameAllocator A}.

(** The allocator, the memory and [QUEUE_FRAMES]. *)
Record Hal : Type := mkHal {
  hal_alloc : A;
  hal_mem : memory;
  queue_frames : list FrameTracker;
}.

(** [for i in 0..pages], [n] rounds from [i] on. *)
Fixpoint dma_loop (n : nat) (i : Z) (ppn_base : PhysPageNum) (h : Hal) : outcome (PhysPageNum * Hal) :=
  match n with
  | O => mret (ppn_base, h)
  | S n =>
      '(o, a, m) ← frame_alloc (hal_alloc h) (hal_mem h);
      frame ← unwrap PUnwrap o;
      let ppn_base := if i =? 0 then ft_ppn frame else ppn_base in
      assert_that (ppn (ft_ppn frame) =? u64 (ppn ppn_base + i)) PAssert;;
      dma_loop n (i + 1) ppn_base (mkHal a m (queue_frames h ++ [frame]))
  end.

Definition dma_alloc (pages : Z) (h : Hal) : outcome (Z * Hal) :=
  '(ppn_base, h) ← dma_loop (Z.to_nat pages) 0 (PPN 0) h;
  mret (pa (PhysAddr_of_page ppn_base), h).

Fixpoint dealloc_loop (n : nat) (ppn_base : PhysPageNum) (a : A) : outcome A :=
  match n with
  | O => mret a
  | S n => a ← frame_dealloc a ppn_base; dealloc_loop n (PhysPageNum_step ppn_base) a
  end.

Definition dma_dealloc (paddr pages : Z) (h : Hal) : outcome (Z * Hal) :=
  ppn_base ← PhysPageNum_of_addr (PhysAddr_from paddr);
  a ← dealloc_loop (Z.to_nat pages) ppn_base (hal_alloc h);
  mret (0, mkHal a (hal_mem h) (queue_frames h)).

Definition phys_to_virt (paddr : Z) : Z := paddr.

Definition virt_to_phys (m : memory) (kernel_token vaddr : Z) : outcome Z :=
  o ← translate_va m (PageTable_from_token kernel_token) (VirtAddr_from vaddr);
  a ← unwrap PUnwrap o;
  mret (pa a).

Context `{!FrameAllocatorLaws A}.

(** The frames from [b] on. *)
Definition frames_from (b : Z) (n : nat) : list PhysPageNum := PPN <$> seqZ b (Z.of_nat n).

Lemma frames_from_S b n : frames_from b (S n) = PPN b :: frames_from (b + 1) n.
Proof. unfold frames_from. rewrite seqZ_cons by lia. cbn. do 2 f_equal. f_equal; lia. Qed.

Lemma frames_from_0 b : frames_from b 0 = [].
Proof. done. Qed.

Lemma elem_frames_from b n p : p ∈ frames_from b n ↔ b ≤ ppn p < b + Z.of_nat n.
Proof.
  unfold frames_from. rewrite list_elem_of_fmap. split; [intros (x & -> & Hx%elem_of_seqZ); done|].
  intros Hp. exists (ppn p). split; [by rewrite PPN_ppn|]. by apply elem_of_seqZ.
Qed.

(** The frames [fs], all free, were handed out and cleared. *)
Record dma_got (h h' : Hal) (free used : gset PhysPageNum) (fs : list PhysPageNum) : Prop := {
  dg_free : ∀ p, p ∈ fs → p ∈ free;
  dg_inv : fa_inv (hal_alloc h') (free ∖ list_to_set fs) (list_to_set fs ∪ used);
  dg_zero : ∀ p, p ∈ fs → hal_mem h' !! p = Some zero_page;
  dg_other : ∀ p, p ∉ fs → hal_mem h' !! p = hal_mem h !! p;
  dg_queue : queue_frames h' = queue_frames h ++ ((λ p, mkTracker p false) <$> fs);
}.

Lemma dma_got_cons h a m p h' free used fs : p ∈ free → p ∉ fs → m = <[p := zero_page]> (hal_mem h) →
  dma_got (mkHal a m (queue_frames h ++ [mkTracker p false])) h' (free ∖ {[p]}) ({[p]} ∪ used) fs → dma_got h h' free used (p :: fs).
Proof.
  intros Hp Hn -> [Hf Hi Hz Ho Hq]. cbn [hal_alloc hal_mem queue_frames] in *. split.
  - intros q [->|Hq']%elem_of_cons; [done|]. specialize (Hf q Hq'). set_solver.
  - cbn [list_to_set]. replace (free ∖ ({[p]} ∪ list_to_set fs)) with (free ∖ {[p]} ∖ list_to_set fs) by set_solver.
    replace ({[p]} ∪ list_to_set fs ∪ used) with (list_to_set fs ∪ ({[p]} ∪ used)) by set_solver. done.
  - intros q [->|Hq']%elem_of_cons; [|by apply Hz]. rewrite Ho by done. apply lookup_insert_eq.
  - intros q [Hne Hq']%not_elem_of_cons. rewrite Ho by done. by apply lookup_insert_ne.
  - rewrite Hq, <- app_assoc. done.
Qed.

Lemma present_after (m : memory) (free : gset PhysPageNum) p q : (∀ p, p ∈ free → is_Some (m !! p)) → q ∈ free ∖ {[p]} → is_Some (<[p := zero_page]> m !! q).
Proof. intros Hm Hq. rewrite lookup_insert_ne by set_solver. apply Hm. set_solver. Qed.

(** The rounds after the first. *)
Lemma dma_loop_spec n : ∀ i b h free used r h', 0 < i → 0 ≤ ppn b < 2 ^ 44 → i + Z.of_nat n < 2 ^ 63 → fa_inv (hal_alloc h) free used →
  (∀ p, p ∈ free → is_Some (hal_mem h !! p)) → dma_loop n i b h = Done (r, h') →
  r = b ∧ dma_got h h' free used (frames_from (ppn b + i) n).
Proof.
  induction n as [|n IH]; intros i b h free used r h' Hi Hb Hn I Hm E; cbn [dma_loop] in E.
  - injection E as <- <-. split; [done|]. rewrite frames_from_0.
    split; [intros p Hp; by apply not_elem_of_nil in Hp| |intros p Hp; by apply not_elem_of_nil in Hp|done|by rewrite app_nil_r].
    cbn [list_to_set]. by rewrite difference_empty_L, (left_id_L ∅ (∪)).
  - pose proof (frame_alloc_spec (hal_alloc h) (hal_mem h) free used I Hm) as Hs.
    destruct (frame_alloc (hal_alloc h) (hal_mem h)) as [[[o a] m]|]; [|done]. rewrite outcome_bind_Done in E. cbv beta iota in E.
    destruct o as [[p nd]|]; [|done]. cbn [unwrap ft_ppn nodrop] in *. rewrite outcome_bind_Done in E. cbn [ft_ppn] in E. destruct Hs as (Hp & -> & Em & I').
    destruct (Z.eqb_spec i 0); [lia|]. rewrite wrap_small in E by lia. destruct (Z.eqb_spec (ppn p) (ppn b + i)) as [Ep|]; [|done].
    cbn [assert_that] in E. rewrite outcome_bind_Done in E.
    apply (IH _ _ _ (free ∖ {[p]}) ({[p]} ∪ used)) in E as [-> G]; [|lia|done|lia|exact I'|cbn [hal_mem]; intros q; rewrite Em; by apply present_after].
    split; [done|]. rewrite frames_from_S, <- Ep, PPN_ppn. replace (ppn p + 1) with (ppn b + (i + 1)) by lia.
    eapply dma_got_cons; [done| |exact Em|exact G]. rewrite elem_frames_from. lia.
Qed.

Lemma dealloc_loop_spec n : ∀ b a free used, 0 ≤ b → b + Z.of_nat n < 2 ^ 64 → fa_inv a free used → (∀ p, p ∈ frames_from b n → p ∈ used) →
  ∃ a', dealloc_loop n (PPN b) a = Done a' ∧ fa_inv a' (list_to_set (frames_from b n) ∪ free) (used ∖ list_to_set (frames_from b n)).
Proof.
  induction n as [|n IH]; intros b a free used Hb Hn I Hu; cbn [dealloc_loop].
  - exists a. split; [done|]. rewrite frames_from_0. cbn [list_to_set]. by rewrite difference_empty_L, (left_id_L ∅ (∪)).
  - rewrite frames_from_S in Hu. destruct (fa_dealloc_spec a free used (PPN b) I) as (a1 & H1 & I1); [apply Hu; by left|].
    unfold frame_dealloc. rewrite H1, outcome_bind_Done. unfold PhysPageNum_step. cbn [ppn]. rewrite wrap_small by lia.
    destruct (IH (b + 1) a1 _ _ ltac:(lia) ltac:(lia) I1) as (a' & H2 & I2).
    { intros p Hp. apply elem_of_difference. split; [apply Hu; by right|]. rewrite elem_of_singleton. intros ->. rewrite elem_frames_from in Hp. cbn in Hp. lia. }
    exists a'. split; [done|]. rewrite frames_from_S. cbn [list_to_set].
    replace ({[PPN b]} ∪ list_to_set (frames_from (b + 1) n) ∪ free) with (list_to_set (frames_from (b + 1) n) ∪ ({[PPN b]} ∪ free)) by set_solver.
    replace (used ∖ ({[PPN b]} ∪ list_to_set (frames_from (b + 1) n))) with (used ∖ {[PPN b]} ∖ list_to_set (frames_from (b + 1) n)) by set_solver. done.
Qed.

(** Memory that a device gets is contiguous and its own, for any allocator: when [dma_alloc] of a positive number of pages returns,
    the address is that of a frame, it and the following frames, as many as asked for, were free,
    are cleared, and are held in [QUEUE_FRAMES]; no other memory changes.  [dma_dealloc] of the same
    range then succeeds and makes exactly these frames free again. *)
Lemma dma_got_contiguous h free used pages addr h' : fa_inv (hal_alloc h) free used →
  (∀ p, p ∈ free → is_Some (hal_mem h !! p) ∧ 0 ≤ ppn p < 2 ^ 44) → 0 < pages < 2 ^ 63 → dma_alloc pages h = Done (addr, h') →
  ∃ b, addr = b * 4096 ∧ 0 ≤ b < 2 ^ 44 ∧ dma_got h h' free used (frames_from b (Z.to_nat pages)) ∧
    ∃ h2, dma_dealloc addr pages h' = Done (0, h2) ∧ fa_inv (hal_alloc h2) free used ∧ hal_mem h2 = hal_mem h'.
Proof.
  intros I Hm Hp E. unfold dma_alloc in E. destruct (Z.to_nat pages) as [|n] eqn:En; [lia|]. cbn [dma_loop] in E.
  apply outcome_bind_inv in E as ([r h1] & E & Er). assert (Eaddr : addr = pa (PhysAddr_of_page r) ∧ h' = h1) by (by injection Er as <- <-).
  destruct Eaddr as [Eaddr ->]. clear Er.
  pose proof (frame_alloc_spec (hal_alloc h) (hal_mem h) free used I ltac:(intros; by apply Hm)) as Hs.
  destruct (frame_alloc (hal_alloc h) (hal_mem h)) as [[[o a] m]|]; [|done]. rewrite outcome_bind_Done in E. cbv beta iota in E.
  destruct o as [[p nd]|]; [|done]. cbn [unwrap ft_ppn nodrop] in *. rewrite outcome_bind_Done in E. cbn [ft_ppn] in E. destruct Hs as (Hpf & -> & Em & I').
  destruct (Hm p Hpf) as [_ Hpb]. rewrite Z.eqb_refl, Z.add_0_r, wrap_small, Z.eqb_refl in E by lia. cbn [assert_that] in E. rewrite outcome_bind_Done in E.
  apply (dma_loop_spec n 1 p _ (free ∖ {[p]}) ({[p]} ∪ used)) in E as [-> G];
    [|lia|done|lia|exact I'|cbn [hal_mem]; intros q; rewrite Em; apply present_after; intros; by apply Hm].
  assert (G' : dma_got h h1 free used (frames_from (ppn p) (S n))).
  { rewrite frames_from_S, PPN_ppn. eapply dma_got_cons; [done| |exact Em|exact G]. rewrite elem_frames_from. lia. }
  clear G. exists (ppn p).
  assert (Ea : pa (PhysAddr_of_page p) = ppn p * 4096).
  { unfold PhysAddr_of_page. cbn [pa]. rewrite Z.shiftl_mul_pow2 by (by cbn). apply wrap_small. change PAGE_SIZE_BITS with 12. lia. }
  rewrite Ea in Eaddr. subst addr. split; [done|]. split; [done|]. split; [done|]. unfold dma_dealloc.
  assert (Epn : PhysPageNum_of_addr (PhysAddr_from (ppn p * 4096)) = Done p).
  { unfold PhysPageNum_of_addr, PhysAddr_from. rewrite mask_land by done. change PA_WIDTH_SV39 with 56. rewrite Z.mod_small by lia.
    unfold PhysAddr_page_offset, PhysAddr_floor. cbn [pa]. rewrite page_offset_eq, Z.mod_mul by done. cbn. unfold PAGE_SIZE.
    rewrite Z.div_mul by done. by rewrite PPN_ppn. }
  rewrite Epn, outcome_bind_Done, En.
  assert (Hlast : ppn p + Z.of_nat (S n) < 2 ^ 64) by lia.
  destruct (dealloc_loop_spec (S n) (ppn p) _ _ _ ltac:(lia) Hlast (dg_inv _ _ _ _ _ G')) as (a' & Hd & Ia); [intros q Hq; apply elem_of_union; left; by apply elem_of_list_to_set|].
  rewrite PPN_ppn in Hd. rewrite Hd, outcome_bind_Done. eexists. split; [done|]. split; [|done]. cbn [hal_alloc].
  pose proof (fa_disjoint _ _ _ I) as Hdis. pose proof (dg_free _ _ _ _ _ G') as Hfr. set (fs := frames_from (ppn p) (S n)) in *.
  assert (Hsub : list_to_set fs ⊆ free) by (intros q Hq; apply Hfr; by apply elem_of_list_to_set in Hq).
  replace (list_to_set fs ∪ free ∖ list_to_set fs) with free in Ia by (by apply union_difference_L).
  replace ((list_to_set fs ∪ used) ∖ list_to_set fs) with used in Ia by set_solver. done.
Qed.
End hal.
Arguments Hal A : clear implicits.

(** With the kernel's allocator, nothing freed yet and frames enough, every round gets the next frame. *)
Lemma stack_dma_loop n : ∀ i b (h : Hal StackFrameAllocator), recycled (hal_alloc h) = [] → 0 ≤ i →
  (i ≠ 0 → FrameAlloc.current (hal_alloc h) = ppn b + i) → 0 ≤ FrameAlloc.current (hal_alloc h) →
  FrameAlloc.current (hal_alloc h) + Z.of_nat n ≤ fend (hal_alloc h) < 2 ^ 44 →
  (∀ p, FrameAlloc.current (hal_alloc h) ≤ ppn p < fend (hal_alloc h) → is_Some (hal_mem h !! p)) →
  ∃ r h', dma_loop n i b h = Done (r, h').
Proof.
  induction n as [|n IH]; intros i b [a m qf] Hr Hi Hb Hc Hf Hm; cbn [hal_alloc hal_mem queue_frames] in *; [by eexists _, _|].
  cbn [dma_loop hal_alloc hal_mem queue_frames]. unfold frame_alloc. cbn [fa_alloc StackFrameAllocator_ops]. unfold Stack_alloc.
  rewrite Hr. change (pop []) with (@None (Z * list Z)). cbv iota. destruct (Z.eqb_spec (FrameAlloc.current a) (fend a)); [lia|].
  rewrite (wrap_small 64 (FrameAlloc.current a + 1)) by lia. rewrite (wrap_small 64) by lia.
  replace (FrameAlloc.current a + 1 - 1) with (FrameAlloc.current a) by lia. rewrite PhysPageNum_from_small by lia.
  unfold FrameTracker_new. destruct (Hm (PPN (FrameAlloc.current a))) as [pg Hpg]; [cbn; lia|]. rewrite Hpg. cbn [unwrap]. rewrite !outcome_bind_Done.
  cbv beta iota. cbn [unwrap]. rewrite outcome_bind_Done. cbn [ft_ppn]. set (c := FrameAlloc.current a) in *.
  assert (Eb : (ppn (PPN c) =? u64 (ppn (if i =? 0 then PPN c else b) + i)) = true).
  { cbn [ppn]. destruct (Z.eqb_spec i 0) as [->|Hne]; cbn [ppn]; [rewrite Z.add_0_r, wrap_small by lia|rewrite <- Hb, wrap_small by (done || lia)]; apply Z.eqb_refl. }
  rewrite Eb. cbn [assert_that]. rewrite outcome_bind_Done. apply IH; cbn [hal_alloc hal_mem FrameAlloc.current recycled fend]; [done|lia| |lia|lia|].
  - intros _. destruct (Z.eqb_spec i 0) as [->|Hne]; cbn [ppn]; [lia|]. rewrite Hb by done. lia.
  - intros p Hp. rewrite lookup_insert_ne by (intros <-; cbn in Hp; lia). apply Hm. lia.
Qed.

(** Memory that a device gets is contiguous and its own.  With the kernel's allocator, nothing freed
    yet (the devices are set up at start) and frames enough, [dma_alloc] returns.  Whenever it
    returns, the address is that of a frame; it and the frames after it, as many as asked for,
    were free, are cleared and are held in [QUEUE_FRAMES], and no other memory changes;
    [dma_dealloc] of the same range then succeeds and makes exactly these frames free again. *)
Theorem dma_contiguous (h : Hal StackFrameAllocator) free used pages : fa_inv (hal_alloc h) free used →
  (∀ p, p ∈ free → is_Some (hal_mem h !! p) ∧ 0 ≤ ppn p < 2 ^ 44) → 0 < pages < 2 ^ 63 →
  (recycled (hal_alloc h) = [] → FrameAlloc.current (hal_alloc h) + pages ≤ fend (hal_alloc h) →
     ∃ addr h', dma_alloc pages h = Done (addr, h')) ∧
  ∀ addr h', dma_alloc pages h = Done (addr, h') →
    ∃ b, addr = b * 4096 ∧ 0 ≤ b < 2 ^ 44 ∧ dma_got h h' free used (frames_from b (Z.to_nat pages)) ∧
      ∃ h2, dma_dealloc addr pages h' = Done (0, h2) ∧ fa_inv (hal_alloc h2) free used ∧ hal_mem h2 = hal_mem h'.
Proof.
  intros I Hm Hp. split; [|intros addr h'; by eapply dma_got_contiguous]. intros Hr Hc. destruct I as (l & [Hrange _ _ Hfree _]).
  destruct (stack_dma_loop (Z.to_nat pages) 0 (PPN 0) h Hr) as (r & h' & E); [done|done|lia|lia|intros p Hpr; apply Hm, Hfree; by right|].
  unfold dma_alloc. rewrite E. by eexists _, _.
Qed.

Lemma dma_contiguous_witness :
  let h := mkHal FrameAlloc.FrameWitness.a FrameAlloc.FrameWitness.m [] in
  ∃ h' h2, dma_alloc 2 h = Done (5 * 4096, h') ∧ dma_dealloc (5 * 4096) 2 h' = Done (0, h2) ∧ fa_inv (hal_alloc h2) (list_to_set (PPN <$> seqZ 5 (7 - 5))) ∅.
Proof.
  intros h. destruct (dma_contiguous h _ ∅ 2 FrameAlloc.FrameWitness.frames_start) as [Hr Hd]; [|done|].
  - intros p Hp. split; [by apply FrameAlloc.FrameWitness.there|]. rewrite elem_of_list_to_set, list_elem_of_fmap in Hp. destruct Hp as (q & -> & Hq%elem_of_seqZ). cbn. lia.
  - destruct Hr as (addr & h' & E); [done|by vm_compute|]. assert (Ea : addr = 5 * 4096) by (vm_compute in E; by injection E as <- _).
    subst addr. destruct (Hd _ h' E) as (b & _ & _ & _ & h2 & Hrun & I & _). exists h', h2. split; [exact E|]. split; [exact Hrun|exact I].
Defined.
