(* ===== verification/Drivers.v ===== *)
(** * Drivers.v: the devices are set up ([VirtIOGpuWrapper::new] of [os/src/drivers/gpu/mod.rs],
    [VirtIOInputWrapper::new] of [drivers/input/mod.rs], [VirtIOBlock::new] of [drivers/block/virtio_blk.rs])

    The drivers proper are the virtio-drivers crate's, and the bitmap of the cursor is read by the tinybmp
    crate: both are parameters.  A call of the crate asks [VirtioHal] for regions of memory and then succeeds or
    not.  The regions come from the kernel's frame allocator, which has given nothing back yet
    when the devices are set up, so that every region is contiguous as [dma_alloc] demands. *)

From S2P Require Import Prelude Address FrameAlloc PageTable MemorySet KernelSpace Sched Device Virtio.

(** ** Definitions *)

(** A call of the crate: the numbers of pages it asks for, in order, and its result, from the
    addresses it got. *)
Record CrateCall (X : Type) : Type := mkCall {
  cc_pages : list Z;
  cc_result : list Z → option X;
}.
Arguments mkCall {X}.
Arguments cc_pages {X}.
Arguments cc_result {X}.

(** [VirtIOGpu], [VirtIOInput] and [VirtIOBlk] of the crate; a header is the address of the device. *)
Class VirtioDrivers (G I Q : Type) : Type := {
  gpu_new : Z → CrateCall G;
  gpu_setup_framebuffer : G → CrateCall (Z * Z * G);   (** the pointer and the length of the slice *)
  gpu_setup_cursor : G → list Z → Z → Z → Z → Z → CrateCall G;
  input_new : Z → CrateCall I;
  blk_new : Z → CrateCall Q;
}.

Section setup.
Context {A : Type} `{FrameAllocator A}.

Fixpoint dma_regions (sizes : list Z) (h : Hal A) : outcome (list Z * Hal A) :=
  match sizes with
  | [] => mret ([], h)
  | pages :: sizes =>
      '(addr, h) ← dma_alloc pages h;
      '(addrs, h) ← dma_regions sizes h;
      mret (addr :: addrs, h)
  end.

(** The call, with the [unwrap] on its result. *)
Definition crate_call {X} (c : CrateCall X) (h : Hal A) : outcome (X * Hal A) :=
  '(addrs, h) ← dma_regions (cc_pages c) h;
  x ← unwrap PUnwrap (cc_result c addrs);
  mret (x, h).

Context {G I Q : Type} `{VirtioDrivers G I Q}.

(** [raw.image_data().chunks(3)], a fourth byte behind each pixel: a white one is transparent. *)
Fixpoint chunks3 (l : list Z) : list (list Z) :=
  match l with
  | x :: y :: z :: l => [x; y; z] :: chunks3 l
  | [] => []
  | l => [l]
  end.

Definition cursor_image (raw : list Z) : list Z := chunks3 raw ≫= λ i, i ++ [if bool_decide (i = [255; 255; 255]) then 0x0 else 0xff].

Definition VIRTIO7 : Z := 0x10007000.
Definition VIRTIO5 : Z := 0x10005000.
Definition VIRTIO6 : Z := 0x10006000.
Definition VIRTIO0 : Z := 0x10008000.

Record VirtIOGpuWrapper : Type := mkGpu {
  gpu : G;
  fb : Z * Z;
}.

(** [bmp] is what tinybmp makes of [BMP_DATA]. *)
Definition VirtIOGpuWrapper_new (bmp : option (list Z)) (h : Hal A) : outcome (VirtIOGpuWrapper * Hal A) :=
  '(virtio, h) ← crate_call (gpu_new VIRTIO7) h;
  '(fbuffer, h) ← crate_call (gpu_setup_framebuffer virtio) h;
  let '(ptr, len, virtio) := fbuffer in
  raw ← unwrap PUnwrap bmp;
  '(virtio, h) ← crate_call (gpu_setup_cursor virtio (cursor_image raw) 50 50 50 50) h;
  mret (mkGpu virtio (ptr, len), h).

Record VirtIOInputWrapper : Type := mkInput {
  virtio_input : I;
  events : DevQueue Z;
}.

Definition VirtIOInputWrapper_new (addr : Z) (h : Hal A) : outcome (VirtIOInputWrapper * Hal A) :=
  '(virtio_input, h) ← crate_call (input_new addr) h;
  mret (mkInput virtio_input DevQueue_new, h).

Definition BLOCK_DEVICE_new `{VirtIOBlk Q} (h : Hal A) : outcome (VirtIOBlock Q * Hal A) :=
  '(virtio_blk, h) ← crate_call (blk_new VIRTIO0) h;
  mret (VirtIOBlock_new virtio_blk, h).
End setup.
Arguments VirtIOGpuWrapper G : clear implicits.
Arguments VirtIOInputWrapper I : clear implicits.

(** ** The allocator before anything is freed *)

Definition nothing_freed (a : StackFrameAllocator) : Prop := recycled a = [].

Section nothing_freed.
Notation Mm := (Mm StackFrameAllocator).
Implicit Types (a : StackFrameAllocator) (m : memory) (mm : Mm).

Lemma frame_alloc_freed a m o a' m' : frame_alloc a m = Done (o, a', m') → nothing_freed a → nothing_freed a'.
Proof.
  unfold frame_alloc, nothing_freed. intros E Hr. cbn [fa_alloc StackFrameAllocator_ops] in E. unfold Stack_alloc in E. rewrite Hr in E.
  change (pop []) with (@None (Z * list Z)) in E. cbv iota in E. destruct (FrameAlloc.current a =? fend a); [by injection E as <- <- <-|].
  apply outcome_bind_inv in E as ([f m1] & _ & [= <- <- <-]). done.
Qed.

Lemma create_walk_freed idxs : ∀ a m fs p o fs' a' m', create_walk a m fs p idxs = Done (o, fs', a', m') → nothing_freed a → nothing_freed a'.
Proof.
  induction idxs as [|i idxs IH]; intros a m fs p o fs' a' m' E Hr; [by injection E as <- <- <- <-|]. cbn [create_walk] in E.
  destruct idxs as [|j idxs]; [by injection E as <- <- <- <-|]. apply outcome_bind_inv in E as (e & _ & E). destruct (negb (PTE_is_valid e)); [|by apply (IH _ _ _ _ _ _ _ _ E)].
  apply outcome_bind_inv in E as ([[o1 a1] m1] & Ha & E). apply outcome_bind_inv in E as (f & _ & (m2 & _ & E)%outcome_bind_inv).
  apply (IH _ _ _ _ _ _ _ _ E). by apply (frame_alloc_freed _ _ _ _ _ Ha).
Qed.

Lemma pt_map_freed mm pt v p flags pt' mm' : pt_map mm pt v p flags = Done (pt', mm') → nothing_freed (mm_alloc mm) → nothing_freed (mm_alloc mm').
Proof.
  unfold pt_map, PageTable_map, find_pte_create. intros ([[pt1 a1] m1] & E & [= <- <-])%outcome_bind_inv Hr.
  apply outcome_bind_inv in E as ([[[o pt2] a2] m2] & ([[[o2 fs] a3] m3] & Hw & [= <- <- <- <-])%outcome_bind_inv & E).
  apply outcome_bind_inv in E as ([q idx] & _ & (e & _ & (u & _ & (m4 & _ & [= <- <- <-])%outcome_bind_inv)%outcome_bind_inv)%outcome_bind_inv).
  by apply (create_walk_freed _ _ _ _ _ _ _ _ _ Hw).
Qed.

Lemma map_pages_freed vs : ∀ mm pt ar pt' ar' mm', map_type ar = Identical → map_pages mm pt ar vs = Done (pt', ar', mm') →
  nothing_freed (mm_alloc mm) → nothing_freed (mm_alloc mm').
Proof.
  induction vs as [|v vs IH]; intros mm pt ar pt' ar' mm' Ht E Hr; cbn [map_pages] in E; [by injection E as <- <- <-|].
  apply outcome_bind_inv in E as ([[pt1 ar1] mm1] & E1 & E). unfold map_one in E1. rewrite Ht in E1. cbn [mret outcome_ret] in E1. rewrite outcome_bind_Done in E1.
  apply outcome_bind_inv in E1 as ([pt2 mm2] & E1 & [= <- <- <-]). apply (IH _ _ _ _ _ _ Ht E). by apply (pt_map_freed _ _ _ _ _ _ _ E1).
Qed.

Lemma push_identical_freed mm ms s e perm st ms' mm' : push_identical mm ms s e perm st = Done (ms', mm') → nothing_freed (mm_alloc mm) → nothing_freed (mm_alloc mm').
Proof.
  intros (ar & Har & E)%outcome_bind_inv Hr. assert (Ht : map_type ar = Identical).
  { unfold MapArea_new in Har. by apply outcome_bind_inv in Har as (rg & _ & [= <-]). }
  unfold push in E. apply outcome_bind_inv in E as ([[pt ar1] mm1] & E & ([mm2] & [= <-] & [= <- <-])%outcome_bind_inv).
  by apply (map_pages_freed _ _ _ _ _ _ _ Ht E).
Qed.

Lemma push_mmio_freed rs : ∀ mm ms ms' mm', push_mmio mm ms rs = Done (ms', mm') → nothing_freed (mm_alloc mm) → nothing_freed (mm_alloc mm').
Proof.
  induction rs as [|[b l] rs IH]; intros mm ms ms' mm' E Hr; cbn [push_mmio] in E; [by injection E as <- <-|].
  apply outcome_bind_inv in E as ([ms1 mm1] & E1 & E). apply (IH _ _ _ _ E). by apply (push_identical_freed _ _ _ _ _ _ _ _ E1).
Qed.

(** Building the kernel's space frees no frame. *)
Lemma new_kernel_freed sym mm ks mm' : new_kernel sym mm = Done (ks, mm') → nothing_freed (mm_alloc mm) → nothing_freed (mm_alloc mm').
Proof.
  intros E Hr. unfold new_kernel in E. apply outcome_bind_inv in E as ([ms1 mm1] & E1 & E). apply outcome_bind_inv in E as ([ms2 mm2] & E2 & E).
  assert (H1 : nothing_freed (mm_alloc mm1)).
  { apply outcome_bind_inv in E1 as ([[pt a] m] & E1 & [= <- <-]). apply outcome_bind_inv in E1 as ([[o a1] m1] & E1 & (f & _ & [= <- <- <-])%outcome_bind_inv).
    by apply (frame_alloc_freed _ _ _ _ _ E1). }
  assert (H2 : nothing_freed (mm_alloc mm2)).
  { apply outcome_bind_inv in E2 as (v & _ & (p & _ & ([pt mm3] & E2 & [= <- <-])%outcome_bind_inv)%outcome_bind_inv). by apply (pt_map_freed _ _ _ _ _ _ _ E2). }
  clear E1 E2 H1 Hr. do 5 (apply outcome_bind_inv in E as ([? ?] & ?%push_identical_freed & E); [|done]). by apply push_mmio_freed in E.
Qed.
End nothing_freed.

(** ** The regions of the devices *)

Definition total (sizes : list Z) : Z := foldr Z.add 0 sizes.

(** [n] frames are the devices' now: they were free, are cleared, and are kept in [QUEUE_FRAMES]. *)
Record dma_taken (h h' : Hal StackFrameAllocator) (free used : gset PhysPageNum) (n : Z) (fs : list PhysPageNum) : Prop := {
  dt_got : dma_got h h' free used fs;
  dt_nodup : NoDup fs;
  dt_count : zlen fs = n;
  dt_freed : nothing_freed (hal_alloc h');
}.

Lemma dma_taken_nil h free used : fa_inv (hal_alloc h) free used → nothing_freed (hal_alloc h) → dma_taken h h free used 0 [].
Proof.
  intros I Hr. split; [|constructor|done|done]. split; [by intros p ?%not_elem_of_nil| |by intros p ?%not_elem_of_nil|done|by rewrite app_nil_r].
  cbn [list_to_set]. by rewrite difference_empty_L, (left_id_L ∅ (∪)).
Qed.

Lemma dma_taken_app h h1 h2 free used n1 n2 fs1 fs2 : dma_taken h h1 free used n1 fs1 →
  dma_taken h1 h2 (free ∖ list_to_set fs1) (list_to_set fs1 ∪ used) n2 fs2 → dma_taken h h2 free used (n1 + n2) (fs1 ++ fs2).
Proof.
  intros [[F1 I1 Z1 O1 Q1] N1 C1 R1] [[F2 I2 Z2 O2 Q2] N2 C2 R2]. assert (Hd : ∀ p, p ∈ fs1 → p ∉ fs2) by (intros p H1 H2%F2; set_solver). split; [split| | |done].
  - intros p [Hp|Hp]%elem_of_app; [by apply F1|]. apply F2 in Hp. set_solver.
  - rewrite list_to_set_app_L. replace (free ∖ (list_to_set fs1 ∪ list_to_set fs2)) with (free ∖ list_to_set fs1 ∖ list_to_set fs2) by set_solver.
    replace (list_to_set fs1 ∪ list_to_set fs2 ∪ used) with (list_to_set fs2 ∪ (list_to_set fs1 ∪ used)) by set_solver. done.
  - intros p [Hp|Hp]%elem_of_app; [rewrite O2 by (by apply Hd); by apply Z1|by apply Z2].
  - intros p Hp. apply not_elem_of_app in Hp as [H1 H2]. by rewrite O2, O1.
  - by rewrite Q2, Q1, fmap_app, app_assoc.
  - by apply NoDup_app.
  - unfold zlen in *. rewrite length_app. lia.
Qed.

Lemma total_pages_nonneg sizes : Forall (λ n, 0 < n) sizes → 0 ≤ total sizes.
Proof. induction 1 as [|n l Hn _ IH]; [done|]. unfold total in *. cbn [foldr]. lia. Qed.

Lemma frames_left (h : Hal StackFrameAllocator) free used : fa_inv (hal_alloc h) free used → nothing_freed (hal_alloc h) →
  Z.of_nat (size free) = fend (hal_alloc h) - FrameAlloc.current (hal_alloc h).
Proof.
  intros (l & [Hr _ _ Hf _]) Hn. unfold nothing_freed in Hn. set (c := FrameAlloc.current (hal_alloc h)) in *. set (e := fend (hal_alloc h)) in *.
  assert (E : free = list_to_set (PPN <$> seqZ c (e - c))).
  { apply set_eq. intros p. rewrite Hf, Hn, elem_of_list_to_set, list_elem_of_fmap. split.
    - intros [Hp|Hp]; [by apply not_elem_of_nil in Hp|]. exists (ppn p). split; [by rewrite PPN_ppn|apply elem_of_seqZ; lia].
    - intros (x & -> & Hx%elem_of_seqZ). right. cbn. lia. }
  rewrite E, size_list_to_set, length_fmap, length_seqZ; [lia|]. apply NoDup_fmap; [by intros ?? [=]|apply NoDup_seqZ].
Qed.

Lemma dma_loop_freed n : ∀ i b (h : Hal StackFrameAllocator) r h', dma_loop n i b h = Done (r, h') → nothing_freed (hal_alloc h) → nothing_freed (hal_alloc h').
Proof.
  induction n as [|n IH]; intros i b h r h' E Hr; cbn [dma_loop] in E; [by injection E as <- <-|].
  apply outcome_bind_inv in E as ([[o a] m] & Ha & (f & _ & (u & _ & E)%outcome_bind_inv)%outcome_bind_inv). apply IH in E; [done|].
  by apply (frame_alloc_freed _ _ _ _ _ Ha).
Qed.

Lemma dma_regions_spec sizes : ∀ (h : Hal StackFrameAllocator) free used, fa_inv (hal_alloc h) free used → nothing_freed (hal_alloc h) →
  (∀ p, p ∈ free → is_Some (hal_mem h !! p) ∧ 0 ≤ ppn p < 2 ^ 44) → Forall (λ n, 0 < n) sizes → total sizes ≤ Z.of_nat (size free) →
  ∃ addrs h' fs, dma_regions sizes h = Done (addrs, h') ∧ length addrs = length sizes ∧ dma_taken h h' free used (total sizes) fs.
Proof.
  induction sizes as [|n sizes IH]; intros h free used I Hr Hm Hp Hs; cbn [dma_regions total foldr] in *.
  { exists [], h, []. split; [done|]. split; [done|]. by apply dma_taken_nil. }
  fold (total sizes) in *. apply Forall_cons in Hp as [Hn Hp]. pose proof (frames_left h free used I Hr) as Hleft.
  pose proof (total_pages_nonneg sizes Hp) as Ht.
  assert (Hbound : Z.of_nat (size free) < 2 ^ 44) by (destruct I as (l & [? _ _ _ _]); lia).
  destruct (proj1 (dma_contiguous h free used n I Hm ltac:(lia)) Hr ltac:(lia)) as (addr & h1 & E1).
  destruct (dma_got_contiguous h free used n addr h1 I Hm ltac:(lia) E1) as (b & _ & Hb & G & _). set (fs1 := frames_from b (Z.to_nat n)) in *.
  assert (N1 : NoDup fs1) by (apply NoDup_fmap; [by intros ?? [=]|apply NoDup_seqZ]).
  assert (L1 : zlen fs1 = n) by (unfold zlen, fs1, frames_from; rewrite length_fmap, length_seqZ; lia).
  assert (R1 : nothing_freed (hal_alloc h1)).
  { unfold dma_alloc in E1. apply outcome_bind_inv in E1 as ([q h2] & E1 & [= _ <-]). by apply (dma_loop_freed _ _ _ _ _ _ E1). }
  assert (Hsub : list_to_set fs1 ⊆ free) by (intros q Hq; apply (dg_free _ _ _ _ _ G); by apply elem_of_list_to_set in Hq).
  destruct (IH h1 (free ∖ list_to_set fs1) (list_to_set fs1 ∪ used) (dg_inv _ _ _ _ _ G) R1) as (addrs & h2 & fs2 & E2 & L2 & G2).
  - intros p [Hpf Hpn]%elem_of_difference. rewrite (dg_other _ _ _ _ _ G); [by apply Hm|]. by rewrite elem_of_list_to_set in Hpn.
  - exact Hp.
  - rewrite size_difference, size_list_to_set by done. unfold zlen in L1. lia.
  - exists (addr :: addrs), h2, (fs1 ++ fs2). split; [by rewrite E1, outcome_bind_Done, E2|]. split; [cbn; lia|].
    eapply dma_taken_app; [|exact G2]. by split.
Qed.

(** A call that asks for [n] pages and succeeds, with a result as described, whatever regions it gets. *)
Definition call_ok {X} (c : CrateCall X) (n : Z) (R : X → Prop) : Prop :=
  Forall (λ n, 0 < n) (cc_pages c) ∧ total (cc_pages c) = n ∧
  ∀ addrs, length addrs = length (cc_pages c) → ∃ x, cc_result c addrs = Some x ∧ R x.

(** What the set-up of one device does: it takes [n] frames, and its result is as described. *)
Definition sets_up {X} (f : Hal StackFrameAllocator → outcome (X * Hal StackFrameAllocator)) (n : Z) (R : X → Prop) : Prop :=
  0 ≤ n ∧ ∀ h free used, fa_inv (hal_alloc h) free used → nothing_freed (hal_alloc h) →
    (∀ p, p ∈ free → is_Some (hal_mem h !! p) ∧ 0 ≤ ppn p < 2 ^ 44) → n ≤ Z.of_nat (size free) →
    ∃ x h' fs, f h = Done (x, h') ∧ R x ∧ dma_taken h h' free used n fs.

Lemma sets_up_call {X} (c : CrateCall X) n R : call_ok c n R → sets_up (crate_call c) n R.
Proof.
  intros (Hp & <- & Hr). split; [by apply total_pages_nonneg|]. intros h free used I Hf Hm Hs.
  destruct (dma_regions_spec _ h free used I Hf Hm Hp Hs) as (addrs & h' & fs & E & L & T). destruct (Hr addrs L) as (x & Ex & Rx).
  exists x, h', fs. split; [|done]. unfold crate_call. by rewrite E, outcome_bind_Done, Ex.
Qed.

Lemma sets_up_ret {X} (x : X) (R : X → Prop) : R x → sets_up (λ h, mret (x, h)) 0 R.
Proof. intros Rx. split; [done|]. intros h free used I Hf _ _. exists x, h, []. split; [done|]. split; [done|]. by apply dma_taken_nil. Qed.

Lemma sets_up_bind {X Y} f n1 R (g : X → Hal StackFrameAllocator → outcome (Y * Hal StackFrameAllocator)) n2 R' :
  sets_up f n1 R → 0 ≤ n2 → (∀ x, R x → sets_up (g x) n2 R') → sets_up (λ h, '(x, h) ← f h; g x h) (n1 + n2) R'.
Proof.
  intros [P1 H1] P2 H2. split; [lia|]. intros h free used I Hf Hm Hs. destruct (H1 h free used I Hf Hm ltac:(lia)) as (x & h1 & fs1 & E1 & Rx & T1).
  pose proof T1 as [G1 N1 C1 R1]. assert (Hsub : list_to_set fs1 ⊆ free) by (intros q Hq; apply (dg_free _ _ _ _ _ G1); by apply elem_of_list_to_set in Hq).
  destruct (proj2 (H2 x Rx) h1 (free ∖ list_to_set fs1) (list_to_set fs1 ∪ used) (dg_inv _ _ _ _ _ G1) R1) as (y & h2 & fs2 & E2 & Ry & T2).
  - intros p [Hpf Hpn]%elem_of_difference. rewrite (dg_other _ _ _ _ _ G1); [by apply Hm|]. by rewrite elem_of_list_to_set in Hpn.
  - rewrite size_difference, size_list_to_set by done. unfold zlen in C1. lia.
  - exists y, h2, (fs1 ++ fs2). split; [by rewrite E1, outcome_bind_Done|]. split; [done|]. by eapply dma_taken_app.
Qed.

(** ** The devices of the board *)

Section devices.
Context {G I Q : Type} `{VirtioDrivers G I Q} `{VirtIOBlk Q}.

(** The crate drives the GPU, with [n] pages. *)
Definition gpu_ok (bmp : option (list Z)) (n : Z) : Prop :=
  ∃ raw n1 n2 n3, bmp = Some raw ∧ n = n1 + (n2 + n3) ∧ 0 ≤ n2 ∧ 0 ≤ n3 ∧
    call_ok (gpu_new VIRTIO7) n1 (λ virtio, call_ok (gpu_setup_framebuffer virtio) n2 (λ r,
      call_ok (gpu_setup_cursor r.2 (cursor_image raw) 50 50 50 50) n3 (λ _, True))).

(** It drives all devices, with [n] pages. *)
Definition devices_ok (bmp : option (list Z)) (n : Z) : Prop :=
  ∃ n1 n2 n3 n4, gpu_ok bmp n1 ∧ call_ok (input_new VIRTIO6) n2 (λ _, True) ∧ call_ok (input_new VIRTIO5) n3 (λ _, True) ∧
    call_ok (blk_new VIRTIO0) n4 (λ _, True) ∧ n = n1 + n2 + n3 + n4.

Lemma devices_ok_nonneg bmp n : devices_ok bmp n → 0 ≤ n.
Proof.
  intros (n1 & n2 & n3 & n4 & (raw & m1 & m2 & m3 & _ & -> & ? & ? & (P1 & <- & _)) & (P2 & <- & _) & (P3 & <- & _) & (P4 & <- & _) & ->).
  pose proof (total_pages_nonneg _ P1). pose proof (total_pages_nonneg _ P2). pose proof (total_pages_nonneg _ P3). pose proof (total_pages_nonneg _ P4). lia.
Qed.

Lemma gpu_sets_up bmp n : gpu_ok bmp n → sets_up (VirtIOGpuWrapper_new bmp) n (λ _, True).
Proof.
  intros (raw & n1 & n2 & n3 & -> & -> & P2 & P3 & Hc). unfold VirtIOGpuWrapper_new. eapply sets_up_bind; [apply sets_up_call; exact Hc|lia|].
  intros virtio Hv. eapply sets_up_bind; [by apply sets_up_call; exact Hv|lia|]. intros [[ptr len] virtio2] Hv2. cbn [unwrap snd] in *.
  rewrite <- (Z.add_0_r n3). eapply (sets_up_bind (λ h, crate_call _ h) n3 _ (λ v h, mret (mkGpu v (ptr, len), h))); [by apply sets_up_call|lia|].
  intros v _. by apply (sets_up_ret (mkGpu v (ptr, len))).
Qed.

Lemma input_sets_up addr n : call_ok (input_new addr) n (λ _, True) → sets_up (VirtIOInputWrapper_new (I := I) addr) n (λ _, True).
Proof.
  intros Hc. rewrite <- (Z.add_0_r n). unfold VirtIOInputWrapper_new. eapply (sets_up_bind _ n _ (λ v h, mret (mkInput v DevQueue_new, h))); [by apply sets_up_call|lia|].
  intros v _. by apply (sets_up_ret (mkInput v DevQueue_new)).
Qed.

Lemma block_sets_up n : call_ok (blk_new VIRTIO0) n (λ _, True) → sets_up (BLOCK_DEVICE_new (Q := Q)) n (λ _, True).
Proof.
  intros Hc. rewrite <- (Z.add_0_r n). unfold BLOCK_DEVICE_new. eapply (sets_up_bind _ n _ (λ v h, mret (VirtIOBlock_new v, h))); [by apply sets_up_call|lia|].
  intros v _. by apply (sets_up_ret (VirtIOBlock_new v)).
Qed.
End devices.
