(* ===== verification/Sync.v ===== *)
(** * Sync.v: mutexes, semaphores and condition variables
    ([os/src/sync/mutex.rs], [semaphore.rs], [condvar.rs], [os/src/syscall/sync.rs])

    [World] is the scheduler and the process's lists of objects; an entry's position is its id, so
    two threads that name the same id share the object.  An operation runs to the end, or to the
    point where it gives up the processor: then it also says how the thread goes on ([cont]). *)

From S2P Require Import Prelude Sched.

(** ** The objects *)

Inductive MutexObj : Type :=
| MutexSpin (locked : bool)
| MutexBlocking (locked : bool) (wait_queue : list nat).

Record Semaphore : Type := mkSem {
  count : Z;
  sem_queue : list nat;
}.

Record World : Type := mkWorld {
  sched : Sched;
  mutex_list : list (option MutexObj);
  semaphore_list : list (option Semaphore);
  condvar_list : list (option (list nat));
}.

Definition set_sched (w : World) (s : Sched) : World :=
  mkWorld s (mutex_list w) (semaphore_list w) (condvar_list w).
Definition set_mutex (w : World) (i : nat) (m : MutexObj) : World :=
  mkWorld (sched w) (<[i := Some m]> (mutex_list w)) (semaphore_list w) (condvar_list w).
Definition set_sem (w : World) (i : nat) (m : Semaphore) : World :=
  mkWorld (sched w) (mutex_list w) (<[i := Some m]> (semaphore_list w)) (condvar_list w).
Definition set_cond (w : World) (i : nat) (q : list nat) : World :=
  mkWorld (sched w) (mutex_list w) (semaphore_list w) (<[i := Some q]> (condvar_list w)).

(** [list[id].as_ref().unwrap()] *)
Definition get_obj {X} (l : list (option X)) (id : nat) : outcome X :=
  o ← unwrap PIndex (l !! id); unwrap PUnwrap o.

(** How a thread that gave up the processor goes on when it runs again. *)
Inductive cont : Type :=
| CReturn            (** the call returns *)
| CLocked (i : nat)  (** the call of [lock] on a blocking mutex returns *)
| CLock (i : nat).   (** [lock] is called (again) *)

(** ** Mutexes *)

Definition MutexSpin_new : MutexObj := MutexSpin false.
Definition MutexBlocking_new : MutexObj := MutexBlocking false [].

Definition mutex_lock (w : World) (i : nat) : outcome (World * option cont) :=
  m ← get_obj (mutex_list w) i;
  match m with
  | MutexSpin true => s ← suspend_current (sched w); mret (set_sched w s, Some (CLock i))
  | MutexSpin false => mret (set_mutex w i (MutexSpin true), None)
  | MutexBlocking true q =>
      t ← unwrap PUnwrap (current_task (sched w));
      s ← block_current_task (sched w);
      mret (set_mutex (set_sched w s) i (MutexBlocking true (q ++ [t])), Some (CLocked i))
  | MutexBlocking false q => mret (set_mutex w i (MutexBlocking true q), None)
  end.

Definition mutex_unlock (w : World) (i : nat) : outcome World :=
  m ← get_obj (mutex_list w) i;
  match m with
  | MutexSpin _ => mret (set_mutex w i (MutexSpin false))
  | MutexBlocking locked q =>
      assert_that locked PAssert;;
      match q with
      | waking_task :: q => mret (set_mutex (set_sched w (wakeup_task (sched w) waking_task)) i (MutexBlocking locked q))
      | [] => mret (set_mutex w i (MutexBlocking false []))
      end
  end.

(** ** Semaphores: the object alone, then with the scheduler *)

Definition Semaphore_new (res_count : Z) : Semaphore := mkSem (i64 res_count) [].

(** [up]: the task to wake, if any; [down]: whether the caller has to wait. *)
Definition sem_up (m : Semaphore) : Semaphore * option nat :=
  let c := i64 (count m + 1) in
  if c <=? 0 then
    match sem_queue m with
    | t :: q => (mkSem c q, Some t)
    | [] => (mkSem c [], None)
    end
  else (mkSem c (sem_queue m), None).

Definition sem_down (m : Semaphore) (current : option nat) : outcome (Semaphore * bool) :=
  let c := i64 (count m - 1) in
  if c <? 0 then
    task ← unwrap PUnwrap current;
    mret (mkSem c (sem_queue m ++ [task]), true)
  else mret (mkSem c (sem_queue m), false).

Definition semaphore_up (w : World) (i : nat) : outcome World :=
  m ← get_obj (semaphore_list w) i;
  let '(m, o) := sem_up m in
  let w := set_sem w i m in
  mret match o with Some t => set_sched w (wakeup_task (sched w) t) | None => w end.

Definition semaphore_down (w : World) (i : nat) : outcome (World * option cont) :=
  m ← get_obj (semaphore_list w) i;
  '(m, b) ← sem_down m (current_task (sched w));
  let w := set_sem w i m in
  if b : bool then s ← block_current_task (sched w); mret (set_sched w s, Some CReturn)
  else mret (w, None).

(** ** Condition variables *)

Definition condvar_signal (w : World) (i : nat) : outcome World :=
  q ← get_obj (condvar_list w) i;
  match q with
  | task :: q => mret (set_sched (set_cond w i q) (wakeup_task (sched w) task))
  | [] => mret w
  end.

Definition condvar_signal_all (w : World) (i : nat) : outcome World :=
  q ← get_obj (condvar_list w) i;
  mret (set_sched (set_cond w i []) (foldl wakeup_task (sched w) q)).

(** [wait] up to [block_current_and_run_next]; [mutex.lock()] comes when the thread runs again. *)
Definition condvar_wait (w : World) (c i : nat) : outcome (World * option cont) :=
  get_obj (condvar_list w) c;;
  w ← mutex_unlock w i;
  q ← get_obj (condvar_list w) c;
  t ← unwrap PUnwrap (current_task (sched w));
  let w := set_cond w c (q ++ [t]) in
  s ← block_current_task (sched w);
  mret (set_sched w s, Some (CLock i)).

(** ** The system calls that create objects *)

(** The first empty slot, or a new one at the end. *)
Definition slot_insert {X} (l : list (option X)) (x : X) : Z * list (option X) :=
  match find_index (λ o, bool_decide (o = None)) l with
  | Some id => (Z.of_nat id, <[id := Some x]> l)
  | None => (Z.of_nat (length l), l ++ [Some x])
  end.

Definition sys_mutex_create (w : World) (blocking : bool) : Z * World :=
  let mutex := if negb blocking then MutexSpin_new else MutexBlocking_new in
  let '(id, l) := slot_insert (mutex_list w) mutex in
  (id, mkWorld (sched w) l (semaphore_list w) (condvar_list w)).

Definition sys_semaphore_create (w : World) (res_count : Z) : Z * World :=
  let '(id, l) := slot_insert (semaphore_list w) (Semaphore_new res_count) in
  (id, mkWorld (sched w) (mutex_list w) l (condvar_list w)).

Definition sys_condvar_create (w : World) : Z * World :=
  let '(id, l) := slot_insert (condvar_list w) [] in
  (id, mkWorld (sched w) (mutex_list w) (semaphore_list w) l).

(** ** Who waits *)

Definition mutex_queue (o : option MutexObj) : list nat :=
  match o with Some (MutexBlocking _ q) => q | _ => [] end.
Definition semaphore_queue (o : option Semaphore) : list nat := from_option sem_queue [] o.
Definition condvar_queue (o : option (list nat)) : list nat := default [] o.

Definition waiting (w : World) : list nat :=
  (mutex_list w ≫= mutex_queue) ++ (semaphore_list w ≫= semaphore_queue) ++ (condvar_list w ≫= condvar_queue).

Definition world_inv (w : World) : Prop := sched_inv (sched w) (waiting w).

Lemma get_obj_Done {X} (l : list (option X)) i x : get_obj l i = Done x ↔ l !! i = Some (Some x).
Proof.
  unfold get_obj. destruct (l !! i) as [[y|]|]; cbn; split; congruence.
Qed.

(** Changing one object changes one piece of the waiting tasks. *)
Lemma bind_insert {X} (f : X → list nat) (l : list X) i x : l !! i = Some x →
  ∃ r, (l ≫= f) ≡ₚ f x ++ r ∧ ∀ y, (<[i := y]> l ≫= f) ≡ₚ f y ++ r.
Proof.
  intros Hi. destruct (list_elem_of_split_length _ _ _ Hi) as (l1 & l2 & -> & ->).
  exists ((l1 ≫= f) ++ (l2 ≫= f)). split; [|intros y; rewrite insert_app_r_alt, Nat.sub_diag by done; cbn [insert list_insert]];
    rewrite bind_app; cbn [mbind list_bind]; apply Permutation_app_swap_app.
Qed.

Lemma waiting_mutex w i o : mutex_list w !! i = Some (Some o) →
  ∃ r, waiting w ≡ₚ mutex_queue (Some o) ++ r ∧ (∀ o', waiting (set_mutex w i o') ≡ₚ mutex_queue (Some o') ++ r) ∧
    ∀ s o', waiting (set_mutex (set_sched w s) i o') ≡ₚ mutex_queue (Some o') ++ r.
Proof.
  intros Hi. destruct (bind_insert mutex_queue _ _ _ Hi) as (r & E & E'). unfold waiting.
  eexists. rewrite E. split; [by rewrite <- app_assoc|]. split; intros; cbn; by rewrite E', <- app_assoc.
Qed.

Lemma waiting_sem w i o : semaphore_list w !! i = Some (Some o) →
  ∃ r, waiting w ≡ₚ sem_queue o ++ r ∧ (∀ o', waiting (set_sem w i o') ≡ₚ sem_queue o' ++ r) ∧
    ∀ s o', waiting (set_sem (set_sched w s) i o') ≡ₚ sem_queue o' ++ r.
Proof.
  intros Hi. destruct (bind_insert semaphore_queue _ _ _ Hi) as (r & E & E'). unfold waiting.
  exists ((mutex_list w ≫= mutex_queue) ++ r ++ (condvar_list w ≫= condvar_queue)).
  split; [|split; intros; cbn]; rewrite ?E, ?E', <- app_assoc; apply Permutation_app_swap_app.
Qed.

Lemma waiting_cond w i o : condvar_list w !! i = Some (Some o) →
  ∃ r, waiting w ≡ₚ o ++ r ∧ ∀ s o', waiting (set_cond (set_sched w s) i o') ≡ₚ o' ++ r.
Proof.
  intros Hi. destruct (bind_insert condvar_queue _ _ _ Hi) as (r & E & E'). unfold waiting.
  exists ((mutex_list w ≫= mutex_queue) ++ (semaphore_list w ≫= semaphore_queue) ++ r).
  split; [|intros s o'; cbn]; rewrite ?E, ?E', (Permutation_app_swap_app (semaphore_list w ≫= semaphore_queue));
    apply Permutation_app_swap_app.
Qed.

(** ** What the operations do *)

Lemma mutex_lock_spec w i t : world_inv w → current (sched w) = Some t →
  match mutex_list w !! i with
  | Some (Some (MutexSpin true)) => ∃ s, mutex_lock w i = Done (set_sched w s, Some (CLock i)) ∧
      world_inv (set_sched w s) ∧ current s = None ∧ ready_queue s = ready_queue (sched w) ++ [t]
  | Some (Some (MutexSpin false)) => mutex_lock w i = Done (set_mutex w i (MutexSpin true), None) ∧
      world_inv (set_mutex w i (MutexSpin true))
  | Some (Some (MutexBlocking true q)) => ∃ s,
      let w' := set_mutex (set_sched w s) i (MutexBlocking true (q ++ [t])) in
      mutex_lock w i = Done (w', Some (CLocked i)) ∧ world_inv w' ∧ current s = None ∧ ready_queue s = ready_queue (sched w)
  | Some (Some (MutexBlocking false q)) => mutex_lock w i = Done (set_mutex w i (MutexBlocking true q), None) ∧
      world_inv (set_mutex w i (MutexBlocking true q))
  | _ => ∃ e, mutex_lock w i = Panicked e
  end.
Proof.
  intros I Hc. unfold mutex_lock, get_obj.
  destruct (mutex_list w !! i) as [[[[]|[] q]|]|] eqn:Hi; cbn [unwrap]; repeat rewrite outcome_bind_Done; [| | | |by eexists..].
  - destruct (suspend_current_spec _ _ t I Hc) as (s & -> & I' & Hs & Hr). exists s. by rewrite outcome_bind_Done.
  - split; [done|]. destruct (waiting_mutex w i _ Hi) as (r & E & E0 & E').
    unfold world_inv in *. rewrite E in I. by rewrite E0.
  - unfold current_task. rewrite Hc. cbn [unwrap]. rewrite outcome_bind_Done.
    destruct (block_current_spec _ _ t I Hc) as (s & -> & I' & Hs & Hr). exists s. rewrite outcome_bind_Done.
    split; [done|]. split; [|done]. destruct (waiting_mutex w i _ Hi) as (r & E & E0 & E').
    unfold world_inv in *. rewrite E' , E in *. cbn in *. rewrite <- app_assoc; cbn [app]; by rewrite <- Permutation_middle.
  - split; [done|]. destruct (waiting_mutex w i _ Hi) as (r & E & E0 & E').
    unfold world_inv in *. rewrite E in I. by rewrite E0.
Qed.

Lemma mutex_unlock_spec w i : world_inv w →
  match mutex_list w !! i with
  | Some (Some (MutexSpin _)) => mutex_unlock w i = Done (set_mutex w i (MutexSpin false)) ∧
      world_inv (set_mutex w i (MutexSpin false))
  | Some (Some (MutexBlocking true [])) => mutex_unlock w i = Done (set_mutex w i (MutexBlocking false [])) ∧
      world_inv (set_mutex w i (MutexBlocking false []))
  | Some (Some (MutexBlocking true (t :: q))) =>
      let w' := set_mutex (set_sched w (wakeup_task (sched w) t)) i (MutexBlocking true q) in
      mutex_unlock w i = Done w' ∧ world_inv w'
  | _ => ∃ e, mutex_unlock w i = Panicked e
  end.
Proof.
  intros I. unfold mutex_unlock, get_obj.
  destruct (mutex_list w !! i) as [[[b|[] [|t q]]|]|] eqn:Hi; cbn [unwrap assert_that]; repeat rewrite outcome_bind_Done; try by eexists.
  - split; [done|]. destruct (waiting_mutex w i _ Hi) as (r & E & E0 & E').
    unfold world_inv in *. rewrite E in I. by rewrite E0.
  - split; [done|]. destruct (waiting_mutex w i _ Hi) as (r & E & E0 & E').
    unfold world_inv in *. rewrite E in I. by rewrite E0.
  - split; [done|]. destruct (waiting_mutex w i _ Hi) as (r & E & E0 & E').
    unfold world_inv in *. rewrite E in I. rewrite E'. by apply (wakeup_task_spec _ (q ++ r) t).
Qed.

Lemma semaphore_up_inv w i w' : world_inv w → semaphore_up w i = Done w' →
  world_inv w' ∧ mutex_list w' = mutex_list w ∧ current (sched w') = current (sched w).
Proof.
  intros I. unfold semaphore_up. destruct (get_obj (semaphore_list w) i) as [m|] eqn:Hi; [|done].
  apply get_obj_Done in Hi. rewrite outcome_bind_Done. destruct (waiting_sem w i m Hi) as (r & E & E0 & E').
  unfold world_inv in *. rewrite E in I. unfold sem_up. destruct (_ <=? 0); [destruct (sem_queue m) as [|t q] eqn:Eq|];
    intros [= <-]; (split; [|done]); [by rewrite E0| |by rewrite E0].
  change (sched_inv (wakeup_task (sched w) t)
    (waiting (set_sem (set_sched w (wakeup_task (sched w) t)) i (mkSem (i64 (count m + 1)) q)))).
  rewrite E'. by apply (wakeup_task_spec _ (q ++ r) t).
Qed.

Lemma semaphore_down_inv w i t w' k : world_inv w → current (sched w) = Some t → semaphore_down w i = Done (w', k) →
  world_inv w' ∧ mutex_list w' = mutex_list w ∧
  match k with None => current (sched w') = Some t | Some k => k = CReturn ∧ current (sched w') = None end.
Proof.
  intros I Hc. unfold semaphore_down. destruct (get_obj (semaphore_list w) i) as [m|] eqn:Hi; [|done].
  apply get_obj_Done in Hi. rewrite outcome_bind_Done. destruct (waiting_sem w i m Hi) as (r & E & E0 & E').
  unfold current_task, sem_down. rewrite Hc. destruct (_ <? 0); cbn [unwrap mret outcome_ret]; repeat rewrite outcome_bind_Done; cbn [sched set_sem].
  - destruct (block_current_spec _ _ t I Hc) as (s & -> & I' & Hs & Hr). rewrite outcome_bind_Done.
    intros [= <- <-]. split; [|done]. unfold world_inv in *.
    change (sched_inv s (waiting (set_sem (set_sched w s) i (mkSem (i64 (count m - 1)) (sem_queue m ++ [t]))))).
    rewrite E', E in *. cbn in *. rewrite <- app_assoc; cbn [app]; by rewrite <- Permutation_middle.
  - intros [= <- <-]. split; [|done]. unfold world_inv in *. rewrite E in I. by rewrite E0.
Qed.

Lemma condvar_signal_inv w i w' : world_inv w → condvar_signal w i = Done w' →
  world_inv w' ∧ mutex_list w' = mutex_list w ∧ current (sched w') = current (sched w).
Proof.
  intros I. unfold condvar_signal. destruct (get_obj (condvar_list w) i) as [q|] eqn:Hi; [|done].
  apply get_obj_Done in Hi. rewrite outcome_bind_Done. destruct q as [|t q]; intros [= <-]; [done|].
  split; [|done]. destruct (waiting_cond w i _ Hi) as (r & E & E'). unfold world_inv in *. rewrite E in I.
  change (sched_inv (wakeup_task (sched w) t) (waiting (set_cond (set_sched w (wakeup_task (sched w) t)) i q))).
  rewrite E'. by apply (wakeup_task_spec _ (q ++ r) t).
Qed.

Lemma wake_all_spec q : ∀ s r, sched_inv s (q ++ r) →
  sched_inv (foldl wakeup_task s q) r ∧ current (foldl wakeup_task s q) = current s ∧
  ready_queue (foldl wakeup_task s q) = ready_queue s ++ q.
Proof.
  induction q as [|t q IH]; intros s r I; cbn [foldl]; [by rewrite app_nil_r|].
  destruct (wakeup_task_spec s (q ++ r) t I) as (I1 & Hc1 & Hr1). destruct (IH _ r I1) as (I2 & Hc2 & Hr2).
  split; [done|]. split; [by rewrite Hc2|]. by rewrite Hr2, Hr1, <- app_assoc.
Qed.

Lemma condvar_signal_all_inv w i w' : world_inv w → condvar_signal_all w i = Done w' →
  world_inv w' ∧ mutex_list w' = mutex_list w ∧ current (sched w') = current (sched w).
Proof.
  intros I. unfold condvar_signal_all. destruct (get_obj (condvar_list w) i) as [q|] eqn:Hi; [|done].
  apply get_obj_Done in Hi. rewrite outcome_bind_Done. intros [= <-].
  destruct (waiting_cond w i _ Hi) as (r & E & E'). unfold world_inv in *. rewrite E in I.
  destruct (wake_all_spec q (sched w) r I) as (I' & Hc & _). split; [|done].
  change (sched_inv (foldl wakeup_task (sched w) q) (waiting (set_cond (set_sched w (foldl wakeup_task (sched w) q)) i []))).
  by rewrite E'.
Qed.

(** The part of [condvar_wait] after the unlock. *)
Lemma condvar_enqueue w c q t i : world_inv w → current (sched w) = Some t → condvar_list w !! c = Some (Some q) →
  ∃ s, block_current_task (sched w) = Done s ∧ current s = None ∧
    let w' := set_sched (set_cond w c (q ++ [t])) s in world_inv w' ∧ mutex_list w' !! i = mutex_list w !! i.
Proof.
  intros I Hc Hi. destruct (block_current_spec _ _ t I Hc) as (s & Hs & I' & Hn & Hr). exists s. split; [done|].
  split; [done|]. split; [|done]. destruct (waiting_cond w c _ Hi) as (r & E & E'). unfold world_inv in *.
  change (sched_inv s (waiting (set_cond (set_sched w s) c (q ++ [t])))). rewrite E', E in *.
  rewrite <- app_assoc; cbn [app]; by rewrite <- Permutation_middle.
Qed.

Lemma slot_insert_spec {X} (l : list (option X)) (x : X) (f : option X → list nat) :
  f None = [] → f (Some x) = [] →
  ∃ id, slot_insert l x = (Z.of_nat id, snd (slot_insert l x)) ∧
    (snd (slot_insert l x) ≫= f) ≡ₚ (l ≫= f) ∧ mjoin (l !! id) = None ∧
    (∀ j, mjoin (snd (slot_insert l x) !! j) = if decide (j = id) then Some x else mjoin (l !! j)).
Proof.
  intros Hn Hx. unfold slot_insert. destruct (find_index _ l) as [id|] eqn:E; cbn [snd].
  - apply find_index_Some in E as [(o & Ho & Eo) _]. apply bool_decide_eq_true in Eo as ->. exists id. split; [done|].
    destruct (bind_insert f l id None Ho) as (r & E & E'). rewrite E, E', Hn, Hx, Ho. split; [done|]. split; [done|].
    intros j. destruct (decide (j = id)) as [->|Hne].
    + rewrite list_lookup_insert_eq; [done|by eapply lookup_lt_Some].
    + by rewrite list_lookup_insert_ne.
  - exists (length l). split; [done|]. rewrite bind_app. cbn [mbind list_bind]. rewrite Hx, !app_nil_r. split; [done|].
    split; [by rewrite lookup_ge_None_2|]. intros j. destruct (decide (j = length l)) as [->|Hne].
    + by rewrite list_lookup_middle.
    + destruct (decide (j < length l)%nat); [by rewrite lookup_app_l|].
      by rewrite !lookup_ge_None_2 by (rewrite ?length_app; cbn; lia).
Qed.

(** ** Threads that use the objects

    [sy_cont] holds how the threads inside a call go on, [sy_in] who is between the return of a
    [lock] and the call of the [unlock]. *)

Record Sys : Type := mkSys {
  sy_world : World;
  sy_cont : gmap nat cont;
  sy_in : gset (nat * nat);
}.

Definition set_cont (c : gmap nat cont) (t : nat) (k : option cont) : gmap nat cont :=
  match k with Some k => <[t := k]> c | None => delete t c end.

Definition entered (k : option cont) (t i : nat) (ins : gset (nat * nat)) : gset (nat * nat) :=
  match k with None => {[(t, i)]} ∪ ins | Some _ => ins end.

(** What a thread with continuation [k] does when it is switched to. *)
Definition resumed (c : gmap nat cont) (ins : gset (nat * nat)) (t : nat) : gmap nat cont * gset (nat * nat) :=
  match c !! t with
  | Some (CLocked i) => (delete t c, {[(t, i)]} ∪ ins)
  | Some CReturn => (delete t c, ins)
  | _ => (c, ins)
  end.

(** A step: the current thread calls an operation, or goes on with one, or is preempted; or the
    idle control flow takes the next thread.  Only a thread that holds a mutex unlocks it. *)
Inductive sys_step : Sys → Sys → Prop :=
| st_lock w c ins t i w' k :
    current (sched w) = Some t → c !! t = None ∨ c !! t = Some (CLock i) → mutex_lock w i = Done (w', k) →
    sys_step (mkSys w c ins) (mkSys w' (set_cont c t k) (entered k t i ins))
| st_unlock w c ins t i w' :
    current (sched w) = Some t → c !! t = None → (t, i) ∈ ins → mutex_unlock w i = Done w' →
    sys_step (mkSys w c ins) (mkSys w' c (ins ∖ {[(t, i)]}))
| st_up w c ins t i w' :
    current (sched w) = Some t → c !! t = None → semaphore_up w i = Done w' →
    sys_step (mkSys w c ins) (mkSys w' c ins)
| st_down w c ins t i w' k :
    current (sched w) = Some t → c !! t = None → semaphore_down w i = Done (w', k) →
    sys_step (mkSys w c ins) (mkSys w' (set_cont c t k) ins)
| st_signal w c ins t i w' :
    current (sched w) = Some t → c !! t = None → condvar_signal w i = Done w' →
    sys_step (mkSys w c ins) (mkSys w' c ins)
| st_signal_all w c ins t i w' :
    current (sched w) = Some t → c !! t = None → condvar_signal_all w i = Done w' →
    sys_step (mkSys w c ins) (mkSys w' c ins)
| st_wait w c ins t cv i w' k :
    current (sched w) = Some t → c !! t = None → (t, i) ∈ ins → condvar_wait w cv i = Done (w', k) →
    sys_step (mkSys w c ins) (mkSys w' (set_cont c t k) (ins ∖ {[(t, i)]}))
| st_yield w c ins t s :
    current (sched w) = Some t → c !! t = None → suspend_current (sched w) = Done s →
    sys_step (mkSys w c ins) (mkSys (set_sched w s) c ins)
| st_run w c ins t :
    current (sched w) = None → current (run_tasks_round (sched w)) = Some t →
    sys_step (mkSys w c ins)
      (mkSys (set_sched w (run_tasks_round (sched w))) (fst (resumed c ins t)) (snd (resumed c ins t)))
| st_mutex_create w c ins b :
    sys_step (mkSys w c ins) (mkSys (snd (sys_mutex_create w b)) c ins)
| st_semaphore_create w c ins n :
    sys_step (mkSys w c ins) (mkSys (snd (sys_semaphore_create w n)) c ins)
| st_condvar_create w c ins :
    sys_step (mkSys w c ins) (mkSys (snd (sys_condvar_create w)) c ins)
| st_exit w c ins t s :
    current (sched w) = Some t → c !! t = None → exit_current_task (sched w) = Done s →
    sys_step (mkSys w c ins) (mkSys (set_sched w s) c ins).

(** A process without objects, its threads scheduled. *)
Inductive reachable : Sys → Prop :=
| reach_init s : sched_inv s [] → reachable (mkSys (mkWorld s [] [] []) ∅ ∅)
| reach_step x y : reachable x → sys_step x y → reachable y.

(** ** The invariant *)

Definition obj_at (w : World) (i : nat) : option MutexObj := mjoin (mutex_list w !! i).
Definition locked_of (o : option MutexObj) : bool :=
  match o with Some (MutexSpin b) => b | Some (MutexBlocking b _) => b | None => false end.

(** The thread [x] owns the mutex: it is in, or it was given the mutex while it slept. *)
Definition owns (o : option MutexObj) (c : gmap nat cont) (ins : gset (nat * nat)) (i x : nat) : Prop :=
  (x, i) ∈ ins ∨ (c !! x = Some (CLocked i) ∧ x ∉ mutex_queue o).

Definition mutex_inv (o : option MutexObj) (c : gmap nat cont) (ins : gset (nat * nat)) (i : nat) : Prop :=
  (∀ x, x ∈ mutex_queue o → c !! x = Some (CLocked i)) ∧
  if locked_of o then ∃ t, ∀ x, owns o c ins i x ↔ x = t
  else mutex_queue o = [] ∧ ∀ x, ¬ owns o c ins i x.

Record sys_inv (x : Sys) : Prop := {
  sy_sched : world_inv (sy_world x);
  sy_cur : ∀ t, current (sched (sy_world x)) = Some t → ∀ i, sy_cont x !! t ≠ Some (CLocked i);
  sy_mutex : ∀ i, mutex_inv (obj_at (sy_world x) i) (sy_cont x) (sy_in x) i;
}.

Lemma mutex_inv_ext o c c' ins ins' i :
  (∀ x, c' !! x = Some (CLocked i) ↔ c !! x = Some (CLocked i)) → (∀ x, (x, i) ∈ ins' ↔ (x, i) ∈ ins) →
  mutex_inv o c ins i → mutex_inv o c' ins' i.
Proof.
  intros Hc Hi [Hq Ho]. assert (Hown : ∀ x, owns o c' ins' i x ↔ owns o c ins i x) by (intros x; unfold owns; by rewrite Hc, Hi).
  split; [intros x Hx; apply Hc; by apply Hq|]. destruct (locked_of o).
  - destruct Ho as [t Ht]. exists t. intros x. by rewrite Hown.
  - split; [apply Ho|]. intros x. rewrite Hown. apply Ho.
Qed.

Lemma queue_waiting w i x : x ∈ mutex_queue (obj_at w i) → x ∈ waiting w.
Proof.
  unfold obj_at, waiting. destruct (mutex_list w !! i) as [o|] eqn:E; cbn; [|by intros ?%not_elem_of_nil].
  intros Hx. apply elem_of_app. left. apply list_elem_of_bind. exists o. split; [by destruct o|by eapply list_elem_of_lookup_2].
Qed.

Lemma obj_at_set w i o j : is_Some (mutex_list w !! i) →
  obj_at (set_mutex w i o) j = if decide (j = i) then Some o else obj_at w j.
Proof.
  intros Hi. unfold obj_at. cbn. destruct (decide (j = i)) as [->|Hne].
  - rewrite list_lookup_insert_eq; [done|by apply lookup_lt_is_Some].
  - by rewrite list_lookup_insert_ne.
Qed.

(** How the ownership of one mutex moves. *)
Lemma mutex_acquire o o' c ins t i :
  mutex_inv o c ins i → locked_of o = false → locked_of o' = true → mutex_queue o' = [] →
  mutex_inv o' (delete t c) ({[(t, i)]} ∪ ins) i.
Proof.
  intros [_ Ho] Hl Hl' Hq'. rewrite Hl in Ho. destruct Ho as [Hq Ho]. unfold mutex_inv. rewrite Hl', Hq'.
  split; [intros x Hx; by apply not_elem_of_nil in Hx|]. exists t. intros x. unfold owns in *. rewrite Hq'.
  specialize (Ho x). rewrite Hq in Ho. split; [|intros ->; left; set_solver].
  intros [Hin|[Hc _]].
  - apply elem_of_union in Hin as [[= ->]%elem_of_singleton|Hin]; [done|]. exfalso. apply Ho. by left.
  - apply lookup_delete_Some in Hc as [_ Hc]. exfalso. apply Ho. right. split; [done|apply not_elem_of_nil].
Qed.

Lemma mutex_wait q c ins t i :
  mutex_inv (Some (MutexBlocking true q)) c ins i → c !! t ≠ Some (CLocked i) →
  mutex_inv (Some (MutexBlocking true (q ++ [t]))) (<[t := CLocked i]> c) ins i.
Proof.
  intros [Hq [y Hy]] Ht. split; cbn [mutex_queue locked_of] in *.
  - intros x [Hx|Hx]%elem_of_app.
    + destruct (decide (x = t)) as [->|]; [by rewrite lookup_insert_eq|]. rewrite lookup_insert_ne by done. by apply Hq.
    + apply list_elem_of_singleton in Hx as ->. by rewrite lookup_insert_eq.
  - exists y. intros x. rewrite <- Hy. unfold owns. cbn [mutex_queue]. rewrite not_elem_of_app, list_elem_of_singleton.
    destruct (decide (x = t)) as [->|]; [|rewrite lookup_insert_ne by done; tauto].
    rewrite lookup_insert_eq. tauto.
Qed.

Lemma mutex_release o o' c ins t i :
  mutex_inv o c ins i → (t, i) ∈ ins → c !! t ≠ Some (CLocked i) → mutex_queue o = [] →
  mutex_queue o' = [] → locked_of o' = false →
  mutex_inv o' c (ins ∖ {[(t, i)]}) i.
Proof.
  intros [_ Ho] Hin Hc Hq Hq' Hl'. assert (Hown : owns o c ins i t) by by left.
  destruct (locked_of o); [|exfalso; by apply Ho in Hown]. destruct Ho as [y Hy]. apply Hy in Hown as ->.
  unfold mutex_inv. rewrite Hl', Hq'. split; [intros x Hx; by apply not_elem_of_nil in Hx|]. split; [done|].
  intros x [Hx|[Hx _]].
  - apply elem_of_difference in Hx as [Hx Hne]. apply Hne. apply elem_of_singleton. f_equal. apply Hy. by left.
  - assert (x = y) as -> by (apply Hy; right; split; [done|rewrite Hq; apply not_elem_of_nil]). done.
Qed.

Lemma mutex_hand_over x q c ins t i :
  mutex_inv (Some (MutexBlocking true (x :: q))) c ins i → NoDup (x :: q) →
  (t, i) ∈ ins → c !! t ≠ Some (CLocked i) →
  mutex_inv (Some (MutexBlocking true q)) c (ins ∖ {[(t, i)]}) i.
Proof.
  intros [Hq [y Hy]] Hnd Hin Hc. cbn [mutex_queue] in Hq. apply NoDup_cons in Hnd as [Hx Hnd].
  assert (t = y) as -> by (apply Hy; by left). split; cbn [mutex_queue locked_of].
  - intros z Hz. apply Hq. by right.
  - exists x. intros z. unfold owns. cbn [mutex_queue]. split.
    + intros [Hz|[Hz Hzq]].
      * apply elem_of_difference in Hz as [Hz Hne]. exfalso. apply Hne. apply elem_of_singleton. f_equal. apply Hy. by left.
      * destruct (decide (z = x)) as [|Hne]; [done|]. exfalso.
        assert (z = y) as -> by (apply Hy; right; split; [done|cbn; by apply not_elem_of_cons]). done.
    + intros ->. right. split; [apply Hq; by left|done].
Qed.

Lemma mutex_enter o c ins t i : mutex_inv o c ins i → c !! t = Some (CLocked i) → t ∉ mutex_queue o →
  mutex_inv o (delete t c) ({[(t, i)]} ∪ ins) i.
Proof.
  intros [Hq Ho] Hc Ht. split.
  - intros x Hx. rewrite lookup_delete_ne by congruence. by apply Hq.
  - assert (Hown : ∀ x, owns o (delete t c) ({[(t, i)]} ∪ ins) i x ↔ owns o c ins i x).
    { intros x. unfold owns. rewrite elem_of_union, elem_of_singleton, lookup_delete_Some.
      destruct (decide (x = t)) as [->|Hne]; [naive_solver|]. naive_solver. }
    destruct (locked_of o); [|split; [apply Ho|intros x; rewrite Hown; apply Ho]].
    destruct Ho as [y Hy]. exists y. intros x. by rewrite Hown.
Qed.

(** Other mutexes than [i] do not notice. *)
Lemma cont_other c t k j : c !! t ≠ Some (CLocked j) → k ≠ Some (CLocked j) →
  ∀ x, set_cont c t k !! x = Some (CLocked j) ↔ c !! x = Some (CLocked j).
Proof.
  intros Hc Hk x. destruct (decide (x = t)) as [->|Hne]; destruct k as [k|]; cbn;
    rewrite ?lookup_insert_eq, ?lookup_delete_eq, ?lookup_insert_ne, ?lookup_delete_ne by done; naive_solver.
Qed.

Lemma in_add (ins : gset (nat * nat)) t i j : j ≠ i → ∀ x, (x, j) ∈ {[(t, i)]} ∪ ins ↔ (x, j) ∈ ins.
Proof. set_solver. Qed.

Lemma in_remove (ins : gset (nat * nat)) t i j : j ≠ i → ∀ x, (x, j) ∈ ins ∖ {[(t, i)]} ↔ (x, j) ∈ ins.
Proof. set_solver. Qed.

(** ** Every step keeps the invariant *)

Lemma step_lock w c ins t i w' k : sys_inv (mkSys w c ins) →
  current (sched w) = Some t → c !! t = None ∨ c !! t = Some (CLock i) → mutex_lock w i = Done (w', k) →
  sys_inv (mkSys w' (set_cont c t k) (entered k t i ins)).
Proof.
  intros [I Hcur Hm] Hc Hk Hrun. cbn [sy_world sy_cont sy_in] in *.
  assert (Hnl : ∀ j, c !! t ≠ Some (CLocked j)) by (intros j; destruct Hk as [-> | ->]; done).
  pose proof (mutex_lock_spec w i t I Hc) as Hspec. pose proof (Hm i) as Hmi. unfold obj_at in Hmi.
  destruct (mutex_list w !! i) as [[[[]|[] q]|]|] eqn:Hi; try (destruct Hspec as [e He]; congruence); cbn [mjoin option_join] in Hmi.
  - destruct Hspec as (s & Hr & I' & Hs & _). rewrite Hr in Hrun. injection Hrun as <- <-. split; cbn; [done|congruence|].
    intros j. apply (mutex_inv_ext _ c _ ins); [by apply (cont_other c t (Some (CLock i)))|done|apply Hm].
  - destruct Hspec as [Hr I']. rewrite Hr in Hrun. injection Hrun as <- <-. split; cbn [sy_world sy_cont sy_in entered set_cont]; [done| |].
    { intros x Hx j. cbn in Hx. rewrite Hc in Hx. injection Hx as <-. by rewrite lookup_delete_eq. }
    intros j. rewrite obj_at_set by by rewrite Hi. case_decide as E; [subst j; by eapply mutex_acquire|].
    apply (mutex_inv_ext _ c _ ins); [by apply (cont_other c t None)|by apply in_add|apply Hm].
  - destruct Hspec as (s & Hr & I' & Hs & _). rewrite Hr in Hrun. injection Hrun as <- <-.
    split; cbn [sy_world sy_cont sy_in entered set_cont]; [done|cbn; congruence|].
    intros j. rewrite obj_at_set by (cbn; by rewrite Hi). case_decide as E; [subst j; by apply mutex_wait|].
    apply (mutex_inv_ext _ c _ ins); [apply (cont_other c t (Some (CLocked i))); [done|congruence]|done|apply Hm].
  - destruct Hspec as [Hr I']. rewrite Hr in Hrun. injection Hrun as <- <-. split; cbn [sy_world sy_cont sy_in entered set_cont]; [done| |].
    { intros x Hx j. cbn in Hx. rewrite Hc in Hx. injection Hx as <-. by rewrite lookup_delete_eq. }
    intros j. rewrite obj_at_set by by rewrite Hi. case_decide as E.
    + subst j. eapply mutex_acquire; [done..|]. cbn. by destruct Hmi as [_ [? _]].
    + apply (mutex_inv_ext _ c _ ins); [by apply (cont_other c t None)|by apply in_add|apply Hm].
Qed.

Lemma step_unlock w c ins t i w' : sys_inv (mkSys w c ins) →
  current (sched w) = Some t → c !! t = None → (t, i) ∈ ins → mutex_unlock w i = Done w' →
  sys_inv (mkSys w' c (ins ∖ {[(t, i)]})) ∧ current (sched w') = Some t ∧ condvar_list w' = condvar_list w.
Proof.
  intros [I Hcur Hm] Hc Hk Hin Hrun. cbn [sy_world sy_cont sy_in] in *.
  assert (Hnl : c !! t ≠ Some (CLocked i)) by congruence.
  pose proof (mutex_unlock_spec w i I) as Hspec. pose proof (Hm i) as Hmi. unfold obj_at in Hmi.
  assert (Hother : ∀ j, j ≠ i → mutex_inv (obj_at w j) c (ins ∖ {[(t, i)]}) j).
  { intros j Hj. apply (mutex_inv_ext _ c _ ins); [done|by apply in_remove|apply Hm]. }
  destruct (mutex_list w !! i) as [[[b|[] [|x q]]|]|] eqn:Hi; try (destruct Hspec as [e He]; congruence); cbn [mjoin option_join] in Hmi;
    destruct Hspec as [Hr I']; rewrite Hr in Hrun; injection Hrun as <-; (split; [|done]); split; cbn [sy_world sy_cont sy_in]; try done;
    intros j; (rewrite obj_at_set by (cbn; by rewrite Hi)); (case_decide as E; [subst j|by apply Hother]).
  - by eapply mutex_release.
  - by eapply mutex_release.
  - eapply mutex_hand_over; [done| |done|done]. pose proof (sc_nodup _ _ I) as Hnd.
    destruct (waiting_mutex w i _ Hi) as (r & E & _). rewrite E in Hnd. cbn [mutex_queue] in Hnd.
    apply NoDup_app in Hnd as (_ & _ & Hnd). apply NoDup_app in Hnd as (_ & _ & Hnd). by apply NoDup_app in Hnd as (Hnd & _ & _).
Qed.

Lemma step_wait w c ins t cv i w' k : sys_inv (mkSys w c ins) →
  current (sched w) = Some t → c !! t = None → (t, i) ∈ ins → condvar_wait w cv i = Done (w', k) →
  sys_inv (mkSys w' (set_cont c t k) (ins ∖ {[(t, i)]})).
Proof.
  intros S Hc Hk Hin Hrun. unfold condvar_wait in Hrun.
  destruct (get_obj (condvar_list w) cv) as [q|] eqn:Hq; [|done]. rewrite outcome_bind_Done in Hrun.
  destruct (mutex_unlock w i) as [w1|] eqn:Hu; [|done]. rewrite outcome_bind_Done in Hrun.
  destruct (step_unlock w c ins t i w1 S Hc Hk Hin Hu) as ([I1 Hcur1 Hm1] & Hc1 & Hl1). cbn [sy_world sy_cont sy_in] in *.
  rewrite Hl1, Hq, outcome_bind_Done in Hrun. unfold current_task in Hrun. rewrite Hc1 in Hrun. cbn [unwrap] in Hrun.
  rewrite outcome_bind_Done in Hrun. apply get_obj_Done in Hq.
  destruct (condvar_enqueue w1 cv q t i I1 Hc1) as (s & Hs & Hn & I' & _); [by rewrite Hl1|].
  cbn [sched set_cond] in Hrun. rewrite Hs, outcome_bind_Done in Hrun. injection Hrun as <- <-.
  split; cbn [sy_world sy_cont sy_in]; [done|cbn; congruence|]. intros j.
  apply (mutex_inv_ext _ c _ (ins ∖ {[(t, i)]})); [apply (cont_other c t (Some (CLock i))); congruence|done|apply Hm1].
Qed.

Lemma step_run w c ins t : sys_inv (mkSys w c ins) →
  current (sched w) = None → current (run_tasks_round (sched w)) = Some t →
  sys_inv (mkSys (set_sched w (run_tasks_round (sched w))) (fst (resumed c ins t)) (snd (resumed c ins t))).
Proof.
  intros [I Hcur Hm] Hn Hc. cbn [sy_world sy_cont sy_in] in *.
  pose proof (run_tasks_round_spec _ _ I Hn) as Hr. destruct (ready_queue (sched w)) as [|y q] eqn:Hq; [rewrite Hr in Hc; congruence|].
  destruct Hr as (I' & Hc' & _). rewrite Hc in Hc'. injection Hc' as <-.
  assert (Htw : t ∉ waiting w) by (apply (sched_apart _ _ t I); rewrite Hq; by left).
  assert (Htq : ∀ i, t ∉ mutex_queue (obj_at w i)) by (intros i Hin; apply Htw; by eapply queue_waiting).
  unfold resumed. destruct (c !! t) as [[|i|i]|] eqn:Hk; (split; cbn [sy_world sy_cont sy_in fst snd]; [exact I'| |]);
    cbn [sched set_sched]; try (intros x Hx j; rewrite Hc in Hx; injection Hx as <-; rewrite ?lookup_delete_eq; congruence); intros j.
  - apply (mutex_inv_ext _ c _ ins); [apply (cont_other c t None); congruence|done|apply Hm].
  - destruct (decide (j = i)) as [->|Hne]; [apply mutex_enter; [apply Hm|done|apply Htq]|].
    apply (mutex_inv_ext _ c _ ins); [apply (cont_other c t None); congruence|by apply in_add|apply Hm].
  - apply Hm.
  - apply Hm.
Qed.

(** Operations that leave the mutexes, the continuations and the current thread alone. *)
Lemma step_other w c c' ins w' t : sys_inv (mkSys w c ins) → world_inv w' → mutex_list w' = mutex_list w →
  current (sched w') = Some t ∨ current (sched w') = None → c !! t = None →
  c' = c ∨ c' = <[t := CReturn]> c ∨ c' = delete t c → sys_inv (mkSys w' c' ins).
Proof.
  intros [I Hcur Hm] I' El Hc Hk Hc'. cbn [sy_world sy_cont sy_in] in *.
  assert (Hsame : ∀ x j, c' !! x = Some (CLocked j) ↔ c !! x = Some (CLocked j)).
  { intros x j. destruct Hc' as [->|[->| ->]]; [done|apply (cont_other c t (Some CReturn)); congruence|apply (cont_other c t None); congruence]. }
  split; cbn [sy_world sy_cont sy_in]; [done| |].
  - intros x Hx j. rewrite Hsame. destruct Hc as [Hc|Hc]; rewrite Hc in Hx; [|done]. injection Hx as <-. congruence.
  - intros j. unfold obj_at. rewrite El. apply (mutex_inv_ext _ c _ ins); [intros x; apply Hsame|done|apply Hm].
Qed.

Lemma step_create w c ins w' : sys_inv (mkSys w c ins) → sched w' = sched w → waiting w' ≡ₚ waiting w →
  (∀ j, obj_at w' j = obj_at w j ∨
     (obj_at w j = None ∧ locked_of (obj_at w' j) = false ∧ mutex_queue (obj_at w' j) = [])) →
  sys_inv (mkSys w' c ins).
Proof.
  intros [I Hcur Hm] Es Ew Ho. cbn [sy_world sy_cont sy_in] in *. split; cbn [sy_world sy_cont sy_in].
  - unfold world_inv in *. by rewrite Es, Ew.
  - by rewrite Es.
  - intros j. destruct (Ho j) as [->|(E & Hl & Hq)]; [apply Hm|]. pose proof (Hm j) as [_ Hmj]. rewrite E in Hmj.
    destruct Hmj as [_ Hmj]. unfold mutex_inv. rewrite Hl, Hq. split; [intros x Hx; by apply not_elem_of_nil in Hx|].
    split; [done|]. intros x Hx. apply (Hmj x). unfold owns in *. rewrite Hq in Hx. exact Hx.
Qed.

Lemma step_inv x y : sys_inv x → sys_step x y → sys_inv y.
Proof.
  intros S Hst. destruct Hst as [w c ins t i w' k Hc Hk Hr|w c ins t i w' Hc Hk Hin Hr|w c ins t i w' Hc Hk Hr
    |w c ins t i w' k Hc Hk Hr|w c ins t i w' Hc Hk Hr|w c ins t i w' Hc Hk Hr|w c ins t cv i w' k Hc Hk Hin Hr
    |w c ins t s Hc Hk Hr|w c ins t Hn Hc|w c ins b|w c ins n|w c ins|w c ins t s Hc Hk Hr]; pose proof (sy_sched _ S) as I; cbn [sy_world] in I.
  - by eapply step_lock.
  - by eapply step_unlock.
  - destruct (semaphore_up_inv w i w' I Hr) as (I' & El & Ec). eapply (step_other w c _ ins w' t); eauto. left. congruence.
  - destruct (semaphore_down_inv w i t w' k I Hc Hr) as (I' & El & Ec).
    eapply (step_other w c _ ins w' t); eauto; destruct k as [k|]; cbn; [destruct Ec as [-> Ec]; eauto|eauto|destruct Ec as [-> _]; eauto|eauto].
  - destruct (condvar_signal_inv w i w' I Hr) as (I' & El & Ec). eapply (step_other w c _ ins w' t); eauto. left. congruence.
  - destruct (condvar_signal_all_inv w i w' I Hr) as (I' & El & Ec). eapply (step_other w c _ ins w' t); eauto. left. congruence.
  - by eapply step_wait.
  - destruct (suspend_current_spec _ _ t I Hc) as (s' & Hs & I' & Hn & _). rewrite Hr in Hs. injection Hs as <-.
    eapply (step_other w c _ ins _ t); eauto.
  - by apply step_run.
  - unfold sys_mutex_create. set (m := if negb b then _ else _).
    destruct (slot_insert_spec (mutex_list w) m mutex_queue) as (id & E & Eq & En & El); [done|by destruct b|].
    rewrite E. cbn [snd]. apply (step_create w); [done|done|unfold waiting; cbn; by rewrite Eq|].
    intros j. unfold obj_at. cbn [mutex_list]. rewrite El. case_decide as Ej; [|by left]. right. subst j. split; [done|by destruct b].
  - unfold sys_semaphore_create.
    destruct (slot_insert_spec (semaphore_list w) (Semaphore_new n) semaphore_queue) as (id & E & Eq & _); [done..|].
    rewrite E. cbn [snd]. apply (step_create w); [done|done|unfold waiting; cbn; by rewrite Eq|by left].
  - unfold sys_condvar_create.
    destruct (slot_insert_spec (condvar_list w) [] condvar_queue) as (id & E & Eq & _); [done..|].
    rewrite E. cbn [snd]. apply (step_create w); [done|done|unfold waiting; cbn; by rewrite Eq|by left].
  - destruct (exit_current_task_spec _ _ t I Hc) as (s' & Hs & I' & Hn & _). rewrite Hr in Hs. injection Hs as <-.
    eapply (step_other w c _ ins _ t); eauto.
Qed.

Lemma reachable_inv x : reachable x → sys_inv x.
Proof.
  induction 1 as [s I|x y _ IH Hst]; [|by eapply step_inv].
  split; cbn; [done|intros t _ i; by rewrite lookup_empty|].
  intros i. unfold obj_at. cbn. split; cbn; [intros x Hx; by apply not_elem_of_nil in Hx|]. split; [done|].
  intros x [Hx|[Hx _]]; [set_solver|by rewrite lookup_empty in Hx].
Qed.

(** ** Properties *)

(** *** Any use of the objects

    The kernel does not know who locked a mutex: any thread may unlock it, or wait on a condition
    variable with it. So the places of the threads are looked at for every call at any time. *)
Inductive world_step : World → World → Prop :=
| ws_lock w t i w' k : current (sched w) = Some t → mutex_lock w i = Done (w', k) → world_step w w'
| ws_unlock w t i w' : current (sched w) = Some t → mutex_unlock w i = Done w' → world_step w w'
| ws_up w t i w' : current (sched w) = Some t → semaphore_up w i = Done w' → world_step w w'
| ws_down w t i w' k : current (sched w) = Some t → semaphore_down w i = Done (w', k) → world_step w w'
| ws_signal w t i w' : current (sched w) = Some t → condvar_signal w i = Done w' → world_step w w'
| ws_signal_all w t i w' : current (sched w) = Some t → condvar_signal_all w i = Done w' → world_step w w'
| ws_wait w t cv i w' k : current (sched w) = Some t → condvar_wait w cv i = Done (w', k) → world_step w w'
| ws_yield w t s : current (sched w) = Some t → suspend_current (sched w) = Done s → world_step w (set_sched w s)
| ws_run w : current (sched w) = None → world_step w (set_sched w (run_tasks_round (sched w)))
| ws_mutex_create w b : world_step w (snd (sys_mutex_create w b))
| ws_semaphore_create w n : world_step w (snd (sys_semaphore_create w n))
| ws_condvar_create w : world_step w (snd (sys_condvar_create w))
| ws_thread_create w t : t ∉ dom (task_status (sched w)) →
    world_step w (set_sched w (add_task (set_status (sched w) t Ready) t))
| ws_exit w t s : current (sched w) = Some t → exit_current_task (sched w) = Done s → world_step w (set_sched w s).

(** The threads that keep to the discipline are a case of it. *)
Lemma sys_step_world x y : sys_step x y → world_step (sy_world x) (sy_world y).
Proof.
  destruct 1; cbn [sy_world].
  - by eapply ws_lock.
  - by eapply ws_unlock.
  - by eapply ws_up.
  - by eapply ws_down.
  - by eapply ws_signal.
  - by eapply ws_signal_all.
  - by eapply ws_wait.
  - by eapply ws_yield.
  - by apply ws_run.
  - apply ws_mutex_create.
  - apply ws_semaphore_create.
  - apply ws_condvar_create.
  - by eapply ws_exit.
Qed.

Lemma reachable_world x : reachable x → ∃ s, sched_inv s [] ∧ rtc world_step (mkWorld s [] [] []) (sy_world x).
Proof.
  induction 1 as [s I|x y _ (s & I & R) S]; [by exists s|]. exists s. split; [done|].
  eapply rtc_r; [exact R|by apply sys_step_world].
Qed.

Lemma mutex_unlock_inv w i w' : world_inv w → mutex_unlock w i = Done w' →
  world_inv w' ∧ current (sched w') = current (sched w) ∧ condvar_list w' = condvar_list w.
Proof.
  intros I Hr. pose proof (mutex_unlock_spec w i I) as Hspec.
  destruct (mutex_list w !! i) as [[[b|[] [|x q]]|]|]; try (destruct Hspec as [e He]; congruence);
    destruct Hspec as [E I']; rewrite Hr in E; injection E as ->; by split.
Qed.

Lemma mutex_lock_inv w i t w' k : world_inv w → current (sched w) = Some t → mutex_lock w i = Done (w', k) → world_inv w'.
Proof.
  intros I Hc Hr. pose proof (mutex_lock_spec w i t I Hc) as Hspec.
  destruct (mutex_list w !! i) as [[[[]|[] q]|]|]; try (destruct Hspec as [e He]; congruence);
    destruct Hspec as (s & E & I' & _); rewrite Hr in E; by injection E as -> _.
Qed.

Lemma condvar_wait_inv w cv i t w' k : world_inv w → current (sched w) = Some t → condvar_wait w cv i = Done (w', k) → world_inv w'.
Proof.
  intros I Hc. unfold condvar_wait. destruct (get_obj (condvar_list w) cv) as [q|] eqn:Hq; [|done]. rewrite outcome_bind_Done.
  destruct (mutex_unlock w i) as [w1|] eqn:Hu; [|done]. rewrite outcome_bind_Done. destruct (mutex_unlock_inv w i w1 I Hu) as (I1 & Hc1 & Hl1).
  rewrite Hl1, Hq, outcome_bind_Done. unfold current_task. rewrite Hc1, Hc. cbn [unwrap]. rewrite outcome_bind_Done. apply get_obj_Done in Hq.
  destruct (condvar_enqueue w1 cv q t i I1) as (s & Hs & _ & I' & _); [congruence|by rewrite Hl1|].
  cbn [sched set_cond]. rewrite Hs, outcome_bind_Done. by intros [= <- _].
Qed.

Lemma spawn_inv s ws t : sched_inv s ws → t ∉ dom (task_status s) → sched_inv (add_task (set_status s t Ready) t) ws.
Proof.
  intros [Hnd Hdom Hc Hr Hw] Ht. assert (Hn : t ∉ cur_list s ++ ready_queue s ++ ws) by by rewrite Hdom.
  assert (Hp : cur_list s ++ (ready_queue s ++ [t]) ++ ws ≡ₚ t :: cur_list s ++ ready_queue s ++ ws).
  { rewrite <- (app_assoc (ready_queue s)). cbn [app]. by rewrite <- !Permutation_middle. }
  split; cbn [add_task set_status ready_queue task_status current].
  - change (cur_list _) with (cur_list s). rewrite Hp. by apply NoDup_cons.
  - intros x. change (cur_list _) with (cur_list s). rewrite Hp, elem_of_cons, dom_insert, elem_of_union, elem_of_singleton. by rewrite Hdom.
  - intros x Hx. rewrite lookup_insert_ne; [by apply Hc|]. intros ->. apply Hn. unfold cur_list. rewrite Hx. by left.
  - intros x [Hx| ->%list_elem_of_singleton]%elem_of_app; [|apply lookup_insert_eq]. rewrite lookup_insert_ne; [by apply Hr|]. intros ->. apply Hn. set_solver.
  - intros x Hx. rewrite lookup_insert_ne; [by apply Hw|]. intros ->. apply Hn. set_solver.
Qed.

Lemma world_step_inv w w' : world_step w w' → world_inv w → world_inv w'.
Proof.
  intros S I. destruct S as [w t i w' k Hc Hr|w t i w' Hc Hr|w t i w' Hc Hr|w t i w' k Hc Hr|w t i w' Hc Hr|w t i w' Hc Hr
    |w t cv i w' k Hc Hr|w t s Hc Hr|w Hc|w b|w n|w|w t Ht|w t s Hc Hr].
  - by eapply mutex_lock_inv.
  - by eapply mutex_unlock_inv.
  - by apply (semaphore_up_inv w i).
  - by apply (semaphore_down_inv w i t w' k).
  - by apply (condvar_signal_inv w i).
  - by apply (condvar_signal_all_inv w i).
  - by eapply condvar_wait_inv.
  - destruct (suspend_current_spec _ _ t I Hc) as (s' & Hs & I' & _). rewrite Hr in Hs. by injection Hs as <-.
  - pose proof (run_tasks_round_spec _ _ I Hc) as H. destruct (ready_queue (sched w)); [|apply H]. unfold world_inv. cbn. by rewrite H.
  - unfold sys_mutex_create. set (m := if negb b then _ else _).
    destruct (slot_insert_spec (mutex_list w) m mutex_queue) as (id & E & Eq & _); [done|by destruct b|].
    rewrite E. unfold world_inv, waiting. cbn [snd sched mutex_list semaphore_list condvar_list]. by rewrite Eq.
  - unfold sys_semaphore_create.
    destruct (slot_insert_spec (semaphore_list w) (Semaphore_new n) semaphore_queue) as (id & E & Eq & _); [done..|].
    rewrite E. unfold world_inv, waiting. cbn [snd sched mutex_list semaphore_list condvar_list]. by rewrite Eq.
  - unfold sys_condvar_create.
    destruct (slot_insert_spec (condvar_list w) [] condvar_queue) as (id & E & Eq & _); [done..|].
    rewrite E. unfold world_inv, waiting. cbn [snd sched mutex_list semaphore_list condvar_list]. by rewrite Eq.
  - by apply spawn_inv.
  - destruct (exit_current_task_spec _ _ t I Hc) as (s' & Hs & I' & _). rewrite Hr in Hs. by injection Hs as <-.
Qed.

(** C11. No thread is lost or scheduled twice: whatever the threads of a process do with mutexes,
    semaphores and condition variables, whether they hold the mutexes they unlock or not, each of them is
    in exactly one place, the processor, the ready queue or one wait queue, once, and its status
    (running, ready, blocked) says which; a thread that has ended is in none. *)
Theorem threads_in_one_place s0 w : sched_inv s0 [] → rtc world_step (mkWorld s0 [] [] []) w →
  let s := sched w in let ws := waiting w in
  NoDup (cur_list s ++ ready_queue s ++ ws) ∧
  (∀ t, t ∈ cur_list s ++ ready_queue s ++ ws ↔ is_Some (task_status s !! t)) ∧
  ∀ t, (task_status s !! t = Some Running ↔ current s = Some t) ∧
       (task_status s !! t = Some Ready ↔ t ∈ ready_queue s) ∧
       (task_status s !! t = Some Blocked ↔ t ∈ ws).
Proof.
  intros I0 R s ws. assert (I : world_inv w).
  { assert (world_inv (mkWorld s0 [] [] [])) as I1 by done. clear -I1 R. induction R; eauto using world_step_inv. }
  destruct I as [Hnd Hdom Hc Hr Hw]. fold s ws in Hnd, Hdom, Hc, Hr, Hw.
  split; [done|]. split; [by intros t; rewrite Hdom, elem_of_dom|]. intros t.
  assert (Hin : is_Some (task_status s !! t) → current s = Some t ∨ t ∈ ready_queue s ∨ t ∈ ws).
  { intros Hs. apply elem_of_dom, Hdom in Hs. rewrite !elem_of_app in Hs. unfold cur_list in Hs.
    destruct (current s) as [y|]; cbn in Hs; [rewrite list_elem_of_singleton in Hs|]; naive_solver set_solver. }
  pose proof (Hc t). pose proof (Hr t). pose proof (Hw t).
  repeat split; intros Hs; auto; (destruct Hin as [?|[?|?]]; [by eexists|..]; try done); exfalso; naive_solver.
Qed.

Definition two_threads : Sched := mkSched {[ 1%nat := Running; 2%nat := Ready ]} [2%nat] (Some 1%nat).

Lemma two_threads_inv : sched_inv two_threads [].
Proof.
  split; cbn.
  - by apply (bool_decide_unpack _); vm_compute.
  - intros t. rewrite dom_insert, dom_singleton. set_solver.
  - by intros t [= <-].
  - by intros t ->%list_elem_of_singleton.
  - by intros t ?%not_elem_of_nil.
Qed.

(** Thread 1 makes a mutex, locks it and yields; thread 2 runs and waits for it. *)
Definition world1 : World := snd (sys_mutex_create (mkWorld two_threads [] [] []) true).
Definition world2 : World := set_mutex world1 0 (MutexBlocking true []).
Definition sched3 : Sched := add_task (set_status (mkSched (task_status two_threads) [2%nat] None) 1 Ready) 1.
Definition world4 : World := set_sched (set_sched world2 sched3) (run_tasks_round sched3).
Definition sched5 : Sched := set_status (mkSched (task_status (sched world4)) [1%nat] None) 2 Blocked.
Definition world5 : World := set_mutex (set_sched world4 sched5) 0 (MutexBlocking true [2%nat]).
Definition after_lock : Sys := mkSys world5 (set_cont ∅ 2 (Some (CLocked 0))) (entered None 1 0 ∅).

Lemma after_lock_reachable : reachable after_lock.
Proof.
  assert (R1 : reachable (mkSys world1 ∅ ∅)).
  { eapply reach_step; [apply reach_init, two_threads_inv|apply (st_mutex_create _ _ _ true)]. }
  assert (R2 : reachable (mkSys world2 (set_cont ∅ 1 None) (entered None 1 0 ∅))).
  { eapply reach_step; [exact R1|]. apply (st_lock world1 ∅ ∅ 1 0 world2 None); [reflexivity|by left|reflexivity]. }
  assert (R3 : reachable (mkSys (set_sched world2 sched3) (set_cont ∅ 1 None) (entered None 1 0 ∅))).
  { eapply reach_step; [exact R2|]. apply (st_yield world2 _ _ 1 sched3); reflexivity. }
  change (set_cont ∅ 1 None) with (∅ : gmap nat cont) in R3.
  assert (R4 : reachable (mkSys world4 ∅ (entered None 1 0 ∅))).
  { eapply reach_step; [exact R3|]. exact (st_run (set_sched world2 sched3) ∅ (entered None 1 0 ∅) 2 eq_refl eq_refl). }
  eapply reach_step; [exact R4|]. apply (st_lock world4 ∅ _ 2 0 world5 (Some (CLocked 0))); [reflexivity|by left|reflexivity].
Qed.

(** Thread 1 unlocks the mutex twice, although thread 2 has it after the first time. *)
Definition world6 : World := set_sched world5 (mkSched (<[1%nat := Running]> (task_status (sched world5))) [] (Some 1%nat)).

Lemma threads_in_one_place_witness :
  ∃ w7 w8, mutex_unlock world6 0 = Done w7 ∧ mutex_unlock w7 0 = Done w8 ∧
    task_status (sched world5) !! 2%nat = Some Blocked ∧ 2%nat ∈ waiting world5 ∧
    task_status (sched w8) !! 2%nat = Some Ready ∧ 2%nat ∈ ready_queue (sched w8).
Proof.
  destruct (reachable_world _ after_lock_reachable) as (s0 & I0 & R5).
  assert (R6 : rtc world_step (mkWorld s0 [] [] []) world6) by (eapply rtc_r; [exact R5|exact (ws_run world5 eq_refl)]).
  eexists _, _. split; [reflexivity|]. split; [reflexivity|].
  destruct (threads_in_one_place s0 world5 I0 R5) as (_ & _ & H5). split; [reflexivity|]. split; [by apply (H5 2%nat)|]. split; [reflexivity|].
  assert (R8 : rtc world_step world6 (set_mutex (set_mutex (set_sched world6 (wakeup_task (sched world6) 2)) 0 (MutexBlocking true [])) 0 (MutexBlocking false []))).
  { eapply rtc_l; [by apply (ws_unlock world6 1 0)|]. eapply rtc_l; [|apply rtc_refl]. by apply (ws_unlock _ 1 0). }
  destruct (threads_in_one_place s0 _ I0 ltac:(by etrans)) as (_ & _ & H8). by apply (H8 2%nat).
Defined.

(** What the invariant says of one mutex. *)
Lemma sys_exclusive x i : sys_inv x →
  (∀ t1 t2, (t1, i) ∈ sy_in x → (t2, i) ∈ sy_in x → t1 = t2) ∧
  (∀ t, (t, i) ∈ sy_in x → locked_of (obj_at (sy_world x) i) = true) ∧
  (locked_of (obj_at (sy_world x) i) = false → mutex_queue (obj_at (sy_world x) i) = []) ∧
  (∀ t, t ∈ mutex_queue (obj_at (sy_world x) i) → task_status (sched (sy_world x)) !! t = Some Blocked ∧
     ∃ owner, owner ≠ t ∧ owns (obj_at (sy_world x) i) (sy_cont x) (sy_in x) i owner ∨ (t, i) ∈ sy_in x).
Proof.
  intros S. destruct (sy_mutex _ S i) as [Hq Ho].
  assert (Hin : ∀ t, (t, i) ∈ sy_in x → owns (obj_at (sy_world x) i) (sy_cont x) (sy_in x) i t) by by left.
  split; [|split; [|split]].
  - intros t1 t2 H1%Hin H2%Hin. destruct (locked_of _); [destruct Ho as [t Ht]; apply Ht in H1, H2; congruence|].
    exfalso. by apply (proj2 Ho t1).
  - intros t H%Hin. destruct (locked_of _); [done|]. exfalso. by apply (proj2 Ho t).
  - intros Hl. rewrite Hl in Ho. apply Ho.
  - intros t Ht. split; [apply (sc_wait _ _ (sy_sched _ S)); by eapply queue_waiting|].
    destruct (locked_of (obj_at (sy_world x) i)); [|destruct Ho as [E _]; rewrite E in Ht; by apply not_elem_of_nil in Ht].
    destruct Ho as [y Hy]. exists y. destruct (decide (y = t)) as [->|Hne]; [right|left; split; [done|by apply Hy]].
    assert (Hown : owns (obj_at (sy_world x) i) (sy_cont x) (sy_in x) i t) by by apply Hy. destruct Hown as [?|[_ ?]]; done.
Qed.

(** C10. Mutual exclusion: of the threads that unlock only what they locked, at most one at a time
    is between the return of [lock] and the call of [unlock] on a mutex, spin or blocking, through
    waits, condition variables and preemptions; the mutex is locked then; and a mutex that is not
    locked has nobody waiting for it (no wake-up is lost). *)
Theorem mutual_exclusion x i : reachable x →
  (∀ t1 t2, (t1, i) ∈ sy_in x → (t2, i) ∈ sy_in x → t1 = t2) ∧
  (∀ t, (t, i) ∈ sy_in x → locked_of (obj_at (sy_world x) i) = true) ∧
  (locked_of (obj_at (sy_world x) i) = false → mutex_queue (obj_at (sy_world x) i) = []) ∧
  (∀ t, t ∈ mutex_queue (obj_at (sy_world x) i) → task_status (sched (sy_world x)) !! t = Some Blocked ∧
     ∃ owner, owner ≠ t ∧ owns (obj_at (sy_world x) i) (sy_cont x) (sy_in x) i owner ∨ (t, i) ∈ sy_in x).
Proof. intros R. by apply sys_exclusive, reachable_inv. Qed.

Lemma mutual_exclusion_witness : (1%nat, 0%nat) ∈ sy_in after_lock ∧ ∀ t, (t, 0%nat) ∈ sy_in after_lock → t = 1%nat.
Proof.
  assert (H1 : (1%nat, 0%nat) ∈ sy_in after_lock) by (by apply (bool_decide_unpack _); vm_compute).
  split; [exact H1|]. intros t Ht. exact (proj1 (mutual_exclusion after_lock 0 after_lock_reachable) t 1%nat Ht H1).
Defined.

(** *** Semaphores *)

Inductive sem_op : Type := Up | Down (task : nat).

Definition sem_exec (m : outcome Semaphore) (op : sem_op) : outcome Semaphore :=
  m ← m;
  match op with
  | Up => mret (fst (sem_up m))
  | Down t => '(m, _) ← sem_down m (Some t); mret m
  end.

Definition downs (ops : list sem_op) : list nat := ops ≫= λ op, match op with Down t => [t] | Up => [] end.
Definition ups (ops : list sem_op) : Z := zlen ops - zlen (downs ops).

Lemma ups_snoc ops op : ups (ops ++ [op]) = ups ops + (match op with Up => 1 | Down _ => 0 end) ∧
  downs (ops ++ [op]) = downs ops ++ (match op with Up => [] | Down t => [t] end).
Proof.
  assert (E : downs (ops ++ [op]) = downs ops ++ (match op with Up => [] | Down t => [t] end)).
  { unfold downs. rewrite bind_app. cbn. by rewrite app_nil_r. }
  split; [|done]. unfold ups, zlen. rewrite E, !length_app. destruct op; cbn; lia.
Qed.

Lemma ups_range ops : 0 ≤ ups ops ∧ 0 ≤ zlen (downs ops) ∧ ups ops + zlen (downs ops) = zlen ops.
Proof.
  induction ops as [|op ops (H1 & H2 & H3)] using rev_ind; [done|]. destruct (ups_snoc ops op) as [-> ->].
  unfold zlen in *. rewrite !length_app. destruct op; cbn; lia.
Qed.

Lemma sem_up_head m a l : count m = a - Z.of_nat (length l) → sem_queue m = drop (Z.to_nat a) l →
  0 ≤ a → a < 2 ^ 63 - 1 ∧ Z.of_nat (length l) < 2 ^ 63 → snd (sem_up m) = l !! Z.to_nat a.
Proof.
  intros Hc Hq Ha Hl. unfold sem_up. rewrite Hc, signed_small, Hq by lia.
  destruct (Z.leb_spec (a - Z.of_nat (length l) + 1) 0).
  - destruct (lookup_lt_is_Some_2 l (Z.to_nat a)) as [x Hx]; [lia|]. by rewrite (drop_S _ x _ Hx), Hx.
  - cbn. symmetry. apply lookup_ge_None_2. lia.
Qed.

(** A semaphore admits its threads first come, first served: after any calls of [up] and
    [down] on a new semaphore with [n] resources, the count is [n] plus the ups minus the downs,
    and the threads waiting are exactly the callers of [down] after the first [n + ups], in the
    order of their calls; [up] wakes the one that waited longest. *)
Theorem semaphore_fifo n ops : 0 ≤ n < 2 ^ 62 → zlen ops < 2 ^ 62 →
  ∃ m, foldl sem_exec (Done (Semaphore_new n)) ops = Done m ∧
    count m = n + ups ops - zlen (downs ops) ∧
    sem_queue m = drop (Z.to_nat (n + ups ops)) (downs ops) ∧
    snd (sem_up m) = (downs ops) !! Z.to_nat (n + ups ops).
Proof.
  intros Hn. induction ops as [|op ops IH] using rev_ind; intros Hlen.
  - exists (Semaphore_new n). cbn [foldl]. unfold Semaphore_new. rewrite signed_small by lia. cbn [count sem_queue].
    change (ups []) with 0. change (zlen (downs [])) with 0.
    split; [done|]. split; [lia|]. split; [symmetry; apply drop_nil|]. unfold sem_up. cbn [count sem_queue]. by destruct (_ <=? 0).
  - unfold zlen in Hlen. rewrite length_app in Hlen. cbn [length] in Hlen.
    destruct IH as (m & Hm & Hc & Hq & _); [unfold zlen; lia|]. pose proof (ups_range ops) as (Hu & Hd & Hud).
    destruct (ups_snoc ops op) as [Eu Ed]. rewrite foldl_app. cbn [foldl]. rewrite Hm, Eu, Ed. unfold sem_exec.
    rewrite outcome_bind_Done. unfold zlen in *. set (k := Z.to_nat (n + ups ops)) in *.
    assert (∃ m', (match op with Up => mret (fst (sem_up m)) | Down t => '(m, _) ← sem_down m (Some t); mret m end) = Done m' ∧
      count m' = n + (ups ops + match op with Up => 1 | Down _ => 0 end) -
        Z.of_nat (length (downs ops ++ match op with Up => [] | Down t => [t] end)) ∧
      sem_queue m' = drop (Z.to_nat (n + (ups ops + match op with Up => 1 | Down _ => 0 end)))
        (downs ops ++ match op with Up => [] | Down t => [t] end)) as (m' & Hm' & Hc' & Hq').
    { destruct op as [|t].
      - eexists. split; [done|]. rewrite app_nil_r. replace (Z.to_nat (n + (ups ops + 1))) with (S k) by lia.
        unfold sem_up. rewrite Hc, signed_small by lia. rewrite Hq.
        destruct (Z.leb_spec (n + ups ops - Z.of_nat (length (downs ops)) + 1) 0) as [Hle|Hgt].
        + destruct (lookup_lt_is_Some_2 (downs ops) k) as [x Hx]; [lia|]. rewrite (drop_S _ x k Hx). cbn. split; [lia|done].
        + rewrite !drop_ge by lia. cbn. split; [lia|done].
      - unfold sem_down. rewrite Hc, signed_small by lia. rewrite Z.add_0_r. fold k. rewrite length_app. cbn [length unwrap].
        destruct (Z.ltb_spec (n + ups ops - Z.of_nat (length (downs ops)) - 1) 0) as [Hlt|Hge].
        + eexists. split; [done|]. cbn [count sem_queue]. split; [lia|]. rewrite Hq, drop_app_le; [done|lia].
        + eexists. split; [done|]. cbn [count sem_queue]. split; [lia|]. rewrite Hq. rewrite !drop_ge; [done|rewrite length_app; cbn; lia|lia]. }
    exists m'. split; [done|]. split; [lia|]. split; [done|].
    apply sem_up_head; [done|done|destruct op; lia|]. rewrite length_app. destruct op; cbn [length]; lia.
Qed.

Lemma semaphore_fifo_witness :
  ∃ m, foldl sem_exec (Done (Semaphore_new 1)) [Down 5; Down 6; Down 7; Up] = Done m ∧ sem_queue m = [7%nat] ∧
    snd (sem_up m) = Some 7%nat.
Proof.
  destruct (semaphore_fifo 1 [Down 5; Down 6; Down 7; Up]) as (m & Hm & _ & Hq & Hs); [lia|by vm_compute|].
  exists m. split; [exact Hm|]. split; [exact Hq|exact Hs].
Defined.
