(* ===== verification/UserThreads.v ===== *)
(** * UserThreads.v: programs whose threads use the kernel's objects
    (the calls of [user/src/lib.rs] on mutexes, semaphores and condition variables)

    A program gives, for a thread's local state and the memory of its process, the thread's next
    action: an instruction or a system call.  The threads run on the scheduler and the objects of
    Sync.v, and the timer may preempt a thread between any two of its actions.  A program that
    keeps a discipline (it unlocks what it locked; its local state says how often it went up and
    down each semaphore) is safe: [uinv] holds in all states it reaches. *)

From S2P Require Import Prelude Sched Sync.

(** ** Sums over a map *)

Definition msum {A} (f : nat → A → Z) (m : gmap nat A) : Z := map_fold (λ t a acc, f t a + acc) 0 m.

Section msum.
Context {A : Type}.
Implicit Types (f g : nat → A → Z) (m : gmap nat A).

Lemma msum_delete f m t a : m !! t = Some a → msum f m = f t a + msum f (delete t m).
Proof.
  intros H. unfold msum. rewrite (map_fold_delete_L _ _ t a m); [done|intros; lia|done].
Qed.

Lemma msum_new f m t a : m !! t = None → msum f (<[t := a]> m) = f t a + msum f m.
Proof. intros H. rewrite (msum_delete f _ t a) by apply lookup_insert_eq. by rewrite delete_insert_id. Qed.

Lemma msum_insert f m t a b : m !! t = Some a → msum f (<[t := b]> m) = msum f m - f t a + f t b.
Proof.
  intros H. rewrite (msum_delete f (<[t := b]> m) t b) by apply lookup_insert_eq. rewrite delete_insert_eq.
  rewrite (msum_delete f m t a H). lia.
Qed.

Lemma msum_le f g m : (∀ t a, m !! t = Some a → f t a ≤ g t a) → msum f m ≤ msum g m.
Proof.
  induction m as [|t a m Ht IH] using map_ind; intros H; [done|]. rewrite !msum_new by done.
  pose proof (H t a (lookup_insert_eq _ _ _)). assert (msum f m ≤ msum g m); [|lia]. apply IH.
  intros u b Hu. apply H. rewrite lookup_insert_ne by congruence. done.
Qed.

Lemma msum_ext f g m : (∀ t a, m !! t = Some a → f t a = g t a) → msum f m = msum g m.
Proof. intros H. apply Z.le_antisymm; apply msum_le; intros t a Ha; by rewrite (H t a Ha). Qed.

Lemma msum_add f g m : msum (λ t a, f t a + g t a) m = msum f m + msum g m.
Proof. induction m as [|t a m Ht IH] using map_ind; [done|]. rewrite !msum_new by done. lia. Qed.

Lemma msum_sub f g m : msum (λ t a, f t a - g t a) m = msum f m - msum g m.
Proof. induction m as [|t a m Ht IH] using map_ind; [done|]. rewrite !msum_new by done. lia. Qed.

Lemma msum_const c m : msum (λ _ _, c) m = c * Z.of_nat (size m).
Proof.
  induction m as [|t a m Ht IH] using map_ind; [rewrite map_size_empty; unfold msum; rewrite map_fold_empty; lia|].
  rewrite msum_new, map_size_insert_None by done. lia.
Qed.

Lemma msum_bound f m b : (∀ t a, m !! t = Some a → - b ≤ f t a ≤ b) → - (b * Z.of_nat (size m)) ≤ msum f m ≤ b * Z.of_nat (size m).
Proof.
  intros H. rewrite <- msum_const. replace (- msum (λ _ _, b) m) with (msum (λ _ _, - b) m) by (rewrite !msum_const; lia).
  split; apply msum_le; intros t a Ha; specialize (H t a Ha); lia.
Qed.

(** The number of threads in a list. *)
Definition among (q : list nat) (t : nat) : Z := if bool_decide (t ∈ q) then 1 else 0.

Lemma msum_among q m : NoDup q → (∀ t, t ∈ q → is_Some (m !! t)) → msum (λ t _, among q t) m = zlen q.
Proof.
  revert q. induction m as [|t a m Ht IH] using map_ind; intros q Hnd Hq.
  - destruct q as [|t q]; [done|]. destruct (Hq t) as [? H]; [by left|done].
  - rewrite msum_new by done. unfold among at 1. case_bool_decide as Hin.
    + destruct (list_elem_of_split _ _ Hin) as (q1 & q2 & ->). rewrite <- Permutation_middle in Hnd. apply NoDup_cons in Hnd as [Hn Hnd].
      rewrite (msum_ext _ (λ u _, among (q1 ++ q2) u)).
      * rewrite (IH (q1 ++ q2) Hnd); [unfold zlen; rewrite !length_app; cbn; lia|].
        intros u Hu. assert (u ≠ t) by congruence. destruct (Hq u) as [b Hb]; [set_solver|].
        rewrite lookup_insert_ne in Hb by done. by eexists.
      * intros u b Hb. assert (u ≠ t) by congruence. unfold among. rewrite (bool_decide_ext (u ∈ q1 ++ t :: q2) (u ∈ q1 ++ q2)); [done|set_solver].
    + rewrite (IH q Hnd); [lia|]. intros u Hu. assert (u ≠ t) by congruence. destruct (Hq u Hu) as [b Hb].
      rewrite lookup_insert_ne in Hb by done. by eexists.
Qed.

Lemma msum_neg f m : msum f m < 0 → ∃ t a, m !! t = Some a ∧ f t a < 0.
Proof.
  intros H. destruct (decide (map_Exists (λ t a, f t a < 0) m)) as [(t & a & Ha & Hl)|Hn]; [by exists t, a|exfalso].
  assert (msum (λ _ _, 0) m ≤ msum f m); [|rewrite msum_const in *; lia].
  apply msum_le. intros t a Ha. destruct (decide (f t a < 0)); [|lia]. destruct Hn. by exists t, a.
Qed.

End msum.

Lemma msum_fmap {A B} (f : nat → B → Z) (g : A → B) (m : gmap nat A) : msum f (g <$> m) = msum (λ t a, f t (g a)) m.
Proof.
  induction m as [|t a m Ht IH] using map_ind; [by rewrite fmap_empty|]. rewrite fmap_insert, !msum_new; [by rewrite IH|done|].
  by rewrite lookup_fmap, Ht.
Qed.

(** ** What a call leaves alone *)

(** A list of objects without an empty slot. *)
Definition present {X} (l : list (option X)) (n : nat) : Prop := length l = n ∧ Forall is_Some l.

Lemma present_get {X} (l : list (option X)) n i : present l n → (i < n)%nat → ∃ x, l !! i = Some (Some x).
Proof.
  intros [<- Hl] Hi. destruct (lookup_lt_is_Some_2 l i Hi) as [o Ho]. rewrite Forall_lookup in Hl.
  destruct (Hl i o Ho) as [x ->]. by exists x.
Qed.

Lemma present_set {X} (l : list (option X)) n i x : present l n → present (<[i := Some x]> l) n.
Proof. intros [Hn Hl]. split; [by rewrite length_insert|]. apply Forall_insert; [done|by eexists]. Qed.

(** The mutexes and condition variables stay where they are, and no task ends. *)
Record wframe (w w' : World) : Prop := {
  wf_mutex : ∀ n, present (mutex_list w) n → present (mutex_list w') n;
  wf_cond : ∀ n, present (condvar_list w) n → present (condvar_list w') n;
  wf_dom : dom (task_status (sched w')) = dom (task_status (sched w));
}.

Lemma dom_set_status s t st : t ∈ dom (task_status s) → dom (task_status (set_status s t st)) = dom (task_status s).
Proof. intros H. cbn. rewrite dom_insert_L. set_solver. Qed.

Lemma dom_waiting w t : world_inv w → t ∈ waiting w → t ∈ dom (task_status (sched w)).
Proof. intros I H. apply (sc_dom _ _ I). set_solver. Qed.

Lemma dom_current w t : world_inv w → current (sched w) = Some t → t ∈ dom (task_status (sched w)).
Proof. intros I H. apply (sc_dom _ _ I). unfold cur_list. rewrite H. cbn. set_solver. Qed.

Lemma suspend_dom s s' t : t ∈ dom (task_status s) → current s = Some t → suspend_current s = Done s' →
  dom (task_status s') = dom (task_status s).
Proof. intros Ht Hc. unfold suspend_current. cbn. rewrite Hc. intros [= <-]. by apply (dom_set_status s t). Qed.

Lemma block_dom s s' t : t ∈ dom (task_status s) → current s = Some t → block_current_task s = Done s' →
  dom (task_status s') = dom (task_status s).
Proof. intros Ht Hc. unfold block_current_task. cbn. rewrite Hc. intros [= <-]. by apply (dom_set_status s t). Qed.

Lemma cond_waiting w c q x : condvar_list w !! c = Some (Some q) → x ∈ q → x ∈ waiting w.
Proof. intros Hc Hx. destruct (waiting_cond w c q Hc) as (r & E & _). rewrite E. set_solver. Qed.

Lemma sem_waiting w i m x : semaphore_list w !! i = Some (Some m) → x ∈ sem_queue m → x ∈ waiting w.
Proof. intros Hc Hx. destruct (waiting_sem w i m Hc) as (r & E & _). rewrite E. set_solver. Qed.

Lemma mutex_waiting w i o x : mutex_list w !! i = Some (Some o) → x ∈ mutex_queue (Some o) → x ∈ waiting w.
Proof. intros Hc Hx. destruct (waiting_mutex w i o Hc) as (r & E & _). rewrite E. set_solver. Qed.

Lemma mutex_lock_frame w i t w' k : world_inv w → current (sched w) = Some t → mutex_lock w i = Done (w', k) →
  wframe w w' ∧ semaphore_list w' = semaphore_list w ∧ condvar_list w' = condvar_list w ∧
  match k with None => True | Some k => k = CLock i ∨ k = CLocked i end.
Proof.
  intros I Hc. pose proof (dom_current w t I Hc) as Hd. unfold mutex_lock.
  destruct (get_obj (mutex_list w) i) as [m|] eqn:Hi; [|done]. rewrite outcome_bind_Done.
  destruct m as [[]|[] q].
  - destruct (suspend_current (sched w)) as [s|] eqn:Hs; [|done]. intros [= <- <-]. pose proof (suspend_dom _ _ _ Hd Hc Hs).
    split; [by split|auto].
  - intros [= <- <-]. split; [|done]. split; [intros; by apply present_set|done|done].
  - unfold current_task. rewrite Hc. cbn [unwrap]. rewrite outcome_bind_Done.
    destruct (block_current_task (sched w)) as [s|] eqn:Hs; [|done]. intros [= <- <-]. pose proof (block_dom _ _ _ Hd Hc Hs).
    split; [|auto]. split; [intros; by apply present_set|done|done].
  - intros [= <- <-]. split; [|done]. split; [intros; by apply present_set|done|done].
Qed.

Lemma mutex_unlock_frame w i w' : world_inv w → mutex_unlock w i = Done w' →
  wframe w w' ∧ semaphore_list w' = semaphore_list w ∧ condvar_list w' = condvar_list w ∧ current (sched w') = current (sched w).
Proof.
  intros I. unfold mutex_unlock. destruct (get_obj (mutex_list w) i) as [m|] eqn:Hi; [|done]. apply get_obj_Done in Hi.
  rewrite outcome_bind_Done. destruct m as [b|[] [|x q]]; cbn [assert_that]; try done; rewrite ?outcome_bind_Done; intros [= <-]; (split; [|done]);
    split; cbn [mutex_list condvar_list set_mutex set_sched sched]; try done; try (intros; by apply present_set).
  apply (dom_set_status (sched w) x). apply dom_waiting; [done|]. eapply mutex_waiting; [done|by left].
Qed.

Lemma condvar_signal_frame w i w' : world_inv w → condvar_signal w i = Done w' →
  wframe w w' ∧ semaphore_list w' = semaphore_list w ∧
  ∃ q, condvar_list w !! i = Some (Some q) ∧ condvar_list w' = match q with [] => condvar_list w | _ :: q => <[i := Some q]> (condvar_list w) end.
Proof.
  intros I. unfold condvar_signal. destruct (get_obj (condvar_list w) i) as [q|] eqn:Hi; [|done]. apply get_obj_Done in Hi.
  rewrite outcome_bind_Done. destruct q as [|x q]; intros [= <-]; (split; [|split; [done|by eexists]]); split; try done.
  - intros. by apply present_set.
  - apply (dom_set_status (sched w) x). apply dom_waiting; [done|]. eapply cond_waiting; [done|by left].
Qed.

Lemma wake_all_dom q : ∀ s, (∀ x, x ∈ q → x ∈ dom (task_status s)) →
  dom (task_status (foldl wakeup_task s q)) = dom (task_status s).
Proof.
  induction q as [|x q IH]; intros s Hq; [done|]. cbn [foldl].
  assert (E : dom (task_status (wakeup_task s x)) = dom (task_status s)) by (apply (dom_set_status s x), Hq; by left).
  rewrite IH; [done|]. intros y Hy. rewrite E. apply Hq. by right.
Qed.

Lemma condvar_signal_all_frame w i w' : world_inv w → condvar_signal_all w i = Done w' →
  wframe w w' ∧ semaphore_list w' = semaphore_list w ∧ condvar_list w' = <[i := Some []]> (condvar_list w).
Proof.
  intros I. unfold condvar_signal_all. destruct (get_obj (condvar_list w) i) as [q|] eqn:Hi; [|done]. apply get_obj_Done in Hi.
  rewrite outcome_bind_Done. intros [= <-]. split; [|done]. split; [done|intros; by apply present_set|].
  apply (wake_all_dom q (sched w)). intros x Hx. apply dom_waiting; [done|]. by eapply cond_waiting.
Qed.

Lemma condvar_wait_frame w c i t w' k : world_inv w → current (sched w) = Some t → condvar_wait w c i = Done (w', k) →
  wframe w w' ∧ semaphore_list w' = semaphore_list w ∧ k = Some (CLock i) ∧
  ∃ q, condvar_list w !! c = Some (Some q) ∧ condvar_list w' = <[c := Some (q ++ [t])]> (condvar_list w).
Proof.
  intros I Hc. pose proof (dom_current w t I Hc) as Hd. unfold condvar_wait.
  destruct (get_obj (condvar_list w) c) as [q|] eqn:Hi; [|done]. apply get_obj_Done in Hi. rewrite outcome_bind_Done.
  destruct (mutex_unlock w i) as [w1|] eqn:Hu; [|done]. destruct (mutex_unlock_frame w i w1 I Hu) as ([Hm _ Ed] & Es & Ec & Ecur).
  rewrite outcome_bind_Done, Ec, (proj2 (get_obj_Done _ _ _) Hi), outcome_bind_Done. unfold current_task. rewrite Ecur, Hc.
  cbn [unwrap]. rewrite outcome_bind_Done. cbn [sched set_cond].
  destruct (block_current_task (sched w1)) as [s|] eqn:Hs; [|done]. intros [= <- <-].
  rewrite <- Ecur in Hc. rewrite <- Ed in Hd. pose proof (block_dom _ _ _ Hd Hc Hs) as Eb.
  split; [|split; [done|split; [done|exists q; split; [done|cbn; by rewrite Ec]]]].
  split; [done|intros n; cbn; rewrite Ec; apply present_set|by rewrite <- Ed].
Qed.

Lemma semaphore_up_frame w i w' : world_inv w → semaphore_up w i = Done w' →
  wframe w w' ∧ condvar_list w' = condvar_list w ∧
  ∃ m, semaphore_list w !! i = Some (Some m) ∧ semaphore_list w' = <[i := Some (fst (sem_up m))]> (semaphore_list w).
Proof.
  intros I. unfold semaphore_up. destruct (get_obj (semaphore_list w) i) as [m|] eqn:Hi; [|done]. apply get_obj_Done in Hi.
  rewrite outcome_bind_Done. destruct (sem_up m) as [m' o] eqn:E. intros [= <-]. split; [|split; [by destruct o|]].
  - split; [by destruct o|by destruct o|]. destruct o as [x|]; [|done]. apply (dom_set_status (sched w) x). apply dom_waiting; [done|].
    eapply sem_waiting; [done|]. unfold sem_up in E. destruct (_ <=? 0); [|done]. destruct (sem_queue m); [done|]. injection E as _ ->. by left.
  - exists m. rewrite E. split; [done|by destruct o].
Qed.

Lemma semaphore_down_frame w i t w' k : world_inv w → current (sched w) = Some t → semaphore_down w i = Done (w', k) →
  wframe w w' ∧ condvar_list w' = condvar_list w ∧
  ∃ m, semaphore_list w !! i = Some (Some m) ∧ let c := i64 (count m - 1) in
    if c <? 0 then semaphore_list w' = <[i := Some (mkSem c (sem_queue m ++ [t]))]> (semaphore_list w) ∧ k = Some CReturn
    else semaphore_list w' = <[i := Some (mkSem c (sem_queue m))]> (semaphore_list w) ∧ k = None.
Proof.
  intros I Hc. pose proof (dom_current w t I Hc) as Hd. unfold semaphore_down.
  destruct (get_obj (semaphore_list w) i) as [m|] eqn:Hi; [|done]. apply get_obj_Done in Hi. rewrite outcome_bind_Done.
  unfold sem_down, current_task. rewrite Hc. destruct (i64 (count m - 1) <? 0) eqn:El; cbn [unwrap]; rewrite ?outcome_bind_Done;
    cbn [sched set_sem mret outcome_ret]; rewrite ?outcome_bind_Done.
  - destruct (block_current_task (sched w)) as [s|] eqn:Hs; [|done]. intros [= <- <-].
    pose proof (block_dom _ _ _ Hd Hc Hs). split; [by split|]. split; [done|]. exists m. by rewrite El.
  - intros [= <- <-]. split; [by split|]. split; [done|]. exists m. by rewrite El.
Qed.

(** ** Programs *)

Section threads.
Context {M L : Type}.

Inductive action : Type :=
| AUser (m : M) (l : L)                (** an instruction *)
| ALock (i : nat) (l : L) | AUnlock (i : nat) (l : L)
| AUp (i : nat) (l : L) | ADown (i : nat) (l : L)
| ASignal (c : nat) (l : L) | ASignalAll (c : nat) (l : L) | AWait (c i : nat) (l : L)
| AYield (l : L)
| AExit (code : Z)
| APanic (p : panic).

Definition mem_after (a : action) (m : M) : M := match a with AUser m _ => m | _ => m end.
Definition loc_after (a : action) (l : L) : L :=
  match a with
  | AUser _ l | ALock _ l | AUnlock _ l | AUp _ l | ADown _ l | ASignal _ l | ASignalAll _ l | AWait _ _ l | AYield l => l
  | AExit _ | APanic _ => l
  end.

(** The kernel's part of an action of the current thread [t]. *)
Definition kcall (x : Sys) (t : nat) (a : action) : outcome Sys :=
  let 'mkSys w c ins := x in
  match a with
  | AUser _ _ => mret x
  | ALock i _ => '(w, k) ← mutex_lock w i; mret (mkSys w (set_cont c t k) (entered k t i ins))
  | AUnlock i _ => w ← mutex_unlock w i; mret (mkSys w c (ins ∖ {[(t, i)]}))
  | AUp i _ => w ← semaphore_up w i; mret (mkSys w c ins)
  | ADown i _ => '(w, k) ← semaphore_down w i; mret (mkSys w (set_cont c t k) ins)
  | ASignal i _ => w ← condvar_signal w i; mret (mkSys w c ins)
  | ASignalAll i _ => w ← condvar_signal_all w i; mret (mkSys w c ins)
  | AWait cv i _ => '(w, k) ← condvar_wait w cv i; mret (mkSys w (set_cont c t k) (ins ∖ {[(t, i)]}))
  | AYield _ => s ← suspend_current (sched w); mret (mkSys (set_sched w s) c ins)
  | AExit _ => s ← exit_current_task (sched w); mret (mkSys (set_sched w s) c ins)
  | APanic p => Panicked p
  end.

(** [u_loc]: the threads' local states, of the ended ones the last; [u_exit]: their exit codes. *)
Record UState : Type := mkU {
  u_sys : Sys;
  u_mem : M;
  u_loc : gmap nat L;
  u_exit : gmap nat Z;
}.

Context (next : M → L → action).

Definition exit_after (a : action) (t : nat) (e : gmap nat Z) : gmap nat Z :=
  match a with AExit code => <[t := code]> e | _ => e end.

Definition user_go (x : UState) (t : nat) (l : L) : outcome UState :=
  let a := next (u_mem x) l in
  s ← kcall (u_sys x) t a;
  mret (mkU s (mem_after a (u_mem x)) (<[t := loc_after a l]> (u_loc x)) (exit_after a t (u_exit x))).

(** The current thread goes on, or is preempted, or the idle control flow takes the next one. *)
Inductive event : Type := Go | Preempt | Switch.

#[export] Instance event_eq_dec : EqDecision event.
Proof. solve_decision. Defined.

(** [None]: the event cannot happen.  A thread that is inside [lock] calls it again at once; a task
    that is not a thread of the program only gets preempted. *)
Definition uexec (e : event) (x : UState) : option (outcome UState) :=
  let 'mkU (mkSys w c ins) m ls ex := x in
  match e, current (sched w) with
  | Go, Some t =>
      match c !! t, ls !! t with
      | None, Some l => Some (user_go x t l)
      | Some (CLock i), _ =>
          Some ('(w, k) ← mutex_lock w i; mret (mkU (mkSys w (set_cont c t k) (entered k t i ins)) m ls ex))
      | _, _ => None
      end
  | Preempt, Some t =>
      match c !! t with
      | None => Some (s ← suspend_current (sched w); mret (mkU (mkSys (set_sched w s) c ins) m ls ex))
      | Some _ => None
      end
  | Switch, None =>
      let s := run_tasks_round (sched w) in
      match current s with
      | Some t => Some (mret (mkU (mkSys (set_sched w s) (fst (resumed c ins t)) (snd (resumed c ins t))) m ls ex))
      | None => None
      end
  | _, _ => None
  end.

Definition ustep (x y : UState) : Prop := ∃ e, uexec e x = Some (Done y).
Definition ureach : UState → UState → Prop := rtc ustep.

(** The state after the events; [None] when one cannot happen or the kernel or the program panics. *)
Fixpoint urun (es : list event) (x : UState) : option UState :=
  match es with
  | [] => Some x
  | e :: es => match uexec e x with Some (Done y) => urun es y | _ => None end
  end.

Lemma urun_reach es x y : urun es x = Some y → ureach x y.
Proof.
  revert x. induction es as [|e es IH]; intros x; cbn [urun]; [intros [= ->]; apply rtc_refl|].
  destruct (uexec e x) as [[z|]|] eqn:E; [|done..]. intros H. eapply rtc_l; [by exists e|by apply IH].
Qed.

Lemma reach_run x y : ureach x y → ∃ es, urun es x = Some y.
Proof. induction 1 as [x|x y z [e E] _ [es IH]]; [by exists []|]. exists (e :: es). cbn [urun]. by rewrite E. Qed.

(** *** The events, one by one *)

Lemma kcall_cont s t a s' : kcall s t a = Done s' → ∀ u, u ≠ t → sy_cont s' !! u = sy_cont s !! u.
Proof.
  destruct s as [w c ins]. intros E u Hu. assert (Hk : ∀ k, set_cont c t k !! u = c !! u).
  { intros []; cbn; [by rewrite lookup_insert_ne|by rewrite lookup_delete_ne]. }
  destruct a; cbn [kcall] in E; try (by injection E as <-); try done;
    match type of E with (?m ≫= _) = _ => destruct m as [r|]; [|done] end; try destruct r as [? ?]; rewrite outcome_bind_Done in E;
    injection E as <-; cbn [sy_cont]; auto.
Qed.

Lemma kcall_exit s t code s' : kcall s t (AExit code) = Done s' → sy_cont s' = sy_cont s.
Proof. destruct s as [w c ins]. cbn [kcall]. destruct (exit_current_task (sched w)); [|done]. by intros [= <-]. Qed.

Lemma mutex_lock_condvars w i w' k : mutex_lock w i = Done (w', k) → condvar_list w' = condvar_list w.
Proof.
  unfold mutex_lock. destruct (get_obj (mutex_list w) i) as [m|]; [|done]. rewrite outcome_bind_Done. destruct m as [[]|[] q].
  - destruct (suspend_current (sched w)); [|done]. by intros [= <- _].
  - by intros [= <- _].
  - destruct (unwrap PUnwrap (current_task (sched w))); [|done]. rewrite outcome_bind_Done.
    destruct (block_current_task (sched w)); [|done]. by intros [= <- _].
  - by intros [= <- _].
Qed.

(** The condition variables after a call. *)
Lemma kcall_condvars s t a s' : world_inv (sy_world s) → current (sched (sy_world s)) = Some t → kcall s t a = Done s' →
  let l := condvar_list (sy_world s) in
  match a with
  | ASignalAll c _ => condvar_list (sy_world s') = <[c := Some []]> l
  | ASignal c _ => ∃ q, l !! c = Some (Some q) ∧ condvar_list (sy_world s') = match q with [] => l | _ :: q => <[c := Some q]> l end
  | AWait c _ _ => ∃ q, l !! c = Some (Some q) ∧ condvar_list (sy_world s') = <[c := Some (q ++ [t])]> l
  | _ => condvar_list (sy_world s') = l
  end.
Proof.
  intros I Hc E. destruct s as [w c ins]. cbn [sy_world] in *.
  destruct a as [m' l'|i l'|i l'|i l'|i l'|cv l'|cv l'|cv i l'|l'|code|p]; cbn [kcall] in E; cbv zeta; try done.
  - by injection E as <-.
  - destruct (mutex_lock w i) as [[w' k]|] eqn:El; [|done]. injection E as <-. by eapply mutex_lock_condvars.
  - destruct (mutex_unlock w i) as [w'|] eqn:El; [|done]. injection E as <-. by apply (mutex_unlock_frame w i w').
  - destruct (semaphore_up w i) as [w'|] eqn:El; [|done]. injection E as <-. by apply (semaphore_up_frame w i w').
  - destruct (semaphore_down w i) as [[w' k]|] eqn:El; [|done]. injection E as <-. by apply (semaphore_down_frame w i t w' k).
  - destruct (condvar_signal w cv) as [w'|] eqn:El; [|done]. injection E as <-. by apply (condvar_signal_frame w cv w').
  - destruct (condvar_signal_all w cv) as [w'|] eqn:El; [|done]. injection E as <-. by apply (condvar_signal_all_frame w cv w').
  - destruct (condvar_wait w cv i) as [[w' k]|] eqn:El; [|done]. injection E as <-. by apply (condvar_wait_frame w cv i t w' k).
  - destruct (suspend_current (sched w)); [|done]. by injection E as <-.
  - destruct (exit_current_task (sched w)); [|done]. by injection E as <-.
Qed.

(** What an event changes besides the kernel's state: the local state of the thread that goes. *)
Lemma uexec_inv e x y : uexec e x = Some (Done y) →
  (∃ t l, current (sched (sy_world (u_sys x))) = Some t ∧ u_loc x !! t = Some l ∧ sy_cont (u_sys x) !! t = None ∧ e = Go ∧
     let a := next (u_mem x) l in
     kcall (u_sys x) t a = Done (u_sys y) ∧ u_mem y = mem_after a (u_mem x) ∧ u_loc y = <[t := loc_after a l]> (u_loc x) ∧
     u_exit y = exit_after a t (u_exit x)) ∨
  (u_mem y = u_mem x ∧ u_loc y = u_loc x ∧ u_exit y = u_exit x ∧
    condvar_list (sy_world (u_sys y)) = condvar_list (sy_world (u_sys x)) ∧
    ((∃ t i, e = Go ∧ current (sched (sy_world (u_sys x))) = Some t ∧ sy_cont (u_sys x) !! t = Some (CLock i) ∧
       ∀ u, u ≠ t → sy_cont (u_sys y) !! u = sy_cont (u_sys x) !! u) ∨
     (e ≠ Go ∧ ∀ u, sy_cont (u_sys y) !! u = sy_cont (u_sys x) !! u ∨ sy_cont (u_sys y) !! u = None))).
Proof.
  destruct x as [[w c ins] m ls ex]. cbn [uexec u_sys u_mem u_loc u_exit sy_world sy_cont]. intros E.
  destruct e, (current (sched w)) as [t|] eqn:Hc; try done.
  - destruct (c !! t) as [[|i|i]|] eqn:Hk; try done.
    + right. destruct (mutex_lock w i) as [[w' k]|] eqn:Em; [|done]. injection E as <-. cbn. do 3 (split; [done|]).
      split; [by eapply mutex_lock_condvars|]. left. exists t, i.
      do 3 (split; [done|]). intros u Hu. destruct k; cbn; [by rewrite lookup_insert_ne|by rewrite lookup_delete_ne].
    + destruct (ls !! t) as [l|] eqn:Hl; [|done]. left. exists t, l. injection E as E. unfold user_go in E. cbn [u_sys u_mem u_loc u_exit] in E.
      destruct (kcall _ _ _) as [s'|] eqn:Ek; [|done]. injection E as <-. done.
  - right. destruct (c !! t); [done|]. destruct (suspend_current (sched w)); [|done]. injection E as <-. cbn. do 4 (split; [done|]). right. auto.
  - right. destruct (current (run_tasks_round (sched w))) as [t|]; [|done]. injection E as <-. cbn. do 4 (split; [done|]). right. split; [done|].
    intros u. unfold resumed. destruct (c !! t) as [[]|] eqn:Hk; cbn; auto; (destruct (decide (u = t)) as [->|];
      [rewrite lookup_delete_eq; auto|rewrite lookup_delete_ne by done; auto]).
Qed.

(** ** The discipline

    A local state says whether the thread may be in it ([ok]), which mutexes the thread holds,
    how often it went up minus how often it went down each semaphore, and the semaphore its last
    call went down.  [mutexes], [res] and [condvars] are the objects of the process: the semaphores
    with their first counts. *)

Class Discipline : Type := {
  ok : L → Prop;
  holding : L → gset nat;
  net : nat → L → Z;
  asleep : L → option nat;
  mutexes : nat;
  res : list Z;
  condvars : nat;
  net_max : Z;
}.

Context `{D : Discipline}.

Definition keeps (l l' : L) : Prop := holding l' = holding l ∧ ∀ i, net i l' = net i l.

Definition action_ok (l : L) (a : action) : Prop :=
  match a with
  | AUser _ l' | AYield l' => ok l' ∧ keeps l l'
  | ALock i l' => ok l' ∧ (i < mutexes)%nat ∧ i ∉ holding l ∧ holding l' = {[i]} ∪ holding l ∧ ∀ j, net j l' = net j l
  | AUnlock i l' => ok l' ∧ (i < mutexes)%nat ∧ i ∈ holding l ∧ holding l' = holding l ∖ {[i]} ∧ ∀ j, net j l' = net j l
  | AUp i l' => ok l' ∧ (i < length res)%nat ∧ holding l' = holding l ∧
      ∀ j, net j l' = net j l + (if decide (j = i) then 1 else 0)
  | ADown i l' => ok l' ∧ (i < length res)%nat ∧ holding l' = holding l ∧ asleep l' = Some i ∧
      ∀ j, net j l' = net j l - (if decide (j = i) then 1 else 0)
  | ASignal c l' | ASignalAll c l' => ok l' ∧ (c < condvars)%nat ∧ keeps l l'
  | AWait c i l' => ok l' ∧ (c < condvars)%nat ∧ (i < mutexes)%nat ∧ i ∈ holding l ∧ keeps l l'
  | AExit _ | APanic _ => True
  end.

Class Disciplined : Prop := {
  disc_next m l : ok l → action_ok l (next m l);
  disc_net i l : ok l → - net_max ≤ net i l ≤ net_max;
  disc_holding i l : ok l → i ∈ holding l → (i < mutexes)%nat;
}.

(** ** The invariant *)

Definition thread_ok (c : gmap nat cont) (ins : gset (nat * nat)) (t : nat) (l : L) : Prop :=
  (∀ i, (t, i) ∈ ins ↔ i ∈ holding l ∧ c !! t ≠ Some (CLock i) ∧ c !! t ≠ Some (CLocked i)) ∧
  ∀ i, c !! t = Some (CLock i) ∨ c !! t = Some (CLocked i) → i ∈ holding l.

Definition sem_ok (c : gmap nat cont) (ls : gmap nat L) (i : nat) (r : Z) (m : Semaphore) : Prop :=
  count m = r + msum (λ _, net i) ls ∧ zlen (sem_queue m) = Z.max 0 (- count m) ∧
  ∀ t, t ∈ sem_queue m → c !! t = Some CReturn ∧ ∃ l, ls !! t = Some l ∧ asleep l = Some i.

Record uinv (n : nat) (x : UState) : Prop := {
  ui_sys : sys_inv (u_sys x);
  ui_size : size (u_loc x) = n;
  ui_thread : ∀ t l, u_loc x !! t = Some l → ok l ∧ thread_ok (sy_cont (u_sys x)) (sy_in (u_sys x)) t l;
  ui_only : ∀ t, u_loc x !! t = None → sy_cont (u_sys x) !! t = None ∧ ∀ i, (t, i) ∉ sy_in (u_sys x);
  ui_mutex : present (mutex_list (sy_world (u_sys x))) mutexes;
  ui_sems : present (semaphore_list (sy_world (u_sys x))) (length res);
  ui_sem : ∀ i m r, semaphore_list (sy_world (u_sys x)) !! i = Some (Some m) → res !! i = Some r →
    sem_ok (sy_cont (u_sys x)) (u_loc x) i r m;
  ui_conds : present (condvar_list (sy_world (u_sys x))) condvars;
  ui_cond : ∀ j q t, condvar_list (sy_world (u_sys x)) !! j = Some (Some q) → t ∈ q →
    ∃ i, sy_cont (u_sys x) !! t = Some (CLock i);
  ui_exit : ∀ t l, u_loc x !! t = Some l →
    (t ∈ dom (task_status (sched (sy_world (u_sys x)))) ↔ u_exit x !! t = None) ∧
    ∀ code, u_exit x !! t = Some code → ∃ m, next m l = AExit code;
}.

(** Enough room in the counters. *)
Definition fits (n : nat) : Prop := ∀ i r, res !! i = Some r → 0 ≤ r ∧ r + net_max * Z.of_nat n < 2 ^ 62.

Lemma sem_ok_other c c' ls t l l' i r m : ls !! t = Some l → t ∉ sem_queue m → (∀ u, u ≠ t → c' !! u = c !! u) →
  net i l' = net i l → sem_ok c ls i r m → sem_ok c' (<[t := l']> ls) i r m.
Proof.
  intros Hl Ht Hc Hn (H1 & H2 & H3). split; [|split; [done|]].
  - rewrite (msum_insert _ _ _ _ _ Hl). lia.
  - intros u Hu. assert (u ≠ t) by congruence. rewrite Hc by done. rewrite lookup_insert_ne by done. by apply H3.
Qed.

Lemma sem_ok_up c ls t l l' i r m : ls !! t = Some l → t ∉ sem_queue m → net i l' = net i l + 1 →
  - 2 ^ 62 < count m < 2 ^ 62 → sem_ok c ls i r m → sem_ok c (<[t := l']> ls) i r (fst (sem_up m)).
Proof.
  intros Hl Ht Hn Hb (H1 & H2 & H3). unfold sem_up. rewrite signed_small by lia. unfold zlen in *.
  assert (H3' : ∀ u, u ∈ sem_queue m → c !! u = Some CReturn ∧ ∃ k, <[t:=l']> ls !! u = Some k ∧ asleep k = Some i).
  { intros u Hu. assert (u ≠ t) by congruence. rewrite lookup_insert_ne by done. by apply H3. }
  destruct (Z.leb_spec (count m + 1) 0) as [Hle|Hgt]; [destruct (sem_queue m) as [|y q] eqn:Eq|]; cbn [fst];
    unfold sem_ok; cbn [count sem_queue]; rewrite (msum_insert _ _ _ _ _ Hl); cbn [length] in *; unfold zlen; cbn [length].
  - split; [lia|]. split; [lia|done].
  - split; [lia|]. split; [lia|]. intros u Hu. apply H3'. by right.
  - split; [lia|]. split; [lia|done].
Qed.

Lemma sem_ok_down c ls t l l' i r m : ls !! t = Some l → t ∉ sem_queue m → net i l' = net i l - 1 → asleep l' = Some i →
  c !! t = None → - 2 ^ 62 < count m < 2 ^ 62 → sem_ok c ls i r m →
  let k := i64 (count m - 1) in
  if k <? 0 then sem_ok (<[t := CReturn]> c) (<[t := l']> ls) i r (mkSem k (sem_queue m ++ [t]))
  else sem_ok (delete t c) (<[t := l']> ls) i r (mkSem k (sem_queue m)).
Proof.
  intros Hl Ht Hn Has Hc Hb (H1 & H2 & H3). cbv zeta. rewrite signed_small by lia. unfold zlen in *.
  destruct (Z.ltb_spec (count m - 1) 0) as [Hlt|Hge]; unfold sem_ok; cbn [count sem_queue]; rewrite (msum_insert _ _ _ _ _ Hl); unfold zlen;
    rewrite ?length_app; cbn [length]; (split; [lia|]); (split; [lia|]); intros u Hu.
  - apply elem_of_app in Hu as [Hu|[= ->]%list_elem_of_singleton].
    + assert (u ≠ t) by congruence. rewrite !lookup_insert_ne by done. by apply H3.
    + rewrite !lookup_insert_eq. split; [done|by eexists].
  - assert (u ≠ t) by congruence. rewrite lookup_delete_ne, lookup_insert_ne by done. by apply H3.
Qed.

(** ** Every event keeps the invariant *)

(** The current thread is in no queue. *)
Lemma current_apart s t : sys_inv s → current (sched (sy_world s)) = Some t →
  (∀ i m, semaphore_list (sy_world s) !! i = Some (Some m) → t ∉ sem_queue m) ∧
  (∀ j q, condvar_list (sy_world s) !! j = Some (Some q) → t ∉ q).
Proof.
  intros S Hc. destruct (proj1 (sched_apart _ _ t (sy_sched _ S)) Hc) as [_ Hw].
  split; intros i q Hq Ht; apply Hw; [by eapply sem_waiting|by eapply cond_waiting].
Qed.

(** An action of the thread [t] that does not end it. *)
Lemma uinv_act n x t l s' m' l' :
  uinv n x → u_loc x !! t = Some l → t ∈ dom (task_status (sched (sy_world (u_sys x)))) →
  sys_inv s' → wframe (sy_world (u_sys x)) (sy_world s') →
  (∀ u, u ≠ t → sy_cont s' !! u = sy_cont (u_sys x) !! u) →
  (∀ u i, u ≠ t → (u, i) ∈ sy_in s' ↔ (u, i) ∈ sy_in (u_sys x)) →
  ok l' → thread_ok (sy_cont s') (sy_in s') t l' →
  present (semaphore_list (sy_world s')) (length res) →
  (∀ i m r, semaphore_list (sy_world s') !! i = Some (Some m) → res !! i = Some r →
    sem_ok (sy_cont s') (<[t := l']> (u_loc x)) i r m) →
  (∀ j q u, condvar_list (sy_world s') !! j = Some (Some q) → u ∈ q → ∃ i, sy_cont s' !! u = Some (CLock i)) →
  uinv n (mkU s' m' (<[t := l']> (u_loc x)) (u_exit x)).
Proof.
  intros U Hl Hc S' F Hcont Hin Hok Hth Hps Hsem Hcond. destruct F as [Fm Fc Fd]. split; cbn [u_sys u_loc u_exit]; try done.
  - rewrite <- (ui_size n x U). by apply map_size_insert_Some_L with l || (rewrite map_size_insert; by rewrite Hl).
  - intros u k Hu. destruct (decide (u = t)) as [->|Hne].
    + rewrite lookup_insert_eq in Hu. by injection Hu as <-.
    + rewrite lookup_insert_ne in Hu by done. destruct (ui_thread n x U u k Hu) as [Hk [H1 H2]]. split; [done|].
      unfold thread_ok. rewrite Hcont by done. split; [intros i; rewrite Hin by done; apply H1|done].
  - intros u Hu. destruct (decide (u = t)) as [->|Hne]; [by rewrite lookup_insert_eq in Hu|].
    rewrite lookup_insert_ne in Hu by done. rewrite Hcont by done. destruct (ui_only n x U u Hu) as [H1 H2].
    split; [done|]. intros i. rewrite Hin by done. apply H2.
  - apply Fm, (ui_mutex n x U).
  - apply Fc, (ui_conds n x U).
  - intros u k Hu. rewrite Fd. destruct (decide (u = t)) as [->|Hne].
    + destruct (ui_exit n x U t l Hl) as [He _]. split; [done|]. intros code Hex.
      by rewrite (proj1 He Hc) in Hex.
    + rewrite lookup_insert_ne in Hu by done. by apply (ui_exit n x U u k).
Qed.

Context (n : nat) (Hfits : fits n) (Hdisc : Disciplined).

Lemma sem_room x i m r : uinv n x → semaphore_list (sy_world (u_sys x)) !! i = Some (Some m) → res !! i = Some r →
  - 2 ^ 62 < count m < 2 ^ 62.
Proof.
  intros U Hm Hr. destruct (ui_sem n x U i m r Hm Hr) as (-> & _). destruct (Hfits i r Hr).
  pose proof (msum_bound (λ _, net i) (u_loc x) net_max) as Hb. rewrite (ui_size n x U) in Hb.
  destruct Hb; [intros t l Hl; by apply disc_net, (ui_thread n x U t l)|lia].
Qed.

Lemma set_cont_ne c t k u : u ≠ t → set_cont c t k !! u = c !! u.
Proof. intros H. destruct k; cbn; [by rewrite lookup_insert_ne|by rewrite lookup_delete_ne]. Qed.

Lemma entered_ne k t i ins u j : u ≠ t → (u, j) ∈ entered k t i ins ↔ (u, j) ∈ ins.
Proof. intros H. destruct k; cbn; set_solver. Qed.

Lemma thread_keep c ins t l l' : thread_ok c ins t l → holding l' = holding l → thread_ok c ins t l'.
Proof. unfold thread_ok. by intros H ->. Qed.

(** What [lock] makes of the thread that holds [h] when it returns. *)
Lemma thread_lock c ins t i k l' : (∀ j, (t, j) ∈ ins ↔ j ∈ holding l' ∧ j ≠ i) → i ∈ holding l' →
  match k with None => True | Some k => k = CLock i ∨ k = CLocked i end →
  thread_ok (set_cont c t k) (entered k t i ins) t l'.
Proof.
  intros Hin Hi Hk. unfold thread_ok. destruct k as [k|]; cbn.
  - rewrite lookup_insert_eq. split.
    + intros j. rewrite Hin. destruct Hk as [-> | ->]; naive_solver.
    + intros j. destruct Hk as [-> | ->]; naive_solver.
  - rewrite lookup_delete_eq. split; [|naive_solver]. intros j. rewrite elem_of_union, elem_of_singleton, Hin.
    destruct (decide (j = i)); naive_solver.
Qed.

Lemma thread_free c ins t l : thread_ok c ins t l → c !! t = None → ∀ j, (t, j) ∈ ins ↔ j ∈ holding l.
Proof. intros [H _] Hc j. rewrite H, Hc. naive_solver. Qed.

(** A call that leaves the semaphores alone. *)
Lemma uinv_quiet x t l s' m' l' :
  uinv n x → u_loc x !! t = Some l → current (sched (sy_world (u_sys x))) = Some t →
  sys_inv s' → wframe (sy_world (u_sys x)) (sy_world s') →
  (∀ u, u ≠ t → sy_cont s' !! u = sy_cont (u_sys x) !! u) →
  (∀ u i, u ≠ t → (u, i) ∈ sy_in s' ↔ (u, i) ∈ sy_in (u_sys x)) →
  ok l' → thread_ok (sy_cont s') (sy_in s') t l' → (∀ i, net i l' = net i l) →
  semaphore_list (sy_world s') = semaphore_list (sy_world (u_sys x)) →
  (∀ j q u, condvar_list (sy_world s') !! j = Some (Some q) → u ∈ q → (u = t ∧ ∃ i, sy_cont s' !! u = Some (CLock i)) ∨
    ∃ q', condvar_list (sy_world (u_sys x)) !! j = Some (Some q') ∧ u ∈ q') →
  uinv n (mkU s' m' (<[t := l']> (u_loc x)) (u_exit x)).
Proof.
  intros U Hl Hc S' F Hcont Hin Hok Hth Hn Es Hcond. destruct (current_apart _ t (ui_sys n x U) Hc) as [Hns Hnc].
  apply (uinv_act n x t l); try done; [apply dom_current; [apply (sy_sched _ (ui_sys n x U))|done]|rewrite Es; apply (ui_sems n x U)| |].
  - intros i m r Hm Hr. rewrite Es in Hm. apply (sem_ok_other (sy_cont (u_sys x)) _ _ t l); auto; [by apply (Hns i)|].
    by apply (ui_sem n x U).
  - intros j q u Hq Hu. destruct (Hcond j q u Hq Hu) as [[-> ?]|(q' & Hq' & Hu')]; [done|].
    rewrite Hcont; [by apply (ui_cond n x U j q')|]. intros ->. by apply (Hnc j q').
Qed.

Lemma uinv_up x t l l' i w' : uinv n x → u_loc x !! t = Some l → current (sched (sy_world (u_sys x))) = Some t →
  sy_cont (u_sys x) !! t = None → action_ok l (AUp i l') → semaphore_up (sy_world (u_sys x)) i = Done w' →
  uinv n (mkU (mkSys w' (sy_cont (u_sys x)) (sy_in (u_sys x))) (u_mem x) (<[t := l']> (u_loc x)) (u_exit x)).
Proof.
  intros U Hl Hc Hk (Hok & Hi & Hh & Hn) E. pose proof (ui_sys n x U) as S. destruct (current_apart _ t S Hc) as [Hns Hnc].
  destruct (semaphore_up_frame _ _ _ (sy_sched _ S) E) as (F & Ec & m & Hm & Es).
  apply (uinv_act n x t l); cbn [sy_world sy_cont sy_in]; try done.
  - apply dom_current; [apply (sy_sched _ S)|done].
  - eapply step_inv; [exact S|]. destruct (u_sys x). by eapply st_up.
  - eapply thread_keep; [by apply (ui_thread n x U t l)|done].
  - rewrite Es. apply present_set, (ui_sems n x U).
  - intros j m' r Hm' Hr. rewrite Es in Hm'. destruct (decide (j = i)) as [->|Hne].
    + rewrite list_lookup_insert_eq in Hm' by (by eapply lookup_lt_Some). injection Hm' as <-.
      apply (sem_ok_up _ _ t l); [done|by eapply Hns|rewrite Hn, decide_True by done; lia| |by apply (ui_sem n x U)].
      by eapply (sem_room x i m r).
    + rewrite list_lookup_insert_ne in Hm' by done.
      apply (sem_ok_other (sy_cont (u_sys x)) _ _ t l); auto; [by eapply Hns|rewrite Hn, decide_False by done; lia|by apply (ui_sem n x U)].
  - rewrite Ec. apply (ui_cond n x U).
Qed.

Lemma uinv_down x t l l' i w' k : uinv n x → u_loc x !! t = Some l → current (sched (sy_world (u_sys x))) = Some t →
  sy_cont (u_sys x) !! t = None → action_ok l (ADown i l') → semaphore_down (sy_world (u_sys x)) i = Done (w', k) →
  uinv n (mkU (mkSys w' (set_cont (sy_cont (u_sys x)) t k) (sy_in (u_sys x))) (u_mem x) (<[t := l']> (u_loc x)) (u_exit x)).
Proof.
  intros U Hl Hc Hk (Hok & Hi & Hh & Has & Hn) E. pose proof (ui_sys n x U) as S. destruct (current_apart _ t S Hc) as [Hns Hnc].
  destruct (semaphore_down_frame _ _ _ _ _ (sy_sched _ S) Hc E) as (F & Ec & m & Hm & Es).
  assert (Hkr : k = None ∨ k = Some CReturn) by (cbv zeta in Es; destruct (_ <? 0); naive_solver).
  apply (uinv_act n x t l); cbn [sy_world sy_cont sy_in]; try done.
  - apply dom_current; [apply (sy_sched _ S)|done].
  - eapply step_inv; [exact S|]. destruct (u_sys x). by eapply st_down.
  - intros u Hu. by apply set_cont_ne.
  - destruct (ui_thread n x U t l Hl) as [_ Hth]. pose proof (thread_free _ _ _ _ Hth Hk) as Hf. unfold thread_ok. rewrite Hh.
    destruct Hkr as [-> | ->]; cbn; rewrite ?lookup_delete_eq, ?lookup_insert_eq; (split; [|naive_solver]); intros j; rewrite Hf; naive_solver.
  - cbv zeta in Es. destruct (_ <? 0); destruct Es as [-> _]; apply present_set, (ui_sems n x U).
  - intros j m' r Hm' Hr. destruct (decide (j = i)) as [->|Hne].
    + pose proof (sem_ok_down (sy_cont (u_sys x)) (u_loc x) t l l' i r m Hl) as Hd. cbv zeta in Es, Hd.
      rewrite Hn, decide_True in Hd by done. pose proof (ui_sem n x U i m r Hm Hr). pose proof (sem_room x i m r U Hm Hr).
      assert (Ht : t ∉ sem_queue m) by by eapply Hns. destruct (_ <? 0); destruct Es as [Es ->]; rewrite Es in Hm';
      rewrite list_lookup_insert_eq in Hm' by (by eapply lookup_lt_Some); injection Hm' as <-; cbn [set_cont]; apply Hd; done || lia.
    + assert (Hmj : semaphore_list (sy_world (u_sys x)) !! j = Some (Some m')).
      { cbv zeta in Es. destruct (_ <? 0); destruct Es as [Es _]; rewrite Es in Hm'; by rewrite list_lookup_insert_ne in Hm'. }
      apply (sem_ok_other (sy_cont (u_sys x)) _ _ t l); auto; [by eapply Hns|intros; by apply set_cont_ne|rewrite Hn, decide_False by done; lia|].
      by apply (ui_sem n x U).
  - rewrite Ec. intros j q u Hq Hu. rewrite set_cont_ne by (intros ->; by apply (Hnc j q)). by eapply (ui_cond n x U).
Qed.

Lemma uinv_exit x t l code s' m : uinv n x → u_loc x !! t = Some l → current (sched (sy_world (u_sys x))) = Some t →
  sy_cont (u_sys x) !! t = None → next m l = AExit code → exit_current_task (sched (sy_world (u_sys x))) = Done s' →
  uinv n (mkU (mkSys (set_sched (sy_world (u_sys x)) s') (sy_cont (u_sys x)) (sy_in (u_sys x))) (u_mem x)
    (<[t := l]> (u_loc x)) (<[t := code]> (u_exit x))).
Proof.
  intros U Hl Hc Hk Ha E. pose proof (ui_sys n x U) as S. rewrite insert_id by done.
  assert (S' : sys_inv (mkSys (set_sched (sy_world (u_sys x)) s') (sy_cont (u_sys x)) (sy_in (u_sys x)))).
  { eapply step_inv; [exact S|]. destruct (u_sys x). by eapply st_exit. }
  assert (Ed : dom (task_status s') = dom (task_status (sched (sy_world (u_sys x)))) ∖ {[t]}).
  { unfold exit_current_task in E. cbn in E. rewrite Hc in E. injection E as <-. cbn. by rewrite dom_delete_L. }
  destruct U as [? ? ? ? ? ? ? ? ? Hex]. split; cbn [u_sys u_loc u_exit sy_world sy_cont sy_in set_sched]; auto.
  intros u k Hu. cbn [sched set_sched]. rewrite Ed. destruct (decide (u = t)) as [->|Hne].
  - rewrite lookup_insert_eq. assert (k = l) as -> by congruence. split; [set_solver|]. intros ? [= <-]. by exists m.
  - rewrite lookup_insert_ne by done. destruct (Hex u k Hu) as [<- H]. split; [set_solver|done].
Qed.

Lemma uinv_go x t l y : uinv n x → current (sched (sy_world (u_sys x))) = Some t → sy_cont (u_sys x) !! t = None →
  u_loc x !! t = Some l → user_go x t l = Done y → uinv n y.
Proof.
  intros U Hc Hk Hl. pose proof (ui_sys n x U) as S. destruct (ui_thread n x U t l Hl) as [Hok Hth].
  pose proof (thread_free _ _ _ _ Hth Hk) as Hf. pose proof (disc_next (u_mem x) l Hok) as Ha. unfold user_go.
  pose proof (uinv_quiet x t l) as Hquiet. pose proof (uinv_up x t l) as Hup. pose proof (uinv_down x t l) as Hdown.
  destruct x as [[w c ins] m ls ex]. cbn [u_sys u_mem u_loc u_exit sy_world sy_cont sy_in] in *. pose proof (sy_sched _ S) as I. cbn in I.
  destruct (next m l) as [m' l'|i l'|i l'|i l'|i l'|cv l'|cv l'|cv i l'|l'|code|p] eqn:Ea; cbn [kcall action_ok mem_after loc_after exit_after] in *.
  - destruct Ha as (Hok' & Hh & Hn). intros [= <-]. apply Hquiet; cbn; eauto; [done|by eapply thread_keep].
  - destruct Ha as (Hok' & Hi & Hni & Hh & Hn). destruct (mutex_lock w i) as [[w' k]|] eqn:E; [|done]. intros [= <-].
    destruct (mutex_lock_frame w i t w' k I Hc E) as (F & Es & Ec & Hkk).
    apply Hquiet; cbn; rewrite ?Ec; eauto.
    + eapply step_inv; [exact S|]. apply st_lock; auto.
    + intros u Hu. by apply set_cont_ne.
    + intros u j Hu. by apply entered_ne.
    + apply thread_lock; [|rewrite Hh; set_solver|done]. intros j. rewrite Hf, Hh. set_solver.
  - destruct Ha as (Hok' & Hi & Hni & Hh & Hn). destruct (mutex_unlock w i) as [w'|] eqn:E; [|done]. intros [= <-].
    destruct (mutex_unlock_frame w i w' I E) as (F & Es & Ec & Hcur).
    apply Hquiet; cbn; rewrite ?Ec; eauto.
    + eapply step_inv; [exact S|]. apply (st_unlock w c ins t i w'); auto. by apply Hf.
    + set_solver.
    + unfold thread_ok. rewrite Hk, Hh. split; [|naive_solver]. intros j. rewrite elem_of_difference, Hf, elem_of_singleton. set_solver.
  - destruct (semaphore_up w i) as [w'|] eqn:E; [|done]. intros [= <-]. by eapply Hup.
  - destruct (semaphore_down w i) as [[w' k]|] eqn:E; [|done]. intros [= <-]. by eapply Hdown.
  - destruct Ha as (Hok' & Hi & Hh & Hn). destruct (condvar_signal w cv) as [w'|] eqn:E; [|done]. intros [= <-].
    destruct (condvar_signal_frame w cv w' I E) as (F & Es & q & Hq & Ec).
    apply Hquiet; cbn; eauto; [eapply step_inv; [exact S|by eapply st_signal]|by eapply thread_keep|].
    intros j q' u Hq' Hu. right. rewrite Ec in Hq'. destruct q as [|y q]; [by exists q'|].
    destruct (decide (j = cv)) as [->|Hne]; [|rewrite list_lookup_insert_ne in Hq' by done; by exists q'].
    rewrite list_lookup_insert_eq in Hq' by (by eapply lookup_lt_Some). injection Hq' as <-. exists (y :: q). split; [done|by right].
  - destruct Ha as (Hok' & Hi & Hh & Hn). destruct (condvar_signal_all w cv) as [w'|] eqn:E; [|done]. intros [= <-].
    destruct (condvar_signal_all_frame w cv w' I E) as (F & Es & Ec).
    apply Hquiet; cbn; eauto; [eapply step_inv; [exact S|by eapply st_signal_all]|by eapply thread_keep|].
    intros j q' u Hq' Hu. right. rewrite Ec in Hq'. apply list_lookup_insert_Some in Hq' as [(-> & [= <-] & _)|[_ Hq']]; [set_solver|by exists q'].
  - destruct Ha as (Hok' & Hi & Hi' & Hni & Hh & Hn). destruct (condvar_wait w cv i) as [[w' k]|] eqn:E; [|done]. intros [= <-].
    destruct (condvar_wait_frame w cv i t w' k I Hc E) as (F & Es & -> & q & Hq & Ec).
    apply Hquiet; cbn; eauto.
    + eapply step_inv; [exact S|]. apply (st_wait w c ins t cv i w' (Some (CLock i))); auto. by apply Hf.
    + intros u Hu. by rewrite lookup_insert_ne.
    + set_solver.
    + unfold thread_ok. rewrite lookup_insert_eq, Hh. split; [|naive_solver]. intros j. rewrite elem_of_difference, Hf, elem_of_singleton.
      destruct (decide (j = i)); naive_solver.
    + intros j q' u Hq' Hu. rewrite Ec in Hq'. apply list_lookup_insert_Some in Hq' as [(-> & [= <-] & _)|[_ Hq']]; [|by right; exists q'].
      apply elem_of_app in Hu as [Hu|[= ->]%list_elem_of_singleton]; [right; by exists q|left].
      split; [done|]. exists i. by rewrite lookup_insert_eq.
  - destruct Ha as (Hok' & Hh & Hn). destruct (suspend_current (sched w)) as [s'|] eqn:E; [|done]. intros [= <-].
    apply Hquiet; cbn; eauto; [eapply step_inv; [exact S|by eapply st_yield]| |by eapply thread_keep].
    split; [done|done|]. eapply suspend_dom; [by apply dom_current|done|done].
  - destruct (exit_current_task (sched w)) as [s'|] eqn:E; [|done]. intros [= <-]. by eapply (uinv_exit (mkU (mkSys w c ins) m ls ex)).
  - done.
Qed.

(** The events that leave the local states alone. *)
Lemma uinv_world x s' : uinv n x → sys_inv s' → wframe (sy_world (u_sys x)) (sy_world s') →
  sy_cont s' = sy_cont (u_sys x) → sy_in s' = sy_in (u_sys x) →
  semaphore_list (sy_world s') = semaphore_list (sy_world (u_sys x)) →
  condvar_list (sy_world s') = condvar_list (sy_world (u_sys x)) →
  uinv n (mkU s' (u_mem x) (u_loc x) (u_exit x)).
Proof.
  intros U S' [Fm _ Fd] Ec Ei Es Ek. destruct U. split; cbn [u_sys u_loc u_exit]; rewrite ?Ec, ?Ei, ?Es, ?Ek, ?Fd; auto.
Qed.

Lemma uinv_switch w c ins m ls ex t : uinv n (mkU (mkSys w c ins) m ls ex) → current (sched w) = None →
  current (run_tasks_round (sched w)) = Some t →
  uinv n (mkU (mkSys (set_sched w (run_tasks_round (sched w))) (fst (resumed c ins t)) (snd (resumed c ins t))) m ls ex).
Proof.
  intros U Hn Hc. pose proof (ui_sys n _ U) as S. cbn in S. pose proof (sy_sched _ S) as I. cbn in I.
  assert (S' : sys_inv (mkSys (set_sched w (run_tasks_round (sched w))) (fst (resumed c ins t)) (snd (resumed c ins t)))).
  { eapply step_inv; [exact S|by apply st_run]. }
  pose proof (run_tasks_round_spec _ _ I Hn) as Hr. destruct (ready_queue (sched w)) as [|y q] eqn:Hq; [rewrite Hr in Hc; congruence|].
  destruct Hr as (_ & Hc' & _). rewrite Hc in Hc'. injection Hc' as <-.
  assert (Htd : t ∈ dom (task_status (sched w))) by (apply (sc_dom _ _ I); rewrite Hq; set_solver).
  assert (Htw : t ∉ waiting w) by (apply (sched_apart _ _ t I); rewrite Hq; by left).
  assert (F : wframe w (set_sched w (run_tasks_round (sched w)))).
  { split; [done|done|]. unfold run_tasks_round, fetch_task. rewrite Hq. by apply (dom_set_status (sched w) t). }
  assert (Hsame : c !! t = None ∨ (∃ i, c !! t = Some (CLock i)) ∨
    is_Some (ls !! t) ∧ (c !! t = Some CReturn ∨ ∃ i, c !! t = Some (CLocked i))).
  { destruct (c !! t) as [k|] eqn:Hk; [|by left]. right. destruct (ls !! t) as [l|] eqn:Hl.
    - destruct k; eauto.
    - pose proof (ui_only n _ U t Hl) as [H _]. cbn in H. congruence. }
  destruct Hsame as [Hk|[[i Hk]|[[l Hl] Hk]]].
  - unfold resumed in *. rewrite Hk in *. by apply (uinv_world (mkU (mkSys w c ins) m ls ex)).
  - unfold resumed in *. rewrite Hk in *. by apply (uinv_world (mkU (mkSys w c ins) m ls ex)).
  - destruct (ui_thread n _ U t l Hl) as [Hok [Hth Hth2]]. cbn [u_sys sy_cont sy_in] in Hth, Hth2.
    rewrite <- (insert_id ls t l Hl) at 1.
    apply (uinv_act n (mkU (mkSys w c ins) m ls ex) t l); cbn [u_sys u_loc sy_world sy_cont sy_in set_sched semaphore_list condvar_list]; try done.
    + intros u Hu. unfold resumed. destruct Hk as [-> | [i ->]]; cbn; by rewrite lookup_delete_ne.
    + intros u j Hu. unfold resumed. destruct Hk as [-> | [i ->]]; cbn; set_solver.
    + unfold resumed, thread_ok. destruct Hk as [Hk | [i Hk]]; rewrite Hk; cbn; rewrite lookup_delete_eq; (split; [|naive_solver]); intros j.
      * rewrite Hth, Hk. naive_solver.
      * rewrite elem_of_union, elem_of_singleton, Hth, Hk. destruct (decide (j = i)) as [->|]; [|naive_solver].
        pose proof (Hth2 i (or_intror Hk)). naive_solver.
    + apply (ui_sems n _ U).
    + intros i m' r Hm Hr. apply (sem_ok_other c _ _ t l); auto; [| |by apply (ui_sem n _ U)].
      * intros Ht. apply Htw. by eapply sem_waiting.
      * intros u Hu. unfold resumed. destruct Hk as [-> | [j ->]]; cbn; by rewrite lookup_delete_ne.
    + intros j q' u Hq' Hu. assert (u ≠ t) by (intros ->; apply Htw; by eapply cond_waiting).
      destruct (ui_cond n _ U j q' u Hq' Hu) as [i Hi]. exists i. cbn in Hi.
      unfold resumed. destruct Hk as [-> | [j' ->]]; cbn; by rewrite lookup_delete_ne.
Qed.

Lemma uinv_retry x t i w' k : uinv n x → current (sched (sy_world (u_sys x))) = Some t → sy_cont (u_sys x) !! t = Some (CLock i) →
  mutex_lock (sy_world (u_sys x)) i = Done (w', k) →
  uinv n (mkU (mkSys w' (set_cont (sy_cont (u_sys x)) t k) (entered k t i (sy_in (u_sys x)))) (u_mem x) (u_loc x) (u_exit x)).
Proof.
  intros U Hc Hk E. pose proof (ui_sys n x U) as S. destruct (mutex_lock_frame _ i t w' k (sy_sched _ S) Hc E) as (F & Es & Ec & Hkk).
  destruct (u_loc x !! t) as [l|] eqn:Hl; [|by pose proof (ui_only n x U t Hl) as [? _]; congruence].
  destruct (ui_thread n x U t l Hl) as [Hok [Hth Hth2]]. rewrite <- (insert_id (u_loc x) t l Hl) at 1.
  apply (uinv_quiet x t l); cbn [sy_world sy_cont sy_in]; rewrite ?Ec; eauto.
  - eapply step_inv; [exact S|]. destruct (u_sys x). apply st_lock; auto.
  - intros u Hu. by apply set_cont_ne.
  - intros u j Hu. by apply entered_ne.
  - apply thread_lock; [|by apply Hth2; left|done]. intros j. rewrite Hth, Hk. naive_solver.
Qed.

Lemma uinv_event x e y : uinv n x → uexec e x = Some (Done y) → uinv n y.
Proof.
  intros U E. pose proof (ui_sys n x U) as S. destruct x as [[w c ins] m ls ex]. cbn in S. cbn [uexec] in E.
  destruct e, (current (sched w)) as [t|] eqn:Hc; try done.
  - destruct (c !! t) as [[|i|i]|] eqn:Hk; try done.
    + destruct (mutex_lock w i) as [[w' k]|] eqn:El; [|done]. injection E as <-. by eapply (uinv_retry (mkU (mkSys w c ins) m ls ex)).
    + destruct (ls !! t) as [l|] eqn:Hl; [|done]. injection E as E. by apply (uinv_go (mkU (mkSys w c ins) m ls ex) t l).
  - destruct (c !! t) eqn:Hk; [done|]. destruct (suspend_current (sched w)) as [s'|] eqn:Es; [|done]. injection E as <-.
    apply (uinv_world (mkU (mkSys w c ins) m ls ex)); cbn; try done.
    + eapply step_inv; [exact S|by eapply st_yield].
    + split; [done|done|]. eapply suspend_dom; [by apply dom_current; [apply (sy_sched _ S)|]|done|done].
  - destruct (current (run_tasks_round (sched w))) as [t|] eqn:Hr; [|done]. injection E as <-. by apply uinv_switch.
Qed.

Lemma ureach_inv x y : uinv n x → ureach x y → uinv n y.
Proof. intros U R. induction R as [|x z y [e He] _ IH]; [done|]. apply IH. by eapply uinv_event. Qed.


(** ** What follows *)

(** Only the program itself panics, never the kernel. *)
Lemma uinv_no_panic x e p : uinv n x → uexec e x = Some (Panicked p) →
  ∃ t l, current (sched (sy_world (u_sys x))) = Some t ∧ u_loc x !! t = Some l ∧ next (u_mem x) l = APanic p.
Proof.
  intros U E. pose proof (ui_sys n x U) as S. pose proof (sy_sched _ S) as I.
  destruct x as [[w c ins] m ls ex]. cbn [u_sys u_mem u_loc sy_world] in *.
  assert (Hlock : ∀ t i, current (sched w) = Some t → (i < mutexes)%nat → ∃ r, mutex_lock w i = Done r).
  { intros t i Hc Hi. destruct (present_get _ _ i (ui_mutex n _ U) Hi) as [o Ho]. cbn in Ho.
    pose proof (mutex_lock_spec w i t I Hc) as H. rewrite Ho in H. destruct o as [[]|[] q]; [destruct H as (s & H & _)|destruct H as [H _]|
      destruct H as (s & H & _)|destruct H as [H _]]; by eexists. }
  assert (Hunlock : ∀ t i, (i < mutexes)%nat → (t, i) ∈ ins → ∃ w', mutex_unlock w i = Done w').
  { intros t i Hi Hin. destruct (present_get _ _ i (ui_mutex n _ U) Hi) as [o Ho]. cbn in Ho.
    pose proof (proj1 (proj2 (sys_exclusive _ i S)) t Hin) as Hl. cbn in Hl. unfold obj_at in Hl.
    pose proof (mutex_unlock_spec w i I) as H. rewrite Ho in H, Hl. destruct o as [b|[] [|y q]]; try done; destruct H as [H _]; by eexists. }
  assert (Hblock : ∀ t, current (sched w) = Some t → ∃ s', block_current_task (sched w) = Done s').
  { intros t Hc. destruct (block_current_spec _ _ t I Hc) as (s' & H & _). by exists s'. }
  cbn [uexec] in E. destruct e, (current (sched w)) as [t|] eqn:Hc; try done.
  - destruct (ls !! t) as [l|] eqn:Hl; [|pose proof (ui_only n _ U t Hl) as [H _]; cbn in H; by rewrite H in E].
    destruct (ui_thread n _ U t l Hl) as [Hok Hth]. cbn [u_sys sy_cont sy_in] in Hth.
    destruct (c !! t) as [[|i|i]|] eqn:Hk; try done.
    + destruct (Hlock t i eq_refl) as [[w' k] Hr]; [|by rewrite Hr in E].
      apply (disc_holding i l Hok). apply Hth. auto.
    + exists t, l. split; [done|]. split; [done|]. injection E as E. unfold user_go in E. cbn [u_sys u_mem u_loc u_exit] in E.
      pose proof (thread_free _ _ _ _ Hth Hk) as Hf. pose proof (disc_next m l Hok) as Ha.
      destruct (kcall (mkSys w c ins) t (next m l)) as [s'|p'] eqn:Ek; [done|].
      destruct (next m l) as [m' l'|i l'|i l'|i l'|i l'|cv l'|cv l'|cv i l'|l'|code|p0]; cbn [kcall action_ok] in *.
      * done.
      * destruct (Hlock t i eq_refl) as [[w' k] Hr]; [apply Ha|]. by rewrite Hr in Ek.
      * destruct (Hunlock t i) as [w' Hr]; [apply Ha|by apply Hf, Ha|]. by rewrite Hr in Ek.
      * destruct (present_get _ _ i (ui_sems n _ U)) as [o Ho]; [apply Ha|]. cbn in Ho. unfold semaphore_up in Ek.
        rewrite (proj2 (get_obj_Done _ _ _) Ho), outcome_bind_Done in Ek. by destruct (sem_up o).
      * destruct (present_get _ _ i (ui_sems n _ U)) as [o Ho]; [apply Ha|]. cbn in Ho. unfold semaphore_down in Ek.
        rewrite (proj2 (get_obj_Done _ _ _) Ho), outcome_bind_Done in Ek. unfold sem_down, current_task in Ek. rewrite Hc in Ek.
        destruct (Hblock t eq_refl) as [s' Hs]. destruct (_ <? 0); cbn [unwrap mret outcome_ret] in Ek;
          rewrite ?outcome_bind_Done in Ek; cbn [sched set_sem mret outcome_ret] in Ek; rewrite ?outcome_bind_Done in Ek; cbn [sched set_sem] in Ek; by rewrite ?Hs in Ek.
      * destruct (present_get _ _ cv (ui_conds n _ U)) as [q Hq]; [apply Ha|]. cbn in Hq. unfold condvar_signal in Ek.
        rewrite (proj2 (get_obj_Done _ _ _) Hq), outcome_bind_Done in Ek. by destruct q.
      * destruct (present_get _ _ cv (ui_conds n _ U)) as [q Hq]; [apply Ha|]. cbn in Hq. unfold condvar_signal_all in Ek.
        by rewrite (proj2 (get_obj_Done _ _ _) Hq), outcome_bind_Done in Ek.
      * destruct (present_get _ _ cv (ui_conds n _ U)) as [q Hq]; [apply Ha|]. cbn in Hq. unfold condvar_wait in Ek.
        destruct (Hunlock t i) as [w' Hr]; [apply Ha|by apply Hf, Ha|]. destruct (mutex_unlock_frame w i w' I Hr) as (_ & _ & Ec & Hcur).
        rewrite (proj2 (get_obj_Done _ _ _) Hq), outcome_bind_Done, Hr, outcome_bind_Done, Ec, (proj2 (get_obj_Done _ _ _) Hq), outcome_bind_Done in Ek.
        unfold current_task, block_current_task in Ek. cbn in Ek. by rewrite Hcur, Hc in Ek.
      * destruct (suspend_current_spec _ _ t I Hc) as (s' & Hs & _). by rewrite Hs in Ek.
      * unfold exit_current_task in Ek. cbn in Ek. by rewrite Hc in Ek.
      * injection Ek as ->. cbn in E. congruence.
  - destruct (c !! t) eqn:Hk; [done|]. destruct (suspend_current_spec _ _ t I Hc) as (s' & Hs & _). by rewrite Hs in E.
  - by destruct (current (run_tasks_round (sched w))).
Qed.


(** Two threads in user code never hold the same mutex. *)
Lemma uinv_exclusive x i t1 t2 l1 l2 : uinv n x → u_loc x !! t1 = Some l1 → u_loc x !! t2 = Some l2 →
  i ∈ holding l1 → i ∈ holding l2 → sy_cont (u_sys x) !! t1 = None → sy_cont (u_sys x) !! t2 = None → t1 = t2.
Proof.
  intros U H1 H2 Hi1 Hi2 Hc1 Hc2. destruct (ui_thread n x U t1 l1 H1) as [_ Ht1]. destruct (ui_thread n x U t2 l2 H2) as [_ Ht2].
  apply (proj1 (sys_exclusive _ i (ui_sys n x U))); [by apply (thread_free _ _ _ _ Ht1)|by apply (thread_free _ _ _ _ Ht2)].
Qed.

(** A thread that went down a semaphore sleeps on it or was admitted: the first count, the ups
    minus the downs, and the threads that sleep never sum up to less than nothing, and to nothing
    when a thread sleeps. *)
Definition sleepers (x : UState) (i : nat) : list nat :=
  semaphore_queue (mjoin (semaphore_list (sy_world (u_sys x)) !! i)).

Lemma uinv_admits x i r : uinv n x → res !! i = Some r →
  let q := sleepers x i in
  0 ≤ r + msum (λ t l, net i l + among q t) (u_loc x) ∧
  (q ≠ [] → r + msum (λ t l, net i l + among q t) (u_loc x) = 0) ∧
  ∀ t, t ∈ q → sy_cont (u_sys x) !! t = Some CReturn ∧ ∃ l, u_loc x !! t = Some l ∧ asleep l = Some i.
Proof.
  intros U Hr. destruct (present_get _ _ i (ui_sems n x U)) as [m Hm]; [by eapply lookup_lt_Some|].
  destruct (ui_sem n x U i m r Hm Hr) as (H1 & H2 & H3). unfold sleepers. rewrite Hm. cbn [mjoin option_join semaphore_queue from_option option_bind].
  assert (Hnd : NoDup (sem_queue m)).
  { pose proof (sc_nodup _ _ (sy_sched _ (ui_sys n x U))) as Hnd. destruct (waiting_sem _ i m Hm) as (rr & E & _). rewrite E in Hnd.
    apply NoDup_app in Hnd as (_ & _ & Hnd). apply NoDup_app in Hnd as (_ & _ & Hnd). by apply NoDup_app in Hnd as (Hnd & _ & _). }
  cbn. change (id (Some m)) with (Some m). cbn. rewrite (msum_add (λ _, net i)), msum_among; [|done|intros t Ht; destruct (H3 t Ht) as (_ & l & Hl & _); by eexists].
  split; [lia|]. split; [|done]. intros Hq. assert (0 < zlen (sem_queue m)) by (destruct (sem_queue m); [done|unfold zlen; cbn; lia]). lia.
Qed.

(** A thread that has not ended is on the processor, ready, or waits. *)
Definition runnable (x : UState) (t : nat) : Prop :=
  t ∈ cur_list (sched (sy_world (u_sys x))) ++ ready_queue (sched (sy_world (u_sys x))).

Lemma uinv_idle x t l : uinv n x → ¬ runnable x t → u_loc x !! t = Some l → u_exit x !! t = None →
  (∃ i, t ∈ mutex_queue (obj_at (sy_world (u_sys x)) i)) ∨ (∃ i, t ∈ sleepers x i ∧ (i < length res)%nat) ∨
  (∃ j q, condvar_list (sy_world (u_sys x)) !! j = Some (Some q) ∧ t ∈ q).
Proof.
  intros U Hr Hl He. pose proof (sy_sched _ (ui_sys n x U)) as I. apply (ui_exit n x U t l Hl) in He.
  apply (sc_dom _ _ I) in He. unfold runnable in Hr. rewrite elem_of_app in Hr. rewrite !elem_of_app in He.
  destruct He as [He|[He|He]]; [tauto|tauto|]. unfold waiting in He.
  rewrite !elem_of_app, !list_elem_of_bind in He. destruct He as [(o & Ho & Hin)|[(o & Ho & Hin)|(o & Ho & Hin)]];
    apply list_elem_of_lookup in Hin as [i Hi].
  - left. exists i. unfold obj_at. rewrite Hi. by destruct o.
  - right. left. exists i. unfold sleepers. rewrite Hi. split; [by destruct o|]. rewrite <- (proj1 (ui_sems n x U)). by eapply lookup_lt_Some.
  - right. right. destruct o as [q|]; [by exists i, q|]. by apply not_elem_of_nil in Ho.
Qed.

(** *** Spin mutexes stay spin mutexes, and nobody sleeps on them *)

Definition spins (w : World) : Prop := ∀ i m, mutex_list w !! i = Some (Some m) → ∃ b, m = MutexSpin b.

Lemma spins_queue w i : spins w → mutex_queue (obj_at w i) = [].
Proof.
  intros H. unfold obj_at. destruct (mutex_list w !! i) as [[m|]|] eqn:E; [|done..]. by destruct (H i m E) as [b ->].
Qed.

Lemma spins_insert w w' i b : spins w → mutex_list w' = <[i := Some (MutexSpin b)]> (mutex_list w) → spins w'.
Proof.
  intros H E j m. rewrite E. intros [(-> & [= <-] & _)|[_ Hj]]%list_lookup_insert_Some; [by eexists|by eapply H].
Qed.

Lemma spins_lock w i w' k : spins w → mutex_lock w i = Done (w', k) → spins w'.
Proof.
  intros H. unfold mutex_lock. destruct (get_obj (mutex_list w) i) as [m|] eqn:E; [|done]. apply get_obj_Done in E.
  destruct (H i m E) as [[] ->]; rewrite outcome_bind_Done.
  - destruct (suspend_current (sched w)); [|done]. intros [= <- _]. exact H.
  - intros [= <- _]. by eapply (spins_insert w _ i).
Qed.

Lemma spins_unlock w i w' : spins w → mutex_unlock w i = Done w' → spins w'.
Proof.
  intros H. unfold mutex_unlock. destruct (get_obj (mutex_list w) i) as [m|] eqn:E; [|done]. apply get_obj_Done in E.
  destruct (H i m E) as [b ->]. rewrite outcome_bind_Done. intros [= <-]. by eapply (spins_insert w _ i).
Qed.

Lemma spins_kcall s t a s' : world_inv (sy_world s) → current (sched (sy_world s)) = Some t → spins (sy_world s) →
  kcall s t a = Done s' → spins (sy_world s').
Proof.
  intros I Hc H E. destruct s as [w c ins]. cbn [sy_world] in *.
  assert (Hsame : ∀ w', mutex_list w' = mutex_list w → spins w') by (intros w' Em j m; rewrite Em; apply H).
  destruct a as [m' l'|i l'|i l'|i l'|i l'|cv l'|cv l'|cv i l'|l'|code|p]; cbn [kcall] in E; try done.
  - by injection E as <-.
  - destruct (mutex_lock w i) as [[w' k]|] eqn:El; [|done]. injection E as <-. by eapply spins_lock.
  - destruct (mutex_unlock w i) as [w'|] eqn:El; [|done]. injection E as <-. by eapply spins_unlock.
  - destruct (semaphore_up w i) as [w'|] eqn:El; [|done]. injection E as <-. by apply Hsame, (semaphore_up_inv w i w').
  - destruct (semaphore_down w i) as [[w' k]|] eqn:El; [|done]. injection E as <-. by apply Hsame, (semaphore_down_inv w i t w' k).
  - destruct (condvar_signal w cv) as [w'|] eqn:El; [|done]. injection E as <-. by apply Hsame, (condvar_signal_inv w cv w').
  - destruct (condvar_signal_all w cv) as [w'|] eqn:El; [|done]. injection E as <-. by apply Hsame, (condvar_signal_all_inv w cv w').
  - destruct (condvar_wait w cv i) as [[w' k]|] eqn:El; [|done]. injection E as <-. unfold condvar_wait in El.
    destruct (get_obj (condvar_list w) cv); [|done]. rewrite outcome_bind_Done in El.
    destruct (mutex_unlock w i) as [w1|] eqn:Eu; [|done]. apply (spins_unlock w i w1 H) in Eu as H1.
    destruct (mutex_unlock_frame w i w1 I Eu) as (_ & _ & _ & Hcur).
    rewrite outcome_bind_Done in El. destruct (get_obj (condvar_list w1) cv); [|done]. rewrite outcome_bind_Done in El.
    unfold current_task in El. rewrite Hcur, Hc in El. cbn [unwrap] in El. rewrite outcome_bind_Done in El. cbn [sched set_cond] in El.
    destruct (block_current_task (sched w1)) as [s'|]; [|done]. injection El as <- <-. exact H1.
  - destruct (suspend_current (sched w)); [|done]. by injection E as <-.
  - destruct (exit_current_task (sched w)); [|done]. by injection E as <-.
Qed.

Lemma spins_event x e y : uinv n x → spins (sy_world (u_sys x)) → uexec e x = Some (Done y) → spins (sy_world (u_sys y)).
Proof.
  intros U H E. pose proof (sy_sched _ (ui_sys n x U)) as I. destruct x as [[w c ins] m ls ex]. cbn [uexec u_sys sy_world] in *.
  destruct e, (current (sched w)) as [t|] eqn:Hc; try done.
  - destruct (c !! t) as [[|i|i]|] eqn:Hk; try done.
    + destruct (mutex_lock w i) as [[w' k]|] eqn:El; [|done]. injection E as <-. by eapply spins_lock.
    + destruct (ls !! t) as [l|] eqn:Hl; [|done]. injection E as E. unfold user_go in E. cbn [u_sys u_mem u_loc u_exit] in E.
      destruct (kcall _ _ _) as [s'|] eqn:Ek; [|done]. injection E as <-. exact (spins_kcall (mkSys w c ins) t _ s' I Hc H Ek).
  - destruct (c !! t); [done|]. destruct (suspend_current (sched w)); [|done]. by injection E as <-.
  - destruct (current (run_tasks_round (sched w))); [|done]. by injection E as <-.
Qed.

(** ** Progress *)

(** No thread of the program is runnable. *)
Definition stuck (x : UState) : Prop := ∀ t, is_Some (u_loc x !! t) → ¬ runnable x t.
Definition finished (x : UState) : Prop := dom (u_loc x) ⊆ dom (u_exit x).

#[export] Instance finished_dec x : Decision (finished x).
Proof. unfold finished. apply _. Defined.

(** The current thread is not asleep in [down]. *)
Definition cur_ok (x : UState) : Prop :=
  ∀ t, current (sched (sy_world (u_sys x))) = Some t → sy_cont (u_sys x) !! t = None ∨ ∃ i, sy_cont (u_sys x) !! t = Some (CLock i).

Lemma switched s s' t : suspend_current s = Done s' ∨ block_current_task s = Done s' ∨ exit_current_task s = Done s' →
  current s = Some t → current s' = None.
Proof.
  unfold suspend_current, block_current_task, exit_current_task. cbn. intros H Hc. rewrite Hc in H. cbn in H.
  destruct H as [H|[H|H]]; by injection H as <-.
Qed.

Lemma lock_current w i t w' k u : world_inv w → current (sched w) = Some t → mutex_lock w i = Done (w', k) →
  current (sched w') = Some u → u = t ∧ k = None.
Proof.
  intros I Hc El Hu. pose proof (mutex_lock_spec w i t I Hc) as H.
  destruct (mutex_list w !! i) as [[[[]|[] q]|]|]; try (destruct H as (? & H); congruence);
    [destruct H as (s & H & _ & Hn & _)|destruct H as [H _]|destruct H as (s & H & _ & Hn & _)|destruct H as [H _]];
    rewrite El in H; injection H as -> ->; cbn in Hu; split; congruence.
Qed.

Lemma kcall_current s t a s' u : sys_inv s → current (sched (sy_world s)) = Some t → kcall s t a = Done s' →
  current (sched (sy_world s')) = Some u → u = t ∧ (sy_cont s' !! t = None ∨ sy_cont s' !! t = sy_cont s !! t).
Proof.
  intros S Hc E Hu. pose proof (sy_sched _ S) as I. destruct s as [w c ins]. cbn [sy_world sy_cont] in *.
  destruct a as [m' l'|i l'|i l'|i l'|i l'|cv l'|cv l'|cv i l'|l'|code|p]; cbn [kcall] in E.
  - injection E as <-. cbn in Hu. split; [congruence|auto].
  - destruct (mutex_lock w i) as [[w' k]|] eqn:El; [|done]. injection E as <-.
    destruct (lock_current w i t w' k u I Hc El Hu) as [-> ->]. cbn. rewrite lookup_delete_eq. auto.
  - destruct (mutex_unlock w i) as [w'|] eqn:El; [|done]. injection E as <-. cbn in Hu |- *.
    destruct (mutex_unlock_frame w i w' I El) as (_ & _ & _ & Hcur). split; [congruence|auto].
  - destruct (semaphore_up w i) as [w'|] eqn:El; [|done]. injection E as <-. cbn in Hu |- *.
    destruct (semaphore_up_inv w i w' I El) as (_ & _ & Hcur). split; [congruence|auto].
  - destruct (semaphore_down w i) as [[w' k]|] eqn:El; [|done]. injection E as <-. cbn in Hu |- *.
    destruct (semaphore_down_inv w i t w' k I Hc El) as (_ & _ & Hcur). destruct k; [destruct Hcur; congruence|].
    cbn. rewrite lookup_delete_eq. split; [congruence|by left].
  - destruct (condvar_signal w cv) as [w'|] eqn:El; [|done]. injection E as <-. cbn in Hu |- *.
    destruct (condvar_signal_inv w cv w' I El) as (_ & _ & Hcur). split; [congruence|auto].
  - destruct (condvar_signal_all w cv) as [w'|] eqn:El; [|done]. injection E as <-. cbn in Hu |- *.
    destruct (condvar_signal_all_inv w cv w' I El) as (_ & _ & Hcur). split; [congruence|auto].
  - destruct (condvar_wait w cv i) as [[w' k]|] eqn:El; [|done]. injection E as <-. cbn in Hu. exfalso.
    unfold condvar_wait in El. destruct (get_obj (condvar_list w) cv); [|done]. rewrite outcome_bind_Done in El.
    destruct (mutex_unlock w i) as [w1|] eqn:Eu; [|done]. destruct (mutex_unlock_frame w i w1 I Eu) as (_ & _ & _ & Hcur).
    rewrite outcome_bind_Done in El. destruct (get_obj (condvar_list w1) cv); [|done]. rewrite outcome_bind_Done in El.
    unfold current_task in El. rewrite Hcur, Hc in El. cbn [unwrap] in El. rewrite outcome_bind_Done in El. cbn [sched set_cond] in El.
    destruct (block_current_task (sched w1)) as [s'|] eqn:Es; [|done]. injection El as <- <-. cbn in Hu.
    rewrite (switched (sched w1) s' t) in Hu; [done|auto|congruence].
  - destruct (suspend_current (sched w)) as [s''|] eqn:Es; [|done]. injection E as <-. cbn in Hu. by rewrite (switched (sched w) s'' t) in Hu by auto.
  - destruct (exit_current_task (sched w)) as [s''|] eqn:Es; [|done]. injection E as <-. cbn in Hu. by rewrite (switched (sched w) s'' t) in Hu by auto.
  - done.
Qed.

Lemma cur_ok_step x e y : uinv n x → cur_ok x → uexec e x = Some (Done y) → cur_ok y.
Proof.
  intros U C E. pose proof (uinv_event x e y U E) as U'. pose proof (ui_sys n x U) as S.
  assert (Hcl : ∀ t i, current (sched (sy_world (u_sys y))) = Some t → sy_cont (u_sys y) !! t ≠ Some (CLocked i)).
  { intros t i Ht. by apply (sy_cur _ (ui_sys n y U')). }
  assert (Hno : ∀ t, sy_cont (u_sys y) !! t ≠ Some CReturn → current (sched (sy_world (u_sys y))) = Some t →
    sy_cont (u_sys y) !! t = None ∨ ∃ i, sy_cont (u_sys y) !! t = Some (CLock i)).
  { intros t H Ht. destruct (sy_cont (u_sys y) !! t) as [[|i|i]|] eqn:Hk; [done|by destruct (Hcl t i Ht)|eauto|by left]. }
  intros t Ht. apply (Hno t); [|done]. clear Hno Hcl. destruct x as [[w c ins] m ls ex]. cbn [uexec u_sys sy_world sy_cont] in *.
  unfold cur_ok in C. cbn in C. destruct e, (current (sched w)) as [u|] eqn:Hc; try done.
  - destruct (c !! u) as [[|i|i]|] eqn:Hk; try done.
    + destruct (mutex_lock w i) as [[w' k]|] eqn:El; [|done]. injection E as <-. cbn in Ht |- *.
      destruct (lock_current w i u w' k t (sy_sched _ S) Hc El Ht) as [-> ->]. cbn. by rewrite lookup_delete_eq.
    + destruct (ls !! u) as [l|] eqn:Hl; [|done]. injection E as E. unfold user_go in E. cbn [u_sys u_mem u_loc u_exit] in E.
      destruct (kcall _ _ _) as [s'|] eqn:Ek; [|done]. injection E as <-. cbn [u_sys] in *.
      destruct (kcall_current _ _ _ _ t S Hc Ek Ht) as [-> H]. cbn [sy_cont] in H. destruct H as [-> | ->]; congruence.
  - destruct (c !! u); [done|]. destruct (suspend_current (sched w)) as [s''|] eqn:Es; [|done]. injection E as <-. cbn in Ht.
    by rewrite (switched (sched w) s'' u) in Ht by auto.
  - destruct (current (run_tasks_round (sched w))) as [u|] eqn:Hr; [|done]. injection E as <-. cbn in Ht |- *. assert (u = t) as -> by congruence.
    unfold resumed. destruct (c !! t) as [[]|] eqn:Hk; cbn; rewrite ?lookup_delete_eq, ?Hk; done.
Qed.

Lemma urun_app es es' x y z : urun es x = Some y → urun es' y = Some z → urun (es ++ es') x = Some z.
Proof.
  revert x. induction es as [|e es IH]; intros x; cbn [urun app]; [by intros [= ->]|].
  destruct (uexec e x) as [[x'|]|]; [|done..]. apply IH.
Qed.

(** A measure of the work a local state has before it. *)
Class Ranked (rank : L → nat) : Prop :=
  rank_next m l : ok l → match next m l with AExit _ | APanic _ => True | a => (rank (loc_after a l) < rank l)%nat end.

Context (rank : L → nat) `{!Ranked rank}.

Definition total (x : UState) : Z :=
  msum (λ t l, match u_exit x !! t with Some _ => 0 | None => 1 + Z.of_nat (rank l) end) (u_loc x).

Lemma total_step x e y : uinv n x → (∀ t i, sy_cont (u_sys x) !! t ≠ Some (CLock i)) → uexec e x = Some (Done y) →
  total y + (match e with Go => 1 | _ => 0 end) ≤ total x ∧ (e ≠ Go → total y = total x).
Proof.
  intros U Hcl E. apply uexec_inv in E as [(t & l & Hc & Hl & Hk & -> & Hcall & Em & El & Ex)|(Em & El & Ex & _ & [(t & i & _ & _ & Hk & _)|[He _]])].
  - split; [|done]. assert (Hex : u_exit x !! t = None).
    { apply (ui_exit n x U t l Hl). apply dom_current; [apply (sy_sched _ (ui_sys n x U))|done]. }
    unfold total. rewrite El, Ex. pose proof (proj1 (ui_thread n x U t l Hl)) as Hok. pose proof (rank_next (u_mem x) l Hok) as Hrk.
    cbv zeta in El, Ex. generalize dependent (next (u_mem x) l). intros a Hcall Em El Ex Hrk.
    rewrite (msum_delete _ (<[t:=loc_after a l]> (u_loc x)) t (loc_after a l)) by apply lookup_insert_eq. rewrite delete_insert_eq.
    rewrite (msum_delete _ (u_loc x) t l Hl), Hex.
    rewrite (msum_ext (λ u k, match exit_after a t (u_exit x) !! u with Some _ => 0 | None => 1 + Z.of_nat (rank k) end)
      (λ u k, match u_exit x !! u with Some _ => 0 | None => 1 + Z.of_nat (rank k) end) (delete t (u_loc x))).
    + destruct a; cbn [exit_after loc_after] in *; rewrite ?Hex, ?lookup_insert_eq; try lia. by destruct (u_sys x).
    + intros u k Hu. apply lookup_delete_Some in Hu as [Hne _]. destruct a; cbn [exit_after]; by rewrite ?lookup_insert_ne by done.
  - by destruct (Hcl t i).
  - unfold total. rewrite El, Ex. split; [destruct e; done || lia|done].
Qed.

Lemma total_nonneg x : 0 ≤ total x.
Proof.
  unfold total. replace 0 with (msum (λ _ (_ : L), 0) (u_loc x)) at 1 by (rewrite msum_const; lia).
  apply msum_le. intros t l _. destruct (u_exit x !! t); lia.
Qed.

(** The other tasks of the machine give way. *)
Lemma run_queue q1 : ∀ x t q2, uinv n x → cur_ok x → current (sched (sy_world (u_sys x))) = None →
  ready_queue (sched (sy_world (u_sys x))) = q1 ++ t :: q2 → is_Some (u_loc x !! t) →
  ∃ es y u, urun es x = Some y ∧ u_loc y = u_loc x ∧ u_exit y = u_exit x ∧ uinv n y ∧ cur_ok y ∧
    current (sched (sy_world (u_sys y))) = Some u ∧ is_Some (u_loc y !! u).
Proof.
  induction q1 as [|a q1 IH]; intros x t q2 U C Hc Hq Ht.
  - assert (∃ y, uexec Switch x = Some (Done y) ∧ u_loc y = u_loc x ∧ u_exit y = u_exit x ∧ current (sched (sy_world (u_sys y))) = Some t) as (y & E & El & Ex & Hcy).
    { destruct x as [[w c ins] m ls ex]. cbn in Hc, Hq. cbn [uexec]. unfold run_tasks_round, fetch_task. rewrite Hc, Hq. by eexists. }
    exists [Switch], y, t. cbn [urun]. rewrite E, El. split; [done|]. split; [done|]. split; [done|].
    split; [by eapply uinv_event|]. split; [by eapply cur_ok_step|done].
  - assert (∃ y, uexec Switch x = Some (Done y) ∧ u_loc y = u_loc x ∧ u_exit y = u_exit x ∧ current (sched (sy_world (u_sys y))) = Some a ∧
      ready_queue (sched (sy_world (u_sys y))) = q1 ++ t :: q2) as (y & E & El & Ex & Hcy & Hqy).
    { destruct x as [[w c ins] m ls ex]. cbn in Hc, Hq. cbn [uexec]. unfold run_tasks_round, fetch_task. rewrite Hc, Hq. by eexists. }
    assert (U' : uinv n y) by by eapply uinv_event. assert (C' : cur_ok y) by exact (cur_ok_step x _ y U C E).
    destruct (u_loc x !! a) as [l|] eqn:Ha.
    + exists [Switch], y, a. cbn [urun]. rewrite E, El, Ha. split_and!; done || by eexists.
    + assert (∃ z, uexec Preempt y = Some (Done z) ∧ u_loc z = u_loc y ∧ u_exit z = u_exit y ∧ current (sched (sy_world (u_sys z))) = None ∧
        ready_queue (sched (sy_world (u_sys z))) = q1 ++ t :: (q2 ++ [a])) as (z & Ez & Elz & Exz & Hcz & Hqz).
      { rewrite <- El in Ha. destruct (ui_only n y U' a Ha) as [Hk _]. destruct y as [[w c ins] m ls ex]. cbn in Hcy, Hqy, Hk. cbn [uexec].
        unfold suspend_current. cbn [take_current_task]. rewrite Hcy, Hk. cbn. eexists. split; [done|]. cbn. rewrite Hqy. by rewrite <- app_assoc. }
      destruct (IH z t (q2 ++ [a])) as (es & y' & u & R & El' & Ex' & H); [exact (uinv_event y _ z U' Ez)|exact (cur_ok_step y _ z U' C' Ez)|done|done|by rewrite Elz, El|].
      exists (Switch :: Preempt :: es), y', u. cbn [urun]. rewrite E, Ez, El', Ex', Elz, Exz, El, Ex. rewrite El', Elz, El in H. destruct H as (? & ? & ? & ?). by split_and!.
Qed.

Lemma reach_thread x t : uinv n x → cur_ok x → runnable x t → is_Some (u_loc x !! t) →
  ∃ es y u, urun es x = Some y ∧ u_loc y = u_loc x ∧ u_exit y = u_exit x ∧ uinv n y ∧ cur_ok y ∧
    current (sched (sy_world (u_sys y))) = Some u ∧ is_Some (u_loc y !! u).
Proof.
  intros U C Hr Ht. unfold runnable, cur_list in Hr. destruct (current (sched (sy_world (u_sys x)))) as [a|] eqn:Hc; cbn in Hr.
  - destruct (u_loc x !! a) as [l|] eqn:Ha; [exists [], x, a; rewrite Ha; split_and!; done || by eexists|].
    apply elem_of_cons in Hr as [->|Hr]; [by destruct Ht; congruence|]. apply list_elem_of_split in Hr as (q1 & q2 & Hq).
    assert (∃ z, uexec Preempt x = Some (Done z) ∧ u_loc z = u_loc x ∧ u_exit z = u_exit x ∧ current (sched (sy_world (u_sys z))) = None ∧
      ready_queue (sched (sy_world (u_sys z))) = q1 ++ t :: (q2 ++ [a])) as (z & Ez & Elz & Exz & Hcz & Hqz).
    { destruct (ui_only n x U a Ha) as [Hk _]. destruct x as [[w c ins] m ls ex]. cbn in Hc, Hq, Hk. cbn [uexec].
      unfold suspend_current. cbn [take_current_task]. rewrite Hc, Hk. cbn. eexists. split; [done|]. cbn. rewrite Hq. by rewrite <- app_assoc. }
    destruct (run_queue q1 z t (q2 ++ [a])) as (es & y & u & R & El & Ex & H); [exact (uinv_event x _ z U Ez)|exact (cur_ok_step x _ z U C Ez)|done|done|by rewrite Elz|].
    exists (Preempt :: es), y, u. cbn [urun]. rewrite Ez, El, Ex, Elz, Exz. rewrite El, Elz in H. destruct H as (? & ? & ? & ?). by split_and!.
  - apply list_elem_of_split in Hr as (q1 & q2 & Hq). by apply (run_queue q1 x t q2).
Qed.

#[export] Instance runnable_dec x t : Decision (runnable x t).
Proof. unfold runnable. apply _. Defined.

(** A program that does not get stuck can always be run to its end. *)
Lemma can_finish x : uinv n x → cur_ok x →
  (∀ y, ureach x y → (∀ t i, sy_cont (u_sys y) !! t ≠ Some (CLock i)) ∧ (stuck y → finished y) ∧ ∀ e p, uexec e y ≠ Some (Panicked p)) →
  ∃ es y, urun es x = Some y ∧ finished y.
Proof.
  remember (Z.to_nat (total x)) as k eqn:Ek. revert x Ek. induction k as [k IH] using lt_wf_ind. intros x -> U C H.
  destruct (decide (finished x)) as [F|F]; [by exists [], x|].
  destruct (decide (map_Exists (λ t _, runnable x t) (u_loc x))) as [(t & l & Hl & Hr)|Hn].
  - destruct (reach_thread x t U C Hr) as (es & y & u & R & El & Ex & U' & C' & Hc & [k Hu]); [by eexists|].
    pose proof (urun_reach _ _ _ R) as Ry. destruct (H y Ry) as (Hcl & _ & Hp).
    assert (Hk : sy_cont (u_sys y) !! u = None) by (destruct (C' u Hc) as [?|[i Hi]]; [done|by destruct (Hcl u i)]).
    assert (∃ z, uexec Go y = Some (Done z)) as [z Ez].
    { assert (∃ o, uexec Go y = Some o) as [o Eo].
      { destruct y as [[w c ins] m ls ex]. cbn in Hc, Hu, Hk. cbn [uexec]. rewrite Hc, Hk, Hu. by eexists. }
      destruct o as [z|p]; [by exists z|]. by destruct (Hp Go p). }
    destruct (total_step y Go z U' Hcl Ez) as [Hlt _].
    assert (Et : total y = total x) by (unfold total; by rewrite El, Ex). pose proof (total_nonneg z).
    assert (Rz : ureach x z) by (eapply rtc_r; [exact Ry|by exists Go]).
    destruct (IH (Z.to_nat (total z))) with (x := z) as (es' & v & Rv & Fv); [lia|done|exact (uinv_event y _ z U' Ez)|exact (cur_ok_step y _ z U' C' Ez)| |].
    + intros v Hv. apply H. by transitivity z.
    + exists (es ++ Go :: es'), v. split; [|done]. eapply urun_app; [exact R|]. cbn [urun]. by rewrite Ez.
  - exfalso. apply F. apply (H x); [apply rtc_refl|]. intros t [l Hl] Hr. apply Hn. by exists t, l.
Qed.

(** However the threads are preempted, they act at most as often as the measure says. *)
Lemma go_bound x es y : uinv n x → (∀ y, ureach x y → ∀ t i, sy_cont (u_sys y) !! t ≠ Some (CLock i)) → urun es x = Some y →
  zlen (filter (.= Go) es) + total y ≤ total x.
Proof.
  revert x. induction es as [|e es IH]; intros x U H R; cbn [urun] in R; [injection R as ->; cbn; unfold zlen; cbn; lia|].
  destruct (uexec e x) as [[z|]|] eqn:E; [|done..].
  destruct (total_step x e z U (H x (rtc_refl _ _)) E) as [Hz _].
  specialize (IH z (uinv_event x e z U E)). assert (Hzr : ∀ y, ureach z y → ureach x y) by (intros v Hv; eapply rtc_l; [by exists e|done]).
  specialize (IH (λ v Hv, H v (Hzr v Hv)) R). unfold zlen in *. destruct e; [rewrite filter_cons_True by done; cbn; lia|rewrite filter_cons_False by done; lia..].
Qed.

End threads.
Arguments action : clear implicits.
Arguments UState : clear implicits.

(** Without preemption: go on, or else take the next thread. *)
Fixpoint greedy {M L} (next : M → L → action M L) (fuel : nat) (x : UState M L) : UState M L :=
  match fuel with
  | O => x
  | S fuel =>
      match uexec next Go x with
      | Some (Done y) => greedy next fuel y
      | _ => match uexec next Switch x with Some (Done y) => greedy next fuel y | _ => x end
      end
  end.

Lemma greedy_reach {M L} (next : M → L → action M L) fuel : ∀ x, ureach next x (greedy next fuel x).
Proof.
  induction fuel as [|fuel IH]; intros x; cbn [greedy]; [apply rtc_refl|].
  destruct (uexec next Go x) as [[y|]|] eqn:E; [eapply rtc_l; [by exists Go|apply IH]|..];
    (destruct (uexec next Switch x) as [[y|]|] eqn:E'; [eapply rtc_l; [by exists Switch|apply IH]|apply rtc_refl..]).
Qed.

(** ** The start

    [main] creates the objects, one after the other, and then the threads. *)

Definition create (s : Sched) (kinds : list bool) (counts : list Z) (conds : nat) : World :=
  let w := foldl (λ w b, snd (sys_mutex_create w b)) (mkWorld s [] [] []) kinds in
  let w := foldl (λ w r, snd (sys_semaphore_create w r)) w counts in
  Nat.iter conds (λ w, snd (sys_condvar_create w)) w.

Lemma slot_insert_app {X} (l : list X) (x : X) : slot_insert (Some <$> l) x = (zlen l, Some <$> (l ++ [x])).
Proof.
  unfold slot_insert. replace (find_index _ (Some <$> l)) with (@None nat).
  - rewrite length_fmap, fmap_app. done.
  - symmetry. apply find_index_None. intros o (y & -> & _)%list_elem_of_fmap. done.
Qed.

(** The objects get the ids that [main] asserts: their positions. *)
Lemma create_lists s kinds counts conds :
  create s kinds counts conds = mkWorld s
    (Some <$> ((λ b : bool, if b then MutexBlocking_new else MutexSpin_new) <$> kinds))
    (Some <$> (Semaphore_new <$> counts)) (Some <$> replicate conds []).
Proof.
  assert (H1 : foldl (λ w b, snd (sys_mutex_create w b)) (mkWorld s [] [] []) kinds =
    mkWorld s (Some <$> ((λ b : bool, if b then MutexBlocking_new else MutexSpin_new) <$> kinds)) [] []).
  { induction kinds as [|b kinds IH] using rev_ind; [done|]. rewrite foldl_app, IH. cbn [foldl]. unfold sys_mutex_create. cbn [mutex_list].
    rewrite slot_insert_app. cbn. rewrite !fmap_app. by destruct b. }
  assert (H2 : ∀ m, foldl (λ w r, snd (sys_semaphore_create w r)) (mkWorld s m [] []) counts = mkWorld s m (Some <$> (Semaphore_new <$> counts)) []).
  { intros m. induction counts as [|r counts IH] using rev_ind; [done|]. rewrite foldl_app, IH. cbn [foldl]. unfold sys_semaphore_create. cbn [semaphore_list].
    rewrite slot_insert_app. cbn. by rewrite !fmap_app. }
  unfold create. rewrite H1, H2. induction conds as [|c IH]; [done|]. rewrite replicate_S_end. cbn [Nat.iter nat_rect]. change (nat_rect _ _ _ c) with
    (Nat.iter c (λ w, snd (sys_condvar_create w)) (mkWorld s (Some <$> ((λ b : bool, if b then MutexBlocking_new else MutexSpin_new) <$> kinds)) (Some <$> (Semaphore_new <$> counts)) [])).
  rewrite IH. unfold sys_condvar_create. cbn [condvar_list]. by rewrite slot_insert_app.
Qed.

Lemma create_reachable s kinds counts conds : sched_inv s [] → reachable (mkSys (create s kinds counts conds) ∅ ∅).
Proof.
  intros I. unfold create. induction conds as [|c IH]; [|eapply reach_step; [exact IH|apply st_condvar_create]]. cbn.
  induction counts as [|r counts IH] using rev_ind; [|rewrite foldl_app; eapply reach_step; [exact IH|apply st_semaphore_create]]. cbn.
  induction kinds as [|b kinds IH] using rev_ind; [|rewrite foldl_app; eapply reach_step; [exact IH|apply st_mutex_create]].
  by apply reach_init.
Qed.

Definition begin {M L} (s : Sched) (kinds : list bool) (counts : list Z) (conds : nat) (m : M) (ls : gmap nat L) : UState M L :=
  mkU (mkSys (create s kinds counts conds) ∅ ∅) m ls ∅.

Lemma present_fmap {X} (l : list X) : present (Some <$> l) (length l).
Proof. split; [by rewrite length_fmap|]. apply Forall_fmap, Forall_true. by eexists. Qed.

Section start.
Context {M L : Type} (next : M → L → action M L) `{D : !@Discipline L}.

Lemma uinv_begin s kinds m ls : sched_inv s [] → mutexes = length kinds → fits (size ls) → 0 ≤ net_max →
  (∀ t l, ls !! t = Some l → t ∈ dom (task_status s) ∧ ok l ∧ holding l = ∅ ∧ ∀ i, net i l = 0) →
  uinv next (size ls) (begin s kinds res condvars m ls).
Proof.
  intros I Hm Hf Hx Hl. pose proof (reachable_inv _ (create_reachable s kinds res condvars I)) as S. unfold begin.
  split; cbn [u_sys u_loc u_exit sy_world sy_cont sy_in]; try done; rewrite ?create_lists; cbn [mutex_list semaphore_list condvar_list sched].
  - intros t l Ht. destruct (Hl t l Ht) as (_ & Hok & Hh & _). split; [done|]. unfold thread_ok. rewrite Hh, lookup_empty. set_solver.
  - rewrite Hm. rewrite <- (length_fmap (λ b : bool, if b then MutexBlocking_new else MutexSpin_new) kinds). apply present_fmap.
  - rewrite <- (length_fmap Semaphore_new res). apply present_fmap.
  - intros i mm r Hi Hr. rewrite !list_lookup_fmap, Hr in Hi. injection Hi as <-. destruct (Hf i r Hr). unfold Semaphore_new, sem_ok.
    cbn [count sem_queue]. rewrite signed_small by lia. rewrite (msum_ext _ (λ _ _, 0)), msum_const by (intros t l Ht; by apply (Hl t l)).
    split; [lia|]. split; [unfold zlen; cbn; lia|]. by intros t ?%not_elem_of_nil.
  - rewrite <- (length_replicate condvars (@nil nat)) at 2. apply present_fmap.
  - intros j q t Hq Ht. rewrite list_lookup_fmap in Hq. destruct (replicate condvars [] !! j) as [q'|] eqn:E; [|done].
    injection Hq as ->. apply lookup_replicate in E as [-> _]. by apply not_elem_of_nil in Ht.
  - intros t l Ht. split; [|done]. split; [done|]. intros _. by apply (Hl t l).
Qed.

End start.

(** Five tasks that are ready. *)
Definition five_tasks : Sched := mkSched (list_to_map ((λ t, (t, Ready)) <$> seq 1 5)) (seq 1 5) None.

Lemma five_tasks_inv : sched_inv five_tasks [].
Proof.
  assert (Hd : dom (task_status five_tasks) = list_to_set (seq 1 5)) by by vm_compute.
  split.
  - apply (bool_decide_unpack _). by vm_compute.
  - intros t. rewrite Hd, elem_of_list_to_set. by rewrite app_nil_r.
  - done.
  - intros t Ht. apply (proj1 (Forall_forall (λ t, task_status five_tasks !! t = Some Ready) (seq 1 5))); [|done].
    apply (bool_decide_unpack _). by vm_compute.
  - by intros t ?%not_elem_of_nil.
Qed.
