(* ===== verification/Adders.v ===== *)
(** * Adders.v: threads that count in a shared variable under a lock
    ([user/src/bin/adder*.rs])

    The six programs differ in [lock] and [unlock] only: a class says what a lock is, one
    development proves the counter right for every lock that excludes, and each program's lock is
    an instance.  The kernel's mutexes and the compare-and-swap lock exclude; the test-and-set lock
    and Peterson's lock as it is written here do not. *)

From S2P Require Import Prelude Sched Sync UserThreads.

(** ** The program *)

(** A lock over the memory [LM]: where a call of [lock(id)] starts, its actions ([None]: it
    returns), and [unlock(id)]. *)
Class Lock (LM PC : Type) : Type := {
  lock_entry : nat → PC;
  lock_step : LM → PC → action LM (option PC);
  unlock_step : nat → LM → action LM unit;
}.

(** An action on a part of the memory. *)
Definition lift_action {M M' L L'} (f : M → M') (g : L → L') (a : action M L) : action M' L' :=
  match a with
  | AUser m l => AUser (f m) (g l)
  | ALock i l => ALock i (g l) | AUnlock i l => AUnlock i (g l)
  | AUp i l => AUp i (g l) | ADown i l => ADown i (g l)
  | ASignal c l => ASignal c (g l) | ASignalAll c l => ASignalAll c (g l) | AWait c i l => AWait c i (g l)
  | AYield l => AYield (g l)
  | AExit code => AExit code
  | APanic p => APanic p
  end.

Section adder.
Context {LM PC : Type} `{!Lock LM PC}.
Context (per_thread : nat).

(** The statics: [A], and those of the lock. *)
Record mem : Type := mkMem { var_A : Z; lock_mem : LM }.

(** Where a thread is: in [lock], before and after it has read [A], about to unlock, past the loop. *)
Inductive pc : Type :=
| InLock (p : PC)
| ToRead
| ToWrite (cur : Z)
| ToUnlock
| ToExit.

(** [id] is the thread's argument, [todo] the rounds of [for _ in 0..PER_THREAD] that are left,
    this one included. *)
Record local : Type := mkLocal { th_id : nat; todo : nat; th_t : Z; th_pc : pc }.

Definition square (t : Z) : Z := u64 (t * t) mod 10007.

Definition squarings : Z → Z := Nat.iter 500 square.
#[local] Opaque squarings.

(** The head of the loop. *)
Definition round (id todo : nat) (t : Z) : local :=
  mkLocal id todo t match todo with O => ToExit | S _ => InLock (lock_entry id) end.

Definition f_start (id : nat) : local := round id per_thread 2.

(** The loop of 500 squarings touches [t] only and is one action with the read before it. *)
Definition f_next (m : mem) (l : local) : action mem local :=
  let 'mkLocal id k t p := l in
  match p with
  | InLock q => lift_action (mkMem (var_A m)) (λ o, mkLocal id k t match o with Some q => InLock q | None => ToRead end) (lock_step (lock_mem m) q)
  | ToRead => AUser m (mkLocal id k (squarings t) (ToWrite (var_A m)))
  | ToWrite cur => AUser (mkMem (u64 (cur + 1)) (lock_mem m)) (mkLocal id k t ToUnlock)
  | ToUnlock => lift_action (mkMem (var_A m)) (λ _, round id (pred k) t) (unlock_step id (lock_mem m))
  | ToExit => AExit (i32 t)
  end.

Definition critical (l : local) : bool := match th_pc l with ToRead | ToWrite _ | ToUnlock => true | _ => false end.

(** Nobody is in the critical section with another one. *)
Definition exclusive (x : UState mem local) : Prop :=
  ∀ t1 t2 l1 l2, u_loc x !! t1 = Some l1 → u_loc x !! t2 = Some l2 → critical l1 = true → critical l2 = true →
    sy_cont (u_sys x) !! t1 = None → sy_cont (u_sys x) !! t2 = None → t1 = t2.

(** *** The counter *)

(** The rounds whose write is done. *)
Definition written (l : local) : Z :=
  Z.of_nat (per_thread - todo l) + match th_pc l with ToUnlock => 1 | _ => 0 end.

Record counter_inv (x : UState mem local) : Prop := {
  ci_sum : var_A (u_mem x) = u64 (msum (λ _, written) (u_loc x));
  ci_read : ∀ t l cur, u_loc x !! t = Some l → th_pc l = ToWrite cur → cur = var_A (u_mem x) ∧ sy_cont (u_sys x) !! t = None;
  ci_unlock : ∀ t l, u_loc x !! t = Some l → th_pc l = ToUnlock → sy_cont (u_sys x) !! t = None;
  ci_todo : ∀ t l, u_loc x !! t = Some l → (todo l ≤ per_thread)%nat ∧ (th_pc l = ToExit ↔ todo l = O);
}.

Lemma round_written id k t : (k ≤ per_thread)%nat → written (round id k t) = Z.of_nat (per_thread - k) ∧
  todo (round id k t) = k ∧ (th_pc (round id k t) = ToExit ↔ k = O) ∧ critical (round id k t) = false.
Proof. intros Hk. unfold written, critical. destruct k; cbn; split; try lia; naive_solver. Qed.

(** One thread moves from [l] to [l'], and writes [A] if it is at [ToWrite]. *)
Lemma counter_move x y t l l' : exclusive x → counter_inv x → u_loc x !! t = Some l → sy_cont (u_sys x) !! t = None →
  u_loc y = <[t := l']> (u_loc x) → (∀ u, u ≠ t → sy_cont (u_sys y) !! u = sy_cont (u_sys x) !! u) →
  match th_pc l with
  | ToWrite cur => var_A (u_mem y) = u64 (cur + 1) ∧ written l' = written l + 1
  | _ => var_A (u_mem y) = var_A (u_mem x) ∧ written l' = written l
  end →
  (todo l' ≤ per_thread)%nat ∧ (th_pc l' = ToExit ↔ todo l' = O) →
  match th_pc l' with
  | ToWrite cur => cur = var_A (u_mem y) ∧ sy_cont (u_sys y) !! t = None
  | ToUnlock => sy_cont (u_sys y) !! t = None
  | _ => True
  end → counter_inv y.
Proof.
  intros X [Hs Hr Hu Ht] Hl Hk El Hcont Hw Htodo Hpc. split; rewrite ?El.
  - rewrite (msum_insert _ _ _ _ _ Hl). destruct (th_pc l) as [| |cur| |] eqn:Ep; destruct Hw as [-> ->]; rewrite ?Hs; try (f_equal; lia).
    destruct (Hr t l cur Hl Ep) as [-> _]. rewrite Hs. unfold wrap. rewrite Zplus_mod_idemp_l. f_equal. lia.
  - intros u k cur Hk' Ek. destruct (decide (u = t)) as [->|Hne].
    + rewrite lookup_insert_eq in Hk'. injection Hk' as ->. by rewrite Ek in Hpc.
    + rewrite lookup_insert_ne in Hk' by done. rewrite Hcont by done. destruct (Hr u k cur Hk' Ek) as [-> Hnone]. split; [|done].
      destruct (th_pc l) as [| |cur'| |] eqn:Ep; destruct Hw as [-> _]; try done. destruct Hne.
      apply (X u t k l); auto; unfold critical; [by rewrite Ek|by rewrite Ep].
  - intros u k Hk' Ek. destruct (decide (u = t)) as [->|Hne].
    + rewrite lookup_insert_eq in Hk'. injection Hk' as ->. by rewrite Ek in Hpc.
    + rewrite lookup_insert_ne in Hk' by done. rewrite Hcont by done. by apply (Hu u k).
  - intros u k Hk'. destruct (decide (u = t)) as [->|Hne].
    + rewrite lookup_insert_eq in Hk'. injection Hk' as <-. done.
    + rewrite lookup_insert_ne in Hk' by done. by apply (Ht u k).
Qed.

Lemma counter_step x e y : exclusive x → counter_inv x → uexec f_next e x = Some (Done y) → counter_inv y.
Proof.
  intros X J E. apply uexec_inv in E as [(t & l & Hc & Hl & Hk & _ & Hcall & Em & El & _)|(Em & El & _ & _ & Hcont)].
  - pose proof (kcall_cont _ _ _ _ Hcall) as Hcont. destruct (ci_todo x J t l Hl) as [Hk1 Hk2].
    apply (counter_move x y t l _ X J Hl Hk El Hcont); destruct l as [id k v p]; cbn [th_pc todo] in *; rewrite ?Em; destruct p as [q| |cur| |]; cbn [f_next].
    + unfold written. destruct (lock_step _ q) as [? [?|]|? [?|]|? [?|]|? [?|]|? [?|]|? [?|]|? [?|]|? ? [?|]|[?|]| |]; cbn; (split; [done|]); lia.
    + done.
    + cbn. unfold written. cbn. split; [done|lia].
    + assert (k ≠ O) by naive_solver. destruct (round_written id (pred k) v) as [Hr _]; [lia|].
      destruct (unlock_step id _); cbn [lift_action mem_after loc_after var_A]; rewrite ?Hr; unfold written; cbn; (split; [done|]); lia.
    + done.
    + destruct (lock_step _ q) as [? [?|]|? [?|]|? [?|]|? [?|]|? [?|]|? [?|]|? [?|]|? ? [?|]|[?|]| |]; cbn; (split; [done|]); naive_solver.
    + cbn. split; [done|]. naive_solver.
    + cbn. split; [done|]. naive_solver.
    + destruct (round_written id (pred k) v) as (_ & Hr1 & Hr2 & _); [lia|].
      destruct (unlock_step id _); cbn [lift_action loc_after]; rewrite ?Hr1, ?Hr2; cbn [todo th_pc]; (split; [lia|]); naive_solver.
    + done.
    + destruct (lock_step _ q) as [? [?|]|? [?|]|? [?|]|? [?|]|? [?|]|? [?|]|? [?|]|? ? [?|]|[?|]| |]; done.
    + destruct (u_sys x) as [w c ins]. injection Hcall as Hy. cbn in *. by rewrite <- Hy.
    + destruct (u_sys x) as [w c ins]. injection Hcall as Hy. cbn in *. by rewrite <- Hy.
    + destruct (unlock_step id _) eqn:Eu; cbn [lift_action loc_after]; unfold round; try (by destruct (pred k)); cbn.
      * cbn [f_next] in Hcall. rewrite Eu in Hcall. by rewrite (kcall_exit _ _ _ _ Hcall).
      * cbn [f_next] in Hcall. rewrite Eu in Hcall. by destruct (u_sys x).
    + done.
  - split; rewrite ?Em, ?El; [apply J| |intros t l Hl Ep|apply J].
    + intros t l cur Hl Ep. destruct (ci_read x J t l cur Hl Ep) as [-> Hn]. split; [done|].
      destruct Hcont as [(u & i & _ & _ & Hu & Hcont)|[_ Hcont]]; [rewrite Hcont by congruence; done|]. destruct (Hcont t) as [->|]; done.
    + pose proof (ci_unlock x J t l Hl Ep) as Hn.
      destruct Hcont as [(u & i & _ & _ & Hu & Hcont)|[_ Hcont]]; [rewrite Hcont by congruence; done|]. destruct (Hcont t) as [->|]; done.
Qed.

(** *** The program's discipline *)

(** The lock is the kernel's mutex 0 ([kernel]), or the program's own instructions. *)
Class LockDiscipline (kernel : bool) : Prop := {
  lock_ok m q : match lock_step m q with
    | ALock O None => kernel = true
    | AUser _ (Some _) | AYield (Some _) | APanic _ => True
    | AUser _ None | AYield None => kernel = false
    | _ => False
    end;
  unlock_ok id m : match unlock_step id m with AUnlock O _ => kernel = true | AUser _ _ => kernel = false | _ => False end;
}.

Context (kernel : bool) `{!LockDiscipline kernel}.

#[export] Instance adder_discipline : @Discipline local := {|
  ok _ := True;
  holding l := if kernel && critical l then {[O]} else ∅;
  net _ _ := 0;
  asleep _ := None;
  mutexes := if kernel then 1%nat else O;
  res := [];
  condvars := O;
  net_max := 0;
|}.

#[export] Instance adder_disciplined : @Disciplined mem local f_next adder_discipline.
Proof.
  split.
  - intros m [id k t p] _. unfold action_ok, keeps. cbn [holding net ok adder_discipline mutexes condvars]. destruct p as [q| |cur| |]; cbn [f_next].
    + pose proof (lock_ok (lock_mem m) q) as H. destruct (lock_step _ q) as [? [?|]|[|?] [?|]|? [?|]|? [?|]|? [?|]|? [?|]|? [?|]|? ? [?|]|[?|]| |]; try done; cbn; rewrite ?H; cbn;
        rewrite ?andb_false_r; repeat split; try done; try lia; set_solver.
    + cbn. by rewrite andb_true_r.
    + cbn. by rewrite andb_true_r.
    + pose proof (unlock_ok id (lock_mem m)) as H. assert (Hc : ∀ k, critical (round id k t) = false) by (by intros []).
      destruct (unlock_step id _) as [?|?|[|?]|?|?|?|?|?|?| |]; try done; cbn [lift_action]; rewrite H, ?Hc; cbn; repeat split; try done; try lia; set_solver.
    + done.
  - done.
  - intros i l _. cbn. destruct kernel; [|set_solver]. destruct (critical l); cbn; [|set_solver]. intros ->%elem_of_singleton. lia.
Qed.

Lemma adder_fits n : @fits _ adder_discipline n.
Proof. by intros i r Hr. Qed.

(** *** All runs *)

(** [main]: the mutex, if any, and the threads with their arguments. *)
Definition start (s : Sched) (blocking : bool) (lm : LM) (ids : gmap nat nat) : UState mem local :=
  begin s (if kernel then [blocking] else []) [] 0 (mkMem 0 lm) (f_start <$> ids).

Lemma start_inv s b lm ids : sched_inv s [] → (∀ t, is_Some (ids !! t) → t ∈ dom (task_status s)) →
  uinv f_next (size ids) (start s b lm ids) ∧ counter_inv (start s b lm ids).
Proof.
  intros I Hids. split.
  - rewrite <- (map_size_fmap f_start ids). unfold start. apply (uinv_begin f_next (D := adder_discipline)); cbn; [done|by destruct kernel| |done|].
    + by intros i r Hr.
    + intros t l Hl. rewrite lookup_fmap in Hl. destruct (ids !! t) as [id|] eqn:Hid; [|done]. injection Hl as <-.
      split; [apply Hids; by eexists|]. split; [done|]. unfold f_start. destruct (round_written id per_thread 2) as (_ & _ & _ & ->); [lia|].
      by rewrite andb_false_r.
  - assert (Hl : ∀ t l, (f_start <$> ids) !! t = Some l → ∃ id, l = round id per_thread 2).
    { intros t l H. rewrite lookup_fmap in H. destruct (ids !! t) as [id|]; [|done]. injection H as <-. by exists id. }
    split; cbn [start begin u_mem u_loc u_sys sy_cont var_A].
    + rewrite (msum_ext _ (λ _ _, 0)), msum_const; [done|]. intros t l H. destruct (Hl t l H) as [id ->].
      destruct (round_written id per_thread 2) as [-> _]; [lia|]. lia.
    + intros t l cur H Ep. destruct (Hl t l H) as [id ->]. unfold round in Ep. by destruct per_thread.
    + intros t l H Ep. destruct (Hl t l H) as [id ->]. unfold round in Ep. by destruct per_thread.
    + intros t l H. destruct (Hl t l H) as [id ->]. destruct (round_written id per_thread 2) as (_ & -> & ? & _); [lia|]. split; [lia|done].
Qed.

(** When all have ended under a lock that excludes, [A] counts every round. *)
Lemma counter_total s b lm ids y : sched_inv s [] → (∀ t, is_Some (ids !! t) → t ∈ dom (task_status s)) →
  (∀ y, ureach f_next (start s b lm ids) y → exclusive y) → ureach f_next (start s b lm ids) y → finished y →
  var_A (u_mem y) = u64 (Z.of_nat per_thread * Z.of_nat (size ids)).
Proof.
  intros I Hids Hex R F. destruct (start_inv s b lm ids I Hids) as [U J].
  assert (Hfits : @fits _ adder_discipline (size ids)) by by intros i r Hr.
  assert (U' : uinv f_next (size ids) y) by (by eapply ureach_inv; eauto using adder_disciplined).
  assert (J' : counter_inv y).
  { clear U U' F. revert Hex J. induction R as [x|x z y [e He] R IH]; intros Hex J; [done|].
    apply IH; [|eapply counter_step; [apply Hex, rtc_refl|done|done]]. intros y' R'. apply Hex. eapply rtc_l; [by exists e|done]. }
  rewrite (ci_sum _ J'), <- (ui_size _ _ _ U'), <- msum_const. f_equal. apply msum_ext. intros t l Hl.
  destruct (proj1 (elem_of_dom (u_exit y) t)) as [code Hc]; [by apply F, elem_of_dom_2 with l|]. destruct (ui_exit _ _ _ U' t l Hl) as [_ H]. destruct (H code Hc) as [m Ha].
  assert (th_pc l = ToExit) as Ep.
  { destruct l as [id k v p]. destruct p as [q| |cur| |]; cbn in *; try done.
    - pose proof (lock_ok (lock_mem m) q) as Hq. by destruct (lock_step _ q).
    - pose proof (unlock_ok id (lock_mem m)) as Hq. by destruct (unlock_step id _). }
  unfold written. rewrite Ep. apply (ci_todo _ J' t l Hl) in Ep as ->. lia.
Qed.

Lemma exit_not_critical m l code : f_next m l = AExit code → critical l = false.
Proof.
  destruct l as [id k v p]. destruct p as [q| |cur| |]; cbn; try done.
  pose proof (unlock_ok id (lock_mem m)) as Hq. by destruct (unlock_step id _).
Qed.

(** Somebody can always go on until all have ended. *)
Lemma adder_no_deadlock n x : uinv f_next n x → stuck x → finished x.
Proof.
  intros U Hst. pose proof (ui_sys _ _ _ U) as S.
  assert (Hq : ∀ t l, u_loc x !! t = Some l → u_exit x !! t = None → ∃ i, t ∈ mutex_queue (obj_at (sy_world (u_sys x)) i) ∧
    sy_cont (u_sys x) !! t = Some (CLocked i)).
  { intros t l Hl He. destruct (uinv_idle f_next n x t l U) as [[i Hi]|[(i & _ & Hi)|(j & q & Hj & _)]]; [by apply Hst|done|done| | |].
    - exists i. split; [done|]. by apply (sy_mutex _ S i).
    - cbn in Hi. lia.
    - pose proof (ui_conds _ _ _ U) as [Hn _]. cbn in Hn. apply lookup_lt_Some in Hj. lia. }
  assert (Hh : ∀ t l i, u_loc x !! t = Some l → i ∈ holding l → i = O ∧ u_exit x !! t = None).
  { intros t l i Hl Hi. cbn in Hi. destruct (kernel && critical l) eqn:Ecr; [|set_solver]. apply andb_true_iff in Ecr as [_ Ecr].
    split; [set_solver|]. destruct (u_exit x !! t) as [code|] eqn:He; [|done]. destruct (ui_exit _ _ _ U t l Hl) as [_ H].
    destruct (H code He) as [m Ha]. apply exit_not_critical in Ha. congruence. }
  intros t [l Hl]%elem_of_dom. apply elem_of_dom. destruct (u_exit x !! t) as [code|] eqn:He; [by eexists|exfalso].
  destruct (Hq t l Hl He) as (i & Hi & Hk). destruct (ui_thread _ _ _ U t l Hl) as [_ [Ht _]].
  destruct (proj2 (proj2 (proj2 (sys_exclusive _ i S))) t Hi) as [_ (o & [[Hne Ho]|Hin])]; [|apply Ht in Hin; naive_solver].
  destruct (u_loc x !! o) as [lo|] eqn:Hlo; [|destruct (ui_only _ _ _ U o Hlo) as [H1 H2]; destruct Ho as [Ho|[Ho _]]; [by apply (H2 i)|congruence]].
  destruct (ui_thread _ _ _ U o lo Hlo) as [_ [Hto1 Hto2]].
  assert (Hio : i ∈ holding lo) by (destruct Ho as [Ho|[Ho _]]; [exact (proj1 (proj1 (Hto1 i) Ho))|apply Hto2; auto]).
  destruct (Hh o lo i Hlo Hio) as [-> Heo]. destruct (Hq o lo Hlo Heo) as (j & Hj & Hkj).
  pose proof (proj1 (Hh o lo j Hlo (Hto2 j (or_intror Hkj)))) as Ej. subst j. destruct Ho as [Ho|[_ Ho]]; [apply Hto1 in Ho; naive_solver|done].
Qed.

(** No event panics, when the lock's instructions do not. *)
Lemma adder_no_panic n x e p : (∀ m q, lock_step m q ≠ APanic p) → uinv f_next n x → uexec f_next e x ≠ Some (Panicked p).
Proof.
  intros Hp U E. destruct (uinv_no_panic f_next n _ x e p U E) as (t & l & _ & _ & Ha). destruct l as [id k v p0].
  destruct p0 as [q| |cur| |]; cbn in Ha; try done.
  - specialize (Hp (lock_mem (u_mem x)) q). destruct (lock_step _ q); try done. cbn in Ha. congruence.
  - pose proof (unlock_ok id (lock_mem (u_mem x))) as H. by destruct (unlock_step id _).
Qed.

End adder.

(** ** The locks *)

(** *** The kernel's mutex, spin or blocking ([adder_mutex_spin.rs], [adder_mutex_blocking.rs]) *)
Module AdderMutex.

#[export] Instance lock : Lock unit unit := {|
  lock_entry _ := tt;
  lock_step _ _ := ALock 0 None;
  unlock_step _ _ := AUnlock 0 tt;
|}.

#[export] Instance lock_discipline : LockDiscipline true.
Proof. by split. Qed.

(** [f]; and [main] up to the creation of its threads, whose tasks are those of [ids]. *)
Definition f : @mem unit → @local unit → action _ _ := f_next.
Definition main_spin (s : Sched) (per_thread : nat) (ids : gmap nat nat) := start per_thread true s false tt ids.
Definition main_blocking (s : Sched) (per_thread : nat) (ids : gmap nat nat) := start per_thread true s true tt ids.
Definition main (blocking : bool) := if blocking then main_blocking else main_spin.

Lemma mutex_exclusive n (x : UState (@mem unit) (@local unit)) : @uinv _ _ f_next (adder_discipline true) n x → exclusive x.
Proof.
  intros U t1 t2 l1 l2 H1 H2 C1 C2 K1 K2.
  apply (uinv_exclusive f_next n (D := adder_discipline true) x 0 t1 t2 l1 l2 U H1 H2); cbn; rewrite ?C1, ?C2; cbn; done || set_solver.
Qed.

End AdderMutex.

(** *** Compare and swap ([adder_atomic.rs]) *)
Module AdderAtomic.

(** [OCCUPIED]; [compare_exchange] and the store are one instruction each. *)
#[export] Instance lock : Lock bool unit := {|
  lock_entry _ := tt;
  lock_step (occupied : bool) _ := if occupied then AYield (Some tt) else AUser true None;
  unlock_step _ _ := AUser false tt;
|}.

#[export] Instance lock_discipline : LockDiscipline false.
Proof. split; [by intros []|done]. Qed.

Definition f : @mem bool → @local unit → action _ _ := f_next.
Definition main (s : Sched) (per_thread : nat) (ids : gmap nat nat) := start per_thread false s false false ids.

(** [OCCUPIED] is set exactly while one thread is in the critical section. *)
Definition occupied_inv (x : UState (@mem bool) (@local unit)) : Prop :=
  if lock_mem (u_mem x) then ∃ t, ∀ u l, u_loc x !! u = Some l → critical l = true → u = t
  else ∀ u l, u_loc x !! u = Some l → critical l = false.

Lemma occupied_step x e y : occupied_inv x → uexec f_next e x = Some (Done y) → occupied_inv y.
Proof.
  intros O E. apply uexec_inv in E as [(t & l & Hc & Hl & Hk & _ & Hcall & Em & El & _)|(Em & El & _)]; [|unfold occupied_inv in *; by rewrite Em, El].
  assert (Hsame : lock_mem (u_mem y) = lock_mem (u_mem x) → (∀ l', u_loc y = <[t := l']> (u_loc x) → critical l' = critical l → occupied_inv y)).
  { intros Elm l' El' Hcr. unfold occupied_inv in *. rewrite Elm, El'. destruct (lock_mem (u_mem x)).
    - destruct O as [v Hv]. exists v. intros u k Hu. destruct (decide (u = t)) as [->|Hne]; [rewrite lookup_insert_eq in Hu; injection Hu as <-; rewrite Hcr; by apply Hv|].
      rewrite lookup_insert_ne in Hu by done. by apply Hv.
    - intros u k Hu. destruct (decide (u = t)) as [->|Hne]; [rewrite lookup_insert_eq in Hu; injection Hu as <-; rewrite Hcr; by eapply O|].
      rewrite lookup_insert_ne in Hu by done. by eapply O. }
  destruct l as [id k v p]. destruct p as [q| |cur| |]; cbn [f_next] in *.
  - destruct (lock_mem (u_mem x)) eqn:Eo; cbn in Em, El.
    + apply (Hsame (eq_trans (f_equal lock_mem Em) Eo) _ El). done.
    + unfold occupied_inv in *. rewrite Em, El. cbn. rewrite Eo in O. exists t. intros u k' Hu Hcr. destruct (decide (u = t)) as [|Hne]; [done|].
      rewrite lookup_insert_ne in Hu by done. rewrite (O u k' Hu) in Hcr. done.
  - apply (Hsame (f_equal lock_mem Em) _ El). done.
  - apply (Hsame (f_equal lock_mem Em) _ El). done.
  - cbn in Em, El. unfold occupied_inv in *. rewrite Em, El. cbn. destruct (lock_mem (u_mem x)); [|by pose proof (O t _ Hl)].
    destruct O as [w Hw]. intros u k' Hu. destruct (decide (u = t)) as [->|Hne].
    + rewrite lookup_insert_eq in Hu. injection Hu as <-. by destruct (pred k).
    + rewrite lookup_insert_ne in Hu by done. apply not_true_is_false. intros Hcr. apply Hne.
      rewrite (Hw u k' Hu Hcr). symmetry. by eapply Hw.
  - apply (Hsame (f_equal lock_mem Em) _ El). done.
Qed.

End AdderAtomic.

(** *** Test, then set ([adder_simple_spin.rs]) *)
Module AdderSimple.

(** [OCCUPIED] is loaded until it is false, and then stored. *)
Inductive pc : Type := Test | Store.

#[export] Instance lock : Lock bool pc := {|
  lock_entry _ := Test;
  lock_step (occupied : bool) (p : pc) :=
    match p with
    | Test => AUser occupied (Some (if occupied then Test else Store))
    | Store => AUser true None
    end;
  unlock_step _ _ := AUser false tt;
|}.

Definition f : @mem bool → @local pc → action _ _ := f_next.
Definition main (s : Sched) (per_thread : nat) (ids : gmap nat nat) := start per_thread false s false false ids.

End AdderSimple.

(** *** Peterson's lock for the threads 0 and 1 ([adder_peterson_spin.rs]) *)
Module AdderPeterson.

Record statics : Type := mkStatics { FLAG : list bool; TURN : nat }.

(** [TURN = j], [FLAG[id] = true], and the two loads of the loop's condition; the delay loop
    between the stores touches no memory. *)
Inductive pc : Type := SetTurn (id : nat) | SetFlag (id : nat) | LoadFlag (id : nat) | LoadTurn (id : nat).

Definition at_flag (s : statics) (i : nat) (k : bool → action statics (option pc)) : action statics (option pc) :=
  match FLAG s !! i with Some b => k b | None => APanic PIndex end.

#[export] Instance lock : Lock statics pc := {|
  lock_entry id := SetTurn id;
  lock_step (s : statics) (p : pc) :=
    match p with
    | SetTurn id => AUser (mkStatics (FLAG s) (1 - id)) (Some (SetFlag id))
    | SetFlag id => at_flag s id (λ _, AUser (mkStatics (<[id := true]> (FLAG s)) (TURN s)) (Some (LoadFlag id)))
    | LoadFlag id => at_flag s (1 - id) (λ b, AUser s (if b then Some (LoadTurn id) else None))
    | LoadTurn id => AUser s (if decide (TURN s = (1 - id)%nat) then Some (LoadFlag id) else None)
    end;
  unlock_step id (s : statics) := match FLAG s !! id with
    | Some _ => AUser (mkStatics (<[id := false]> (FLAG s)) (TURN s)) tt
    | None => APanic PIndex
    end;
|}.

Definition f : @mem statics → @local pc → action _ _ := f_next.
Definition main (s : Sched) (per_thread : nat) (ids : gmap nat nat) :=
  start per_thread false s false (mkStatics [false; false] 0) ids.

End AdderPeterson.

(** *** No lock ([adder.rs]) *)
Module AdderNone.

#[export] Instance lock : Lock unit unit := {|
  lock_entry _ := tt;
  lock_step _ _ := AUser tt None;
  unlock_step _ _ := AUser tt tt;
|}.

Definition f : @mem unit → @local unit → action _ _ := f_next.
Definition main (s : Sched) (per_thread : nat) (ids : gmap nat nat) := start per_thread false s false tt ids.

End AdderNone.

(** ** Properties *)

#[local] Existing Instances AdderMutex.lock AdderMutex.lock_discipline AdderAtomic.lock AdderAtomic.lock_discipline
  AdderSimple.lock AdderPeterson.lock.

Section exclusive_adders.
Context (s : Sched) (per_thread : nat) (ids : gmap nat nat).
Context (Hs : sched_inv s []) (Hids : ∀ t, is_Some (ids !! t) → t ∈ dom (task_status s)).
Context (Hfit : Z.of_nat per_thread * Z.of_nat (size ids) < 2 ^ 64).

(** C21. The adders with the kernel's mutex, spin or blocking, and any number of threads and rounds:
    in every state that any preemption reaches, one thread at most is in its critical section,
    nothing panics, and some thread can go on until all have ended; then [A] is
    [PER_THREAD * thread_count], as [main] asserts. *)
Theorem mutex_adder_correct blocking x :
  ureach AdderMutex.f (AdderMutex.main blocking s per_thread ids) x →
  exclusive x ∧ (∀ e p, uexec AdderMutex.f e x ≠ Some (Panicked p)) ∧
  (stuck x → finished x) ∧
  (finished x → var_A (u_mem x) = Z.of_nat per_thread * Z.of_nat (size ids)).
Proof.
  intros R. replace (AdderMutex.main blocking s per_thread ids) with (start per_thread true s blocking tt ids) in R by by destruct blocking.
  set (go := AdderMutex.f) in *. destruct (start_inv per_thread true s blocking tt ids Hs Hids) as [U _].
  assert (U' : ∀ y, ureach go (start per_thread true s blocking tt ids) y → uinv go (D := adder_discipline true) (size ids) y).
  { intros y Ry. exact (ureach_inv go _ (adder_fits true _) _ _ _ U Ry). }
  split; [by eapply AdderMutex.mutex_exclusive, U'|]. split; [|split].
  - intros e p. by apply (adder_no_panic true (size ids)); [|apply U'].
  - by apply (adder_no_deadlock true (size ids)), U'.
  - intros F. rewrite (counter_total per_thread true s blocking tt ids x Hs Hids); [apply wrap_small; lia| |done|done].
    intros y Ry. by eapply AdderMutex.mutex_exclusive, U'.
Qed.

(** The adder with compare and swap: as with the kernel's mutex. *)
Theorem atomic_adder_correct x :
  ureach AdderAtomic.f (AdderAtomic.main s per_thread ids) x →
  exclusive x ∧ (∀ e p, uexec AdderAtomic.f e x ≠ Some (Panicked p)) ∧
  (stuck x → finished x) ∧
  (finished x → var_A (u_mem x) = Z.of_nat per_thread * Z.of_nat (size ids)).
Proof.
  intros R. set (go := AdderAtomic.f) in *. unfold AdderAtomic.main in *. destruct (start_inv per_thread false s false false ids Hs Hids) as [U _].
  assert (U' : uinv go (D := adder_discipline false) (size ids) x).
  { exact (ureach_inv go _ (adder_fits false _) _ _ _ U R). }
  assert (O : ∀ y, ureach go (start per_thread false s false false ids) y → AdderAtomic.occupied_inv y).
  { assert (O0 : AdderAtomic.occupied_inv (start per_thread false s false false ids)).
    { intros u l Hl. cbn in Hl. rewrite lookup_fmap in Hl. destruct (ids !! u) as [id|]; [|done]. injection Hl as <-. by destruct per_thread. }
    clear U U' R. intros y Ry. revert O0. induction Ry as [|? ? ? [e He] _ IH]; [done|]. intros O0. apply IH. eapply AdderAtomic.occupied_step; [exact O0|exact He]. }
  assert (X : ∀ y, ureach go (start per_thread false s false false ids) y → exclusive y).
  { intros y Ry t1 t2 l1 l2 H1 H2 C1 C2 _ _. specialize (O y Ry). unfold AdderAtomic.occupied_inv in O.
    destruct (lock_mem _); [destruct O as [t Ht]; rewrite (Ht t1 l1 H1 C1); symmetry; by eapply Ht|]. by rewrite (O t1 l1 H1) in C1. }
  split; [by apply X|]. split; [|split].
  - intros e p. apply (adder_no_panic false (size ids)); [by intros []|exact U'].
  - by apply (adder_no_deadlock false (size ids)).
  - intros F. rewrite (counter_total per_thread false s false false ids x Hs Hids); [apply wrap_small; lia|done|done|done].
Qed.

End exclusive_adders.

(** Two threads with the arguments 0 and 1, one round each, on the scheduler with the two tasks. *)
Definition two_ids : gmap nat nat := {[1%nat := O; 2%nat := 1%nat]}.

Lemma two_ids_tasks t : is_Some (two_ids !! t) → t ∈ dom (task_status two_threads).
Proof.
  assert (H : dom two_ids ⊆ dom (task_status two_threads)) by (apply (bool_decide_unpack _); by vm_compute).
  intros Ht%elem_of_dom. by apply H.
Qed.

(** Thread 2 blocks on the mutex that thread 1 has, and gets it. *)
Definition contended : list event := [Go; Go; Preempt; Switch; Go; Switch; Go; Go; Go; Switch; Go; Go; Go; Go].

Lemma mutex_adder_correct_witness : ∃ x, ureach (AdderMutex.f) (AdderMutex.main true two_threads 1 two_ids) x ∧
  var_A (u_mem x) = 2.
Proof.
  destruct (urun (AdderMutex.f) contended (AdderMutex.main true two_threads 1 two_ids)) as [x|] eqn:E;
    [|exfalso; vm_compute in E; discriminate]. apply urun_reach in E as R. exists x. split; [exact R|].
  refine (proj2 (proj2 (proj2 (mutex_adder_correct two_threads 1 two_ids two_threads_inv two_ids_tasks eq_refl true x R))) _).
  apply (bool_decide_unpack _). vm_compute in E. injection E as <-. by vm_compute.
Defined.

Lemma atomic_adder_correct_witness : ∃ x, ureach (AdderAtomic.f) (AdderAtomic.main two_threads 1%nat two_ids) x ∧
  var_A (u_mem x) = 2.
Proof.
  destruct (urun (AdderAtomic.f) [Go; Go; Preempt; Switch; Go; Switch; Go; Go; Go; Switch; Go; Go; Go; Go; Go]
    (AdderAtomic.main two_threads 1%nat two_ids)) as [x|] eqn:E; [|exfalso; vm_compute in E; discriminate].
  apply urun_reach in E as R. exists x. split; [exact R|].
  refine (proj2 (proj2 (proj2 (atomic_adder_correct two_threads 1 two_ids two_threads_inv two_ids_tasks eq_refl x R))) _).
  apply (bool_decide_unpack _). vm_compute in E. injection E as <-. by vm_compute.
Defined.

(** A run of two threads, one round each, that ends with a wrong sum after both were in the critical
    section. *)
Definition loses_update {LM PC} (f : @mem LM → @local PC → action _ _) (main : Sched → nat → gmap nat nat → UState (@mem LM) (@local PC)) : Prop :=
  ∃ x y, ureach f (main two_threads 1%nat two_ids) x ∧ ¬ exclusive x ∧ ureach f x y ∧ finished y ∧ var_A (u_mem y) = 1.

Lemma loses_update_run {LM PC} (f : @mem LM → @local PC → action _ _) main es es' x y l1 l2 :
  urun f es (main two_threads 1%nat two_ids) = Some x → urun f es' x = Some y →
  u_loc x = {[1%nat := l1; 2%nat := l2]} → critical l1 = true → critical l2 = true → sy_cont (u_sys x) = ∅ →
  bool_decide (dom (u_loc y) ⊆ dom (u_exit y)) = true → var_A (u_mem y) = 1 → loses_update f main.
Proof.
  intros R1 R2 El C1 C2 Ec F A. exists x, y. split; [by eapply urun_reach|]. split; [|split; [by eapply urun_reach|]].
  - intros X. specialize (X 1%nat 2%nat l1 l2). rewrite El, Ec in X. by discriminate X.
  - split; [by apply bool_decide_eq_true in F|done].
Qed.

(** Peterson's lock as the program has it, with the store of [TURN] before the store of [FLAG], does
    not exclude: the second thread stores [TURN], then [FLAG], and enters; the first, preempted
    between its two stores, enters too; with one round each [A] ends as 1, and [main]'s assertion
    fails. *)
Theorem peterson_does_not_exclude : loses_update AdderPeterson.f AdderPeterson.main.
Proof.
  eapply (loses_update_run _ _ [Go; Preempt; Switch; Go; Go; Go; Go; Preempt; Switch; Go; Go; Go]
    [Go; Go; Go; Go; Switch; Go; Go; Go]); [vm_compute; reflexivity..|vm_compute; reflexivity].
Qed.

(** The test-and-set lock does not exclude: both threads find [OCCUPIED] clear before either sets it. *)
Theorem test_then_set_does_not_exclude : loses_update AdderSimple.f AdderSimple.main.
Proof.
  eapply (loses_update_run _ _ [Go; Preempt; Switch; Go; Go; Go; Preempt; Switch; Go]
    [Go; Go; Go; Go; Switch; Go; Go; Go]); [vm_compute; reflexivity..|vm_compute; reflexivity].
Qed.

(** Without a lock, two threads that read [A] before either writes it. *)
Theorem no_lock_does_not_exclude : loses_update AdderNone.f AdderNone.main.
Proof.
  eapply (loses_update_run _ _ [Go; Go; Preempt; Switch; Go; Go] [Go; Go; Go; Switch; Go; Go; Go]);
    [vm_compute; reflexivity..|vm_compute; reflexivity].
Qed.
