(* ===== verification/Mpsc.v ===== *)
(** * Mpsc.v: a bounded buffer between producers and a consumer
    ([user/src/bin/mpsc_sem.rs])

    Three semaphores: one excludes, one counts the free slots, one the full ones.  The program runs
    on the kernel's semaphores and scheduler (UserThreads.v); any threads may be preempted between
    any two of their memory accesses. *)

From S2P Require Import Prelude Sched Sync UserThreads.
From Stdlib Require Import Ascii.

(** ** The program *)

Definition SEM_MUTEX : nat := 0.
Definition SEM_PRODUCE : nat := 1.
Definition SEM_CONSUME : nat := 2.
Definition BUFFER_SIZE : Z := 8.
Definition PRODUCER_COUNT : nat := 4.
Definition NUMBER_PER_PRODUCER : nat := 100.
Definition THREAD_CODES : list ascii := ["A"; "B"; "C"; "D"]%char.

(** The statics, and what has been printed. *)
Record mem : Type := mkMem { BUFFER : list ascii; FRONT : Z; TAIL : Z; printed : list ascii }.

Definition mem0 : mem := mkMem (replicate (Z.to_nat BUFFER_SIZE) "X"%char) 0 0 [].

(** A round of a producer: two downs, [BUFFER[TAIL] = ..] (load [TAIL], store), [TAIL = ..] (load,
    store), two ups.  A round of the consumer is the same with [FRONT]. *)
Inductive pc : Type := DownCount | DownMutex | Load | Access (i : Z) | LoadAgain | Advance (i : Z) | UpMutex | UpCount | Exit.

(** [todo]: the rounds that are left, this one included. *)
Inductive local : Type := Producer (id todo : nat) (p : pc) | Consumer (todo : nat) (p : pc).

Definition round (todo : nat) : pc := match todo with O => Exit | S _ => DownCount end.

Definition producer (id : nat) : local := Producer id NUMBER_PER_PRODUCER (round NUMBER_PER_PRODUCER).
Definition consumer : local :=
  Consumer (PRODUCER_COUNT * NUMBER_PER_PRODUCER) (round (PRODUCER_COUNT * NUMBER_PER_PRODUCER)).

Definition at_index {X} (l : list X) (i : Z) (k : X → action mem local) : action mem local :=
  match l !! Z.to_nat i with Some x => k x | None => APanic PIndex end.

Definition next (m : mem) (l : local) : action mem local :=
  match l with
  | Producer id k p =>
      match p with
      | DownCount => ADown SEM_PRODUCE (Producer id k DownMutex)
      | DownMutex => ADown SEM_MUTEX (Producer id k Load)
      | Load => AUser m (Producer id k (Access (TAIL m)))
      | Access i => at_index (BUFFER m) i (λ _, at_index THREAD_CODES (Z.of_nat id) (λ c,
          AUser (mkMem (<[Z.to_nat i := c]> (BUFFER m)) (FRONT m) (TAIL m) (printed m)) (Producer id k LoadAgain)))
      | LoadAgain => AUser m (Producer id k (Advance (TAIL m)))
      | Advance i => AUser (mkMem (BUFFER m) (FRONT m) (u64 (i + 1) mod BUFFER_SIZE) (printed m)) (Producer id k UpMutex)
      | UpMutex => AUp SEM_MUTEX (Producer id k UpCount)
      | UpCount => AUp SEM_CONSUME (Producer id (pred k) (round (pred k)))
      | Exit => AExit 0
      end
  | Consumer k p =>
      match p with
      | DownCount => ADown SEM_CONSUME (Consumer k DownMutex)
      | DownMutex => ADown SEM_MUTEX (Consumer k Load)
      | Load => AUser m (Consumer k (Access (FRONT m)))
      | Access i => at_index (BUFFER m) i (λ c,
          AUser (mkMem (BUFFER m) (FRONT m) (TAIL m) (printed m ++ [c])) (Consumer k LoadAgain))
      | LoadAgain => AUser m (Consumer k (Advance (FRONT m)))
      | Advance i => AUser (mkMem (BUFFER m) (u64 (i + 1) mod BUFFER_SIZE) (TAIL m) (printed m)) (Consumer k UpMutex)
      | UpMutex => AUp SEM_MUTEX (Consumer k UpCount)
      | UpCount => AUp SEM_PRODUCE (Consumer (pred k) (round (pred k)))
      | Exit => AExit 0
      end
  end.

(** [main]: the semaphores, the threads. *)
Definition counts : list Z := [1; BUFFER_SIZE; 0].

Definition start (s : Sched) (p : list nat) (c : nat) : UState mem local :=
  begin s [] counts 0 mem0 (list_to_map (zip (c :: p) (consumer :: (producer <$> seq 0 PRODUCER_COUNT)))).

(** What the program has stored in the buffer in the course of a run, in order. *)
Definition store_of (l : local) : list ascii :=
  match l with Producer id _ (Access _) => match THREAD_CODES !! id with Some c => [c] | None => [] end | _ => [] end.

Definition stores (e : event) (x : UState mem local) : list ascii :=
  match e, current (sched (sy_world (u_sys x))) with
  | Go, Some t => match sy_cont (u_sys x) !! t, u_loc x !! t with None, Some l => store_of l | _, _ => [] end
  | _, _ => []
  end.

Fixpoint history (es : list event) (x : UState mem local) : list ascii :=
  match es with
  | [] => []
  | e :: es => stores e x ++ match uexec next e x with Some (Done y) => history es y | _ => [] end
  end.

(** ** The discipline *)

Definition pc_of (l : local) : pc := match l with Producer _ _ p | Consumer _ p => p end.
Definition todo_of (l : local) : nat := match l with Producer _ k _ | Consumer k _ => k end.

(** The rounds a thread has ended. *)
Definition done_of (l : local) : Z :=
  match l with
  | Producer _ k _ => Z.of_nat (NUMBER_PER_PRODUCER - k)
  | Consumer k _ => Z.of_nat (PRODUCER_COUNT * NUMBER_PER_PRODUCER - k)
  end.

Definition inside (l : local) : Z := match pc_of l with Load | Access _ | LoadAgain | Advance _ | UpMutex => 1 | _ => 0 end.
Definition begun (l : local) : Z := match pc_of l with DownCount | Exit => 0 | _ => 1 end.
Definition accessed (l : local) : Z := match pc_of l with LoadAgain | Advance _ | UpMutex | UpCount => 1 | _ => 0 end.
Definition advanced (l : local) : Z := match pc_of l with UpMutex | UpCount => 1 | _ => 0 end.

Definition is_producer (l : local) : bool := match l with Producer _ _ _ => true | Consumer _ _ => false end.

#[export] Instance mpsc_discipline : @Discipline local := {|
  ok l := match l with
    | Producer id k p => (id < PRODUCER_COUNT)%nat ∧ (k ≤ NUMBER_PER_PRODUCER)%nat ∧ (p = Exit ↔ k = O)
    | Consumer k p => (k ≤ PRODUCER_COUNT * NUMBER_PER_PRODUCER)%nat ∧ (p = Exit ↔ k = O)
    end;
  holding _ := ∅;
  net i l :=
    if decide (i = SEM_MUTEX) then - inside l
    else if decide (i = if is_producer l then SEM_PRODUCE else SEM_CONSUME) then - (done_of l + begun l)
    else if decide (i = if is_producer l then SEM_CONSUME else SEM_PRODUCE) then done_of l
    else 0;
  asleep l :=
    match pc_of l with
    | DownMutex => Some (if is_producer l then SEM_PRODUCE else SEM_CONSUME)
    | Load => Some SEM_MUTEX
    | _ => None
    end;
  mutexes := O;
  res := counts;
  condvars := O;
  net_max := 401;
|}.

Lemma sem_bound i : i ∈ [SEM_MUTEX; SEM_PRODUCE; SEM_CONSUME] → (i < length (@res local mpsc_discipline))%nat.
Proof. rewrite !elem_of_cons. cbn. unfold SEM_MUTEX, SEM_PRODUCE, SEM_CONSUME. intros [->|[->|[->|?%elem_of_nil]]]; lia || done. Qed.

Lemma round_Exit k : round k = Exit ↔ k = O.
Proof. by destruct k. Qed.

#[export] Instance mpsc_disciplined : @Disciplined mem local next mpsc_discipline.
Proof.
  split.
  - intros m l Hok. unfold action_ok, keeps. destruct l as [id k p|k p]; destruct p; cbn [next]; unfold at_index; repeat case_match; try done.
    all: cbn [ok mpsc_discipline] in *; try rewrite round_Exit; split_and?; try (naive_solver lia);
      try by apply sem_bound; rewrite !elem_of_cons; auto.
    all: intros j; cbn [net mpsc_discipline is_producer]; unfold inside, begun, done_of, SEM_MUTEX, SEM_PRODUCE, SEM_CONSUME; cbn [pc_of];
      repeat case_decide; try (destruct k as [|k]; [naive_solver|]; destruct k); cbn [pred round]; lia.
  - intros i l Hok. cbn [net ok mpsc_discipline net_max] in *. unfold inside, begun, done_of. destruct l as [id k p|k p]; cbn [pc_of is_producer];
      unfold NUMBER_PER_PRODUCER, PRODUCER_COUNT in *; repeat case_decide; destruct p; lia.
  - done.
Qed.

(** ** The invariant *)

Definition part (producers : bool) (f : local → Z) (l : local) : Z :=
  if Bool.eqb (is_producer l) producers then done_of l + f l else 0.

(** The characters that have been stored, taken, and passed by [TAIL] and [FRONT]. *)
Definition stored (x : UState mem local) : Z := msum (λ _, part true accessed) (u_loc x).
Definition taken (x : UState mem local) : Z := msum (λ _, part false accessed) (u_loc x).
Definition tails (x : UState mem local) : Z := msum (λ _, part true advanced) (u_loc x).
Definition fronts (x : UState mem local) : Z := msum (λ _, part false advanced) (u_loc x).

Definition by_id (id : nat) (l : local) : Z :=
  match l with Producer i _ _ => if decide (i = id) then done_of l + accessed l else 0 | Consumer _ _ => 0 end.

(** [hist]: all characters stored so far.  What is printed is the first part of it, and the buffer
    holds the rest. *)
Record mpsc_inv (x : UState mem local) (hist : list ascii) : Prop := {
  mi_hist : zlen hist = stored x;
  mi_printed : zlen (printed (u_mem x)) = taken x ∧ printed (u_mem x) `prefix_of` hist;
  mi_tail : TAIL (u_mem x) = tails x mod BUFFER_SIZE;
  mi_front : FRONT (u_mem x) = fronts x mod BUFFER_SIZE;
  mi_length : length (BUFFER (u_mem x)) = Z.to_nat BUFFER_SIZE;
  mi_buffer : ∀ j, taken x ≤ j < stored x → BUFFER (u_mem x) !! Z.to_nat (j mod BUFFER_SIZE) = hist !! Z.to_nat j;
  mi_reg : ∀ t l i, u_loc x !! t = Some l → pc_of l = Access i ∨ pc_of l = Advance i →
    i = if is_producer l then TAIL (u_mem x) else FRONT (u_mem x);
  mi_code : ∀ id c, THREAD_CODES !! id = Some c →
    Z.of_nat (count_occ ascii_dec hist c) = msum (λ _, by_id id) (u_loc x);
}.

(** What the semaphores give. *)
Section counting.
Context (n : nat) (x : UState mem local) (U : uinv next n x).

(** Of the threads between [down] and [up] of the first semaphore, one is awake. *)
Lemma alone t1 t2 l1 l2 : u_loc x !! t1 = Some l1 → u_loc x !! t2 = Some l2 → t1 ≠ t2 →
  inside l1 = 1 → t1 ∉ sleepers x SEM_MUTEX → inside l2 = 1 → t2 ∈ sleepers x SEM_MUTEX.
Proof.
  intros H1 H2 Hne I1 S1 I2. destruct (decide (t2 ∈ sleepers x SEM_MUTEX)) as [|S2]; [done|exfalso].
  destruct (uinv_admits next n x SEM_MUTEX 1 U eq_refl) as (Hge & _ & Hq). cbv zeta in *. set (q := sleepers x SEM_MUTEX) in *.
  assert (Hle : ∀ t l, u_loc x !! t = Some l → net SEM_MUTEX l + among q t ≤ 0).
  { intros t l Hl. cbn [net mpsc_discipline]. rewrite decide_True by done. unfold among. case_bool_decide as Hin.
    - destruct (Hq t Hin) as (_ & l' & Hl' & Has). assert (l' = l) as -> by congruence. cbn in Has. unfold inside. destruct (pc_of l), (is_producer l); done || lia.
    - unfold inside. destruct (pc_of l); lia. }
  rewrite (msum_delete _ _ t1 l1 H1), (msum_delete _ _ t2 l2) in Hge by (by rewrite lookup_delete_ne).
  assert (msum (λ t l, net SEM_MUTEX l + among q t) (delete t2 (delete t1 (u_loc x))) ≤ 0).
  { transitivity (msum (λ _ (_ : local), 0) (delete t2 (delete t1 (u_loc x)))); [|rewrite msum_const; lia]. apply msum_le.
    intros t l Hl. apply lookup_delete_Some in Hl as [_ Hl]. apply lookup_delete_Some in Hl as [_ Hl]. by apply Hle. }
  cbn [net mpsc_discipline] in *. rewrite !decide_True in * by done. unfold among in *. rewrite !bool_decide_eq_false_2 in * by done. lia.
Qed.

Lemma others t l : u_loc x !! t = Some l → current (sched (sy_world (u_sys x))) = Some t → inside l = 1 →
  ∀ u k, u ≠ t → u_loc x !! u = Some k → match pc_of k with Access _ | LoadAgain | Advance _ | UpMutex => False | _ => True end.
Proof.
  intros Hl Hc Hin u k Hne Hu. assert (Hns : t ∉ sleepers x SEM_MUTEX).
  { unfold sleepers. destruct (present_get _ _ SEM_MUTEX (ui_sems _ _ _ U)) as [m Hm]; [apply sem_bound; rewrite !elem_of_cons; auto|].
    rewrite Hm. by eapply (proj1 (current_apart _ t (ui_sys _ _ _ U) Hc)). }
  assert (Hk : inside k = 1 → pc_of k = Load).
  { intros Hk. pose proof (alone t u l k Hl Hu (not_eq_sym Hne) Hin Hns Hk) as Hs.
    destruct (uinv_admits next n x SEM_MUTEX 1 U eq_refl) as (_ & _ & Hq). destruct (Hq u Hs) as (_ & k' & Hk' & Has).
    assert (k' = k) as -> by congruence. cbn in Has. by destruct (pc_of k), (is_producer k). }
  unfold inside in Hk. destruct (pc_of k); try done; by specialize (Hk eq_refl).
Qed.

(** The side [b]: its semaphore, and the count it starts with. *)
Definition sem_of (b : bool) : nat := if b then SEM_PRODUCE else SEM_CONSUME.
Definition room_of (b : bool) : Z := if b then BUFFER_SIZE else 0.

Lemma net_side b l : net (sem_of b) l = if Bool.eqb (is_producer l) b then - (done_of l + begun l) else done_of l.
Proof. cbn [net mpsc_discipline]. by destruct b, (is_producer l). Qed.

(** One side is never ahead of the other by more than its count: the producers by the size of the
    buffer, the consumer not at all; a thread about to access has its place. *)
Lemma side b : msum (λ _, part b accessed) (u_loc x) ≤ room_of b + msum (λ _, part (negb b) accessed) (u_loc x) ∧
  ∀ t l i, u_loc x !! t = Some l → is_producer l = b → pc_of l = Access i →
    msum (λ _, part b accessed) (u_loc x) + 1 ≤ room_of b + msum (λ _, part (negb b) accessed) (u_loc x).
Proof.
  assert (Hr : res !! sem_of b = Some (room_of b)) by by destruct b.
  destruct (uinv_admits next n x (sem_of b) (room_of b) U Hr) as (Hge & _ & Hq). cbv zeta in *. set (q := sleepers x (sem_of b)) in *.
  assert (Hle : ∀ t l, u_loc x !! t = Some l →
    net (sem_of b) l + among q t ≤ part (negb b) accessed l - part b accessed l ∧
    (is_producer l = b → (∃ i, pc_of l = Access i) → net (sem_of b) l + among q t ≤ part (negb b) accessed l - part b accessed l - 1)).
  { intros t l Hl. assert (Has : t ∈ q → asleep l = Some (sem_of b)).
    { intros Hin. destruct (Hq t Hin) as (_ & l' & Hl' & Has). by assert (l' = l) as -> by congruence. }
    cbn [net asleep mpsc_discipline] in *. unfold part, among, begun, accessed. rewrite decide_False by (by destruct b).
    case_bool_decide as Hin; [specialize (Has Hin)|clear Has]; destruct b, (is_producer l) eqn:Ep; cbn in *; destruct (pc_of l);
      split; try done; try lia; intros; naive_solver lia. }
  assert (Hd : msum (λ _ l, part (negb b) accessed l - part b accessed l) (u_loc x) =
    msum (λ _, part (negb b) accessed) (u_loc x) - msum (λ _, part b accessed) (u_loc x)) by apply msum_sub.
  assert (Hrest : ∀ m, (∀ t l, m !! t = Some l → u_loc x !! t = Some l) →
    msum (λ t l, net (sem_of b) l + among q t) m ≤ msum (λ _ l, part (negb b) accessed l - part b accessed l) m).
  { intros m Hm. apply msum_le. intros t l Hl. by apply Hle, Hm. }
  split.
  - specialize (Hrest (u_loc x) (λ _ _ H, H)). lia.
  - intros t l i Hl Hb Hpc. specialize (Hrest (delete t (u_loc x))). destruct (Hle t l Hl) as [_ Ht].
    rewrite (msum_delete _ _ t l Hl) in Hge. rewrite (msum_delete _ _ t l Hl) in Hd.
    specialize (Ht Hb (ex_intro _ i Hpc)). specialize (Hrest (λ u k Hu, proj2 (proj1 (lookup_delete_Some _ _ _ _) Hu))). lia.
Qed.
End counting.

(** ** Every event keeps the invariant *)

(** One thread moves from [l] to [l']. *)
Lemma sums_move x y t l l' : u_loc x !! t = Some l → u_loc y = <[t := l']> (u_loc x) →
  stored y = stored x - part true accessed l + part true accessed l' ∧
  taken y = taken x - part false accessed l + part false accessed l' ∧
  tails y = tails x - part true advanced l + part true advanced l' ∧
  fronts y = fronts x - part false advanced l + part false advanced l' ∧
  ∀ id, msum (λ _, by_id id) (u_loc y) = msum (λ _, by_id id) (u_loc x) - by_id id l + by_id id l'.
Proof. intros Hl El. unfold stored, taken, tails, fronts. rewrite El. split_and!; intros; by rewrite (msum_insert _ _ _ _ _ Hl). Qed.

(** The register of a thread between its load and its access. *)
Definition reg_ok (m : mem) (l : local) : Prop :=
  ∀ i, pc_of l = Access i ∨ pc_of l = Advance i → i = if is_producer l then TAIL m else FRONT m.

Lemma reg_move (x y : UState mem local) m t l' : (∀ u k, u_loc x !! u = Some k → u ≠ t → reg_ok m k) → reg_ok m l' →
  u_loc y = <[t := l']> (u_loc x) → ∀ u k i, u_loc y !! u = Some k → pc_of k = Access i ∨ pc_of k = Advance i →
  i = if is_producer k then TAIL m else FRONT m.
Proof.
  intros Ho Hl' El u k i Hu Hpc. rewrite El in Hu. apply lookup_insert_Some in Hu as [[<- <-]|[Hne Hu]]; [by apply Hl'|].
  by apply (Ho u k Hu (not_eq_sym Hne)).
Qed.

Lemma mpsc_quiet x y t l l' hist : mpsc_inv x hist → u_loc x !! t = Some l → u_mem y = u_mem x →
  u_loc y = <[t := l']> (u_loc x) → (∀ b, part b accessed l' = part b accessed l ∧ part b advanced l' = part b advanced l) →
  (∀ id, by_id id l' = by_id id l) → reg_ok (u_mem x) l' → mpsc_inv y hist.
Proof.
  intros I Hl Em El Hp Hid Hreg. destruct (sums_move x y t l l' Hl El) as (E1 & E2 & E3 & E4 & E5).
  destruct (Hp true) as [P1 P2]. destruct (Hp false) as [P3 P4]. rewrite P1 in E1. rewrite P3 in E2. rewrite P2 in E3. rewrite P4 in E4.
  assert (stored y = stored x) as Es by lia. assert (taken y = taken x) as Et by lia.
  destruct I. split; rewrite ?Em, ?Es, ?Et; auto.
  - rewrite mi_tail0. f_equal. lia.
  - rewrite mi_front0. f_equal. lia.
  - apply (reg_move x y (u_mem x) t l'); auto. intros u k Hu _ i. by eapply mi_reg0.
  - intros id c Hc. rewrite E5, Hid. rewrite (mi_code0 id c Hc). lia.
Qed.

(** In the critical section nobody else is between an access and its advance. *)
Lemma same_sums n x t l b : uinv next n x → u_loc x !! t = Some l → current (sched (sy_world (u_sys x))) = Some t → inside l = 1 →
  msum (λ _, part b accessed) (u_loc x) - msum (λ _, part b advanced) (u_loc x) = part b accessed l - part b advanced l.
Proof.
  intros U Hl Hc Hin. rewrite !(msum_delete _ _ t l Hl).
  rewrite (msum_ext (λ _, part b accessed) (λ _, part b advanced) (delete t (u_loc x))); [lia|].
  intros u k Hu. apply lookup_delete_Some in Hu as [Hne Hu]. pose proof (others n x U t l Hl Hc Hin u k (not_eq_sym Hne) Hu) as Hk.
  unfold part, accessed, advanced. destruct (Bool.eqb _ _); [|done]. by destruct (pc_of k).
Qed.

Lemma thread_codes_inj id id' c : THREAD_CODES !! id = Some c → THREAD_CODES !! id' = Some c → id = id'.
Proof.
  assert (Hnd : NoDup THREAD_CODES) by (apply (bool_decide_unpack _); by vm_compute).
  intros H H'. by eapply NoDup_lookup.
Qed.

(** [BUFFER[TAIL] = THREAD_CODES[id]] *)
Lemma mpsc_store n x y t id k i b c hist : uinv next n x → mpsc_inv x hist → u_loc x !! t = Some (Producer id k (Access i)) →
  current (sched (sy_world (u_sys x))) = Some t → BUFFER (u_mem x) !! Z.to_nat i = Some b → THREAD_CODES !! id = Some c →
  u_mem y = mkMem (<[Z.to_nat i := c]> (BUFFER (u_mem x))) (FRONT (u_mem x)) (TAIL (u_mem x)) (printed (u_mem x)) →
  u_loc y = <[t := Producer id k LoadAgain]> (u_loc x) → mpsc_inv y (hist ++ [c]).
Proof.
  intros U I Hl Hc Hb Hcode Em El. destruct (sums_move x y t _ _ Hl El) as (E1 & E2 & E3 & E4 & E5).
  pose proof (same_sums n x t _ true U Hl Hc eq_refl) as Hsame. fold (stored x) (tails x) in Hsame.
  destruct (side n x U true) as [_ Hs]. specialize (Hs t _ i Hl eq_refl eq_refl). cbn [negb room_of] in Hs.
  fold (stored x) (taken x) in Hs. unfold part, accessed, advanced, BUFFER_SIZE in *. cbn [is_producer Bool.eqb pc_of done_of] in *.
  assert (Es : stored y = stored x + 1) by lia. assert (Et : taken y = taken x) by lia.
  assert (Etl : tails y = tails x) by lia. assert (Ef : fronts y = fronts x) by lia.
  assert (Hi : i = stored x mod 8). { rewrite (mi_reg x hist I t _ i Hl); [|by left]. cbn. rewrite (mi_tail x hist I). unfold BUFFER_SIZE. f_equal. lia. }
  pose proof (mi_hist x hist I) as Hh. pose proof (mi_printed x hist I) as [Hp1 Hp2].
  assert (Hst : 0 ≤ stored x) by (rewrite <- Hh; unfold zlen; lia). assert (Htk : 0 ≤ taken x) by (rewrite <- Hp1; unfold zlen; lia).
  unfold zlen in Hh. split; rewrite ?Em, ?Es, ?Et, ?Etl, ?Ef; cbn [BUFFER FRONT TAIL printed]; try apply I.
  - unfold zlen. rewrite length_app. cbn. lia.
  - split; [done|]. by apply prefix_app_r.
  - rewrite length_insert. apply I.
  - intros j Hj. destruct (decide (j = stored x)) as [->|Hne].
    + unfold BUFFER_SIZE. rewrite <- Hi, list_lookup_insert_eq by (by eapply lookup_lt_Some).
      rewrite lookup_app_r by lia. by replace (Z.to_nat (stored x) - length hist)%nat with O by lia.
    + unfold BUFFER_SIZE in *. rewrite list_lookup_insert_ne.
      * rewrite lookup_app_l by lia. apply I. unfold BUFFER_SIZE. lia.
      * rewrite Hi. intros Heq. apply Z2Nat.inj in Heq; [|dlia|dlia]. dlia.
  - apply (reg_move x y (u_mem x) t (Producer id k LoadAgain)); [|by intros ? [?|?]|done].
    intros u kk Hu _ j Hj. by eapply (mi_reg x hist I).
  - intros id' c' Hc'. rewrite E5, count_occ_app. cbn [count_occ by_id done_of]. pose proof (mi_code x hist I id' c' Hc') as Hcc.
    unfold accessed. cbn [pc_of]. destruct (ascii_dec c c') as [->|Hne].
    + rewrite (thread_codes_inj id id' c' Hcode Hc'), !decide_True by done. lia.
    + rewrite !decide_False by congruence. lia.
Qed.

(** [print!("{} ", BUFFER[FRONT])] *)
Lemma mpsc_take n x y t k i c hist : uinv next n x → mpsc_inv x hist → u_loc x !! t = Some (Consumer k (Access i)) →
  current (sched (sy_world (u_sys x))) = Some t → BUFFER (u_mem x) !! Z.to_nat i = Some c →
  u_mem y = mkMem (BUFFER (u_mem x)) (FRONT (u_mem x)) (TAIL (u_mem x)) (printed (u_mem x) ++ [c]) →
  u_loc y = <[t := Consumer k LoadAgain]> (u_loc x) → mpsc_inv y hist.
Proof.
  intros U I Hl Hc Hb Em El. destruct (sums_move x y t _ _ Hl El) as (E1 & E2 & E3 & E4 & E5).
  pose proof (same_sums n x t _ false U Hl Hc eq_refl) as Hsame. fold (taken x) (fronts x) in Hsame.
  destruct (side n x U false) as [_ Hs]. specialize (Hs t _ i Hl eq_refl eq_refl). cbn [negb room_of] in Hs.
  fold (stored x) (taken x) in Hs. unfold part, accessed, advanced, BUFFER_SIZE in *. cbn [is_producer Bool.eqb pc_of done_of] in *.
  assert (Es : stored y = stored x) by lia. assert (Et : taken y = taken x + 1) by lia.
  assert (Etl : tails y = tails x) by lia. assert (Ef : fronts y = fronts x) by lia.
  assert (Hi : i = taken x mod 8). { rewrite (mi_reg x hist I t _ i Hl); [|by left]. cbn. rewrite (mi_front x hist I). unfold BUFFER_SIZE. f_equal. lia. }
  pose proof (mi_hist x hist I) as Hh. pose proof (mi_printed x hist I) as [Hp1 [tl Hp2]].
  pose proof (mi_buffer x hist I (taken x)) as Hbuf. unfold BUFFER_SIZE in Hbuf. rewrite <- Hi, Hb in Hbuf. specialize (Hbuf ltac:(lia)).
  unfold zlen in *. split; rewrite ?Em, ?Es, ?Et, ?Etl, ?Ef; cbn [BUFFER FRONT TAIL printed]; try apply I.
  - split; [unfold zlen; rewrite length_app; cbn; lia|]. rewrite Hp2 in Hbuf.
    rewrite lookup_app_r in Hbuf by lia. replace (Z.to_nat (taken x) - length (printed (u_mem x)))%nat with O in Hbuf by lia.
    destruct tl as [|c' tl]; [done|]. injection Hbuf as <-. exists tl. by rewrite Hp2, <- app_assoc.
  - intros j Hj. apply I. lia.
  - apply (reg_move x y (u_mem x) t (Consumer k LoadAgain)); [|by intros ? [?|?]|done].
    intros u kk Hu _ j Hj. by eapply (mi_reg x hist I).
  - intros id' c' Hc'. rewrite E5. cbn [by_id]. rewrite (mi_code x hist I id' c' Hc'). lia.
Qed.

(** [TAIL = (TAIL + 1) % BUFFER_SIZE], and the same of [FRONT] *)
Lemma next_index i s : i = s mod BUFFER_SIZE → u64 (i + 1) mod BUFFER_SIZE = (s + 1) mod BUFFER_SIZE.
Proof.
  intros ->. pose proof (Z.mod_pos_bound s 8 eq_refl) as H. unfold BUFFER_SIZE. rewrite wrap_small by lia.
  by rewrite Zplus_mod_idemp_l.
Qed.

Lemma mpsc_advance n x y t l i hist : uinv next n x → mpsc_inv x hist → u_loc x !! t = Some l → pc_of l = Advance i →
  current (sched (sy_world (u_sys x))) = Some t →
  u_mem y = mkMem (BUFFER (u_mem x))
    (if is_producer l then FRONT (u_mem x) else u64 (i + 1) mod BUFFER_SIZE)
    (if is_producer l then u64 (i + 1) mod BUFFER_SIZE else TAIL (u_mem x)) (printed (u_mem x)) →
  u_loc y = <[t := match l with Producer id k _ => Producer id k UpMutex | Consumer k _ => Consumer k UpMutex end]> (u_loc x) →
  mpsc_inv y hist.
Proof.
  intros U I Hl Hpc Hc Em El. set (l' := match l with Producer _ _ _ => _ | _ => _ end) in El.
  assert (Hin : inside l = 1) by (unfold inside; by rewrite Hpc).
  destruct (sums_move x y t l l' Hl El) as (E1 & E2 & E3 & E4 & E5).
  assert (Hreg := mi_reg x hist I t l i Hl (or_intror Hpc)).
  assert (Hp : ∀ b, part b accessed l' = part b accessed l ∧
    part b advanced l' = part b advanced l + if Bool.eqb (is_producer l) b then 1 else 0).
  { intros b. unfold l', part, accessed, advanced. rewrite Hpc. destruct l as [id k p|k p]; cbn [is_producer pc_of done_of];
      destruct b; cbn [Bool.eqb]; lia. }
  destruct (Hp true) as [P1 P2]. destruct (Hp false) as [P3 P4].
  assert (Es : stored y = stored x) by lia. assert (Et : taken y = taken x) by lia.
  assert (Hid : ∀ id, by_id id l' = by_id id l) by (intros id; unfold l', by_id, accessed; rewrite Hpc; by destruct l).
  split; rewrite ?Em, ?Es, ?Et; cbn [BUFFER FRONT TAIL printed]; try apply I.
  - destruct (is_producer l) eqn:Ep; cbn [Bool.eqb] in *.
    + rewrite (next_index i (tails x)); [f_equal; lia|]. rewrite Hreg. apply I.
    + rewrite (mi_tail x hist I). f_equal. lia.
  - destruct (is_producer l) eqn:Ep; cbn [Bool.eqb] in *.
    + rewrite (mi_front x hist I). f_equal. lia.
    + rewrite (next_index i (fronts x)); [f_equal; lia|]. rewrite Hreg. apply I.
  - intros u k j Hu Hj. rewrite El in Hu. apply lookup_insert_Some in Hu as [[<- <-]|[Hne Hu]].
    + unfold l' in Hj. destruct l, Hj; done.
    + pose proof (others n x U t l Hl Hc Hin u k (not_eq_sym Hne) Hu) as Hk. by destruct Hj as [Hj|Hj]; rewrite Hj in Hk.
  - intros id c Hcode. rewrite E5, Hid, (mi_code x hist I id c Hcode). lia.
Qed.

Lemma mpsc_step n x e y hist : uinv next n x → mpsc_inv x hist → uexec next e x = Some (Done y) → mpsc_inv y (hist ++ stores e x).
Proof.
  intros U I E. apply uexec_inv in E as [(t & l & Hc & Hl & Hk & -> & Hcall & Em & El & _)|(Em & El & _ & _ & Hno)].
  2: { replace (stores e x) with (@nil ascii) by (unfold stores; destruct Hno as [(t & i & -> & -> & -> & _)|[Hne _]]; [done|by destruct e]).
       rewrite app_nil_r. unfold stored, taken, tails, fronts in *. destruct I. split; unfold stored, taken, tails, fronts; by rewrite ?Em, ?El. }
  unfold stores. rewrite Hc, Hk, Hl.
  assert (Hsys : ∀ p, next (u_mem x) l ≠ APanic p) by (intros p Hp; rewrite Hp in Hcall; by destruct (u_sys x)).
  destruct (ui_thread _ _ _ U t l Hl) as [Hok _]. cbv zeta in *.
  assert (Hq : ∀ l', u_mem y = u_mem x → u_loc y = <[t := l']> (u_loc x) → is_producer l' = is_producer l →
    done_of l' + accessed l' = done_of l + accessed l → done_of l' + advanced l' = done_of l + advanced l →
    (∀ id, by_id id l' = by_id id l) → reg_ok (u_mem x) l' → mpsc_inv y (hist ++ [])).
  { intros l' Em' El' Hp H1 H2 H3 H4. rewrite app_nil_r. apply (mpsc_quiet x y t l l'); auto. intros b. unfold part. rewrite Hp.
    destruct (Bool.eqb _ _); lia. }
  destruct l as [id k p|k p]; destruct p as [| | |i| |i| | |]; cbn [next] in *.
  all: try (apply (Hq _ Em El); [done|try (cbn; lia); done|try (cbn; lia); done|done|]; intros j [[= <-]|[= <-]]; done).
  - unfold at_index in *. destruct (BUFFER (u_mem x) !! Z.to_nat i) as [b|] eqn:Eb; [|by destruct (Hsys PIndex)].
    rewrite Nat2Z.id in *. destruct (THREAD_CODES !! id) as [c|] eqn:Ecode; [|by destruct (Hsys PIndex)].
    cbn [store_of]. rewrite Ecode. by apply (mpsc_store n x y t id k i b c hist).
  - rewrite app_nil_r. by apply (mpsc_advance n x y t (Producer id k (Advance i)) i hist).
  - assert (k ≠ O) by (intros ->; destruct Hok as (_ & _ & [_ Hk0]); by specialize (Hk0 eq_refl)).
    destruct Hok as (_ & Hk100 & _). apply (Hq _ Em El); cbn [mem_after loc_after is_producer by_id done_of]; unfold accessed, advanced; cbn [pc_of]; try done;
      try (intros idd; case_decide; [|done]); try (destruct k as [|[|k]]; [done|..]; cbn [pred round]; lia).
    intros j. destruct k as [|[|k]]; cbn; naive_solver.
  - unfold at_index in *. destruct (BUFFER (u_mem x) !! Z.to_nat i) as [b|] eqn:Eb; [|by destruct (Hsys PIndex)].
    rewrite app_nil_r. by apply (mpsc_take n x y t k i b hist).
  - rewrite app_nil_r. by apply (mpsc_advance n x y t (Consumer k (Advance i)) i hist).
  - assert (k ≠ O) by (intros ->; destruct Hok as (_ & [_ Hk0]); by specialize (Hk0 eq_refl)).
    destruct Hok as (Hk100 & _). apply (Hq _ Em El); cbn [mem_after loc_after is_producer by_id done_of]; unfold accessed, advanced; cbn [pc_of]; try done;
      try (intros idd; case_decide; [|done]); try (destruct k as [|[|k]]; [done|..]; cbn [pred round]; lia).
    intros j. destruct k as [|[|k]]; cbn; naive_solver.
Qed.

(** ** Nobody is left behind *)

Lemma mpsc_no_panic n x e p hist : uinv next n x → mpsc_inv x hist → uexec next e x ≠ Some (Panicked p).
Proof.
  intros U I E. destruct (uinv_no_panic next n _ x e p U E) as (t & l & _ & Hl & Ha).
  destruct (ui_thread _ _ _ U t l Hl) as [Hok _].
  assert (Hi : ∀ i, pc_of l = Access i → ∃ b, BUFFER (u_mem x) !! Z.to_nat i = Some b).
  { intros i Hi. rewrite (mi_reg x hist I t l i Hl (or_introl Hi)). apply lookup_lt_is_Some_2. rewrite (mi_length x hist I).
    unfold BUFFER_SIZE. destruct (is_producer l); [rewrite (mi_tail x hist I)|rewrite (mi_front x hist I)]; unfold BUFFER_SIZE; dlia. }
  destruct l as [id k q|k q]; destruct q as [| | |i| |i| | |]; cbn in Ha; try done; destruct (Hi i eq_refl) as [b Hb]; unfold at_index in Ha; rewrite Hb in Ha.
  - destruct (lookup_lt_is_Some_2 THREAD_CODES (Z.to_nat (Z.of_nat id))) as [c Hc]; [rewrite Nat2Z.id; apply Hok|]. by rewrite Hc in Ha.
  - done.
Qed.

(** Which thread is which producer does not change. *)
Definition kind (l : local) : option nat := match l with Producer id _ _ => Some id | Consumer _ _ => None end.

Lemma kind_step x e y : uexec next e x = Some (Done y) → kind <$> u_loc y = kind <$> u_loc x.
Proof.
  intros E. apply uexec_inv in E as [(t & l & _ & Hl & _ & _ & Hcall & _ & -> & _)|(_ & -> & _)]; [|done].
  rewrite fmap_insert. apply insert_id. rewrite lookup_fmap, Hl. cbn. f_equal.
  destruct l as [id k q|k q]; destruct q; cbn [next] in *; unfold at_index in *; repeat case_match; try done.
Qed.

Definition total_rounds (k : option nat) : Z := match k with Some _ => 100 | None => -400 end.

(** As many rounds to produce as to consume. *)
Definition balanced (x : UState mem local) : Prop := msum (λ _, total_rounds) (kind <$> u_loc x) = 0.

Section idle.
Context (n : nat) (x : UState mem local) (U : uinv next n x).

Lemma exited t l : u_loc x !! t = Some l → is_Some (u_exit x !! t) → pc_of l = Exit.
Proof.
  intros Hl [code He]. destruct (ui_exit _ _ _ U t l Hl) as [_ H]. destruct (H code He) as [m Hm].
  destruct l as [id k q|k q]; destruct q; cbn in Hm; unfold at_index in Hm; repeat case_match; done.
Qed.

Lemma exit_rounds t l : u_loc x !! t = Some l → done_of l ≤ Z.abs (total_rounds (kind l)) ∧
  (pc_of l = Exit ↔ done_of l = Z.abs (total_rounds (kind l))).
Proof.
  intros Hl. destruct (ui_thread _ _ _ U t l Hl) as [Hok _]. unfold done_of. cbn [ok mpsc_discipline] in Hok.
  unfold NUMBER_PER_PRODUCER, PRODUCER_COUNT in *. destruct l as [id k q|k q]; cbn [kind total_rounds pc_of] in *; naive_solver lia.
Qed.

(** When no thread can go on, those that have not ended sleep before their first access. *)
Lemma asleep_where : stuck x → ∀ t l, u_loc x !! t = Some l → (pc_of l = Exit ∧ is_Some (u_exit x !! t)) ∨
  pc_of l = DownMutex ∧ t ∈ sleepers x (sem_of (is_producer l)).
Proof.
  intros Hst.
  assert (Hs : ∀ t l, u_loc x !! t = Some l → (pc_of l = Exit ∧ is_Some (u_exit x !! t)) ∨ pc_of l = Load ∧ t ∈ sleepers x SEM_MUTEX ∨
    pc_of l = DownMutex ∧ t ∈ sleepers x (sem_of (is_producer l))).
  { intros t l Hl. destruct (u_exit x !! t) as [code|] eqn:He; [left; split; [eapply exited; [done|by rewrite He]|by eexists]|right].
    destruct (uinv_idle next n x t l U) as [[i Hi]|[(i & Hi & Hlt)|(j & q & Hj & _)]]; [apply Hst; by eexists|done|done| | |].
    - pose proof (sy_mutex _ (ui_sys _ _ _ U) i) as [Hm _]. apply Hm in Hi. destruct (ui_thread _ _ _ U t l Hl) as [_ [_ H]].
      specialize (H i (or_intror Hi)). cbn in H. set_solver.
    - destruct (uinv_admits next n x i (nth i counts 0) U) as (_ & _ & Hq); [by apply list_lookup_lookup_total_lt || (destruct i as [|[|[|i]]]; cbn in *; done || lia)|].
      destruct (Hq t Hi) as (_ & l' & Hl' & Has). assert (l' = l) as -> by congruence. cbn in Has.
      destruct (pc_of l); try done; injection Has as <-; [by right|by left].
    - pose proof (ui_conds _ _ _ U) as [Hn _]. cbn in Hn. apply lookup_lt_Some in Hj. lia. }
  intros t l Hl. destruct (Hs t l Hl) as [?|[[_ Hin]|?]]; [by left|exfalso|by right].
  destruct (uinv_admits next n x SEM_MUTEX 1 U eq_refl) as (_ & Heq & _). cbv zeta in Heq.
  destruct (msum_neg (λ t l, net SEM_MUTEX l + among (sleepers x SEM_MUTEX) t) (u_loc x)) as (v & k & Hv & Hneg).
  - specialize (Heq ltac:(intros E; rewrite E in Hin; by apply not_elem_of_nil in Hin)). lia.
  - cbn [net mpsc_discipline] in Hneg. rewrite decide_True in Hneg by done. unfold among in Hneg. case_bool_decide as Hvq.
    + unfold inside in Hneg. destruct (pc_of k); lia.
    + destruct (Hs v k Hv) as [[E _]|[[E ?]|[E _]]]; [|done|]; unfold inside in Hneg; rewrite E in Hneg; lia.
Qed.

(** The semaphores' sums then. *)
Lemma asleep_sums b : stuck x → sleepers x (sem_of b) ≠ [] →
  room_of b + msum (λ _, part (negb b) accessed) (u_loc x) = msum (λ _, part b accessed) (u_loc x).
Proof.
  intros Hst Hq. assert (Hr : res !! sem_of b = Some (room_of b)) by by destruct b.
  destruct (uinv_admits next n x (sem_of b) (room_of b) U Hr) as (_ & Heq & Hin). cbv zeta in *. specialize (Heq Hq).
  enough (Hsum : msum (λ t l, net (sem_of b) l + among (sleepers x (sem_of b)) t) (u_loc x) =
    msum (λ _, part (negb b) accessed) (u_loc x) - msum (λ _, part b accessed) (u_loc x)) by lia.
  rewrite <- msum_sub. apply msum_ext.
  intros t l Hl. rewrite net_side. unfold among, part, accessed, begun.
  destruct (asleep_where Hst t l Hl) as [[E _]|[E Hs]]; rewrite E.
  - case_bool_decide as Hts; [|destruct b, (is_producer l); cbn; lia]. destruct (Hin t Hts) as (_ & l' & Hl' & Has).
    assert (l' = l) as -> by congruence. cbn in Has. by rewrite E in Has.
  - destruct b, (is_producer l) eqn:Ep; cbn [negb Bool.eqb sem_of] in *; case_bool_decide as Hts; try done; cbn; try lia;
      destruct (Hin t Hts) as (_ & l' & Hl' & Has); assert (l' = l) as -> by congruence; cbn in Has; rewrite E, Ep in Has; done.
Qed.

Definition quota (b : bool) (l : local) : Z := if Bool.eqb (is_producer l) b then Z.abs (total_rounds (kind l)) else 0.

Lemma below_quota b : stuck x →
  (∀ t l, u_loc x !! t = Some l → is_producer l = b → pc_of l ≠ Exit →
    msum (λ _, part b accessed) (u_loc x) < msum (λ _, quota b) (u_loc x)) ∧
  (sleepers x (sem_of b) = [] → msum (λ _, part b accessed) (u_loc x) = msum (λ _, quota b) (u_loc x)).
Proof.
  intros Hst.
  assert (Hp : ∀ t l, u_loc x !! t = Some l → part b accessed l ≤ quota b l ∧ (is_producer l = b → pc_of l ≠ Exit → part b accessed l < quota b l) ∧
    (pc_of l = Exit ∨ is_producer l ≠ b → part b accessed l = quota b l)).
  { intros t l Hl. destruct (exit_rounds t l Hl) as [Hd1 Hd2]. unfold part, quota, accessed.
    destruct (Bool.eqb (is_producer l) b) eqn:Eb; [|split; [done|split; [intros Hbb; by rewrite Hbb, eqb_reflx in Eb|done]]].
    apply eqb_prop in Eb. assert (Hlt : pc_of l ≠ Exit → done_of l < Z.abs (total_rounds (kind l))).
    { intros Hx. assert (done_of l ≠ Z.abs (total_rounds (kind l))) by (intros Hd; by apply Hx, Hd2). lia. }
    assert (Ha : match pc_of l with LoadAgain | Advance _ | UpMutex | UpCount => 1 | _ => 0 end = 0).
    { by destruct (asleep_where Hst t l Hl) as [[-> _]|[-> _]]. }
    rewrite Ha, Z.add_0_r. split; [done|]. split; [intros _; exact Hlt|]. intros [Hx|Hx]; [by apply Hd2|done]. }
  split.
  - intros t l Hl Hb Hx. rewrite !(msum_delete _ _ t l Hl). pose proof (proj1 (proj2 (Hp t l Hl)) Hb Hx).
    assert (msum (λ _, part b accessed) (delete t (u_loc x)) ≤ msum (λ _, quota b) (delete t (u_loc x))); [|lia].
    apply msum_le. intros u k Hu. apply lookup_delete_Some in Hu as [_ Hu]. by apply (Hp u k).
  - intros Hq. apply msum_ext. intros t l Hl. apply (Hp t l Hl). destruct (asleep_where Hst t l Hl) as [[E _]|[E Hs]]; [by left|right].
    intros <-. rewrite Hq in Hs. by apply not_elem_of_nil in Hs.
Qed.

Lemma mpsc_no_deadlock : balanced x → stuck x → finished x.
Proof.
  intros Hb Hst. unfold balanced in Hb. rewrite msum_fmap in Hb.
  assert (Hqq : ∀ b, msum (λ _, quota b) (u_loc x) = msum (λ _, quota (negb b)) (u_loc x)).
  { assert (H : msum (λ _ l, quota true l - quota false l) (u_loc x) = 0).
    { rewrite <- Hb. apply msum_ext. intros t l _. unfold quota. by destruct l. }
    assert (H2 : msum (λ _ l, quota true l - quota false l) (u_loc x) = msum (λ _, quota true) (u_loc x) - msum (λ _, quota false) (u_loc x))
      by apply msum_sub.
    intros []; cbn [negb]; lia. }
  intros t [l Hl]%elem_of_dom. apply elem_of_dom. destruct (asleep_where Hst t l Hl) as [[_ ?]|[E Hs]]; [done|exfalso].
  set (b := is_producer l) in *. assert (Hne : sleepers x (sem_of b) ≠ []) by (intros Eq; rewrite Eq in Hs; by apply not_elem_of_nil in Hs).
  pose proof (asleep_sums b Hst Hne) as H1. destruct (below_quota b Hst) as [H2 _].
  specialize (H2 t l Hl eq_refl ltac:(by rewrite E)). assert (Hroom : 0 ≤ room_of b) by by destruct b.
  destruct (decide (sleepers x (sem_of (negb b)) = [])) as [Hnone|Hsome].
  - destruct (below_quota (negb b) Hst) as [_ H3]. specialize (H3 Hnone). specialize (Hqq b). lia.
  - pose proof (asleep_sums (negb b) Hst Hsome) as H4. rewrite negb_involutive in H4.
    assert (room_of b + room_of (negb b) = 8) by by destruct b. lia.
Qed.
End idle.

(** The actions a thread has before it. *)
Definition pc_rank (p : pc) : nat :=
  match p with
  | DownCount => 8 | DownMutex => 7 | Load => 6 | Access _ => 5 | LoadAgain => 4 | Advance _ => 3 | UpMutex => 2 | UpCount => 1 | Exit => 0
  end.
Definition rank (l : local) : nat := pred (todo_of l) * 8 + pc_rank (pc_of l).

#[export] Instance mpsc_ranked : Ranked next rank.
Proof.
  intros m l Hok. unfold rank. destruct l as [id k p|k p]; destruct p; cbn [next]; unfold at_index; repeat case_match; simplify_eq; try done; cbn [loc_after todo_of pc_of pc_rank]; try lia;
    destruct k as [|[|k]]; cbn; lia.
Qed.

(** ** All runs *)

Section runs.
Context (s : Sched) (c : nat) (p : list nat).
Context (Hs : sched_inv s []) (Hp : length p = PRODUCER_COUNT) (Hnd : NoDup (c :: p)) (Hin : ∀ t, t ∈ c :: p → t ∈ dom (task_status s)).

Definition threads : list (nat * local) := zip (c :: p) (consumer :: (producer <$> seq 0 PRODUCER_COUNT)).

Lemma threads_fst : threads.*1 = c :: p.
Proof. unfold threads. apply fst_zip. cbn [length]. rewrite length_fmap, length_seq. lia. Qed.

Lemma threads_lookup t l : (list_to_map threads : gmap nat local) !! t = Some l →
  t ∈ c :: p ∧ (l = consumer ∨ ∃ id, (id < PRODUCER_COUNT)%nat ∧ l = producer id).
Proof.
  intros H. apply elem_of_list_to_map_2 in H. split; [rewrite <- threads_fst; by apply (list_elem_of_fmap_2' fst _ (t, l))|].
  apply elem_of_zip_r in H. apply elem_of_cons in H as [->|H]; [by left|right]. apply list_elem_of_fmap in H as (id & -> & Hid).
  exists id. split; [|done]. apply elem_of_seq in Hid. lia.
Qed.

Lemma threads_sum (f : local → Z) : msum (λ _, f) (list_to_map threads : gmap nat local) =
  f consumer + foldr (λ id acc, f (producer id) + acc) 0 (seq 0 PRODUCER_COUNT).
Proof.
  assert (H : ∀ l : list (nat * local), NoDup l.*1 → msum (λ _, f) (list_to_map l : gmap nat local) = foldr (λ x acc, f x.2 + acc) 0 l).
  { induction l as [|[t l] ls IH]; [done|]. cbn [fmap list_fmap]. intros [Hn Hd]%NoDup_cons. cbn [list_to_map foldr].
    change (foldr _ ∅ ls) with (list_to_map ls : gmap nat local). cbn. rewrite msum_new by by apply not_elem_of_list_to_map_1. by rewrite IH. }
  rewrite H by (rewrite threads_fst; exact Hnd). unfold threads. cbn [zip zip_with foldr]. f_equal. cbn [snd].
  revert Hp. clear. unfold PRODUCER_COUNT. intros Hp. destruct p as [|p1 [|p2 [|p3 [|p4 [|]]]]]; try discriminate. reflexivity.
Qed.

Definition of_id (id : nat) (k : option nat) : Z := if decide (k = Some id) then 1 else 0.

(** What holds in every state that is reached. *)
Definition good (x : UState mem local) (hist : list ascii) : Prop :=
  uinv next 5 x ∧ cur_ok x ∧ mpsc_inv x hist ∧ kind <$> u_loc x = kind <$> (list_to_map threads : gmap nat local).

Lemma mpsc_fits : @fits local mpsc_discipline 5.
Proof.
  intros i r Hr. cbn [res net_max mpsc_discipline] in *. destruct i as [|[|[|i]]]; cbn in Hr; simplify_eq; unfold BUFFER_SIZE; lia || done.
Qed.

Lemma good_start : good (start s p c) [].
Proof.
  assert (Hsize : size (list_to_map threads : gmap nat local) = 5%nat).
  { rewrite map_size_list_to_map by (rewrite threads_fst; exact Hnd). rewrite <- (length_fmap fst), threads_fst. cbn. by rewrite Hp. }
  split; [|split; [by intros t Ht; left|split; [|done]]].
  - rewrite <- Hsize. change (start s p c) with (begin s [] (@res local mpsc_discipline) (@condvars local mpsc_discipline) mem0 (list_to_map threads)).
    apply uinv_begin; [done|done| |done|].
    + rewrite Hsize. apply mpsc_fits.
    + intros t l Hl. destruct (threads_lookup t l Hl) as [Ht Hk]. split; [by apply Hin|].
      destruct Hk as [->|(id & Hid & ->)]; (split; [cbn; unfold NUMBER_PER_PRODUCER, PRODUCER_COUNT in *; split_and?; try lia; done|]); (split; [done|]);
        intros i; cbn [net mpsc_discipline]; unfold inside, begun, done_of, consumer, producer; cbn [pc_of is_producer]; repeat case_decide; done.
  - assert (H0 : ∀ f : local → Z, f consumer = 0 → (∀ id, f (producer id) = 0) → msum (λ _, f) (list_to_map threads : gmap nat local) = 0).
    { intros f Hc Hf. rewrite threads_sum, Hc. cbn [foldr seq PRODUCER_COUNT]. by rewrite !Hf. }
    assert (Hst : stored (start s p c) = 0) by by apply H0. assert (Htk : taken (start s p c) = 0) by by apply H0.
    assert (Htl : tails (start s p c) = 0) by by apply H0. assert (Hfr : fronts (start s p c) = 0) by by apply H0.
    split; rewrite ?Hst, ?Htk, ?Htl, ?Hfr; try done; try lia.
    + intros t l i Hl Hpc. destruct (threads_lookup t l Hl) as [_ [->|(id & _ & ->)]]; by destruct Hpc.
    + intros id ch _. symmetry. apply H0; [done|]. intros i. cbn. by case_decide.
Qed.

Lemma total_start : total rank (start s p c) = 6405.
Proof.
  transitivity (msum (λ _ l, 1 + Z.of_nat (rank l)) (list_to_map threads : gmap nat local)).
  - apply msum_ext; intros t l _. change (u_exit (start s p c)) with (∅ : gmap nat Z). by rewrite lookup_empty.
  - rewrite (threads_sum (λ l, 1 + Z.of_nat (rank l))). by vm_compute.
Qed.

Lemma good_run es : ∀ x y hist, good x hist → urun next es x = Some y → good y (hist ++ history es x).
Proof.
  induction es as [|e es IH]; intros x y hist G R; cbn [urun history] in *; [injection R as ->; by rewrite app_nil_r|].
  destruct (uexec next e x) as [[z|]|] eqn:E; [|done..]. rewrite app_assoc. apply IH; [|done]. destruct G as (U & C & I & K).
  split; [exact (uinv_event next 5 mpsc_fits _ _ _ _ U E)|]. split; [exact (cur_ok_step next 5 mpsc_fits _ _ _ _ U C E)|].
  split; [exact (mpsc_step _ _ _ _ _ U I E)|]. by rewrite (kind_step _ _ _ E).
Qed.

Lemma good_reach x y hist : good x hist → ureach next x y → ∃ hist', good y hist'.
Proof. intros G (es & R)%reach_run. eexists. by eapply good_run. Qed.

Lemma good_cont x hist t i : good x hist → sy_cont (u_sys x) !! t ≠ Some (CLock i).
Proof.
  intros (U & _) Hk. destruct (u_loc x !! t) as [l|] eqn:Hl.
  - destruct (ui_thread _ _ _ U t l Hl) as [_ [_ H]]. specialize (H i (or_introl Hk)). cbn in H. set_solver.
  - destruct (ui_only _ _ _ U t Hl). congruence.
Qed.

Lemma good_balanced x hist : good x hist → balanced x.
Proof. intros (_ & _ & _ & K). unfold balanced. rewrite K, msum_fmap, threads_sum. reflexivity. Qed.

Lemma good_ids x hist id : good x hist → (id < PRODUCER_COUNT)%nat → msum (λ _ l, of_id id (kind l)) (u_loc x) = 1.
Proof.
  intros (_ & _ & _ & K) Hid. rewrite <- (msum_fmap (λ _, of_id id) kind), K, msum_fmap. rewrite (threads_sum (λ l, of_id id (kind l))).
  unfold PRODUCER_COUNT in *. destruct id as [|[|[|[|id]]]]; [reflexivity..|lia].
Qed.

(** At the end every thread has done all its rounds. *)
Lemma ended_quota x hist b : good x hist → finished x → msum (λ _, part b accessed) (u_loc x) = 400.
Proof.
  intros (U & _ & _ & K) F. transitivity (msum (λ _, quota b) (list_to_map threads : gmap nat local)); [|rewrite threads_sum; by destruct b].
  set (g k := if Bool.eqb (match k with Some _ => true | None => false end) b then Z.abs (total_rounds k) else 0).
  assert (Hg : ∀ l, quota b l = g (kind l)) by (by intros []). transitivity (msum (λ _, g) (kind <$> u_loc x)).
  - rewrite msum_fmap. apply msum_ext. intros t l Hl.
    assert (E : pc_of l = Exit) by (eapply (exited 5 x U t l Hl), elem_of_dom, F, elem_of_dom_2, Hl).
    destruct (exit_rounds 5 x U t l Hl) as [_ [Ed _]]. specialize (Ed E). rewrite <- Hg. unfold part, quota, accessed. rewrite E, Ed.
    destruct (Bool.eqb _ _); [lia|done].
  - rewrite K, msum_fmap. apply msum_ext. intros; symmetry; apply Hg.
Qed.

Lemma ended_by_id x hist id : good x hist → finished x → (id < PRODUCER_COUNT)%nat → msum (λ _, by_id id) (u_loc x) = 100.
Proof.
  intros G F Hlt. destruct (G) as (U & _). transitivity (msum (λ _ l, 100 * of_id id (kind l)) (u_loc x)).
  - apply msum_ext. intros t l Hl. assert (E : pc_of l = Exit) by (eapply (exited 5 x U t l Hl), elem_of_dom, F, elem_of_dom_2, Hl).
    destruct (exit_rounds 5 x U t l Hl) as [_ [Ed _]]. specialize (Ed E). unfold by_id, of_id, accessed. rewrite E.
    destruct l as [i k q|k q]; cbn [kind total_rounds] in *; [|done].
    destruct (decide (i = id)) as [->|Hne]; [rewrite decide_True by done; lia|rewrite decide_False by congruence; lia].
  - pose proof (good_ids x hist id G Hlt) as H1.
    enough (∀ m : gmap nat local, msum (λ _ l, 100 * of_id id (kind l)) m = 100 * msum (λ _ l, of_id id (kind l)) m) as -> by lia.
    intros m. induction m as [|t l m Ht IH] using map_ind; [done|]. rewrite !msum_new, IH by done. lia.
Qed.

(** C18. The bounded buffer, in a run with any preemptions.  Nothing panics: no index is out of range.
    What is printed is what was stored, in order and once each, at most 8 characters behind.  From
    every state the program can be run to its end, and its threads never take more than the 6405
    actions their rounds have.  When all have ended, each of the letters A to D has been printed
    100 times, and nothing else. *)
Theorem mpsc_correct es x : urun next es (start s p c) = Some x →
  (∀ e q, uexec next e x ≠ Some (Panicked q)) ∧
  printed (u_mem x) `prefix_of` history es (start s p c) ∧
  zlen (history es (start s p c)) ≤ zlen (printed (u_mem x)) + BUFFER_SIZE ∧
  zlen (filter (.= Go) es) ≤ 6405 ∧
  (∃ es' y, urun next es' x = Some y ∧ finished y) ∧
  (finished x → zlen (printed (u_mem x)) = 400 ∧
    ∀ ch, ch ∈ THREAD_CODES → count_occ ascii_dec (printed (u_mem x)) ch = NUMBER_PER_PRODUCER).
Proof.
  intros R. pose proof (good_run es _ _ _ good_start R) as G. cbn [app] in G. destruct (G) as (U & C & I & K).
  split; [intros e q; by eapply mpsc_no_panic|]. destruct (mi_printed x _ I) as [Hp1 Hp2]. pose proof (mi_hist x _ I) as Hh.
  split; [done|]. split; [|split; [|split]].
  - rewrite Hp1, Hh. destruct (side 5 x U true) as [H _]. cbn [room_of negb] in H. fold (stored x) (taken x) in H. lia.
  - assert (Hcl : ∀ y, ureach next (start s p c) y → ∀ t i, sy_cont (u_sys y) !! t ≠ Some (CLock i)).
    { intros y Ry t i. destruct (good_reach _ y _ good_start Ry) as [h Gy]. by eapply good_cont. }
    pose proof (go_bound next 5 mpsc_fits _ rank (start s p c) es x (proj1 good_start) Hcl R) as H. pose proof (total_nonneg rank x).
    rewrite total_start in H. lia.
  - apply (can_finish next 5 mpsc_fits _ rank x U C). intros y Ry. destruct (good_reach x y _ G Ry) as [h Gy]. destruct (Gy) as (Uy & _ & Iy & _).
    split; [intros t i; by eapply good_cont|]. split; [by eapply (mpsc_no_deadlock 5 y Uy), good_balanced|]. intros e q. by eapply mpsc_no_panic.
  - intros F. pose proof (ended_quota x _ true G F) as Hst. pose proof (ended_quota x _ false G F) as Htk. fold (stored x) (taken x) in *.
    split; [by rewrite Hp1|]. replace (printed (u_mem x)) with (history es (start s p c)).
    2: { symmetry. apply prefix_length_eq; [done|]. unfold zlen in *. lia. }
    intros ch [id Hid]%list_elem_of_lookup. apply Nat2Z.inj. rewrite (mi_code x _ I id ch Hid).
    rewrite (ended_by_id x _ id G F); [done|]. by apply lookup_lt_Some in Hid.
Qed.
End runs.

Lemma mpsc_correct_witness :
  let x := greedy next 9000 (start five_tasks (seq 1 4) 5) in
  (∃ es, urun next es (start five_tasks (seq 1 4) 5) = Some x) ∧ zlen (printed (u_mem x)) = 400.
Proof.
  cbv zeta. destruct (reach_run _ _ _ (greedy_reach next 9000 (start five_tasks (seq 1 4) 5))) as [es R]. split; [by exists es|].
  refine (proj1 (proj2 (proj2 (proj2 (proj2 (proj2 (mpsc_correct five_tasks 5 (seq 1 4) five_tasks_inv eq_refl _ _ es _ R))))) _)).
  - apply (bool_decide_unpack _). by vm_compute.
  - intros t Ht. replace (dom (task_status five_tasks)) with (list_to_set (seq 1 5) : gset nat) by by vm_compute. apply elem_of_list_to_set.
    revert t Ht. apply (proj1 (Forall_forall (λ t, t ∈ seq 1 5) (5 :: seq 1 4)%nat)). apply (bool_decide_unpack _). by vm_compute.
  - apply (bool_decide_unpack _). by vm_compute.
Defined.
