(* ===== verification/Barrier.v ===== *)
(** * Barrier.v: threads that print in phases
    ([user/src/bin/barrier_condvar.rs])

    A barrier is a counter under a mutex with a condition variable; a thread that waits there does
    so once, not in a loop.  Five threads print a, b, c, d and e with a barrier after each of the
    first four letters; they run on the kernel's mutexes, condition variables and scheduler. *)

From S2P Require Import Prelude Sched Sync UserThreads.
From Stdlib Require Import Ascii.

(** ** The program *)

Definition THREAD_NUM : Z := 5.
Definition REPEAT : nat := 300.

(** [BARRIER_AB], ...: barrier [k] is between the letters [k] and [k + 1], and its objects are
    created, in this order, before any thread gets to it ([lazy_static]): mutex [k], condition
    variable [k]. *)
Definition BARRIERS : nat := 4.

Definition letter (k : nat) : ascii := ascii_of_nat (97 + k).

(** The counters of the barriers, and what has been printed. *)
Record mem : Type := mkMem { counters : list Z; printed : list ascii }.

Definition mem0 : mem := mkMem (replicate BARRIERS 0) [].

(** [Print n]: [n] letters are left.  [block]: lock; load and store [count]; load it and compare;
    signal all or wait; unlock. *)
Inductive pc : Type := Print (n : nat) | BLock | Load | Store (count : Z) | Compare | SignalAll | Wait | Unlock | Exit.

(** [phase]: the letter, and the barrier after it. *)
Record local : Type := mkLocal { phase : nat; th_pc : pc }.

Definition thread_fn : local := mkLocal 0 (Print REPEAT).

Definition with_counter (m : mem) (k : nat) (f : Z → action mem local) : action mem local :=
  match counters m !! k with Some c => f c | None => APanic PIndex end.

Definition next (m : mem) (l : local) : action mem local :=
  let 'mkLocal k p := l in
  match p with
  | Print (S n) => AUser (mkMem (counters m) (printed m ++ [letter k])) (mkLocal k (Print n))
  | Print O => AUser m (mkLocal k (if (k <? BARRIERS)%nat then BLock else Exit))
  | BLock => ALock k (mkLocal k Load)
  | Load => with_counter m k (λ c, AUser m (mkLocal k (Store c)))
  | Store c => with_counter m k (λ _, AUser (mkMem (<[k := u64 (c + 1)]> (counters m)) (printed m)) (mkLocal k Compare))
  | Compare => with_counter m k (λ c, AUser m (mkLocal k (if c =? THREAD_NUM then SignalAll else Wait)))
  | SignalAll => ASignalAll k (mkLocal k Unlock)
  | Wait => AWait k k (mkLocal k Unlock)
  | Unlock => AUnlock k (mkLocal (S k) (Print REPEAT))
  | Exit => AExit 0
  end.

(** [main]: the tasks [ts] are the threads. *)
Definition start (s : Sched) (ts : list nat) : UState mem local :=
  begin s (replicate BARRIERS false) [] BARRIERS mem0 (list_to_map ((λ t, (t, thread_fn)) <$> ts)).

(** ** The discipline *)

Definition in_block (l : local) : bool :=
  match th_pc l with Load | Store _ | Compare | SignalAll | Wait | Unlock => true | _ => false end.

#[export] Instance barrier_discipline : @Discipline local := {|
  ok l := match th_pc l with Print n => (phase l ≤ BARRIERS)%nat ∧ (n ≤ REPEAT)%nat | Exit => phase l = BARRIERS | _ => (phase l < BARRIERS)%nat end;
  holding l := if in_block l then {[phase l]} else ∅;
  net _ _ := 0;
  asleep _ := None;
  mutexes := BARRIERS;
  res := [];
  condvars := BARRIERS;
  net_max := 0;
|}.

#[export] Instance barrier_disciplined : @Disciplined mem local next barrier_discipline.
Proof.
  split.
  - intros m [k p] Hok. unfold action_ok, keeps. cbn [ok holding net barrier_discipline mutexes condvars phase th_pc] in *.
    destruct p as [[|n]| | |c| | | | |]; cbn [next]; unfold with_counter;
      try (destruct (counters m !! k) as [c'|]; [|done]; try destruct (c' =? THREAD_NUM)); try (destruct (Nat.ltb_spec k BARRIERS));
      unfold in_block; cbn [phase th_pc]; try done; split_and?; done || lia || set_solver.
  - done.
  - intros i l Hok Hi. cbn [ok holding barrier_discipline mutexes] in *. unfold in_block in Hi. destruct (th_pc l); try set_solver;
      apply elem_of_singleton in Hi as ->; done.
Qed.

(** ** The invariant of the barriers *)

(** The thread has counted itself at the barrier [k]. *)
Definition entered (k : nat) (l : local) : bool :=
  (k <? phase l)%nat || (phase l =? k)%nat && match th_pc l with Compare | SignalAll | Wait | Unlock => true | _ => false end.

Definition arrived (k : nat) (x : UState mem local) : Z := msum (λ _ l, if entered k l then 1 else 0) (u_loc x).

(** The threads that wait at the barrier [k]. *)
Definition waiters (x : UState mem local) (k : nat) : list nat :=
  condvar_queue (mjoin (condvar_list (sy_world (u_sys x)) !! k)).

Definition active (l : local) : bool := match th_pc l with Store _ | Compare | SignalAll | Wait => true | _ => false end.

Record barrier_inv (x : UState mem local) : Prop := {
  bi_length : length (counters (u_mem x)) = BARRIERS;
  bi_count : ∀ k c, counters (u_mem x) !! k = Some c → c = arrived k x;
  bi_active : ∀ t l, u_loc x !! t = Some l → active l = true → sy_cont (u_sys x) !! t = None;
  bi_store : ∀ t l c, u_loc x !! t = Some l → th_pc l = Store c → c = arrived (phase l) x;
  bi_signal : ∀ t l, u_loc x !! t = Some l → th_pc l = SignalAll → arrived (phase l) x = THREAD_NUM;
  bi_wait : ∀ t l, u_loc x !! t = Some l → th_pc l = Wait → arrived (phase l) x ≠ THREAD_NUM;
  bi_waiters : ∀ k t, t ∈ waiters x k → ∃ l, u_loc x !! t = Some l ∧ phase l = k ∧ th_pc l = Unlock;
  (** The last to arrive is still about to signal. *)
  bi_alive : ∀ k, waiters x k ≠ [] → arrived k x = THREAD_NUM →
    ∃ t l, u_loc x !! t = Some l ∧ phase l = k ∧ (th_pc l = Compare ∨ th_pc l = SignalAll);
  (** Nobody passes before all have arrived. *)
  bi_passed : ∀ t l k, u_loc x !! t = Some l →
    (k < phase l)%nat ∨ (phase l = k ∧ th_pc l = Unlock ∧ t ∉ waiters x k) → arrived k x = THREAD_NUM;
}.

Lemma arrived_move x y t l l' k : u_loc x !! t = Some l → u_loc y = <[t := l']> (u_loc x) →
  arrived k y = arrived k x - (if entered k l then 1 else 0) + (if entered k l' then 1 else 0).
Proof. intros Hl El. unfold arrived. rewrite El. by rewrite (msum_insert _ _ _ _ _ Hl). Qed.

Section counting.
Context (x : UState mem local) (U : uinv next (Z.to_nat THREAD_NUM) x).

Lemma arrived_le k : 0 ≤ arrived k x ≤ THREAD_NUM.
Proof.
  assert (E : ∀ c, msum (λ _ (_ : local), c) (u_loc x) = c * THREAD_NUM) by (intros c; rewrite msum_const, (ui_size _ _ _ U); done).
  split; [transitivity (msum (λ _ (_ : local), 0) (u_loc x)); [by rewrite E|]|transitivity (msum (λ _ (_ : local), 1) (u_loc x)); [|rewrite E; lia]];
    apply msum_le; intros t l _; destruct (entered k l); lia.
Qed.

Lemma arrived_all k t l : arrived k x = THREAD_NUM → u_loc x !! t = Some l → entered k l = true.
Proof.
  intros Ha Hl. destruct (entered k l) eqn:E; [done|exfalso]. unfold arrived in Ha. rewrite (msum_delete _ _ t l Hl), E in Ha.
  assert (msum (λ (_ : nat) l, if entered k l then 1 else 0) (delete t (u_loc x)) ≤ msum (λ _ (_ : local), 1) (delete t (u_loc x))).
  { apply msum_le. intros u k' _. destruct (entered k k'); lia. }
  rewrite msum_const, map_size_delete, Hl, (ui_size _ _ _ U) in *. cbn in *. unfold THREAD_NUM in *. lia.
Qed.

Lemma not_arrived_all k : (∀ t l, u_loc x !! t = Some l → entered k l = true) → arrived k x = THREAD_NUM.
Proof.
  intros H. unfold arrived. rewrite (msum_ext _ (λ _ _, 1)), msum_const, (ui_size _ _ _ U); [done|].
  intros t l Hl. by rewrite (H t l Hl).
Qed.

(** One thread at a time is inside [block], of one barrier. *)
Lemma block_exclusive t u l k : u_loc x !! t = Some l → u_loc x !! u = Some k → in_block l = true → in_block k = true →
  phase l = phase k → sy_cont (u_sys x) !! t = None → sy_cont (u_sys x) !! u = None → t = u.
Proof.
  intros H1 H2 B1 B2 E C1 C2. apply (uinv_exclusive next _ x (phase l) t u l k U H1 H2); cbn [holding barrier_discipline]; try done.
  - rewrite B1. set_solver.
  - rewrite B2, E. set_solver.
Qed.
End counting.

(** A move that changes no counter. *)
Lemma barrier_move x y t l l' : barrier_inv x → u_loc x !! t = Some l → u_loc y = <[t := l']> (u_loc x) →
  counters (u_mem y) = counters (u_mem x) → (∀ k, entered k l' = entered k l) →
  (∀ u, u ≠ t → sy_cont (u_sys y) !! u = sy_cont (u_sys x) !! u) → (active l' = true → sy_cont (u_sys y) !! t = None) →
  match th_pc l' with
  | Store c => c = arrived (phase l') x
  | SignalAll => arrived (phase l') x = THREAD_NUM
  | Wait => arrived (phase l') x ≠ THREAD_NUM
  | _ => True
  end →
  (∀ k u, u ∈ waiters y k → (u ≠ t ∧ u ∈ waiters x k) ∨ (u = t ∧ phase l' = k ∧ th_pc l' = Unlock)) →
  (∀ k u, u ∈ waiters x k → u ∉ waiters y k → arrived k x = THREAD_NUM) →
  (∀ k, waiters y k ≠ [] → arrived k x = THREAD_NUM → waiters x k ≠ [] ∧
    (phase l = k → th_pc l = Compare ∨ th_pc l = SignalAll → phase l' = k ∧ (th_pc l' = Compare ∨ th_pc l' = SignalAll))) →
  (∀ k, (k < phase l')%nat ∨ (phase l' = k ∧ th_pc l' = Unlock ∧ t ∉ waiters y k) → arrived k x = THREAD_NUM) →
  barrier_inv y.
Proof.
  intros I Hl El Em He Hcont Hact Hpc Hq1 Hq2 Halive Hpass.
  assert (Ha : ∀ k, arrived k y = arrived k x) by (intros k; rewrite (arrived_move x y t l l' k Hl El), He; lia).
  assert (Hcase : ∀ u k, u_loc y !! u = Some k → (u = t ∧ k = l') ∨ (u ≠ t ∧ u_loc x !! u = Some k)).
  { intros u k Hu. rewrite El in Hu. apply lookup_insert_Some in Hu as [[<- <-]|[? ?]]; [by left|by right]. }
  assert (Hother : ∀ u k, u ≠ t → u_loc x !! u = Some k → u_loc y !! u = Some k) by (intros u k Hne Hu; rewrite El; by rewrite lookup_insert_ne).
  destruct I. split.
  - by rewrite Em.
  - intros k c. rewrite Em, Ha. apply bi_count0.
  - intros u k Hu Hk. destruct (Hcase u k Hu) as [[-> ->]|[Hne Hu']]; [by apply Hact|]. rewrite Hcont by done. by apply (bi_active0 u k).
  - intros u k c Hu Hk. rewrite Ha. destruct (Hcase u k Hu) as [[-> ->]|[Hne Hu']]; [by rewrite Hk in Hpc|]. by apply (bi_store0 u k).
  - intros u k Hu Hk. rewrite Ha. destruct (Hcase u k Hu) as [[-> ->]|[Hne Hu']]; [by rewrite Hk in Hpc|]. by apply (bi_signal0 u k).
  - intros u k Hu Hk. rewrite Ha. destruct (Hcase u k Hu) as [[-> ->]|[Hne Hu']]; [by rewrite Hk in Hpc|]. by apply (bi_wait0 u k).
  - intros k u Hu. destruct (Hq1 k u Hu) as [[Hne Hu']|(-> & Hp & Hpu)].
    + destruct (bi_waiters0 k u Hu') as (k' & Hk' & ?). exists k'. split; [by apply Hother|done].
    + exists l'. rewrite El, lookup_insert_eq. done.
  - intros k Hne Hk. rewrite Ha in Hk. destruct (Halive k Hne Hk) as [Hx Ht]. destruct (bi_alive0 k Hx Hk) as (u & k' & Hu & Hp & Hpu).
    destruct (decide (u = t)) as [->|Hut]; [|exists u, k'; split; [by apply Hother|done]].
    assert (k' = l) as -> by congruence. destruct (Ht Hp Hpu). exists t, l'. by rewrite El, lookup_insert_eq.
  - intros u k' k Hu Hk. rewrite Ha. destruct (Hcase u k' Hu) as [[-> ->]|[Hne Hu']]; [by apply Hpass|].
    destruct Hk as [Hk|(Hp & Hpu & Hnq)]; [by apply (bi_passed0 u k'); [|left]|].
    destruct (decide (u ∈ waiters x k)) as [Hin|Hnin]; [by apply (Hq2 k u)|]. apply (bi_passed0 u k' k); [done|by right].
Qed.

(** [*count = *count + 1] *)
Lemma barrier_store x y t k c c0 : uinv next (Z.to_nat THREAD_NUM) x → barrier_inv x → u_loc x !! t = Some (mkLocal k (Store c)) →
  u_loc y = <[t := mkLocal k Compare]> (u_loc x) → counters (u_mem x) !! k = Some c0 →
  counters (u_mem y) = <[k := u64 (c + 1)]> (counters (u_mem x)) →
  (∀ u, sy_cont (u_sys y) !! u = sy_cont (u_sys x) !! u) → (∀ j, waiters y j = waiters x j) → barrier_inv y.
Proof.
  intros U I Hl El Hc0 Em Hcont Hw.
  assert (Ha : ∀ j, arrived j y = arrived j x + if decide (j = k) then 1 else 0).
  { intros j. rewrite (arrived_move x y t _ _ j Hl El). unfold entered. cbn [phase th_pc]. case_decide as Hj.
    - subst j. rewrite Nat.ltb_irrefl, Nat.eqb_refl. cbn. lia.
    - rewrite (proj2 (Nat.eqb_neq k j)) by congruence. cbn. rewrite orb_false_r. lia. }
  assert (Hnot : arrived k x ≠ THREAD_NUM).
  { intros H. pose proof (arrived_all x U k t _ H Hl) as He. unfold entered in He. cbn [phase th_pc] in He. by rewrite Nat.ltb_irrefl, andb_false_r in He. }
  assert (Hc : c = arrived k x) by by apply (bi_store x I t _ c Hl).
  pose proof (arrived_le x U k) as Hle.
  assert (Hcase : ∀ u l, u_loc y !! u = Some l → (u = t ∧ l = mkLocal k Compare) ∨ (u ≠ t ∧ u_loc x !! u = Some l)).
  { intros u l Hu. rewrite El in Hu. apply lookup_insert_Some in Hu as [[<- <-]|[? ?]]; [by left|by right]. }
  assert (Halone : ∀ u l, u ≠ t → u_loc x !! u = Some l → active l = true → phase l = k → False).
  { intros u l Hne Hu Hact Hp. apply Hne. apply (block_exclusive x U u t l (mkLocal k (Store c))); auto.
    - unfold active, in_block in *. by destruct (th_pc l).
    - by apply (bi_active x I u l).
    - by apply (bi_active x I t (mkLocal k (Store c))). }
  split.
  - rewrite Em, length_insert. apply I.
  - intros j c'. rewrite Em. intros Hj. rewrite Ha. apply list_lookup_insert_Some in Hj as [(-> & <- & _)|[Hne Hj]].
    + rewrite decide_True by done. rewrite wrap_small; [lia|]. unfold THREAD_NUM in *. lia.
    + rewrite decide_False by done. rewrite (bi_count x I j c' Hj). lia.
  - intros u l Hu Hact. rewrite Hcont. destruct (Hcase u l Hu) as [[-> ->]|[Hne Hu']].
    + by apply (bi_active x I t (mkLocal k (Store c))).
    + by apply (bi_active x I u l).
  - intros u l c' Hu Hp. rewrite Ha. destruct (Hcase u l Hu) as [[-> ->]|[Hne Hu']]; [done|].
    case_decide as Hk; [exfalso; apply (Halone u l Hne Hu'); [by unfold active; rewrite Hp|done]|]. rewrite (bi_store x I u l c' Hu' Hp). lia.
  - intros u l Hu Hp. rewrite Ha. destruct (Hcase u l Hu) as [[-> ->]|[Hne Hu']]; [done|].
    case_decide as Hk; [exfalso; apply (Halone u l Hne Hu'); [by unfold active; rewrite Hp|done]|]. rewrite (bi_signal x I u l Hu' Hp). lia.
  - intros u l Hu Hp. rewrite Ha. destruct (Hcase u l Hu) as [[-> ->]|[Hne Hu']]; [done|].
    case_decide as Hk; [exfalso; apply (Halone u l Hne Hu'); [by unfold active; rewrite Hp|done]|]. pose proof (bi_wait x I u l Hu' Hp). lia.
  - intros j u Hu. rewrite Hw in Hu. destruct (bi_waiters x I j u Hu) as (l & Hl' & ?). exists l. split; [|done].
    rewrite El, lookup_insert_ne; [done|]. intros <-. assert (l = mkLocal k (Store c)) as -> by congruence. naive_solver.
  - intros j Hne Hj. rewrite Hw in Hne. rewrite Ha in Hj. case_decide as Hk.
    + subst j. exists t, (mkLocal k Compare). rewrite El, lookup_insert_eq. cbn. auto.
    + destruct (bi_alive x I j Hne) as (u & l & Hu & Hp & Hpu); [lia|]. exists u, l. split; [|done].
      rewrite El, lookup_insert_ne; [done|]. intros <-. assert (l = mkLocal k (Store c)) as -> by congruence. cbn in Hp. congruence.
  - intros u l j Hu Hj. rewrite Ha. rewrite Hw in Hj. destruct (Hcase u l Hu) as [[-> ->]|[Hne Hu']].
    + cbn in Hj. destruct Hj as [Hj|[_ [? _]]]; [|done]. rewrite decide_False by lia.
      rewrite (bi_passed x I t (mkLocal k (Store c)) j Hl) by (by left). lia.
    + pose proof (bi_passed x I u l j Hu' Hj) as Hjj. rewrite decide_False by congruence. lia.
Qed.

(** Every event keeps the invariant. *)
Lemma barrier_step x e y : uinv next (Z.to_nat THREAD_NUM) x → barrier_inv x → uexec next e x = Some (Done y) → barrier_inv y.
Proof.
  intros U I E. pose proof (ui_sys _ _ _ U) as Sy.
  apply uexec_inv in E as [(t & l & Hc & Hl & Hk & _ & Hcall & Em & El & _)|(Em & El & _ & Ecv & Hcont)].
  - cbv zeta in *. pose proof (kcall_cont _ _ _ _ Hcall) as Hcont. pose proof (kcall_condvars _ _ _ _ (sy_sched _ Sy) Hc Hcall) as Hcv. cbv zeta in Hcv.
    assert (Htw : ∀ k, t ∉ waiters x k).
    { intros k Ht. unfold waiters in Ht. destruct (condvar_list (sy_world (u_sys x)) !! k) as [[q|]|] eqn:Eq; cbn in Ht; try by apply not_elem_of_nil in Ht.
      by apply (proj2 (current_apart _ t Sy Hc) k q Eq). }
    destruct (ui_thread _ _ _ U t l Hl) as [Hok _]. cbn [ok barrier_discipline] in Hok.
    destruct l as [k p]. cbn [phase th_pc] in *.
    assert (Hquiet : ∀ l', condvar_list (sy_world (u_sys y)) = condvar_list (sy_world (u_sys x)) → u_loc y = <[t := l']> (u_loc x) →
      counters (u_mem y) = counters (u_mem x) → (∀ j, entered j l' = entered j (mkLocal k p)) → phase l' = k →
      (active l' = true → sy_cont (u_sys y) !! t = None) →
      match th_pc l' with Store c => c = arrived k x | SignalAll => arrived k x = THREAD_NUM | Wait => arrived k x ≠ THREAD_NUM | _ => True end →
      (p = Compare ∨ p = SignalAll → arrived k x = THREAD_NUM → th_pc l' = Compare ∨ th_pc l' = SignalAll) → th_pc l' ≠ Unlock → barrier_inv y).
    { intros l' Ecv El' Em' He Hph Hact Hpc Hal Hnu. assert (Hw : ∀ j, waiters y j = waiters x j) by (intros j; unfold waiters; by rewrite Ecv).
      apply (barrier_move x y t (mkLocal k p) l'); auto; rewrite ?Hph; auto.
      - intros j u. rewrite Hw. intros Hu. left. split; [|done]. intros ->. by apply (Htw j).
      - intros j u Hu Hn. by rewrite Hw in Hn.
      - intros j Hj Hjj. rewrite Hw in Hj. split; [done|]. cbn. intros <- Hp. split; [done|]. by apply Hal.
      - intros j [Hj|(_ & ? & _)]; [|done]. apply (bi_passed x I t (mkLocal k p) j Hl). by left. }
    assert (Hsame : ∀ m' l', kcall (u_sys x) t (AUser m' l' : action mem local) = Done (u_sys y) → sy_cont (u_sys y) !! t = None).
    { intros m' l' H. destruct (u_sys x). injection H as <-. exact Hk. }
    destruct p as [[|r]| | |c| | | | |]; cbn [next] in *.
    + apply (Hquiet _ Hcv El); try done; [by rewrite Em|intros j; by destruct (k <? BARRIERS)%nat|intros _; by eapply Hsame|by destruct (k <? BARRIERS)%nat|naive_solver|by destruct (k <? BARRIERS)%nat].
    + apply (Hquiet _ Hcv El); try done; [by rewrite Em|naive_solver].
    + apply (Hquiet _ Hcv El); try done; [by rewrite Em|naive_solver].
    + unfold with_counter in *. destruct (counters (u_mem x) !! k) as [c|] eqn:Ec; [|by destruct (u_sys x)].
      apply (Hquiet _ Hcv El); try done; [by rewrite Em|intros _; by eapply Hsame|by apply (bi_count x I)|naive_solver].
    + unfold with_counter in *. destruct (counters (u_mem x) !! k) as [c0|] eqn:Ec; [|by destruct (u_sys x)].
      apply (barrier_store x y t k c c0 U I Hl El Ec); [by rewrite Em| |intros j; unfold waiters; by rewrite Hcv].
      intros u. destruct (decide (u = t)) as [->|]; [rewrite Hk; by eapply Hsame|by apply Hcont].
    + unfold with_counter in *. destruct (counters (u_mem x) !! k) as [c|] eqn:Ec; [|by destruct (u_sys x)].
      pose proof (bi_count x I k c Ec) as Hcnt. cbn [loc_after] in El. destruct (Z.eqb_spec c THREAD_NUM) as [E|E].
      * apply (Hquiet _ Hcv El); try done; [by rewrite Em|intros _; by eapply Hsame|cbn; congruence|by right].
      * apply (Hquiet _ Hcv El); try done; [by rewrite Em|intros _; by eapply Hsame|cbn; congruence|congruence].
    + pose proof (bi_signal x I t _ Hl eq_refl) as Hfull. cbn [phase] in Hfull.
      assert (Hw : ∀ j, waiters y j = if decide (j = k) then [] else waiters x j).
      { intros j. unfold waiters. rewrite Hcv. case_decide as Hj; [|by rewrite list_lookup_insert_ne by congruence].
        subst j. destruct (decide (k < length (condvar_list (sy_world (u_sys x))))%nat) as [Hlt|Hge]; [by rewrite list_lookup_insert_eq|].
        rewrite lookup_ge_None_2; [done|rewrite length_insert; lia]. }
      apply (barrier_move x y t _ _ I Hl El); try done; [by rewrite Em| | | |].
      * intros j u. rewrite Hw. case_decide; [intros Hu; by apply not_elem_of_nil in Hu|]. intros Hu. left. split; [|done]. intros ->. by apply (Htw j).
      * intros j u Hu. rewrite Hw. case_decide; [by subst|done].
      * intros j. rewrite Hw. case_decide as Hj; [done|]. intros Hne _. split; [done|]. cbn. congruence.
      * intros j [Hj|(<- & _ & _)]; [|done]. apply (bi_passed x I t _ j Hl). by left.
    + destruct Hcv as (q & Hq & Hcv). pose proof (bi_wait x I t _ Hl eq_refl) as Hnf. cbn [phase] in Hnf.
      assert (Hw : ∀ j, waiters y j = if decide (j = k) then waiters x j ++ [t] else waiters x j).
      { intros j. unfold waiters. rewrite Hcv. case_decide as Hj; [|by rewrite list_lookup_insert_ne by congruence].
        subst j. rewrite list_lookup_insert_eq by (by eapply lookup_lt_Some). by rewrite Hq. }
      apply (barrier_move x y t _ _ I Hl El); try done; [by rewrite Em| | | |].
      * intros j u. rewrite Hw. case_decide as Hj; [|intros Hu; left; split; [intros ->; by apply (Htw j)|done]].
        intros [Hu|Hu%list_elem_of_singleton]%elem_of_app; [left; split; [intros ->; by apply (Htw j)|done]|right; by subst].
      * intros j u Hu. rewrite Hw. case_decide; [|done]. intros Hn. destruct Hn. apply elem_of_app. by left.
      * intros j. rewrite Hw. case_decide as Hj; [by subst|]. intros Hne _. split; [done|]. cbn. congruence.
      * intros j [Hj|(Hj & _ & Hn)]; [apply (bi_passed x I t _ j Hl); by left|]. cbn in Hj. subst j. rewrite Hw, decide_True in Hn by done.
        destruct Hn. apply elem_of_app. right. by apply list_elem_of_singleton.
    + assert (Hw : ∀ j, waiters y j = waiters x j) by (intros j; unfold waiters; by rewrite Hcv).
      assert (Hfull : arrived k x = THREAD_NUM) by (apply (bi_passed x I t _ k Hl); right; by split_and!).
      apply (barrier_move x y t _ _ I Hl El); try done; [by rewrite Em| | | | |].
      * intros j. unfold entered. cbn [loc_after phase th_pc]. destruct (Nat.ltb_spec j (S k)), (Nat.ltb_spec j k), (Nat.eqb_spec (S k) j), (Nat.eqb_spec k j); cbn; lia || done.
      * intros j u. rewrite Hw. intros Hu. left. split; [|done]. intros ->. by apply (Htw j).
      * intros j u Hu Hn. by rewrite Hw in Hn.
      * intros j Hj _. rewrite Hw in Hj. split; [done|]. cbn. intros _ [?|?]; done.
      * cbn. intros j [Hj|(_ & ? & _)]; [|done]. destruct (decide (j = k)) as [->|]; [done|]. apply (bi_passed x I t _ j Hl). left. cbn. lia.
    + apply (Hquiet _ Hcv El); try done; by rewrite Em.
  - assert (Ha : ∀ k, arrived k y = arrived k x) by (intros k; unfold arrived; by rewrite El).
    assert (Hw : ∀ j, waiters y j = waiters x j) by (intros j; unfold waiters; by rewrite Ecv).
    assert (Hact : ∀ t l, u_loc x !! t = Some l → active l = true → sy_cont (u_sys y) !! t = None); [|
      destruct I; split; rewrite ?Em, ?El; try done; intros *; rewrite ?Ha, ?Hw; eauto].
    intros t l Hl Hact. pose proof (bi_active x I t l Hl Hact) as Hn.
    destruct Hcont as [(u & i & _ & _ & Hu & Hcont)|[_ Hcont]]; [rewrite Hcont by congruence; done|]. destruct (Hcont t) as [->|]; done.
Qed.

(** ** What is printed *)

Definition code (ch : ascii) : nat := nat_of_ascii ch.

Definition in_order (out : list ascii) : Prop :=
  ∀ i j a b, (i ≤ j)%nat → out !! i = Some a → out !! j = Some b → (code a ≤ code b)%nat.

(** How many letters [k] a thread has printed. *)
Definition printed_by (k : nat) (l : local) : Z :=
  if decide (k < phase l)%nat then Z.of_nat REPEAT
  else if decide (k = phase l) then match th_pc l with Print n => Z.of_nat (REPEAT - n) | _ => Z.of_nat REPEAT end
  else 0.

Record output_inv (x : UState mem local) : Prop := {
  oi_order : in_order (printed (u_mem x));
  oi_letters : ∀ ch, ch ∈ printed (u_mem x) → ∃ k, (k ≤ BARRIERS)%nat ∧ ch = letter k ∧ ∀ j, (j < k)%nat → arrived j x = THREAD_NUM;
  oi_count : ∀ k, (k ≤ BARRIERS)%nat → Z.of_nat (count_occ ascii_dec (printed (u_mem x)) (letter k)) = msum (λ _, printed_by k) (u_loc x);
}.

Lemma letter_code k : (k ≤ BARRIERS)%nat → code (letter k) = (97 + k)%nat.
Proof. unfold BARRIERS. intros H. by do 5 (destruct k as [|k]; [reflexivity|]); lia. Qed.

Lemma in_order_snoc out ch : in_order out → (∀ a, a ∈ out → (code a ≤ code ch)%nat) → in_order (out ++ [ch]).
Proof.
  intros H Hle i j a b Hij Ha Hb.
  apply lookup_app_Some in Hb as [Hb|[Hj Hb]].
  - assert (Ha' : out !! i = Some a).
    { apply lookup_app_Some in Ha as [Ha|[Hi _]]; [done|]. apply lookup_lt_Some in Hb. lia. }
    by apply (H i j).
  - apply list_lookup_singleton_Some in Hb as [Hb <-]. apply lookup_app_Some in Ha as [Ha|[Hi Ha]].
    + by eapply Hle, list_elem_of_lookup_2.
    + by apply list_lookup_singleton_Some in Ha as [_ <-].
Qed.

Lemma entered_mono m l k : entered k l = true → entered k (loc_after (next m l) l) = true.
Proof.
  unfold entered. destruct l as [p q]. intros H. destruct q as [[|r]| | |c| | | | |]; cbn [next]; unfold with_counter; try (destruct (counters m !! p) as [c'|]; try destruct (c' =? THREAD_NUM));
    try destruct (p <? BARRIERS)%nat; cbn [loc_after phase th_pc] in *; try done.
  all: revert H; destruct (Nat.ltb_spec k p), (Nat.eqb_spec p k), (Nat.ltb_spec k (S p)), (Nat.eqb_spec (S p) k); cbn; done || lia.
Qed.

Lemma arrived_mono x e y k : uinv next (Z.to_nat THREAD_NUM) y → uexec next e x = Some (Done y) → arrived k x = THREAD_NUM → arrived k y = THREAD_NUM.
Proof.
  intros U E Ha. apply uexec_inv in E as [(t & l & _ & Hl & _ & _ & _ & _ & El & _)|(_ & El & _)]; [|unfold arrived in *; by rewrite El].
  rewrite (arrived_move x y t l _ k Hl El) in *. pose proof (arrived_le y U k) as Hle. rewrite (arrived_move x y t l _ k Hl El) in Hle.
  destruct (entered k l) eqn:He; [rewrite (entered_mono (u_mem x) l k He) in *; lia|].
  destruct (entered k (loc_after _ l)); lia.
Qed.

Lemma output_step x e y : uinv next (Z.to_nat THREAD_NUM) x → uinv next (Z.to_nat THREAD_NUM) y → barrier_inv x → output_inv x →
  uexec next e x = Some (Done y) → output_inv y.
Proof.
  intros U U' I [Ho Hf Hn] E. pose proof (λ k, arrived_mono x e y k U' E) as Hmono.
  apply uexec_inv in E as [(t & l & _ & Hl & _ & _ & Hcall & Em & El & _)|(Em & El & _)].
  2: { split; rewrite ?Em, ?El; [done| |done]. intros ch Hch. destruct (Hf ch Hch) as (k & Hk & -> & H). exists k. auto. }
  cbv zeta in *. destruct (ui_thread _ _ _ U t l Hl) as [Hok _]. cbn [ok barrier_discipline] in Hok.
  assert (Hquiet : printed (u_mem y) = printed (u_mem x) →
    (∀ k, (k ≤ BARRIERS)%nat → printed_by k (loc_after (next (u_mem x) l) l) = printed_by k l) → output_inv y).
  { intros Ep Hpb. split; rewrite ?Ep; [done| |].
    - intros ch Hch. destruct (Hf ch Hch) as (k & Hk & -> & H). exists k. auto.
    - intros k Hk. rewrite El, (msum_insert _ _ _ _ _ Hl), Hpb, (Hn k Hk) by done. lia. }
  destruct l as [k p]. cbn [phase th_pc] in *. destruct p as [[|r]| | |c| | | | |]; cbn [next] in *.
  - apply Hquiet; [by rewrite Em|]. intros j Hj. unfold printed_by. cbn [loc_after phase th_pc]. rewrite Nat.sub_0_r. by destruct (k <? BARRIERS)%nat.
  - cbn [loc_after mem_after] in *. destruct Hok as [Hkb Hr].
    assert (Hle : ∀ a, a ∈ printed (u_mem x) → (code a ≤ code (letter k))%nat).
    { intros a Ha. destruct (Hf a Ha) as (j & Hj & -> & Hall). rewrite !letter_code by done.
      destruct (decide (k < j)%nat) as [Hlt|]; [exfalso|lia]. pose proof (arrived_all x U k t _ (Hall k Hlt) Hl) as He.
      unfold entered in He. cbn [phase th_pc] in He. by rewrite Nat.ltb_irrefl, andb_false_r in He. }
    split; rewrite Em; cbn [printed].
    + by apply in_order_snoc.
    + intros ch [Hch|Hch]%elem_of_app; [|apply list_elem_of_singleton in Hch as ->].
      * destruct (Hf ch Hch) as (j & Hj & -> & H). exists j. auto.
      * exists k. split; [done|]. split; [done|]. intros j Hj. apply Hmono. apply (bi_passed x I t _ j Hl). by left.
    + intros j Hj. rewrite El, (msum_insert _ _ _ _ _ Hl), count_occ_app. cbn [count_occ].
      assert (Hpb : printed_by j (mkLocal k (Print r)) = printed_by j (mkLocal k (Print (S r))) + if decide (j = k) then 1 else 0).
      { unfold printed_by. cbn [phase th_pc]. repeat case_decide; lia. }
      rewrite Hpb. pose proof (Hn j Hj). destruct (ascii_dec (letter k) (letter j)) as [El'|Hne].
      * assert (j = k) as -> by (pose proof (letter_code k Hkb); pose proof (letter_code j Hj); rewrite El' in *; lia).
        rewrite decide_True by done. lia.
      * rewrite decide_False by congruence. lia.
  - apply Hquiet; [by rewrite Em|]. done.
  - unfold with_counter in *. destruct (counters (u_mem x) !! k); [|by destruct (u_sys x)]. apply Hquiet; [by rewrite Em|]. done.
  - unfold with_counter in *. destruct (counters (u_mem x) !! k); [|by destruct (u_sys x)]. apply Hquiet; [by rewrite Em|]. done.
  - unfold with_counter in *. destruct (counters (u_mem x) !! k) as [c|]; [|by destruct (u_sys x)]. apply Hquiet; [by rewrite Em|].
    intros j _. unfold printed_by. cbn [loc_after phase th_pc]. by destruct (c =? THREAD_NUM).
  - apply Hquiet; [by rewrite Em|]. done.
  - apply Hquiet; [by rewrite Em|]. done.
  - apply Hquiet; [by rewrite Em|]. intros j Hj. unfold printed_by. cbn [loc_after phase th_pc]. repeat case_decide; lia.
  - apply Hquiet; [by rewrite Em|]. done.
Qed.

(** ** Nobody is left behind *)

Lemma barrier_no_panic x e p : uinv next (Z.to_nat THREAD_NUM) x → barrier_inv x → uexec next e x ≠ Some (Panicked p).
Proof.
  intros U I E. destruct (uinv_no_panic next _ _ x e p U E) as (t & l & _ & Hl & Ha).
  destruct (ui_thread _ _ _ U t l Hl) as [Hok _]. cbn [ok barrier_discipline] in Hok. destruct l as [k q]. cbn [phase th_pc] in Hok.
  assert (Hk : (k < BARRIERS)%nat → ∃ c, counters (u_mem x) !! k = Some c).
  { intros H. apply lookup_lt_is_Some_2. by rewrite (bi_length x I). }
  destruct q as [[|r]| | |c| | | | |]; cbn [next] in Ha; unfold with_counter in Ha; try done; destruct (Hk Hok) as [c' Hc']; by rewrite Hc' in Ha.
Qed.

Section idle.
Context (x : UState mem local) (U : uinv next (Z.to_nat THREAD_NUM) x) (I : barrier_inv x) (Hsp : spins (sy_world (u_sys x))) (Hst : stuck x).

(** A thread has ended or waits at its barrier. *)
Lemma idle_where t l : u_loc x !! t = Some l →
  (phase l = BARRIERS ∧ th_pc l = Exit ∧ is_Some (u_exit x !! t)) ∨ (th_pc l = Unlock ∧ (phase l < BARRIERS)%nat ∧ t ∈ waiters x (phase l)).
Proof.
  intros Hl. destruct (ui_thread _ _ _ U t l Hl) as [Hok _]. cbn [ok barrier_discipline] in Hok. destruct (u_exit x !! t) as [c|] eqn:He.
  - left. destruct (ui_exit _ _ _ U t l Hl) as [_ H]. destruct (H c He) as [m Hm]. destruct l as [k q].
    destruct q as [[|r]| | |c'| | | | |]; cbn [next] in Hm; unfold with_counter in Hm; try done; try (by destruct (counters m !! k)).
  - right. destruct (uinv_idle next _ x t l U) as [[i Hi]|[(i & _ & Hi)|(j & q & Hj & Hin)]]; [apply Hst; by eexists|done|done| | |].
    + rewrite (spins_queue _ i Hsp) in Hi. by apply not_elem_of_nil in Hi.
    + cbn in Hi. lia.
    + assert (Hw : t ∈ waiters x j) by (unfold waiters; by rewrite Hj). destruct (bi_waiters x I j t Hw) as (l' & Hl' & Hp & Hpc).
      assert (l' = l) as -> by congruence. rewrite Hpc in Hok. by subst.
Qed.

Lemma idle_full k : (k < BARRIERS)%nat → arrived k x = THREAD_NUM.
Proof.
  induction k as [k IH] using lt_wf_ind. intros Hk. apply (not_arrived_all x U). intros t l Hl. unfold entered.
  destruct (idle_where t l Hl) as [(Hp & _)|(Hpc & Hp & Hw)]; [by rewrite Hp, (proj2 (Nat.ltb_lt _ _) Hk)|].
  rewrite Hpc, andb_true_r. destruct (Nat.ltb_spec k (phase l)) as [|Hle]; [done|]. destruct (Nat.eqb_spec (phase l) k) as [|Hne]; [done|exfalso].
  destruct (bi_alive x I (phase l)) as (u & l' & Hu & _ & Hpu).
  - intros E. rewrite E in Hw. by apply not_elem_of_nil in Hw.
  - apply IH; lia.
  - destruct (idle_where u l' Hu) as [(_ & E & _)|(E & _)]; rewrite E in Hpu; naive_solver.
Qed.

Lemma barrier_no_deadlock : finished x.
Proof.
  intros t [l Hl]%elem_of_dom. apply elem_of_dom. destruct (idle_where t l Hl) as [(_ & _ & ?)|(_ & Hp & Hw)]; [done|exfalso].
  destruct (bi_alive x I (phase l)) as (u & l' & Hu & _ & Hpu); [|by apply idle_full|].
  - intros E. rewrite E in Hw. by apply not_elem_of_nil in Hw.
  - destruct (idle_where u l' Hu) as [(_ & E & _)|(E & _)]; rewrite E in Hpu; naive_solver.
Qed.
End idle.

(** ** All runs *)

Definition good (x : UState mem local) : Prop :=
  uinv next (Z.to_nat THREAD_NUM) x ∧ barrier_inv x ∧ output_inv x ∧ spins (sy_world (u_sys x)).

Lemma barrier_fits n : @fits local barrier_discipline n.
Proof. by intros i r Hr. Qed.

Section runs.
Context (s : Sched) (ts : list nat).
Context (Hs : sched_inv s []) (Hn : zlen ts = THREAD_NUM) (Hnd : NoDup ts) (Hin : ∀ t, t ∈ ts → t ∈ dom (task_status s)).

Lemma start_lookup t l : u_loc (start s ts) !! t = Some l → t ∈ ts ∧ l = thread_fn.
Proof.
  intros H. apply elem_of_list_to_map_2 in H. apply list_elem_of_fmap in H as (u & [= -> ->] & Hu). done.
Qed.

Lemma start_good : good (start s ts).
Proof.
  assert (Hfst : ((λ t, (t, thread_fn)) <$> ts).*1 = ts) by (rewrite <- list_fmap_compose; apply list_fmap_id).
  assert (Hsize : size (u_loc (start s ts)) = Z.to_nat THREAD_NUM).
  { cbn. rewrite map_size_list_to_map by (by rewrite Hfst). rewrite length_fmap. unfold zlen in Hn. lia. }
  assert (Hsum : ∀ f : local → Z, f thread_fn = 0 → msum (λ _, f) (u_loc (start s ts)) = 0).
  { intros f Hf. rewrite (msum_ext _ (λ _ _, 0)), msum_const; [done|]. intros t l Hl. by destruct (start_lookup t l Hl) as [_ ->]. }
  assert (Ha : ∀ k, arrived k (start s ts) = 0) by (intros k; apply (Hsum (λ l, if entered k l then 1 else 0)); unfold entered; cbn; by rewrite andb_false_r).
  assert (Hw : ∀ k, waiters (start s ts) k = []).
  { intros k. unfold waiters. cbn [start begin u_sys sy_world]. rewrite create_lists. cbn [condvar_list]. rewrite list_lookup_fmap.
    destruct (replicate BARRIERS [] !! k) as [q|] eqn:E; [|done]. by apply lookup_replicate in E as [-> _]. }
  split; [|split; [|split]].
  - rewrite <- Hsize. change (start s ts) with (begin s (replicate BARRIERS false) (@res local barrier_discipline) (@condvars local barrier_discipline) mem0
      (list_to_map ((λ t, (t, thread_fn)) <$> ts))). apply uinv_begin; [done|done|apply barrier_fits|done|].
    intros t l Hl. destruct (start_lookup t l Hl) as [Ht ->]. split; [by apply Hin|]. split; [|done]. cbn. unfold BARRIERS. lia.
  - split; try (intros *; rewrite ?Ha, ?Hw; try done; intros Hl; destruct (start_lookup _ _ Hl) as [_ ->]; done).
    + intros k c. rewrite Ha. cbn [start begin u_mem mem0 counters]. by intros [-> _]%lookup_replicate.
    + intros k t. rewrite Hw. by intros ?%not_elem_of_nil.
    + intros t l k Hl. destruct (start_lookup t l Hl) as [_ ->]. cbn. intros [?|(_ & ? & _)]; [lia|done].
  - split; [by intros i j a b _ ?|by intros ch ?%not_elem_of_nil|]. intros k Hk. cbn [start begin u_mem mem0 printed count_occ].
    symmetry. apply Hsum. unfold printed_by. cbn [phase th_pc thread_fn]. repeat case_decide; lia.
  - intros i m. cbn [start begin u_sys sy_world]. rewrite create_lists. cbn [mutex_list]. rewrite list_lookup_fmap, fmap_replicate.
    destruct (replicate BARRIERS _ !! i) as [o|] eqn:E; [|done]. apply lookup_replicate in E as [-> _]. intros [= <-]. by eexists.
Qed.

Lemma good_reachable x : ureach next (start s ts) x → good x.
Proof.
  intros R. pose proof start_good as G. revert G. generalize (start s ts) R. clear. intros x0 R.
  induction R as [|x0 y x [e He] _ IH]; [done|]. intros (U & I & O & S). apply IH.
  pose proof (uinv_event next _ (barrier_fits _) _ _ _ _ U He) as U'. split; [done|]. split; [exact (barrier_step x0 e y U I He)|].
  split; [by apply (output_step x0 e y)|]. exact (spins_event next _ x0 e y U S He).
Qed.

(** C19. The barriers, whatever the preemptions.  Nothing panics.  A thread that is past a barrier finds
    that all five have counted themselves there, so the letters come out in order: no b before the
    last a.  No wake-up is lost: some thread can go on until all have ended, and then each letter
    from a to e has been printed 1500 times. *)
Theorem barrier_correct x : ureach next (start s ts) x →
  (∀ e p, uexec next e x ≠ Some (Panicked p)) ∧
  (∀ t l k u l', u_loc x !! t = Some l → (k < phase l)%nat → u_loc x !! u = Some l' → entered k l' = true) ∧
  in_order (printed (u_mem x)) ∧
  (stuck x → finished x) ∧
  (finished x → ∀ k, (k ≤ BARRIERS)%nat → count_occ ascii_dec (printed (u_mem x)) (letter k) = (5 * REPEAT)%nat).
Proof.
  intros R. destruct (good_reachable x R) as (U & I & O & S). split; [intros e p; by apply barrier_no_panic|]. split; [|split; [|split]].
  - intros t l k u l' Hl Hk Hu. apply (arrived_all x U k u l'); [|done]. apply (bi_passed x I t l k Hl). by left.
  - apply O.
  - by apply barrier_no_deadlock.
  - intros F k Hk. apply Nat2Z.inj. rewrite (oi_count x O k Hk). rewrite (msum_ext _ (λ _ _, Z.of_nat REPEAT)), msum_const, (ui_size _ _ _ U); [done|].
    intros t l Hl. assert (He : is_Some (u_exit x !! t)) by (apply elem_of_dom, F, elem_of_dom; by eexists).
    destruct He as [c He]. destruct (ui_exit _ _ _ U t l Hl) as [_ H]. destruct (H c He) as [m Hm].
    destruct (ui_thread _ _ _ U t l Hl) as [Hok _]. cbn [ok barrier_discipline] in Hok. destruct l as [j q].
    destruct q as [[|r]| | |c'| | | | |]; cbn [next] in Hm; unfold with_counter in Hm; try done; try (by destruct (counters m !! j)).
    cbn [phase th_pc] in Hok. subst j. unfold printed_by. cbn [phase th_pc]. repeat case_decide; lia || done.
Qed.
End runs.

Lemma barrier_correct_witness :
  let x := greedy next 9000 (start five_tasks (seq 1 5)) in
  ureach next (start five_tasks (seq 1 5)) x ∧ count_occ ascii_dec (printed (u_mem x)) (letter 4) = 1500%nat.
Proof.
  cbv zeta. assert (R := greedy_reach next 9000 (start five_tasks (seq 1 5))). split; [exact R|].
  refine (proj2 (proj2 (proj2 (proj2 (barrier_correct five_tasks (seq 1 5) five_tasks_inv eq_refl _ _ _ R)))) _ 4%nat _).
  - apply NoDup_seq.
  - intros t Ht. replace (dom (task_status five_tasks)) with (list_to_set (seq 1 5) : gset nat) by by vm_compute. by apply elem_of_list_to_set.
  - apply (bool_decide_unpack _). by vm_compute.
  - unfold BARRIERS. lia.
Defined.
