(* ===== verification/Timer.v ===== *)
(** * Timer.v: sleeping threads ([os/src/timer.rs], [sys_sleep])

    [BinaryHeap] is the standard library's: an interface with its documented behaviour ([peek] and
    [pop] give a greatest element, the order of equal ones is open), and one implementation.  The
    time is an argument.  The task of a timer is its address; [check_timer] reads the tid of the
    task to log it, so the task must have its resources ([has_res]). *)

From S2P Require Import Prelude Sched.
From Stdlib Require Import Sorting.Sorted.

Definition TICKS_PER_SEC : Z := 100.
Definition MSEC_PER_SEC : Z := 1000.
Definition CLOCK_FREQ : Z := 12500000.

(** [get_time_ms] and the argument of [set_timer] in [set_next_trigger], from the time register. *)
Definition get_time_ms (time : Z) : Z := time / (CLOCK_FREQ / MSEC_PER_SEC).
Definition set_next_trigger (time : Z) : Z := u64 (time + CLOCK_FREQ / TICKS_PER_SEC).

Record TimerCondVar : Type := mkTimer {
  expire_ms : Z;
  timer_task : nat;
}.

(** [Ord for TimerCondVar]: the key that is compared is [-(expire_ms as isize)]. *)
Definition timer_key (t : TimerCondVar) : Z := i64 (- i64 (expire_ms t)).
Definition timer_cmp (a b : TimerCondVar) : comparison := timer_key a ?= timer_key b.

Class BinaryHeap (H : Type) : Type := {
  heap_new : H;
  heap_push : TimerCondVar → H → H;
  heap_peek : H → option TimerCondVar;
  heap_pop : H → H;
  heap_drain : H → list TimerCondVar;
}.

Class BinaryHeapLaws (H : Type) `{BinaryHeap H} : Type := {
  heap_new_elems : heap_drain heap_new ≡ₚ [];
  heap_push_elems t h : heap_drain (heap_push t h) ≡ₚ t :: heap_drain h;
  heap_peek_None h : heap_peek h = None ↔ heap_drain h = [];
  heap_peek_max h t : heap_peek h = Some t → t ∈ heap_drain h ∧ ∀ u, u ∈ heap_drain h → timer_cmp u t ≠ Gt;
  heap_pop_elems h t : heap_peek h = Some t → heap_drain h ≡ₚ t :: heap_drain (heap_pop h);
}.

Section timers.
Context {H : Type} `{BinaryHeap H}.

(** [TIMERS] and the scheduler. *)
Record Sleep : Type := mkSleep {
  timers : H;
  sl_sched : Sched;
}.

Definition add_timer (x : Sleep) (expire_ms : Z) (task : nat) (has_res : nat → bool) : outcome Sleep :=
  assert_that (has_res task) PUnwrap;;
  mret (mkSleep (heap_push (mkTimer expire_ms task) (timers x)) (sl_sched x)).

Definition remove_timer (x : Sleep) (task : nat) : Sleep :=
  let temp := foldl (λ temp condvar, if bool_decide (task = timer_task condvar) then temp else heap_push condvar temp)
    heap_new (heap_drain (timers x)) in
  mkSleep temp (sl_sched x).

(** The loop of [check_timer], [n] iterations at most. *)
Fixpoint check_loop (n : nat) (x : Sleep) (current_ms : Z) (has_res : nat → bool) : outcome (option Sleep) :=
  match n with
  | O => mret None
  | S n =>
      match heap_peek (timers x) with
      | None => mret (Some x)
      | Some timer =>
          if expire_ms timer <=? current_ms then
            assert_that (has_res (timer_task timer)) PUnwrap;;
            check_loop n (mkSleep (heap_pop (timers x)) (wakeup_task (sl_sched x) (timer_task timer))) current_ms has_res
          else mret (Some x)
      end
  end.

(** One iteration per timer and one to stop are enough ([check_timer_wakes]). *)
Definition check_timer (x : Sleep) (time : Z) (has_res : nat → bool) : outcome (option Sleep) :=
  check_loop (S (length (heap_drain (timers x)))) x (get_time_ms time) has_res.

(** [sys_sleep] up to the switch. *)
Definition sys_sleep (x : Sleep) (time ms : Z) (has_res : nat → bool) : outcome Sleep :=
  let expire_ms := u64 (get_time_ms time + ms) in
  task ← unwrap PUnwrap (current_task (sl_sched x));
  x ← add_timer x expire_ms task has_res;
  s ← block_current_task (sl_sched x);
  mret (mkSleep (timers x) s).

(** [remove_inactive_task]: a thread of a process that ends. *)
Definition remove_inactive_task (x : Sleep) (task : nat) : Sleep :=
  let x := mkSleep (timers x) (remove_task (sl_sched x) task) in
  remove_timer x task.

Context `{!BinaryHeapLaws H}.

Abbreviation elems x := (heap_drain (timers x)).

Lemma remove_timer_elems x task :
  elems (remove_timer x task) ≡ₚ filter (λ t, timer_task t ≠ task) (elems x).
Proof.
  unfold remove_timer. cbn [timers]. set (f := λ _ _, _).
  cut (∀ l h, heap_drain (foldl f h l) ≡ₚ filter (λ t, timer_task t ≠ task) l ++ heap_drain h).
  { intros ->. by rewrite heap_new_elems, app_nil_r. }
  induction l as [|t l IH]; intros h; [done|]. cbn [foldl]. rewrite IH. unfold f. case_bool_decide as E.
  - by rewrite filter_cons_False by (intros ?; congruence).
  - rewrite filter_cons_True by congruence. rewrite heap_push_elems. cbn. by rewrite <- Permutation_middle.
Qed.

Lemma timer_cmp_small a b : 0 ≤ expire_ms a < 2 ^ 63 → 0 ≤ expire_ms b < 2 ^ 63 →
  timer_cmp a b ≠ Gt ↔ expire_ms b ≤ expire_ms a.
Proof.
  intros Ha Hb. unfold timer_cmp, timer_key. rewrite !(signed_small 64 (expire_ms _)) by lia.
  rewrite !signed_small by lia. rewrite Z.compare_le_iff. lia.
Qed.

(** What the loop does: a timer that has expired is woken, whatever its place in the heap. *)
Lemma check_loop_spec n : ∀ x now has_res w,
  Forall (λ t, 0 ≤ expire_ms t < 2 ^ 63) (elems x) →
  (∀ t, t ∈ elems x → has_res (timer_task t) = true) →
  sched_inv (sl_sched x) ((timer_task <$> elems x) ++ w) →
  (length (elems x) < n)%nat →
  ∃ x' woken, check_loop n x now has_res = Done (Some x') ∧
    elems x ≡ₚ woken ++ elems x' ∧
    Forall (λ t, expire_ms t ≤ now) woken ∧ Forall (λ t, now < expire_ms t) (elems x') ∧
    StronglySorted (λ a b, expire_ms a ≤ expire_ms b) woken ∧
    ready_queue (sl_sched x') = ready_queue (sl_sched x) ++ (timer_task <$> woken) ∧
    sched_inv (sl_sched x') ((timer_task <$> elems x') ++ w) ∧ current (sl_sched x') = current (sl_sched x).
Proof.
  induction n as [|n IH]; intros x now has_res w Hb Hres I Hn; [lia|]. cbn [check_loop].
  destruct (heap_peek (timers x)) as [t|] eqn:Hp.
  2:{ apply heap_peek_None in Hp as E. exists x, []. rewrite E. cbn. rewrite app_nil_r.
      do 3 (split; [done || constructor|]). split; [constructor|]. split; [constructor|]. split; [done|]. by rewrite E in I. }
  destruct (heap_peek_max _ _ Hp) as [Hin Hmax]. pose proof (heap_pop_elems _ _ Hp) as Epop.
  assert (Hle : ∀ u, u ∈ elems x → expire_ms t ≤ expire_ms u).
  { intros u Hu. rewrite Forall_forall in Hb. apply timer_cmp_small; [by apply Hb..|]. by apply Hmax. }
  destruct (Z.leb_spec (expire_ms t) now) as [Hexp|Hexp].
  - rewrite (Hres t Hin). cbn [assert_that]. rewrite outcome_bind_Done.
    set (x1 := mkSleep (heap_pop (timers x)) (wakeup_task (sl_sched x) (timer_task t))).
    assert (E1 : elems x ≡ₚ t :: elems x1) by done.
    rewrite E1 in I, Hb. cbn [fmap list_fmap app] in I. apply Forall_cons in Hb as [_ Hb].
    destruct (wakeup_task_spec _ _ _ I) as (I1 & Hc1 & Hr1).
    destruct (IH x1 now has_res w Hb) as (x' & woken & Hrun & Eel & Hw & Hl & Hs & Hr & I' & Hc).
    { intros u Hu. apply Hres. rewrite E1. by right. }
    { exact I1. }
    { apply Permutation_length in E1. cbn [length] in E1. unfold x1 in *. lia. }
    exists x', (t :: woken). split; [done|]. split; [by rewrite E1, Eel|]. split; [by constructor|]. split; [done|].
    split; [|split; [|split; [done|rewrite Hc; exact Hc1]]].
    + constructor; [done|]. apply Forall_forall. intros u Hu. apply Hle. rewrite E1, Eel. right. apply elem_of_app. by left.
    + rewrite Hr. change (ready_queue (sl_sched x1)) with (ready_queue (wakeup_task (sl_sched x) (timer_task t))).
      rewrite Hr1, <- app_assoc. done.
  - exists x, []. cbn [app fmap list_fmap]. rewrite app_nil_r. do 3 (split; [done || constructor|]). split; [|split; [constructor|done]].
    apply Forall_forall. intros u Hu. specialize (Hle u Hu). lia.
Qed.

(** C35. [check_timer], for any heap the standard library may provide: it ends, and with every
    timer set less than 2^63 ms from the start of time it wakes exactly the threads whose time has
    come, the earliest first, keeps the others asleep, and every thread stays in one place. *)
Theorem check_timer_wakes x time has_res w :
  Forall (λ t, 0 ≤ expire_ms t < 2 ^ 63) (elems x) →
  (∀ t, t ∈ elems x → has_res (timer_task t) = true) →
  sched_inv (sl_sched x) ((timer_task <$> elems x) ++ w) →
  ∃ x' woken, check_timer x time has_res = Done (Some x') ∧
    elems x ≡ₚ woken ++ elems x' ∧
    Forall (λ t, expire_ms t ≤ get_time_ms time) woken ∧ Forall (λ t, get_time_ms time < expire_ms t) (elems x') ∧
    StronglySorted (λ a b, expire_ms a ≤ expire_ms b) woken ∧
    ready_queue (sl_sched x') = ready_queue (sl_sched x) ++ (timer_task <$> woken) ∧
    sched_inv (sl_sched x') ((timer_task <$> elems x') ++ w).
Proof.
  intros Hb Hres I.
  destruct (check_loop_spec (S (length (elems x))) x (get_time_ms time) has_res w Hb Hres I ltac:(lia)) as (x' & woken & ?).
  exists x', woken. tauto.
Qed.

(** A thread that asks to sleep 2^63 ms or more stops the clock of the others: its key, read
    as a signed number, is the greatest, and [check_timer] looks no further than the head of the
    heap, so as long as its time has not come no thread is woken, however long ago its time came. *)
Theorem far_timer_starves_others x time has_res far :
  far ∈ elems x → 2 ^ 63 < expire_ms far < 2 ^ 64 →
  (∀ t, t ∈ elems x → t ≠ far → 0 ≤ expire_ms t < 2 ^ 63) → get_time_ms time < expire_ms far →
  check_timer x time has_res = Done (Some x).
Proof.
  intros Hin Hfar Hother Hnow. unfold check_timer. cbn [check_loop].
  destruct (heap_peek (timers x)) as [t|] eqn:Hp; [|by apply heap_peek_None in Hp].
  destruct (heap_peek_max _ _ Hp) as [Ht Hmax]. assert (Hcmp := Hmax far Hin).
  assert (Hkey : 0 < timer_key far).
  { unfold timer_key. assert (i64 (expire_ms far) = expire_ms far - 2 ^ 64) as ->.
    { unfold signed. rewrite wrap_small by lia. destruct (Z.ltb_spec (expire_ms far) (2 ^ (64 - 1))); lia. }
    rewrite signed_small by lia. lia. }
  assert (expire_ms t = expire_ms far ∨ timer_key t ≤ 0) as [E|Hk].
  { destruct (decide (expire_ms t = expire_ms far)); [by left|]. right.
    assert (Hs : 0 ≤ expire_ms t < 2 ^ 63) by (apply Hother; [done|congruence]).
    unfold timer_key. rewrite (signed_small 64 (expire_ms t)), signed_small by lia. lia. }
  - destruct (Z.leb_spec (expire_ms t) (get_time_ms time)); [lia|done].
  - exfalso. apply Hcmp. unfold timer_cmp. apply Z.compare_gt_iff. lia.
Qed.
End timers.

(** ** A list as a heap *)

Definition list_peek (l : list TimerCondVar) : option TimerCondVar :=
  match l with
  | [] => None
  | t :: l => Some (foldl (λ best u, if timer_key best <? timer_key u then u else best) t l)
  end.

#[export] Instance TimerCondVar_eq_dec : EqDecision TimerCondVar.
Proof. solve_decision. Defined.

Definition list_pop (l : list TimerCondVar) : list TimerCondVar :=
  match list_peek l with
  | None => []
  | Some t => match find_index (λ u, bool_decide (u = t)) l with Some i => delete i l | None => l end
  end.

#[export] Instance list_heap : BinaryHeap (list TimerCondVar) := {
  heap_new := [];
  heap_push := cons;
  heap_peek := list_peek;
  heap_pop := list_pop;
  heap_drain := id;
}.

Lemma foldl_best l : ∀ t, let b := foldl (λ best u, if timer_key best <? timer_key u then u else best) t l in
  b ∈ t :: l ∧ ∀ u, u ∈ t :: l → timer_key u ≤ timer_key b.
Proof.
  induction l as [|v l IH]; intros t; cbn [foldl].
  - split; [by left|]. intros u ->%list_elem_of_singleton. lia.
  - destruct (Z.ltb_spec (timer_key t) (timer_key v)) as [Hlt|Hge].
    + destruct (IH v) as [Hb Hm]. split; [by right|]. intros u [->|Hu]%elem_of_cons; [|by apply Hm].
      assert (timer_key v ≤ timer_key (foldl (λ best u, if timer_key best <? timer_key u then u else best) v l)) by (apply Hm; by left). lia.
    + destruct (IH t) as [Hb Hm]. split; [apply elem_of_cons in Hb as [->|Hb]; [by left|by do 2 right]|].
      intros u [->|[->|Hu]%elem_of_cons]%elem_of_cons; [apply Hm; by left| |apply Hm; by right].
      assert (timer_key t ≤ timer_key (foldl (λ best u, if timer_key best <? timer_key u then u else best) t l)) by (apply Hm; by left). lia.
Qed.

#[export] Instance list_heap_laws : BinaryHeapLaws (list TimerCondVar).
Proof.
  split; cbn; unfold id; try done.
  - intros [|t h]; split; [done|done|done|done].
  - intros [|t h] u [= <-]. destruct (foldl_best h t) as [Hb Hm]. split; [done|]. intros v Hv.
    unfold timer_cmp. rewrite Z.compare_le_iff. by apply Hm.
  - intros h t Hp. unfold list_pop. rewrite Hp.
    assert (Ht : t ∈ h) by (destruct h as [|v h]; [done|injection Hp as <-; apply foldl_best]).
    destruct (find_index _ h) as [i|] eqn:E.
    + apply find_index_Some in E as [(y & Hy & Ey) _]. apply bool_decide_eq_true in Ey as ->. by apply delete_Permutation.
    + pose proof (proj1 (find_index_None _ _) E t Ht) as Hf. by apply bool_decide_eq_false in Hf.
Qed.

Definition sleepers : Sleep (H := list TimerCondVar) :=
  mkSleep [mkTimer 700 3; mkTimer 20 1; mkTimer 10 2] (mkSched {[ 1%nat := Blocked; 2%nat := Blocked; 3%nat := Blocked ]} [] None).

Lemma check_timer_wakes_witness : ∃ x' woken,
  check_timer sleepers 250000 (λ _, true) = Done (Some x') ∧ heap_drain (timers sleepers) ≡ₚ woken ++ heap_drain (timers x') ∧
  ready_queue (sl_sched x') = [2%nat; 1%nat].
Proof.
  destruct (check_timer_wakes sleepers 250000 (λ _, true) []) as (x' & woken & Hr & Hp & _).
  - repeat (constructor; [cbn; lia|]). constructor.
  - done.
  - split; cbn.
    + by apply (bool_decide_unpack _); vm_compute.
    + intros t. rewrite !dom_insert, dom_singleton. set_solver.
    + done.
    + by intros t ?%not_elem_of_nil.
    + intros t Ht. assert (t = 3%nat ∨ t = 1%nat ∨ t = 2%nat) as [->|[->| ->]] by set_solver; reflexivity.
  - exists x', woken. split; [exact Hr|]. split; [exact Hp|]. vm_compute in Hr. injection Hr as <-. reflexivity.
Defined.

Lemma far_timer_starves_others_witness :
  let x := mkSleep (H := list TimerCondVar) [mkTimer 10 2; mkTimer (2 ^ 63 + 5) 1] (mkSched ∅ [] None) in
  check_timer x 250000 (λ _, true) = Done (Some x).
Proof.
  intros x. apply (far_timer_starves_others x 250000 (λ _, true) (mkTimer (2 ^ 63 + 5) 1)).
  - right. by left.
  - cbn. lia.
  - intros t [->|[->|Ht]%elem_of_cons]%elem_of_cons Hne; [cbn; lia|done|by apply not_elem_of_nil in Ht].
  - by vm_compute.
Defined.
