(* ===== verification/Eventfd.v ===== *)
(** * Eventfd.v: event counters ([os/src/fs/eventfd.rs])

    [read] runs to the return or to [block_current_and_run_next]; a thread that was blocked goes
    through the same test again when it runs.  Values are four bytes, most significant first. *)

From S2P Require Import Prelude Bytes Address FrameAlloc PageTable UserIo Sched.

Definition U32_BYTE_SIZE : nat := 4.

Record Eventfd : Type := mkEventfd {
  non_block : bool;
  semaphore : bool;
  ev_count : Z;
  ev_queue : list nat;
}.

Definition EVENTFD_SEMAPHORE : Z := 1.
Definition EVENTFD_NONBLOCK : Z := Z.shiftl 1 11.

(** [EventfdFlags::from_bits] and [contains]. *)
Definition EventfdFlags_from_bits (flags : Z) : option Z :=
  if Z.ldiff flags (Z.lor EVENTFD_SEMAPHORE EVENTFD_NONBLOCK) =? 0 then Some flags else None.
Definition flags_contain (flags f : Z) : bool := Z.land flags f =? f.

Definition nonblock_semaphore (flags : Z) : outcome (bool * bool) :=
  if flags_contain flags EVENTFD_NONBLOCK then mret (true, false)
  else if flags_contain flags EVENTFD_SEMAPHORE then mret (false, true)
  else if flags_contain flags 0 then mret (false, false)
  else Panicked PExplicit.

Definition eventfd_create (initval flags : Z) : outcome Eventfd :=
  '(nb, sem) ← nonblock_semaphore flags;
  mret (mkEventfd nb sem initval []).

(** [sys_eventfd] before the descriptor is made. *)
Definition sys_eventfd_create (initval flags : Z) : outcome Eventfd :=
  flags ← unwrap PUnwrap (EventfdFlags_from_bits flags);
  eventfd_create initval flags.

(** [to_be_bytes] and [from_be_bytes] *)
Definition be_bytes (v : Z) : list Z := rev (le_bytes U32_BYTE_SIZE v).
Definition be_value (bs : list Z) : Z := le_value (rev bs).

(** [for i in 0..4]: what the iterator gives, it takes. *)
Fixpoint put_bytes (m : memory) (it : UserBufferIterator) (bs : list Z) : outcome memory :=
  match bs with
  | [] => mret m
  | b :: bs =>
      o ← UserBufferIterator_next it;
      match o with
      | Some (byte_ref, it) => m ← store_place m byte_ref b; put_bytes m it bs
      | None => put_bytes m it bs
      end
  end.

Fixpoint take_bytes (m : memory) (it : UserBufferIterator) (n : nat) : outcome (list Z) :=
  match n with
  | O => mret []
  | S n =>
      o ← UserBufferIterator_next it;
      match o with
      | Some (byte_ref, it) => b ← load_place m byte_ref; bs ← take_bytes m it n; mret (b :: bs)
      | None => bs ← take_bytes m it n; mret (0 :: bs)
      end
  end.

(** How a call ends: with its result, or blocked. *)
Inductive ev_result : Type := EvReturned (n : Z) | EvBlocked.

Definition Eventfd_read (e : Eventfd) (s : Sched) (m : memory) (buf : list chunk)
    : outcome (Eventfd * Sched * memory * ev_result) :=
  let c := u32 (ev_count e) in
  if c =? 0 then
    if non_block e then mret (e, s, m, EvReturned 0)
    else
      t ← unwrap PUnwrap (current_task s);
      s ← block_current_task s;
      mret (mkEventfd (non_block e) (semaphore e) (ev_count e) (ev_queue e ++ [t]), s, m, EvBlocked)
  else
    let '(bytes, count) :=
      if semaphore e then (be_bytes 1, u64 (ev_count e - 1)) else (be_bytes c, 0) in
    m ← put_bytes m (UserBuffer_into_iter buf) bytes;
    mret (mkEventfd (non_block e) (semaphore e) count (ev_queue e), s, m, EvReturned 4).

Definition Eventfd_write (e : Eventfd) (s : Sched) (m : memory) (buf : list chunk)
    : outcome (Eventfd * Sched * ev_result) :=
  assert_that (UserBuffer_len buf =? 4) PAssert;;
  count ←
    (if semaphore e then mret (u64 (ev_count e + 1))
     else
       bytes ← take_bytes m (UserBuffer_into_iter buf) U32_BYTE_SIZE;
       mret (u64 (ev_count e + be_value bytes)));
  mret match ev_queue e with
  | task :: q => (mkEventfd (non_block e) (semaphore e) count q, wakeup_task s task, EvReturned 4)
  | [] => (mkEventfd (non_block e) (semaphore e) count [], s, EvReturned 4)
  end.

(** ** Bytes of the user's buffer *)

Lemma be_value_bytes v : 0 ≤ v < 2 ^ 32 → be_value (be_bytes v) = v.
Proof. intros Hv. unfold be_value, be_bytes. rewrite rev_involutive. by apply le_value_bytes_small. Qed.

Lemma put_bytes_spec bs : ∀ m it, ub_ok it → Forall (place_ok m) (places_left it) → NoDup (places_left it) →
  length (places_left it) = length bs →
  ∃ m', put_bytes m it bs = Done m' ∧ byte_at m' <$> places_left it = Some <$> bs ∧
    (∀ q, q ∉ places_left it → byte_at m' q = byte_at m q).
Proof.
  induction bs as [|b bs IH]; intros m it U Hp Hnd Hlen; cbn [put_bytes].
  - exists m. split; [done|]. apply length_zero_iff_nil in Hlen. by rewrite Hlen.
  - pose proof (next_spec it U) as Hn. destruct (places_left it) as [|pl ps]; [done|].
    destruct Hn as (it' & Hn & U' & E'). rewrite Hn, outcome_bind_Done.
    apply Forall_cons in Hp as [Hpl Hp]. apply NoDup_cons in Hnd as [Hni Hnd].
    destruct (store_place_spec m pl b Hpl) as (m1 & Hs & Hb & Ho & Hok). rewrite Hs, outcome_bind_Done.
    destruct (IH m1 it' U') as (m' & Hrun & Hst & Hother); rewrite ?E'.
    { by eapply Forall_impl. }
    { done. }
    { cbn in Hlen. lia. }
    exists m'. split; [done|]. rewrite E' in *. split.
    + cbn [fmap list_fmap]. f_equal; [by rewrite Hother|done].
    + intros q [Hq1 Hq2]%not_elem_of_cons. rewrite Hother by done. by apply Ho.
Qed.

Lemma take_bytes_spec n : ∀ m it, ub_ok it → Forall (place_ok m) (places_left it) → length (places_left it) = n →
  ∃ bs, take_bytes m it n = Done bs ∧ byte_at m <$> places_left it = Some <$> bs.
Proof.
  induction n as [|n IH]; intros m it U Hp Hlen; cbn [take_bytes].
  - exists []. apply length_zero_iff_nil in Hlen. by rewrite Hlen.
  - pose proof (next_spec it U) as Hn. destruct (places_left it) as [|pl ps]; [done|].
    destruct Hn as (it' & Hn & U' & E'). rewrite Hn, outcome_bind_Done.
    apply Forall_cons in Hp as [Hpl Hp]. destruct (load_place_spec m pl Hpl) as (b & Hl & Hb). rewrite Hl, outcome_bind_Done.
    destruct (IH m it' U') as (bs & Hrun & Hst); rewrite ?E'; [done|by injection Hlen|].
    rewrite Hrun, outcome_bind_Done. exists (b :: bs). split; [done|]. rewrite E' in Hst. cbn [fmap list_fmap]. by rewrite Hb, Hst.
Qed.

(** A user buffer of four distinct bytes. *)
Record four_bytes (m : memory) (buf : list chunk) : Prop := {
  fb_pos : Forall (λ c, 0 < chunk_len c) buf;
  fb_ok : Forall (place_ok m) (buf ≫= chunk_places);
  fb_nodup : NoDup (buf ≫= chunk_places);
  fb_len : length (buf ≫= chunk_places) = 4%nat;
}.

Lemma four_bytes_len m buf : four_bytes m buf → UserBuffer_len buf = 4.
Proof.
  intros F. rewrite UserBuffer_len_places; [unfold zlen; by rewrite (fb_len _ _ F)|].
  eapply Forall_impl; [apply F|]. cbn. lia.
Qed.

(** The value the user finds in a buffer. *)
Definition holds_value (m : memory) (buf : list chunk) (v : Z) : Prop :=
  byte_at m <$> (buf ≫= chunk_places) = Some <$> be_bytes v.

Lemma be_bytes_of m buf bs v : byte_at m <$> (buf ≫= chunk_places) = Some <$> bs → holds_value m buf v →
  0 ≤ v < 2 ^ 32 → be_value bs = v.
Proof.
  unfold holds_value. intros -> E Hv. apply (inj (fmap Some)) in E as ->. by apply be_value_bytes.
Qed.

(** An event counter: with a count below 2^32, [read] gives the whole count and clears it, or
    in semaphore mode gives 1 and takes 1; when the count is zero it returns 0 without blocking in
    non-blocking mode and otherwise blocks the caller last in the queue; [write] adds the value
    (or 1) and makes the thread that waited longest ready, which will find a count; reading just
    after writing [v] to a clear counter gives [v] back. *)
Theorem eventfd_counts e s m buf w : four_bytes m buf → 0 ≤ ev_count e < 2 ^ 32 →
  sched_inv s (ev_queue e ++ w) →
  (0 < ev_count e → ∃ m',
     Eventfd_read e s m buf =
       Done (mkEventfd (non_block e) (semaphore e) (if semaphore e then ev_count e - 1 else 0) (ev_queue e), s, m', EvReturned 4) ∧
     holds_value m' buf (if semaphore e then 1 else ev_count e) ∧
     ∀ q, q ∉ buf ≫= chunk_places → byte_at m' q = byte_at m q) ∧
  (ev_count e = 0 → non_block e = true → Eventfd_read e s m buf = Done (e, s, m, EvReturned 0)) ∧
  (∀ t, ev_count e = 0 → non_block e = false → current s = Some t → ∃ s',
     Eventfd_read e s m buf = Done (mkEventfd false (semaphore e) 0 (ev_queue e ++ [t]), s', m, EvBlocked) ∧
     sched_inv s' ((ev_queue e ++ [t]) ++ w) ∧ task_status s' !! t = Some Blocked) ∧
  (∀ v, holds_value m buf v → 0 ≤ v < 2 ^ 32 → ∃ e' s',
     Eventfd_write e s m buf = Done (e', s', EvReturned 4) ∧
     ev_count e' = ev_count e + (if semaphore e then 1 else v) ∧ ev_queue e' = tail (ev_queue e) ∧
     ready_queue s' = ready_queue s ++ option_list (head (ev_queue e)) ∧ sched_inv s' (ev_queue e' ++ w) ∧
     (ev_count e = 0 → semaphore e = false → 0 < v →
        ∃ m'' e'', Eventfd_read e' s' m buf = Done (e'', s', m'', EvReturned 4) ∧ holds_value m'' buf v ∧ ev_count e'' = 0)).
Proof.
  intros F Hc I. destruct (into_iter_left buf (fb_pos _ _ F)) as [U El].
  assert (Hput : ∀ v, ∃ m', put_bytes m (UserBuffer_into_iter buf) (be_bytes v) = Done m' ∧ holds_value m' buf v ∧
    ∀ q, q ∉ buf ≫= chunk_places → byte_at m' q = byte_at m q).
  { intros v. unfold holds_value. rewrite <- El. apply put_bytes_spec; rewrite ?El; [done|apply F..|].
    rewrite (fb_len _ _ F). unfold be_bytes. by rewrite length_rev, length_le_bytes. }
  split; [|split; [|split]].
  - intros Hpos. unfold Eventfd_read. rewrite wrap_small by lia. destruct (Z.eqb_spec (ev_count e) 0); [lia|].
    destruct (Hput (if semaphore e then 1 else ev_count e)) as (m' & Hr & Hh & Ho).
    exists m'. split; [|done]. destruct (semaphore e); rewrite Hr, outcome_bind_Done; [by rewrite wrap_small by lia|done].
  - intros E Hn. unfold Eventfd_read. rewrite E, Hn. done.
  - intros t E Hn Ht. unfold Eventfd_read. rewrite E, Hn. change (u32 0 =? 0) with true. cbn iota.
    unfold current_task. rewrite Ht. cbn [unwrap]. rewrite outcome_bind_Done.
    destruct (block_current_spec _ _ t I Ht) as (s' & -> & I' & _). exists s'. rewrite outcome_bind_Done. split; [done|].
    split; [rewrite <- app_assoc; cbn [app]; by rewrite <- Permutation_middle|]. apply (sc_wait _ _ I'). by left.
  - intros v Hv Hvr. unfold Eventfd_write. rewrite (four_bytes_len m) by done. change (4 =? 4) with true. cbn [assert_that].
    rewrite outcome_bind_Done.
    destruct (take_bytes_spec 4 m (UserBuffer_into_iter buf)) as (bs & Ht & Hb); rewrite ?El; [done|apply F..|].
    rewrite El in Hb. pose proof (be_bytes_of m buf bs v Hb Hv Hvr) as Ebs.
    set (c := ev_count e + (if semaphore e then 1 else v)).
    assert (Hcr : 0 ≤ c < 2 ^ 64) by (unfold c; destruct (semaphore e); lia).
    replace (if semaphore e then _ else _) with (Done c : outcome Z).
    2:{ unfold c. destruct (semaphore e); [by rewrite wrap_small by lia|]. unfold U32_BYTE_SIZE.
        rewrite Ht, outcome_bind_Done, Ebs. by rewrite wrap_small by lia. }
    rewrite outcome_bind_Done.
    assert (Hread : ∀ q s', ev_count e = 0 → semaphore e = false → 0 < v →
      ∃ m'' e'', Eventfd_read (mkEventfd (non_block e) (semaphore e) c q) s' m buf = Done (e'', s', m'', EvReturned 4) ∧
        holds_value m'' buf v ∧ ev_count e'' = 0).
    { intros q s' E Hs Hpos. unfold Eventfd_read. cbn [ev_count semaphore non_block ev_queue]. unfold c. rewrite E, Hs, Z.add_0_l.
      rewrite wrap_small by lia. destruct (Z.eqb_spec v 0); [lia|]. destruct (Hput v) as (m' & Hr & Hh & _).
      rewrite Hr, outcome_bind_Done. eexists _, _. split; [done|]. by split. }
    destruct (ev_queue e) as [|t q] eqn:Eq.
    + eexists _, _. split; [done|]. cbn. rewrite app_nil_r. split; [done|]. split; [done|]. split; [done|]. split; [done|]. apply Hread.
    + destruct (wakeup_task_spec _ _ _ I) as (I' & _ & Hr). eexists _, _. split; [done|]. cbn [ev_count ev_queue tail head option_list].
      split; [done|]. split; [done|]. split; [exact Hr|]. split; [exact I'|]. apply Hread.
Qed.

Lemma eventfd_counts_witness :
  let m : memory := {[PPN 9 := [0; 0; 1; 2]]} in let e := mkEventfd false false 0 [] in let s := mkSched ∅ [] None in
  ∃ e' s' e'' m'', Eventfd_write e s m [(PPN 9, 0, 4)] = Done (e', s', EvReturned 4) ∧
    Eventfd_read e' s' m [(PPN 9, 0, 4)] = Done (e'', s', m'', EvReturned 4) ∧ holds_value m'' [(PPN 9, 0, 4)] 258.
Proof.
  intros m e s. assert (F : four_bytes m [(PPN 9, 0, 4)]).
  { split; [by repeat constructor|repeat (constructor; [by eexists|]); constructor|by apply (bool_decide_unpack _); vm_compute|done]. }
  destruct (eventfd_counts e s m [(PPN 9, 0, 4)] [] F) as (_ & _ & _ & Hw); [done|split; cbn; set_solver || constructor|].
  destruct (Hw 258) as (e' & s' & Hr & _ & _ & _ & _ & Hread); [reflexivity|lia|].
  destruct Hread as (m'' & e'' & Hr2 & Hh & _); [done|done|lia|]. exists e', s', e'', m''. split; [exact Hr|]. split; [exact Hr2|exact Hh].
Defined.
