(* ===== verification/Signals.v ===== *)
(** * Signals.v: signals of a process
    ([os/src/task/signal.rs], [action.rs], [task/mod.rs], the signal calls of [syscall/process.rs],
    [os/src/trap/context.rs])

    [SigState] is what the signal code reads and changes of the current process and of its main
    thread: the trap context, kept in the page [trap_cx_ppn], is a field.  All 32 bits are
    signals, so [SignalFlags::from_bits] always succeeds. *)

From S2P Require Import Prelude Bytes Address FrameAlloc PageTable.

Definition MAX_SIG : Z := 31.

Definition SIGDEF : Z := 1.
Definition SIGINT : Z := Z.shiftl 1 2.
Definition SIGILL : Z := Z.shiftl 1 4.
Definition SIGABRT : Z := Z.shiftl 1 6.
Definition SIGFPE : Z := Z.shiftl 1 8.
Definition SIGKILL : Z := Z.shiftl 1 9.
Definition SIGSEGV : Z := Z.shiftl 1 11.
Definition SIGCONT : Z := Z.shiftl 1 18.
Definition SIGSTOP : Z := Z.shiftl 1 19.

(** [flags.contains(f)] *)
Definition contains (flags f : Z) : bool := Z.land flags f =? f.

(** The exit code for a fatal signal. *)
Definition check_error (signals : Z) : option Z :=
  if contains signals SIGINT then Some (-2)
  else if contains signals SIGILL then Some (-4)
  else if contains signals SIGABRT then Some (-6)
  else if contains signals SIGFPE then Some (-8)
  else if contains signals SIGKILL then Some (-9)
  else if contains signals SIGSEGV then Some (-11)
  else None.

Record SignalAction : Type := mkAction {
  handler : Z;
  sa_mask : Z;
}.

Definition SignalAction_default : SignalAction := mkAction 0 40.
Definition SignalActions_default : list SignalAction := replicate (Z.to_nat (MAX_SIG + 1)) SignalAction_default.

Record TrapContext : Type := mkTrap {
  tc_x : list Z;
  tc_sstatus : Z;
  tc_sepc : Z;
  tc_kernel_satp : Z;
  tc_kernel_sp : Z;
  tc_trap_handler : Z;
}.

Definition set_x (cx : TrapContext) (r : nat) (v : Z) : TrapContext :=
  mkTrap (<[r := v]> (tc_x cx)) (tc_sstatus cx) (tc_sepc cx) (tc_kernel_satp cx) (tc_kernel_sp cx) (tc_trap_handler cx).
Definition set_sepc (cx : TrapContext) (v : Z) : TrapContext :=
  mkTrap (tc_x cx) (tc_sstatus cx) v (tc_kernel_satp cx) (tc_kernel_sp cx) (tc_trap_handler cx).

Definition set_sp (cx : TrapContext) (sp : Z) : TrapContext := set_x cx 2 sp.

(** [sstatus] is the register as read, with the previous mode set to user (bit 8 clear). *)
Definition app_init_context (sstatus entry sp kernel_satp kernel_sp trap_handler : Z) : TrapContext :=
  set_sp (mkTrap (replicate 32 0) (Z.ldiff sstatus (Z.shiftl 1 8)) entry kernel_satp kernel_sp trap_handler) sp.

Record SigState : Type := mkSig {
  signals : Z;
  signal_mask : Z;
  handling_sig : Z;
  signal_actions : list SignalAction;
  killed : bool;
  frozen : bool;
  trap_cx : TrapContext;
  trap_ctx_backup : option TrapContext;
}.

Definition set_signals (s : SigState) (v : Z) : SigState :=
  mkSig v (signal_mask s) (handling_sig s) (signal_actions s) (killed s) (frozen s) (trap_cx s) (trap_ctx_backup s).
Definition set_frozen (s : SigState) (b : bool) : SigState :=
  mkSig (signals s) (signal_mask s) (handling_sig s) (signal_actions s) (killed s) b (trap_cx s) (trap_ctx_backup s).
Definition set_killed (s : SigState) (b : bool) : SigState :=
  mkSig (signals s) (signal_mask s) (handling_sig s) (signal_actions s) b (frozen s) (trap_cx s) (trap_ctx_backup s).
Definition set_trap_cx (s : SigState) (cx : TrapContext) : SigState :=
  mkSig (signals s) (signal_mask s) (handling_sig s) (signal_actions s) (killed s) (frozen s) cx (trap_ctx_backup s).

Definition check_signals_error_of_current (s : SigState) : option Z := check_error (signals s).

Definition current_add_signal (s : SigState) (signal : Z) : SigState := set_signals s (Z.lor (signals s) signal).

Definition call_kernel_signal_handler (s : SigState) (signal : Z) : SigState :=
  if signal =? SIGSTOP then set_signals (set_frozen s true) (Z.lxor (signals s) SIGSTOP)
  else if signal =? SIGCONT then
    if contains (signals s) SIGCONT then set_frozen (set_signals s (Z.lxor (signals s) SIGCONT)) false else s
  else set_killed s true.

Definition call_user_signal_handler (s : SigState) (sig signal : Z) : outcome SigState :=
  a ← nth_or_panic (signal_actions s) sig;
  if negb (handler a =? 0) then
    let cx := set_x (set_sepc (trap_cx s) (handler a)) 10 sig in
    mret (mkSig (Z.lxor (signals s) signal) (signal_mask s) sig (signal_actions s) (killed s) (frozen s) cx (Some (trap_cx s)))
  else mret s.

(** Whether the action that is running masks the signal; none runs when [handling_sig] is -1. *)
Definition action_masks (s : SigState) (signal : Z) : outcome bool :=
  if handling_sig s =? -1 then mret false
  else a ← nth_or_panic (signal_actions s) (handling_sig s); mret (contains (sa_mask a) signal).

Definition is_kernel_signal (signal : Z) : bool :=
  (signal =? SIGKILL) || (signal =? SIGSTOP) || (signal =? SIGCONT) || (signal =? SIGDEF).

(** [for sig in 0..(MAX_SIG + 1)] *)
Fixpoint check_from (s : SigState) (sigs : list Z) : outcome SigState :=
  match sigs with
  | [] => mret s
  | sig :: sigs =>
      let signal := Z.shiftl 1 sig in
      if contains (signals s) signal && negb (contains (signal_mask s) signal) then
        masked ← action_masks s signal;
        if masked : bool then check_from s sigs
        else if is_kernel_signal signal then check_from (call_kernel_signal_handler s signal) sigs
        else call_user_signal_handler s sig signal
      else check_from s sigs
  end.

Definition check_pending_signals (s : SigState) : outcome SigState := check_from s (seqZ 0 (MAX_SIG + 1)).

(** One round of [handle_signals]: whether the process stays frozen and gives up the processor. *)
Definition handle_signals_round (s : SigState) : outcome (SigState * bool) :=
  s ← check_pending_signals s;
  mret (s, negb (negb (frozen s) || killed s)).

(** ** The system calls *)

(** [1 << signum], a [u32] shifted by an [i32]: a release build shifts by [signum mod 32]. *)
Definition shl_u32 (signum : Z) : Z := Z.shiftl 1 (signum mod 32).

(** [sys_kill] on the process found under the pid, if any. *)
Definition sys_kill (target : option SigState) (signum : Z) : Z * option SigState :=
  match target with
  | Some s =>
      let flag := shl_u32 signum in
      if contains (signals s) flag then (-1, Some s) else (0, Some (set_signals s (Z.lor (signals s) flag)))
  | None => (-1, None)
  end.

Definition sys_sigprocmask (s : SigState) (mask : Z) : Z * SigState :=
  (signal_mask s, mkSig (signals s) mask (handling_sig s) (signal_actions s) (killed s) (frozen s) (trap_cx s) (trap_ctx_backup s)).

Definition sys_sigreturn (s : SigState) : outcome (Z * SigState) :=
  cx ← unwrap PUnwrap (trap_ctx_backup s);
  r ← nth_or_panic (tc_x cx) 10;
  mret (i64 r, mkSig (signals s) (signal_mask s) (-1) (signal_actions s) (killed s) (frozen s) cx (trap_ctx_backup s)).

Definition check_sigaction_error (signal action old_action : Z) : bool :=
  (action =? 0) || (old_action =? 0) || (signal =? SIGKILL) || (signal =? SIGSTOP).

(** [sys_sigaction], the object at [action] read and the one at [old_action] written by the
    functions given (a [translated_ref] and a [translated_refmut]). *)
Definition sys_sigaction {M : Type} (read : M → Z → outcome SignalAction) (write : M → Z → SignalAction → outcome M)
    (m : M) (s : SigState) (signum action old_action : Z) : outcome (Z * SigState * M) :=
  if MAX_SIG <? u64 signum then mret (-1, s, m)
  else if check_sigaction_error (shl_u32 signum) action old_action then mret (-1, s, m)
  else
    prev_action ← nth_or_panic (signal_actions s) signum;
    m ← write m old_action prev_action;
    a ← read m action;
    mret (0, mkSig (signals s) (signal_mask s) (handling_sig s) (<[Z.to_nat signum := a]> (signal_actions s))
      (killed s) (frozen s) (trap_cx s) (trap_ctx_backup s), m).

(** The system call path of [trap_handler] around the call itself: [cx.sepc += 4] before it; after it the
    context is looked up again, since the call may have replaced it, and gets the result. *)
Definition ecall_enter (s : SigState) : SigState := set_trap_cx s (set_sepc (trap_cx s) (u64 (tc_sepc (trap_cx s) + 4))).
Definition ecall_leave (s : SigState) (result : Z) : SigState := set_trap_cx s (set_x (trap_cx s) 10 (u64 result)).

(** The end of [trap_handler] for the main thread, once [handle_signals] is left: the exit code of
    the process if it ends here. *)
Definition exit_on_signal (s : SigState) : option Z := check_signals_error_of_current s.

(** ** Bits *)

Lemma contains_bit w i : 0 ≤ i → contains w (Z.shiftl 1 i) = Z.testbit w i.
Proof.
  intros Hi. unfold contains. destruct (Z.testbit w i) eqn:E.
  - apply Z.eqb_eq. apply Z.bits_inj'. intros j Hj. rewrite Z.land_spec, testbit_1_shiftl by done.
    destruct (Z.eqb_spec i j) as [<-|]; [by rewrite E|apply andb_false_r].
  - apply Z.eqb_neq. intros H. apply (f_equal (λ z, Z.testbit z i)) in H.
    rewrite Z.land_spec, testbit_1_shiftl, E, Z.eqb_refl in H by done. done.
Qed.

Lemma lxor_bit w i : 0 ≤ i → Z.testbit w i = true → Z.lxor w (Z.shiftl 1 i) = Z.ldiff w (Z.shiftl 1 i).
Proof.
  intros Hi E. apply Z.bits_inj'. intros j Hj. rewrite Z.lxor_spec, Z.ldiff_spec, testbit_1_shiftl by done.
  destruct (Z.eqb_spec i j) as [<-|]; [by rewrite E|]. by destruct (Z.testbit w j).
Qed.

Definition sig_ok (s : SigState) : Prop :=
  length (signal_actions s) = 32%nat ∧ (handling_sig s = -1 ∨ 0 ≤ handling_sig s < 32) ∧
  length (tc_x (trap_cx s)) = 32%nat.

(** [sig_ok] of a concrete state. *)
Ltac prove_sig_ok := split; [done|split; [first [by left|right; cbn; lia]|done]].

(** Signal [sig] is pending and neither the process nor the running action masks it. *)
Definition deliverable (s : SigState) (sig : Z) : bool :=
  Z.testbit (signals s) sig && negb (Z.testbit (signal_mask s) sig) &&
  negb (if handling_sig s =? -1 then false
        else Z.testbit (from_option sa_mask 0 (signal_actions s !! Z.to_nat (handling_sig s))) sig).

Lemma nth_in {A} (l : list A) i n : length l = n → 0 ≤ i < Z.of_nat n → ∃ a, l !! Z.to_nat i = Some a ∧ nth_or_panic l i = Done a.
Proof.
  intros Hl Hi. unfold nth_or_panic. destruct (Z.ltb_spec i 0); [lia|].
  destruct (lookup_lt_is_Some_2 l (Z.to_nat i)) as [a Ha]; [lia|]. exists a. by rewrite Ha.
Qed.

Lemma check_from_cons s sig sigs : sig_ok s → 0 ≤ sig →
  check_from s (sig :: sigs) =
    if deliverable s sig then
      if is_kernel_signal (Z.shiftl 1 sig) then check_from (call_kernel_signal_handler s (Z.shiftl 1 sig)) sigs
      else call_user_signal_handler s sig (Z.shiftl 1 sig)
    else check_from s sigs.
Proof.
  intros (Hl & Hh & _) Hs. cbn [check_from]. unfold deliverable, action_masks. rewrite !contains_bit by done.
  destruct (Z.testbit (signals s) sig && negb (Z.testbit (signal_mask s) sig)); cbn [andb]; [|done].
  destruct (Z.eqb_spec (handling_sig s) (-1)) as [E|E]; [done|].
  destruct (nth_in _ (handling_sig s) 32 Hl) as (a & Ha & ->); [lia|]. rewrite Ha. cbn [from_option]. rewrite !outcome_bind_Done.
  rewrite contains_bit by done. by destruct (Z.testbit (sa_mask a) sig).
Qed.

(** The first deliverable signal decides. *)
Lemma check_from_first s u n : sig_ok s → ∀ k, 0 ≤ k → k ≤ u < k + n → deliverable s u = true →
  (∀ v, k ≤ v < u → deliverable s v = false) →
  check_from s (seqZ k n) =
    if is_kernel_signal (Z.shiftl 1 u) then check_from (call_kernel_signal_handler s (Z.shiftl 1 u)) (seqZ (u + 1) (k + n - u - 1))
    else call_user_signal_handler s u (Z.shiftl 1 u).
Proof.
  intros Ok. destruct (decide (0 ≤ n)) as [Hn|]; [|intros; lia].
  pattern n. apply natlike_ind; [intros; lia| |done]. clear n Hn. intros n Hn IH k Hk Hu Hd Hlow.
  rewrite seqZ_cons by lia. rewrite check_from_cons by done. rewrite Z.pred_succ, <- Z.add_1_r.
  destruct (decide (k = u)) as [->|Hne].
  - rewrite Hd. by replace (u + Z.succ n - u - 1) with n by lia.
  - rewrite Hlow by lia. rewrite IH; [|lia..|done|intros v Hv; apply Hlow; lia].
    by replace (k + 1 + n - u - 1) with (k + Z.succ n - u - 1) by lia.
Qed.

Lemma check_from_none s n : sig_ok s → ∀ k, 0 ≤ k → (∀ v, k ≤ v < k + n → deliverable s v = false) →
  check_from s (seqZ k n) = Done s.
Proof.
  intros Ok. destruct (decide (0 ≤ n)) as [Hn|]; [|intros; by rewrite seqZ_nil by lia].
  pattern n. apply natlike_ind; [intros; by rewrite seqZ_nil by lia| |done]. clear n Hn. intros n Hn IH k Hk Hlow.
  rewrite seqZ_cons by lia. rewrite check_from_cons, Z.pred_succ, <- Z.add_1_r, Hlow by (done || lia).
  apply IH; [lia|]. intros v Hv. apply Hlow. lia.
Qed.

(** Handing a signal to the process's own handler. *)
Lemma call_user_spec s u a : sig_ok s → signal_actions s !! Z.to_nat u = Some a → 0 ≤ u →
  call_user_signal_handler s u (Z.shiftl 1 u) =
    Done (if handler a =? 0 then s else
      mkSig (Z.lxor (signals s) (Z.shiftl 1 u)) (signal_mask s) u (signal_actions s) (killed s) (frozen s)
        (set_x (set_sepc (trap_cx s) (handler a)) 10 u) (Some (trap_cx s))).
Proof.
  intros Ok Ha Hu. unfold call_user_signal_handler, nth_or_panic. destruct (Z.ltb_spec u 0); [lia|].
  rewrite Ha. cbn [unwrap]. rewrite outcome_bind_Done. by destruct (handler a =? 0).
Qed.

Lemma kernel_signal_ok s signal : sig_ok s → sig_ok (call_kernel_signal_handler s signal).
Proof. intros Ok. unfold call_kernel_signal_handler. repeat case_match; apply Ok. Qed.

(** The signals of the kernel, and what each of them does to the process. *)
Lemma is_kernel_signal_bit u : 0 ≤ u → is_kernel_signal (Z.shiftl 1 u) = (u =? 19) || (u =? 18) || ((u =? 9) || (u =? 0)).
Proof.
  intros Hu. assert (Hs : ∀ n, 0 ≤ n → (Z.shiftl 1 u =? Z.shiftl 1 n) = (u =? n)).
  { intros n Hn. apply eq_true_iff_eq. rewrite !Z.eqb_eq. split; [|by intros ->]. rewrite !Z.shiftl_1_l. apply Z.pow_inj_r; lia. }
  unfold is_kernel_signal, SIGKILL, SIGSTOP, SIGCONT. change SIGDEF with (Z.shiftl 1 0). rewrite !Hs by done.
  destruct (u =? 19), (u =? 18), (u =? 9), (u =? 0); done.
Qed.

Lemma call_kernel_bit s u : 0 ≤ u → Z.testbit (signals s) u = true →
  call_kernel_signal_handler s (Z.shiftl 1 u) =
    if u =? 19 then mkSig (Z.clearbit (signals s) 19) (signal_mask s) (handling_sig s) (signal_actions s) (killed s) true (trap_cx s) (trap_ctx_backup s)
    else if u =? 18 then mkSig (Z.clearbit (signals s) 18) (signal_mask s) (handling_sig s) (signal_actions s) (killed s) false (trap_cx s) (trap_ctx_backup s)
    else mkSig (signals s) (signal_mask s) (handling_sig s) (signal_actions s) true (frozen s) (trap_cx s) (trap_ctx_backup s).
Proof.
  intros Hu Hb. unfold call_kernel_signal_handler. destruct (Z.eqb_spec u 19) as [->|H19].
  { rewrite Z.eqb_refl. unfold SIGSTOP, set_signals, set_frozen. cbn [signals]. by rewrite lxor_bit by done. }
  assert (Hs : ∀ n, 0 ≤ n → u ≠ n → (Z.shiftl 1 u =? Z.shiftl 1 n) = false).
  { intros n Hn Hne. apply Z.eqb_neq. rewrite !Z.shiftl_1_l. intros E%Z.pow_inj_r; lia. }
  unfold SIGSTOP. rewrite Hs by done. destruct (Z.eqb_spec u 18) as [->|H18]; [|unfold SIGCONT; by rewrite Hs by done].
  rewrite Z.eqb_refl. unfold SIGCONT. rewrite contains_bit, Hb by done. unfold set_signals, set_frozen. cbn [signals]. by rewrite lxor_bit by done.
Qed.

(** The pass over the signals never panics, and clears no bit that the process masks. *)
Lemma check_from_masked b n : 0 ≤ b → ∀ k s, 0 ≤ k → k + n ≤ 32 → sig_ok s →
  Z.testbit (signal_mask s) b = true → Z.testbit (signals s) b = true →
  ∃ s', check_from s (seqZ k n) = Done s' ∧ Z.testbit (signals s') b = true.
Proof.
  intros Hb. destruct (decide (0 ≤ n)) as [Hn|]; [|intros k s; intros; rewrite seqZ_nil by lia; by exists s].
  pattern n. apply natlike_ind; [intros k s; intros; rewrite seqZ_nil by lia; by exists s| |done].
  clear n Hn. intros n Hn IH k s Hk Hkn Ok Hm Hs. rewrite seqZ_cons by lia. rewrite Z.pred_succ, <- Z.add_1_r.
  rewrite check_from_cons by done. destruct (deliverable s k) eqn:Hd; [|apply IH; (done || lia)].
  assert (Hkb : k ≠ b).
  { intros ->. unfold deliverable in Hd. rewrite Hm in Hd. cbn in Hd. by rewrite andb_false_r in Hd. }
  assert (Hx : ∀ j, j ≠ b → 0 ≤ j → Z.testbit (Z.lxor (signals s) (Z.shiftl 1 j)) b = true).
  { intros j Hj Hj0. rewrite Z.lxor_spec, testbit_1_shiftl, Hs by done. destruct (Z.eqb_spec j b); [done|done]. }
  destruct (is_kernel_signal (Z.shiftl 1 k)) eqn:Hker.
  - apply IH; [lia|lia|by apply kernel_signal_ok| |]; unfold call_kernel_signal_handler.
    + repeat case_match; done.
    + destruct (Z.eqb_spec (Z.shiftl 1 k) SIGSTOP) as [E|E]; cbn [signals set_signals set_frozen set_killed].
      * rewrite <- E. apply Hx; lia.
      * destruct (Z.eqb_spec (Z.shiftl 1 k) SIGCONT) as [E'|E']; [|done].
        destruct (contains (signals s) SIGCONT); [|done]. cbn [signals set_signals set_frozen]. rewrite <- E'. apply Hx; lia.
  - destruct (nth_in (signal_actions s) k 32) as (a & Ha & _); [apply Ok|lia|].
    rewrite (call_user_spec s k a) by done. eexists. split; [done|]. destruct (handler a =? 0); [done|]. cbn [signals]. by apply Hx.
Qed.

(** ** Properties *)

(** C37. [check_pending_signals] serves the lowest deliverable signal first.  With none it changes
    nothing.  Four signals are for the kernel, and the pass goes on above them: SIGSTOP (19) freezes the
    process and is no longer pending, SIGCONT (18) thaws it and is no longer pending, SIGKILL (9) and
    SIGDEF (0) mark it as killed; nothing else of the process changes, whatever handlers it has.  Any
    other signal ends the pass: when the process has a handler the signal is no longer pending,
    the interrupted context is saved and the process will run the handler with the signal's number
    as its argument, all other registers as they were; without one nothing changes at all, and the
    signal stays pending. *)
Theorem pending_signal_delivery s : sig_ok s →
  ((∀ v, 0 ≤ v < 32 → deliverable s v = false) → check_pending_signals s = Done s) ∧
  (∀ u, 0 ≤ u < 32 → deliverable s u = true → (∀ v, 0 ≤ v < u → deliverable s v = false) →
     if u =? 19 then
       check_pending_signals s = check_from (mkSig (Z.clearbit (signals s) 19) (signal_mask s) (handling_sig s) (signal_actions s)
         (killed s) true (trap_cx s) (trap_ctx_backup s)) (seqZ 20 12)
     else if u =? 18 then
       check_pending_signals s = check_from (mkSig (Z.clearbit (signals s) 18) (signal_mask s) (handling_sig s) (signal_actions s)
         (killed s) false (trap_cx s) (trap_ctx_backup s)) (seqZ 19 13)
     else if (u =? 9) || (u =? 0) then
       check_pending_signals s = check_from (mkSig (signals s) (signal_mask s) (handling_sig s) (signal_actions s)
         true (frozen s) (trap_cx s) (trap_ctx_backup s)) (seqZ (u + 1) (31 - u))
     else ∃ a s', signal_actions s !! Z.to_nat u = Some a ∧ check_pending_signals s = Done s' ∧
       if handler a =? 0 then s' = s
       else s' = mkSig (Z.clearbit (signals s) u) (signal_mask s) u (signal_actions s) (killed s) (frozen s) (trap_cx s') (Some (trap_cx s)) ∧
            tc_sepc (trap_cx s') = handler a ∧ tc_x (trap_cx s') !! 10%nat = Some u ∧
            (∀ r, r ≠ 10%nat → tc_x (trap_cx s') !! r = tc_x (trap_cx s) !! r)).
Proof.
  intros Ok. unfold check_pending_signals. change (MAX_SIG + 1) with 32. split; [intros Hn; by apply check_from_none|].
  intros u Hu Hd Hlow. rewrite (check_from_first s u 32 Ok 0) by (done || lia). rewrite is_kernel_signal_bit by lia.
  assert (Hb : Z.testbit (signals s) u = true) by (unfold deliverable in Hd; by destruct (Z.testbit (signals s) u)).
  rewrite call_kernel_bit by (done || lia). replace (0 + 32 - u - 1) with (31 - u) by lia.
  destruct (Z.eqb_spec u 19) as [->|]; [done|]. destruct (Z.eqb_spec u 18) as [->|]; [done|]. destruct ((u =? 9) || (u =? 0)); [done|].
  destruct (nth_in (signal_actions s) u 32) as (a & Ha & _); [apply Ok|lia|]. rewrite (call_user_spec s u a) by (done || lia).
  eexists a, _. split; [done|]. split; [done|]. destruct (handler a =? 0); [done|]. cbn [trap_cx].
  split; [by rewrite lxor_bit by (done || lia)|]. split; [done|]. split.
  - cbn. apply list_lookup_insert_eq. destruct Ok as (_ & _ & ->). lia.
  - intros r Hr. cbn. by apply list_lookup_insert_ne.
Qed.

Definition calm : SigState :=
  mkSig 0 0 (-1) SignalActions_default false false (app_init_context 0 0x10000 0x20000 0 0 0) None.

(** Of finitely many signals, by evaluation. *)
Lemma Forall_seqZ_check (f : Z → bool) n : forallb (λ v, negb (f v)) (seqZ 0 n) = true → ∀ v, 0 ≤ v < n → f v = false.
Proof.
  intros H v Hv. rewrite forallb_forall in H. apply negb_true_iff, H. apply list_elem_of_In, elem_of_seqZ. lia.
Qed.

(** A signal without a handler; one with a handler; and SIGSTOP before the one with a handler. *)
Lemma pending_signal_delivery_witness :
  let s := set_signals calm (Z.lor (Z.shiftl 1 10) SIGSTOP) in
  let acts := <[20%nat := mkAction 0x5000 0]> SignalActions_default in
  let s1 := mkSig (Z.lor SIGSTOP (Z.shiftl 1 20)) 0 (-1) acts false false (trap_cx calm) None in
  let s2 := mkSig (Z.shiftl 1 20) 0 (-1) acts false true (trap_cx calm) None in
  check_pending_signals s = Done s ∧ check_pending_signals s1 = check_from s2 (seqZ 20 12) ∧
  ∃ s3, check_pending_signals s2 = Done s3 ∧ tc_sepc (trap_cx s3) = 0x5000 ∧ signals s3 = 0 ∧ frozen s3 = true.
Proof.
  intros s acts s1 s2. split; [|split].
  - destruct (pending_signal_delivery s) as [_ H]; [prove_sig_ok|].
    destruct (H 10) as (a & s' & Ha & Hr & Hs); [lia|done| |].
    + apply Forall_seqZ_check. by vm_compute.
    + assert (a = SignalAction_default) as -> by (by injection Ha as <-). cbn in Hs. by rewrite Hr, Hs.
  - destruct (pending_signal_delivery s1) as [_ H]; [prove_sig_ok|].
    apply (H 19); [lia|done|]. apply Forall_seqZ_check. by vm_compute.
  - destruct (pending_signal_delivery s2) as [_ H]; [prove_sig_ok|].
    destruct (H 20) as (a & s' & Ha & Hr & Hs); [lia|done| |].
    + apply Forall_seqZ_check. by vm_compute.
    + assert (a = mkAction 0x5000 0) as -> by (by injection Ha as <-). cbn in Hs. destruct Hs as (Es & Hsepc & _).
      exists s'. split; [exact Hr|]. split; [exact Hsepc|]. by rewrite Es.
Defined.

(** *** What may happen between the delivery of a signal and [sigreturn] *)

(** No signal with a handler of its own would be delivered now. *)
Definition none_handled (s : SigState) : Prop := ∀ v, 0 ≤ v < 32 → deliverable s v = true →
  is_kernel_signal (Z.shiftl 1 v) = true ∨ ∃ a, signal_actions s !! Z.to_nat v = Some a ∧ handler a = 0.

(** The handler and what it calls run, and change the registers in any way; the process is sent
    signals and sends itself some; it changes its mask and its handlers; and the kernel looks for pending
    signals at every way back from a trap, where it finds none to hand to a second handler. *)
Inductive handler_step : SigState → SigState → Prop :=
| hs_run s cx : length (tc_x cx) = 32%nat → handler_step s (set_trap_cx s cx)
| hs_add s signal : handler_step s (current_add_signal s signal)
| hs_kill s signum r s' : sys_kill (Some s) signum = (r, Some s') → handler_step s s'
| hs_mask s mask : handler_step s (sys_sigprocmask s mask).2
| hs_action (M : Type) read write (m m' : M) s signum action old_action r s' :
    sys_sigaction read write m s signum action old_action = Done (r, s', m') → handler_step s s'
| hs_check s s' : none_handled s → check_pending_signals s = Done s' → handler_step s s'.

(** A pass that finds no signal with a handler keeps the context and its backup. *)
Lemma check_from_unhandled n : ∀ k s s', 0 ≤ k → k + n ≤ 32 → sig_ok s → none_handled s → check_from s (seqZ k n) = Done s' →
  sig_ok s' ∧ trap_cx s' = trap_cx s ∧ trap_ctx_backup s' = trap_ctx_backup s.
Proof.
  destruct (decide (0 ≤ n)) as [Hn|]; [|intros k s s' _ _ Ok _; rewrite seqZ_nil by lia; by intros [= <-]].
  pattern n. apply natlike_ind; [intros k s s' _ _ Ok _; rewrite seqZ_nil by lia; by intros [= <-]| |done].
  clear n Hn. intros n Hn IH k s s' Hk Hkn Ok Hno. rewrite seqZ_cons by lia. rewrite Z.pred_succ, <- Z.add_1_r, check_from_cons by done.
  destruct (deliverable s k) eqn:Hd; [|by apply IH; (done || lia)]. destruct (is_kernel_signal (Z.shiftl 1 k)) eqn:Ek.
  - intros E. assert (Hb : Z.testbit (signals s) k = true) by (unfold deliverable in Hd; by destruct (Z.testbit (signals s) k)).
    set (t := call_kernel_signal_handler s (Z.shiftl 1 k)) in *.
    assert (Ht : trap_cx t = trap_cx s ∧ trap_ctx_backup t = trap_ctx_backup s ∧ none_handled t).
    { unfold t. rewrite call_kernel_bit by done. unfold none_handled, deliverable in *.
      destruct (k =? 19), (k =? 18); cbn [trap_cx trap_ctx_backup signals signal_mask handling_sig signal_actions]; (split; [done|split; [done|]]);
        intros v Hv Hdv; apply Hno; try done; rewrite Z.clearbit_eqb in Hdv; (destruct (Z.testbit (signals s) v); [|done]); by destruct (_ =? v) in Hdv. }
    destruct Ht as (<- & <- & Hno'). apply (IH (k + 1) t s'); [lia|lia|by apply kernel_signal_ok|done|done].
  - destruct (Hno k ltac:(lia) Hd) as [Hk'|(a & Ha & H0)]; [congruence|]. rewrite (call_user_spec s k a) by done. rewrite H0. by intros [= <-].
Qed.

Lemma check_pending_eq s : check_pending_signals s = check_from s (seqZ 0 32).
Proof. done. Qed.

Lemma handler_step_backup s s' : handler_step s s' → sig_ok s → sig_ok s' ∧ trap_ctx_backup s' = trap_ctx_backup s.
Proof.
  intros S (Hl & Hh & Hx). destruct S as [s cx Hcx|s signal|s signum r s' E|s mask|M read write m m' s signum action old_action r s' E|s s' Hno E].
  - by split.
  - by split.
  - unfold sys_kill in E. cbv zeta in E. destruct (contains _ _); injection E as _ <-; by split.
  - by split.
  - unfold sys_sigaction in E. destruct (MAX_SIG <? u64 signum); [by injection E as _ <- _|]. destruct (check_sigaction_error _ _ _); [by injection E as _ <- _|].
    apply outcome_bind_inv in E as (a & _ & (m1 & _ & (b & _ & [= _ <- _])%outcome_bind_inv)%outcome_bind_inv).
    split; [|done]. split; [by cbn; rewrite length_insert|by split].
  - rewrite check_pending_eq in E.
    destruct (check_from_unhandled 32 0 s s' ltac:(lia) ltac:(lia) (conj Hl (conj Hh Hx)) Hno E) as (? & _ & ?). by split.
Qed.

Lemma handler_steps_backup s s' : rtc handler_step s s' → sig_ok s → sig_ok s' ∧ trap_ctx_backup s' = trap_ctx_backup s.
Proof.
  induction 1 as [|s t s' S _ IH]; intros Ok; [done|]. destruct (handler_step_backup _ _ S Ok) as [Ok' <-]. by apply IH.
Qed.

(** C38. A signal handler is transparent. A signal is delivered; then the handler runs, whatever it does to
    the registers, the mask, the handlers and the pending signals, and the kernel looks for signals as
    often as it likes, as long as it does not hand the process a second one meanwhile (that overwrites
    the saved context: [nested_signal_loses_context]); and the handler calls [sigreturn]. Then the process
    goes on with exactly the registers and program counter it was interrupted with, and no signal is
    being handled. *)
Theorem sigreturn_restores s u a s1 s2 : sig_ok s → 0 ≤ u < 32 →
  signal_actions s !! Z.to_nat u = Some a → handler a ≠ 0 →
  Forall (λ v, 0 ≤ v < 2 ^ 64) (tc_x (trap_cx s)) →
  call_user_signal_handler s u (Z.shiftl 1 u) = Done s1 → rtc handler_step s1 s2 →
  ∃ r s3, sys_sigreturn (ecall_enter s2) = Done (r, s3) ∧
    trap_cx (ecall_leave s3 r) = trap_cx s ∧ handling_sig s3 = -1 ∧ signals s3 = signals s2 ∧ signal_mask s3 = signal_mask s2.
Proof.
  intros Ok Hu Ha Hh Hx H1 H2. pose proof Ok as (Hl & _ & Hlx). rewrite (call_user_spec s u a) in H1 by (done || lia).
  destruct (Z.eqb_spec (handler a) 0); [done|]. injection H1 as <-.
  apply handler_steps_backup in H2 as [_ H2]; [|split; [done|split; [by right|cbn; by rewrite length_insert]]]. cbn [trap_ctx_backup] in H2.
  unfold sys_sigreturn. cbn [trap_ctx_backup ecall_enter set_trap_cx]. rewrite H2. cbn [unwrap]. rewrite outcome_bind_Done.
  destruct (nth_in (tc_x (trap_cx s)) 10 32) as (r & Hr & ->); [done|lia|]. rewrite outcome_bind_Done.
  eexists _, _. split; [done|]. split; [|done]. cbn [trap_cx ecall_leave set_trap_cx]. rewrite wrap_signed by done.
  rewrite wrap_small by (by apply (Forall_lookup_1 _ _ _ _ Hx Hr)).
  unfold set_x. change (Z.to_nat 10) with 10%nat in Hr. rewrite list_insert_id by done. by destruct (trap_cx s).
Qed.

(** The handler runs on, blocks a signal and is stopped and continued before it returns. *)
Lemma sigreturn_restores_witness :
  let s := mkSig 0 0 (-1) (<[10%nat := mkAction 0x5000 0]> SignalActions_default) false false (trap_cx calm) None in
  ∃ s1 s2 r s3, call_user_signal_handler s 10 (Z.shiftl 1 10) = Done s1 ∧ signals s2 = signals s1 ∧ frozen s2 = true ∧
    sys_sigreturn (ecall_enter s2) = Done (r, s3) ∧ trap_cx (ecall_leave s3 r) = trap_cx s.
Proof.
  intros s. set (s1 := mkSig 0x400 0 10 (signal_actions s) false false (set_x (set_sepc (trap_cx s) 0x5000) 10 10) (Some (trap_cx s))).
  set (t1 := set_trap_cx s1 (set_sepc (trap_cx s1) 0x5014)). set (t2 := (sys_sigprocmask t1 (Z.shiftl 1 10)).2).
  set (t3 := current_add_signal t2 SIGSTOP). set (s2 := set_frozen t2 true).
  assert (Hrun : rtc handler_step s1 s2).
  { eapply rtc_l; [by apply (hs_run s1 (set_sepc (trap_cx s1) 0x5014))|]. eapply rtc_l; [apply (hs_mask t1 (Z.shiftl 1 10))|].
    eapply rtc_l; [apply (hs_add t2 SIGSTOP)|]. eapply rtc_l; [|apply rtc_refl]. apply (hs_check t3 s2); [|reflexivity].
    intros v Hv Hd. left. destruct (decide (v = 19)) as [->|Hne]; [done|]. exfalso.
    assert (deliverable t3 v = false); [|congruence].
    assert (Hall : forallb (λ v, (v =? 19) || negb (deliverable t3 v)) (seqZ 0 32) = true) by by vm_compute.
    rewrite forallb_forall in Hall. specialize (Hall v). rewrite (proj2 (Z.eqb_neq v 19) Hne) in Hall.
    apply negb_true_iff, Hall. apply list_elem_of_In, elem_of_seqZ. lia. }
  exists s1, s2.
  destruct (sigreturn_restores s 10 (mkAction 0x5000 0) s1 s2
    ltac:(prove_sig_ok) ltac:(lia) eq_refl ltac:(done)
    ltac:(repeat (constructor; [cbn; lia|]); constructor) eq_refl Hrun) as (r & s3 & Hr & Ht & _).
  exists r, s3. do 3 (split; [reflexivity|]). split; [exact Hr|exact Ht].
Defined.

(** Handlers do not nest: there is one saved context, so when a second signal is delivered
    while a handler runs, the first interrupted context is overwritten; after both handlers have
    called [sigreturn] the process is back in the first handler, where the second signal came,
    and not where it was interrupted first. *)
Theorem nested_signal_loses_context s u a s1 s2 v b s3 s4 r s5 s6 :
  sig_ok s → 0 ≤ u < 32 → signal_actions s !! Z.to_nat u = Some a → handler a ≠ 0 →
  call_user_signal_handler s u (Z.shiftl 1 u) = Done s1 →
  (* the first handler runs: [s2]; a second signal comes *)
  sig_ok s2 → 0 ≤ v < 32 → signal_actions s2 !! Z.to_nat v = Some b → handler b ≠ 0 →
  Forall (λ w, 0 ≤ w < 2 ^ 64) (tc_x (trap_cx s2)) →
  call_user_signal_handler s2 v (Z.shiftl 1 v) = Done s3 →
  (* the second handler runs and returns *)
  trap_ctx_backup s4 = trap_ctx_backup s3 → sys_sigreturn (ecall_enter s4) = Done (r, s5) →
  (* the first handler runs on and returns *)
  trap_ctx_backup s6 = trap_ctx_backup s5 →
  trap_cx (ecall_leave s5 r) = trap_cx s2 ∧
  ∃ r' s7, sys_sigreturn (ecall_enter s6) = Done (r', s7) ∧ trap_cx (ecall_leave s7 r') = trap_cx s2.
Proof.
  intros Ok Hu Ha Hh H1 Ok2 Hv Hb Hh2 Hx H3 H4 H5 H6. rewrite (call_user_spec s2 v b) in H3 by (done || lia).
  destruct (Z.eqb_spec (handler b) 0); [done|]. injection H3 as <-. cbn [trap_ctx_backup] in H4.
  destruct (nth_in (tc_x (trap_cx s2)) 10 32) as (x & Hxl & Hn); [apply Ok2|lia|].
  assert (Hrest : ∀ t, trap_ctx_backup t = Some (trap_cx s2) → ∃ r t', sys_sigreturn (ecall_enter t) = Done (r, t') ∧
    trap_cx (ecall_leave t' r) = trap_cx s2 ∧ trap_ctx_backup t' = Some (trap_cx s2)).
  { intros t Ht. unfold sys_sigreturn. cbn [trap_ctx_backup ecall_enter set_trap_cx]. rewrite Ht. cbn [unwrap].
    rewrite outcome_bind_Done, Hn, outcome_bind_Done. eexists _, _. split; [done|]. split; [|done].
    cbn [trap_cx ecall_leave set_trap_cx]. rewrite wrap_signed by done. rewrite wrap_small by (by apply (Forall_lookup_1 _ _ _ _ Hx Hxl)).
    unfold set_x. change (Z.to_nat 10) with 10%nat in Hxl. rewrite list_insert_id by done. by destruct (trap_cx s2). }
  destruct (Hrest s4 H4) as (r0 & t0 & E0 & Et0 & Eb0). rewrite H5 in E0. injection E0 as <- <-. split; [done|].
  rewrite Eb0 in H6. destruct (Hrest s6 H6) as (r1 & t1 & E1 & Et1 & _). by exists r1, t1.
Qed.

Lemma nested_signal_loses_context_witness :
  let acts := <[10%nat := mkAction 0x5000 0]> (<[12%nat := mkAction 0x6000 0]> SignalActions_default) in
  let s := mkSig 0 0 (-1) acts false false (trap_cx calm) None in
  ∃ s1 s3 r s5, call_user_signal_handler s 10 (Z.shiftl 1 10) = Done s1 ∧
    call_user_signal_handler s1 12 (Z.shiftl 1 12) = Done s3 ∧ sys_sigreturn (ecall_enter s3) = Done (r, s5) ∧
    tc_sepc (trap_cx s) = 0x10000 ∧
    ∃ r' s7, sys_sigreturn (ecall_enter (ecall_leave s5 r)) = Done (r', s7) ∧ tc_sepc (trap_cx (ecall_leave s7 r')) = 0x5000.
Proof.
  intros acts s.
  set (s1 := mkSig 0x400 0 10 acts false false (set_x (set_sepc (trap_cx s) 0x5000) 10 10) (Some (trap_cx s))).
  set (s3 := mkSig 0x1400 0 12 acts false false (set_x (set_sepc (trap_cx s1) 0x6000) 10 12) (Some (trap_cx s1))).
  set (s5 := mkSig 0x1400 0 (-1) acts false false (trap_cx s1) (Some (trap_cx s1))).
  exists s1, s3, 10, s5. do 4 (split; [reflexivity|]).
  destruct (nested_signal_loses_context s 10 (mkAction 0x5000 0) s1 s1 12 (mkAction 0x6000 0) s3 s3 10 s5 (ecall_leave s5 10))
    as (_ & r' & s7 & Hr & Ht); try reflexivity; try prove_sig_ok; try lia; try done.
  - repeat (constructor; [cbn; lia|]). constructor.
  - exists r', s7. split; [exact Hr|]. by rewrite Ht.
Defined.

(** Masking a fatal signal does not protect from it: a pending SIGINT, SIGILL, SIGABRT,
    SIGFPE or SIGSEGV that the process masks is not delivered, and then ends the process all the
    same, since the exit check looks at the pending signals without the mask. *)
Theorem masked_signal_still_kills s b : sig_ok s → b ∈ [2; 4; 6; 8; 11] →
  Z.testbit (signals s) b = true → Z.testbit (signal_mask s) b = true →
  deliverable s b = false ∧
  ∃ s' again, handle_signals_round s = Done (s', again) ∧ is_Some (exit_on_signal s').
Proof.
  intros Ok Hb Hs Hm. split; [unfold deliverable; rewrite Hs, Hm; done|].
  assert (Hb0 : 0 ≤ b) by (repeat (apply elem_of_cons in Hb as [->|Hb]; [lia|]); by apply not_elem_of_nil in Hb).
  destruct (check_from_masked b 32 Hb0 0 s) as (s' & Hr & Hs'); [lia|lia|done..|].
  exists s', (negb (negb (frozen s') || killed s')). unfold handle_signals_round, check_pending_signals. change (MAX_SIG + 1) with 32.
  rewrite Hr, outcome_bind_Done. split; [done|]. unfold exit_on_signal, check_signals_error_of_current, check_error.
  unfold SIGINT, SIGILL, SIGABRT, SIGFPE, SIGKILL, SIGSEGV. rewrite !contains_bit by done.
  repeat case_match; try (by eexists); exfalso;
    repeat (apply elem_of_cons in Hb as [->|Hb]; [congruence|]); by apply not_elem_of_nil in Hb.
Qed.

Lemma masked_signal_still_kills_witness :
  ∃ s' again, handle_signals_round (mkSig SIGINT SIGINT (-1) SignalActions_default false false (trap_cx calm) None) = Done (s', again) ∧
    is_Some (exit_on_signal s').
Proof.
  destruct (masked_signal_still_kills (mkSig SIGINT SIGINT (-1) SignalActions_default false false (trap_cx calm) None) 2)
    as (_ & s' & again & Hr & He); [prove_sig_ok|by left|reflexivity|reflexivity|].
  exists s', again. split; [exact Hr|exact He].
Defined.

(** A stopped process may never be continued: while a signal below SIGCONT for which it has
    no handler is pending (and it stays pending, [pending_signal_delivery]), SIGCONT is never looked at, and the process
    goes on giving up the processor. *)
Theorem unhandled_signal_blocks_sigcont s u a : sig_ok s → frozen s = true → killed s = false →
  0 ≤ u < 18 → deliverable s u = true → (∀ v, 0 ≤ v < u → deliverable s v = false) →
  is_kernel_signal (Z.shiftl 1 u) = false → signal_actions s !! Z.to_nat u = Some a → handler a = 0 →
  handle_signals_round (current_add_signal s SIGCONT) = Done (current_add_signal s SIGCONT, true).
Proof.
  intros Ok Hf Hk Hu Hd Hlow Hker Ha Hh. set (t := current_add_signal s SIGCONT).
  assert (Hsame : ∀ v, 0 ≤ v < 18 → deliverable t v = deliverable s v).
  { intros v Hv. unfold deliverable, t. cbn [signals signal_mask handling_sig signal_actions current_add_signal set_signals].
    unfold SIGCONT. rewrite testbit_set by lia. by destruct (Z.eqb_spec 18 v); [lia|]. }
  unfold handle_signals_round, check_pending_signals. change (MAX_SIG + 1) with 32.
  rewrite (check_from_first t u 32 Ok 0); [|lia|lia|by rewrite Hsame|intros v Hv; rewrite Hsame by lia; by apply Hlow].
  rewrite Hker. rewrite (call_user_spec t u a) by (done || lia). rewrite Hh. cbn [Z.eqb]. rewrite outcome_bind_Done.
  change (frozen t) with (frozen s). change (killed t) with (killed s). by rewrite Hf, Hk.
Qed.

Lemma unhandled_signal_blocks_sigcont_witness :
  let s := mkSig (Z.shiftl 1 10) 0 (-1) SignalActions_default false true (trap_cx calm) None in
  handle_signals_round (current_add_signal s SIGCONT) = Done (current_add_signal s SIGCONT, true).
Proof.
  intros s. apply (unhandled_signal_blocks_sigcont s 10 SignalAction_default); try reflexivity.
  - prove_sig_ok.
  - lia.
  - intros v Hv. assert (v = 0 ∨ v = 1 ∨ v = 2 ∨ v = 3 ∨ v = 4 ∨ v = 5 ∨ v = 6 ∨ v = 7 ∨ v = 8 ∨ v = 9) as Hc by lia.
    by repeat destruct Hc as [->|Hc]; try subst v.
Defined.
