(* ===== verification/Files.v ===== *)
(** * Files.v: open files ([os/src/fs/mod.rs], [inode.rs], [stdio.rs], [syscall/fs.rs],
    the descriptor table of [task/process.rs])

    [OSInode] is an inode with an offset.  Its operations are programs over the block cache that
    also read and write user memory.  The trait [File] is a class; a descriptor table is a list of
    optional files, [Arc]s being compared by what they hold.  The file system lives in one
    [ROOT_INODE], here the arguments [efs] and [root]. *)

From S2P Require Import Prelude Bytes BlockProg Layout DiskInode Efs Vfs Address FrameAlloc PageTable UserIo Eventfd.

(** ** [OSInode] *)

Record OSInode : Type := mkOSInode {
  os_readable : bool;
  os_writable : bool;
  os_offset : Z;
  os_inode : Inode;
}.

Definition OSInode_new (readable writable : bool) (inode : Inode) : OSInode := mkOSInode readable writable 0 inode.

Definition set_offset (o : OSInode) (offset : Z) : OSInode := mkOSInode (os_readable o) (os_writable o) offset (os_inode o).

(** The loop of [read_all]: [None] when it has not ended after [n] rounds.  [buffer] is the local
    array of 512 bytes, not cleared between the rounds. *)
Fixpoint read_all_loop (n : nat) (o : OSInode) (buffer v : list Z) : prog (option (list Z * OSInode)) :=
  match n with
  | O => mret None
  | S n =>
      '(len, buffer) ← Inode_read_at (os_inode o) (os_offset o) buffer;
      if len =? 0 then mret (Some (v, o))
      else
        let o := set_offset o (u64 (os_offset o + len)) in
        read_all_loop n o buffer (v ++ take (Z.to_nat len) buffer)
  end.

Definition read_all (fuel : nat) (o : OSInode) : prog (option (list Z * OSInode)) :=
  read_all_loop fuel o (replicate 512 0) [].

Definition RDONLY : Z := 0.
Definition WRONLY : Z := 1.
Definition RDWR : Z := Z.shiftl 1 1.
Definition CREATE : Z := Z.shiftl 1 9.
Definition TRUNC : Z := Z.shiftl 1 10.

(** [OpenFlags::from_bits]: no bits but these. *)
Definition OpenFlags_from_bits (flags : Z) : option Z :=
  if Z.ldiff flags (Z.lor (Z.lor WRONLY RDWR) (Z.lor CREATE TRUNC)) =? 0 then Some flags else None.

Definition flag_set (flags f : Z) : bool := Z.land flags f =? f.

Definition read_write (flags : Z) : bool * bool :=
  if flags =? 0 then (true, false)
  else if flag_set flags WRONLY then (false, true)
  else (true, true).

Definition open_file (efs : EasyFileSystem) (root : Inode) (name : list Z) (flags : Z) : prog (option OSInode) :=
  let '(readable, writable) := read_write flags in
  if flag_set flags CREATE then
    o ← find efs root name;
    match o with
    | Some inode =>
        clear efs inode;;
        mret (Some (OSInode_new readable writable inode))
    | None =>
        o ← Inode_create efs root name;
        mret (option_map (OSInode_new readable writable) o)
    end
  else
    o ← find efs root name;
    match o with
    | None => mret None
    | Some inode =>
        (if flag_set flags TRUNC then clear efs inode else mret tt);;
        mret (Some (OSInode_new readable writable inode))
    end.

(** [file_list.sort()]: the order of [String] is that of the bytes; a stable insertion sort. *)
Fixpoint name_le (a b : list Z) : bool :=
  match a, b with
  | [], _ => true
  | _ :: _, [] => false
  | x :: a, y :: b => if x <? y then true else if y <? x then false else name_le a b
  end.

Fixpoint insert_name (x : list Z) (l : list (list Z)) : list (list Z) :=
  match l with
  | [] => [x]
  | y :: l => if name_le x y then x :: y :: l else y :: insert_name x l
  end.

Definition sort_names (l : list (list Z)) : list (list Z) := foldr insert_name [] l.

(** [path_file]: 47 is the slash. *)
Definition path_file (path file_name : list Z) : list Z :=
  if bool_decide (last path = Some 47) then path ++ file_name else path ++ [47] ++ file_name.

(** What [list_files] prints: the names with the sizes. *)
Fixpoint list_sizes (efs : EasyFileSystem) (root : Inode) (path : list Z) (names : list (list Z)) : prog (list (list Z * Z)) :=
  match names with
  | [] => mret []
  | file_name :: names =>
      o ← find efs root (path_file path file_name);
      file ← lift (unwrap PUnwrap o);
      size ← get_inode_size file;
      out ← list_sizes efs root path names;
      mret ((file_name, size) :: out)
  end.

Definition list_files (efs : EasyFileSystem) (root : Inode) (path : list Z) : prog (list (list Z * Z)) :=
  o ← find efs root path;
  dir ← lift (unwrap PUnwrap o);
  file_list ← ls dir;
  list_sizes efs root path (sort_names file_list).

(** A slice of user memory: its bytes, and bytes of the same length put there. *)
Definition load_slice (m : memory) (c : chunk) : outcome (list Z) :=
  let '(p, from, to) := c in
  pg ← unwrap PInvalid (m !! p);
  mret (slice (Z.to_nat from) (Z.to_nat (to - from)) pg).

Definition store_slice (m : memory) (c : chunk) (bs : list Z) : outcome memory :=
  let '(p, from, _) := c in
  pg ← unwrap PInvalid (m !! p);
  mret (<[p := splice (Z.to_nat from) bs pg]> m).

(** [OSInode::read] over the slices of the buffer. *)
Fixpoint os_read (m : memory) (o : OSInode) (buffers : list chunk) (total_read_size : Z) : prog (Z * memory * OSInode) :=
  match buffers with
  | [] => mret (total_read_size, m, o)
  | c :: buffers =>
      bs ← lift (load_slice m c);
      '(read_size, bs) ← Inode_read_at (os_inode o) (os_offset o) bs;
      m ← lift (store_slice m c bs);
      if read_size =? 0 then mret (total_read_size, m, o)
      else os_read m (set_offset o (u64 (os_offset o + read_size))) buffers (total_read_size + read_size)
  end.

Definition OSInode_read (m : memory) (o : OSInode) (buf : list chunk) : prog (Z * memory * OSInode) := os_read m o buf 0.

Fixpoint os_write (efs : EasyFileSystem) (m : memory) (o : OSInode) (buffers : list chunk) (total_write_size : Z)
    : prog (Z * OSInode) :=
  match buffers with
  | [] => mret (total_write_size, o)
  | c :: buffers =>
      bs ← lift (load_slice m c);
      write_size ← Inode_write_at efs (os_inode o) (os_offset o) bs;
      lift (assert_that (write_size =? zlen bs) PAssert);;
      os_write efs m (set_offset o (u64 (os_offset o + write_size))) buffers (total_write_size + write_size)
  end.

Definition OSInode_write (efs : EasyFileSystem) (m : memory) (o : OSInode) (buf : list chunk) : prog (Z * OSInode) :=
  os_write efs m o buf 0.

(** ** The trait [File] and the standard streams *)

(** [S] is the state the files live in, [R] what a read or write up to its next suspension gives. *)
Class FileOps (F S R : Type) : Type := {
  readable : F → bool;
  writable : F → bool;
  file_read : F → S → list chunk → R;
  file_write : F → S → list chunk → R;
}.

(** [Stdin::read] stores the byte [ch] that [UART.read()] gives. *)
Definition Stdin_read (m : memory) (user_buf : list chunk) (ch : Z) : outcome (Z * memory) :=
  assert_that (UserBuffer_len user_buf =? 1) PAssert;;
  '(p, from, to) ← unwrap PIndex (head user_buf);
  m ← store_place m (p, from) ch;
  mret (1, m).

(** [Stdout::write]: what is printed; [from_utf8] is the standard library's check. *)
Fixpoint Stdout_print (from_utf8 : list Z → bool) (m : memory) (buffers : list chunk) : outcome (list Z) :=
  match buffers with
  | [] => mret []
  | buffer :: buffers =>
      bs ← load_slice m buffer;
      assert_that (from_utf8 bs) PUnwrap;;
      out ← Stdout_print from_utf8 m buffers;
      mret (bs ++ out)
  end.

Definition Stdout_write (from_utf8 : list Z → bool) (m : memory) (user_buf : list chunk) : outcome (Z * list Z) :=
  out ← Stdout_print from_utf8 m user_buf;
  mret (UserBuffer_len user_buf, out).

(** The two streams as files: the state is the memory with the byte that the UART gives and the output. *)
Inductive StdStream : Type := Stdin | Stdout.

Record Terminal : Type := mkTerminal { tm_mem : memory; tm_in : Z; tm_out : list Z }.

#[export] Instance std_file (from_utf8 : list Z → bool) : FileOps StdStream Terminal (outcome (Z * Terminal)) := {
  readable f := match f with Stdin => true | Stdout => false end;
  writable f := match f with Stdin => false | Stdout => true end;
  file_read f s buf :=
    match f with
    | Stdin => '(n, m) ← Stdin_read (tm_mem s) buf (tm_in s); mret (n, mkTerminal m (tm_in s) (tm_out s))
    | Stdout => Panicked PExplicit
    end;
  file_write f s buf :=
    match f with
    | Stdin => Panicked PExplicit
    | Stdout => '(n, out) ← Stdout_write from_utf8 (tm_mem s) buf; mret (n, mkTerminal (tm_mem s) (tm_in s) (tm_out s ++ out))
    end;
}.

(** ** The descriptor table *)

Section fd_table.
Context {F : Type}.

Definition alloc_fd (fd_table : list (option F)) : nat * list (option F) :=
  match find_index (λ f, bool_decide (f = None)) fd_table with
  | Some fd => (fd, fd_table)
  | None => (length fd_table, fd_table ++ [None])
  end.

(** [alloc_fd] and the assignment that follows it wherever it is called. *)
Definition install (fd_table : list (option F)) (f : F) : nat * list (option F) :=
  let '(fd, fd_table) := alloc_fd fd_table in
  (fd, <[fd := Some f]> fd_table).

(** The end of [sys_open] and [sys_eventfd]: the file that was opened, if any, gets a descriptor. *)
Definition open_fd (fd_table : list (option F)) (opened : option F) : Z * list (option F) :=
  match opened with
  | Some f => let '(fd, fd_table) := install fd_table f in (Z.of_nat fd, fd_table)
  | None => (-1, fd_table)
  end.

(** [sys_open]; [inj] makes the [OSInode] a file of the table. *)
Definition sys_open (inj : OSInode → F) (efs : EasyFileSystem) (root : Inode) (m : memory) (fuel : nat)
    (token path flags : Z) (fd_table : list (option F)) : prog (option (Z * list (option F))) :=
  o ← lift (translated_str m fuel token path);
  match o with
  | None => mret None
  | Some path =>
      flags ← lift (unwrap PUnwrap (OpenFlags_from_bits flags));
      opened ← open_file efs root path flags;
      mret (Some (open_fd fd_table (option_map inj opened)))
  end.

Definition sys_eventfd (inj : Eventfd → F) (initval flags : Z) (fd_table : list (option F)) : outcome (Z * list (option F)) :=
  e ← sys_eventfd_create initval flags;
  mret (open_fd fd_table (Some (inj e))).

Definition sys_close (fd_table : list (option F)) (fd : Z) : outcome (Z * list (option F)) :=
  if zlen fd_table <=? fd then mret (-1, fd_table)
  else
    o ← nth_or_panic fd_table fd;
    match o with
    | None => mret (-1, fd_table)
    | Some _ => mret (0, <[Z.to_nat fd := None]> fd_table)
    end.

Definition sys_dup (fd_table : list (option F)) (fd : Z) : outcome (Z * list (option F)) :=
  if zlen fd_table <=? fd then mret (-1, fd_table)
  else
    o ← nth_or_panic fd_table fd;
    match o with
    | None => mret (-1, fd_table)
    | Some _ =>
        let '(new_fd, fd_table) := alloc_fd fd_table in
        o ← nth_or_panic fd_table fd;
        f ← unwrap PUnwrap o;
        mret (Z.of_nat new_fd, <[new_fd := Some f]> fd_table)
    end.

(** [sys_pipe], from the two ends that [make_pipe] gives; [write] is [*translated_refmut = v]. *)
Definition sys_pipe {M : Type} (write : M → Z → Z → outcome M) (m : M) (fd_table : list (option F))
    (pipe_read pipe_write : F) (pipe : Z) : outcome (Z * list (option F) * M) :=
  let '(read_fd, fd_table) := install fd_table pipe_read in
  let '(write_fd, fd_table) := install fd_table pipe_write in
  m ← write m pipe (Z.of_nat read_fd);
  m ← write m (u64 (pipe + 8)) (Z.of_nat write_fd);
  mret (0, fd_table, m).

(** [sys_read] and [sys_write]: [inl] is a result of their own, [inr] the file's. *)
Context {S R : Type} `{FileOps F S R}.

Definition sys_read (fd_table : list (option F)) (s : S) (m : memory) (fuel : nat) (token fd buf len : Z)
    : outcome (option (Z + R)) :=
  if zlen fd_table <=? fd then mret (Some (inl (-1)))
  else
    o ← nth_or_panic fd_table fd;
    match o with
    | Some file =>
        if negb (readable file) then mret (Some (inl (-1)))
        else
          bs ← translated_byte_buffer m fuel token buf len;
          mret (option_map (λ bs, inr (file_read file s bs)) bs)
    | None => mret (Some (inl (-1)))
    end.

Definition sys_write (fd_table : list (option F)) (s : S) (m : memory) (fuel : nat) (token fd buf len : Z)
    : outcome (option (Z + R)) :=
  if zlen fd_table <=? fd then mret (Some (inl (-1)))
  else
    o ← nth_or_panic fd_table fd;
    match o with
    | Some file =>
        if negb (writable file) then mret (Some (inl (-1)))
        else
          bs ← translated_byte_buffer m fuel token buf len;
          mret (option_map (λ bs, inr (file_write file s bs)) bs)
    | None => mret (Some (inl (-1)))
    end.
End fd_table.

(** ** An inode on the disk *)

(** The disk inode of [ino] is [di], nobody holds its block or the blocks of the file. *)
Record inode_at (ino : Inode) (L : gset Z) (D : gmap Z block) (di : DiskInode) : Prop := {
  ia_block : ∃ b, D !! in_block_id ino = Some b ∧ wf_block b ∧
    view_block DiskInodeC (Z.to_nat (in_block_offset ino)) b = Done di;
  ia_hold : can_hold L (in_block_id ino);
  ia_file : file_ok ({[in_block_id ino]} ∪ L) D di;
}.

(** The bytes of a file. *)
Definition content (di : DiskInode) (D : gmap Z block) : list Z :=
  (λ i, default 0 (file_byte di D i)) <$> seqZ 0 (di_size di).

Section reading.
Context (ino : Inode) (L : gset Z) (D : gmap Z block) (di : DiskInode) (I : inode_at ino L D di).

Lemma size_bound : 0 ≤ di_size di < 2 ^ 32.
Proof. pose proof (fo_size _ _ _ (ia_file _ _ _ _ I)) as Hs. rewrite INDIRECT2_BOUND_eq in Hs. lia. Qed.

Lemma length_file_content : length (content di D) = Z.to_nat (di_size di).
Proof. unfold content. by rewrite length_fmap, length_seqZ. Qed.

Lemma lookup_content i : 0 ≤ i < di_size di → content di D !! Z.to_nat i = file_byte di D i.
Proof.
  intros Hi. unfold content. rewrite list_lookup_fmap, lookup_seqZ_lt by lia. cbn.
  replace (0 + Z.of_nat (Z.to_nat i)) with i by lia.
  by destruct (file_byte_Some _ _ _ (ia_file _ _ _ _ I) i Hi) as (x & -> & _).
Qed.

Lemma Inode_read_at_spec offset buf : 0 ≤ offset → offset + zlen buf < 2 ^ 64 →
  let n := Z.to_nat (read_count di offset buf) in
  run (Inode_read_at ino offset buf) L D =
    FDone (read_count di offset buf, take n (drop (Z.to_nat offset) (content di D)) ++ drop n buf) L D.
Proof.
  intros Hoff Hlen n. destruct (ia_block _ _ _ _ I) as (b & Hb & Hwf & Hv).
  destruct (read_at_spec _ D di offset buf (ia_file _ _ _ _ I) Hoff Hlen) as (buf' & Hr & Hl & Hi).
  unfold Inode_read_at, read_disk_inode.
  rewrite (run_cache_read DiskInodeC _ _ _ L D D b di _ (ia_hold _ _ _ _ I) Hb Hv Hr). do 2 f_equal.
  pose proof size_bound. pose proof length_file_content as Hc. unfold n, read_count, zlen in *.
  apply list_eq. intros i. rewrite Hi. case_decide as Hd.
  - rewrite lookup_app_l by (rewrite length_take, length_drop; lia).
    rewrite lookup_take_lt, lookup_drop by lia. rewrite <- lookup_content by lia. f_equal. lia.
  - rewrite lookup_app_r by (rewrite length_take, length_drop; lia).
    rewrite lookup_drop, length_take, length_drop. f_equal. lia.
Qed.

Lemma read_all_loop_spec n : ∀ o buffer v, os_inode o = ino → 0 ≤ os_offset o ≤ di_size di → length buffer = 512%nat →
  di_size di - os_offset o + 512 ≤ Z.of_nat n * 512 →
  run (read_all_loop n o buffer v) L D =
    FDone (Some (v ++ drop (Z.to_nat (os_offset o)) (content di D), set_offset o (di_size di))) L D.
Proof.
  pose proof size_bound as Hsz. induction n as [|n IH]; intros o buffer v Ho Hoff Hb Hn; [lia|].
  cbn [read_all_loop]. rewrite run_bind, Ho, Inode_read_at_spec by (unfold zlen; lia). cbn iota beta.
  assert (Hc : read_count di (os_offset o) buffer = Z.min 512 (di_size di - os_offset o)) by (unfold read_count, zlen; lia).
  rewrite Hc. destruct (Z.eqb_spec (Z.min 512 (di_size di - os_offset o)) 0) as [E|E].
  - rewrite run_ret. do 3 f_equal; [|].
    + rewrite drop_ge by (rewrite length_file_content; lia). by rewrite app_nil_r.
    + unfold set_offset. destruct o as [r w off i]. cbn in *. f_equal. lia.
  - rewrite wrap_small by lia. pose proof length_file_content as Hl.
    set (k := Z.min 512 (di_size di - os_offset o)) in *. set (bs := drop (Z.to_nat (os_offset o)) (content di D)).
    assert (Hbs : length bs = Z.to_nat (di_size di - os_offset o)) by (unfold bs; rewrite length_drop; lia).
    rewrite IH; [|done|cbn; lia|rewrite length_app, length_take, length_drop; lia|cbn; lia].
    do 3 f_equal. cbn [os_offset set_offset]. rewrite <- app_assoc. f_equal.
    rewrite take_app_le by (rewrite length_take; lia). rewrite take_take, Nat.min_id.
    rewrite <- (take_drop (Z.to_nat k) bs) at 2. f_equal. unfold bs. rewrite drop_drop. f_equal. lia.
Qed.
End reading.

(** C29. [read_all] of an open file ends after size / 512 + 2 rounds and returns the bytes of the
    file from the offset on, the whole file when it was just opened; the offset is then the size of
    the file, and the disk is as it was. *)
Theorem read_all_returns_file o L D di fuel :
  inode_at (os_inode o) L D di → 0 ≤ os_offset o ≤ di_size di → di_size di / 512 + 2 ≤ Z.of_nat fuel →
  run (read_all fuel o) L D =
    FDone (Some (drop (Z.to_nat (os_offset o)) (content di D), set_offset o (di_size di))) L D.
Proof.
  intros I Hoff Hf. unfold read_all. rewrite (read_all_loop_spec _ L D di I); [done|done|done|by rewrite length_replicate|].
  clear - Hoff Hf. dlia.
Qed.

(** ** Slices of user memory *)

Definition slice_ok (m : memory) (c : chunk) : Prop :=
  let '(p, from, to) := c in ∃ pg, m !! p = Some pg ∧ 0 ≤ from ≤ to ∧ to ≤ zlen pg.

Lemma lookup_chunk_places p from to k : chunk_places (p, from, to) !! k =
  if decide (Z.of_nat k < to - from) then Some (p, from + Z.of_nat k) else None.
Proof.
  cbn [chunk_places]. rewrite list_lookup_fmap. case_decide; [by rewrite lookup_seqZ_lt by lia|].
  by rewrite lookup_seqZ_ge by lia.
Qed.

Lemma load_slice_spec m c : slice_ok m c → ∃ bs, load_slice m c = Done bs ∧ zlen bs = chunk_len c ∧
  ∀ k pl, chunk_places c !! k = Some pl → byte_at m pl = bs !! k.
Proof.
  destruct c as [[p from] to]. intros (pg & Hp & Hf & Ht). unfold load_slice. rewrite Hp. cbn [unwrap chunk_len].
  rewrite outcome_bind_Done. eexists. split; [done|]. unfold zlen in *. split; [rewrite length_slice; lia|].
  intros k pl. rewrite lookup_chunk_places. case_decide as Hk; [|done]. intros [= <-].
  unfold byte_at. cbn. rewrite Hp. cbn. destruct (Z.leb_spec 0 (from + Z.of_nat k)); [|lia].
  rewrite lookup_slice, decide_True by lia. f_equal. lia.
Qed.

Lemma store_slice_spec m c bs : slice_ok m c → zlen bs = chunk_len c → ∃ m', store_slice m c bs = Done m' ∧
  (∀ k pl, chunk_places c !! k = Some pl → byte_at m' pl = bs !! k) ∧
  (∀ pl, pl ∉ chunk_places c → byte_at m' pl = byte_at m pl) ∧ (∀ d, slice_ok m d → slice_ok m' d).
Proof.
  destruct c as [[p from] to]. intros (pg & Hp & Hf & Ht) Hl. unfold store_slice. rewrite Hp. cbn [unwrap chunk_len] in *.
  rewrite outcome_bind_Done. eexists. split; [done|]. unfold zlen in *. unfold byte_at. split; [|split].
  - intros k pl. rewrite lookup_chunk_places. case_decide as Hk; [|done]. intros [= <-].
    cbn. rewrite lookup_insert_eq. cbn. destruct (Z.leb_spec 0 (from + Z.of_nat k)); [|lia].
    rewrite lookup_splice, decide_True by lia. f_equal. lia.
  - intros [q x] Hq. cbn. destruct (decide (q = p)) as [->|Hne]; [|by rewrite lookup_insert_ne].
    rewrite lookup_insert_eq, Hp. cbn. destruct (Z.leb_spec 0 x); [|done]. rewrite lookup_splice by lia.
    case_decide as Hx; [|done]. exfalso. apply Hq. apply list_elem_of_lookup. exists (Z.to_nat (x - from)).
    rewrite lookup_chunk_places, decide_True by lia. do 2 f_equal. lia.
  - intros [[q f] t] (pg' & Hq & Hr). destruct (decide (q = p)) as [->|Hne].
    + exists (splice (Z.to_nat from) bs pg). rewrite lookup_insert_eq. split; [done|].
      rewrite Hp in Hq. injection Hq as <-. unfold zlen in *. by rewrite length_splice by lia.
    + exists pg'. by rewrite lookup_insert_ne.
Qed.

Section places.
Context (D : gmap Z block) (di : DiskInode).

(** [n] bytes of the file from [off] on are at the first [n] of the places, the rest is as before. *)
Definition bytes_put (m m' : memory) (places : list place) (off n : Z) : Prop :=
  (∀ k pl, places !! k = Some pl →
     byte_at m' pl = if decide (Z.of_nat k < n) then file_byte di D (off + Z.of_nat k) else byte_at m pl) ∧
  (∀ pl, pl ∉ places → byte_at m' pl = byte_at m pl).

Lemma bytes_put_none m places off n : n ≤ 0 → bytes_put m m places off n.
Proof. intros Hn. split; [|done]. intros k pl _. by rewrite decide_False by lia. Qed.

Lemma bytes_put_app m m1 m2 ps1 ps2 off n1 n2 : NoDup (ps1 ++ ps2) →
  (n1 = zlen ps1 ∨ n2 ≤ 0) → 0 ≤ n1 ≤ zlen ps1 →
  bytes_put m m1 ps1 off n1 → bytes_put m1 m2 ps2 (off + n1) n2 → bytes_put m m2 (ps1 ++ ps2) off (n1 + Z.max 0 n2).
Proof.
  unfold zlen. intros (_ & Hd & _)%NoDup_app Hn Hr [A1 A2] [B1 B2]. split.
  - intros k pl [Hk|[Hge Hk]]%lookup_app_Some.
    + pose proof (lookup_lt_Some _ _ _ Hk). rewrite B2 by (apply Hd; by eapply list_elem_of_lookup_2).
      rewrite (A1 k pl Hk). repeat case_decide; (done || lia).
    + rewrite (B1 _ pl Hk). assert (Hp : byte_at m1 pl = byte_at m pl).
      { apply A2. intros Hi. apply (Hd pl Hi). by eapply list_elem_of_lookup_2. }
      rewrite Hp. pose proof (lookup_lt_Some _ _ _ Hk).
      repeat case_decide; try lia; try done. f_equal. lia.
  - intros pl Hp. rewrite B2, A2; [done|set_solver|set_solver].
Qed.
End places.

Section user_buffer.
Context (ino : Inode) (L : gset Z) (D : gmap Z block) (di : DiskInode) (I : inode_at ino L D di).

Lemma read_slice m c off : slice_ok m c → 0 ≤ off → off + chunk_len c < 2 ^ 64 →
  let n := Z.max 0 (Z.min (chunk_len c) (di_size di - off)) in
  ∃ bs bs' m', load_slice m c = Done bs ∧ run (Inode_read_at ino off bs) L D = FDone (n, bs') L D ∧
    store_slice m c bs' = Done m' ∧ bytes_put D di m m' (chunk_places c) off n ∧ (∀ d, slice_ok m d → slice_ok m' d).
Proof.
  intros Hc Hoff Hb n. destruct (load_slice_spec m c Hc) as (bs & Hl & Hz & Hbs).
  pose proof (Inode_read_at_spec ino L D di I off bs Hoff ltac:(lia)) as Hr. cbn zeta in Hr.
  assert (En : read_count di off bs = n) by (unfold read_count, n; lia). rewrite En in Hr.
  pose proof (length_file_content D di) as Hlc. pose proof (size_bound ino L D di I) as Hsz.
  unfold zlen in *. set (bs' := _ ++ drop _ bs) in Hr.
  destruct (store_slice_spec m c bs') as (m' & Hs & Hin & Hout & Hok); [done|unfold bs', zlen; rewrite length_app, length_take, !length_drop; lia|].
  exists bs, bs', m'. do 3 (split; [done|]). split; [|done]. split; [|done].
  intros k pl Hk. rewrite (Hin k pl Hk), (Hbs k pl Hk). unfold bs'. case_decide as Hkn.
  - rewrite lookup_app_l by (rewrite length_take, length_drop; lia).
    rewrite lookup_take_lt, lookup_drop by lia. rewrite <- (lookup_content ino L D di I) by lia. f_equal. lia.
  - rewrite lookup_app_r by (rewrite length_take, length_drop; lia).
    rewrite lookup_drop, length_take, length_drop. f_equal. lia.
Qed.
End user_buffer.
Lemma os_read_spec ino L D di (I : inode_at ino L D di) buffers : ∀ m o total,
  os_inode o = ino → 0 ≤ os_offset o → os_offset o + zlen (buffers ≫= chunk_places) < 2 ^ 64 →
  Forall (slice_ok m) buffers → Forall (λ c, 0 < chunk_len c) buffers → NoDup (buffers ≫= chunk_places) →
  let n := Z.max 0 (Z.min (zlen (buffers ≫= chunk_places)) (di_size di - os_offset o)) in
  ∃ m', run (os_read m o buffers total) L D = FDone (total + n, m', set_offset o (os_offset o + n)) L D ∧
    bytes_put D di m m' (buffers ≫= chunk_places) (os_offset o) n.
Proof.
  induction buffers as [|c buffers IH]; intros m o total Ho Hoff Hlen Hok Hpos Hnd n.
  - exists m. assert (n = 0) as -> by (unfold n, zlen; cbn; lia). rewrite !Z.add_0_r. cbn [os_read].
    split; [by destruct o|by apply bytes_put_none].
  - apply Forall_cons in Hok as [Hc Hok]. apply Forall_cons in Hpos as [Hcp Hpos].
    assert (El : zlen (chunk_places c) = chunk_len c).
    { destruct c as [[p f] t]. cbn [chunk_places chunk_len] in *. unfold zlen. rewrite length_fmap, length_seqZ. lia. }
    subst n. rewrite bind_cons in *. set (rest := buffers ≫= chunk_places) in *.
    set (n := Z.max 0 (Z.min (zlen (chunk_places c ++ rest)) (di_size di - os_offset o))).
    assert (Hz : zlen (chunk_places c ++ rest) = chunk_len c + zlen rest) by (unfold zlen in *; rewrite length_app; lia).
    assert (0 ≤ zlen rest) by (unfold zlen; lia).
    destruct (read_slice ino L D di I m c (os_offset o) Hc Hoff) as (bs & bs' & m1 & Hl & Hr & Hs & Hput & Hok1); [lia|].
    set (k := Z.max 0 (Z.min (chunk_len c) (di_size di - os_offset o))) in *.
    cbn [os_read]. rewrite Hl, run_bind, (run_lift_Done bs) by done. rewrite run_bind, Ho, Hr. cbn iota beta.
    rewrite run_bind, (run_lift_Done m1) by done.
    apply NoDup_app in Hnd as Hnd'. destruct Hnd' as (_ & _ & Hnd2).
    pose proof (size_bound ino L D di I). destruct (Z.eqb_spec k 0) as [E|E].
    + exists m1. rewrite run_ret. assert (n = 0) as -> by (unfold n; lia). rewrite !Z.add_0_r. split; [by destruct o|].
      replace 0 with (k + Z.max 0 0) by lia.
      eapply (bytes_put_app D di _ m1 m1); [done|by right|lia|done|by apply bytes_put_none].
    + rewrite wrap_small by lia.
      destruct (IH m1 (set_offset o (os_offset o + k)) (total + k)) as (m2 & Hr2 & Hput2); [done|cbn; lia|cbn; lia| |done|done|].
      { eapply Forall_impl; [exact Hok|]. intros d Hd. by apply Hok1. }
      exists m2. cbn [os_offset set_offset] in *. set (k2 := Z.max 0 (Z.min (zlen rest) (di_size di - (os_offset o + k)))) in *.
      assert (En : n = k + k2) by (unfold n, k2, k; lia). split.
      * rewrite Hr2, En. unfold set_offset. cbn [os_readable os_writable os_offset os_inode]. by rewrite !Z.add_assoc.
      * rewrite En. replace (k + k2) with (k + Z.max 0 k2) by lia.
        eapply (bytes_put_app D di _ m1 m2); [done| |lia|done|done]. unfold k2, k. lia.
Qed.

(** [read] on an open file, with a user buffer whose slices lie in frames and do not overlap:
    it returns the number of bytes there are between the offset and the end of the file, at most
    the length of the buffer; exactly that many places of the buffer, in order across the slices,
    get the bytes of the file from the offset on, no other byte of memory changes, and the offset
    moves past them, so that the next [read] goes on where this one ended. *)
Theorem file_read_fills_buffer o L D di m buf :
  inode_at (os_inode o) L D di → 0 ≤ os_offset o → os_offset o + zlen (buf ≫= chunk_places) < 2 ^ 64 →
  Forall (slice_ok m) buf → Forall (λ c, 0 < chunk_len c) buf → NoDup (buf ≫= chunk_places) →
  let n := Z.max 0 (Z.min (zlen (buf ≫= chunk_places)) (di_size di - os_offset o)) in
  ∃ m', run (OSInode_read m o buf) L D = FDone (n, m', set_offset o (os_offset o + n)) L D ∧
    (∀ k pl, (buf ≫= chunk_places) !! k = Some pl →
       byte_at m' pl = if decide (Z.of_nat k < n) then file_byte di D (os_offset o + Z.of_nat k) else byte_at m pl) ∧
    (∀ pl, pl ∉ buf ≫= chunk_places → byte_at m' pl = byte_at m pl).
Proof.
  intros I Hoff Hlen Hok Hpos Hnd n.
  destruct (os_read_spec _ L D di I buf m o 0 eq_refl Hoff Hlen Hok Hpos Hnd) as (m' & Hr & Hput). by exists m'.
Qed.

(** ** The descriptor table as a map *)

Section fd_map.
Context {F : Type}.
Implicit Types t : list (option F).

Definition file_at t (fd : nat) : option F := mjoin (t !! fd).

Lemma file_at_insert t fd o j : (fd < length t)%nat → file_at (<[fd := o]> t) j = if decide (j = fd) then o else file_at t j.
Proof.
  intros Hl. unfold file_at. case_decide as E; [subst; by rewrite list_lookup_insert_eq|by rewrite list_lookup_insert_ne].
Qed.

(** [fd] is the lowest descriptor that is free. *)
Definition lowest_free t (fd : nat) : Prop := file_at t fd = None ∧ ∀ j, (j < fd)%nat → is_Some (file_at t j).

Lemma alloc_fd_spec t : let '(fd, t') := alloc_fd t in
  lowest_free t fd ∧ (fd < length t')%nat ∧ (∀ j, file_at t' j = file_at t j) ∧ (length t ≤ length t')%nat.
Proof.
  unfold alloc_fd. destruct (find_index _ t) as [fd|] eqn:E.
  - apply find_index_Some in E as [(x & Hx & Hn) Hmin]. apply bool_decide_eq_true in Hn as ->.
    split; [split|split; [by eapply lookup_lt_Some|done]].
    + unfold file_at. by rewrite Hx.
    + intros j Hj. pose proof (lookup_lt_Some _ _ _ Hx). destruct (lookup_lt_is_Some_2 t j) as [y Hy]; [lia|].
      specialize (Hmin j y Hj Hy). apply bool_decide_eq_false in Hmin. unfold file_at. rewrite Hy. by destruct y as [f|]; [exists f|].
  - rewrite find_index_None in E. split; [split|split; [rewrite length_app; cbn; lia|split]].
    + unfold file_at. by rewrite lookup_ge_None_2.
    + intros j Hj. destruct (lookup_lt_is_Some_2 t j Hj) as [y Hy].
      specialize (E y (list_elem_of_lookup_2 _ _ _ Hy)). apply bool_decide_eq_false in E.
      unfold file_at. rewrite Hy. by destruct y as [f|]; [exists f|].
    + intros j. unfold file_at. destruct (decide (j < length t)%nat); [by rewrite lookup_app_l|].
      rewrite (lookup_ge_None_2 t j) by lia. destruct (decide (j = length t)) as [->|Hne]; [by rewrite list_lookup_middle|].
      by rewrite lookup_ge_None_2 by (rewrite length_app; cbn; lia).
    + rewrite length_app. lia.
Qed.

Lemma install_spec t f : let '(fd, t') := install t f in
  lowest_free t fd ∧ (∀ j, file_at t' j = if decide (j = fd) then Some f else file_at t j) ∧ (fd < length t')%nat.
Proof.
  unfold install. pose proof (alloc_fd_spec t) as Ha. destruct (alloc_fd t) as [fd t1]. destruct Ha as (Hl & Hb & He & _).
  split; [done|]. split; [|by rewrite length_insert]. intros j. rewrite file_at_insert by done. case_decide; [done|apply He].
Qed.

(** The slot a descriptor names, as the system calls look it up. *)
Lemma slot_spec t fd : 0 ≤ fd →
  if zlen t <=? fd then file_at t (Z.to_nat fd) = None
  else ∃ o, nth_or_panic t fd = Done o ∧ o = file_at t (Z.to_nat fd) ∧ (Z.to_nat fd < length t)%nat.
Proof.
  intros Hfd. unfold zlen, nth_or_panic, file_at. destruct (Z.leb_spec (Z.of_nat (length t)) fd).
  - by rewrite lookup_ge_None_2 by lia.
  - destruct (Z.ltb_spec fd 0); [lia|]. destruct (lookup_lt_is_Some_2 t (Z.to_nat fd)) as [o Ho]; [lia|].
    exists o. rewrite Ho. split; [done|]. split; [done|lia].
Qed.

Lemma close_spec t fd : 0 ≤ fd → ∃ r t', sys_close t fd = Done (r, t') ∧
  r = (if decide (file_at t (Z.to_nat fd) = None) then -1 else 0) ∧
  ∀ j, file_at t' j = if decide (j = Z.to_nat fd) then None else file_at t j.
Proof.
  intros Hfd. pose proof (slot_spec t fd Hfd) as Hs. unfold sys_close. destruct (zlen t <=? fd).
  - exists (-1), t. split; [done|]. rewrite decide_True by done. split; [done|]. intros j. case_decide; [by subst|done].
  - destruct Hs as (o & Ho & E & Hl). rewrite Ho. cbn. destruct o as [f|]; cbn.
    + eexists _, _. split; [done|]. rewrite decide_False by congruence. split; [done|]. intros j. by apply file_at_insert.
    + exists (-1), t. split; [done|]. rewrite decide_True by done. split; [done|]. intros j. case_decide; [by subst|done].
Qed.

Lemma dup_spec t fd : 0 ≤ fd → ∃ r t', sys_dup t fd = Done (r, t') ∧
  match file_at t (Z.to_nat fd) with
  | None => r = -1 ∧ t' = t
  | Some f => ∃ n, r = Z.of_nat n ∧ lowest_free t n ∧ n ≠ Z.to_nat fd ∧
      ∀ j, file_at t' j = if decide (j = n) then Some f else file_at t j
  end.
Proof.
  intros Hfd. pose proof (slot_spec t fd Hfd) as Hs. unfold sys_dup. destruct (zlen t <=? fd); [rewrite Hs; by eexists _, _|].
  destruct Hs as (o & Ho & E & Hl). rewrite Ho. cbn [mbind outcome_bind]. rewrite <- E. destruct o as [f|]; [|by eexists _, _].
  pose proof (alloc_fd_spec t) as Ha. destruct (alloc_fd t) as [n t1]. destruct Ha as (Hf & Hb & He & Hlen).
  pose proof (slot_spec t1 fd Hfd) as Hs1. destruct (Z.leb_spec (zlen t1) fd) as [Hz|_]; [unfold zlen in Hz; lia|].
  destruct Hs1 as (o & -> & E1 & _). rewrite He, <- E in E1. rewrite E1. cbn. eexists _, _. split; [done|].
  exists n. split; [done|]. split; [done|]. split; [intros ->; destruct Hf as [Hf _]; congruence|].
  intros j. rewrite file_at_insert by done. case_decide; [done|apply He].
Qed.
End fd_map.

(** A process's descriptor table is a map from descriptors to files.  A file that is opened
    gets the lowest free descriptor, the two ends of a pipe the two lowest, the read end first,
    and both are reported to the user; [dup] gives the lowest free descriptor the same file;
    [close] frees one; a descriptor that is not open makes [close] and [dup] return -1 and change
    nothing, and the other descriptors keep their files. *)
Theorem descriptors_are_a_map {F M : Type} (t : list (option F)) (f r w : F) (fd pipe : Z) (m : M)
    (write : M → Z → Z → outcome M) : 0 ≤ fd →
  (∃ n t', open_fd t (Some f) = (Z.of_nat n, t') ∧ lowest_free t n ∧
     ∀ j, file_at t' j = if decide (j = n) then Some f else file_at t j) ∧
  open_fd t None = (-1, t) ∧
  (∃ a b t', lowest_free t a ∧ file_at t b = None ∧ (a < b)%nat ∧
     (∀ j, (j < b)%nat → j ≠ a → is_Some (file_at t j)) ∧
     (∀ j, file_at t' j = if decide (j = a) then Some r else if decide (j = b) then Some w else file_at t j) ∧
     sys_pipe write m t r w pipe =
       m ← write m pipe (Z.of_nat a); m ← write m (u64 (pipe + 8)) (Z.of_nat b); mret (0, t', m)) ∧
  (∃ res t', sys_dup t fd = Done (res, t') ∧
     match file_at t (Z.to_nat fd) with
     | None => res = -1 ∧ t' = t
     | Some g => ∃ n, res = Z.of_nat n ∧ lowest_free t n ∧ n ≠ Z.to_nat fd ∧
         ∀ j, file_at t' j = if decide (j = n) then Some g else file_at t j
     end) ∧
  (∃ res t', sys_close t fd = Done (res, t') ∧
     res = (if decide (file_at t (Z.to_nat fd) = None) then -1 else 0) ∧
     ∀ j, file_at t' j = if decide (j = Z.to_nat fd) then None else file_at t j).
Proof.
  intros Hfd. split; [|split; [done|split; [|split; [by apply dup_spec|by apply close_spec]]]].
  - unfold open_fd. pose proof (install_spec t f) as Hi. destruct (install t f) as [n t']. exists n, t'. by destruct Hi as (? & ? & _).
  - unfold sys_pipe. pose proof (install_spec t r) as Hi. destruct (install t r) as [a t1]. destruct Hi as (Ha & H1 & _).
    pose proof (install_spec t1 w) as Hi. destruct (install t1 w) as [b t2]. destruct Hi as ([Hb Hbm] & H2 & _).
    exists a, b, t2. split; [done|]. rewrite H1 in Hb. case_decide as Hba; [done|]. destruct Ha as [Ha Hmin].
    assert (Hab : (a < b)%nat).
    { destruct (decide (b < a)%nat) as [Hlt|]; [|lia]. destruct (Hmin b Hlt) as [x Hx]. congruence. }
    split; [done|]. split; [done|]. split.
    + intros j Hj Hja. specialize (Hbm j Hj). rewrite H1 in Hbm. by rewrite decide_False in Hbm.
    + split; [|done]. intros j. rewrite H2, H1. repeat case_decide; (congruence || done).
Qed.

(** ** Witnesses *)

Lemma descriptors_are_a_map_witness :
  sys_dup [Some 10; None; Some 12] 2 = Done (1, [Some 10; Some 12; Some 12]).
Proof.
  destruct (descriptors_are_a_map [Some 10; None; Some 12] 0 0 0 2 0 0 (λ m _ _, Done m)) as (_ & _ & _ & Hd & _); [lia|].
  destruct Hd as (res & t' & Hr & n & -> & _). rewrite Hr. by vm_compute in Hr.
Defined.

(** A file of three bytes, its inode in block 2, its data in block 5. *)
Module OpenWitness.
Definition di : DiskInode := mkDiskInode 3 (5 :: replicate 27 0) 0 0 File.
Definition disk : gmap Z block :=
  <[2 := splice 128 (cenc DiskInodeC di) (replicate 512 0)]> {[ 5 := [7; 8; 9] ++ replicate 509 0 ]}.
Definition ino : Inode := Inode_new 2 128.

Lemma one_block k : 0 ≤ k < data_blocks di → k = 0.
Proof. change (data_blocks di) with 1. lia. Qed.

Lemma opened : inode_at ino ∅ disk di.
Proof.
  split.
  - eexists. split; [reflexivity|]. split; [split; [by vm_compute|by apply (bool_decide_unpack _); vm_compute]|by vm_compute].
  - apply can_hold_empty.
  - split; [done|by rewrite INDIRECT2_BOUND_eq| |].
    + by intros k x ->%one_block Hx%not_elem_of_nil.
    + intros k ->%one_block. exists 5. split; [done|]. exists ([7; 8; 9] ++ replicate 509 0). split; [done|]. split.
      * split; [by vm_compute|by apply (bool_decide_unpack _); vm_compute].
      * by apply (bool_decide_unpack _); vm_compute.
Qed.

(** Two slices of two bytes, in the frames 1 and 2. *)
Definition m : memory := <[PPN 1 := [0; 0; 0; 0]]> {[ PPN 2 := [0; 0; 0; 0] ]}.
Definition buf : list chunk := [(PPN 1, 2, 4); (PPN 2, 0, 2)].
End OpenWitness.

Lemma read_all_returns_file_witness :
  run (read_all 3 (OSInode_new true false OpenWitness.ino)) ∅ OpenWitness.disk =
    FDone (Some ([7; 8; 9], mkOSInode true false 3 OpenWitness.ino)) ∅ OpenWitness.disk.
Proof.
  rewrite (read_all_returns_file (OSInode_new true false OpenWitness.ino) ∅ OpenWitness.disk OpenWitness.di 3 OpenWitness.opened); [by vm_compute|split; by vm_compute|by vm_compute].
Defined.

Lemma file_read_fills_buffer_witness :
  ∃ m', run (OSInode_read OpenWitness.m (OSInode_new true false OpenWitness.ino) OpenWitness.buf) ∅ OpenWitness.disk =
      FDone (3, m', mkOSInode true false 3 OpenWitness.ino) ∅ OpenWitness.disk ∧
    byte_at m' (PPN 1, 2) = Some 7 ∧ byte_at m' (PPN 2, 0) = Some 9 ∧ byte_at m' (PPN 2, 1) = Some 0.
Proof.
  destruct (file_read_fills_buffer (OSInode_new true false OpenWitness.ino) ∅ OpenWitness.disk OpenWitness.di
    OpenWitness.m OpenWitness.buf OpenWitness.opened) as (m' & Hr & Hin & _).
  - done.
  - by vm_compute.
  - repeat constructor; eexists; (split; [reflexivity|unfold zlen; cbn; lia]).
  - repeat constructor.
  - by apply (bool_decide_unpack _); vm_compute.
  - exists m'. split; [exact Hr|]. split; [|split].
    + rewrite (Hin 0%nat) by done. by vm_compute.
    + rewrite (Hin 2%nat) by done. by vm_compute.
    + rewrite (Hin 3%nat) by done. by vm_compute.
Defined.
