(* ===== verification/Fuse.v ===== *)
(** * Fuse.v: the packing tool and the tests of [easy-fs-fuse/src/main.rs]

    [easy_fs_pack] makes the image [fs.img] the kernel boots from.  It is modelled as a client of
    the file system; the host (the names in the source directory and the files of the target
    directory) is an argument, and what a function prints is its result.  The proofs work on the
    tree of FsTree.v with the refinement of FsSpec.v: [does T p a T'] is the triple of a program
    that finds the tree [T], returns [a] and leaves the tree [T']. *)

From Stdlib Require Import String Ascii.
From S2P Require Import Prelude Bytes BlockProg BlockCache Bitmap Layout DiskInode Efs Vfs FileGrow FsInv FsOps FsTree FsSpec Files.

Definition str (s : string) : list Z := (λ c, Z.of_N (N_of_ascii c)) <$> list_ascii_of_string s.
Arguments str s%_string.

(** ** The tool *)

(** [name_with_ext.drain(name_with_ext.find('.').unwrap()..name_with_ext.len())]; 46 is the dot. *)
Definition strip_ext (name_with_ext : list Z) : outcome (list Z) :=
  i ← unwrap PUnwrap (find_index (λ c, c =? 46) name_with_ext);
  mret (take i name_with_ext).

Fixpoint strip_all (names : list (list Z)) : outcome (list (list Z)) :=
  match names with
  | [] => mret []
  | name :: names => app ← strip_ext name; apps ← strip_all names; mret (app :: apps)
  end.

(** [for app in apps { .. }]; [host] are the files of the host by their path. *)
Fixpoint pack_apps (efs : EasyFileSystem) (root_inode : Inode) (target_path : list Z) (host : list Z → option (list Z)) (apps : list (list Z)) : prog unit :=
  match apps with
  | [] => mret tt
  | app :: apps =>
      all_data ← lift (unwrap PUnwrap (host (target_path ++ app)));
      o ← Inode_create efs root_inode app;
      inode ← lift (unwrap PUnwrap o);
      Inode_write_at efs inode 0 all_data;;
      pack_apps efs root_inode target_path host apps
  end.

(** The directories and files that both the tool and [efs_dir_test] add. *)
Definition make_dirs (efs : EasyFileSystem) (root_inode : Inode) : prog (Inode * Inode) :=
  o ← Inode_create_dir efs root_inode (str "dira");
  dir_a ← lift (unwrap PUnwrap o);
  o ← Inode_create efs dir_a (str "filec");
  file_c ← lift (unwrap PUnwrap o);
  o ← Inode_create_dir efs dir_a (str "dirb");
  dir_b ← lift (unwrap PUnwrap o);
  o ← Inode_create efs dir_b (str "filed");
  file_d ← lift (unwrap PUnwrap o);
  mret (file_c, file_d).

Definition fill_files (efs : EasyFileSystem) (file_c file_d : Inode) : prog unit :=
  Inode_write_at efs file_c 0 (str "3333333");;
  Inode_write_at efs file_d 0 (str "4444444444444444444");;
  mret tt.

(** What is done with the formatted image. *)
Definition pack_image (efs : EasyFileSystem) (target_path : list Z) (host : list Z → option (list Z)) (dir_names : list (list Z)) : prog (list (list Z)) :=
  let root_inode := root_inode efs in
  apps ← lift (strip_all dir_names);
  pack_apps efs root_inode target_path host apps;;
  names ← ls root_inode;
  '(file_c, file_d) ← make_dirs efs root_inode;
  fill_files efs file_c file_d;;
  mret names.

Definition easy_fs_pack (target_path : list Z) (host : list Z → option (list Z)) (dir_names : list (list Z)) : prog (list (list Z)) :=
  efs ← create (16 * 2048) 1;
  pack_image efs target_path host dir_names.

(** [easy_fs_read_metadata]: what it prints of the super block, the bitmaps, the inodes, four data
    blocks and the files of the root directory with their sizes. *)
Fixpoint read_blocks (ids : list Z) : prog (list (list Z)) :=
  match ids with
  | [] => mret []
  | block_id :: ids => data_block ← read_data_area block_id; l ← read_blocks ids; mret (data_block :: l)
  end.

Fixpoint file_sizes (efs : EasyFileSystem) (root_inode : Inode) (apps : list (list Z)) : prog (list (list Z * Z)) :=
  match apps with
  | [] => mret []
  | app :: apps =>
      o ← find efs root_inode app;
      file ← lift (unwrap PUnwrap o);
      size ← get_inode_size file;
      l ← file_sizes efs root_inode apps;
      mret ((app, size) :: l)
  end.

Record metadata : Type := mkMetadata {
  md_super_block : SuperBlock;
  md_first_inode_bitmap : list Z;
  md_first_data_bitmap : list Z;
  md_inode_areas : list DiskInode;
  md_data_blocks : list (list Z);
  md_files : list (list Z * Z);
}.

Definition easy_fs_read_metadata : prog metadata :=
  efs ← open_fs;
  let root_inode := root_inode efs in
  super_block ← read_super_block;
  first_inode_bitmap ← read_inode_bitmap efs;
  first_data_bitmap ← read_data_bitmap efs;
  inode_areas ← read_available_inode_areas efs;
  data_blocks ← read_blocks [1704; 1705; 1706; 1707];
  apps ← ls root_inode;
  files ← file_sizes efs root_inode apps;
  mret (mkMetadata super_block first_inode_bitmap first_data_bitmap inode_areas data_blocks files).

(** [tree]: the lines it prints; 124 is the bar and 45 the hyphen.  [fuel] bounds the depth. *)
Fixpoint tree (fuel : nat) (efs : EasyFileSystem) (inode : Inode) (name : list Z) (depth : nat) : prog (list (list Z)) :=
  match fuel with
  | O => Fail PExplicit
  | S fuel =>
      let line := (if (0 <? depth)%nat then [124] else []) ++ replicate depth 45 ++ name in
      names ← ls inode;
      lines ← (fix go names :=
        match names with
        | [] => mret []
        | name :: names =>
            o ← find efs inode name;
            child ← lift (unwrap PUnwrap o);
            l ← tree fuel efs child name (S depth);
            ls ← go names;
            mret (l ++ ls)
        end) names;
      mret (line :: lines)
  end.

(** ** The tests *)

(** [efs_test] after its first two lines. *)
Definition efs_test_on (efs : EasyFileSystem) : prog (list (list Z)) :=
  let root_inode := root_inode efs in
  Inode_create efs root_inode (str "filea");;
  Inode_create efs root_inode (str "fileb");;
  Inode_create efs root_inode (str "filec");;
  names ← ls root_inode;
  o ← find efs root_inode (str "filea");
  filea ← lift (unwrap PUnwrap o);
  o ← find efs root_inode (str "fileb");
  fileb ← lift (unwrap PUnwrap o);
  o ← find efs root_inode (str "filec");
  filec ← lift (unwrap PUnwrap o);
  let greet_str := str "Hello, world!" in
  Inode_write_at efs filea 0 greet_str;;
  Inode_write_at efs fileb 0 (str "primary NG");;
  Inode_write_at efs filec 0 (str "sublime text");;
  '(len, buffer) ← Inode_read_at filea 0 (replicate 233 0);
  let s := take (Z.to_nat len) buffer in
  lift (assert_that (utf8_valid s) PUnwrap);;
  lift (assert_that (bool_decide (greet_str = s)) PAssert);;
  mret names.

Definition efs_test : prog (list (list Z)) :=
  create 4096 1;;
  efs ← open_fs;
  efs_test_on efs.

(** The closure [random_str_test]: [str] is the random string. *)
Fixpoint read_str_loop (fuel : nat) (filea : Inode) (read_buffer : list Z) (offset : Z) (read_str : list Z) : prog (list Z) :=
  match fuel with
  | O => Fail PExplicit
  | S fuel =>
      '(len, read_buffer) ← Inode_read_at filea offset read_buffer;
      if len =? 0 then mret read_str
      else
        let s := take (Z.to_nat len) read_buffer in
        lift (assert_that (utf8_valid s) PUnwrap);;
        read_str_loop fuel filea read_buffer (u64 (offset + len)) (read_str ++ s)
  end.

Definition random_str_test (fuel : nat) (efs : EasyFileSystem) (filea : Inode) (buffer str : list Z) : prog (list Z) :=
  clear efs filea;;
  '(n, buffer) ← Inode_read_at filea 0 buffer;
  lift (assert_that (n =? 0) PAssert);;
  Inode_write_at efs filea 0 str;;
  read_str ← read_str_loop fuel filea (replicate 127 0) 0 [];
  lift (assert_that (bool_decide (str = read_str)) PAssert);;
  mret buffer.

(** [efs_dir_test] after its first two lines. *)
Definition efs_dir_test_on (efs : EasyFileSystem) : prog (list (list Z)) :=
  let root := root_inode efs in
  Inode_create efs root (str "filea");;
  Inode_create efs root (str "fileb");;
  '(file_c, file_d) ← make_dirs efs root;
  lines ← tree 4 efs root (str "/") 0;
  fill_files efs file_c file_d;;
  mret lines.

Definition efs_dir_test : prog (list (list Z)) :=
  create 4096 1;;
  efs ← open_fs;
  efs_dir_test_on efs.

Lemma utf8_ascii bs : Forall (λ b, 0 ≤ b < 128) bs → utf8_valid bs = true.
Proof. induction 1 as [|b bs Hb _ IH]; [done|]. cbn [utf8_valid]. by rewrite (proj2 (Z.ltb_lt b 0x80)) by lia. Qed.

Lemma path_plain name : 47 ∉ name → name ≠ [] → path_names name = [name].
Proof.
  intros Hs Hn. assert (H : ∀ p cur, 47 ∉ p → split_path p cur = [cur ++ p]).
  { induction p as [|c p IH]; intros cur; cbn [split_path]; [by rewrite app_nil_r|]. rewrite not_elem_of_cons. intros [Hc Hp].
    rewrite (proj2 (Z.eqb_neq c 47)), IH by (congruence || done). by rewrite <- app_assoc. }
  unfold path_names. rewrite H by done. cbn [app]. by rewrite filter_cons_True.
Qed.

(** ** Programs on the tree *)

Section fs.
Context (efs : EasyFileSystem) (total : Z) (Ge : geometry efs total).
Notation inodes := (blocks (inode_bitmap efs) * 4096).
Notation room := (total - data_area_start_block efs).
Notation inode := (inode efs).
Notation ready := (ready inodes room).

Definition does {A} (T : fs_tree) (p : prog A) (a : A) (T' : fs_tree) : Prop :=
  ∀ D, represents efs total D T → ∃ D', run p ∅ D = FDone a ∅ D' ∧ represents efs total D' T'.

Lemma does_ret {A} T (a : A) : does T (mret a) a T.
Proof. intros D R. by exists D. Qed.

Lemma does_bind {A B} T T1 T2 p (a : A) (k : A → prog B) b : does T p a T1 → does T1 (k a) b T2 → does T (x ← p; k x) b T2.
Proof. intros H1 H2 D R. destruct (H1 D R) as (D1 & E1 & R1). destruct (H2 D1 R1) as (D2 & E2 & R2). exists D2. by rewrite run_bind, E1. Qed.

Lemma does_lift {A} T (a : A) : does T (lift (Done a)) a T.
Proof. apply does_ret. Qed.

Lemma does_outcome {A} T (o : outcome A) a : o = Done a → does T (lift o) a T.
Proof. intros ->. apply does_lift. Qed.

Lemma does_inv {A B} T T' (p : prog A) (f : A → B) a : Inj (=) (=) f → does T (x ← p; mret (f x)) (f a) T' → does T p a T'.
Proof.
  intros Hf H D R. destruct (H D R) as (D' & E & R'). rewrite run_bind in E. destruct (run p ∅ D) as [x L D1|]; [|done].
  injection E as E -> ->. apply Hf in E as ->. by exists D'.
Qed.

Lemma does_perform T q r T' : ready T q → fs_apply T q = Some (r, T') → does T (perform efs q) (reply_map inode r) T'.
Proof. intros Hq E D R. destruct (perform_refines efs total Ge D T q R Hq) as (r1 & T1 & D1 & E1 & H1 & R1). rewrite E in E1. injection E1 as <- <-. by exists D1. Qed.

Lemma does_find T i path : is_Some (T !! i) → does T (find efs (inode i) path) (inode <$> walk T i (path_names path)) T.
Proof. intros H. apply (does_inv _ _ _ AInode); [by intros ?? [=]|]. by apply (does_perform T (QFind i path) (AInode (walk T i (path_names path)))). Qed.

Lemma does_found T i path j : T !! i ≠ None → walk T i (path_names path) = Some j → does T (find efs (inode i) path) (Some (inode j)) T.
Proof. intros H E. rewrite <- not_eq_None_Some in H || apply not_eq_None_Some in H. pose proof (does_find T i path H) as Hf. by rewrite E in Hf. Qed.

Lemma does_ls T i n : T !! i = Some n → does T (ls (inode i)) (match n with DirNode es => es.*1 | FileNode _ => [] end) T.
Proof.
  intros H. apply (does_inv _ _ _ (@ANames Inode)); [by intros ?? [=]|]. apply (does_perform T (QLs i) (ANames _)); [by exists n|]. cbn. by rewrite H.
Qed.

Lemma does_read T i n off buf : T !! i = Some n → 0 ≤ off → off + zlen buf < 2 ^ 64 →
  does T (Inode_read_at (inode i) off buf) (read_length (encode n).2 off buf, read_into (encode n).2 off buf) T.
Proof.
  intros H Ho Hl D R. exists D. split; [|done]. destruct (encode n) as [t bs] eqn:E.
  by apply (inode_read_at efs total Ge D _ i t bs off buf (re_holds _ _ _ _ R)); [rewrite lookup_fmap, H; cbn; rewrite E| |].
Qed.

Lemma does_write T i bs off buf : T !! i = Some (FileNode bs) → ready T (QWrite i off buf) →
  does T (Inode_write_at efs (inode i) off buf) (zlen buf) (<[i := FileNode (overwrite bs off buf)]> T).
Proof.
  intros H Hr. apply (does_inv _ _ _ (@ANumber Inode)); [by intros ?? [=]|]. apply (does_perform T (QWrite i off buf) (ANumber _)); [done|]. cbn. by rewrite H.
Qed.

Lemma does_clear T i bs : T !! i = Some (FileNode bs) → does T (clear efs (inode i)) tt (<[i := FileNode []]> T).
Proof.
  intros H. apply (does_inv _ _ _ (λ _, @AUnit Inode)); [by intros [] []|]. apply (does_perform T (QClear i) AUnit); cbn; by rewrite H.
Qed.

Lemma does_create T d name t o T' : ready T (QCreate d name t) → fs_apply T (QCreate d name t) = Some (AInode o, T') →
  does T (create_inode efs (inode d) name t) (inode <$> o) T'.
Proof. intros Hr E. apply (does_inv _ _ _ AInode); [by intros ?? [=]|]. by apply (does_perform T (QCreate d name t) (AInode o)). Qed.

(** [create(..).unwrap()] *)
Lemma does_made {B} T T1 T2 d name t i (k : Inode → prog B) b : does T (create_inode efs (inode d) name t) (Some (inode i)) T1 → does T1 (k (inode i)) b T2 →
  does T (o ← create_inode efs (inode d) name t; x ← lift (unwrap PUnwrap o); k x) b T2.
Proof. intros H1 H2. eapply does_bind; [exact H1|]. eapply does_bind; [apply does_lift|exact H2]. Qed.

(** *** Trees whose inode numbers are 0, ..., m - 1, and that take [u] blocks *)

Record state_ok (T : fs_tree) (m u : Z) : Prop := {
  sk_wf : tree_wf T;
  sk_nodes : 0 ≤ m;
  sk_keys : ∀ j, is_Some (T !! j) ↔ 0 ≤ j < m;
  sk_used : used_blocks T = u;
}.

Lemma state_size T m u : state_ok T m u → first_free T = m ∧ Z.of_nat (size T) = m.
Proof.
  intros [_ Hm Hk _]. split.
  - apply first_free_is; [done|apply eq_None_not_Some; rewrite Hk; lia|intros j Hj; apply Hk; lia].
  - assert (E : dom T = list_to_set (seqZ 0 m)) by (apply set_eq; intros j; rewrite elem_of_dom, elem_of_list_to_set, elem_of_seqZ, Hk; lia).
    rewrite <- size_dom, E, size_list_to_set, length_seqZ by apply NoDup_seqZ. lia.
Qed.

Lemma does_new T m u d es name t : state_ok T m u → T !! d = Some (DirNode es) → assoc name es = None → short_name name →
  m < inodes → m < 2 ^ 32 → 32 * zlen es + 32 ≤ max_size → u + blocks_for (32 * zlen es) (32 * zlen es + 32) ≤ room →
  let T' := <[d := DirNode (es ++ [(name, m)])]> (<[m := empty_node t]> T) in
  does T (create_inode efs (inode d) name t) (Some (inode m)) T' ∧ state_ok T' (m + 1) (u + blocks_for (32 * zlen es) (32 * zlen es + 32)).
Proof.
  intros S Hd Hn Hs Hm Hm' Hmax Hroom T'. destruct (state_size T m u S) as [Ef Es]. destruct S as [Hwf H0 Hk Hu].
  assert (Hmn : T !! m = None) by (apply eq_None_not_Some; rewrite Hk; lia). assert (Hmd : m ≠ d) by congruence. split.
  - apply (does_create T d name t (Some m)); cbn; rewrite Hd, ?Hn; [by rewrite Es, Hu|]. cbn. by rewrite Hn, Ef.
  - pose proof (tree_wf_create T d es name m t Hwf Hd Hmn Hs ltac:(lia)) as Hwf'. split; [done|lia| |].
    + intros j. unfold T'. rewrite !lookup_insert_is_Some', Hk. split; [|lia]. intros [<-|[<-|?]]; [|lia..]. assert (0 ≤ d < m) by (apply Hk; by eexists). lia.
    + unfold T'. rewrite (used_blocks_insert _ d (DirNode es)), used_blocks_new by (done || by rewrite lookup_insert_ne). rewrite Hu.
      unfold node_blocks, node_size. cbn [encode snd]. rewrite !dir_bytes_length by first [by apply (tw_entries T Hwf d)|by apply (tw_entries T' Hwf' d); unfold T'; rewrite lookup_insert_eq].
      assert (Ez : zlen (es ++ [(name, m)]) = zlen es + 1) by (unfold zlen; rewrite length_app; cbn; lia). rewrite Ez.
      replace (32 * (zlen es + 1)) with (32 * zlen es + 32) by lia. assert (Hempty : zlen (encode (empty_node t)).2 = 0) by by destruct t.
      rewrite Hempty. change (tree_count (_data_blocks 0)) with 0. unfold blocks_for. lia.
Qed.

Definition file_blocks (bs : list Z) : Z := node_blocks (FileNode bs).

Lemma does_fill T m u i bs : state_ok T m u → T !! i = Some (FileNode []) → bytes_ok bs → 0 < zlen bs ≤ max_size → u + file_blocks bs ≤ room →
  let T' := <[i := FileNode bs]> T in
  does T (Inode_write_at efs (inode i) 0 bs) (zlen bs) T' ∧ state_ok T' m (u + file_blocks bs).
Proof.
  intros [Hwf H0 Hk Hu] Hi Hb Hl Hroom T'. unfold file_blocks, node_blocks, node_size in *. cbn [encode snd] in *. split.
  - pose proof (does_write T i [] 0 bs Hi) as H. rewrite (overwrite_end [] bs : overwrite [] 0 bs = bs) in H. apply H. cbn. rewrite Hi. split; [done|]. change (zlen (@nil Z)) with 0.
    do 2 (split; [lia|]). split; [lia|]. rewrite Hu. unfold blocks_for. rewrite Z.max_r by lia. rewrite Z.add_0_l. change (tree_count (_data_blocks 0)) with 0. lia.
  - split; [apply tree_wf_insert_file; [done|]; intros es; by rewrite Hi|done| |].
    + intros j. unfold T'. rewrite lookup_insert_is_Some', Hk. split; [|lia]. intros [<-|?]; [|lia]. apply Hk. by eexists.
    + unfold T'. rewrite (used_blocks_insert T i _ _ Hi), Hu. unfold node_blocks, node_size. cbn [encode snd]. change (zlen (@nil Z)) with 0. change (tree_count (_data_blocks 0)) with 0. lia.
Qed.

(** *** Packing *)

Definition entries (fs : list (list Z * list Z)) : list (list Z * Z) := imap (λ k f, (f.1, Z.of_nat k + 1)) fs.
Definition files_blocks (fs : list (list Z * list Z)) : Z := foldr (λ f acc, file_blocks f.2 + acc) 0 fs.
Definition dir_blocks (n : Z) : Z := tree_count (_data_blocks (32 * n)).

Lemma entries_names fs : (entries fs).*1 = fs.*1.
Proof. apply list_eq. intros k. unfold entries. rewrite !list_lookup_fmap, list_lookup_imap. by destruct (fs !! k). Qed.

Lemma entries_snoc fs f : entries (fs ++ [f]) = entries fs ++ [(f.1, zlen fs + 1)].
Proof. unfold entries, zlen. rewrite imap_app. cbn. by rewrite Nat.add_0_r. Qed.

Lemma zlen_entries fs : zlen (entries fs) = zlen fs.
Proof. unfold entries, zlen. by rewrite length_imap. Qed.

Lemma files_blocks_app fs gs : files_blocks (fs ++ gs) = files_blocks fs + files_blocks gs.
Proof. induction fs as [|f fs IH]; cbn; [done|]. unfold files_blocks in IH. rewrite IH. unfold files_blocks. lia. Qed.

Lemma file_blocks_pos bs : zlen bs ≤ max_size → 0 ≤ file_blocks bs.
Proof.
  intros H. unfold file_blocks, node_blocks, node_size. cbn [encode snd]. unfold max_size in H. pose proof (data_blocks_mono 0 (zlen bs) ltac:(unfold zlen; lia) H) as Hb.
  change (_data_blocks 0) with 0 in Hb. pose proof (tree_count_mono 0 (_data_blocks (zlen bs)) ltac:(lia)) as Hc. change (tree_count 0) with 0 in Hc. lia.
Qed.

Lemma dir_blocks_mono n m : 0 ≤ n ≤ m → m ≤ 4096 → dir_blocks n ≤ dir_blocks m.
Proof.
  intros Hn Hm. unfold dir_blocks. pose proof (data_blocks_mono (32 * n) (32 * m) ltac:(lia) ltac:(rewrite INDIRECT2_BOUND_eq; lia)) as Hb.
  pose proof (data_blocks_mono 0 (32 * n) ltac:(lia) ltac:(rewrite INDIRECT2_BOUND_eq; lia)) as H0. change (_data_blocks 0) with 0 in H0.
  pose proof (tree_count_mono (_data_blocks (32 * n)) (_data_blocks (32 * m)) ltac:(lia)). lia.
Qed.

Lemma assoc_None name es : name ∉ es.*1 → assoc name es = None.
Proof.
  induction es as [|[s j] es IH]; [done|]. cbn. rewrite not_elem_of_cons. intros [Hne Hin]. rewrite bool_decide_eq_false_2 by congruence. by apply IH.
Qed.

Lemma assoc_lookup es k name j : NoDup es.*1 → es !! k = Some (name, j) → assoc name es = Some j.
Proof.
  revert k. induction es as [|[s i] es IH]; intros k; [done|]. cbn. rewrite NoDup_cons. intros [Hin Hnd]. destruct k as [|k]; cbn.
  - intros [= -> ->]. by rewrite bool_decide_eq_true_2.
  - intros Hk. rewrite bool_decide_eq_false_2; [by apply (IH k)|]. intros ->. apply Hin, list_elem_of_fmap. exists (name, j). split; [done|]. by eapply list_elem_of_lookup_2.
Qed.

(** What is put on the image: names that the file system takes, and data that it has room for. *)
Record packable (fs : list (list Z * list Z)) : Prop := {
  pa_nodup : NoDup fs.*1;
  pa_names : Forall (λ f, short_name f.1 ∧ f.1 ≠ [] ∧ 47 ∉ f.1) fs;
  pa_data : Forall (λ f, bytes_ok f.2 ∧ 0 < zlen f.2 ≤ max_size) fs;
  pa_dira : str "dira" ∉ fs.*1;
  pa_count : zlen fs + 5 ≤ 4096 ≤ inodes;
  pa_room : files_blocks fs + dir_blocks (zlen fs + 1) + 4 ≤ room;
}.

(** The tree after some of the files are packed. *)
Record packed (fs : list (list Z * list Z)) (T : fs_tree) : Prop := {
  pk_state : state_ok T (zlen fs + 1) (files_blocks fs + dir_blocks (zlen fs));
  pk_root : T !! 0 = Some (DirNode (entries fs));
  pk_files : ∀ k f, fs !! k = Some f → T !! (Z.of_nat k + 1) = Some (FileNode f.2);
}.

Lemma packed_nil : packed [] empty_tree.
Proof.
  split; [split|done|done].
  - split; [intros i es|intros i es e]; unfold empty_tree; rewrite lookup_singleton_Some; intros [_ [= <-]]; [constructor|intros Hx; by apply not_elem_of_nil in Hx].
  - done.
  - intros j. unfold empty_tree, zlen. cbn [length]. rewrite lookup_singleton_is_Some. lia.
  - done.
Qed.

Lemma pack_one all fs f gs T : packable all → all = fs ++ f :: gs → packed fs T →
  let m := zlen fs + 1 in let T1 := <[0 := DirNode (entries (fs ++ [f]))]> (<[m := FileNode []]> T) in let T2 := <[m := FileNode f.2]> T1 in
  does T (create_inode efs (inode 0) f.1 File) (Some (inode m)) T1 ∧ does T1 (Inode_write_at efs (inode m) 0 f.2) (zlen f.2) T2 ∧ packed (fs ++ [f]) T2.
Proof.
  intros [Hnd Hnames Hdata Hda [Hc Hci] Hroom] -> [S Hr Hf] m T1 T2.
  assert (Hz : zlen (fs ++ f :: gs) = zlen fs + zlen gs + 1) by (unfold zlen; rewrite length_app; cbn; lia). rewrite Hz in *. assert (0 ≤ zlen fs ∧ 0 ≤ zlen gs) by (unfold zlen; lia).
  assert (Hz1 : zlen (fs ++ [f]) = zlen fs + 1) by (unfold zlen; rewrite length_app; cbn; lia).
  apply Forall_app in Hnames as [_ [(Hs & _) _]%Forall_cons]. apply Forall_app in Hdata as [_ [(Hb & Hl) Hdata]%Forall_cons].
  rewrite files_blocks_app in Hroom. change (files_blocks (f :: gs)) with (file_blocks f.2 + files_blocks gs) in Hroom. pose proof (file_blocks_pos f.2 ltac:(lia)) as Hp.
  assert (Hpg : 0 ≤ files_blocks gs).
  { clear -Hdata. induction Hdata as [|g gs [_ Hg] _ IH]; [done|]. change (files_blocks (g :: gs)) with (file_blocks g.2 + files_blocks gs). pose proof (file_blocks_pos g.2 ltac:(lia)). lia. }
  pose proof (dir_blocks_mono (zlen fs + 1) (zlen fs + zlen gs + 1 + 1) ltac:(lia) ltac:(lia)) as Hdm.
  assert (Hn : assoc f.1 (entries fs) = None).
  { apply assoc_None. rewrite entries_names. rewrite fmap_app, NoDup_app in Hnd. destruct Hnd as (_ & Hnd & _). intros Hin. apply (Hnd _ Hin). by left. }
  assert (Eb : blocks_for (32 * zlen (entries fs)) (32 * zlen (entries fs) + 32) = dir_blocks (zlen fs + 1) - dir_blocks (zlen fs)).
  { rewrite zlen_entries. unfold blocks_for, dir_blocks. do 3 f_equal. lia. }
  destruct (does_new T m _ 0 (entries fs) f.1 File S Hr Hn Hs) as [D1 S1]; [lia|lia|rewrite zlen_entries; unfold max_size; rewrite INDIRECT2_BOUND_eq; lia|rewrite Eb; lia|].
  rewrite <- entries_snoc in D1, S1. fold T1 in D1, S1. rewrite Eb in S1. destruct (does_fill T1 (m + 1) _ m f.2 S1) as [D2 S2]; [|done|done|lia|].
  { unfold T1. by rewrite lookup_insert_ne, lookup_insert_eq by (unfold m; lia). }
  fold T2 in D2, S2. split; [done|]. split; [done|]. split.
  - rewrite Hz1, files_blocks_app. change (files_blocks [f]) with (file_blocks f.2 + 0). fold m.
    replace (files_blocks fs + (file_blocks f.2 + 0) + dir_blocks m) with (files_blocks fs + dir_blocks (zlen fs) + (dir_blocks (zlen fs + 1) - dir_blocks (zlen fs)) + file_blocks f.2) by (unfold m; lia). done.
  - unfold T2, T1. by rewrite lookup_insert_ne, lookup_insert_eq by (unfold m; lia).
  - intros k g Hk. unfold T2. destruct (decide (k = length fs)) as [->|Hne].
    + rewrite lookup_app_r, Nat.sub_diag in Hk by lia. injection Hk as <-. fold (zlen fs). fold m. by rewrite lookup_insert_eq.
    + assert (Hkl : (k < length fs)%nat) by (apply lookup_lt_Some in Hk; rewrite length_app in Hk; cbn in Hk; lia). rewrite lookup_app_l in Hk by done.
      unfold T1. rewrite !lookup_insert_ne by (unfold m, zlen; lia). by apply Hf.
Qed.

Lemma pack_apps_does target_path host all gs : ∀ fs T, packable all → all = fs ++ gs → Forall (λ f, host (target_path ++ f.1) = Some f.2) gs → packed fs T →
  ∃ T', does T (pack_apps efs (inode 0) target_path host gs.*1) tt T' ∧ packed all T'.
Proof.
  induction gs as [|f gs IH]; intros fs T Pa E Hh Pk; cbn [fmap list_fmap pack_apps].
  - exists T. rewrite app_nil_r in E. subst. split; [apply does_ret|done].
  - apply Forall_cons in Hh as [Hf Hh]. destruct (pack_one all fs f gs T Pa E Pk) as (D1 & D2 & Pk').
    destruct (IH (fs ++ [f]) _ Pa ltac:(by rewrite <- app_assoc) Hh Pk') as (T' & D3 & Pa'). exists T'. split; [|done].
    rewrite Hf. eapply does_bind; [apply does_lift|]. eapply does_made; [exact D1|]. eapply does_bind; [exact D2|exact D3].
Qed.

(** *** Reading a file in pieces *)

Lemma read_piece bs off buf : 0 ≤ off ≤ zlen bs → let n := Z.min (zlen buf) (zlen bs - off) in
  read_length bs off buf = n ∧ zlen (read_into bs off buf) = zlen buf ∧ take (Z.to_nat n) (read_into bs off buf) = take (Z.to_nat n) (drop (Z.to_nat off) bs).
Proof.
  intros Ho n. assert (En : read_length bs off buf = n) by (unfold read_length, n, zlen in *; lia). unfold read_into. rewrite En. unfold slice, zlen in *.
  assert (Hl : length (take (Z.to_nat n) (drop (Z.to_nat off) bs)) = Z.to_nat n) by (rewrite length_take, length_drop; lia).
  split; [done|]. split; [rewrite length_app, length_drop, Hl; lia|]. by rewrite take_app_le, take_take, Nat.min_id by lia.
Qed.

Lemma read_all_loop_does T i bs n : T !! i = Some (FileNode bs) → zlen bs + 512 < 2 ^ 64 → ∀ o buffer v, os_inode o = inode i → 0 ≤ os_offset o ≤ zlen bs → zlen buffer = 512 →
  zlen bs - os_offset o + 512 ≤ Z.of_nat n * 512 → does T (read_all_loop n o buffer v) (Some (v ++ drop (Z.to_nat (os_offset o)) bs, set_offset o (zlen bs))) T.
Proof.
  intros Hi Hb. induction n as [|n IH]; intros o buffer v Ho Hoff Hl Hn; [lia|]. cbn [read_all_loop]. rewrite Ho.
  eapply does_bind; [apply (does_read T i _ _ _ Hi); lia|]. cbn [encode snd]. destruct (read_piece bs (os_offset o) buffer Hoff) as (-> & Hl' & Ht). rewrite Hl in *.
  set (k := Z.min 512 (zlen bs - os_offset o)) in *. destruct (Z.eqb_spec k 0) as [E|E].
  - assert (E' : os_offset o = zlen bs) by (unfold k in E; lia). rewrite E'. rewrite drop_ge, app_nil_r by (unfold zlen; lia). rewrite <- E'. destruct o. apply does_ret.
  - rewrite Ht, (wrap_small 64) by (unfold k; lia). set (o' := set_offset o (os_offset o + k)).
    assert (H : does T (read_all_loop n o' (read_into bs (os_offset o) buffer) (v ++ take (Z.to_nat k) (drop (Z.to_nat (os_offset o)) bs)))
      (Some ((v ++ take (Z.to_nat k) (drop (Z.to_nat (os_offset o)) bs)) ++ drop (Z.to_nat (os_offset o')) bs, set_offset o' (zlen bs))) T) by (apply IH; cbn; [done|unfold k; lia|done|unfold k; lia]).
    rewrite <- app_assoc in H. unfold o' in H. cbn [os_offset set_offset os_readable os_writable os_inode] in H.
    replace (Z.to_nat (os_offset o + k)) with (Z.to_nat (os_offset o) + Z.to_nat k)%nat in H by (unfold k; lia). by rewrite <- drop_drop, take_drop in H.
Qed.

Lemma read_all_does T i bs r w fuel : T !! i = Some (FileNode bs) → zlen bs + 512 < 2 ^ 64 → zlen bs / 512 + 2 ≤ Z.of_nat fuel →
  does T (read_all fuel (OSInode_new r w (inode i))) (Some (bs, mkOSInode r w (zlen bs) (inode i))) T.
Proof.
  intros Hi Hb Hf. unfold read_all. apply (read_all_loop_does T i bs fuel Hi Hb (OSInode_new r w (inode i)) _ []); [done|cbn; unfold zlen; lia|done|]. cbn [os_offset OSInode_new].
  unfold zlen in *. dlia.
Qed.

Lemma read_str_loop_does T i bs n : T !! i = Some (FileNode bs) → zlen bs + 127 < 2 ^ 64 → Forall (λ b, 0 ≤ b < 128) bs → ∀ off buffer v, 0 ≤ off ≤ zlen bs → zlen buffer = 127 →
  zlen bs - off + 127 ≤ Z.of_nat n * 127 → does T (read_str_loop n (inode i) buffer off v) (v ++ drop (Z.to_nat off) bs) T.
Proof.
  intros Hi Hb Ha. induction n as [|n IH]; intros off buffer v Hoff Hl Hn; [lia|]. cbn [read_str_loop].
  eapply does_bind; [apply (does_read T i _ _ _ Hi); lia|]. cbn [encode snd]. destruct (read_piece bs off buffer Hoff) as (-> & Hl' & Ht). rewrite Hl in *.
  set (k := Z.min 127 (zlen bs - off)) in *. destruct (Z.eqb_spec k 0) as [E|E].
  - rewrite drop_ge, app_nil_r by (unfold zlen in *; unfold k in E; lia). apply does_ret.
  - rewrite Ht, (wrap_small 64) by (unfold k; lia). rewrite utf8_ascii by (by apply Forall_take, Forall_drop). cbn [assert_that].
    eapply does_bind; [apply does_lift|]. assert (H := IH (off + k) (read_into bs off buffer) (v ++ take (Z.to_nat k) (drop (Z.to_nat off) bs)) ltac:(unfold k; lia) Hl' ltac:(unfold k; lia)).
    rewrite <- app_assoc in H. replace (Z.to_nat (off + k)) with (Z.to_nat off + Z.to_nat k)%nat in H by (unfold k; lia). by rewrite <- drop_drop, take_drop in H.
Qed.

(** *** The directories *)

Ltac look := rewrite ?lookup_insert_ne by lia; rewrite ?lookup_insert_eq; try done.

Lemma make_dirs_does T m u es : state_ok T m u → T !! 0 = Some (DirNode es) → assoc (str "dira") es = None → 32 * zlen es + 32 ≤ max_size →
  m + 4 ≤ inodes → m + 4 < 2 ^ 32 → u + blocks_for (32 * zlen es) (32 * zlen es + 32) + 2 ≤ room →
  ∃ T', does T (make_dirs efs (inode 0)) (inode (m + 1), inode (m + 3)) T' ∧ state_ok T' (m + 4) (u + blocks_for (32 * zlen es) (32 * zlen es + 32) + 2) ∧
    T' !! 0 = Some (DirNode (es ++ [(str "dira", m)])) ∧ T' !! m = Some (DirNode [(str "filec", m + 1); (str "dirb", m + 2)]) ∧
    T' !! (m + 1) = Some (FileNode []) ∧ T' !! (m + 2) = Some (DirNode [(str "filed", m + 3)]) ∧ T' !! (m + 3) = Some (FileNode []) ∧
    ∀ j, 0 < j < m → T' !! j = T !! j.
Proof.
  intros S0 H0 Hn Hmax Hi Hi' Hroom. assert (Hm : 0 < m) by (assert (0 ≤ 0 < m) by (apply (sk_keys T m u S0); by eexists); lia).
  assert (Hsn : ∀ s, bool_decide (short_name (str s)) = true → short_name (str s)) by (intros s; apply bool_decide_eq_true_1).
  assert (B1 : blocks_for (32 * zlen (@nil (list Z * Z))) (32 * zlen (@nil (list Z * Z)) + 32) = 1) by by vm_compute.
  assert (B2 : ∀ e, blocks_for (32 * zlen [e : list Z * Z]) (32 * zlen [e] + 32) = 0) by (intros e; by vm_compute).
  assert (HM : 1000 ≤ max_size) by (unfold max_size; rewrite INDIRECT2_BOUND_eq; lia).
  destruct (does_new T m u 0 es (str "dira") Directory S0 H0 Hn) as [D1 S1]; [by apply Hsn; vm_compute|lia..|]. set (T1 := <[0 := DirNode (es ++ [(str "dira", m)])]> (<[m := empty_node Directory]> T)) in *.
  destruct (does_new T1 (m + 1) _ m [] (str "filec") File S1) as [D2 S2]; [unfold T1; look|done|by apply Hsn; vm_compute|lia|lia|unfold zlen; cbn; lia|rewrite B1; lia|].
  rewrite B1 in S2. cbn [app] in *. set (T2 := <[m := DirNode [(str "filec", m + 1)]]> (<[m + 1 := empty_node File]> T1)) in *.
  destruct (does_new T2 (m + 1 + 1) _ m _ (str "dirb") Directory S2 ltac:(unfold T2; by look)) as [D3 S3]; [by vm_compute|by apply Hsn; vm_compute|lia|lia|unfold zlen; cbn; lia|rewrite B2; lia|].
  rewrite B2 in S3. cbn [app] in *. set (T3 := <[m := DirNode [(str "filec", m + 1); (str "dirb", m + 1 + 1)]]> (<[m + 1 + 1 := empty_node Directory]> T2)) in *.
  destruct (does_new T3 (m + 1 + 1 + 1) _ (m + 1 + 1) [] (str "filed") File S3) as [D4 S4]; [unfold T3; look|done|by apply Hsn; vm_compute|lia|lia|unfold zlen; cbn; lia|rewrite B1; lia|].
  rewrite B1 in S4. cbn [app] in *. set (T4 := <[m + 1 + 1 := DirNode [(str "filed", m + 1 + 1 + 1)]]> (<[m + 1 + 1 + 1 := empty_node File]> T3)) in *. exists T4. split.
  - unfold make_dirs. do 4 (eapply does_made; [eassumption|]). replace (m + 3) with (m + 1 + 1 + 1) by lia. apply does_ret.
  - replace (m + 4) with (m + 1 + 1 + 1 + 1) by lia. replace (m + 3) with (m + 1 + 1 + 1) by lia. replace (m + 2) with (m + 1 + 1) by lia.
    split; [replace (u + blocks_for (32 * zlen es) (32 * zlen es + 32) + 2) with (u + blocks_for (32 * zlen es) (32 * zlen es + 32) + 1 + 0 + 1) by lia; exact S4|].
    unfold T4, T3, T2, T1. split_and!; [look..|]. intros j Hj. look.
Qed.

Lemma fill_files_does T m u c d : state_ok T m u → c ≠ d → T !! c = Some (FileNode []) → T !! d = Some (FileNode []) → u + 2 ≤ room →
  let T' := <[d := FileNode (str "4444444444444444444")]> (<[c := FileNode (str "3333333")]> T) in
  does T (fill_files efs (inode c) (inode d)) tt T' ∧ state_ok T' m (u + 2).
Proof.
  intros S Hne Hc Hd Hroom T'. assert (HM : 1000 ≤ max_size) by (unfold max_size; rewrite INDIRECT2_BOUND_eq; lia).
  assert (Hb : ∀ s, bool_decide (bytes_ok (str s)) = true → bytes_ok (str s)) by (intros s; apply bool_decide_eq_true_1).
  assert (B1 : file_blocks (str "3333333") = 1) by by vm_compute. assert (B2 : file_blocks (str "4444444444444444444") = 1) by by vm_compute.
  destruct (does_fill T m u c (str "3333333") S Hc) as [D1 S1]; [by apply Hb; vm_compute|unfold zlen; cbn; lia|lia|]. rewrite B1 in S1.
  destruct (does_fill _ m _ d (str "4444444444444444444") S1 ltac:(by rewrite lookup_insert_ne)) as [D2 S2]; [by apply Hb; vm_compute|unfold zlen; cbn; lia|lia|]. rewrite B2 in S2.
  split; [|by replace (u + 2) with (u + 1 + 1) by lia]. unfold fill_files. eapply does_bind; [exact D1|]. eapply does_bind; [exact D2|]. apply does_ret.
Qed.

(** The tree of the finished image. *)
Record image (fs : list (list Z * list Z)) (T : fs_tree) : Prop := {
  im_root : T !! 0 = Some (DirNode (entries fs ++ [(str "dira", zlen fs + 1)]));
  im_files : ∀ k f, fs !! k = Some f → T !! (Z.of_nat k + 1) = Some (FileNode f.2);
  im_c : walk T 0 (path_names (str "dira/filec")) = Some (zlen fs + 2) ∧ T !! (zlen fs + 2) = Some (FileNode (str "3333333"));
  im_d : walk T 0 (path_names (str "dira/dirb/filed")) = Some (zlen fs + 4) ∧ T !! (zlen fs + 4) = Some (FileNode (str "4444444444444444444"));
}.

Lemma assoc_skip es es' name : name ∉ es.*1 → assoc name (es ++ es') = assoc name es'.
Proof.
  induction es as [|[s j] es IH]; [done|]. cbn. rewrite not_elem_of_cons. intros [Hne Hin]. rewrite bool_decide_eq_false_2 by congruence. by apply IH.
Qed.

Lemma pack_image_does target_path host dir_names fs : packable fs → strip_all dir_names = Done fs.*1 → Forall (λ f, host (target_path ++ f.1) = Some f.2) fs →
  ∃ T, does empty_tree (pack_image efs target_path host dir_names) fs.*1 T ∧ image fs T.
Proof.
  intros Pa Hstrip Hh. destruct (pack_apps_does target_path host fs fs [] empty_tree Pa eq_refl Hh packed_nil) as (T1 & D1 & [S1 R1 F1]).
  destruct Pa as [Hnd Hnames Hdata Hda [Hc Hci] Hroom]. assert (0 ≤ zlen fs) by (unfold zlen; lia).
  assert (Eb : blocks_for (32 * zlen (entries fs)) (32 * zlen (entries fs) + 32) = dir_blocks (zlen fs + 1) - dir_blocks (zlen fs)).
  { rewrite zlen_entries. unfold blocks_for, dir_blocks. do 3 f_equal. lia. }
  assert (Hn : assoc (str "dira") (entries fs) = None) by (apply assoc_None; by rewrite entries_names).
  destruct (make_dirs_does T1 _ _ (entries fs) S1 R1 Hn) as (T2 & D2 & S2 & Q0 & Q1 & Q2 & Q3 & Q4 & Qold);
    [rewrite zlen_entries; unfold max_size; rewrite INDIRECT2_BOUND_eq; lia|lia|lia|rewrite Eb; lia|]. rewrite Eb in S2.
  set (m := zlen fs + 1) in *.
  destruct (fill_files_does T2 _ _ (m + 1) (m + 3) S2 ltac:(lia) Q2 Q4 ltac:(lia)) as [D3 _]. eexists. split.
  - unfold pack_image. change (root_inode efs) with (inode 0). rewrite Hstrip. eapply does_bind; [apply does_lift|]. eapply does_bind; [exact D1|].
    eapply does_bind; [apply (does_ls T1 0 _ R1)|]. rewrite entries_names. eapply does_bind; [exact D2|]. cbn iota beta. eapply does_bind; [exact D3|]. apply does_ret.
  - assert (Hw : ∀ names, walk (<[m + 3 := FileNode (str "4444444444444444444")]> (<[m + 1 := FileNode (str "3333333")]> T2)) 0 (str "dira" :: names) =
      walk (<[m + 3 := FileNode (str "4444444444444444444")]> (<[m + 1 := FileNode (str "3333333")]> T2)) m names).
    { intros names. cbn [walk]. rewrite !lookup_insert_ne, Q0 by lia. rewrite assoc_skip by by rewrite entries_names. done. }
    assert (E2 : zlen fs + 2 = m + 1) by (unfold m; lia). assert (E4 : zlen fs + 4 = m + 3) by (unfold m; lia). split; rewrite ?E2, ?E4.
    + by rewrite !lookup_insert_ne, Q0 by lia.
    + intros k f Hk. assert (Hkl : (k < length fs)%nat) by (by eapply lookup_lt_Some). rewrite !lookup_insert_ne by (unfold m, zlen; lia).
      rewrite Qold by (unfold m, zlen; lia). by apply F1.
    + split; [|by look]. replace (path_names (str "dira/filec")) with [str "dira"; str "filec"] by by vm_compute. rewrite Hw. cbn [walk]. rewrite !lookup_insert_ne, Q1 by lia. done.
    + split; [|by look]. replace (path_names (str "dira/dirb/filed")) with [str "dira"; str "dirb"; str "filed"] by by vm_compute. rewrite Hw. cbn [walk]. rewrite !lookup_insert_ne, Q1 by lia.
      cbn [assoc]. rewrite bool_decide_eq_false_2, bool_decide_eq_true_2 by done. cbn [mbind option_bind]. rewrite !lookup_insert_ne, Q3 by lia. done.
Qed.

Lemma image_find fs T k f : packable fs → image fs T → fs !! k = Some f → walk T 0 (path_names f.1) = Some (Z.of_nat k + 1).
Proof.
  intros Pa [R _ _ _] Hk. destruct (proj1 (Forall_lookup _ _) (pa_names _ Pa) k f Hk) as (_ & Hne & Hsl). rewrite path_plain by done. cbn [walk]. rewrite R.
  rewrite (assoc_lookup _ k f.1 (Z.of_nat k + 1)); [done| |].
  - rewrite fmap_app, entries_names. apply NoDup_app. split; [apply Pa|]. split; [|apply NoDup_singleton].
    intros x Hx Hx'%list_elem_of_singleton. subst x. by apply (pa_dira _ Pa).
  - rewrite lookup_app_l by (unfold entries; rewrite length_imap; by eapply lookup_lt_Some). unfold entries. rewrite list_lookup_imap, Hk. done.
Qed.

(** The kernel opens a packed file and reads all of it. *)
Lemma open_read_does T i path bs fuel : walk T 0 (path_names path) = Some i → T !! i = Some (FileNode bs) → zlen bs ≤ max_size → zlen bs / 512 + 2 ≤ Z.of_nat fuel → is_Some (T !! 0) →
  does T (o ← open_file efs (inode 0) path RDONLY; o ← lift (unwrap PUnwrap o); read_all fuel o) (Some (bs, mkOSInode true false (zlen bs) (inode i))) T.
Proof.
  intros Hw Hi Hb Hf H0. unfold max_size in Hb. rewrite INDIRECT2_BOUND_eq in Hb. eapply does_bind.
  - unfold open_file. cbn [read_write RDONLY Z.eqb]. change (flag_set RDONLY CREATE) with false. change (flag_set RDONLY TRUNC) with false. cbn iota.
    eapply does_bind; [apply (does_find T 0 path H0)|]. rewrite Hw. cbn [fmap option_fmap option_map]. eapply does_bind; [apply does_ret|]. apply does_ret.
  - cbn [unwrap]. eapply does_bind; [apply does_lift|]. apply read_all_does; [done|lia|done].
Qed.
End fs.

(** ** The metadata of an image *)

Section metadata.
Context (efs : EasyFileSystem) (total : Z) (Ge : geometry efs total).
Notation ib := (inode_bitmap efs).
Notation db := (data_bitmap efs).

Lemma block_there D T id : represents efs total D T → 0 ≤ id < total → ∃ b, D !! id = Some b ∧ wf_block b.
Proof. intros R Hid. destruct (re_holds _ _ _ _ R) as (N & [S _] & _). by apply (so_disk _ _ _ _ _ S). Qed.

Lemma bitmap_block_run D T bm : represents efs total D T → 0 ≤ start_block_id bm < total → ∃ ws, run (Bitmap_read_first_bitmap_block bm) ∅ D = FDone ws ∅ D.
Proof.
  intros R Hid. destruct (block_there D T _ R Hid) as (b & Hb & Hwf). eexists.
  apply (run_cache_read BitmapBlock _ 0 _ ∅ D D b (dec_arr 8 64 b)); [apply can_hold_empty|done|by apply (view_arr 8 64)|done].
Qed.

Lemma read_blocks_run D T ids : represents efs total D T → Forall (λ id, 0 ≤ id < total) ids → ∃ l, run (read_blocks ids) ∅ D = FDone l ∅ D.
Proof.
  intros R. induction 1 as [|id ids Hid _ [l IH]]; [by eexists|]. destruct (block_there D T id R Hid) as (b & Hb & Hwf). exists (b :: l). cbn [read_blocks]. rewrite run_bind.
  unfold read_data_area. rewrite (run_cache_read DataBlock id 0 _ ∅ D D b b b); [|apply can_hold_empty|done|by apply view_data|done]. by rewrite run_bind, IH.
Qed.

Lemma read_inodes_run D T ids : represents efs total D T → Forall (λ i, 0 ≤ i < blocks ib * 4096) ids → ∃ l, run (read_inodes efs ids) ∅ D = FDone l ∅ D.
Proof.
  intros R. destruct (re_holds _ _ _ _ R) as (N & [S Ta] & _). induction 1 as [|i ids Hi _ [l IH]]; [by eexists|]. cbn [read_inodes].
  pose proof (inode_pos efs total Ge i Hi) as Hpos. unfold inode in Hpos. destruct (get_disk_inode_pos efs i) as [b o]. injection Hpos as -> ->.
  destruct (ta_slot _ _ _ Ta i Hi) as (di & Hdi). unfold slot in Hdi. destruct (D !! (inode_area_start_block efs + i / 4)) as [b|] eqn:Hb; [|done].
  eexists. rewrite run_bind, (run_cache_read DiskInodeC _ _ _ ∅ D D b di di); [|apply can_hold_empty|done|done|done]. by rewrite run_bind, IH.
Qed.

Lemma get_size_does T i n : T !! i = Some n → does efs total T (get_inode_size (inode efs i)) (node_size n) T.
Proof. intros H D R. by apply (get_inode_size_run efs total Ge). Qed.

Lemma file_sizes_does T names sizes : is_Some (T !! 0) → Forall2 (λ name size, ∃ i n, walk T 0 (path_names name) = Some i ∧ T !! i = Some n ∧ size = node_size n) names sizes →
  does efs total T (file_sizes efs (inode efs 0) names) (zip names sizes) T.
Proof.
  intros H0. induction 1 as [|name size names sizes (i & n & Hw & Hn & ->) _ IH]; [apply does_ret|]. cbn [file_sizes zip_with].
  eapply does_bind; [apply (does_find _ _ Ge T 0 name H0)|]. rewrite Hw. eapply does_bind; [apply does_lift|]. eapply does_bind; [by apply get_size_does|].
  eapply does_bind; [exact IH|]. apply does_ret.
Qed.

(** On an image that is large enough the metadata is read without a panic, and the files listed are
    those of the root directory with their sizes. *)
Lemma metadata_run D T es sizes : represents efs total D T → T !! 0 = Some (DirNode es) → 1707 < total → 1 ≤ blocks db →
  Forall2 (λ name size, ∃ i n, walk T 0 (path_names name) = Some i ∧ T !! i = Some n ∧ size = node_size n) es.*1 sizes →
  ∃ md D', run easy_fs_read_metadata ∅ D = FDone md ∅ D' ∧ md_files md = zip es.*1 sizes ∧ represents efs total D' T.
Proof.
  intros R H0 Ht Hdb Hs. pose proof (areas efs total Ge) as A. pose proof (ge_ib _ _ Ge) as Eib. unfold easy_fs_read_metadata.
  destruct (re_super _ _ _ _ R) as (b & sb & Hb & Hv & Hvalid & _). destruct (bitmap_block_run D T ib R ltac:(lia)) as [w1 H1].
  destruct (bitmap_block_run D T db R ltac:(lia)) as [w2 H2].
  destruct (read_inodes_run D T (seqZ 0 10) R) as [l3 H3]; [apply Forall_forall; intros i Hi%elem_of_seqZ; lia|].
  destruct (read_blocks_run D T [1704; 1705; 1706; 1707] R) as [l4 H4]; [repeat constructor; lia|].
  destruct (does_ls efs total Ge T 0 _ H0 D R) as (D1 & H5 & R1). destruct (file_sizes_does T es.*1 sizes (mk_is_Some _ _ H0) Hs D1 R1) as (D2 & H6 & R2).
  eexists (mkMetadata _ w1 w2 l3 l4 _), D2. rewrite run_bind, (open_run efs D (re_super _ _ _ _ R)), run_bind. unfold read_super_block.
  rewrite (run_cache_read SuperBlockC 0 0 _ ∅ D D b sb (SuperBlock_new (magic sb) (total_blocks sb) (inode_bitmap_blocks sb) (inode_area_blocks sb) (data_bitmap_blocks sb) (data_area_blocks sb)));
    [|apply can_hold_empty|done|done|by rewrite Hvalid].
  rewrite run_bind. unfold read_inode_bitmap, read_data_bitmap. rewrite H1, run_bind, H2, run_bind. unfold read_available_inode_areas. rewrite H3, run_bind, H4, run_bind.
  change (root_inode efs) with (inode efs 0). rewrite H5, run_bind, H6. done.
Qed.
End metadata.

(** ** The tests pass *)

(** What [tree] prints of a tree of nodes. *)
Fixpoint tree_lines (fuel : nat) (T : fs_tree) (i : Z) (name : list Z) (depth : nat) : option (list (list Z)) :=
  match fuel with
  | O => None
  | S fuel =>
      n ← T !! i;
      lines ← (fix go (names : list (list Z)) :=
        match names with
        | [] => Some []
        | name :: names =>
            j ← walk T i (path_names name);
            l ← tree_lines fuel T j name (S depth);
            ls ← go names;
            Some (l ++ ls)
        end) (match n with DirNode es => es.*1 | FileNode _ => [] end);
      Some (((if (0 <? depth)%nat then [124] else []) ++ replicate depth 45 ++ name) :: lines)
  end.

Lemma tree_does efs total (Ge : geometry efs total) T fuel : ∀ i name depth ls, tree_lines fuel T i name depth = Some ls →
  does efs total T (tree fuel efs (inode efs i) name depth) ls T.
Proof.
  induction fuel as [|fuel IH]; intros i name depth ls H; [done|]. cbn [tree_lines tree] in *. apply bind_Some in H as (n & Hn & H). apply bind_Some in H as (lines & Hl & [= <-]).
  eapply does_bind; [by apply (does_ls _ _ Ge T i n)|]. eapply does_bind; [|apply does_ret]. revert lines Hl.
  generalize (match n with DirNode es => es.*1 | FileNode _ => [] end). intros names. induction names as [|nm names IHn]; intros lines Hl; [injection Hl as <-; apply does_ret|].
  apply bind_Some in Hl as (j & Hj & Hl). apply bind_Some in Hl as (l & Hl1 & Hl). apply bind_Some in Hl as (ls & Hl2 & [= <-]).
  eapply does_bind; [apply (does_find _ _ Ge T i nm); by eexists|]. rewrite Hj. eapply does_bind; [apply does_lift|]. eapply does_bind; [apply IH, Hl1|].
  eapply does_bind; [apply IHn, Hl2|]. apply does_ret.
Qed.

Lemma random_str_does efs total (Ge : geometry efs total) T m u i bs buffer str fuel : state_ok T m u → T !! i = Some (FileNode bs) → zlen buffer < 2 ^ 64 →
  Forall (λ b, 48 ≤ b ≤ 57) str → 0 < zlen str ≤ max_size → u - file_blocks bs + file_blocks str ≤ total - data_area_start_block efs → zlen str + 127 ≤ Z.of_nat fuel * 127 →
  ∃ T', does efs total T (random_str_test fuel efs (inode efs i) buffer str) buffer T'.
Proof.
  intros S Hi Hbuf Hs Hl Hroom Hf. assert (Hl' : zlen str + 127 < 2 ^ 64) by (unfold max_size in Hl; rewrite INDIRECT2_BOUND_eq in Hl; lia).
  set (T0 := <[i := FileNode []]> T). assert (H0 : T0 !! i = Some (FileNode [])) by (unfold T0; by rewrite lookup_insert_eq).
  assert (Hst : state_ok T0 m (u - file_blocks bs)).
  { destruct S as [Hwf Hm Hk Hu]. split; [apply tree_wf_insert_file; [done|]; intros es; by rewrite Hi|done| |].
    - intros j. unfold T0. rewrite lookup_insert_is_Some', Hk. split; [|lia]. intros [<-|?]; [|lia]. apply Hk. by eexists.
    - unfold T0. rewrite (used_blocks_insert T i _ _ Hi), Hu. unfold file_blocks. change (node_blocks (FileNode [])) with 0. lia. }
  destruct (does_fill efs total Ge T0 m _ i str Hst H0) as [D2 _]; [|done|done|]; [eapply Forall_impl; [exact Hs|]; unfold byte_ok; lia|].
  eexists. unfold random_str_test. eapply does_bind; [by apply (does_clear _ _ Ge T i bs)|]. fold T0.
  eapply does_bind; [apply (does_read _ _ Ge T0 i _ 0 buffer H0); lia|]. cbn [encode snd]. assert (En : read_length [] 0 buffer = 0) by (unfold read_length, zlen; cbn; lia).
  rewrite En. cbn iota. change (read_into [] 0 buffer) with (slice (Z.to_nat 0) (Z.to_nat (read_length [] 0 buffer)) [] ++ drop (Z.to_nat (read_length [] 0 buffer)) buffer). rewrite En.
  cbn [Z.eqb assert_that]. eapply does_bind; [apply does_lift|]. eapply does_bind; [exact D2|].
  eapply does_bind; [apply (read_str_loop_does _ _ Ge _ i str fuel (lookup_insert_eq _ _ _) Hl'); [|unfold zlen; lia|done|lia]|].
  { eapply Forall_impl; [exact Hs|]. cbn. lia. }
  rewrite drop_0. cbn [app]. rewrite bool_decide_eq_true_2 by done. cbn [assert_that]. eapply does_bind; [apply does_lift|]. apply does_ret.
Qed.

(** The file system of the tests. *)
Notation test_fs := (created 4096 1).

Lemma test_fs_ok : create_ok 4096 1.
Proof. split; lia. Qed.

(** One operation of a test: its precondition and its result are computed on the tree (an inode
    stays as it is). *)
Ltac ready := apply (bool_decide_unpack _); vm_compute; exact I.
Ltac computed := vm_compute; reflexivity.
Ltac test_op :=
  pose proof (created_geometry _ _ test_fs_ok) as Ge;
  lazymatch goal with
  | |- does _ _ _ (create_inode _ _ _ _) _ _ => eapply (does_create _ _ Ge); [ready | computed]
  | |- does _ _ _ (find _ _ _) _ _ => eapply (does_found _ _ Ge); [by vm_compute | computed]
  | |- does _ _ _ (ls _) _ _ => eapply (does_ls _ _ Ge); computed
  | |- does _ _ _ (Inode_write_at _ _ _ _) _ _ => eapply (does_write _ _ Ge); [computed | ready]
  | |- does _ _ _ (Inode_read_at _ _ _) _ _ => eapply (does_read _ _ Ge); [computed | lia | computed]
  | |- does _ _ _ (tree _ _ _ _ _) _ _ => apply (tree_does _ _ Ge); computed
  | |- does _ _ _ (lift (unwrap _ _)) _ _ => apply does_outcome; reflexivity
  | |- does _ _ _ (lift _) _ _ => apply does_outcome; computed
  end;
  clear Ge.
Ltac test_ops := repeat (eapply does_bind; [test_op|cbv beta iota]); apply does_ret.

Lemma efs_test_does : ∃ T, does test_fs 4096 empty_tree (efs_test_on test_fs) [str "filea"; str "fileb"; str "filec"] T.
Proof.
  eexists. unfold efs_test_on, Inode_create. change (root_inode test_fs) with (inode test_fs 0). cbv zeta.
  test_ops.
Qed.

Definition tree_output : list (list Z) := [str "/"; str "|-filea"; str "|-fileb"; str "|-dira"; str "|--filec"; str "|--dirb"; str "|---filed"].

Lemma efs_dir_test_does : ∃ T, does test_fs 4096 empty_tree (efs_dir_test_on test_fs) tree_output T.
Proof.
  eexists. unfold efs_dir_test_on, Inode_create. change (root_inode test_fs) with (inode test_fs 0). cbv zeta.
  do 2 (eapply does_bind; [test_op|cbv beta iota]). eapply does_bind.
  { unfold make_dirs, Inode_create_dir, Inode_create. test_ops. }
  cbv beta iota. eapply does_bind; [test_op|]. eapply does_bind; [unfold fill_files; test_ops|]. apply does_ret.
Qed.

Lemma test_run {A} (p : EasyFileSystem → prog A) a T D : does test_fs 4096 empty_tree (p test_fs) a T →
  (∀ id, 0 ≤ id < 4096 → ∃ b, D !! id = Some b ∧ wf_block b) → ∃ D', run (create 4096 1;; efs ← open_fs; p efs) ∅ D = FDone a ∅ D'.
Proof.
  intros H HD. destruct (create_represents 4096 1 test_fs_ok D HD) as (D1 & Hc & R1). destruct (H D1 R1) as (D2 & H2 & _). exists D2.
  by rewrite run_bind, Hc, run_bind, (open_run _ D1 (re_super _ _ _ _ R1)).
Qed.

Lemma random_str_fits str : zlen str ≤ 2000 * 512 → file_blocks str ≤ 2100.
Proof.
  intros H. unfold file_blocks, node_blocks, node_size. cbn [encode snd]. pose proof (data_blocks_mono (zlen str) (2000 * 512) ltac:(unfold zlen in *; lia) ltac:(rewrite INDIRECT2_BOUND_eq; lia)) as Hb.
  pose proof (data_blocks_mono 0 (zlen str) ltac:(unfold zlen; lia) ltac:(rewrite INDIRECT2_BOUND_eq; lia)) as H0. change (_data_blocks 0) with 0 in H0.
  pose proof (tree_count_mono (_data_blocks (zlen str)) (_data_blocks (2000 * 512)) ltac:(lia)) as Hc. assert (E : tree_count (_data_blocks (2000 * 512)) = 2017) by by vm_compute. lia.
Qed.

(** [random_str_test] on a file that is new. *)
Definition random_test (fuel : nat) (str0 : list Z) (efs : EasyFileSystem) : prog (list Z) :=
  o ← Inode_create efs (root_inode efs) (str "filea");
  filea ← lift (unwrap PUnwrap o);
  random_str_test fuel efs filea (replicate 233 0) str0.

Lemma random_test_does fuel s : Forall (λ b, 48 ≤ b ≤ 57) s → 0 < zlen s ≤ 2000 * 512 → zlen s + 127 ≤ Z.of_nat fuel * 127 →
  ∃ T, does test_fs 4096 empty_tree (random_test fuel s test_fs) (replicate 233 0) T.
Proof.
  intros Hs Hl Hf. pose proof (created_geometry _ _ test_fs_ok) as Ge. pose proof (pk_state _ _ packed_nil) as S0. change (files_blocks [] + dir_blocks (zlen [])) with 0 in S0. change (zlen (@nil (list Z * list Z)) + 1) with 1 in S0.
  destruct (does_new test_fs 4096 Ge empty_tree 1 0 0 [] (str "filea") File S0) as [D1 S1]; [done|done|by apply (bool_decide_unpack _); vm_compute|done|done|by vm_compute|by vm_compute|].
  destruct (random_str_does test_fs 4096 Ge _ _ _ 1 [] (replicate 233 0) s fuel S1) as (T & D2); [done|unfold zlen; rewrite length_replicate; lia|done|unfold max_size; rewrite INDIRECT2_BOUND_eq; lia| |done|].
  { change (file_blocks []) with 0. pose proof (random_str_fits s ltac:(lia)). change (blocks_for (32 * zlen []) (32 * zlen [] + 32)) with 1. change (4096 - data_area_start_block test_fs) with 3069. lia. }
  exists T. unfold random_test, Inode_create. change (root_inode test_fs) with (inode test_fs 0). eapply does_made; [exact D1|exact D2].
Qed.

(** C26. The tests of the tool pass on any disk of 4096 blocks: [efs_test] creates, finds, writes and
    reads back its three files; [efs_dir_test] prints its tree line by line as expected; and
    [random_str_test], which the code leaves commented out, passes for every string of digits of up
    to 2000 blocks. *)
Theorem efs_tests_pass D : (∀ id, 0 ≤ id < 4096 → ∃ b, D !! id = Some b ∧ wf_block b) →
  (∃ D', run efs_test ∅ D = FDone [str "filea"; str "fileb"; str "filec"] ∅ D') ∧
  (∃ D', run efs_dir_test ∅ D = FDone tree_output ∅ D') ∧
  ∀ s fuel, Forall (λ b, 48 ≤ b ≤ 57) s → 0 < zlen s ≤ 2000 * 512 → zlen s + 127 ≤ Z.of_nat fuel * 127 →
    ∃ D', run (create 4096 1;; efs ← open_fs; random_test fuel s efs) ∅ D = FDone (replicate 233 0) ∅ D'.
Proof.
  intros HD. split; [|split].
  - destruct efs_test_does as [T H]. by apply (test_run efs_test_on _ T).
  - destruct efs_dir_test_does as [T H]. by apply (test_run efs_dir_test_on _ T).
  - intros s fuel Hs Hl Hf. destruct (random_test_does fuel s Hs Hl Hf) as [T H]. by apply (test_run (random_test fuel s) _ T).
Qed.

Definition test_disk : gmap Z block := gset_to_gmap zeros (list_to_set (seqZ 0 4096)).

Lemma efs_tests_pass_witness :
  (∀ id, 0 ≤ id < 4096 → ∃ b, test_disk !! id = Some b ∧ wf_block b) ∧ ∃ D', run efs_dir_test ∅ test_disk = FDone tree_output ∅ D'.
Proof.
  assert (HD : ∀ id, 0 ≤ id < 4096 → ∃ b, test_disk !! id = Some b ∧ wf_block b).
  { intros id Hid. exists zeros. split; [|apply zeros_wf]. apply lookup_gset_to_gmap_Some. split; [|reflexivity]. apply elem_of_list_to_set. by apply elem_of_seqZ. }
  split; [exact HD|]. exact (proj1 (proj2 (efs_tests_pass test_disk HD))).
Defined.

(** ** The image file *)

(** The file [fs.img] as a disk of [n] blocks. *)
Definition file_disk (file : list Z) (n : Z) : gmap Z block := list_to_map ((λ id, (id, slice (Z.to_nat (id * 512)) BLOCK_SZ file)) <$> seqZ 0 n).

Lemma file_disk_get file n id : 0 ≤ n < 2 ^ 55 → zlen file = n * 512 → file_disk file n !! id = BlockFile_get file id.
Proof.
  intros Hn Hl. unfold BlockFile_get, file_disk. change (Z.of_nat BLOCK_SZ) with 512. rewrite Hl. case_decide as Hid.
  - apply elem_of_list_to_map_1.
    + rewrite <- list_fmap_compose. cbn. assert (E : fst ∘ (λ id, (id, slice (Z.to_nat (id * 512)) BLOCK_SZ file)) <$> seqZ 0 n = seqZ 0 n); [|rewrite E; apply NoDup_seqZ].
      rewrite <- (list_fmap_id (seqZ 0 n)) at 2. by apply list_fmap_ext.
    + apply list_elem_of_fmap. exists id. split; [done|]. apply elem_of_seqZ. lia.
  - apply not_elem_of_list_to_map_1. intros ([i b] & Ei & (j & [= -> ->] & Hj%elem_of_seqZ)%list_elem_of_fmap)%list_elem_of_fmap. cbn in Ei. lia.
Qed.

Lemma file_disk_wf file n id : 0 ≤ n < 2 ^ 55 → zlen file = n * 512 → bytes_ok file → 0 ≤ id < n → ∃ b, file_disk file n !! id = Some b ∧ wf_block b.
Proof.
  intros Hn Hl Hb Hid. exists (slice (Z.to_nat (id * 512)) BLOCK_SZ file). split.
  - rewrite file_disk_get by done. unfold BlockFile_get. change (Z.of_nat BLOCK_SZ) with 512. by rewrite decide_True by lia.
  - split; [apply length_slice; unfold zlen, BLOCK_SZ in *; lia|by apply bytes_ok_slice].
Qed.

Lemma write_at_synced efs ino off buf s : ends_synced (Inode_write_at efs ino off buf) s.
Proof. unfold Inode_write_at. by apply ends_synced_bind. Qed.

Lemma lift_bind_synced {A B} (o : outcome A) (k : A → prog B) : (∀ a s, ends_synced (k a) s) → ∀ s, ends_synced (lift o ≫= k) s.
Proof. intros H. by apply ends_synced_bind. Qed.

Lemma easy_fs_pack_synced target_path host dir_names s : ends_synced (easy_fs_pack target_path host dir_names) s.
Proof.
  unfold easy_fs_pack, pack_image. do 4 (apply ends_synced_bind; intros ? ?). apply ends_synced_bind. intros [file_c file_d] s'.
  apply ends_synced_then; [done|]. unfold fill_files. apply ends_synced_bind. intros ? ?. apply ends_synced_then; [done|]. apply write_at_synced.
Qed.

(** C3. The image boots.  [easy_fs_pack], given a host whose files have names and sizes the file
    system takes, runs on the block cache over the file [fs.img] without a panic, prints the names
    of the files, and leaves nothing in memory that is not in [fs.img]: the kernel, which starts
    with an empty cache over the same bytes, opens the file system and finds every packed file
    under its name, and [open_file] followed by [read_all] returns exactly the bytes the host had.
    The directories that the tool adds are there too. *)
Theorem packed_image_boots target_path host dir_names fs file :
  strip_all dir_names = Done fs.*1 → Forall (λ f, host (target_path ++ f.1) = Some f.2) fs → packable (created 32768 1) 32768 fs →
  zlen file = 32768 * 512 → bytes_ok file →
  ∃ q fs_img, run_cache (easy_fs_pack target_path host dir_names) ∅ [] file = Done (fs.*1, ∅, q, fs_img) ∧
    ∀ path bs fuel, (path, bs) ∈ fs ++ [(str "dira/filec", str "3333333"); (str "dira/dirb/filed", str "4444444444444444444")] →
      zlen bs / 512 + 2 ≤ Z.of_nat fuel →
      ∃ o q' dev, run_cache (efs ← open_fs; o ← open_file efs (root_inode efs) path RDONLY; o ← lift (unwrap PUnwrap o); read_all fuel o) ∅ [] fs_img
        = Done (Some (bs, o), ∅, q', dev).
Proof.
  intros Hstrip Hh Pa Hl Hb. assert (Hc : create_ok 32768 1) by (split; lia). pose proof (created_geometry 32768 1 Hc) as Ge. set (D := file_disk file 32768).
  assert (I : cache_inv ∅ D [] file) by (apply cache_inv_init; intros id; by apply file_disk_get).
  destruct (create_represents 32768 1 Hc D) as (D1 & Hcr & R1); [intros id Hid; by apply file_disk_wf|].
  destruct (pack_image_does _ 32768 Ge target_path host dir_names fs Pa Hstrip Hh) as (T & Hp & Im). destruct (Hp D1 R1) as (D2 & Hp2 & R2).
  assert (Hrun : run (easy_fs_pack target_path host dir_names) ∅ D = FDone fs.*1 ∅ D2) by (unfold easy_fs_pack; change (16 * 2048) with 32768; by rewrite run_bind, Hcr).
  pose proof (easy_fs_pack_synced target_path host dir_names false) as Hs. set (p := easy_fs_pack target_path host dir_names) in *. clearbody p.
  destruct (ends_synced_durable p false ∅ D [] file fs.*1 ∅ D2 I Hs) as (q & fs_img & Hcache & _ & Hdev); [intros E; discriminate E|exact Hrun|].
  exists q, fs_img. split; [done|]. intros path bs fuel Hin Hf.
  assert (∃ i, walk T 0 (path_names path) = Some i ∧ T !! i = Some (FileNode bs)) as (i & Hw & Hi).
  { apply elem_of_app in Hin as [(k & Hk)%list_elem_of_lookup|Hin].
    - exists (Z.of_nat k + 1). split; [by apply (image_find _ 32768 fs T k (path, bs) Pa Im)|by apply (im_files _ _ Im k (path, bs))].
    - apply elem_of_cons in Hin as [[= -> ->]|[= -> ->]%list_elem_of_singleton]; eexists; [apply (im_c _ _ Im)|apply (im_d _ _ Im)]. }
  assert (Hsz : zlen bs ≤ max_size).
  { unfold max_size. rewrite INDIRECT2_BOUND_eq. apply elem_of_app in Hin as [Hin|Hin].
    - pose proof (proj1 (Forall_forall _ _) (pa_data _ _ _ Pa) _ Hin) as [_ H]. unfold max_size in H. rewrite INDIRECT2_BOUND_eq in H. cbn in H. lia.
    - apply elem_of_cons in Hin as [[= -> ->]|[= -> ->]%list_elem_of_singleton]; unfold zlen; cbn; lia. }
  destruct (open_read_does _ 32768 Ge T i path bs fuel Hw Hi Hsz Hf (mk_is_Some _ _ (im_root _ _ Im)) D2 R2) as (D3 & Hr & _).
  assert (Hro : run (efs ← open_fs; o ← open_file efs (root_inode efs) path RDONLY; o ← lift (unwrap PUnwrap o); read_all fuel o) ∅ D2
    = FDone (Some (bs, mkOSInode true false (zlen bs) (inode (created 32768 1) i))) ∅ D3) by (rewrite run_bind, (open_run _ D2 (re_super _ _ _ _ R2)); exact Hr).
  pose proof (cache_refines_aux (efs ← open_fs; o ← open_file efs (root_inode efs) path RDONLY; o ← lift (unwrap PUnwrap o); read_all fuel o) ∅ D2 [] fs_img
    (cache_inv_init _ _ (λ id, eq_sym (Hdev id)))) as Href. rewrite Hro in Href. destruct Href as (q' & dev & Hres & _). eauto.
Qed.

(** A host with two programs. *)
Definition example_files : list (list Z * list Z) := [(str "initproc", [127; 69; 76; 70]); (str "user_shell", replicate 2000 7)].
Definition example_host (path : list Z) : option (list Z) :=
  (λ e, e.2.2) <$> list_find (λ e, e.1 = path) ((λ f, (str "target/" ++ f.1, f.2)) <$> example_files).
Definition blank_image : list Z := replicate (Z.to_nat (32768 * 512)) 0.

Lemma example_packable : packable (created 32768 1) 32768 example_files.
Proof.
  split; try (apply (bool_decide_unpack _); vm_compute; exact I).
Qed.

Lemma packed_image_boots_witness :
  packable (created 32768 1) 32768 example_files ∧
  ∃ q fs_img, run_cache (easy_fs_pack (str "target/") example_host [str "initproc.rs"; str "user_shell.rs"]) ∅ [] blank_image =
      Done ([str "initproc"; str "user_shell"], ∅, q, fs_img) ∧
    ∃ o q' dev, run_cache (efs ← open_fs; o ← open_file efs (root_inode efs) (str "initproc") RDONLY; o ← lift (unwrap PUnwrap o); read_all 9 o) ∅ [] fs_img
      = Done (Some ([127; 69; 76; 70], o), ∅, q', dev).
Proof.
  split; [exact example_packable|].
  destruct (packed_image_boots (str "target/") example_host [str "initproc.rs"; str "user_shell.rs"] example_files blank_image) as (q & fs_img & Hp & Hr).
  - vm_compute; reflexivity.
  - repeat constructor.
  - exact example_packable.
  - unfold blank_image, zlen. rewrite length_replicate. lia.
  - apply Forall_replicate. unfold byte_ok. lia.
  - exists q, fs_img. split; [exact Hp|]. apply (Hr (str "initproc") [127; 69; 76; 70] 9%nat); [left|apply Z.leb_le; reflexivity].
Defined.
