(* ===== verification/Shell.v ===== *)
(** * Shell.v: the shell ([user/src/bin/user_shell.rs])

    The line editor, the parsing of a command line, and what the processes of a pipeline do to
    their descriptors before [exec].  Characters are numbers: the shell pushes each byte it reads
    as a [char].  The descriptor calls are the kernel's (Files.v) on the table of the process that
    makes them; [fork] gives the child a copy of its parent's.  What [open] finds and the ends
    that the kernel makes for a pipe are arguments. *)

From S2P Require Import Prelude Address Files.

Definition LF : Z := 0x0a.
Definition CR : Z := 0x0d.
Definition DL : Z := 0x7f.
Definition BS : Z := 0x08.

(** [str::split] at a character. *)
Fixpoint split (c : Z) (s : list Z) : list (list Z) :=
  match s with
  | [] => [[]]
  | x :: s =>
      if x =? c then [] :: split c s
      else match split c s with
           | w :: ws => (x :: w) :: ws
           | [] => [[x]]
           end
  end.

(** [args_addr] are the addresses of the strings of [args_copy] and a null pointer. *)
Record ProcessArguments : Type := mkProcessArguments {
  input : list Z;
  output : list Z;
  args_copy : list (list Z);
}.

(** The file named after the argument [mark], and the arguments without the two. *)
Definition redirection (mark : list Z) (args_copy : list (list Z)) : outcome (list Z * list (list Z)) :=
  match find_index (λ arg, bool_decide (arg = mark)) args_copy with
  | Some idx =>
      file ← unwrap PIndex (args_copy !! (idx + 1)%nat);
      mret (file, take idx args_copy ++ drop (idx + 2) args_copy)
  | None => mret ([], args_copy)
  end.

(** 32 is the space, 60 and 62 are [<] and [>]. *)
Definition ProcessArguments_new (command : list Z) : outcome ProcessArguments :=
  let args := split 32 command in
  let args_copy := (λ arg, arg ++ [0]) <$> filter (λ arg, arg ≠ []) args in
  '(input, args_copy) ← redirection [60; 0] args_copy;
  '(output, args_copy) ← redirection [62; 0] args_copy;
  mret (mkProcessArguments input output args_copy).

(** The commands of a line; 124 is the bar. *)
Definition parse_line (line : list Z) : outcome (list ProcessArguments) :=
  let splitted := split 124 line in
  mapM ProcessArguments_new splitted.

Definition is_empty {A} (l : list A) : bool := match l with [] => true | _ => false end.

(** Where a command of a pipeline may have redirections. *)
Definition arguments_valid (l : list ProcessArguments) : bool :=
  (length l =? 1)%nat ||
  forallb id (imap (λ i process_args,
    if (i =? 0)%nat then is_empty (output process_args)
    else if (i =? length l - 1)%nat then is_empty (input process_args)
    else is_empty (output process_args) && is_empty (input process_args)) l).

(** ** Running a pipeline *)

Section shell.
Context {F : Type} (open : list Z → Z → option F) (ends : nat → F * F).
Notation table := (list (option F)).

Definition close (fds : table) (fd : Z) : outcome table := '(_, fds) ← sys_close fds fd; mret fds.

(** [assert_eq!(dup(fd), to)] *)
Definition dup_to (fds : table) (fd to : Z) : outcome table :=
  '(d, fds) ← sys_dup fds fd;
  assert_that (d =? to) PAssert;;
  mret fds.

(** [pipe(&mut pipe_fd)]: the kernel stores two words in the array. *)
Definition store_fd (pipe_fd : list Z) (addr v : Z) : outcome (list Z) := mret (<[Z.to_nat (addr / 8) := v]> pipe_fd).

Fixpoint make_pipes (js : list nat) (fds : table) : outcome (list (Z * Z) * table) :=
  match js with
  | [] => mret ([], fds)
  | j :: js =>
      '(_, fds, pipe_fd) ← sys_pipe store_fd [0; 0] fds (ends j).1 (ends j).2 0;
      r ← nth_or_panic pipe_fd 0;
      w ← nth_or_panic pipe_fd 1;
      '(pipes_fd, fds) ← make_pipes js fds;
      mret ((r, w) :: pipes_fd, fds)
  end.

Fixpoint close_pipes (pipes_fd : list (Z * Z)) (fds : table) : outcome table :=
  match pipes_fd with
  | [] => mret fds
  | pipe_fd :: pipes_fd =>
      fds ← close fds pipe_fd.1;
      fds ← close fds pipe_fd.2;
      close_pipes pipes_fd fds
  end.

(** A child ends with an exit code, or calls [exec] with the descriptors it has then. *)
Inductive child : Type := Exits (code : Z) | Execs (path : list Z) (args : list (list Z)) (fds : table).

(** The descriptor [fd] becomes the file [path]; [None] when it cannot be opened. *)
Definition redirect (fds : table) (path : list Z) (flags fd : Z) : outcome (option table) :=
  if negb (is_empty path) then
    let '(file_fd, fds) := open_fd fds (open path flags) in
    if file_fd =? -1 then mret None
    else
      fds ← close fds fd;
      fds ← dup_to fds file_fd fd;
      fds ← close fds file_fd;
      mret (Some fds)
  else mret (Some fds).

Definition child_run (n i : nat) (process_argument : ProcessArguments) (pipes_fd : list (Z * Z)) (fds : table) : outcome child :=
  o ← redirect fds (input process_argument) RDONLY 0;
  match o with
  | None => mret (Exits (-4))
  | Some fds =>
      o ← redirect fds (output process_argument) (Z.lor CREATE WRONLY) 1;
      match o with
      | None => mret (Exits (-4))
      | Some fds =>
          fds ← (if (0 <? i)%nat then
                   fds ← close fds 0;
                   pipe_fd ← unwrap PUnwrap (pipes_fd !! (i - 1)%nat);
                   dup_to fds pipe_fd.1 0
                 else mret fds);
          fds ← (if (i <? n - 1)%nat then
                   fds ← close fds 1;
                   pipe_fd ← unwrap PUnwrap (pipes_fd !! i);
                   dup_to fds pipe_fd.2 1
                 else mret fds);
          fds ← close_pipes pipes_fd fds;
          path ← unwrap PIndex (head (args_copy process_argument));
          mret (Execs path (args_copy process_argument) fds)
      end
  end.

(** What each child does, and the descriptors of the shell afterwards. *)
Definition run_commands (l : list ProcessArguments) (fds : table) : outcome (list (outcome child) * table) :=
  '(pipes_fd, fds) ← make_pipes (seq 0 (length l - 1)) fds;
  let children := imap (λ i process_argument, child_run (length l) i process_argument pipes_fd fds) l in
  fds ← close_pipes pipes_fd fds;
  mret (children, fds).

(** A line that was entered; [None] for a line with redirections in the wrong places. *)
Definition run_line (line : list Z) (fds : table) : outcome (option (list (outcome child)) * table) :=
  l ← parse_line line;
  if negb (arguments_valid l) then mret (None, fds)
  else
    '(children, fds) ← run_commands l fds;
    mret (Some children, fds).
End shell.

(** ** The line editor *)

Record ShellState : Type := mkShell {
  line : list Z;
  current_working_dir : list Z;
}.

Inductive command : Type := NoCommand | Chdir (path : list Z) | RunLine (line : list Z).

(** "cd " *)
Definition CD : list Z := [99; 100; 32].

Definition shell_key (s : ShellState) (c : Z) : ShellState * command :=
  if (c =? LF) || (c =? CR) then
    if bool_decide (take 3 (line s) = CD) then
      let path := drop 3 (line s ++ [0]) in
      (mkShell [] path, Chdir path)
    else if negb (is_empty (line s)) then (mkShell [] (current_working_dir s), RunLine (line s))
    else (s, NoCommand)
  else if (c =? BS) || (c =? DL) then
    (if negb (is_empty (line s)) then mkShell (removelast (line s)) (current_working_dir s) else s, NoCommand)
  else (mkShell (line s ++ [c]) (current_working_dir s), NoCommand).

(** ** Parsing *)

(** [s] spells the words [ws]: any number of spaces before, between (at least one) and after them. *)
Inductive spells : list Z → list (list Z) → Prop :=
| sp_end n : spells (replicate n 32) []
| sp_word n w s ws : w ≠ [] → 32 ∉ w → (s = [] ∨ head s = Some 32) → spells s ws → spells (replicate n 32 ++ w ++ s) (w :: ws).

Lemma split_not_nil c s : split c s ≠ [].
Proof. destruct s as [|x s]; cbn; [done|]. destruct (x =? c); [done|]. by destruct (split c s). Qed.

Lemma split_word c w : c ∉ w → split c w = [w].
Proof.
  induction w as [|x w IH]; [done|]. intros Hn. apply not_elem_of_cons in Hn as [Hx Hn]. cbn [split].
  destruct (Z.eqb_spec x c); [congruence|]. by rewrite IH.
Qed.

Lemma split_app c w s : c ∉ w → split c (w ++ c :: s) = w :: split c s.
Proof.
  induction w as [|x w IH]; intros Hn; cbn [app split]; [by rewrite Z.eqb_refl|].
  apply not_elem_of_cons in Hn as [Hx Hn]. destruct (Z.eqb_spec x c); [congruence|]. by rewrite IH.
Qed.

Lemma split_spaces n s : filter (λ w, w ≠ []) (split 32 (replicate n 32 ++ s)) = filter (λ w, w ≠ []) (split 32 s).
Proof. induction n as [|n IH]; [done|]. cbn [replicate app split]. rewrite Z.eqb_refl, filter_cons_False by (intros H; by apply H). exact IH. Qed.

Lemma split_spells s ws : spells s ws → filter (λ w, w ≠ []) (split 32 s) = ws.
Proof.
  induction 1 as [n|n w s ws Hw Hsp Hs _ IH].
  - rewrite <- (app_nil_r (replicate n 32)). by rewrite split_spaces.
  - rewrite split_spaces. destruct s as [|x s].
    + rewrite app_nil_r, split_word by done. rewrite filter_cons_True by done. cbn in IH. by rewrite <- IH.
    + destruct Hs as [?|[= ->]]; [done|]. rewrite split_app by done. rewrite filter_cons_True by done.
      f_equal. rewrite <- IH. cbn [split]. rewrite Z.eqb_refl, filter_cons_False by (intros H; by apply H). done.
Qed.

(** A command as it is meant: its words, and the files after [<] and [>]. *)
Record Command : Type := mkCommand {
  c_words : list (list Z);
  c_input : option (list Z);
  c_output : option (list Z);
}.

Definition tokens (c : Command) : list (list Z) :=
  c_words c ++ match c_input c with Some f => [[60]; f] | None => [] end ++ match c_output c with Some f => [[62]; f] | None => [] end.

(** No word or file is itself a [<] or [>]. *)
Definition command_ok (c : Command) : Prop :=
  Forall (λ w, w ≠ [60] ∧ w ≠ [62]) (c_words c) ∧
  (∀ f, c_input c = Some f → f ≠ [60] ∧ f ≠ [62]) ∧ (∀ f, c_output c = Some f → f ≠ [60] ∧ f ≠ [62]).

Definition terminated (w : list Z) : list Z := w ++ [0].

Definition parsed (c : Command) : ProcessArguments :=
  mkProcessArguments (from_option terminated [] (c_input c)) (from_option terminated [] (c_output c)) (terminated <$> c_words c).

Lemma terminated_eq w m : terminated w = [m; 0] ↔ w = [m].
Proof.
  unfold terminated. split; [|by intros ->]. intros E. change [m; 0] with ([m] ++ [0]) in E. by apply app_inj_tail in E as [-> _].
Qed.

Lemma redirection_none m l : Forall (λ w, w ≠ [m]) l → redirection [m; 0] (terminated <$> l) = Done ([], terminated <$> l).
Proof.
  intros Hl. unfold redirection. replace (find_index _ _) with (@None nat); [done|]. symmetry. apply find_index_None.
  intros x (w & -> & Hw)%list_elem_of_fmap. apply bool_decide_eq_false. rewrite terminated_eq. by eapply Forall_forall in Hl.
Qed.

Lemma redirection_some m l f r : Forall (λ w, w ≠ [m]) l →
  redirection [m; 0] (terminated <$> l ++ [m] :: f :: r) = Done (terminated f, terminated <$> l ++ r).
Proof.
  intros Hl. unfold redirection. replace (find_index _ _) with (Some (length l)).
  - rewrite fmap_app. rewrite lookup_app_r by (rewrite length_fmap; lia). rewrite length_fmap.
    replace (length l + 1 - length l)%nat with 1%nat by lia. cbn [fmap list_fmap lookup list_lookup unwrap]. rewrite outcome_bind_Done.
    rewrite fmap_app, take_app_length' by by rewrite length_fmap.
    rewrite drop_app_ge by (rewrite length_fmap; lia). rewrite length_fmap. by replace (length l + 2 - length l)%nat with 2%nat by lia.
  - symmetry. apply find_index_Some. split.
    + exists (terminated [m]). split; [|by apply bool_decide_eq_true, terminated_eq].
      rewrite list_lookup_fmap, list_lookup_middle by done. done.
    + intros j x Hj Hx. apply bool_decide_eq_false. rewrite list_lookup_fmap, lookup_app_l in Hx by done.
      destruct (l !! j) as [w|] eqn:E; [|done]. injection Hx as <-. rewrite terminated_eq. by apply (Forall_lookup_1 _ _ _ _ Hl E).
Qed.

Lemma ProcessArguments_new_spec s c : spells s (tokens c) → command_ok c → ProcessArguments_new s = Done (parsed c).
Proof.
  intros Hs (Hw & Hi & Ho). unfold ProcessArguments_new. rewrite (split_spells _ _ Hs). change (λ arg, arg ++ [0]) with terminated.
  assert (H60 : Forall (λ w, w ≠ [60]) (c_words c)) by (eapply Forall_impl; [exact Hw|]; by intros ? []).
  assert (H62 : Forall (λ w, w ≠ [62]) (c_words c)) by (eapply Forall_impl; [exact Hw|]; by intros ? []).
  assert (E : redirection [60; 0] (terminated <$> tokens c) =
    Done (from_option terminated [] (c_input c), terminated <$> c_words c ++ match c_output c with Some f => [[62]; f] | None => [] end)).
  { unfold tokens. destruct (c_input c) as [f|]; cbn [app from_option]; [by apply redirection_some|].
    apply redirection_none, Forall_app. split; [done|]. destruct (c_output c) as [g|]; [|constructor].
    destruct (Ho g eq_refl). by repeat constructor. }
  rewrite E, outcome_bind_Done. cbv beta iota. unfold parsed. destruct (c_output c) as [g|]; cbn [from_option].
  - rewrite (redirection_some 62) by done. rewrite outcome_bind_Done, app_nil_r. done.
  - rewrite app_nil_r, (redirection_none 62) by done. done.
Qed.

(** A line of commands separated by bars. *)
Fixpoint bars (ss : list (list Z)) : list Z :=
  match ss with
  | [] => []
  | [s] => s
  | s :: ss => s ++ 124 :: bars ss
  end.

Lemma split_bars ss : ss ≠ [] → Forall (λ s, 124 ∉ s) ss → split 124 (bars ss) = ss.
Proof.
  induction ss as [|s ss IH]; intros Hne Hb; [done|]. apply Forall_cons in Hb as [Hs Hb].
  destruct ss as [|t ss]; [by apply split_word|]. cbn [bars]. rewrite split_app by done. f_equal. by apply IH.
Qed.

(** C30. The shell understands what is typed: for a line of commands separated by bars, each a list
    of words with any spacing and, at its end, perhaps [< file] and [> file], the shell finds the
    same commands in the same order, each with exactly its words and the names of its two files,
    every string ended by a zero. *)
Theorem command_line_roundtrip ss cs : ss ≠ [] → Forall2 (λ s c, spells s (tokens c) ∧ command_ok c ∧ 124 ∉ s) ss cs →
  parse_line (bars ss) = Done (parsed <$> cs).
Proof.
  intros Hne Hall. unfold parse_line. rewrite split_bars; [|done|by eapply Forall2_Forall_l; [exact Hall|]; apply Forall_true; intros ? ? (_ & _ & ?)].
  clear Hne. induction Hall as [|s c ss cs (Hs & Hc & _) _ IH]; [done|]. cbn [mapM fmap list_fmap].
  rewrite (ProcessArguments_new_spec s c) by done. rewrite outcome_bind_Done, IH. done.
Qed.

(** A command that ends in [<] makes the shell panic. *)
Lemma dangling_redirection_panics s ws : spells s (ws ++ [[60]]) → Forall (λ w, w ≠ [60]) ws →
  ProcessArguments_new s = Panicked PIndex.
Proof.
  intros Hs Hw. unfold ProcessArguments_new. rewrite (split_spells _ _ Hs). change (λ arg, arg ++ [0]) with terminated.
  assert (E : redirection [60; 0] (terminated <$> ws ++ [[60]]) = Panicked PIndex); [|by rewrite E].
  unfold redirection. replace (find_index _ _) with (Some (length ws)).
  - by rewrite lookup_ge_None_2 by (rewrite length_fmap, length_app; cbn; lia).
  - symmetry. apply find_index_Some. split.
    + exists (terminated [60]). split; [|by apply bool_decide_eq_true]. by rewrite list_lookup_fmap, list_lookup_middle.
    + intros j x Hj Hx. apply bool_decide_eq_false. rewrite list_lookup_fmap, lookup_app_l in Hx by done.
      destruct (ws !! j) as [w|] eqn:E; [|done]. injection Hx as <-. rewrite terminated_eq. by apply (Forall_lookup_1 _ _ _ _ Hw E).
Qed.

(** ** The descriptors of a pipeline *)

Section wiring.
Context {F : Type} (open : list Z → Z → option F) (ends : nat → F * F).
Notation table := (list (option F)).
Implicit Types t : table.

Lemma shell_close_spec t fd : 0 ≤ fd → ∃ t', close t fd = Done t' ∧
  ∀ j, file_at t' j = if decide (j = Z.to_nat fd) then None else file_at t j.
Proof.
  intros Hfd. destruct (close_spec t fd Hfd) as (r & t' & E & _ & H). exists t'. unfold close. by rewrite E.
Qed.

(** [dup] to a descriptor that was just closed, those below it being open. *)
Lemma dup_to_spec t fd to f : 0 ≤ fd → 0 ≤ to → file_at t (Z.to_nat fd) = Some f → file_at t (Z.to_nat to) = None →
  (∀ j, (j < Z.to_nat to)%nat → is_Some (file_at t j)) →
  ∃ t', dup_to t fd to = Done t' ∧ ∀ j, file_at t' j = if decide (j = Z.to_nat to) then Some f else file_at t j.
Proof.
  intros Hfd Hto Hf Hn Hlow. destruct (dup_spec t fd Hfd) as (r & t' & E & H). rewrite Hf in H. destruct H as (n & -> & [Hnn Hmin] & _ & H).
  assert (n = Z.to_nat to) as ->.
  { destruct (Nat.lt_trichotomy n (Z.to_nat to)) as [Hl|[He|Hg]]; [destruct (Hlow n Hl); congruence|done|].
    destruct (Hmin _ Hg). congruence. }
  exists t'. unfold dup_to. rewrite E, outcome_bind_Done. cbv beta iota. rewrite Z2Nat.id, Z.eqb_refl by done. done.
Qed.

(** [close(to); dup(fd)] for the descriptors 0 and 1. *)
Lemma move_spec t fd to f a b : 0 ≤ fd → to = 0 ∨ to = 1 → fd ≠ to → file_at t (Z.to_nat fd) = Some f →
  file_at t 0 = Some a → file_at t 1 = Some b →
  ∃ t', (t ← close t to; dup_to t fd to) = Done t' ∧ ∀ j, file_at t' j = if decide (j = Z.to_nat to) then Some f else file_at t j.
Proof.
  intros Hfd Hto Hne Hf Ha Hb. destruct (shell_close_spec t to) as (t1 & -> & H1); [lia|]. rewrite outcome_bind_Done.
  destruct (dup_to_spec t1 fd to f) as (t2 & -> & H2); [done|lia|rewrite H1, decide_False by lia; done|rewrite H1, decide_True by done; done| |].
  - intros j Hj. rewrite H1, decide_False by lia. assert (j = 0%nat) as -> by lia. by exists a.
  - exists t2. split; [done|]. intros j. rewrite H2. case_decide; [done|]. by rewrite H1, decide_False.
Qed.

Lemma redirect_spec t path flags to a b : to = 0 ∨ to = 1 → file_at t 0 = Some a → file_at t 1 = Some b →
  (path ≠ [] → is_Some (open path flags)) →
  ∃ t', redirect open t path flags to = Done (Some t') ∧
    ∀ j, file_at t' j = if decide (j = Z.to_nat to ∧ path ≠ []) then open path flags else file_at t j.
Proof.
  intros Hto Ha Hb Ho. unfold redirect. destruct path as [|c path]; cbn [is_empty negb].
  { exists t. split; [done|]. intros j. rewrite decide_False; [done|]. by intros [_ H]. }
  destruct (Ho ltac:(done)) as [f Hf]. rewrite Hf. unfold open_fd. pose proof (install_spec t f) as Hi. destruct (install t f) as [n t1].
  destruct Hi as ([Hn Hmin] & H1 & _). destruct (Z.eqb_spec (Z.of_nat n) (-1)); [lia|].
  assert (Hn0 : n ≠ 0%nat) by congruence. assert (Hn1 : n ≠ 1%nat) by congruence.
  destruct (move_spec t1 (Z.of_nat n) to f a b) as (t2 & E2 & H2);
    [lia|done|lia|rewrite H1, decide_True by lia; done|rewrite H1, decide_False by done; done|rewrite H1, decide_False by done; done|].
  destruct (shell_close_spec t1 to) as (tc & Ec & _); [lia|]. rewrite Ec in E2 |- *. rewrite !outcome_bind_Done in E2. rewrite outcome_bind_Done, E2, outcome_bind_Done.
  destruct (shell_close_spec t2 (Z.of_nat n)) as (t3 & -> & H3); [lia|]. exists t3. split; [done|]. intros j. rewrite H3, H2, H1.
  rewrite Nat2Z.id. destruct (decide (j = n)) as [->|].
  - rewrite decide_False; [done|]. intros [-> _]. lia.
  - destruct (decide (j = Z.to_nat to)); [by rewrite decide_True|]. rewrite decide_False; [done|]. by intros [? _].
Qed.

Definition in_pipes (pipes_fd : list (Z * Z)) (d : nat) : Prop := ∃ p, p ∈ pipes_fd ∧ (d = Z.to_nat p.1 ∨ d = Z.to_nat p.2).

#[local] Instance in_pipes_dec pipes_fd d : Decision (in_pipes pipes_fd d).
Proof.
  destruct (decide (Exists (λ p : Z * Z, d = Z.to_nat p.1 ∨ d = Z.to_nat p.2) pipes_fd)) as [H|H]; [left|right].
  - apply Exists_exists in H. exact H.
  - intros Hin. apply H. by apply Exists_exists.
Defined.

Lemma close_pipes_spec pipes_fd : Forall (λ p, 0 ≤ p.1 ∧ 0 ≤ p.2) pipes_fd → ∀ t, ∃ t', close_pipes pipes_fd t = Done t' ∧
  ∀ d, file_at t' d = if decide (in_pipes pipes_fd d) then None else file_at t d.
Proof.
  induction 1 as [|p ps [H1 H2] _ IH]; intros t; cbn [close_pipes].
  { exists t. split; [done|]. intros d. rewrite decide_False; [done|]. intros (p & Hp & _). by apply not_elem_of_nil in Hp. }
  destruct (shell_close_spec t p.1 H1) as (t1 & -> & E1). rewrite outcome_bind_Done.
  destruct (shell_close_spec t1 p.2 H2) as (t2 & -> & E2). rewrite outcome_bind_Done.
  destruct (IH t2) as (t' & -> & E). exists t'. split; [done|]. intros d. rewrite E. case_decide as Hin.
  - rewrite decide_True; [done|]. destruct Hin as (q & Hq & Hd). exists q. split; [by right|done].
  - rewrite E2, E1. destruct (decide (d = Z.to_nat p.2)) as [Hd|Hd]; [rewrite decide_True; [done|]; exists p; split; [by left|by right]|].
    destruct (decide (d = Z.to_nat p.1)) as [Hd'|Hd']; [rewrite decide_True; [done|]; exists p; split; [by left|by left]|].
    rewrite decide_False; [done|]. intros (q & [->|Hq]%elem_of_cons & Hor); [by destruct Hor|]. apply Hin. by exists q.
Qed.

(** The table after the pipes were made: their ends are on descriptors that were free. *)
Record piped t t' (js : list nat) (pipes_fd : list (Z * Z)) : Prop := {
  pi_length : length pipes_fd = length js;
  pi_range : Forall (λ p, 0 ≤ p.1 ∧ 0 ≤ p.2) pipes_fd;
  pi_ends : ∀ i j p, js !! i = Some j → pipes_fd !! i = Some p →
    file_at t' (Z.to_nat p.1) = Some (ends j).1 ∧ file_at t' (Z.to_nat p.2) = Some (ends j).2;
  pi_free : ∀ d, in_pipes pipes_fd d → file_at t d = None;
  pi_other : ∀ d, ¬ in_pipes pipes_fd d → file_at t' d = file_at t d;
}.

Lemma make_pipes_spec js : ∀ t, ∃ pipes_fd t', make_pipes ends js t = Done (pipes_fd, t') ∧ piped t t' js pipes_fd.
Proof.
  induction js as [|j js IH]; intros t; cbn [make_pipes].
  { exists [], t. split; [done|]. split; [done|done|done| |done]. intros d (p & Hp & _). by apply not_elem_of_nil in Hp. }
  unfold sys_pipe. pose proof (install_spec t (ends j).1) as Hi. destruct (install t (ends j).1) as [r t1]. destruct Hi as ([Hr _] & H1 & _).
  pose proof (install_spec t1 (ends j).2) as Hi. destruct (install t1 (ends j).2) as [w t2]. destruct Hi as ([Hw _] & H2 & _).
  change (store_fd [0; 0] 0 (Z.of_nat r)) with (Done [Z.of_nat r; 0]). rewrite !outcome_bind_Done.
  change (store_fd [Z.of_nat r; 0] (u64 (0 + 8)) (Z.of_nat w)) with (Done [Z.of_nat r; Z.of_nat w]). rewrite !outcome_bind_Done.
  change (nth_or_panic [Z.of_nat r; Z.of_nat w] 0) with (Done (Z.of_nat r)). change (nth_or_panic [Z.of_nat r; Z.of_nat w] 1) with (Done (Z.of_nat w)).
  rewrite !outcome_bind_Done. destruct (IH t2) as (ps & t' & -> & [Hl Hrg He Hf Ho]). exists ((Z.of_nat r, Z.of_nat w) :: ps), t'. split; [done|].
  assert (Hrw : r ≠ w) by (intros ->; rewrite H1, decide_True in Hw by done; done).
  assert (Hnew : ∀ d, d = r ∨ d = w → ¬ in_pipes ps d).
  { intros d Hd Hin. specialize (Hf d Hin). rewrite H2, H1 in Hf. destruct Hd as [->| ->]; repeat case_decide; done. }
  split.
  - cbn [length]. by rewrite Hl.
  - constructor; [cbn; lia|done].
  - intros [|i] k p; cbn; [|by apply He]. intros [= <-] [= <-]. cbn. rewrite !Nat2Z.id, !Ho by (apply Hnew; auto). rewrite !H2, H1.
    split; [|by rewrite decide_True]. by rewrite decide_False, decide_True.
  - intros d (p & [->|Hp]%elem_of_cons & Hd).
    + cbn in Hd. rewrite !Nat2Z.id in Hd. destruct Hd as [->| ->]; [done|]. by rewrite H1, decide_False in Hw.
    + assert (Hin : in_pipes ps d) by by exists p. specialize (Hf d Hin). rewrite H2, H1 in Hf. by repeat case_decide.
  - intros d Hd. rewrite Ho, H2, H1.
    + rewrite !decide_False; [done|..]; intros ->; apply Hd; eexists; (split; [by left|cbn; rewrite !Nat2Z.id; auto]).
    + intros (p & Hp & Hor). apply Hd. exists p. split; [by right|done].
Qed.

(** The descriptors of the child [i] of [n] when it calls [exec], from those of the shell. *)
Definition wired t (n i : nat) (pa : ProcessArguments) (d : nat) : option F :=
  if decide (d = 0%nat) then
    if decide (i = 0%nat) then if is_empty (input pa) then file_at t 0 else open (input pa) RDONLY
    else Some (ends (i - 1)).1
  else if decide (d = 1%nat) then
    if decide (i = n - 1)%nat then if is_empty (output pa) then file_at t 1 else open (output pa) (Z.lor CREATE WRONLY)
    else Some (ends i).2
  else file_at t d.

Definition openable (pa : ProcessArguments) : Prop :=
  (input pa ≠ [] → is_Some (open (input pa) RDONLY)) ∧ (output pa ≠ [] → is_Some (open (output pa) (Z.lor CREATE WRONLY))).

Lemma move_if_spec (c : bool) t to a b x (src : option (Z * Z)) (sel : Z * Z → Z) : to = 0 ∨ to = 1 →
  file_at t 0 = Some a → file_at t 1 = Some b →
  (c = true → ∃ p, src = Some p ∧ 0 ≤ sel p ∧ sel p ≠ to ∧ file_at t (Z.to_nat (sel p)) = Some x) →
  ∃ t', (if c then t ← close t to; p ← unwrap PUnwrap src; dup_to t (sel p) to else mret t) = Done t' ∧
    ∀ j, file_at t' j = if decide (j = Z.to_nat to ∧ c = true) then Some x else file_at t j.
Proof.
  intros Hto Ha Hb Hc. destruct c.
  - destruct (Hc eq_refl) as (p & -> & H0 & Hne & Hx). destruct (move_spec t (sel p) to x a b) as (t' & E & H); [done..|].
    exists t'. split; [exact E|]. intros j. rewrite H. destruct (decide (j = Z.to_nat to)); [by rewrite decide_True|].
    rewrite decide_False; [done|]. by intros [? _].
  - exists t. split; [done|]. intros j. rewrite decide_False; [done|]. by intros [_ ?].
Qed.

Section child.
Context (t t1 : table) (n i : nat) (pipes_fd : list (Z * Z)) (pa : ProcessArguments) (a b : F) (path : list Z)
  (Hp : piped t t1 (seq 0 (n - 1)) pipes_fd) (Hi : (i < n)%nat) (Ha : file_at t 0 = Some a) (Hb : file_at t 1 = Some b)
  (Hpath : head (args_copy pa) = Some path) (Hopen : openable pa).

(** The ends of the pipe [j]. *)
Lemma pipe_end j : (j < n - 1)%nat → ∃ p, pipes_fd !! j = Some p ∧
  (0 ≤ p.1 ∧ p.1 ≠ 0 ∧ p.1 ≠ 1 ∧ file_at t1 (Z.to_nat p.1) = Some (ends j).1) ∧
  (0 ≤ p.2 ∧ p.2 ≠ 0 ∧ p.2 ≠ 1 ∧ file_at t1 (Z.to_nat p.2) = Some (ends j).2).
Proof.
  intros Hj. destruct (lookup_lt_is_Some_2 pipes_fd j) as [p Hl]; [rewrite (pi_length _ _ _ _ Hp), length_seq; done|].
  exists p. split; [done|]. destruct (pi_ends _ _ _ _ Hp j j p) as [E1 E2]; [by apply lookup_seq; lia|done|].
  destruct (Forall_lookup_1 _ _ _ _ (pi_range _ _ _ _ Hp) Hl) as [H1 H2]. pose proof (list_elem_of_lookup_2 _ _ _ Hl) as Hin.
  assert (Hfree : ∀ e, e = p.1 ∨ e = p.2 → file_at t (Z.to_nat e) = None).
  { intros e He. apply (pi_free _ _ _ _ Hp). exists p. split; [done|]. destruct He as [->| ->]; auto. }
  assert (Hno : ∀ e, e = p.1 ∨ e = p.2 → e ≠ 0 ∧ e ≠ 1).
  { intros e He. specialize (Hfree e He). split; intros ->; [change (Z.to_nat 0) with 0%nat in Hfree|change (Z.to_nat 1) with 1%nat in Hfree]; congruence. }
  destruct (Hno p.1), (Hno p.2); auto.
Qed.

Lemma not_piped d : is_Some (file_at t d) → file_at t1 d = file_at t d.
Proof. intros [f Hf]. apply (pi_other _ _ _ _ Hp). intros Hin. apply (pi_free _ _ _ _ Hp) in Hin. congruence. Qed.

Lemma child_run_spec : ∃ t', child_run open n i pa pipes_fd t1 = Done (Execs path (args_copy pa) t') ∧ ∀ d, file_at t' d = wired t n i pa d.
Proof.
  assert (Ha1 : file_at t1 0 = Some a) by (rewrite not_piped; [done|by exists a]).
  assert (Hb1 : file_at t1 1 = Some b) by (rewrite not_piped; [done|by exists b]).
  destruct Hopen as [Hin Hout]. unfold child_run.
  destruct (redirect_spec t1 (input pa) RDONLY 0 a b) as (t2 & -> & E2); [by left|done..|]. rewrite outcome_bind_Done.
  assert (Ha2 : ∃ a2, file_at t2 0 = Some a2).
  { rewrite E2. case_decide as H; [apply Hin, H|by exists a]. }
  destruct Ha2 as [a2 Ha2]. assert (Hb2 : file_at t2 1 = Some b) by (rewrite E2, decide_False; [done|by intros [? _]]).
  destruct (redirect_spec t2 (output pa) (Z.lor CREATE WRONLY) 1 a2 b) as (t3 & -> & E3); [by right|done..|]. rewrite outcome_bind_Done.
  assert (Ha3 : file_at t3 0 = Some a2) by (rewrite E3, decide_False; [done|by intros [? _]]).
  assert (Hb3 : ∃ b3, file_at t3 1 = Some b3).
  { rewrite E3. case_decide as H; [apply Hout, H|by exists b]. }
  destruct Hb3 as [b3 Hb3].
  assert (E3' : ∀ d, (2 ≤ d)%nat → file_at t3 d = file_at t1 d).
  { intros d Hd. rewrite E3, decide_False, E2, decide_False; [done|intros [? _]; lia..]. }
  destruct (move_if_spec (0 <? i)%nat t3 0 a2 b3 (ends (i - 1)).1 (pipes_fd !! (i - 1)%nat) fst) as (t4 & -> & E4); [by left|done|done| |].
  { intros H. apply Nat.ltb_lt in H. destruct (pipe_end (i - 1)) as (p & -> & (? & ? & ? & He) & _); [lia|]. exists p. split; [done|].
    split; [done|]. split; [done|]. rewrite E3' by lia. done. }
  rewrite outcome_bind_Done.
  assert (Ha4 : ∃ a4, file_at t4 0 = Some a4) by (rewrite E4; case_decide; eauto). destruct Ha4 as [a4 Ha4].
  assert (Hb4 : file_at t4 1 = Some b3) by (rewrite E4, decide_False; [done|by intros [? _]]).
  destruct (move_if_spec (i <? n - 1)%nat t4 1 a4 b3 (ends i).2 (pipes_fd !! i) snd) as (t5 & -> & E5); [by right|done|done| |].
  { intros H. apply Nat.ltb_lt in H. destruct (pipe_end i) as (p & -> & _ & (? & ? & ? & He)); [lia|]. exists p. split; [done|].
    split; [done|]. split; [done|]. rewrite E4, decide_False by (intros [? _]; lia). rewrite E3' by lia. done. }
  rewrite outcome_bind_Done.
  destruct (close_pipes_spec pipes_fd (pi_range _ _ _ _ Hp) t5) as (t6 & -> & E6). rewrite outcome_bind_Done, Hpath. cbn [unwrap].
  rewrite outcome_bind_Done. exists t6. split; [done|]. intros d. rewrite E6, E5, E4, E3, E2. unfold wired.
  change (Z.to_nat 0) with 0%nat. change (Z.to_nat 1) with 1%nat.
  destruct (decide (d = 0%nat)) as [->|H0].
  { rewrite decide_False by (intros Hd%(pi_free _ _ _ _ Hp); congruence). rewrite (decide_False (P := 0%nat = 1%nat ∧ _)) by (by intros [? _]).
    destruct (Nat.ltb_spec 0 i); [rewrite decide_True by done; by rewrite decide_False by lia|].
    rewrite (decide_False (P := 0%nat = 0%nat ∧ false = true)) by (by intros [_ ?]). rewrite decide_False by (by intros [? _]).
    rewrite (decide_True (P := i = 0%nat)) by lia. destruct (input pa); cbn [is_empty]; [rewrite decide_False by (by intros [_ ?]); congruence|by rewrite decide_True]. }
  destruct (decide (d = 1%nat)) as [->|H1].
  { rewrite decide_False by (intros Hd%(pi_free _ _ _ _ Hp); congruence).
    destruct (Nat.ltb_spec i (n - 1)); [rewrite decide_True by done; by rewrite decide_False by lia|].
    rewrite (decide_False (P := 1%nat = 1%nat ∧ false = true)) by (by intros [_ ?]). rewrite (decide_False (P := 1%nat = 0%nat ∧ _)) by (by intros [? _]).
    rewrite (decide_False (P := 1%nat = 0%nat ∧ _)) by (by intros [? _]).
    rewrite (decide_True (P := i = (n - 1)%nat)) by lia. destruct (output pa); cbn [is_empty]; [rewrite decide_False by (by intros [_ ?]); congruence|by rewrite decide_True]. }
  assert (N0 : ∀ Q, ¬ (d = 0%nat ∧ Q)) by (by intros Q [? _]). assert (N1 : ∀ Q, ¬ (d = 1%nat ∧ Q)) by (by intros Q [? _]).
  do 2 rewrite (decide_False (P := d = 1%nat ∧ _)) by apply N1. do 2 rewrite (decide_False (P := d = 0%nat ∧ _)) by apply N0.
  destruct (decide (in_pipes pipes_fd d)) as [Hd|Hd]; [symmetry; by apply (pi_free _ _ _ _ Hp)|]. by apply (pi_other _ _ _ _ Hp).
Qed.
End child.

(** Making the pipes and closing them again leaves a table with the same files. *)
Lemma pipes_closed t t1 js pipes_fd : piped t t1 js pipes_fd →
  ∃ t2, close_pipes pipes_fd t1 = Done t2 ∧ ∀ d, file_at t2 d = file_at t d.
Proof.
  intros Hp. destruct (close_pipes_spec pipes_fd (pi_range _ _ _ _ Hp) t1) as (t2 & -> & E). exists t2. split; [done|].
  intros d. rewrite E. case_decide as Hd; [symmetry; by apply (pi_free _ _ _ _ Hp)|]. by apply (pi_other _ _ _ _ Hp).
Qed.

(** A pipe's ends are new files: the shell has neither, and opens neither. *)
Definition new_ends t (n : nat) : Prop :=
  (∀ j k, (j < n - 1)%nat → (k < n - 1)%nat → (ends j).1 ≠ (ends k).2 ∧ ((ends j).1 = (ends k).1 → j = k) ∧ ((ends j).2 = (ends k).2 → j = k)) ∧
  (∀ j d, (j < n - 1)%nat → file_at t d ≠ Some (ends j).1 ∧ file_at t d ≠ Some (ends j).2) ∧
  (∀ j p flags, (j < n - 1)%nat → open p flags ≠ Some (ends j).1 ∧ open p flags ≠ Some (ends j).2).

Lemma wired_ends t n i pa j d : new_ends t n → (i < n)%nat → (j < n - 1)%nat →
  (wired t n i pa d = Some (ends j).1 ↔ i = S j ∧ d = 0%nat) ∧ (wired t n i pa d = Some (ends j).2 ↔ i = j ∧ d = 1%nat).
Proof.
  intros (Hd & Ht & Ho) Hi Hj. unfold wired. repeat case_decide; subst.
  - destruct (Ht j 0%nat Hj), (Ho j (input pa) RDONLY Hj). destruct (is_empty (input pa)); split; (split; [done|intros [? ?]; lia]).
  - destruct (Hd (i - 1)%nat j) as (Hne & Heq & _); [lia|done|]. split; split; [intros [= E]; specialize (Heq E); lia|intros [-> _]; do 2 f_equal; f_equal; lia|congruence|lia].
  - destruct (Ht j 1%nat Hj), (Ho j (output pa) (Z.lor CREATE WRONLY) Hj). destruct (is_empty (output pa)); split; (split; [done|intros [? ?]; lia]).
  - destruct (Hd i j) as (_ & _ & Heq); [lia|done|]. destruct (Hd j i) as (Hne & _); [done|lia|].
    split; split; [congruence|lia|intros [= E]; by rewrite (Heq E)|by intros [-> _]].
  - destruct (Ht j d Hj). split; (split; [done|intros [? ?]; lia]).
Qed.

(** C13. A pipeline is connected as it is written.  When the files it names can be opened, each child
    calls [exec] with its words and with descriptor 0 the read end of the pipe from the command
    before it (for the first one its input file, or the shell's own input), descriptor 1 the
    write end of the pipe to the next one (for the last its output file, or the shell's own
    output), and all other descriptors those of the shell.  No child keeps any other end of a
    pipe, nor does the shell, so that a reader sees the end of its input when the command before
    it is gone. *)
Theorem pipeline_connected l t : is_Some (file_at t 0) → is_Some (file_at t 1) →
  Forall (λ pa, args_copy pa ≠ [] ∧ openable pa) l →
  ∃ children t', run_commands open ends l t = Done (children, t') ∧ (∀ d, file_at t' d = file_at t d) ∧ length children = length l ∧
    ∀ i pa, l !! i = Some pa → ∃ path ti, head (args_copy pa) = Some path ∧
      children !! i = Some (Done (Execs path (args_copy pa) ti)) ∧ (∀ d, file_at ti d = wired t (length l) i pa d) ∧
      (new_ends t (length l) → ∀ j d, (j < length l - 1)%nat →
         (file_at ti d = Some (ends j).1 ↔ i = S j ∧ d = 0%nat) ∧ (file_at ti d = Some (ends j).2 ↔ i = j ∧ d = 1%nat)).
Proof.
  intros [a Ha] [b Hb] Hl. unfold run_commands. destruct (make_pipes_spec (seq 0 (length l - 1)) t) as (ps & t1 & -> & Hp).
  rewrite outcome_bind_Done. cbv beta iota. destruct (pipes_closed _ _ _ _ Hp) as (t2 & -> & E2). rewrite outcome_bind_Done.
  eexists _, t2. split; [done|]. split; [done|]. split; [by rewrite length_imap|]. intros i pa Hi.
  destruct (Forall_lookup_1 _ _ _ _ Hl Hi) as [Hne Ho]. destruct (args_copy pa) as [|path args] eqn:Eargs; [done|].
  destruct (child_run_spec t t1 (length l) i ps pa a b path Hp (lookup_lt_Some _ _ _ Hi) Ha Hb) as (ti & Er & Hw); [by rewrite Eargs|done|].
  exists path, ti. split; [done|]. split; [rewrite list_lookup_imap, Hi; cbn; by rewrite Er, Eargs|]. split; [done|].
  intros Hnew j d Hj. rewrite Hw. by apply wired_ends; [|eapply lookup_lt_Some|].
Qed.
End wiring.

(** ** Witnesses *)

Lemma command_line_roundtrip_witness :
  let cat := [99; 97; 116] in let inp := [105; 110] in let wc := [119; 99] in
  parse_line (bars [cat ++ [32; 60; 32; 32] ++ inp ++ [32]; [32] ++ wc]) =
    Done [mkProcessArguments (inp ++ [0]) [] [cat ++ [0]]; mkProcessArguments [] [] [wc ++ [0]]].
Proof.
  intros cat inp wc. apply (command_line_roundtrip _ [mkCommand [cat] (Some inp) None; mkCommand [wc] None None]); [done|].
  assert (Hno : ∀ l : list Z, bool_decide (32 ∉ l) = true → 32 ∉ l) by (intros l; apply bool_decide_eq_true_1).
  constructor; [|constructor; [|constructor]].
  - split; [|split].
    + apply (sp_word 0 cat ([32; 60; 32; 32] ++ inp ++ [32])); [done|by apply Hno|by right|].
      apply (sp_word 1 [60] ([32; 32] ++ inp ++ [32])); [done|by apply Hno|by right|].
      apply (sp_word 2 inp [32]); [done|by apply Hno|by right|]. apply (sp_end 1).
    + split; [by repeat constructor|]. split; [intros f [= <-]; by split|intros f [=]].
    + by apply (bool_decide_eq_true_1 (124 ∉ _)).
  - split; [|split].
    + apply (sp_word 1 wc []); [done|by apply Hno|by left|]. apply (sp_end 0).
    + split; [by repeat constructor|]. split; intros f [=].
    + by apply (bool_decide_eq_true_1 (124 ∉ _)).
Defined.

Lemma pipeline_connected_witness :
  let ends := λ j : nat, (100 + j, 200 + j)%nat in
  let open := λ (p : list Z) (flags : Z), if is_empty p then None else Some 50%nat in
  let l := [mkProcessArguments [105; 0] [] [[99; 0]]; mkProcessArguments [] [] [[119; 0]]] in
  ∃ children t' ti, run_commands open ends l [Some 0%nat; Some 1%nat; Some 2%nat] = Done (children, t') ∧
    children !! 1%nat = Some (Done (Execs [119; 0] [[119; 0]] ti)) ∧ file_at ti 0 = Some 100%nat ∧ file_at ti 1 = Some 1%nat ∧ file_at ti 3 = None.
Proof.
  intros ends open l. destruct (pipeline_connected open ends l [Some 0%nat; Some 1%nat; Some 2%nat]) as (children & t' & Hr & _ & _ & Hc).
  - by exists 0%nat.
  - by exists 1%nat.
  - repeat constructor; cbn; done.
  - destruct (Hc 1%nat _ eq_refl) as (path & ti & [= <-] & Hi & Hw & _). exists children, t', ti. split; [exact Hr|]. split; [exact Hi|].
    by rewrite !Hw.
Defined.
