(* ===== verification/UserMem.v ===== *)
(** * UserMem.v: words and bytes behind references into user memory

    [translated_refmut] gives a reference to an object at a physical address; [store_phys] and
    [load_phys] assign and read the bytes of the object.  Addresses here are physical numbers, and
    the frames of a multi-byte object follow each other as its bytes do. *)

From S2P Require Import Prelude Bytes Address FrameAlloc PageTable UserIo.

Definition phys_place (a : PhysAddr) : place := (PhysAddr_floor a, PhysAddr_page_offset a).

(** [*r = v] and [*r] for a reference to [n] bytes at a physical address. *)
Fixpoint store_phys (m : memory) (a : Z) (bs : list Z) : outcome memory :=
  match bs with
  | [] => mret m
  | b :: bs => m ← store_place m (phys_place (PA a)) b; store_phys m (a + 1) bs
  end.

Fixpoint load_phys (m : memory) (a : Z) (n : nat) : outcome (list Z) :=
  match n with
  | O => mret []
  | S n => b ← load_place m (phys_place (PA a)); bs ← load_phys m (a + 1) n; mret (b :: bs)
  end.

Definition store_u64 (m : memory) (a : PhysAddr) (v : Z) : outcome memory := store_phys m (pa a) (le_bytes 8 v).
Definition load_u64 (m : memory) (a : PhysAddr) : outcome Z := bs ← load_phys m (pa a) 8; mret (le_value bs).
Definition store_i32 (m : memory) (a : PhysAddr) (v : Z) : outcome memory := store_phys m (pa a) (le_bytes 4 (u32 v)).
Definition store_u8 (m : memory) (a : PhysAddr) (v : Z) : outcome memory := store_phys m (pa a) [v].

(** [*translated_refmut(token, p) = v] for a byte. *)
Definition put_user_byte (m : memory) (token p v : Z) : outcome memory :=
  a ← translated_refmut m token p; store_u8 m a v.

(** ** What they do *)

Lemma phys_place_inj x y : 0 ≤ x → 0 ≤ y → phys_place (PA x) = phys_place (PA y) → x = y.
Proof.
  intros Hx Hy. unfold phys_place, PhysAddr_floor, PhysAddr_page_offset. cbn [pa]. intros [= E1 E2].
  change PAGE_SIZE with 4096 in *. change (4096 - 1) with (Z.ones 12) in E2. rewrite !Z.land_ones in E2 by lia. change (2 ^ 12) with 4096 in E2. dlia.
Qed.

(** The bytes of an object can be accessed. *)
Definition object_ok (m : memory) (a n : Z) : Prop := 0 ≤ a ∧ ∀ i, 0 ≤ i < n → place_ok m (phys_place (PA (a + i))).

Lemma store_phys_spec bs : ∀ m a, object_ok m a (zlen bs) → ∃ m', store_phys m a bs = Done m' ∧
  (∀ i b, bs !! i = Some b → byte_at m' (phys_place (PA (a + Z.of_nat i))) = Some b) ∧
  (∀ pl, (∀ i, 0 ≤ i < zlen bs → pl ≠ phys_place (PA (a + i))) → byte_at m' pl = byte_at m pl) ∧
  (∀ pl, place_ok m pl → place_ok m' pl).
Proof.
  unfold zlen. induction bs as [|b bs IH]; intros m a [Ha Hok]; cbn [store_phys length] in *; [by exists m|].
  destruct (store_place_spec m (phys_place (PA a)) b) as (m1 & H1 & Hb & Ho & Hk); [rewrite <- (Z.add_0_r a); apply Hok; lia|].
  destruct (IH m1 (a + 1)) as (m2 & H2 & Hb2 & Ho2 & Hk2).
  { split; [lia|]. intros i Hi. apply Hk. replace (a + 1 + i) with (a + (1 + i)) by lia. apply Hok. lia. }
  exists m2. rewrite H1, outcome_bind_Done. split; [done|]. split; [|split; [|by auto]].
  - intros [|i] x Hx; cbn in Hx.
    + injection Hx as <-. rewrite Z.add_0_r, Ho2; [done|]. intros i Hi E. apply phys_place_inj in E; lia.
    + replace (a + Z.of_nat (S i)) with (a + 1 + Z.of_nat i) by lia. by apply Hb2.
  - intros pl Hpl. rewrite Ho2, Ho; [done| |].
    + rewrite <- (Z.add_0_r a). apply Hpl. lia.
    + intros i Hi. replace (a + 1 + i) with (a + (1 + i)) by lia. apply Hpl. lia.
Qed.

(** Reading the bytes that are there. *)
Lemma load_phys_spec n : ∀ m a bs, 0 ≤ a → length bs = n →
  (∀ i b, bs !! i = Some b → byte_at m (phys_place (PA (a + Z.of_nat i))) = Some b) → load_phys m a n = Done bs.
Proof.
  induction n as [|n IH]; intros m a [|b bs] Ha Hl Hb; cbn in Hl; try done. cbn [load_phys].
  pose proof (Hb 0%nat b eq_refl) as H0. rewrite Z.add_0_r in H0. unfold byte_at in H0. unfold load_place.
  destruct (m !! (phys_place (PA a)).1) as [pg|]; [|done]. cbn [mbind option_bind unwrap] in *. rewrite outcome_bind_Done.
  unfold nth_or_panic. destruct (Z.leb_spec 0 (phys_place (PA a)).2); [|done]. destruct (Z.ltb_spec (phys_place (PA a)).2 0); [lia|].
  rewrite H0. cbn [unwrap]. rewrite outcome_bind_Done, (IH m (a + 1) bs); [done|lia|lia|].
  intros i x Hx. replace (a + 1 + Z.of_nat i) with (a + Z.of_nat (S i)) by lia. by apply Hb.
Qed.
