(* ===== verification/Abi.v ===== *)
(** * Abi.v: the system call dispatch ([os/src/syscall/mod.rs], the call in [trap/mod.rs])

    A [Handler] is a call of one of the kernel's [sys_] functions with its arguments as that
    function receives them; what the functions do is in the files of their components. *)

From S2P Require Import Prelude Address Signals.

Definition SYSCALL_DUP : Z := 24.
Definition SYSCALL_OPEN : Z := 56.
Definition SYSCALL_CLOSE : Z := 57.
Definition SYSCALL_PIPE : Z := 59.
Definition SYSCALL_READ : Z := 63.
Definition SYSCALL_WRITE : Z := 64.
Definition SYSCALL_GETCWD : Z := 79.
Definition SYSCALL_CHDIR : Z := 80.
Definition SYSCALL_EXIT : Z := 93.
Definition SYSCALL_SLEEP : Z := 101.
Definition SYSCALL_YIELD : Z := 124.
Definition SYSCALL_KILL : Z := 129.
Definition SYSCALL_SIGACTION : Z := 134.
Definition SYSCALL_SIGPROCMASK : Z := 135.
Definition SYSCALL_SIGRETURN : Z := 139.
Definition SYSCALL_REBOOT : Z := 142.
Definition SYSCALL_GET_TIME : Z := 169.
Definition SYSCALL_GETPID : Z := 172.
Definition SYSCALL_FORK : Z := 220.
Definition SYSCALL_EXEC : Z := 221.
Definition SYSCALL_WAITPID : Z := 260.
Definition SYSCALL_EVENTFD : Z := 290.
Definition SYSCALL_LIST_APPS : Z := 999.
Definition SYSCALL_THREAD_CREATE : Z := 1000.
Definition SYSCALL_GETTID : Z := 1001.
Definition SYSCALL_WAITTID : Z := 1002.
Definition SYSCALL_MUTEX_CREATE : Z := 1010.
Definition SYSCALL_MUTEX_LOCK : Z := 1011.
Definition SYSCALL_MUTEX_UNLOCK : Z := 1012.
Definition SYSCALL_SEMAPHORE_CREATE : Z := 1020.
Definition SYSCALL_SEMAPHORE_UP : Z := 1021.
Definition SYSCALL_SEMAPHORE_DOWN : Z := 1022.
Definition SYSCALL_CONDVAR_CREATE : Z := 1030.
Definition SYSCALL_CONDVAR_SIGNAL : Z := 1031.
Definition SYSCALL_CONDVAR_WAIT : Z := 1032.
Definition SYSCALL_CONDVAR_SIGNAL_ALL : Z := 1033.
Definition SYSCALL_FRAMEBUFFER : Z := 2000.
Definition SYSCALL_FRAMEBUFFER_FLUSH : Z := 2001.
Definition SYSCALL_EVENT_GET : Z := 3000.
Definition SYSCALL_KEY_PRESSED : Z := 3001.

Inductive Handler : Type :=
| K_sys_dup (fd : Z)
| K_sys_open (path : Z) (flags : Z)
| K_sys_close (fd : Z)
| K_sys_pipe (pipe : Z)
| K_sys_read (fd : Z) (buf : Z) (len : Z)
| K_sys_write (fd : Z) (buf : Z) (len : Z)
| K_sys_exit (exit_code : Z)
| K_sys_sleep (ms : Z)
| K_sys_yield
| K_sys_kill (pid : Z) (signum : Z)
| K_sys_sigaction (signum : Z) (action : Z) (old_action : Z)
| K_sys_sigprocmask (mask : Z)
| K_sys_sigreturn
| K_sys_getcwd
| K_sys_chdir (path : Z)
| K_sys_get_time
| K_sys_getpid
| K_sys_shutdown
| K_sys_fork
| K_sys_exec (path : Z) (args : Z)
| K_sys_waitpid (pid : Z) (exit_code_ptr : Z)
| K_sys_list_apps
| K_sys_thread_create (entry : Z) (arg : Z)
| K_sys_gettid
| K_sys_waittid (tid : Z)
| K_sys_mutex_create (blocking : bool)
| K_sys_mutex_lock (id : Z)
| K_sys_mutex_unlock (id : Z)
| K_sys_semaphore_create (res_count : Z)
| K_sys_semaphore_up (id : Z)
| K_sys_semaphore_down (id : Z)
| K_sys_condvar_create
| K_sys_condvar_signal (id : Z)
| K_sys_condvar_wait (condvar_id : Z) (mutex_id : Z)
| K_sys_condvar_signal_all (id : Z)
| K_sys_eventfd (initval : Z) (flags : Z)
| K_sys_framebuffer
| K_sys_framebuffer_flush
| K_sys_event_get
| K_sys_key_pressed.

(** [syscall(syscall_id, args)] *)
Definition syscall (syscall_id a0 a1 a2 : Z) : outcome Handler :=
  if syscall_id =? SYSCALL_DUP then mret (K_sys_dup a0)
  else if syscall_id =? SYSCALL_OPEN then mret (K_sys_open a0 (u32 a1))
  else if syscall_id =? SYSCALL_CLOSE then mret (K_sys_close a0)
  else if syscall_id =? SYSCALL_PIPE then mret (K_sys_pipe a0)
  else if syscall_id =? SYSCALL_READ then mret (K_sys_read a0 a1 a2)
  else if syscall_id =? SYSCALL_WRITE then mret (K_sys_write a0 a1 a2)
  else if syscall_id =? SYSCALL_EXIT then mret (K_sys_exit (i32 a0))
  else if syscall_id =? SYSCALL_SLEEP then mret (K_sys_sleep a0)
  else if syscall_id =? SYSCALL_YIELD then mret K_sys_yield
  else if syscall_id =? SYSCALL_KILL then mret (K_sys_kill a0 (i32 a1))
  else if syscall_id =? SYSCALL_SIGACTION then mret (K_sys_sigaction (i32 a0) a1 a2)
  else if syscall_id =? SYSCALL_SIGPROCMASK then mret (K_sys_sigprocmask (u32 a0))
  else if syscall_id =? SYSCALL_SIGRETURN then mret K_sys_sigreturn
  else if syscall_id =? SYSCALL_GETCWD then mret K_sys_getcwd
  else if syscall_id =? SYSCALL_CHDIR then mret (K_sys_chdir a0)
  else if syscall_id =? SYSCALL_GET_TIME then mret K_sys_get_time
  else if syscall_id =? SYSCALL_GETPID then mret K_sys_getpid
  else if syscall_id =? SYSCALL_REBOOT then mret K_sys_shutdown
  else if syscall_id =? SYSCALL_FORK then mret K_sys_fork
  else if syscall_id =? SYSCALL_EXEC then mret (K_sys_exec a0 a1)
  else if syscall_id =? SYSCALL_WAITPID then mret (K_sys_waitpid (i64 a0) a1)
  else if syscall_id =? SYSCALL_LIST_APPS then mret K_sys_list_apps
  else if syscall_id =? SYSCALL_THREAD_CREATE then mret (K_sys_thread_create a0 a1)
  else if syscall_id =? SYSCALL_GETTID then mret K_sys_gettid
  else if syscall_id =? SYSCALL_WAITTID then mret (K_sys_waittid a0)
  else if syscall_id =? SYSCALL_MUTEX_CREATE then mret (K_sys_mutex_create (a0 =? 1))
  else if syscall_id =? SYSCALL_MUTEX_LOCK then mret (K_sys_mutex_lock a0)
  else if syscall_id =? SYSCALL_MUTEX_UNLOCK then mret (K_sys_mutex_unlock a0)
  else if syscall_id =? SYSCALL_SEMAPHORE_CREATE then mret (K_sys_semaphore_create a0)
  else if syscall_id =? SYSCALL_SEMAPHORE_UP then mret (K_sys_semaphore_up a0)
  else if syscall_id =? SYSCALL_SEMAPHORE_DOWN then mret (K_sys_semaphore_down a0)
  else if syscall_id =? SYSCALL_CONDVAR_CREATE then mret K_sys_condvar_create
  else if syscall_id =? SYSCALL_CONDVAR_SIGNAL then mret (K_sys_condvar_signal a0)
  else if syscall_id =? SYSCALL_CONDVAR_WAIT then mret (K_sys_condvar_wait a0 a1)
  else if syscall_id =? SYSCALL_CONDVAR_SIGNAL_ALL then mret (K_sys_condvar_signal_all a0)
  else if syscall_id =? SYSCALL_EVENTFD then mret (K_sys_eventfd (u32 a0) (u32 a1))
  else if syscall_id =? SYSCALL_FRAMEBUFFER then mret K_sys_framebuffer
  else if syscall_id =? SYSCALL_FRAMEBUFFER_FLUSH then mret K_sys_framebuffer_flush
  else if syscall_id =? SYSCALL_EVENT_GET then mret K_sys_event_get
  else if syscall_id =? SYSCALL_KEY_PRESSED then mret K_sys_key_pressed
  else Panicked PExplicit.

(** The call in [trap_handler]: the number in register 17, the arguments in 10 to 12. *)
Definition trap_syscall (cx : TrapContext) : outcome Handler :=
  id ← nth_or_panic (tc_x cx) 17;
  a0 ← nth_or_panic (tc_x cx) 10;
  a1 ← nth_or_panic (tc_x cx) 11;
  a2 ← nth_or_panic (tc_x cx) 12;
  syscall id a0 a1 a2.

(** The branch of [trap_handler] for an [ecall], with [handle] for the calls: the result goes to the
    context as the call has left it. *)
Definition trap_ecall (handle : Handler → SigState → outcome (Z * SigState)) (s : SigState) : outcome SigState :=
  let s := ecall_enter s in
  h ← trap_syscall (trap_cx s);
  '(result, s) ← handle h s;
  mret (ecall_leave s result).
