(* ===== verification/UserLib.v ===== *)
(** * UserLib.v: the user library ([user/src/syscall.rs], [user/src/lib.rs])

    A wrapper is the [ecall] it makes: the number and the three argument registers.  A slice or a
    string is its pointer and its length.  The loops of [wait], [waitpid] and [waittid] run on the
    results the kernel gives, one per round. *)

From S2P Require Import Prelude Address Signals Abi.

Definition SYSCALL_DUP : Z := 24.
Definition SYSCALL_OPEN : Z := 56.
Definition SYSCALL_CLOSE : Z := 57.
Definition SYSCALL_PIPE : Z := 59.
Definition SYSCALL_READ : Z := 63.
Definition SYSCALL_WRITE : Z := 64.
Definition SYSCALL_GET_CWD : Z := 79.
Definition SYSCALL_CHDIR : Z := 80.
Definition SYSCALL_EXIT : Z := 93.
Definition SYSCALL_SLEEP : Z := 101.
Definition SYSCALL_YIELD : Z := 124.
Definition SYSCALL_KILL : Z := 129.
Definition SYSCALL_SIGACTION : Z := 134.
Definition SYSCALL_SIGPROCMASK : Z := 135.
Definition SYSCALL_SIGRETURN : Z := 139.
Definition SYSCALL_REBOOT : Z := 142.
Definition SYSCALL_GET_TIME : Z := 169.
Definition SYSCALL_GETPID : Z := 172.
Definition SYSCALL_FORK : Z := 220.
Definition SYSCALL_EXEC : Z := 221.
Definition SYSCALL_WAITPID : Z := 260.
Definition SYSCALL_EVENTFD : Z := 290.
Definition SYSCALL_LIST_APPS : Z := 999.
Definition SYSCALL_THREAD_CREATE : Z := 1000.
Definition SYSCALL_GETTID : Z := 1001.
Definition SYSCALL_WAITTID : Z := 1002.
Definition SYSCALL_MUTEX_CREATE : Z := 1010.
Definition SYSCALL_MUTEX_LOCK : Z := 1011.
Definition SYSCALL_MUTEX_UNLOCK : Z := 1012.
Definition SYSCALL_SEMAPHORE_CREATE : Z := 1020.
Definition SYSCALL_SEMAPHORE_UP : Z := 1021.
Definition SYSCALL_SEMAPHORE_DOWN : Z := 1022.
Definition SYSCALL_CONDVAR_CREATE : Z := 1030.
Definition SYSCALL_CONDVAR_SIGNAL : Z := 1031.
Definition SYSCALL_CONDVAR_WAIT : Z := 1032.
Definition SYSCALL_CONDVAR_SIGNAL_ALL : Z := 1033.
Definition SYSCALL_FRAMEBUFFER : Z := 2000.
Definition SYSCALL_FRAMEBUFFER_FLUSH : Z := 2001.
Definition SYSCALL_EVENT_GET : Z := 3000.
Definition SYSCALL_KEY_PRESSED : Z := 3001.

Record slice : Type := mkSlice {
  sl_ptr : Z;
  sl_len : Z;
}.

(** The registers an [ecall] is made with. *)
Record Ecall : Type := mkEcall {
  ec_id : Z;
  ec_x10 : Z;
  ec_x11 : Z;
  ec_x12 : Z;
}.

Definition ecall (id a0 a1 a2 : Z) : Ecall := mkEcall id a0 a1 a2.

(** ** [syscall.rs] *)

Definition sys_dup (fd : Z) : Ecall := ecall SYSCALL_DUP fd 0 0.
Definition sys_open (path : slice) (flags : Z) : Ecall := ecall SYSCALL_OPEN (sl_ptr path) flags 0.
Definition sys_close (fd : Z) : Ecall := ecall SYSCALL_CLOSE fd 0 0.
Definition sys_pipe (pipe : slice) : Ecall := ecall SYSCALL_PIPE (sl_ptr pipe) 0 0.
Definition sys_read (fd : Z) (buffer : slice) : Ecall := ecall SYSCALL_READ fd (sl_ptr buffer) (sl_len buffer).
Definition sys_write (fd : Z) (buffer : slice) : Ecall := ecall SYSCALL_WRITE fd (sl_ptr buffer) (sl_len buffer).
Definition sys_exit (exit_code : Z) : Ecall := ecall SYSCALL_EXIT (u64 exit_code) 0 0.
Definition sys_sleep (sleep_ms : Z) : Ecall := ecall SYSCALL_SLEEP sleep_ms 0 0.
Definition sys_yield : Ecall := ecall SYSCALL_YIELD 0 0 0.
Definition sys_get_cwd : Ecall := ecall SYSCALL_GET_CWD 0 0 0.
Definition sys_kill (pid : Z) (signal : Z) : Ecall := ecall SYSCALL_KILL pid (u64 signal) 0.
Definition sys_get_time : Ecall := ecall SYSCALL_GET_TIME 0 0 0.
Definition sys_getpid : Ecall := ecall SYSCALL_GETPID 0 0 0.
Definition sys_fork : Ecall := ecall SYSCALL_FORK 0 0 0.
Definition sys_exec (path : slice) (args : slice) : Ecall := ecall SYSCALL_EXEC (sl_ptr path) (sl_ptr args) 0.
Definition sys_chdir (path : slice) : Ecall := ecall SYSCALL_CHDIR (sl_ptr path) 0 0.
Definition sys_waitpid (pid : Z) (exit_code : Z) : Ecall := ecall SYSCALL_WAITPID (u64 pid) exit_code 0.
Definition sys_sigaction (signum : Z) (action : Z) (old_action : Z) : Ecall := ecall SYSCALL_SIGACTION (u64 signum) action old_action.
Definition sys_sigprocmask (mask : Z) : Ecall := ecall SYSCALL_SIGPROCMASK mask 0 0.
Definition sys_sigreturn : Ecall := ecall SYSCALL_SIGRETURN 0 0 0.
Definition sys_shutdown : Ecall := ecall SYSCALL_REBOOT 0 0 0.
Definition sys_list_apps : Ecall := ecall SYSCALL_LIST_APPS 0 0 0.
Definition sys_thread_create (entry : Z) (arg : Z) : Ecall := ecall SYSCALL_THREAD_CREATE entry arg 0.
Definition sys_gettid : Ecall := ecall SYSCALL_GETTID 0 0 0.
Definition sys_waittid (tid : Z) : Ecall := ecall SYSCALL_WAITTID tid 0 0.
Definition sys_mutex_create (blocking : bool) : Ecall := ecall SYSCALL_MUTEX_CREATE (Z.b2z blocking) 0 0.
Definition sys_mutex_lock (id : Z) : Ecall := ecall SYSCALL_MUTEX_LOCK id 0 0.
Definition sys_mutex_unlock (id : Z) : Ecall := ecall SYSCALL_MUTEX_UNLOCK id 0 0.
Definition sys_semaphore_create (res_count : Z) : Ecall := ecall SYSCALL_SEMAPHORE_CREATE res_count 0 0.
Definition sys_semaphore_up (sem_id : Z) : Ecall := ecall SYSCALL_SEMAPHORE_UP sem_id 0 0.
Definition sys_semaphore_down (sem_id : Z) : Ecall := ecall SYSCALL_SEMAPHORE_DOWN sem_id 0 0.
Definition sys_condvar_create : Ecall := ecall SYSCALL_CONDVAR_CREATE 0 0 0.
Definition sys_condvar_signal (condvar_id : Z) : Ecall := ecall SYSCALL_CONDVAR_SIGNAL condvar_id 0 0.
Definition sys_condvar_wait (condvar_id : Z) (mutex_id : Z) : Ecall := ecall SYSCALL_CONDVAR_WAIT condvar_id mutex_id 0.
Definition sys_condvar_signal_all (condvar_id : Z) : Ecall := ecall SYSCALL_CONDVAR_SIGNAL_ALL condvar_id 0 0.
Definition sys_eventfd (initval : Z) (flags : Z) : Ecall := ecall SYSCALL_EVENTFD initval flags 0.
Definition sys_framebuffer : Ecall := ecall SYSCALL_FRAMEBUFFER 0 0 0.
Definition sys_framebuffer_flush : Ecall := ecall SYSCALL_FRAMEBUFFER_FLUSH 0 0 0.
Definition sys_event_get : Ecall := ecall SYSCALL_EVENT_GET 0 0 0.
Definition sys_key_pressed : Ecall := ecall SYSCALL_KEY_PRESSED 0 0 0.

(** ** [lib.rs]; [sigaction] passes a null pointer for [None] *)

Definition dup (fd : Z) : Ecall := sys_dup fd.
Definition open (path : slice) (flags : Z) : Ecall := sys_open path flags.
Definition close (fd : Z) : Ecall := sys_close fd.
Definition pipe (pipe_fd : slice) : Ecall := sys_pipe pipe_fd.
Definition read (fd : Z) (buf : slice) : Ecall := sys_read fd buf.
Definition write (fd : Z) (buf : slice) : Ecall := sys_write fd buf.
Definition exit (exit_code : Z) : Ecall := sys_exit exit_code.
Definition yield_ : Ecall := sys_yield.
Definition get_time : Ecall := sys_get_time.
Definition getpid : Ecall := sys_getpid.
Definition get_cwd : Ecall := sys_get_cwd.
Definition chdir (path : slice) : Ecall := sys_chdir path.
Definition fork : Ecall := sys_fork.
Definition exec (path : slice) (args : slice) : Ecall := sys_exec path args.
Definition sleep (sleep_ms : Z) : Ecall := sys_sleep sleep_ms.
Definition thread_create (entry : Z) (arg : Z) : Ecall := sys_thread_create entry arg.
Definition gettid : Ecall := sys_gettid.
Definition shutdown : Ecall := sys_shutdown.
Definition list_apps : Ecall := sys_list_apps.
Definition kill (pid : Z) (signum : Z) : Ecall := sys_kill pid signum.
Definition sigaction (signum : Z) (action : option Z) (old_action : option Z) : Ecall := sys_sigaction signum (default 0 action) (default 0 old_action).
Definition sigprocmask (mask : Z) : Ecall := sys_sigprocmask mask.
Definition sigreturn : Ecall := sys_sigreturn.
Definition mutex_create : Ecall := sys_mutex_create false.
Definition mutex_blocking_create : Ecall := sys_mutex_create true.
Definition mutex_lock (mutex_id : Z) : Ecall := sys_mutex_lock mutex_id.
Definition mutex_unlock (mutex_id : Z) : Ecall := sys_mutex_unlock mutex_id.
Definition semaphore_create (res_count : Z) : Ecall := sys_semaphore_create res_count.
Definition semaphore_up (sem_id : Z) : Ecall := sys_semaphore_up sem_id.
Definition semaphore_down (sem_id : Z) : Ecall := sys_semaphore_down sem_id.
Definition condvar_create : Ecall := sys_condvar_create.
Definition condvar_signal (condvar_id : Z) : Ecall := sys_condvar_signal condvar_id.
Definition condvar_wait (condvar_id : Z) (mutex_id : Z) : Ecall := sys_condvar_wait condvar_id mutex_id.
Definition condvar_signal_all (condvar_id : Z) : Ecall := sys_condvar_signal_all condvar_id.
Definition eventfd (initval : Z) (flags : Z) : Ecall := sys_eventfd initval flags.

(** The round of [wait] and [waitpid] (and of [waittid]) on one result: -2 yields and goes on. *)
Fixpoint wait_loop (results : list Z) : option Z :=
  match results with
  | [] => None
  | exit_pid :: results => if exit_pid =? -2 then wait_loop results else Some exit_pid
  end.

Definition wait (results : list Z) : option Z := wait_loop results.
Definition waitpid (results : list Z) : option Z := wait_loop results.
Definition waittid (results : list Z) : option Z := wait_loop results.

(** ** The calls a program can make, and the kernel's call each of them stands for *)

Inductive UserCall : Type :=
| U_dup (fd : Z)
| U_open (path : slice) (flags : Z)
| U_close (fd : Z)
| U_pipe (pipe_fd : slice)
| U_read (fd : Z) (buf : slice)
| U_write (fd : Z) (buf : slice)
| U_exit (exit_code : Z)
| U_yield_
| U_get_time
| U_getpid
| U_get_cwd
| U_chdir (path : slice)
| U_fork
| U_exec (path : slice) (args : slice)
| U_sleep (sleep_ms : Z)
| U_thread_create (entry : Z) (arg : Z)
| U_gettid
| U_shutdown
| U_list_apps
| U_kill (pid : Z) (signum : Z)
| U_sigaction (signum : Z) (action : option Z) (old_action : option Z)
| U_sigprocmask (mask : Z)
| U_sigreturn
| U_mutex_create
| U_mutex_blocking_create
| U_mutex_lock (mutex_id : Z)
| U_mutex_unlock (mutex_id : Z)
| U_semaphore_create (res_count : Z)
| U_semaphore_up (sem_id : Z)
| U_semaphore_down (sem_id : Z)
| U_condvar_create
| U_condvar_signal (condvar_id : Z)
| U_condvar_wait (condvar_id : Z) (mutex_id : Z)
| U_condvar_signal_all (condvar_id : Z)
| U_eventfd (initval : Z) (flags : Z)
| U_waitpid (pid : Z) (exit_code : Z)
| U_waittid (tid : Z)
| U_framebuffer
| U_framebuffer_flush
| U_event_get
| U_key_pressed.

Definition perform (c : UserCall) : Ecall :=
  match c with
  | U_dup fd => dup fd
  | U_open path flags => open path flags
  | U_close fd => close fd
  | U_pipe pipe_fd => pipe pipe_fd
  | U_read fd buf => read fd buf
  | U_write fd buf => write fd buf
  | U_exit exit_code => exit exit_code
  | U_yield_ => yield_
  | U_get_time => get_time
  | U_getpid => getpid
  | U_get_cwd => get_cwd
  | U_chdir path => chdir path
  | U_fork => fork
  | U_exec path args => exec path args
  | U_sleep sleep_ms => sleep sleep_ms
  | U_thread_create entry arg => thread_create entry arg
  | U_gettid => gettid
  | U_shutdown => shutdown
  | U_list_apps => list_apps
  | U_kill pid signum => kill pid signum
  | U_sigaction signum action old_action => sigaction signum action old_action
  | U_sigprocmask mask => sigprocmask mask
  | U_sigreturn => sigreturn
  | U_mutex_create => mutex_create
  | U_mutex_blocking_create => mutex_blocking_create
  | U_mutex_lock mutex_id => mutex_lock mutex_id
  | U_mutex_unlock mutex_id => mutex_unlock mutex_id
  | U_semaphore_create res_count => semaphore_create res_count
  | U_semaphore_up sem_id => semaphore_up sem_id
  | U_semaphore_down sem_id => semaphore_down sem_id
  | U_condvar_create => condvar_create
  | U_condvar_signal condvar_id => condvar_signal condvar_id
  | U_condvar_wait condvar_id mutex_id => condvar_wait condvar_id mutex_id
  | U_condvar_signal_all condvar_id => condvar_signal_all condvar_id
  | U_eventfd initval flags => eventfd initval flags
  | U_waitpid pid exit_code => sys_waitpid pid exit_code
  | U_waittid tid => sys_waittid tid
  | U_framebuffer => sys_framebuffer
  | U_framebuffer_flush => sys_framebuffer_flush
  | U_event_get => sys_event_get
  | U_key_pressed => sys_key_pressed
  end.

Definition meant (c : UserCall) : Handler :=
  match c with
  | U_dup fd => K_sys_dup fd
  | U_open path flags => K_sys_open (sl_ptr path) flags
  | U_close fd => K_sys_close fd
  | U_pipe pipe_fd => K_sys_pipe (sl_ptr pipe_fd)
  | U_read fd buf => K_sys_read fd (sl_ptr buf) (sl_len buf)
  | U_write fd buf => K_sys_write fd (sl_ptr buf) (sl_len buf)
  | U_exit exit_code => K_sys_exit exit_code
  | U_yield_ => K_sys_yield
  | U_get_time => K_sys_get_time
  | U_getpid => K_sys_getpid
  | U_get_cwd => K_sys_getcwd
  | U_chdir path => K_sys_chdir (sl_ptr path)
  | U_fork => K_sys_fork
  | U_exec path args => K_sys_exec (sl_ptr path) (sl_ptr args)
  | U_sleep sleep_ms => K_sys_sleep sleep_ms
  | U_thread_create entry arg => K_sys_thread_create entry arg
  | U_gettid => K_sys_gettid
  | U_shutdown => K_sys_shutdown
  | U_list_apps => K_sys_list_apps
  | U_kill pid signum => K_sys_kill pid signum
  | U_sigaction signum action old_action => K_sys_sigaction signum (default 0 action) (default 0 old_action)
  | U_sigprocmask mask => K_sys_sigprocmask mask
  | U_sigreturn => K_sys_sigreturn
  | U_mutex_create => K_sys_mutex_create false
  | U_mutex_blocking_create => K_sys_mutex_create true
  | U_mutex_lock mutex_id => K_sys_mutex_lock mutex_id
  | U_mutex_unlock mutex_id => K_sys_mutex_unlock mutex_id
  | U_semaphore_create res_count => K_sys_semaphore_create res_count
  | U_semaphore_up sem_id => K_sys_semaphore_up sem_id
  | U_semaphore_down sem_id => K_sys_semaphore_down sem_id
  | U_condvar_create => K_sys_condvar_create
  | U_condvar_signal condvar_id => K_sys_condvar_signal condvar_id
  | U_condvar_wait condvar_id mutex_id => K_sys_condvar_wait condvar_id mutex_id
  | U_condvar_signal_all condvar_id => K_sys_condvar_signal_all condvar_id
  | U_eventfd initval flags => K_sys_eventfd initval flags
  | U_waitpid pid exit_code => K_sys_waitpid pid exit_code
  | U_waittid tid => K_sys_waittid tid
  | U_framebuffer => K_sys_framebuffer
  | U_framebuffer_flush => K_sys_framebuffer_flush
  | U_event_get => K_sys_event_get
  | U_key_pressed => K_sys_key_pressed
  end.

(** ** The types of the arguments *)

Definition is_usize (z : Z) : Prop := 0 ≤ z < 2 ^ 64.
Definition is_u32 (z : Z) : Prop := 0 ≤ z < 2 ^ 32.
Definition is_i32 (z : Z) : Prop := - 2 ^ 31 ≤ z < 2 ^ 31.
Definition is_isize (z : Z) : Prop := - 2 ^ 63 ≤ z < 2 ^ 63.
Definition slice_typed (s : slice) : Prop := is_usize (sl_ptr s) ∧ is_usize (sl_len s).

Definition typed (c : UserCall) : Prop :=
  match c with
  | U_dup fd => is_usize fd
  | U_open path flags => slice_typed path ∧ is_u32 flags
  | U_close fd => is_usize fd
  | U_pipe pipe_fd => slice_typed pipe_fd
  | U_read fd buf => is_usize fd ∧ slice_typed buf
  | U_write fd buf => is_usize fd ∧ slice_typed buf
  | U_exit exit_code => is_i32 exit_code
  | U_yield_ => True
  | U_get_time => True
  | U_getpid => True
  | U_get_cwd => True
  | U_chdir path => slice_typed path
  | U_fork => True
  | U_exec path args => slice_typed path ∧ slice_typed args
  | U_sleep sleep_ms => is_usize sleep_ms
  | U_thread_create entry arg => is_usize entry ∧ is_usize arg
  | U_gettid => True
  | U_shutdown => True
  | U_list_apps => True
  | U_kill pid signum => is_usize pid ∧ is_i32 signum
  | U_sigaction signum action old_action => is_i32 signum ∧ is_usize (default 0 action) ∧ is_usize (default 0 old_action)
  | U_sigprocmask mask => is_u32 mask
  | U_sigreturn => True
  | U_mutex_create => True
  | U_mutex_blocking_create => True
  | U_mutex_lock mutex_id => is_usize mutex_id
  | U_mutex_unlock mutex_id => is_usize mutex_id
  | U_semaphore_create res_count => is_usize res_count
  | U_semaphore_up sem_id => is_usize sem_id
  | U_semaphore_down sem_id => is_usize sem_id
  | U_condvar_create => True
  | U_condvar_signal condvar_id => is_usize condvar_id
  | U_condvar_wait condvar_id mutex_id => is_usize condvar_id ∧ is_usize mutex_id
  | U_condvar_signal_all condvar_id => is_usize condvar_id
  | U_eventfd initval flags => is_u32 initval ∧ is_u32 flags
  | U_waitpid pid exit_code => is_isize pid ∧ is_usize exit_code
  | U_waittid tid => is_usize tid
  | U_framebuffer => True
  | U_framebuffer_flush => True
  | U_event_get => True
  | U_key_pressed => True
  end.

(** The [ecall] saved in the trap context by the trap entry. *)
Definition issue (e : Ecall) (cx : TrapContext) : TrapContext :=
  set_x (set_x (set_x (set_x cx 10 (ec_x10 e)) 11 (ec_x11 e)) 12 (ec_x12 e)) 17 (ec_id e).

Lemma issued_registers e cx : length (tc_x cx) = 32%nat →
  nth_or_panic (tc_x (issue e cx)) 17 = Done (ec_id e) ∧ nth_or_panic (tc_x (issue e cx)) 10 = Done (ec_x10 e) ∧
  nth_or_panic (tc_x (issue e cx)) 11 = Done (ec_x11 e) ∧ nth_or_panic (tc_x (issue e cx)) 12 = Done (ec_x12 e).
Proof.
  intros Hl. unfold issue, set_x, nth_or_panic. cbn [tc_x Z.ltb Z.compare].
  assert (E : ∀ l : list Z, length l = 32%nat → ∀ i v, (i < 32)%nat → <[i := v]> l !! i = Some v).
  { intros l Hl' i v Hi. apply list_lookup_insert_eq. lia. }
  assert (N : ∀ (l : list Z) i j v, i ≠ j → <[i := v]> l !! j = l !! j).
  { intros l i j v Hne. by apply list_lookup_insert_ne. }
  change (Z.to_nat 17) with 17%nat. change (Z.to_nat 10) with 10%nat. change (Z.to_nat 11) with 11%nat. change (Z.to_nat 12) with 12%nat.
  split; [|split; [|split]]; rewrite ?N by done; by rewrite E by (rewrite ?length_insert; (done || lia)).
Qed.

Lemma i32_u64 z : is_i32 z → i32 (u64 z) = z.
Proof.
  intros Hz. unfold is_i32 in Hz. rewrite <- signed_wrap, wrap_wrap_le, signed_wrap by lia. by apply signed_small.
Qed.

Lemma i64_u64 z : is_isize z → i64 (u64 z) = z.
Proof. intros Hz. unfold is_isize in Hz. rewrite signed_wrap. by apply signed_small. Qed.

(** The number selects the handler: the dispatch on every number of the table. *)
Ltac dispatch :=
  match goal with |- syscall ?id _ _ _ = _ => let v := eval vm_compute in id in change id with v end;
  unfold syscall;
  repeat match goal with |- (if ?n =? ?c then _ else _) = _ =>
    let b := eval vm_compute in (n =? c) in change (n =? c) with b; cbv iota
  end.

Lemma dispatch_meant c : typed c →
  syscall (ec_id (perform c)) (ec_x10 (perform c)) (ec_x11 (perform c)) (ec_x12 (perform c)) = Done (meant c).
Proof.
  intros Ht. destruct c; cbn [perform meant typed] in *;
    cbv delta [ecall sys_dup sys_open sys_close sys_pipe sys_read sys_write sys_exit sys_sleep sys_yield
      sys_get_cwd sys_kill sys_get_time sys_getpid sys_fork sys_exec sys_chdir sys_waitpid sys_sigaction
      sys_sigprocmask sys_sigreturn sys_shutdown sys_list_apps sys_thread_create sys_gettid sys_waittid
      sys_mutex_create sys_mutex_lock sys_mutex_unlock sys_semaphore_create sys_semaphore_up
      sys_semaphore_down sys_condvar_create sys_condvar_signal sys_condvar_wait sys_condvar_signal_all
      sys_eventfd sys_framebuffer sys_framebuffer_flush sys_event_get sys_key_pressed dup open close pipe
      read write exit yield_ get_time getpid get_cwd chdir fork exec sleep thread_create gettid shutdown
      list_apps kill sigaction sigprocmask sigreturn mutex_create mutex_blocking_create mutex_lock
      mutex_unlock semaphore_create semaphore_up semaphore_down condvar_create condvar_signal condvar_wait
      condvar_signal_all eventfd perform]; cbv beta; cbn [ec_id ec_x10 ec_x11 ec_x12];
    dispatch; try reflexivity; unfold mret, outcome_ret; unfold is_u32, is_usize in *;
    rewrite ?i32_u64, ?i64_u64, ?wrap_small by tauto; reflexivity.
Qed.

(** ** Properties *)

(** C22. A call of the user library reaches the kernel function it is meant for with its
    arguments, and its result comes back. Whatever the registers were, [trap_handler] dispatches each typed
    call, through the trap context the [ecall] saved, to the [sys_] function of the same meaning with the
    same argument values (signed ones included), which finds the context at the next instruction. When that
    function returns, its result is written to register 10 of the context as the function has left it, and
    nothing else of it changes; so [sigreturn] and an [exec] that succeeds, which put another context in its
    place, go on there. With any function that leaves the context alone, the library sees exactly the
    result, and the program goes on at the next instruction with its other registers as they were. *)
Theorem system_call_roundtrip (handle : Handler → SigState → outcome (Z * SigState)) s c : length (tc_x (trap_cx s)) = 32%nat → typed c →
  let s0 := set_trap_cx s (issue (perform c) (trap_cx s)) in
  let s1 := ecall_enter s0 in
  tc_sepc (trap_cx s1) = u64 (tc_sepc (trap_cx s) + 4) ∧
  match handle (meant c) s1 with
  | Panicked e => trap_ecall handle s0 = Panicked e
  | Done (r, s2) => ∃ s3, trap_ecall handle s0 = Done s3 ∧
      trap_cx s3 = set_x (trap_cx s2) 10 (u64 r) ∧
      (signals s3 = signals s2 ∧ signal_mask s3 = signal_mask s2 ∧ handling_sig s3 = handling_sig s2 ∧ trap_ctx_backup s3 = trap_ctx_backup s2) ∧
      (is_isize r → trap_cx s2 = trap_cx s1 →
         (∃ a0, tc_x (trap_cx s3) !! 10%nat = Some a0 ∧ i64 a0 = r) ∧
         tc_sepc (trap_cx s3) = u64 (tc_sepc (trap_cx s) + 4) ∧
         (∀ reg, reg ∉ [10; 11; 12; 17]%nat → tc_x (trap_cx s3) !! reg = tc_x (trap_cx s) !! reg))
  end.
Proof.
  intros Hl Ht s0 s1. split; [done|]. destruct (issued_registers (perform c) (trap_cx s) Hl) as (H17 & H10 & H11 & H12).
  assert (Hd : trap_syscall (trap_cx s1) = Done (meant c)).
  { unfold trap_syscall, s1, s0. cbn [trap_cx ecall_enter set_trap_cx set_sepc tc_x]. rewrite H17, H10, H11, H12, !outcome_bind_Done.
    by apply dispatch_meant. }
  unfold trap_ecall. fold s1. rewrite Hd, outcome_bind_Done. destruct (handle (meant c) s1) as [[r s2]|e]; [|done].
  rewrite outcome_bind_Done. eexists. split; [done|]. split; [done|]. split; [done|]. intros Hr E.
  cbn [trap_cx ecall_leave set_trap_cx]. rewrite E. split; [|split; [done|]].
  - exists (u64 r). split; [|by apply i64_u64]. unfold s1, s0. cbn. apply list_lookup_insert_eq. rewrite !length_insert. lia.
  - intros reg Hreg. unfold s1, s0, issue. cbn [trap_cx ecall_enter set_trap_cx set_sepc set_x tc_x].
    rewrite !not_elem_of_cons in Hreg. destruct Hreg as (? & ? & ? & ? & _).
    by rewrite ?list_lookup_insert_ne by congruence.
Qed.

(** [waitpid] that finds nobody, and [sigreturn], which goes back to the saved context. *)
Lemma system_call_roundtrip_witness :
  let cx := app_init_context 0 0x10000 0x20000 0 0 0 in
  let s := mkSig 0 0 10 SignalActions_default false false cx (Some (set_sepc cx 0x12340)) in
  let handle h s := match h with K_sys_sigreturn => Signals.sys_sigreturn s | K_sys_waitpid (-1) 0x7000 => Done (-1, s) | _ => Panicked PExplicit end in
  (∃ s3, trap_ecall handle (set_trap_cx s (issue (perform (U_waitpid (-1) 0x7000)) cx)) = Done s3 ∧
     tc_sepc (trap_cx s3) = 0x10004 ∧ ∃ a0, tc_x (trap_cx s3) !! 10%nat = Some a0 ∧ i64 a0 = -1) ∧
  ∃ s3, trap_ecall handle (set_trap_cx s (issue (perform U_sigreturn) cx)) = Done s3 ∧ tc_sepc (trap_cx s3) = 0x12340.
Proof.
  intros cx s handle. split.
  - destruct (system_call_roundtrip handle s (U_waitpid (-1) 0x7000) eq_refl) as (_ & s3 & Hrun & _ & _ & Hback).
    { cbn. unfold is_isize, is_usize. lia. }
    destruct Hback as (Ha & Hs & _); [unfold is_isize; lia|reflexivity|]. exists s3. split; [exact Hrun|]. split; [exact Hs|exact Ha].
  - destruct (system_call_roundtrip handle s U_sigreturn eq_refl I) as (_ & s3 & Hrun & Hcx & _). exists s3. split; [exact Hrun|]. by rewrite Hcx.
Defined.
