(* ===== verification/Kernel.v ===== *)
(** * Kernel.v: processes and threads in memory ([os/src/task/process.rs], [task.rs])

    The kernel's state, a monad over it, and what Rust's [Drop] does to processes and threads.
    Processes and threads are addresses ([Arc::as_ptr]).  The owners of a process are the lists of
    children, [PID2PCB] and [pinned]: the [Arc]s that suspended threads hold in local variables of
    a system call (a thread that never runs again never drops them). *)

From S2P Require Import Prelude Bytes Address FrameAlloc PageTable MemorySet Ids Sched Timer Signals.

(** ** The trap context in its page *)

Definition TrapContext_words (cx : TrapContext) : list Z :=
  tc_x cx ++ [tc_sstatus cx; tc_sepc cx; tc_kernel_satp cx; tc_kernel_sp cx; tc_trap_handler cx].

Definition TrapContext_of_words (ws : list Z) : option TrapContext :=
  match drop 32 ws with
  | [a; b; c; d; e] => Some (mkTrap (take 32 ws) a b c d e)
  | _ => None
  end.

(** [*trap_cx_ppn.get_mut()] read and assigned. *)
Definition read_trap_cx (m : memory) (p : PhysPageNum) : outcome TrapContext :=
  pg ← unwrap PInvalid (m !! p);
  unwrap PInvalid (TrapContext_of_words (dec_arr 8 37 pg)).

Definition write_trap_cx (m : memory) (p : PhysPageNum) (cx : TrapContext) : outcome memory :=
  pg ← unwrap PInvalid (m !! p);
  mret (<[p := splice 0 (enc_arr 8 (TrapContext_words cx)) pg]> m).

(** ** The data *)

(** [TaskControlBlock] and its inner part; the saved registers of a switch are the assembly's, the
    status is in the scheduler's state. *)
Record Task : Type := mkTask {
  tk_process : nat;
  tk_kstack : Z;
  tk_res : option TaskUserRes;
  tk_trap_cx_ppn : PhysPageNum;
  tk_exit_code : option Z;
  tk_backup : option TrapContext;
}.

Record ProcTree : Type := mkTree {
  is_zombie : bool;
  parent : option nat;
  children : list nat;
  exit_code : Z;
}.

Record ProcSignals : Type := mkProcSignals {
  p_signals : Z;
  p_signal_mask : Z;
  p_handling_sig : Z;
  p_signal_actions : list SignalAction;
  p_killed : bool;
  p_frozen : bool;
}.

(** The mutexes, semaphores and condition variables of a process, by address. *)
Record ProcSync : Type := mkProcSync {
  mutex_list : list (option nat);
  semaphore_list : list (option nat);
  condvar_list : list (option nat);
}.

Section kernel.
Context {A H F : Type} `{FrameAllocator A} `{BinaryHeap H}.

(** [ProcessControlBlock] and its inner part; [F] are the open files. *)
Record Pcb : Type := mkPcb {
  pid : Z;
  app_name : list Z;
  working_dir : list Z;
  memory_set : MemorySet;
  tree : ProcTree;
  fd_table : list (option F);
  sigs : ProcSignals;
  tasks : list (option nat);
  task_res_allocator : RecycleAllocator;
  sync_lists : ProcSync;
}.

Definition set_tree (p : Pcb) (t : ProcTree) : Pcb :=
  mkPcb (pid p) (app_name p) (working_dir p) (memory_set p) t (fd_table p) (sigs p) (tasks p) (task_res_allocator p) (sync_lists p).
Definition set_space (p : Pcb) (ms : MemorySet) (tids : RecycleAllocator) : Pcb :=
  mkPcb (pid p) (app_name p) (working_dir p) ms (tree p) (fd_table p) (sigs p) (tasks p) tids (sync_lists p).
Definition set_tasks (p : Pcb) (ts : list (option nat)) : Pcb :=
  mkPcb (pid p) (app_name p) (working_dir p) (memory_set p) (tree p) (fd_table p) (sigs p) ts (task_res_allocator p) (sync_lists p).
Definition set_fd_table (p : Pcb) (fds : list (option F)) : Pcb :=
  mkPcb (pid p) (app_name p) (working_dir p) (memory_set p) (tree p) fds (sigs p) (tasks p) (task_res_allocator p) (sync_lists p).
Definition set_app_name (p : Pcb) (name : list Z) : Pcb :=
  mkPcb (pid p) name (working_dir p) (memory_set p) (tree p) (fd_table p) (sigs p) (tasks p) (task_res_allocator p) (sync_lists p).
Definition set_working_dir (p : Pcb) (dir : list Z) : Pcb :=
  mkPcb (pid p) (app_name p) dir (memory_set p) (tree p) (fd_table p) (sigs p) (tasks p) (task_res_allocator p) (sync_lists p).

Record Kernel : Type := mkKernel {
  procs : gmap nat Pcb;
  tcbs : gmap nat Task;
  pid2pcb : gmap Z nat;
  pids : RecycleAllocator;
  kstacks : RecycleAllocator;
  kernel_space : MemorySet;
  mm : Mm A;
  sleep : Sleep (H := H);
  initproc : nat;
  waiting : list nat;
  pinned : list nat;
}.

Definition set_procs (k : Kernel) (ps : gmap nat Pcb) : Kernel :=
  mkKernel ps (tcbs k) (pid2pcb k) (pids k) (kstacks k) (kernel_space k) (mm k) (sleep k) (initproc k) (waiting k) (pinned k).
Definition set_tcbs (k : Kernel) (ts : gmap nat Task) : Kernel :=
  mkKernel (procs k) ts (pid2pcb k) (pids k) (kstacks k) (kernel_space k) (mm k) (sleep k) (initproc k) (waiting k) (pinned k).
Definition set_pid2pcb (k : Kernel) (m : gmap Z nat) : Kernel :=
  mkKernel (procs k) (tcbs k) m (pids k) (kstacks k) (kernel_space k) (mm k) (sleep k) (initproc k) (waiting k) (pinned k).
Definition set_pids (k : Kernel) (r : RecycleAllocator) : Kernel :=
  mkKernel (procs k) (tcbs k) (pid2pcb k) r (kstacks k) (kernel_space k) (mm k) (sleep k) (initproc k) (waiting k) (pinned k).
Definition set_kstacks (k : Kernel) (r : RecycleAllocator) (ms : MemorySet) (mm : Mm A) : Kernel :=
  mkKernel (procs k) (tcbs k) (pid2pcb k) (pids k) r ms mm (sleep k) (initproc k) (waiting k) (pinned k).
Definition set_mm (k : Kernel) (mm : Mm A) : Kernel :=
  mkKernel (procs k) (tcbs k) (pid2pcb k) (pids k) (kstacks k) (kernel_space k) mm (sleep k) (initproc k) (waiting k) (pinned k).
Definition set_sleep (k : Kernel) (x : Sleep (H := H)) : Kernel :=
  mkKernel (procs k) (tcbs k) (pid2pcb k) (pids k) (kstacks k) (kernel_space k) (mm k) x (initproc k) (waiting k) (pinned k).
Definition set_initproc (k : Kernel) (a : nat) : Kernel :=
  mkKernel (procs k) (tcbs k) (pid2pcb k) (pids k) (kstacks k) (kernel_space k) (mm k) (sleep k) a (waiting k) (pinned k).
Definition set_sched (k : Kernel) (s : Sched) : Kernel := set_sleep k (mkSleep (timers (sleep k)) s).

(** ** A monad over the state *)

Definition kop (X : Type) : Type := Kernel → outcome (X * Kernel).

#[export] Instance kop_ret : MRet kop := λ X x k, Done (x, k).
#[export] Instance kop_bind : MBind kop := λ X Y f m k,
  match m k with Done (x, k) => f x k | Panicked p => Panicked p end.

Definition get : kop Kernel := λ k, Done (k, k).
Definition put (k : Kernel) : kop unit := λ _, Done (tt, k).
Definition klift {X} (o : outcome X) : kop X := λ k, x ← o; Done (x, k).

(** [upgrade().unwrap()], and the process or thread behind an address. *)
Definition get_proc (a : nat) : kop Pcb := k ← get; klift (unwrap PUnwrap (procs k !! a)).
Definition get_task (t : nat) : kop Task := k ← get; klift (unwrap PUnwrap (tcbs k !! t)).
Definition put_proc (a : nat) (p : Pcb) : kop unit := k ← get; put (set_procs k (<[a := p]> (procs k))).
Definition put_task (t : nat) (x : Task) : kop unit := k ← get; put (set_tcbs k (<[t := x]> (tcbs k))).

(** [current_task().unwrap()] and [current_process()]. *)
Definition current : kop nat := k ← get; klift (unwrap PUnwrap (current_task (sl_sched (sleep k)))).
Definition current_process : kop nat := t ← current; x ← get_task t; mret (tk_process x).

(** An operation on the memory set and the thread ids of a process. *)
Definition on_space {X} (a : nat) (f : RecycleAllocator → MemorySet → Mm A → outcome (X * RecycleAllocator * MemorySet * Mm A)) : kop X :=
  p ← get_proc a;
  k ← get;
  '(x, tids, ms, mm) ← klift (f (task_res_allocator p) (memory_set p) (mm k));
  put (set_mm k mm);;
  put_proc a (set_space p ms tids);;
  mret x.

(** ** Owners *)

Definition proc_refs (k : Kernel) : list nat :=
  ((map_to_list (procs k)).*2 ≫= λ p, children (tree p)) ++ (map_to_list (pid2pcb k)).*2 ++ pinned k.

(** The strong count of a process, the local variables of the running system call aside. *)
Definition strong_count (k : Kernel) (a : nat) : nat := length (filter (λ x, x = a) (proc_refs k)).

Definition task_refs (k : Kernel) : list nat :=
  ((map_to_list (procs k)).*2 ≫= λ p, omap id (tasks p)) ++ ready_queue (sl_sched (sleep k)) ++
  cur_list (sl_sched (sleep k)) ++ (timer_task <$> heap_drain (timers (sleep k))) ++ waiting k.

(** ** Drop *)

(** [Drop for TaskUserRes], with the process behind the weak pointer. *)
Definition drop_res (a : nat) (res : TaskUserRes) : kop unit :=
  on_space a (λ tids ms mm, '(tids, ms, mm) ← TaskUserRes_drop res tids ms mm; mret (tt, tids, ms, mm)).

(** An [Arc<TaskControlBlock>] dropped: the last one drops the kernel stack and the resources. *)
Definition drop_task (t : nat) : kop unit :=
  k ← get;
  if bool_decide (t ∈ task_refs k) then mret tt
  else
    x ← get_task t;
    k ← get;
    '(r, ks, mm) ← klift (KernelStack_drop (tk_kstack x) (kstacks k) (kernel_space k) (mm k));
    put (set_kstacks k r ks mm);;
    match tk_res x with Some res => drop_res (tk_process x) res | None => mret tt end;;
    k ← get;
    put (set_sched (set_tcbs k (delete t (tcbs k)))
      (mkSched (delete t (task_status (sl_sched (sleep k)))) (ready_queue (sl_sched (sleep k))) (Sched.current (sl_sched (sleep k))))).

Fixpoint drop_tasks (ts : list (option nat)) : kop unit :=
  match ts with
  | [] => mret tt
  | Some t :: ts => drop_task t;; drop_tasks ts
  | None :: ts => drop_tasks ts
  end.

(** A [MemorySet] dropped: the frames of the page table, then those of the areas. *)
Definition MemorySet_drop (ms : MemorySet) (mm : Mm A) : outcome (Mm A) :=
  a ← drop_frames (mm_alloc mm) (pt_frames (page_table ms));
  drop_areas (mkMm a (mm_mem mm)) (areas ms).

(** An [Arc<ProcessControlBlock>] dropped: the last one gives back the pid ([Drop for PidHandle])
    and the memory.  The lists of a process that is dropped are empty ([exit_current]). *)
Definition drop_proc (a : nat) : kop unit :=
  k ← get;
  if bool_decide (strong_count k a = 0%nat) then
    p ← get_proc a;
    r ← klift (RecycleAllocator_dealloc (pids k) (pid p));
    mm ← klift (MemorySet_drop (memory_set p) (mm k));
    put (set_mm (set_pids (set_procs k (delete a (procs k))) r) mm)
  else mret tt.

(** ** [TaskControlBlock::new] *)

Definition TaskControlBlock_new (process : nat) (ustack_base : Z) (alloc_user_res : bool) : kop nat :=
  res ← on_space process (λ tids ms mm, TaskUserRes_new tids ms mm ustack_base alloc_user_res);
  p ← get_proc process;
  k ← get;
  trap_cx_ppn ← klift (trap_cx_ppn res (memory_set p) (mm k));
  '(kstack, r, ks, mm) ← klift (kstack_alloc (kstacks k) (kernel_space k) (mm k));
  let t := fresh (dom (tcbs k)) in
  let k := set_kstacks k r ks mm in
  let k := set_tcbs k (<[t := mkTask process kstack (Some res) trap_cx_ppn None None]> (tcbs k)) in
  put (set_sched k (set_status (sl_sched (sleep k)) t Ready));;
  mret t.

Definition get_trap_cx (t : nat) : kop TrapContext :=
  x ← get_task t; k ← get; klift (read_trap_cx (mm_mem (mm k)) (tk_trap_cx_ppn x)).

Definition put_trap_cx (t : nat) (cx : TrapContext) : kop unit :=
  x ← get_task t;
  k ← get;
  m ← klift (write_trap_cx (mm_mem (mm k)) (tk_trap_cx_ppn x) cx);
  put (set_mm k (mkMm (mm_alloc (mm k)) m)).

Definition k_add_task (t : nat) : kop unit := k ← get; put (set_sched k (add_task (sl_sched (sleep k)) t)).
End kernel.
