(* ===== verification/Process.v ===== *)
(** * Process.v: the life of processes and threads
    ([os/src/task/process.rs], [exit_current_and_run_next] of [task/mod.rs], [syscall/process.rs],
    [syscall/thread.rs])

    Every operation is the whole function, up to the switch to the idle control flow where there is
    one.  The linker's symbols, the ELF parser, the address of [trap_handler] and the [sstatus]
    register are parameters. *)

From S2P Require Import Prelude Bytes Address FrameAlloc PageTable MemorySet Ids Sched Timer UserIo UserMem Signals Kernel BlockProg Efs Vfs Files.

Definition IDLE_PID : Z := 0.

(** ** The arguments on the user stack *)

(** [for c in args[i].as_bytes()] and the terminating zero. *)
Fixpoint push_string (m : memory) (token p : Z) (s : list Z) : outcome memory :=
  match s with
  | [] => put_user_byte m token p 0
  | c :: s => m ← put_user_byte m token p c; push_string m token (u64 (p + 1)) s
  end.

(** [(0..=args.len()).map(...)]: where the pointers are, physically. *)
Fixpoint argv_refs (m : memory) (token argv_base : Z) (n : nat) (arg : Z) : outcome (list PhysAddr) :=
  match n with
  | O => mret []
  | S n =>
      a ← translated_refmut m token (u64 (argv_base + arg * 8));
      l ← argv_refs m token argv_base n (arg + 1);
      mret (a :: l)
  end.

(** [for i in 0..args.len()], with the pointers that are left. *)
Fixpoint push_args (m : memory) (token user_sp : Z) (args : list (list Z)) (argv : list PhysAddr) : outcome (memory * Z) :=
  match args, argv with
  | arg :: args, a :: argv =>
      let user_sp := u64 (user_sp - (zlen arg + 1)) in
      m ← store_u64 m a user_sp;
      m ← push_string m token user_sp arg;
      push_args m token user_sp args argv
  | [], _ => mret (m, user_sp)
  | _ :: _, [] => Panicked PIndex
  end.

(** The stack of [exec]: the pointers end in a null one, the strings are below them. *)
Definition exec_stack (m : memory) (token user_sp : Z) (args : list (list Z)) : outcome (memory * Z * Z) :=
  let user_sp := u64 (user_sp - (zlen args + 1) * 8) in
  let argv_base := user_sp in
  argv ← argv_refs m token argv_base (S (length args)) 0;
  last ← nth_or_panic argv (zlen args);
  m ← store_u64 m last 0;
  '(m, user_sp) ← push_args m token user_sp args argv;
  mret (m, argv_base, u64 (user_sp - user_sp mod 8)).

Section process.
Context {A H F : Type} `{FrameAllocator A} `{BinaryHeap H}.
Context (sym : Symbols) (parse_elf : list Z → option ElfFile) (trap_handler sstatus : Z).
Notation kop := (kop (A := A) (H := H) (F := F)).

Definition upd_proc (a : nat) (f : Pcb (F := F) → Pcb (F := F)) : kop unit := p ← get_proc a; put_proc a (f p).

Definition upd_tree (a : nat) (f : ProcTree → ProcTree) : kop unit := upd_proc a (λ p, set_tree p (f (tree p))).

Definition kernel_token : kop Z := k ← get; mret (MemorySet_token (kernel_space k)).

(** The context [app_init_context] makes of a thread. *)
Definition init_context (entry sp kstack_top : Z) : kop TrapContext :=
  token ← kernel_token;
  mret (app_init_context sstatus entry sp token kstack_top trap_handler).

(** ** Creating a process *)

Definition pid_alloc : kop Z :=
  k ← get;
  let '(pid, r) := RecycleAllocator_alloc (pids k) in
  put (set_pids k r);;
  mret pid.

Definition insert_pid (pid : Z) (a : nat) : kop unit :=
  k ← get; put (set_pid2pcb k (insert_into_pid2process (pid2pcb k) pid a)).

Definition no_sync : ProcSync := mkProcSync [] [] [].

(** [ProcessControlBlock::new]; [stdio] are the three standard streams. *)
Definition ProcessControlBlock_new (stdio : list (option F)) (elf_data : list Z) : kop nat :=
  k ← get;
  '(ms, ustack_base, entry_point, m) ← klift (from_elf parse_elf sym (mm k) elf_data);
  put (set_mm k m);;
  pid ← pid_alloc;
  k ← get;
  let a := fresh (dom (procs k)) in
  put_proc a (mkPcb pid [] [] ms (mkTree false None [] 0) stdio
    (mkProcSignals 0 0 (-1) SignalActions_default false false) [] RecycleAllocator_new no_sync);;
  t ← TaskControlBlock_new a ustack_base true;
  x ← get_task t;
  res ← klift (unwrap PUnwrap (tk_res x));
  cx ← init_context entry_point (ustack_top res) (KernelStack_get_top (tk_kstack x));
  put_trap_cx t cx;;
  upd_proc a (λ p, set_tasks p (tasks p ++ [Some t]));;
  insert_pid pid a;;
  k_add_task t;;
  mret a.

(** [fork] *)
Definition fork (a : nat) : kop nat :=
  par ← get_proc a;
  klift (assert_that (length (tasks par) =? 1)%nat PAssert);;
  k ← get;
  '(ms, m) ← klift (from_existed_user sym (mm k) (memory_set par));
  put (set_mm k m);;
  pid ← pid_alloc;
  k ← get;
  let c := fresh (dom (procs k)) in
  put_proc c (mkPcb pid [] (working_dir par) ms (mkTree false (Some a) [] 0) (fd_table par)
    (mkProcSignals 0 (p_signal_mask (sigs par)) (-1) (p_signal_actions (sigs par)) false false) [] RecycleAllocator_new no_sync);;
  upd_tree a (λ t, mkTree (is_zombie t) (parent t) (children t ++ [c]) (exit_code t));;
  o ← klift (nth_or_panic (tasks par) 0);
  t0 ← klift (unwrap PUnwrap o);
  x0 ← get_task t0;
  res0 ← klift (unwrap PUnwrap (tk_res x0));
  t ← TaskControlBlock_new c (tur_ustack_base res0) false;
  upd_proc c (λ p, set_tasks p (tasks p ++ [Some t]));;
  x ← get_task t;
  cx ← get_trap_cx t;
  put_trap_cx t (mkTrap (tc_x cx) (tc_sstatus cx) (tc_sepc cx) (tc_kernel_satp cx) (KernelStack_get_top (tk_kstack x)) (tc_trap_handler cx));;
  insert_pid pid c;;
  k_add_task t;;
  mret c.

Definition sys_fork : kop Z :=
  a ← current_process;
  c ← fork a;
  p ← get_proc c;
  o ← klift (nth_or_panic (tasks p) 0);
  t ← klift (unwrap PUnwrap o);
  cx ← get_trap_cx t;
  put_trap_cx t (set_x cx 10 0);;
  mret (pid p).

(** ** [exec] *)

Definition exec (a : nat) (app_name : list Z) (elf_data : list Z) (args : list (list Z)) : kop unit :=
  p ← get_proc a;
  klift (assert_that (length (tasks p) =? 1)%nat PAssert);;
  k ← get;
  '(ms, ustack_base, entry_point, m) ← klift (from_elf parse_elf sym (mm k) elf_data);
  m ← klift (MemorySet_drop (memory_set p) m);
  put (set_mm k m);;
  upd_proc a (λ p, set_space p ms (task_res_allocator p));;
  let new_token := MemorySet_token ms in
  o ← klift (nth_or_panic (tasks p) 0);
  t ← klift (unwrap PUnwrap o);
  x ← get_task t;
  res ← klift (unwrap PUnwrap (tk_res x));
  let res := mkTaskUserRes (tur_tid res) ustack_base in
  on_space a (λ tids ms mm, '(ms, mm) ← alloc_user_res res ms mm; mret (tt, tids, ms, mm));;
  p ← get_proc a;
  k ← get;
  ppn ← klift (trap_cx_ppn res (memory_set p) (mm k));
  put_task t (mkTask (tk_process x) (tk_kstack x) (Some res) ppn (tk_exit_code x) (tk_backup x));;
  upd_proc a (λ p, set_app_name p app_name);;
  k ← get;
  '(m, argv_base, user_sp) ← klift (exec_stack (mm_mem (mm k)) new_token (ustack_top res) args);
  put (set_mm k (mkMm (mm_alloc (mm k)) m));;
  cx ← init_context entry_point user_sp (KernelStack_get_top (tk_kstack x));
  put_trap_cx t (set_x (set_x cx 10 (zlen args)) 11 argv_base).

(** The loop of [sys_exec] that reads the arguments: [None] when no null pointer came in [n] rounds
    or a string did not end in [n] bytes. *)
Fixpoint read_args (m : memory) (token : Z) (n fuel : nat) (args : Z) : outcome (option (list (list Z))) :=
  match n with
  | O => mret None
  | S n =>
      a ← translated_ref m token args;
      arg_str_ptr ← load_u64 m a;
      if arg_str_ptr =? 0 then mret (Some [])
      else
        s ← translated_str m fuel token arg_str_ptr;
        rest ← read_args m token n fuel (u64 (args + 8));
        mret (s ← s; rest ← rest; Some (s :: rest))
  end.

(** The bytes of the file at [path]: [Some None] when there is none, [None] when they were not read
    in [fuel] rounds; [D] is the disk. *)
Definition open_app (efs : EasyFileSystem) (root : Inode) (D : gmap Z block) (fuel : nat) (path : list Z) : outcome (option (option (list Z))) :=
  match
    run (o ← open_file efs root path RDONLY;
         match o with
         | None => mret (Some None)
         | Some app_inode => r ← read_all fuel app_inode; mret (option_map (λ r, Some (fst r)) r)
         end) ∅ D
  with
  | FDone r _ _ => Done r
  | FFail (FPanic p) => Panicked p
  | FFail FDevice => Panicked PExplicit
  end.

Definition sys_exec (efs : EasyFileSystem) (root : Inode) (D : gmap Z block) (fuel : nat) (path args : Z) : kop (option Z) :=
  a ← current_process;
  p ← get_proc a;
  k ← get;
  let token := MemorySet_token (memory_set p) in
  path ← klift (translated_str (mm_mem (mm k)) fuel token path);
  args ← klift (read_args (mm_mem (mm k)) token fuel fuel args);
  match path, args with
  | Some path, Some args =>
      app ← klift (open_app efs root D fuel path);
      match app with
      | Some (Some all_data) => exec a path all_data args;; mret (Some (zlen args))
      | Some None => mret (Some (-1))
      | None => mret None
      end
  | _, _ => mret None
  end.

(** [INITPROC] and [add_initproc]: the first process, from the file ["initproc"]. *)
Definition initproc_name : list Z := [0x69; 0x6e; 0x69; 0x74; 0x70; 0x72; 0x6f; 0x63].

Definition add_initproc (stdio : list (option F)) (efs : EasyFileSystem) (root : Inode) (D : gmap Z block) (fuel : nat) : kop (option nat) :=
  app ← klift (open_app efs root D fuel initproc_name);
  match app with
  | Some o =>
      v ← klift (unwrap PUnwrap o);
      a ← ProcessControlBlock_new stdio v;
      k ← get;
      put (set_initproc k a);;
      mret (Some a)
  | None => mret None
  end.

(** ** Ending a thread or a process *)

(** How [exit_current_and_run_next] ends: the next task runs, or the machine is shut down
    ([shutdown(failure)]). *)
Inductive exit_end : Type := Scheduled | Shutdown (failure : bool).

(** [for child in process_inner.children.iter()] *)
Fixpoint reparent (cs : list nat) : kop unit :=
  match cs with
  | [] => mret tt
  | c :: cs =>
      k ← get;
      upd_tree c (λ t, mkTree (is_zombie t) (Some (initproc k)) (children t) (exit_code t));;
      upd_tree (initproc k) (λ t, mkTree (is_zombie t) (parent t) (children t ++ [c]) (exit_code t));;
      reparent cs
  end.

(** The loop over the threads: they leave the ready queue and the timers, their resources are
    collected. *)
Fixpoint collect_res (ts : list (option nat)) : kop (list TaskUserRes) :=
  match ts with
  | [] => mret []
  | None :: ts => collect_res ts
  | Some t :: ts =>
      k ← get;
      put (set_sleep k (remove_inactive_task (sleep k) t));;
      x ← get_task t;
      put_task t (mkTask (tk_process x) (tk_kstack x) None (tk_trap_cx_ppn x) (tk_exit_code x) (tk_backup x));;
      l ← collect_res ts;
      mret (option_list (tk_res x) ++ l)
  end.

Fixpoint drop_all_res (a : nat) (l : list TaskUserRes) : kop unit :=
  match l with
  | [] => mret tt
  | res :: l => drop_res a res;; drop_all_res a l
  end.

Fixpoint drop_procs (cs : list nat) : kop unit :=
  match cs with
  | [] => mret tt
  | c :: cs => drop_proc c;; drop_procs cs
  end.

(** The main thread ends: the process becomes a zombie. *)
Definition end_process (a : nat) (code : Z) : kop exit_end :=
  p ← get_proc a;
  if pid p =? IDLE_PID then mret (Shutdown (negb (code =? 0)))
  else
    k ← get;
    m ← klift (remove_from_pid2process (pid2pcb k) (pid p));
    put (set_pid2pcb k m);;
    upd_tree a (λ t, mkTree true (parent t) (children t) code);;
    reparent (children (tree p));;
    recycle_res ← collect_res (tasks p);
    drop_all_res a recycle_res;;
    upd_tree a (λ t, mkTree (is_zombie t) (parent t) [] (exit_code t));;
    drop_procs (children (tree p));;
    on_space a (λ tids ms mm, '(ms, mm) ← recycle_data_pages mm ms; mret (tt, tids, ms, mm));;
    upd_proc a (λ p, set_fd_table p []);;
    upd_proc a (λ p, set_tasks p []);;
    drop_tasks (tasks p);;
    mret Scheduled.

(** [take_current_task().unwrap()] *)
Definition take_current : kop nat :=
  k ← get;
  let '(o, s) := take_current_task (sl_sched (sleep k)) in
  t ← klift (unwrap PUnwrap o);
  put (set_sched k s);;
  mret t.

Definition exit_current (code : Z) : kop exit_end :=
  t ← take_current;
  x ← get_task t;
  let a := tk_process x in
  get_proc a;;
  res ← klift (unwrap PUnwrap (tk_res x));
  put_task t (mkTask (tk_process x) (tk_kstack x) None (tk_trap_cx_ppn x) (Some code) (tk_backup x));;
  drop_res a res;;
  drop_task t;;
  if tur_tid res =? 0 then end_process a code else mret Scheduled.

(** ** Waiting *)

(** [child] off the list: its exit code is stored, and it is dropped. *)
Definition reap (token : Z) (exit_code_ptr : Z) (child : nat) : kop Z :=
  k ← get;
  klift (assert_that (S (strong_count k child) =? 1)%nat PAssert);;
  q ← get_proc child;
  ra ← klift (translated_refmut (mm_mem (mm k)) token exit_code_ptr);
  m ← klift (store_i32 (mm_mem (mm k)) ra (exit_code (tree q)));
  put (set_mm k (mkMm (mm_alloc (mm k)) m));;
  drop_proc child;;
  mret (pid q).

Definition sys_waitpid (pid_ : Z) (exit_code_ptr : Z) : kop Z :=
  a ← current_process;
  p ← get_proc a;
  k ← get;
  let is_it (c : nat) := match procs k !! c with Some q => (pid_ =? -1) || (u64 pid_ =? pid q) | None => false end in
  let zombie (c : nat) := match procs k !! c with Some q => is_zombie (tree q) | None => false end in
  if negb (existsb is_it (children (tree p))) then mret (-1)
  else
    match find_index (λ c, zombie c && is_it c) (children (tree p)) with
    | None => mret (-2)
    | Some idx =>
        c ← klift (unwrap PIndex (children (tree p) !! idx));
        upd_tree a (λ t, mkTree (is_zombie t) (parent t) (delete idx (children t)) (exit_code t));;
        reap (MemorySet_token (memory_set p)) exit_code_ptr c
    end.

(** ** Threads *)

(** [while tasks.len() < new_task_tid + 1 { tasks.push(None) }] *)
Definition grow (ts : list (option nat)) (n : nat) : list (option nat) := ts ++ replicate (n - length ts) None.

Definition sys_thread_create (entry arg : Z) : kop Z :=
  t ← current;
  x ← get_task t;
  let a := tk_process x in
  get_proc a;;
  res ← klift (unwrap PUnwrap (tk_res x));
  n ← TaskControlBlock_new a (tur_ustack_base res) true;
  k_add_task n;;
  y ← get_task n;
  new_res ← klift (unwrap PUnwrap (tk_res y));
  p ← get_proc a;
  let tid := Z.to_nat (tur_tid new_res) in
  let ts := grow (tasks p) (S tid) in
  put_proc a (set_tasks p (<[tid := Some n]> ts));;
  match mjoin (ts !! tid) with Some old => drop_task old | None => mret tt end;;
  cx ← init_context entry (ustack_top new_res) (KernelStack_get_top (tk_kstack y));
  put_trap_cx n (set_x cx 10 arg);;
  mret (tur_tid new_res).

Definition sys_gettid : kop Z :=
  t ← current;
  x ← get_task t;
  res ← klift (unwrap PUnwrap (tk_res x));
  mret (tur_tid res).

Definition sys_waittid (tid : Z) : kop Z :=
  t ← current;
  x ← get_task t;
  let a := tk_process x in
  p ← get_proc a;
  res ← klift (unwrap PUnwrap (tk_res x));
  if tur_tid res =? tid then mret (-1)
  else
    waited ← klift (nth_or_panic (tasks p) tid);
    match waited with
    | None => mret (-1)
    | Some w =>
        y ← get_task w;
        match tk_exit_code y with
        | Some code =>
            put_proc a (set_tasks p (<[Z.to_nat tid := None]> (tasks p)));;
            drop_task w;;
            mret code
        | None => mret (-2)
        end
    end.

Definition sys_getpid : kop Z := a ← current_process; p ← get_proc a; mret (pid p).

Definition sys_chdir (fuel : nat) (path : Z) : kop (option Z) :=
  a ← current_process;
  p ← get_proc a;
  k ← get;
  o ← klift (translated_str (mm_mem (mm k)) fuel (MemorySet_token (memory_set p)) path);
  match o with
  | None => mret None
  | Some path => upd_proc a (λ p, set_working_dir p path);; mret (Some 0)
  end.

Definition sys_yield : kop Z :=
  k ← get;
  s ← klift (suspend_current (sl_sched (sleep k)));
  put (set_sched k s);;
  mret 0.

(** [sys_kill] and the signal calls act on the signal part of a process. *)
Definition sig_state (p : Pcb (F := F)) (cx : TrapContext) (backup : option TrapContext) : SigState :=
  mkSig (p_signals (sigs p)) (p_signal_mask (sigs p)) (p_handling_sig (sigs p)) (p_signal_actions (sigs p))
    (p_killed (sigs p)) (p_frozen (sigs p)) cx backup.
End process.
