(* ===== verification/ProcessTree.v ===== *)
(** * ProcessTree.v: the tree of processes

    The specification is an abstract tree: per process its pid, its parent, its children and, once
    it ended, its exit code.  The operations of Process.v are proved to take exactly the steps of
    the specification ([fork], [exit], [wait]) or none, and the tree that can be reached is well
    formed: nobody is orphaned and no zombie is lost. *)

From S2P Require Import Prelude Bytes Address FrameAlloc PageTable MemorySet Ids Sched Timer UserIo Signals Kernel Process.

(** ** The specification *)

Record View : Type := mkView {
  v_procs : gmap nat (Z * ProcTree);
  v_pid2pcb : gmap Z nat;
  v_pids : RecycleAllocator;
  v_init : nat;
}.

Definition v_alter (f : ProcTree → ProcTree) (a : nat) (ps : gmap nat (Z * ProcTree)) : gmap nat (Z * ProcTree) :=
  alter (λ n, (n.1, f n.2)) a ps.

Definition add_child (c : nat) (t : ProcTree) : ProcTree := mkTree (is_zombie t) (parent t) (children t ++ [c]) (exit_code t).
Definition set_parent (a : nat) (t : ProcTree) : ProcTree := mkTree (is_zombie t) (Some a) (children t) (exit_code t).
Definition set_children (l : list nat) (t : ProcTree) : ProcTree := mkTree (is_zombie t) (parent t) l (exit_code t).
Definition set_ended (code : Z) (t : ProcTree) : ProcTree := mkTree true (parent t) (children t) code.

(** [a] forks the process [c]. *)
Definition v_fork (v : View) (a c : nat) : View :=
  let '(pid, r) := RecycleAllocator_alloc (v_pids v) in
  mkView (v_alter (add_child c) a (<[c := (pid, mkTree false (Some a) [] 0)]> (v_procs v)))
    (<[pid := c]> (v_pid2pcb v)) r (v_init v).

(** The children [cs] are handed to [init]. *)
Definition v_reparent (init : nat) (cs : list nat) (ps : gmap nat (Z * ProcTree)) : gmap nat (Z * ProcTree) :=
  foldl (λ ps c, v_alter (add_child c) init (v_alter (set_parent init) c ps)) ps cs.

(** The process [a], [pid] and children [cs], ends with [code]. *)
Definition v_exit (v : View) (a : nat) (pid code : Z) (cs : list nat) : View :=
  mkView (v_alter (set_children []) a (v_reparent (v_init v) cs (v_alter (set_ended code) a (v_procs v))))
    (delete pid (v_pid2pcb v)) (v_pids v) (v_init v).

(** [a] takes its [idx]-th child [c] away, which gives back its pid: the allocator is then [r]. *)
Definition v_wait (v : View) (a : nat) (idx : nat) (c : nat) (r : RecycleAllocator) : View :=
  mkView (delete c (v_alter (λ t, set_children (delete idx (children t)) t) a (v_procs v)))
    (v_pid2pcb v) r (v_init v).

(** [a] asks for the child [i] (-1: any): what it gets, the exit code it is given, and the tree after.
    These are the transitions that the tree allows, not the call: the call may panic instead ([waitpid_reaps]). *)
Definition v_asked (v : View) (i : Z) (c : nat) : bool :=
  match v_procs v !! c with Some n => (i =? -1) || (u64 i =? n.1) | None => false end.

Definition v_zombie (v : View) (c : nat) : bool :=
  match v_procs v !! c with Some n => is_zombie n.2 | None => false end.

Definition v_waitpid (v : View) (a : nat) (i : Z) : option (Z * option Z * View) :=
  n ← v_procs v !! a;
  if negb (existsb (v_asked v i) (children n.2)) then Some (-1, None, v)
  else
    match find_index (λ c, v_zombie v c && v_asked v i c) (children n.2) with
    | None => Some (-2, None, v)
    | Some idx =>
        c ← children n.2 !! idx;
        m ← v_procs v !! c;
        match RecycleAllocator_dealloc (v_pids v) m.1 with
        | Done r => Some (m.1, Some (exit_code m.2), v_wait v a idx c r)
        | Panicked _ => None
        end
    end.

Inductive tree_step : View → View → Prop :=
| step_fork v a c n : v_procs v !! a = Some n → c ∉ dom (v_procs v) → is_zombie n.2 = false →
    ra_current (v_pids v) + 1 < 2 ^ 63 → tree_step v (v_fork v a c)
| step_exit v a pid t code : v_procs v !! a = Some (pid, t) → a ≠ v_init v → is_zombie t = false →
    tree_step v (v_exit v a pid code (children t))
| step_wait v a n idx c pid t r : v_procs v !! a = Some n → children n.2 !! idx = Some c →
    v_procs v !! c = Some (pid, t) → is_zombie t = true →
    RecycleAllocator_dealloc (v_pids v) pid = Done r → tree_step v (v_wait v a idx c r).

(** ** What a well-formed tree is *)

(** [c] is a child of [a]. *)
Definition child_of (ps : gmap nat (Z * ProcTree)) (c a : nat) : Prop :=
  ∃ n m, ps !! c = Some n ∧ ps !! a = Some m ∧ parent n.2 = Some a ∧ c ∈ children m.2.

Record tree_ok (v : View) : Prop := {
  to_init : ∃ t, v_procs v !! v_init v = Some (IDLE_PID, t) ∧ is_zombie t = false ∧ parent t = None;
  to_child : ∀ a n c, v_procs v !! a = Some n → c ∈ children n.2 → child_of (v_procs v) c a;
  to_nodup : ∀ a n, v_procs v !! a = Some n → NoDup (children n.2);
  to_zombie : ∀ a n, v_procs v !! a = Some n → is_zombie n.2 = true → children n.2 = [];
  to_root : ∀ a, a ∈ dom (v_procs v) → rtc (child_of (v_procs v)) a (v_init v);
  to_pids : ∀ a b n m, v_procs v !! a = Some n → v_procs v !! b = Some m → n.1 = m.1 → a = b;
  to_live : ∃ live, ra_inv (v_pids v) live ∧ ∀ p, p ∈ live ↔ ∃ a t, v_procs v !! a = Some (p, t);
  to_map : ∀ p a, v_pid2pcb v !! p = Some a ↔ ∃ t, v_procs v !! a = Some (p, t) ∧ is_zombie t = false;
}.

(** ** Lookups in the trees the steps make *)

Section lookups.
Implicit Types ps : gmap nat (Z * ProcTree).

Lemma lookup_v_alter f a ps b : v_alter f a ps !! b = if decide (b = a) then (λ n, (n.1, f n.2)) <$> ps !! b else ps !! b.
Proof. unfold v_alter. case_decide as E; [subst; apply lookup_alter_eq|by rewrite lookup_alter_ne]. Qed.

Lemma lookup_v_reparent init cs ps b : NoDup cs → init ∉ cs →
  v_reparent init cs ps !! b =
    if decide (b = init) then (λ n, (n.1, set_children (children n.2 ++ cs) n.2)) <$> ps !! b
    else if decide (b ∈ cs) then (λ n, (n.1, set_parent init n.2)) <$> ps !! b
    else ps !! b.
Proof.
  revert ps. induction cs as [|c cs IH]; intros ps Hnd Hi.
  - cbn. case_decide; [|case_decide; [set_solver|done]]. destruct (ps !! b) as [[p [z r ch e]]|]; [|done]. cbn. unfold set_children. cbn. by rewrite app_nil_r.
  - apply NoDup_cons in Hnd as [Hc Hnd]. apply not_elem_of_cons in Hi as [Hci Hi]. cbn [v_reparent foldl].
    fold (v_reparent init cs (v_alter (add_child c) init (v_alter (set_parent init) c ps))). rewrite IH by done.
    rewrite !lookup_v_alter. repeat case_decide; subst; try set_solver; try done.
    destruct (ps !! init) as [[p [z r ch e]]|]; [|done]. cbn. unfold set_children, add_child. cbn. by rewrite <- app_assoc.
Qed.

(** An edge stays when its child keeps its parent and its parent keeps the child. *)
Lemma child_of_mono ps ps' x y :
  (∀ n, ps !! x = Some n → ∃ n', ps' !! x = Some n' ∧ parent n'.2 = parent n.2) →
  (∀ m, ps !! y = Some m → x ∈ children m.2 → ∃ m', ps' !! y = Some m' ∧ x ∈ children m'.2) →
  child_of ps x y → child_of ps' x y.
Proof.
  intros H1 H2 (n & m & Hx & Hy & Hp & Hc). destruct (H1 n Hx) as (n' & Hx' & E). destruct (H2 m Hy Hc) as (m' & Hy' & Hc').
  exists n', m'. by rewrite E.
Qed.

Lemma child_of_dom ps x y : child_of ps x y → x ∈ dom ps ∧ y ∈ dom ps.
Proof. intros (n & m & Hx & Hy & _). by split; apply elem_of_dom. Qed.
End lookups.

Section fork.
Context (v : View) (a c : nat) (n : Z * ProcTree) (W : tree_ok v).
Context (Ha : v_procs v !! a = Some n) (Hc : c ∉ dom (v_procs v)) (Hz : is_zombie n.2 = false).

Lemma fork_ne : a ≠ c.
Proof. intros ->. apply Hc. by apply elem_of_dom. Qed.

Lemma lookup_fork b : v_procs (v_fork v a c) !! b =
  if decide (b = c) then Some ((RecycleAllocator_alloc (v_pids v)).1, mkTree false (Some a) [] 0)
  else if decide (b = a) then Some (n.1, add_child c n.2) else v_procs v !! b.
Proof.
  unfold v_fork. destruct (RecycleAllocator_alloc (v_pids v)) as [pid r]. cbn [v_procs fst]. rewrite lookup_v_alter. pose proof fork_ne.
  destruct (decide (b = c)) as [->|Hbc]; [rewrite decide_False by done; apply lookup_insert_eq|].
  rewrite lookup_insert_ne by done. case_decide as E; [|done]. subst b. by rewrite Ha.
Qed.

Lemma fork_keeps b m : v_procs v !! b = Some m → ∃ m', v_procs (v_fork v a c) !! b = Some m' ∧ m'.1 = m.1 ∧
  parent m'.2 = parent m.2 ∧ is_zombie m'.2 = is_zombie m.2 ∧ ∀ x, x ∈ children m.2 → x ∈ children m'.2.
Proof.
  intros Hb. rewrite lookup_fork, decide_False by (intros ->; apply Hc; by apply elem_of_dom).
  case_decide as E; [|by exists m]. subst b. rewrite Ha in Hb. injection Hb as <-. eexists. split; [done|]. cbn. set_solver.
Qed.

Lemma fork_child x y : child_of (v_procs v) x y → child_of (v_procs (v_fork v a c)) x y.
Proof.
  apply child_of_mono.
  - intros m Hm. destruct (fork_keeps x m Hm) as (m' & ? & _ & ? & _). by exists m'.
  - intros m Hm. destruct (fork_keeps y m Hm) as (m' & ? & _ & _ & _ & ?). exists m'. auto.
Qed.

Lemma fork_new : child_of (v_procs (v_fork v a c)) c a.
Proof.
  pose proof fork_ne. eexists _, (n.1, add_child c n.2). rewrite !lookup_fork, decide_True by done.
  split; [done|]. rewrite decide_False, decide_True by done. cbn. set_solver.
Qed.

Lemma fork_ok : ra_current (v_pids v) + 1 < 2 ^ 63 → tree_ok (v_fork v a c).
Proof.
  intros Hb. pose proof fork_ne as Hne. pose proof lookup_fork as L. destruct W as [Wi Wc Wn Wz Wr Wp (live & Wl & Wlv) Wm].
  assert (Ep : v_init (v_fork v a c) = v_init v) by (unfold v_fork; by destruct (RecycleAllocator_alloc (v_pids v))).
  pose proof (ra_alloc_spec (v_pids v) live Wl Hb) as Hal.
  assert (Hnew : (RecycleAllocator_alloc (v_pids v)).1 ∉ live) by (destruct (RecycleAllocator_alloc (v_pids v)); apply Hal).
  assert (Hpid : ∀ b m, v_procs v !! b = Some m → m.1 ≠ (RecycleAllocator_alloc (v_pids v)).1).
  { intros b [p t] Hm E. apply Hnew. rewrite <- E. apply Wlv. by exists b, t. }
  split.
  - rewrite Ep. destruct Wi as (t & Hi & ? & ?). destruct (fork_keeps _ _ Hi) as ([p t'] & Hl & Hp & Hpar & Hzz & _).
    cbn in *. subst p. exists t'. by rewrite Hpar, Hzz.
  - intros b m x Hm Hx. rewrite L in Hm. case_decide; [by injection Hm as <-; set_solver|]. case_decide.
    + subst b. injection Hm as <-. cbn in Hx. apply elem_of_app in Hx as [Hx| ->%list_elem_of_singleton]; [|apply fork_new].
      apply fork_child. by apply (Wc a n).
    + apply fork_child. by apply (Wc b m).
  - intros b m Hm. rewrite L in Hm. case_decide; [by injection Hm as <-; constructor|]. case_decide; [|by eapply Wn].
    subst b. injection Hm as <-. cbn. apply NoDup_app. split; [by eapply Wn|]. split; [|apply NoDup_singleton].
    intros x Hx ->%list_elem_of_singleton. apply Hc. destruct (Wc a n c Ha Hx) as (? & _ & Hcc & _). by apply elem_of_dom.
  - intros b m Hm Hzm. rewrite L in Hm. case_decide; [by injection Hm as <-|]. case_decide; [|by eapply Wz].
    injection Hm as <-. cbn in *. congruence.
  - intros b Hdom. rewrite Ep. assert (Hold : ∀ b, b ∈ dom (v_procs v) → rtc (child_of (v_procs (v_fork v a c))) b (v_init v)).
    { intros b' Hb'. eapply rtc_subrel; [|by apply Wr]. intros x y. apply fork_child. }
    apply elem_of_dom in Hdom as [m Hm]. rewrite L in Hm. case_decide.
    + subst b. eapply rtc_l; [apply fork_new|]. apply Hold. by apply elem_of_dom.
    + apply Hold. case_decide; [subst b|]; by apply elem_of_dom.
  - intros b d m1 m2 H1 H2 E. rewrite L in H1, H2.
    pose proof (Hpid a n Ha). pose proof (Hpid b m1) as P1. pose proof (Hpid d m2) as P2.
    pose proof (Wp a d n m2 Ha) as Q1. pose proof (Wp b a m1 n) as Q2. pose proof (Wp b d m1 m2) as Q3.
    repeat case_decide; subst; try done; repeat match goal with E : Some _ = Some _ |- _ => injection E as <- end; cbn in E;
      naive_solver congruence.
  - unfold v_fork in *. destruct (RecycleAllocator_alloc (v_pids v)) as [pid r] eqn:Er. cbn [v_pids v_procs fst] in *.
    exists ({[pid]} ∪ live). split; [by apply Hal|]. intros p. rewrite elem_of_union, elem_of_singleton, Wlv. split.
    + intros [->|(b & t & Hbt)]; [exists c; eexists; by rewrite L, decide_True|].
      destruct (decide (b = a)) as [->|Hba].
      * rewrite Ha in Hbt. injection Hbt as ->. exists a. eexists. by rewrite L, decide_False, decide_True.
      * exists b, t. rewrite L, decide_False, decide_False by (done || (intros ->; apply Hc; by apply elem_of_dom)). done.
    + intros (b & t & Hbt). rewrite L in Hbt. case_decide; [left; by injection Hbt|]. right. case_decide.
      * subst b. injection Hbt as E _. exists a, n.2. rewrite Ha, <- E. by destruct n.
      * by exists b, t.
  - intros p b. unfold v_fork in *. destruct (RecycleAllocator_alloc (v_pids v)) as [pid r] eqn:Er. cbn [v_pid2pcb v_procs fst] in *.
    rewrite L. destruct (decide (p = pid)) as [->|Hp].
    + rewrite lookup_insert_eq. split.
      * intros [= ->]. eexists. by rewrite decide_True.
      * intros (t & Ht & _). case_decide; [by subst|]. case_decide.
        -- injection Ht as E _. exfalso. by apply (Hpid a n Ha).
        -- exfalso. by apply (Hpid b _ Ht).
    + rewrite lookup_insert_ne, Wm by done. split; intros (t & Ht & Hzt).
      * exists (if decide (b = a) then add_child c t else t). rewrite decide_False by (intros ->; apply Hc; by apply elem_of_dom).
        case_decide; [|done]. subst b. rewrite Ha in Ht. injection Ht as ->. done.
      * case_decide; [by injection Ht as <-|]. case_decide; [|by exists t]. subst b. injection Ht as <- <-. exists n.2.
        by destruct n.
Qed.
End fork.

Section exit.
Context (v : View) (a : nat) (pid code : Z) (t : ProcTree) (W : tree_ok v).
Context (Ha : v_procs v !! a = Some (pid, t)) (Hi : a ≠ v_init v) (Hz : is_zombie t = false).

Lemma exit_children c : c ∈ children t → ∃ n, v_procs v !! c = Some n ∧ parent n.2 = Some a.
Proof. intros Hc. destruct (to_child v W a _ c Ha Hc) as (n & m & ? & _ & ? & _). by exists n. Qed.

Lemma init_not_child : v_init v ∉ children t.
Proof.
  intros Hin. destruct (exit_children _ Hin) as (n & Hn & Hp). destruct (to_init v W) as (ti & Hti & _ & Hpar).
  rewrite Hn in Hti. injection Hti as ->. cbn in Hp. congruence.
Qed.

Lemma self_not_child : a ∉ children t.
Proof.
  intros Hin. pose proof (to_root v W a) as Hr. rewrite elem_of_dom in Hr. specialize (Hr (mk_is_Some _ _ Ha)).
  assert (Hup : ∀ x y, child_of (v_procs v) x y → x = a → y = a).
  { intros x y (n & m & Hx & _ & Hp & _) ->. destruct (exit_children a Hin) as (n' & Hn' & Hp'). congruence. }
  assert (Hall : ∀ x y, rtc (child_of (v_procs v)) x y → x = a → y = a).
  { intros x y Hxy. induction Hxy as [|x y z Hs _ IH]; [done|]. intros E. apply IH. by apply (Hup x y). }
  apply Hi. symmetry. by apply (Hall a (v_init v)).
Qed.

Lemma lookup_exit b : v_procs (v_exit v a pid code (children t)) !! b =
  if decide (b = a) then Some (pid, mkTree true (parent t) [] code)
  else if decide (b = v_init v) then (λ n, (n.1, set_children (children n.2 ++ children t) n.2)) <$> v_procs v !! b
  else if decide (b ∈ children t) then (λ n, (n.1, set_parent (v_init v) n.2)) <$> v_procs v !! b
  else v_procs v !! b.
Proof.
  unfold v_exit. cbn [v_procs]. rewrite lookup_v_alter, lookup_v_reparent, !lookup_v_alter;
    [|by apply (to_nodup v W a (pid, t))|apply init_not_child].
  pose proof self_not_child. repeat case_decide; subst; try done. by rewrite Ha.
Qed.

(** What [exit] keeps of a node. *)
Lemma exit_keeps b m : v_procs v !! b = Some m → ∃ m', v_procs (v_exit v a pid code (children t)) !! b = Some m' ∧ m'.1 = m.1 ∧
  (b ∉ children t → parent m'.2 = parent m.2) ∧ (b ∈ children t → parent m'.2 = Some (v_init v)) ∧
  (b ≠ a → is_zombie m'.2 = is_zombie m.2 ∧ ∀ x, x ∈ children m.2 → x ∈ children m'.2).
Proof.
  intros Hb. rewrite lookup_exit. pose proof init_not_child. pose proof self_not_child.
  repeat case_decide; subst; rewrite ?Hb; eexists; (split; [done|]); cbn; try done.
  - rewrite Ha in Hb. by injection Hb as <-.
  - split; [done|]. split; [done|]. split; [done|]. intros _. split; [done|]. set_solver.
Qed.

Lemma exit_child x : x ∈ children t → child_of (v_procs (v_exit v a pid code (children t))) x (v_init v).
Proof.
  intros Hx. destruct (exit_children x Hx) as (n & Hn & _). destruct (exit_keeps x n Hn) as (n' & Hn' & _ & _ & Hp & _).
  destruct (to_init v W) as (ti & Hti & _). eexists n', _. split; [done|]. rewrite lookup_exit, decide_False, decide_True by done.
  rewrite Hti. cbn. split; [done|]. split; [by apply Hp|]. set_solver.
Qed.

Lemma exit_edge x y : y ≠ a → child_of (v_procs v) x y → child_of (v_procs (v_exit v a pid code (children t))) x y.
Proof.
  intros Hy Hxy. assert (Hx : x ∉ children t).
  { intros Hx. destruct (exit_children x Hx) as (n & Hn & Hp). destruct Hxy as (n' & _ & Hn' & _ & Hp' & _). congruence. }
  revert Hxy. apply child_of_mono.
  - intros n Hn. destruct (exit_keeps x n Hn) as (n' & Hn' & _ & Hp & _). exists n'. split; [done|by apply Hp].
  - intros m Hm Hc. destruct (exit_keeps y m Hm) as (m' & Hm' & _ & _ & _ & Hk). exists m'. split; [done|by apply Hk].
Qed.

Lemma exit_path b i : rtc (child_of (v_procs v)) b i → i = v_init v → rtc (child_of (v_procs (v_exit v a pid code (children t)))) b i.
Proof.
  intros Hr. induction Hr as [|x y z Hxy _ IH]; [done|]. intros ->.
  destruct (decide (y = a)) as [->|Hy]; [|eapply rtc_l; [by apply exit_edge|by apply IH]].
  apply rtc_once. apply exit_child. destruct Hxy as (n & m & _ & Hm & _ & Hc). rewrite Ha in Hm. by injection Hm as <-.
Qed.

Lemma exit_pid b : (∃ u, v_procs (v_exit v a pid code (children t)) !! b = Some u) ↔ ∃ u, v_procs v !! b = Some u.
Proof.
  split; intros [u Hu].
  - rewrite lookup_exit in Hu. repeat case_decide; subst; [by eexists| | |by eexists];
      apply fmap_Some in Hu as (m & Hm & _); by exists m.
  - destruct (exit_keeps b u Hu) as (m & Hm & _). by exists m.
Qed.

(** A node after [exit] and the one it was. *)
Lemma exit_was b m' : v_procs (v_exit v a pid code (children t)) !! b = Some m' → ∃ m, v_procs v !! b = Some m ∧ m'.1 = m.1 ∧
  is_zombie m'.2 = (if decide (b = a) then true else is_zombie m.2) ∧
  children m'.2 = (if decide (b = a) then [] else if decide (b = v_init v) then children m.2 ++ children t else children m.2).
Proof.
  intros Hm'. rewrite lookup_exit in Hm'. repeat case_decide; subst; [injection Hm' as <-; by exists (pid, t)| | |by exists m'];
    apply fmap_Some in Hm' as (m & Hm & ->); by exists m.
Qed.

Lemma exit_ok : tree_ok (v_exit v a pid code (children t)).
Proof.
  pose proof exit_keeps as K. pose proof W as [Wi Wc Wn Wz Wr Wp (live & Wl & Wlv) Wm]. split.
  - destruct Wi as (ti & Hti & Hzi & Hpi). destruct (K _ _ Hti) as ([p t'] & Ht' & Hp & Hpar & _ & Hk). cbn in *. subst p.
    destruct (Hk ltac:(done)) as [Hzz _]. exists t'. rewrite Hpar by apply init_not_child. by rewrite Hzz.
  - intros b m' x Hm' Hx. destruct (exit_was b m' Hm') as (m & Hm & _ & _ & Hch). rewrite Hch in Hx.
    case_decide; [set_solver|]. case_decide.
    + subst b. apply elem_of_app in Hx as [Hx|Hx]; [|by apply exit_child]. apply exit_edge; [done|]. by apply (Wc _ m).
    + apply exit_edge; [done|]. by apply (Wc b m).
  - intros b m' Hm'. destruct (exit_was b m' Hm') as (m & Hm & _ & _ & ->). case_decide; [constructor|]. case_decide; [|by eapply Wn].
    subst b. apply NoDup_app. split; [by eapply Wn|]. split; [|by apply (Wn a (pid, t))]. intros x Hx Hxt.
    destruct (exit_children x Hxt) as (n & Hn & Hp). destruct (Wc _ m x Hm Hx) as (n' & _ & Hn' & _ & Hp' & _). congruence.
  - intros b m' Hm' Hzm. destruct (exit_was b m' Hm') as (m & Hm & _ & Ez & ->). rewrite Ez in Hzm.
    case_decide; [done|]. case_decide; [|by apply (Wz b m)]. subst b. destruct Wi as (ti & Hti & Hzi & _).
    rewrite Hm in Hti. injection Hti as ->. cbn in Hzm. congruence.
  - intros b Hb. apply exit_path; [|done]. apply Wr. apply elem_of_dom in Hb. apply elem_of_dom. destruct Hb as [u Hu].
    by apply (exit_pid b); exists u.
  - intros b d m1 m2 H1 H2 E. destruct (exit_was b m1 H1) as (n1 & Hn1 & E1 & _). destruct (exit_was d m2 H2) as (n2 & Hn2 & E2 & _).
    apply (Wp b d n1 n2 Hn1 Hn2). congruence.
  - exists live. split; [done|]. intros p. rewrite Wlv. split; intros (b & u & Hb).
    + destruct (K b (p, u) Hb) as ([p' u'] & Hu' & E & _). cbn in E. subst p'. by exists b, u'.
    + destruct (exit_was b _ Hb) as ([p' u'] & Hu' & E & _). cbn in E. subst p'. by exists b, u'.
  - intros p b. cbn [v_pid2pcb v_exit]. rewrite lookup_delete_Some, Wm. split.
    + intros [Hne (u & Hu & Hzu)]. destruct (K b (p, u) Hu) as ([p' u'] & Hu' & E & _ & _ & Hk). cbn in E. subst p'.
      assert (b ≠ a) by (intros ->; rewrite Ha in Hu; congruence). exists u'. split; [done|].
      destruct (Hk ltac:(done)) as [Ez _]. cbn in Ez. congruence.
    + intros (u & Hu & Hzu). destruct (exit_was b _ Hu) as ([p' u'] & Hu' & E & Ez & _). cbn in E, Ez. subst p'.
      case_decide; [congruence|]. split; [|exists u'; split; [done|congruence]]. intros ->.
      by pose proof (Wp b a _ _ Hu' Ha eq_refl).
Qed.
End exit.

Section wait.
Context (v : View) (a idx c : nat) (n : Z * ProcTree) (pid : Z) (t : ProcTree) (r : RecycleAllocator) (W : tree_ok v).
Context (Ha : v_procs v !! a = Some n) (Hidx : children n.2 !! idx = Some c).
Context (Hc : v_procs v !! c = Some (pid, t)) (Hz : is_zombie t = true) (Hr : RecycleAllocator_dealloc (v_pids v) pid = Done r).

Lemma wait_ne : a ≠ c ∧ c ≠ v_init v.
Proof.
  split; intros ->.
  - rewrite Ha in Hc. injection Hc as ->. pose proof (to_zombie v W c (pid, t) Ha Hz) as E. cbn in *. by rewrite E in Hidx.
  - destruct (to_init v W) as (ti & Hti & Hzi & _). rewrite Hc in Hti. injection Hti as _ ->. congruence.
Qed.

Lemma lookup_wait b : v_procs (v_wait v a idx c r) !! b =
  if decide (b = c) then None else if decide (b = a) then Some (n.1, set_children (delete idx (children n.2)) n.2) else v_procs v !! b.
Proof.
  unfold v_wait. cbn [v_procs]. destruct (decide (b = c)) as [->|Hbc]; [apply lookup_delete_eq|].
  rewrite lookup_delete_ne, lookup_v_alter by done. case_decide as E; [|done]. subst b. by rewrite Ha.
Qed.

Lemma wait_was b m' : v_procs (v_wait v a idx c r) !! b = Some m' → ∃ m, v_procs v !! b = Some m ∧ b ≠ c ∧ m'.1 = m.1 ∧
  is_zombie m'.2 = is_zombie m.2 ∧ parent m'.2 = parent m.2 ∧
  children m'.2 = (if decide (b = a) then delete idx (children n.2) else children m.2).
Proof.
  rewrite lookup_wait. case_decide; [done|]. case_decide as E; [intros [= <-]; subst b; by exists n|intros Hm; by exists m'].
Qed.

(** The other children stay, each once. *)
Lemma wait_children x : x ∈ delete idx (children n.2) ↔ x ∈ children n.2 ∧ x ≠ c.
Proof.
  pose proof (to_nodup v W a n Ha) as Hnd. pose proof (delete_Permutation _ _ _ Hidx) as P.
  set (d := delete idx (children n.2)) in *. clearbody d. rewrite P in Hnd. apply NoDup_cons in Hnd as [Hnc _]. split.
  - intros Hx. split; [rewrite P; by right|]. by intros ->.
  - rewrite P. by intros [[->|Hx]%elem_of_cons Hne].
Qed.

Lemma wait_keeps b m : b ≠ c → v_procs v !! b = Some m → ∃ m', v_procs (v_wait v a idx c r) !! b = Some m' ∧ m'.1 = m.1 ∧
  parent m'.2 = parent m.2 ∧ is_zombie m'.2 = is_zombie m.2 ∧ ∀ x, x ≠ c → x ∈ children m.2 → x ∈ children m'.2.
Proof.
  intros Hb Hm. rewrite lookup_wait, decide_False by done. case_decide as E; [|by exists m].
  subst b. rewrite Ha in Hm. injection Hm as <-. eexists. split; [done|]. cbn. do 3 (split; [done|]).
  intros x Hx Hin. by apply wait_children.
Qed.

Lemma wait_edge x y : x ≠ c → child_of (v_procs v) x y → child_of (v_procs (v_wait v a idx c r)) x y.
Proof.
  intros Hx Hxy. assert (Hy : y ≠ c).
  { intros ->. destruct Hxy as (_ & m & _ & Hm & _ & Hin). rewrite Hc in Hm. injection Hm as <-.
    pose proof (to_zombie v W c _ Hc Hz) as E. cbn in *. by rewrite E in Hin; apply not_elem_of_nil in Hin. }
  revert Hxy. apply child_of_mono.
  - intros m Hm. destruct (wait_keeps x m Hx Hm) as (m' & ? & _ & ? & _). by exists m'.
  - intros m Hm Hin. destruct (wait_keeps y m Hy Hm) as (m' & ? & _ & _ & _ & Hk). exists m'. auto.
Qed.

Lemma wait_path x y : rtc (child_of (v_procs v)) x y → x ≠ c → rtc (child_of (v_procs (v_wait v a idx c r))) x y.
Proof.
  intros Hxy. induction Hxy as [x|x y z Hs _ IH]; [done|]. intros Hx. eapply rtc_l; [by apply wait_edge|].
  apply IH. intros ->. destruct Hs as (_ & m & _ & Hm & _ & Hin). rewrite Hc in Hm. injection Hm as <-.
  pose proof (to_zombie v W c _ Hc Hz) as E. cbn in *. by rewrite E in Hin; apply not_elem_of_nil in Hin.
Qed.

Lemma wait_ok : tree_ok (v_wait v a idx c r).
Proof.
  pose proof wait_ne as [Hac Hci]. pose proof W as [Wi Wc Wn Wz Wr Wp (live & Wl & Wlv) Wm]. split.
  - destruct Wi as (ti & Hti & Hzi & Hpi). destruct (wait_keeps (v_init v) _ ltac:(done) Hti) as ([p u] & Hu & E & Ep & Ez & _).
    cbn in *. subst p. exists u. by rewrite Ep, Ez.
  - intros b m' x Hm' Hx. destruct (wait_was b m' Hm') as (m & Hm & Hbc & _ & _ & _ & Ech). rewrite Ech in Hx.
    case_decide.
    + subst b. apply wait_children in Hx as [Hx Hne]. apply wait_edge; [done|]. by apply (Wc a n).
    + apply wait_edge; [|by apply (Wc b m)]. intros ->. destruct (Wc b m c Hm Hx) as (k & _ & Hk & _ & Hp & _).
      destruct (Wc a n c Ha (list_elem_of_lookup_2 _ _ _ Hidx)) as (k' & _ & Hk' & _ & Hp' & _). congruence.
  - intros b m' Hm'. destruct (wait_was b m' Hm') as (m & Hm & _ & _ & _ & _ & ->). case_decide; [|by eapply Wn].
    pose proof (Wn a n Ha) as Hnd. pose proof (delete_Permutation _ _ _ Hidx) as P.
    set (d := delete idx (children n.2)) in *. clearbody d. rewrite P in Hnd. by apply NoDup_cons in Hnd as [_ Hnd].
  - intros b m' Hm' Hzm. destruct (wait_was b m' Hm') as (m & Hm & _ & _ & Ez & _ & ->). rewrite Ez in Hzm.
    case_decide; [|by apply (Wz b m)]. subst b. rewrite Ha in Hm. injection Hm as <-. pose proof (Wz a n Ha Hzm) as E.
    by rewrite E in Hidx.
  - intros b Hb. apply elem_of_dom in Hb as [m' Hm']. destruct (wait_was b m' Hm') as (m & Hm & Hbc & _).
    apply wait_path; [|done]. apply Wr. by apply elem_of_dom.
  - intros b d m1 m2 H1 H2 E. destruct (wait_was b m1 H1) as (n1 & Hn1 & _ & E1 & _). destruct (wait_was d m2 H2) as (n2 & Hn2 & _ & E2 & _).
    apply (Wp b d n1 n2 Hn1 Hn2). congruence.
  - exists (live ∖ {[pid]}). cbn [v_pids v_wait].
    assert (Hpl : pid ∈ live) by (apply Wlv; by exists c, t).
    pose proof (ra_dealloc_spec (v_pids v) live pid Wl) as Hd. rewrite decide_True in Hd by done.
    destruct Hd as (r' & Hr' & Il); [by apply (ra_live _ _ Wl)|]. rewrite Hr in Hr'. injection Hr' as <-. split; [done|].
    intros p. rewrite elem_of_difference, elem_of_singleton, Wlv. split.
    + intros [(b & u & Hb) Hne]. assert (Hbc : b ≠ c) by (intros ->; rewrite Hc in Hb; congruence).
      destruct (wait_keeps b _ Hbc Hb) as ([p' u'] & Hu' & E & _). cbn in E. subst p'. by exists b, u'.
    + intros (b & u & Hb). destruct (wait_was b _ Hb) as ([p' u'] & Hu' & Hbc & E & _). cbn in E. subst p'. split; [by exists b, u'|].
      intros ->. by pose proof (Wp b c _ _ Hu' Hc eq_refl).
  - intros p b. cbn [v_pid2pcb v_wait]. rewrite Wm. split; intros (u & Hu & Hzu).
    + assert (Hbc : b ≠ c) by (intros ->; rewrite Hc in Hu; congruence).
      destruct (wait_keeps b _ Hbc Hu) as ([p' u'] & Hu' & E & _ & Ez & _). cbn in E, Ez. subst p'. exists u'. by rewrite Ez.
    + destruct (wait_was b _ Hu) as ([p' u'] & Hu' & _ & E & Ez & _). cbn in E, Ez. subst p'. exists u'. by rewrite <- Ez.
Qed.
End wait.

Lemma tree_step_ok v v' : tree_step v v' → tree_ok v → tree_ok v'.
Proof. intros Hs W. destruct Hs; [by eapply fork_ok|by apply exit_ok|by eapply wait_ok]. Qed.

(** What [v_waitpid] does is the step [wait], or nothing. *)
Lemma v_waitpid_inv v a i r code v' : v_waitpid v a i = Some (r, code, v') →
  (v' = v ∧ code = None ∧ (r = -1 ∨ r = -2)) ∨
  ∃ n idx c t ra, v_procs v !! a = Some n ∧ children n.2 !! idx = Some c ∧ v_procs v !! c = Some (r, t) ∧ is_zombie t = true ∧
    v_asked v i c = true ∧ code = Some (exit_code t) ∧ RecycleAllocator_dealloc (v_pids v) r = Done ra ∧ v' = v_wait v a idx c ra.
Proof.
  unfold v_waitpid. intros (n & Hn & E)%bind_Some. destruct (existsb _ _); cbn [negb] in E; [|injection E as <- <- <-; by left; auto].
  destruct (find_index _ _) as [idx|] eqn:Ei; [|injection E as <- <- <-; by left; auto]. right.
  apply find_index_Some in Ei as [(c & Hc & [Hz Hq]%andb_true_iff) _]. apply bind_Some in E as (c' & Hc' & (m & Hm & E)%bind_Some).
  rewrite Hc in Hc'. injection Hc' as <-. destruct (RecycleAllocator_dealloc _ _) as [ra|] eqn:Er; [|done]. injection E as <- <- <-.
  unfold v_zombie in Hz. rewrite Hm in Hz. destruct m as [p t]. exists n, idx, c, t, ra. by split_and!.
Qed.

Lemma v_waitpid_step v a i r code v' : v_waitpid v a i = Some (r, code, v') → v' = v ∨ tree_step v v'.
Proof.
  intros [[-> _]|(n & idx & c & t & ra & Hn & Hidx & Hc & Hz & _ & _ & Hra & ->)]%v_waitpid_inv; [by left|right].
  by eapply step_wait.
Qed.

(** The tree of the first process alone. *)
Definition first_tree (a : nat) : View := mkView {[a := (0, mkTree false None [] 0)]} {[0 := a]} (mkRecycle 1 []) a.

Lemma first_tree_ok a : tree_ok (first_tree a).
Proof.
  split; cbn.
  - eexists. by rewrite lookup_singleton_eq.
  - intros b n c [<- <-]%lookup_singleton_Some Hc. by apply not_elem_of_nil in Hc.
  - intros b n [<- <-]%lookup_singleton_Some. constructor.
  - by intros b n [<- <-]%lookup_singleton_Some.
  - intros b Hb. rewrite dom_singleton_L in Hb. by apply elem_of_singleton in Hb as ->.
  - intros b c n m [<- <-]%lookup_singleton_Some [<- <-]%lookup_singleton_Some. done.
  - exists {[0]}. split.
    + split; cbn; [lia|constructor|intros i Hi; by apply not_elem_of_nil in Hi|]. intros i. rewrite elem_of_singleton.
      split; [intros ->; split; [lia|apply not_elem_of_nil]|lia].
    + intros p. rewrite elem_of_singleton. split; [intros ->; eexists _, _; by rewrite lookup_singleton_eq|].
      by intros (b & t & [_ [= <- _]]%lookup_singleton_Some).
  - intros p b. rewrite lookup_singleton_Some. split.
    + intros [<- <-]. eexists. by rewrite lookup_singleton_eq.
    + by intros (t & [<- [= <- _]]%lookup_singleton_Some & _).
Qed.
