(* ===== verification/ProcessSim.v ===== *)
(** * ProcessSim.v: the operations on processes take the steps of the process tree

    [view] is what the specification of ProcessTree.v sees of the kernel's state.  Most operations
    do not change it ([quiet]); [fork], the end of a main thread and [sys_waitpid] take one step. *)

From S2P Require Import Prelude Bytes Address FrameAlloc PageTable MemorySet Ids Sched Timer UserIo Signals Kernel Process ProcessTree.

Section runs.
Context {A H F : Type} `{FrameAllocator A} `{BinaryHeap H}.
Notation Kernel := (Kernel (A := A) (H := H) (F := F)).
Notation kop := (kop (A := A) (H := H) (F := F)).
Implicit Types k : Kernel.

Definition node (p : Pcb (F := F)) : Z * ProcTree := (pid p, tree p).

Definition view k : View := mkView (node <$> procs k) (pid2pcb k) (pids k) (initproc k).

(** ** Runs of the monad, taken apart *)

Lemma kbind_inv {X Y} (m : kop X) (f : X → kop Y) k r : (m ≫= f) k = Done r → ∃ x k1, m k = Done (x, k1) ∧ f x k1 = Done r.
Proof. unfold mbind, kop_bind. destruct (m k) as [[x k1]|]; [|done]. by exists x, k1. Qed.

Lemma klift_inv {X} (o : outcome X) k x k' : klift o k = Done (x, k') → o = Done x ∧ k' = k.
Proof. unfold klift. destruct o; [|done]. cbn. by intros [= -> ->]. Qed.

Lemma get_proc_inv a k p k' : get_proc a k = Done (p, k') → procs k !! a = Some p ∧ k' = k.
Proof. intros (k1 & k2 & [= <- <-] & (E & ->)%klift_inv)%kbind_inv. by apply unwrap_Done in E. Qed.

Lemma get_task_inv t k x k' : get_task t k = Done (x, k') → tcbs k !! t = Some x ∧ k' = k.
Proof. intros (k1 & k2 & [= <- <-] & (E & ->)%klift_inv)%kbind_inv. by apply unwrap_Done in E. Qed.

Lemma put_proc_inv a p k u k' : put_proc a p k = Done (u, k') → k' = set_procs k (<[a := p]> (procs k)).
Proof. intros (k1 & k2 & [= <- <-] & E)%kbind_inv. by injection E. Qed.

Lemma put_task_inv t x k u k' : put_task t x k = Done (u, k') → k' = set_tcbs k (<[t := x]> (tcbs k)).
Proof. intros (k1 & k2 & [= <- <-] & E)%kbind_inv. by injection E. Qed.

Lemma put_inv (k1 : Kernel) k u k' : put k1 k = Done (u, k') → k' = k1.
Proof. by intros [= _ <-]. Qed.

Lemma get_inv k x k' : get k = Done (x, k') → x = k ∧ k' = k.
Proof. by intros [= <- <-]. Qed.

Lemma mret_inv {X} (x y : X) k k' : (mret x : kop X) k = Done (y, k') → y = x ∧ k' = k.
Proof. by intros [= <- <-]. Qed.

End runs.

(** Takes a run that ended apart into the runs of its parts. *)
Ltac krun :=
  repeat match goal with
  | E : mbind _ _ _ = Done _ |- _ => apply kbind_inv in E as (? & ? & ? & ?)
  | E : (let '(_, _) := ?x in _) _ = Done _ |- _ => first [is_var x; destruct x|destruct x eqn:?]
  | E : (let x := ?v in _) _ = Done _ |- _ => cbv zeta in E
  | E : get _ = Done (_, _) |- _ => apply get_inv in E as [? ?]; subst
  | E : put _ _ = Done (_, _) |- _ => apply put_inv in E; subst
  | E : klift _ _ = Done (_, _) |- _ => apply klift_inv in E as [? ?]; subst
  | E : mret _ _ = Done (_, _) |- _ => apply mret_inv in E as [? ?]; subst
  | E : get_proc _ _ = Done (_, _) |- _ => apply get_proc_inv in E as [? ?]; subst
  | E : get_task _ _ = Done (_, _) |- _ => apply get_task_inv in E as [? ?]; subst
  | E : put_proc _ _ _ = Done (_, _) |- _ => apply put_proc_inv in E; subst
  | E : put_task _ _ _ = Done (_, _) |- _ => apply put_task_inv in E; subst
  end.

Section quiet.
Context {A H F : Type} `{FrameAllocator A} `{BinaryHeap H}.
Notation Kernel := (Kernel (A := A) (H := H) (F := F)).
Notation kop := (kop (A := A) (H := H) (F := F)).
Implicit Types k : Kernel.

(** An operation that leaves the view as it is. *)
Definition quiet {X} (m : kop X) : Prop := ∀ k x k', m k = Done (x, k') → view k' = view k.

Lemma quiet_ret {X} (x : X) : quiet (mret x).
Proof. by intros k y k' [= -> ->]. Qed.

Lemma quiet_bind {X Y} (m : kop X) (f : X → kop Y) : quiet m → (∀ x, quiet (f x)) → quiet (m ≫= f).
Proof. intros Hm Hf k y k' (x & k1 & E1 & E2)%kbind_inv. rewrite (Hf x k1 y k' E2). by apply (Hm k x). Qed.

Lemma quiet_klift {X} (o : outcome X) : quiet (klift o).
Proof. by intros k y k' (_ & ->)%klift_inv. Qed.

Lemma quiet_get_proc a : quiet (get_proc a).
Proof. by intros k y k' (_ & ->)%get_proc_inv. Qed.

Lemma quiet_get_task t : quiet (get_task t).
Proof. by intros k y k' (_ & ->)%get_task_inv. Qed.

Lemma quiet_put_task t x : quiet (put_task t x).
Proof. by intros k y k' ->%put_task_inv. Qed.

(** [k ← get; m k]: the state is read, and what is done with it is quiet from that state. *)
Lemma quiet_get {X} (m : Kernel → kop X) : (∀ k x k', m k k = Done (x, k') → view k' = view k) → quiet (k ← get; m k).
Proof. intros Hm k x k' (k1 & k2 & [= <- <-] & E)%kbind_inv. by apply Hm in E. Qed.

Lemma view_put_same k p a q : procs k !! a = Some q → pid p = pid q → tree p = tree q →
  view (set_procs k (<[a := p]> (procs k))) = view k.
Proof.
  intros Hq E1 E2. unfold view. cbn [procs set_procs pid2pcb pids initproc]. f_equal. rewrite fmap_insert.
  apply insert_id. rewrite lookup_fmap, Hq. cbn. unfold node. by rewrite E1, E2.
Qed.

Lemma quiet_upd_proc a f : (∀ p, pid (f p) = pid p ∧ tree (f p) = tree p) → quiet (upd_proc a f).
Proof.
  intros Hf k x k' (p & k1 & (Hp & ->)%get_proc_inv & ->%put_proc_inv)%kbind_inv.
  by apply (view_put_same k _ a p); [|apply Hf|apply Hf].
Qed.

Lemma quiet_on_space {X} a (f : RecycleAllocator → MemorySet → Mm A → outcome (X * RecycleAllocator * MemorySet * Mm A)) :
  quiet (on_space a f).
Proof. intros k x k' E. unfold on_space in E. krun. by eapply (view_put_same (set_mm _ _)). Qed.

Lemma quiet_drop_res a res : quiet (drop_res a res).
Proof. apply quiet_on_space. Qed.

Lemma quiet_drop_task t : quiet (drop_task t).
Proof.
  intros k x k' E. unfold drop_task in E. krun. case_match; krun; [done|].
  match goal with E : (match tk_res ?x with Some _ => _ | None => _ end) _ = Done _ |- _ => destruct (tk_res x); [apply quiet_drop_res in E|]; krun end.
  - etransitivity; [|done]. done.
  - done.
Qed.

Lemma quiet_set_mm (m : Mm A) k : view (set_mm k m) = view k.
Proof. done. Qed.

Lemma quiet_drop_tasks ts : quiet (drop_tasks ts).
Proof.
  induction ts as [|[t|] ts IH]; cbn [drop_tasks]; [apply quiet_ret| |done].
  apply quiet_bind; [apply quiet_drop_task|done].
Qed.

Lemma quiet_TaskControlBlock_new a base alloc : quiet (TaskControlBlock_new a base alloc).
Proof.
  apply quiet_bind; [apply quiet_on_space|]. intros res k x k' E. krun. done.
Qed.

Lemma quiet_put_trap_cx t cx : quiet (put_trap_cx t cx).
Proof. intros k x k' E. unfold put_trap_cx in E. krun. done. Qed.

Lemma quiet_get_trap_cx t : quiet (get_trap_cx t).
Proof. intros k x k' E. unfold get_trap_cx in E. krun. done. Qed.

Lemma quiet_add_task t : quiet (k_add_task t).
Proof. intros k x k' E. unfold k_add_task in E. krun. done. Qed.

Lemma quiet_collect_res ts : quiet (collect_res ts).
Proof.
  induction ts as [|[t|] ts IH]; cbn [collect_res]; [apply quiet_ret| |done].
  intros k x k' E. krun. match goal with E : collect_res ts _ = _ |- _ => apply IH in E end. done.
Qed.

Lemma quiet_drop_all_res a l : quiet (drop_all_res a l).
Proof. induction l as [|res l IH]; cbn [drop_all_res]; [apply quiet_ret|]. apply quiet_bind; [apply quiet_drop_res|done]. Qed.

Lemma quiet_take_current : quiet take_current.
Proof. intros k x k' E. unfold take_current in E. krun. done. Qed.

Lemma quiet_init_context th ss entry sp top : quiet (init_context th ss entry sp top).
Proof. intros k x k' E. unfold init_context, kernel_token in E. krun. done. Qed.

Lemma quiet_set_tasks a ts : quiet (upd_proc a (λ p, set_tasks p (ts p))).
Proof. by apply quiet_upd_proc. Qed.

End quiet.

(** Running the quiet operations of a run changes no view. *)
Ltac quiets :=
  repeat match goal with
  | E : collect_res _ _ = Done (_, _) |- _ => apply quiet_collect_res in E
  | E : drop_all_res _ _ _ = Done (_, _) |- _ => apply quiet_drop_all_res in E
  | E : drop_res _ _ _ = Done (_, _) |- _ => apply quiet_drop_res in E
  | E : drop_task _ _ = Done (_, _) |- _ => apply quiet_drop_task in E
  | E : drop_tasks _ _ = Done (_, _) |- _ => apply quiet_drop_tasks in E
  | E : take_current _ = Done (_, _) |- _ => apply quiet_take_current in E
  | E : on_space _ _ _ = Done (_, _) |- _ => apply quiet_on_space in E
  | E : upd_proc _ _ _ = Done (_, _) |- _ => apply quiet_upd_proc in E; [|done]
  | E : TaskControlBlock_new _ _ _ _ = Done (_, _) |- _ => apply quiet_TaskControlBlock_new in E
  | E : put_trap_cx _ _ _ = Done (_, _) |- _ => apply quiet_put_trap_cx in E
  | E : get_trap_cx _ _ = Done (_, _) |- _ => apply quiet_get_trap_cx in E
  | E : init_context _ _ _ _ _ _ = Done (_, _) |- _ => apply quiet_init_context in E
  | E : k_add_task _ _ = Done (_, _) |- _ => apply quiet_add_task in E
  end.

(** The views along a run of quiet operations are the same. *)
Ltac views :=
  repeat match goal with
  | |- context [view (set_mm ?k ?x)] => change (view (set_mm k x)) with (view k)
  | |- context [view (set_tcbs ?k ?x)] => change (view (set_tcbs k x)) with (view k)
  | |- context [view (set_sleep ?k ?x)] => change (view (set_sleep k x)) with (view k)
  | |- context [view (set_sched ?k ?x)] => change (view (set_sched k x)) with (view k)
  | Hq : procs ?k !! ?a = Some ?q |- context [view (set_procs ?k (<[?a := ?p]> (procs ?k)))] =>
      rewrite (view_put_same k p a q Hq eq_refl eq_refl)
  | E : view _ = view _ |- _ => rewrite E; clear E
  end; try done.

Section sim.
Context {A H F : Type} `{FrameAllocator A} `{BinaryHeap H}.
Notation Kernel := (Kernel (A := A) (H := H) (F := F)).
Notation kop := (kop (A := A) (H := H) (F := F)).
Notation quiet := (quiet (A := A) (H := H) (F := F)).
Implicit Types k : Kernel.

(** ** What changes the tree *)

Definition v_upd (f : ProcTree → ProcTree) (a : nat) (v : View) : View :=
  mkView (v_alter f a (v_procs v)) (v_pid2pcb v) (v_pids v) (v_init v).

Lemma upd_tree_view a f k u k' : upd_tree a f k = Done (u, k') → is_Some (procs k !! a) ∧ view k' = v_upd f a (view k).
Proof.
  intros E. unfold upd_tree, upd_proc in E. krun. split; [by eexists|].
  unfold view, v_upd. cbn. f_equal. rewrite fmap_insert. unfold v_alter.
  apply map_eq. intros b. destruct (decide (b = a)) as [->|Hne].
  - rewrite lookup_insert_eq, lookup_alter_eq, lookup_fmap. match goal with E : procs k !! a = _ |- _ => by rewrite E end.
  - by rewrite lookup_insert_ne, lookup_alter_ne.
Qed.

Definition v_give (cs : list nat) (v : View) : View :=
  mkView (v_reparent (v_init v) cs (v_procs v)) (v_pid2pcb v) (v_pids v) (v_init v).

Lemma reparent_view cs : ∀ k u k', reparent cs k = Done (u, k') → view k' = v_give cs (view k).
Proof.
  induction cs as [|c cs IH]; intros k u k' E; cbn [reparent] in E; krun; [done|].
  repeat match goal with E : upd_tree _ _ _ = _ |- _ => apply upd_tree_view in E as [_ E] end.
  match goal with E : reparent cs _ = _ |- _ => apply IH in E as -> end.
  repeat match goal with E : view _ = _ |- _ => rewrite E; clear E end. done.
Qed.

(** Who is somebody's child, or has a pid, or is pinned, has an owner. *)
Lemma strong_count_pos k c : c ∈ proc_refs k → strong_count k c ≠ 0%nat.
Proof.
  intros Hc. unfold strong_count. intros E%nil_length_inv. assert (Hin : c ∈ filter (λ x, x = c) (proc_refs k)) by by apply list_elem_of_filter.
  rewrite E in Hin. by apply not_elem_of_nil in Hin.
Qed.

Lemma child_ref k b p c : procs k !! b = Some p → c ∈ children (tree p) → c ∈ proc_refs k.
Proof.
  intros Hb Hc. unfold proc_refs. apply elem_of_app. left. apply list_elem_of_bind. exists p. split; [done|].
  apply list_elem_of_fmap. exists (b, p). split; [done|]. by apply elem_of_map_to_list.
Qed.

Lemma drop_proc_kept a k u k' : strong_count k a ≠ 0%nat → drop_proc a k = Done (u, k') → k' = k.
Proof. intros Hc E. unfold drop_proc in E. krun. case_bool_decide; [done|]. by krun. Qed.

Lemma drop_procs_kept cs : ∀ k u k', (∀ c, c ∈ cs → strong_count k c ≠ 0%nat) → drop_procs cs k = Done (u, k') → k' = k.
Proof.
  induction cs as [|c cs IH]; intros k u k' Hc E; cbn [drop_procs] in E; krun; [done|].
  match goal with E : drop_proc _ _ = _ |- _ => apply drop_proc_kept in E; [subst|apply Hc; by left] end.
  match goal with E : drop_procs _ _ = _ |- _ => apply IH in E; [done|] end. intros d Hd. apply Hc. by right.
Qed.

Lemma drop_proc_view a k u k' : strong_count k a = 0%nat → drop_proc a k = Done (u, k') →
  ∃ p r, procs k !! a = Some p ∧ RecycleAllocator_dealloc (pids k) (pid p) = Done r ∧
    view k' = mkView (delete a (node <$> procs k)) (pid2pcb k) r (initproc k).
Proof.
  intros Hc E. unfold drop_proc in E. krun. case_bool_decide; [|done]. krun.
  eexists _, _. split; [done|]. split; [done|]. unfold view. cbn. by rewrite fmap_delete.
Qed.

Lemma node_lookup k a p : procs k !! a = Some p → v_procs (view k) !! a = Some (node p).
Proof. intros Hp. cbn. by rewrite lookup_fmap, Hp. Qed.

Lemma node_lookup_inv k a n : v_procs (view k) !! a = Some n → ∃ p, procs k !! a = Some p ∧ n = node p.
Proof. cbn. rewrite lookup_fmap. intros (p & Hp & E)%fmap_Some. by exists p. Qed.

Lemma view_procs k v : view k = v → node <$> procs k = v_procs v ∧ pid2pcb k = v_pid2pcb v ∧ pids k = v_pids v ∧
  initproc k = v_init v.
Proof. by intros <-. Qed.

(** *** [fork] *)

Lemma pid_alloc_inv k p k' : pid_alloc k = Done (p, k') → k' = set_pids k (RecycleAllocator_alloc (pids k)).2 ∧ p = (RecycleAllocator_alloc (pids k)).1.
Proof.
  intros E. unfold pid_alloc in E. krun. match goal with E : RecycleAllocator_alloc _ = _ |- _ => by rewrite E end.
Qed.

Lemma insert_pid_inv p a k u k' : insert_pid p a k = Done (u, k') → k' = set_pid2pcb k (<[p := a]> (pid2pcb k)).
Proof. intros E. unfold insert_pid in E. by krun. Qed.

Lemma view_set_pid2pcb k p a : view (set_pid2pcb k (<[p := a]> (pid2pcb k))) =
  mkView (v_procs (view k)) (<[p := a]> (v_pid2pcb (view k))) (v_pids (view k)) (v_init (view k)).
Proof. done. Qed.

Lemma fork_view sym a k c k' : fork sym a k = Done (c, k') →
  is_Some (procs k !! a) ∧ c = fresh (dom (procs k)) ∧ view k' = v_fork (view k) a c.
Proof.
  intros E. unfold fork in E. krun.
  match goal with E : pid_alloc _ = _ |- _ => apply pid_alloc_inv in E as [-> ->] end. cbn [set_mm procs set_pids pids] in *.
  match goal with E : upd_tree _ _ _ = _ |- _ => apply upd_tree_view in E as [_ V1] end.
  match goal with E : TaskControlBlock_new _ _ _ _ = _ |- _ => apply quiet_TaskControlBlock_new in E as V2 end.
  match goal with E : upd_proc _ _ _ = _ |- _ => apply quiet_set_tasks in E as V3 end.
  match goal with E : get_trap_cx _ _ = _ |- _ => apply quiet_get_trap_cx in E as V4 end.
  match goal with E : put_trap_cx _ _ _ = _ |- _ => apply quiet_put_trap_cx in E as V5 end.
  match goal with E : insert_pid _ _ _ = _ |- _ => apply insert_pid_inv in E as -> end.
  match goal with E : k_add_task _ _ = _ |- _ => apply quiet_add_task in E as V6 end.
  split; [by eexists|]. split; [done|]. rewrite V6, view_set_pid2pcb, V5, V4, V3, V2, V1.
  unfold v_upd, v_fork. cbn [view v_pids v_procs v_pid2pcb v_init procs set_procs pid2pcb pids initproc set_pids set_mm].
  destruct (RecycleAllocator_alloc (pids k)) as [p r]. cbn [fst snd]. by rewrite fmap_insert.
Qed.

(** *** [exit] *)

Lemma end_process_view a code k e k' p : tree_ok (view k) → procs k !! a = Some p → is_zombie (tree p) = false →
  end_process a code k = Done (e, k') →
  if pid p =? IDLE_PID then e = Shutdown (negb (code =? 0)) ∧ k' = k
  else e = Scheduled ∧ a ≠ initproc k ∧ view k' = v_exit (view k) a (pid p) code (children (tree p)).
Proof.
  intros W Hp Hz E. unfold end_process in E. apply kbind_inv in E as (p' & k1 & (Hp' & ->)%get_proc_inv & E).
  rewrite Hp in Hp'. injection Hp' as <-. destruct (Z.eqb_spec (pid p) IDLE_PID) as [Hid|Hid]; [by krun|].
  assert (Hi : a ≠ initproc k).
  { intros ->. destruct (to_init _ W) as (ti & Hti & _).
    change (v_init (view k)) with (initproc k) in Hti. rewrite (node_lookup _ _ _ Hp) in Hti. by injection Hti. }
  split; [by krun|]. split; [done|]. pose proof (node_lookup _ _ _ Hp) as Hn.
  krun. quiets.
  repeat match goal with E : upd_tree _ _ _ = _ |- _ => apply upd_tree_view in E as [_ E] end.
  match goal with E : reparent _ _ = _ |- _ => apply reparent_view in E as Vr end.
  match goal with E : drop_procs _ ?k1 = _ |- _ => set (k4 := k1) in *; assert (V4 : view k4 = v_exit (view k) a (pid p) code (children (tree p))) end.
  { unfold remove_from_pid2process in *.
    match goal with E : _ = Done ?m |- _ => apply outcome_bind_inv in E as (? & _ & Em); injection Em as <- end.
    repeat match goal with E : view _ = _ |- _ => rewrite E; clear E end. done. }
  match goal with E : drop_procs _ _ = _ |- _ => apply drop_procs_kept in E; [subst; congruence|] end.
  intros c Hc. apply strong_count_pos.
  destruct (exit_child (view k) a (pid p) code (tree p) W Hn Hi Hz c Hc) as (_ & m & _ & Hm & _ & Hcm).
  rewrite <- V4 in Hm. destruct (node_lookup_inv _ _ _ Hm) as (q & Hq & ->). by eapply child_ref.
Qed.

Lemma take_current_inv k t k1 : take_current k = Done (t, k1) →
  Sched.current (sl_sched (sleep k)) = Some t ∧ procs k1 = procs k ∧ tcbs k1 = tcbs k ∧ view k1 = view k.
Proof.
  intros E. unfold take_current in E. krun. match goal with E : unwrap _ _ = _ |- _ => apply unwrap_Done in E end.
  unfold take_current_task in *. match goal with E : (_, _) = (_, _) |- _ => injection E as <- end. by subst.
Qed.

Lemma exit_current_view code k e k' : tree_ok (view k) →
  (∀ t x p, Sched.current (sl_sched (sleep k)) = Some t → tcbs k !! t = Some x → procs k !! tk_process x = Some p → is_zombie (tree p) = false) →
  exit_current code k = Done (e, k') →
  view k' = view k ∨
  ∃ t x p, let a := tk_process x in Sched.current (sl_sched (sleep k)) = Some t ∧ tcbs k !! t = Some x ∧
    procs k !! a = Some p ∧ a ≠ initproc k ∧ is_zombie (tree p) = false ∧ e = Scheduled ∧
    view k' = v_exit (view k) a (pid p) code (children (tree p)).
Proof.
  intros W Hz E. unfold exit_current in E.
  apply kbind_inv in E as (t & k1 & Et & E). apply take_current_inv in Et as Hc.
  destruct Hc as (Hc & Ep & Et' & Ev). clear Et. krun.
  match goal with E : procs k1 !! tk_process ?x = Some ?p, E2 : tcbs k1 !! t = Some ?x |- _ => rename E into Hp; rename E2 into Hx; set (a := tk_process x) in *; rename p into q end.
  rewrite Ep in Hp. rewrite Et' in Hx. pose proof (Hz _ _ _ Hc Hx Hp) as Hzq. quiets.
  match goal with E : (if _ then _ else _) ?k2 = _ |- _ => rename k2 into k3; assert (V3 : view k3 = view k) end.
  { rewrite <- Ev. clear Ev. repeat match goal with E : view _ = _ |- _ => rewrite E; clear E end. done. }
  case_match; [|krun; by left].
  destruct (node_lookup_inv k3 a (node q)) as (q' & Hq' & Eq'); [by rewrite V3; apply node_lookup|]. injection Eq' as Eq1 Eq2.
  match goal with E : end_process _ _ _ = _ |- _ => eapply end_process_view in E; [|by rewrite V3|exact Hq'|congruence] end.
  destruct (pid q' =? IDLE_PID); [left; match goal with E : _ ∧ _ = k3 |- _ => by destruct E as [_ ->] end|right]. eexists t, _, q. cbv zeta. split; [done|]. split; [exact Hx|]. split; [done|]. rewrite Eq1, Eq2. rewrite Eq2 in Hzq.
  match goal with E : _ ∧ _ ∧ _ |- _ => destruct E as (-> & Hi & ->) end. rewrite V3.
  pose proof (view_procs k3 _ V3) as (_ & _ & _ & Ei). by rewrite Ei in Hi.
Qed.

(** *** [sys_waitpid] *)

(** Who owns a process. *)
Lemma elem_proc_refs k c : c ∈ proc_refs k ↔
  (∃ b p, procs k !! b = Some p ∧ c ∈ children (tree p)) ∨ (∃ i, pid2pcb k !! i = Some c) ∨ c ∈ pinned k.
Proof.
  unfold proc_refs. rewrite !elem_of_app, list_elem_of_bind, list_elem_of_fmap. split.
  - intros [(p & Hc & ([b q] & -> & Hb%elem_of_map_to_list)%list_elem_of_fmap)|[([i d] & -> & Hi%elem_of_map_to_list)|Hc]]; eauto 6.
  - intros [(b & p & Hb & Hc)|[(i & Hi)|Hc]]; [left; exists p; split; [done|]|right; left; exists (i, c)|by auto].
    + apply list_elem_of_fmap. exists (b, p). by rewrite elem_of_map_to_list.
    + by rewrite elem_of_map_to_list.
Qed.

Lemma strong_count_zero k c : strong_count k c = 0%nat ↔ c ∉ proc_refs k.
Proof.
  split.
  - intros E Hc. by apply (strong_count_pos k c).
  - intros Hc. unfold strong_count. destruct (filter _ _) as [|x l] eqn:E; [done|]. exfalso.
    assert (Hx : x ∈ filter (λ y, y = c) (proc_refs k)) by (rewrite E; by left). by apply list_elem_of_filter in Hx as [-> ?].
Qed.

(** A zombie that its parent took off its list has no owner, unless a suspended thread has one. *)
Lemma reaped_owner k k1 a idx c n pid_ t :
  tree_ok (view k) → v_procs (view k) !! a = Some n → children n.2 !! idx = Some c →
  v_procs (view k) !! c = Some (pid_, t) → is_zombie t = true →
  view k1 = v_upd (λ t, set_children (delete idx (children t)) t) a (view k) → pinned k1 = pinned k →
  (strong_count k1 c = 0%nat ↔ c ∉ pinned k).
Proof.
  intros W Ha Hidx Hc Hz V Vpin. rewrite strong_count_zero, elem_proc_refs.
  destruct (view_procs _ _ V) as (Vp & Vm & _ & _). cbn [v_upd v_procs v_pid2pcb view] in Vp, Vm. rewrite Vm, Vpin.
  split; [naive_solver|]. intros Hpin [(b & q & Hb & Hin)|[(i & Hi)|?]]; [| |done].
  - assert (Hb' : (node <$> procs k1) !! b = Some (node q)) by by rewrite lookup_fmap, Hb. rewrite Vp, lookup_v_alter in Hb'.
    pose proof (to_child _ W a n c Ha (list_elem_of_lookup_2 _ _ _ Hidx)) as (m & _ & Hm & _ & Hp & _).
    assert (Hown : ∀ n', v_procs (view k) !! b = Some n' → c ∈ children n'.2 → b = a).
    { intros n' Hn' Hcn. destruct (to_child _ W b n' c Hn' Hcn) as (m' & _ & Hm' & _ & Hp' & _). congruence. }
    change (node <$> procs k) with (v_procs (view k)) in Hb'. case_decide as E.
    + subst b. rewrite Ha in Hb'. cbn in Hb'. injection Hb' as Hpid Htree. rewrite <- Htree in Hin. cbn [set_children children] in Hin.
      pose proof (to_nodup _ W a n Ha) as Hnd. pose proof (delete_Permutation _ _ _ Hidx) as P.
      set (d := delete idx (children n.2)) in *. clearbody d. rewrite P in Hnd. by apply NoDup_cons in Hnd as [? _].
    + apply E. by apply (Hown (node q)).
  - apply (to_map _ W i c) in Hi as (t' & Ht' & Hz'). congruence.
Qed.

(** What the kernel asks about a child is what the tree asks. *)
Lemma waitpid_asked k i l : existsb (λ c, match procs k !! c with Some q => (i =? -1) || (u64 i =? pid q) | None => false end) l =
  existsb (v_asked (view k) i) l.
Proof.
  assert (E : ∀ c, match procs k !! c with Some q => (i =? -1) || (u64 i =? pid q) | None => false end = v_asked (view k) i c).
  { intros c. unfold v_asked. cbn. rewrite lookup_fmap. by destruct (procs k !! c). }
  induction l as [|c l IH]; [done|]. cbn [existsb]. by rewrite IH, E.
Qed.

Lemma waitpid_found k i l :
  find_index (λ c, match procs k !! c with Some q => is_zombie (tree q) | None => false end &&
    match procs k !! c with Some q => (i =? -1) || (u64 i =? pid q) | None => false end) l =
  find_index (λ c, v_zombie (view k) c && v_asked (view k) i c) l.
Proof.
  assert (E : ∀ c, (match procs k !! c with Some q => is_zombie (tree q) | None => false end &&
    match procs k !! c with Some q => (i =? -1) || (u64 i =? pid q) | None => false end) = v_zombie (view k) c && v_asked (view k) i c).
  { intros c. unfold v_zombie, v_asked. cbn. rewrite lookup_fmap. by destruct (procs k !! c). }
  induction l as [|c l IH]; [done|]. cbn [find_index]. by rewrite IH, E.
Qed.

Lemma waitpid_view i ptr k r k' : tree_ok (view k) → sys_waitpid i ptr k = Done (r, k') →
  ∃ t x code, Sched.current (sl_sched (sleep k)) = Some t ∧ tcbs k !! t = Some x ∧
    v_waitpid (view k) (tk_process x) i = Some (r, code, view k').
Proof.
  intros W E. unfold sys_waitpid, reap, current_process, current in E. krun.
  match goal with E : unwrap _ _ = Done ?d |- _ => apply unwrap_Done in E as Hcur; clear E; rename d into t end.
  match goal with E : procs k !! tk_process ?y = Some ?n, E2 : tcbs k !! _ = Some ?y |- _ =>
    pose proof (node_lookup _ _ _ E) as Ha; rename E2 into Hx; rename n into p, y into x0 end.
  match goal with Hr : (if negb _ then _ else _) _ = Done _ |- _ => rename Hr into E end.
  rewrite waitpid_asked in E. rewrite waitpid_found in E. unfold v_waitpid.
  change (children (tree p)) with (children (node p).2) in E.
  destruct (existsb (v_asked (view k) i) (children (node p).2)) eqn:Eb; cbn [negb] in E.
  2: { krun. exists t, x0, None. do 2 (split; [done|]). rewrite Ha. cbn [mbind option_bind]. by rewrite Eb. }
  destruct (find_index _ _) as [idx|] eqn:Ei in E.
  2: { krun. exists t, x0, None. do 2 (split; [done|]). rewrite Ha. cbn [mbind option_bind]. by rewrite Eb, Ei. }
  pose proof (proj1 (find_index_Some _ _ _) Ei) as [(c & Hc & Hz) _]. krun.
  match goal with E : unwrap _ _ = Done ?d |- _ => apply unwrap_Done in E; rewrite Hc in E; injection E as <- end.
  match goal with E : upd_tree _ _ _ = _ |- _ => apply upd_tree_view in E as [_ V1] end.
  match goal with E : assert_that _ _ = Done _, Hq : procs ?k1 !! c = Some ?q0 |- _ =>
    rename E into Hsc, Hq into Hq1, k1 into k3, q0 into q end.
  destruct (Nat.eqb_spec (S (strong_count k3 c)) 1) as [Hs|]; [|done]. injection Hs as Hs.
  apply andb_true_iff in Hz as [Hz _]. unfold v_zombie in Hz. destruct (v_procs (view k) !! c) as [m|] eqn:Hc0; [|done].
  assert (Hca : c ≠ tk_process x0).
  { intros ->. rewrite Ha in Hc0. injection Hc0 as <-. pose proof (to_zombie _ W _ _ Ha Hz) as Hnil. by rewrite Hnil in Hc. }
  destruct (view_procs _ _ V1) as (Vp & Vm & Vi & Vn). cbn [v_upd v_procs v_pid2pcb v_pids v_init view] in *.
  assert (Eq : node q = m).
  { assert (E : (node <$> procs k3) !! c = Some (node q)) by by rewrite lookup_fmap, Hq1.
    rewrite Vp, lookup_v_alter, decide_False, Hc0 in E by done. congruence. }
  match goal with E : drop_proc c ?k4 = _ |- _ => apply drop_proc_view in E as (q' & ra & Hq' & Hra & V5); [|exact Hs] end.
  cbn [set_mm procs pids pid2pcb initproc] in *. rewrite Hq1 in Hq'. injection Hq' as <-. rewrite Vi in Hra.
  exists t, x0, (Some (exit_code (tree q))). do 2 (split; [done|]). rewrite Ha. cbn [mbind option_bind]. rewrite Eb, Ei, Hc. cbn [mbind option_bind].
  rewrite Hc0. cbn [mbind option_bind v_pids]. rewrite <- Eq. cbn [node fst snd]. rewrite Hra, V5, Vp, Vm, Vn. done.
Qed.

(** *** The other calls *)

Lemma quiet_exec sym parse_elf trap_handler sstatus a name elf args : quiet (exec sym parse_elf trap_handler sstatus a name elf args).
Proof. intros k x k' E. unfold exec in E. krun. quiets. views. Qed.

Lemma quiet_sys_exec sym parse_elf trap_handler sstatus efs root D fuel path args :
  quiet (sys_exec sym parse_elf trap_handler sstatus efs root D fuel path args).
Proof.
  intros k x k' E. unfold sys_exec, current_process, current in E. krun. repeat (case_match; krun; try done).
  match goal with E : exec _ _ _ _ _ _ _ _ _ = _ |- _ => by apply quiet_exec in E end.
Qed.

Lemma quiet_sys_thread_create trap_handler sstatus entry arg : quiet (sys_thread_create trap_handler sstatus entry arg).
Proof.
  intros k x k' E. unfold sys_thread_create, current in E. krun. quiets. case_match; krun; quiets; views.
Qed.

Lemma quiet_sys_waittid tid : quiet (sys_waittid tid).
Proof.
  intros k x k' E. unfold sys_waittid, current in E. krun. repeat (case_match; krun; quiets; views).
Qed.

Lemma quiet_sys_chdir fuel path : quiet (sys_chdir fuel path).
Proof.
  intros k x k' E. unfold sys_chdir, current_process, current in E. krun. case_match; krun; quiets; views.
Qed.

Lemma quiet_sys_yield : quiet sys_yield.
Proof. intros k x k' E. unfold sys_yield in E. krun. views. Qed.

Lemma sys_fork_view sym k r k' : sys_fork sym k = Done (r, k') →
  ∃ t x c, Sched.current (sl_sched (sleep k)) = Some t ∧ tcbs k !! t = Some x ∧
    is_Some (procs k !! tk_process x) ∧ c = fresh (dom (procs k)) ∧ view k' = v_fork (view k) (tk_process x) c ∧
    r = (RecycleAllocator_alloc (pids k)).1.
Proof.
  intros E. unfold sys_fork, current_process, current in E. krun.
  match goal with E : fork _ _ _ = _ |- _ => apply fork_view in E as (Ha & Hc & V) end.
  match goal with Hc : ?d = fresh _ |- _ => rename d into c end.
  match goal with E : unwrap _ _ = Done ?d, E2 : tcbs k !! ?d = _ |- _ => apply unwrap_Done in E end.
  quiets. eexists _, _, _. split; [eassumption|]. split; [eassumption|]. split; [done|]. split; [exact Hc|]. split; [views|].
  destruct Ha as [p Hp]. match goal with Hq : procs _ !! c = Some ?q |- _ => apply node_lookup in Hq; rewrite V in Hq; rename Hq into Hn end.
  rewrite (lookup_fork (view k) _ c (node p)), decide_True in Hn; [by injection Hn|done|by apply node_lookup|].
  cbn. rewrite dom_fmap_L, Hc. apply is_fresh.
Qed.

(** *** [ProcessControlBlock::new] *)

Lemma new_process_view sym parse_elf trap_handler sstatus stdio elf k a k' :
  ProcessControlBlock_new sym parse_elf trap_handler sstatus stdio elf k = Done (a, k') →
  let '(p, r) := RecycleAllocator_alloc (pids k) in
  view k' = mkView (<[a := (p, mkTree false None [] 0)]> (node <$> procs k)) (<[p := a]> (pid2pcb k)) r (initproc k).
Proof.
  intros E. unfold ProcessControlBlock_new in E. krun.
  match goal with E : pid_alloc _ = _ |- _ => apply pid_alloc_inv in E as [-> ->] end. quiets. cbn [set_mm procs set_pids pids] in *.
  match goal with E : insert_pid _ _ _ = _ |- _ => apply insert_pid_inv in E as -> end.
  match goal with V : view ?x = _ |- context [view ?x] => rewrite V; clear V end. rewrite view_set_pid2pcb. views.
  destruct (RecycleAllocator_alloc (pids k)) as [p r]. unfold view. cbn. by rewrite fmap_insert.
Qed.
End sim.
