(* ===== verification/ProcessLife.v ===== *)
(** * ProcessLife.v: what the life of processes promises

    The kernel's state from the creation of the first process on, the calls that processes make,
    and the theorems: the tree of processes stays well formed, and [sys_waitpid] reaps. *)

From S2P Require Import Prelude Bytes Address FrameAlloc PageTable MemorySet Ids Sched Timer UserIo UserMem Signals Kernel Process ProcessTree ProcessSim.
From S2P Require Import Vfs Efs BlockProg.

Section life.
Context {A H F : Type} `{FrameAllocator A} `{BinaryHeap H}.
Context (sym : Symbols) (parse_elf : list Z → option ElfFile) (trap_handler sstatus : Z).
Notation Kernel := (Kernel (A := A) (H := H) (F := F)).
Implicit Types k : Kernel.

(** The running thread, if any, belongs to a process that has not ended. *)
Definition running_alive k : Prop :=
  ∀ t x p, Sched.current (sl_sched (sleep k)) = Some t → tcbs k !! t = Some x → procs k !! tk_process x = Some p → is_zombie (tree p) = false.

(** The calls of the processes; a machine that forks once a nanosecond runs out of pids after 292
    years, which the first rule leaves out.  Whatever else happens in between (memory, files, signals, timers,
    the scheduler) neither creates nor ends a process, and does not move it in the tree. *)
Inductive kstep : Kernel → Kernel → Prop :=
| ks_fork k r k' : running_alive k → ra_current (pids k) + 1 < 2 ^ 63 → sys_fork sym k = Done (r, k') → kstep k k'
| ks_exec k efs root D fuel path args r k' :
    sys_exec sym parse_elf trap_handler sstatus efs root D fuel path args k = Done (r, k') → kstep k k'
| ks_exit k code e k' : running_alive k → exit_current code k = Done (e, k') → kstep k k'
| ks_waitpid k i ptr r k' : sys_waitpid i ptr k = Done (r, k') → kstep k k'
| ks_thread_create k entry arg r k' : sys_thread_create trap_handler sstatus entry arg k = Done (r, k') → kstep k k'
| ks_waittid k tid r k' : sys_waittid tid k = Done (r, k') → kstep k k'
| ks_chdir k fuel path r k' : sys_chdir fuel path k = Done (r, k') → kstep k k'
| ks_yield k r k' : sys_yield k = Done (r, k') → kstep k k'
| ks_other k k' : view k' = view k → kstep k k'.

(** The state after [INITPROC] was created in a kernel without processes. *)
Definition booted k : Prop :=
  ∃ stdio elf k0 a k1, procs k0 = ∅ ∧ pid2pcb k0 = ∅ ∧ pids k0 = RecycleAllocator_new ∧
    ProcessControlBlock_new sym parse_elf trap_handler sstatus stdio elf k0 = Done (a, k1) ∧ k = set_initproc k1 a.

Lemma add_initproc_booted stdio efs root D fuel k0 a k : procs k0 = ∅ → pid2pcb k0 = ∅ → pids k0 = RecycleAllocator_new →
  add_initproc sym parse_elf trap_handler sstatus stdio efs root D fuel k0 = Done (Some a, k) → booted k.
Proof.
  intros Hp Hm Hi E. unfold add_initproc in E. krun. case_match; krun; [|done].
  match goal with E : ProcessControlBlock_new _ _ _ _ _ ?v _ = Done (?a, ?k1) |- _ => by exists stdio, v, k0, a, k1 end.
Qed.

Lemma booted_ok k : booted k → tree_ok (view k).
Proof.
  intros (stdio & elf & k0 & a & k1 & Hp & Hm & Hi & E & ->). apply new_process_view in E as V. rewrite Hi, Hp, Hm in V.
  change (RecycleAllocator_alloc RecycleAllocator_new) with (0, mkRecycle 1 []) in V. rewrite fmap_empty in V.
  assert (V' : view (set_initproc k1 a) = first_tree a).
  { destruct (view_procs _ _ V) as (Vp & Vm & Vi & _). unfold view, first_tree. cbn in *. by rewrite Vp, Vm, Vi. }
  rewrite V'. apply first_tree_ok.
Qed.

(** A call takes one step of the tree, or none. *)
Lemma kstep_tree k k' : kstep k k' → tree_ok (view k) → view k' = view k ∨ tree_step (view k) (view k').
Proof.
  intros S W. destruct S as [k r k' Hr Hb E|k efs root D fuel path args r k' E|k code e k' Hr E|k i ptr r k' E|k entry arg r k' E|k tid r k' E|k fuel path r k' E|k r k' E|k k' E].
  - right. destruct (sys_fork_view _ _ _ _ E) as (t & x & c & Ht & Hx & [p Hp] & Hc & -> & _).
    eapply step_fork; [by apply node_lookup| |by apply (Hr t x p)|done]. cbn. rewrite dom_fmap_L, Hc. apply is_fresh.
  - left. by apply quiet_sys_exec in E.
  - destruct (exit_current_view code k e k' W Hr E) as [?|(t & x & p & _ & _ & Hp & Hi & Hz & _ & ->)]; [by left|right].
    by apply step_exit; [apply node_lookup| |].
  - destruct (waitpid_view i ptr k r k' W E) as (t & x & code & _ & _ & Hv). by apply v_waitpid_step in Hv.
  - left. by apply quiet_sys_thread_create in E.
  - left. by apply quiet_sys_waittid in E.
  - left. by apply quiet_sys_chdir in E.
  - left. by apply quiet_sys_yield in E.
  - by left.
Qed.

Lemma kstep_ok k k' : kstep k k' → tree_ok (view k) → tree_ok (view k').
Proof. intros S W. destruct (kstep_tree k k' S W) as [->|T]; [done|by eapply tree_step_ok]. Qed.

Lemma reached_ok k k' : booted k → rtc kstep k k' → tree_ok (view k').
Proof. intros B%booted_ok S. induction S as [|k k1 k' S _ IH]; [done|]. apply IH. by eapply kstep_ok. Qed.

(** ** [sys_waitpid], run forwards *)

Lemma kbind_run {X Y} (m : kop X) (f : X → kop Y) k x k1 : m k = Done (x, k1) → (m ≫= f) k = f x k1.
Proof. unfold mbind, kop_bind. by intros ->. Qed.

Lemma kbind_panic {X Y} (m : kop X) (f : X → kop Y) k p : m k = Panicked p → (m ≫= f) k = Panicked p.
Proof. unfold mbind, kop_bind. by intros ->. Qed.

Lemma klift_run {X} (o : outcome X) k x : o = Done x → klift o k = Done (x, k).
Proof. by intros ->. Qed.

Lemma get_proc_run a k p : procs k !! a = Some p → get_proc a k = Done (p, k).
Proof. intros E. unfold get_proc. erewrite kbind_run by done. by rewrite E. Qed.

Lemma current_process_run k t x : Sched.current (sl_sched (sleep k)) = Some t → tcbs k !! t = Some x →
  current_process k = Done (tk_process x, k).
Proof.
  intros Ht Hx. unfold current_process, current. erewrite kbind_run.
  - erewrite kbind_run; [done|]. unfold get_task. erewrite kbind_run by done. by rewrite Hx.
  - erewrite kbind_run by done. unfold current_task. by rewrite Ht.
Qed.

Lemma upd_tree_run a f k p : procs k !! a = Some p → upd_tree a f k = Done (tt, set_procs k (<[a := set_tree p (f (tree p))]> (procs k))).
Proof. intros E. unfold upd_tree, upd_proc. by erewrite kbind_run by by apply get_proc_run. Qed.

(** A child that [sys_waitpid i] asks for. *)
Definition asked k (i : Z) (c : nat) : Prop := ∃ q, procs k !! c = Some q ∧ (i = -1 ∨ u64 i = pid q).
Definition zombie k (c : nat) : Prop := ∃ q, procs k !! c = Some q ∧ is_zombie (tree q) = true.

Lemma asked_spec k i c : match procs k !! c with Some q => (i =? -1) || (u64 i =? pid q) | None => false end = true ↔ asked k i c.
Proof.
  unfold asked. destruct (procs k !! c) as [q|]; [|naive_solver]. rewrite orb_true_iff, !Z.eqb_eq. naive_solver.
Qed.

Lemma zombie_spec k c : match procs k !! c with Some q => is_zombie (tree q) | None => false end = true ↔ zombie k c.
Proof. unfold zombie. destruct (procs k !! c) as [q|]; naive_solver. Qed.

Context `{!FrameAllocatorLaws A}.

(** The memory of a process whose areas are gone. *)
Definition only_tables (ms : MemorySet) (used : gset PhysPageNum) : Prop :=
  areas ms = [] ∧ NoDup (ft_ppn <$> pt_frames (page_table ms)) ∧
  ∀ f, f ∈ pt_frames (page_table ms) → ft_ppn f ∈ used ∧ nodrop f = false.

Definition table_frames (ms : MemorySet) : gset PhysPageNum := list_to_set (ft_ppn <$> pt_frames (page_table ms)).

Lemma drop_proc_run k c q r free used : strong_count k c = 0%nat → procs k !! c = Some q →
  RecycleAllocator_dealloc (pids k) (pid q) = Done r → fa_inv (mm_alloc (mm k)) free used → only_tables (memory_set q) used →
  ∃ a', fa_inv a' (table_frames (memory_set q) ∪ free) (used ∖ table_frames (memory_set q)) ∧
    drop_proc c k = Done (tt, set_mm (set_pids (set_procs k (delete c (procs k))) r) (mkMm a' (mm_mem (mm k)))).
Proof.
  intros Hs Hq Hr I (Hz & Hnd & Hf). destruct (drop_frames_spec _ _ _ _ I Hnd Hf) as (a' & Hd & I').
  exists a'. split; [done|]. unfold drop_proc. erewrite kbind_run by done. rewrite bool_decide_true by done.
  erewrite kbind_run by by apply get_proc_run. rewrite Hr. erewrite kbind_run by done.
  unfold MemorySet_drop. rewrite Hd, Hz. erewrite kbind_run by done. done.
Qed.


(** The child has another owner, or it goes. *)
Lemma reap_panics k token ptr c : strong_count k c ≠ 0%nat → reap token ptr c k = Panicked PAssert.
Proof.
  intros Hs. unfold reap. erewrite kbind_run by done. apply kbind_panic. unfold klift.
  destruct (Nat.eqb_spec (S (strong_count k c)) 1); [lia|done].
Qed.

Lemma reap_run k token ptr c q ra r free used :
  strong_count k c = 0%nat → procs k !! c = Some q → RecycleAllocator_dealloc (pids k) (pid q) = Done r →
  translated_refmut (mm_mem (mm k)) token ptr = Done ra → object_ok (mm_mem (mm k)) (pa ra) 4 →
  fa_inv (mm_alloc (mm k)) free used → only_tables (memory_set q) used →
  ∃ m, reap token ptr c k = Done (pid q, set_mm (set_pids (set_procs k (delete c (procs k))) r) m) ∧
    load_phys (mm_mem m) (pa ra) 4 = Done (le_bytes 4 (u32 (exit_code (tree q)))) ∧
    (∀ pl, (∀ n, 0 ≤ n < 4 → pl ≠ phys_place (PA (pa ra + n))) → byte_at (mm_mem m) pl = byte_at (mm_mem (mm k)) pl) ∧
    fa_inv (mm_alloc m) (table_frames (memory_set q) ∪ free) (used ∖ table_frames (memory_set q)).
Proof.
  intros Hs Hq Hr Hra Hok I Ho.
  destruct (store_phys_spec (le_bytes 4 (u32 (exit_code (tree q)))) (mm_mem (mm k)) (pa ra)) as (m & Hst & Hb & Hoth & _).
  { unfold zlen. by rewrite length_le_bytes. }
  destruct (drop_proc_run (set_mm k (mkMm (mm_alloc (mm k)) m)) c q r free used Hs Hq Hr I Ho) as (a' & I' & Hd).
  exists (mkMm a' m). split; [|split; [|by split]].
  - unfold reap. erewrite kbind_run by done. rewrite Hs. erewrite kbind_run by done. erewrite kbind_run by by apply get_proc_run.
    erewrite kbind_run by by apply klift_run. erewrite kbind_run by by apply klift_run. erewrite kbind_run by done.
    by erewrite kbind_run by exact Hd.
  - apply load_phys_spec; [apply Hok|by rewrite length_le_bytes|done].
Qed.

(** ** Properties *)

(** C5. From the creation of the first process on, whatever calls the processes make and whatever
    else happens in between, each call takes one step of the process tree (fork, exit or wait) or
    none, and the tree stays well formed: the first process lives and is the root; every process is
    the child of its parent, once, and its ancestors lead to the root, so that nobody is orphaned;
    a zombie has no children; no two processes have one pid; the pids in use are those of the
    processes, zombies included; and [PID2PCB] maps exactly the pids of the processes that live. *)
Theorem process_tree_refined k k' : booted k → rtc kstep k k' →
  tree_ok (view k') ∧
  ∀ k'', kstep k' k'' → (view k'' = view k' ∨ tree_step (view k') (view k'')) ∧ tree_ok (view k'').
Proof.
  intros B S. pose proof (reached_ok k k' B S) as W. split; [done|]. intros k'' S'.
  split; [by apply kstep_tree|by eapply kstep_ok].
Qed.

(** C16. [sys_waitpid] of a process: -1 when no child is asked for, -2 when those asked for live,
    both without a change.  Otherwise it takes the first zombie asked for: its exit code is stored
    where the pointer says and its pid returned, the child leaves its parent's list and the kernel's
    memory, its pid and the frames of its page tables are free again, and nothing else changes.
    But it panics when a thread of the child, suspended in a system call, still holds the process. *)
Theorem waitpid_reaps k i ptr t x p : tree_ok (view k) →
  Sched.current (sl_sched (sleep k)) = Some t → tcbs k !! t = Some x → procs k !! tk_process x = Some p →
  ((∀ c, c ∈ children (tree p) → ¬ asked k i c) → sys_waitpid i ptr k = Done (-1, k)) ∧
  ((∃ c, c ∈ children (tree p) ∧ asked k i c) → (∀ c, c ∈ children (tree p) → asked k i c → ¬ zombie k c) →
     sys_waitpid i ptr k = Done (-2, k)) ∧
  (∀ idx c q, children (tree p) !! idx = Some c → procs k !! c = Some q → is_zombie (tree q) = true → asked k i c →
     (∀ j d, (j < idx)%nat → children (tree p) !! j = Some d → asked k i d → ¬ zombie k d) →
     (c ∈ pinned k → sys_waitpid i ptr k = Panicked PAssert) ∧
     ∀ ra free used, c ∉ pinned k →
       translated_refmut (mm_mem (mm k)) (MemorySet_token (memory_set p)) ptr = Done ra →
       object_ok (mm_mem (mm k)) (pa ra) 4 → fa_inv (mm_alloc (mm k)) free used → only_tables (memory_set q) used →
       ∃ k' m, sys_waitpid i ptr k = Done (pid q, k') ∧
         load_phys (mm_mem (mm k')) (pa ra) 4 = Done (le_bytes 4 (u32 (exit_code (tree q)))) ∧
         (∀ pl, (∀ n, 0 ≤ n < 4 → pl ≠ phys_place (PA (pa ra + n))) → byte_at (mm_mem (mm k')) pl = byte_at (mm_mem (mm k)) pl) ∧
         fa_inv (mm_alloc m) (table_frames (memory_set q) ∪ free) (used ∖ table_frames (memory_set q)) ∧
         RecycleAllocator_dealloc (pids k) (pid q) = Done (pids k') ∧
         k' = set_mm (set_pids (set_procs k
           (delete c (<[tk_process x := set_tree p (set_children (delete idx (children (tree p))) (tree p))]> (procs k)))) (pids k')) m).
Proof.
  intros W Ht Hx Hp. unfold sys_waitpid.
  assert (S : ∀ Y (f : nat → kop Y), (current_process ≫= f) k = f (tk_process x) k) by (intros; by eapply kbind_run, current_process_run).
  rewrite S. clear S. erewrite kbind_run by by apply get_proc_run. erewrite kbind_run by done. cbv zeta.
  set (is_it := λ c, match procs k !! c with Some q => (i =? -1) || (u64 i =? pid q) | None => false end).
  set (zomb := λ c, match procs k !! c with Some q => is_zombie (tree q) | None => false end).
  assert (Ei : ∀ c, is_it c = true ↔ asked k i c) by apply asked_spec.
  assert (Ez : ∀ c, zomb c = true ↔ zombie k c) by apply zombie_spec.
  split; [|split].
  - intros Hn. replace (existsb is_it (children (tree p))) with false; [done|]. symmetry. apply not_true_is_false.
    intros (c & Hc%list_elem_of_In & Hi%Ei)%existsb_exists. by apply (Hn c).
  - intros (c & Hc & Hi) Hz. rewrite (proj2 (existsb_exists is_it _)) by (exists c; by rewrite <- list_elem_of_In, Ei).
    cbn [negb]. destruct (find_index _ _) as [idx|] eqn:E; [|done]. exfalso.
    apply find_index_Some in E as [(d & Hd & [Hzd%Ez Hid%Ei]%andb_true_iff) _].
    by apply (Hz d); [eapply list_elem_of_lookup_2| |].
  - intros idx c q Hidx Hq Hz Hi Hfirst.
    rewrite (proj2 (existsb_exists is_it _)) by (exists c; rewrite <- list_elem_of_In, Ei; split; [by eapply list_elem_of_lookup_2|done]).
    cbn [negb]. rewrite (proj2 (find_index_Some _ _ idx)).
    2: { split; [exists c; split; [done|]; change (zomb c && is_it c = true); rewrite andb_true_iff, Ez, Ei; split; [by exists q|done]|].
         intros j d Hj Hd. apply not_true_is_false. intros [Hzd%Ez Hid%Ei]%andb_true_iff. by apply (Hfirst j d). }
    clear Ei Ez is_it zomb Hfirst. erewrite kbind_run by by rewrite Hidx. erewrite kbind_run by by eapply upd_tree_run.
    set (k1 := set_procs k _). set (l := delete idx (children (tree p))) in *.
    pose proof (node_lookup _ _ _ Hp) as Ha. pose proof (node_lookup _ _ _ Hq) as Hc.
    assert (V : view k1 = v_upd (λ t, set_children (delete idx (children t)) t) (tk_process x) (view k)).
    { pose proof (upd_tree_view (tk_process x) (λ t, mkTree (is_zombie t) (parent t) (delete idx (children t)) (exit_code t)) k tt k1) as V.
      apply V. by apply upd_tree_run. }
    pose proof (reaped_owner k k1 _ idx c _ _ _ W Ha Hidx Hc Hz V eq_refl) as Hown.
    assert (Hca : tk_process x ≠ c) by apply (wait_ne (view k) _ idx c _ _ _ W Ha Hidx Hc Hz).
    assert (Hq1 : procs k1 !! c = Some q) by (unfold k1; cbn; by rewrite lookup_insert_ne).
    split.
    + intros Hpin. apply reap_panics. by intros E%Hown.
    + intros ra free used Hpin Hra Hok I Ho.
      assert (Hlive : ∃ r, RecycleAllocator_dealloc (pids k) (pid q) = Done r).
      { destruct (to_live _ W) as (live & Il & Hl). assert (Hin : pid q ∈ live) by (apply Hl; exists c, (tree q); exact Hc).
        pose proof (ra_dealloc_spec (pids k) live (pid q) Il) as Hd. rewrite decide_True in Hd by done.
        destruct Hd as (r & Hr & _); [by apply (ra_live _ _ Il)|by exists r]. }
      destruct Hlive as [r Hr].
      destruct (reap_run k1 (MemorySet_token (memory_set p)) ptr c q ra r free used) as (m & Hrun & Hld & Hoth & I'); try done; [by apply Hown|].
      eexists _, m. split; [exact Hrun|]. done.
Qed.

End life.

(** ** A small machine: one program, 55 frames, the first process and a child *)

Module LifeWitness.
Definition K : Type := Kernel (A := StackFrameAllocator) (H := list TimerCondVar) (F := unit).
Definition sym : Symbols := mkSymbols 0 0 0 0 0 0 0 0 0 0x1000.
Definition elf (data : list Z) : option ElfFile := Some (mkElf [0x7f; 0x45; 0x4c; 0x46] [] 0x1000).
Definition mm0 : Mm StackFrameAllocator :=
  mkMm (Stack_init (PPN 5) (PPN 60) Stack_new) (list_to_map ((λ i, (PPN i, zero_page)) <$> seqZ 5 55)).

Definition boot : outcome K :=
  '(ks, mm) ← new_bare mm0;
  '(a, k) ← ProcessControlBlock_new sym elf 0 0 [] []
    (mkKernel ∅ ∅ ∅ RecycleAllocator_new RecycleAllocator_new ks mm (mkSleep heap_new (mkSched ∅ [] None)) 0 [] []);
  mret (set_initproc k a).

(** The next thread runs, in a process that lives. *)
Definition alive (k : K) : bool :=
  match Sched.current (sl_sched (sleep k)) with
  | Some t => match tcbs k !! t with
              | Some x => match procs k !! tk_process x with Some p => negb (is_zombie (tree p)) | None => true end
              | None => true
              end
  | None => true
  end.
Definition run (k : K) : outcome K :=
  let k := set_sched k (run_tasks_round (sl_sched (sleep k))) in
  assert_that (alive k && (ra_current (pids k) + 1 <? 2 ^ 63)) PAssert;;
  mret k.

Lemma run_spec k k' : run k = Done k' → view k' = view k ∧ running_alive k' ∧ ra_current (pids k') + 1 < 2 ^ 63.
Proof.
  unfold run. intros (u & E & [= <-])%outcome_bind_inv. split; [done|]. destruct (andb _ _) eqn:Ea; [|done].
  apply andb_true_iff in Ea as [Ha Hb]. split; [|by apply Z.ltb_lt].
  intros t x p Ht Hx Hp. unfold alive in Ha. rewrite Ht, Hx, Hp in Ha. by apply negb_true_iff.
Qed.

(** The first process forks and yields; the child ends with 7; the first process is about to wait. *)
Definition before_wait : outcome K :=
  k ← boot;
  k ← run k;
  '(_, k) ← sys_fork sym k;
  '(_, k) ← sys_yield k;
  k ← run k;
  '(_, k) ← exit_current 7 k;
  run k.

Definition life : outcome (Z * K) := k ← before_wait; sys_waitpid (-1) 0x1000 k.

Lemma boot_booted k : boot = Done k → booted sym elf 0 0 k.
Proof.
  intros ([ks m] & _ & ([a k1] & E & [= <-])%outcome_bind_inv)%outcome_bind_inv.
  eexists [], [], _, a, k1. split; [|split; [|split; [|by split]]]; done.
Qed.

Lemma before_wait_reached k' : before_wait = Done k' → ∃ k, booted sym elf 0 0 k ∧ rtc (kstep sym elf 0 0) k k'.
Proof.
  intros (k & ?%boot_booted & (k1 & (V1 & L1 & B1)%run_spec & ([z k2] & E2 & ([y k3] & E3 & (k4 & (V4 & L4 & B4)%run_spec &
    ([e k5] & E5 & (V6 & _ & _)%run_spec)%outcome_bind_inv)%outcome_bind_inv)%outcome_bind_inv)%outcome_bind_inv)
    %outcome_bind_inv)%outcome_bind_inv.
  exists k. split; [done|]. eapply rtc_l; [by apply ks_other|]. eapply rtc_l; [by eapply ks_fork|].
  eapply rtc_l; [by eapply ks_yield|]. eapply rtc_l; [by apply ks_other|]. eapply rtc_l; [by eapply ks_exit|].
  apply rtc_once. by apply ks_other.
Qed.

Lemma life_reached r k' : life = Done (r, k') → ∃ k, booted sym elf 0 0 k ∧ rtc (kstep sym elf 0 0) k k'.
Proof.
  intros (k1 & (k & B & S)%before_wait_reached & E)%outcome_bind_inv. exists k. split; [done|].
  eapply rtc_r; [done|]. by eapply ks_waitpid.
Qed.

(** What [sys_waitpid] relies on, checked. *)
Definition place_there (m : memory) (pl : place) : bool :=
  match m !! pl.1 with Some pg => (0 <=? pl.2) && (pl.2 <? zlen pg) | None => false end.

Lemma place_there_spec m pl : place_there m pl = true → place_ok m pl.
Proof.
  unfold place_there, place_ok. destruct (m !! pl.1) as [pg|]; [|done]. rewrite andb_true_iff, Z.leb_le, Z.ltb_lt. by exists pg.
Qed.

Definition stack_range (a : StackFrameAllocator) : bool :=
  (5 <=? FrameAlloc.current a) && (FrameAlloc.current a <=? fend a) && (fend a <? 2 ^ 44) && bool_decide (NoDup (recycled a)) &&
  forallb (λ p, (5 <=? p) && (p <? FrameAlloc.current a)) (recycled a).

Definition free_frames (a : StackFrameAllocator) : gset PhysPageNum :=
  list_to_set (PPN <$> (recycled a ++ seqZ (FrameAlloc.current a) (fend a - FrameAlloc.current a))).
Definition used_frames (a : StackFrameAllocator) : gset PhysPageNum :=
  list_to_set (PPN <$> filter (.∉ recycled a) (seqZ 5 (FrameAlloc.current a - 5))).

Lemma stack_range_inv a : stack_range a = true → fa_inv a (free_frames a) (used_frames a).
Proof.
  unfold stack_range. rewrite !andb_true_iff, !Z.leb_le, Z.ltb_lt, forallb_forall. intros [[[[H1 H2] H3] Hnd] Hr].
  apply bool_decide_eq_true in Hnd. exists 5. split; [lia|done| | |].
  - intros p Hp%list_elem_of_In. apply Hr in Hp. rewrite andb_true_iff, Z.leb_le, Z.ltb_lt in Hp. lia.
  - intros p. unfold free_frames. rewrite elem_of_list_to_set, list_elem_of_fmap. split.
    + intros (x & -> & [Hx|Hx%elem_of_seqZ]%elem_of_app); [by left|right; cbn; lia].
    + intros Hp. exists (ppn p). rewrite PPN_ppn, elem_of_app, elem_of_seqZ. split; [done|]. destruct Hp; [by left|right; lia].
  - intros p. unfold used_frames. rewrite elem_of_list_to_set, list_elem_of_fmap. split.
    + intros (x & -> & [Hx Hs%elem_of_seqZ]%list_elem_of_filter). cbn. split; [lia|done].
    + intros [Hp Hr']. exists (ppn p). rewrite PPN_ppn, list_elem_of_filter, elem_of_seqZ. split; [done|]. split; [done|lia].
Qed.

Definition tables_there (ms : MemorySet) (used : gset PhysPageNum) : bool :=
  match areas ms with
  | [] => bool_decide (NoDup (ft_ppn <$> pt_frames (page_table ms))) &&
      forallb (λ f, bool_decide (ft_ppn f ∈ used) && negb (nodrop f)) (pt_frames (page_table ms))
  | _ => false
  end.

Lemma tables_there_spec ms used : tables_there ms used = true → only_tables ms used.
Proof.
  unfold tables_there, only_tables. destruct (areas ms); [|done]. rewrite andb_true_iff, forallb_forall. intros [Hnd%bool_decide_eq_true Hf].
  split; [done|]. split; [done|]. intros f Hf'%list_elem_of_In. apply Hf in Hf'.
  rewrite andb_true_iff, bool_decide_eq_true, negb_true_iff in Hf'. done.
Qed.

(** The first process, its first child and where its exit code goes, when all is as it should be. *)
Definition to_reap (k : K) : option (nat * Task * Pcb * nat * Pcb * PhysAddr) :=
  t ← Sched.current (sl_sched (sleep k));
  x ← tcbs k !! t;
  p ← procs k !! tk_process x;
  c ← children (tree p) !! 0%nat;
  q ← procs k !! c;
  ra ← match translated_refmut (mm_mem (mm k)) (MemorySet_token (memory_set p)) 0x1000 with Done ra => Some ra | Panicked _ => None end;
  if is_zombie (tree q) && bool_decide (c ∉ pinned k) && (0 <=? pa ra) &&
     forallb (λ n, place_there (mm_mem (mm k)) (phys_place (PA (pa ra + n)))) (seqZ 0 4) &&
     stack_range (mm_alloc (mm k)) && tables_there (memory_set q) (used_frames (mm_alloc (mm k)))
  then Some (t, x, p, c, q, ra) else None.

Lemma to_reap_spec k t x p c q ra : to_reap k = Some (t, x, p, c, q, ra) →
  (Sched.current (sl_sched (sleep k)) = Some t ∧ tcbs k !! t = Some x ∧ procs k !! tk_process x = Some p ∧
   children (tree p) !! 0%nat = Some c ∧ procs k !! c = Some q ∧ is_zombie (tree q) = true ∧ c ∉ pinned k) ∧
  translated_refmut (mm_mem (mm k)) (MemorySet_token (memory_set p)) 0x1000 = Done ra ∧ object_ok (mm_mem (mm k)) (pa ra) 4 ∧
  fa_inv (mm_alloc (mm k)) (free_frames (mm_alloc (mm k))) (used_frames (mm_alloc (mm k))) ∧
  only_tables (memory_set q) (used_frames (mm_alloc (mm k))).
Proof.
  unfold to_reap. intros (t' & Ht & (x' & Hx & (p' & Hp & (c' & Hc & (q' & Hq & (ra' & Hra & E)%bind_Some)%bind_Some)%bind_Some)
    %bind_Some)%bind_Some)%bind_Some.
  destruct (_ && _) eqn:Eb; [|done]. injection E as <- <- <- <- <- <-.
  rewrite !andb_true_iff, bool_decide_eq_true, Z.leb_le, forallb_forall in Eb. destruct Eb as [[[[[Hz Hpin] Hra0] Hpl] Hs] Ht'].
  destruct (translated_refmut _ _ _) as [ra2|]; [|done]. injection Hra as ->. split; [done|]. split; [done|].
  split; [|split; [by apply stack_range_inv|by apply tables_there_spec]]. split; [done|]. intros n Hn.
  apply place_there_spec, Hpl, list_elem_of_In, elem_of_seqZ. lia.
Qed.
End LifeWitness.

Lemma process_tree_refined_witness :
  match LifeWitness.life with Done (r, k) => r = 1 ∧ tree_ok (view k) | Panicked _ => False end.
Proof.
  assert (D : (match LifeWitness.life with Done (r, _) => r | Panicked _ => -1 end) = 1) by (vm_compute; reflexivity).
  destruct LifeWitness.life as [[r k]|p] eqn:E; [|done]. split; [done|].
  destruct (LifeWitness.life_reached r k E) as (k0 & B & S). exact (proj1 (process_tree_refined _ _ _ _ k0 k B S)).
Defined.

Lemma waitpid_reaps_witness :
  match LifeWitness.before_wait with
  | Done k => ∃ k', sys_waitpid (-1) 0x1000 k = Done (1, k')
  | Panicked _ => False
  end.
Proof.
  assert (D : (match LifeWitness.before_wait with
     | Done k => match LifeWitness.to_reap k with Some (_, _, _, _, q, _) => pid q | None => -1 end | Panicked _ => -1 end) = 1)
    by (vm_compute; reflexivity).
  destruct LifeWitness.before_wait as [k|] eqn:E; [|done].
  destruct (LifeWitness.before_wait_reached k E) as (k0 & B & S).
  destruct (LifeWitness.to_reap k) as [[[[[[t x] p] c] q] ra]|] eqn:Er; [|done].
  apply LifeWitness.to_reap_spec in Er as ((Ht & Hx & Hp & Hc & Hq & Hz & Hpin) & Hra & Hok & I & Ho).
  destruct (waitpid_reaps k (-1) 0x1000 t x p (reached_ok _ _ _ _ k0 k B S) Ht Hx Hp) as (_ & _ & Hreap).
  assert (Ha : asked k (-1) c) by (exists q; by auto).
  destruct (Hreap 0%nat c q Hc Hq Hz Ha ltac:(lia)) as [_ Hgo].
  destruct (Hgo ra _ _ Hpin Hra Hok I Ho) as (k' & m & Hrun & _). exists k'. by rewrite <- D.
Defined.
