(* ===== verification/UserProcs.v ===== *)
(** * UserProcs.v: programs of several processes

    A program is a function from the local state of a process to the call it makes next; a fork has
    two continuations.  Here its processes run on the tree of processes (ProcessTree.v), in any order and among any other
    processes.  The tree is a specification: its calls are those of the kernel that return
    ([kernel_calls_on_tree]), it knows no frames and no panics.  The programs' theorems are about runs of the kernel
    itself, which ProcRuns.v takes to runs on the tree. *)

From S2P Require Import Prelude FrameAlloc MemorySet Ids Sched Timer Kernel Process ProcessTree ProcessSim UserThreads.

(** ** The calls, on the tree *)

(** [sys_fork] of [a]: the pid and the address of the child, and the tree after. *)
Definition v_sys_fork (v : View) (a : nat) : option (Z * nat * View) :=
  let c := fresh (dom (v_procs v)) in
  if ra_current (v_pids v) + 1 <? 2 ^ 63 then Some ((RecycleAllocator_alloc (v_pids v)).1, c, v_fork v a c) else None.

(** The end of [a]; the first process cannot end, it stops the machine. *)
Definition v_sys_exit (v : View) (a : nat) (code : Z) : option View :=
  n ← v_procs v !! a;
  if decide (a = v_init v) then None else Some (v_exit v a n.1 code (children n.2)).

Definition alive (v : View) (a : nat) : bool := match v_procs v !! a with Some n => negb (is_zombie n.2) | None => false end.

Section calls.
Implicit Types v : View.

(** What every call keeps of a process that it is not about. *)
Record kept (n n' : Z * ProcTree) : Prop := {
  kept_pid : n'.1 = n.1;
  kept_zombie : is_zombie n'.2 = is_zombie n.2;
  kept_children : children n'.2 = children n.2;
  kept_code : exit_code n'.2 = exit_code n.2;
}.

Lemma kept_refl n : kept n n.
Proof. done. Qed.

Definition node_kept v v' (b : nat) : Prop := ∀ n, v_procs v !! b = Some n → ∃ n', v_procs v' !! b = Some n' ∧ kept n n'.

Lemma node_same v v' b : v_procs v' !! b = v_procs v !! b → node_kept v v' b.
Proof. intros E n Hn. exists n. split; [congruence|done]. Qed.

Lemma alive_node v a : alive v a = true ↔ ∃ n, v_procs v !! a = Some n ∧ is_zombie n.2 = false.
Proof. unfold alive. destruct (v_procs v !! a) as [n|]; [|naive_solver]. rewrite negb_true_iff. naive_solver. Qed.

Lemma alive_kept v v' a : node_kept v v' a → alive v a = true → alive v' a = true.
Proof. rewrite !alive_node. intros K (n & Hn & Hz). destruct (K n Hn) as (n' & Hn' & Q). exists n'. by rewrite (kept_zombie _ _ Q). Qed.

Lemma fork_call v a pid c v' : tree_ok v → alive v a = true → v_sys_fork v a = Some (pid, c, v') →
  tree_step v v' ∧ 0 < pid < 2 ^ 63 ∧ v_procs v !! c = None ∧ c ≠ a ∧
  v_procs v' !! c = Some (pid, mkTree false (Some a) [] 0) ∧
  (∀ n, v_procs v !! a = Some n → v_procs v' !! a = Some (n.1, add_child c n.2)) ∧
  (∀ b, b ≠ a → b ≠ c → v_procs v' !! b = v_procs v !! b) ∧
  v_init v' = v_init v ∧ ra_current (v_pids v') ≤ ra_current (v_pids v) + 1.
Proof.
  intros W (n & Hn & Hz)%alive_node. unfold v_sys_fork. destruct (Z.ltb_spec (ra_current (v_pids v) + 1) (2 ^ 63)) as [Hb|]; [|done].
  set (d := fresh (dom (v_procs v))). assert (Hd : d ∉ dom (v_procs v)) by apply is_fresh. intros [= <- <- <-].
  assert (Hda : d ≠ a) by (intros ->; apply Hd; by eapply elem_of_dom_2).
  destruct (to_live v W) as (live & Il & Hl). pose proof (ra_alloc_spec _ _ Il Hb) as Ha.
  destruct (to_init v W) as (ti & Hti & _). assert (H0 : IDLE_PID ∈ live) by (apply Hl; by exists (v_init v), ti).
  pose proof (lookup_fork v a d n Hn Hd) as Lk. split; [by eapply step_fork|].
  split; [|split; [by apply not_elem_of_dom|split; [done|]]].
  { destruct (RecycleAllocator_alloc (v_pids v)) as [p r]. destruct Ha as (Hp & Hr & _). cbn.
    assert (p ≠ 0) by (intros ->; done). lia. }
  split; [by rewrite Lk, decide_True|]. split.
  { intros n' Hn'. rewrite Hn in Hn'. injection Hn' as <-. by rewrite Lk, decide_False, decide_True. }
  split; [intros b Hba Hbd; by rewrite Lk, !decide_False|]. unfold v_fork.
  destruct (RecycleAllocator_alloc (v_pids v)) as [p r]. split; [done|]. apply Ha.
Qed.

Lemma exit_call v a code v' pid t : tree_ok v → v_procs v !! a = Some (pid, t) → is_zombie t = false → v_sys_exit v a code = Some v' →
  tree_step v v' ∧ a ≠ v_init v ∧ v_procs v' !! a = Some (pid, mkTree true (parent t) [] code) ∧
  (∀ b, b ≠ a → b ≠ v_init v → node_kept v v' b) ∧ (∀ b, b ≠ a → alive v b = true → alive v' b = true) ∧
  v_init v' = v_init v ∧ v_pids v' = v_pids v.
Proof.
  intros W Ha Hz. unfold v_sys_exit. rewrite Ha. cbn [mbind option_bind fst snd]. destruct (decide _) as [|Hi]; [done|]. intros [= <-].
  pose proof (lookup_exit v a pid code t W Ha Hi) as Lk.
  split; [by apply step_exit|]. split; [done|]. split; [by rewrite Lk, decide_True|]. split; [|split; [|done]].
  - intros b Hb Hbi n Hn. destruct (exit_keeps v a pid code t W Ha Hi Hz b n Hn) as (n' & Hn' & Ep & _ & _ & Hk).
    destruct (Hk Hb) as [Ez _]. exists n'. split; [done|]. rewrite Lk, !decide_False, Hn in Hn' by done. split; [done..| |];
      case_decide; injection Hn' as <-; done.
  - intros b Hb (n & Hn & Hzn)%alive_node. destruct (exit_keeps v a pid code t W Ha Hi Hz b n Hn) as (n' & Hn' & _ & _ & _ & Hk).
    destruct (Hk Hb) as [Ez _]. apply alive_node. exists n'. by rewrite Ez.
Qed.

Lemma wait_call v a i r code v' n : tree_ok v → v_procs v !! a = Some n → v_waitpid v a i = Some (r, code, v') →
  (v' = v ∧ code = None ∧ (r = -1 ∧ (∀ c, c ∈ children n.2 → v_asked v i c = false) ∨
     r = -2 ∧ (∀ c, c ∈ children n.2 → v_asked v i c = true → v_zombie v c = false))) ∨
  ∃ idx c t, children n.2 !! idx = Some c ∧ v_procs v !! c = Some (r, t) ∧ is_zombie t = true ∧ v_asked v i c = true ∧
    code = Some (exit_code t) ∧ 0 ≤ r < 2 ^ 63 ∧ tree_step v v' ∧ c ≠ a ∧ v_procs v' !! c = None ∧
    v_procs v' !! a = Some (n.1, set_children (delete idx (children n.2)) n.2) ∧
    (∀ b, b ≠ a → b ≠ c → v_procs v' !! b = v_procs v !! b) ∧ v_init v' = v_init v ∧ ra_current (v_pids v') = ra_current (v_pids v).
Proof.
  intros W Hn E. pose proof (v_waitpid_inv _ _ _ _ _ _ E) as [[-> [-> Hr]]|(n' & idx & c & t & ra & Hn' & Hidx & Hc & Hz & Hq & -> & Hra & ->)].
  - left. do 2 (split; [done|]). unfold v_waitpid in E. rewrite Hn in E. cbn [mbind option_bind] in E.
    destruct (existsb _ _) eqn:Eb; cbn [negb] in E.
    + destruct (find_index _ _) as [idx|] eqn:Ei; [|injection E as <-; right; split; [done|]].
      * exfalso. apply bind_Some in E as (c & Hc & (m & Hm & E)%bind_Some).
        apply find_index_Some in Ei as [(c' & Hc' & [Hzc _]%andb_true_iff) _]. rewrite Hc in Hc'. injection Hc' as <-.
        destruct (RecycleAllocator_dealloc _ _); [|done]. injection E as _ E. done.
      * intros c Hc Hq. rewrite find_index_None in Ei. specialize (Ei c Hc). rewrite Hq, andb_true_r in Ei. done.
    + injection E as <-. left. split; [done|]. intros c Hc. apply not_true_is_false. intros Hq.
      assert (existsb (v_asked v i) (children n.2) = true) by (apply existsb_exists; exists c; by rewrite <- list_elem_of_In). congruence.
  - right. rewrite Hn in Hn'. injection Hn' as <-. exists idx, c, t. do 5 (split; [done|]).
    pose proof (lookup_wait v a idx c n ra Hn) as Lk. destruct (wait_ne v a idx c n r t W Hn Hidx Hc Hz) as [Hac _].
    split. { destruct (to_live v W) as (live & Il & Hl). assert (Hr : r ∈ live) by (apply Hl; by exists c, t).
      apply (ra_live _ _ Il) in Hr. pose proof (ra_range _ _ Il). lia. }
    split; [by eapply step_wait|]. split; [congruence|]. split; [by rewrite Lk, decide_True|].
    split; [by rewrite Lk, decide_False, decide_True|]. split; [intros b Hba Hbc; by rewrite Lk, !decide_False|]. split; [done|].
    cbn. unfold RecycleAllocator_dealloc in Hra. repeat (apply outcome_bind_inv in Hra as (? & _ & Hra)). by injection Hra as <-.
Qed.

(** A child that is asked for and ended is reaped. *)
Lemma wait_ready v a i n c m : tree_ok v → v_procs v !! a = Some n → c ∈ children n.2 → v_procs v !! c = Some m → is_zombie m.2 = true →
  v_asked v i c = true → ∃ r code v', v_waitpid v a i = Some (r, code, v') ∧ r ≠ -2.
Proof.
  intros W Hn Hc Hm Hz Hq. unfold v_waitpid. rewrite Hn. cbn [mbind option_bind].
  rewrite (proj2 (existsb_exists _ _)) by (exists c; by rewrite <- list_elem_of_In). cbn [negb].
  destruct (find_index _ _) as [idx|] eqn:Ei.
  - apply find_index_Some in Ei as [(d & Hd & [Hzd _]%andb_true_iff) _]. rewrite Hd. cbn [mbind option_bind].
    unfold v_zombie in Hzd. destruct (v_procs v !! d) as [[p t]|] eqn:Ed; [|done]. cbn [mbind option_bind fst snd].
    destruct (to_live v W) as (live & Il & Hl). assert (Hp : p ∈ live) by (apply Hl; by exists d, t).
    pose proof (ra_dealloc_spec _ _ p Il) as Hr. rewrite decide_True in Hr by done. apply (ra_live _ _ Il) in Hp.
    destruct Hr as (r & -> & _); [lia|]. eexists _, _, _. split; [done|]. lia.
  - rewrite find_index_None in Ei. specialize (Ei c Hc). unfold v_zombie in Ei. rewrite Hm, Hq, Hz in Ei. done.
Qed.

(** Nobody is asked for. *)
Lemma wait_nobody v a i n : v_procs v !! a = Some n → (∀ c, c ∈ children n.2 → v_asked v i c = false) →
  v_waitpid v a i = Some (-1, None, v).
Proof.
  intros Hn Hno. unfold v_waitpid. rewrite Hn. cbn [mbind option_bind]. destruct (existsb _ _) eqn:Eb; [|done].
  apply existsb_exists in Eb as (c & Hc%list_elem_of_In & Hq). rewrite (Hno c Hc) in Hq. done.
Qed.
End calls.

(** ** The kernel's calls are these *)

Section kernel.
Context {A H F : Type} `{FrameAllocator A} `{BinaryHeap H} (sym : Symbols).
Implicit Types k : Kernel (A := A) (H := H) (F := F).

(** The process [a] of the running thread. *)
Definition runs k (a : nat) : Prop :=
  ∃ t x, Sched.current (sl_sched (sleep k)) = Some t ∧ tcbs k !! t = Some x ∧ tk_process x = a.

Lemma kernel_calls_on_tree k a : tree_ok (view k) → runs k a → alive (view k) a = true → ra_current (pids k) + 1 < 2 ^ 63 →
  (∀ r k', sys_fork sym k = Done (r, k') → ∃ c, v_sys_fork (view k) a = Some (r, c, view k')) ∧
  (∀ i ptr r k', sys_waitpid i ptr k = Done (r, k') → ∃ code, v_waitpid (view k) a i = Some (r, code, view k')) ∧
  (∀ code e k', exit_current code k = Done (e, k') → view k' = view k ∨ v_sys_exit (view k) a code = Some (view k')).
Proof.
  intros W (t & x & Ht & Hx & <-) Hal Hb. split; [|split].
  - intros r k' E. destruct (sys_fork_view sym k r k' E) as (t' & x' & c & Ht' & Hx' & _ & Hc & -> & ->).
    assert (x' = x) as -> by congruence. exists c. unfold v_sys_fork. cbn [view v_pids v_procs].
    destruct (Z.ltb_spec (ra_current (pids k) + 1) (2 ^ 63)); [|lia]. by rewrite dom_fmap_L, <- Hc.
  - intros i ptr r k' E. destruct (waitpid_view i ptr k r k' W E) as (t' & x' & code & Ht' & Hx' & Hv). exists code. congruence.
  - intros code e k' E. apply exit_current_view in E as [?|(t' & x' & p & Ht' & Hx' & Hp & Hi & Hz & _ & Ev)]; [by left| |done|].
    + right. assert (x' = x) as -> by congruence. unfold v_sys_exit. rewrite (node_lookup _ _ _ Hp). cbn [mbind option_bind node fst snd].
      rewrite decide_False by done. by rewrite Ev.
    + intros t' x' p Ht' Hx' Hp. apply alive_node in Hal as (n & Hn & Hz). assert (x' = x) as -> by congruence.
      rewrite (node_lookup _ _ _ Hp) in Hn. by injection Hn as <-.
Qed.
End kernel.

(** ** Programs *)

Section programs.
Context {L O : Type}.

(** What a process does next.  [PWait] is [wait] or [waitpid] with its loop (the call is made again
    as long as it gives -2), of the exit code's value before; [PStep] is anything else, with the
    lines it prints; a [panic] ends the process with -1. *)
Inductive PCall : Type :=
| PFork (k : Z → L)
| PExec (k : Z → L)
| PWait (i code : Z) (k : Z → Z → L)
| PStep (lines : list O) (l : L)
| PExit (code : Z).

(** The processes of the program, and what they printed. *)
Record PSys : Type := mkP {
  p_view : View;
  p_prog : gmap nat L;
  p_out : list O;
}.

Context (next : L → PCall).

(** A process of the program acts, or its [exec] is refused; or another process calls. *)
Inductive PEvent : Type :=
| Run (a : nat) | Refuse (a : nat)
| OtherFork (b : nat) | OtherExit (b : nat) (code : Z) | OtherWait (b : nat) (i : Z).

(** The process [a] makes its call and it returns. *)
Definition call (x : PSys) (a : nat) (l : L) : option PSys :=
  let 'mkP v pr out := x in
  match next l with
  | PFork k => '(pid, c, v) ← v_sys_fork v a; Some (mkP v (<[c := k 0]> (<[a := k pid]> pr)) out)
  | PExec _ => Some (mkP v (delete a pr) out)
  | PWait i code k =>
      '(r, code', v) ← v_waitpid v a i;
      if r =? -2 then Some x else Some (mkP v (<[a := k r (default code code')]> pr) out)
  | PStep lines l => Some (mkP v (<[a := l]> pr) (out ++ lines))
  | PExit code => v ← v_sys_exit v a code; Some (mkP v (delete a pr) out)
  end.

(** Whether [b] is a living process that does not run the program. *)
Definition other (x : PSys) (b : nat) : bool :=
  match p_prog x !! b with Some _ => false | None => alive (p_view x) b end.

(** [None]: the event cannot happen. *)
Definition pexec (e : PEvent) (x : PSys) : option PSys :=
  let 'mkP v pr out := x in
  match e with
  | Run a => l ← pr !! a; call x a l
  | Refuse a => l ← pr !! a; match next l with PExec k => Some (mkP v (<[a := k (-1)]> pr) out) | _ => None end
  | OtherFork b => if other x b then '(_, _, v) ← v_sys_fork v b; Some (mkP v pr out) else None
  | OtherExit b code => if other x b then v ← v_sys_exit v b code; Some (mkP v pr out) else None
  | OtherWait b i => if other x b then '(_, _, v) ← v_waitpid v b i; Some (mkP v pr out) else None
  end.

Fixpoint prun (es : list PEvent) (x : PSys) : option PSys :=
  match es with
  | [] => Some x
  | e :: es => y ← pexec e x; prun es y
  end.

Lemma prun_app es1 es2 x : prun (es1 ++ es2) x = y ← prun es1 x; prun es2 y.
Proof. revert x. induction es1 as [|e es1 IH]; intros x; [done|]. cbn. destruct (pexec e x) as [z|]; [apply IH|done]. Qed.

Lemma prun_ind (J : PSys → Prop) es x y : (∀ e z w, J z → pexec e z = Some w → J w) → J x → prun es x = Some y → J y.
Proof.
  intros HJ. revert x. induction es as [|e es IH]; intros x Jx; cbn [prun]; [by intros [= <-]|].
  intros (z & Ez & R)%bind_Some. by apply (IH z); [eapply HJ|].
Qed.

Record p_ok (x : PSys) : Prop := {
  po_tree : tree_ok (p_view x);
  po_alive : ∀ a l, p_prog x !! a = Some l → alive (p_view x) a = true;
}.

Definition actor (e : PEvent) : nat :=
  match e with Run a | Refuse a | OtherFork a | OtherExit a _ | OtherWait a _ => a end.

(** *** What an event of others, or of another process, keeps *)

(** A process [d] other than the first one that does not act and is not a zombie child of the actor. *)
Lemma pexec_frame e x y d : p_ok x → pexec e x = Some y → d ≠ actor e → d ≠ v_init (p_view x) →
  is_Some (v_procs (p_view x) !! d) →
  (∀ n, v_procs (p_view x) !! actor e = Some n → d ∈ children n.2 → alive (p_view x) d = true) →
  node_kept (p_view x) (p_view y) d ∧ p_prog y !! d = p_prog x !! d.
Proof.
  destruct x as [v pr out]. intros [W Hal] E Hd Hi [nd Hnd] Hc. cbn [p_view p_prog] in *.
  assert (Hf : ∀ a pid c v', alive v a = true → v_sys_fork v a = Some (pid, c, v') → d ≠ a → c ≠ d ∧ node_kept v v' d).
  { intros a pid c v' Ha Ef Hda. destruct (fork_call v a pid c v' W Ha Ef) as (_ & _ & Hcn & _ & _ & _ & Ho & _).
    assert (c ≠ d) by congruence. split; [done|]. by apply node_same, Ho. }
  assert (Hw : ∀ a i r code v', alive v a = true → v_waitpid v a i = Some (r, code, v') → d ≠ a →
    (∀ n, v_procs v !! a = Some n → d ∈ children n.2 → alive v d = true) → node_kept v v' d).
  { intros a i r code v' (n & Hn & _)%alive_node Ew Hda Hch.
    destruct (wait_call v a i r code v' n W Hn Ew) as [[-> _]|(idx & c & t & Hidx & Hct & Hz & _ & _ & _ & _ & _ & _ & _ & Ho & _)];
      [by apply node_same|]. apply node_same, Ho; [done|]. intros ->.
    pose proof (Hch n Hn (list_elem_of_lookup_2 _ _ _ Hidx)) as (m & Hm & Hzm)%alive_node. rewrite Hct in Hm. injection Hm as <-. cbn in Hzm. congruence. }
  assert (He : ∀ a code v', alive v a = true → v_sys_exit v a code = Some v' → d ≠ a → node_kept v v' d).
  { intros a code v' ([p t] & Hn & Hz)%alive_node Ee Hda. by apply (exit_call v a code v' p t W Hn Hz Ee). }
  assert (Hs : node_kept v v d) by by apply node_same.
  destruct e as [a|a|b|b code|b i]; cbn [pexec actor] in *.
  - apply bind_Some in E as (l & Hl & E). pose proof (Hal a l Hl) as Ha. cbn [call] in E. destruct (next l) as [k|k|i code k|o l'|code].
    + apply bind_Some in E as ([[pid c] v'] & Ef & [= <-]). destruct (Hf a pid c v' Ha Ef Hd) as [Hcd K]. cbn.
      by rewrite !lookup_insert_ne.
    + injection E as <-. cbn. by rewrite lookup_delete_ne.
    + apply bind_Some in E as ([[r code'] v'] & Ew & E). destruct (r =? -2); injection E as <-; cbn; [done|].
      rewrite lookup_insert_ne by done. split; [by eapply Hw|done].
    + injection E as <-. cbn. by rewrite lookup_insert_ne.
    + apply bind_Some in E as (v' & Ee & [= <-]). cbn. rewrite lookup_delete_ne by done. split; [by eapply He|done].
  - apply bind_Some in E as (l & Hl & E). destruct (next l); try done. injection E as <-. cbn. by rewrite lookup_insert_ne.
  - destruct (other _ b) eqn:Eo; [|done]. unfold other in Eo. cbn [p_prog p_view] in Eo. destruct (pr !! b); [done|].
    apply bind_Some in E as ([[pid c] v'] & Ef & [= <-]). by destruct (Hf b pid c v' Eo Ef Hd).
  - destruct (other _ b) eqn:Eo; [|done]. unfold other in Eo. cbn [p_prog p_view] in Eo. destruct (pr !! b); [done|].
    apply bind_Some in E as (v' & Ee & [= <-]). split; [by eapply He|done].
  - destruct (other _ b) eqn:Eo; [|done]. unfold other in Eo. cbn [p_prog p_view] in Eo. destruct (pr !! b); [done|].
    apply bind_Some in E as ([[r code'] v'] & Ew & [= <-]). split; [by eapply Hw|done].
Qed.

Lemma other_actor e x y : pexec e x = Some y → (∀ a, e ≠ Run a ∧ e ≠ Refuse a) →
  p_prog x !! actor e = None ∧ p_prog y = p_prog x ∧ p_out y = p_out x.
Proof.
  destruct x as [v pr out]. intros E Ho. destruct e as [a|a|b|b code|b i]; [by destruct (Ho a)..| | |]; cbn [pexec actor] in *;
    (destruct (other _ b) eqn:Eo; [|done]); unfold other in Eo; cbn [p_prog p_view] in *; (destruct (pr !! b) eqn:Eb; [done|]);
    [apply bind_Some in E as ([[pid c] v'] & _ & [= <-])|apply bind_Some in E as (v' & _ & [= <-])|apply bind_Some in E as ([[r c] v'] & _ & [= <-])]; done.
Qed.

(** The tree takes a step or none, and its first process stays. *)
Lemma pexec_tree e x y : p_ok x → pexec e x = Some y →
  (p_view y = p_view x ∨ tree_step (p_view x) (p_view y)) ∧ v_init (p_view y) = v_init (p_view x).
Proof.
  destruct x as [v pr out]. intros [W Hal] E. cbn [p_view p_prog] in *.
  assert (Hf : ∀ a pid c v', alive v a = true → v_sys_fork v a = Some (pid, c, v') → (v' = v ∨ tree_step v v') ∧ v_init v' = v_init v).
  { intros a pid c v' Ha Ef. destruct (fork_call v a pid c v' W Ha Ef) as (Hs & _ & _ & _ & _ & _ & _ & Hi & _). auto. }
  assert (Hw : ∀ a i r code v', alive v a = true → v_waitpid v a i = Some (r, code, v') → (v' = v ∨ tree_step v v') ∧ v_init v' = v_init v).
  { intros a i r code v' (n & Hn & _)%alive_node Ew. split; [by eapply v_waitpid_step|].
    by destruct (wait_call v a i r code v' n W Hn Ew) as [[-> _]|(idx & c & t & _ & _ & _ & _ & _ & _ & _ & _ & _ & _ & _ & Hi & _)]. }
  assert (He : ∀ a code v', alive v a = true → v_sys_exit v a code = Some v' → (v' = v ∨ tree_step v v') ∧ v_init v' = v_init v).
  { intros a code v' ([p t] & Hn & Hz)%alive_node Ee. destruct (exit_call v a code v' p t W Hn Hz Ee) as (Hs & _ & _ & _ & _ & Hi & _). auto. }
  destruct e as [a|a|b|b code|b i]; cbn [pexec] in *.
  - apply bind_Some in E as (l & Hl & E). pose proof (Hal a l Hl) as Ha. cbn [call] in E. destruct (next l) as [k|k|i code k|o l'|code].
    + apply bind_Some in E as ([[pid c] v'] & Ef & [= <-]). by eapply Hf.
    + injection E as <-. auto.
    + apply bind_Some in E as ([[r code'] v'] & Ew & E). destruct (r =? -2); injection E as <-; [auto|by eapply Hw].
    + injection E as <-. auto.
    + apply bind_Some in E as (v' & Ee & [= <-]). by eapply He.
  - apply bind_Some in E as (l & Hl & E). destruct (next l); try done. injection E as <-. auto.
  - destruct (other _ b) eqn:Eo; [|done]. unfold other in Eo. cbn [p_prog p_view] in Eo. destruct (pr !! b); [done|].
    apply bind_Some in E as ([[pid c] v'] & Ef & [= <-]). by eapply Hf.
  - destruct (other _ b) eqn:Eo; [|done]. unfold other in Eo. cbn [p_prog p_view] in Eo. destruct (pr !! b); [done|].
    apply bind_Some in E as (v' & Ee & [= <-]). by eapply He.
  - destruct (other _ b) eqn:Eo; [|done]. unfold other in Eo. cbn [p_prog p_view] in Eo. destruct (pr !! b); [done|].
    apply bind_Some in E as ([[r c] v'] & Ew & [= <-]). by eapply Hw.
Qed.

(** A process in the program after an event was in it, or is the child of a fork. *)
Lemma pexec_prog e x y d l : p_ok x → pexec e x = Some y → p_prog y !! d = Some l →
  is_Some (p_prog x !! d) ∨ ∃ a l0 k pid, e = Run a ∧ p_prog x !! a = Some l0 ∧ next l0 = PFork k ∧ l = k 0 ∧
    v_sys_fork (p_view x) a = Some (pid, d, p_view y).
Proof.
  destruct x as [v pr out]. intros [W Hal] E Hl. cbn [p_view p_prog] in *.
  destruct e as [a|a|b|b code|b i].
  - cbn [pexec] in E. apply bind_Some in E as (l0 & Hl0 & E). pose proof (Hal a l0 Hl0) as Ha. cbn [call] in E.
    destruct (next l0) as [k|k|i code k|o l'|code] eqn:En.
    + apply bind_Some in E as ([[pid c] v'] & Ef & [= <-]). cbn [p_prog p_view] in *. destruct (decide (d = c)) as [->|Hd].
      * right. rewrite lookup_insert_eq in Hl. injection Hl as <-. by exists a, l0, k, pid.
      * left. rewrite lookup_insert_ne in Hl by done. destruct (decide (d = a)) as [->|Hda]; [by eexists|].
        rewrite lookup_insert_ne in Hl by done. by eexists.
    + injection E as <-. left. cbn in Hl. apply lookup_delete_Some in Hl as [_ Hl]. by eexists.
    + apply bind_Some in E as ([[r code'] v'] & Ew & E). left. destruct (r =? -2); injection E as <-; cbn in Hl; [by eexists|].
      destruct (decide (d = a)) as [->|Hda]; [by eexists|]. rewrite lookup_insert_ne in Hl by done. by eexists.
    + injection E as <-. left. cbn in Hl. destruct (decide (d = a)) as [->|Hda]; [by eexists|]. rewrite lookup_insert_ne in Hl by done. by eexists.
    + apply bind_Some in E as (v' & Ee & [= <-]). left. cbn in Hl. apply lookup_delete_Some in Hl as [_ Hl]. by eexists.
  - left. cbn [pexec] in E. apply bind_Some in E as (l0 & Hl0 & E). destruct (next l0); try done. injection E as <-. cbn in Hl.
    destruct (decide (d = a)) as [->|Hda]; [by eexists|]. rewrite lookup_insert_ne in Hl by done. by eexists.
  - left. destruct (other_actor _ _ _ E) as (_ & Ep & _); [done|]. cbn in Ep. rewrite Ep in Hl. by eexists.
  - left. destruct (other_actor _ _ _ E) as (_ & Ep & _); [done|]. cbn in Ep. rewrite Ep in Hl. by eexists.
  - left. destruct (other_actor _ _ _ E) as (_ & Ep & _); [done|]. cbn in Ep. rewrite Ep in Hl. by eexists.
Qed.

(** The actor lives on if it stays in the program. *)
Lemma pexec_self a x y l : p_ok x → pexec (Run a) x = Some y → p_prog y !! a = Some l → alive (p_view y) a = true.
Proof.
  destruct x as [v pr out]. intros [W Hal] E Hl. cbn [p_view p_prog pexec] in *. apply bind_Some in E as (l0 & Hl0 & E).
  pose proof (Hal a l0 Hl0) as Ha. apply alive_node in Ha as Hn. destruct Hn as (n & Hn & Hz). cbn [call] in E. destruct (next l0) as [k|k|i code k|o l'|code].
  - apply bind_Some in E as ([[pid c] v'] & Ef & [= <-]). destruct (fork_call v a pid c v' W Ha Ef) as (_ & _ & _ & _ & _ & Hna & _).
    apply alive_node. eexists. split; [by apply Hna|done].
  - injection E as <-. cbn in Hl. by rewrite lookup_delete_eq in Hl.
  - apply bind_Some in E as ([[r code'] v'] & Ew & E). destruct (r =? -2); injection E as <-; cbn [p_view]; [done|].
    destruct (wait_call v a i r code' v' n W Hn Ew) as [[-> _]|(idx & c & t & _ & _ & _ & _ & _ & _ & _ & _ & _ & Hna & _)]; [done|].
    apply alive_node. eexists. split; [exact Hna|done].
  - by injection E as <-.
  - apply bind_Some in E as (v' & Ee & [= <-]). cbn in Hl. by rewrite lookup_delete_eq in Hl.
Qed.

Lemma pexec_ok e x y : p_ok x → pexec e x = Some y → p_ok y.
Proof.
  intros P E. pose proof (pexec_tree e x y P E) as [Hs Hi].
  assert (Wy : tree_ok (p_view y)) by (destruct Hs as [->|Hs]; [apply P|by eapply tree_step_ok, P]).
  split; [done|]. intros d l Hl. destruct (decide (d = v_init (p_view y))) as [->|Hdi].
  { destruct (to_init _ Wy) as (t & Ht & Hz & _). apply alive_node. by eexists. }
  rewrite Hi in Hdi. destruct (pexec_prog e x y d l P E Hl) as [[l0 Hl0]|(a & l0 & k & pid & -> & Ha & _ & _ & Ef)].
  - pose proof (po_alive x P d l0 Hl0) as Hd. apply alive_node in Hd as Hn. destruct Hn as (n & Hn & Hz).
    destruct (decide (d = actor e)) as [->|Hda].
    + destruct e as [a|a|b|b code|b i]; [by eapply pexec_self| |..].
      * cbn [pexec] in E. destruct x as [v pr out]. apply bind_Some in E as (l1 & _ & E). destruct (next l1); try done. by injection E as <-.
      * destruct (other_actor _ _ _ E) as (Hx & _); [done|]. congruence.
      * destruct (other_actor _ _ _ E) as (Hx & _); [done|]. congruence.
      * destruct (other_actor _ _ _ E) as (Hx & _); [done|]. congruence.
    + destruct (pexec_frame e x y d P E Hda Hdi) as [K _]; [by eexists|done|]. by eapply alive_kept.
  - apply alive_node. destruct (fork_call _ _ _ _ _ (po_tree x P) (po_alive x P a l0 Ha) Ef) as (_ & _ & _ & _ & Hc & _). by eexists.
Qed.

Lemma prun_ok es x y : p_ok x → prun es x = Some y → p_ok y.
Proof. apply prun_ind. intros e z w. apply pexec_ok. Qed.

(** *** How long the processes act *)

(** Whether an event is not one of the program's, or a call of [waitpid] that gives -2. *)
Definition idle (e : PEvent) (x : PSys) : bool :=
  match e with
  | Run a =>
      match p_prog x !! a with
      | Some l =>
          match next l with
          | PWait i _ _ => match v_waitpid (p_view x) a i with Some (r, _, _) => r =? -2 | None => false end
          | _ => false
          end
      | None => false
      end
  | Refuse _ => false
  | _ => true
  end.

(** How often the processes of the program act in a run, calls of [waitpid] that give -2 aside. *)
Fixpoint acts (es : list PEvent) (x : PSys) : Z :=
  match es with
  | [] => 0
  | e :: es => match pexec e x with Some y => (if idle e x then 0 else 1) + acts es y | None => 0 end
  end.

Lemma acts_nonneg es x : 0 ≤ acts es x.
Proof.
  revert x. induction es as [|e es IH]; intros x; cbn [acts]; [lia|]. destruct (pexec e x) as [y|]; [|lia].
  specialize (IH y). destruct (idle e x); lia.
Qed.

Section rank.
Context (rank : L → Z).

(** A measure that every action lowers. *)
Definition lowers : Prop := ∀ l, 0 < rank l ∧
  match next l with
  | PFork k => ∀ pid, 0 < pid → rank (k pid) + rank (k 0) < rank l
  | PExec k => rank (k (-1)) < rank l
  | PWait _ _ k => ∀ r code, rank (k r code) < rank l
  | PStep _ l' => rank l' < rank l
  | PExit _ => True
  end.

Definition psum (x : PSys) : Z := msum (λ _, rank) (p_prog x).

Context (Hlow : lowers).

Lemma psum_nonneg x : 0 ≤ psum x.
Proof.
  unfold psum. replace 0 with (msum (λ (_ : nat) (_ : L), 0) (p_prog x)) by (rewrite msum_const; lia).
  apply msum_le. intros a l _. pose proof (proj1 (Hlow l)). lia.
Qed.

Lemma psum_pos x : p_prog x ≠ ∅ → 0 < psum x.
Proof.
  intros Hne. apply map_choose in Hne as (a & l & Hl). unfold psum. rewrite (msum_delete _ _ a l Hl).
  pose proof (psum_nonneg (mkP (p_view x) (delete a (p_prog x)) [])) as H. unfold psum in H. cbn in H. pose proof (proj1 (Hlow l)). lia.
Qed.

(** An event that is not idle lowers the sum; a fork takes a pid. *)
Lemma psum_step e x y : p_ok x → pexec e x = Some y →
  (if idle e x then psum y = psum x else psum y + 1 ≤ psum x ∧ ra_current (v_pids (p_view y)) ≤ ra_current (v_pids (p_view x)) + 1).
Proof.
  destruct x as [v pr out]. intros [W Hal] E. cbn [p_view p_prog] in *. unfold psum. destruct e as [a|a|b|b code|b i].
  - cbn [pexec] in E. apply bind_Some in E as (l & Hl & E). pose proof (Hal a l Hl) as Ha. cbn [idle p_prog p_view]. rewrite Hl.
    cbn [call] in E. pose proof (Hlow l) as [Hpos Hr]. apply alive_node in Ha as Hn. destruct Hn as ([p t] & Hn & Hz). destruct (next l) as [k|k|i code k|o l'|code].
    + apply bind_Some in E as ([[pid c] v'] & Ef & [= <-]). destruct (fork_call v a pid c v' W Ha Ef) as (_ & Hp & Hc & Hca & _ & _ & _ & _ & Hcur).
      cbn [p_prog p_view]. assert (Hpc : pr !! c = None).
      { destruct (pr !! c) as [lc|] eqn:Ec; [|done]. apply Hal, alive_node in Ec as (m & Hm & _). congruence. }
      rewrite msum_new by by rewrite lookup_insert_ne. rewrite (msum_insert _ _ _ _ _ Hl). specialize (Hr pid ltac:(lia)). lia.
    + injection E as <-. cbn [p_prog p_view]. rewrite (msum_delete _ pr a l Hl). lia.
    + apply bind_Some in E as ([[r code'] v'] & Ew & E). rewrite Ew. destruct (r =? -2); injection E as <-; [done|]. cbn [p_prog p_view].
      rewrite (msum_insert _ _ _ _ _ Hl). specialize (Hr r (default code code')). split; [lia|].
      destruct (wait_call v a i r code' v' _ W Hn Ew) as [[-> _]|(idx & c & u & _ & _ & _ & _ & _ & _ & _ & _ & _ & _ & _ & _ & Hcur)]; lia.
    + injection E as <-. cbn [p_prog p_view]. rewrite (msum_insert _ _ _ _ _ Hl). lia.
    + apply bind_Some in E as (v' & Ee & [= <-]). cbn [p_prog p_view]. rewrite (msum_delete _ pr a l Hl).
      destruct (exit_call v a code v' p t W Hn Hz Ee) as (_ & _ & _ & _ & _ & _ & ->). lia.
  - cbn [pexec] in E. apply bind_Some in E as (l & Hl & E). pose proof (Hlow l) as [Hpos Hr]. destruct (next l); try done. injection E as <-.
    cbn [idle p_prog p_view]. rewrite (msum_insert _ _ _ _ _ Hl). lia.
  - destruct (other_actor _ _ _ E) as (_ & Ep & _); [done|]. cbn in Ep. cbn [idle p_prog]. by rewrite Ep.
  - destruct (other_actor _ _ _ E) as (_ & Ep & _); [done|]. cbn in Ep. cbn [idle p_prog]. by rewrite Ep.
  - destruct (other_actor _ _ _ E) as (_ & Ep & _); [done|]. cbn in Ep. cbn [idle p_prog]. by rewrite Ep.
Qed.

Lemma acts_bound es x y : p_ok x → prun es x = Some y → acts es x + psum y ≤ psum x.
Proof.
  revert x. induction es as [|e es IH]; intros x P; cbn [prun acts]; [intros [= <-]; lia|].
  intros (z & Ez & R)%bind_Some. rewrite Ez. specialize (IH z (pexec_ok e x z P Ez) R). pose proof (psum_step e x z P Ez) as Hs.
  destruct (idle e x); lia.
Qed.

(** A program that always has an event that is not idle can be run to its end, if the pids last. *)
Lemma can_end (J : PSys → Prop) x : (∀ y, J y → p_ok y) → (∀ e y z, J y → pexec e y = Some z → J z) →
  (∀ y, J y → p_prog y ≠ ∅ → ra_current (v_pids (p_view y)) + 1 < 2 ^ 63 → ∃ e z, pexec e y = Some z ∧ idle e y = false) →
  J x → ra_current (v_pids (p_view x)) + psum x < 2 ^ 63 → ∃ es y, prun es x = Some y ∧ p_prog y = ∅.
Proof.
  intros HP HJ Hgo. remember (Z.to_nat (psum x)) as k eqn:Ek. revert x Ek. induction k as [k IH] using lt_wf_ind. intros x -> Jx Hb.
  destruct (decide (p_prog x = ∅)) as [He|He]; [by exists [], x|]. pose proof (psum_pos x He).
  destruct (Hgo x Jx He ltac:(lia)) as (e & z & Ez & Hi). pose proof (psum_step e x z (HP x Jx) Ez) as Hs. rewrite Hi in Hs.
  pose proof (psum_nonneg z). destruct (IH (Z.to_nat (psum z)) ltac:(lia) z eq_refl (HJ e x z Jx Ez) ltac:(lia)) as (es & y & R & Hy).
  exists (e :: es), y. split; [|done]. cbn [prun]. by rewrite Ez.
Qed.
End rank.

(** *** What the program prints in all *)

Section lines.
Context (todo : L → list O).

(** What a process will print, its descendants included. *)
Definition foretells : Prop := ∀ l,
  match next l with
  | PFork k => ∀ pid, 0 < pid → todo l ≡ₚ todo (k pid) ++ todo (k 0)
  | PExec k => todo l = todo (k (-1)) ∧ todo l = []
  | PWait _ _ k => ∀ r code, todo (k r code) = todo l
  | PStep lines l' => todo l ≡ₚ lines ++ todo l'
  | PExit _ => todo l = []
  end.

Definition todos (pr : gmap nat L) : list O := concat ((λ al, todo al.2) <$> map_to_list pr).

Lemma todos_new pr a l : pr !! a = None → todos (<[a := l]> pr) ≡ₚ todo l ++ todos pr.
Proof.
  intros Ha. unfold todos. rewrite (map_to_list_insert pr a l Ha). done.
Qed.

Lemma todos_delete pr a l : pr !! a = Some l → todos pr ≡ₚ todo l ++ todos (delete a pr).
Proof.
  intros Ha. rewrite <- (insert_delete_id pr a l Ha) at 1. by rewrite todos_new by apply lookup_delete_eq.
Qed.

Lemma todos_insert pr a l l' : pr !! a = Some l → todos (<[a := l']> pr) ≡ₚ todo l' ++ todos (delete a pr).
Proof. intros Ha. rewrite <- insert_delete_eq. by rewrite todos_new by apply lookup_delete_eq. Qed.

Lemma lines_step e x y : foretells → p_ok x → pexec e x = Some y → p_out y ++ todos (p_prog y) ≡ₚ p_out x ++ todos (p_prog x).
Proof.
  intros HF. destruct x as [v pr out]. intros [W Hal] E. cbn [p_view p_prog p_out] in *. destruct e as [a|a|b|b code|b i].
  - cbn [pexec] in E. apply bind_Some in E as (l & Hl & E). pose proof (Hal a l Hl) as Ha. cbn [call] in E. pose proof (HF l) as Hr.
    rewrite (todos_delete pr a l Hl). destruct (next l) as [k|k|i code k|o l'|code].
    + apply bind_Some in E as ([[pid c] v'] & Ef & [= <-]). destruct (fork_call v a pid c v' W Ha Ef) as (_ & Hp & Hc & Hca & _).
      cbn [p_prog p_out]. assert (Hpc : pr !! c = None).
      { destruct (pr !! c) as [lc|] eqn:Ec; [|done]. apply Hal, alive_node in Ec as (m & Hm & _). congruence. }
      rewrite todos_new by by rewrite lookup_insert_ne. rewrite (todos_insert _ _ _ _ Hl). rewrite (Hr pid ltac:(lia)).
      apply Permutation_app_head. rewrite !(assoc_L (++)). apply Permutation_app_tail. apply Permutation_app_comm.
    + injection E as <-. cbn [p_prog p_out]. destruct Hr as [_ ->]. done.
    + apply bind_Some in E as ([[r code'] v'] & Ew & E). destruct (r =? -2); injection E as <-; cbn [p_prog p_out].
      * by rewrite (todos_delete pr a l Hl).
      * by rewrite (todos_insert _ _ _ _ Hl), Hr.
    + injection E as <-. cbn [p_prog p_out]. rewrite (todos_insert _ _ _ _ Hl), Hr. by rewrite <- !(assoc_L (++)).
    + apply bind_Some in E as (v' & Ee & [= <-]). cbn [p_prog p_out]. by rewrite Hr.
  - cbn [pexec] in E. apply bind_Some in E as (l & Hl & E). pose proof (HF l) as Hr. destruct (next l) eqn:En; try done. injection E as <-.
    cbn [p_prog p_out]. rewrite (todos_insert _ _ _ _ Hl). destruct Hr as [<- _]. by rewrite (todos_delete pr a l Hl).
  - destruct (other_actor _ _ _ E) as (_ & Ep & Eo); [done|]. cbn in Ep, Eo. by rewrite Ep, Eo.
  - destruct (other_actor _ _ _ E) as (_ & Ep & Eo); [done|]. cbn in Ep, Eo. by rewrite Ep, Eo.
  - destruct (other_actor _ _ _ E) as (_ & Ep & Eo); [done|]. cbn in Ep, Eo. by rewrite Ep, Eo.
Qed.
End lines.
End programs.
