(* ===== verification/ProcRuns.v ===== *)
(** * ProcRuns.v: the programs of several processes, run by the kernel

    The processes of a program make the kernel's own calls: [sys_fork], [sys_exec], [sys_waitpid] and
    [exit_current], each as it returns; where the kernel panics, a run ends.  In between the
    kernel takes any of its steps.  Every such run is one of the program on the tree of
    processes (UserProcs.v), so that what is proved there holds of the kernel. *)

From S2P Require Import Prelude Bytes BlockProg Efs Vfs FrameAlloc MemorySet ElfLoad Ids Sched Timer Kernel Process ProcessTree ProcessSim ProcessLife UserThreads UserProcs.

(** ** Definitions *)

(** Who made a step: a process of the program; nobody (a call of [waitpid] that gives -2 among them);
    or a process that does not run the program. *)
Inductive Who : Type := Act (a : nat) | Quiet | Others.

#[export] Instance Who_eq_dec : EqDecision Who.
Proof. solve_decision. Defined.

Section runs.
Context {A H F : Type} `{FrameAllocator A} `{BinaryHeap H}.
Context (sym : Symbols) (parse_elf : list Z → option ElfFile) (trap_handler sstatus : Z).
Context {L O : Type} (next : L → PCall (L := L) (O := O)).
Notation Kernel := (Kernel (A := A) (H := H) (F := F)).
Notation kstep := (kstep sym parse_elf trap_handler sstatus).
Implicit Types k : Kernel.

(** The kernel, the processes of the program, and what they printed. *)
Record KSys : Type := mkRun {
  r_kernel : Kernel;
  r_prog : gmap nat L;
  r_out : list O;
}.

(** What is at the pointer after [sys_waitpid], [code] before: what the child ended with
    ([waitpid_reaps] shows that it is stored there). *)
Definition wait_gives k (r code code' : Z) : Prop :=
  (r = -1 ∧ code' = code) ∨ ∃ c q, procs k !! c = Some q ∧ pid q = r ∧ code' = exit_code (tree q).

Inductive kact : Who → KSys → KSys → Prop :=
| k_fork k a l f r c k' pr out : runs k a → running_alive k → ra_current (pids k) + 1 < 2 ^ 63 → pr !! a = Some l → next l = PFork f →
    sys_fork sym k = Done (r, k') → pid2pcb k' !! r = Some c →
    kact (Act a) (mkRun k pr out) (mkRun k' (<[c := f 0]> (<[a := f r]> pr)) out)
| k_exec k a l f efs root D fuel path args r k' pr out : runs k a → pr !! a = Some l → next l = PExec f →
    sys_exec sym parse_elf trap_handler sstatus efs root D fuel path args k = Done (Some r, k') →
    kact (Act a) (mkRun k pr out) (mkRun k' (if r =? -1 then <[a := f r]> pr else delete a pr) out)
| k_wait k a l i code f ptr r code' k' pr out : runs k a → pr !! a = Some l → next l = PWait i code f →
    sys_waitpid i ptr k = Done (r, k') → r ≠ -2 → wait_gives k r code code' →
    kact (Act a) (mkRun k pr out) (mkRun k' (<[a := f r code']> pr) out)
| k_again k a l i code f ptr k' pr out : runs k a → pr !! a = Some l → next l = PWait i code f →
    sys_waitpid i ptr k = Done (-2, k') → kact Quiet (mkRun k pr out) (mkRun k' pr out)
| k_step k a l lines l' k' pr out : runs k a → pr !! a = Some l → next l = PStep lines l' →
    kstep k k' → view k' = view k → kact (Act a) (mkRun k pr out) (mkRun k' (<[a := l']> pr) (out ++ lines))
| k_exit k a l code e k' pr out : runs k a → running_alive k → pr !! a = Some l → next l = PExit code →
    exit_current code k = Done (e, k') → alive (view k') a = false →
    kact (Act a) (mkRun k pr out) (mkRun k' (delete a pr) out)
| k_quiet k k' pr out : kstep k k' → view k' = view k → kact Quiet (mkRun k pr out) (mkRun k' pr out)
| k_others k k' pr out : kstep k k' → (∀ a, runs k a → pr !! a = None) → kact Others (mkRun k pr out) (mkRun k' pr out).

Inductive kruns : list Who → KSys → KSys → Prop :=
| kr_nil x : kruns [] x x
| kr_cons w ws x y z : kact w x y → kruns ws y z → kruns (w :: ws) x z.

(** How often processes of the program act, calls of [waitpid] that give -2 aside. *)
Fixpoint acted (ws : list Who) : list nat :=
  match ws with
  | [] => []
  | Act a :: ws => a :: acted ws
  | _ :: ws => acted ws
  end.

(** ** Runs of the kernel are runs on the tree *)

Definition on_tree (x : KSys) : PSys (L := L) (O := O) := mkP (view (r_kernel x)) (r_prog x) (r_out x).

Lemma wait_gives_code v k a i r code code' co v' n : tree_ok (view k) → v = view k → v_procs v !! a = Some n →
  v_waitpid v a i = Some (r, co, v') → r ≠ -2 → wait_gives k r code code' → default code co = code'.
Proof.
  intros W -> Hn E Hr G. destruct (wait_call (view k) a i r co v' n W Hn E) as [(_ & -> & [[-> _]|[-> _]])|(idx & c & t & _ & Hc & _ & _ & -> & Hr0 & _)]; [|done|].
  - destruct G as [[_ ->]|(c & q & Hq & Hp & _)]; [done|]. exfalso. destruct (to_live _ W) as (live & Il & Hl).
    assert (Hin : -1 ∈ live) by (apply Hl; exists c, (tree q); rewrite <- Hp; exact (node_lookup _ _ _ Hq)). apply (ra_live _ _ Il) in Hin. lia.
  - destruct G as [[-> _]|(d & q & Hq & Hp & ->)]; [lia|]. apply node_lookup in Hq. unfold node in Hq. rewrite Hp in Hq.
    pose proof (to_pids _ W c d _ _ Hc Hq eq_refl) as <-. rewrite Hc in Hq. by injection Hq as <-.
Qed.

Lemma alive_of k a : runs k a → running_alive k → is_Some (procs k !! a) → alive (view k) a = true.
Proof.
  intros (t & x & Ht & Hx & <-) Hr [p Hp]. apply alive_node. exists (node p). split; [by apply node_lookup|]. by apply (Hr t x p).
Qed.

(** The call of a process that does not wait in vain is its event. *)
Lemma call_goes v pr out a l z : pr !! a = Some l → call next (mkP v pr out) a l = Some z →
  match next l with PWait _ _ _ => idle next (Run a) (mkP v pr out) = false | _ => True end →
  ∃ e, pexec next e (mkP v pr out) = Some z ∧ idle next e (mkP v pr out) = false ∧
    (e = Run a ∨ e = Refuse a ∧ ∃ l f, pr !! a = Some l ∧ next l = PExec f).
Proof.
  intros Hl Hz Hi. exists (Run a). split; [cbn [pexec]; by rewrite Hl|]. split; [|by left]. revert Hi. cbn [idle p_prog p_view].
  rewrite Hl. by destruct (next l).
Qed.

(** A step of a process of the program, or of nobody. *)
Lemma kact_run w x y : kact w x y → p_ok (on_tree x) →
  match w with
  | Act a => ∃ e, pexec next e (on_tree x) = Some (on_tree y) ∧ idle next e (on_tree x) = false ∧
      (e = Run a ∨ e = Refuse a ∧ ∃ l f, r_prog x !! a = Some l ∧ next l = PExec f)
  | Quiet => on_tree y = on_tree x
  | Others => True
  end.
Proof.
  intros E P. destruct E as [k a l f r c k' pr out Hr Hra Hb Hl Hn E Hc|k a l f efs root D fuel path args r k' pr out Hr Hl Hn E|
    k a l i code f ptr r code' k' pr out Hr Hl Hn E Hne G|k a l i code f ptr k' pr out Hr Hl Hn E|k a l lines l' k' pr out Hr Hl Hn _ E|
    k a l code e k' pr out Hr Hra Hl Hn E Hal'|k k' pr out _ E|k k' pr out S Ho]; try done; unfold on_tree in *; cbn [r_kernel r_prog r_out p_view p_prog] in *.
  all: try (pose proof (po_alive _ P a l Hl) as Hal; pose proof (po_tree _ P) as W; cbn [p_view] in Hal, W).
  all: try by rewrite E.
  - apply (call_goes _ _ _ _ l); [done| |by rewrite Hn]. unfold call. rewrite Hn. destruct Hr as (t & x & Ht & Hx & <-). destruct (sys_fork_view sym k r k' E) as (t' & x' & c' & Ht' & Hx' & _ & Hc' & V & ->).
    assert (x' = x) as -> by congruence. unfold v_sys_fork. cbn [view v_pids v_procs].
    destruct (Z.ltb_spec (ra_current (pids k) + 1) (2 ^ 63)); [|lia]. rewrite dom_fmap_L, <- Hc'. cbn [mbind option_bind]. rewrite <- V.
    assert (c = c') as ->; [|done]. assert (Hc2 : v_pid2pcb (view k') !! (RecycleAllocator_alloc (pids k)).1 = Some c) by exact Hc.
    rewrite V in Hc2. unfold v_fork in Hc2. change (v_pids (view k)) with (pids k) in Hc2. destruct (RecycleAllocator_alloc (pids k)) as [q ra].
    cbn in Hc2. rewrite lookup_insert_eq in Hc2. by injection Hc2.
  - apply quiet_sys_exec in E. rewrite E. destruct (Z.eqb_spec r (-1)) as [->|].
    + exists (Refuse a). split; [cbn [pexec]; rewrite Hl; cbn [mbind option_bind]; by rewrite Hn|]. split; [done|]. right. split; [done|by exists l, f].
    + apply (call_goes _ _ _ _ l); [done| |by rewrite Hn]. unfold call. by rewrite Hn.
  - destruct Hr as (t & x & Ht & Hx & <-). destruct (waitpid_view i ptr k r k' W E) as (t' & x' & co & Ht' & Hx' & V).
    assert (x' = x) as -> by congruence. pose proof (proj2 (Z.eqb_neq r (-2)) Hne) as Hne'. apply (call_goes _ _ _ _ l); [done| |].
    + unfold call. rewrite Hn, V. cbn [mbind option_bind]. rewrite Hne'.
      apply alive_node in Hal as (n & Hnn & _). by rewrite (wait_gives_code (view k) k _ i r code code' co _ n W eq_refl Hnn V Hne G).
    + rewrite Hn. cbn [idle p_prog p_view]. by rewrite Hl, Hn, V.
  - destruct Hr as (t & x & Ht & Hx & <-). destruct (waitpid_view i ptr k (-2) k' W E) as (t' & x' & co & Ht' & Hx' & V).
    assert (x' = x) as -> by congruence. apply alive_node in Hal as (n & Hnn & _).
    destruct (wait_call (view k) _ i (-2) co _ n W Hnn V) as [[-> _]|(idx & c & t2 & _ & _ & _ & _ & _ & ? & _)]; [done|lia].
  - apply (call_goes _ _ _ _ l); [done| |by rewrite Hn]. unfold call. by rewrite Hn, E.
  - apply (call_goes _ _ _ _ l); [done| |by rewrite Hn]. unfold call. rewrite Hn. destruct Hr as (t & x & Ht & Hx & <-).
    destruct (exit_current_view code k e k' W Hra E) as [V|(t' & x' & p & Ht' & Hx' & Hp & Hi & _ & _ & V)]; [rewrite V in Hal'; congruence|].
    assert (x' = x) as -> by congruence. unfold v_sys_exit. rewrite (node_lookup _ _ _ Hp). cbn [mbind option_bind node fst snd].
    rewrite decide_False by done. by rewrite V.
Qed.

(** A step of another process. *)
Lemma kact_others x y : kact Others x y → p_ok (on_tree x) →
  on_tree y = on_tree x ∨ ∃ e, (∀ a, e ≠ Run a ∧ e ≠ Refuse a) ∧ pexec next e (on_tree x) = Some (on_tree y).
Proof.
  intros E P. remember Others as w eqn:Ew. destruct E as [| | | | | | |k k' pr out S Ho]; try done. clear Ew. unfold on_tree. cbn [r_kernel r_prog r_out].
  pose proof (po_tree _ P) as W. cbn in W. unfold on_tree in P. cbn [r_kernel r_prog r_out] in P.
  assert (Hs : view k' = view k → mkP (view k') pr out = mkP (view k) pr out) by (intros ->; done).
  assert (Hoth : ∀ b, runs k b → alive (view k) b = true → other (mkP (O := O) (view k) pr out) b = true).
  { intros b Hb Ha. unfold other. cbn [p_prog p_view]. by rewrite (Ho b Hb). }
  destruct S as [k r k' Hr Hb E|k efs root D fuel path args r k' E|k code e k' Hr E|k i ptr r k' E|k entry arg r k' E|k tid r k' E|k fuel path r k' E|k r k' E|k k' E].
  - right. destruct (sys_fork_view sym k r k' E) as (t & x & c & Ht & Hx & Hs' & Hc & V & _). assert (Hrun : runs k (tk_process x)) by by exists t, x.
    exists (OtherFork (tk_process x)). split; [done|]. cbn [pexec]. rewrite (Hoth _ Hrun) by by apply alive_of.
    unfold v_sys_fork. cbn [view v_pids v_procs]. destruct (Z.ltb_spec (ra_current (pids k) + 1) (2 ^ 63)); [|lia]. rewrite dom_fmap_L, <- Hc. cbn [mbind option_bind]. by rewrite <- V.
  - left. apply Hs. by apply quiet_sys_exec in E.
  - destruct (exit_current_view code k e k' W Hr E) as [V|(t & x & p & Ht & Hx & Hp & Hi & _ & _ & V)]; [left; by apply Hs|right].
    assert (Hrun : runs k (tk_process x)) by by exists t, x. exists (OtherExit (tk_process x) code). split; [done|]. cbn [pexec].
    rewrite (Hoth _ Hrun) by (apply alive_of; [done|done|by eexists]). unfold v_sys_exit. rewrite (node_lookup _ _ _ Hp). cbn [mbind option_bind node fst snd].
    rewrite decide_False by done. cbn [mbind option_bind]. by rewrite <- V.
  - destruct (waitpid_view i ptr k r k' W E) as (t & x & co & Ht & Hx & V). assert (Hrun : runs k (tk_process x)) by by exists t, x.
    destruct (alive (view k) (tk_process x)) eqn:Ha.
    + right. exists (OtherWait (tk_process x) i). split; [done|]. cbn [pexec]. by rewrite (Hoth _ Hrun Ha), V.
    + left. apply Hs. unfold v_waitpid in V. destruct (v_procs (view k) !! tk_process x) as [n|] eqn:Hn; [|done]. cbn [mbind option_bind] in V.
      assert (Hz : is_zombie n.2 = true) by (unfold alive in Ha; rewrite Hn in Ha; by apply negb_false_iff in Ha).
      rewrite (to_zombie _ W _ _ Hn Hz) in V. apply (f_equal (from_option snd (view k))) in V. symmetry. exact V.
  - left. apply Hs. by apply quiet_sys_thread_create in E.
  - left. apply Hs. by apply quiet_sys_waittid in E.
  - left. apply Hs. by apply quiet_sys_chdir in E.
  - left. apply Hs. by apply quiet_sys_yield in E.
  - left. by apply Hs.
Qed.
(** The tree's run of a run of the kernel: the processes of the program act as often in both. *)
Lemma kruns_run ws x y : kruns ws x y → p_ok (on_tree x) →
  ∃ es, prun next es (on_tree x) = Some (on_tree y) ∧ acts next es (on_tree x) = zlen (acted ws).
Proof.
  induction 1 as [x|w ws x y z E _ IH]; intros P; [by exists []|]. assert (Hs : on_tree y = on_tree x ∨ ∃ e, pexec next e (on_tree x) = Some (on_tree y)).
  { destruct w as [a| |]; [|left; exact (kact_run _ _ _ E P)|].
    - destruct (kact_run _ _ _ E P) as (e & He & _). right. by exists e.
    - destruct (kact_others _ _ E P) as [?|(e & _ & He)]; [by left|right; by exists e]. }
  assert (Py : p_ok (on_tree y)) by (destruct Hs as [->|[e He]]; [done|by eapply pexec_ok]). destruct (IH Py) as (es & R & Ha). destruct w as [a| |].
  - destruct (kact_run _ _ _ E P) as (e & He & Hi & _). exists (e :: es). cbn [prun acts acted]. rewrite He, Hi. split; [exact R|]. rewrite Ha. unfold zlen. cbn [length]. lia.
  - pose proof (kact_run _ _ _ E P) as Eq. cbn iota in Eq. rewrite Eq in R, Ha. by exists es.
  - destruct (kact_others _ _ E P) as [Eq|(e & Ho & He)]; [rewrite Eq in R, Ha; by exists es|]. exists (e :: es). cbn [prun acts acted]. rewrite He.
    assert (Hi : idle next e (on_tree x) = true) by (destruct e as [a|a| | |]; [by destruct (Ho a)..|done|done|done]).
    rewrite Hi. split; [exact R|]. by rewrite Ha.
Qed.

(** In a kernel that was booted, process [p] is about to run the program from [l]. *)
Record kstarts (p : nat) (l : L) (x : KSys) : Prop := {
  kt_booted : ∃ k0, booted sym parse_elf trap_handler sstatus k0 ∧ rtc kstep k0 (r_kernel x);
  kt_init : p ≠ initproc (r_kernel x);
  kt_prog : r_prog x = {[p := l]};
  kt_proc : ∃ q, procs (r_kernel x) !! p = Some q ∧ is_zombie (tree q) = false ∧ children (tree q) = [];
  kt_out : r_out x = [];
}.

(** What the call of a process is not when it acts in a kernel with these processes: a wait in vain.
    It gives a result, or the kernel panics. *)
Definition not_in_vain (x : KSys) (a : nat) : Prop := ∃ l, r_prog x !! a = Some l ∧
  match next l with
  | PWait i _ _ => ∀ k ptr r k', view k = view (r_kernel x) → runs k a → sys_waitpid i ptr k = Done (r, k') → r ≠ -2
  | _ => True
  end.
Lemma kstarts_ok p l x : kstarts p l x → tree_ok (view (r_kernel x)).
Proof. intros [(k0 & B & S) _ _ _ _]. by eapply reached_ok. Qed.

(** An event that is not idle is an act of the program. *)
Lemma goes_not_in_vain e x z : tree_ok (view (r_kernel x)) → pexec next e (on_tree x) = Some z → idle next e (on_tree x) = false → ∃ a, not_in_vain x a.
Proof.
  intros W E Hi. unfold on_tree in *. destruct e as [a|a|b|b code|b i]; [| |done..]; exists a; cbn [pexec] in E; apply bind_Some in E as (l & Hl & E);
    exists l; (split; [exact Hl|]); [|by destruct (next l)].
  cbn [idle p_prog p_view] in Hi. rewrite Hl in Hi. cbn [call] in E. destruct (next l) as [k|k|i code k|o l'|code]; try done.
  apply bind_Some in E as ([[r0 co0] v0] & E & _). rewrite E in Hi. intros k' ptr r k'' V (t & x' & Ht & Hx & <-) Ew.
  destruct (waitpid_view i ptr k' r k'') as (t' & x'' & co & Ht' & Hx' & Ev); [|exact Ew|].
  { by rewrite V. }
  assert (x'' = x') as -> by congruence. rewrite V, E in Ev. injection Ev as -> _ _. by apply Z.eqb_neq in Hi.
Qed.
End runs.

(** ** A machine that runs programs *)

Module RunWitness.
Notation K := LifeWitness.K.

(** The process of the running thread, which lives. *)
Definition running (k : K) : option nat :=
  t ← Sched.current (sl_sched (sleep k));
  x ← tcbs k !! t;
  if LifeWitness.alive k && (ra_current (pids k) + 1 <? 2 ^ 63) then Some (tk_process x) else None.

Lemma running_spec k a : running k = Some a → runs k a ∧ running_alive k ∧ ra_current (pids k) + 1 < 2 ^ 63.
Proof.
  intros (t & Ht & (x & Hx & E)%bind_Some)%bind_Some. destruct (andb _ _) eqn:Eb; [|done]. injection E as <-. apply andb_true_iff in Eb as [Ha Hb%Z.ltb_lt].
  split; [by exists t, x|]. split; [|done]. intros t' x' p Ht' Hx' Hp. unfold LifeWitness.alive in Ha. rewrite Ht', Hx', Hp in Ha. by apply negb_true_iff.
Qed.

(** A disk with nothing but an empty root directory; a path of no bytes names it, and its bytes are
    executed, as good a program as any for [LifeWitness.elf]. *)
Definition fs : EasyFileSystem := created 2000 1.
Definition fs_disk : gmap Z block := {[in_block_id (root_inode fs) := replicate 512 0]}.

(** The exit code of the child that is reaped. *)
Definition given (k : K) (r code : Z) : option Z :=
  if r =? -1 then Some code else (λ cq, exit_code (tree cq.2.2)) <$> list_find (λ cq, pid cq.2 = r) (map_to_list (procs k)).

Lemma given_spec k r code code' : given k r code = Some code' → wait_gives k r code code'.
Proof.
  unfold given. destruct (Z.eqb_spec r (-1)) as [->|]; [intros [= <-]; by left|]. intros ([j [c q]] & E & ->)%fmap_Some. right.
  apply list_find_Some in E as (E & Hp & _). exists c, q. split; [|by split]. by apply list_elem_of_lookup_2, elem_of_map_to_list in E.
Qed.

Inductive Move : Type := Own | Switch | Ends (code : Z).

Section program.
Context {L O : Type} (next : L → PCall (L := L) (O := O)).
Notation KSys := (KSys (A := StackFrameAllocator) (H := list TimerCondVar) (F := unit) (L := L) (O := O)).
Notation kruns := (kruns LifeWitness.sym LifeWitness.elf 0 0 next).

(** The running process makes its call, waits with the pointer [0x1000]. *)
Definition step (x : KSys) : option (Who * KSys) :=
  let 'mkRun k pr out := x in
  a ← running k;
  l ← pr !! a;
  match next l with
  | PFork f => match sys_fork LifeWitness.sym k with Done (r, k') => c ← pid2pcb k' !! r; Some (Act a, mkRun k' (<[c := f 0]> (<[a := f r]> pr)) out) | Panicked _ => None end
  | PExec f =>
      match sys_exec LifeWitness.sym LifeWitness.elf 0 0 fs (root_inode fs) fs_disk 2 0x1000 0x1000 k with
      | Done (Some r, k') => Some (Act a, mkRun k' (if r =? -1 then <[a := f r]> pr else delete a pr) out)
      | _ => None
      end
  | PWait i code f =>
      match sys_waitpid i 0x1000 k with
      | Done (r, k') =>
          if r =? -2 then Some (Quiet, mkRun k' pr out)
          else code' ← given k r code; Some (Act a, mkRun k' (<[a := f r code']> pr) out)
      | Panicked _ => None
      end
  | PStep lines l' => Some (Act a, mkRun k (<[a := l']> pr) (out ++ lines))
  | PExit code => match exit_current code k with Done (_, k') => if UserProcs.alive (view k') a then None else Some (Act a, mkRun k' (delete a pr) out) | Panicked _ => None end
  end.

(** The running process, which does not run the program, ends. *)
Definition other_ends (code : Z) (x : KSys) : option KSys :=
  let 'mkRun k pr out := x in
  a ← running k;
  match pr !! a, exit_current code k with None, Done (_, k') => Some (mkRun k' pr out) | _, _ => None end.

(** The running thread yields if there is one, and the next one runs. *)
Definition switch (x : KSys) : option KSys :=
  let 'mkRun k pr out := x in
  match match Sched.current (sl_sched (sleep k)) with Some _ => sys_yield k | None => Done (0, k) end with
  | Done (_, k') => Some (mkRun (set_sched k' (run_tasks_round (sl_sched (sleep k')))) pr out)
  | Panicked _ => None
  end.

Fixpoint run (es : list Move) (x : KSys) : option KSys :=
  match es with
  | [] => Some x
  | Own :: es => '(_, y) ← step x; run es y
  | Switch :: es => y ← switch x; run es y
  | Ends code :: es => y ← other_ends code x; run es y
  end.

Lemma step_kact x w y : step x = Some (w, y) → kact LifeWitness.sym LifeWitness.elf 0 0 next w x y.
Proof.
  destruct x as [k pr out]. unfold step. intros (a & (Hr & Ha & Hb)%running_spec & (l & Hl & E)%bind_Some)%bind_Some. destruct (next l) as [f|f|i code f|lines l'|code] eqn:Hn.
  - destruct (sys_fork _ k) as [[r k']|] eqn:Ef; [|done]. apply bind_Some in E as (c & Hc & [= <- <-]). by apply (k_fork _ _ _ _ _ k a l).
  - destruct (sys_exec _ _ _ _ _ _ _ _ _ _ k) as [[[r|] k']|] eqn:Ee; try done. injection E as <- <-. by eapply (k_exec _ _ _ _ _ k a l f).
  - destruct (sys_waitpid _ _ k) as [[r k']|] eqn:Ew; [|done]. destruct (Z.eqb_spec r (-2)) as [->|Hne].
    + injection E as <- <-. by apply (k_again _ _ _ _ _ k a l i code f 0x1000).
    + apply bind_Some in E as (code' & Hg & [= <- <-]). apply (k_wait _ _ _ _ _ k a l i code f 0x1000 r code'); try done. by apply given_spec.
  - injection E as <- <-. apply (k_step _ _ _ _ _ k a l lines l'); try done. by apply ks_other.
  - destruct (exit_current code k) as [[e k']|] eqn:Ee; [|done]. destruct (alive (view k') a) eqn:Hv; [done|]. injection E as <- <-.
    by apply (k_exit _ _ _ _ _ k a l code e).
Qed.

Lemma switch_kact x y : switch x = Some y → kact LifeWitness.sym LifeWitness.elf 0 0 next Quiet x y.
Proof.
  destruct x as [k pr out]. unfold switch. destruct (match Sched.current _ with Some _ => _ | None => _ end) as [[r k']|] eqn:E; [|done]. intros [= <-].
  assert (V : view k' = view k) by (destruct (Sched.current _); [by apply quiet_sys_yield in E|by injection E as _ <-]).
  apply k_quiet; [apply ks_other|]; exact V.
Qed.

Lemma other_ends_kact code x y : other_ends code x = Some y → kact LifeWitness.sym LifeWitness.elf 0 0 next Others x y.
Proof.
  destruct x as [k pr out]. unfold other_ends. intros (a & (Hr & Ha & _)%running_spec & E)%bind_Some. destruct (pr !! a) eqn:Hp; [done|].
  destruct (exit_current code k) as [[e k']|] eqn:Ee; [|done]. injection E as <-. apply k_others; [by eapply ks_exit|].
  intros b (t & x & Ht & Hx & <-). destruct Hr as (t' & x' & Ht' & Hx' & <-). by assert (x' = x) as -> by congruence.
Qed.

Lemma run_kruns es : ∀ x y, run es x = Some y → ∃ ws, kruns ws x y.
Proof.
  induction es as [|[| |code] es IH]; intros x y E; cbn [run] in E.
  - injection E as ->. exists []. constructor.
  - apply bind_Some in E as ([w z] & Ez & E). destruct (IH z y E) as [ws R]. exists (w :: ws). econstructor; [by apply step_kact|done].
  - apply bind_Some in E as (z & Ez & E). destruct (IH z y E) as [ws R]. exists (Quiet :: ws). econstructor; [by apply switch_kact|done].
  - apply bind_Some in E as (z & Ez & E). destruct (IH z y E) as [ws R]. exists (Others :: ws). econstructor; [by eapply other_ends_kact|done].
Qed.
End program.

(** The first process forks and yields. *)
Definition two : outcome K :=
  k ← LifeWitness.boot;
  k ← LifeWitness.run k;
  '(_, k) ← sys_fork LifeWitness.sym k;
  '(_, k) ← sys_yield k;
  LifeWitness.run k.

Lemma two_reached k' : two = Done k' → ∃ k, booted LifeWitness.sym LifeWitness.elf 0 0 k ∧ rtc (kstep LifeWitness.sym LifeWitness.elf 0 0) k k'.
Proof.
  intros (k & ?%LifeWitness.boot_booted & (k1 & (V1 & L1 & B1)%LifeWitness.run_spec & ([z k2] & E2 & ([y k3] & E3 & (V4 & _ & _)%LifeWitness.run_spec)
    %outcome_bind_inv)%outcome_bind_inv)%outcome_bind_inv)%outcome_bind_inv.
  exists k. split; [done|]. eapply rtc_l; [by apply ks_other|]. eapply rtc_l; [by eapply ks_fork|]. eapply rtc_l; [by eapply ks_yield|].
  apply rtc_once. by apply ks_other.
Qed.

(** The child runs the program. *)
Definition start {L O} (l : L) (k : K) : KSys (O := O) := mkRun k {[1%nat := l]} [].

Definition child_ready (k : K) : bool :=
  negb (initproc k =? 1)%nat && match procs k !! 1%nat with Some q => negb (is_zombie (tree q)) && bool_decide (children (tree q) = []) | None => false end.

Lemma start_starts {L O} (l : L) k : two = Done k → child_ready k = true →
  kstarts (L := L) (O := O) LifeWitness.sym LifeWitness.elf 0 0 1 l (start l k).
Proof.
  intros E%two_reached Hc. unfold child_ready in Hc. apply andb_true_iff in Hc as [Hi%negb_true_iff%Nat.eqb_neq Hc].
  destruct (procs k !! 1%nat) as [q|] eqn:Eq; [|done]. apply andb_true_iff in Hc as [Hz%negb_true_iff Hch%bool_decide_eq_true].
  split; [exact E|done|done|by exists q|done].
Qed.
End RunWitness.
