(* ===== verification/ForkTests.v ===== *)
(** * ForkTests.v: the test programs that fork and wait

    [forktest], [forktest2], [forktest_simple], [exit], [sleep] and [matrix] of [user/src/bin] have
    one shape: a process forks children, each of which computes and exits with one code, and waits
    for them.  The shape is treated once ([leaf_parent]) on the tree of processes, the programs are instances;
    the theorem is about the runs of the kernel (ProcRuns.v). *)

From S2P Require Import Prelude FrameAlloc MemorySet ElfLoad Ids Sched Timer Kernel Process ProcessTree ProcessSim ProcessLife UserThreads UserProcs ProcRuns.

(** ** A process and its children *)

(** Whether [wait] ([-1]) or [waitpid] asks for the child with [pid]. *)
Definition asks (i pid : Z) : bool := (i =? -1) || (u64 i =? pid).

Section family.
Context {L O : Type} (next : L → PCall (L := L) (O := O)).
Context (kid : L → Prop) (code : Z).
Notation PSys := (PSys (L := L) (O := O)).
Implicit Types x y : PSys.

(** A child computes, and exits with [code]. *)
Definition kids_end : Prop := ∀ l, kid l →
  match next l with PStep _ l' => kid l' | PExit c => c = code | _ => False end.

(** [c] with [pid] is a child that runs, or one that ended; it has no children. *)
Definition leaf x (c : nat) (pid : Z) : Prop :=
  ∃ t, v_procs (p_view x) !! c = Some (pid, t) ∧ children t = [] ∧ 0 < pid < 2 ^ 63 ∧
    if is_zombie t then exit_code t = code ∧ p_prog x !! c = None else ∃ l, p_prog x !! c = Some l ∧ kid l.

(** [p] is at [l], its children are [cs], and the program has no other process. *)
Record family x (p : nat) (l : L) (cs : list (nat * Z)) : Prop := {
  fm_ok : p_ok x;
  fm_init : p ≠ v_init (p_view x);
  fm_prog : p_prog x !! p = Some l;
  fm_node : ∃ n, v_procs (p_view x) !! p = Some n ∧ children n.2 = cs.*1;
  fm_kids : ∀ c pid, (c, pid) ∈ cs → leaf x c pid;
  fm_all : ∀ a, is_Some (p_prog x !! a) → a = p ∨ a ∈ cs.*1;
}.

Context (Hkids : kids_end).

Lemma family_pid x p l cs c : family x p l cs → c ∈ cs.*1 → ∃ pid, (c, pid) ∈ cs ∧ leaf x c pid.
Proof. intros Fm ([c' pid] & -> & Hc)%list_elem_of_fmap. exists pid. split; [done|]. by apply (fm_kids _ _ _ _ Fm). Qed.

(** A child has [p] for its parent and nobody else. *)
Lemma family_parent x p l cs c : family x p l cs → c ∈ cs.*1 →
  c ≠ p ∧ c ≠ v_init (p_view x) ∧ ∀ b n, v_procs (p_view x) !! b = Some n → c ∈ children n.2 → b = p.
Proof.
  intros [P Hi Hp (n & Hn & Ech) Hk Ha] Hc. rewrite <- Ech in Hc. pose proof (po_tree x P) as W.
  destruct (to_child _ W p n c Hn Hc) as (m & _ & Hm & _ & Hpar & _). split; [|split].
  - intros ->. rewrite Hn in Hm. injection Hm as <-.
    pose proof (self_not_child (p_view x) p n.1 n.2 W) as Hs. apply Hs; [by destruct n|done|done].
  - intros ->. destruct (to_init _ W) as (ti & Hti & _ & Hpi). rewrite Hm in Hti. injection Hti as ->. cbn in Hpar. congruence.
  - intros b nb Hb Hcb. destruct (to_child _ W b nb c Hb Hcb) as (m' & _ & Hm' & _ & Hpar' & _). congruence.
Qed.

(** Nobody but [p] and its child [c] changes the child [c]. *)
Lemma leaf_frame e x y p l cs c pid : family x p l cs → pexec next e x = Some y → (c, pid) ∈ cs → actor e ≠ p → actor e ≠ c →
  leaf y c pid.
Proof.
  intros Fm E Hc Hep Hec. pose proof (fm_kids _ _ _ _ Fm c pid Hc) as (t & Ht & Hch & Hpid & Hst).
  destruct (family_parent x p l cs c Fm) as (Hcp & Hci & Hpar); [apply list_elem_of_fmap; by exists (c, pid)|].
  destruct (pexec_frame next e x y c (fm_ok _ _ _ _ Fm) E) as [K Ep]; [done|done|by eexists| |].
  { intros n Hn Hin. by destruct Hep, (Hpar _ n Hn Hin). }
  destruct (K _ Ht) as ([pid' t'] & Ht' & [Kp Kz Kc Ke]). cbn in *. subst pid'. exists t'. split; [done|]. rewrite Kc, Kz, Ke, Ep. auto.
Qed.

Lemma p_frame e x y p l cs : family x p l cs → pexec next e x = Some y → actor e ≠ p →
  p ≠ v_init (p_view y) ∧ p_prog y !! p = Some l ∧ ∃ n, v_procs (p_view y) !! p = Some n ∧ children n.2 = cs.*1.
Proof.
  intros [P Hi Hp (n & Hn & Ech) Hk Ha] E Hep. destruct (pexec_tree next e x y P E) as [_ ->].
  destruct (pexec_frame next e x y p P E) as [K ->]; [done|done|by eexists|intros _ _ _; by eapply po_alive|].
  do 2 (split; [done|]). destruct (K n Hn) as (n' & Hn' & [_ _ Kc _]). exists n'. by rewrite Kc.
Qed.

(** The program has no process but [p] and its children, before and after. *)
Lemma family_others e x y p l cs d : family x p l cs → pexec next e x = Some y → is_Some (p_prog y !! d) → actor e ≠ p →
  d = p ∨ d ∈ cs.*1.
Proof.
  intros Fm E [ld Hd] Hep. destruct (pexec_prog next e x y d ld (fm_ok _ _ _ _ Fm) E Hd) as [Hs|(a & l0 & k & pid & -> & Ha & Hn & _)];
    [by apply (fm_all _ _ _ _ Fm)|]. exfalso. cbn in Hep. destruct (fm_all _ _ _ _ Fm a) as [?|Hac]; [by eexists|done|].
  destruct (family_pid x p l cs a Fm Hac) as (pa & _ & t & _ & _ & _ & Hst). destruct (is_zombie t); [destruct Hst; congruence|].
  destruct Hst as (la & Hla & Hkl). assert (la = l0) as -> by congruence. pose proof (Hkids l0 Hkl) as Hk. by rewrite Hn in Hk.
Qed.

(** Others, and the children, keep the family. *)
Lemma family_frame e x y p l cs : family x p l cs → pexec next e x = Some y → actor e ≠ p → family y p l cs.
Proof.
  intros Fm E Hep. pose proof (fm_ok _ _ _ _ Fm) as P. destruct (p_frame e x y p l cs Fm E Hep) as (Hi & Hp & Hn).
  split; [by eapply pexec_ok|done|done|done| |intros d Hd; by eapply family_others]. intros c pid Hc.
  destruct (decide (actor e = c)) as [Hec|Hec]; [|by eapply leaf_frame].
  pose proof (fm_kids _ _ _ _ Fm c pid Hc) as (t & Ht & Hch & Hpid & Hst).
  assert (Hout : is_zombie t = false → p_prog x !! c ≠ None) by (intros Hz; rewrite Hz in Hst; destruct Hst as (lc & -> & _); done).
  destruct (family_parent x p l cs c Fm) as (_ & Hci & _); [apply list_elem_of_fmap; by exists (c, pid)|].
  assert (Hoth : p_prog x !! c = None → other x c = true → False).
  { intros Hnone Ho. unfold other in Ho. rewrite Hnone in Ho. apply alive_node in Ho as (m & Hm & Hz). rewrite Ht in Hm. injection Hm as <-. by apply Hout. }
  destruct e as [a|a|b|b z|b z]; cbn [actor] in Hec; subst; destruct x as [v pr out]; cbn [pexec p_prog p_view] in *.
  - apply bind_Some in E as (lc & Hlc & E). destruct (is_zombie t) eqn:Hz; [destruct Hst; congruence|].
    destruct Hst as (lc' & Hlc' & Hkl). assert (lc' = lc) as -> by congruence. pose proof (Hkids lc Hkl) as Hk. cbn [call] in E.
    destruct (next lc) as [k|k|i z k|o l'|z]; try done.
    + injection E as <-. exists t. cbn. do 3 (split; [done|]). rewrite Hz. exists l'. by rewrite lookup_insert_eq.
    + apply bind_Some in E as (v' & Ee & [= <-]).
      destruct (exit_call v c z v' pid t (po_tree _ P) Ht Hz Ee) as (_ & _ & Hc' & _). exists (mkTree true (parent t) [] z).
      cbn. do 3 (split; [done|]). by rewrite lookup_delete_eq.
  - apply bind_Some in E as (lc & Hlc & E). destruct (is_zombie t) eqn:Hz; [destruct Hst; congruence|].
    destruct Hst as (lc' & Hlc' & Hkl). assert (lc' = lc) as -> by congruence. pose proof (Hkids lc Hkl) as Hk. by destruct (next lc).
  - destruct (other _ c) eqn:Ho; [|done]. exfalso. apply Hoth; [|done]. unfold other in Ho. cbn in Ho. by destruct (pr !! c).
  - destruct (other _ c) eqn:Ho; [|done]. exfalso. apply Hoth; [|done]. unfold other in Ho. cbn in Ho. by destruct (pr !! c).
  - destruct (other _ c) eqn:Ho; [|done]. exfalso. apply Hoth; [|done]. unfold other in Ho. cbn in Ho. by destruct (pr !! c).
Qed.

(** What the parent's own action makes of the family. *)
Lemma family_step x y p l cs : family x p l cs → pexec next (Run p) x = Some y →
  match next l with
  | PFork k => kid (k 0) → ∃ c pid, 0 < pid < 2 ^ 63 ∧ family y p (k pid) (cs ++ [(c, pid)])
  | PExec _ => True
  | PWait i z k => y = x ∨ ((∀ c pid, (c, pid) ∈ cs → asks i pid = false) ∧ family y p (k (-1) z) cs) ∨
      ∃ idx c pid, cs !! idx = Some (c, pid) ∧ asks i pid = true ∧ family y p (k pid code) (delete idx cs)
  | PStep _ l' => family y p l' cs
  | PExit _ => cs = [] → p_prog y = ∅
  end.
Proof.
  intros Fm E. pose proof (pexec_ok next _ x y (fm_ok _ _ _ _ Fm) E) as Py.
  pose proof (pexec_tree next _ x y (fm_ok _ _ _ _ Fm) E) as [_ Hiy].
  assert (Hk' : ∀ c pid, (c, pid) ∈ cs → c ≠ p ∧ leaf x c pid).
  { intros c pid Hc. split; [|by apply (fm_kids _ _ _ _ Fm)]. by apply (family_parent x p l cs c Fm), list_elem_of_fmap; exists (c, pid). }
  destruct Fm as [P Hi Hp (n & Hn & Ech) Hk Ha]. pose proof (po_tree x P) as W. pose proof (po_alive x P p l Hp) as Hal.
  destruct x as [v pr out]. cbn [p_view p_prog pexec] in *. rewrite Hp in E. cbn [mbind option_bind call] in E.
  assert (Hpc : ∀ c, v_procs v !! c = None → pr !! c = None).
  { intros c Hc. destruct (pr !! c) as [lc|] eqn:Ec; [|done]. apply (po_alive _ P c lc), alive_node in Ec as (m & Hm & _). cbn in Hm. congruence. }
  destruct (next l) as [k|k|i z k|o l'|z].
  - intros Hk0. apply bind_Some in E as ([[pid c] v'] & Ef & [= <-]). cbn [p_view p_prog] in *.
    destruct (fork_call v p pid c v' W Hal Ef) as (_ & Hpid & Hc & Hcp & Hcn & Hpn & Ho & _). exists c, pid. split; [done|].
    split; cbn [p_view p_prog]; [done|congruence|by rewrite lookup_insert_ne, lookup_insert_eq| | |].
    + eexists. split; [by apply Hpn|]. cbn [snd add_child children]. by rewrite Ech, fmap_app.
    + intros d q [Hd|[= -> ->]%list_elem_of_singleton]%elem_of_app.
      * destruct (Hk' d q Hd) as (Hdp & t & Ht & Hch & Hq & Hst). exists t. cbn [p_view] in *. assert (d ≠ c) by congruence.
        rewrite Ho by done. do 3 (split; [done|]). cbn [p_prog] in *. by rewrite !lookup_insert_ne.
      * eexists. do 3 (split; [done|]). cbn [is_zombie p_prog]. exists (k 0). by rewrite lookup_insert_eq.
    + intros d [ld Hd]. rewrite fmap_app, elem_of_app. destruct (decide (d = c)) as [->|Hdc]; [right; right; by left|].
      rewrite lookup_insert_ne in Hd by done. destruct (decide (d = p)) as [->|Hdp]; [by left|]. rewrite lookup_insert_ne in Hd by done.
      destruct (Ha d); [by eexists|done|]. right. by left.
  - done.
  - apply bind_Some in E as ([[r code'] v'] & Ew & E). destruct (Z.eqb_spec r (-2)) as [->|Hr]; injection E as <-; [by left|]. right.
    cbn [p_view p_prog] in *. assert (Hasks : ∀ c pid, (c, pid) ∈ cs → v_asked v i c = asks i pid).
    { intros c pid Hc. destruct (Hk' c pid Hc) as (_ & t & Ht & _). unfold v_asked, asks. cbn in Ht. by rewrite Ht. }
    destruct (wait_call v p i r code' v' n W Hn Ew) as [(-> & -> & [[-> Hno]|[? _]])|(idx & c & t & Hidx & Hct & Hz & Hq & -> & _ & _ & Hcp & _ & Hpn & Ho & Hvi & _)]; [| |].
    + left. split. { intros c pid Hc. rewrite <- (Hasks c pid Hc). apply Hno. rewrite Ech. apply list_elem_of_fmap. by exists (c, pid). }
      split; cbn [p_view p_prog default]; [done|done|by rewrite lookup_insert_eq|by exists n| |].
      * intros d q Hd. destruct (Hk' d q Hd) as (Hdp & t & Ht & Hch & Hq & Hst). exists t. do 3 (split; [done|]). cbn [p_prog] in *. by rewrite lookup_insert_ne.
      * intros d [ld Hd]. destruct (decide (d = p)) as [->|Hdp]; [by left|]. rewrite lookup_insert_ne in Hd by done. apply Ha. by eexists.
    + done.
    + right. rewrite Ech, list_lookup_fmap in Hidx. apply fmap_Some in Hidx as ([c' pid] & Hidx & Ec). cbn in Ec. subst c'.
      pose proof (list_elem_of_lookup_2 _ _ _ Hidx) as Hin. destruct (Hk' c pid Hin) as (_ & t' & Ht' & Hch & Hpid & Hst).
      cbn [p_view p_prog] in Ht', Hst. rewrite Hct in Ht'. injection Ht' as <- <-. rewrite Hz in Hst. destruct Hst as [<- Hcprog]. exists idx, c, r.
      split; [done|]. split; [by rewrite <- (Hasks c r Hin)|].
      assert (Hnd : NoDup cs.*1) by (rewrite <- Ech; by apply (to_nodup v W p n)).
      pose proof (delete_Permutation _ _ _ Hidx) as Pm. set (ds := delete idx cs) in *.
      assert (Hds : c ∉ ds.*1) by (rewrite Pm in Hnd; by apply NoDup_cons in Hnd as [? _]).
      split; cbn [p_view p_prog default]; [done|congruence|by rewrite lookup_insert_eq| | |].
      * eexists. split; [exact Hpn|]. cbn [snd set_children children]. rewrite Ech. unfold ds. by rewrite !delete_take_drop, fmap_app, fmap_take, fmap_drop.
      * intros d q Hd. assert (Hdc : d ≠ c) by (intros ->; apply Hds, list_elem_of_fmap; by exists (c, q)).
        destruct (Hk' d q) as (Hdp & u & Hu & Hchu & Hq' & Hst); [rewrite Pm; by right|]. exists u. cbn [p_view p_prog] in *. rewrite Ho by done.
        do 3 (split; [done|]). by rewrite lookup_insert_ne.
      * intros d [ld Hd]. destruct (decide (d = p)) as [->|Hdp]; [by left|]. rewrite lookup_insert_ne in Hd by done. right.
        destruct (Ha d) as [?|Hd']; [by eexists|done|]. rewrite Pm in Hd'. apply elem_of_cons in Hd' as [->|?]; [cbn in Hd; congruence|done].
  - injection E as <-. split; cbn [p_view p_prog]; [done|done|by rewrite lookup_insert_eq|by exists n| |].
    + intros d q Hd. destruct (Hk' d q Hd) as (Hdp & t & Ht & Hch & Hq & Hst). exists t. do 3 (split; [done|]). cbn [p_prog] in *. by rewrite lookup_insert_ne.
    + intros d [ld Hd]. destruct (decide (d = p)) as [->|Hdp]; [by left|]. rewrite lookup_insert_ne in Hd by done. apply Ha. by eexists.
  - intros ->. apply bind_Some in E as (v' & Ee & [= <-]). cbn [p_prog]. apply map_eq. intros d. rewrite lookup_empty.
    destruct (decide (d = p)) as [->|Hdp]; [by rewrite lookup_delete_eq|]. rewrite lookup_delete_ne by done.
    destruct (pr !! d) as [ld|] eqn:Ed; [|done]. exfalso. destruct (Ha d) as [?|Hd]; [by eexists|done|]. by apply not_elem_of_nil in Hd.
Qed.

(** *** A parent that keeps books *)

(** [books l cs]: what the parent at [l] knows of its children [cs]; every call it makes fits. *)
Context (books : L → list (nat * Z) → Prop).

Definition books_kept : Prop := ∀ l cs, books l cs →
  match next l with
  | PFork k => kid (k 0) ∧ ∀ c pid, 0 < pid < 2 ^ 63 → books (k pid) (cs ++ [(c, pid)])
  | PExec _ => False
  | PWait i z k =>
      ((∀ c pid, (c, pid) ∈ cs → asks i pid = false) → books (k (-1) z) cs) ∧
      (∀ idx c pid, cs !! idx = Some (c, pid) → 0 < pid < 2 ^ 63 → asks i pid = true → books (k pid code) (delete idx cs))
  | PStep _ l' => books l' cs
  | PExit z => z = 0 ∧ cs = []
  end.

Context (Hbooks : books_kept).

Definition leaf_parent (p : nat) x : Prop :=
  p_ok x ∧ match p_prog x !! p with None => p_prog x = ∅ | Some l => ∃ cs, family x p l cs ∧ books l cs end.

Lemma empty_step e x y : p_prog x = ∅ → pexec next e x = Some y → p_prog y = ∅.
Proof.
  destruct x as [v pr out]. cbn. intros -> E. destruct e as [a|a|b|b z|b z]; cbn [pexec p_prog] in E; rewrite ?lookup_empty in E; try done;
    destruct (other _ b); try done; [apply bind_Some in E as ([[q c] v'] & _ & [= <-])|apply bind_Some in E as (v' & _ & [= <-])|apply bind_Some in E as ([[q c] v'] & _ & [= <-])]; done.
Qed.

Lemma leaf_parent_step p e x y : leaf_parent p x → pexec next e x = Some y → leaf_parent p y.
Proof.
  intros [P J] E. split; [by eapply pexec_ok|]. destruct (p_prog x !! p) as [l|] eqn:Hl.
  2: { pose proof (empty_step e x y J E) as ->. by rewrite lookup_empty. }
  destruct J as (cs & Fm & B). destruct (decide (actor e = p)) as [Hep|Hep].
  2: { pose proof (family_frame e x y p l cs Fm E Hep) as Fm'. rewrite (fm_prog _ _ _ _ Fm'). by exists cs. }
  pose proof (Hbooks l cs B) as Hb. destruct e as [a|a|b|b z|b z]; cbn in Hep; subst.
  - pose proof (family_step x y p l cs Fm E) as Hs. destruct (next l) as [k|k|i z k|o l'|z]; [| done | | |].
    + destruct Hb as [Hk Hb]. destruct (Hs Hk) as (c & pid & Hpid & Fm'). rewrite (fm_prog _ _ _ _ Fm'). eexists. split; [done|]. by apply Hb.
    + destruct Hb as [Hb1 Hb2]. destruct Hs as [->|[[Hno Fm']|(idx & c & pid & Hidx & Hq & Fm')]].
      * rewrite Hl. by exists cs.
      * rewrite (fm_prog _ _ _ _ Fm'). eexists. split; [done|]. by apply Hb1.
      * rewrite (fm_prog _ _ _ _ Fm'). eexists. split; [done|].
        pose proof (fm_kids _ _ _ _ Fm c pid (list_elem_of_lookup_2 _ _ _ Hidx)) as (t & _ & _ & Hpid & _). by eapply Hb2.
    + rewrite (fm_prog _ _ _ _ Hs). by exists cs.
    + destruct Hb as [_ ->]. rewrite (Hs eq_refl). by rewrite lookup_empty.
  - destruct x as [v pr out]. cbn [pexec p_prog] in *. rewrite Hl in E. cbn in E. by destruct (next l).
  - destruct (other_actor next _ x y E) as (Hx & _); [done|]. cbn in Hx. congruence.
  - destruct (other_actor next _ x y E) as (Hx & _); [done|]. cbn in Hx. congruence.
  - destruct (other_actor next _ x y E) as (Hx & _); [done|]. cbn in Hx. congruence.
Qed.

(** Some process of the program can act. *)
Lemma leaf_parent_goes p x : leaf_parent p x → p_prog x ≠ ∅ → ra_current (v_pids (p_view x)) + 1 < 2 ^ 63 →
  ∃ e z, pexec next e x = Some z ∧ idle next e x = false.
Proof.
  intros [P J] Hne Hb. destruct (p_prog x !! p) as [l|] eqn:Hl; [|done]. destruct J as (cs & Fm & B).
  destruct (existsb (λ cp, bool_decide (is_Some (p_prog x !! cp.1))) cs) eqn:Eb.
  - apply existsb_exists in Eb as ([c pid] & Hc%list_elem_of_In & Hs%bool_decide_eq_true). cbn in Hs.
    destruct (fm_kids _ _ _ _ Fm c pid Hc) as (t & Ht & _ & _ & Hst). destruct (is_zombie t); [destruct Hst as [_ Hn]; rewrite Hn in Hs; by destruct Hs|].
    destruct Hst as (lc & Hlc & Hk). destruct (family_parent x p l cs c Fm) as (_ & Hci & _); [apply list_elem_of_fmap; by exists (c, pid)|].
    exists (Run c). pose proof (Hkids lc Hk) as Hkl. destruct x as [v pr out]. cbn [p_view p_prog pexec idle] in *. rewrite Hlc. cbn [mbind option_bind call].
    destruct (next lc); try done; [by eexists|]. unfold v_sys_exit. rewrite Ht. cbn [mbind option_bind]. rewrite decide_False by done. by eexists.
  - assert (Hz : ∀ c pid, (c, pid) ∈ cs → ∃ t, v_procs (p_view x) !! c = Some (pid, t) ∧ is_zombie t = true).
    { intros c pid Hc. destruct (fm_kids _ _ _ _ Fm c pid Hc) as (t & Ht & _ & _ & Hst). exists t. split; [done|].
      destruct (is_zombie t); [done|]. destruct Hst as (lc & Hlc & _). apply not_true_iff_false in Eb. destruct Eb. apply existsb_exists.
      exists (c, pid). rewrite <- list_elem_of_In. split; [done|]. apply bool_decide_eq_true. by eexists. }
    destruct Fm as [_ Hi _ (n & Hn & Ech) _ _]. pose proof (Hbooks l cs B) as Hbk. pose proof (po_tree x P) as W.
    exists (Run p). destruct x as [v pr out]. cbn [p_view p_prog pexec idle] in *. rewrite Hl. cbn [mbind option_bind call].
    destruct (next l) as [k|k|i z k|o l'|z].
    + unfold v_sys_fork. destruct (Z.ltb_spec (ra_current (v_pids v) + 1) (2 ^ 63)); [|lia]. by eexists.
    + done.
    + enough (∃ r code' v', v_waitpid v p i = Some (r, code', v') ∧ r ≠ -2) as (r & code' & v' & -> & Hr).
      { cbn [mbind option_bind]. destruct (Z.eqb_spec r (-2)); [done|]. by eexists. }
      destruct (existsb (v_asked v i) (children n.2)) eqn:Ea.
      * apply existsb_exists in Ea as (c & Hc%list_elem_of_In & Hq). rewrite Ech in Hc. apply list_elem_of_fmap in Hc as ([c' pid] & -> & Hc).
        destruct (Hz c' pid Hc) as (t & Ht & Hzt). eapply (wait_ready v p i n c' (pid, t)); [done..| |done|done|done].
        rewrite Ech. apply list_elem_of_fmap. by exists (c', pid).
      * exists (-1), None, v. split; [|done]. apply (wait_nobody v p i n Hn). intros c Hc. apply not_true_is_false. intros Hq.
        assert (existsb (v_asked v i) (children n.2) = true); [|congruence]. apply existsb_exists. exists c. by rewrite <- list_elem_of_In.
    + by eexists.
    + unfold v_sys_exit. rewrite Hn. cbn [mbind option_bind]. rewrite decide_False by done. by eexists.
Qed.
End family.

(** ** What it means that a test passes *)

(** Process [p], at [l] and without children, is all of the program. *)
Record starts {L O} (p : nat) (l : L) (x : PSys (L := L) (O := O)) : Prop := {
  st_tree : tree_ok (p_view x);
  st_init : p ≠ v_init (p_view x);
  st_prog : p_prog x = {[p := l]};
  st_node : ∃ n, v_procs (p_view x) !! p = Some n ∧ is_zombie n.2 = false ∧ children n.2 = [];
  st_out : p_out x = [];
}.

(** On the tree, in any order of events: the process exits with 0 and not before its children; the program acts
    at most [bound] times, calls of [waitpid] that give -2 aside; and until its end some process can act. *)
Definition passes {L O} (next : L → PCall (L := L) (O := O)) (l : L) (bound : Z) : Prop :=
  ∀ p x0 es x, starts p l x0 → prun next es x0 = Some x →
    (∀ l' z, p_prog x !! p = Some l' → next l' = PExit z → z = 0) ∧
    (p_prog x !! p = None → p_prog x = ∅) ∧
    acts next es x0 ≤ bound ∧
    (p_prog x ≠ ∅ → ra_current (v_pids (p_view x)) + 1 < 2 ^ 63 → ∃ e y, pexec next e x = Some y ∧ idle next e x = false).

Lemma start_ok {L O} p (l : L) (x : PSys (L := L) (O := O)) : starts p l x → p_ok x.
Proof.
  intros [W Hi Hp (n & Hn & Hz & _) _]. split; [done|]. intros a la Ha. rewrite Hp in Ha. apply lookup_singleton_Some in Ha as [<- _].
  apply alive_node. by exists n.
Qed.

Lemma start_sum {L O} p (l : L) (x : PSys (L := L) (O := O)) (rank : L → Z) : starts p l x → psum rank x = rank l.
Proof.
  intros S. unfold psum. rewrite (st_prog _ _ _ S). change {[p := l]} with (<[p := l]> (∅ : gmap nat L)).
  rewrite msum_new by apply lookup_empty. change (msum _ ∅) with 0. lia.
Qed.

Lemma start_family {L O} (kid : L → Prop) code p (l : L) (x : PSys (L := L) (O := O)) : starts p l x → family kid code x p l [].
Proof.
  intros S. pose proof (start_ok p l x S) as P. destruct S as [W Hi Hp (n & Hn & Hz & Hc) _].
  split; [done|done|by rewrite Hp, lookup_singleton_eq|by exists n|by intros c pid ?%not_elem_of_nil|].
  intros a [la Ha]. rewrite Hp in Ha. apply lookup_singleton_Some in Ha as [<- _]. by left.
Qed.

Lemma leaf_parent_passes {L O} (next : L → PCall (L := L) (O := O)) (kid : L → Prop) code books rank l :
  kids_end next kid code → books_kept next kid code books → lowers next rank → books l [] → passes next l (rank l).
Proof.
  intros Hk Hb Hr B p x0 es x S R. pose proof (start_ok p l x0 S) as P0. pose proof (start_sum p l x0 rank S) as E0.
  assert (J : leaf_parent kid code books p x).
  { eapply (prun_ind next (leaf_parent kid code books p)); [intros e z w Jz; by apply leaf_parent_step| |exact R]. split; [done|].
    rewrite (st_prog _ _ _ S), lookup_singleton_eq. exists []. split; [by apply start_family|done]. }
  split; [|split; [|split]].
  - intros l' z Hl En. destruct J as [_ J]. rewrite Hl in J. destruct J as (cs & _ & B'). pose proof (Hb l' cs B') as Hz. rewrite En in Hz. apply Hz.
  - intros Hl. destruct J as [_ J]. by rewrite Hl in J.
  - pose proof (acts_bound next rank Hr es x0 x P0 R). pose proof (psum_nonneg next rank Hr x). lia.
  - by apply (leaf_parent_goes next kid code Hk books Hb p).
Qed.

(** In every run of the kernel, which may end in a panic at any call: the process exits with 0, the assertions hold, and not before its children; the
    program acts at most [bound] times, vain calls of [waitpid] aside; and until its end there is a
    process of it that does not wait in vain when it runs. *)
Definition kernel_passes {A H F L O} `{FrameAllocator A} `{BinaryHeap H} sym parse_elf trap_handler sstatus
    (next : L → PCall (L := L) (O := O)) (l : L) (bound : Z) : Prop :=
  ∀ p (x0 x : KSys (A := A) (H := H) (F := F)) ws, kstarts sym parse_elf trap_handler sstatus p l x0 →
    kruns sym parse_elf trap_handler sstatus next ws x0 x →
    (∀ l' z, r_prog x !! p = Some l' → next l' = PExit z → z = 0) ∧
    (r_prog x !! p = None → r_prog x = ∅) ∧
    zlen (acted ws) ≤ bound ∧
    (r_prog x ≠ ∅ → ra_current (pids (r_kernel x)) + 1 < 2 ^ 63 → ∃ a, not_in_vain next x a).

Lemma passes_in_kernel {A H F L O} `{FrameAllocator A} `{BinaryHeap H} sym parse_elf trap_handler sstatus
    (next : L → PCall (L := L) (O := O)) l bound :
  passes next l bound → kernel_passes (A := A) (H := H) (F := F) sym parse_elf trap_handler sstatus next l bound.
Proof.
  intros Ps p x0 x ws S R. pose proof (kstarts_ok _ _ _ _ p l x0 S) as W. destruct S as [_ Hi Hp (q & Hq & Hz & Hc) Ho].
  assert (S : starts p l (on_tree x0)) by (split; [done|done|done| |done]; exists (node q); split; [by apply node_lookup|by split]).
  destruct (kruns_run _ _ _ _ next ws x0 x R (start_ok p l _ S)) as (es & Re & <-).
  destruct (Ps p _ es _ S Re) as (H1' & H2' & H3' & H4'). do 3 (split; [done|]). intros Hne Hb. destruct (H4' Hne Hb) as (e & y & E & He).
  apply (goes_not_in_vain _ e x y); [|done|done]. apply (prun_ok next es _ _ (start_ok p l _ S) Re).
Qed.

(** ** forktest.rs, forktest2.rs, matrix.rs *)

(** Local states: in the first and the second loop of [main], a child with [n] steps to go, returned. *)
Inductive Forker : Type := Forking (i : nat) | Waiting (i : nat) (exit_code : Z) | Child (n : nat) | Returned (code : Z).

Definition forker_kid (l : Forker) : Prop := match l with Child _ => True | _ => False end.

Section forker.
Context (NUM : nat) (work : nat → nat) (forked : Z → bool) (waited : Z → Z → bool) (last : Z → bool).

(** [main]: fork [NUM] children (the [i]-th has [work i] steps), wait for them, and wait once more;
    [forked], [waited] and [last] are what is asserted of a pid, of a result and exit code, and of
    the last result. *)
Definition forker (l : Forker) : PCall (L := Forker) (O := unit) :=
  match l with
  | Forking i =>
      if (i <? NUM)%nat then PFork (λ pid, if pid =? 0 then Child (work i) else if forked pid then Forking (S i) else Returned (-1))
      else PStep [] (Waiting 0 0)
  | Waiting i exit_code =>
      if (i <? NUM)%nat then PWait (-1) exit_code (λ r code, if waited r code then Waiting (S i) code else Returned (-1))
      else PWait (-1) exit_code (λ r _, if last r then Returned 0 else Returned (-1))
  | Child (S n) => PStep [] (Child n)
  | Child O => PExit 0
  | Returned code => PExit code
  end.

Definition forker_books (l : Forker) (cs : list (nat * Z)) : Prop :=
  match l with
  | Forking i => (i ≤ NUM)%nat ∧ length cs = i
  | Waiting i _ => (i ≤ NUM)%nat ∧ length cs = (NUM - i)%nat
  | Child _ => False
  | Returned code => code = 0 ∧ cs = []
  end.

Definition forker_rank (l : Forker) : Z :=
  match l with
  | Forking i => Z.of_nat (sum_list_with (λ j, (work j + 3)%nat) (seq i (NUM - i)) + NUM + 4)
  | Waiting i _ => Z.of_nat (NUM - i) + 2
  | Child n => Z.of_nat n + 1
  | Returned _ => 1
  end.

Lemma forker_kids_end : kids_end forker forker_kid 0.
Proof. intros [i|i c|[|n]|c]; cbn; done. Qed.

Lemma forker_lowers : lowers forker forker_rank.
Proof.
  intros [i|i c|[|n]|c]; cbn [forker forker_rank]; (split; [lia|]); try lia.
  - destruct (Nat.ltb_spec i NUM) as [Hi|Hi].
    + intros pid Hp. rewrite (proj2 (Z.eqb_neq pid 0)) by lia. cbn [Z.eqb forker_rank].
      destruct (NUM - i)%nat as [|m] eqn:E; [lia|]. cbn [seq sum_list_with]. destruct (forked pid); cbn [forker_rank]; [|lia].
      replace (NUM - S i)%nat with m by lia. lia.
    + cbn [forker_rank]. lia.
  - destruct (Nat.ltb_spec i NUM) as [Hi|Hi]; intros r z; cbn beta; [destruct (waited r z)|destruct (last r)]; cbn [forker_rank]; lia.
Qed.

Context (Hforked : ∀ pid, 0 < pid → forked pid = true) (Hwaited : ∀ r, 0 < r → waited r 0 = true) (Hlast : last (-1) = true).

Lemma forker_books_kept : books_kept forker forker_kid 0 forker_books.
Proof.
  intros [i|i c|n|c] cs; cbn [forker_books]; [| | done|]; unfold forker.
  - intros [Hi Hcs]. destruct (Nat.ltb_spec i NUM) as [Hlt|Hge]; cbn [Z.eqb].
    + split; [done|]. intros d pid Hp. rewrite (proj2 (Z.eqb_neq pid 0)), Hforked by lia. cbn. rewrite length_app. cbn. lia.
    + cbn. lia.
  - intros [Hi Hcs]. assert (Hall : ∀ pid, asks (-1) pid = true) by done.
    destruct (Nat.ltb_spec i NUM) as [Hlt|Hge]; (split; [intros Hno|intros idx d pid Hidx Hp _]).
    + destruct cs as [|[d pid] cs]; [cbn in Hcs; lia|]. specialize (Hno d pid ltac:(by left)). by rewrite Hall in Hno.
    + rewrite Hwaited by lia. cbn. rewrite (length_delete _ idx) by by eexists. lia.
    + rewrite Hlast. split; [done|]. apply length_zero_iff_nil. lia.
    + apply lookup_lt_Some in Hidx. lia.
  - done.
Qed.

Lemma forker_passes : passes forker (Forking 0) (forker_rank (Forking 0)).
Proof.
  eapply leaf_parent_passes; [apply forker_kids_end|apply forker_books_kept|apply forker_lowers|]. cbn. lia.
Qed.
End forker.

Definition MAX_CHILD : nat := 30.

(** forktest.rs: a child prints and exits. *)
Definition forktest : Forker → PCall := forker MAX_CHILD (λ _, 1%nat) (λ pid, 0 <? pid) (λ r _, negb (r <=? 0)) (λ r, negb (0 <? r)).

(** forktest2.rs: a child sleeps for a time that depends on the clock. *)
Definition forktest2 (work : nat → nat) : Forker → PCall :=
  forker 30 work (λ _, true) (λ r exit_code, (0 <? r) && (exit_code =? 0)) (λ r, r <? 0).

(** matrix.rs: a child squares a matrix, a number of times that depends on the clock. *)
Definition matrix (work : nat → nat) : Forker → PCall := forker 30 work (λ _, true) (λ r _, negb (r <? 0)) (λ r, r <? 0).

(** ** forktest_simple.rs, exit.rs, sleep.rs *)

(** Local states: before the fork ([OAlone]: in the wait before it), in the waits for the child with
    [pid], for the child that was waited for, and for any child; the child with [n] steps to go. *)
Inductive One : Type :=
| OAlone | OFork | OWait (pid : Z) | OAgain (pid exit_code : Z) | OAny (exit_code : Z) | OChild (n : nat) | OReturned (code : Z).

Definition one_kid (l : One) : Prop := match l with OChild _ => True | _ => False end.

(** A child with [n] steps, that exits with [code]. *)
Definition one_child (code : Z) (n : nat) : PCall (L := One) (O := unit) :=
  match n with S n => PStep [] (OChild n) | O => PExit code end.

Definition asserted (b : bool) (l : One) : One := if b then l else OReturned (-1).

Definition forktest_simple (l : One) : PCall (L := One) (O := unit) :=
  match l with
  | OAlone => PWait (-1) 0 (λ r _, asserted (r =? -1) OFork)
  | OFork => PFork (λ pid, if pid =? 0 then OChild 1 else OWait pid)
  | OWait pid => PWait (-1) 0 (λ r exit_code, asserted ((pid =? r) && (exit_code =? 100)) (OReturned 0))
  | OChild n => one_child 100 n
  | OReturned code => PExit code
  | OAgain _ _ | OAny _ => PExit (-1)
  end.

Definition MAGIC : Z := - 0x10384.

Definition exit_test (l : One) : PCall (L := One) (O := unit) :=
  match l with
  | OFork => PFork (λ pid, if pid =? 0 then OChild 8 else OWait pid)
  | OWait pid => PWait pid 0 (λ r xstate, asserted ((r =? pid) && (xstate =? MAGIC)) (OAgain pid xstate))
  | OAgain pid xstate => PWait pid xstate (λ r xstate, asserted (r <? 0) (OAny xstate))
  | OAny xstate => PWait (-1) xstate (λ r _, asserted (r <=? 0) (OReturned 0))
  | OChild n => one_child MAGIC n
  | OReturned code => PExit code
  | OAlone => PExit (-1)
  end.

Definition sleep_test (l : One) : PCall (L := One) (O := unit) :=
  match l with
  | OFork => PFork (λ pid, if pid =? 0 then OChild 5 else OWait pid)
  | OWait pid => PWait pid 0 (λ r exit_code, asserted ((r =? pid) && (exit_code =? 0)) (OReturned 0))
  | OChild n => one_child 0 n
  | OReturned code => PExit code
  | OAlone | OAgain _ _ | OAny _ => PExit (-1)
  end.

Definition one_books (l : One) (cs : list (nat * Z)) : Prop :=
  match l with
  | OAlone | OFork | OAny _ => cs = []
  | OAgain pid _ => cs = [] ∧ 0 < pid < 2 ^ 63
  | OWait pid => 0 < pid < 2 ^ 63 ∧ ∃ c, cs = [(c, pid)]
  | OChild _ => False
  | OReturned code => code = 0 ∧ cs = []
  end.

Definition one_rank (l : One) : Z :=
  match l with
  | OAlone => 17 | OFork => 16 | OWait _ => 5 | OAgain _ _ => 4 | OAny _ => 3 | OChild n => Z.of_nat n + 1 | OReturned _ => 1
  end.

Lemma asks_self pid : 0 < pid < 2 ^ 63 → asks pid pid = true.
Proof. intros H. unfold asks. rewrite wrap_small by lia. by rewrite Z.eqb_refl, orb_true_r. Qed.

(** The books of the three programs; the states that a program does not use exit with -1. *)
Definition one_fits (next : One → PCall (L := One) (O := unit)) (l : One) (cs : list (nat * Z)) : Prop :=
  one_books l cs ∧ next l ≠ PExit (-1).

Ltac one_solve :=
  cbn [one_books] in *; unfold one_fits, asserted;
  match goal with
  | H : False |- _ => destruct H
  | |- _ ∧ ∀ (c : nat) pid, 0 < pid < _ → _ =>
      subst; split; [done|]; intros c pid Hp; rewrite (proj2 (Z.eqb_neq pid 0)) by lia; split; [split; [done|by exists c]|done]
  | H : 0 < ?pid < _ ∧ ∃ c, _ |- _ =>
      destruct H as [H [c ->]]; split;
        [intros Hno; specialize (Hno c pid ltac:(by left)); by rewrite ?asks_self in Hno
        |intros [|idx] d q; [intros [= <- <-] _ _; by rewrite ?Z.eqb_refl|by rewrite lookup_cons, lookup_nil]]
  | |- _ ∧ ∀ (idx c : nat) pid, _ => intuition subst; done
  | |- ?z = 0 ∧ _ => by intuition congruence
  end.

Ltac one_passes next code :=
  apply (leaf_parent_passes next one_kid code (one_fits next) one_rank);
  [ by intros [| | | | |[|n]|]
  | intros [| |pid|pid z|z|n|z] cs [B Hu]; cbn in Hu |- *; one_solve
  | intros [| |pid|pid z|z|[|n]|z]; cbn; (split; [lia|]); unfold asserted; intros; repeat case_match; cbn; try lia; done
  | done ].

Lemma forktest_simple_passes : passes forktest_simple OAlone (one_rank OAlone).
Proof. one_passes forktest_simple 100. Qed.

Lemma exit_test_passes : passes exit_test OFork (one_rank OFork).
Proof. one_passes exit_test MAGIC. Qed.

Lemma sleep_test_passes : passes sleep_test OFork (one_rank OFork).
Proof. one_passes sleep_test 0. Qed.

(** ** The clock, and the work of matrix.rs *)

(** [(current_time as i32 as isize) * (current_time as i32 as isize) % 1000] *)
Definition clock_steps (current_time : Z) : Z := let t := i32 current_time in Z.rem (i64 (t * t)) 1000.

Definition sleep_length (current_time : Z) : Z := i64 (clock_steps current_time + 1000).

Lemma clock_steps_range current_time : 0 ≤ clock_steps current_time < 1000 ∧ 1000 ≤ sleep_length current_time < 2000.
Proof.
  unfold sleep_length, clock_steps. pose proof (signed_range 32 current_time ltac:(lia)) as Ht. set (t := i32 current_time) in *.
  assert (0 ≤ t * t < 2 ^ 63) by nia. rewrite (signed_small 64 (t * t)) by lia.
  pose proof (Z.rem_bound_pos (t * t) 1000 ltac:(lia) ltac:(lia)). rewrite signed_small by lia. lia.
Qed.

Definition N : nat := 10.
Definition P : Z := 10007.

Definition at_ (m : list (list Z)) (i j : nat) : Z := default 0 (m !! i ≫= (.!! j)).

(** [c\[i\]\[j\] = (c\[i\]\[j\] + a\[i\]\[k\] * b\[k\]\[j\]) % P], for all [k] *)
Definition cell (a b : list (list Z)) (i j : nat) : Z :=
  foldl (λ c k, Z.rem (i32 (c + i32 (at_ a i k * at_ b k j))) P) 0 (seq 0 N).

Definition square (a b : list (list Z)) : list (list Z) := (λ i, (λ j, cell a b i j) <$> seq 0 N) <$> seq 0 N.

Definition all_of (v : Z) : list (list Z) := replicate N (replicate N v).

(** [work]: the matrix after [times] rounds; [a] and [b] are the same after each. *)
Fixpoint work (times : nat) (a b : list (list Z)) : list (list Z) :=
  match times with O => a | S times => let c := square a b in work times c c end.

Lemma cell_all v i j : 0 ≤ v < P → (i < N)%nat → (j < N)%nat → cell (all_of v) (all_of v) i j = (10 * (v * v)) mod P.
Proof.
  intros Hv Hi Hj. assert (Ha : ∀ i j, (i < N)%nat → (j < N)%nat → at_ (all_of v) i j = v).
  { intros i' j' Hi' Hj'. unfold at_, all_of. rewrite lookup_replicate_2 by done. cbn [mbind option_bind]. by rewrite lookup_replicate_2. }
  unfold cell. assert (E : ∀ ks c, (∀ k, k ∈ ks → (k < N)%nat) → 0 ≤ c < P →
    foldl (λ c k, Z.rem (i32 (c + i32 (at_ (all_of v) i k * at_ (all_of v) k j))) P) c ks = (c + zlen ks * (v * v)) mod P).
  { induction ks as [|k ks IH]; intros c Hks Hc; cbn [foldl]; [unfold zlen; cbn; rewrite Z.add_0_r; symmetry; by apply Z.mod_small|].
    rewrite !Ha by (done || apply Hks; by left). unfold P in *. rewrite (signed_small 32 (v * v)), signed_small by nia.
    rewrite Z.rem_mod_nonneg by nia. rewrite IH; [|intros k' Hk'; apply Hks; by right|apply Z.mod_pos_bound; lia].
    rewrite Zplus_mod_idemp_l. f_equal. unfold zlen. cbn [length]. lia. }
  rewrite E; [done|intros k Hk%elem_of_seq; lia|done].
Qed.

Lemma fmap_seq_const {X} (f : nat → X) (y : X) m n : (∀ i, (i < m + n)%nat → f i = y) → f <$> seq m n = replicate n y.
Proof.
  revert m. induction n as [|n IH]; intros m H; [done|]. cbn [seq fmap list_fmap replicate]. rewrite H by lia. f_equal.
  apply IH. intros i Hi. apply H. lia.
Qed.

Lemma square_all v : 0 ≤ v < P → square (all_of v) (all_of v) = all_of ((10 * (v * v)) mod P).
Proof.
  intros Hv. apply fmap_seq_const. intros i Hi. apply fmap_seq_const. intros j Hj. by apply cell_all.
Qed.

Lemma work_succ times a b : work (S times) a b = work times (square a b) (square a b).
Proof. done. Qed.

(** No product or sum overflows, and the matrix keeps one value in all cells. *)
Lemma work_all times v : 0 ≤ v < P → work times (all_of v) (all_of v) = all_of (Nat.iter times (λ v, (10 * (v * v)) mod P) v).
Proof.
  revert v. induction times as [|times IH]; intros v Hv; [done|]. rewrite work_succ, square_all, Nat.iter_succ_r by done.
  apply IH. by apply Z.mod_pos_bound.
Qed.

(** ** Property *)

(** C20. The test programs that fork and wait pass.  In every run of the kernel, from any state that the booted kernel
    reaches, in any order of the processes and among any other processes that fork, exit, wait and call as they
    like, as long as the kernel does not panic (no frame is left for a fork, a child is reaped whose
    thread is still suspended) and none of the program's processes is killed: main's assertions hold (it exits with 0), it
    ends after all of its children, its processes act at most so many times (vain calls of [waitpid]
    aside), and until the end there is always one whose call is not a vain [waitpid] when it runs. *)
Theorem fork_tests_pass {A H F} `{FrameAllocator A} `{BinaryHeap H} sym parse_elf trap_handler sstatus (steps : nat → nat) :
  let passes {L} := kernel_passes (A := A) (H := H) (F := F) (L := L) sym parse_elf trap_handler sstatus in
  passes forktest (Forking 0) 154 ∧
  (let total := 34 + Z.of_nat (sum_list_with (λ i, (steps i + 3)%nat) (seq 0 30)) in
   passes (forktest2 steps) (Forking 0) total ∧ passes (matrix steps) (Forking 0) total) ∧
  passes forktest_simple OAlone 17 ∧ passes exit_test OFork 16 ∧ passes sleep_test OFork 16.
Proof.
  assert (E : ∀ steps, 34 + Z.of_nat (sum_list_with (λ i, (steps i + 3)%nat) (seq 0 30)) = forker_rank 30 steps (Forking 0)) by (intros; cbn -[seq]; lia).
  intros passes. subst passes. split; [|split; [split; cbn zeta; rewrite E|split; [|split]]]; apply passes_in_kernel.
  - apply (forker_passes 30 (λ _, 1%nat)); [intros; by apply Z.ltb_lt|intros r Hr; by rewrite (proj2 (Z.leb_gt r 0))|done].
  - apply forker_passes; [done| |done]. intros r Hr. by rewrite (proj2 (Z.ltb_lt 0 r)).
  - apply forker_passes; [done| |done]. intros r Hr. by rewrite (proj2 (Z.ltb_ge r 0)) by lia.
  - apply forktest_simple_passes.
  - apply exit_test_passes.
  - apply sleep_test_passes.
Qed.

(** ** A machine with the first process and one more *)

Module ForkWitness.
Definition two : View := v_fork (first_tree 0) 0 1.

Lemma two_ok : tree_ok two.
Proof. eapply fork_ok; [apply first_tree_ok|by apply lookup_singleton_eq|by vm_compute|done|done]. Qed.

(** The parent waits in vain once, the child computes and ends, is reaped, and the parent ends. *)
Definition moves : list RunWitness.Move :=
  let own := RunWitness.Own in let switch := RunWitness.Switch in [own; own; own; switch; switch; own; own; switch; own; own].

Lemma two_starts {L O} (l : L) : starts 1 l (mkP (O := O) two {[1%nat := l]} []).
Proof. split; [apply two_ok|done|done| |done]. eexists. by split. Qed.
End ForkWitness.

(** The kernel runs [forktest_simple] to its end. *)
Lemma fork_tests_pass_witness :
  match RunWitness.two with
  | Done k => ∃ ws y, kruns LifeWitness.sym LifeWitness.elf 0 0 forktest_simple ws (RunWitness.start OAlone k) y ∧ r_prog y = ∅ ∧ zlen (acted ws) ≤ 17
  | Panicked _ => False
  end.
Proof.
  assert (D : (match RunWitness.two with
     | Done k => if RunWitness.child_ready k
         then r_prog <$> RunWitness.run forktest_simple ForkWitness.moves (RunWitness.start OAlone k) else None
     | Panicked _ => None end) = Some ∅) by (vm_compute; reflexivity).
  destruct RunWitness.two as [k|] eqn:Ek; [|done]. destruct (RunWitness.child_ready k) eqn:Hc; [|done]. apply fmap_Some in D as (y & Ey & Hy).
  destruct (RunWitness.run_kruns forktest_simple _ _ _ Ey) as [ws R]. exists ws, y. split; [exact R|]. split; [done|].
  destruct (fork_tests_pass (A := StackFrameAllocator) (H := list TimerCondVar) (F := unit) LifeWitness.sym LifeWitness.elf 0 0 (λ _, 2%nat)) as (_ & _ & Ps & _).
  apply (Ps 1%nat _ y ws (RunWitness.start_starts OAlone k Ek Hc) R).
Defined.
