(* ===== verification/ProcTests.v ===== *)
(** * ProcTests.v: programs whose processes form a tree, and the first process

    [forktree] (every process forks two) and [usertests] (runs other programs one after the other and
    compares their exit codes), on the tree of processes, and [initproc] (reaps every orphan), run by the kernel; all of
    [user/src/bin]. *)

From S2P Require Import Prelude FrameAlloc MemorySet Ids Sched Timer Kernel Process ProcessTree ProcessSim ProcessLife UserThreads UserProcs ProcRuns ForkTests.

(** ** forktree.rs *)

Definition DEPTH : nat := 4.

(** Local states: [fork_tree] of [cur] is called; it calls [fork_child] of ['0'] and of ['1'];
    it returned (to [fork_child], which yields, or to [main], which sleeps); the end of the process. *)
Inductive Tree : Type := Print (cur : list Z) | Left (cur : list Z) | Right (cur : list Z) | Rest | End.

Definition fork_child (cur : list Z) (branch : Z) (l : Tree) : PCall (L := Tree) (O := list Z) :=
  if (DEPTH <=? length cur)%nat then PStep [] l
  else PFork (λ pid, if pid =? 0 then Print (cur ++ [branch]) else l).

Definition fork_tree (l : Tree) : PCall (L := Tree) (O := list Z) :=
  match l with
  | Print cur => PStep [cur] (Left cur)
  | Left cur => fork_child cur 0x30 (Right cur)
  | Right cur => fork_child cur 0x31 Rest
  | Rest => PStep [] End
  | End => PExit 0
  end.

(** The words over 0 and 1 that extend [cur] by at most [d] digits, [cur] first. *)
Fixpoint words (d : nat) (cur : list Z) : list (list Z) :=
  match d with O => [cur] | S d => cur :: words d (cur ++ [0x30]) ++ words d (cur ++ [0x31]) end.

Definition below (cur : list Z) (branch : Z) : list (list Z) :=
  match (DEPTH - length cur)%nat with O => [] | S d => words d (cur ++ [branch]) end.

Definition tree_todo (l : Tree) : list (list Z) :=
  match l with
  | Print cur => cur :: below cur 0x30 ++ below cur 0x31
  | Left cur => below cur 0x30 ++ below cur 0x31
  | Right cur => below cur 0x31
  | Rest | End => []
  end.

(** How often a process and its descendants act: 6 times per word. *)
Definition tree_rank (l : Tree) : Z :=
  match l with
  | Print cur => 6 + 6 * zlen (below cur 0x30) + 6 * zlen (below cur 0x31)
  | Left cur => 4 + 6 * zlen (below cur 0x30) + 6 * zlen (below cur 0x31)
  | Right cur => 3 + 6 * zlen (below cur 0x31)
  | Rest => 2
  | End => 1
  end.

Lemma below_deep cur branch : (DEPTH ≤ length cur)%nat → below cur branch = [].
Proof. intros H. unfold below. by replace (DEPTH - length cur)%nat with O by lia. Qed.

Lemma below_words cur branch : (length cur < DEPTH)%nat →
  below cur branch = (cur ++ [branch]) :: below (cur ++ [branch]) 0x30 ++ below (cur ++ [branch]) 0x31.
Proof.
  intros H. unfold below. rewrite length_app. cbn [length]. destruct (DEPTH - length cur)%nat as [|d] eqn:E; [lia|].
  replace (DEPTH - (length cur + 1))%nat with d by lia. by destruct d.
Qed.

Lemma tree_foretells : foretells fork_tree tree_todo.
Proof.
  intros [cur|cur|cur| |]; cbn [fork_tree tree_todo]; unfold fork_child; try done;
    (destruct (Nat.leb_spec DEPTH (length cur)) as [Hd|Hd];
      [cbn [tree_todo app]; by rewrite ?(below_deep cur _ Hd)|intros pid Hp; rewrite (proj2 (Z.eqb_neq pid 0)) by lia; cbn [Z.eqb tree_todo]]).
  - rewrite (below_words cur 0x30) by done. by rewrite Permutation_app_comm.
  - by rewrite (below_words cur 0x31).
Qed.

Lemma tree_lowers : lowers fork_tree tree_rank.
Proof.
  intros [cur|cur|cur| |]; cbn [fork_tree tree_rank]; (split; [unfold zlen; lia|]); try lia; unfold fork_child;
    (destruct (Nat.leb_spec DEPTH (length cur)) as [Hd|Hd];
      [cbn -[below Z.mul Z.add]; unfold zlen; lia|intros pid Hp; rewrite (proj2 (Z.eqb_neq pid 0)) by lia; cbn [Z.eqb tree_rank]]).
  - rewrite (below_words cur 0x30) by done. unfold zlen; cbn [length]; rewrite length_app. lia.
  - rewrite (below_words cur 0x31) by done. unfold zlen; cbn [length]; rewrite length_app. lia.
Qed.

(** Every process of the program can act at any time. *)
Lemma tree_goes x : p_ok x → p_prog x !! v_init (p_view x) = None → p_prog x ≠ ∅ → ra_current (v_pids (p_view x)) + 1 < 2 ^ 63 →
  ∃ e z, pexec fork_tree e x = Some z ∧ idle fork_tree e x = false.
Proof.
  intros P Hi (a & l & Ha)%map_choose Hb. exists (Run a). pose proof (po_alive x P a l Ha) as (n & Hn & _)%alive_node.
  assert (a ≠ v_init (p_view x)) by congruence. destruct x as [v pr out]. cbn [p_view p_prog pexec idle] in *. rewrite Ha. cbn [mbind option_bind call].
  assert (Hf : ∃ r, v_sys_fork v a = Some r) by (unfold v_sys_fork; rewrite (proj2 (Z.ltb_lt _ _)) by done; by eexists).
  destruct Hf as [[[pid c] v'] Hf]. destruct l as [cur|cur|cur| |]; cbn [fork_tree]; unfold fork_child; try (destruct (_ <=? _)%nat);
    rewrite ?Hf; cbn [mbind option_bind]; try by eexists.
  unfold v_sys_exit. rewrite Hn. cbn [mbind option_bind]. rewrite decide_False by done. by eexists.
Qed.

(** The first process stays out of the program. *)
Lemma init_out {L O} (next : L → PCall (L := L) (O := O)) e x y : p_ok x → pexec next e x = Some y → p_prog x !! v_init (p_view x) = None →
  p_prog y !! v_init (p_view y) = None.
Proof.
  intros P E Hx. destruct (pexec_tree next e x y P E) as [_ ->]. destruct (p_prog y !! _) as [l|] eqn:Hl; [|done]. exfalso.
  destruct (pexec_prog next e x y _ l P E Hl) as [[l' Hl']|(a & l0 & k & pid & -> & Ha & _ & _ & Ef)]; [congruence|].
  destruct (fork_call _ _ _ _ _ (po_tree x P) (po_alive x P a l0 Ha) Ef) as (_ & _ & Hc & _).
  destruct (to_init _ (po_tree x P)) as (t & Ht & _). congruence.
Qed.

(** forktree.rs. In any order of its processes and among any other processes: no word is printed
    that is not over 0 and 1 and of at most 4 digits, none twice; the program acts at most 186 times;
    from every state it can be run to its end; and when all its processes have ended, each of the 31
    words was printed once, by a process of its own. *)
Theorem forktree_prints_all p x0 es x : starts p (Print []) x0 → prun fork_tree es x0 = Some x →
  (∃ rest, p_out x ++ rest ≡ₚ words DEPTH []) ∧ NoDup (p_out x) ∧
  acts fork_tree es x0 ≤ 186 ∧
  (ra_current (v_pids (p_view x)) + 186 < 2 ^ 63 → ∃ es' y, prun fork_tree es' x = Some y ∧ p_prog y = ∅) ∧
  (p_prog x = ∅ → p_out x ≡ₚ words DEPTH []).
Proof.
  intros S R. pose proof (start_ok p _ x0 S) as P0. pose proof (start_sum p _ x0 tree_rank S) as E0. change (tree_rank (Print [])) with 186 in E0.
  assert (Hp : p_out x ++ todos tree_todo (p_prog x) ≡ₚ words DEPTH []).
  { transitivity (p_out x0 ++ todos tree_todo (p_prog x0)).
    - eapply (prun_ind fork_tree (λ y, p_ok y ∧ p_out y ++ todos tree_todo (p_prog y) ≡ₚ p_out x0 ++ todos tree_todo (p_prog x0))); [|by split|exact R].
      intros e z w [Pz <-] E. split; [by eapply pexec_ok|]. by apply (lines_step fork_tree tree_todo e z w tree_foretells).
    - rewrite (st_out _ _ _ S), (st_prog _ _ _ S). unfold todos. rewrite map_to_list_singleton. by vm_compute. }
  assert (Hnd : NoDup (words DEPTH [])) by (apply (bool_decide_unpack _); by vm_compute).
  pose proof (acts_bound fork_tree tree_rank tree_lowers es x0 x P0 R) as Hb. pose proof (psum_nonneg fork_tree tree_rank tree_lowers x).
  split; [by eexists|]. split; [|split; [lia|split]].
  - rewrite <- Hp in Hnd. by apply NoDup_app in Hnd as [? _].
  - intros Hcur. eapply (can_end fork_tree tree_rank tree_lowers (λ y, p_ok y ∧ p_prog y !! v_init (p_view y) = None)).
    + by intros y [? _].
    + intros e y z [Py Hy] E. split; [by eapply pexec_ok|by eapply init_out].
    + intros y [Py Hy]. by apply tree_goes.
    + eapply (prun_ind fork_tree (λ y, p_ok y ∧ p_prog y !! v_init (p_view y) = None)); [|split; [done|]|exact R].
      * intros e z w [Pz Hz] E. split; [by eapply pexec_ok|by eapply init_out].
      * rewrite (st_prog _ _ _ S). apply lookup_singleton_ne. by apply (st_init _ _ _ S).
    + pose proof (acts_nonneg fork_tree es x0). lia.
  - intros He. rewrite He in Hp. unfold todos in Hp. rewrite map_to_list_empty in Hp. cbn in Hp. by rewrite app_nil_r in Hp.
Qed.

(** ** usertests.rs *)

(** A test and the exit code that it is to have; no test of the lists has arguments. *)
Notation test := (string * Z)%type.

Definition SUCC_TESTS : list test :=
  (λ name, (name, 0)) <$> ["filetest_simple"; "cat_filea"; "exit"; "fantastic_text"; "forktest_simple"; "forktest"; "forktest2"; "forktree";
    "hello_world"; "huge_write"; "matrix"; "sleep_simple"; "sleep"; "yield"]%string.

Definition FAIL_TESTS : list test := [("stack_overflow"%string, -2)].

(** Local states: [run_tests] of the rest of its list, with [pass_num], and in the second call the
    result of the first; it waits for a test's process; it has the exit code; a child before [exec];
    returned. *)
Inductive Tests : Type :=
| TRun (tests : list test) (pass_num : Z) (succ_num : option Z)
| TWait (t : test) (pid : Z) (tests : list test) (pass_num : Z) (succ_num : option Z)
| TShow (t : test) (pid exit_code : Z) (tests : list test) (pass_num : Z) (succ_num : option Z)
| TExec
| TReturned (code : Z).

Definition usertests (l : Tests) : PCall (L := Tests) (O := string * Z * Z) :=
  match l with
  | TRun (t :: tests) pass_num succ_num => PFork (λ pid, if pid =? 0 then TExec else TWait t pid tests pass_num succ_num)
  | TRun [] succ_num None => PStep [] (TRun FAIL_TESTS 0 (Some succ_num))
  | TRun [] err_num (Some succ_num) =>
      PStep [] (TReturned (if (succ_num =? zlen SUCC_TESTS) && (err_num =? zlen FAIL_TESTS) then 0 else -1))
  | TWait t pid tests pass_num succ_num =>
      PWait pid 0 (λ wait_pid exit_code, if pid =? wait_pid then TShow t pid exit_code tests pass_num succ_num else TReturned (-1))
  | TShow t pid exit_code tests pass_num succ_num =>
      PStep [(t.1, pid, exit_code)] (TRun tests (if exit_code =? t.2 then pass_num + 1 else pass_num) succ_num)
  | TExec => PExec (λ _, TReturned (-1))
  | TReturned code => PExit code
  end.

(** How many of the tests had the exit codes listed. *)
Definition matches (ts : list test) (lines : list (string * Z * Z)) : Z :=
  zlen (filter (λ tl, tl.2.2 = tl.1.2) (zip ts lines)).

(** The lines printed [out] are those of the tests done, and [pass_num] counts them. *)
Definition tests_books (l : Tests) (out : list (string * Z * Z)) : Prop :=
  let books tests pass_num succ_num :=
    match succ_num with
    | None => ∃ ts, SUCC_TESTS = ts ++ tests ∧ out.*1.*1 = ts.*1 ∧ pass_num = matches ts out
    | Some s => ∃ ts lines1 lines2, FAIL_TESTS = ts ++ tests ∧ out = lines1 ++ lines2 ∧ lines1.*1.*1 = SUCC_TESTS.*1 ∧
        lines2.*1.*1 = ts.*1 ∧ s = matches SUCC_TESTS lines1 ∧ pass_num = matches ts lines2
    end in
  match l with
  | TRun tests pass_num succ_num => books tests pass_num succ_num
  | TWait t _ tests pass_num succ_num | TShow t _ _ tests pass_num succ_num => books (t :: tests) pass_num succ_num
  | TExec => False
  | TReturned code => out.*1.*1 = (SUCC_TESTS ++ FAIL_TESTS).*1 ∧ (code = 0 ∨ code = -1) ∧ (code = 0 ↔ out.*2 = (SUCC_TESTS ++ FAIL_TESTS).*2)
  end.

Definition tests_rank (l : Tests) : Z :=
  let second (s : option Z) := match s with None => 9 | Some _ => 2 end in
  match l with
  | TRun tests _ s => 6 * zlen tests + second s
  | TWait _ _ tests _ s => 6 * zlen tests + 2 + second s
  | TShow _ _ _ tests _ s => 6 * zlen tests + 1 + second s
  | TExec => 2
  | TReturned _ => 1
  end.

Lemma tests_lowers : lowers usertests tests_rank.
Proof.
  intros [[|t ts] n [s|]|t pid ts n s|t pid code ts n s| |code]; cbn; (split; [try destruct s; unfold zlen; lia|]); try (unfold zlen; cbn; lia).
  - intros pid Hp. rewrite (proj2 (Z.eqb_neq pid 0)) by lia. cbn. unfold zlen. cbn. lia.
  - intros pid Hp. rewrite (proj2 (Z.eqb_neq pid 0)) by lia. cbn. unfold zlen. cbn. lia.
  - intros r code. destruct (pid =? r); cbn; destruct s; unfold zlen; lia.
Qed.

Lemma matches_snoc ts lines t line : length ts = length lines →
  matches (ts ++ [t]) (lines ++ [line]) = matches ts lines + (if line.2 =? t.2 then 1 else 0).
Proof.
  intros Hl. unfold matches. rewrite zip_with_app by done. rewrite filter_app. unfold zlen. rewrite length_app. cbn [zip_with].
  destruct (Z.eqb_spec line.2 t.2) as [E|E]; [rewrite filter_cons_True by done|rewrite filter_cons_False by done]; cbn; lia.
Qed.

(** All tests match when their number says so. *)
Lemma matches_all ts lines : length ts = length lines → matches ts lines ≤ zlen ts ∧ (matches ts lines = zlen ts ↔ lines.*2 = ts.*2).
Proof.
  revert lines. induction ts as [|t ts IH]; intros [|line lines] Hl; try done. cbn in Hl. destruct (IH lines ltac:(lia)) as [Hle Heq].
  unfold matches, zlen in *. cbn [zip_with fmap list_fmap]. destruct (decide (line.2 = t.2)) as [E|E].
  - rewrite filter_cons_True by done. cbn [length]. split; [lia|]. split; [intros H; f_equal; [done|apply Heq; lia]|]. intros [= _ H]. apply Heq in H. lia.
  - rewrite filter_cons_False by done. cbn [length]. split; [lia|]. split; [lia|]. by intros [= ? _].
Qed.

(** A process keeps its pid as long as it is there. *)
Lemma step_pid v v' d pid t : tree_ok v → (v' = v ∨ tree_step v v') → v_procs v !! d = Some (pid, t) → is_Some (v_procs v' !! d) →
  ∃ t', v_procs v' !! d = Some (pid, t').
Proof.
  intros W [->|S] Hd Hd'; [by exists t|]. destruct S as [v a c n Ha Hc Hz _|v a pa ta code Ha Hi Hz|v a n idx c pc tc r Ha Hidx Hc Hz Hr].
  - destruct (fork_keeps v a c n W Ha Hc Hz d (pid, t) Hd) as ([q t'] & Hq & Ep & _). cbn in Ep. subst q. by exists t'.
  - destruct (exit_keeps v a pa code ta W Ha Hi Hz d (pid, t) Hd) as ([q t'] & Hq & Ep & _). cbn in Ep. subst q. by exists t'.
  - destruct (decide (d = c)) as [->|Hne]; [rewrite (lookup_wait v a idx c n r Ha), decide_True in Hd' by done; by destruct Hd'|].
    destruct (wait_keeps v a idx c n r W Ha Hidx d (pid, t) Hne Hd) as ([q t'] & Hq & Ep & _). cbn in Ep. subst q. by exists t'.
Qed.

(** The only child of [p] at a wait. *)
Definition tests_kids (v : View) (p : nat) (l : Tests) : Prop :=
  ∃ n, v_procs v !! p = Some n ∧
    match l with
    | TWait _ pid _ _ _ => ∃ c t, children n.2 = [c] ∧ v_procs v !! c = Some (pid, t) ∧ 0 < pid < 2 ^ 63
    | _ => children n.2 = []
    end.

Record tests_inv (p : nat) (x : PSys (L := Tests) (O := string * Z * Z)) : Prop := {
  ti_ok : p_ok x;
  ti_init : p ≠ v_init (p_view x);
  ti_others : ∀ a l, a ≠ p → p_prog x !! a = Some l → l = TExec ∨ ∃ code, l = TReturned code;
  ti_main : ∀ l, p_prog x !! p = Some l → tests_books l (p_out x) ∧ tests_kids (p_view x) p l;
}.

(** Others do not concern [main]. *)
Lemma tests_frame p e x y : tests_inv p x → pexec usertests e x = Some y → actor e ≠ p → tests_inv p y.
Proof.
  intros [P Hi Ho Hm] E Hep. pose proof (pexec_ok usertests e x y P E) as Py. destruct (pexec_tree usertests e x y P E) as [Hs Hiy].
  assert (Hq : (∀ a l, a ≠ p → p_prog y !! a = Some l → l = TExec ∨ ∃ code, l = TReturned code) ∧ p_out y = p_out x ∧
    (p_prog y !! p = p_prog x !! p)).
  { destruct x as [v pr out]. destruct e as [a|a|b|b code|b i]; cbn [actor] in Hep.
    - cbn [pexec p_prog p_out p_view] in *. apply bind_Some in E as (l & Hl & E). destruct (Ho a l Hep Hl) as [->|[code ->]]; cbn [call usertests] in E.
      + injection E as <-. cbn. split; [intros b lb Hb [_ Hlb]%lookup_delete_Some; by eapply Ho|]. by rewrite lookup_delete_ne.
      + apply bind_Some in E as (v' & _ & [= <-]). cbn. split; [intros b lb Hb [_ Hlb]%lookup_delete_Some; by eapply Ho|]. by rewrite lookup_delete_ne.
    - cbn [pexec p_prog p_out p_view] in *. apply bind_Some in E as (l & Hl & E). destruct (Ho a l Hep Hl) as [->|[code ->]]; cbn [usertests] in E; [|done].
      injection E as <-. cbn. split; [|by rewrite lookup_insert_ne]. intros b lb Hb. destruct (decide (b = a)) as [->|Hba].
      + rewrite lookup_insert_eq. intros [= <-]. right. by eexists.
      + rewrite lookup_insert_ne by done. by apply Ho.
    - destruct (other_actor _ _ _ _ E) as (_ & -> & ->); [done|]. done.
    - destruct (other_actor _ _ _ _ E) as (_ & -> & ->); [done|]. done.
    - destruct (other_actor _ _ _ _ E) as (_ & -> & ->); [done|]. done. }
  destruct Hq as (Ho' & Eo & Ep). split; [done|congruence|done|]. intros l Hl. rewrite Ep in Hl. destruct (Hm l Hl) as [B (n & Hn & K)].
  rewrite Eo. split; [done|].
  destruct (pexec_frame usertests e x y p P E) as [Kp _]; [done|done|by eexists|intros _ _ _; by eapply po_alive|].
  destruct (Kp n Hn) as (n' & Hn' & [_ _ Kc _]). exists n'. split; [done|]. rewrite Kc. destruct l; try done.
  destruct K as (c & t' & Hc & Hct & Hpid). assert (Hcy : is_Some (v_procs (p_view y) !! c)).
  { destruct (to_child _ (po_tree y Py) p n' c Hn') as (m & _ & Hm' & _); [rewrite Kc, Hc; by left|by eexists]. }
  destruct (step_pid _ _ c _ t' (po_tree x P) Hs Hct Hcy) as (t2 & Ht2). by exists c, t2.
Qed.

(** The books after the end of a list, and at the end. *)
Lemma tests_end s err out : tests_books (TRun [] err (Some s)) out →
  tests_books (TReturned (if (s =? zlen SUCC_TESTS) && (err =? zlen FAIL_TESTS) then 0 else -1)) out.
Proof.
  intros (ts & l1 & l2 & Ets & -> & E1 & E2 & -> & ->). rewrite app_nil_r in Ets. subst ts.
  assert (L1 : length SUCC_TESTS = length l1) by (pose proof (f_equal length E1) as E; by rewrite !length_fmap in E).
  assert (L2 : length FAIL_TESTS = length l2) by (pose proof (f_equal length E2) as E; by rewrite !length_fmap in E).
  destruct (matches_all _ _ L1) as [_ M1]. destruct (matches_all _ _ L2) as [_ M2]. cbn [tests_books]. rewrite !fmap_app, E1, E2.
  split; [done|]. split; [destruct (_ && _); auto|]. split.
  - destruct (_ && _) eqn:Eb; [|done]. apply andb_true_iff in Eb as [B1%Z.eqb_eq B2%Z.eqb_eq]. intros _. f_equal; [by apply M1|by apply M2].
  - intros E. apply app_inj_1 in E as [F1 F2]; [|by rewrite !length_fmap]. apply M1 in F1. apply M2 in F2. by rewrite F1, F2, !Z.eqb_refl.
Qed.

Lemma tests_show t pid code tests n s out : tests_books (TShow t pid code tests n s) out →
  tests_books (TRun tests (if code =? t.2 then n + 1 else n) s) (out ++ [(t.1, pid, code)]).
Proof.
  assert (Hm : ∀ (n : Z), (if code =? t.2 then n + 1 else n) = n + (if (t.1, pid, code).2 =? t.2 then 1 else 0)) by (intros; cbn; destruct (code =? t.2); lia).
  cbn [tests_books]. rewrite Hm. destruct s as [s|].
  - intros (ts & l1 & l2 & Ets & -> & E1 & E2 & -> & ->). exists (ts ++ [t]), l1, (l2 ++ [(t.1, pid, code)]).
    rewrite <- !(assoc_L (++)), !fmap_app, E2. do 4 (split; [done|]). split; [done|]. rewrite matches_snoc; [done|].
    pose proof (f_equal length E2) as E. by rewrite !length_fmap in E.
  - intros (ts & Ets & E1 & ->). exists (ts ++ [t]). rewrite <- (assoc_L (++)), !fmap_app, E1. do 2 (split; [done|]).
    rewrite matches_snoc; [done|]. pose proof (f_equal length E1) as E. by rewrite !length_fmap in E.
Qed.

Lemma tests_run p x y : tests_inv p x → pexec usertests (Run p) x = Some y → tests_inv p y.
Proof.
  intros [P Hi Ho Hm] E. pose proof (pexec_ok usertests _ x y P E) as Py. destruct (pexec_tree usertests _ x y P E) as [_ Hiy].
  pose proof (po_tree x P) as W. pose proof (po_alive x P p) as Hal. destruct x as [v pr out]. cbn [p_view p_prog p_out pexec] in *.
  apply bind_Some in E as (l & Hl & E). destruct (Hm l Hl) as [B (n & Hn & K)]. specialize (Hal l Hl).
  assert (Hq : ∀ (l' : Tests) a la, a ≠ p → <[p := l']> pr !! a = Some la → la = TExec ∨ ∃ code, la = TReturned code).
  { intros l' a la Ha. rewrite lookup_insert_ne by done. by apply Ho. }
  destruct l as [[|t ts] m [s|]|t pid ts m s|t pid code ts m s| |code]; cbn [call usertests] in E.
  - injection E as <-. split; [done|done|exact (Hq _)|]. cbn. intros l. rewrite lookup_insert_eq. intros [= <-].
    split; [rewrite app_nil_r; by apply tests_end|by exists n].
  - injection E as <-. split; [done|done|exact (Hq _)|]. cbn. intros l. rewrite lookup_insert_eq. intros [= <-].
    split; [|by exists n]. rewrite app_nil_r. destruct B as (ts & Ets & E1 & ->). rewrite app_nil_r in Ets. subst ts.
    exists [], out, []. by rewrite app_nil_r.
  - apply bind_Some in E as ([[pid c] v'] & Ef & [= <-]). destruct (fork_call v p pid c v' W Hal Ef) as (_ & Hpid & Hc & Hcp & Hcn & Hpn & _).
    cbn in Hiy. split; [done|cbn; congruence| |]; cbn [p_prog p_view p_out].
    + intros a la Ha. destruct (decide (a = c)) as [->|Hac]; [rewrite lookup_insert_eq; intros [= <-]; by left|].
      rewrite !lookup_insert_ne by done. by apply Ho.
    + intros l. rewrite lookup_insert_ne, lookup_insert_eq by done. rewrite (proj2 (Z.eqb_neq pid 0)) by lia. intros [= <-]. split; [exact B|].
      eexists. split; [by apply Hpn|]. exists c. eexists. cbn. by rewrite K.
  - apply bind_Some in E as ([[pid c] v'] & Ef & [= <-]). destruct (fork_call v p pid c v' W Hal Ef) as (_ & Hpid & Hc & Hcp & Hcn & Hpn & _).
    cbn in Hiy. split; [done|cbn; congruence| |]; cbn [p_prog p_view p_out].
    + intros a la Ha. destruct (decide (a = c)) as [->|Hac]; [rewrite lookup_insert_eq; intros [= <-]; by left|].
      rewrite !lookup_insert_ne by done. by apply Ho.
    + intros l. rewrite lookup_insert_ne, lookup_insert_eq by done. rewrite (proj2 (Z.eqb_neq pid 0)) by lia. intros [= <-]. split; [exact B|].
      eexists. split; [by apply Hpn|]. exists c. eexists. cbn. by rewrite K.
  - apply bind_Some in E as ([[r code'] v'] & Ew & E). destruct (Z.eqb_spec r (-2)) as [->|Hr].
    { injection E as <-. by split. }
    injection E as <-. destruct K as (c & t' & Ech & Hct & Hpid). cbn in Hiy. split; [done|cbn; congruence|exact (Hq _)|].
    cbn [p_prog p_view p_out]. intros l. rewrite lookup_insert_eq. intros [= <-].
    assert (Hask : v_asked v pid c = true).
    { unfold v_asked. rewrite Hct. cbn. rewrite wrap_small by lia. by rewrite Z.eqb_refl, orb_true_r. }
    destruct (wait_call v p pid r code' v' n W Hn Ew) as [(_ & _ & [[_ Hno]|[? _]])|(idx & d & t2 & Hidx & Hdt & _ & _ & -> & _ & _ & _ & _ & Hpn & _)]; [|done|].
    { specialize (Hno c). rewrite Ech in Hno. rewrite Hno in Hask by (by left). done. }
    rewrite Ech in Hidx. destruct idx as [|idx]; [|by rewrite lookup_cons, lookup_nil in Hidx]. injection Hidx as ->.
    rewrite Hct in Hdt. injection Hdt as -> ->. rewrite Z.eqb_refl. split; [exact B|]. eexists. split; [exact Hpn|]. cbn. by rewrite Ech.
  - injection E as <-. split; [done|done|exact (Hq _)|]. cbn. intros l. rewrite lookup_insert_eq. intros [= <-].
    split; [by apply tests_show|by exists n].
  - done.
  - apply bind_Some in E as (v' & Ee & [= <-]). cbn in Hiy. split; [done|cbn; congruence| |]; cbn [p_prog].
    + intros a la Ha [_ Hla]%lookup_delete_Some. by eapply Ho.
    + intros l. by rewrite lookup_delete_eq.
Qed.

(** An event of a process that does not run the program. *)
Lemma tests_other p e x y : tests_inv p x → pexec usertests e x = Some y → (∀ a, e ≠ Run a ∧ e ≠ Refuse a) → tests_inv p y.
Proof.
  intros I E He. destruct (decide (actor e = p)) as [<-|Hep]; [|by eapply tests_frame]. destruct I as [P Hi Ho Hm].
  destruct (other_actor usertests e x y E He) as (Hx & Ep & _). destruct (pexec_tree usertests e x y P E) as [_ Hiy].
  split; [by eapply pexec_ok|congruence|by rewrite Ep|]. intros l. by rewrite Ep, Hx.
Qed.

Lemma tests_step p e x y : tests_inv p x → pexec usertests e x = Some y → tests_inv p y.
Proof.
  intros I E. destruct e as [a|a|b|b code|b i]; [| |by eapply tests_other..].
  - destruct (decide (a = p)) as [->|Hap]; [by eapply tests_run|by eapply tests_frame].
  - destruct (decide (a = p)) as [->|Hap]; [|by eapply tests_frame]. exfalso. destruct I as [_ _ _ Hm]. destruct x as [v pr out].
    cbn [pexec p_prog p_out] in *. apply bind_Some in E as (l & Hl & E). destruct (Hm l Hl) as [B _].
    by destruct l as [[|t ts] m [s|]|t pid ts m s|t pid code ts m s| |code].
Qed.

(** usertests.rs. In any order of its processes and among any other processes (those that the
    tests become by [exec] included), main never fails an assertion: it exits only after it has
    printed a line for each test of both lists, in order, with the exit code of the test's process;
    it exits with 0 if all exit codes are those listed, else with -1.  Its processes act at most 93
    times, vain calls of [waitpid] aside, and its call succeeds once the test's process has ended. *)
Theorem usertests_reports p x0 es x : starts p (TRun SUCC_TESTS 0 None) x0 → prun usertests es x0 = Some x →
  (∀ l code, p_prog x !! p = Some l → usertests l = PExit code →
     (p_out x).*1.*1 = (SUCC_TESTS ++ FAIL_TESTS).*1 ∧ (code = 0 ∨ code = -1) ∧
     (code = 0 ↔ (p_out x).*2 = (SUCC_TESTS ++ FAIL_TESTS).*2)) ∧
  acts usertests es x0 ≤ 93 ∧
  (∀ t pid tests n s c u, p_prog x !! p = Some (TWait t pid tests n s) → v_procs (p_view x) !! c = Some (pid, u) →
     is_zombie u = true →
     ∃ y, pexec usertests (Run p) x = Some y ∧ p_prog y !! p = Some (TShow t pid (exit_code u) tests n s)).
Proof.
  intros S R. pose proof (start_ok p _ x0 S) as P0. pose proof (start_sum p _ x0 tests_rank S) as E0.
  change (tests_rank (TRun SUCC_TESTS 0 None)) with 93 in E0.
  assert (I : tests_inv p x).
  { eapply (prun_ind usertests (tests_inv p)); [intros e z w; by apply tests_step| |exact R]. destruct S as [W Hi Hp (n & Hn & Hz & Hc) Hout].
    split; [done|done| |].
    - intros a l Ha. rewrite Hp, lookup_singleton_ne by done. done.
    - intros l. rewrite Hp, lookup_singleton_eq, Hout. intros [= <-]. split; [by exists []|by exists n]. }
  split; [|split].
  - intros l code Hl E. destruct (ti_main p x I l Hl) as [B _]. destruct l as [[|t ts] m [s|]|t pid ts m s|t pid z ts m s| |z]; try done.
    injection E as ->. exact B.
  - pose proof (acts_bound usertests tests_rank tests_lowers es x0 x P0 R). pose proof (psum_nonneg usertests tests_rank tests_lowers x). lia.
  - intros t pid tests n s c u Hl Hc Hz. destruct I as [P Hi Ho Hm]. destruct (Hm _ Hl) as [_ (m & Hn & d & u' & Ech & Hd & Hpid)].
    pose proof (to_pids _ (po_tree x P) d c _ _ Hd Hc eq_refl) as ->. rewrite Hc in Hd. injection Hd as <-.
    assert (Hask : v_asked (p_view x) pid c = true).
    { unfold v_asked. rewrite Hc. cbn. rewrite wrap_small by lia. by rewrite Z.eqb_refl, orb_true_r. }
    destruct (wait_ready (p_view x) p pid m c (pid, u) (po_tree x P) Hn) as (r & code & v' & Ew & Hr); [rewrite Ech; by left|done..|].
    pose proof (wait_call (p_view x) p pid r code v' m (po_tree x P) Hn Ew) as Hw.
    destruct x as [v pr out]. cbn [p_view p_prog pexec] in *. rewrite Hl. cbn [mbind option_bind call usertests]. rewrite Ew. cbn [mbind option_bind].
    rewrite (proj2 (Z.eqb_neq r (-2))) by done. eexists. split; [done|]. cbn [p_prog]. rewrite lookup_insert_eq.
    destruct Hw as [(_ & _ & [[_ Hno]|[? _]])|(idx & d & t2 & Hidx & Hdt & _ & _ & -> & _)]; [|done|].
    { specialize (Hno c). rewrite Ech in Hno. rewrite Hno in Hask by (by left). done. }
    rewrite Ech in Hidx. destruct idx as [|idx]; [|by rewrite lookup_cons, lookup_nil in Hidx]. injection Hidx as ->.
    rewrite Hc in Hdt. injection Hdt as <- <-. by rewrite Z.eqb_refl.
Qed.

(** ** initproc.rs *)

(** Local states: before the fork; the child before [exec]; in [wait]; with a child that was reaped;
    with nothing to reap; returned (the child whose [exec] was refused). *)
Inductive Init : Type := IFork | IShell | IWait | IGot (pid exit_code : Z) | IYield | IReturned.

Definition initproc (l : Init) : PCall (L := Init) (O := Z * Z) :=
  match l with
  | IFork => PFork (λ pid, if pid =? 0 then IShell else IWait)
  | IShell => PExec (λ _, IReturned)
  | IWait => PWait (-1) 0 (λ pid exit_code, if pid =? -1 then IYield else IGot pid exit_code)
  | IGot pid exit_code => PStep [(pid, exit_code)] IWait
  | IYield => PStep [] IWait
  | IReturned => PExit 0
  end.

(** In the loop, and what is still to be printed there. *)
Definition loops (l : Init) : bool := match l with IWait | IGot _ _ | IYield => true | _ => false end.

Definition pending (l : Init) : list (Z * Z) := match l with IGot pid exit_code => [(pid, exit_code)] | _ => [] end.

(** What is printed of a child. *)
Definition reaped_line (v : View) (c : nat) : Z * Z := match v_procs v !! c with Some n => (n.1, exit_code n.2) | None => (0, 0) end.

(** [b] is a child of [cs] that ended. *)
Definition to_reap (v : View) (cs : list nat) : list nat := filter (λ c, v_zombie v c = true) cs.
Definition to_keep (v : View) (cs : list nat) : list nat := filter (λ c, v_zombie v c = false) cs.

Notation PSysI := (PSys (L := Init) (O := Z * Z)).

(** [y] is [x] after [i] has reaped every child of its list [cs] that had ended. *)
Record reaped (i : nat) (cs : list nat) (lines : list (Z * Z)) (x y : PSysI) : Prop := {
  rp_ok : p_ok y;
  rp_prog : p_prog y !! i = Some IWait;
  rp_init : v_init (p_view y) = i;
  rp_children : ∃ n, v_procs (p_view y) !! i = Some n ∧ children n.2 = to_keep (p_view x) cs;
  rp_gone : ∀ c, c ∈ to_reap (p_view x) cs → v_procs (p_view y) !! c = None;
  rp_others : ∀ b, b ≠ i → b ∉ to_reap (p_view x) cs → v_procs (p_view y) !! b = v_procs (p_view x) !! b;
  rp_lines : lines ≡ₚ reaped_line (p_view x) <$> to_reap (p_view x) cs;
  rp_out : p_out y = p_out x ++ lines;
}.

Lemma filter_ext_in {X} (P Q : X → Prop) `{∀ x, Decision (P x), ∀ x, Decision (Q x)} (l : list X) : (∀ x, x ∈ l → P x ↔ Q x) → filter P l = filter Q l.
Proof.
  induction l as [|x l IH]; intros E; [done|]. rewrite !filter_cons, IH by (intros; apply E; by right).
  pose proof (E x ltac:(by left)). repeat case_decide; tauto.
Qed.

Lemma filter_all_in {X} (P : X → Prop) `{∀ x, Decision (P x)} (l : list X) : (∀ x, x ∈ l → P x) → filter P l = l.
Proof.
  induction l as [|x l IH]; intros E; [done|]. rewrite filter_cons_True by (apply E; by left). f_equal. apply IH. intros y Hy. apply E. by right.
Qed.

Lemma to_reap_delete v cs idx c : cs !! idx = Some c → v_zombie v c = true →
  to_reap v cs ≡ₚ c :: to_reap v (delete idx cs) ∧ to_keep v cs = to_keep v (delete idx cs).
Proof.
  intros Hc Hz. split.
  - unfold to_reap. rewrite (delete_Permutation cs idx c Hc) at 1. by rewrite filter_cons_True.
  - unfold to_keep. rewrite <- (take_drop_middle cs idx c Hc) at 1. rewrite delete_take_drop, !filter_app.
    rewrite filter_cons_False by congruence. done.
Qed.

(** One call of [wait], and the line printed. *)
Lemma reap_one x i n c : p_ok x → v_init (p_view x) = i → p_prog x !! i = Some IWait → v_procs (p_view x) !! i = Some n →
  c ∈ to_reap (p_view x) (children n.2) →
  ∃ y idx d, prun initproc [Run i; Run i] x = Some y ∧ p_ok y ∧ v_init (p_view y) = i ∧ p_prog y !! i = Some IWait ∧
    children n.2 !! idx = Some d ∧ v_zombie (p_view x) d = true ∧ d ≠ i ∧ v_procs (p_view y) !! d = None ∧
    v_procs (p_view y) !! i = Some (n.1, set_children (delete idx (children n.2)) n.2) ∧
    (∀ b, b ≠ i → b ≠ d → v_procs (p_view y) !! b = v_procs (p_view x) !! b) ∧
    p_out y = p_out x ++ [reaped_line (p_view x) d].
Proof.
  intros P Hi Hp Hn [Hz Hc]%list_elem_of_filter. pose proof (po_tree x P) as W.
  assert (Hm : ∃ m, v_procs (p_view x) !! c = Some m ∧ is_zombie m.2 = true).
  { unfold v_zombie in Hz. destruct (v_procs (p_view x) !! c) as [m|]; [by exists m|done]. }
  destruct Hm as (m & Hm & Hzm).
  destruct (wait_ready (p_view x) i (-1) n c m W Hn Hc Hm Hzm) as (r & code & v' & Ew & Hr); [unfold v_asked; by rewrite Hm|].
  destruct (wait_call (p_view x) i (-1) r code v' n W Hn Ew)
    as [(_ & _ & [[_ Hno]|[? _]])|(idx & d & t & Hidx & Hdt & Hzd & _ & -> & Hr0 & Hs & Hdi & Hgone & Hin & Ho & Hvi & _)]; [|done|].
  { exfalso. specialize (Hno c Hc). unfold v_asked in Hno. by rewrite Hm in Hno. }
  destruct x as [v pr out]. cbn [p_view p_prog p_out] in *.
  set (y := mkP v' (<[i := IWait]> pr) (out ++ [(r, exit_code t)])).
  assert (R : prun initproc [Run i; Run i] (mkP v pr out) = Some y).
  { cbn [prun pexec]. rewrite Hp. cbn [mbind option_bind call initproc]. rewrite Ew. cbn [mbind option_bind default].
    rewrite (proj2 (Z.eqb_neq r (-2))) by done. cbn [mbind option_bind pexec]. rewrite lookup_insert_eq, (proj2 (Z.eqb_neq r (-1))) by lia.
    cbn [mbind option_bind call initproc]. by rewrite insert_insert_eq. }
  exists y, idx, d. split; [exact R|]. split; [by eapply prun_ok|]. split; [cbn; congruence|]. split; [apply lookup_insert_eq|].
  split; [done|]. split; [unfold v_zombie; by rewrite Hdt|]. do 4 (split; [done|]). cbn [p_out y]. unfold reaped_line. by rewrite Hdt.
Qed.

Lemma reap_all k : ∀ x i n, p_ok x → v_init (p_view x) = i → p_prog x !! i = Some IWait → v_procs (p_view x) !! i = Some n →
  length (to_reap (p_view x) (children n.2)) = k →
  ∃ y lines, prun initproc (replicate (2 * k) (Run i)) x = Some y ∧ reaped i (children n.2) lines x y.
Proof.
  induction k as [|k IH]; intros x i n P Hi Hp Hn Hk.
  - apply nil_length_inv in Hk. exists x, []. split; [done|]. split; rewrite ?Hk; try done.
    + exists n. split; [done|]. unfold to_keep. symmetry. apply filter_all_in. intros c Hc. apply not_true_is_false. intros Hz.
      assert (Hin : c ∈ to_reap (p_view x) (children n.2)) by (apply list_elem_of_filter; split; [done|done]).
      rewrite Hk in Hin. by apply not_elem_of_nil in Hin.
    + intros c Hc. by apply not_elem_of_nil in Hc.
    + by rewrite app_nil_r.
  - assert (∃ c, c ∈ to_reap (p_view x) (children n.2)) as [c Hc].
    { destruct (to_reap (p_view x) (children n.2)) as [|c l]; [done|]. exists c. by left. }
    destruct (reap_one x i n c P Hi Hp Hn Hc) as (z & idx & d & R & Pz & Hiz & Hpz & Hidx & Hzd & Hdi & Hgone & Hnz & Ho & Hout).
    destruct (to_reap_delete (p_view x) _ idx d Hidx Hzd) as [Pm Ek]. set (ds := delete idx (children n.2)) in *.
    assert (Hnd : NoDup (children n.2)) by by apply (to_nodup _ (po_tree x P) i n). pose proof (delete_Permutation _ _ _ Hidx) as Pd. fold ds in Pd.
    assert (Hdd : d ∉ ds) by (rewrite Pd in Hnd; by apply NoDup_cons in Hnd as [? _]).
    assert (Hid : i ∉ children n.2).
    { intros Hin. destruct (to_child _ (po_tree x P) i n i Hn Hin) as (m & _ & Hm & _ & Hpar & _).
      destruct (to_init _ (po_tree x P)) as (t & Ht & _ & Hpt). rewrite Hi in Ht. rewrite Hm in Ht. injection Ht as ->. cbn in Hpar. congruence. }
    assert (Hv : ∀ b, b ∈ ds → v_procs (p_view z) !! b = v_procs (p_view x) !! b).
    { intros b Hb. apply Ho; [intros ->; apply Hid; rewrite Pd; by right|intros ->; done]. }
    assert (Er : to_reap (p_view z) ds = to_reap (p_view x) ds).
    { apply filter_ext_in. intros b Hb. unfold v_zombie. by rewrite (Hv b Hb). }
    assert (Ekz : to_keep (p_view z) ds = to_keep (p_view x) ds).
    { apply filter_ext_in. intros b Hb. unfold v_zombie. by rewrite (Hv b Hb). }
    assert (El : reaped_line (p_view z) <$> to_reap (p_view x) ds = reaped_line (p_view x) <$> to_reap (p_view x) ds).
    { apply list_fmap_ext. intros j b Hb. apply list_elem_of_lookup_2 in Hb. apply list_elem_of_filter in Hb as [_ Hb]. unfold reaped_line. by rewrite (Hv b Hb). }
    destruct (IH z i _ Pz Hiz Hpz Hnz) as (y & lines & Ry & [Oy Py Iy (ny & Hny & Cy) Gy Sy Ly Uy]).
    { cbn [snd set_children children]. fold ds. rewrite Er. apply Permutation_length in Pm. cbn in Pm. lia. }
    cbn [snd set_children children] in *. fold ds in Cy, Gy, Sy, Ly. rewrite Er in Gy, Sy, Ly. rewrite El in Ly.
    exists y, (reaped_line (p_view x) d :: lines). split.
    { replace (2 * S k)%nat with (2 + 2 * k)%nat by lia. rewrite replicate_add, prun_app. change (replicate 2 (Run i)) with [Run i; Run i]. by rewrite R. }
    split; [done..| | | | |].
    + exists ny. split; [done|]. by rewrite Ek, <- Ekz.
    + intros b Hb. rewrite Pm in Hb. apply elem_of_cons in Hb as [->|Hb]; [|by apply Gy]. rewrite Sy; [done|done|].
      intros [_ Hb]%list_elem_of_filter. done.
    + intros b Hbi Hb. rewrite Pm, not_elem_of_cons in Hb. destruct Hb as [Hbd Hb]. rewrite Sy by done. by apply Ho.
    + rewrite Pm. cbn. by rewrite Ly.
    + rewrite Uy, Hout, <- (assoc_L (++)). done.
Qed.

(** Nobody else moves a process of the program. *)
Lemma prog_frame {L O} (next : L → PCall (L := L) (O := O)) e x y d : p_ok x → pexec next e x = Some y → d ≠ actor e →
  is_Some (v_procs (p_view x) !! d) → p_prog y !! d = p_prog x !! d.
Proof.
  intros P E Hd [nd Hnd]. destruct x as [v pr out]. destruct e as [a|a|b|b code|b i]; cbn [actor] in Hd.
  - cbn [pexec p_prog p_view] in *. apply bind_Some in E as (l & Hl & E). pose proof (po_alive _ P a l Hl) as Ha. cbn [call] in E.
    destruct (next l) as [k|k|i code k|o l'|code].
    + apply bind_Some in E as ([[pid c] v'] & Ef & [= <-]). destruct (fork_call v a pid c v' (po_tree _ P) Ha Ef) as (_ & _ & Hc & _).
      cbn. assert (d ≠ c) by congruence. by rewrite !lookup_insert_ne.
    + injection E as <-. cbn. by rewrite lookup_delete_ne.
    + apply bind_Some in E as ([[r code'] v'] & _ & E). destruct (r =? -2); injection E as <-; cbn; [done|]. by rewrite lookup_insert_ne.
    + injection E as <-. cbn. by rewrite lookup_insert_ne.
    + apply bind_Some in E as (v' & _ & [= <-]). cbn. by rewrite lookup_delete_ne.
  - cbn [pexec p_prog p_view] in *. apply bind_Some in E as (l & Hl & E). destruct (next l); try done. injection E as <-. cbn. by rewrite lookup_insert_ne.
  - by destruct (other_actor next _ _ _ E) as (_ & -> & _).
  - by destruct (other_actor next _ _ _ E) as (_ & -> & _).
  - by destruct (other_actor next _ _ _ E) as (_ & -> & _).
Qed.

(** The first process is at its fork or in its loop. *)
Definition init_inv (x : PSysI) : Prop :=
  p_ok x ∧ ∃ l, p_prog x !! v_init (p_view x) = Some l ∧ (l = IFork ∨ loops l = true).

Lemma init_step e x y : init_inv x → pexec initproc e x = Some y → init_inv y.
Proof.
  intros [P (l & Hl & Hloop)] E. pose proof (pexec_ok initproc e x y P E) as Py. destruct (pexec_tree initproc e x y P E) as [_ Hi].
  split; [done|]. rewrite Hi. destruct (to_init _ (po_tree x P)) as (ti & Hti & _).
  destruct (decide (v_init (p_view x) = actor e)) as [Ha|Ha]; [|rewrite (prog_frame initproc e x y _ P E Ha) by (by eexists); by exists l].
  destruct e as [a|a|b|b code|b i]; cbn [actor] in Ha.
  - destruct x as [v pr out]. cbn [p_view p_prog pexec] in *. rewrite <- Ha, Hl in E. cbn [mbind option_bind call] in E.
    destruct l as [| | |pid code| |]; cbn [initproc] in E; try (by destruct Hloop).
    + apply bind_Some in E as ([[pid c] v'] & Ef & [= <-]).
      destruct (fork_call v (v_init v) pid c v' (po_tree _ P)) as (_ & Hpid & _ & Hc & _); [by eapply (po_alive _ P)|exact Ef|]. cbn [p_prog].
      rewrite lookup_insert_ne, lookup_insert_eq, (proj2 (Z.eqb_neq pid 0)) by (done || lia). exists IWait. auto.
    + apply bind_Some in E as ([[r code'] v'] & _ & E). destruct (r =? -2); injection E as <-; cbn [p_prog]; [exists IWait; auto|].
      rewrite lookup_insert_eq. eexists. split; [done|]. right. by destruct (r =? -1).
    + injection E as <-. cbn [p_prog]. rewrite lookup_insert_eq. exists IWait. auto.
    + injection E as <-. cbn [p_prog]. rewrite lookup_insert_eq. exists IWait. auto.
  - destruct x as [v pr out]. cbn [p_view p_prog pexec] in *. rewrite <- Ha, Hl in E. cbn [mbind option_bind] in E.
    destruct l; cbn [initproc] in E; try done. by destruct Hloop.
  - destruct (other_actor initproc _ x y E) as (Hx & _); [done|]. cbn in Hx. congruence.
  - destruct (other_actor initproc _ x y E) as (Hx & _); [done|]. cbn in Hx. congruence.
  - destruct (other_actor initproc _ x y E) as (Hx & _); [done|]. cbn in Hx. congruence.
Qed.

(** Once it is in its loop, the first process comes to its [wait] in at most one step. *)
Lemma init_to_wait x l : p_ok x → p_prog x !! v_init (p_view x) = Some l → loops l = true →
  ∃ m z, (m ≤ 1)%nat ∧ prun initproc (replicate m (Run (v_init (p_view x)))) x = Some z ∧ p_view z = p_view x ∧
    p_prog z !! v_init (p_view x) = Some IWait ∧ p_out z = p_out x ++ pending l.
Proof.
  intros P Hl Hloop. destruct x as [v pr out]. cbn [p_view p_prog p_out] in *. destruct l as [| | |pid code| |]; try done.
  - exists 0%nat, (mkP v pr out). cbn. rewrite app_nil_r. by split_and!; [lia|..].
  - exists 1%nat. eexists. split; [done|]. cbn [replicate prun pexec]. rewrite Hl. cbn [mbind option_bind call initproc]. split; [done|].
    split; [done|]. cbn [p_prog p_out pending]. by rewrite lookup_insert_eq.
  - exists 1%nat. eexists. split; [done|]. cbn [replicate prun pexec]. rewrite Hl. cbn [mbind option_bind call initproc]. split; [done|].
    split; [done|]. cbn [p_prog p_out pending]. by rewrite lookup_insert_eq.
Qed.

(** On the tree: let act alone, the first process reaps its children that ended. *)
Lemma initproc_reaps_tree x0 es x : p_ok x0 → p_prog x0 = {[v_init (p_view x0) := IFork]} → prun initproc es x0 = Some x →
  let i := v_init (p_view x) in
  ∃ l n, p_prog x !! i = Some l ∧ v_procs (p_view x) !! i = Some n ∧
    (l = IFork ∨ loops l = true ∧
     ∃ m y lines, (m ≤ 1 + 2 * length (to_reap (p_view x) (children n.2)))%nat ∧
       prun initproc (replicate m (Run i)) x = Some y ∧ p_out y = p_out x ++ pending l ++ lines ∧
       lines ≡ₚ reaped_line (p_view x) <$> to_reap (p_view x) (children n.2) ∧
       (∃ n', v_procs (p_view y) !! i = Some n' ∧ children n'.2 = to_keep (p_view x) (children n.2)) ∧
       (∀ c, c ∈ to_reap (p_view x) (children n.2) → v_procs (p_view y) !! c = None) ∧
       (∀ b, b ≠ i → b ∉ to_reap (p_view x) (children n.2) → v_procs (p_view y) !! b = v_procs (p_view x) !! b)).
Proof.
  intros P0 H0 R i. subst i. assert (I : init_inv x).
  { eapply (prun_ind initproc init_inv); [intros e z w; by apply init_step| |exact R]. split; [done|]. exists IFork.
    rewrite H0, lookup_singleton_eq. auto. }
  destruct I as [P (l & Hl & Hloop)]. destruct (to_init _ (po_tree x P)) as (t & Ht & _). exists l, (IDLE_PID, t). do 2 (split; [done|]).
  destruct Hloop as [?|Hloop]; [by left|right]. split; [done|]. destruct (init_to_wait x l P Hl Hloop) as (m & z & Hm & Rz & Ev & Hz & Ho).
  pose proof (prun_ok initproc _ x z P Rz) as Pz. assert (Htz : v_procs (p_view z) !! v_init (p_view x) = Some (IDLE_PID, t)) by by rewrite Ev.
  destruct (reap_all _ z _ (IDLE_PID, t) Pz ltac:(by rewrite Ev) Hz Htz eq_refl) as (y & lines & Ry & [_ _ _ Hc Hg Hb Hlines Hout]).
  rewrite Ev in *. eexists (m + _)%nat, y, lines. split; [|split; [rewrite replicate_add, prun_app, Rz; exact Ry|]]; [lia|].
  split; [by rewrite Hout, Ho, (assoc_L (++))|]. by split_and!.
Qed.

(** Its loop on the tree, from inside it. *)
Lemma loop_step i l x y : p_prog x !! i = Some l → loops l = true → pexec initproc (Run i) x = Some y →
  ∃ l', p_prog y !! i = Some l' ∧ loops l' = true.
Proof.
  destruct x as [v pr out]. cbn [pexec p_prog]. intros Hl Hloop E. rewrite Hl in E. cbn [mbind option_bind call] in E.
  destruct l as [| | |pid code| |]; cbn [initproc] in E; try done.
  - apply bind_Some in E as ([[r co] v'] & _ & E). destruct (r =? -2); injection E as <-; cbn [p_prog]; [by exists IWait|].
    rewrite lookup_insert_eq. eexists. split; [done|]. by destruct (r =? -1).
  - injection E as <-. cbn [p_prog]. rewrite lookup_insert_eq. by exists IWait.
  - injection E as <-. cbn [p_prog]. rewrite lookup_insert_eq. by exists IWait.
Qed.

Section kernel.
Context {A H F : Type} `{FrameAllocator A} `{BinaryHeap H}.
Context (sym : Symbols) (parse_elf : list Z → option ElfFile) (trap_handler sstatus : Z).
Notation KSys := (KSys (A := A) (H := H) (F := F) (L := Init) (O := Z * Z)).
Notation kruns := (kruns sym parse_elf trap_handler sstatus initproc).
Implicit Types x y : KSys.

(** Let act alone by the kernel, it acts so often on the tree. *)
Lemma alone_run i ws x y : kruns ws x y → p_ok (on_tree x) → Others ∉ ws → (∀ a, a ∈ acted ws → a = i) →
  (∃ l, r_prog x !! i = Some l ∧ loops l = true) → prun initproc (replicate (length (acted ws)) (Run i)) (on_tree x) = Some (on_tree y).
Proof.
  induction 1 as [x|w ws x y z E _ IH]; intros P Hno Ha (l & Hl & Hloop); [done|]. apply not_elem_of_cons in Hno as [Hw Hno]. destruct w as [a| |]; [| |done].
  - cbn [acted] in *. assert (a = i) as -> by (apply Ha; by left). destruct (kact_run _ _ _ _ _ _ _ _ E P) as (e & He & _ & Hr).
    assert (e = Run i) as -> by (destruct Hr as [->|(_ & l' & f & Hl' & Hn)]; [done|rewrite Hl in Hl'; injection Hl' as <-; by destruct l]).
    cbn [length replicate prun]. rewrite He. apply IH; [by eapply pexec_ok|done|intros b Hb; apply Ha; by right|].
    exact (loop_step i l (on_tree x) (on_tree y) Hl Hloop He).
  - pose proof (kact_run _ _ _ _ _ _ _ _ E P) as Eq. cbn iota in Eq. cbn [acted] in *. rewrite <- Eq. apply IH; [by rewrite Eq|done|done|].
    exists l. split; [|done]. apply (f_equal p_prog) in Eq. cbn in Eq. by rewrite Eq.
Qed.

(** A wait of the first process that has a child that ended. *)
Lemma wait_reaps (k k' : Kernel (A := A) (H := H) (F := F)) i ptr r p : tree_ok (view k) → runs k i → procs k !! i = Some p → to_reap (view k) (children (tree p)) ≠ [] →
  sys_waitpid (-1) ptr k = Done (r, k') → ∃ c q, c ∈ to_reap (view k) (children (tree p)) ∧ procs k !! c = Some q ∧ pid q = r ∧ procs k' !! c = None.
Proof.
  intros W (t & x & Ht & Hx & <-) Hp Hne E. destruct (waitpid_view (-1) ptr k r k' W E) as (t' & x' & co & Ht' & Hx' & V). assert (x' = x) as -> by congruence.
  pose proof (node_lookup _ _ _ Hp) as Hn. destruct (to_reap (view k) (children (tree p))) as [|c cs] eqn:Er; [done|].
  assert (Hc : c ∈ to_reap (view k) (children (tree p))) by (rewrite Er; by left). apply list_elem_of_filter in Hc as [Hz Hc]. unfold v_zombie in Hz.
  destruct (v_procs (view k) !! c) as [m|] eqn:Hm; [|done].
  destruct (wait_ready (view k) _ (-1) _ c m W Hn Hc Hm Hz) as (r' & co' & v' & E' & Hr); [unfold v_asked; by rewrite Hm|]. rewrite V in E'. injection E' as <- <- <-.
  destruct (wait_call (view k) _ (-1) r co _ _ W Hn V) as [(_ & _ & [[_ Hno]|[? _]])|(idx & d & u & Hidx & Hd & Hzd & _ & _ & _ & _ & _ & Hg & _)]; [|done|].
  { specialize (Hno c Hc). unfold v_asked in Hno. by rewrite Hm in Hno. }
  destruct (node_lookup_inv k d _ Hd) as (q & Hq & Eq). injection Eq as -> ->. exists d, q. rewrite <- Er. split; [|split; [done|split; [done|]]].
  - apply list_elem_of_filter. split; [unfold v_zombie; by rewrite Hd|]. by eapply list_elem_of_lookup_2.
  - destruct (procs k' !! d) as [q'|] eqn:Eq'; [|done]. apply node_lookup in Eq'. congruence.
Qed.

(** C17. initproc.rs.  In every run of the kernel from its first process on, whatever the other processes do, as long as the
    kernel does not panic: the first process never ends, and no child that ended, an orphan or its own, stays.  While it has one, each
    [wait] that returns has reaped one ([waitpid_reaps] says when the kernel panics instead: a
    thread of the child is still suspended in a system call); and after two calls per such child and at most one, made without the others, it has reaped every
    one of them (it printed the pid and exit code of each, once) and none that lives, and the other
    processes are as they were. *)
Theorem initproc_reaps k0 ws x : booted sym parse_elf trap_handler sstatus k0 → kruns ws (mkRun k0 {[Kernel.initproc k0 := IFork]} []) x →
  let k := r_kernel x in let i := Kernel.initproc k in
  ∃ l p, r_prog x !! i = Some l ∧ procs k !! i = Some p ∧ is_zombie (tree p) = false ∧
    let ended := to_reap (view k) (children (tree p)) in
    (l = IFork ∨ loops l = true ∧
     (∀ (k1 k2 : Kernel (A := A) (H := H) (F := F)) ptr r, view k1 = view k → runs k1 i → ended ≠ [] → sys_waitpid (-1) ptr k1 = Done (r, k2) →
        ∃ c q, c ∈ ended ∧ procs k1 !! c = Some q ∧ pid q = r ∧ procs k2 !! c = None) ∧
     ∃ m lines, (m ≤ 1 + 2 * length ended)%nat ∧ lines ≡ₚ reaped_line (view k) <$> ended ∧
       ∀ ws' y, kruns ws' x y → Others ∉ ws' → acted ws' = replicate m i →
         r_out y = r_out x ++ pending l ++ lines ∧
         (∃ p', procs (r_kernel y) !! i = Some p' ∧ children (tree p') = to_keep (view k) (children (tree p))) ∧
         (∀ c, c ∈ ended → procs (r_kernel y) !! c = None) ∧
         (∀ b, b ≠ i → b ∉ ended → node <$> procs (r_kernel y) !! b = node <$> procs k !! b)).
Proof.
  intros B R k i. pose proof (booted_ok _ _ _ _ k0 B) as W0. set (x0 := mkRun k0 _ []) in R.
  assert (P0 : p_ok (on_tree x0)).
  { split; [exact W0|]. intros a l Ha. cbn in Ha. apply lookup_singleton_Some in Ha as [<- _]. destruct (to_init _ W0) as (t & Ht & Hz & _). apply alive_node. by eexists. }
  destruct (kruns_run _ _ _ _ initproc ws x0 x R P0) as (es & Re & _). pose proof (prun_ok initproc es _ _ P0 Re) as P. pose proof (po_tree _ P) as W. cbn in W.
  destruct (initproc_reaps_tree (on_tree x0) es (on_tree x) P0 eq_refl Re) as (l & n & Hl & Hn & HR).
  destruct (node_lookup_inv k i n Hn) as (p & Hp & ->). destruct (to_init _ W) as (ti & Hti & Hzi & _). 
  assert (Et : tree p = ti).
  { pose proof (node_lookup _ _ _ Hp) as Hn2. change (v_procs (view k) !! i = Some (IDLE_PID, ti)) in Hti. rewrite Hn2 in Hti. by injection Hti. }
  exists l, p. split; [exact Hl|]. split; [exact Hp|]. split; [by rewrite Et|]. cbv zeta. destruct HR as [?|(Hloop & m & z & lines & Hm & Rz & Ho & Hlines & (n' & Hn' & Hk') & Hg & Hb)]; [by left|right].
  split; [exact Hloop|]. split.
  - intros k1 k2 ptr r V Hr Hne Ew. assert (Hp1 : ∃ p1, procs k1 !! i = Some p1 ∧ node p = node p1) by (apply node_lookup_inv; by rewrite V).
    destruct Hp1 as (p1 & Hp1 & Ep). injection Ep as _ Ep. rewrite <- V, Ep in Hne |- *. assert (W1 : tree_ok (view k1)) by (rewrite V; exact W). by apply (wait_reaps k1 k2 i ptr r p1).
  - exists m, lines. split; [exact Hm|]. split; [exact Hlines|]. intros ws' y R' Hno Ha.
    assert (E : on_tree y = z).
    { pose proof (alone_run i ws' x y R' P Hno) as Hal. rewrite Ha, length_replicate in Hal. change (prun initproc (replicate m (Run i)) (on_tree x) = Some z) in Rz. rewrite Hal in Rz; [by injection Rz| |by exists l].
      intros a Hin. by apply elem_of_replicate in Hin as [-> _]. }
    subst z. destruct (node_lookup_inv (r_kernel y) i n' Hn') as (p' & Hp' & ->). split; [exact Ho|]. split; [by exists p'|]. split.
    + intros c Hc. specialize (Hg c Hc). destruct (procs (r_kernel y) !! c) as [q|] eqn:Eq; [|done]. apply node_lookup in Eq. cbn in Hg, Eq. congruence.
    + intros b Hbi Hbn. specialize (Hb b Hbi Hbn). cbn in Hb. by rewrite !lookup_fmap in Hb.
Qed.
End kernel.

(** ** Small machines *)

Module ProcWitness.
(** Every test succeeds, but for one whose [exec] is refused and one that the kernel ends with -11. *)
Definition test_events (t : test) : list PEvent :=
  [Run 1] ++
  (if decide (t.1 = "cat_filea"%string) then [Refuse 2; Run 2] else [Run 2; OtherExit 2 (if t.2 =? 0 then 0 else -11)]) ++
  [Run 1; Run 1].

Definition all_tests : list PEvent :=
  (SUCC_TESTS ≫= test_events) ++ [Run 1] ++ (FAIL_TESTS ≫= test_events) ++ [Run 1].

(** The first process forks; the shell is executed, and ends. *)
Definition shell_ends : list RunWitness.Move :=
  [RunWitness.Switch; RunWitness.Own; RunWitness.Switch; RunWitness.Own; RunWitness.Ends 7; RunWitness.Switch].
End ProcWitness.

Lemma forktree_prints_all_witness :
  ∃ es y, prun fork_tree es (mkP ForkWitness.two {[1%nat := Print []]} []) = Some y ∧ p_out y ≡ₚ words DEPTH [].
Proof.
  pose proof (ForkWitness.two_starts (O := list Z) (Print [])) as S.
  destruct (forktree_prints_all 1%nat _ [] _ S eq_refl) as (_ & _ & _ & E & _). destruct E as (es & y & R & Hy); [by vm_compute|].
  exists es, y. split; [exact R|]. destruct (forktree_prints_all 1%nat _ es y S R) as (_ & _ & _ & _ & H). exact (H Hy).
Defined.

Lemma usertests_reports_witness :
  match prun usertests ProcWitness.all_tests (mkP ForkWitness.two {[1%nat := TRun SUCC_TESTS 0 None]} []) with
  | Some x => p_prog x !! 1%nat = Some (TReturned (-1)) ∧ (p_out x).*1.*1 = (SUCC_TESTS ++ FAIL_TESTS).*1
  | None => False
  end.
Proof.
  pose proof (ForkWitness.two_starts (O := string * Z * Z) (TRun SUCC_TESTS 0 None)) as S.
  assert (E : (p_prog <$> prun usertests ProcWitness.all_tests (mkP ForkWitness.two {[1%nat := TRun SUCC_TESTS 0 None]} [])) ≫= (.!! 1%nat)
    = Some (TReturned (-1))) by (vm_compute; reflexivity).
  destruct (prun _ _ _) as [x|] eqn:R; [|done]. cbn [fmap option_fmap option_map mbind option_bind] in E. split; [exact E|].
  destruct (usertests_reports 1%nat _ _ x S R) as (H & _). exact (proj1 (H _ _ E eq_refl)).
Defined.

(** The kernel runs [initproc] and a shell that ends with 7. *)
Lemma initproc_reaps_witness :
  match LifeWitness.boot with
  | Done k => ∃ ws x, kruns LifeWitness.sym LifeWitness.elf 0 0 initproc ws (mkRun k {[Kernel.initproc k := IFork]} []) x ∧
      ∃ m lines, (m ≤ 3)%nat ∧ lines ≡ₚ [(1, 7)] ∧ ∀ ws' y, kruns LifeWitness.sym LifeWitness.elf 0 0 initproc ws' x y → Others ∉ ws' →
        acted ws' = replicate m (Kernel.initproc (r_kernel x)) → r_out y = lines
  | Panicked _ => False
  end.
Proof.
  assert (D : (match LifeWitness.boot with
     | Done k => x ← RunWitness.run initproc ProcWitness.shell_ends (mkRun k {[Kernel.initproc k := IFork]} []);
         p ← procs (r_kernel x) !! Kernel.initproc (r_kernel x); let ended := to_reap (view (r_kernel x)) (children (tree p)) in
         match r_prog x !! Kernel.initproc (r_kernel x) with Some IWait => Some (length ended, reaped_line (view (r_kernel x)) <$> ended, r_out x) | _ => None end
     | Panicked _ => None end) = Some (1%nat, [(1, 7)], [])) by (vm_compute; reflexivity).
  destruct LifeWitness.boot as [k|] eqn:Ek; [|done]. apply LifeWitness.boot_booted in Ek. apply bind_Some in D as (x & Ex & (p & Hp & D)%bind_Some). cbv zeta in D.
  destruct (r_prog x !! _) as [[| | | | |]|] eqn:Hl; try done. injection D as D1 D2 D3. destruct (RunWitness.run_kruns initproc _ _ _ Ex) as [ws R]. exists ws, x. split; [exact R|].
  destruct (initproc_reaps LifeWitness.sym LifeWitness.elf 0 0 k ws x Ek R) as (l & p' & Hl' & Hp' & _ & HR). rewrite Hl in Hl'. injection Hl' as <-. rewrite Hp in Hp'. injection Hp' as <-.
  destruct HR as [?|(_ & _ & m & lines & Hm & Hlines & HR)]; [done|]. exists m, lines. split; [rewrite D1 in Hm; exact Hm|]. split; [rewrite Hlines, D2; done|].
  intros ws' y R' Hno Ha. destruct (HR ws' y R' Hno Ha) as (Ho & _). by rewrite Ho, D3.
Defined.
