(* ===== verification/ForkReturns.v ===== *)
(** * ForkReturns.v: [fork] returns twice ([sys_fork] of [os/src/syscall/process.rs], over
    [ProcessControlBlock::fork] of [os/src/task/process.rs])

    The whole call, run forwards: the copy of the space (Fork.v), the thread of the child with its
    kernel stack, and the trap context both come back from. *)

From S2P Require Import Prelude Bytes Address FrameAlloc PageTable MemorySet Fork Ids Sched Timer UserIo UserMem Signals Kernel Process ProcessTree ProcessSim ProcessLife.

(** ** Trap contexts in pages *)

Definition cx_ok (cx : TrapContext) : Prop := length (tc_x cx) = 32%nat ∧ words_ok 8 (TrapContext_words cx).

Lemma words_roundtrip cx : length (tc_x cx) = 32%nat → TrapContext_of_words (TrapContext_words cx) = Some cx.
Proof.
  intros Hl. unfold TrapContext_of_words, TrapContext_words. rewrite <- Hl, drop_app_length, take_app_length. by destruct cx.
Qed.

Lemma write_trap_cx_spec m p cx pg : m !! p = Some pg → wf_page pg → cx_ok cx →
  ∃ pg', write_trap_cx m p cx = Done (<[p := pg']> m) ∧ wf_page pg' ∧ ∀ m', m' !! p = Some pg' → read_trap_cx m' p = Done cx.
Proof.
  intros Hp [Lp Bp] [Hl Hw]. set (ws := TrapContext_words cx). assert (Lw : length ws = 37%nat) by (unfold ws, TrapContext_words; rewrite length_app, Hl; done).
  assert (Le : length (enc_arr 8 ws) = 296%nat) by (rewrite length_enc_arr, Lw; done).
  assert (Hfit : (0 + length (enc_arr 8 ws) ≤ length pg)%nat) by (rewrite Le, Lp; change PAGE_BYTES with (Z.to_nat 4096); lia).
  exists (splice 0 (enc_arr 8 ws) pg). unfold write_trap_cx. rewrite Hp. cbn [unwrap]. rewrite outcome_bind_Done. split; [done|]. split.
  - split; [by rewrite length_splice|]. apply bytes_ok_splice; [apply bytes_ok_enc_arr|done].
  - intros m' Hm. unfold read_trap_cx. rewrite Hm. cbn [unwrap]. rewrite outcome_bind_Done. unfold splice. rewrite take_0. cbn [app].
    rewrite <- Lw, dec_enc_arr by done. unfold ws. by rewrite words_roundtrip.
Qed.

Lemma read_trap_cx_ok m p cx : wf_memory m → read_trap_cx m p = Done cx → cx_ok cx.
Proof.
  intros Hwf E. unfold read_trap_cx in E. destruct (m !! p) as [pg|] eqn:Hp; [|done]. cbn [unwrap] in E. rewrite outcome_bind_Done in E.
  destruct (map_Forall_lookup_1 _ _ _ _ Hwf Hp) as [Lp Bp].
  assert (Hw : words_ok 8 (dec_arr 8 37 pg)) by (apply words_ok_dec_arr; [done|rewrite Lp; change PAGE_BYTES with (Z.to_nat 4096); lia]).
  pose proof (length_dec_arr 8 37 pg) as Ld. set (ws := dec_arr 8 37 pg) in *. clearbody ws. unfold TrapContext_of_words in E.
  rewrite <- (take_drop 32 ws) in Hw. destruct (drop 32 ws) as [|a [|b [|c [|d [|e [|]]]]]]; try done. cbn [unwrap] in E. injection E as <-.
  split; [cbn [tc_x]; rewrite length_take; lia|exact Hw].
Qed.

Lemma read_trap_cx_frame m m' p p' : m' !! p' = m !! p → read_trap_cx m' p' = read_trap_cx m p.
Proof. intros E. unfold read_trap_cx. by rewrite E. Qed.

Lemma words_ok_set cx i v : cx_ok cx → 0 ≤ v < 2 ^ 64 → cx_ok (set_x cx i v).
Proof.
  intros [Hl Hw] Hv. unfold cx_ok, TrapContext_words, set_x in *. cbn [tc_x tc_sstatus tc_sepc tc_kernel_satp tc_kernel_sp tc_trap_handler].
  rewrite length_insert. split; [done|]. apply Forall_app in Hw as [H1 H2]. apply Forall_app. split; [|done]. by apply Forall_insert.
Qed.

Lemma words_ok_kernel_sp cx v : cx_ok cx → 0 ≤ v < 2 ^ 64 →
  cx_ok (mkTrap (tc_x cx) (tc_sstatus cx) (tc_sepc cx) (tc_kernel_satp cx) v (tc_trap_handler cx)).
Proof.
  intros [Hl Hw] Hv. split; [done|]. unfold TrapContext_words in *. cbn [tc_x tc_sstatus tc_sepc tc_kernel_satp tc_kernel_sp tc_trap_handler].
  apply Forall_app in Hw as [H1 H2]. apply Forall_app. split; [done|]. repeat apply Forall_cons in H2 as [? H2].
  repeat (apply Forall_cons; split; [done|]). done.
Qed.

Lemma words_ok_sepc cx v : cx_ok cx → 0 ≤ v < 2 ^ 64 → cx_ok (set_sepc cx v).
Proof.
  intros [Hl Hw] Hv. split; [done|]. unfold TrapContext_words, set_sepc in *. cbn [tc_x tc_sstatus tc_sepc tc_kernel_satp tc_kernel_sp tc_trap_handler].
  apply Forall_app in Hw as [H1 H2]. apply Forall_app. split; [done|]. repeat apply Forall_cons in H2 as [? H2].
  repeat (apply Forall_cons; split; [done|]). done.
Qed.

(** The page of the main thread's trap context. *)
Definition TRAP_VPN : VirtPageNum := VPN (2 ^ 27 - 2).

(** The fields of a state in which others were replaced. *)
Ltac kred := unfold set_procs, set_tcbs, set_kstacks, set_sched, set_mm, set_pids, set_pid2pcb, set_sleep;
  cbn [procs tcbs pid2pcb pids kstacks kernel_space mm sleep initproc waiting pinned timers sl_sched mm_alloc mm_mem].

Section fork.
Context {A H F : Type} `{FrameAllocatorLaws A} `{BinaryHeap H}.
Notation Kernel := (Kernel (A := A) (H := H) (F := F)).
Implicit Types k : Kernel.

Lemma get_task_run k t x : tcbs k !! t = Some x → get_task t k = Done (x, k).
Proof. intros E. unfold get_task. erewrite kbind_run by done. by rewrite E. Qed.

Lemma get_trap_cx_run k t x cx : tcbs k !! t = Some x → read_trap_cx (mm_mem (mm k)) (tk_trap_cx_ppn x) = Done cx →
  get_trap_cx t k = Done (cx, k).
Proof.
  intros Ht Hr. unfold get_trap_cx. erewrite kbind_run by by apply get_task_run. erewrite kbind_run by done. by apply klift_run.
Qed.

Lemma put_trap_cx_run k t x cx m : tcbs k !! t = Some x → write_trap_cx (mm_mem (mm k)) (tk_trap_cx_ppn x) cx = Done m →
  put_trap_cx t cx k = Done (tt, set_mm k (mkMm (mm_alloc (mm k)) m)).
Proof.
  intros Ht Hr. unfold put_trap_cx. erewrite kbind_run by by apply get_task_run. erewrite kbind_run by done.
  erewrite kbind_run by by apply klift_run. done.
Qed.

Lemma upd_proc_run a f k p : procs k !! a = Some p → upd_proc a f k = Done (tt, set_procs k (<[a := f p]> (procs k))).
Proof. intros E. unfold upd_proc. by erewrite kbind_run by by apply get_proc_run. Qed.

(** The first thread of a process whose space has the pages of a thread already. *)
Lemma first_thread_run k c q base ppn ks r sp mm1 : procs k !! c = Some q → task_res_allocator q = RecycleAllocator_new →
  trap_cx_ppn (mkTaskUserRes 0 base) (memory_set q) (mm k) = Done ppn →
  kstack_alloc (kstacks k) (kernel_space k) (mm k) = Done (ks, r, sp, mm1) →
  let t := fresh (dom (tcbs k)) in
  let k1 := set_procs k (<[c := set_space q (memory_set q) (mkRecycle 1 [])]> (procs k)) in
  let k2 := set_tcbs (set_kstacks k1 r sp mm1) (<[t := mkTask c ks (Some (mkTaskUserRes 0 base)) ppn None None]> (tcbs k)) in
  TaskControlBlock_new c base false k = Done (t, set_sched k2 (set_status (sl_sched (sleep k)) t Ready)).
Proof.
  intros Hq Hr Hp Hk t k1 k2. unfold TaskControlBlock_new.
  assert (E1 : on_space c (λ tids ms mm, TaskUserRes_new tids ms mm base false) k = Done (mkTaskUserRes 0 base, k1)).
  { unfold on_space. erewrite kbind_run by by apply get_proc_run. erewrite kbind_run by done. rewrite Hr.
    erewrite kbind_run by (apply klift_run; reflexivity). cbv beta iota. erewrite kbind_run by done. unfold k1. destruct k as [? ? ? ? ? ? [? ?] ? ? ? ?]. done. }
  erewrite kbind_run by exact E1.
  erewrite kbind_run by (apply get_proc_run; unfold k1; cbn [procs set_procs]; apply lookup_insert_eq).
  erewrite kbind_run by done. erewrite kbind_run by (apply klift_run; cbn [memory_set set_space mm set_procs k1]; exact Hp).
  erewrite kbind_run by (apply klift_run; exact Hk). done.
Qed.

(** Where the main thread's trap context is. *)
Lemma trap_cx_ppn_spec tp m ms pm used g base (al : A) : space tp m ms pm used g → TRAP_VPN ∈ area_pages (areas ms) →
  trap_cx_ppn (mkTaskUserRes 0 base) ms (mkMm al m) = Done (g TRAP_VPN).
Proof.
  intros S Hin. destruct (space_page tp _ _ _ _ _ _ S Hin) as (ar & _ & _ & Hp & _ & Hm & _ & _ & _ & Hg). unfold trap_cx_ppn. cbn [tur_tid].
  change (VirtPageNum_of_addr (VirtAddr_from (trap_cx_bottom_from_tid 0))) with (Done TRAP_VPN). rewrite outcome_bind_Done.
  unfold MemorySet_translate. cbn [mm_mem]. rewrite (proj1 (translate_tree m _ pm _ _ (sp_tree _ _ _ _ _ _ S) Hm)), outcome_bind_Done. cbn [unwrap].
  rewrite outcome_bind_Done, PTE_ppn_new; [done|done|by apply flags_or_V].
Qed.

(** A new kernel stack. *)
Lemma kstack_alloc_spec (a : A) m ks pk free used r :
  pt_state a m (root_ppn (page_table ks)) (pt_frames (page_table ks)) pk free used →
  let id := (RecycleAllocator_alloc r).1 in 0 ≤ id → 3 * (id + 1) < 2 ^ 26 →
  (∀ v, v ∈ range_pages (kstack_region id) → mapping m (page_table ks) v = None) → (6 ≤ size free)%nat →
  ∃ ks' a' m' pk' free' used' ar h,
    kstack_alloc r ks (mkMm a m) = Done (id, (RecycleAllocator_alloc r).2, ks', mkMm a' m') ∧
    pt_state a' m' (root_ppn (page_table ks')) (pt_frames (page_table ks')) pk' free' used' ∧
    inserted m m' ks ks' pk pk' free free' used used' (Z.lor MapPermission_R MapPermission_W) (kstack_region id) ar h.
Proof.
  intros S id Hid Hb Hnone Hsz. unfold kstack_alloc. subst id. destruct (RecycleAllocator_alloc r) as [id r']. cbn [fst snd] in *.
  destruct (kstack_region_eq id Hid Hb) as [_ Er]. unfold kstack_region in *. destruct (kernel_stack_position id) as [bot top]. unfold region in *.
  destruct (insert_framed_spec a m ks pk free used (VirtAddr_from bot) (VirtAddr_from top) (Z.lor MapPermission_R MapPermission_W) S)
    as (ks' & a' & m' & pk' & free' & used' & ar & h & Hrun & S' & I).
  - rewrite (f_equal rl Er : VirtAddr_floor _ = _), (f_equal rr Er : VirtAddr_ceil _ = _). cbn [rl rr vpn]. lia.
  - rewrite (f_equal rr Er : VirtAddr_ceil _ = _). cbn [rr vpn]. lia.
  - done.
  - done.
  - rewrite Er, length_range_pages. cbn [rl rr vpn]. lia.
  - rewrite Hrun, outcome_bind_Done. exists ks', a', m', pk', free', used', ar, h. done.
Qed.

(** A table beside the ones that were worked on. *)
Lemma pt_state_outside (a a' : A) m m' root fs path free free' used used' : pt_state a m root fs path free used →
  fa_inv a' free' used' → used ⊆ used' → wf_memory m' → (∀ f, f ∈ free' → is_Some (m' !! f) ∧ 0 ≤ ppn f < 2 ^ 44) →
  (∀ p, p ∉ free → path !! p ≠ None → m' !! p = m !! p) → pt_state a' m' root fs path free' used'.
Proof.
  intros S I Hu Hwf Hf Hk. pose proof (ps_used _ _ _ _ _ _ _ S) as Hp. split; try apply S; [|done|set_solver|done].
  apply (outside_tree m); [apply S|done|]. intros p x Hx. apply Hk; [|by rewrite Hx].
  intros Hf'. apply (fa_disjoint _ _ _ (ps_alloc _ _ _ _ _ _ _ S) p Hf'), Hp. by eapply elem_of_dom_2.
Qed.

(** ** The memory *)

Context (sym : Symbols) (tp : PhysPageNum) (Htp : 0 ≤ ppn tp < 2 ^ 44).
Context (Hsym : PhysPageNum_of_addr (PhysAddr_from (strampoline sym)) = Done tp).

(** The frames of a space: those of its pages and those of its tables. *)
Definition space_frames (us : MemorySet) (g : VirtPageNum → PhysPageNum) (pm : gmap PhysPageNum (list Z)) : gset PhysPageNum :=
  list_to_set (g <$> area_pages (areas us)) ∪ dom pm.

Lemma elem_of_space_frames us g pm f : f ∈ space_frames us g pm → (∃ v, f = g v ∧ v ∈ area_pages (areas us)) ∨ f ∈ dom pm.
Proof. unfold space_frames. rewrite elem_of_union, elem_of_list_to_set, list_elem_of_fmap. tauto. Qed.

(** Two spaces on [m] with nothing in common but the trampoline: the kernel's tables [pk], and the
    user space [us]. *)
Record memory_ready (a : A) (m : memory) (us ks : MemorySet) (ps pk : gmap PhysPageNum (list Z)) (free used : gset PhysPageNum)
    (gs : VirtPageNum → PhysPageNum) (kids : RecycleAllocator) (cx : TrapContext) : Prop := {
  mr_kernel : pt_state a m (root_ppn (page_table ks)) (pt_frames (page_table ks)) pk free used;
  mr_space : space tp m us ps used gs;
  mr_tp : tp ∉ free ∪ used;
  mr_apart : ∀ p, p ∈ dom pk → p ∉ dom ps ∧ ∀ v, v ∈ area_pages (areas us) → gs v ≠ p;
  mr_cx_page : TRAP_VPN ∈ area_pages (areas us);
  mr_cx : read_trap_cx m (gs TRAP_VPN) = Done cx;
  mr_kstack : 0 ≤ (RecycleAllocator_alloc kids).1 ∧ 3 * ((RecycleAllocator_alloc kids).1 + 1) < 2 ^ 26 ∧
    ∀ v, v ∈ range_pages (kstack_region (RecycleAllocator_alloc kids).1) → mapping m (page_table ks) v = None;
  mr_size : (3 * length (area_pages (areas us)) + 9 ≤ size free)%nat;
}.

Lemma KernelStack_top_range id : 0 ≤ KernelStack_get_top id < 2 ^ 64.
Proof. unfold KernelStack_get_top, kernel_stack_position. cbn [snd]. apply Z.mod_pos_bound. lia. Qed.

Definition with_kernel_sp (cx : TrapContext) (v : Z) : TrapContext :=
  mkTrap (tc_x cx) (tc_sstatus cx) (tc_sepc cx) (tc_kernel_satp cx) v (tc_trap_handler cx).

(** Writing a frame of one space leaves another alone. *)
Lemma space_write m ms pm used g f b : space tp m ms pm used g → is_Some (m !! f) → f ∉ dom pm → f ≠ tp → wf_page b →
  space tp (<[f := b]> m) ms pm used g ∧
  ∀ v, 0 ≤ vpn v < 2 ^ 27 → (v ∈ area_pages (areas ms) → g v ≠ f) → page_view (<[f := b]> m) ms v = page_view m ms v.
Proof.
  intros S Hm Hf Ht Hb. split.
  - eapply (space_frame tp Htp m); [exact S|apply map_Forall_insert_2; [done|apply (sp_tree _ _ _ _ _ _ S)]|done| |].
    + intros p Hp. apply lookup_insert_ne. by intros ->.
    + intros p _ Hp. destruct (decide (p = f)) as [->|]; [rewrite lookup_insert_eq; by eexists|by rewrite lookup_insert_ne].
  - intros v Hv Hg. rewrite (view_write tp Htp m ms pm used g) by done. rewrite decide_False; [done|]. intros [Hin E]. by apply Hg.
Qed.

(** The memory after [fork]: the copy, the kernel stack of the child, and its trap context, written
    twice. *)
Lemma fork_memory a m us ks ps pk free used gs kids cx :
  memory_ready a m us ks ps pk free used gs kids cx →
  let id := (RecycleAllocator_alloc kids).1 in let cx1 := with_kernel_sp cx (KernelStack_get_top id) in
  ∃ us' a1 m1 ks' a2 m2 m3 m4 pd free' used' gd,
    from_existed_user sym (mkMm a m) us = Done (us', mkMm a1 m1) ∧
    (∀ base, trap_cx_ppn (mkTaskUserRes 0 base) us' (mkMm a1 m1) = Done (gd TRAP_VPN)) ∧
    kstack_alloc kids ks (mkMm a1 m1) = Done (id, (RecycleAllocator_alloc kids).2, ks', mkMm a2 m2) ∧
    (read_trap_cx m2 (gd TRAP_VPN) = Done cx ∧ write_trap_cx m2 (gd TRAP_VPN) cx1 = Done m3) ∧
    (read_trap_cx m3 (gd TRAP_VPN) = Done cx1 ∧ write_trap_cx m3 (gd TRAP_VPN) (set_x cx1 10 0) = Done m4) ∧
    (read_trap_cx m4 (gd TRAP_VPN) = Done (set_x cx1 10 0) ∧ read_trap_cx m4 (gs TRAP_VPN) = Done cx) ∧
    fa_inv a2 free' used' ∧ (space_frames us gs ps ⊆ used ∧ space_frames us' gd pd ⊆ free) ∧
    space tp m4 us ps used' gs ∧ space tp m4 us' pd used' gd ∧ area_pages (areas us') = area_pages (areas us) ∧
    (∀ v, 0 ≤ vpn v < 2 ^ 27 → page_view m4 us v = page_view m us v ∧ (v ≠ TRAP_VPN → page_view m4 us' v = page_view m us v)).
Proof.
  intros [K S Ht Hap Hin Hcx (Hid & Hidb & Hnone) Hsz] id cx1. apply not_elem_of_union in Ht as [Ht Ht'].
  pose proof (ps_alloc _ _ _ _ _ _ _ K) as I. pose proof (fa_disjoint _ _ _ I) as Hd. pose proof (ps_used _ _ _ _ _ _ _ K) as Hpk.
  destruct (from_existed_user_spec sym tp Htp Hsym a m us ps free used gs I (ps_free _ _ _ _ _ _ _ K) Ht S ltac:(lia))
    as (us' & a1 & m1 & pd & free1 & used1 & gd & Hfork & S1 & F1 & U1 & W1 & Sp1 & Sc1 & Ep & Hg & Hpd & K1 & Hv1 & Hs1).
  assert (Hgs : ∀ v, v ∈ area_pages (areas us) → gs v ∈ used) by (intros v Hv; by destruct (space_page tp _ _ _ _ _ _ S Hv) as (_ & _ & _ & _ & _ & _ & Hu & _)).
  assert (Hin' : TRAP_VPN ∈ area_pages (areas us')) by by rewrite Ep.
  destruct (space_page tp _ _ _ _ _ _ Sc1 Hin') as (_ & _ & _ & _ & _ & _ & HuT & HpT & _ & _). destruct (Hg TRAP_VPN Hin) as [HfT EmT].
  pose proof (fa_disjoint _ _ _ (ps_alloc _ _ _ _ _ _ _ S1)) as Hd1.
  (* the kernel's space on the new memory *)
  assert (Hk1 : ∀ p x, pk !! p = Some x → m1 !! p = m !! p).
  { intros p x Hx. apply K1. intros Hf. apply (Hd p Hf), Hpk. by eapply elem_of_dom_2. }
  assert (K' : pt_state a1 m1 (root_ppn (page_table ks)) (pt_frames (page_table ks)) pk free1 used1).
  { eapply (pt_state_outside a); [exact K|apply S1|done|apply S1|apply S1|]. intros p Hp _. by apply K1. }
  destruct (kstack_alloc_spec a1 m1 ks pk free1 used1 kids K') as (ks' & a2 & m2 & pk' & free2 & used2 & ar & h & Hstack & S2 & Ik); [done|done| |lia|].
  { intros v Hv. rewrite (outside_mapping m m1 _ pk (ps_tree _ _ _ _ _ _ _ K) (tr_wf _ _ _ (ps_tree _ _ _ _ _ _ _ S1)) Hk1 ks.(page_table) v eq_refl). by apply Hnone. }
  destruct (in_sets _ _ _ _ _ _ _ _ _ _ _ _ _ _ Ik) as (_ & _ & [Hu2 _] & Hpp).
  pose proof (tr_wf _ _ _ (ps_tree _ _ _ _ _ _ _ S2)) as Hwf2.
  (* what it leaves alone *)
  assert (Hkeep : ∀ p, p ∈ used1 → p ∉ dom pk → m2 !! p = m1 !! p).
  { intros p Hp Hn. apply (in_frame _ _ _ _ _ _ _ _ _ _ _ _ _ _ Ik); [intros Hf; by apply (Hd1 p)|by apply not_elem_of_dom]. }
  assert (Hmem : ∀ p, p ∈ used1 → is_Some (m1 !! p) → is_Some (m2 !! p)).
  { intros p Hp Hm. destruct (decide (p ∈ dom pk)) as [[x Hx]%elem_of_dom|Hn]; [|by rewrite Hkeep].
    apply (tr_mem _ _ _ (ps_tree _ _ _ _ _ _ _ S2) p x). by eapply lookup_weaken. }
  assert (Hnk : ∀ p, p ∈ free → p ∉ dom pk) by (intros p Hp Hx; apply (Hd p Hp); by apply Hpk).
  assert (Htp2 : m2 !! tp = m1 !! tp).
  { apply (in_frame _ _ _ _ _ _ _ _ _ _ _ _ _ _ Ik); [set_solver|]. apply not_elem_of_dom. intros Hx. by apply Ht', Hpk. }
  assert (Hps2 : ∀ p, p ∈ dom ps → m2 !! p = m1 !! p).
  { intros p Hp. apply Hkeep; [apply U1; by apply (sp_tables _ _ _ _ _ _ S)|]. intros Hx. by destruct (Hap p Hx). }
  assert (Hgs2 : ∀ v, v ∈ area_pages (areas us) → m2 !! gs v = m1 !! gs v).
  { intros v Hv. apply Hkeep; [by apply U1, Hgs|]. intros Hx. destruct (Hap _ Hx) as [_ Hy]. by apply (Hy v). }
  assert (Hpd2 : ∀ p, p ∈ dom pd → m2 !! p = m1 !! p).
  { intros p Hp. apply Hkeep; [by apply (sp_tables _ _ _ _ _ _ Sc1)|]. by apply Hnk, Hpd. }
  assert (Hgd2 : ∀ v, v ∈ area_pages (areas us') → m2 !! gd v = m1 !! gd v).
  { intros v Hv. apply Hkeep; [by destruct (space_page tp _ _ _ _ _ _ Sc1 Hv) as (_ & _ & _ & _ & _ & _ & ? & _)|]. rewrite Ep in Hv. by apply Hnk, Hg. }
  pose proof (space_frame tp Htp m1 m2 us ps used1 used2 gs Sp1 Hwf2 Hu2 Hps2 Hmem) as Sp2.
  pose proof (space_frame tp Htp m1 m2 us' pd used1 used2 gd Sc1 Hwf2 Hu2 Hpd2 Hmem) as Sc2.
  (* the trap context of the child *)
  assert (Hcx2 : read_trap_cx m2 (gd TRAP_VPN) = Done cx).
  { rewrite <- Hcx. apply read_trap_cx_frame. by rewrite Hgd2, EmT. }
  pose proof (read_trap_cx_ok _ _ _ Hwf2 Hcx2) as Ok.
  assert (Ok1 : cx_ok cx1) by (apply words_ok_kernel_sp; [done|apply KernelStack_top_range]).
  assert (Ok2 : cx_ok (set_x cx1 10 0)) by (by apply words_ok_set).
  destruct (space_page tp _ _ _ _ _ _ Sc2 Hin') as (_ & _ & _ & _ & _ & _ & _ & _ & [pg Hpg] & _).
  destruct (write_trap_cx_spec m2 _ cx1 pg Hpg (map_Forall_lookup_1 _ _ _ _ Hwf2 Hpg) Ok1) as (pg3 & Hw3 & Hwf3 & Hr3).
  set (m3 := <[gd TRAP_VPN := pg3]> m2) in *.
  destruct (write_trap_cx_spec m3 (gd TRAP_VPN) (set_x cx1 10 0) pg3) as (pg4 & Hw4 & Hwf4 & Hr4); [apply lookup_insert_eq|done|done|].
  set (m4 := <[gd TRAP_VPN := pg4]> m3) in *.
  assert (Hn1 : gd TRAP_VPN ∉ dom ps) by (intros Hx; apply (Hd (gd TRAP_VPN) HfT); by apply (sp_tables _ _ _ _ _ _ S)).
  assert (Hn2 : gd TRAP_VPN ∉ dom pd) by by apply not_elem_of_dom.
  assert (Hn3 : gd TRAP_VPN ≠ tp) by (intros E; by rewrite E in HfT).
  assert (Hne : ∀ v, v ∈ area_pages (areas us) → gs v ≠ gd TRAP_VPN) by (intros v Hv E; apply (Hd (gd TRAP_VPN) HfT); rewrite <- E; by apply Hgs).
  assert (Hm2 : is_Some (m2 !! gd TRAP_VPN)) by by eexists.
  assert (Hm3 : is_Some (m3 !! gd TRAP_VPN)) by (unfold m3; rewrite lookup_insert_eq; by eexists).
  destruct (space_write m2 us ps used2 gs (gd TRAP_VPN) pg3 Sp2 Hm2 Hn1 Hn3 Hwf3) as [Sp3 Vp3].
  destruct (space_write m3 us ps used2 gs (gd TRAP_VPN) pg4 Sp3 Hm3 Hn1 Hn3 Hwf4) as [Sp4 Vp4].
  destruct (space_write m2 us' pd used2 gd (gd TRAP_VPN) pg3 Sc2 Hm2 Hn2 Hn3 Hwf3) as [Sc3 Vc3].
  destruct (space_write m3 us' pd used2 gd (gd TRAP_VPN) pg4 Sc3 Hm3 Hn2 Hn3 Hwf4) as [Sc4 Vc4].
  exists us', a1, m1, ks', a2, m2, m3, m4, pd, free2, used2, gd. split; [done|]. split; [intros base; by eapply trap_cx_ppn_spec|].
  split; [done|]. split; [done|]. split; [split; [apply Hr3, lookup_insert_eq|done]|]. split; [split; [apply Hr4, lookup_insert_eq|]|].
  { rewrite <- Hcx. apply read_trap_cx_frame. unfold m4, m3. rewrite !lookup_insert_ne by (intros E; by apply (Hne _ Hin)). rewrite Hgs2 by done.
    apply K1. intros Hf. apply (Hd _ Hf). by apply Hgs. }
  split; [apply S2|]. split.
  { split; intros f [(v & -> & Hv)|Hf]%elem_of_space_frames; [by apply Hgs|by apply (sp_tables _ _ _ _ _ _ S)| |by apply Hpd].
    rewrite Ep in Hv. by apply Hg. }
  split; [exact Sp4|]. split; [exact Sc4|]. split; [done|].
  intros v Hv. destruct (Hv1 v Hv) as [Ev1 Ev2]. split.
  - rewrite <- Ev2. etransitivity; [apply Vp4; [done|by apply Hne]|]. etransitivity; [apply Vp3; [done|by apply Hne]|].
    by apply (view_frame tp Htp m1 m2 us ps used1 gs); [..|apply Hgs2|].
  - intros Hvt. assert (Hnv : v ∈ area_pages (areas us') → gd v ≠ gd TRAP_VPN) by (intros Hi E; apply Hvt; by apply (sp_inj _ _ _ _ _ _ Sc1)).
    rewrite <- Ev1. etransitivity; [by apply Vc4|]. etransitivity; [by apply Vc3|].
    by apply (view_frame tp Htp m1 m2 us' pd used1 gd); [..|apply Hgd2|].
Qed.

(** ** The call *)

(** The only thread [t] of the process [a] runs and calls [fork]. *)
Record fork_ready k (t : nat) (x : Task) (a : nat) p (base : Z) (cx : TrapContext) (ps pk : gmap PhysPageNum (list Z))
    (free used : gset PhysPageNum) (gs : VirtPageNum → PhysPageNum) : Prop := {
  fr_current : Sched.current (sl_sched (sleep k)) = Some t;
  fr_task : tcbs k !! t = Some x;
  fr_process : tk_process x = a;
  fr_pcb : procs k !! a = Some p;
  fr_tasks : tasks p = [Some t];
  fr_res : tk_res x = Some (mkTaskUserRes 0 base);
  fr_cx : tk_trap_cx_ppn x = gs TRAP_VPN;
  fr_memory : memory_ready (mm_alloc (mm k)) (mm_mem (mm k)) (memory_set p) (kernel_space k) ps pk free used gs (kstacks k) cx;
}.

(** The process that [fork] makes of [p]. *)
Definition child_of_fork p (pid : Z) (a : nat) (us : MemorySet) (t : nat) : Pcb (F := F) :=
  mkPcb pid [] (working_dir p) us (mkTree false (Some a) [] 0) (fd_table p)
    (mkProcSignals 0 (p_signal_mask (sigs p)) (-1) (p_signal_actions (sigs p)) false false) [Some t] (mkRecycle 1 []) no_sync.

Lemma pid_alloc_run k : pid_alloc k = Done ((RecycleAllocator_alloc (pids k)).1, set_pids k (RecycleAllocator_alloc (pids k)).2).
Proof. unfold pid_alloc. erewrite kbind_run by done. by destruct (RecycleAllocator_alloc (pids k)). Qed.

Lemma put_proc_run k a p : put_proc a p k = Done (tt, set_procs k (<[a := p]> (procs k))).
Proof. done. Qed.

Lemma insert_around {X} (m : gmap nat X) c a w x y z : c ≠ a → <[c := y]> (<[c := x]> (<[a := z]> (<[c := w]> m))) = <[c := y]> (<[a := z]> m).
Proof.
  intros Hne. apply map_eq. intros i. destruct (decide (i = c)) as [->|]; [by rewrite !lookup_insert_eq|].
  destruct (decide (i = a)) as [->|]; [by rewrite !(lookup_insert_ne _ c), !lookup_insert_eq by done|by rewrite !lookup_insert_ne by done].
Qed.

(** The pid that [pid_alloc] gives out next is nobody's. *)
Lemma new_pid_fresh k : tree_ok (view k) → ra_current (pids k) + 1 < 2 ^ 63 →
  (∀ b r, procs k !! b = Some r → pid r ≠ (RecycleAllocator_alloc (pids k)).1) ∧ pid2pcb k !! (RecycleAllocator_alloc (pids k)).1 = None.
Proof.
  intros W Hb. destruct (to_live _ W) as (live & Wl & Wlv). pose proof (ra_alloc_spec (pids k) live Wl Hb) as Hal. cbn [v_pids view] in *.
  assert (Hnew : (RecycleAllocator_alloc (pids k)).1 ∉ live) by (destruct (RecycleAllocator_alloc (pids k)); apply Hal). split.
  - intros b r Hr E. apply Hnew, Wlv. exists b, (tree r). cbn [view v_procs]. rewrite lookup_fmap, Hr. cbn. unfold node. by rewrite E.
  - apply eq_None_not_Some. intros (b & Hm). apply (to_map _ W) in Hm as (t & Hm & _). apply Hnew, Wlv. by exists b, t.
Qed.

Lemma sys_fork_run k t x a p base cx ps pk free used gs : fork_ready k t x a p base cx ps pk free used gs →
  let pid_ := (RecycleAllocator_alloc (pids k)).1 in let id := (RecycleAllocator_alloc (kstacks k)).1 in
  let c := fresh (dom (procs k)) in let u := fresh (dom (tcbs k)) in
  ∃ us' ks' a2 m4 pd free' used' gd,
    let k' := mkKernel (<[c := child_of_fork p pid_ a us' u]> (<[a := set_tree p (mkTree (is_zombie (tree p)) (parent (tree p)) (children (tree p) ++ [c]) (exit_code (tree p)))]> (procs k)))
      (<[u := mkTask c id (Some (mkTaskUserRes 0 base)) (gd TRAP_VPN) None None]> (tcbs k)) (<[pid_ := c]> (pid2pcb k))
      (RecycleAllocator_alloc (pids k)).2 (RecycleAllocator_alloc (kstacks k)).2 ks' (mkMm a2 m4)
      (mkSleep (timers (sleep k)) (add_task (set_status (sl_sched (sleep k)) u Ready) u)) (initproc k) (waiting k) (pinned k) in
    sys_fork sym k = Done (pid_, k') ∧
    (read_trap_cx m4 (gd TRAP_VPN) = Done (set_x (with_kernel_sp cx (KernelStack_get_top id)) 10 0) ∧ read_trap_cx m4 (gs TRAP_VPN) = Done cx) ∧
    fa_inv a2 free' used' ∧ (space_frames (memory_set p) gs ps ⊆ used ∧ space_frames us' gd pd ⊆ free) ∧
    space tp m4 (memory_set p) ps used' gs ∧ space tp m4 us' pd used' gd ∧ area_pages (areas us') = area_pages (areas (memory_set p)) ∧
    (∀ v, 0 ≤ vpn v < 2 ^ 27 → page_view m4 (memory_set p) v = page_view (mm_mem (mm k)) (memory_set p) v ∧
       (v ≠ TRAP_VPN → page_view m4 us' v = page_view (mm_mem (mm k)) (memory_set p) v)).
Proof.
  intros R pid_ id c u. destruct R as [Hcur Hx Ha Hp Hts Hres Hcxp M].
  destruct (fork_memory _ _ _ _ _ _ _ _ _ _ _ M) as (us' & a1 & m1 & ks' & a2 & m2 & m3 & m4 & pd & free' & used' & gd &
    Hfork & Hppn & Hstack & (Hr2 & Hw3) & (Hr3 & Hw4) & Hr4 & I & Hfr & Sp & Sc & Ep & Hv).
  exists us', ks', a2, m4, pd, free', used', gd. intros k'. split; [|done].
  assert (Hca : c ≠ a) by (intros E; apply (is_fresh (dom (procs k))); fold c; rewrite E; by eapply elem_of_dom_2).
  assert (Hut : u ≠ t) by (intros E; apply (is_fresh (dom (tcbs k))); fold u; rewrite E; by eapply elem_of_dom_2).
  destruct k as [prs tks p2p pds kst ksp [al m] [tm sc] ini wai pin].
  cbn [procs tcbs pid2pcb pids kstacks kernel_space mm sleep initproc waiting pinned timers sl_sched mm_alloc mm_mem] in *.
  set (q := mkPcb pid_ [] (working_dir p) us' (mkTree false (Some a) [] 0) (fd_table p)
    (mkProcSignals 0 (p_signal_mask (sigs p)) (-1) (p_signal_actions (sigs p)) false false) [] RecycleAllocator_new no_sync).
  unfold sys_fork. erewrite kbind_run by by eapply current_process_run. rewrite Ha.
  erewrite kbind_run; last first.
  { unfold fork. erewrite kbind_run by by apply get_proc_run. rewrite Hts. erewrite kbind_run by done. erewrite kbind_run by done.
    erewrite kbind_run by (apply klift_run; exact Hfork). cbv beta iota. erewrite kbind_run by done.
    erewrite kbind_run by apply pid_alloc_run. erewrite kbind_run by done. kred. fold pid_ c q.
    erewrite kbind_run by apply put_proc_run. kred.
    erewrite kbind_run by (apply upd_tree_run; kred; rewrite lookup_insert_ne by done; exact Hp). kred.
    erewrite kbind_run by done. erewrite kbind_run by done. erewrite kbind_run by (apply get_task_run; exact Hx). rewrite Hres.
    erewrite kbind_run by done. cbn [tur_ustack_base].
    erewrite kbind_run; [|eapply (first_thread_run _ c q base (gd TRAP_VPN)); [kred; rewrite lookup_insert_ne by done; apply lookup_insert_eq|done|apply Hppn|exact Hstack]]. kred.
    erewrite kbind_run by (apply upd_proc_run; kred; apply lookup_insert_eq). kred.
    erewrite kbind_run by (apply get_task_run; kred; apply lookup_insert_eq). kred.
    erewrite kbind_run by (eapply get_trap_cx_run; kred; [apply lookup_insert_eq|exact Hr2]). 
    erewrite kbind_run by (eapply put_trap_cx_run; kred; [apply lookup_insert_eq|exact Hw3]). kred.
    unfold insert_pid. erewrite kbind_run by (erewrite kbind_run by done; reflexivity). kred.
    unfold k_add_task. erewrite kbind_run by (erewrite kbind_run by done; reflexivity). kred. reflexivity. }
  erewrite kbind_run by (apply get_proc_run; kred; apply lookup_insert_eq). erewrite kbind_run by done. erewrite kbind_run by done.
  erewrite kbind_run by (eapply get_trap_cx_run; kred; [apply lookup_insert_eq|exact Hr3]).
  erewrite kbind_run by (eapply put_trap_cx_run; kred; [apply lookup_insert_eq|exact Hw4]). kred.
  rewrite insert_around by done. reflexivity.
Qed.

(** C8. [fork] returns twice. In a kernel whose processes form a tree ([tree_ok], which every reachable
    kernel keeps), for a process with one thread, framed areas, and frames enough for a copy,
    a kernel stack and their tables, the call succeeds. The parent gets the pid of a new process, one
    that no process, living or ended, had, and goes on with its trap context as it was. The child is a new
    process with the same files, a child of the caller, whose only thread is ready, last in the queue; its
    space has the same pages and shows at every page what the parent's shows, but for the page of the trap
    context, and all on frames of its own, which were free: none of the frames of its pages and tables is one
    of the parent's; and its trap context is the parent's with 0 for the result and a kernel stack of its
    own, so that both continue at the same place. *)
Theorem fork_returns_twice k t x a p base cx ps pk free used gs : fork_ready k t x a p base cx ps pk free used gs →
  tree_ok (view k) → ra_current (pids k) + 1 < 2 ^ 63 →
  ∃ k' pid_ c q u y ps' used',
    sys_fork sym k = Done (pid_, k') ∧ pid_ = (RecycleAllocator_alloc (pids k)).1 ∧ pid2pcb k' !! pid_ = Some c ∧
    (∀ b r, procs k !! b = Some r → pid r ≠ pid_) ∧ pid2pcb k !! pid_ = None ∧
    get_trap_cx t k' = Done (cx, k') ∧
    (∃ p', procs k' !! a = Some p' ∧ memory_set p' = memory_set p ∧ children (tree p') = children (tree p) ++ [c]) ∧
    c ∉ dom (procs k) ∧ procs k' !! c = Some q ∧ pid q = pid_ ∧ fd_table q = fd_table p ∧ parent (tree q) = Some a ∧
    tasks q = [Some u] ∧ tcbs k' !! u = Some y ∧ tk_process y = c ∧
    u ∉ dom (tcbs k) ∧ task_status (sl_sched (sleep k')) !! u = Some Ready ∧
    ready_queue (sl_sched (sleep k')) = ready_queue (sl_sched (sleep k)) ++ [u] ∧
    get_trap_cx u k' = Done (set_x (with_kernel_sp cx (KernelStack_get_top (tk_kstack y))) 10 0, k') ∧
    (∃ gd, space tp (mm_mem (mm k')) (memory_set p) ps used' gs ∧ space tp (mm_mem (mm k')) (memory_set q) ps' used' gd ∧
       area_pages (areas (memory_set q)) = area_pages (areas (memory_set p)) ∧ space_frames (memory_set q) gd ps' ⊆ free ∧
       space_frames (memory_set q) gd ps' ## space_frames (memory_set p) gs ps) ∧
    (∀ v, 0 ≤ vpn v < 2 ^ 27 → page_view (mm_mem (mm k')) (memory_set p) v = page_view (mm_mem (mm k)) (memory_set p) v ∧
       (v ≠ TRAP_VPN → page_view (mm_mem (mm k')) (memory_set q) v = page_view (mm_mem (mm k)) (memory_set p) v)).
Proof.
  intros R W Hb. destruct (sys_fork_run _ _ _ _ _ _ _ _ _ _ _ _ R) as (us' & ks' & a2 & m4 & pd & free' & used' & gd & Hrun & [Hc Hpar] & _ & [Hfp Hfc] & Sp & Sc & Ep & Hv).
  assert (Hd : free ## used) by (destruct R as [_ _ _ _ _ _ _ M]; exact (fa_disjoint _ _ _ (ps_alloc _ _ _ _ _ _ _ (mr_kernel _ _ _ _ _ _ _ _ _ _ _ M)))).
  destruct R as [Hcur Hx Ha Hp Hts Hres Hcxp M].
  set (c := fresh (dom (procs k))) in *. set (u := fresh (dom (tcbs k))) in *.
  assert (Hcf : c ∉ dom (procs k)) by apply is_fresh. assert (Huf : u ∉ dom (tcbs k)) by apply is_fresh.
  assert (Hca : a ≠ c) by (intros ->; apply Hcf; by eapply elem_of_dom_2).
  assert (Hut : t ≠ u) by (intros ->; apply Huf; by eapply elem_of_dom_2).
  eexists _, _, c, _, u, _, pd, used'. split; [exact Hrun|]. split; [done|]. cbn [procs tcbs pid2pcb mm mm_mem sleep sl_sched].
  split; [apply lookup_insert_eq|]. split; [by intros b r; apply new_pid_fresh|]. split; [by apply new_pid_fresh|].
  split; [eapply get_trap_cx_run; cbn [tcbs mm mm_mem]; [by rewrite lookup_insert_ne|by rewrite Hcxp]|].
  split; [eexists; split; [rewrite lookup_insert_ne by done; apply lookup_insert_eq|done]|].
  split; [done|]. split; [apply lookup_insert_eq|]. do 4 (split; [done|]). split; [apply lookup_insert_eq|]. do 2 (split; [done|]).
  split; [apply lookup_insert_eq|]. split; [done|].
  split; [eapply get_trap_cx_run; cbn [tcbs mm mm_mem]; [apply lookup_insert_eq|exact Hc]|].
  split; [|exact Hv]. exists gd. do 4 (split; [done|]). set_solver.
Qed.
End fork.

(** A process whose only page is that of its trap context, in a machine of 55 frames. *)
Module ForkReturnsWitness.
Definition tp : PhysPageNum := PPN 0x80200.
Definition sym : Symbols := mkSymbols 0 0 0 0 0 0 0 0 0 0x80200000.
Definition frames : gset PhysPageNum := list_to_set (PPN <$> seqZ 5 (60 - 5)).
Definition a0 : StackFrameAllocator := Stack_init (PPN 5) (PPN 60) Stack_new.
Definition m0 : memory := gset_to_gmap zero_page frames.
Definition cx : TrapContext := mkTrap (replicate 32 0) 0 0 0 0 0.

Lemma frame_present f : f ∈ frames → is_Some (m0 !! f) ∧ 0 ≤ ppn f < 2 ^ 44.
Proof.
  intros Hf. split; [exists zero_page; by apply lookup_gset_to_gmap_Some|].
  apply elem_of_list_to_set, list_elem_of_fmap in Hf as (x & -> & Hx%elem_of_seqZ). cbn. lia.
Qed.

Lemma size_frames : size frames = 55%nat.
Proof. by vm_compute. Qed.

(** The kernel's space is an empty table. *)
Lemma machine : ∃ (a : StackFrameAllocator) m us ks ps pk free used gs,
  memory_ready tp a m us ks ps pk free used gs RecycleAllocator_new cx.
Proof.
  destruct (PageTable_new_spec a0 m0 frames ∅) as (kt & a1 & m1 & _ & K & Hr & Hm1 & Hnone).
  { by apply Stack_init_inv. }
  { intros p b [_ <-]%lookup_gset_to_gmap_Some. apply zero_page_wf. }
  { rewrite size_frames. lia. }
  { apply frame_present. }
  set (free1 := frames ∖ {[root_ppn kt]}) in *. set (used1 := {[root_ppn kt]} ∪ ∅ : gset PhysPageNum) in *.
  assert (Hs1 : size free1 = 54%nat) by (unfold free1; rewrite size_difference, size_frames, size_singleton by set_solver; done).
  destruct (new_space sym tp ltac:(by split) eq_refl a1 m1 free1 used1 (ps_alloc _ _ _ _ _ _ _ K) (tr_wf _ _ _ (ps_tree _ _ _ _ _ _ _ K)) (ps_free _ _ _ _ _ _ _ K))
    as (ms0 & mm0 & ms & a2 & m2 & path2 & free2 & used2 & _ & _ & Ea & S2 & K2 & F2 & U2 & W2 & Z2 & Hm2); [lia|].
  pose proof (bare_space tp a2 m2 ms path2 free2 used2 (λ _, PPN 0) S2 Ea Hm2) as Sp2.
  destruct (space_push tp a2 m2 ms path2 free2 used2 _ (mkRange TRAP_VPN TRAMPOLINE_VPN) 6 Data S2 Sp2)
    as (us & a & m & ps & free & used & ar & h & _ & S & I & Sp & Ep); [by split|by split|done|intros v _; rewrite Ea; apply not_elem_of_nil| |].
  { change (length (range_pages (mkRange TRAP_VPN TRAMPOLINE_VPN))) with 1%nat. lia. }
  destruct (in_sets _ _ _ _ _ _ _ _ _ _ _ _ _ _ I) as (F3 & W3 & [U3 _] & _). pose proof (in_size _ _ _ _ _ _ _ _ _ _ _ _ _ _ I) as Z3.
  change (length (range_pages (mkRange TRAP_VPN TRAMPOLINE_VPN))) with 1%nat in Z3.
  assert (Ek : ∀ p, p ∉ free1 → m !! p = m1 !! p ∧ ps !! p = None).
  { intros p Hp. destruct (K2 p Hp (lookup_empty _)) as [<- E2]. apply (in_frame _ _ _ _ _ _ _ _ _ _ _ _ _ _ I); [set_solver|done]. }
  assert (Hroot : root_ppn kt ∉ free1) by set_solver.
  assert (Epages : area_pages (areas us) = [TRAP_VPN]) by (rewrite Ep, Ea; reflexivity).
  assert (Hin : TRAP_VPN ∈ range_pages (mkRange TRAP_VPN TRAMPOLINE_VPN)) by by left.
  exists a, m, us, (mkMemorySet kt []), ps, {[root_ppn kt := []]}, free, used. eexists. split.
  - eapply pt_state_outside; [exact K|apply S|set_solver|apply S|apply S|]. intros p Hp _. by apply Ek.
  - exact Sp.
  - assert (Hn : tp ∉ frames) by by vm_compute. intros Hx. apply Hn. rewrite (comm_L (∪) free used), W3, W2 in Hx. unfold used1, free1 in Hx.
    apply elem_of_union in Hx as [[->%elem_of_singleton|Hx]%elem_of_union|[Hx _]%elem_of_difference]; [done|by apply not_elem_of_empty in Hx|done].
  - intros p Hp. rewrite dom_singleton_L, elem_of_singleton in Hp. subst p. split.
    + apply not_elem_of_dom. by apply Ek.
    + intros v Hv E. rewrite Epages in Hv. apply list_elem_of_singleton in Hv as ->. rewrite decide_True in E by done.
      apply Hroot, F2. rewrite <- E. by apply (in_new _ _ _ _ _ _ _ _ _ _ _ _ _ _ I).
  - rewrite Epages. by left.
  - cbv beta. rewrite decide_True by done. destruct (in_new _ _ _ _ _ _ _ _ _ _ _ _ _ _ I _ Hin) as [_ Hz].
    unfold read_trap_cx. rewrite Hz. by vm_compute.
  - split; [done|]. split; [done|]. intros v Hv. rewrite (outside_mapping m1 m _ {[root_ppn kt := []]} (ps_tree _ _ _ _ _ _ _ K) (tr_wf _ _ _ (ps_tree _ _ _ _ _ _ _ S))); [|intros p x [<- _]%lookup_singleton_Some; by apply Ek|done].
    apply Hnone. apply range_pages_spec in Hv. destruct (kstack_region_eq 0) as [_ Er]; [done|done|].
    change ((RecycleAllocator_alloc RecycleAllocator_new).1) with 0 in Hv. rewrite Er in Hv. cbn in Hv. lia.
  - rewrite Epages. cbn [length]. lia.
Qed.
End ForkReturnsWitness.

Lemma fork_returns_twice_witness :
  ∃ (k k' : Kernel (A := StackFrameAllocator) (H := list TimerCondVar) (F := unit)) pid_ u,
    sys_fork ForkReturnsWitness.sym k = Done (pid_, k') ∧ get_trap_cx 0 k' = Done (ForkReturnsWitness.cx, k') ∧
    ready_queue (sl_sched (sleep k')) = [u] ∧ u ≠ 0%nat.
Proof.
  destruct ForkReturnsWitness.machine as (a & m & us & ks & ps & pk & free & used & gs & M).
  set (x := mkTask 0 0 (Some (mkTaskUserRes 0 0x1000)) (gs TRAP_VPN) None None).
  set (p := mkPcb (F := unit) 0 [] [] us (mkTree false None [] 0) [] (mkProcSignals 0 0 (-1) [] false false) [Some 0%nat] (mkRecycle 1 []) no_sync).
  set (k := mkKernel {[0%nat := p]} {[0%nat := x]} {[0 := 0%nat]} (mkRecycle 1 []) RecycleAllocator_new ks (mkMm a m)
    (mkSleep (H := list TimerCondVar) [] (mkSched {[0%nat := Running]} [] (Some 0%nat))) 0 [] []).
  destruct (fork_returns_twice ForkReturnsWitness.sym ForkReturnsWitness.tp ltac:(by split) eq_refl k 0 x 0 p 0x1000 ForkReturnsWitness.cx ps pk free used gs)
    as (k' & pid_ & c & q & u & y & ps' & used' & Hrun & Ep & _ & _ & _ & Hcx & _ & _ & _ & _ & _ & _ & _ & _ & _ & Hu & _ & Hq & _).
  - split; try reflexivity. exact M.
  - change (view k) with (mkView {[0%nat := (0, mkTree false None [] 0)]} {[0 := 0%nat]} (mkRecycle 1 []) 0). apply first_tree_ok.
  - done.
  - exists k, k', pid_, u. split; [exact Hrun|]. split; [exact Hcx|]. split; [exact Hq|]. intros ->. apply Hu. by vm_compute.
Defined.
