(* ===== verification/Boot.v ===== *)
(** * Boot.v: the kernel starts ([rust_main] of [os/src/main.rs])

    From the memory behind the kernel and the disk to the first process, in the order of [rust_main]: [mm::init],
    the serial port, the GPU, the keyboard and the mouse, [remap_test], [trap::init] and the first timer,
    [device_init], the listing of the root directory (which opens the disk), and [add_initproc], which runs
    the whole of [ProcessControlBlock::new]: the image of [initproc] loaded into a space of its own, the
    stack and the trap context of its thread, and the thread's kernel stack in the kernel's space.  Clearing
    the bss and the start of the heap are before the model's first state; what is printed is not
    modelled but for the lines of the listing. *)

From S2P Require Import Prelude Bytes BlockProg BlockCache Layout DiskInode Efs Vfs FileGrow FsInv FsOps FsTree FsSpec Files Fuse.
From S2P Require Import Address FrameAlloc PageTable MemorySet KernelSpace Fork ElfLoad Plic Ids Sched Device Virtio Drivers Timer UserIo UserMem Signals Kernel Process ProcessTree ProcessSim ProcessLife ForkReturns.

(** ** Definitions *)

(** What [trap::init] writes to [stvec] and [sscratch]: the entry for traps from the kernel, in the
    trampoline's page, and [trap_from_kernel]; the arguments are where the linker put them. *)
Definition trap_init (alltraps alltraps_k trap_from_kernel : Z) : Z * Z := (u64 (u64 (alltraps_k - alltraps) + TRAMPOLINE), trap_from_kernel).

(** A run of the file system on the disk. *)
Definition on_disk {X} (p : prog X) (D : gmap Z block) : outcome (X * gmap Z block) :=
  match run p ∅ D with
  | FDone x _ D => Done (x, D)
  | FFail (FPanic e) => Panicked e
  | FFail FDevice => Panicked PExplicit
  end.

Section boot.
Context {F H G I Q HW : Type} `{BinaryHeap H} `{VirtioDrivers G I Q} `{VirtIOBlk Q} `{Uart16550 HW}.
Context (sym : Symbols) (parse_elf : list Z → option ElfFile) (trap_handler sstatus : Z).
Context (alltraps alltraps_k trap_from_kernel : Z) (bmp : option (list Z)).
Notation Kernel := (Kernel (A := StackFrameAllocator) (H := H) (F := F)).

(** The statics of the kernel before the first process. *)
Definition kernel_statics (kernel_space : MemorySet) (mm : Mm StackFrameAllocator) : Kernel :=
  mkKernel ∅ ∅ ∅ RecycleAllocator_new RecycleAllocator_new kernel_space mm (mkSleep heap_new (mkSched ∅ [] None)) 0 [] [].

(** The machine at [run_tasks]: the kernel's data, the registers set, the drivers, and what was listed. *)
Record Started : Type := mkStarted {
  st_kernel : Kernel;
  st_plic : registers;
  st_sie : bool * bool;          (** external and timer interrupts *)
  st_stvec : Z * Z;              (** [stvec] and [sscratch] *)
  st_timer : Z;
  st_uart : NS16550a HW;
  st_gpu : VirtIOGpuWrapper G;
  st_keyboard : VirtIOInputWrapper I;
  st_mouse : VirtIOInputWrapper I;
  st_block : VirtIOBlock Q;
  st_queue_frames : list FrameTracker;
  st_efs : EasyFileSystem;
  st_listed : list (list Z * Z);
  st_nonblocking : bool;         (** [DEV_NON_BLOCKING_ACCESS] *)
}.

(** [rust_main] up to [run_tasks]; [r] are the registers of the interrupt controller, [hw] is the serial
    port, [time] the time register, [D] the disk.  [BLOCK_DEVICE] and [ROOT_INODE] are made at their first
    use, in [list_files]. *)
Definition rust_main (m : memory) (r : registers) (hw : HW) (time : Z) (stdio : list (option F)) (D : gmap Z block) (fuel : nat)
    : outcome (option Started) :=
  '(kernel_space, _, mm) ← mm_init sym m;
  let uart := uart_init (NS16550a_new hw) in
  let h := mkHal (mm_alloc mm) (mm_mem mm) [] in
  '(gpu, h) ← VirtIOGpuWrapper_new bmp h;
  '(keyboard, h) ← VirtIOInputWrapper_new VIRTIO6 h;
  '(mouse, h) ← VirtIOInputWrapper_new VIRTIO5 h;
  remap_test sym (mkMm (hal_alloc h) (hal_mem h)) kernel_space;;
  let stvec := trap_init alltraps alltraps_k trap_from_kernel in
  let stimer := true in
  let timer := set_next_trigger time in
  '(r, sext) ← device_init r;
  '(block, h) ← BLOCK_DEVICE_new h;
  '(efs, D) ← on_disk open_fs D;
  '(listed, D) ← on_disk (list_files efs (root_inode efs) [47]) D;
  '(o, k) ← add_initproc sym parse_elf trap_handler sstatus stdio efs (root_inode efs) D fuel
              (kernel_statics kernel_space (mkMm (hal_alloc h) (hal_mem h)));
  mret (option_map (λ _, mkStarted k r (sext, stimer) stvec timer uart gpu keyboard mouse block (queue_frames h) efs listed true) o).
End boot.
Arguments Started F H G I Q HW : clear implicits.

(** ** The memory of a new process *)

(** A program that can be loaded, whose last segment ends highest, with room for the stack behind. *)
Record program_ok (parse_elf : list Z → option ElfFile) (elf_data : list Z) (elf : ElfFile) (n : Z) : Prop := {
  po_image : image_ok parse_elf elf_data elf;
  po_last : ∃ ph, last (loads (elf_headers elf)) = Some ph ∧ n = (ph_virtual_addr ph + ph_mem_size ph + (PAGE_SIZE - 1)) / PAGE_SIZE;
  po_highest : ∀ v, v ∈ seg_pages (elf_headers elf) → vpn v < n;
  po_room : 0 ≤ n < 2 ^ 26 - 8;
}.

Section memory.
Context {A : Type} `{FrameAllocatorLaws A}.
Context (sym : Symbols) (tp : PhysPageNum) (Htp : 0 ≤ ppn tp < 2 ^ 44).
Context (Hsym : PhysPageNum_of_addr (PhysAddr_from (strampoline sym)) = Done tp).

(** The pages of the first thread: its stack behind the program, one page left out, and its trap context. *)
Definition stack_pages (n : Z) : list VirtPageNum := [VPN (n + 1); VPN (n + 2)].

(** [insert_framed_area] on a space. *)
Lemma space_insert (a : A) m ms path free used g (s e : VirtAddr) perm l r :
  pt_state a m (root_ppn (page_table ms)) (pt_frames (page_table ms)) path free used → space tp m ms path used g →
  mkRange (VirtAddr_floor s) (VirtAddr_ceil e) = mkRange (VPN l) (VPN r) → perm_ok perm → 0 ≤ l ≤ r → r < 2 ^ 27 →
  (∀ v, v ∈ range_pages (mkRange (VPN l) (VPN r)) → v ∉ area_pages (areas ms)) → (3 * Z.to_nat (r - l) ≤ size free)%nat →
  ∃ ms' a' m' path' free' used' g',
    insert_framed_area (mkMm a m) ms s e perm = Done (ms', mkMm a' m') ∧
    pt_state a' m' (root_ppn (page_table ms')) (pt_frames (page_table ms')) path' free' used' ∧
    space tp m' ms' path' used' g' ∧ area_pages (areas ms') = area_pages (areas ms) ++ range_pages (mkRange (VPN l) (VPN r)) ∧
    grew m m' path path' free free' used used' (3 * Z.to_nat (r - l)) ∧ (∀ v, v ∈ area_pages (areas ms) → g' v = g v) ∧
    (∀ v, v ∈ area_pages (areas ms) → page_view m' ms' v = page_view m ms v) ∧
    (∀ v, v ∈ range_pages (mkRange (VPN l) (VPN r)) → page_view m' ms' v = Some (Z.lor perm PTE_V, zero_page) ∧ g' v ∈ free).
Proof.
  intros S Sp Erg Hperm Hl Hr Hdis Hsz. pose proof (f_equal rl Erg) as El. pose proof (f_equal rr Erg) as Er. cbn [rl rr] in El, Er. set (rg := mkRange (VPN l) (VPN r)) in *.
  assert (Hlen : length (range_pages rg) = Z.to_nat (r - l)) by (by rewrite length_range_pages).
  destruct (space_push tp a m ms path free used g rg perm Kernel_Stack S Sp Hperm) as (ms' & a' & m' & path' & free' & used' & ar & h & Hrun & S' & I & Sp' & Ep); [done|done|done|by rewrite Hlen|].
  exists ms', a', m', path', free', used'. eexists. split.
  { unfold insert_framed_area, MapArea_new, SimpleRange_new. rewrite El, Er. cbn [vpn].
    unfold assert_that. destruct (Z.leb_spec l r); [|lia]. repeat (rewrite outcome_bind_Done || cbn [mret outcome_ret]). exact Hrun. }
  split; [done|]. split; [exact Sp'|]. split; [done|].
  pose proof (in_sets _ _ _ _ _ _ _ _ _ _ _ _ _ _ I) as (Hsub & Hun & [Hus _] & _). pose proof (in_size _ _ _ _ _ _ _ _ _ _ _ _ _ _ I) as Hsize.
  rewrite Hlen in Hsize. split; [split; [exact (in_frame _ _ _ _ _ _ _ _ _ _ _ _ _ _ I)|done..]|].
  split; [intros v Hv; rewrite decide_False; [done|intros Hv'; by apply (Hdis v)]|]. split.
  - intros v (b & Hb & Hv)%elem_of_area_pages. assert (Hin : v ∈ area_pages (areas ms)) by (apply elem_of_area_pages; by exists b).
    assert (Hb' : b ∈ areas ms') by (rewrite (in_areas _ _ _ _ _ _ _ _ _ _ _ _ _ _ I); apply elem_of_app; by left).
    rewrite (view_area tp m' ms' _ _ _ b v Sp' Hb' Hv), (view_area tp m ms _ _ _ b v Sp Hb Hv).
    destruct (space_page tp _ _ _ _ _ _ Sp Hin) as (_ & _ & _ & _ & _ & _ & Hu & Hp & _).
    rewrite decide_False by (intros Hv'; by apply (Hdis v)).
    assert (Hnf : g v ∉ free) by (intros Hf; by apply (fa_disjoint _ _ _ (ps_alloc _ _ _ _ _ _ _ S) (g v))).
    destruct (in_frame _ _ _ _ _ _ _ _ _ _ _ _ _ _ I (g v) Hnf Hp) as [-> _]. done.
  - intros v Hv. assert (Har : ar ∈ areas ms') by (rewrite (in_areas _ _ _ _ _ _ _ _ _ _ _ _ _ _ I); apply elem_of_app; right; by left).
    assert (Hv' : v ∈ range_pages (vpn_range ar)) by by rewrite (in_rg _ _ _ _ _ _ _ _ _ _ _ _ _ _ I).
    destruct (in_new _ _ _ _ _ _ _ _ _ _ _ _ _ _ I v Hv) as [Hf Hz].
    rewrite (view_area tp m' ms' _ _ _ ar v Sp' Har Hv'). rewrite decide_True by done.
    rewrite Hz, (h_perm _ _ _ _ _ _ _ (in_held _ _ _ _ _ _ _ _ _ _ _ _ _ _ I)). done.
Qed.

(** The space of the new process: the program, the stack and the trap context. *)
Lemma new_space_memory parse_elf (a : A) m free used elf_data elf n :
  fa_inv a free used → wf_memory m → (∀ f, f ∈ free → is_Some (m !! f) ∧ 0 ≤ ppn f < 2 ^ 44) → tp ∉ free →
  program_ok parse_elf elf_data elf n → (3 * length (seg_pages (elf_headers elf)) + 12 ≤ size free)%nat →
  let base := (n + 1) * PAGE_SIZE in
  ∃ us0 a1 m1 us a2 m2 path free2 used2 g,
    from_elf parse_elf sym (mkMm a m) elf_data = Done (us0, base, elf_entry elf, mkMm a1 m1) ∧
    alloc_user_res (mkTaskUserRes 0 base) us0 (mkMm a1 m1) = Done (us, mkMm a2 m2) ∧
    pt_state a2 m2 (root_ppn (page_table us)) (pt_frames (page_table us)) path free2 used2 ∧ space tp m2 us path used2 g ∧
    area_pages (areas us) = seg_pages (elf_headers elf) ++ stack_pages n ++ [TRAP_VPN] ∧ (∀ v, v ∈ area_pages (areas us) → g v ∈ free) ∧
    grew m m2 ∅ path free free2 used used2 (3 * length (seg_pages (elf_headers elf)) + 12) ∧
    image_shown m2 us elf_data (elf_headers elf) ∧ ∀ v, v ∈ stack_pages n → page_view m2 us v = Some (23, zero_page).
Proof.
  intros I Hwf Hfree Htf [Im (ph & Hlast & En) Hhigh Hroom] Hsz base.
  destruct (from_elf_spec sym tp parse_elf a m free used elf_data elf Hsym Htp I Hwf Hfree Im) as
    (us0 & a1 & m1 & path1 & free1 & used1 & g1 & base' & Hrun & S1 & Sp1 & Ep1 & G1 & O1 & Hsh & Hbase); [lia|].
  specialize (Hbase ph Hlast). rewrite <- En in Hbase. fold base in Hbase. subst base'. pose proof (ge_size _ _ _ _ _ _ _ _ _ G1) as Hs1.
  assert (Er1 : ustack_region base 0 = mkRange (VPN (n + 1)) (VPN (n + 3))).
  { unfold base. change PAGE_SIZE with 4096. rewrite (proj2 (ustack_region_eq (n + 1) 0 ltac:(lia) ltac:(lia) ltac:(lia))). do 2 f_equal; lia. }
  assert (Er2 : trap_cx_region 0 = mkRange (VPN (2 ^ 27 - 2)) (VPN (2 ^ 27 - 1))) by by rewrite (proj2 (trap_cx_region_eq 0 ltac:(lia) ltac:(lia))).
  assert (Est : range_pages (mkRange (VPN (n + 1)) (VPN (n + 3))) = stack_pages n).
  { unfold range_pages, stack_pages. cbn [rl rr vpn]. replace (n + 3 - (n + 1)) with 2 by lia. rewrite (seqZ_cons (n + 1)), (seqZ_cons (Z.succ (n + 1))), seqZ_nil by lia. cbn. do 3 f_equal. lia. }
  assert (Etr : range_pages (mkRange (VPN (2 ^ 27 - 2)) (VPN (2 ^ 27 - 1))) = [TRAP_VPN]) by reflexivity.
  destruct (space_insert a1 m1 us0 path1 free1 used1 g1 (VirtAddr_from (ustack_bottom_from_tid base 0)) (VirtAddr_from (u64 (ustack_bottom_from_tid base 0 + USER_STACK_SIZE)))
    (Z.lor (Z.lor MapPermission_R MapPermission_W) MapPermission_U) (n + 1) (n + 3) S1 Sp1 Er1) as (us1 & a2 & m2 & path2 & free2 & used2 & g2 & Hr2 & S2 & Sp2 & Ep2 & G2 & O2 & V2 & N2); [done|lia|lia| |lia|].
  { rewrite Ep1, Est. intros v Hv Hs. apply Hhigh in Hs. unfold stack_pages in Hv. apply elem_of_cons in Hv as [->|[->|Hv]%elem_of_cons]; [cbn in Hs; lia..|by apply not_elem_of_nil in Hv]. }
  rewrite Est in Ep2, N2. replace (Z.to_nat (n + 3 - (n + 1))) with 2%nat in G2 by lia. pose proof (ge_size _ _ _ _ _ _ _ _ _ G2) as Hs2.
  destruct (space_insert a2 m2 us1 path2 free2 used2 g2 (VirtAddr_from (trap_cx_bottom_from_tid 0)) (VirtAddr_from (u64 (trap_cx_bottom_from_tid 0 + PAGE_SIZE)))
    (Z.lor MapPermission_R MapPermission_W) (2 ^ 27 - 2) (2 ^ 27 - 1) S2 Sp2 Er2) as (us2 & a3 & m3 & path3 & free3 & used3 & g3 & Hr3 & S3 & Sp3 & Ep3 & G3 & O3 & V3 & N3); [done|lia|lia| |change (Z.to_nat (2 ^ 27 - 1 - (2 ^ 27 - 2))) with 1%nat; lia|].
  { rewrite Ep2, Ep1, Etr. intros v ->%list_elem_of_singleton [Hs|Hs]%elem_of_app; [apply Hhigh in Hs; cbn in Hs; lia|].
    unfold stack_pages in Hs. apply elem_of_cons in Hs as [E|[E|Hs]%elem_of_cons]; [apply (f_equal vpn) in E; cbn in E; lia..|by apply not_elem_of_nil in Hs]. }
  rewrite Etr in Ep3, N3. change (Z.to_nat (2 ^ 27 - 1 - (2 ^ 27 - 2))) with 1%nat in G3.
  assert (G : grew m m3 ∅ path3 free free3 used used3 (3 * length (seg_pages (elf_headers elf)) + 12)).
  { destruct (grew_trans _ _ _ _ _ _ _ _ _ _ _ _ _ _ (grew_trans _ _ _ _ _ _ _ _ _ _ _ _ _ _ G1 G2) G3) as [K F U W Z]. split; [done..|lia]. }
  exists us0, a1, m1, us2, a3, m3, path3, free3, used3, g3. split; [done|]. split.
  { unfold alloc_user_res. cbn [tur_ustack_base tur_tid]. rewrite Hr2, outcome_bind_Done. exact Hr3. }
  do 2 (split; [done|]). split; [by rewrite Ep3, Ep2, Ep1, <- app_assoc|].
  assert (Hseg : ∀ v, v ∈ seg_pages (elf_headers elf) → page_view m3 us2 v = page_view m1 us0 v).
  { intros v Hv. rewrite V3 by (rewrite Ep2, Ep1; apply elem_of_app; by left). apply V2. by rewrite Ep1. }
  split; [|split; [done|split]].
  - pose proof (ge_free _ _ _ _ _ _ _ _ _ G1) as F1. pose proof (ge_free _ _ _ _ _ _ _ _ _ G2) as F2.
    intros v Hv. rewrite Ep3 in Hv. apply elem_of_app in Hv as [Hv|Hv]; [|by apply F1, F2, N3]. rewrite O3 by done.
    rewrite Ep2 in Hv. apply elem_of_app in Hv as [Hv|Hv]; [rewrite O2 by done; by apply O1|by apply F1, N2].
  - intros p k Hp Hk. destruct (Hsh p k Hp Hk) as (b & Hv & Hb). exists b. split; [|done]. rewrite Hseg; [done|].
    unfold seg_pages. apply list_elem_of_bind. exists p. split; [|done]. apply range_pages_spec.
    pose proof (io_segments _ _ _ Im) as Hok. rewrite Forall_forall in Hok. pose proof (Hok p Hp) as Hs. destruct (seg_range_eq _ _ Hs) as [El Er]. destruct Hs as [Hal Hm Hfl].
    rewrite El, Er. cbn [vpn]. change PAGE_SIZE with 4096 in *. clear -Hal Hm Hk. dlia.
  - intros v Hv. rewrite V3 by (rewrite Ep2; apply elem_of_app; by right). by destruct (N2 v Hv) as [-> _].
Qed.

(** The memory of [ProcessControlBlock::new]. *)
Lemma new_process_memory parse_elf (a : A) m ks pk free used kids elf_data elf n :
  pt_state a m (root_ppn (page_table ks)) (pt_frames (page_table ks)) pk free used → tp ∉ free ∪ used →
  let id := (RecycleAllocator_alloc kids).1 in 0 ≤ id → 3 * (id + 1) < 2 ^ 26 →
  (∀ v, v ∈ range_pages (kstack_region id) → mapping m (page_table ks) v = None) →
  program_ok parse_elf elf_data elf n → (3 * length (seg_pages (elf_headers elf)) + 18 ≤ size free)%nat →
  let base := (n + 1) * PAGE_SIZE in
  ∃ us0 a1 m1 us a2 m2 ks' a3 m3 path pk' free' used' g h,
    from_elf parse_elf sym (mkMm a m) elf_data = Done (us0, base, elf_entry elf, mkMm a1 m1) ∧
    alloc_user_res (mkTaskUserRes 0 base) us0 (mkMm a1 m1) = Done (us, mkMm a2 m2) ∧
    trap_cx_ppn (mkTaskUserRes 0 base) us (mkMm a2 m2) = Done (g TRAP_VPN) ∧
    kstack_alloc kids ks (mkMm a2 m2) = Done (id, (RecycleAllocator_alloc kids).2, ks', mkMm a3 m3) ∧
    root_ppn (page_table ks') = root_ppn (page_table ks) ∧
    area_pages (areas us) = seg_pages (elf_headers elf) ++ stack_pages n ++ [TRAP_VPN] ∧ (∀ v, v ∈ area_pages (areas us) → g v ∈ free) ∧
    ∀ cx, cx_ok cx → ∃ m4,
      write_trap_cx m3 (g TRAP_VPN) cx = Done m4 ∧ read_trap_cx m4 (g TRAP_VPN) = Done cx ∧
      space tp m4 us path used' g ∧ pt_state a3 m4 (root_ppn (page_table ks')) (pt_frames (page_table ks')) pk' free' used' ∧
      (∀ v, 0 ≤ vpn v < 2 ^ 27 → mapping m4 (page_table ks') v =
         if decide (v ∈ range_pages (kstack_region id)) then Some (PTE_new (h v) (Z.lor RW PTE_V)) else mapping m (page_table ks) v) ∧
      image_shown m4 us elf_data (elf_headers elf) ∧ (∀ v, v ∈ stack_pages n → page_view m4 us v = Some (23, zero_page)).
Proof.
  intros K Ht id Hid Hidb Hnone P Hsz base. apply not_elem_of_union in Ht as [Ht Ht'].
  pose proof (ps_alloc _ _ _ _ _ _ _ K) as I. pose proof (fa_disjoint _ _ _ I) as Hd. pose proof (ps_used _ _ _ _ _ _ _ K) as Hpk.
  destruct (new_space_memory parse_elf a m free used elf_data elf n I (tr_wf _ _ _ (ps_tree _ _ _ _ _ _ _ K)) (ps_free _ _ _ _ _ _ _ K) Ht P) as
    (us0 & a1 & m1 & us & a2 & m2 & path & free2 & used2 & g & Hr1 & Hr2 & S2 & Sp2 & Ep & Hgf & G & Hsh & Hst); [lia|].
  pose proof (ge_size _ _ _ _ _ _ _ _ _ G) as Hs2. pose proof (fa_disjoint _ _ _ (ps_alloc _ _ _ _ _ _ _ S2)) as Hd2.
  assert (Hin : TRAP_VPN ∈ area_pages (areas us)) by (rewrite Ep, !elem_of_app; right; right; by left).
  (* the kernel's space, then the kernel stack *)
  assert (Hk1 : ∀ p, p ∉ free → m2 !! p = m !! p) by (intros p Hp; by apply (ge_kept _ _ _ _ _ _ _ _ _ G)).
  assert (Hk2 : ∀ p x, pk !! p = Some x → m2 !! p = m !! p).
  { intros p x Hx. apply Hk1. intros Hf. apply (Hd p Hf), Hpk. by eapply elem_of_dom_2. }
  assert (K2 : pt_state a2 m2 (root_ppn (page_table ks)) (pt_frames (page_table ks)) pk free2 used2).
  { eapply (pt_state_outside a); [exact K|apply S2|apply G|apply S2|apply S2|]. intros p Hp _. by apply Hk1. }
  destruct (kstack_alloc_spec a2 m2 ks pk free2 used2 kids K2) as (ks' & a3 & m3 & pk' & free3 & used3 & ar & h & Hstack & S3 & Ik); [done|done| |lia|].
  { intros v Hv. rewrite (outside_mapping m m2 _ pk (ps_tree _ _ _ _ _ _ _ K) (tr_wf _ _ _ (ps_tree _ _ _ _ _ _ _ S2)) Hk2 ks.(page_table) v eq_refl). by apply Hnone. }
  fold id in Hstack, Ik. destruct (in_sets _ _ _ _ _ _ _ _ _ _ _ _ _ _ Ik) as (_ & _ & [Hu3 _] & Hpp).
  pose proof (tr_wf _ _ _ (ps_tree _ _ _ _ _ _ _ S3)) as Hwf3.
  assert (Hnk : ∀ p, p ∈ used2 → p ∉ used → p ∉ dom pk) by (intros p _ Hp Hx; by apply Hp, Hpk).
  assert (Hkeep : ∀ p, p ∈ used2 → p ∉ dom pk → m3 !! p = m2 !! p ∧ pk' !! p = None).
  { intros p Hp Hn. apply (in_frame _ _ _ _ _ _ _ _ _ _ _ _ _ _ Ik); [intros Hf; by apply (Hd2 p)|by apply not_elem_of_dom]. }
  assert (Hmem : ∀ p, p ∈ used2 → is_Some (m2 !! p) → is_Some (m3 !! p)).
  { intros p Hp Hm. destruct (decide (p ∈ dom pk)) as [[x Hx]%elem_of_dom|Hn]; [|by rewrite (proj1 (Hkeep p Hp Hn))].
    apply (tr_mem _ _ _ (ps_tree _ _ _ _ _ _ _ S3) p x). by eapply lookup_weaken. }
  (* the space's frames and tables are new, so they are none of the kernel's *)
  assert (Hnew : ∀ p, p ∈ dom path → p ∉ dom pk).
  { intros p Hp Hx. destruct (decide (p ∈ free)) as [Hf|Hf]; [by apply (Hd p Hf), Hpk|].
    destruct (ge_kept _ _ _ _ _ _ _ _ _ G p Hf (lookup_empty _)) as [_ Hn]. apply elem_of_dom in Hp as [x Hx']. by rewrite Hn in Hx'. }
  assert (Hgk : ∀ v, v ∈ area_pages (areas us) → g v ∈ used2 ∧ m3 !! g v = m2 !! g v ∧ pk' !! g v = None).
  { intros v Hv. destruct (space_page tp _ _ _ _ _ _ Sp2 Hv) as (_ & _ & _ & _ & _ & _ & Hu & _). split; [done|]. apply Hkeep; [done|].
    intros Hx. by apply (Hd (g v) (Hgf v Hv)), Hpk. }
  assert (Hpath3 : ∀ p, p ∈ dom path → m3 !! p = m2 !! p) by (intros p Hp; apply Hkeep; [by apply (sp_tables _ _ _ _ _ _ Sp2)|by apply Hnew]).
  assert (Htp3 : m3 !! tp = m2 !! tp).
  { apply (in_frame _ _ _ _ _ _ _ _ _ _ _ _ _ _ Ik); [intros Hf; by apply Ht, (ge_free _ _ _ _ _ _ _ _ _ G)|]. apply not_elem_of_dom. intros Hx. by apply Ht', Hpk. }
  pose proof (space_frame tp Htp m2 m3 us path used2 used3 g Sp2 Hwf3 Hu3 Hpath3 Hmem) as Sp3.
  assert (V3 : ∀ v, 0 ≤ vpn v < 2 ^ 27 → page_view m3 us v = page_view m2 us v).
  { intros v Hv. apply (view_frame tp Htp m2 m3 us path used2 g Sp2 Hwf3 Hpath3 Htp3 v); [intros Hi; by apply Hgk|done]. }
  (* the trap context *)
  destruct (Hgk TRAP_VPN Hin) as (HuT & HmT & HkT). destruct (space_page tp _ _ _ _ _ _ Sp3 Hin) as (_ & _ & _ & _ & _ & _ & _ & HpT & [pg Hpg] & _).
  assert (Hne : g TRAP_VPN ≠ tp) by (intros E; apply Ht; rewrite <- E; by apply Hgf).
  exists us0, a1, m1, us, a2, m2, ks', a3, m3, path, pk', free3, used3, g, h. do 2 (split; [done|]). split; [by eapply trap_cx_ppn_spec|].
  split; [done|]. split; [apply Ik|]. do 2 (split; [done|]). intros cx Hcx.
  destruct (write_trap_cx_spec m3 _ cx pg Hpg (map_Forall_lookup_1 _ _ _ _ Hwf3 Hpg) Hcx) as (pg4 & Hw4 & Hwf4 & Hr4).
  exists (<[g TRAP_VPN := pg4]> m3). split; [done|]. split; [apply Hr4, lookup_insert_eq|].
  assert (HnT : g TRAP_VPN ∉ dom path) by by apply not_elem_of_dom.
  destruct (space_write tp Htp m3 us path used3 g (g TRAP_VPN) pg4 Sp3 (mk_is_Some _ _ Hpg) HnT Hne Hwf4) as [Sp4 V4]. split; [exact Sp4|].
  assert (Hwf4' : wf_memory (<[g TRAP_VPN := pg4]> m3)) by by apply map_Forall_insert_2.
  assert (Hpk4 : ∀ p x, pk' !! p = Some x → <[g TRAP_VPN := pg4]> m3 !! p = m3 !! p).
  { intros p x Hx. apply lookup_insert_ne. intros <-. by rewrite HkT in Hx. }
  split.
  { apply (pt_state_write a3 m3); [exact S3|apply (outside_tree m3); [apply S3|done|exact Hpk4]|apply dom_insert_lookup_L; by eexists]. }
  assert (Hview : ∀ v, 0 ≤ vpn v < 2 ^ 27 → v ≠ TRAP_VPN → page_view (<[g TRAP_VPN := pg4]> m3) us v = page_view m2 us v).
  { intros v Hv Hvt. rewrite <- V3 by done. apply V4; [done|]. intros Hi E. apply Hvt. by apply (sp_inj _ _ _ _ _ _ Sp3). }
  split; [|split].
  - intros v Hv. rewrite (outside_mapping m3 _ _ pk' (ps_tree _ _ _ _ _ _ _ S3) Hwf4' Hpk4 _ v eq_refl).
    rewrite (in_map _ _ _ _ _ _ _ _ _ _ _ _ _ _ Ik v Hv). case_decide; [done|].
    apply (outside_mapping m m2 _ pk (ps_tree _ _ _ _ _ _ _ K) (tr_wf _ _ _ (ps_tree _ _ _ _ _ _ _ S2)) Hk2 _ v eq_refl).
  - intros ph k Hp Hk. destruct (Hsh ph k Hp Hk) as (b & Hv & Hb). exists b. split; [|done]. rewrite <- Hv.
    assert (Hr : 0 ≤ (ph_virtual_addr ph + k) / PAGE_SIZE < 2 ^ 26).
    { pose proof (io_segments _ _ _ (po_image _ _ _ _ P)) as Hok. rewrite Forall_forall in Hok. destruct (Hok ph Hp) as [_ Hm _]. change PAGE_SIZE with 4096 in *. clear - Hm Hk. dlia. }
    apply Hview; [cbn [vpn]; lia|]. intros [= E]. lia.
  - intros v Hv. rewrite <- (Hst v Hv). pose proof (po_room _ _ _ _ P) as Hro.
    unfold stack_pages in Hv. apply elem_of_cons in Hv as [->|[->|Hv]%elem_of_cons]; [apply Hview; [cbn [vpn]; lia|intros [= E]; lia]..|by apply not_elem_of_nil in Hv].
Qed.
End memory.

(** ** [ProcessControlBlock::new], run forwards *)

Section create.
Context {A H F : Type} `{FrameAllocatorLaws A} `{BinaryHeap H}.
Context (sym : Symbols) (parse_elf : list Z → option ElfFile) (trap_handler sstatus : Z).
Context (tp : PhysPageNum) (Htp : 0 ≤ ppn tp < 2 ^ 44) (Hsym : PhysPageNum_of_addr (PhysAddr_from (strampoline sym)) = Done tp).
Notation Kernel := (Kernel (A := A) (H := H) (F := F)).
Implicit Types k : Kernel.

(** The first thread of a process, with a stack and a trap context of its own. *)
Lemma first_thread_new_run k c q base us mm2 ppn ks r sp mm1 : procs k !! c = Some q → task_res_allocator q = RecycleAllocator_new →
  alloc_user_res (mkTaskUserRes 0 base) (memory_set q) (mm k) = Done (us, mm2) →
  trap_cx_ppn (mkTaskUserRes 0 base) us mm2 = Done ppn → kstack_alloc (kstacks k) (kernel_space k) mm2 = Done (ks, r, sp, mm1) →
  let t := fresh (dom (tcbs k)) in
  TaskControlBlock_new c base true k = Done (t,
    mkKernel (<[c := set_space q us (mkRecycle 1 [])]> (procs k)) (<[t := mkTask c ks (Some (mkTaskUserRes 0 base)) ppn None None]> (tcbs k))
      (pid2pcb k) (pids k) r sp mm1 (mkSleep (timers (sleep k)) (set_status (sl_sched (sleep k)) t Ready)) (initproc k) (waiting k) (pinned k)).
Proof.
  intros Hq Hr Ha Hp Hk t. unfold TaskControlBlock_new.
  assert (E1 : on_space c (λ tids ms mm, TaskUserRes_new tids ms mm base true) k =
    Done (mkTaskUserRes 0 base, set_procs (set_mm k mm2) (<[c := set_space q us (mkRecycle 1 [])]> (procs k)))).
  { unfold on_space. erewrite kbind_run by by apply get_proc_run. erewrite kbind_run by done. rewrite Hr.
    erewrite kbind_run; last first.
    { apply klift_run. unfold TaskUserRes_new. change (RecycleAllocator_alloc RecycleAllocator_new) with (0, mkRecycle 1 []). cbv beta iota. rewrite Ha, outcome_bind_Done. reflexivity. }
    cbv beta iota. erewrite kbind_run by done. done. }
  erewrite kbind_run by exact E1.
  erewrite kbind_run by (apply get_proc_run; kred; apply lookup_insert_eq).
  erewrite kbind_run by done. erewrite kbind_run by (apply klift_run; cbn [memory_set set_space]; kred; exact Hp).
  erewrite kbind_run by (apply klift_run; kred; exact Hk). done.
Qed.

(** The process and the thread it has. *)
Definition new_process (pid_ : Z) (us : MemorySet) (stdio : list (option F)) (t : nat) : Pcb (F := F) :=
  mkPcb pid_ [] [] us (mkTree false None [] 0) stdio (mkProcSignals 0 0 (-1) SignalActions_default false false) [Some t] (mkRecycle 1 []) no_sync.

Lemma app_init_context_ok entry sp token top : 0 ≤ sstatus < 2 ^ 64 → 0 ≤ trap_handler < 2 ^ 64 →
  0 ≤ entry < 2 ^ 64 → 0 ≤ sp < 2 ^ 64 → 0 ≤ token < 2 ^ 64 → 0 ≤ top < 2 ^ 64 →
  cx_ok (app_init_context sstatus entry sp token top trap_handler).
Proof.
  intros Hs Ht He Hsp Hto Htop. unfold app_init_context. apply (words_ok_set _ 2); [|done]. split; [done|].
  unfold TrapContext_words. cbn [tc_x tc_sstatus tc_sepc tc_kernel_satp tc_kernel_sp tc_trap_handler]. apply Forall_app. split.
  - apply Forall_replicate. split; [done|by vm_compute].
  - change (8 * Z.of_nat 8) with 64. apply Forall_cons. split; [by apply clear_bound|]. by repeat (apply Forall_cons; split; [done|]).
Qed.

(** The tokens of page tables and the tops of stacks are words. *)
Lemma token_range pt : 0 ≤ ppn (root_ppn pt) < 2 ^ 44 → 0 ≤ PageTable_token pt < 2 ^ 64.
Proof.
  intros Hr. unfold PageTable_token. replace (Z.lor (u64 (Z.shiftl 8 60)) (ppn (root_ppn pt))) with (2 ^ 63 + ppn (root_ppn pt)); [lia|].
  change (u64 (Z.shiftl 8 60)) with (2 ^ 63). apply Z.add_nocarry_lor. apply Z.bits_inj'. intros i Hi.
  rewrite Z.land_spec, Z.bits_0, Z.pow2_bits_eqb by done. destruct (Z.eqb_spec 63 i) as [<-|]; [|done]. rewrite (testbit_high 44) by lia. done.
Qed.

(** The whole of [new]. *)
Lemma new_process_run k stdio elf_data us0 base entry a1 m1 us a2 m2 g ks' a3 m3 m4 :
  let id := (RecycleAllocator_alloc (kstacks k)).1 in let pid_ := (RecycleAllocator_alloc (pids k)).1 in
  let c := fresh (dom (procs k)) in let t := fresh (dom (tcbs k)) in
  from_elf parse_elf sym (mm k) elf_data = Done (us0, base, entry, mkMm a1 m1) →
  alloc_user_res (mkTaskUserRes 0 base) us0 (mkMm a1 m1) = Done (us, mkMm a2 m2) →
  trap_cx_ppn (mkTaskUserRes 0 base) us (mkMm a2 m2) = Done g →
  kstack_alloc (kstacks k) (kernel_space k) (mkMm a2 m2) = Done (id, (RecycleAllocator_alloc (kstacks k)).2, ks', mkMm a3 m3) →
  write_trap_cx m3 g (app_init_context sstatus entry (ustack_top (mkTaskUserRes 0 base)) (MemorySet_token ks') (KernelStack_get_top id) trap_handler) = Done m4 →
  ProcessControlBlock_new sym parse_elf trap_handler sstatus stdio elf_data k = Done (c,
    mkKernel (<[c := new_process pid_ us stdio t]> (procs k)) (<[t := mkTask c id (Some (mkTaskUserRes 0 base)) g None None]> (tcbs k))
      (<[pid_ := c]> (pid2pcb k)) (RecycleAllocator_alloc (pids k)).2 (RecycleAllocator_alloc (kstacks k)).2 ks' (mkMm a3 m4)
      (mkSleep (timers (sleep k)) (add_task (set_status (sl_sched (sleep k)) t Ready) t)) (initproc k) (waiting k) (pinned k)).
Proof.
  intros id pid_ c t Hf Ha Hp Hk Hw. destruct k as [prs tks p2p pds kst ksp [al m] [tm sc] ini wai pin].
  cbn [procs tcbs pid2pcb pids kstacks kernel_space mm sleep initproc waiting pinned timers sl_sched mm_alloc mm_mem] in *.
  unfold ProcessControlBlock_new. erewrite kbind_run by done. erewrite kbind_run by (apply klift_run; exact Hf). cbv beta iota. erewrite kbind_run by done.
  erewrite kbind_run by apply pid_alloc_run. erewrite kbind_run by done. kred. fold pid_ c.
  set (q := mkPcb pid_ [] [] us0 (mkTree false None [] 0) stdio (mkProcSignals 0 0 (-1) SignalActions_default false false) [] RecycleAllocator_new no_sync).
  erewrite kbind_run by apply put_proc_run. kred.
  erewrite kbind_run; [|eapply (first_thread_new_run _ c q base us (mkMm a2 m2)); kred; [apply lookup_insert_eq|done|exact Ha|exact Hp|exact Hk]]. kred. fold t.
  erewrite kbind_run by (apply get_task_run; kred; apply lookup_insert_eq). cbn [tk_res tk_kstack]. erewrite kbind_run by done.
  erewrite kbind_run by (unfold init_context, kernel_token; erewrite kbind_run by (erewrite kbind_run by done; reflexivity); reflexivity). kred.
  erewrite kbind_run by (eapply put_trap_cx_run; kred; [apply lookup_insert_eq|exact Hw]). kred.
  erewrite kbind_run by (apply upd_proc_run; kred; apply lookup_insert_eq). kred.
  unfold insert_pid. erewrite kbind_run by (erewrite kbind_run by done; reflexivity). kred.
  unfold k_add_task. erewrite kbind_run by (erewrite kbind_run by done; reflexivity). kred.
  rewrite !insert_insert_eq. reflexivity.
Qed.
End create.

(** ** The start *)

(** Where the linker script puts the trampoline. *)
Lemma trampoline_frame sym : linked sym → ekernel sym ≤ MEMORY_END →
  let tp := PPN (strampoline sym / 4096) in
  PhysPageNum_of_addr (PhysAddr_from (strampoline sym)) = Done tp ∧ 0 ≤ ppn tp < 2 ^ 44 ∧ tp ∉ kernel_frames sym.
Proof.
  intros L He tp. destruct (linked_pages sym L He) as (t & st & rd & d & e & Es & _ & _ & _ & Ee & Ho). unfold tp. rewrite Es, div_page. split; [|split].
  - unfold PhysPageNum_of_addr, PhysAddr_from, PhysAddr_page_offset, PhysAddr_floor. rewrite mask_land, page_offset_eq by done. cbn [pa].
    change PA_WIDTH_SV39 with 56. rewrite Z.mod_small by lia. rewrite (Z.mul_comm 4096), Z.mod_mul by done. cbn. do 2 f_equal. by apply Z.div_mul.
  - cbn. lia.
  - rewrite elem_of_kernel_frames, Ee, div_page. cbn. lia.
Qed.

Lemma kernel_pages_of_thread id v : 0 ≤ id → 3 * (id + 1) < 2 ^ 26 →
  v ∈ range_pages (kstack_region id) → 2 ^ 26 < vpn v < 2 ^ 27 - 1.
Proof. intros Hi Hb. rewrite (proj2 (kstack_region_eq id Hi Hb)), range_pages_spec. cbn [rl rr vpn]. lia. Qed.

(** No page of the upper half but the trampoline is the kernel's at first. *)
Lemma kernel_page_high sym v : linked sym → ekernel sym ≤ MEMORY_END → 2 ^ 26 < vpn v < 2 ^ 27 - 1 → kernel_page sym v = None.
Proof.
  intros L He Hv. unfold kernel_page. rewrite decide_False by (intros ->; cbn in Hv; lia).
  assert (region_perm (kernel_regions sym) (vpn v) = None) as ->; [|done]. apply region_perm_None, Forall_forall. intros r Hr Hin.
  destruct (kernel_page_region sym r v L He Hr Hin) as [_ Hb]. lia.
Qed.

Lemma device_init_done r : ∃ r', device_init r = Done (r', true).
Proof.
  unfold device_init. rewrite !set_threshold_Done, !outcome_bind_Done by lia. rewrite set_threshold_Done, !outcome_bind_Done by lia.
  set (r1 := reg_write _ _ _). destruct (enable_sources_spec [5; 6; 8; 10] r1) as (r' & E & _); [repeat constructor; lia|].
  exists r'. by rewrite E, outcome_bind_Done.
Qed.

(** [open_app] of the file. *)
Lemma open_app_file efs total D T path i bs fuel : geometry efs total → represents efs total D T →
  walk T 0 (path_names path) = Some i → T !! i = Some (FileNode bs) → is_Some (T !! 0) → zlen bs ≤ max_size → zlen bs / 512 + 2 ≤ Z.of_nat fuel →
  open_app efs (root_inode efs) D fuel path = Done (Some (Some bs)).
Proof.
  intros Ge R Hw Hi H0 Hb Hf. destruct (open_read_does efs total Ge T i path bs fuel Hw Hi Hb Hf H0 D R) as (D' & Hr & _).
  unfold open_app. change (root_inode efs) with (inode efs 0). rewrite BlockProg.run_bind in Hr. rewrite BlockProg.run_bind. revert Hr.
  destruct (BlockProg.run (open_file efs (inode efs 0) path RDONLY) ∅ D) as [[o|] c D1|]; [|done..]. cbn [unwrap lift mbind prog_bind BlockProg.run]. intros Hr.
  rewrite BlockProg.run_bind. change (BlockProg.run (read_all fuel o) c D1 = FDone (Some (bs, mkOSInode true false (zlen bs) (inode efs i))) ∅ D') in Hr. by rewrite Hr.
Qed.

(** ** The listing *)

Lemma sort_names_perm l : sort_names l ≡ₚ l.
Proof.
  assert (Hi : ∀ x l, insert_name x l ≡ₚ x :: l).
  { intros x l'. induction l' as [|y l' IH]; cbn [insert_name]; [done|]. destruct (name_le x y); [done|]. rewrite IH. by apply Permutation_swap. }
  induction l as [|x l IH]; [done|]. cbn [sort_names foldr]. fold (sort_names l). by rewrite Hi, IH.
Qed.

(** A name that [find] looks up as it is. *)
Definition plain_name (name : list Z) : Prop := name ≠ [] ∧ 47 ∉ name.

Lemma split_plain name : 47 ∉ name → ∀ cur, split_path name cur = [cur ++ name].
Proof.
  induction name as [|c name IH]; intros Hn cur; cbn [split_path]; [by rewrite app_nil_r|]. apply not_elem_of_cons in Hn as [Hc Hn].
  destruct (Z.eqb_spec c 47); [congruence|]. by rewrite IH, <- app_assoc.
Qed.

Lemma path_names_plain name : plain_name name → path_names (path_file [47] name) = [name].
Proof.
  intros [Hne Hn]. unfold path_file. rewrite bool_decide_true by done. cbn [app]. unfold path_names. cbn [split_path Z.eqb].
  rewrite split_plain by done. cbn [app]. change (47 =? 47)%positive with true. cbv iota. rewrite !filter_cons. rewrite decide_False by (intros E; by apply E). by rewrite decide_True.
Qed.

Lemma assoc_name_in es name : name ∈ es.*1 → ∃ i, assoc name es = Some i ∧ (name, i) ∈ es.
Proof.
  induction es as [|[s i] es IH]; cbn [fmap list_fmap]; intros Hn; [by apply not_elem_of_nil in Hn|]. cbn [assoc fst] in *. case_bool_decide as E.
  - subst s. exists i. split; [done|by left].
  - apply elem_of_cons in Hn as [->|Hn]; [done|]. destruct (IH Hn) as (j & ? & ?). exists j. split; [done|by right].
Qed.

(** The names of the root directory in order, each with the size of what it names. *)
Definition listing (T : fs_tree) (es : list (list Z * Z)) : list (list Z * Z) :=
  (λ name, (name, from_option node_size 0 (walk T 0 [name] ≫= λ i, T !! i))) <$> sort_names es.*1.

Lemma list_files_does efs total (Ge : geometry efs total) T es : tree_wf T → T !! 0 = Some (DirNode es) → Forall plain_name es.*1 →
  does efs total T (list_files efs (root_inode efs) [47]) (listing T es) T.
Proof.
  intros W H0 Hp. change (root_inode efs) with (inode efs 0). unfold list_files.
  eapply does_bind; [by apply (does_found efs total Ge T 0 [47] 0); [rewrite H0|reflexivity]|]. cbn [unwrap].
  eapply does_bind; [apply does_lift|]. eapply does_bind; [by apply (does_ls efs total Ge)|]. cbv beta iota. unfold listing.
  assert (Hin : ∀ name, name ∈ sort_names es.*1 → name ∈ es.*1) by (intros name; by rewrite sort_names_perm).
  induction (sort_names es.*1) as [|name names IH]; [apply does_ret|]. cbn [list_sizes fmap list_fmap].
  pose proof (Hin name ltac:(by left)) as Hname. pose proof (proj1 (Forall_forall _ _) Hp name Hname) as Hpl.
  assert (Hw : ∃ i n, walk T 0 [name] = Some i ∧ T !! i = Some n).
  { cbn [walk]. rewrite H0. destruct (assoc_name_in es name Hname) as (i & Ei & He). rewrite Ei. cbn.
    destruct (tw_target _ W 0 es (name, i) H0 He) as [n Hn]. by exists i, n. }
  destruct Hw as (i & n & Hw & Hn). rewrite Hw. cbn [mbind option_bind]. rewrite Hn. cbn [from_option].
  eapply does_bind; [apply (does_found efs total Ge T 0 _ i); [by rewrite H0|by rewrite path_names_plain]|]. cbn [unwrap].
  eapply does_bind; [apply does_lift|]. eapply does_bind; [by apply (get_size_does efs total Ge)|].
  eapply does_bind; [apply IH; intros x Hx; apply Hin; by right|]. apply does_ret.
Qed.

Lemma on_disk_does {X} efs total T (p : prog X) x T' D : does efs total T p x T' → represents efs total D T →
  ∃ D', on_disk p D = Done (x, D') ∧ represents efs total D' T'.
Proof. intros Hd R. destruct (Hd D R) as (D' & E & R'). exists D'. unfold on_disk. by rewrite E. Qed.

(** ** The drivers *)

Section drivers.
Context {G I Q : Type} `{VirtioDrivers G I Q} `{VirtIOBlk Q}.
Notation Hal := (Hal StackFrameAllocator).

(** The devices' frames are not the kernel's tables. *)
Lemma dma_keeps_table (h h' : Hal) free used n fs ks pk :
  pt_state (hal_alloc h) (hal_mem h) (root_ppn (page_table ks)) (pt_frames (page_table ks)) pk free used → dma_taken h h' free used n fs →
  pt_state (hal_alloc h') (hal_mem h') (root_ppn (page_table ks)) (pt_frames (page_table ks)) pk (free ∖ list_to_set fs) (list_to_set fs ∪ used) ∧
  (∀ v, mapping (hal_mem h') (page_table ks) v = mapping (hal_mem h) (page_table ks) v) ∧ (size free = size (free ∖ list_to_set fs) + Z.to_nat n)%nat.
Proof.
  intros S [[F I' Z O _] N C _]. pose proof (ps_tree _ _ _ _ _ _ _ S) as T. assert (Hwf : wf_memory (hal_mem h')).
  { intros p x Hx. destruct (decide (p ∈ fs)) as [Hp|Hp]; [|rewrite O in Hx by done; by apply (tr_wf _ _ _ T p x)].
    rewrite Z in Hx by done. injection Hx as <-. apply zero_page_wf. }
  assert (Hk : ∀ p x, pk !! p = Some x → hal_mem h' !! p = hal_mem h !! p).
  { intros p x Hx. apply O. intros Hp%F. apply (fa_disjoint _ _ _ (ps_alloc _ _ _ _ _ _ _ S) p Hp), (ps_used _ _ _ _ _ _ _ S). by eapply elem_of_dom_2. }
  split; [|split].
  - eapply (pt_state_outside (hal_alloc h)); [exact S|exact I'|set_solver|exact Hwf| |].
    + intros f [Hf Hn]%elem_of_difference. rewrite O by (by rewrite elem_of_list_to_set in Hn). by apply (ps_free _ _ _ _ _ _ _ S).
    + intros p _ [x Hx]%not_eq_None_Some. by eapply Hk.
  - intros v. by apply (outside_mapping (hal_mem h) _ _ pk T Hwf Hk).
  - assert (Hs : list_to_set fs ⊆ free) by (intros p Hp%elem_of_list_to_set; by apply F).
    pose proof (subseteq_size _ _ Hs) as Hle. rewrite size_difference by done. rewrite size_list_to_set in * by done. unfold zlen in C. lia.
Qed.

(** The GPU, the keyboard and the mouse, and then the disk: [h3] is where [remap_test] is run. *)
Lemma devices_set_up bmp dma (h : Hal) free used ks pk : devices_ok (G := G) (I := I) (Q := Q) bmp dma → nothing_freed (hal_alloc h) → queue_frames h = [] →
  pt_state (hal_alloc h) (hal_mem h) (root_ppn (page_table ks)) (pt_frames (page_table ks)) pk free used → dma ≤ Z.of_nat (size free) →
  ∃ (g : VirtIOGpuWrapper G) h1 (kb : VirtIOInputWrapper I) h2 (mouse : VirtIOInputWrapper I) h3 free3 used3 (block : VirtIOBlock Q) h4 fs,
    VirtIOGpuWrapper_new bmp h = Done (g, h1) ∧ VirtIOInputWrapper_new VIRTIO6 h1 = Done (kb, h2) ∧ VirtIOInputWrapper_new VIRTIO5 h2 = Done (mouse, h3) ∧
    pt_state (hal_alloc h3) (hal_mem h3) (root_ppn (page_table ks)) (pt_frames (page_table ks)) pk free3 used3 ∧
    (∀ v, mapping (hal_mem h3) (page_table ks) v = mapping (hal_mem h) (page_table ks) v) ∧
    BLOCK_DEVICE_new h3 = Done (block, h4) ∧
    pt_state (hal_alloc h4) (hal_mem h4) (root_ppn (page_table ks)) (pt_frames (page_table ks)) pk (free ∖ list_to_set fs) (list_to_set fs ∪ used) ∧
    (∀ v, mapping (hal_mem h4) (page_table ks) v = mapping (hal_mem h) (page_table ks) v) ∧
    queue_frames h4 = (λ p, mkTracker p false) <$> fs ∧ NoDup fs ∧ zlen fs = dma ∧ (∀ p, p ∈ fs → p ∈ free) ∧ (size free = size (free ∖ list_to_set fs) + Z.to_nat dma)%nat.
Proof.
  intros (n1 & n2 & n3 & n4 & [P1 U1]%gpu_sets_up & [P2 U2]%input_sets_up & [P3 U3]%input_sets_up & [P4 U4]%block_sets_up & ->) Hr Hq S Hsz.
  destruct (U1 h free used (ps_alloc _ _ _ _ _ _ _ S) Hr (ps_free _ _ _ _ _ _ _ S)) as (g & h1 & fs1 & E1 & _ & T1); [lia|].
  destruct (dma_keeps_table h h1 free used n1 fs1 ks pk S T1) as (S1 & M1 & Z1).
  destruct (U2 h1 _ _ (ps_alloc _ _ _ _ _ _ _ S1) (dt_freed _ _ _ _ _ _ T1) (ps_free _ _ _ _ _ _ _ S1)) as (kb & h2 & fs2 & E2 & _ & T2); [lia|].
  destruct (dma_keeps_table h1 h2 _ _ n2 fs2 ks pk S1 T2) as (S2 & M2 & Z2).
  destruct (U3 h2 _ _ (ps_alloc _ _ _ _ _ _ _ S2) (dt_freed _ _ _ _ _ _ T2) (ps_free _ _ _ _ _ _ _ S2)) as (mouse & h3 & fs3 & E3 & _ & T3); [lia|].
  destruct (dma_keeps_table h2 h3 _ _ n3 fs3 ks pk S2 T3) as (S3 & M3 & Z3).
  destruct (U4 h3 _ _ (ps_alloc _ _ _ _ _ _ _ S3) (dt_freed _ _ _ _ _ _ T3) (ps_free _ _ _ _ _ _ _ S3)) as (block & h4 & fs4 & E4 & _ & T4); [lia|].
  pose proof (dma_taken_app _ _ _ _ _ _ _ _ _ T1 (dma_taken_app _ _ _ _ _ _ _ _ _ T2 (dma_taken_app _ _ _ _ _ _ _ _ _ T3 T4))) as T.
  replace (n1 + (n2 + (n3 + n4))) with (n1 + n2 + n3 + n4) in T by lia. destruct (dma_keeps_table h h4 _ _ _ _ ks pk S T) as (S4 & M4 & Z4).
  eexists g, h1, kb, h2, mouse, h3, _, _, block, h4, _. do 3 (split; [done|]). split; [exact S3|]. split; [intros v; by rewrite M3, M2, M1|].
  split; [done|]. split; [exact S4|]. split; [exact M4|]. split; [by rewrite (dg_queue _ _ _ _ _ (dt_got _ _ _ _ _ _ T)), Hq|].
  split; [apply T|]. split; [apply T|]. split; [apply T|exact Z4].
Qed.
End drivers.

(** The first process, alone in the kernel, with the image loaded into a space of its own; [dma] are frames
    it must not have. *)
Definition first_process {H F} (sym : Symbols) (trap_handler sstatus : Z) (stdio : list (option F)) (elf_data : list Z) (elf : ElfFile) (n : Z)
    (dma : list PhysPageNum) (k : Kernel (A := StackFrameAllocator) (H := H) (F := F)) : Prop :=
  ∃ a p t x,
    (initproc k = a ∧ procs k = {[a := p]} ∧ pid p = 0 ∧ pid2pcb k = {[0 := a]} ∧ fd_table p = stdio ∧ tasks p = [Some t]) ∧
    (tcbs k = {[t := x]} ∧ tk_process x = a ∧ task_status (sl_sched (sleep k)) !! t = Some Ready ∧ ready_queue (sl_sched (sleep k)) = [t]) ∧
    get_trap_cx t k = Done (app_init_context sstatus (elf_entry elf) ((n + 3) * PAGE_SIZE) (MemorySet_token (kernel_space k)) TRAMPOLINE trap_handler, k) ∧
    image_shown (mm_mem (mm k)) (memory_set p) elf_data (elf_headers elf) ∧
    (∀ v, v ∈ stack_pages n → page_view (mm_mem (mm k)) (memory_set p) v = Some (23, zero_page)) ∧
    area_pages (areas (memory_set p)) = seg_pages (elf_headers elf) ++ stack_pages n ++ [TRAP_VPN] ∧
    (∃ path used g, space (PPN (strampoline sym / 4096)) (mm_mem (mm k)) (memory_set p) path used g ∧ ∀ v, v ∈ area_pages (areas (memory_set p)) → g v ∉ dma).

(** [add_initproc] on the kernel's first state. *)
Lemma add_initproc_boots {H F : Type} `{BinaryHeap H} sym parse_elf trap_handler sstatus (a0 : StackFrameAllocator) m0 ks pk free used dma (stdio : list (option F))
    efs D elf_data elf n fuel :
  linked sym → ekernel sym ≤ MEMORY_END → 0 ≤ sstatus < 2 ^ 64 → 0 ≤ trap_handler < 2 ^ 64 → 0 ≤ elf_entry elf < 2 ^ 64 →
  pt_state a0 m0 (root_ppn (page_table ks)) (pt_frames (page_table ks)) pk free used → PPN (strampoline sym / 4096) ∉ free ∪ used →
  (∀ v, 0 ≤ vpn v < 2 ^ 27 → mapping m0 (page_table ks) v = kernel_page sym v) → (∀ p, p ∈ dma → p ∉ free) →
  open_app efs (root_inode efs) D fuel initproc_name = Done (Some (Some elf_data)) →
  program_ok parse_elf elf_data elf n → (3 * length (seg_pages (elf_headers elf)) + 18 ≤ size free)%nat →
  ∃ k : Kernel (A := StackFrameAllocator) (H := H) (F := F),
    add_initproc sym parse_elf trap_handler sstatus stdio efs (root_inode efs) D fuel (kernel_statics ks (mkMm a0 m0)) = Done (Some (initproc k), k) ∧
    booted sym parse_elf trap_handler sstatus k ∧ first_process sym trap_handler sstatus stdio elf_data elf n dma k ∧
    (∃ h, ∀ v, 0 ≤ vpn v < 2 ^ 27 → mapping (mm_mem (mm k)) (page_table (kernel_space k)) v =
       if decide (v ∈ range_pages (kstack_region 0)) then Some (PTE_new (h v) (Z.lor RW PTE_V)) else kernel_page sym v).
Proof.
  intros L He' Hss Hth Hen S Hnt Hmap Hdma Happ P Hsz.
  destruct (trampoline_frame sym L He') as (Hsym & Htp & _). set (tp := PPN (strampoline sym / 4096)) in *.
  destruct (new_process_memory sym tp Htp Hsym parse_elf a0 m0 ks pk free used RecycleAllocator_new elf_data elf n S) as
    (us0 & a1 & m1 & us & a2 & m2 & ks' & a3 & m3 & path & pk' & free' & used' & g & h & Hr1 & Hr2 & Hr3 & Hr4 & Hroot & Ep & Hgf & Hcx).
  { exact Hnt. }
  { done. }
  { done. }
  { intros v Hv. pose proof (kernel_pages_of_thread 0 v ltac:(done) ltac:(done) Hv) as Hv'. rewrite Hmap by lia. by apply kernel_page_high. }
  { exact P. }
  { lia. }
  change ((RecycleAllocator_alloc RecycleAllocator_new).1) with 0 in *.
  pose proof (po_room _ _ _ _ P) as Hn.
  assert (Htop : ustack_top (mkTaskUserRes 0 ((n + 1) * PAGE_SIZE)) = (n + 3) * PAGE_SIZE).
  { unfold ustack_top, ustack_bottom_from_tid. cbn [tur_ustack_base tur_tid]. change PAGE_SIZE with 4096. change USER_STACK_SIZE with 8192.
    rewrite (wrap_small 64 (0 * _)) by lia. rewrite (wrap_small 64 ((n + 1) * 4096 + _)) by lia. rewrite wrap_small by lia. lia. }
  assert (Hrt : 0 ≤ ppn (root_ppn (page_table ks')) < 2 ^ 44).
  { rewrite Hroot. exact (proj2 (tr_mem _ _ _ (ps_tree _ _ _ _ _ _ _ S) _ _ (tr_root _ _ _ (ps_tree _ _ _ _ _ _ _ S)))). }
  destruct (Hcx (app_init_context sstatus (elf_entry elf) ((n + 3) * PAGE_SIZE) (MemorySet_token ks') TRAMPOLINE trap_handler)) as
    (m4 & Hw4 & Hr5 & Sp & S4 & Hm4 & Hsh & Hst).
  { apply app_init_context_ok; [done..| | |done]; [change PAGE_SIZE with 4096; lia|by apply token_range]. }
  pose proof (new_process_run (F := F) (H := H) sym parse_elf trap_handler sstatus (kernel_statics ks (mkMm a0 m0)) stdio elf_data us0 _ _ a1 m1 us a2 m2 (g TRAP_VPN) ks' a3 m3 m4 Hr1 Hr2 Hr3 Hr4) as Hnew.
  rewrite Htop in Hnew. specialize (Hnew Hw4). set (k0 := kernel_statics (F := F) (H := H) ks (mkMm a0 m0)) in *. set (a := fresh (dom (procs k0))) in *. set (t := fresh (dom (tcbs k0))) in *.
  match type of Hnew with _ = Done (_, ?k) => set (k1 := k) in * end.
  assert (Hadd : add_initproc sym parse_elf trap_handler sstatus stdio efs (root_inode efs) D fuel k0 = Done (Some a, set_initproc k1 a)).
  { unfold add_initproc. erewrite kbind_run by (apply klift_run; exact Happ). cbv beta iota. erewrite kbind_run by (apply klift_run; reflexivity).
    erewrite kbind_run by exact Hnew. erewrite kbind_run by done. erewrite kbind_run by done. done. }
  exists (set_initproc k1 a). split; [exact Hadd|]. split; [by eapply (add_initproc_booted _ _ _ _ stdio efs (root_inode efs) D fuel k0)|]. split.
  - eexists a, _, t, _. split; [do 5 (split; [done|]); done|]. split; [split; [done|split; [done|split; [apply lookup_insert_eq|done]]]|].
    split; [eapply get_trap_cx_run; [apply lookup_insert_eq|exact Hr5]|].
    split; [exact Hsh|]. split; [exact Hst|]. split; [exact Ep|]. exists path, used', g. split; [exact Sp|]. intros v Hv Hd. by apply (Hdma (g v) Hd), Hgf.
  - exists h. intros v Hv. transitivity (if decide (v ∈ range_pages (kstack_region 0)) then Some (PTE_new (h v) (Z.lor RW PTE_V)) else mapping m0 (page_table ks) v); [by apply Hm4|].
    case_decide; [done|]. by apply Hmap.
Qed.

(** What [list_files] and then [open_app] find on the disk. *)
Lemma disk_at_boot efs total T es D i bs fuel : geometry efs total → represents efs total D T → T !! 0 = Some (DirNode es) → Forall plain_name es.*1 →
  walk T 0 (path_names initproc_name) = Some i → T !! i = Some (FileNode bs) → zlen bs ≤ max_size → zlen bs / 512 + 2 ≤ Z.of_nat fuel →
  on_disk open_fs D = Done (efs, D) ∧ ∃ D', on_disk (list_files efs (root_inode efs) [47]) D = Done (listing T es, D') ∧
    open_app efs (root_inode efs) D' fuel initproc_name = Done (Some (Some bs)).
Proof.
  intros Ge R H0 Hp Hw Hi Hb Hf. split; [unfold on_disk; by rewrite (open_run efs D (re_super _ _ _ _ R))|].
  destruct (on_disk_does _ _ _ _ _ _ D (list_files_does efs total Ge T es (re_wf _ _ _ _ R) H0 Hp) R) as (D' & E & R').
  exists D'. split; [exact E|]. by eapply open_app_file.
Qed.

(** C4. The kernel boots.  With the kernel linked as the linker script says, devices the driver crate can set
    up with [dma] pages and a readable bitmap for the cursor, enough memory behind the kernel for these and the first
    process, and on the disk a file system whose [/initproc] is a program that can be loaded (and
    whose root directory's names can be looked up), [rust_main] reaches [run_tasks] without a panic: the serial
    port is initialised, the four devices are set up on [dma] distinct frames, kept for ever, the memory
    test passes, trap entry, interrupts and the first tick are set, and what is listed is every name of the root directory,
    sorted, with its size.  There is exactly one process, with pid 0, the three standard streams and one
    thread, which is ready and alone in the queue.  Its address space shows every byte of the program's
    segments with their permissions, two cleared pages of stack and the trap context, on frames of its own,
    none a device's, and the trampoline; the trap context enters the program at its entry point with the stack pointer at the
    stack's top, on a kernel stack right under the trampoline.  The kernel's space is the one of
    [kernel_page] and that stack. *)
Theorem kernel_boots {H F G I Q HW : Type} `{BinaryHeap H} `{VirtioDrivers G I Q} `{VirtIOBlk Q} `{Uart16550 HW}
    sym parse_elf trap_handler sstatus alltraps alltraps_k trap_from_kernel bmp (m : memory) r (hw : HW) time (stdio : list (option F))
    dma efs total T es D i elf_data elf n fuel :
  linked sym → srodata sym < erodata sym → wf_memory m → devices_ok (G := G) (I := I) (Q := Q) bmp dma →
  (∀ p, ekernel sym / 4096 ≤ ppn p < MEMORY_END / 4096 → is_Some (m !! p)) →
  ekernel sym + (91 + dma + 3 * zlen (seg_pages (elf_headers elf))) * PAGE_SIZE ≤ MEMORY_END →
  0 ≤ sstatus < 2 ^ 64 → 0 ≤ trap_handler < 2 ^ 64 → 0 ≤ elf_entry elf < 2 ^ 64 →
  geometry efs total → represents efs total D T → T !! 0 = Some (DirNode es) → Forall plain_name es.*1 →
  walk T 0 (path_names initproc_name) = Some i → T !! i = Some (FileNode elf_data) →
  zlen elf_data ≤ max_size → zlen elf_data / 512 + 2 ≤ Z.of_nat fuel → program_ok parse_elf elf_data elf n →
  ∃ s : Started F H G I Q HW, let k := st_kernel s in
    rust_main sym parse_elf trap_handler sstatus alltraps alltraps_k trap_from_kernel bmp m r hw time stdio D fuel = Done (Some s) ∧
    (device_init r = Done (st_plic s, true) ∧ st_sie s = (true, true) ∧ st_timer s = set_next_trigger time ∧
     st_stvec s = trap_init alltraps alltraps_k trap_from_kernel ∧ st_uart s = uart_init (NS16550a_new hw) ∧ st_nonblocking s = true) ∧
    (zlen (st_queue_frames s) = dma ∧ NoDup (ft_ppn <$> st_queue_frames s)) ∧
    (st_efs s = efs ∧ st_listed s = listing T es) ∧
    booted sym parse_elf trap_handler sstatus k ∧
    first_process sym trap_handler sstatus stdio elf_data elf n (ft_ppn <$> st_queue_frames s) k ∧
    (∃ h, ∀ v, 0 ≤ vpn v < 2 ^ 27 → mapping (mm_mem (mm k)) (page_table (kernel_space k)) v =
       if decide (v ∈ range_pages (kstack_region 0)) then Some (PTE_new (h v) (Z.lor RW PTE_V)) else kernel_page sym v).
Proof.
  intros L Hro Hwf Hdev Hm He Hss Hth Hen Ge R Hes Hpl Hw Hi Hb Hf P. change PAGE_SIZE with 4096 in He.
  assert (Hlen : 0 ≤ zlen (seg_pages (elf_headers elf))) by apply Nat2Z.is_nonneg. pose proof (devices_ok_nonneg _ _ Hdev) as Hdma.
  assert (He' : ekernel sym ≤ MEMORY_END) by lia.
  destruct (trampoline_frame sym L He') as (_ & _ & Hnt). destruct (linked_pages sym L He') as (t0 & st0 & rd0 & d0 & e & _ & _ & _ & _ & Ee & Ho).
  assert (Hsz : 91 + dma + 3 * Z.of_nat (length (seg_pages (elf_headers elf))) ≤ Z.of_nat (size (kernel_frames sym))).
  { rewrite size_kernel_frames, Ee, div_page in *. change (MEMORY_END / 4096) with 0x88000. change MEMORY_END with (4096 * 0x88000) in He. unfold zlen in *. lia. }
  assert (Hfr : ∀ f, f ∈ kernel_frames sym → is_Some (m !! f) ∧ 0 ≤ ppn f < 2 ^ 44).
  { intros f Hf'%elem_of_kernel_frames. split; [by apply Hm|]. rewrite Ee, div_page in Hf'. change (MEMORY_END / 4096) with 0x88000 in Hf'. lia. }
  destruct (new_kernel_spec sym (init_frame_allocator sym Stack_new) m (kernel_frames sym) ∅ L He' (init_frame_allocator_spec sym L He') Hwf Hfr ltac:(lia))
    as (ks & a0 & m0 & pk & free & used & Hks & S & Hmap & Hsub & Hun & Hc & _). rewrite (left_id_L ∅ (∪)) in Hun.
  pose proof (new_kernel_freed _ _ _ _ Hks eq_refl) as Hnf.
  destruct (devices_set_up bmp dma (mkHal a0 m0 []) free used ks pk Hdev Hnf eq_refl S) as
    (gp & h1 & kb & h2 & mo & h3 & free3 & used3 & bl & h4 & fs & E1 & E2 & E3 & S3 & M3 & E4 & S4 & M4 & Eq & Hnd & Hcnt & Hin & Hs4); [lia|].
  assert (Hmap3 : ∀ v, 0 ≤ vpn v < 2 ^ 27 → mapping (hal_mem h3) (page_table ks) v = kernel_page sym v) by (intros v Hv; rewrite M3; by apply Hmap).
  pose proof (remap_test_passes sym ks _ _ pk free3 used3 L Hro ltac:(lia) S3 Hmap3) as Hremap.
  destruct (device_init_done r) as (r' & Hd).
  destruct (disk_at_boot efs total T es D i elf_data fuel Ge R Hes Hpl Hw Hi Hb Hf) as (Ho1 & D' & Ho2 & Happ).
  assert (Eft : ft_ppn <$> queue_frames h4 = fs) by (rewrite Eq, <- list_fmap_compose; apply list_fmap_id).
  destruct (add_initproc_boots (H := H) (F := F) sym parse_elf trap_handler sstatus _ _ ks pk _ _ fs stdio efs D' elf_data elf n fuel L He' Hss Hth Hen S4)
    as (k & Hadd & Hbk & Hfp & Hks'); [| | |exact Happ|exact P|lia|].
  { intros Ht. apply Hnt. rewrite <- Hun. assert (Hs : list_to_set fs ⊆ free) by (intros p Hp%elem_of_list_to_set; by apply Hin). clear - Ht Hs. set_solver. }
  { intros v Hv. rewrite M4. by apply Hmap. }
  { intros p Hp [_ Hn]%elem_of_difference. by apply Hn, elem_of_list_to_set. }
  eexists (mkStarted k r' (true, true) _ _ _ gp kb mo bl (queue_frames h4) efs (listing T es) true). cbn [st_kernel st_plic st_sie st_timer st_stvec st_uart st_nonblocking st_queue_frames st_efs st_listed].
  split.
  { unfold rust_main, mm_init. rewrite Hks, !outcome_bind_Done. cbv beta iota zeta. cbn [mm_alloc mm_mem].
    rewrite E1, outcome_bind_Done, E2, outcome_bind_Done, E3, outcome_bind_Done. cbv beta iota zeta. cbn [hal_alloc hal_mem]. rewrite Hremap, outcome_bind_Done. cbv beta iota zeta. rewrite Hd, outcome_bind_Done.
    rewrite E4, outcome_bind_Done, Ho1, outcome_bind_Done, Ho2, outcome_bind_Done, Hadd, outcome_bind_Done. reflexivity. }
  split; [done|]. rewrite Eft. split; [split; [by rewrite <- Hcnt, Eq; unfold zlen; rewrite length_fmap|exact Hnd]|].
  do 3 (split; [done|]). exact Hks'.
Qed.

(** A disk with one program, a segment of five bytes at [0x10000]. *)
Module BootWitness.
Definition image : list Z := [1; 2; 3; 4; 5; 6].
Definition ph : ProgramHeader := mkPh true 0x10000 5 2 3 true false true.
Definition elf : ElfFile := mkElf [0x7f; 0x45; 0x4c; 0x46] [ph] 0x10000.
Definition requests : list request := [QCreate 0 initproc_name File; QWrite 1 0 image].

(** Drivers that ask for two pages of each queue, 1000 for the framebuffer and four for the cursor. *)
#[local] Instance drivers : VirtioDrivers Z Z BlkWitness.Disk := {
  gpu_new header := mkCall [2; 2] (λ addrs, head addrs);
  gpu_setup_framebuffer g := mkCall [1000] (λ addrs, addr ← head addrs; Some (addr, 1280 * 800 * 4, g));
  gpu_setup_cursor g image x y hot_x hot_y := mkCall [4] (λ addrs, Some g);
  input_new header := mkCall [2; 2] (λ addrs, head addrs);
  blk_new header := mkCall [2] (λ addrs, Some (BlkWitness.Idle));
}.
#[local] Existing Instances BlkWitness.disk UartWitness.soft_uart.

Lemma devices : devices_ok (G := Z) (I := Z) (Q := BlkWitness.Disk) (Some [255; 255; 255; 0; 0; 0]) 1018.
Proof.
  assert (Hp : Forall (λ n, 0 < n) [2; 2]) by (repeat constructor).
  exists 1008, 4, 4, 2. split; [|split; [|split; [|split; [|done]]]].
  - eexists _, 4, 1000, 4. split; [done|]. do 3 (split; [done|]). split; [done|]. split; [done|]. intros [|x addrs] E; [done|]. exists x. split; [done|].
    split; [repeat constructor|]. split; [done|]. intros [|y addrs'] E'; [done|]. eexists. split; [done|].
    split; [repeat constructor|]. split; [done|]. intros addrs2 _. by eexists.
  - split; [done|]. split; [done|]. intros [|x addrs] E; [done|]. by exists x.
  - split; [done|]. split; [done|]. intros [|x addrs] E; [done|]. by exists x.
  - split; [repeat constructor|]. split; [done|]. intros addrs _. by eexists.
Qed.

Lemma disk : ∃ D T, represents (created 2000 1) 2000 D T ∧ T !! 0 = Some (DirNode [(initproc_name, 1)]) ∧ T !! 1 = Some (FileNode image).
Proof.
  assert (Hr : create_ok 2000 1) by (split; lia). destruct (create_represents 2000 1 Hr blank_disk blank_disk_blocks) as (D1 & _ & R).
  destruct (serve_refines (created 2000 1) 2000 (created_geometry 2000 1 Hr) requests D1 empty_tree R) as (rs & T & D2 & Ha & _ & R2); [apply (bool_decide_unpack _); vm_compute; exact I|].
  exists D2, T. split; [exact R2|].
  assert (E : snd <$> fs_applys empty_tree requests = Some T) by (rewrite Ha; reflexivity). vm_compute in E. injection E as <-. by vm_compute.
Qed.

Lemma program : program_ok (λ _, Some elf) image elf 0x11.
Proof.
  split.
  - split; [done|done|repeat (apply Forall_cons; split; [by split|]); by apply Forall_nil|done| |apply NoDup_singleton].
    apply Forall_singleton. split; [reflexivity|by vm_compute|by vm_compute].
  - exists ph. split; [done|by vm_compute].
  - intros v ->%list_elem_of_singleton. done.
  - done.
Qed.

Definition start (m : memory) (D : gmap Z block) : outcome (option (Started unit (list TimerCondVar) Z Z BlkWitness.Disk UartWitness.Soft)) :=
  rust_main KernelWitness.sym (λ _, Some elf) 0 0 0x80200000 0x80200100 0x80200200 (Some [255; 255; 255; 0; 0; 0]) m ∅ (UartWitness.mkSoft [] []) 1000 [] D 2.
End BootWitness.

#[local] Existing Instances BootWitness.drivers BlkWitness.disk UartWitness.soft_uart.

Lemma kernel_boots_witness :
  ∃ m D s p t b, let k := st_kernel s in
    BootWitness.start m D = Done (Some s) ∧ length (st_queue_frames s) = 1018%nat ∧ st_listed s = [(initproc_name, 6)] ∧
    procs k = {[initproc k := p]} ∧ ready_queue (sl_sched (sleep k)) = [t] ∧
    get_trap_cx t k = Done (app_init_context 0 0x10000 0x14000 (MemorySet_token (kernel_space k)) TRAMPOLINE 0, k) ∧
    page_view (mm_mem (mm k)) (memory_set p) (VPN 0x10) = Some (27, b) ∧ b !! 2%nat = Some 5 ∧
    mapping (mm_mem (mm k)) (page_table (kernel_space k)) (VPN 0x80200) = Some (PTE_new (PPN 0x80200) 11).
Proof.
  destruct KernelWitness.memory_there as (m & Hwf & Hm). destruct BootWitness.disk as (D & T & R & H0 & Hi).
  assert (Hl : listing T [(initproc_name, 1)] = [(initproc_name, 6)]) by (unfold listing; cbn [fmap list_fmap fst sort_names foldr insert_name walk]; rewrite H0; cbn [assoc]; rewrite bool_decide_true by done; cbn; by rewrite Hi).
  destruct (kernel_boots (H := list TimerCondVar) (F := unit) (G := Z) (I := Z) (Q := BlkWitness.Disk) KernelWitness.sym (λ _, Some BootWitness.elf) 0 0 0x80200000 0x80200100 0x80200200
    (Some [255; 255; 255; 0; 0; 0]) m ∅ (UartWitness.mkSoft [] []) 1000 [] 1018 (created 2000 1) 2000 T [(initproc_name, 1)] D 1 BootWitness.image BootWitness.elf 0x11 2)
    as (s & Hrun & _ & [Hc _] & [_ Hls] & _ & (a & p & t & x & (Ha & Hp & _) & (_ & _ & _ & Hq) & Hcx & Hsh & _) & (h & Hmap)).
  - apply KernelWitness.sym_linked.
  - done.
  - exact Hwf.
  - exact BootWitness.devices.
  - exact Hm.
  - by vm_compute.
  - done.
  - done.
  - done.
  - apply created_geometry. split; lia.
  - exact R.
  - exact H0.
  - apply Forall_singleton. split; [done|]. apply (bool_decide_unpack _). by vm_compute.
  - change (path_names initproc_name) with [initproc_name]. cbn [walk]. rewrite H0. cbn [assoc]. by rewrite bool_decide_true.
  - exact Hi.
  - by vm_compute.
  - by vm_compute.
  - apply BootWitness.program.
  - destruct (Hsh BootWitness.ph 2) as (b & Hv & Hb); [by left|by split|].
    exists m, D, s, p, t, b. split; [exact Hrun|]. split; [unfold zlen in Hc; lia|]. split; [by rewrite Hls|]. split; [by rewrite Ha|]. split; [exact Hq|]. split; [exact Hcx|]. split; [exact Hv|]. split; [exact Hb|].
    rewrite Hmap by (cbn; lia). rewrite decide_False by (vm_compute; intros Hin; repeat (apply elem_of_cons in Hin as [Hin|Hin]; [done|]); by apply not_elem_of_nil in Hin). by vm_compute.
Defined.
