(* ===== verification/Trap.v ===== *)
(** * Trap.v: the trap handler ([os/src/trap/mod.rs]) over the kernel's state

    A trap of a thread in two parts, between which the thread may have waited: [trap_begin] up to
    the system call or the switch, [trap_end] from there to user space.  The cause, the timer and
    what the devices do are arguments. *)

From S2P Require Import Prelude Bytes Address FrameAlloc PageTable MemorySet Fork Ids Sched Timer Signals Abi Kernel Process ProcessLife ForkReturns Plic.

(** [Trap] of the riscv crate. *)
Inductive Exception : Type :=
| UserEnvCall | StoreFault | StorePageFault | InstructionFault | InstructionPageFault | LoadFault | LoadPageFault
| IllegalInstruction | OtherException.
Inductive Interrupt : Type := SupervisorTimer | SupervisorExternal | OtherInterrupt.
Inductive Cause : Type := CException (e : Exception) | CInterrupt (i : Interrupt).

(** What a trap does first: a system call to make, nothing more, or the processor given up. *)
Inductive begun : Type := Call (h : Handler) | Continue | GaveUp.

(** How it ends: in user space, with the registers for [__restore]; still frozen, to look at the
    signals again later; or with the process. *)
Inductive trap_result : Type := ToUser (trap_cx_user_va user_satp : Z) | Frozen | Ended (e : exit_end).

Section trap.
Context {A H F : Type} `{FrameAllocator A} `{BinaryHeap H}.
Notation Kernel := (Kernel (A := A) (H := H) (F := F)).
Notation kop := (kop (A := A) (H := H) (F := F)).

Definition put_sigs (p : Pcb (F := F)) (s : SigState) : Pcb :=
  mkPcb (pid p) (app_name p) (working_dir p) (memory_set p) (tree p) (fd_table p)
    (mkProcSignals (signals s) (signal_mask s) (handling_sig s) (signal_actions s) (killed s) (frozen s))
    (tasks p) (task_res_allocator p) (sync_lists p).

(** An operation on the signals of the current process and the trap context of the running thread. *)
Definition on_signals {X} (f : SigState → outcome (SigState * X)) : kop X :=
  t ← current;
  x ← get_task t;
  p ← get_proc (tk_process x);
  cx ← get_trap_cx t;
  '(s, r) ← klift (f (sig_state p cx (tk_backup x)));
  put_proc (tk_process x) (put_sigs p s);;
  put_task t (mkTask (tk_process x) (tk_kstack x) (tk_res x) (tk_trap_cx_ppn x) (tk_exit_code x) (trap_ctx_backup s));;
  put_trap_cx t (trap_cx s);;
  mret r.

(** An operation on the signals of a process only. *)
Definition on_pending {X} (a : nat) (f : SigState → X * SigState) : kop X :=
  p ← get_proc a;
  let '(r, s) := f (sig_state p (mkTrap [] 0 0 0 0 0) None) in
  put_proc a (put_sigs p s);;
  mret r.

Definition add_signal (signal : Z) : kop unit := a ← current_process; on_pending a (λ s, (tt, current_add_signal s signal)).

(** [check_timer] and [suspend_current_and_run_next]; a thread of the timers has its resources. *)
Definition has_res (k : Kernel) (t : nat) : bool := match tcbs k !! t with Some x => bool_decide (is_Some (tk_res x)) | None => false end.

Definition k_check_timer (time : Z) : kop unit :=
  k ← get;
  o ← klift (check_timer (sleep k) time (has_res k));
  x ← klift (unwrap PInvalid o);
  put (set_sleep k x).

Definition k_suspend : kop unit :=
  k ← get;
  s ← klift (suspend_current (sl_sched (sleep k)));
  put (set_sched k s).

(** [trap_handler] as far as the call; [irq] is the board's [irq_handler]. *)
Definition trap_begin (irq : kop unit) (time : Z) (c : Cause) : kop begun :=
  match c with
  | CException UserEnvCall =>
      t ← current;
      cx ← get_trap_cx t;
      let cx := set_sepc cx (u64 (tc_sepc cx + 4)) in
      put_trap_cx t cx;;
      h ← klift (trap_syscall cx);
      mret (Call h)
  | CException (StoreFault | StorePageFault | InstructionFault | InstructionPageFault | LoadFault | LoadPageFault) =>
      add_signal SIGSEGV;; mret Continue
  | CException IllegalInstruction => add_signal SIGILL;; mret Continue
  | CInterrupt SupervisorTimer => k_check_timer time;; k_suspend;; mret GaveUp
  | CInterrupt SupervisorExternal => irq;; mret Continue
  | CException OtherException | CInterrupt OtherInterrupt => klift (Panicked PExplicit)
  end.

(** The result of the call goes to [a0]; the context may be another one, after [exec]. *)
Definition trap_call_done (result : Z) : kop unit :=
  t ← current;
  cx ← get_trap_cx t;
  put_trap_cx t (set_x cx 10 (u64 result)).

Definition trap_return : kop trap_result :=
  t ← current;
  x ← get_task t;
  res ← klift (unwrap PUnwrap (tk_res x));
  p ← get_proc (tk_process x);
  mret (ToUser (trap_cx_user_va res) (MemorySet_token (memory_set p))).

(** The end of [trap_handler]: the main thread looks at the signals. *)
Definition trap_end : kop trap_result :=
  t ← current;
  x ← get_task t;
  res ← klift (unwrap PUnwrap (tk_res x));
  if tur_tid res =? 0 then
    wait ← on_signals handle_signals_round;
    if wait : bool then k_suspend;; mret Frozen
    else
      p ← get_proc (tk_process x);
      match check_error (p_signals (sigs p)) with
      | Some errno => e ← exit_current errno; mret (Ended e)
      | None => trap_return
      end
  else trap_return.

(** [trap_from_kernel] *)
Definition trap_from_kernel (irq : kop unit) (time : Z) (c : Cause) : kop unit :=
  match c with
  | CInterrupt SupervisorExternal => irq
  | CInterrupt SupervisorTimer => k_check_timer time
  | _ => klift (Panicked PExplicit)
  end.

(** The board's [irq_handler] with the drivers' handlers on the kernel's state. *)
Definition board_irq (handle_irq : Device → Kernel → outcome Kernel) (claimed : Z → Z) (r : registers) : kop registers :=
  λ k, irq_handler handle_irq claimed r k.

(** ** The calls on signals, and those on the state of processes *)

Definition k_sys_kill (pid_ signum : Z) : kop Z :=
  k ← get;
  match pid2process (pid2pcb k) pid_ with
  | Some a => on_pending a (λ s, let '(r, o) := sys_kill (Some s) signum in (r, default s o))
  | None => mret (sys_kill None signum).1
  end.

Definition k_sys_sigprocmask (mask : Z) : kop Z := a ← current_process; on_pending a (λ s, sys_sigprocmask s mask).
Definition k_sys_sigreturn : kop Z := on_signals (λ s, '(r, s) ← sys_sigreturn s; mret (s, r)).

Definition k_sys_sleep (time ms : Z) : kop Z :=
  k ← get;
  x ← klift (sys_sleep (sleep k) time ms (has_res k));
  put (set_sleep k x);;
  mret 0.

(** ** Running it *)

(** The thread [t] has trapped with the context [cx]. *)
Record in_trap (k : Kernel) (t : nat) (x : Task) (p : Pcb (F := F)) (res : TaskUserRes) (cx : TrapContext) : Prop := {
  it_current : Sched.current (sl_sched (sleep k)) = Some t;
  it_task : tcbs k !! t = Some x;
  it_proc : procs k !! tk_process x = Some p;
  it_res : tk_res x = Some res;
  it_mem : wf_memory (mm_mem (mm k));
  it_cx : read_trap_cx (mm_mem (mm k)) (tk_trap_cx_ppn x) = Done cx;
}.

Definition with_backup (x : Task) (o : option TrapContext) : Task :=
  mkTask (tk_process x) (tk_kstack x) (tk_res x) (tk_trap_cx_ppn x) (tk_exit_code x) o.

Lemma current_run (k : Kernel) t : Sched.current (sl_sched (sleep k)) = Some t → Kernel.current k = Done (t, k).
Proof. intros E. unfold current. erewrite kbind_run by done. unfold current_task. by rewrite E. Qed.

Lemma write_back m q cx cx' : wf_memory m → read_trap_cx m q = Done cx → cx_ok cx' →
  ∃ m', write_trap_cx m q cx' = Done m' ∧ wf_memory m' ∧ read_trap_cx m' q = Done cx' ∧ (∀ r, r ≠ q → m' !! r = m !! r).
Proof.
  intros Hwf Hr Ok. destruct (m !! q) as [pg|] eqn:E; [|unfold read_trap_cx in Hr; by rewrite E in Hr].
  destruct (write_trap_cx_spec m q cx' pg E (map_Forall_lookup_1 _ _ _ _ Hwf E) Ok) as (pg' & Hw & Hpg & Hr').
  eexists. split; [exact Hw|]. split; [by apply map_Forall_insert_2|]. split; [apply Hr', lookup_insert_eq|].
  intros r Hne. by apply lookup_insert_ne.
Qed.

Lemma on_signals_run {X} (f : SigState → outcome (SigState * X)) k t x p res cx s r : in_trap k t x p res cx →
  f (sig_state p cx (tk_backup x)) = Done (s, r) → cx_ok (trap_cx s) →
  ∃ k', on_signals f k = Done (r, k') ∧ in_trap k' t (with_backup x (trap_ctx_backup s)) (put_sigs p s) res (trap_cx s) ∧
    (∀ b, b ≠ tk_process x → procs k' !! b = procs k !! b) ∧ sleep k' = sleep k.
Proof.
  intros [Hc Ht Hp Hr Hm Hcx] Hf Ok. destruct (write_back _ _ _ _ Hm Hcx Ok) as (m' & Hw & Hwf & Hr' & _).
  destruct k as [prs tks p2p pds kst ksp [al m] [tm sc] ini wai pin].
  cbn [procs tcbs pid2pcb pids kstacks kernel_space mm sleep initproc waiting pinned timers sl_sched mm_alloc mm_mem] in *.
  eexists. split; [|split].
  - unfold on_signals. erewrite kbind_run by by apply current_run. erewrite kbind_run by by apply get_task_run.
    erewrite kbind_run by by apply get_proc_run. erewrite kbind_run by by eapply get_trap_cx_run.
    erewrite kbind_run by (apply klift_run; exact Hf). cbv beta iota. erewrite kbind_run by apply put_proc_run. kred.
    erewrite kbind_run by reflexivity. kred. erewrite kbind_run by (eapply put_trap_cx_run; kred; [apply lookup_insert_eq|exact Hw]). kred. reflexivity.
  - split; kred; [done|apply lookup_insert_eq|apply lookup_insert_eq|done..].
  - kred. split; [|done]. intros b Hb. by apply lookup_insert_ne.
Qed.
Lemma on_pending_run {X} (f : SigState → X * SigState) (k : Kernel) a p : procs k !! a = Some p →
  let r := f (sig_state p (mkTrap [] 0 0 0 0 0) None) in
  on_pending a f k = Done (r.1, set_procs k (<[a := put_sigs p r.2]> (procs k))).
Proof.
  intros Hp r. unfold on_pending. erewrite kbind_run by by apply get_proc_run. fold r. by destruct r.
Qed.

Lemma running_process_run (k : Kernel) t x p res cx : in_trap k t x p res cx → current_process k = Done (tk_process x, k).
Proof.
  intros [Hc Ht _ _ _ _]. unfold current_process. erewrite kbind_run by by apply current_run.
  by erewrite kbind_run by by apply get_task_run.
Qed.

Lemma trap_return_run (k : Kernel) t x p res cx : in_trap k t x p res cx →
  trap_return k = Done (ToUser (trap_cx_user_va res) (MemorySet_token (memory_set p)), k).
Proof.
  intros [Hc Ht Hp Hr _ _]. unfold trap_return. erewrite kbind_run by by apply current_run.
  erewrite kbind_run by by apply get_task_run. rewrite Hr. erewrite kbind_run by done. by erewrite kbind_run by by apply get_proc_run.
Qed.

(** The signal of an exception that is the program's fault. *)
Definition fault_signal (e : Exception) : option Z :=
  match e with
  | StoreFault | StorePageFault | InstructionFault | InstructionPageFault | LoadFault | LoadPageFault => Some 11
  | IllegalInstruction => Some 4
  | UserEnvCall | OtherException => None
  end.

Lemma add_signal_run (k : Kernel) t x p res cx u : in_trap k t x p res cx →
  let p1 := put_sigs p (current_add_signal (sig_state p cx (tk_backup x)) u) in
  let k1 := set_procs k (<[tk_process x := p1]> (procs k)) in
  add_signal u k = Done (tt, k1) ∧ in_trap k1 t x p1 res cx.
Proof.
  intros I p1 k1. pose proof I as [Hc Ht Hp Hr Hm Hcx]. split.
  - unfold add_signal. erewrite kbind_run by by eapply running_process_run. by erewrite on_pending_run.
  - split; [done|done|apply lookup_insert_eq|done..].
Qed.

Lemma check_error_fault u : u ∈ [4; 11] → check_error (Z.shiftl 1 u) = Some (-u).
Proof. intros Hu. apply elem_of_cons in Hu as [->|Hu]; [done|]. by apply list_elem_of_singleton in Hu as ->. Qed.

(** What a round does to a process whose only pending signal is one of the program's faults. *)
Lemma fault_round s u : sig_ok s → u ∈ [4; 11] → signals s = Z.shiftl 1 u → killed s = false → frozen s = false →
  ∃ a, signal_actions s !! Z.to_nat u = Some a ∧
  handle_signals_round s = Done (
    if deliverable s u && negb (handler a =? 0) then
      mkSig 0 (signal_mask s) u (signal_actions s) false false (set_x (set_sepc (trap_cx s) (handler a)) 10 u) (Some (trap_cx s))
    else s, false).
Proof.
  intros Ok Hu Hs Hk Hf. assert (Hb : 0 ≤ u < 32 ∧ is_kernel_signal (Z.shiftl 1 u) = false).
  { by repeat (apply elem_of_cons in Hu as [->|Hu]); [..|by apply not_elem_of_nil in Hu]. }
  destruct Hb as [Hb Hker]. destruct (nth_in (signal_actions s) u 32) as (a & Ha & _); [apply Ok|lia|]. exists a. split; [done|].
  assert (Hlow : ∀ v, 0 ≤ v → v ≠ u → deliverable s v = false).
  { intros v Hv Hne. unfold deliverable. rewrite Hs, testbit_1_shiftl by lia. by destruct (Z.eqb_spec u v). }
  unfold handle_signals_round, check_pending_signals. change (MAX_SIG + 1) with 32. destruct (deliverable s u) eqn:Hd; cbn [andb].
  - rewrite (check_from_first s u 32 Ok 0) by (done || lia || (intros; apply Hlow; lia)). rewrite Hker.
    rewrite (call_user_spec s u a) by (done || lia). rewrite outcome_bind_Done.
    destruct (handler a =? 0); cbn [negb]; [by rewrite Hk, Hf|]. cbn [frozen killed]. by rewrite Hk, Hf, Hs, Z.lxor_nilpotent.
  - rewrite (check_from_none s 32 Ok 0); [by rewrite outcome_bind_Done, Hk, Hf|lia|].
    intros v Hv. destruct (decide (v = u)) as [->|]; [done|apply Hlow; lia].
Qed.

(** The handler that process [p] has for the signal [u], unless something masks it. *)
Definition fault_handler (p : Pcb (F := F)) (u : Z) : option Z :=
  if Z.testbit (p_signal_mask (sigs p)) u ||
     (if p_handling_sig (sigs p) =? -1 then false
      else Z.testbit (from_option sa_mask 0 (p_signal_actions (sigs p) !! Z.to_nat (p_handling_sig (sigs p)))) u)
  then None
  else a ← p_signal_actions (sigs p) !! Z.to_nat u; if handler a =? 0 then None else Some (handler a).

Definition quiet (p : Pcb (F := F)) : Prop :=
  p_signals (sigs p) = 0 ∧ p_killed (sigs p) = false ∧ p_frozen (sigs p) = false ∧
  length (p_signal_actions (sigs p)) = 32%nat ∧ (p_handling_sig (sigs p) = -1 ∨ 0 ≤ p_handling_sig (sigs p) < 32) ∧
  Forall (λ a, 0 ≤ handler a < 2 ^ 64) (p_signal_actions (sigs p)).

Lemma trap_begin_fault irq time (k : Kernel) t x p res cx e u : in_trap k t x p res cx → fault_signal e = Some u → quiet p →
  ∃ k1 p1, trap_begin irq time (CException e) k = Done (Continue, k1) ∧ in_trap k1 t x p1 res cx ∧ u ∈ [4; 11] ∧
    memory_set p1 = memory_set p ∧
    sigs p1 = mkProcSignals (Z.shiftl 1 u) (p_signal_mask (sigs p)) (p_handling_sig (sigs p)) (p_signal_actions (sigs p)) false false.
Proof.
  intros I Hf (Hs & Hk & Hz & _).
  assert (Hadd : ∀ w, fault_signal e = Some w → trap_begin irq time (CException e) = (add_signal (Z.shiftl 1 w);; mret Continue)).
  { intros w Hw. by destruct e; inversion Hw; subst. }
  destruct (add_signal_run k t x p res cx (Z.shiftl 1 u) I) as [E I1]. rewrite (Hadd u Hf).
  eexists _, _. split; [by erewrite kbind_run by exact E|]. split; [exact I1|]. split; [|split; [done|]].
  - destruct e; inversion Hf; subst; set_solver.
  - cbn [sigs put_sigs current_add_signal set_signals sig_state signals signal_mask handling_sig signal_actions killed frozen].
    by rewrite Hs, Hk, Hz, Z.lor_0_l.
Qed.

Lemma trap_end_main (k : Kernel) t x p res cx s w : in_trap k t x p res cx → tur_tid res = 0 → cx_ok (trap_cx s) →
  handle_signals_round (sig_state p cx (tk_backup x)) = Done (s, w) → w = false →
  ∃ k', in_trap k' t (with_backup x (trap_ctx_backup s)) (put_sigs p s) res (trap_cx s) ∧
    trap_end k = match check_error (signals s) with
                 | Some errno => (e ← exit_current errno; mret (Ended e)) k'
                 | None => trap_return k'
                 end.
Proof.
  intros I Ht0 Ok Hr ->. destruct (on_signals_run _ _ _ _ _ _ _ _ _ I Hr Ok) as (k' & Hrun & I' & _). exists k'. split; [exact I'|].
  pose proof I as [Hc Ht Hp Hres _ _]. unfold trap_end. erewrite kbind_run by by apply current_run.
  erewrite kbind_run by by apply get_task_run. rewrite Hres. erewrite kbind_run by done. rewrite Ht0. cbn [Z.eqb].
  erewrite kbind_run by exact Hrun. cbv beta iota. erewrite kbind_run by (apply get_proc_run, (it_proc _ _ _ _ _ _ I')).
  cbn [sigs put_sigs p_signals]. by case_match.
Qed.

Lemma trap_end_other (k : Kernel) t x p res cx : in_trap k t x p res cx → tur_tid res ≠ 0 → trap_end k = trap_return k.
Proof.
  intros [Hc Ht Hp Hres _ _] Hne. unfold trap_end. erewrite kbind_run by by apply current_run.
  erewrite kbind_run by by apply get_task_run. rewrite Hres. erewrite kbind_run by done. by destruct (Z.eqb_spec (tur_tid res) 0).
Qed.

(** C27. What becomes of a thread that faults, with no other signal pending.  The signal of the
    fault (11 for a page fault, 4 for an illegal instruction) is added to its process.  A thread
    other than the main one then returns to user space with its context unchanged, to execute the
    same instruction again, the signal left for the main thread.  The main thread goes on in the
    process's handler when there is one that nothing masks, with the signal's number as argument,
    all other registers as they were, and the faulting context saved for [sigreturn]; otherwise
    it ends the process with minus the signal as exit code. *)
Theorem fault_outcome irq time (k : Kernel) t x p res cx e u :
  in_trap k t x p res cx → fault_signal e = Some u → quiet p →
  let back := ToUser (trap_cx_user_va res) (MemorySet_token (memory_set p)) in
  ∃ k1, trap_begin irq time (CException e) k = Done (Continue, k1) ∧
    if negb (tur_tid res =? 0) then
      trap_end k1 = Done (back, k1) ∧ ∃ p1, in_trap k1 t x p1 res cx ∧ p_signals (sigs p1) = Z.shiftl 1 u
    else match fault_handler p u with
      | Some h => ∃ k2 p2, trap_end k1 = Done (back, k2) ∧
          in_trap k2 t (with_backup x (Some cx)) p2 res (set_x (set_sepc cx h) 10 u) ∧
          p_signals (sigs p2) = 0 ∧ p_handling_sig (sigs p2) = u
      | None => ∃ k2 p2, in_trap k2 t x p2 res cx ∧ p_signals (sigs p2) = Z.shiftl 1 u ∧
          trap_end k1 = (e ← exit_current (-u); mret (Ended e)) k2
      end.
Proof.
  intros I Hf Q back. destruct (trap_begin_fault irq time _ _ _ _ _ _ _ _ I Hf Q) as (k1 & p1 & Hb & I1 & Hu & Hms & Hsig).
  exists k1. split; [exact Hb|]. destruct Q as (_ & _ & _ & Hl & Hh & Hw).
  destruct (Z.eqb_spec (tur_tid res) 0) as [E0|E0]; cbn [negb].
  2:{ split; [|exists p1; split; [done|by rewrite Hsig]]. erewrite trap_end_other by done. erewrite trap_return_run by done. by rewrite Hms. }
  pose proof (read_trap_cx_ok _ _ _ (it_mem _ _ _ _ _ _ I1) (it_cx _ _ _ _ _ _ I1)) as Ok.
  set (s := sig_state p1 cx (tk_backup x)).
  assert (Hs : s = mkSig (Z.shiftl 1 u) (p_signal_mask (sigs p)) (p_handling_sig (sigs p)) (p_signal_actions (sigs p)) false false cx (tk_backup x)).
  { unfold s, sig_state. by rewrite Hsig. }
  destruct (fault_round s u) as (a & Ha & Hr); [by rewrite Hs; split; [done|split; [done|apply Ok]]|done|by rewrite Hs..|].
  assert (Ea : fault_handler p u = if deliverable s u && negb (handler a =? 0) then Some (handler a) else None).
  { rewrite Hs in Ha |- *. cbn [signal_actions] in Ha. unfold fault_handler, deliverable. rewrite Ha. cbn [signals signal_mask handling_sig signal_actions].
    assert (Hb0 : 0 ≤ u) by (repeat (apply elem_of_cons in Hu as [->|Hu]; [lia|]); by apply not_elem_of_nil in Hu).
    rewrite testbit_1_shiftl, Z.eqb_refl by done. cbn [andb]. destruct (Z.testbit (p_signal_mask (sigs p)) u); [done|]. cbn [orb negb andb].
    destruct (if p_handling_sig (sigs p) =? -1 then false else _); [done|]. cbn [negb andb]. change (Some a ≫= ?f) with (f a). cbn beta.
    by destruct (handler a =? 0). }
  rewrite Ea. destruct (deliverable s u && negb (handler a =? 0)) eqn:Ed.
  - assert (Hha : 0 ≤ handler a < 2 ^ 64) by (rewrite Hs in Ha; cbn [signal_actions] in Ha; by apply (Forall_lookup_1 _ _ _ _ Hw Ha)).
    edestruct (trap_end_main k1) as (k2 & I2 & Hend); [exact I1|done| |exact Hr|done|].
    + cbn [trap_cx]. apply words_ok_set; [apply words_ok_sepc; [by rewrite Hs|done]|].
      repeat (apply elem_of_cons in Hu as [->|Hu]; [lia|]); by apply not_elem_of_nil in Hu.
    + rewrite Hs in I2. cbn [trap_ctx_backup trap_cx signal_mask signal_actions] in I2. exists k2. eexists. split; [|split; [exact I2|done]].
      rewrite Hend. cbn [signals]. change (check_error 0) with (@None Z). cbv iota. erewrite trap_return_run by exact I2. cbn [memory_set put_sigs]. by rewrite Hms.
  - edestruct (trap_end_main k1) as (k2 & I2 & Hend); [exact I1|done| |exact Hr|done|]; [by rewrite Hs|].
    exists k2, (put_sigs p1 s). split; [|split]; [|by rewrite Hs|].
    2:{ rewrite Hend. rewrite Hs. cbn [signals].
        rewrite (check_error_fault u Hu). reflexivity. }
    rewrite Hs in I2 |- *. cbn [trap_ctx_backup trap_cx] in I2. replace (with_backup x (tk_backup x)) with x in I2 by (by destruct x). exact I2.
Qed.
End trap.

Lemma fault_outcome_witness :
  ∃ (k k1 k2 : Kernel (A := StackFrameAllocator) (H := list TimerCondVar) (F := unit)) p2,
    trap_begin (klift (Panicked PExplicit)) 0 (CException LoadPageFault) k = Done (Continue, k1) ∧
    trap_end k1 = Done (ToUser (2 ^ 64 - 2 ^ 13) (Z.lor (Z.shiftl 8 60) 5), k2) ∧
    get_proc 0 k2 = Done (p2, k2) ∧ p_handling_sig (sigs p2) = 11.
Proof.
  set (cx := mkTrap (replicate 32 0) 0 0 0 0 0).
  set (x := mkTask 0 0 (Some (mkTaskUserRes 0 0x1000)) (PPN 6) None None).
  set (acts := <[11%nat := mkAction 0x5000 0]> SignalActions_default).
  set (p := mkPcb (F := unit) 0 [] [] (mkMemorySet (mkPageTable (PPN 5) []) []) (mkTree false None [] 0) [] (mkProcSignals 0 0 (-1) acts false false)
    [Some 0%nat] (mkRecycle 1 []) no_sync).
  set (k := mkKernel {[0%nat := p]} {[0%nat := x]} ∅ (mkRecycle 1 []) RecycleAllocator_new (memory_set p) (mkMm Stack_new {[PPN 6 := zero_page]})
    (mkSleep (H := list TimerCondVar) [] (mkSched {[0%nat := Running]} [] (Some 0%nat))) 0 [] []).
  assert (I : in_trap k 0 x p (mkTaskUserRes 0 0x1000) cx).
  { split; [reflexivity..| |reflexivity]. apply map_Forall_singleton, zero_page_wf. }
  destruct (fault_outcome (klift (Panicked PExplicit)) 0 k 0 x p (mkTaskUserRes 0 0x1000) cx LoadPageFault 11 I eq_refl)
    as (k1 & Hb & k2 & p2 & He & I2 & _ & Hh).
  - repeat (split; [reflexivity|]). split; [by left|]. by apply (bool_decide_unpack _); vm_compute.
  - exists k, k1, k2, p2. split; [exact Hb|]. split; [exact He|]. split; [|exact Hh]. apply get_proc_run, (it_proc _ _ _ _ _ _ I2).
Defined.
