(* ===== verification/ExecArgs.v ===== *)
(** * ExecArgs.v: the arguments of a program ([exec] in [os/src/task/process.rs], [_start] in
    [user/src/lib.rs])

    [exec] lays the argument strings and the pointers to them out on the new program's stack,
    through the new page table; [_start] reads them back in user mode, through the same table.
    A user load goes the way of the hardware: the page must be mapped, readable and open to user
    mode. *)

From S2P Require Import Prelude Bytes Address FrameAlloc PageTable MemorySet Ids UserIo UserMem Layout Process.

(** ** The program's side *)

(** A byte read by the program. *)
Definition user_load (m : memory) (pt : PageTable) (a : Z) : outcome Z :=
  match mapping m pt (VPN (a / 4096)) with
  | Some e => if PTE_has PTE_R e && PTE_has PTE_U e then unwrap PInvalid (byte_at m (PTE_ppn e, a mod 4096)) else Panicked PInvalid
  | None => Panicked PInvalid
  end.

Section start.
Context (load : Z → outcome Z).

Fixpoint load_bytes (a : Z) (n : nat) : outcome (list Z) :=
  match n with
  | O => mret []
  | S n => b ← load a; l ← load_bytes (u64 (a + 1)) n; mret (b :: l)
  end.

(** [(a as *const usize).read_volatile()] *)
Definition load_usize (a : Z) : outcome Z := l ← load_bytes a 8; mret (le_value l).

(** [(0usize..).find(|i| ... == 0)], from the number [i] on: [None] when [n] bytes had no zero. *)
Fixpoint find_end (n : nat) (str_start i : Z) : outcome (option Z) :=
  match n with
  | O => mret None
  | S n =>
      b ← load (u64 (str_start + i));
      if b =? 0 then mret (Some i) else find_end n str_start (i + 1)
  end.

(** The loop of [_start], with [n] arguments left, from the number [i] on. *)
Fixpoint start_args (fuel n : nat) (argv i : Z) : outcome (option (list (list Z))) :=
  match n with
  | O => mret (Some [])
  | S n =>
      str_start ← load_usize (u64 (argv + u64 (i * 8)));
      len ← find_end fuel str_start 0;
      match len with
      | None => mret None
      | Some len =>
          arg_str ← load_bytes str_start (Z.to_nat len);
          assert_that (utf8_valid arg_str) PUnwrap;;
          v ← start_args fuel n argv (i + 1);
          mret (option_map (cons arg_str) v)
      end
  end.
End start.

(** What [main] is called with. *)
Definition _start (load : Z → outcome Z) (fuel : nat) (argc argv : Z) : outcome (option (list (list Z))) :=
  start_args load fuel (Z.to_nat argc) argv 0.

(** ** The stack, as a window of user addresses *)

Lemma zlen_cons {X} (x : X) l : zlen (x :: l) = 1 + zlen l.
Proof. unfold zlen. cbn [length]. lia. Qed.

Section window.
Context (pt : PageTable) (path : gmap PhysPageNum (list Z)) (ent : Z → PageTableEntry) (lo hi : Z).

(** Where the byte at [j] is. *)
Definition place_of (j : Z) : place := (PTE_ppn (ent (j / 4096)), j mod 4096).

(** The pages of the window have frames of their own, none of them a page table, open to the
    program. *)
Record own_frames : Prop := {
  of_range : 0 < lo ∧ hi ≤ 2 ^ 38;
  of_root : 0 ≤ ppn (root_ppn pt) < 2 ^ 44;
  of_ppn : ∀ j, lo ≤ j < hi → 0 < ppn (PTE_ppn (ent (j / 4096))) < 2 ^ 44;
  of_inj : ∀ j k, lo ≤ j < hi → lo ≤ k < hi → PTE_ppn (ent (j / 4096)) = PTE_ppn (ent (k / 4096)) → j / 4096 = k / 4096;
  of_table : ∀ j, lo ≤ j < hi → PTE_ppn (ent (j / 4096)) ∉ dom path;
  of_user : ∀ j, lo ≤ j < hi → PTE_has PTE_R (ent (j / 4096)) = true ∧ PTE_has PTE_U (ent (j / 4096)) = true;
}.

Record win (m : memory) : Prop := {
  w_tree : tree m (root_ppn pt) path;
  w_map : ∀ j, lo ≤ j < hi → mapping m pt (VPN (j / 4096)) = Some (ent (j / 4096));
  w_mem : ∀ j, lo ≤ j < hi → is_Some (m !! PTE_ppn (ent (j / 4096)));
}.

Definition user_at (m : memory) (j : Z) : option Z := byte_at m (place_of j).

(** From [m] to [m'] only window bytes with [P] may change. *)
Definition touched (P : Z → Prop) (m m' : memory) : Prop :=
  win m' ∧ ∀ pl, (∀ j, lo ≤ j < hi → P j → pl ≠ place_of j) → byte_at m' pl = byte_at m pl.

Context (O : own_frames).

Lemma place_inj j k : lo ≤ j < hi → lo ≤ k < hi → place_of j = place_of k → j = k.
Proof. intros Hj Hk E. pose proof (of_inj O j k Hj Hk (f_equal fst E)) as E1. pose proof (f_equal snd E) as E2. cbn in E2. dlia. Qed.

Lemma touched_at P m m' k : touched P m m' → lo ≤ k < hi → ¬ P k → user_at m' k = user_at m k.
Proof. intros [_ H] Hk Hn. apply H. intros j Hj HP E. apply place_inj in E; [by subst|done|done]. Qed.

Lemma touched_trans P Q m1 m2 m3 : touched P m1 m2 → touched Q m2 m3 → touched (λ j, P j ∨ Q j) m1 m3.
Proof. intros [_ H1] [W H2]. split; [done|]. intros pl Hpl. rewrite H2, H1; [done|naive_solver|naive_solver]. Qed.

Lemma touched_weaken (P Q : Z → Prop) m m' : (∀ j, P j → Q j) → touched P m m' → touched Q m m'.
Proof. intros Hi [W H]. split; [done|]. intros pl Hpl. apply H. auto. Qed.

Lemma touched_refl P m : win m → touched P m m.
Proof. done. Qed.

(** *** One byte *)

Lemma win_store m j b : win m → lo ≤ j < hi → 0 ≤ b < 256 → ∃ m', store_place m (place_of j) b = Done m' ∧
  user_at m' j = Some b ∧ touched (λ k, k = j) m m'.
Proof.
  intros [T M Me] Hj Hb. destruct (Me j Hj) as [pg Hpg]. pose proof (tr_wf _ _ _ T _ _ Hpg) as [Hl Hok].
  assert (Hoff : 0 ≤ j mod 4096 < zlen pg) by (unfold zlen; rewrite Hl; change (Z.of_nat PAGE_BYTES) with 4096; dlia).
  destruct (store_place_spec m (place_of j) b) as (m' & Hs & Hat & Hoth & _); [by exists pg|].
  exists m'. split; [done|]. split; [done|]. split; [|intros pl Hpl; apply Hoth; by apply Hpl].
  unfold store_place in Hs. cbn [place_of fst snd] in Hs. rewrite Hpg in Hs. cbn [unwrap] in Hs. rewrite outcome_bind_Done in Hs.
  apply outcome_bind_inv in Hs as (u & _ & [= <-]).
  assert (Hwf : wf_memory (<[PTE_ppn (ent (j / 4096)) := <[Z.to_nat (j mod 4096) := b]> pg]> m)).
  { apply map_Forall_insert_2; [|apply T]. split; [by rewrite length_insert|]. by apply Forall_insert. }
  assert (Hsame : ∀ p x, path !! p = Some x → <[PTE_ppn (ent (j / 4096)) := <[Z.to_nat (j mod 4096) := b]> pg]> m !! p = m !! p).
  { intros p x Hp. apply lookup_insert_ne. intros <-. apply (of_table O j Hj). by apply elem_of_dom. }
  split.
  - by apply (outside_tree m).
  - intros k Hk. rewrite (outside_mapping m _ (root_ppn pt) path T Hwf Hsame) by done. by apply M.
  - intros k Hk. destruct (decide (PTE_ppn (ent (j / 4096)) = PTE_ppn (ent (k / 4096)))) as [->|Hne].
    + by rewrite lookup_insert_eq.
    + rewrite lookup_insert_ne by done. by apply Me.
Qed.

(** *** Addresses *)

Lemma translated_window m j : win m → lo ≤ j < hi →
  ∃ a, translated_refmut m (PageTable_token pt) j = Done a ∧ 0 ≤ pa a ∧
    ∀ i, 0 ≤ i → j mod 4096 + i < 4096 → phys_place (PA (pa a + i)) = place_of (j + i).
Proof.
  intros W Hj. pose proof (of_range O). pose proof (of_ppn O j Hj) as Hp.
  exists (PA (ppn (PTE_ppn (ent (j / 4096))) * 4096 + j mod 4096)). split; [|split; [cbn [pa]; dlia|]].
  - unfold translated_refmut. rewrite token_roundtrip by apply O.
    destruct (translate_tree m (mkPageTable (root_ppn pt) []) path _ _ (w_tree _ W) (w_map _ W j Hj)) as [_ Hva].
    unfold VirtAddr_from. rewrite mask_land by done. change VA_WIDTH_SV39 with 39. rewrite (Z.mod_small j) by lia.
    rewrite (Hva (VA j)) by done. rewrite outcome_bind_Done. unfold VirtAddr_page_offset, PhysAddr_of_page. cbn [va unwrap pa].
    rewrite page_offset_eq, outcome_bind_Done. set (p := ppn (PTE_ppn (ent (j / 4096)))) in *.
    rewrite Z.shiftl_mul_pow2 by done. change (2 ^ PAGE_SIZE_BITS) with 4096. unfold PhysAddr_from. rewrite mask_land by done.
    change PA_WIDTH_SV39 with 56. pose proof (Z.mod_pos_bound j 4096 ltac:(lia)).
    rewrite (wrap_small 64 (p * 4096)), (wrap_small 64), (Z.mod_small (p * 4096 + j mod 4096)) by lia. cbn [pa].
    destruct (Z.eqb_spec (p * 4096 + j mod 4096) 0); [lia|done].
  - intros i Hi Hin. unfold phys_place, place_of, PhysAddr_floor, PhysAddr_page_offset. cbn [pa]. rewrite page_offset_eq.
    change PAGE_SIZE with 4096. assert ((j + i) / 4096 = j / 4096) as -> by dlia. f_equal; [|dlia].
    symmetry. apply PPN_eq. dlia.
Qed.

Lemma win_ok m j n : win m → 0 ≤ n → (∀ i, 0 ≤ i < n → lo ≤ j + i < hi) → ∀ i, 0 ≤ i < n → place_ok m (place_of (j + i)).
Proof.
  intros W Hn Hr i Hi. destruct (w_mem _ W (j + i) (Hr i Hi)) as [pg Hpg]. exists pg. split; [done|].
  pose proof (tr_wf _ _ _ (w_tree _ W) _ _ Hpg) as [Hl _]. unfold zlen. cbn. rewrite Hl. change (Z.of_nat PAGE_BYTES) with 4096. dlia.
Qed.

(** *** A run of bytes inside a page *)

Lemma win_store_phys bs : ∀ m j a, win m → bytes_ok bs → lo ≤ j → j + zlen bs ≤ hi →
  (∀ i, 0 ≤ i < zlen bs → phys_place (PA (a + i)) = place_of (j + i)) →
  ∃ m', store_phys m a bs = Done m' ∧ (∀ i b, bs !! i = Some b → user_at m' (j + Z.of_nat i) = Some b) ∧
    touched (λ k, j ≤ k < j + zlen bs) m m'.
Proof.
  induction bs as [|b bs IH]; intros m j a W Hok Hj Hhi Hpl; [by exists m|]. unfold zlen in *. cbn [length] in *.
  apply Forall_cons in Hok as [Hb Hok]. cbn [store_phys].
  pose proof (Hpl 0 ltac:(lia)) as H0. rewrite !Z.add_0_r in H0. rewrite H0.
  destruct (win_store m j b W) as (m1 & -> & Hat & Ht1); [lia|done|]. rewrite outcome_bind_Done.
  destruct (IH m1 (j + 1) (a + 1)) as (m2 & Hs & Hbs & Ht2); [apply Ht1|done|lia|lia| |].
  { intros i Hi. replace (a + 1 + i) with (a + (1 + i)) by lia. rewrite Hpl by lia. f_equal. lia. }
  exists m2. split; [done|]. split.
  - intros [|i] x Hx; cbn in Hx.
    + injection Hx as <-. rewrite Z.add_0_r, (touched_at _ _ _ j Ht2) by lia. done.
    + replace (j + Z.of_nat (S i)) with (j + 1 + Z.of_nat i) by lia. by apply Hbs.
  - eapply touched_weaken; [|eapply touched_trans; [exact Ht1|exact Ht2]]. cbn. intros k. lia.
Qed.

(** The assignments of [exec]: a byte, and a pointer in its aligned slot. *)
Lemma put_byte_spec m j b : win m → lo ≤ j < hi → 0 ≤ b < 256 → ∃ m', put_user_byte m (PageTable_token pt) j b = Done m' ∧
  user_at m' j = Some b ∧ touched (λ k, k = j) m m'.
Proof.
  intros W Hj Hb. destruct (translated_window m j W Hj) as (a & Ha & _ & Hpl).
  destruct (win_store m j b W Hj Hb) as (m' & Hs & Hm'). exists m'. split; [|done].
  unfold put_user_byte. rewrite Ha, outcome_bind_Done. unfold store_u8. cbn [store_phys].
  pose proof (Hpl 0 ltac:(lia) ltac:(dlia)) as E. rewrite !Z.add_0_r in E. by rewrite E, Hs, outcome_bind_Done.
Qed.

(** The word at [j] is [v]. *)
Definition word_is (m : memory) (j v : Z) : Prop := ∀ i b, le_bytes 8 v !! i = Some b → user_at m (j + Z.of_nat i) = Some b.

Lemma store_word_spec m m0 j a v : win m → win m0 → lo ≤ j → j + 8 ≤ hi → j mod 8 = 0 →
  translated_refmut m0 (PageTable_token pt) j = Done a → ∃ m', store_u64 m a v = Done m' ∧ word_is m' j v ∧
    touched (λ k, j ≤ k < j + 8) m m'.
Proof.
  intros W W0 Hj Hhi Hal Ha. destruct (translated_window m0 j W0 ltac:(lia)) as (a' & Ha' & _ & Hpl).
  rewrite Ha in Ha'. injection Ha' as <-.
  destruct (win_store_phys (le_bytes 8 v) m j (pa a) W) as (m' & Hs & Hbs & Ht); unfold zlen; rewrite ?length_le_bytes.
  - apply bytes_ok_le_bytes.
  - done.
  - lia.
  - intros i Hi. apply Hpl; dlia.
  - exists m'. split; [done|]. split; [done|]. by unfold zlen in Ht; rewrite length_le_bytes in Ht.
Qed.

(** *** The strings and the pointers *)

(** The bytes of [s] and a zero are at [p]. *)
Definition string_is (m : memory) (p : Z) (s : list Z) : Prop := ∀ i b, (s ++ [0]) !! i = Some b → user_at m (p + Z.of_nat i) = Some b.

Lemma touched_word P m m' j v : touched P m m' → lo ≤ j → j + 8 ≤ hi → (∀ k, j ≤ k < j + 8 → ¬ P k) → word_is m j v → word_is m' j v.
Proof.
  intros Ht Hj Hhi HP Hw i b Hb. pose proof (lookup_lt_Some _ _ _ Hb) as Hi. rewrite length_le_bytes in Hi.
  rewrite (touched_at _ _ _ _ Ht) by (lia || apply HP; lia). by apply Hw.
Qed.

Lemma touched_string P m m' p s : touched P m m' → lo ≤ p → p + zlen s + 1 ≤ hi → (∀ k, p ≤ k < p + zlen s + 1 → ¬ P k) →
  string_is m p s → string_is m' p s.
Proof.
  unfold zlen. intros Ht Hp Hhi HP Hs i b Hb. pose proof (lookup_lt_Some _ _ _ Hb) as Hi. rewrite length_app in Hi. cbn in Hi.
  rewrite (touched_at _ _ _ _ Ht) by (lia || apply HP; lia). by apply Hs.
Qed.

Lemma push_string_spec s : ∀ m p, win m → bytes_ok s → lo ≤ p → p + zlen s + 1 ≤ hi →
  ∃ m', push_string m (PageTable_token pt) p s = Done m' ∧ string_is m' p s ∧ touched (λ k, p ≤ k < p + zlen s + 1) m m'.
Proof.
  pose proof (of_range O) as Hr. unfold zlen. induction s as [|c s IH]; intros m p W Hok Hp Hhi; cbn [push_string length] in *.
  - destruct (put_byte_spec m p 0 W) as (m' & Hs & Hat & Ht); [lia|done|]. exists m'. split; [done|]. split.
    + intros [|i] b Hb; [|by destruct i]. injection Hb as <-. by rewrite Z.add_0_r.
    + eapply touched_weaken; [|exact Ht]. cbn. lia.
  - apply Forall_cons in Hok as [Hc Hok]. destruct (put_byte_spec m p c W) as (m1 & -> & Hat & Ht1); [lia|done|].
    rewrite outcome_bind_Done. rewrite (wrap_small 64 (p + 1)) by lia.
    destruct (IH m1 (p + 1)) as (m2 & Hs & Hstr & Ht2); [apply Ht1|done|lia|lia|].
    exists m2. split; [done|]. split.
    + intros [|i] b Hb; cbn in Hb.
      * injection Hb as <-. rewrite Z.add_0_r, (touched_at _ _ _ _ Ht2) by lia. done.
      * replace (p + Z.of_nat (S i)) with (p + 1 + Z.of_nat i) by lia. by apply Hstr.
    + eapply touched_weaken; [|eapply touched_trans; [exact Ht1|exact Ht2]]. cbn. lia.
Qed.

Lemma argv_refs_spec m n : ∀ base arg, win m → lo ≤ base → 0 ≤ arg → base + (arg + Z.of_nat n) * 8 ≤ hi →
  ∃ l, argv_refs m (PageTable_token pt) base n arg = Done l ∧ length l = n ∧
    ∀ i a, l !! i = Some a → translated_refmut m (PageTable_token pt) (base + (arg + Z.of_nat i) * 8) = Done a.
Proof.
  pose proof (of_range O) as Hr. induction n as [|n IH]; intros base arg W Hb Ha Hhi; cbn [argv_refs]; [by exists []|].
  rewrite wrap_small by lia. destruct (translated_window m (base + arg * 8) W ltac:(lia)) as (a & Hta & _). rewrite Hta, outcome_bind_Done.
  destruct (IH base (arg + 1) W Hb ltac:(lia) ltac:(lia)) as (l & -> & Hl & Hat). exists (a :: l). split; [done|]. split; [by cbn; f_equal|].
  intros [|i] b Hi; cbn in Hi.
  - injection Hi as <-. by rewrite Z.add_0_r.
  - replace (arg + Z.of_nat (S i)) with (arg + 1 + Z.of_nat i) by lia. by apply Hat.
Qed.

(** The bytes the strings take. *)
Fixpoint args_size (args : list (list Z)) : Z := match args with [] => 0 | s :: args => zlen s + 1 + args_size args end.

Lemma args_size_pos args : 0 ≤ args_size args.
Proof. induction args; cbn [args_size]; unfold zlen; lia. Qed.

(** The pointers at [base] point to the strings, which are in the bytes from [from] to [to]. *)
Definition argv_is (m : memory) (base from to : Z) (args : list (list Z)) : Prop :=
  ∀ i s, args !! i = Some s → ∃ p, from ≤ p ∧ p + zlen s + 1 ≤ to ∧ word_is m (base + Z.of_nat i * 8) p ∧ string_is m p s.

Lemma push_args_spec m0 args : ∀ m sp base argv, win m → win m0 → Forall bytes_ok args → (length args ≤ length argv)%nat →
  (∀ i a, argv !! i = Some a → translated_refmut m0 (PageTable_token pt) (base + Z.of_nat i * 8) = Done a) →
  base mod 8 = 0 → sp ≤ base → base + zlen args * 8 ≤ hi → lo ≤ sp - args_size args →
  ∃ m', push_args m (PageTable_token pt) sp args argv = Done (m', sp - args_size args) ∧
    argv_is m' base (sp - args_size args) sp args ∧
    touched (λ k, sp - args_size args ≤ k < sp ∨ base ≤ k < base + zlen args * 8) m m'.
Proof.
  pose proof (of_range O) as Hr. induction args as [|s args IH]; intros m sp base argv W W0 Hok Hla Hargv Hal Hsp Hhi Hlo;
    rewrite ?zlen_cons in *; cbn [args_size length push_args] in *.
  - exists m. rewrite Z.sub_0_r. split; [by destruct argv|]. split; [done|by apply touched_refl].
  - destruct argv as [|a argv]; cbn [length] in Hla; [lia|]. apply Forall_cons in Hok as [Hs Hok]. pose proof (args_size_pos args) as Hpos.
    assert (Hz : 0 ≤ zlen s) by (unfold zlen; lia). assert (Hza : 0 ≤ zlen args) by (unfold zlen; lia). rewrite (wrap_small 64 (sp - (zlen s + 1))) by lia.
    destruct (store_word_spec m m0 base a (sp - (zlen s + 1)) W W0) as (m1 & -> & Hw & Ht1); [lia|lia|done| |].
    { pose proof (Hargv 0%nat a eq_refl) as E. by rewrite Z.mul_0_l, Z.add_0_r in E. }
    rewrite outcome_bind_Done.
    destruct (push_string_spec s m1 (sp - (zlen s + 1))) as (m2 & -> & Hstr & Ht2); [apply Ht1|done|lia|lia|]. rewrite outcome_bind_Done.
    destruct (IH m2 (sp - (zlen s + 1)) (base + 8) argv) as (m3 & -> & Hargs & Ht3); [apply Ht2|done|done|lia| |dlia|lia|lia|lia|].
    { intros i b Hb. replace (base + 8 + Z.of_nat i * 8) with (base + Z.of_nat (S i) * 8) by lia. by apply (Hargv (S i)). }
    exists m3. replace (sp - (zlen s + 1) - args_size args) with (sp - (zlen s + 1 + args_size args)) in * by lia. split; [done|]. split.
    + intros [|i] x Hx; cbn in Hx.
      * injection Hx as <-. exists (sp - (zlen s + 1)). rewrite Z.mul_0_l, Z.add_0_r. split; [lia|]. split; [lia|]. split.
        -- eapply touched_word; [exact Ht3|lia|lia|cbn; lia|]. eapply touched_word; [exact Ht2|lia|lia|cbn; lia|done].
        -- eapply touched_string; [exact Ht3|lia|lia|cbn; lia|done].
      * destruct (Hargs i x Hx) as (p & Hp & Hpe & Hpw & Hps). exists p. split; [lia|]. split; [lia|].
        replace (base + Z.of_nat (S i) * 8) with (base + 8 + Z.of_nat i * 8) by lia. done.
    + eapply touched_weaken; [|eapply touched_trans; [eapply touched_trans; [exact Ht1|exact Ht2]|exact Ht3]]. cbn. lia.
Qed.

(** *** What [exec] does to the stack *)

Lemma exec_stack_spec m args : win m → Forall bytes_ok args → hi mod 8 = 0 → lo ≤ hi - (zlen args + 1) * 8 - args_size args →
  let base := hi - (zlen args + 1) * 8 in
  let sp := base - args_size args in
  ∃ m', exec_stack m (PageTable_token pt) hi args = Done (m', base, sp - sp mod 8) ∧
    argv_is m' base sp base args ∧ word_is m' (base + zlen args * 8) 0 ∧ touched (λ k, sp ≤ k < hi) m m'.
Proof.
  intros W Hok Hal Hlo base sp. pose proof (of_range O) as Hr. pose proof (args_size_pos args) as Hpos.
  assert (Hz : 0 ≤ zlen args) by (unfold zlen; lia). unfold exec_stack. rewrite (wrap_small 64) by lia. fold base. cbv zeta.
  destruct (argv_refs_spec m (S (length args)) base 0 W) as (l & -> & Hl & Hat); [unfold base; lia|lia|unfold base, zlen; lia|].
  rewrite outcome_bind_Done. destruct (lookup_lt_is_Some_2 l (length args)) as [last Hlast]; [lia|].
  assert (En : nth_or_panic l (zlen args) = Done last).
  { unfold nth_or_panic, zlen. destruct (Z.ltb_spec (Z.of_nat (length args)) 0); [lia|]. by rewrite Nat2Z.id, Hlast. }
  rewrite En, outcome_bind_Done.
  destruct (store_word_spec m m (base + zlen args * 8) last 0 W W) as (m1 & -> & Hw & Ht1); [unfold base; lia|unfold base; lia|unfold base; dlia| |].
  { apply (Hat _ _ Hlast). }
  rewrite outcome_bind_Done.
  destruct (push_args_spec m args m1 base base l) as (m2 & Hp & Hargs & Ht2);
    [apply Ht1|done|done|lia|exact Hat|unfold base; dlia|lia|unfold base; lia|lia|].
  rewrite Hp, outcome_bind_Done. fold sp. exists m2. split; [|split; [done|split]].
  - do 3 f_equal. apply wrap_small. assert (0 ≤ sp mod 8 < 8) by (apply Z.mod_pos_bound; lia). unfold sp, base in *. dlia.
  - eapply touched_word; [exact Ht2|unfold base; lia|unfold base; lia|cbn; unfold base; lia|done].
  - eapply touched_weaken; [|eapply touched_trans; [exact Ht1|exact Ht2]]. cbn. unfold sp, base. lia.
Qed.

(** *** What the program reads *)

Lemma user_load_at m j b : win m → lo ≤ j < hi → user_at m j = Some b → user_load m pt j = Done b.
Proof.
  intros W Hj Hb. unfold user_load. rewrite (w_map _ W j Hj). destruct (of_user O j Hj) as [-> ->]. cbn [andb].
  unfold user_at, place_of in Hb. by rewrite Hb.
Qed.

Lemma load_bytes_spec m bs : ∀ j, win m → lo ≤ j → j + zlen bs ≤ hi → (∀ i b, bs !! i = Some b → user_at m (j + Z.of_nat i) = Some b) →
  load_bytes (user_load m pt) j (length bs) = Done bs.
Proof.
  pose proof (of_range O) as Hr. induction bs as [|b bs IH]; intros j W Hj Hhi Hbs; cbn [load_bytes length]; [done|].
  rewrite zlen_cons in Hhi. assert (0 ≤ zlen bs) by (unfold zlen; lia). pose proof (Hbs 0%nat b eq_refl) as H0. rewrite Z.add_0_r in H0.
  rewrite (user_load_at m j b W ltac:(lia) H0), outcome_bind_Done. rewrite wrap_small by lia.
  rewrite IH; [done|done|lia|lia|]. intros i x Hx. replace (j + 1 + Z.of_nat i) with (j + Z.of_nat (S i)) by lia. by apply Hbs.
Qed.

Lemma load_usize_spec m j v : win m → lo ≤ j → j + 8 ≤ hi → 0 ≤ v < 2 ^ 64 → word_is m j v → load_usize (user_load m pt) j = Done v.
Proof.
  intros W Hj Hhi Hv Hw. unfold load_usize. pose proof (load_bytes_spec m (le_bytes 8 v) j W Hj) as E. rewrite length_le_bytes in E.
  unfold zlen in E. rewrite length_le_bytes in E. rewrite E by done. rewrite outcome_bind_Done. f_equal. by apply le_value_bytes_small.
Qed.

(** A string without a zero byte. *)
Definition c_string (s : list Z) : Prop := bytes_ok s ∧ Forall (λ b, b ≠ 0) s ∧ utf8_valid s = true.

Lemma find_end_spec m s2 : ∀ s1 n p, win m → lo ≤ p → p + zlen (s1 ++ s2) + 1 ≤ hi → string_is m p (s1 ++ s2) → Forall (λ b, b ≠ 0) s2 →
  (length s2 < n)%nat → find_end (user_load m pt) n p (zlen s1) = Done (Some (zlen (s1 ++ s2))).
Proof.
  pose proof (of_range O) as Hr. induction s2 as [|b s2 IH]; intros s1 n p W Hp Hhi Hs Hnz Hn; (destruct n as [|n]; [cbn in Hn; lia|]); cbn [find_end];
    unfold zlen in *; rewrite ?length_app in *; cbn [length] in *; rewrite (wrap_small 64) by lia.
  - rewrite (user_load_at m _ 0 W); [by rewrite outcome_bind_Done, Nat.add_0_r|lia|]. apply (Hs (length s1)).
    rewrite app_nil_r, lookup_app_r, Nat.sub_diag by lia. done.
  - apply Forall_cons in Hnz as [Hb Hnz]. rewrite (user_load_at m _ b W); [|lia|].
    + rewrite outcome_bind_Done. destruct (Z.eqb_spec b 0); [done|].
      pose proof (IH (s1 ++ [b]) n p W Hp) as E. rewrite <- app_assoc in E. rewrite !length_app in E. cbn [length app] in E.
      replace (Z.of_nat (length s1) + 1) with (Z.of_nat (length s1 + 1)) by lia. rewrite E; [done|lia|done|done|lia].
    + apply (Hs (length s1)). rewrite lookup_app_l by (rewrite length_app; cbn; lia). rewrite lookup_app_r, Nat.sub_diag by lia. done.
Qed.

Lemma start_args_spec m from to fuel args : ∀ i base, win m → lo ≤ from → to ≤ hi → lo ≤ base → 0 ≤ i → base + (i + zlen args) * 8 ≤ hi →
  argv_is m (base + i * 8) from to args → Forall c_string args → Forall (λ s, (length s < fuel)%nat) args →
  start_args (user_load m pt) fuel (length args) base i = Done (Some args).
Proof.
  pose proof (of_range O) as Hr. induction args as [|s args IH]; intros i base W Hf Ht Hb Hi Hhi Hargs Hc Hfuel; cbn [start_args length]; [done|].
  rewrite zlen_cons in Hhi. assert (0 ≤ zlen args) by (unfold zlen; lia). apply Forall_cons in Hc as [(Hok & Hnz & Hu) Hc]. apply Forall_cons in Hfuel as [Hfs Hfuel].
  rewrite (wrap_small 64 (i * 8)), (wrap_small 64) by lia.
  destruct (Hargs 0%nat s eq_refl) as (p & Hp & Hpe & Hw & Hs). rewrite Z.mul_0_l, Z.add_0_r in Hw. assert (0 ≤ zlen s) by (unfold zlen; lia).
  rewrite (load_usize_spec m _ p W) by (lia || done). rewrite outcome_bind_Done.
  pose proof (find_end_spec m s [] fuel p W ltac:(lia) ltac:(cbn [app]; lia) Hs Hnz Hfs) as E. change (zlen []) with 0 in E. cbn [app] in E.
  rewrite E, outcome_bind_Done. unfold zlen at 1. rewrite Nat2Z.id.
  rewrite (load_bytes_spec m s p W) by (lia || (intros k b Hk; apply Hs; by apply lookup_app_l_Some)).
  rewrite outcome_bind_Done, Hu. cbn [assert_that]. rewrite outcome_bind_Done.
  rewrite IH; [by rewrite outcome_bind_Done|done|done|done|done|lia|lia| |done|done].
  intros k x Hk. destruct (Hargs (S k) x Hk) as (q & ?). exists q. by replace (base + (i + 1) * 8 + Z.of_nat k * 8) with (base + i * 8 + Z.of_nat (S k) * 8) by lia.
Qed.
End window.

(** ** The stack is a framed area *)

(** [MapPermission::R | MapPermission::W | MapPermission::U] *)
Definition STACK_PERM : Z := Z.lor (Z.lor MapPermission_R MapPermission_W) MapPermission_U.

Section stack.
Context (m : memory) (pt : PageTable) (path : gmap PhysPageNum (list Z)) (used : gset PhysPageNum) (ar : MapArea).
Context (g : VirtPageNum → PhysPageNum) (T : tree m (root_ppn pt) path) (Hh : held m pt path used STACK_PERM ar g).
Notation lo := (vpn (rl (vpn_range ar)) * 4096).
Notation hi := (vpn (rr (vpn_range ar)) * 4096).

Definition stack_entry (v : Z) : PageTableEntry := PTE_new (g (VPN v)) (Z.lor STACK_PERM PTE_V).

Lemma stack_page j : lo ≤ j < hi → VPN (j / 4096) ∈ range_pages (vpn_range ar).
Proof. intros Hj. destruct (vpn_range ar) as [l r]. cbn in *. apply range_pages_spec; cbn; dlia. Qed.

Lemma stack_frame j : lo ≤ j < hi → PTE_ppn (stack_entry (j / 4096)) = g (VPN (j / 4096)).
Proof. intros Hj. apply PTE_ppn_new; [|done]. by apply (h_frame _ _ _ _ _ _ _ Hh), stack_page. Qed.

Lemma stack_win : win pt path stack_entry lo hi m.
Proof.
  split; [done| |].
  - intros j Hj. by apply (h_map _ _ _ _ _ _ _ Hh), stack_page.
  - intros j Hj. rewrite stack_frame by done. by apply (h_frame _ _ _ _ _ _ _ Hh), stack_page.
Qed.
Context (Hlo : 0 < lo) (Hhi : hi ≤ 2 ^ 38) (Hnz : ∀ v, v ∈ range_pages (vpn_range ar) → 0 < ppn (g v)).

Lemma stack_own_frames : own_frames pt path stack_entry lo hi.
Proof.
  split.
  - done.
  - eapply (tr_mem _ _ _ T). apply (tr_root _ _ _ T).
  - intros j Hj. rewrite stack_frame by done. pose proof (stack_page j Hj) as Hp. pose proof (Hnz _ Hp).
    pose proof (h_frame _ _ _ _ _ _ _ Hh _ Hp) as (_ & _ & _ & ?). lia.
  - intros j k Hj Hk. rewrite !stack_frame by done. intros E.
    pose proof (h_inj _ _ _ _ _ _ _ Hh _ _ (stack_page j Hj) (stack_page k Hk) E) as Ev. by injection Ev.
  - intros j Hj. rewrite stack_frame by done. apply not_elem_of_dom. by apply (h_frame _ _ _ _ _ _ _ Hh), stack_page.
  - intros j Hj. pose proof (h_frame _ _ _ _ _ _ _ Hh _ (stack_page j Hj)) as (_ & _ & _ & ?).
    unfold PTE_has, stack_entry. by rewrite PTE_flags_new.
Qed.

End stack.

(** C9. The arguments [exec] gives a program are the arguments its [main] gets: when the stack is an
    area mapped for the user with room for the strings, their zeros and the pointers, [exec] lays
    them out without a fault: from the top down the pointers, ended by a null pointer, at [argv], then the strings,
    each between the stack pointer and [argv] with its zero, packed without a gap, and the stack pointer is
    the lowest string's address rounded down to a multiple of 8, so that what the program pushes
    touches none of them.  Only the bytes from the lowest string to the top are written.  And [_start],
    called with the number of strings and [argv], reads back exactly the same strings in the same
    order through the program's page table. *)
Theorem exec_args_roundtrip m pt path used ar g args fuel :
  let lo := vpn (rl (vpn_range ar)) * 4096 in
  let hi := vpn (rr (vpn_range ar)) * 4096 in
  tree m (root_ppn pt) path → held m pt path used STACK_PERM ar g → (∀ v, v ∈ range_pages (vpn_range ar) → 0 < ppn (g v)) →
  0 < lo → hi ≤ 2 ^ 38 → Forall c_string args → Forall (λ s, (length s < fuel)%nat) args →
  lo + (zlen args + 1) * 8 + args_size args ≤ hi →
  ∃ m' argv sp, exec_stack m (PageTable_token pt) hi args = Done (m', argv, sp) ∧
    argv = hi - (zlen args + 1) * 8 ∧ sp = (argv - args_size args) / 8 * 8 ∧
    (∀ i s, args !! i = Some s → ∃ p, load_usize (user_load m' pt) (argv + Z.of_nat i * 8) = Done p ∧ sp ≤ p ∧ p + zlen s + 1 ≤ argv) ∧
    load_usize (user_load m' pt) (argv + zlen args * 8) = Done 0 ∧
    _start (user_load m' pt) fuel (zlen args) argv = Done (Some args) ∧
    (∀ pl, (∀ j, lo ≤ j < hi → hi - (zlen args + 1) * 8 - args_size args ≤ j → pl ≠ (g (VPN (j / 4096)), j mod 4096)) →
       byte_at m' pl = byte_at m pl).
Proof.
  intros lo hi T Hh Hnz Hlo Hhi Hc Hfuel Hfit.
  pose proof (stack_own_frames m pt path used ar g T Hh Hlo Hhi Hnz) as O. pose proof (stack_win m pt path used ar g T Hh) as W.
  pose proof (args_size_pos args) as Hpos. assert (Hz : 0 ≤ zlen args) by (unfold zlen; lia).
  destruct (exec_stack_spec pt path (stack_entry g) lo hi O m args W) as (m' & Hrun & Hargs & Hnull & Ht).
  - eapply Forall_impl; [exact Hc|]. by intros s (? & _).
  - unfold hi. dlia.
  - lia.
  - set (base := hi - (zlen args + 1) * 8) in *. set (sp := base - args_size args) in *.
    exists m', base, (sp - sp mod 8). split; [done|]. split; [done|]. split; [dlia|].
    assert (Hsp : lo ≤ sp) by (unfold sp, base; lia). assert (Hbase : sp ≤ base) by (unfold sp; lia).
    assert (Hmod : 0 ≤ sp mod 8) by by apply Z.mod_pos_bound.
    split; [|split; [|split]].
    + intros i s Hi. destruct (Hargs i s Hi) as (p & Hp & Hpe & Hw & _). exists p. split; [|lia].
      assert (Z.of_nat i < zlen args) by (apply lookup_lt_Some in Hi; unfold zlen; lia).
      apply (load_usize_spec pt path (stack_entry g) lo hi O m'); [apply Ht|unfold base in *; lia..| |done].
      assert (0 ≤ zlen s) by apply Nat2Z.is_nonneg. unfold base in *. lia.
    + apply (load_usize_spec pt path (stack_entry g) lo hi O m'); [apply Ht|unfold base in *; lia..|lia|done].
    + clear Hsp Hbase Hmod. unfold _start. unfold zlen. rewrite Nat2Z.id.
      apply (start_args_spec pt path (stack_entry g) lo hi O m' sp base); [apply Ht|unfold sp, base in *; lia..| | |]; try done.
      by rewrite Z.mul_0_l, Z.add_0_r.
    + intros pl Hpl. apply Ht. intros j Hj Hjs. unfold place_of. rewrite (stack_frame m pt path used ar g Hh j Hj). apply Hpl; [done|].
      unfold sp, base in Hjs. lia.
Qed.

Lemma exec_args_roundtrip_witness :
  let args := [[0x61; 0x61]; [0x62; 0x62]] in
  ∃ m pt m' argv sp, exec_stack m (PageTable_token pt) 0x5000 args = Done (m', argv, sp) ∧
    argv = 0x4fe8 ∧ sp = 0x4fe0 ∧ _start (user_load m' pt) 3 2 argv = Done (Some args).
Proof.
  intros args. destruct PageTableWitness.table as (pt & a & m & S & Hr & _ & Hm).
  destruct (insert_framed_spec a m (mkMemorySet pt []) _ _ _ (VA 0x3000) (VA 0x5000) STACK_PERM S)
    as (ms' & a' & m' & path' & free' & used' & ar & g & _ & S' & I);
    [by vm_compute|by vm_compute|by split|intros v Hv%range_pages_spec; change (3 ≤ vpn v < 5) in Hv; apply Hm; lia| |].
  - rewrite size_difference, size_singleton by set_solver.
    assert (size PageTableWitness.frames = 15%nat) as -> by by vm_compute. by apply (bool_decide_unpack _); vm_compute.
  - pose proof (in_held _ _ _ _ _ _ _ _ _ _ _ _ _ _ I) as Hh. pose proof (in_rg _ _ _ _ _ _ _ _ _ _ _ _ _ _ I) as Erg.
    destruct (exec_args_roundtrip m' (page_table ms') path' used' ar g args 3) as (m2 & argv & sp & Hrun & Ea & Es & _ & _ & Hst & _).
    + apply S'.
    + exact Hh.
    + intros v Hv. rewrite Erg in Hv. destruct (in_new _ _ _ _ _ _ _ _ _ _ _ _ _ _ I v Hv) as [Hg _].
      apply elem_of_difference in Hg as [Hg _]. apply elem_of_list_to_set, list_elem_of_fmap in Hg as (x & -> & Hx%elem_of_seqZ). cbn. lia.
    + rewrite Erg. by vm_compute.
    + rewrite Erg. by vm_compute.
    + repeat constructor; try done; lia.
    + repeat constructor; cbn; lia.
    + rewrite Erg. by vm_compute.
    + rewrite Erg in Hrun, Ea. exists m', (page_table ms'), m2, argv, sp. split; [exact Hrun|]. split; [exact Ea|]. split; [by rewrite Es, Ea|exact Hst].
Defined.
